(* ===== verification/_CoqProject ===== *)
-Q . S2P
Prelude.v
RequestState.v
Acl.v
Tags.v
Resource.v
ResourceSpec.v
JobDefinition.v
JobSpec.v
Execution.v
ExecutionSpec.v
Supervisor.v
SupervisorSpec.v
Approval.v
ApprovalSpec.v
Lru.v
LruSpec.v
Stats.v
StatsSpec.v
Tables.v
JobStore.v
JobStoreSpec.v
DefinitionSpec.v
StoreTypeSpec.v
JobRequest.v
JobRequestSpec.v
JobManager.v
JobManagerSpec.v
Scheduler.v
SchedulerSpec.v
LauncherSpec.v
TaskMessage.v
Tasklet.v
TaskletSpec.v
Trigger.v
TriggerSpec.v
Retention.v
Ant.v
AntSpec.v
AntExecutor.v
AntExecutorSpec.v
Queue.v
QueueSpec.v
WsQueue.v
WsQueueSpec.v
Gateway.v
GatewaySpec.v
Account.v
AccountStore.v
AccountManager.v
AccountSpec.v
Diagram.v
DiagramSpec.v
Variables.v
VariablesSpec.v
Artifacts.v
ArtifactsSpec.v
JobResources.v
JobResourcesSpec.v
