(* ===== verification/Prelude.v ===== *)
(** * Formicary: a verification library

    Formicary is a distributed orchestration engine.  A server, the queen, keeps
    job definitions (a set of tasks with exit codes that say which task comes
    next) and job requests; workers, the ants, register with the queen and run
    tasks.  A request is scheduled when ants with the right methods and tags can
    be reserved; a supervisor then runs the tasks one after the other, sending
    each to its ant, following exit codes, retrying, pausing, and asking for
    manual approval.  Triggers submit jobs for outside events, and old jobs are
    purged.  This library models the parts of the queen and of its ants that
    carry this logic, from the Go sources under [src/internal], [src/queen] and
    [src/ants], as executable definitions, and proves what makes them correct.

    ** Files and what they model

    - [Prelude] (this file): Go's strings, maps, results, sorting and 64-bit
      arithmetic, with the lemmas, tactics and hints that the other files share.
    - [RequestState]: [internal/types/request_state.go], [task_method.go] and
      [error_code.go]: the states of requests and tasks, their predicates and
      the transition table ([Module State]), task methods ([Module Method]) and
      error codes ([Module ErrorCodes]).
    - [Acl]: [internal/acl], the permission parts of [internal/types/user.go],
      the gRPC interceptor and the check of the web server: permissions
      ([Perm]), roles ([Roles]), the user's permission cache ([Users]) and the
      two authorization checks ([Auth]).
    - [Tags]: tag matching and names of [internal/utils].
    - [Resource], [ResourceSpec]: [internal/types/ant_registration.go],
      [ant_reservation.go], [internal/events/container_event.go] and
      [queen/resource]: ants ([Ants]), containers ([Containers]), the allocation
      state with all its indexes ([Alloc], the Go type [State]) and the manager
      with its reapers and queue callbacks ([Manager]), as a step relation.
    - [JobDefinition], [JobSpec]: [queen/types/job_definition.go] and
      [task_definition.go] with the configurations they contain: validation,
      the next task, status overrides, versions, retention and delays.
    - [Execution], [ExecutionSpec]: [queen/types/job_execution.go] and
      [task_execution.go]: contexts, and tasks as pointers into a heap.
    - [Supervisor], [SupervisorSpec]: [queen/supervisor] and the operations of
      [queen/fsm] it drives.
    - [Approval], [ApprovalSpec]: [queen/approval], [queen/types/approval_*.go]
      and [internal/types/query_context.go]: votes, quorum, deadlines and the
      tenant scope of queries, over a database of tables.
    - [Lru], [LruSpec]: [internal/utils/lru.go], refined to a list.
    - [Stats], [StatsSpec]: [internal/math] and [queen/stats]: rolling averages
      and extremes ([Rolling]), the counters of one job type ([JobStats]) and the
      registry of pending and running jobs with its wait estimates ([Registry]).
    - [Tables]: the rows of the queen's database, SQL statements over them and a
      store monad in which every statement may fail and a transaction rolls back.
    - [JobStore], [JobStoreSpec], [DefinitionSpec], [StoreTypeSpec]: the
      repositories [queen/repository/job_request_repository_impl.go],
      [job_execution_repository_impl.go] and [job_definition_repository_impl.go]
      ([Requests], [Executions], [ExecutionSave], [Definitions]).
    - [JobRequest], [JobRequestSpec]: [internal/types/name_type_value.go],
      [queen/types/job_request.go] and [job_request_info.go]: typed and secret
      values ([NameValue]), cron schedules with their user keys ([Schedule]) and
      request objects ([Request]).
    - [JobManager], [JobManagerSpec]: [queen/manager/job_manager.go]: submitting,
      saving, pausing, cancelling with its cascade, restarting, triggering,
      finishing, quotas, and the statistics at the start.
    - [Scheduler], [SchedulerSpec], [LauncherSpec]: the scheduling half of
      [queen/fsm/job_execution_state.go] ([Fsm]), [queen/scheduler]
      ([Scheduling]) and [queen/launcher] ([Launching]).
    - [TaskMessage]: [internal/types/task_request.go], [task_response.go],
      [variable_value.go], [sub_workflow_config.go] and part of
      [executor_opts.go]: what the queen and its ants send each other.
    - [Tasklet], [TaskletSpec]: [queen/tasklet]: waiting for child jobs
      ([Waiter]), forking them ([Fork]) and fanning out over tasks or jobs
      ([Fan], goroutines as steps over a semaphore).
    - [Trigger], [TriggerSpec]: [queen/trigger] and the stored state of triggers:
      evaluation and submission ([Pipeline]), webhooks ([Webhook]), queue,
      notification and polling sources ([Sources]) and their manager
      ([TriggerManager]).
    - [Retention]: [queen/manager/retention_manager.go], with its theorems.
    - [Ant], [AntSpec]: [internal/tasklet], [ants/registry],
      [ants/executor/utils] and [ants/handler/request_handler.go]: requests in
      progress ([InProgress]), containers ([Running], [Reaper]), the tasklet whose
      goroutines receive, execute and answer requests ([Worker]) and the ant's
      executor of it ([AntHandler]).
    - [AntExecutor], [AntExecutorSpec]: [ants/handler/request_executor.go] and
      [ants/transfer]: the execution of one task with its scripts, artifacts and
      container ([Execution_]), and the options it reads ([Options]).
    - [Queue], [QueueSpec]: [internal/queue]: headers, checks and counters, the
      multiplexer of a topic ([Mx]) and the client within one process
      ([Channel]).
    - [WsQueue], [WsQueueSpec]: the clients over WebSockets: the ant's store of
      unsent messages ([Buffer]), the client of an ant ([WsAnt]) and of the queen
      ([WsServer]).
    - [Gateway], [GatewaySpec]: [queen/gateway]: leases of browser connections
      ([Leases]), their registry with its indexes ([Registry]) and the gateway that
      hands events to them ([Gw], writers and reaper as steps).
    - [Account], [AccountStore], [AccountManager], [AccountSpec]: users,
      organizations, invitations, verifications, subscriptions, tokens and
      sessions of [internal/types] and [queen/types], their repositories (over
      [Bank], a database whose statements may fail) and
      [queen/manager/user_manager.go], with the sign-up form of
      [queen/controller/admin/user_admin_controller.go].
    - [Diagram], [DiagramSpec]: [queen/diagrams]: the tree of a job's tasks as nodes
      with addresses ([Tree]), and its two texts ([Dot], [Mermaid]).
    - [Variables], [VariablesSpec]: the variables and configurations of
      [queen/types/task_definition.go] and [job_definition.go], with
      [queen/utils/yaml_helper.go]: what is stored of the fields that have no column
      and what is made of it.
    - [Artifacts], [ArtifactsSpec]: [internal/types/artifact.go],
      [internal/artifacts/service_s3.go], the table, the manager and the expiry of
      artifacts ([Art], [S3], [ArtRepo], [ArtManager]).
    - [JobResources], [JobResourcesSpec]: [queen/types/job_resource.go],
      [job_resource_use.go] and their repository.

    A file with the suffix [Spec] holds the theorems about the file it is named
    after and concrete inputs for them; smaller components have their theorems
    in their own file.  Record fields and functions keep their Go names, with a
    prefix where two types share a field name.

    ** How the parts interact

    [Supervisor] runs a [Job.JobDefinition]: it asks [Job.GetNextTask] and
    [Task.OverrideStatusAndErrorCode] where to go, changes an
    [JobExec.JobExecution], and meets ants, database, resource manager and event
    bus through the class [Env]: a call is an event of the trace, and its answer
    an arbitrary function of the trace.  [Resource.Manager] serves any kind of
    task through the class [TaskSpec], of which [JobDefinition] gives the
    instance for task definitions.  Ranges over Go maps go through the class
    [RangeOrder]: an arbitrary order for each map.

    The job manager's state joins the store, the statistics registry, accounts,
    published events, audit records and started goroutines; its operations are
    sequences of repository calls ([repo]) and registry updates ([stats]).  The
    scheduler's state joins that of the job manager with the allocations of the
    resource manager: [scheduleJob] validates with [Job.Validate], compares the
    counts of [Registry], reserves with [Resource.Manager.ReserveJobResources],
    saves an execution through the job manager and sends a launch message, which
    [Launching.launchJob] receives.  The supervisor a launch starts is that of
    [Supervisor], which keeps its own view of request and execution.  The
    tasklets run as ants of the queen: [Fork] and [Fan] save child requests
    through the job manager, [Waiter] polls it, and [Fan] reserves ants from the
    resource manager, which other goroutines use between its steps.

    A trigger source evaluates an event against the trigger's stored state and
    submits a request through the job manager; the retention manager purges
    through the repositories.  On an ant, [Worker] is a client of the class
    [Executor], which [AntHandler] implements over the container registry; the
    registration that it publishes is what [Resource.Manager.Register] receives.
    [Worker] takes the reply of an execution as given; [Execution_] says what it
    is, with the class [Node] for everything outside the ant.  The other parts
    use message queues through their answers only; [Queue] and [WsQueue] model
    the queues themselves, and both hand messages on with [Mx.Notify].

    The gateway receives the events of jobs, tasks and ants and passes them to the
    leases of their users.  The user manager joins the repositories of accounts,
    which share one database and one trail of audits; permissions and roles are
    those of [Acl].  Diagrams read a [Job.JobDefinition] and an execution of it.
    [Variables] wraps a [Task.TaskDefinition] and a [Job.JobDefinition] with the
    fields that are kept as rows of [NameValue], of which [JobResources] uses the
    same kind for its configurations.  The artifacts that ants report
    ([Execution_]) enter the table through [ArtManager.UpdateArtifact]; the
    repositories of artifacts and resources take their tenant scope from
    [Approval.Query], as all repositories do.

    ** What the theorems show

    - Resource manager: every reachable state has consistent indexes; a
      reservation is refused exactly when no eligible ant exists, panics only on
      the nil map of an allocation that an ant has reported without task types,
      and picks the least loaded ant; releasing undoes reserving, a failed job
      reservation rolls back; unregistering and reaping remove exactly what they
      should.
    - Job definitions: a validated definition is a well-formed graph with one
      first task; the next task follows the exit codes; the override table;
      validation is stable; delays are bounded.
    - Supervisors: a job without cycles ends once its ants no longer ask to be
      polled, with explicit bounds on runs, tasks and requests; a completed job has
      no task that failed or was cancelled but those allowed to; a submitted
      task ends in a final state and is sent at most retries plus one times; a
      cycle of completed tasks never returns.
    - Approvals: one vote per voter over all call sequences and database
      failures; a request resumes only with a quorum of distinct voters; the
      rejection rule; votes and breached deadlines are final; refused calls
      change nothing; queries stay in their tenant.
    - Repositories: a request and its execution change state together or not at
      all; ended executions are final under every call but a save of an object
      that holds another state; completed requests are final; a state update is
      a compare-and-set that follows the transition table; the queue of due
      requests is complete and ordered; saving an execution is atomic under
      retries; one active version per definition; rows stay within the ranges of
      their columns.
    - Job manager: accepted requests are within the limits on ancestors (as listed
      before named values are merged) and quotas; a user key submits
      one live job; cancelling reaches every descendant and ends; the statistics
      at the start agree with the table.
    - Statistics: the registry refines the history of its calls; rolling averages
      are those of the window.
    - Scheduler and launcher: a launch is sent only for a job within its limits
      that is set up to run; a request without ants is put off by a bounded
      delay; a supervisor starts only for a ready job, and a late launch changes
      no row.
    - Tasklets: in every interleaving a fan-out stays within its limit, never
      blocks, ends, and runs every item once; its reply fails exactly when an
      item failed and keeps the items apart; a wait ends only when every awaited
      job has ended, and does end then; children are found by the cancellation of
      their parent.
    - Triggers: a webhook is obeyed only with its secret; a counted window lets at
      most the maximum of events pass, and a period of its length twice as many,
      and twice more for each time that the row was rewritten in it; an event with
      a known key starts no job; the
      manager's sources are those of the definitions it was told of; a poll
      resumes after the last object it handled.
    - Retention: only requests in a final state that are older than the period of
      an active definition of their type are removed; a state is purged until no
      request is left.
    - Ants: in every interleaving an executed request is answered exactly once,
      and the reported load is the work in progress; a duplicate is ignored
      exactly when the messages received so far say that a good ant runs it; the
      scripts of a task run in order and decide its status; a started container
      is stopped exactly once; variables printed by a script are read back.
    - Queues: a call gets its own reply and never that of another; a message
      reaches every callback that the multiplexer of its topic holds; a message
      that an ant's client accepts is answered, kept, sent on, expired, or lost with
      the connection while it is sent on; the store of unsent messages is bounded.
    - Gateway: an event reaches the open connections of its own user and no other,
      and the indexes of the registry agree.
    - Accounts: whatever the sign-up form says, a user joins an organization that
      exists only with an invitation for it, which is accepted once; an update of a
      profile grants nothing; the live tokens of a user are bounded.
    - Diagrams: the lines of a diagram are the steps that can be reached, where
      forked jobs have names of their own; a job without
      cycles is drawn, and one with a cycle overflows the stack.
    - Variables: a task that was stored and loaded has its fields and variables
      again, except headers that are too long and resources without a type, and a
      task with a condition or job version that is not JSON can never
      be loaded.
    - Artifacts: an active artifact has its contents unless a deletion of it failed,
      other contents were stored under its identifier or an ant reported it without
      storing it; an upload is downloaded again; an expiry removes what is out of
      time, all of it and nothing else; a refused deletion destroys the contents.
    - Job resources: the active uses of a resource stay within its quota.
    - Access control: text forms round-trip; administrators pass the authorization
      check, and other users (read administrators aside) exactly when their stored
      permissions grant every action; backfilling adds what is missing.
    - States, tags, names, contexts and the cache: reachable states, matching,
      valid DNS names, contexts in step, refinement and capacity of the cache.

    Some theorems state behaviour that differs from what a comment or a document
    says, with a concrete input; they carry no claim number.

    ** Bounds, fuel and integers

    The supervisor has fuel in [task_loop] for the replies to one task,
    [executeNextTask] for the tasks of one run and [job_loop] for the runs of a
    job.  [supervised_job_ends] gives amounts that are enough for jobs without
    cycles: a request for each retry of a task and for each poll that the ants ask
    for with EXECUTING, and one more; a sensor may poll for ever, so the number of
    polls is a premise.  And [completed_cycle_never_returns] shows that no amount is
    enough with one.  The cascade of cancellations runs with one more than the
    number of requests, and [cascade_cancel_ends] shows that it never uses it up;
    a waiter polls as often as its fuel says, and [wait_completes] gives the
    number of polls that is enough; the purge of a state has one more batch than
    requests, and [purge_state_drains] shows that this is enough; the pages of
    definitions are two more than the definitions; [Channel.Send] has the depth of
    nested calls to dead-letter topics as fuel, and running out of it is a crash;
    the loops over the tasks of a saved execution and over the batches of cron
    jobs have the length of their lists; the nodes of a diagram are added on a stack
    of a given height, and [acyclic_job_is_drawn] gives one that is enough; its lines
    are written to the depth of the number of nodes; an expiry of artifacts has a
    round for each batch below its limit, and [expiry_removes_all_expired] shows
    that this is enough.  Everything else is structural.  Go
    [int] and [int64] are [Z]; arithmetic that can leave its width wraps
    ([wrap64], [wrap32], the unsigned counters of the scheduler), the rest counts
    things and cannot.  Times are nanoseconds since Go's zero time, in UTC, and
    the clock stands still during one call.

    ** Assumptions

    Strings are sequences of bytes, and letter case and white space follow the
    ASCII part of Go's tables.  Code outside the repository is an argument:
    cron and e-mail matching, back-off policies, random numbers, YAML templates
    and JSON, message queues, encryption, and the database as far as its failures
    and fresh identifiers go (classes [Store.Env], [Schedule.Cron], [Decoder],
    [Cipher], [Calls], [Fsm.Scheduling], [Pipeline.Json], [Pipeline.Documents],
    [Worker.Network], [AntHandler.Machine], [Execution_.Node], [Channel.Users],
    [Buffer.Disk], [WsServer.Tokens], [Bank.World], [Settings.Json],
    [World.Outside], [Art.MapJson], [ResRepo.World]).  Locks make the operations of the
    resource manager, of the registry and of approvals atomic, and a transaction
    is atomic; the supervisor meets other goroutines between tasks.

    ** What is not modelled

    Clients of message brokers (Kafka, Pulsar, Redis) and executors (Docker,
    Kubernetes, shell, HTTP, messaging) translate calls of libraries that are not
    part of the repository.  Other controllers, gRPC services and the conversions of
    [queen/service] decode requests and call the managers and repositories that are
    modelled.  Generated code under [gen] repeats the types.  Configuration, the
    start of the server, tracing, health checks, caches and metrics carry no logic
    of jobs.  Left out of the parts that are modelled: YAML templates and the dynamic
    tasks made from them, notifications by e-mail and Slack, OAuth and sessions of
    the web server, dashboards, usage reports, the repositories of error codes,
    audits and system configuration, and the conditions of free searches. *)

From stdpp Require Export base list gmap strings.
From Stdlib Require Export ZArith Lia.
From Stdlib Require Import Sorting.Sorted Ascii String.

Declare Scope go_scope.
Delimit Scope go_scope with go.

(** ** Strings as Go uses them

    A Go string is a sequence of bytes; here it is a [string] of 8-bit
    [ascii] characters.  Case mapping and white space follow Go's
    [unicode] tables on the ASCII range only (see the header). *)

Notation "a == b" := (String.eqb a b) (at level 70, no associativity) : go_scope.
Notation "a != b" := (negb (String.eqb a b)) (at level 70, no associativity) : go_scope.

Open Scope go_scope.

(** ** Results of Go calls

    A call that returns [(value, error)] either returns the value, returns an
    error, or panics (a nil dereference, a write to a nil map). *)
Inductive outcome (E A : Type) : Type :=
| Return (a : A)
| Error (e : E)
| Panic.
Arguments Return {E A} a.
Arguments Error {E A} e.
Arguments Panic {E A}.

(** ** The iteration order of Go maps

    [for k, v := range m] visits every entry once, in an unspecified order.
    Operations that range over a map take an order; theorems hold for every
    order, and step relations allow a different one at each step. *)
Class RangeOrder := {
  range : forall {A : Type}, gmap string A -> list (string * A);
  range_perm : forall {A : Type} (m : gmap string A), range m ≡ₚ map_to_list m
}.

(** Ranging over a [map[string]bool] used as a set. *)
Definition range_set `{RangeOrder} (X : gset string) : list string :=
  map fst (range (gset_to_gmap true X)).

(** One possible order, for evaluation. *)
#[global] Instance map_to_list_order : RangeOrder | 100 :=
  {| range := fun A m => map_to_list m; range_perm := fun A m => Permutation_refl _ |}.

(** ** [sort.Slice]

    Stable insertion sort by a strict order [less]: with the input in an
    arbitrary order it yields every result the unstable Go sort can. *)
Section SortSlice.
Context {A : Type} (less : A -> A -> bool).

Fixpoint sort_insert (x : A) (l : list A) : list A :=
  match l with
  | [] => [x]
  | y :: l' => if less y x then y :: sort_insert x l' else x :: l
  end.

Definition sort_slice (l : list A) : list A := foldr sort_insert [] l.
End SortSlice.

Definition upper_char (c : ascii) : ascii :=
  let n := nat_of_ascii c in
  if (97 <=? n)%nat && (n <=? 122)%nat then ascii_of_nat (n - 32) else c.

Definition lower_char (c : ascii) : ascii :=
  let n := nat_of_ascii c in
  if (65 <=? n)%nat && (n <=? 90)%nat then ascii_of_nat (n + 32) else c.

Fixpoint string_map (f : ascii -> ascii) (s : string) : string :=
  match s with
  | EmptyString => EmptyString
  | String c s' => String (f c) (string_map f s')
  end.

(** [strings.ToUpper], [strings.ToLower] and [strings.EqualFold]. *)
Definition ToUpper : string -> string := string_map upper_char.
Definition ToLower : string -> string := string_map lower_char.
Definition EqualFold (a b : string) : bool := ToLower a == ToLower b.

(** [strings.TrimSpace]: tab, newline, vertical tab, form feed, carriage
    return and blank are removed at both ends. *)
Definition is_space (c : ascii) : bool :=
  let n := nat_of_ascii c in
  ((9 <=? n)%nat && (n <=? 13)%nat) || (n =? 32)%nat.

Fixpoint trim_left (s : string) : string :=
  match s with
  | EmptyString => EmptyString
  | String c s' => if is_space c then trim_left s' else s
  end.

Fixpoint trim_right (s : string) : string :=
  match s with
  | EmptyString => EmptyString
  | String c s' =>
      let t := trim_right s' in
      match t with
      | EmptyString => if is_space c then EmptyString else String c EmptyString
      | _ => String c t
      end
  end.

Definition TrimSpace (s : string) : string := trim_right (trim_left s).

(** [strings.Split(s, sep)] for a one-byte separator: at least one part. *)
Fixpoint Split (s : string) (sep : ascii) : list string :=
  match s with
  | EmptyString => [EmptyString]
  | String c s' =>
      if Ascii.eqb c sep then EmptyString :: Split s' sep
      else match Split s' sep with
           | [] => [String c EmptyString]
           | p :: ps => String c p :: ps
           end
  end.

(** [strings.HasPrefix] and [strings.Contains]. *)
Definition HasPrefix (s pre : string) : bool := String.prefix pre s.
Fixpoint Contains (s sub : string) : bool :=
  if String.prefix sub s then true
  else match s with
       | EmptyString => false
       | String _ s' => Contains s' sub
       end.

(** [strings.TrimPrefix], and the parts of a string before and after the first
    occurrence of a separator, as found with [strings.Index]. *)
Fixpoint drop_string (n : nat) (s : string) : string :=
  match n, s with S n, String _ s => drop_string n s | _, s => s end.
Definition TrimPrefix (s pre : string) : string := if HasPrefix s pre then drop_string (String.length pre) s else s.
Fixpoint Cut (s sep : string) : option (string * string) :=
  if String.prefix sep s then Some (EmptyString, drop_string (String.length sep) s)
  else match s with
       | EmptyString => None
       | String c s' => match Cut s' sep with Some (a, b) => Some (String c a, b) | None => None end
       end.

(** [strings.ReplaceAll]: an empty [old] matches before and after each byte. *)
Fixpoint replace_all (skip : nat) (old new s : string) : string :=
  match s with
  | EmptyString => EmptyString
  | String c s' =>
      match skip with
      | S skip => replace_all skip old new s'
      | O => if String.prefix old s then new +:+ replace_all (String.length old - 1) old new s'
             else String c (replace_all 0 old new s')
      end
  end.
Fixpoint put_between (new s : string) : string :=
  match s with EmptyString => new | String c s' => new +:+ String c (put_between new s') end.
Definition ReplaceAll (s old new : string) : string :=
  match old with EmptyString => put_between new s | _ => replace_all 0 old new s end.

Fixpoint string_mem (c : ascii) (s : string) : bool :=
  match s with
  | EmptyString => false
  | String d s' => Ascii.eqb c d || string_mem c s'
  end.

(** [strings.Join(parts, sep)]. *)
Fixpoint Join (parts : list string) (sep : string) : string :=
  match parts with
  | [] => EmptyString
  | [p] => p
  | p :: ps => p +:+ sep +:+ Join ps sep
  end.

(** ** Machine integers

    Go's [int], [int64] and [time.Duration] are 64-bit two's complement. *)

Definition int64_min : Z := (- 2 ^ 63)%Z.
Definition int64_max : Z := (2 ^ 63 - 1)%Z.
Definition in_int64 (z : Z) : bool := (int64_min <=? z)%Z && (z <=? int64_max)%Z.

(** Wrap-around of an exact result into the 64-bit range. *)
Definition wrap64 (z : Z) : Z := ((z + 2 ^ 63) mod 2 ^ 64 - 2 ^ 63)%Z.

(** [strconv.Atoi]: an optional sign, at least one decimal digit and nothing
    else, in the 64-bit range; every other input is an error. *)
Definition digit_val (c : ascii) : option Z :=
  let n := nat_of_ascii c in
  if (48 <=? n)%nat && (n <=? 57)%nat then Some (Z.of_nat n - 48)%Z else None.

Fixpoint digits_acc (acc : Z) (s : string) : option Z :=
  match s with
  | EmptyString => Some acc
  | String c s' =>
      match digit_val c with
      | Some d => digits_acc (acc * 10 + d)%Z s'
      | None => None
      end
  end.

Definition parse_digits (s : string) : option Z :=
  match s with EmptyString => None | _ => digits_acc 0 s end.

Definition Atoi (s : string) : option Z :=
  let v :=
    match s with
    | String c s' =>
        if Ascii.eqb c "-" then option_map Z.opp (parse_digits s')
        else if Ascii.eqb c "+" then parse_digits s'
        else parse_digits s
    | EmptyString => None
    end in
  match v with
  | Some z => if in_int64 z then Some z else None
  | None => None
  end.

(** The [%d] verb of [fmt]. *)
Definition digit_char (d : Z) : ascii := ascii_of_nat (Z.to_nat (48 + d)).

Fixpoint itoa_nat (fuel : nat) (n : Z) (acc : string) : string :=
  match fuel with
  | O => acc
  | S f =>
      let acc' := String (digit_char (n mod 10)) acc in
      if (n <? 10)%Z then acc' else itoa_nat f (n / 10)%Z acc'
  end.

Definition itoa (z : Z) : string :=
  let a := Z.abs z in
  let s := itoa_nat (S (Z.to_nat (Z.log2 a))) a EmptyString in
  if (z <? 0)%Z then String "-" s else s.

(** ** Generic lemmas *)

Lemma eqb_string_true (a b : string) : (a == b) = true <-> a = b.
Proof. apply String.eqb_eq. Qed.

Lemma eqb_string_false (a b : string) : (a == b) = false <-> a <> b.
Proof. apply String.eqb_neq. Qed.

Lemma eqb_string_refl (a : string) : (a == a) = true.
Proof. apply String.eqb_refl. Qed.

Lemma wrap64_id z : in_int64 z = true -> wrap64 z = z.
Proof.
  unfold in_int64, wrap64, int64_min, int64_max. intros H.
  apply andb_prop in H as [H1 H2]. apply Z.leb_le in H1, H2.
  rewrite Z.mod_small; lia.
Qed.

Lemma wrap64_range z : in_int64 (wrap64 z) = true.
Proof.
  unfold in_int64, wrap64, int64_min, int64_max.
  pose proof (Z.mod_pos_bound (z + 2 ^ 63) (2 ^ 64) ltac:(lia)).
  apply andb_true_intro; split; apply Z.leb_le; lia.
Qed.

(** [wrap64] is a ring morphism onto its range: inner wraps can be dropped. *)
Lemma wrap64_add_l a b : wrap64 (wrap64 a + b) = wrap64 (a + b).
Proof.
  unfold wrap64. f_equal.
  replace ((a + 2 ^ 63) mod 2 ^ 64 - 2 ^ 63 + b + 2 ^ 63)%Z
    with ((a + 2 ^ 63) mod 2 ^ 64 + b)%Z by lia.
  rewrite Zplus_mod_idemp_l. f_equal; lia.
Qed.

Lemma wrap64_add_r a b : wrap64 (a + wrap64 b) = wrap64 (a + b).
Proof. rewrite Z.add_comm, wrap64_add_l. f_equal; lia. Qed.

(** Decimal printing and parsing are inverse on 64-bit integers. *)
Lemma digit_val_char d : (0 <= d < 10)%Z -> digit_val (digit_char d) = Some d.
Proof.
  intros H.
  assert (d = 0 \/ d = 1 \/ d = 2 \/ d = 3 \/ d = 4 \/ d = 5 \/ d = 6 \/ d = 7 \/ d = 8 \/ d = 9)%Z
    as Hd by lia.
  destruct Hd as [->|[->|[->|[->|[->|[->|[->|[->|[->| ->]]]]]]]]]; reflexivity.
Qed.

Lemma itoa_nat_parse fuel n acc :
  (0 <= n < 2 ^ Z.of_nat fuel)%Z -> fuel <> O ->
  digits_acc 0 (itoa_nat fuel n acc) = digits_acc n acc.
Proof.
  revert n acc. induction fuel as [|f IH]; intros n acc Hn Hf; [done|].
  cbn [itoa_nat]. destruct (Z.ltb_spec n 10).
  - cbn [digits_acc]. rewrite Z.mod_small, digit_val_char by lia. done.
  - destruct f as [|f'].
    { change (2 ^ Z.of_nat 1)%Z with 2%Z in Hn. lia. }
    rewrite IH; [| |lia].
    + cbn [digits_acc]. rewrite digit_val_char by (apply Z.mod_pos_bound; lia).
      f_equal. pose proof (Z_div_mod_eq_full n 10). lia.
    + split; [apply Z.div_pos; lia|].
      rewrite Nat2Z.inj_succ, Z.pow_succ_r in Hn by lia.
      apply Z.div_lt_upper_bound; lia.
Qed.

Lemma itoa_nat_nonempty fuel n acc : fuel <> O -> itoa_nat fuel n acc <> EmptyString.
Proof.
  revert n acc. induction fuel as [|f IH]; intros n acc Hf; [done|].
  cbn [itoa_nat]. destruct (n <? 10)%Z; [done|].
  destruct f; [done|]. by apply IH.
Qed.

Lemma parse_itoa_abs a :
  (0 <= a)%Z -> parse_digits (itoa_nat (S (Z.to_nat (Z.log2 a))) a EmptyString) = Some a.
Proof.
  intros Ha. unfold parse_digits.
  destruct (itoa_nat _ _ _) eqn:E.
  { by apply itoa_nat_nonempty in E. }
  rewrite <- E, itoa_nat_parse; [done| |done].
  rewrite Nat2Z.inj_succ, Z2Nat.id by apply Z.log2_nonneg.
  destruct (decide (a = 0%Z)) as [->|Hne]; [split; [lia|reflexivity]|].
  pose proof (Z.log2_spec a). lia.
Qed.

(** The characters that [%d] prints. *)
Lemma digit_char_val d :
  (0 <= d < 10)%Z ->
  digit_char d <> ";"%char /\ digit_char d <> "="%char /\ digit_char d <> "-"%char /\
  digit_char d <> "+"%char /\ is_space (digit_char d) = false.
Proof.
  intros H.
  assert (d = 0 \/ d = 1 \/ d = 2 \/ d = 3 \/ d = 4 \/ d = 5 \/ d = 6 \/ d = 7 \/ d = 8 \/ d = 9)%Z
    as Hd by lia.
  destruct Hd as [->|[->|[->|[->|[->|[->|[->|[->|[->| ->]]]]]]]]]; done.
Qed.

(** Every character of a string satisfies a test. *)
Fixpoint string_forall (P : ascii -> bool) (s : string) : bool :=
  match s with
  | EmptyString => true
  | String c s' => P c && string_forall P s'
  end.

Lemma string_app_cons c (a b : string) : String c a +:+ b = String c (a +:+ b).
Proof. done. Qed.

Lemma string_app_nil_l (b : string) : EmptyString +:+ b = b.
Proof. done. Qed.

Lemma string_app_nil_r (s : string) : s +:+ EmptyString = s.
Proof. induction s as [|c s IH]; [done|]. by rewrite string_app_cons, IH. Qed.

Lemma string_app_assoc (a b c : string) : (a +:+ b) +:+ c = a +:+ (b +:+ c).
Proof. induction a as [|x a IH]; [done|]. by rewrite !string_app_cons, IH. Qed.

Lemma string_forall_app P a b :
  string_forall P (a +:+ b) = string_forall P a && string_forall P b.
Proof. induction a as [|c a IH]; [done|]. rewrite string_app_cons. cbn. by rewrite IH, andb_assoc. Qed.

Lemma string_forall_impl (P Q : ascii -> bool) s :
  (forall c, P c = true -> Q c = true) ->
  string_forall P s = true -> string_forall Q s = true.
Proof.
  intros HPQ. induction s as [|c s IH]; cbn; [done|].
  intros [H1 H2]%andb_prop. by rewrite HPQ, IH.
Qed.

Lemma string_mem_forall c s :
  string_mem c s = false <-> string_forall (fun d => negb (Ascii.eqb c d)) s = true.
Proof.
  induction s as [|d s IH]; cbn; [done|].
  rewrite orb_false_iff, andb_true_iff, negb_true_iff. by rewrite IH.
Qed.

Lemma drop_prefix pre s : String.prefix pre s = true -> s = pre +:+ drop_string (String.length pre) s.
Proof.
  revert s. induction pre as [|c pre IH]; intros [|d s]; cbn; try done.
  destruct (Ascii.ascii_dec c d) as [->|]; [|done]. intros Hp. rewrite string_app_cons. f_equal. by apply IH.
Qed.

Lemma Split_nonempty s sep : Split s sep <> [].
Proof. destruct s as [|c s]; cbn; [done|]. destruct (Ascii.eqb c sep); [done|]. by destruct (Split s sep). Qed.

Lemma Split_single s sep : string_mem sep s = false -> Split s sep = [s].
Proof.
  induction s as [|c s IH]; cbn; [done|].
  intros [H1 H2]%orb_false_elim. rewrite Ascii.eqb_sym, H1, IH; done.
Qed.

Lemma Split_app a b sep :
  string_mem sep a = false -> Split (a +:+ String sep b) sep = a :: Split b sep.
Proof.
  induction a as [|c a IH]; intros H.
  - rewrite string_app_nil_l. cbn. by rewrite Ascii.eqb_refl.
  - rewrite string_app_cons. cbn in H |- *. apply orb_false_elim in H as [H1 H2].
    rewrite Ascii.eqb_sym, H1. by rewrite IH.
Qed.

Lemma Split_Join ps sep :
  ps <> [] -> Forall (fun p => string_mem sep p = false) ps ->
  Split (Join ps (String sep EmptyString)) sep = ps.
Proof.
  induction ps as [|p ps IH]; intros Hne HF; [done|].
  inversion HF as [|? ? Hp Hps]; subst. destruct ps as [|q ps].
  - cbn. by apply Split_single.
  - change (Join (p :: q :: ps) ?x) with (p +:+ x +:+ Join (q :: ps) x).
    rewrite string_app_cons, string_app_nil_l, Split_app by done. by rewrite IH.
Qed.

Lemma trim_left_no_space s :
  string_forall (fun c => negb (is_space c)) s = true -> trim_left s = s.
Proof. destruct s as [|c s]; cbn; [done|]. by destruct (is_space c). Qed.

Lemma trim_right_no_space s :
  string_forall (fun c => negb (is_space c)) s = true -> trim_right s = s.
Proof.
  induction s as [|c s IH]; cbn; [done|]. intros [H1 H2]%andb_prop.
  rewrite IH by done. destruct s; [by destruct (is_space c)|done].
Qed.

Lemma TrimSpace_no_space s :
  string_forall (fun c => negb (is_space c)) s = true -> TrimSpace s = s.
Proof. intros H. unfold TrimSpace. by rewrite trim_left_no_space, trim_right_no_space. Qed.

(** The decimal text of an integer has no white space and no character other
    than digits and a leading minus. *)
Definition decimal_char (c : ascii) : bool :=
  ((48 <=? nat_of_ascii c)%nat && (nat_of_ascii c <=? 57)%nat) || Ascii.eqb c "-".

Lemma decimal_char_digit d : (0 <= d < 10)%Z -> decimal_char (digit_char d) = true.
Proof.
  intros H.
  assert (d = 0 \/ d = 1 \/ d = 2 \/ d = 3 \/ d = 4 \/ d = 5 \/ d = 6 \/ d = 7 \/ d = 8 \/ d = 9)%Z
    as Hd by lia.
  destruct Hd as [->|[->|[->|[->|[->|[->|[->|[->|[->| ->]]]]]]]]]; done.
Qed.

Lemma itoa_nat_decimal fuel n acc :
  (0 <= n)%Z -> string_forall decimal_char acc = true ->
  string_forall decimal_char (itoa_nat fuel n acc) = true.
Proof.
  revert n acc. induction fuel as [|f IH]; intros n acc Hn Hacc; [done|].
  cbn [itoa_nat].
  assert (string_forall decimal_char (String (digit_char (n mod 10)) acc) = true) as H'.
  { cbn [string_forall]. by rewrite decimal_char_digit by (apply Z.mod_pos_bound; lia). }
  destruct (n <? 10)%Z; [done|]. apply IH; [apply Z.div_pos; lia|done].
Qed.

Lemma itoa_decimal z : string_forall decimal_char (itoa z) = true.
Proof.
  unfold itoa.
  pose proof (itoa_nat_decimal (S (Z.to_nat (Z.log2 (Z.abs z)))) (Z.abs z) EmptyString
                ltac:(lia) eq_refl) as H.
  destruct (z <? 0)%Z; [|done]. cbn [string_forall]. by rewrite H.
Qed.

Lemma decimal_char_not (c d : ascii) :
  decimal_char d = false -> decimal_char c = true -> Ascii.eqb d c = false.
Proof. intros Hd Hc. apply Ascii.eqb_neq. intros ->. congruence. Qed.

Lemma itoa_avoids z d : decimal_char d = false -> string_mem d (itoa z) = false.
Proof.
  intros Hd. apply string_mem_forall. eapply string_forall_impl; [|apply itoa_decimal].
  intros c Hc. cbn. by rewrite decimal_char_not.
Qed.

Lemma decimal_char_not_space c : decimal_char c = true -> negb (is_space c) = true.
Proof. destruct c as [[] [] [] [] [] [] [] []]; vm_compute; congruence. Qed.

Lemma TrimSpace_itoa z : TrimSpace (itoa z) = itoa z.
Proof.
  apply TrimSpace_no_space. eapply string_forall_impl; [apply decimal_char_not_space|].
  apply itoa_decimal.
Qed.

Lemma Atoi_itoa z : in_int64 z = true -> Atoi (itoa z) = Some z.
Proof.
  intros Hz. unfold Atoi, itoa.
  pose proof (parse_itoa_abs (Z.abs z) ltac:(lia)) as HP.
  destruct (Z.ltb_spec z 0).
  - rewrite Ascii.eqb_refl, HP. cbn [option_map]. rewrite Z.abs_neq, Z.opp_involutive by lia.
    by rewrite Hz.
  - destruct (itoa_nat _ _ _) as [|c s] eqn:E; [done|].
    assert (digit_val c <> None) as Hc.
    { cbn in HP. intros HN. by rewrite HN in HP. }
    destruct (Ascii.eqb_spec c "-") as [->|_]; [done|].
    destruct (Ascii.eqb_spec c "+") as [->|_]; [done|].
    rewrite HP, Z.abs_eq by lia. by rewrite Hz.
Qed.

Lemma itoa_inj a b : (0 <= a)%Z -> (0 <= b)%Z -> itoa a = itoa b -> a = b.
Proof.
  intros Ha Hb E. pose proof (parse_itoa_abs a Ha) as Pa. pose proof (parse_itoa_abs b Hb) as Pb. unfold itoa in E.
  rewrite (proj2 (Z.ltb_ge a 0) Ha), (proj2 (Z.ltb_ge b 0) Hb), !Z.abs_eq in E by done. rewrite E in Pa. congruence.
Qed.

Lemma string_app_inj_l (a b c : string) : a +:+ b = a +:+ c -> b = c.
Proof. induction a as [|x a IH]; [done|]. rewrite !string_app_cons. intros [= E]. by apply IH. Qed.

(** The parts before and after the first [sep]. *)
Lemma string_split_inj (sep : ascii) (a b c d : string) :
  string_mem sep a = false -> string_mem sep c = false -> a +:+ String sep b = c +:+ String sep d -> a = c /\ b = d.
Proof.
  revert c. induction a as [|x a IH]; intros [|y c]; cbn [string_mem]; rewrite ?string_app_nil_l, ?string_app_cons.
  - by intros _ _ [= <-].
  - intros _ Hc [= -> _]. by rewrite Ascii.eqb_refl in Hc.
  - intros Ha _ [= -> _]. by rewrite Ascii.eqb_refl in Ha.
  - intros [_ Ha]%orb_false_iff [_ Hc]%orb_false_iff [= -> E]. by destruct (IH c Ha Hc E) as [-> ->].
Qed.

Lemma string_mem_app c a b : string_mem c (a +:+ b) = string_mem c a || string_mem c b.
Proof.
  induction a as [|d a IH]; [done|]. rewrite string_app_cons. cbn. by rewrite IH, orb_assoc.
Qed.

Lemma length_nonempty (s : string) : s <> "" -> (0 <? String.length s)%nat = true.
Proof. by destruct s. Qed.

Lemma app_nonempty_r (a b : string) : b <> "" -> a +:+ b <> "".
Proof. by destruct a, b. Qed.

(** The string-builder idiom of the code: every element but the first one
    written is preceded by a separator.  For elements with a non-empty text
    it is [strings.Join]. *)
Section Builder.
Context {A : Type} (f : A -> string) (sep : string).

Definition builder_add (sb : string) (x : A) : string :=
  (if (0 <? String.length sb)%nat then sb +:+ sep else sb) +:+ f x.

Context (f_nonempty : forall x, f x <> "").

Lemma builder_fold sb l :
  sb <> "" ->
  foldl builder_add sb l = sb +:+ foldr (fun x acc => sep +:+ f x +:+ acc) "" l.
Proof using f_nonempty.
  revert sb. induction l as [|x l IH]; intros sb Hsb; cbn [foldl foldr].
  - by rewrite string_app_nil_r.
  - unfold builder_add at 2. rewrite (length_nonempty sb Hsb). rewrite IH.
    + by rewrite !string_app_assoc.
    + apply app_nonempty_r, f_nonempty.
Qed.

Lemma builder_Join l : foldl builder_add "" l = Join (map f l) sep.
Proof using f_nonempty.
  destruct l as [|x l]; [done|]. cbn [foldl map].
  change (builder_add "" x) with (f x). rewrite builder_fold by apply f_nonempty.
  revert x. induction l as [|y l IH]; intros x; cbn [foldr map].
  - by rewrite string_app_nil_r.
  - rewrite IH. by destruct l.
Qed.

Lemma builder_nonempty l : l <> [] -> foldl builder_add "" l <> "".
Proof using f_nonempty.
  destruct l as [|x l]; [done|]. intros _. cbn [foldl].
  change (builder_add "" x) with (f x). rewrite builder_fold by apply f_nonempty.
  pose proof (f_nonempty x). destruct (f x); [done|]. by rewrite string_app_cons.
Qed.
End Builder.

(** ** Map ranges and sorting *)

Lemma elem_of_range `{RangeOrder} {A} (m : gmap string A) k v :
  (k, v) ∈ range m <-> m !! k = Some v.
Proof. rewrite range_perm. apply elem_of_map_to_list. Qed.

Lemma elem_of_range_set `{RangeOrder} (X : gset string) k : k ∈ range_set X <-> k ∈ X.
Proof.
  unfold range_set. rewrite list_elem_of_fmap. split.
  - intros ([k' v] & -> & H'). apply elem_of_range, lookup_gset_to_gmap_Some in H' as [? _]. done.
  - intros Hk. exists (k, true). split; [done|]. apply elem_of_range. by apply lookup_gset_to_gmap_Some.
Qed.

Lemma filter_sublist {A} (f : A -> bool) l : List.filter f l `sublist_of` l.
Proof. induction l as [|x l IH]; cbn; [done|]. destruct (f x); by constructor. Qed.

Lemma sort_insert_perm {A} (less : A -> A -> bool) x l : sort_insert less x l ≡ₚ x :: l.
Proof.
  induction l as [|y l IH]; cbn; [done|]. destruct (less y x); [|done].
  rewrite IH. apply Permutation_swap.
Qed.

Lemma sort_slice_perm {A} (less : A -> A -> bool) l : sort_slice less l ≡ₚ l.
Proof. induction l as [|x l IH]; cbn; [done|]. by rewrite sort_insert_perm, IH. Qed.

(** Sorting by an integer key puts an element with the least key first. *)
Section SortKey.
Context {A : Type} (key : A -> Z).
Let less (a b : A) : bool := (key a <? key b)%Z.

Lemma sort_insert_sorted x l :
  Sorted (fun a b => key a <= key b)%Z l ->
  Sorted (fun a b => key a <= key b)%Z (sort_insert less x l).
Proof.
  induction l as [|y l IH]; cbn; intros HS; [repeat constructor|].
  inversion HS as [|? ? HS' HR]; subst. unfold less at 1.
  destruct (Z.ltb_spec (key y) (key x)).
  - constructor; [by apply IH|]. destruct l as [|z l']; cbn; [constructor; lia|].
    inversion HR; subst. unfold less. destruct (key z <? key x)%Z; constructor; lia.
  - constructor; [done|]. constructor. lia.
Qed.

Lemma sort_slice_sorted l : Sorted (fun a b => key a <= key b)%Z (sort_slice less l).
Proof. induction l as [|x l IH]; cbn; [constructor|by apply sort_insert_sorted]. Qed.

Lemma sort_slice_head l x l' y :
  sort_slice less l = x :: l' -> y ∈ l -> (key x <= key y)%Z.
Proof.
  intros E Hy. pose proof (sort_slice_sorted l) as HS. rewrite E in HS.
  apply Sorted_StronglySorted in HS; [|intros ???; lia].
  rewrite <- (sort_slice_perm less l), E in Hy.
  apply elem_of_cons in Hy as [->|Hy]; [lia|].
  inversion HS as [|? ? _ HF]; subst. rewrite Forall_forall in HF. by apply HF.
Qed.
End SortKey.

(** Sorting by any strict order whose negation is transitive: no element comes
    after one that it precedes. *)
Section SortOrder.
Context {A : Type} (less : A -> A -> bool).
Definition not_after (a b : A) : Prop := less b a = false.
Hypothesis less_asym : forall a b, less a b = true -> less b a = false.
Hypothesis not_after_trans : forall a b c, not_after a b -> not_after b c -> not_after a c.

Lemma sort_insert_ordered x l : StronglySorted not_after l -> StronglySorted not_after (sort_insert less x l).
Proof.
  induction l as [|y l IH]; cbn; intros HS; [repeat constructor|].
  inversion HS as [|? ? HS' HF]; subst. destruct (less y x) eqn:E.
  - constructor; [by apply IH|]. rewrite sort_insert_perm. constructor; [|done]. by apply less_asym.
  - constructor; [done|]. constructor; [done|]. eapply Forall_impl; [exact HF|].
    intros z Hz. by eapply not_after_trans.
Qed.

Lemma sort_slice_ordered l : StronglySorted not_after (sort_slice less l).
Proof. induction l as [|x l IH]; cbn; [constructor|by apply sort_insert_ordered]. Qed.
End SortOrder.

Lemma StronglySorted_weaken {A} (R S : A -> A -> Prop) l :
  (forall a b, R a b -> S a b) -> StronglySorted R l -> StronglySorted S l.
Proof.
  intros HRS. induction 1 as [|x l _ IH HF]; constructor; [done|]. eapply Forall_impl; [exact HF|]. eauto.
Qed.

(** The order in which jobs are taken: by priority, then by age. *)
Definition sooner (priority created priority' created' : Z) : Prop :=
  (priority' < priority \/ priority = priority' /\ created < created')%Z.

Lemma filter_perm {A} (f : A -> bool) l l' : l ≡ₚ l' -> List.filter f l ≡ₚ List.filter f l'.
Proof.
  induction 1 as [|x l l' _ IH|x y l|l l' l'' _ IH1 _ IH2]; cbn.
  - done.
  - destruct (f x); [by apply perm_skip|done].
  - destruct (f x), (f y); try done. apply perm_swap.
  - by etransitivity.
Qed.

Lemma size_list_to_set_le (l : list string) : (size (list_to_set l : gset string) <= List.length l)%nat.
Proof.
  induction l as [|x l IH]; cbn; [by rewrite size_empty|]. rewrite size_union_alt.
  pose proof (subseteq_size (list_to_set l ∖ {[x]} : gset string) (list_to_set l) ltac:(set_solver)). rewrite size_singleton. lia.
Qed.

(** ** Automation

    [go]: the lemmas that turn boolean tests of the code into propositions. *)
Create HintDb go.
Create Rewrite HintDb go.
#[export] Hint Rewrite eqb_string_true eqb_string_false andb_true_iff orb_true_iff
  negb_true_iff negb_false_iff andb_false_iff orb_false_iff Z.leb_le Z.leb_gt Z.ltb_lt Z.ltb_ge
  bool_decide_eq_true bool_decide_eq_false : go.
#[export] Hint Resolve eqb_string_refl wrap64_range Split_nonempty : go.

(** Read the boolean tests in the context and the goal as propositions. *)
Ltac go_bool := autorewrite with go in *.

(** Split on the innermost test or match of the goal, then simplify. *)
Ltac go_case :=
  match goal with
  | |- context [if ?b then _ else _] => let E := fresh "E" in destruct b eqn:E
  | |- context [match ?x with _ => _ end] => let E := fresh "E" in destruct x eqn:E
  end.
