(* ===== verification/RequestState.v ===== *)
(** * RequestState: the life cycle of requests and executions

    Models [src/internal/types/request_state.go] (the state constants, the
    predicates on them and the transition check), [task_method.go] (the
    execution methods) and [error_code.go] (error codes).  As in Go, a state
    is a string, so every predicate is a total boolean function on strings. *)

From S2P Require Import Prelude.
From stdpp Require Import relations.

Abbreviation RequestState := string (only parsing).
Abbreviation TaskMethod := string (only parsing).

Module State.

(** ** The constants of request_state.go *)
Definition PENDING : RequestState := "PENDING".
Definition READY : RequestState := "READY".
Definition COMPLETED : RequestState := "COMPLETED".
Definition FAILED : RequestState := "FAILED".
Definition EXECUTING : RequestState := "EXECUTING".
Definition STARTED : RequestState := "STARTED".
Definition CANCELLED : RequestState := "CANCELLED".
Definition PAUSED : RequestState := "PAUSED".
Definition MANUAL_APPROVAL_REQUIRED : RequestState := "MANUAL_APPROVAL_REQUIRED".
Definition HISTORY : RequestState := "HISTORY".
Definition RUNNING : RequestState := "RUNNING".
Definition WAITING : RequestState := "WAITING".
Definition FATAL : RequestState := "FATAL".
Definition RESTART_JOB : RequestState := "RESTART_JOB".
Definition PAUSE_JOB : RequestState := "PAUSE_JOB".
Definition WAIT_FOR_APPROVAL : RequestState := "WAIT_FOR_APPROVAL".
Definition RESTART_TASK : RequestState := "RESTART_TASK".
Definition APPROVED : RequestState := "APPROVED".
Definition REJECTED : RequestState := "REJECTED".
Definition RESERVED : RequestState := "RESERVED".
Definition DELETED : RequestState := "DELETED".
Definition UNKNOWN : RequestState := "UNKNOWN".

Definition TerminalStates : list string := [COMPLETED; FAILED; CANCELLED].
Definition RunningStates : list string := [EXECUTING; STARTED].
Definition WaitingStates : list string := [PENDING; PAUSED; READY; MANUAL_APPROVAL_REQUIRED].
Definition NotRestartableStates : list string := [PENDING; READY; COMPLETED].
Definition OrphanStates : list string := [STARTED; READY; EXECUTING].

(** ** The methods of RequestState *)
Definition NewRequestState (state : string) : RequestState := ToUpper state.

Definition IsTerminal (rs : RequestState) : bool :=
  (rs == COMPLETED) || (rs == FAILED) || (rs == CANCELLED).
Definition CanFinalize (rs : RequestState) : bool :=
  IsTerminal rs || (rs == PAUSED) || (rs == MANUAL_APPROVAL_REQUIRED).
Definition Processing (rs : RequestState) : bool :=
  (rs == WAITING) || (rs == PENDING) || (rs == PAUSED) || (rs == READY) || (rs == EXECUTING)
  || (rs == STARTED) || (rs == MANUAL_APPROVAL_REQUIRED).
Definition CanRestart (rs : RequestState) : bool :=
  (rs == FAILED) || (rs == CANCELLED) || (rs == PAUSED).
Definition CanCancel (rs : RequestState) : bool :=
  negb (IsTerminal rs) || (rs == PAUSED) || (rs == MANUAL_APPROVAL_REQUIRED).
Definition CanApprove (rs : RequestState) : bool := rs == MANUAL_APPROVAL_REQUIRED.
Definition Completed (rs : RequestState) : bool := rs == COMPLETED.
Definition Paused (rs : RequestState) : bool := rs == PAUSED.
Definition ManualApprovalRequired (rs : RequestState) : bool := rs == MANUAL_APPROVAL_REQUIRED.
Definition Failed (rs : RequestState) : bool := (rs == FAILED) || (rs == CANCELLED).
Definition Ready (rs : RequestState) : bool := rs == READY.
Definition Pending (rs : RequestState) : bool := rs == PENDING.
Definition Cancelled (rs : RequestState) : bool := rs == CANCELLED.
Definition Executing (rs : RequestState) : bool := rs == EXECUTING.
Definition Started (rs : RequestState) : bool := rs == STARTED.
Definition Waiting (rs : RequestState) : bool :=
  (rs == WAITING) || (rs == PENDING) || (rs == PAUSED) || (rs == READY)
  || (rs == MANUAL_APPROVAL_REQUIRED).
Definition Running (rs : RequestState) : bool :=
  (rs == STARTED) || (rs == EXECUTING) || (rs == RUNNING).
Definition Done (rs : RequestState) : bool :=
  (rs == FAILED) || (rs == COMPLETED) || (rs == CANCELLED).

Definition known_states : list RequestState :=
  [PENDING; READY; COMPLETED; FAILED; EXECUTING; STARTED; CANCELLED;
   PAUSED; MANUAL_APPROVAL_REQUIRED; HISTORY; RUNNING; WAITING;
   FATAL; RESTART_JOB; PAUSE_JOB; WAIT_FOR_APPROVAL; RESTART_TASK;
   APPROVED; REJECTED; RESERVED; DELETED; UNKNOWN].
Definition IsKnown (rs : RequestState) : bool := existsb (String.eqb rs) known_states.

Definition Unknown (rs : RequestState) : bool :=
  (rs != FAILED) && (rs != CANCELLED) && (rs != PENDING) && (rs != PAUSED)
  && (rs != MANUAL_APPROVAL_REQUIRED) && (rs != READY) && (rs != COMPLETED)
  && (rs != EXECUTING) && (rs != STARTED) && (rs != HISTORY) && (rs != RESTART_JOB)
  && (rs != PAUSE_JOB) && (rs != RESTART_TASK).

Definition CanTransitionTo (rs newState : RequestState) : bool :=
  if (rs == FAILED) || (rs == CANCELLED) then newState == PENDING
  else if (rs == PENDING) || (rs == PAUSED) then (newState == READY) || (newState == FAILED)
  else if rs == MANUAL_APPROVAL_REQUIRED then newState == READY
  else if rs == READY then
    (newState == STARTED) || (newState == FAILED) || (newState == PENDING) || (newState == PAUSED)
  else if rs == STARTED then newState == EXECUTING
  else if rs == EXECUTING then
    (newState == FAILED) || (newState == COMPLETED) || (newState == PAUSED)
    || (newState == MANUAL_APPROVAL_REQUIRED)
  else false.

Definition DotColor (rs : RequestState) : string :=
  if Completed rs then "darkseagreen4"
  else if Failed rs then "firebrick4"
  else if Executing rs then "skyblue2"
  else if Unknown rs then "goldenrod3"
  else "gray".

Definition SlackColor (rs : RequestState) : string :=
  if Completed rs then "#28a745"
  else if Failed rs then "#dc3545"
  else if Executing rs then "#17a2b8"
  else if Unknown rs then "#6c757d"
  else "#fd7e14".

(** ** The transition graph *)

(** The transitions that [CanTransitionTo] allows, as a list of edges. *)
Definition transitions : list (RequestState * RequestState) :=
  [(FAILED, PENDING); (CANCELLED, PENDING);
   (PENDING, READY); (PENDING, FAILED); (PAUSED, READY); (PAUSED, FAILED);
   (MANUAL_APPROVAL_REQUIRED, READY);
   (READY, STARTED); (READY, FAILED); (READY, PENDING); (READY, PAUSED);
   (STARTED, EXECUTING);
   (EXECUTING, FAILED); (EXECUTING, COMPLETED); (EXECUTING, PAUSED);
   (EXECUTING, MANUAL_APPROVAL_REQUIRED)].

Definition step (a b : RequestState) : Prop := CanTransitionTo a b = true.

(** The states a request can be in when it starts as PENDING. *)
Definition lifecycle : list RequestState :=
  [PENDING; READY; FAILED; STARTED; PAUSED; EXECUTING; COMPLETED; MANUAL_APPROVAL_REQUIRED].

(** Case split on every string comparison of the goal. *)
Ltac split_states :=
  repeat match goal with
         | |- context [String.eqb ?a ?b] =>
             destruct (String.eqb_spec a b); subst; cbn [orb andb negb]
         end.

Lemma CanTransitionTo_edge a b : CanTransitionTo a b = true <-> (a, b) ∈ transitions.
Proof.
  split.
  - unfold CanTransitionTo. split_states; intros H; try discriminate H;
      unfold transitions; repeat (first [apply list_elem_of_here | apply list_elem_of_further]).
  - intros H. unfold transitions in H.
    repeat (apply elem_of_cons in H as [[= -> ->]|H]; [reflexivity|]).
    by apply not_elem_of_nil in H.
Qed.

Lemma lifecycle_closed a b : a ∈ lifecycle -> step a b -> b ∈ lifecycle.
Proof.
  intros Ha Hs. apply CanTransitionTo_edge in Hs. unfold transitions in Hs.
  repeat (apply elem_of_cons in Hs as [[= -> ->]|Hs];
    [unfold lifecycle; repeat (first [apply list_elem_of_here | apply list_elem_of_further])|]).
  by apply not_elem_of_nil in Hs.
Qed.

(** Follow a path given by its states, checking each edge by evaluation. *)
Fixpoint run_path (a : RequestState) (p : list RequestState) : option RequestState :=
  match p with
  | [] => Some a
  | b :: q => if CanTransitionTo a b then run_path b q else None
  end.

Lemma run_path_rtc a p b : run_path a p = Some b -> rtc step a b.
Proof.
  revert a. induction p as [|c p IH]; intros a Hp; cbn in Hp.
  - by injection Hp as ->.
  - destruct (CanTransitionTo a c) eqn:E; [|done]. eapply rtc_l; [exact E|]. by apply IH.
Qed.

Lemma rtc_lifecycle a b : a ∈ lifecycle -> rtc step a b -> b ∈ lifecycle.
Proof. intros Ha Hr. induction Hr as [|x y z H1 _ IH]; eauto using lifecycle_closed. Qed.

(** The states reachable from PENDING through transitions accepted by
    [CanTransitionTo] are exactly the eight states of [lifecycle]; in
    particular CANCELLED, which the cancel operation writes, is not one. *)
Theorem reachable_from_pending (s : RequestState) : rtc step PENDING s <-> s ∈ lifecycle.
Proof.
  split.
  - apply rtc_lifecycle. apply list_elem_of_here.
  - intros H. unfold lifecycle in H.
    repeat (apply elem_of_cons in H as [->|H];
      [first [exact (run_path_rtc PENDING [] _ eq_refl)
             |exact (run_path_rtc PENDING [READY] _ eq_refl)
             |exact (run_path_rtc PENDING [FAILED] _ eq_refl)
             |exact (run_path_rtc PENDING [READY; STARTED] _ eq_refl)
             |exact (run_path_rtc PENDING [READY; PAUSED] _ eq_refl)
             |exact (run_path_rtc PENDING [READY; STARTED; EXECUTING] _ eq_refl)
             |exact (run_path_rtc PENDING [READY; STARTED; EXECUTING; COMPLETED] _ eq_refl)
             |exact (run_path_rtc PENDING [READY; STARTED; EXECUTING; MANUAL_APPROVAL_REQUIRED] _ eq_refl)]|]).
    by apply not_elem_of_nil in H.
Qed.

(** COMPLETED is the only dead end of the life cycle: no transition
    leaves it, and from every other reachable state some sequence of
    transitions still leads to it. *)
Theorem completed_is_the_only_end (s : RequestState) :
  s ∈ lifecycle ->
  rtc step s COMPLETED /\ ((forall t, ~ step s t) <-> s = COMPLETED).
Proof.
  assert (forall p a b, run_path a p = Some b -> a <> b -> ~ (forall t, ~ step a t)) as Hlive.
  { intros p a b Hp Hne Hdead. destruct p as [|c p]; cbn in Hp; [congruence|].
    destruct (CanTransitionTo a c) eqn:E; [|done]. by apply (Hdead c). }
  assert (forall p a, run_path a p = Some COMPLETED -> a <> COMPLETED ->
          rtc step a COMPLETED /\ ((forall t, ~ step a t) <-> a = COMPLETED)) as Hok.
  { intros p a Hp Hne. split; [by eapply run_path_rtc|]. split; [|done].
    intros Hdead. by destruct (Hlive p a COMPLETED Hp Hne). }
  intros H. unfold lifecycle in H.
  repeat (apply elem_of_cons in H as [->|H];
    [first [apply (Hok [READY; STARTED; EXECUTING; COMPLETED]); [reflexivity|discriminate]
           |apply (Hok [STARTED; EXECUTING; COMPLETED]); [reflexivity|discriminate]
           |apply (Hok [EXECUTING; COMPLETED]); [reflexivity|discriminate]
           |apply (Hok [COMPLETED]); [reflexivity|discriminate]
           |apply (Hok [PENDING; READY; STARTED; EXECUTING; COMPLETED]); [reflexivity|discriminate]
           |split; [apply rtc_refl|split; [done|]; intros _ t Ht; vm_compute in Ht; discriminate]]|]).
  by apply not_elem_of_nil in H.
Qed.

Lemma completed_is_the_only_end_witness :
  FAILED ∈ lifecycle /\ rtc step FAILED COMPLETED.
Proof.
  assert (FAILED ∈ lifecycle) as H by (by do 2 apply list_elem_of_further; apply list_elem_of_here).
  split; [exact H|]. exact (proj1 (completed_is_the_only_end FAILED H)).
Defined.

(** How the predicates classify states: cancelling is possible exactly
    in the non-terminal states, terminal states are not processing, and every
    state a request can reach is exactly one of terminal or processing. *)
Theorem state_classification (s : RequestState) :
  CanCancel s = negb (IsTerminal s) /\
  Done s = IsTerminal s /\
  (IsTerminal s = true -> Processing s = false) /\
  (s ∈ lifecycle -> IsTerminal s = negb (Processing s)).
Proof.
  split; [|split; [|split]].
  - unfold CanCancel, IsTerminal. split_states; done.
  - unfold Done, IsTerminal. split_states; done.
  - unfold IsTerminal, Processing. split_states; done.
  - intros H. unfold lifecycle in H.
    repeat (apply elem_of_cons in H as [->|H]; [reflexivity|]). by apply not_elem_of_nil in H.
Qed.
End State.

(** ** Task methods (task_method.go) *)
Module Method.
Definition ExpireArtifacts : TaskMethod := "EXPIRE_ARTIFACTS".
Definition ForkJob : TaskMethod := "FORK_JOB".
Definition AwaitForkedJob : TaskMethod := "AWAIT_FORKED_JOB".
Definition Messaging : TaskMethod := "MESSAGING".
Definition HTTPGet : TaskMethod := "HTTP_GET".
Definition HTTPPostForm : TaskMethod := "HTTP_POST_FORM".
Definition HTTPPostJSON : TaskMethod := "HTTP_POST_JSON".
Definition HTTPPutFORM : TaskMethod := "HTTP_PUT_FORM".
Definition HTTPPutJSON : TaskMethod := "HTTP_PUT_JSON".
Definition HTTPDelete : TaskMethod := "HTTP_DELETE".
Definition WebSocket : TaskMethod := "WEBSOCKET".
Definition Shell : TaskMethod := "SHELL".
Definition Docker : TaskMethod := "DOCKER".
Definition Kubernetes : TaskMethod := "KUBERNETES".
Definition Manual : TaskMethod := "MANUAL".
Definition FanOutJob : TaskMethod := "FAN_OUT_JOB".

Definition SupportsCaptureStdout (m : TaskMethod) : bool :=
  (m == HTTPGet) || (m == HTTPDelete) || (m == HTTPPostForm) || (m == HTTPPostJSON)
  || (m == HTTPPutFORM) || (m == HTTPPutJSON) || (m == Shell).
Definition RequiresScript (m : TaskMethod) : bool :=
  (m == HTTPGet) || (m == HTTPDelete) || (m == HTTPPostForm) || (m == HTTPPostJSON)
  || (m == HTTPPutFORM) || (m == HTTPPutJSON) || (m == Shell) || (m == Docker)
  || (m == Kubernetes).
Definition IsValid (m : TaskMethod) : bool :=
  (m == HTTPGet) || (m == HTTPDelete) || (m == HTTPPostForm) || (m == HTTPPostJSON)
  || (m == HTTPPutFORM) || (m == HTTPPutJSON) || (m == WebSocket) || (m == Shell)
  || (m == Docker) || (m == Kubernetes) || (m == ForkJob) || (m == AwaitForkedJob)
  || (m == Messaging) || (m == Manual) || (m == ExpireArtifacts) || (m == FanOutJob).
Definition SupportsDependentArtifacts (m : TaskMethod) : bool :=
  (m == Shell) || (m == Docker) || (m == Kubernetes).
Definition SupportsCache (m : TaskMethod) : bool := (m == Docker) || (m == Kubernetes).
Definition IsHTTP (m : TaskMethod) : bool :=
  (m == HTTPGet) || (m == HTTPDelete) || (m == HTTPPostForm) || (m == HTTPPostJSON)
  || (m == HTTPPutJSON).

Lemma SupportsCache_valid m : SupportsCache m = true -> IsValid m = true.
Proof. unfold SupportsCache. intros [H|H]%orb_prop; apply eqb_string_true in H as ->; done. Qed.
End Method.

(** ** Error codes (error_code.go) *)
Module ErrorCodes.
Definition SuspendJob : string := "SUSPEND_JOB".
Definition RetryJob : string := "RETRY_JOB".
Definition RetryTask : string := "RETRY_TASK".
Definition HardFailure : string := "HARD_FAILURE".

Definition ErrorJobExecute : string := "ERR_JOB_EXECUTE".
Definition ErrorQuotaExceeded : string := "ERR_QUOTA_EXCEEDED".
Definition ErrorJobSchedule : string := "ERR_JOB_SCHEDULE".
Definition ErrorJobCancelled : string := "ERR_JOB_CANCELLED".
Definition ErrorAntsUnavailable : string := "ERR_ANTS_UNAVAILABLE".
Definition ErrorTaskExecute : string := "ERR_TASK_EXECUTE".
Definition ErrorInvalidNextTask : string := "ERR_INVALID_NEXT_TASK".
Definition ErrorContainerNotFound : string := "ERR_CONTAINER_NOT_FOUND".
Definition ErrorContainerStoppedFailed : string := "ERR_CONTAINER_STOPPED_FAILED".
Definition ErrorMarshalingFailed : string := "ERR_MARSHALING_FAILED".
Definition ErrorAntExecutionFailed : string := "ERR_ANT_EXECUTION_FAILED".
Definition ErrorValidation : string := "ERR_VALIDATION".
Definition ErrorFilteredJob : string := "ERR_FILTERED_JOB".
Definition ErrorAntResources : string := "ERR_ANT_RESOURCES".
Definition ErrorFatal : string := "ERR_FATAL".
Definition ErrorRestartJob : string := "ERR_RESTART_JOB".
Definition ErrorPauseJob : string := "ERR_PAUSE_JOB".
Definition ErrorManualApprovalRequired : string := "ERR_MANUAL_APPROVAL_REQUIRED".
Definition ErrorManualRejection : string := "ERR_MANUAL_REJECTION".
Definition ErrorRestartTask : string := "ERR_RESTART_TASK".
Definition ErrorTaskTimedOut : string := "ERR_TASK_TIMED_OUT".

(** The fields of an [ErrorCode] that its methods and clients read. *)
Record ErrorCode := mkErrorCode {
  ID : string;
  Regex : string;
  ExitCode : Z;
  Code : string;            (* the Go field ErrorCode *)
  UserID : string;
  OrganizationID : string;
  Action : string;
  Retry : Z
}.

Definition Editable (ec : ErrorCode) (userID organizationID : string) : bool :=
  if (OrganizationID ec != "") || (organizationID != "")
  then OrganizationID ec == organizationID
  else UserID ec == userID.

(** [ec.Errors] after [Validate], in the order the fields are checked; the
    returned error is the last one set. *)
Definition Validate (ec : ErrorCode) : list (string * string) * option string :=
  let errs1 := if Code ec == "" then [("ErrorCode", "errorCode is not specified")] else [] in
  let errs2 := if (Regex ec == "") && (ExitCode ec =? 0)%Z
               then [("Regex", "regex or exitCode must be specified")] else [] in
  (errs1 ++ errs2, snd <$> last (errs1 ++ errs2)).

(** [regexp.MatchString] is a parameter; [None] is its error result. *)
Definition Matches (MatchString : string -> string -> option bool)
    (ec : ErrorCode) (message : string) : bool :=
  if message == "" then false
  else match MatchString (Regex ec) message with
       | Some m => m
       | None => false
       end.
End ErrorCodes.
