(* ===== verification/Acl.v ===== *)
(** * Acl: permissions, roles and the authorization check

    Models [src/internal/acl/permission.go] and [role.go], the permission and
    role methods of [src/internal/types/user.go] and the gRPC authorization
    interceptor of [src/internal/grpc/interceptors/authorization.go] that
    is their client.  Permissions are 64-bit masks ([Z]); a Go map is a
    [gmap], and where the code walks a map the order is an argument. *)

From S2P Require Import Prelude.
From Stdlib Require Import Bool Ascii String.

Abbreviation Resource := string (only parsing).
Abbreviation RoleType := string (only parsing).

Module Perm.

Definition Audit : Resource := "Audit".
Definition Dashboard : Resource := "Dashboard".
Definition JobRequest : Resource := "JobRequest".
Definition JobDefinition : Resource := "JobDefinition".
Definition JobResource : Resource := "JobResource".
Definition User : Resource := "User".
Definition Organization : Resource := "Organization".
Definition SystemConfig : Resource := "SystemConfig".
Definition OrgConfig : Resource := "OrgConfig".
Definition ErrorCode : Resource := "ErrorCode".
Definition Artifact : Resource := "Artifact".
Definition AntExecutor : Resource := "AntExecutor".
Definition Container : Resource := "Container".
Definition Websocket : Resource := "Websocket".
Definition Health : Resource := "Health".
Definition Profile : Resource := "Profile".
Definition Subscription : Resource := "Subscription".
Definition TermsService : Resource := "TermsService".
Definition PrivacyPolicies : Resource := "PrivacyPolicies".
Definition EmailVerification : Resource := "EmailVerification".
Definition UserInvitation : Resource := "UserInvitation".
Definition Report : Resource := "Report".
Definition Logs : Resource := "Logs".
Definition ProfileStats : Resource := "ProfileStats".
Definition UserConfig : Resource := "UserConfig".

Local Open Scope Z_scope.

Definition None_ : Z := 0.
Definition Execute : Z := 1.
Definition Create : Z := 2.
Definition Read : Z := 4.
Definition View : Z := 4.
Definition Query : Z := 8.
Definition Write : Z := 16.
Definition Update : Z := 16.
Definition Verify : Z := 16.
Definition Delete : Z := 32.
Definition Submit : Z := 64.
Definition Cancel : Z := 128.
Definition Pause : Z := 128.
Definition Restart : Z := 256.
Definition Trigger : Z := 256.
Definition Invite : Z := 512.
Definition Upload : Z := 1024.
Definition Login : Z := 2048.
Definition Logout : Z := 4096.
Definition Signup : Z := 8192.
Definition Disable : Z := 16384.
Definition Enable : Z := 32768.
Definition Metrics : Z := 65536.
Definition Subscribe : Z := 131072.
Definition Register_ : Z := 262144.
Definition Approve : Z := 524288.
Definition All : Z := 1024 * 1024 * 1024.

Record Permission := NewPermission { resource : Resource; actions : Z }.

#[export] Instance Permission_eq_dec : EqDecision Permission.
Proof. solve_decision. Defined.

Definition WildAll (p : Permission) : bool := (actions p =? All) || (actions p <? 0).

Definition Has (p : Permission) (action : Z) : bool :=
  WildAll p || (Z.land (actions p) action =? action).

Definition ReadOnly (p : Permission) : bool :=
  Has p None_ || Has p Read || Has p View || Has p Query || Has p Verify || Has p Metrics
  || Has p Subscribe.

Definition String_ (p : Permission) : string := resource p +:+ "=" +:+ itoa (actions p).

Definition NotEmpty (p : Permission) : bool := negb (actions p =? 0).

(** The actions that [LongAction] prints, in its order. *)
Definition long_names : list (Z * string) :=
  [(Execute, "Execute "); (Create, "Create "); (Read, "Read "); (View, "View ");
   (Query, "Query "); (Write, "Write "); (Verify, "Verify "); (Update, "Update ");
   (Delete, "Delete "); (Submit, "Submit "); (Cancel, "Cancel "); (Restart, "Restart ");
   (Trigger, "Trigger "); (Invite, "Invite "); (Upload, "Upload "); (Login, "Login ");
   (Logout, "Logout "); (Signup, "Signup "); (Disable, "Disable "); (Enable, "Enable ");
   (Metrics, "Metrics "); (Subscribe, "Subscribe "); (Register_, "Register")]%string.

Definition LongAction (p : Permission) : string :=
  if WildAll p then "*"
  else TrimSpace (foldl (fun sb an =>
         if Z.land (actions p) an.1 =? an.1 then sb +:+ an.2 else sb) "" long_names).

Definition LongString (p : Permission) : string := resource p +:+ ": " +:+ LongAction p.

(** [MarshalPermissions]: a string builder, with a ";" before every
    permission but the first one written; the empty list gives "". *)
Definition MarshalPermissions (perms : list Permission) : string :=
  foldl (builder_add String_ ";") "" perms.

(** One line of [UnmarshalPermissions]: kept only when it has exactly one
    "=" and its action parses. *)
Definition parse_permission (line : string) : option Permission :=
  match Split line "=" with
  | [r; a] =>
      match Atoi (TrimSpace a) with
      | Some action => Some (NewPermission (TrimSpace r) action)
      | None => None
      end
  | _ => None
  end.

Definition UnmarshalPermissions (s : string) : list Permission :=
  if (s == "")%go then [] else omap parse_permission (Split s ";").

(** The permission store. *)
Record Permissions := mkPermissions {
  lookup : gmap string Permission;
  hasWildcard : bool
}.

Definition add_permission (st : Permissions) (p : Permission) : Permissions :=
  mkPermissions (<[resource p := p]> (lookup st))
    (hasWildcard st || ((resource p == "*")%go && ((actions p <? 0) || (actions p =? All)))).

Definition NewPermissions (str : string) : Permissions :=
  foldl add_permission (mkPermissions ∅ false) (UnmarshalPermissions str).

Definition Permissions_Has (st : Permissions) (r : Resource) (action : Z) : bool :=
  if hasWildcard st then true
  else match lookup st !! r with
       | None => false
       | Some matched => Has matched action
       end.

(** [Permissions.Marshal] lists the values of the map in an unspecified
    order: [order] is that order. *)
Definition Permissions_Marshal (order : list Permission) : string := MarshalPermissions order.

Definition ors (l : list Z) : Z := foldl Z.lor 0 l.

Definition DefaultPermissions : list Permission :=
  [NewPermission Audit None_;
   NewPermission Websocket (ors [Subscribe; Register_]);
   NewPermission Dashboard View;
   NewPermission JobRequest (ors [View; Execute; Submit; Cancel; Restart]);
   NewPermission JobDefinition (ors [Create; Read; Update; Delete; Query; Disable; Enable; Metrics]);
   NewPermission JobResource (ors [Create; Read; Update; Delete; Query; Disable; Enable]);
   NewPermission User (ors [Read; Update; Delete; Login; Logout; Query; Signup]);
   NewPermission Organization (ors [Read; Update; Delete; Invite]);
   NewPermission OrgConfig (ors [Read; Query]);
   NewPermission UserConfig All;
   NewPermission Artifact (ors [Upload; Read; Query; Delete]);
   NewPermission ErrorCode (ors [Query; View; Read; Create; Update; Delete]);
   NewPermission SystemConfig None_;
   NewPermission AntExecutor None_;
   NewPermission Container None_;
   NewPermission Health None_;
   NewPermission Profile None_;
   NewPermission Subscription None_;
   NewPermission TermsService (ors [View; Read]);
   NewPermission PrivacyPolicies (ors [View; Read]);
   NewPermission EmailVerification (ors [Create; View; Read; Verify; Query]);
   NewPermission UserInvitation (ors [Create; View; Update; Read; Query; Invite]);
   NewPermission Report None_;
   NewPermission Logs (ors [Create; View; Update; Read])].

Definition OrgAdminPermissions : list Permission :=
  map (fun p =>
         let p := if (resource p == OrgConfig)%go then NewPermission (resource p) All else p in
         if (resource p == Report)%go then NewPermission (resource p) (ors [View; Read; Query]) else p)
      DefaultPermissions.

Definition AdminPermissions : list Permission :=
  [NewPermission Audit (ors [Query; View; Read]);
   NewPermission AntExecutor (ors [Query; View; Read]);
   NewPermission Container (ors [Query; View; Read; Delete]);
   NewPermission ErrorCode (ors [Query; View; Read; Create; Update; Delete]);
   NewPermission Websocket (ors [Subscribe; Register_]);
   NewPermission Dashboard View;
   NewPermission JobRequest (ors [View; Execute; Submit; Cancel; Restart; Metrics]);
   NewPermission JobDefinition (ors [Create; Read; Update; Delete; Query; Disable; Enable; Metrics]);
   NewPermission JobResource (ors [Create; Read; Update; Delete; Query; Disable; Enable]);
   NewPermission User (ors [Read; Update; Delete; Login; Logout; Query; Signup]);
   NewPermission Organization (ors [Read; Update; Delete; Invite]);
   NewPermission OrgConfig (ors [Create; Read; Update; Delete; Query]);
   NewPermission UserConfig (ors [Create; Read; Update; Delete; Query]);
   NewPermission Artifact (ors [Upload; Read; Query; Delete]);
   NewPermission Subscription (ors [Create; Read; Update; Delete; Query; Register_]);
   NewPermission TermsService (ors [View; Read]);
   NewPermission PrivacyPolicies (ors [View; Read]);
   NewPermission ErrorCode (ors [Create; Read; Update; Delete; Query]);
   NewPermission SystemConfig (ors [Create; Read; Update; Delete; Query]);
   NewPermission AntExecutor (ors [Create; Read; Update; Delete; Query]);
   NewPermission Container (ors [Create; Read; Update; Delete; Query]);
   NewPermission Health (ors [Create; Read; Update; Delete; Query]);
   NewPermission Profile (ors [Create; Read; Update; Delete; Query]);
   NewPermission EmailVerification (ors [Create; Read; Update; Delete; Query]);
   NewPermission UserInvitation (ors [Create; View; Update; Read; Query; Invite]);
   NewPermission Report (ors [View; Read; Query]);
   NewPermission Logs (ors [Create; View; Update; Read])].

Definition DefaultPermissionsString : string := MarshalPermissions DefaultPermissions.
Definition OrgAdminPermissionsString : string := MarshalPermissions OrgAdminPermissions.

(** ** Marshalling *)

(** A permission that survives the text format: its resource is trimmed and
    has neither of the two delimiters, its mask is a Go [int]. *)
Definition wf_resource (r : Resource) : bool :=
  negb (string_mem ";" r) && negb (string_mem "=" r) && (TrimSpace r == r)%go.
Definition wf_permission (p : Permission) : bool :=
  wf_resource (resource p) && in_int64 (actions p).

Lemma String_nonempty p : String_ p <> "".
Proof. unfold String_. destruct (resource p); done. Qed.

Lemma wf_resource_spec r :
  wf_resource r = true ->
  string_mem ";" r = false /\ string_mem "=" r = false /\ TrimSpace r = r.
Proof.
  unfold wf_resource. intros [[H1 H2]%andb_prop H3]%andb_prop.
  apply negb_true_iff in H1, H2. apply eqb_string_true in H3. done.
Qed.

Lemma parse_String p : wf_permission p = true -> parse_permission (String_ p) = Some p.
Proof.
  intros [Hr Ha]%andb_prop. apply wf_resource_spec in Hr as (_ & Heq & Htr).
  unfold parse_permission, String_.
  rewrite string_app_cons, string_app_nil_l, Split_app by done.
  rewrite Split_single by (by apply itoa_avoids).
  rewrite TrimSpace_itoa, Atoi_itoa, Htr by done. by destruct p.
Qed.

Lemma unmarshal_marshal (ps : list Permission) :
  Forall (fun p => wf_permission p = true) ps ->
  UnmarshalPermissions (MarshalPermissions ps) = ps.
Proof.
  intros HF. unfold UnmarshalPermissions, MarshalPermissions.
  destruct (decide (ps = [])) as [->|Hne]; [done|].
  destruct (String.eqb_spec (foldl (builder_add String_ ";") "" ps) "") as [E|_].
  - by apply builder_nonempty in E; [|apply String_nonempty|].
  - rewrite builder_Join by apply String_nonempty. rewrite Split_Join; [|by destruct ps|].
    + clear Hne. induction HF as [|q qs Hq _ IH]; [done|]. cbn. by rewrite parse_String, IH.
    + apply Forall_fmap. eapply Forall_impl; [exact HF|]. intros q [Hr _]%andb_prop.
      apply wf_resource_spec in Hr as (Hs & _). cbn. unfold String_.
      rewrite !string_mem_app, Hs, itoa_avoids by done. done.
Qed.

(** Permissions survive the text form stored with a user: reading back
    what [MarshalPermissions] wrote gives the same list, in the same order. *)
Theorem permissions_roundtrip (ps : list Permission) :
  Forall (fun p => wf_permission p = true) ps ->
  UnmarshalPermissions (MarshalPermissions ps) = ps.
Proof. apply unmarshal_marshal. Qed.

Lemma permissions_roundtrip_witness :
  UnmarshalPermissions (MarshalPermissions AdminPermissions) = AdminPermissions.
Proof. apply (permissions_roundtrip AdminPermissions). repeat (constructor; [vm_compute; reflexivity|]). constructor. Defined.

(** ** Masks *)

Lemma land_subset a b :
  Z.land a b = b <-> forall i, 0 <= i -> Z.testbit b i = true -> Z.testbit a i = true.
Proof.
  split.
  - intros H i _ Hi. rewrite <- H, Z.land_spec in Hi. apply andb_prop in Hi as [Hi _]. done.
  - intros H. apply Z.bits_inj. intros i. rewrite Z.land_spec.
    destruct (Z.testbit b i) eqn:E; [|by rewrite andb_false_r].
    destruct (Z.ltb_spec i 0); [by rewrite Z.testbit_neg_r in E by lia|].
    by rewrite H.
Qed.

(** A permission grants an action mask exactly when it is a wildcard or
    grants every bit of the mask; in particular a permission grants the union
    of two masks exactly when it grants both. *)
Theorem has_is_bitwise (p : Permission) (a b : Z) :
  (Has p a = true <->
     WildAll p = true \/
     forall i, 0 <= i -> Z.testbit a i = true -> Z.testbit (actions p) i = true) /\
  Has p (Z.lor a b) = Has p a && Has p b.
Proof.
  assert (forall x, Has p x = true <-> WildAll p = true \/
    forall i, 0 <= i -> Z.testbit x i = true -> Z.testbit (actions p) i = true) as Hspec.
  { intros x. unfold Has. rewrite orb_true_iff, Z.eqb_eq, land_subset. done. }
  split; [apply Hspec|]. apply eq_bool_prop_intro. rewrite !Is_true_true, andb_true_iff, !Hspec.
  setoid_rewrite Z.lor_spec. setoid_rewrite orb_true_iff. clear Hspec. intuition.
Qed.

(** [ReadOnly] asks, among others, for the empty mask [None], which every
    permission grants. *)
Lemma ReadOnly_true p : ReadOnly p = true.
Proof.
  assert (Has p None_ = true) as H.
  { unfold Has, None_. by rewrite Z.land_0_r, Z.eqb_refl, orb_true_r. }
  unfold ReadOnly. by rewrite H.
Qed.

(** ** The store *)

Lemma fold_lookup_app st ps p :
  foldl add_permission st (ps ++ [p]) = add_permission (foldl add_permission st ps) p.
Proof. by rewrite foldl_app. Qed.

(** When the resources are distinct, the store has every permission. *)
Lemma fold_lookup_NoDup ps st p :
  NoDup (map resource ps) -> p ∈ ps ->
  lookup (foldl add_permission st ps) !! resource p = Some p.
Proof.
  revert st. induction ps as [|q ps IH] using rev_ind; intros st Hnd Hp.
  { by apply not_elem_of_nil in Hp. }
  rewrite fold_lookup_app. cbn [add_permission lookup].
  rewrite map_app in Hnd. apply NoDup_app in Hnd as (Hnd & Hdis & _).
  apply elem_of_app in Hp as [Hp|Hp%list_elem_of_singleton].
  - rewrite lookup_insert_ne; [by apply IH|].
    intros Heq. apply (Hdis (resource p)); [by apply list_elem_of_fmap_2|].
    cbn. rewrite <- Heq. apply list_elem_of_here.
  - subst. apply lookup_insert_eq.
Qed.

Lemma fold_lookup_None ps st r :
  r ∉ map resource ps -> lookup (foldl add_permission st ps) !! r = lookup st !! r.
Proof.
  revert st. induction ps as [|q ps IH]; intros st Hr; [done|]. cbn [foldl].
  apply not_elem_of_cons in Hr as [Hne Hr]. rewrite IH by done.
  cbn. by rewrite lookup_insert_ne.
Qed.

(** What a store holds when it is built from a list with distinct resources. *)
Lemma fold_lookup_iff ps r p :
  NoDup (map resource ps) ->
  lookup (foldl add_permission (mkPermissions ∅ false) ps) !! r = Some p <->
  p ∈ ps /\ resource p = r.
Proof.
  intros Hnd. split.
  - intros H. destruct (decide (r ∈ map resource ps)) as [Hin|Hin].
    + apply list_elem_of_fmap in Hin as (q & -> & Hq).
      rewrite (fold_lookup_NoDup ps _ q Hnd Hq) in H. by injection H as <-.
    + rewrite fold_lookup_None in H by done. cbn in H. by rewrite lookup_empty in H.
  - intros [Hp <-]. by apply fold_lookup_NoDup.
Qed.

(** Saving and reloading a permission store gives back the same
    permissions for every resource, whatever the order in which Go walks the
    map when it marshals. *)
Theorem permissions_store_roundtrip (st : Permissions) (order : list Permission) :
  map_Forall (fun r p => resource p = r /\ wf_permission p = true) (lookup st) ->
  order ≡ₚ (map_to_list (lookup st)).*2 ->
  lookup (NewPermissions (Permissions_Marshal order)) = lookup st.
Proof.
  intros Hwf Hord. unfold NewPermissions, Permissions_Marshal.
  assert (forall p, p ∈ order <-> lookup st !! resource p = Some p) as Hin.
  { intros p. rewrite Hord, list_elem_of_fmap. split.
    - intros ([r q] & -> & Hq%elem_of_map_to_list). cbn.
      by destruct (Hwf r q Hq) as [-> _].
    - intros Hp. exists (resource p, p). split; [done|]. by apply elem_of_map_to_list. }
  rewrite unmarshal_marshal.
  2: { apply Forall_forall. intros p Hp%Hin. apply (Hwf _ _ Hp). }
  assert (NoDup (map resource order)) as Hnd.
  { rewrite Hord. rewrite <- list_fmap_compose.
    assert ((resource ∘ snd) <$> map_to_list (lookup st) = (map_to_list (lookup st)).*1) as ->.
    { apply map_ext_in. intros [r q] Hq%list_elem_of_In%elem_of_map_to_list. cbn.
      by destruct (Hwf r q Hq). }
    apply NoDup_fst_map_to_list. }
  apply map_eq. intros r. apply option_eq. intros p.
  rewrite fold_lookup_iff, Hin by done. split; [by intros [? <-]|].
  intros Hp. destruct (Hwf r p Hp) as [<- _]. done.
Qed.

Lemma permissions_store_roundtrip_witness :
  let st := NewPermissions "Logs=4;User=-1" in
  lookup (NewPermissions (Permissions_Marshal
    [NewPermission "User" (-1); NewPermission "Logs" 4])) = lookup st.
Proof.
  intros st. apply (permissions_store_roundtrip st).
  - refine (bool_decide_unpack _ _). vm_compute. exact I.
  - vm_compute. first [apply Permutation_refl | apply Permutation_swap].
Defined.

(** ** Roles compared *)

(** [q] grants everything that [p] grants. *)
Definition dominates (p q : Permission) : bool :=
  WildAll q || (negb (WildAll p) && (Z.land (actions q) (actions p) =? actions p)).

Lemma dominates_Has p q a : dominates p q = true -> Has p a = true -> Has q a = true.
Proof.
  unfold dominates, Has. intros [->|[Hp Hl]%andb_prop]%orb_prop; [done|].
  apply negb_true_iff in Hp. rewrite Hp. cbn [orb]. intros Ha.
  apply orb_true_iff. right. apply Z.eqb_eq in Hl, Ha. apply Z.eqb_eq.
  rewrite <- Ha at 1. rewrite Z.land_assoc, Hl. exact Ha.
Qed.

(** An organization administrator can do whatever a user with the
    default permissions can do, on every resource and every action. *)
Theorem org_admin_extends_default (r : Resource) (a : Z) :
  Permissions_Has (NewPermissions DefaultPermissionsString) r a = true ->
  Permissions_Has (NewPermissions OrgAdminPermissionsString) r a = true.
Proof.
  assert (map_Forall (fun r p =>
            (match lookup (NewPermissions OrgAdminPermissionsString) !! r with
             | Some q => dominates p q
             | None => false
             end) = true) (lookup (NewPermissions DefaultPermissionsString))) as HF.
  { refine (bool_decide_unpack _ _). vm_compute. exact I. }
  unfold Permissions_Has.
  assert (hasWildcard (NewPermissions DefaultPermissionsString) = false) as -> by (vm_compute; done).
  destruct (lookup (NewPermissions DefaultPermissionsString) !! r) as [p|] eqn:E; [|done].
  specialize (HF r p E). cbn beta in HF.
  destruct (hasWildcard (NewPermissions OrgAdminPermissionsString)); [done|].
  destruct (lookup (NewPermissions OrgAdminPermissionsString) !! r) as [q|]; [|done].
  by apply dominates_Has.
Qed.

Lemma org_admin_extends_default_witness :
  Permissions_Has (NewPermissions OrgAdminPermissionsString) JobRequest Submit = true.
Proof. apply (org_admin_extends_default JobRequest Submit). vm_compute. reflexivity. Defined.
End Perm.

Module Roles.

Definition Admin : RoleType := "Admin".
Definition ReadAdmin : RoleType := "ReadAdmin".
Definition OrgAdmin : RoleType := "OrgAdmin".

Record Role := NewRole { roleType : RoleType; scope : list string }.

(** Every scope of the role must be among the given ones; a role without
    scopes matches everything. *)
Definition MatchesScope (p : Role) (sc : list string) : bool :=
  match scope p with
  | [] => true
  | l => forallb (fun roleScope => existsb (String.eqb roleScope) sc) l
  end.

Definition Role_IsAdmin (p : Role) (sc : list string) : bool :=
  if (roleType p != Admin)%go then false else MatchesScope p sc.
Definition Role_IsReadAdmin (p : Role) (sc : list string) : bool :=
  if (roleType p != ReadAdmin)%go then false else MatchesScope p sc.

(** [fmt.Sprintf("%s%v", RoleType, Scope)]: Go prints a slice in brackets
    with a blank between the elements. *)
Definition String_ (p : Role) : string :=
  roleType p +:+ "[" +:+ Join (scope p) " " +:+ "]".

Definition MarshalRoles (roles : list Role) : string :=
  foldl (builder_add String_ ";") "" roles.

(** [strings.ReplaceAll(s, "]", "")]. *)
Fixpoint remove_char (c : ascii) (s : string) : string :=
  match s with
  | EmptyString => EmptyString
  | String d s' => if Ascii.eqb d c then remove_char c s' else String d (remove_char c s')
  end.

Definition parse_scope (scopeLine : string) : option string :=
  let next := TrimSpace (remove_char "]" scopeLine) in
  if (next != "")%go then Some next else None.

Definition parse_role (line : string) : option Role :=
  match Split line "[" with
  | [t; sc] => Some (NewRole (TrimSpace t) (omap parse_scope (Split sc ",")))
  | _ => let r := TrimSpace line in if (r != "")%go then Some (NewRole r []) else None
  end.

Definition UnmarshalRoles (s : string) : list Role :=
  if (s == "")%go then [] else omap parse_role (Split s ";").

(** The role store: role type to role. *)
Abbreviation RoleMap := (gmap string Role) (only parsing).

Definition AddRole (r : RoleMap) (role : RoleType) (sc : list string) : RoleMap :=
  <[role := NewRole role sc]> r.
Definition NewRoles (str : string) : RoleMap :=
  foldl (fun m next => <[roleType next := next]> m) ∅ (UnmarshalRoles str).
Definition NewRolesWithAdmin : RoleMap := AddRole ∅ Admin [].
Definition NewRolesWithReadAdmin : RoleMap := AddRole ∅ ReadAdmin [].

Definition HasRole (r : RoleMap) (t : RoleType) (sc : list string) : bool :=
  match r !! t with
  | None => false
  | Some role =>
      if (t == Admin)%go || (t == ReadAdmin)%go then true else MatchesScope role sc
  end.

Definition IsAdmin (r : RoleMap) : bool := HasRole r Admin [].
Definition IsReadAdmin (r : RoleMap) : bool := HasRole r ReadAdmin [] || HasRole r Admin [].
Definition IsOrgAdmin (r : RoleMap) : bool := HasRole r OrgAdmin [] || HasRole r Admin [].

(** ** The text form of roles *)

(** Characters with a meaning in the text form. *)
Definition role_delim (c : ascii) : bool :=
  Ascii.eqb c ";" || Ascii.eqb c "[" || Ascii.eqb c "]" || Ascii.eqb c ",".

Definition wf_role_text (s : string) : bool :=
  string_forall (fun c => negb (role_delim c)) s && (TrimSpace s == s)%go.

(** A role whose type and printed scopes are trimmed and free of delimiters. *)
Definition wf_role (r : Role) : bool :=
  wf_role_text (roleType r) && wf_role_text (Join (scope r) " ")
  && (match scope r with [] => true | l => (Join l " " != "")%go end).

(** What is left of a role after it was written and read back: the scopes
    have become one scope, their blank-separated text. *)
Definition collapse (r : Role) : Role :=
  NewRole (roleType r) (match scope r with [] => [] | l => [Join l " "] end).

Lemma wf_text_avoids s c :
  wf_role_text s = true -> role_delim c = true -> string_mem c s = false.
Proof.
  intros [H _]%andb_prop Hc. apply string_mem_forall.
  eapply string_forall_impl; [|exact H]. intros d Hd. cbn in *.
  destruct (Ascii.eqb_spec c d) as [->|]; [by rewrite Hc in Hd|done].
Qed.

Lemma wf_text_trimmed s : wf_role_text s = true -> TrimSpace s = s.
Proof. intros [_ H]%andb_prop. by apply eqb_string_true. Qed.

Lemma remove_char_app c a b : remove_char c (a +:+ b) = remove_char c a +:+ remove_char c b.
Proof.
  induction a as [|d a IH]; [done|]. rewrite string_app_cons. cbn.
  destruct (Ascii.eqb d c); by rewrite IH.
Qed.

Lemma remove_char_absent c s : string_mem c s = false -> remove_char c s = s.
Proof.
  induction s as [|d s IH]; cbn; [done|]. intros [H1 H2]%orb_false_elim.
  rewrite Ascii.eqb_sym, H1, IH; done.
Qed.

Lemma role_parse_String r : wf_role r = true -> parse_role (String_ r) = Some (collapse r).
Proof.
  intros [[Ht Hs]%andb_prop Hne]%andb_prop. unfold parse_role, String_.
  set (j := Join (scope r) " ") in *.
  assert (string_mem "[" (j +:+ "]") = false) as Hb.
  { rewrite string_mem_app. by rewrite wf_text_avoids. }
  assert (string_mem "," (j +:+ "]") = false) as Hc.
  { rewrite string_mem_app. by rewrite wf_text_avoids. }
  rewrite string_app_cons, string_app_nil_l, Split_app by (by apply wf_text_avoids).
  rewrite Split_single by done. rewrite Split_single by done.
  rewrite (wf_text_trimmed (roleType r)) by done.
  unfold collapse. do 2 f_equal. cbn [omap list_omap].
  unfold parse_scope. rewrite remove_char_app, (remove_char_absent _ j), string_app_nil_r.
  2: by apply wf_text_avoids.
  rewrite wf_text_trimmed by done.
  destruct (scope r) as [|x l] eqn:E; [done|]. subst j. by rewrite Hne.
Qed.

Lemma role_String_nonempty r : String_ r <> "".
Proof. unfold String_. by destruct (roleType r). Qed.

Lemma role_unmarshal_marshal rs :
  Forall (fun r => wf_role r = true) rs ->
  UnmarshalRoles (MarshalRoles rs) = map collapse rs.
Proof.
  intros HF. unfold UnmarshalRoles, MarshalRoles.
  destruct (list_eq_nil_dec rs) as [->|Hne]; [done|].
  destruct (String.eqb_spec (foldl (builder_add String_ ";") "" rs) "") as [E|_].
  - by apply builder_nonempty in E; [|apply role_String_nonempty|].
  - rewrite builder_Join by apply role_String_nonempty. rewrite Split_Join; [|by destruct rs|].
    + clear Hne. induction HF as [|q qs Hq _ IH]; [done|]. cbn. by rewrite role_parse_String, IH.
    + apply Forall_fmap. eapply Forall_impl; [exact HF|].
      intros q [[Ht Hs]%andb_prop _]%andb_prop. cbn. unfold String_.
      rewrite !string_mem_app, (wf_text_avoids (roleType q)), (wf_text_avoids (Join _ _)) by done. done.
Qed.

(** Roles are written and read back unchanged exactly when no role
    carries more than one scope: the writer separates scopes by blanks and
    the reader splits at commas, so several scopes come back as one. *)
Theorem roles_roundtrip_iff (rs : list Role) :
  Forall (fun r => wf_role r = true) rs ->
  UnmarshalRoles (MarshalRoles rs) = rs <-> Forall (fun r => List.length (scope r) <= 1)%nat rs.
Proof.
  intros HF. rewrite role_unmarshal_marshal by done.
  induction HF as [|r rs _ _ IH]; [done|]. cbn. rewrite Forall_cons, <- IH.
  destruct r as [t sc]. unfold collapse. cbn.
  destruct sc as [|a [|b sc]]; cbn; split; intros H.
  - split; [lia|]. congruence.
  - destruct H as [_ H]. by f_equal.
  - split; [lia|]. congruence.
  - destruct H as [_ H]. by f_equal.
  - congruence.
  - lia.
Qed.

Lemma roles_roundtrip_iff_witness :
  UnmarshalRoles (MarshalRoles [NewRole OrgAdmin ["eng"; "ops"]]) <>
  [NewRole OrgAdmin ["eng"; "ops"]].
Proof.
  rewrite (roles_roundtrip_iff [NewRole OrgAdmin ["eng"; "ops"]]).
  - intros H. apply Forall_cons in H as [H _]. cbn in H. lia.
  - constructor; [vm_compute; reflexivity|constructor].
Defined.
End Roles.

(** ** Users (user.go): serialized permissions and roles with their caches *)
Module Users.

Record User := mkUser {
  ID : string;
  OrganizationID : string;
  SerializedPerms : string;
  SerializedRoles : string;
  permissions : option Perm.Permissions;   (* nil until first use *)
  roles : option (gmap string Roles.Role)  (* nil until first use *)
}.

Definition GetPermissions (u : User) : User * Perm.Permissions :=
  match permissions u with
  | Some p => (u, p)
  | None =>
      let p := Perm.NewPermissions (SerializedPerms u) in
      (mkUser (ID u) (OrganizationID u) (SerializedPerms u) (SerializedRoles u) (Some p) (roles u), p)
  end.

Definition GetRoles (u : User) : User * gmap string Roles.Role :=
  match roles u with
  | Some r => (u, r)
  | None =>
      let r := Roles.NewRoles (SerializedRoles u) in
      (mkUser (ID u) (OrganizationID u) (SerializedPerms u) (SerializedRoles u) (permissions u) (Some r), r)
  end.

Definition HasRole (u : User) (t : RoleType) (sc : list string) : User * bool :=
  let '(u, r) := GetRoles u in (u, Roles.HasRole r t sc).
Definition IsAdmin (u : User) : User * bool :=
  let '(u, r) := GetRoles u in (u, Roles.IsAdmin r).
Definition IsReadAdmin (u : User) : User * bool :=
  let '(u, r) := GetRoles u in (u, Roles.IsReadAdmin r).
Definition IsOrgAdmin (u : User) : User * bool :=
  let '(u, r) := GetRoles u in (u, Roles.IsOrgAdmin r).

Definition HasPermission (u : User) (r : Resource) (action : Z) : User * bool :=
  let '(u, a) := IsAdmin u in
  if a then (u, true)
  else let '(u, p) := GetPermissions u in (u, Perm.Permissions_Has p r action).

(** [BackfillDefaultPermissions]: the defaults whose resource is missing are
    appended; the cached permissions are dropped when something changed. *)
Definition missing_defaults (existing : list Perm.Permission) : list Perm.Permission :=
  filter (fun def => Perm.resource def ∉ map Perm.resource existing) Perm.DefaultPermissions.

Definition BackfillDefaultPermissions (u : User) : User :=
  let existing := Perm.UnmarshalPermissions (SerializedPerms u) in
  match missing_defaults existing with
  | [] => u
  | missing =>
      mkUser (ID u) (OrganizationID u) (Perm.MarshalPermissions (existing ++ missing))
        (SerializedRoles u) None (roles u)
  end.

Definition CopyRolesPermissions (u other : User) : User :=
  mkUser (ID u) (OrganizationID u) (SerializedPerms other) (SerializedRoles other) None None.
Definition ResetPermissionsCache (u : User) : User :=
  mkUser (ID u) (OrganizationID u) (SerializedPerms u) (SerializedRoles u) None None.

(** The caches, when filled, agree with the serialized fields. *)
Definition coherent (u : User) : Prop :=
  (forall p, permissions u = Some p -> p = Perm.NewPermissions (SerializedPerms u)) /\
  (forall r, roles u = Some r -> r = Roles.NewRoles (SerializedRoles u)).

(** What a coherent user is allowed: a function of the serialized fields. *)
Definition is_admin (u : User) : bool := Roles.IsAdmin (Roles.NewRoles (SerializedRoles u)).
Definition is_read_admin (u : User) : bool := Roles.IsReadAdmin (Roles.NewRoles (SerializedRoles u)).
Definition is_permitted (u : User) (r : Resource) (a : Z) : bool :=
  is_admin u || Perm.Permissions_Has (Perm.NewPermissions (SerializedPerms u)) r a.

(** The reads keep the serialized fields and coherence. *)
Definition same_serialized (u v : User) : Prop :=
  SerializedPerms v = SerializedPerms u /\ SerializedRoles v = SerializedRoles u /\
  (coherent u -> coherent v).

Lemma GetRoles_spec u :
  coherent u ->
  same_serialized u (GetRoles u).1 /\ (GetRoles u).2 = Roles.NewRoles (SerializedRoles u).
Proof.
  intros [Hp Hr]. unfold GetRoles. destruct (roles u) as [r|] eqn:E.
  - split; [done|]. by apply Hr.
  - split; [|done]. split; [done|]. split; [done|]. intros _. split; cbn; [done|].
    by intros r [= <-].
Qed.

Lemma GetPermissions_spec u :
  coherent u ->
  same_serialized u (GetPermissions u).1 /\
  (GetPermissions u).2 = Perm.NewPermissions (SerializedPerms u).
Proof.
  intros [Hp Hr]. unfold GetPermissions. destruct (permissions u) as [p|] eqn:E.
  - split; [done|]. by apply Hp.
  - split; [|done]. split; [done|]. split; [done|]. intros _. split; cbn; [|done].
    by intros p [= <-].
Qed.

Lemma IsAdmin_spec u :
  coherent u -> same_serialized u (IsAdmin u).1 /\ (IsAdmin u).2 = is_admin u.
Proof.
  intros H. pose proof (GetRoles_spec u H) as [H1 H2]. unfold IsAdmin.
  destruct (GetRoles u) as [v r]. cbn in *. by subst.
Qed.

Lemma IsReadAdmin_spec u :
  coherent u -> same_serialized u (IsReadAdmin u).1 /\ (IsReadAdmin u).2 = is_read_admin u.
Proof.
  intros H. pose proof (GetRoles_spec u H) as [H1 H2]. unfold IsReadAdmin.
  destruct (GetRoles u) as [v r]. cbn in *. by subst.
Qed.

Lemma HasPermission_spec u r a :
  coherent u ->
  same_serialized u (HasPermission u r a).1 /\ (HasPermission u r a).2 = is_permitted u r a.
Proof.
  intros H. pose proof (IsAdmin_spec u H) as [(H1 & H2 & H3) H4]. unfold HasPermission.
  destruct (IsAdmin u) as [v b]. cbn in *. subst b. unfold is_permitted.
  destruct (is_admin u) eqn:E; cbn; [done|].
  pose proof (GetPermissions_spec v (H3 H)) as [(G1 & G2 & G3) G4].
  destruct (GetPermissions v) as [w p]. cbn in *. subst p.
  split; [|by rewrite H1]. split; [congruence|]. split; [congruence|]. auto.
Qed.

Lemma NoDup_missing existing :
  NoDup (map Perm.resource existing) ->
  NoDup (map Perm.resource (existing ++ missing_defaults existing)).
Proof.
  intros Hnd. rewrite map_app. apply NoDup_app. split; [done|]. split.
  - intros r Hr (p & -> & Hp)%list_elem_of_fmap. apply list_elem_of_filter in Hp as [Hp _]. done.
  - apply (sublist_NoDup _ (map Perm.resource Perm.DefaultPermissions)).
    + refine (bool_decide_unpack _ _). vm_compute. exact I.
    + apply fmap_sublist, sublist_filter.
Qed.

(** Backfilling a user whose stored permissions are well formed keeps
    every permission the user had and adds the default of every missing
    resource, and only those. *)
Theorem backfill_adds_missing (u : User) (ps : list Perm.Permission) :
  SerializedPerms u = Perm.MarshalPermissions ps ->
  Forall (fun p => Perm.wf_permission p = true) ps ->
  NoDup (map Perm.resource ps) ->
  let st' := Perm.NewPermissions (SerializedPerms (BackfillDefaultPermissions u)) in
  forall r p,
    Perm.lookup st' !! r = Some p <->
    Perm.resource p = r /\
    (p ∈ ps \/ (r ∉ map Perm.resource ps /\ p ∈ Perm.DefaultPermissions)).
Proof.
  intros Hs Hwf Hnd st' r p.
  assert (Perm.UnmarshalPermissions (SerializedPerms (BackfillDefaultPermissions u))
          = ps ++ missing_defaults ps) as E.
  { unfold BackfillDefaultPermissions. rewrite Hs, Perm.unmarshal_marshal by done.
    destruct (missing_defaults ps) as [|d ds] eqn:Em.
    - by rewrite Hs, Perm.unmarshal_marshal, app_nil_r.
    - cbn [SerializedPerms]. apply Perm.unmarshal_marshal. apply Forall_app. split; [done|].
      apply Forall_forall. intros q Hq. rewrite <- Em in Hq.
      apply list_elem_of_filter in Hq as [_ Hq].
      assert (Forall (fun p => Perm.wf_permission p = true) Perm.DefaultPermissions) as HD.
      { refine (bool_decide_unpack _ _). vm_compute. exact I. }
      by apply (proj1 (Forall_forall _ _) HD). }
  subst st'. unfold Perm.NewPermissions. rewrite E, Perm.fold_lookup_iff by (by apply NoDup_missing).
  rewrite elem_of_app. unfold missing_defaults. rewrite list_elem_of_filter. naive_solver.
Qed.

Lemma backfill_adds_missing_witness :
  let u := mkUser "u" "" "Logs=4" "" None None in
  Perm.lookup (Perm.NewPermissions (SerializedPerms (BackfillDefaultPermissions u))) !! "Logs"
    = Some (Perm.NewPermission "Logs" 4).
Proof.
  intros u.
  apply (backfill_adds_missing u [Perm.NewPermission "Logs" 4]).
  - vm_compute. reflexivity.
  - constructor; [vm_compute; reflexivity|constructor].
  - apply NoDup_singleton.
  - split; [reflexivity|]. left. apply list_elem_of_here.
Defined.
End Users.

(** ** The checks in front of the API *)
Module Auth.
Import Users.

Inductive verdict := Allowed | Unauthenticated | PermissionDenied.

(** The unary gRPC interceptor of authorization.go; [user] is what
    [UserFromContext] finds.  [AuthorizationStream] runs the same checks. *)
Definition Authorization (methodPermissions : gmap string Perm.Permission)
    (fullMethod : string) (user : option User) : verdict :=
  match methodPermissions !! fullMethod with
  | None => Allowed
  | Some perm =>
      match user with
      | None => Unauthenticated
      | Some u =>
          let '(u, admin) := IsAdmin u in
          if admin then Allowed
          else if Perm.ReadOnly perm then
            let '(u, ra) := IsReadAdmin u in
            if ra then Allowed
            else let '(u, ok) := HasPermission u (Perm.resource perm) (Perm.actions perm) in
                 if ok then Allowed else PermissionDenied
          else
            let '(u, ok) := HasPermission u (Perm.resource perm) (Perm.actions perm) in
            if ok then Allowed else PermissionDenied
      end
  end.

(** [checkPermission] of src/internal/web/web_server.go.  The user-agent
    block list and the URL white list are configuration, given here by their
    answers; both refusals are HTTP 401. *)
Definition checkPermission (blocked whitelisted authEnabled : bool)
    (perm : option Perm.Permission) (user : option User) : verdict :=
  if blocked then Unauthenticated
  else match perm with
  | None => Allowed
  | Some perm =>
      if negb authEnabled then Allowed
      else if whitelisted then Allowed
      else match user with
      | None => Unauthenticated
      | Some u =>
          if Perm.ReadOnly perm then
            let '(u, ra) := IsReadAdmin u in
            if ra then Allowed
            else let '(u, ok) := HasPermission u (Perm.resource perm) (Perm.actions perm) in
                 if ok then Allowed else PermissionDenied
          else
            let '(u, a) := IsAdmin u in
            if a then Allowed
            else let '(u, ok) := HasPermission u (Perm.resource perm) (Perm.actions perm) in
                 if ok then Allowed else PermissionDenied
      end
  end.

Lemma admin_is_read_admin u : is_admin u = true -> is_read_admin u = true.
Proof. unfold is_admin, is_read_admin, Roles.IsReadAdmin, Roles.IsAdmin. intros ->. apply orb_true_r. Qed.

(** The shared tail of both checks. *)
Lemma read_check u r a :
  coherent u ->
  (let '(u, ra) := IsReadAdmin u in
   if ra then Allowed
   else let '(u, ok) := HasPermission u r a in if ok then Allowed else PermissionDenied)
  = if is_read_admin u || is_permitted u r a then Allowed else PermissionDenied.
Proof.
  intros H. pose proof (IsReadAdmin_spec u H) as [(H1 & H2 & H3) H4].
  destruct (IsReadAdmin u) as [v ra]. cbn in *. subst ra.
  destruct (is_read_admin u); [done|]. cbn [orb].
  pose proof (HasPermission_spec v r a (H3 H)) as [_ H5].
  destruct (HasPermission v r a) as [w ok]. cbn in *. subst ok.
  unfold is_permitted, is_admin. rewrite H1, H2. done.
Qed.

Lemma Authorization_eq (mp : gmap string Perm.Permission) (m : string) (perm : Perm.Permission) (u : User) :
  coherent u -> mp !! m = Some perm ->
  Authorization mp m (Some u) =
    if is_read_admin u || is_permitted u (Perm.resource perm) (Perm.actions perm)
    then Allowed else PermissionDenied.
Proof.
  intros H Hm. unfold Authorization. rewrite Hm.
  pose proof (IsAdmin_spec u H) as [(H1 & H2 & H3) H4].
  destruct (IsAdmin u) as [v b]. cbn in H1, H2, H3, H4. subst b.
  destruct (is_admin u) eqn:E.
  - by rewrite (admin_is_read_admin u E).
  - rewrite Perm.ReadOnly_true, read_check by auto.
    unfold is_read_admin, is_permitted, is_admin. by rewrite H1, H2.
Qed.

(** What the stored texts of a user say: the roles that are named, and the actions
    that are granted on a resource, by a permission for everything or by the last
    permission for that resource. *)
Definition has_role (u : User) (t : RoleType) : Prop :=
  t ∈ map Roles.roleType (Roles.UnmarshalRoles (SerializedRoles u)).
Definition all_actions (p : Perm.Permission) : Prop := Perm.actions p = Perm.All \/ (Perm.actions p < 0)%Z.
Definition granted (u : User) (r : Resource) (action : Z) : Prop :=
  let ps := Perm.UnmarshalPermissions (SerializedPerms u) in
  (exists p, p ∈ ps /\ Perm.resource p = "*" /\ all_actions p) \/
  (exists before p after, ps = before ++ p :: after /\ Perm.resource p = r /\ r ∉ map Perm.resource after /\
     (all_actions p \/ forall i, (0 <= i)%Z -> Z.testbit action i = true -> Z.testbit (Perm.actions p) i = true)).

Lemma role_named (t : RoleType) l (m : Roles.RoleMap) :
  is_Some (foldl (fun m next => <[Roles.roleType next := next]> m) m l !! t) <-> is_Some (m !! t) \/ t ∈ map Roles.roleType l.
Proof.
  revert m. induction l as [|x l IH]; intros m; cbn; [rewrite elem_of_nil; tauto|]. rewrite IH, elem_of_cons.
  destruct (decide (t = Roles.roleType x)) as [->|Hne]; [rewrite lookup_insert_eq; split; eauto|]. rewrite lookup_insert_ne by done. tauto.
Qed.
Lemma HasRole_named u t : t = Roles.Admin \/ t = Roles.ReadAdmin ->
  Roles.HasRole (Roles.NewRoles (SerializedRoles u)) t [] = true <-> has_role u t.
Proof.
  intros Ht. unfold Roles.HasRole, has_role. pose proof (role_named t (Roles.UnmarshalRoles (SerializedRoles u)) ∅) as HN.
  fold (Roles.NewRoles (SerializedRoles u)) in HN. rewrite lookup_empty in HN.
  assert (((t == Roles.Admin)%go || (t == Roles.ReadAdmin)%go) = true) as -> by (by destruct Ht as [-> | ->]).
  destruct (Roles.NewRoles (SerializedRoles u) !! t) as [x|]; (split; [intros HT|intros Hin]); try done.
  - destruct (proj1 HN) as [[? ?]|?]; [by eexists|done|done].
  - destruct (proj2 HN (or_intror Hin)). done.
Qed.

Lemma add_permissions l st :
  let st' := foldl Perm.add_permission st l in
  (Perm.hasWildcard st' = true <-> Perm.hasWildcard st = true \/ exists p, p ∈ l /\ Perm.resource p = "*" /\ all_actions p) /\
  forall r p, Perm.lookup st' !! r = Some p <->
    (Perm.lookup st !! r = Some p /\ r ∉ map Perm.resource l) \/
    exists before after, l = before ++ p :: after /\ Perm.resource p = r /\ r ∉ map Perm.resource after.
Proof.
  cbv zeta. revert st. induction l as [|x l IH]; intros st; cbn [foldl].
  { split; [split; [by left|]; intros [?|(p & Hp & _)]; [done|by apply elem_of_nil in Hp]|]. intros r p. split.
    - intros Hp. left. split; [done|]. apply not_elem_of_nil.
    - intros [[? _]|(b & a & E & _)]; [done|]. by destruct b. }
  destruct (IH (Perm.add_permission st x)) as [HW HL]. split.
  - rewrite HW. cbn [Perm.add_permission Perm.hasWildcard]. rewrite orb_true_iff, andb_true_iff, orb_true_iff, eqb_string_true, Z.ltb_lt, Z.eqb_eq.
    unfold all_actions. setoid_rewrite elem_of_cons. split.
    + intros [[?|[? ?]]|(p & ? & ? & ?)]; [by left|right; exists x; tauto|right; exists p; tauto].
    + intros [?|(p & [->|?] & ? & ?)]; [by left; left|left; right; tauto|right; exists p; tauto].
  - intros r p. rewrite HL. cbn [Perm.add_permission Perm.lookup map]. rewrite not_elem_of_cons. split.
    + intros [[Hp Hr]|(b & a & -> & ? & ?)]; [|right; by exists (x :: b), a].
      destruct (decide (r = Perm.resource x)) as [->|Hne].
      * rewrite lookup_insert_eq in Hp. injection Hp as ->. right. by exists [], l.
      * rewrite lookup_insert_ne in Hp by done. by left.
    + intros [[Hp [Hx Hr]]|(b & a & E & Hr & Ha)]; [left; by rewrite lookup_insert_ne|].
      destruct b as [|y b]; injection E as -> ->; [left; subst r; by rewrite lookup_insert_eq|]. right. by exists b, a.
Qed.
Lemma Permissions_granted u r a :
  Perm.Permissions_Has (Perm.NewPermissions (SerializedPerms u)) r a = true <-> granted u r a.
Proof.
  unfold granted, Perm.NewPermissions. set (ps := Perm.UnmarshalPermissions _).
  destruct (add_permissions ps (Perm.mkPermissions ∅ false)) as [HW HL]. cbn in HW, HL.
  unfold Perm.Permissions_Has. destruct (Perm.hasWildcard _).
  { split; [intros _; left|done]. by destruct (proj1 HW eq_refl). }
  assert (forall p, Perm.Has p a = true <-> all_actions p \/ forall i, (0 <= i)%Z -> Z.testbit a i = true -> Z.testbit (Perm.actions p) i = true) as HH.
  { intros p. rewrite (proj1 (Perm.has_is_bitwise p a a)). unfold Perm.WildAll, all_actions. by rewrite orb_true_iff, Z.eqb_eq, Z.ltb_lt. }
  destruct (Perm.lookup _ !! r) as [p|] eqn:E.
  - rewrite HH. pose proof E as E0. apply HL in E0 as [[E0 _]|(b & a' & Hps & Hr & Ha)]; [by rewrite lookup_empty in E0|]. split.
    + intros Hp. right. by exists b, p, a'.
    + intros [HX|(b2 & p2 & a2 & Hps2 & Hr2 & Ha2 & Hp2)]; [discriminate (proj2 HW (or_intror HX))|].
      assert (Perm.lookup (foldl Perm.add_permission (Perm.mkPermissions ∅ false) ps) !! r = Some p2) as E2
        by (apply HL; right; by exists b2, a2). rewrite E in E2. by injection E2 as ->.
  - split; [done|]. intros [HX|(b2 & p2 & a2 & Hps2 & Hr2 & Ha2 & Hp2)]; [discriminate (proj2 HW (or_intror HX))|].
    assert (Perm.lookup (foldl Perm.add_permission (Perm.mkPermissions ∅ false) ps) !! r = Some p2) as HS; [|congruence].
    apply HL. right. by exists b2, a2.
Qed.

(** C40: the authorization check of a method with a registered permission.  A
    caller without a user is refused as unauthenticated, an administrator passes,
    and a user who is neither administrator nor read administrator passes exactly
    if the stored permissions grant every action of the permission on its
    resource, by a permission for all resources and actions or by the last one
    for the resource, and is refused otherwise.  The roles and permissions that
    the user's object has cached are those of its stored texts.  (What read
    administrators pass is not part of this: see [read_administrator_may_delete].) *)
Theorem authorization_exact (mp : gmap string Perm.Permission) (m : string)
    (perm : Perm.Permission) (u : User) :
  coherent u -> mp !! m = Some perm ->
  Authorization mp m None = Unauthenticated /\
  (has_role u Roles.Admin -> Authorization mp m (Some u) = Allowed) /\
  (~ has_role u Roles.Admin -> ~ has_role u Roles.ReadAdmin ->
    (granted u (Perm.resource perm) (Perm.actions perm) -> Authorization mp m (Some u) = Allowed) /\
    (~ granted u (Perm.resource perm) (Perm.actions perm) -> Authorization mp m (Some u) = PermissionDenied)).
Proof.
  intros H Hm. pose proof (Authorization_eq mp m perm u H Hm) as HA.
  pose proof (HasRole_named u Roles.Admin (or_introl eq_refl)) as Hadmin.
  pose proof (HasRole_named u Roles.ReadAdmin (or_intror eq_refl)) as Hread.
  pose proof (Permissions_granted u (Perm.resource perm) (Perm.actions perm)) as Hg.
  unfold is_read_admin, is_permitted, is_admin, Roles.IsReadAdmin, Roles.IsAdmin in HA. split; [unfold Authorization; by rewrite Hm|].
  rewrite HA. split; [intros ->%Hadmin; by rewrite !orb_true_r|]. intros Ha Hr. rewrite <- Hadmin, not_true_iff_false in Ha.
  rewrite <- Hread, not_true_iff_false in Hr. rewrite Ha, Hr. cbn [orb]. rewrite <- Hg.
  by destruct (Perm.Permissions_Has _ _ _).
Qed.

Lemma authorization_exact_witness :
  let mp := {["/JobService/Delete" := Perm.NewPermission Perm.JobDefinition Perm.Delete]} in
  let u := mkUser "u" "" "JobDefinition=4" "" None None in
  Authorization mp "/JobService/Delete" (Some u) = PermissionDenied.
Proof.
  intros mp u. refine (proj2 (proj2 (proj2 (authorization_exact mp "/JobService/Delete"
             (Perm.NewPermission Perm.JobDefinition Perm.Delete) u _ _)) _ _) _).
  - by split.
  - vm_compute. reflexivity.
  - rewrite <- HasRole_named by (by left). vm_compute. discriminate.
  - rewrite <- HasRole_named by (by right). vm_compute. discriminate.
  - rewrite <- Permissions_granted. vm_compute. discriminate.
Defined.

(** [ReadOnly] holds of every permission: a read administrator passes the check of
    a method that deletes. *)
Example read_administrator_may_delete :
  let mp := {["/JobService/Delete" := Perm.NewPermission Perm.JobDefinition Perm.Delete]} in
  let u := mkUser "u" "" "" "ReadAdmin[]" None None in
  snd (HasPermission u Perm.JobDefinition Perm.Delete) = false /\
  Authorization mp "/JobService/Delete" (Some u) = Allowed.
Proof. vm_compute. split; reflexivity. Qed.

Lemma checkPermission_exact perm u :
  coherent u ->
  checkPermission false false true (Some perm) (Some u) =
    if is_read_admin u || is_permitted u (Perm.resource perm) (Perm.actions perm)
    then Allowed else PermissionDenied.
Proof. intros H. unfold checkPermission. cbn. by rewrite Perm.ReadOnly_true, read_check. Qed.
End Auth.
