(* ===== verification/Tags.v ===== *)
(** * Tags: tag matching and DNS-compatible names

    Models [src/internal/utils/string_helper.go] (tags, wildcards and the
    names given to containers and pods) and the path helpers of
    [src/internal/utils/utils.go]. *)

From S2P Require Import Prelude.
From stdpp Require Import sorting.
From Stdlib Require Import Ascii String.

Definition isEmptyOrWild (str : string) : bool := (str == "") || (str == "*").

Definition isWildMatches (str1 str2 : string) : bool :=
  isEmptyOrWild str1 || isEmptyOrWild str2 || EqualFold str1 str2.

(** The separators of the pattern [[, \t;]]. *)
Definition is_tag_sep (c : ascii) : bool :=
  Ascii.eqb c "," || Ascii.eqb c " " || Ascii.eqb c "009" || Ascii.eqb c ";".

(** [regexp.Split] at one-character separators. *)
Fixpoint split_at (sep : ascii -> bool) (s : string) : list string :=
  match s with
  | EmptyString => [EmptyString]
  | String c s' =>
      if sep c then EmptyString :: split_at sep s'
      else match split_at sep s' with
           | [] => [String c EmptyString]
           | p :: ps => String c p :: ps
           end
  end.

Definition SplitTags (tags : string) : list string :=
  merge_sort String.le
    (filter (fun next => next <> EmptyString) (map TrimSpace (split_at is_tag_sep tags))).

Inductive tag_error :=
| FailedToFind (otherTag : string) (tags : list string)
| FailedToFindAny (otherTags : list string).

(** The loop of [MatchTagsArray] over the wanted tags. *)
Fixpoint match_each (tags otherTags : list string) : option tag_error :=
  match otherTags with
  | [] => None
  | otherTag :: rest =>
      if TrimSpace otherTag == "" then match_each tags rest
      else if existsb (fun tag => EqualFold tag otherTag) tags then match_each tags rest
      else Some (FailedToFind otherTag tags)
  end.

Definition MatchTagsArray (tags otherTags : list string) : option tag_error :=
  match tags, otherTags with
  | _ :: _, _ :: _ => match_each tags otherTags
  | [], _ :: _ => Some (FailedToFindAny otherTags)
  | _, [] => None
  end.

Definition MatchTags (tags otherTags : string) : option tag_error :=
  if negb (isEmptyOrWild tags) && negb (isEmptyOrWild otherTags)
  then MatchTagsArray (SplitTags tags) (SplitTags otherTags)
  else if isEmptyOrWild tags && negb (isEmptyOrWild otherTags)
  then Some (FailedToFindAny [otherTags])
  else None.

(** ** Names for kubernetes *)

Definition DNS1123NameMaximumLength : nat := 63.

Definition is_alnum (c : ascii) : bool :=
  let n := nat_of_ascii c in
  ((97 <=? n)%nat && (n <=? 122)%nat) || ((48 <=? n)%nat && (n <=? 57)%nat).
(** Characters outside [DNS1123NotAllowedCharacters] = [[^-a-z0-9]]. *)
Definition dns_char (c : ascii) : bool := is_alnum c || Ascii.eqb c "-".

Fixpoint keep (P : ascii -> bool) (s : string) : string :=
  match s with
  | EmptyString => EmptyString
  | String c s' => if P c then String c (keep P s') else keep P s'
  end.

(** Replacing [DNS1123NotAllowedStartCharacters] = [^[^a-z0-9]+] by nothing. *)
Fixpoint drop_start (s : string) : string :=
  match s with
  | EmptyString => EmptyString
  | String c s' => if is_alnum c then s else drop_start s'
  end.

Fixpoint take_string (n : nat) (s : string) : string :=
  match n, s with
  | S n', String c s' => String c (take_string n' s')
  | _, _ => EmptyString
  end.

Definition MakeDNS1123Compatible (name : string) : string :=
  let name := ToLower name in
  let name := string_map (fun c => if Ascii.eqb c "_" then "-"%char else c) name in
  let name := keep dns_char name in
  let name := drop_start name in
  if (DNS1123NameMaximumLength <? String.length name)%nat
  then take_string DNS1123NameMaximumLength name else name.

(** ** Paths (utils.go) *)
Fixpoint HasSuffix (s suffix : string) : bool :=
  if s == suffix then true
  else match s with EmptyString => false | String _ s' => HasSuffix s' suffix end.

Definition NormalizePrefix (prefix : string) : string :=
  if (prefix != "") && negb (HasSuffix prefix "/") then prefix +:+ "/" else prefix.

Definition CacheArtifactID (prefix username jobType key : string) : string :=
  NormalizePrefix prefix +:+ NormalizePrefix username +:+ NormalizePrefix jobType
  +:+ NormalizePrefix key +:+ "cache.zip".

(** ** Tag matching *)

Lemma match_each_None tags other :
  match_each tags other = None <->
  forall t, t ∈ other -> TrimSpace t <> "" -> exists u, u ∈ tags /\ EqualFold u t = true.
Proof.
  induction other as [|o other IH]; cbn.
  { split; [|done]. intros _ t Ht. by apply not_elem_of_nil in Ht. }
  assert (forall t, existsb (fun tag => EqualFold tag t) tags = true <->
                    exists u, u ∈ tags /\ EqualFold u t = true) as Hex.
  { intros t. rewrite List.existsb_exists. by setoid_rewrite list_elem_of_In. }
  destruct (String.eqb_spec (TrimSpace o) "") as [Ho|Ho].
  - rewrite IH. setoid_rewrite elem_of_cons. naive_solver.
  - destruct (existsb _ tags) eqn:E.
    + rewrite IH. apply Hex in E. setoid_rewrite elem_of_cons. naive_solver.
    + split; [done|]. intros H. exfalso.
      assert (exists u, u ∈ tags /\ EqualFold u o = true) as Hu by (apply H; [left|done]).
      apply Hex in Hu. congruence.
Qed.

(** An ant's tags match the tags of a task exactly when the task asks
    for none, or the ant has tags and every non-blank tag asked for is among
    them, compared without regard to case. *)
Theorem match_tags_spec (tags other : list string) :
  MatchTagsArray tags other = None <->
  other = [] \/
  (tags <> [] /\
   forall t, t ∈ other -> TrimSpace t <> "" -> exists u, u ∈ tags /\ EqualFold u t = true).
Proof.
  unfold MatchTagsArray. destruct tags as [|g tags], other as [|o other].
  - naive_solver.
  - split; [done|]. by intros [?|[? _]].
  - naive_solver.
  - rewrite match_each_None. naive_solver.
Qed.

(** ** DNS names *)

Lemma take_string_length n s : String.length (take_string n s) = Nat.min n (String.length s).
Proof. revert s. induction n as [|n IH]; intros [|c s]; cbn; [done..|]. by rewrite IH. Qed.

Lemma take_string_id n s : (String.length s <= n)%nat -> take_string n s = s.
Proof.
  revert s. induction n as [|n IH]; intros [|c s] H; cbn in *; [done|lia|done|].
  by rewrite IH by lia.
Qed.

Lemma take_string_forall P n s : string_forall P s = true -> string_forall P (take_string n s) = true.
Proof.
  revert s. induction n as [|n IH]; intros [|c s] H; cbn in *; [done..|].
  apply andb_prop in H as [-> H]. by apply IH.
Qed.

Lemma keep_forall P s : string_forall P (keep P s) = true.
Proof. induction s as [|c s IH]; cbn; [done|]. destruct (P c) eqn:E; cbn; [by rewrite E|done]. Qed.

Lemma keep_id P s : string_forall P s = true -> keep P s = s.
Proof. induction s as [|c s IH]; cbn; [done|]. intros [-> H]%andb_prop. by rewrite IH. Qed.

Lemma drop_start_forall P s : string_forall P s = true -> string_forall P (drop_start s) = true.
Proof.
  induction s as [|c s IH]; cbn; [done|]. intros H. destruct (is_alnum c) eqn:E; [done|].
  apply andb_prop in H as [_ H]. by apply IH.
Qed.

(** The first character, if any, is a letter or a digit. *)
Definition starts_alnum (s : string) : bool :=
  match s with EmptyString => true | String c _ => is_alnum c end.

Lemma drop_start_starts s : starts_alnum (drop_start s) = true.
Proof. induction s as [|c s IH]; cbn; [done|]. by destruct (is_alnum c) eqn:E. Qed.

Lemma drop_start_id s : starts_alnum s = true -> drop_start s = s.
Proof. destruct s as [|c s]; cbn; [done|]. by intros ->. Qed.

Lemma take_starts n s : starts_alnum s = true -> starts_alnum (take_string n s) = true.
Proof. by destruct n, s. Qed.

Lemma dns_char_fixed c :
  dns_char c = true -> lower_char c = c /\ (if Ascii.eqb c "_" then "-"%char else c) = c.
Proof. destruct c as [[] [] [] [] [] [] [] []]; vm_compute; intros H; try discriminate H; done. Qed.

Lemma string_map_fixed f P s :
  (forall c, P c = true -> f c = c) -> string_forall P s = true -> string_map f s = s.
Proof.
  intros Hf. induction s as [|c s IH]; cbn; [done|]. intros [Hc Hs]%andb_prop. by rewrite Hf, IH.
Qed.

Definition dns_label (s : string) : Prop :=
  string_forall dns_char s = true /\ starts_alnum s = true /\ (String.length s <= 63)%nat.

Lemma MakeDNS_label name : dns_label (MakeDNS1123Compatible name).
Proof.
  unfold MakeDNS1123Compatible, DNS1123NameMaximumLength.
  set (n := drop_start _).
  assert (string_forall dns_char n = true /\ starts_alnum n = true) as [H1 H2].
  { split; [apply drop_start_forall, keep_forall|apply drop_start_starts]. }
  destruct (Nat.ltb_spec 63 (String.length n)).
  - split; [by apply take_string_forall|]. split; [by apply take_starts|].
    rewrite take_string_length. lia.
  - done.
Qed.

Lemma MakeDNS_fixed s : dns_label s -> MakeDNS1123Compatible s = s.
Proof.
  intros (H1 & H2 & H3). unfold MakeDNS1123Compatible, ToLower, DNS1123NameMaximumLength.
  rewrite (string_map_fixed lower_char dns_char s) by (try done; apply dns_char_fixed).
  rewrite (string_map_fixed _ dns_char s) by (try done; apply dns_char_fixed).
  rewrite keep_id, drop_start_id by done.
  destruct (Nat.ltb_spec 63 (String.length s)); [lia|done].
Qed.

(** Every name the code makes for kubernetes consists of lower-case
    letters, digits and hyphens, starts with a letter or digit and has at most
    63 characters, and making it compatible again changes nothing. *)
Theorem dns_name_valid (name : string) :
  string_forall dns_char (MakeDNS1123Compatible name) = true /\
  starts_alnum (MakeDNS1123Compatible name) = true /\
  (String.length (MakeDNS1123Compatible name) <= 63)%nat /\
  MakeDNS1123Compatible (MakeDNS1123Compatible name) = MakeDNS1123Compatible name.
Proof.
  pose proof (MakeDNS_label name) as H. pose proof (MakeDNS_fixed _ H) as Hf.
  destruct H as (H1 & H2 & H3). done.
Qed.

(** The end of the name is not cleaned: a trailing hyphen, which DNS-1123
    names may not have, survives. *)
Example dns_trailing_hyphen : MakeDNS1123Compatible "Build_Task_" = "build-task-".
Proof. reflexivity. Qed.
