(* ===== verification/Resource.v ===== *)
(** * Resource: the resource manager of the queen server

    Models [src/internal/types/ant_registration.go], [ant_reservation.go],
    [src/internal/events/container_event.go] and the resource manager in
    [src/queen/resource]: the indexes of registered ants ([State]), the
    reservation of the least loaded ant for a task, the release of tasks and
    jobs, the reapers and the event callbacks.

    Maps and pointers that an ant may leave out of its registration are
    options: a write to a nil map and a read through a nil pointer panic.

    Times are Unix seconds and durations are 64-bit nanoseconds.  A call reads
    the clock once ([now]).  The mutex of [State] makes each of its methods one
    atomic step.  Allocations are values: registrations arrive freshly
    unmarshalled from the queue, so no other holder shares their maps.  Error
    values carry the arguments of the message they print. *)

From S2P Require Import Prelude RequestState Tags.
From stdpp Require Import relations.

Open Scope Z_scope.

(** ** Ants: registrations, allocations and reservations *)
Module Ants.

(** [TaskTypes] is [None] when it is the nil map: an ant's registration that
    does not name it, or names it [null], is unmarshalled to such an allocation. *)
Record AntAllocation := mkAntAllocation {
  al_JobRequestID : string;
  al_TaskTypes : option (gmap string RequestState);
  al_AntID : string;
  al_AntTopic : string;
  al_AllocatedAt : Z;
  al_UpdatedAt : Z
}.

(** [ValidRegistration] is the callback that asks whether the ant is still
    connected: [true] stands for a nil error, and the answer may change with
    time.  [ConfigInfo] and the creation times are shown to users only.  An
    entry of [Allocations] that is [null] in the message is a nil pointer. *)
Record AntRegistration := mkAntRegistration {
  AntID : string;
  AntTopic : string;
  EncryptionKey : string;
  MaxCapacity : Z;
  reg_Tags : list string;
  Methods : list TaskMethod;
  CurrentLoad : Z;
  TotalExecuted : Z;
  Allocations : gmap string (option AntAllocation);
  ReceivedAt : Z;
  ValidRegistration : option (Z -> bool)
}.

Record AntReservation := mkAntReservation {
  res_JobRequestID : string;
  res_TaskType : string;
  res_AntID : string;
  res_AntTopic : string;
  res_EncryptionKey : string;
  res_AllocatedAt : Z;
  res_CurrentLoad : Z;
  res_TotalExecuted : Z;
  res_TotalReservations : Z
}.

Definition NewAntAllocation (now : Z) (antID antTopic requestID taskType : string) : AntAllocation :=
  {| al_JobRequestID := requestID;
     al_TaskTypes := Some {[taskType := State.EXECUTING]};
     al_AntID := antID;
     al_AntTopic := antTopic;
     al_AllocatedAt := now;
     al_UpdatedAt := now |}.

(** Reading, ranging over or measuring the nil map is as for an empty one. *)
Definition task_types (wa : AntAllocation) : gmap string RequestState := default ∅ (al_TaskTypes wa).

Definition Load (wa : AntAllocation) : Z := Z.of_nat (size (task_types wa)).

Definition NewAntReservation (now : Z) (antID antTopic requestID taskType encryptionKey : string)
    (currentLoad totalExecuted : Z) : AntReservation :=
  {| res_JobRequestID := requestID;
     res_TaskType := taskType;
     res_AntID := antID;
     res_AntTopic := antTopic;
     res_EncryptionKey := encryptionKey;
     res_AllocatedAt := now;
     res_CurrentLoad := currentLoad;
     res_TotalExecuted := totalExecuted;
     res_TotalReservations := 0 |}.

Inductive ant_error := AntIDNotSpecified | MethodsNotSpecified | AntTopicNotSpecified.

Definition set_MaxCapacity (r : AntRegistration) (n : Z) : AntRegistration :=
  {| AntID := AntID r; AntTopic := AntTopic r; EncryptionKey := EncryptionKey r;
     MaxCapacity := n; reg_Tags := reg_Tags r; Methods := Methods r;
     CurrentLoad := CurrentLoad r; TotalExecuted := TotalExecuted r;
     Allocations := Allocations r; ReceivedAt := ReceivedAt r;
     ValidRegistration := ValidRegistration r |}.

Definition set_ReceivedAt (r : AntRegistration) (now : Z) : AntRegistration :=
  {| AntID := AntID r; AntTopic := AntTopic r; EncryptionKey := EncryptionKey r;
     MaxCapacity := MaxCapacity r; reg_Tags := reg_Tags r; Methods := Methods r;
     CurrentLoad := CurrentLoad r; TotalExecuted := TotalExecuted r;
     Allocations := Allocations r; ReceivedAt := now;
     ValidRegistration := ValidRegistration r |}.

(** [Validate] also gives a registration without capacity room for one task. *)
Definition Validate (r : AntRegistration) : ant_error + AntRegistration :=
  if AntID r == "" then inl AntIDNotSpecified
  else match Methods r with
       | [] => inl MethodsNotSpecified
       | _ => inr (if MaxCapacity r <=? 0 then set_MaxCapacity r 1 else r)
       end.

Definition Key (r : AntRegistration) : string :=
  AntID r +:+ foldr (fun t k => t +:+ ":" +:+ k) "" (reg_Tags r)
          +:+ foldr (fun m k => m +:+ ":" +:+ k) "" (Methods r).

Definition ValidateReservation (r : AntReservation) : option ant_error :=
  if res_AntID r == "" then Some AntIDNotSpecified
  else if res_AntTopic r == "" then Some AntTopicNotSpecified
  else None.

(** [time.Duration(now.Unix()-t.Unix())*time.Second], in 64-bit arithmetic. *)
Definition second : Z := 1000000000.
Definition elapsed (now t : Z) : Z := wrap64 (wrap64 (now - t) * second).

Definition callback_ok (r : AntRegistration) (now : Z) : bool :=
  match ValidRegistration r with Some valid => valid now | None => true end.

Definition IsAlive (now : Z) (r : AntRegistration) (timeout : Z) : bool :=
  if timeout <? elapsed now (ReceivedAt r) then false
  else if negb (callback_ok r now) then false
  else true.

Definition Supports (now : Z) (r : AntRegistration) (method : TaskMethod) (tags : list string)
    (timeout : Z) : bool :=
  if timeout <? elapsed now (ReceivedAt r) then false
  else if negb (callback_ok r now) then false
  else if negb (existsb (fun m => m == method) (Methods r)) then false
  else match MatchTagsArray (reg_Tags r) tags with None => true | Some _ => false end.

(** The three conditions of [Supports]. *)
Lemma Supports_spec now r method tags timeout :
  Supports now r method tags timeout = true <->
  IsAlive now r timeout = true /\ method ∈ Methods r /\ MatchTagsArray (reg_Tags r) tags = None.
Proof.
  unfold Supports, IsAlive. destruct (timeout <? _); [naive_solver|].
  destruct (negb (callback_ok r now)); [naive_solver|].
  destruct (existsb _ _) eqn:E; cbn [negb].
  - apply existsb_exists in E as (m & Hm & ->%eqb_string_true).
    apply list_elem_of_In in Hm. destruct (MatchTagsArray _ _); naive_solver.
  - split; [done|]. intros (_ & Hm & _). apply list_elem_of_In in Hm.
    assert (existsb (fun m => m == method) (Methods r) = true) as H; [|congruence].
    apply existsb_exists. exists method. by rewrite eqb_string_refl.
Qed.

End Ants.

(** ** Containers: container life-cycle events *)
Module Containers.

Record ContainerLifecycleEvent := mkContainerLifecycleEvent {
  CreatedAt : Z;
  UserID : string;
  ce_AntID : string;
  Method : TaskMethod;
  ContainerName : string;
  ContainerID : string;
  ContainerState : RequestState;
  Labels : gmap string string;
  StartedAt : Z;
  EndedAt : option Z
}.

Definition ContainerLifecycleEventKey (method : TaskMethod) (containerName : string) : string :=
  method +:+ ":" +:+ containerName.
Definition Key (cle : ContainerLifecycleEvent) : string :=
  ContainerLifecycleEventKey (Method cle) (ContainerName cle).

(** A missing label reads as the empty string. *)
Definition RequestID (cle : ContainerLifecycleEvent) : string :=
  default "" (Labels cle !! "RequestID").

Inductive event_error := NoAntID | NoMethod | NoContainerName | NoContainerID.

Definition Validate (cle : ContainerLifecycleEvent) : option event_error :=
  if ce_AntID cle == "" then Some NoAntID
  else if Method cle == "" then Some NoMethod
  else if ContainerName cle == "" then Some NoContainerName
  else if ContainerID cle == "" then Some NoContainerID
  else None.

(** The two executor states that the event reports. *)
Inductive executor_state := Removing | Running.
Definition GetState (cle : ContainerLifecycleEvent) : executor_state :=
  if State.Done (ContainerState cle) then Removing else Running.

(** Times of events are nanoseconds since the epoch; [time.Time.Sub] saturates
    at the ends of [time.Duration] and [Milliseconds] truncates. *)
Definition time_sub (a b : Z) : Z := Z.max int64_min (Z.min int64_max (a - b)).
Definition Milliseconds (d : Z) : Z := Z.quot d 1000000.
Definition Unix (t : Z) : Z := t / 1000000000.

Definition Elapsed (now : Z) (cle : ContainerLifecycleEvent) : Z :=
  match EndedAt cle with
  | None => Milliseconds (time_sub now (StartedAt cle))
  | Some e => if ContainerState cle == State.EXECUTING
              then Milliseconds (time_sub now (StartedAt cle))
              else Milliseconds (time_sub e (StartedAt cle))
  end.

End Containers.

(** ** Alloc: resource_manager_state.go *)
Module Alloc.
Import Ants.

(** Sets of ants are [map[string]bool] whose values are all [true]. *)
Record State := mkState {
  antRegistrations : gmap string AntRegistration;
  antByTag : gmap string (gset string);
  antByMethod : gmap string (gset string);
  antsByRequest : gmap string (gset string);
  allocationsByAnt : gmap string (gmap string AntAllocation);
  containersEvents : gmap string Containers.ContainerLifecycleEvent;
  containersEventKeysByRequestID : gmap string (gset string)
}.

Definition NewState : State := mkState ∅ ∅ ∅ ∅ ∅ ∅ ∅.

(** Assignments to one field of the state. *)
Definition with_antByTag (s : State) (m : gmap string (gset string)) : State :=
  mkState (antRegistrations s) m (antByMethod s) (antsByRequest s) (allocationsByAnt s)
    (containersEvents s) (containersEventKeysByRequestID s).
Definition with_antByMethod (s : State) (m : gmap string (gset string)) : State :=
  mkState (antRegistrations s) (antByTag s) m (antsByRequest s) (allocationsByAnt s)
    (containersEvents s) (containersEventKeysByRequestID s).
Definition with_antsByRequest (s : State) (m : gmap string (gset string)) : State :=
  mkState (antRegistrations s) (antByTag s) (antByMethod s) m (allocationsByAnt s)
    (containersEvents s) (containersEventKeysByRequestID s).
Definition with_allocationsByAnt (s : State) (m : gmap string (gmap string AntAllocation)) : State :=
  mkState (antRegistrations s) (antByTag s) (antByMethod s) (antsByRequest s) m
    (containersEvents s) (containersEventKeysByRequestID s).
Definition with_antRegistrations (s : State) (m : gmap string AntRegistration) : State :=
  mkState m (antByTag s) (antByMethod s) (antsByRequest s) (allocationsByAnt s)
    (containersEvents s) (containersEventKeysByRequestID s).
Definition with_containers (s : State) (m : gmap string Containers.ContainerLifecycleEvent)
    (k : gmap string (gset string)) : State :=
  mkState (antRegistrations s) (antByTag s) (antByMethod s) (antsByRequest s)
    (allocationsByAnt s) m k.

(** The fields of an allocation that the manager updates. *)
Definition set_TaskTypes (wa : AntAllocation) (t : gmap string RequestState) : AntAllocation :=
  mkAntAllocation (al_JobRequestID wa) (Some t) (al_AntID wa) (al_AntTopic wa) (al_AllocatedAt wa)
    (al_UpdatedAt wa).
Definition set_UpdatedAt (wa : AntAllocation) (t : Z) : AntAllocation :=
  mkAntAllocation (al_JobRequestID wa) (al_TaskTypes wa) (al_AntID wa) (al_AntTopic wa)
    (al_AllocatedAt wa) t.

(** Reading a missing key of a map of sets yields the empty set. *)
Definition ants_of (m : gmap string (gset string)) (k : string) : gset string := default ∅ (m !! k).

Definition getRegistrationByAnt (s : State) (antID : string) : option AntRegistration :=
  antRegistrations s !! antID.

Definition getAllocationsByAnt (s : State) (antID : string) : option (gmap string AntAllocation) :=
  allocationsByAnt s !! antID.

Definition hasAntsByMethod (s : State) (method : TaskMethod) : bool * Z :=
  let total := Z.of_nat (size (ants_of (antByMethod s) method)) in
  (match antByMethod s !! method with None => false | Some _ => 0 <? total end, total).

Definition getAntIDsByMethod `{RangeOrder} (s : State) (method : TaskMethod) : list string :=
  range_set (ants_of (antByMethod s) method).

Definition getAntsByTag `{RangeOrder} (s : State) (tag : string) : list string * Z :=
  let ants := ants_of (antByTag s) tag in
  (range_set ants, Z.of_nat (size ants)).

Definition getRegistrations `{RangeOrder} (s : State) : list AntRegistration :=
  sort_slice (fun a b => String.ltb (AntID a) (AntID b)) (map snd (range (antRegistrations s))).

Definition getRegistration `{RangeOrder} (s : State) (id : string) : option AntRegistration :=
  List.find (fun r => AntID r == id) (map snd (range (antRegistrations s))).

Definition countContainerEvents `{RangeOrder} (s : State) : gmap string Z :=
  foldl (fun res '(_, e) =>
           let m := Containers.Method e in <[m := default 0 (res !! m) + 1]> res)
    ∅ (range (containersEvents s)).

Definition getContainerEvents `{RangeOrder} (now : Z) (s : State) (sortBy : string)
    : list Containers.ContainerLifecycleEvent :=
  sort_slice (fun a b =>
    if sortBy == "time" then Containers.Unix (Containers.CreatedAt b) <? Containers.Unix (Containers.CreatedAt a)
    else if sortBy == "key" then String.ltb (Containers.Key a) (Containers.Key b)
    else if sortBy == "elapsed" then Containers.Elapsed now b <? Containers.Elapsed now a
    else String.ltb (Containers.ContainerName a) (Containers.ContainerName b))
    (map snd (range (containersEvents s))).

Definition calculateLoad (allocs : gmap string AntAllocation) : Z :=
  map_fold (fun _ alloc load => load + Z.of_nat (size (task_types alloc))) 0 allocs.

(** *** Reservation *)

Inductive reserve_error :=
| NoAntsForMethod (method : TaskMethod)
| NoAntsForTag (tag : string)
| NoAntsReserved (method : TaskMethod) (tags : list string)
| MethodNotSpecified.

(** The loop over the wanted tags: the ants that have one of the tags, or the
    first tag for which no ant is registered. *)
Fixpoint collect_tag_ants (s : State) (tags : list string) (tagAnts : gset string)
    : reserve_error + gset string :=
  match tags with
  | [] => inr tagAnts
  | outerTag :: rest =>
      if TrimSpace outerTag == "" then collect_tag_ants s rest tagAnts
      else let antIDs := ants_of (antByTag s) outerTag in
           if decide (antIDs = ∅) then inl (NoAntsForTag outerTag)
           else collect_tag_ants s rest (tagAnts ∪ antIDs)
  end.

(** [availableAnts]: 1 for the method plus 1 for a tag; without wanted tags
    every ant of the method counts 2. *)
Definition availableAnts (methodAnts tagAnts : gset string) (tags : list string) : gmap string Z :=
  set_to_map (fun k => (k, match tags with
                           | [] => 2
                           | _ => 1 + (if decide (k ∈ tagAnts) then 1 else 0)
                           end)) methodAnts.

(** One iteration of the loop over [availableAnts].  The code reads
    [registration.AntID] before it tests [registration] for nil: an indexed
    ant without a registration is a nil dereference. *)
Definition candidate (now timeout : Z) (s : State) (requestID taskType : string)
    (method : TaskMethod) (tags : list string) (antID : string) (count : Z)
    : outcome reserve_error (option AntReservation) :=
  if negb (count =? 2) then Return None
  else match antRegistrations s !! antID with
       | None => Panic
       | Some registration =>
           match allocationsByAnt s !! AntID registration with
           | None => Return None
           | Some allocs =>
               if Supports now registration method tags timeout
               then Return (Some (NewAntReservation now (AntID registration) (AntTopic registration)
                                    requestID taskType (EncryptionKey registration)
                                    (calculateLoad allocs) (TotalExecuted registration)))
               else Return None
           end
       end.

Fixpoint candidates (now timeout : Z) (s : State) (requestID taskType : string)
    (method : TaskMethod) (tags : list string) (available : list (string * Z))
    : outcome reserve_error (list AntReservation) :=
  match available with
  | [] => Return []
  | (antID, count) :: rest =>
      match candidate now timeout s requestID taskType method tags antID count with
      | Return c =>
          match candidates now timeout s requestID taskType method tags rest with
          | Return cs => Return (match c with Some r => r :: cs | None => cs end)
          | Error e => Error e
          | Panic => Panic
          end
      | Error e => Error e
      | Panic => Panic
      end
  end.

Definition set_CurrentLoad (r : AntReservation) (n : Z) : AntReservation :=
  mkAntReservation (res_JobRequestID r) (res_TaskType r) (res_AntID r) (res_AntTopic r)
    (res_EncryptionKey r) (res_AllocatedAt r) n (res_TotalExecuted r) (res_TotalReservations r).
Definition set_TotalReservations (r : AntReservation) (n : Z) : AntReservation :=
  mkAntReservation (res_JobRequestID r) (res_TaskType r) (res_AntID r) (res_AntTopic r)
    (res_EncryptionKey r) (res_AllocatedAt r) (res_CurrentLoad r) (res_TotalExecuted r) n.

(** [addAllocationsByAnt]: [None] is a write to a nil map, that of the ant or
    that of the task types; neither has changed anything yet. *)
Definition addAllocationsByAnt (now : Z) (s : State) (requestID taskType : string)
    (reservation : AntReservation) : option (State * AntReservation) :=
  match allocationsByAnt s !! res_AntID reservation with
  | None => None
  | Some allocs =>
      let allocation := match allocs !! requestID with
                        | Some a => a
                        | None => NewAntAllocation now (res_AntID reservation)
                                    (res_AntTopic reservation) requestID taskType
                        end in
      match al_TaskTypes allocation with
      | None => None
      | Some types =>
          let allocation := set_TaskTypes allocation (<[taskType := State.RESERVED]> types) in
          let allocs := <[requestID := allocation]> allocs in
          Some (with_allocationsByAnt s (<[res_AntID reservation := allocs]> (allocationsByAnt s)),
                set_CurrentLoad reservation (Z.of_nat (size allocs)))
      end
  end.

Definition addAntsByRequest (s : State) (requestID antID : string) : State :=
  with_antsByRequest s
    (<[requestID := {[antID]} ∪ ants_of (antsByRequest s) requestID]> (antsByRequest s)).

(** [reserve] returns the reservation and the new state; an error leaves the
    state as it was. *)
Definition reserve `{RangeOrder} (now timeout : Z) (s : State) (requestID taskType : string)
    (method : TaskMethod) (tags : list string) (dryRun : bool)
    : outcome reserve_error (AntReservation * State) :=
  let methodAnts := ants_of (antByMethod s) method in
  if decide (methodAnts = ∅) then Error (NoAntsForMethod method)
  else match collect_tag_ants s tags ∅ with
  | inl e => Error e
  | inr tagAnts =>
      match candidates now timeout s requestID taskType method tags
              (range (availableAnts methodAnts tagAnts tags)) with
      | Panic => Panic
      | Error e => Error e
      | Return reservations =>
          let sorted := if dryRun then reservations
                        else sort_slice (fun a b => res_CurrentLoad a <? res_CurrentLoad b) reservations in
          match sorted with
          | [] => Error (NoAntsReserved method tags)
          | first :: _ =>
              let reservation :=
                set_TotalReservations
                  (NewAntReservation now (res_AntID first) (res_AntTopic first)
                     (res_JobRequestID first) (res_TaskType first) (res_EncryptionKey first)
                     (res_CurrentLoad first) (res_TotalExecuted first))
                  (Z.of_nat (length reservations)) in
              if dryRun then Return (reservation, s)
              else match addAllocationsByAnt now s requestID taskType reservation with
                   | None => Panic
                   | Some (s, reservation) =>
                       Return (reservation, addAntsByRequest s requestID (res_AntID reservation))
                   end
          end
      end
  end.

(** *** Release *)

(** The loop of [releaseJob] over the ants of the request. *)
Definition release_ant (requestID : string) (m : gmap string (gmap string AntAllocation))
    (antID : string) : gmap string (gmap string AntAllocation) :=
  match m !! antID with
  | None => m
  | Some allocs =>
      match allocs !! requestID with
      | None => m
      | Some _ => <[antID := delete requestID allocs]> m
      end
  end.

Definition releaseJob `{RangeOrder} (s : State) (requestID : string) : State :=
  match antsByRequest s !! requestID with
  | None => s
  | Some requestAnts =>
      let allocs := foldl (release_ant requestID) (allocationsByAnt s) (range_set requestAnts) in
      let keys := ants_of (containersEventKeysByRequestID s) requestID in
      let evts := foldl (fun m k => delete k m) (containersEvents s) (range_set keys) in
      with_containers
        (with_antsByRequest (with_allocationsByAnt s allocs) (delete requestID (antsByRequest s)))
        evts (delete requestID (containersEventKeysByRequestID s))
  end.

Definition release (s : State) (reservation : AntReservation) : State :=
  match allocationsByAnt s !! res_AntID reservation with
  | None => s
  | Some allocs =>
      match allocs !! res_JobRequestID reservation with
      | None => s
      | Some byRequest =>
          let types := delete (res_TaskType reservation) (task_types byRequest) in
          if decide (types = ∅)
          then with_antsByRequest
                 (with_allocationsByAnt s
                    (<[res_AntID reservation := delete (res_JobRequestID reservation) allocs]>
                       (allocationsByAnt s)))
                 (delete (res_JobRequestID reservation) (antsByRequest s))
          else with_allocationsByAnt s
                 (<[res_AntID reservation :=
                      <[res_JobRequestID reservation := set_TaskTypes byRequest types]> allocs]>
                    (allocationsByAnt s))
      end
  end.

(** *** Containers *)

Definition updateContainer (s : State) (cnt : Containers.ContainerLifecycleEvent) : State :=
  let keys := ants_of (containersEventKeysByRequestID s) (Containers.RequestID cnt) in
  if RequestState.State.Done (Containers.ContainerState cnt)
  then with_containers s (delete (Containers.Key cnt) (containersEvents s))
         (<[Containers.RequestID cnt := keys ∖ {[Containers.Key cnt]}]>
            (containersEventKeysByRequestID s))
  else with_containers s (<[Containers.Key cnt := cnt]> (containersEvents s))
         (<[Containers.RequestID cnt := {[Containers.Key cnt]} ∪ keys]>
            (containersEventKeysByRequestID s)).

(** [addContainers]: the containers that a newly registered ant lists in its
    reply; [None] is a failed exchange, which changes nothing. *)
Definition addContainers (s : State) (reply : option (list Containers.ContainerLifecycleEvent))
    : State :=
  match reply with
  | Some containers => foldl updateContainer s containers
  | None => s
  end.

(** *** Registration *)

Definition updateAntsByMethods (s : State) (registration : AntRegistration) : State :=
  foldl (fun s method =>
           with_antByMethod s
             (<[method := {[AntID registration]} ∪ ants_of (antByMethod s) method]> (antByMethod s)))
    s (Methods registration).

Definition updateAntsByTags (s : State) (registration : AntRegistration) : State :=
  foldl (fun s tag =>
           with_antByTag s
             (<[tag := {[AntID registration]} ∪ ants_of (antByTag s) tag]> (antByTag s)))
    s (reg_Tags registration).

(** Writing the reported task types into those of a known allocation: [None]
    is a write to a nil map. *)
Definition merge_types (types : gmap string RequestState) (oldAlloc : AntAllocation) : option AntAllocation :=
  match al_TaskTypes oldAlloc with
  | Some old => Some (set_TaskTypes oldAlloc (types ∪ old))
  | None => if decide (types = ∅) then Some oldAlloc else None
  end.

(** Merging one reported allocation into the known ones: [None] is a panic. *)
Definition merge_allocation (old : gmap string AntAllocation) (alloc : option AntAllocation)
    : option (gmap string AntAllocation) :=
  match alloc with
  | None => None
  | Some alloc =>
      match old !! al_JobRequestID alloc with
      | None => Some (<[al_JobRequestID alloc := alloc]> old)
      | Some oldAlloc =>
          match merge_types (task_types alloc) oldAlloc with
          | Some merged => Some (<[al_JobRequestID alloc := set_UpdatedAt merged (al_UpdatedAt alloc)]> old)
          | None => None
          end
      end
  end.

Fixpoint merge_allocations (old : gmap string AntAllocation) (allocs : list (option AntAllocation))
    : option (gmap string AntAllocation) :=
  match allocs with
  | [] => Some old
  | alloc :: rest =>
      match merge_allocation old alloc with
      | Some old => merge_allocations old rest
      | None => None
      end
  end.

(** [addRegistration]; the flag tells whether the code starts [addContainers]
    in the background.  [None] is a panic. *)
Definition addRegistration `{RangeOrder} (s : State) (registration : AntRegistration)
    : option (State * bool) :=
  let id := AntID registration in
  let s := with_antRegistrations s (<[id := registration]> (antRegistrations s)) in
  let known := allocationsByAnt s !! id in
  match merge_allocations (default ∅ known) (map snd (range (Allocations registration))) with
  | None => None
  | Some merged =>
      let s := with_allocationsByAnt s (<[id := merged]> (allocationsByAnt s)) in
      Some (updateAntsByTags (updateAntsByMethods s registration) registration,
            match known with None => true | Some _ => false end)
  end.

Definition drop_ant (antID : string) (ants : gset string) : gset string :=
  if decide (antID ∈ ants) then ants ∖ {[antID]} else ants.

Definition keys_with_ant `{RangeOrder} (antID : string) (m : gmap string (gset string)) : list string :=
  map fst (filter (fun kv => antID ∈ kv.2) (range m)).

Definition removeRegistration `{RangeOrder} (s : State) (antID : string)
    : State * (list string * list TaskMethod * Z) :=
  let beforeCount := Z.of_nat (size (antRegistrations s)) in
  let regs := delete antID (antRegistrations s) in
  let afterCount := Z.of_nat (size regs) in
  (mkState regs
     (drop_ant antID <$> antByTag s)
     (drop_ant antID <$> antByMethod s)
     (drop_ant antID <$> antsByRequest s)
     (delete antID (allocationsByAnt s))
     (containersEvents s) (containersEventKeysByRequestID s),
   (keys_with_ant antID (antByTag s), keys_with_ant antID (antByMethod s),
    beforeCount - afterCount)).

(** [reapStaleAllocations] of the state: one reservation for every task type
    of every allocation older than the timeout. *)
Definition stale_reservations `{RangeOrder} (now timeout : Z) (allocs : gmap string AntAllocation)
    : list AntReservation :=
  flat_map (fun '(requestID, allocation) =>
    if timeout <? elapsed now (al_AllocatedAt allocation)
    then map (fun '(taskType, _) =>
                NewAntReservation now (al_AntID allocation) (al_AntTopic allocation) requestID
                  taskType "" 0 0)
           (range (task_types allocation))
    else []) (range allocs).

Definition reapStaleAllocations `{RangeOrder} (now timeout : Z) (s : State) : list AntReservation :=
  flat_map (fun '(_, allocs) => stale_reservations now timeout allocs) (range (allocationsByAnt s)).

(** *** The index invariant

    The ant sets of the three indexes only name registered ants, every
    registered ant is indexed under each of its methods and tags and has an
    allocation table, and allocations and container events sit under their own
    keys. *)
Definition allocs_keyed (m : gmap string (gmap string AntAllocation)) : Prop :=
  forall a allocs q al, m !! a = Some allocs -> allocs !! q = Some al -> al_JobRequestID al = q.

Record wf (s : State) : Prop := mk_wf {
  wf_method m a : a ∈ ants_of (antByMethod s) m -> a ∈ dom (antRegistrations s);
  wf_tag t a : a ∈ ants_of (antByTag s) t -> a ∈ dom (antRegistrations s);
  wf_request q a : a ∈ ants_of (antsByRequest s) q -> a ∈ dom (antRegistrations s);
  wf_alloc : dom (allocationsByAnt s) = dom (antRegistrations s);
  wf_id a r : antRegistrations s !! a = Some r -> AntID r = a;
  wf_method_complete a r m :
    antRegistrations s !! a = Some r -> m ∈ Methods r -> a ∈ ants_of (antByMethod s) m;
  wf_tag_complete a r t :
    antRegistrations s !! a = Some r -> t ∈ reg_Tags r -> a ∈ ants_of (antByTag s) t;
  wf_keyed : allocs_keyed (allocationsByAnt s);
  wf_event k e : containersEvents s !! k = Some e ->
    Containers.Key e = k /\
    k ∈ ants_of (containersEventKeysByRequestID s) (Containers.RequestID e)
}.

(** Maps of sets. *)
Lemma ants_of_insert m k X k' :
  ants_of (<[k := X]> m) k' = if decide (k = k') then X else ants_of m k'.
Proof. unfold ants_of. destruct (decide (k = k')) as [->|Hne]; by simplify_map_eq. Qed.

Lemma ants_of_delete m k k' :
  ants_of (delete k m) k' = if decide (k = k') then ∅ else ants_of m k'.
Proof. unfold ants_of. destruct (decide (k = k')) as [->|Hne]; by simplify_map_eq. Qed.

Lemma ants_of_drop a m k : ants_of (drop_ant a <$> m) k = ants_of m k ∖ {[a]}.
Proof.
  unfold ants_of. rewrite lookup_fmap. destruct (m !! k) as [X|]; cbn; [|set_solver].
  unfold drop_ant. destruct (decide (a ∈ X)); set_solver.
Qed.

Lemma ants_of_empty k : ants_of ∅ k = ∅.
Proof. unfold ants_of. by rewrite lookup_empty. Qed.

(** Operations that replace one table keep the invariant of the others. *)
Lemma wf_set_allocs s m :
  wf s -> dom m = dom (allocationsByAnt s) -> allocs_keyed m -> wf (with_allocationsByAnt s m).
Proof. intros [] Hd Hk. split; cbn; try done. congruence. Qed.

Lemma wf_set_requests s m :
  wf s -> (forall q a, a ∈ ants_of m q -> a ∈ dom (antRegistrations s)) ->
  wf (with_antsByRequest s m).
Proof. intros [] Hm. by split. Qed.

Lemma wf_set_containers s m k :
  wf s ->
  (forall c e, m !! c = Some e -> Containers.Key e = c /\ c ∈ ants_of k (Containers.RequestID e)) ->
  wf (with_containers s m k).
Proof. intros [] Hm. by split. Qed.

Lemma wf_new : wf NewState.
Proof.
  split; cbn; try (intros *; rewrite ?ants_of_empty, ?lookup_empty; set_solver).
  intros a allocs q al. by rewrite lookup_empty.
Qed.

Lemma allocs_keyed_insert m a allocs :
  allocs_keyed m -> (forall q al, allocs !! q = Some al -> al_JobRequestID al = q) ->
  allocs_keyed (<[a := allocs]> m).
Proof. intros Hm Ha a' allocs' q al [[? ?]|[? ?]]%lookup_insert_Some ?; naive_solver. Qed.

Lemma dom_insert_present {A} (m : gmap string A) k x y : m !! k = Some y -> dom (<[k := x]> m) = dom m.
Proof. intros H. apply dom_insert_lookup_L. by exists y. Qed.

(** *** Every operation keeps the invariant *)

Lemma addAntsByRequest_wf s q a :
  wf s -> a ∈ dom (antRegistrations s) -> wf (addAntsByRequest s q a).
Proof.
  intros Hs Ha. apply wf_set_requests; [done|]. intros q' a'. rewrite ants_of_insert.
  destruct (decide _) as [->|]; [|apply Hs]. intros [->%elem_of_singleton|H]%elem_of_union; [done|].
  by apply Hs in H.
Qed.

Lemma addAllocationsByAnt_wf now s q t r s' r' :
  wf s -> addAllocationsByAnt now s q t r = Some (s', r') ->
  wf s' /\ antRegistrations s' = antRegistrations s /\ res_AntID r' = res_AntID r /\
  res_AntID r ∈ dom (antRegistrations s).
Proof.
  intros Hs. unfold addAllocationsByAnt. destruct (allocationsByAnt s !! _) as [allocs|] eqn:E; [|done].
  destruct (al_TaskTypes _); [|done]. intros [= <- <-]. split_and!; [|done..|].
  - apply wf_set_allocs; [done|by eapply dom_insert_present|].
    apply allocs_keyed_insert; [apply Hs|]. intros q' al [[<- <-]|[_ H]]%lookup_insert_Some.
    + destruct (allocs !! q) as [al|] eqn:Eq; cbn; [|done]. by apply (wf_keyed s Hs _ _ _ _ E Eq).
    + by apply (wf_keyed s Hs _ _ _ _ E H).
  - rewrite <- (wf_alloc s Hs). by apply elem_of_dom_2 in E.
Qed.

Lemma reserve_wf `{RangeOrder} now timeout s q t m tags dry r s' :
  wf s -> reserve now timeout s q t m tags dry = Return (r, s') -> wf s'.
Proof.
  intros Hs. unfold reserve. repeat (case_match; try discriminate); intros [= <- <-]; [done|].
  match goal with E : addAllocationsByAnt _ _ _ _ _ = _ |- _ =>
    apply addAllocationsByAnt_wf in E as (Hw & HR & HI & HD); [|done] end.
  apply addAntsByRequest_wf; [done|]. rewrite HR, HI. done.
Qed.

Lemma release_ant_lookup q m a b :
  release_ant q m a !! b = if decide (a = b) then delete q <$> (m !! b) else m !! b.
Proof.
  unfold release_ant. destruct (decide (a = b)) as [->|Hne].
  - destruct (m !! b) as [allocs|] eqn:E; cbn; [|done].
    destruct (allocs !! q) eqn:Eq; simplify_map_eq; [done|].
    by rewrite delete_id.
  - destruct (m !! a) as [allocs|]; [|done]. destruct (allocs !! q); by simplify_map_eq.
Qed.

Lemma release_ants_lookup q l m b :
  foldl (release_ant q) m l !! b = if decide (b ∈ l) then delete q <$> (m !! b) else m !! b.
Proof.
  revert m. induction l as [|a l IH]; intros m; cbn [foldl].
  - by rewrite decide_False by apply not_elem_of_nil.
  - rewrite IH, !release_ant_lookup. destruct (decide (a = b)) as [->|Hne].
    + rewrite (decide_True (P := b ∈ b :: l)) by apply list_elem_of_here.
      destruct (decide (b ∈ l)); [|done]. rewrite <- option_fmap_compose.
      apply option_fmap_ext. intros x. cbn. apply delete_delete_eq.
    + destruct (decide (b ∈ l)).
      * by rewrite decide_True by by apply list_elem_of_further.
      * rewrite decide_False; [done|]. intros [?|?]%elem_of_cons; congruence.
Qed.

Lemma delete_keys_lookup {A} (l : list string) (m : gmap string A) k :
  foldl (fun m k => delete k m) m l !! k = if decide (k ∈ l) then None else m !! k.
Proof.
  revert m. induction l as [|a l IH]; intros m; cbn [foldl].
  - by rewrite decide_False by apply not_elem_of_nil.
  - rewrite IH. destruct (decide (a = k)) as [->|Hne].
    + rewrite (decide_True (P := k ∈ k :: l)) by apply list_elem_of_here.
      rewrite lookup_delete_eq. by destruct (decide _).
    + rewrite lookup_delete_ne by done. destruct (decide (k ∈ l)).
      * by rewrite decide_True by by apply list_elem_of_further.
      * rewrite decide_False; [done|]. intros [?|?]%elem_of_cons; congruence.
Qed.

Lemma releaseJob_wf `{RangeOrder} s q : wf s -> wf (releaseJob s q).
Proof.
  intros Hs. unfold releaseJob. destruct (antsByRequest s !! q) as [ants|]; [|done].
  apply wf_set_containers; [apply wf_set_requests; [apply wf_set_allocs; [done| |]|]|].
  - apply set_eq. intros b. rewrite !elem_of_dom, release_ants_lookup.
    destruct (decide _); by rewrite ?fmap_is_Some.
  - intros a allocs q' al. rewrite release_ants_lookup. destruct (decide _); [|apply Hs].
    intros (allocs0 & E & ->)%fmap_Some (? & Hl)%lookup_delete_Some. by apply (wf_keyed s Hs _ _ _ _ E Hl).
  - intros q' a. cbn. rewrite ants_of_delete. destruct (decide _); [set_solver|apply Hs].
  - intros c e. cbn. rewrite delete_keys_lookup. destruct (decide _) as [|Hn]; [done|].
    intros [HK HI]%(wf_event s Hs). split; [done|]. rewrite ants_of_delete.
    destruct (decide _) as [->|]; [|done]. destruct Hn. by apply elem_of_range_set.
Qed.

Lemma release_wf s r : wf s -> wf (release s r).
Proof.
  intros Hs. unfold release. destruct (allocationsByAnt s !! _) as [allocs|] eqn:E; [|done].
  destruct (allocs !! _) as [al|] eqn:Eq; [|done].
  assert (forall q al, allocs !! q = Some al -> al_JobRequestID al = q) as HK.
  { intros q al'. by apply (wf_keyed s Hs _ _ _ _ E). }
  destruct (decide _).
  - apply wf_set_requests; [apply wf_set_allocs; [done|by eapply dom_insert_present|]|].
    + apply allocs_keyed_insert; [apply Hs|]. intros q al' (? & Hl)%lookup_delete_Some. by apply HK.
    + intros q a. rewrite ants_of_delete. destruct (decide _); [set_solver|apply Hs].
  - apply wf_set_allocs; [done|by eapply dom_insert_present|].
    apply allocs_keyed_insert; [apply Hs|].
    intros q al' [[<- <-]|[_ Hl]]%lookup_insert_Some; [by apply HK in Eq|by apply HK].
Qed.

Lemma updateContainer_wf s c : wf s -> wf (updateContainer s c).
Proof.
  intros Hs. unfold updateContainer. destruct (State.Done _); apply wf_set_containers; try done;
    intros k e.
  - intros (Hk & [HK HI]%(wf_event s Hs))%lookup_delete_Some. split; [done|].
    rewrite ants_of_insert. destruct (decide _) as [E|]; [|done]. rewrite E. set_solver.
  - intros [[<- <-]|[Hk [HK HI]%(wf_event s Hs)]]%lookup_insert_Some.
    + split; [done|]. rewrite ants_of_insert, decide_True by done. set_solver.
    + split; [done|]. rewrite ants_of_insert. destruct (decide _) as [E|]; [|done].
      rewrite E. set_solver.
Qed.

Lemma addContainers_wf s reply : wf s -> wf (addContainers s reply).
Proof.
  destruct reply as [l|]; [|done]. cbn. revert s.
  induction l as [|c l IH]; intros s Hs; cbn; [done|]. by apply IH, updateContainer_wf.
Qed.

(** Indexing an ant under a list of keys. *)
Definition index_add (id : string) (keys : list string) (m : gmap string (gset string))
    : gmap string (gset string) :=
  foldl (fun m k => <[k := {[id]} ∪ ants_of m k]> m) m keys.

Lemma updateAntsByMethods_index s r :
  updateAntsByMethods s r = with_antByMethod s (index_add (AntID r) (Methods r) (antByMethod s)).
Proof.
  unfold updateAntsByMethods, index_add. generalize (Methods r) as l. intros l. revert s.
  induction l as [|k l IH]; intros s; cbn [foldl]; [by destruct s|]. rewrite IH. done.
Qed.

Lemma updateAntsByTags_index s r :
  updateAntsByTags s r = with_antByTag s (index_add (AntID r) (reg_Tags r) (antByTag s)).
Proof.
  unfold updateAntsByTags, index_add. generalize (reg_Tags r) as l. intros l. revert s.
  induction l as [|k l IH]; intros s; cbn [foldl]; [by destruct s|]. rewrite IH. done.
Qed.

Lemma elem_of_index_add id keys m k a :
  a ∈ ants_of (index_add id keys m) k <-> (a = id /\ k ∈ keys) \/ a ∈ ants_of m k.
Proof.
  unfold index_add. revert m. induction keys as [|k0 keys IH]; intros m; cbn [foldl].
  - split; [by right|]. intros [[_ []%not_elem_of_nil]|?]; done.
  - rewrite IH, ants_of_insert, elem_of_cons. destruct (decide (k0 = k)) as [->|]; set_solver.
Qed.

Definition keyed (m : gmap string AntAllocation) : Prop :=
  forall q al, m !! q = Some al -> al_JobRequestID al = q.

Lemma merge_types_keeps types o o' :
  merge_types types o = Some o' -> al_JobRequestID o' = al_JobRequestID o.
Proof.
  unfold merge_types. destruct (al_TaskTypes o); [by intros [= <-]|]. destruct (decide _); naive_solver.
Qed.

Lemma merge_allocation_keyed m x m' : keyed m -> merge_allocation m x = Some m' -> keyed m'.
Proof.
  unfold merge_allocation. intros Hm. destruct x as [x|]; [|done].
  destruct (m !! al_JobRequestID x) as [o|] eqn:E.
  - destruct (merge_types _ o) as [o'|] eqn:EM; [|done].
    intros [= <-] q al [[<- <-]|[_ ?]]%lookup_insert_Some; [cbn|naive_solver].
    apply merge_types_keeps in EM as ->. by apply Hm.
  - intros [= <-] q al [[<- <-]|[_ ?]]%lookup_insert_Some; naive_solver.
Qed.

Lemma merge_allocations_keyed l m m' : keyed m -> merge_allocations m l = Some m' -> keyed m'.
Proof.
  revert m. induction l as [|x l IH]; intros m Hm; cbn; [by intros [= <-]|].
  destruct (merge_allocation m x) as [m1|] eqn:E; [|done]. by apply IH, (merge_allocation_keyed m x).
Qed.

Lemma addRegistration_wf `{RangeOrder} s r s' b : wf s -> addRegistration s r = Some (s', b) -> wf s'.
Proof.
  intros Hs. unfold addRegistration. destruct (merge_allocations _ _) as [merged|] eqn:EM; [|done].
  intros [= <- _]. rewrite updateAntsByTags_index, updateAntsByMethods_index.
  split; cbn.
  - intros m a [[-> _]|Ha%Hs]%elem_of_index_add; set_solver.
  - intros t a [[-> _]|Ha%Hs]%elem_of_index_add; set_solver.
  - intros q a Ha%Hs. set_solver.
  - rewrite !dom_insert_L. f_equal. apply Hs.
  - intros a r' [[<- <-]|[_ ?]]%lookup_insert_Some; [done|by apply Hs].
  - intros a r' m [[<- <-]|[_ Hr]]%lookup_insert_Some Hm; apply elem_of_index_add; [by left|].
    right. by eapply Hs.
  - intros a r' t [[<- <-]|[_ Hr]]%lookup_insert_Some Ht; apply elem_of_index_add; [by left|].
    right. by eapply Hs.
  - apply allocs_keyed_insert; [apply Hs|]. eapply merge_allocations_keyed; [|exact EM]. cbn.
    destruct (allocationsByAnt s !! AntID r) as [allocs|] eqn:E; cbn; [|by intros ??; rewrite lookup_empty].
    intros q al. by apply (wf_keyed s Hs _ _ _ _ E).
  - apply Hs.
Qed.

Lemma removeRegistration_wf `{RangeOrder} s a : wf s -> wf (fst (removeRegistration s a)).
Proof.
  intros Hs. split; cbn.
  - intros m b. rewrite ants_of_drop. intros [?%Hs ?]%elem_of_difference. set_solver.
  - intros t b. rewrite ants_of_drop. intros [?%Hs ?]%elem_of_difference. set_solver.
  - intros q b. rewrite ants_of_drop. intros [?%Hs ?]%elem_of_difference. set_solver.
  - rewrite !dom_delete_L. f_equal. apply Hs.
  - intros b r [_ ?]%lookup_delete_Some. by apply Hs.
  - intros b r m [? ?]%lookup_delete_Some ?. rewrite ants_of_drop. apply elem_of_difference.
    split; [by eapply Hs|set_solver].
  - intros b r t [? ?]%lookup_delete_Some ?. rewrite ants_of_drop. apply elem_of_difference.
    split; [by eapply Hs|set_solver].
  - intros b allocs q al [_ E]%lookup_delete_Some. by apply (wf_keyed s Hs _ _ _ _ E).
  - apply Hs.
Qed.

#[export] Hint Resolve wf_new reserve_wf releaseJob_wf release_wf updateContainer_wf
  addContainers_wf addRegistration_wf removeRegistration_wf : go.

End Alloc.

(** What the reservation of a job needs to know of its tasks. *)
Class TaskSpec (T : Type) := {
  task_type : T -> string;
  task_method : T -> TaskMethod;
  task_tags : T -> list string
}.

(** ** Manager: resource_manager.go, its reaper and its subscriptions *)
Module Manager.
Import Ants Alloc.

(** The part of the server configuration the manager reads. *)
Record JobsConfig := mkJobsConfig {
  AntRegistrationAliveTimeout : Z;
  AntReservationTimeout : Z
}.

Inductive manager_error :=
| MethodsMissing
| NoLiveAntForMethod (method : TaskMethod)
| NoAntForTag (tag : string)
| NoMatchingAntForTag (tag : string)
| ReservationMissing
| NotRegistered (antID requestID taskType : string).

Section Operations.
Context `{RangeOrder} (cfg : JobsConfig).

Let alive := AntRegistrationAliveTimeout cfg.

Definition Registrations (s : State) : list AntRegistration := getRegistrations s.
Definition Registration (s : State) (id : string) : option AntRegistration := getRegistration s id.

(** *** HasAntsForJobTags *)

Definition liveCount (now : Z) (s : State) (method : TaskMethod) : Z :=
  foldl (fun n antID =>
           match getRegistrationByAnt s antID with
           | Some reg => if Supports now reg method [] alive then n + 1 else n
           | None => n
           end) 0 (getAntIDsByMethod s method).

Fixpoint check_methods (now : Z) (s : State) (methods : list TaskMethod) : option manager_error :=
  match methods with
  | [] => None
  | method :: rest =>
      if liveCount now s method =? 0 then Some (NoLiveAntForMethod method)
      else check_methods now s rest
  end.

(** An alive ant of the tag that is not above its capacity. *)
Definition tag_ant_ok (now : Z) (s : State) (antID : string) : bool :=
  match getRegistrationByAnt s antID, getAllocationsByAnt s antID with
  | Some registration, Some allocs =>
      IsAlive now registration alive && (Z.of_nat (size allocs) <=? MaxCapacity registration)
  | _, _ => false
  end.

Fixpoint check_tags (now : Z) (s : State) (tags : list string) : option manager_error :=
  match tags with
  | [] => None
  | tag :: rest =>
      match fst (getAntsByTag s tag) with
      | [] => Some (NoAntForTag tag)
      | antIDs =>
          if existsb (tag_ant_ok now s) antIDs then check_tags now s rest
          else Some (NoMatchingAntForTag tag)
      end
  end.

Definition HasAntsForJobTags (now : Z) (s : State) (methods : list TaskMethod) (tags : list string)
    : option manager_error :=
  match methods with
  | [] => Some MethodsMissing
  | _ => match check_methods now s methods with
         | Some e => Some e
         | None => check_tags now s tags
         end
  end.

(** *** Reservations *)

Definition doReserve (now : Z) (s : State) (requestID taskType : string) (method : TaskMethod)
    (tags : list string) (dryRun : bool) : outcome reserve_error (AntReservation * State) :=
  if method == "" then Error MethodNotSpecified
  else reserve now alive s requestID taskType method tags dryRun.

Definition Reserve (now : Z) (s : State) (requestID taskType : string) (method : TaskMethod)
    (tags : list string) : outcome reserve_error (AntReservation * State) :=
  doReserve now s requestID taskType method tags false.

Definition ReleaseJobResources (s : State) (requestID : string) : State := releaseJob s requestID.

(** [doReserveJobResources]: the error comes with the state it leaves behind
    and, as in the code, with the reservations made so far. *)
Fixpoint reserve_tasks {T} `{TaskSpec T} (now : Z) (s : State) (requestID : string)
    (tasks : list T) (dryRun : bool) (reservations : gmap string AntReservation)
    : outcome (reserve_error * gmap string AntReservation * State)
              (gmap string AntReservation * State) :=
  match tasks with
  | [] => Return (reservations, s)
  | task :: rest =>
      match doReserve now s requestID (task_type task) (task_method task) (task_tags task) dryRun with
      | Return (alloc, s') =>
          reserve_tasks now s' requestID rest dryRun (<[task_type task := alloc]> reservations)
      | Error e =>
          Error (e, reservations, if dryRun then s else ReleaseJobResources s requestID)
      | Panic => Panic
      end
  end.

Definition doReserveJobResources {T} `{TaskSpec T} (now : Z) (s : State) (requestID : string)
    (tasks : list T) (dryRun : bool) :=
  reserve_tasks now s requestID tasks dryRun ∅.

Definition ReserveJobResources {T} `{TaskSpec T} (now : Z) (s : State) (requestID : string)
    (tasks : list T) :=
  doReserveJobResources now s requestID tasks false.

Definition CheckJobResources {T} `{TaskSpec T} (now : Z) (s : State) (tasks : list T)
    : outcome reserve_error (list AntReservation) :=
  match doReserveJobResources now s "" tasks true with
  | Return (reservationsByTask, _) =>
      Return (sort_slice (fun a b => String.ltb (res_AntID a) (res_AntID b))
                (map snd (range reservationsByTask)))
  | Error (e, _, _) => Error e
  | Panic => Panic
  end.

Definition Release (s : State) (reservation : option AntReservation) : manager_error + State :=
  match reservation with
  | None => inl ReservationMissing
  | Some r =>
      match getRegistrationByAnt s (res_AntID r) with
      | None => inl (NotRegistered (res_AntID r) (res_JobRequestID r) (res_TaskType r))
      | Some _ => inr (release s r)
      end
  end.

(** A page of the container events: the slice is allocated before the page is
    cut, so the entries after the last event stay nil; a negative limit panics. *)
Definition GetContainerEvents (now : Z) (s : State) (offset limit : Z) (sortBy : string)
    : outcome manager_error (list (option Containers.ContainerLifecycleEvent) * Z) :=
  let all := getContainerEvents now s sortBy in
  let total := Z.of_nat (length all) in
  if Z.min limit total <? 0 then Panic
  else let n := Z.to_nat (Z.min limit total) in
       let page := take n (drop (Z.to_nat offset) all) in
       Return (map Some page ++ replicate (n - length page) None, total).

Definition Register (now : Z) (s : State) (registration : AntRegistration) : option (State * bool) :=
  addRegistration s (set_ReceivedAt registration now).

Definition Unregister (s : State) (id : string) : State * bool :=
  let '(s, (_, _, count)) := removeRegistration s id in (s, 0 <? count).

(** *** The reapers *)

Definition stale_ids (now : Z) (r : AntRegistration) : list string :=
  (if alive <? elapsed now (ReceivedAt r) then [AntID r] else []) ++
  (if callback_ok r now then [] else [AntID r]).

Definition reapStaleAnts (now : Z) (s : State) : State * Z :=
  let removeAntIDs := flat_map (stale_ids now) (getRegistrations s) in
  (foldl (fun s antID => fst (removeRegistration s antID)) s removeAntIDs,
   Z.of_nat (length removeAntIDs)).

Definition reapAllocations (now : Z) (s : State) : State * Z :=
  let removeReservation := reapStaleAllocations now (AntReservationTimeout cfg) s in
  (foldl (fun s r => match Release s (Some r) with inl _ => s | inr s' => s' end)
     s removeReservation,
   Z.of_nat (length removeReservation)).

(** One tick of the reaper. *)
Definition reaper_tick (now : Z) (s : State) : State :=
  fst (reapAllocations now (fst (reapStaleAnts now s))).

(** *** The subscription callbacks, on unmarshalled events *)

Definition on_registration (now : Z) (s : State) (payload : AntRegistration) : option State :=
  match Validate payload with
  | inl _ => Some s
  | inr registration => option_map fst (Register now s registration)
  end.

Definition on_job_event (s : State) (requestID : string) (jobState : RequestState) : State :=
  if RequestState.State.IsTerminal jobState then ReleaseJobResources s requestID else s.

Definition on_task_event (now : Z) (s : State) (antID requestID taskType : string)
    (taskState : RequestState) : manager_error + State :=
  if RequestState.State.Completed taskState
  then Release s (Some (NewAntReservation now antID "" requestID taskType "" 0 0))
  else inr s.

Definition on_container_event (s : State) (cle : Containers.ContainerLifecycleEvent) : State :=
  match Containers.Validate cle with
  | Some _ => s
  | None => updateContainer s cle
  end.

End Operations.

(** *** The manager as a transition system: every way its state can change

    A call that panics ends the run: nothing recovers on the way to the queue's
    goroutine.  (Where the broker's client recovers, as for Kafka, a panic of
    [reserve] has changed nothing; one of [addRegistration] leaves the
    registration without its indexes, which is not modelled.) *)
Inductive step (cfg : JobsConfig) : State -> State -> Prop :=
| step_register O now s r s' b : @Register O now s r = Some (s', b) -> step cfg s s'
| step_unregister O s id : step cfg s (fst (@Unregister O s id))
| step_reserve O now s req task method tags res s' :
    @Reserve O cfg now s req task method tags = Return (res, s') -> step cfg s s'
| step_reserve_job O T TS now s req tasks m s' :
    @ReserveJobResources O cfg T TS now s req tasks = Return (m, s') -> step cfg s s'
| step_reserve_job_fail O T TS now s req tasks e m s' :
    @ReserveJobResources O cfg T TS now s req tasks = Error (e, m, s') -> step cfg s s'
| step_release s r s' : Release s r = inr s' -> step cfg s s'
| step_release_job O s req : step cfg s (@ReleaseJobResources O s req)
| step_reap O now s : step cfg s (@reaper_tick O cfg now s)
| step_registration_event O now s r s' : @on_registration O now s r = Some s' -> step cfg s s'
| step_job_event O s req st : step cfg s (@on_job_event O s req st)
| step_task_event now s ant req task st s' :
    on_task_event now s ant req task st = inr s' -> step cfg s s'
| step_container_event s cle : step cfg s (on_container_event s cle)
| step_containers s reply : step cfg s (addContainers s reply).

Definition reachable (cfg : JobsConfig) (s : State) : Prop := rtc (step cfg) NewState s.

(** *** The invariant holds in every reachable state *)

Lemma doReserve_wf `{RangeOrder} cfg now s q t m tags dry r s' :
  wf s -> doReserve cfg now s q t m tags dry = Return (r, s') -> wf s'.
Proof. intros Hs. unfold doReserve. destruct (_ == _); [done|]. eauto with go. Qed.

Lemma reserve_tasks_wf `{RangeOrder} {T} `{TaskSpec T} cfg now s q (tasks : list T) dry acc :
  wf s ->
  match reserve_tasks cfg now s q tasks dry acc with
  | Return (_, s') | Error (_, _, s') => wf s'
  | Panic => True
  end.
Proof.
  revert s acc. induction tasks as [|task tasks IH]; intros s acc Hs; cbn; [done|].
  destruct (doReserve _ _ _ _ _ _ _ _) as [[r s']|e|] eqn:E; [|destruct dry; cbn|done].
  - apply IH. by eapply doReserve_wf.
  - done.
  - by apply releaseJob_wf.
Qed.

Lemma Release_wf s r s' : wf s -> Release s r = inr s' -> wf s'.
Proof.
  unfold Release. intros Hs. destruct r as [r|]; [|done].
  destruct (getRegistrationByAnt _ _); [|done]. intros [= <-]. by apply release_wf.
Qed.

Lemma foldl_wf {A} (f : State -> A -> State) l s :
  (forall s x, wf s -> wf (f s x)) -> wf s -> wf (foldl f s l).
Proof. intros Hf. revert s. induction l as [|x l IH]; intros s Hs; cbn; [done|]. by apply IH, Hf. Qed.

Lemma reaper_tick_wf `{RangeOrder} cfg now s : wf s -> wf (reaper_tick cfg now s).
Proof.
  intros Hs. unfold reaper_tick, reapAllocations, reapStaleAnts. cbn [fst].
  apply foldl_wf; [|apply foldl_wf; eauto with go].
  intros s' r Hs'. destruct (Release s' (Some r)) as [|s''] eqn:E; [done|]. by eapply Release_wf.
Qed.

Lemma step_wf cfg s s' : wf s -> step cfg s s' -> wf s'.
Proof.
  intros Hs Hst. destruct Hst as
    [? ? ? ? ? ? E|? ? id|? ? ? ? ? ? ? ? ? E|? T TS ? ? q tasks ? ? E|? T TS ? ? q tasks ? ? ? E
    |? ? ? E|? ? ?|? ? ?|? ? ? r ? E|? ? ? st|? ? ? ? ? st ? E|? c|? ?].
  - by eapply addRegistration_wf.
  - unfold Unregister. pose proof (removeRegistration_wf s id Hs) as Hw.
    destruct (removeRegistration s id) as [s' [[? ?] ?]]. done.
  - by eapply doReserve_wf.
  - pose proof (reserve_tasks_wf cfg now s q tasks false ∅ Hs) as Hw.
    unfold ReserveJobResources, doReserveJobResources in E. by rewrite E in Hw.
  - pose proof (reserve_tasks_wf cfg now s q tasks false ∅ Hs) as Hw.
    unfold ReserveJobResources, doReserveJobResources in E. by rewrite E in Hw.
  - by eapply Release_wf.
  - by apply releaseJob_wf.
  - by apply reaper_tick_wf.
  - unfold on_registration in E. destruct (Validate r); [by simplify_eq|].
    destruct (Register _ _ _) as [[s1 b]|] eqn:ER; [|done]. injection E as <-. by eapply addRegistration_wf.
  - unfold on_job_event. destruct (State.IsTerminal st); [by apply releaseJob_wf|done].
  - unfold on_task_event in E. destruct (State.Completed st); [by eapply Release_wf|by simplify_eq].
  - unfold on_container_event. destruct (Containers.Validate c); [done|by apply updateContainer_wf].
  - by apply addContainers_wf.
Qed.

Lemma reachable_wf cfg s : reachable cfg s -> wf s.
Proof.
  unfold reachable. generalize wf_new. generalize NewState as s0.
  induction 2 as [|? ? ? Hst _ IH]; [done|]. apply IH. by eapply step_wf.
Qed.

End Manager.
