(* ===== verification/ResourceSpec.v ===== *)
(** * ResourceSpec: what the resource manager promises

    Theorems about [Resource]: the index invariant in every reachable state,
    the exact condition under which a reservation is refused, the one way in
    which it panics and the ant it picks, release and roll-back, the reapers, and the leak left by releasing
    one task of a job that holds several ants. *)

From S2P Require Import Prelude RequestState Tags Resource.
From stdpp Require Import relations.

Import Ants Alloc.
Open Scope Z_scope.

(** ** The specification of eligibility *)

(** Every wanted tag that is not blank is the tag of some ant. *)
Definition tags_present (s : State) (tags : list string) : Prop :=
  forall t, t ∈ tags -> TrimSpace t <> "" -> ants_of (antByTag s) t <> ∅.

(** The ant is indexed under the method and, when tags are wanted, under one
    of them, and its registration supports the method and all the tags. *)
Definition eligible (now timeout : Z) (s : State) (method : TaskMethod) (tags : list string)
    (a : string) : Prop :=
  a ∈ ants_of (antByMethod s) method /\
  (tags = [] \/ exists t, t ∈ tags /\ TrimSpace t <> "" /\ a ∈ ants_of (antByTag s) t) /\
  exists r, antRegistrations s !! a = Some r /\ Supports now r method tags timeout = true.

(** The load of an ant: the number of task types in its allocations. *)
Definition load_of (s : State) (a : string) : Z :=
  calculateLoad (default ∅ (allocationsByAnt s !! a)).

(** The allocation of a request on an ant after one more task is reserved. *)
Definition reserved_allocation (now : Z) (allocs : gmap string AntAllocation) (a topic q t : string)
    : AntAllocation :=
  match allocs !! q with
  | Some al => set_TaskTypes al (<[t := State.RESERVED]> (task_types al))
  | None => mkAntAllocation q (Some {[t := State.RESERVED]}) a topic now now
  end.

(** No eligible ant has less to do. *)
Definition least_loaded (now timeout : Z) (s : State) (method : TaskMethod) (tags : list string)
    (a : string) : Prop :=
  eligible now timeout s method tags a /\
  forall b, eligible now timeout s method tags b -> load_of s a <= load_of s b.

(** The ant has reported an allocation for the request that has no task types. *)
Definition nil_types (s : State) (a q : string) : Prop :=
  exists allocs al, allocationsByAnt s !! a = Some allocs /\ allocs !! q = Some al /\ al_TaskTypes al = None.

(** ** The pieces of [reserve] *)

Lemma collect_tag_ants_spec s tags acc :
  match collect_tag_ants s tags acc with
  | inl e => exists t, e = NoAntsForTag t /\ ~ tags_present s tags
  | inr X => tags_present s tags /\
      forall a, a ∈ X <-> a ∈ acc \/ exists t, t ∈ tags /\ TrimSpace t <> "" /\ a ∈ ants_of (antByTag s) t
  end.
Proof.
  unfold tags_present. revert acc. induction tags as [|t tags IH]; intros acc; cbn.
  - split; [intros t Ht; by apply not_elem_of_nil in Ht|].
    intros a. split; [by left|]. intros [?|(t & Ht & _)]; [done|by apply not_elem_of_nil in Ht].
  - destruct (TrimSpace t == "") eqn:E; [apply eqb_string_true in E|apply eqb_string_false in E].
    + specialize (IH acc). destruct (collect_tag_ants s tags acc) as [e|X].
      * destruct IH as (t' & -> & Hn). exists t'. split; [done|]. contradict Hn. set_solver.
      * destruct IH as [Hp HX]. split; set_solver.
    + destruct (decide _) as [He|Hne].
      * exists t. split; [done|]. intros Hp. apply (Hp t); [apply list_elem_of_here|done..].
      * specialize (IH (acc ∪ ants_of (antByTag s) t)). destruct (collect_tag_ants _ _ _) as [e|X].
        -- destruct IH as (t' & -> & Hn). exists t'. split; [done|]. contradict Hn. set_solver.
        -- destruct IH as [Hp HX]. split; set_solver.
Qed.

Lemma availableAnts_lookup M X tags a c :
  availableAnts M X tags !! a = Some c <->
  a ∈ M /\ c = match tags with [] => 2 | _ => 1 + (if decide (a ∈ X) then 1 else 0) end.
Proof.
  unfold availableAnts. rewrite lookup_set_to_map by naive_solver.
  split; [by intros (y & Hy & [= -> ->])|]. intros [Ha ->]. by exists a.
Qed.

Lemma availableAnts_two M X tags a :
  availableAnts M X tags !! a = Some 2 <-> a ∈ M /\ (tags = [] \/ a ∈ X).
Proof.
  rewrite availableAnts_lookup. destruct tags; [naive_solver|].
  destruct (decide (a ∈ X)); intuition (try discriminate; try lia; eauto).
Qed.

(** What an ant offers. *)
Definition offer (now : Z) (s : State) (q t a : string) (r : AntRegistration) : AntReservation :=
  NewAntReservation now a (AntTopic r) q t (EncryptionKey r) (load_of s a) (TotalExecuted r).

Lemma candidate_wf now timeout s q t m tags a c :
  wf s -> a ∈ dom (antRegistrations s) ->
  exists r, antRegistrations s !! a = Some r /\
    candidate now timeout s q t m tags a c =
      Return (if (c =? 2) && Supports now r m tags timeout then Some (offer now s q t a r) else None).
Proof.
  intros Hs Ha. pose proof Ha as [r Hr]%elem_of_dom. exists r. split; [done|].
  unfold candidate. destruct (c =? 2); cbn; [|done]. rewrite Hr, (wf_id s Hs a r Hr).
  rewrite <- (wf_alloc s Hs) in Ha. apply elem_of_dom in Ha as [allocs Hal].
  unfold offer, load_of. rewrite Hal. cbn. by destruct (Supports _ _ _ _ _).
Qed.

Lemma candidates_wf now timeout s q t m tags avail :
  wf s -> (forall a c, (a, c) ∈ avail -> a ∈ dom (antRegistrations s)) ->
  exists l, candidates now timeout s q t m tags avail = Return l /\
    forall x, x ∈ l <-> exists a r, (a, 2) ∈ avail /\ antRegistrations s !! a = Some r /\
                         Supports now r m tags timeout = true /\ x = offer now s q t a r.
Proof.
  intros Hs. induction avail as [|[a c] avail IH]; intros Hd; cbn.
  - exists []. split; [done|]. intros x. split; [by intros ?%not_elem_of_nil|].
    intros (? & ? & H & _). by apply not_elem_of_nil in H.
  - destruct (candidate_wf now timeout s q t m tags a c Hs) as (r & Hr & ->).
    { eapply Hd, list_elem_of_here. }
    destruct IH as (l & -> & Hl). { intros a' c' ?. by eapply Hd, list_elem_of_further. }
    eexists. split; [done|]. intros x. setoid_rewrite elem_of_cons.
    destruct (Z.eqb_spec c 2) as [->|Hc]; [destruct (Supports now r m tags timeout) eqn:ES|];
      cbn; rewrite ?elem_of_cons, Hl; clear Hl Hd; [naive_solver| |naive_solver].
    split; [naive_solver|]. intros (a' & r' & [[= ->]|Hin] & Hr' & HS' & ->); [congruence|eauto 10].
Qed.

(** The offers that [reserve] collects are those of the eligible ants. *)
Lemma offers_spec `{RangeOrder} now timeout s q t m tags X :
  wf s -> collect_tag_ants s tags ∅ = inr X ->
  exists l, candidates now timeout s q t m tags
              (range (availableAnts (ants_of (antByMethod s) m) X tags)) = Return l /\
    forall x, x ∈ l <-> exists a r, eligible now timeout s m tags a /\
                         antRegistrations s !! a = Some r /\ x = offer now s q t a r.
Proof.
  intros Hs HX. pose proof (collect_tag_ants_spec s tags ∅) as HT. rewrite HX in HT.
  destruct HT as [_ HT].
  destruct (candidates_wf now timeout s q t m tags
              (range (availableAnts (ants_of (antByMethod s) m) X tags)) Hs) as (l & -> & Hl).
  { intros a c [? _]%elem_of_range%availableAnts_lookup. by eapply Hs. }
  exists l. split; [done|]. intros x. rewrite Hl. unfold eligible. setoid_rewrite elem_of_range.
  setoid_rewrite availableAnts_two. setoid_rewrite HT. clear -HT. split.
  - intros (a & r & [? ?] & Hr & Hsup & ->). exists a, r. split_and!; try done; [set_solver|].
    by exists r.
  - intros (a & r & (? & ? & r' & Hr' & ?) & Hr & ->). exists a, r. simplify_eq.
    split_and!; try done. set_solver.
Qed.

(** In a well-formed state [reserve] fails exactly when no ant is eligible, and
    panics only where the ant it picks has an allocation without task types. *)
Lemma reserve_cases `{RangeOrder} now timeout s q t m tags dry :
  wf s ->
  match reserve now timeout s q t m tags dry with
  | Panic => dry = false /\ tags_present s tags /\
      exists a, least_loaded now timeout s m tags a /\ nil_types s a q
  | Error _ => ~ (tags_present s tags /\ exists a, eligible now timeout s m tags a)
  | Return (res, s') =>
      tags_present s tags /\
      exists r, antRegistrations s !! res_AntID res = Some r /\
        eligible now timeout s m tags (res_AntID res) /\
        res_JobRequestID res = q /\ res_TaskType res = t /\ res_AntTopic res = AntTopic r /\
        (if dry then s' = s else
           (forall b, eligible now timeout s m tags b -> load_of s (res_AntID res) <= load_of s b) /\
           exists allocs, allocationsByAnt s !! res_AntID res = Some allocs /\
             (forall al, allocs !! q = Some al -> is_Some (al_TaskTypes al)) /\
             s' = addAntsByRequest (with_allocationsByAnt s
                    (<[res_AntID res :=
                       <[q := reserved_allocation now allocs (res_AntID res) (AntTopic r) q t]> allocs]>
                       (allocationsByAnt s))) q (res_AntID res))
  end.
Proof.
  intros Hs. unfold reserve.
  destruct (decide (ants_of (antByMethod s) m = ∅)) as [He|Hne].
  { intros (_ & a & Ha & _). set_solver. }
  pose proof (collect_tag_ants_spec s tags ∅) as HT.
  destruct (collect_tag_ants s tags ∅) as [e|X] eqn:EX; [destruct HT as (? & _ & ?); naive_solver|].
  destruct HT as [Hp _].
  destruct (offers_spec now timeout s q t m tags X Hs EX) as (l & -> & Hl').
  set (sorted := if dry then l else _).
  assert (sorted ≡ₚ l) as HP by (subst sorted; destruct dry; [done|apply sort_slice_perm]).
  destruct sorted as [|x rest] eqn:Esort.
  { intros (_ & a & Ha). pose proof Ha as (_ & _ & r & Hr & _).
    assert (offer now s q t a r ∈ l) as Hin by (apply Hl'; eauto).
    rewrite <- HP in Hin. by apply not_elem_of_nil in Hin. }
  assert (x ∈ l) as Hx by (rewrite <- HP; apply list_elem_of_here).
  apply Hl' in Hx as (a & r & Ha & Hr & ->).
  assert (exists allocs, allocationsByAnt s !! a = Some allocs) as [allocs Hal].
  { apply elem_of_dom. rewrite (wf_alloc s Hs). by apply elem_of_dom_2 in Hr. }
  destruct dry; [cbn; eauto 10|].
  assert (forall b, eligible now timeout s m tags b -> load_of s a <= load_of s b) as Hmin.
  { intros b Hb. pose proof Hb as (_ & _ & rb & Hrb & _).
    apply (sort_slice_head res_CurrentLoad l _ rest (offer now s q t b rb) Esort).
    apply Hl'. eauto. }
  unfold addAllocationsByAnt. cbn. rewrite Hal. unfold reserved_allocation.
  destruct (allocs !! q) as [al|] eqn:Eq.
  - destruct (al_TaskTypes al) as [types|] eqn:Et.
    + split; [done|]. cbn. exists r. split_and!; try done. exists allocs. rewrite Eq. split_and!; [done| |].
      * intros ? [= <-]. by exists types.
      * unfold task_types. by rewrite Et.
    + split_and!; [done..|]. exists a. split; [done|]. by exists allocs, al.
  - split; [done|]. cbn. exists r. split_and!; try done. exists allocs. rewrite Eq. split_and!; [done..|].
    unfold NewAntAllocation, set_TaskTypes. cbn. by rewrite insert_singleton_eq.
Qed.

(** ** Reservations *)

(** C1: in every state the manager can reach, the indexes are consistent: the
    method, tag and request indexes only name registered ants, each registered
    ant is indexed under all its methods and tags and has an allocation table,
    and allocations and container events are stored under their own keys. *)
Theorem reachable_states_consistent (cfg : Manager.JobsConfig) (s : State) :
  Manager.reachable cfg s -> wf s.
Proof. apply Manager.reachable_wf. Qed.

(** C2: a reservation request on a reachable state is refused exactly when a
    wanted tag is not indexed or no ant is eligible.  It panics at most in one
    way, by writing to the nil map of task types of an allocation that an ant has
    reported for the same request: then the request is not a dry run and this ant
    is among the least loaded eligible ones.  (The registration, which the code
    reads before it tests it for nil, is always there.) *)
Theorem reserve_fails_iff (O : RangeOrder) (cfg : Manager.JobsConfig) (s : State) now q t m tags dry :
  Manager.reachable cfg s ->
  let timeout := Manager.AntRegistrationAliveTimeout cfg in
  let r := reserve now timeout s q t m tags dry in
  ((exists e, r = Error e) <-> ~ (tags_present s tags /\ exists a, eligible now timeout s m tags a)) /\
  (r = Panic -> dry = false /\ exists a, least_loaded now timeout s m tags a /\ nil_types s a q).
Proof.
  intros Hs%Manager.reachable_wf timeout r.
  pose proof (reserve_cases now timeout s q t m tags dry Hs) as HC. fold r in HC.
  destruct r as [[res s']|e|].
  - destruct HC as (Hp & reg & _ & He & _). split; [|done]. split; [naive_solver|].
    intros Hno. destruct Hno. eauto.
  - split; [|done]. split; eauto.
  - destruct HC as (Hd & Hp & a & Ha & Hn). split; [|eauto]. split; [naive_solver|].
    intros Hno. destruct Hno. destruct Ha. eauto.
Qed.

(** A successful reservation picks an eligible ant whose load is the least
    among all eligible ants, and changes the state only by marking the task
    type RESERVED in the request's allocation on that ant and adding the ant
    to the ants of the request. *)
Theorem reserve_picks_least_loaded (O : RangeOrder) now timeout (s : State) q t m tags res s' :
  wf s -> reserve now timeout s q t m tags false = Return (res, s') ->
  let a := res_AntID res in
  eligible now timeout s m tags a /\
  (forall b, eligible now timeout s m tags b -> load_of s a <= load_of s b) /\
  res_JobRequestID res = q /\ res_TaskType res = t /\
  exists r allocs,
    antRegistrations s !! a = Some r /\ allocationsByAnt s !! a = Some allocs /\
    s' = addAntsByRequest
           (with_allocationsByAnt s
              (<[a := <[q := reserved_allocation now allocs a (AntTopic r) q t]> allocs]>
                 (allocationsByAnt s))) q a.
Proof.
  intros Hs E. pose proof (reserve_cases now timeout s q t m tags false Hs) as HC.
  rewrite E in HC. destruct HC as (_ & r & Hr & He & Hq & Ht & _ & Hmin & allocs & Hal & _ & ->).
  split_and!; try done. eauto.
Qed.

(** ** Release *)

(** No task of the request is held on the ant, or some but not this one. *)
Definition not_reserved (s : State) (a q t : string) : Prop :=
  forall allocs al, allocationsByAnt s !! a = Some allocs -> allocs !! q = Some al ->
    task_types al !! t = None /\ task_types al <> ∅.

Lemma delete_reserved (types : gmap string RequestState) t :
  types !! t = None -> delete t (<[t := State.RESERVED]> types) = types.
Proof. apply delete_insert_id. Qed.

(** Releasing a reservation undoes it: reserving a task that its ant does
    not hold yet and releasing the reservation gives back the allocation
    tables the manager had before. *)
Theorem release_undoes_reserve (O : RangeOrder) now timeout (s : State) q t m tags res s' :
  wf s -> reserve now timeout s q t m tags false = Return (res, s') ->
  not_reserved s (res_AntID res) q t ->
  allocationsByAnt (release s' res) = allocationsByAnt s.
Proof.
  intros Hs E Hn. pose proof (reserve_cases now timeout s q t m tags false Hs) as HC.
  rewrite E in HC. destruct HC as (_ & r & Hr & _ & Hq & Ht & _ & _ & allocs & Hal & _ & ->).
  unfold release. cbn. rewrite lookup_insert_eq. rewrite Hq, lookup_insert_eq, Ht.
  specialize (Hn allocs). unfold reserved_allocation. destruct (allocs !! q) as [al|] eqn:Eq; cbn.
  - destruct (Hn al Hal eq_refl) as [Hno Hne].
    change (task_types (set_TaskTypes al ?types)) with types.
    rewrite delete_reserved by done.
    rewrite decide_False by done. cbn. unfold set_TaskTypes. cbn.
    rewrite !insert_insert_eq. destruct al as [? [types|]]; cbn; [|done]. rewrite (insert_id allocs) by done.
    by rewrite insert_id.
  - rewrite delete_singleton_eq, decide_True by done. cbn.
    rewrite insert_insert_eq, delete_insert_id by done. by rewrite insert_id.
Qed.

(** All the allocations of the request are on ants the request index names. *)
Definition tracked (s : State) (q : string) : Prop :=
  forall a allocs, allocationsByAnt s !! a = Some allocs -> is_Some (allocs !! q) ->
    a ∈ ants_of (antsByRequest s) q.

Lemma addAntsByRequest_lookup s q a q' :
  ants_of (antsByRequest (addAntsByRequest s q a)) q' =
  if decide (q = q') then {[a]} ∪ ants_of (antsByRequest s) q else ants_of (antsByRequest s) q'.
Proof. unfold addAntsByRequest. cbn. apply ants_of_insert. Qed.

Lemma reserve_tracked (O : RangeOrder) now timeout s q t m tags res s' q' :
  wf s -> reserve now timeout s q t m tags false = Return (res, s') ->
  tracked s q' -> tracked s' q'.
Proof.
  intros Hs E Htr. pose proof (reserve_cases now timeout s q t m tags false Hs) as HC.
  rewrite E in HC. destruct HC as (_ & r & _ & _ & _ & _ & _ & _ & allocs & Hal & _ & ->).
  intros b ballocs. rewrite addAntsByRequest_lookup. cbn.
  intros [[<- <-]|[Hne Hb]]%lookup_insert_Some Hq'.
  - destruct (decide (q = q')) as [->|Hne]; [set_solver|].
    rewrite lookup_insert_ne in Hq' by done. by eapply Htr.
  - destruct (decide (q = q')) as [->|]; [apply elem_of_union_r|]; by eapply Htr.
Qed.

Lemma releaseJob_allocs `{RangeOrder} s q a :
  allocationsByAnt (releaseJob s q) !! a =
  if decide (a ∈ ants_of (antsByRequest s) q)
  then delete q <$> (allocationsByAnt s !! a) else allocationsByAnt s !! a.
Proof.
  unfold releaseJob, ants_of. destruct (antsByRequest s !! q) as [X|] eqn:E; cbn; [|done].
  rewrite release_ants_lookup. apply decide_ext, elem_of_range_set.
Qed.

(** Releasing a job whose allocations are all tracked frees the request on
    every ant, forgets its ants and its container events, and leaves the
    allocations of other requests as they were. *)
Theorem release_job_frees_request (O : RangeOrder) (s : State) (q : string) :
  wf s -> tracked s q -> antsByRequest s !! q <> None ->
  let s' := releaseJob s q in
  (forall a, default ∅ (allocationsByAnt s' !! a) = delete q (default ∅ (allocationsByAnt s !! a))) /\
  antsByRequest s' = delete q (antsByRequest s) /\
  (forall k e, containersEvents s' !! k = Some e -> Containers.RequestID e <> q).
Proof.
  intros Hs Htr Hq s'. split_and!.
  - intros a. unfold s'. rewrite releaseJob_allocs. destruct (decide _) as [|Hn].
    + by destruct (allocationsByAnt s !! a); cbn; rewrite ?delete_empty.
    + destruct (allocationsByAnt s !! a) as [allocs|] eqn:E; cbn; [|by rewrite delete_empty].
      rewrite delete_id; [done|]. apply eq_None_not_Some. intros ?. destruct Hn. by eapply Htr.
  - unfold s', releaseJob. by destruct (antsByRequest s !! q).
  - intros k e. unfold s', releaseJob. destruct (antsByRequest s !! q); [|done]. cbn.
    rewrite delete_keys_lookup. destruct (decide _) as [|Hn]; [done|].
    intros [_ HI]%(wf_event s Hs) <-. destruct Hn. by apply elem_of_range_set.
Qed.

(** ** Job reservations *)

(** The states met while reserving the tasks of a request that had nothing:
    they differ from the start only by the request's own entries. *)
Record extends_by (q : string) (s0 s : State) : Prop := {
  ext_regs : antRegistrations s = antRegistrations s0;
  ext_tags : antByTag s = antByTag s0;
  ext_methods : antByMethod s = antByMethod s0;
  ext_requests : delete q (antsByRequest s) = antsByRequest s0;
  ext_allocs a : (if decide (a ∈ ants_of (antsByRequest s) q)
                  then delete q <$> (allocationsByAnt s !! a)
                  else allocationsByAnt s !! a) = allocationsByAnt s0 !! a
}.

Lemma extends_by_refl q s : antsByRequest s !! q = None -> extends_by q s s.
Proof.
  intros Hq. split; try done; [by apply delete_id|]. intros a. unfold ants_of. by rewrite Hq.
Qed.

Lemma extends_by_no_alloc q s0 s a allocs :
  extends_by q s0 s -> (forall a allocs, allocationsByAnt s0 !! a = Some allocs -> allocs !! q = None) ->
  allocationsByAnt s !! a = Some allocs ->
  delete q <$> (allocationsByAnt s !! a) = allocationsByAnt s0 !! a.
Proof.
  intros Hx H0 Ha. pose proof (ext_allocs q s0 s Hx a) as HA. destruct (decide _); [done|].
  rewrite <- HA, Ha. cbn. f_equal. apply delete_id. apply (H0 a). by rewrite <- HA.
Qed.

Lemma extends_by_reserve (O : RangeOrder) now timeout q s0 s t m tags res s' :
  wf s -> (forall a allocs, allocationsByAnt s0 !! a = Some allocs -> allocs !! q = None) ->
  extends_by q s0 s -> reserve now timeout s q t m tags false = Return (res, s') ->
  extends_by q s0 s'.
Proof.
  intros Hs H0 Hx E. pose proof (reserve_cases now timeout s q t m tags false Hs) as HC.
  rewrite E in HC. destruct HC as (_ & r & _ & _ & _ & _ & _ & _ & allocs & Hal & _ & ->).
  split; cbn; try apply Hx.
  - rewrite delete_insert_eq. apply Hx.
  - intros b. rewrite ants_of_insert, (decide_True (P := q = q)) by done.
    destruct (decide (b = res_AntID res)) as [->|Hne].
    + rewrite decide_True, lookup_insert_eq by set_solver. cbn. rewrite delete_insert_eq.
      pose proof (extends_by_no_alloc q s0 s _ _ Hx H0 Hal) as HA. by rewrite Hal in HA.
    + rewrite lookup_insert_ne by done. rewrite <- (ext_allocs q s0 s Hx b).
      destruct (decide (b ∈ ants_of (antsByRequest s) q)).
      * by rewrite decide_True by set_solver.
      * by rewrite decide_False by set_solver.
Qed.

Lemma extends_by_released `{RangeOrder} q s0 s :
  antsByRequest s0 !! q = None -> extends_by q s0 s ->
  allocationsByAnt (releaseJob s q) = allocationsByAnt s0 /\
  antsByRequest (releaseJob s q) = antsByRequest s0.
Proof.
  intros H0 Hx. split.
  - apply map_eq. intros a. rewrite releaseJob_allocs. apply Hx.
  - unfold releaseJob. destruct (antsByRequest s !! q) eqn:E; cbn; [apply Hx|].
    rewrite <- (ext_requests q s0 s Hx). by rewrite delete_id.
Qed.

Lemma reserve_tasks_rollback (O : RangeOrder) {T} (TS : TaskSpec T) cfg now s0 s q (tasks : list T) acc e m s' :
  wf s -> (forall a allocs, allocationsByAnt s0 !! a = Some allocs -> allocs !! q = None) ->
  antsByRequest s0 !! q = None -> extends_by q s0 s ->
  Manager.reserve_tasks cfg now s q tasks false acc = Error (e, m, s') ->
  allocationsByAnt s' = allocationsByAnt s0 /\ antsByRequest s' = antsByRequest s0.
Proof.
  intros Hs Hno H0 Hx. revert s acc Hs Hx.
  induction tasks as [|task tasks IH]; intros s acc Hs Hx; cbn; [done|].
  destruct (Manager.doReserve _ _ _ _ _ _ _ _) as [[r s1]|e1|] eqn:E; [| |done].
  - assert (wf s1) by (by eapply Manager.doReserve_wf). apply IH; [done|].
    unfold Manager.doReserve in E. destruct (_ == _); [done|]. by apply (extends_by_reserve O _ _ q s0 s _ _ _ _ _ Hs Hno Hx E).
  - intros [= <- <- <-]. by apply extends_by_released.
Qed.

(** When one task of a job cannot be reserved, the manager releases what it
    had reserved for the job: for a request that held nothing, the allocation
    tables and the request index are those before the call. *)
Theorem failed_job_reservation_rolls_back (O : RangeOrder) T (TS : TaskSpec T) cfg now (s : State) q
    (tasks : list T) e m s' :
  wf s -> antsByRequest s !! q = None ->
  (forall a allocs, allocationsByAnt s !! a = Some allocs -> allocs !! q = None) ->
  Manager.ReserveJobResources cfg now s q tasks = Error (e, m, s') ->
  allocationsByAnt s' = allocationsByAnt s /\ antsByRequest s' = antsByRequest s.
Proof.
  intros Hs H0 Hno. eapply reserve_tasks_rollback; try done. by apply extends_by_refl.
Qed.

(** ** Registration and reaping *)

(** Unregistering an ant answers whether it was registered and leaves no
    trace of it: no registration, no allocation table, and no method, tag or
    request index entry; every other ant keeps its registration. *)
Theorem unregister_removes_ant (O : RangeOrder) (s : State) (id : string) :
  let '(s', removed) := Manager.Unregister s id in
  removed = bool_decide (id ∈ dom (antRegistrations s)) /\
  antRegistrations s' = delete id (antRegistrations s) /\
  allocationsByAnt s' = delete id (allocationsByAnt s) /\
  (forall k, ants_of (antByMethod s') k = ants_of (antByMethod s) k ∖ {[id]}) /\
  (forall k, ants_of (antByTag s') k = ants_of (antByTag s) k ∖ {[id]}) /\
  (forall k, ants_of (antsByRequest s') k = ants_of (antsByRequest s) k ∖ {[id]}).
Proof.
  unfold Manager.Unregister, removeRegistration. split_and!; try done; [|intros k; apply ants_of_drop..].
  destruct (antRegistrations s !! id) as [r|] eqn:E.
  - rewrite bool_decide_eq_true_2 by (by apply elem_of_dom_2 in E).
    assert (size (delete id (antRegistrations s)) < size (antRegistrations s))%nat; [|lia].
    rewrite map_size_delete_Some by (by exists r).
    assert (size (antRegistrations s) <> 0)%nat by (intros H0%map_size_empty_iff; by rewrite H0, lookup_empty in E). lia.
  - rewrite bool_decide_eq_false_2 by (by apply not_elem_of_dom).
    rewrite delete_id by done. lia.
Qed.

Lemma removed_registrations `{RangeOrder} l s a :
  antRegistrations (foldl (fun s antID => fst (removeRegistration s antID)) s l) !! a =
  if decide (a ∈ l) then None else antRegistrations s !! a.
Proof.
  rewrite <- (delete_keys_lookup l (antRegistrations s)). f_equal. revert s.
  induction l as [|b l IH]; intros s; cbn [foldl]; [done|]. by rewrite IH.
Qed.

Lemma elem_of_getRegistrations `{RangeOrder} s r :
  r ∈ getRegistrations s <-> exists a, antRegistrations s !! a = Some r.
Proof.
  unfold getRegistrations. rewrite sort_slice_perm, list_elem_of_fmap. split.
  - intros ([a r'] & -> & Hin). exists a. by apply elem_of_range in Hin.
  - intros [a Ha]. exists (a, r). split; [done|]. by apply elem_of_range.
Qed.

Lemma elem_of_stale_ids `{RangeOrder} cfg now s a :
  wf s ->
  a ∈ flat_map (Manager.stale_ids cfg now) (getRegistrations s) <->
  exists r, antRegistrations s !! a = Some r /\
    IsAlive now r (Manager.AntRegistrationAliveTimeout cfg) = false.
Proof.
  intros Hs. rewrite list_elem_of_In, in_flat_map. setoid_rewrite <- list_elem_of_In.
  setoid_rewrite elem_of_getRegistrations. unfold Manager.stale_ids, IsAlive. split.
  - intros (r & [b Hb] & Hin). pose proof (wf_id s Hs b r Hb) as Hid. exists r.
    apply elem_of_app in Hin. destruct (_ <? _), (callback_ok r now); set_solver.
  - intros (r & Ha & Hdead). exists r. split; [by exists a|]. rewrite (wf_id s Hs a r Ha).
    apply elem_of_app. destruct (_ <? _), (callback_ok r now); set_solver.
Qed.

(** The reaper removes exactly the ants that are no longer alive: after it
    the registrations are those whose heart beat is recent enough and whose
    validity callback agrees, unchanged. *)
Theorem reaper_keeps_live_ants (O : RangeOrder) cfg now (s : State) (a : string) :
  wf s ->
  antRegistrations (fst (Manager.reapStaleAnts cfg now s)) !! a =
  match antRegistrations s !! a with
  | Some r => if IsAlive now r (Manager.AntRegistrationAliveTimeout cfg) then Some r else None
  | None => None
  end.
Proof.
  intros Hs. unfold Manager.reapStaleAnts. cbn [fst]. rewrite removed_registrations.
  destruct (decide _) as [Hin|Hn]; rewrite (elem_of_stale_ids cfg now s a Hs) in *.
  - destruct Hin as (r & -> & ->). done.
  - destruct (antRegistrations s !! a) as [r|] eqn:E; [|done].
    destruct (IsAlive _ _ _) eqn:EA; [done|]. destruct Hn. eauto.
Qed.

(** ** Capacity checks *)

Lemma liveCount_zero `{RangeOrder} cfg now s method :
  (Manager.liveCount cfg now s method =? 0) = false <->
  exists a r, a ∈ ants_of (antByMethod s) method /\ antRegistrations s !! a = Some r /\
    Supports now r method [] (Manager.AntRegistrationAliveTimeout cfg) = true.
Proof.
  unfold Manager.liveCount, getAntIDsByMethod, getRegistrationByAnt.
  setoid_rewrite <- (elem_of_range_set (ants_of (antByMethod s) method)).
  generalize (range_set (ants_of (antByMethod s) method)) as l. intros l.
  set (f := fun n antID => _).
  assert (forall l n, 0 <= n -> (foldl f n l =? 0) = false <-> 0 < n \/ exists a r, a ∈ l /\
    antRegistrations s !! a = Some r /\
    Supports now r method [] (Manager.AntRegistrationAliveTimeout cfg) = true) as HF.
  { clear l. induction l as [|a l IH]; intros n Hn; cbn [foldl].
    - rewrite Z.eqb_neq. split; [left; lia|]. intros [?|(? & ? & H0 & _)]; [lia|].
      by apply not_elem_of_nil in H0.
    - setoid_rewrite elem_of_cons. unfold f at 2.
      destruct (antRegistrations s !! a) as [r|] eqn:E; [destruct (Supports _ r _ _ _) eqn:ES|];
        rewrite IH by lia.
      + split; [|left; lia]. intros _. right. exists a, r. auto.
      + split; [intros [?|(b & rb & ? & ? & ?)]; eauto 10|].
        intros [?|(b & rb & [->|?] & ? & ?)]; [auto|congruence|eauto 10].
      + split; [intros [?|(b & rb & ? & ? & ?)]; eauto 10|].
        intros [?|(b & rb & [->|?] & ? & ?)]; [auto|congruence|eauto 10]. }
  rewrite HF by lia. naive_solver lia.
Qed.

Lemma check_methods_None `{RangeOrder} cfg now s methods :
  Manager.check_methods cfg now s methods = None <->
  forall m, m ∈ methods -> (Manager.liveCount cfg now s m =? 0) = false.
Proof.
  induction methods as [|m methods IH]; cbn.
  - split; [|done]. intros _ m Hm. by apply not_elem_of_nil in Hm.
  - setoid_rewrite elem_of_cons. destruct (Manager.liveCount cfg now s m =? 0) eqn:E.
    + split; [done|]. intros HA. rewrite HA in E by auto. done.
    + rewrite IH. naive_solver.
Qed.

Lemma check_tags_None `{RangeOrder} cfg now s tags :
  Manager.check_tags cfg now s tags = None <->
  forall t, t ∈ tags -> exists a, a ∈ ants_of (antByTag s) t /\ Manager.tag_ant_ok cfg now s a = true.
Proof.
  induction tags as [|t tags IH]; cbn.
  - split; [|done]. intros _ t Ht. by apply not_elem_of_nil in Ht.
  - setoid_rewrite elem_of_cons. setoid_rewrite <- elem_of_range_set.
    setoid_rewrite <- elem_of_range_set in IH.
    assert (existsb (Manager.tag_ant_ok cfg now s) (range_set (ants_of (antByTag s) t)) = true <->
      exists a, a ∈ range_set (ants_of (antByTag s) t) /\ Manager.tag_ant_ok cfg now s a = true) as HE.
    { rewrite existsb_exists. by setoid_rewrite list_elem_of_In. }
    destruct (range_set (ants_of (antByTag s) t)) as [|a l] eqn:El.
    + split; [done|]. intros HA. destruct (HA t ltac:(auto)) as (a & Ha & _).
      rewrite El in Ha. by apply not_elem_of_nil in Ha.
    + change (orb ?x (existsb ?f ?k)) with (existsb f (a :: k)).
      destruct (existsb _ (a :: l)); [rewrite IH|].
      * split; [|naive_solver]. intros HA t' [->|?]; [rewrite El; tauto|auto].
      * split; [done|]. intros HA. destruct (HA t ltac:(auto)) as (b & Hb & Hok).
        rewrite El in Hb. destruct HE as [_ HE]. discriminate HE; eauto.
Qed.

(** The admission check of a job accepts exactly when methods are given,
    each has a live ant that runs it, and each tag has a live ant with no more
    allocations than its capacity. *)
Theorem has_ants_for_job_iff (O : RangeOrder) cfg now (s : State) methods tags :
  Manager.HasAntsForJobTags cfg now s methods tags = None <->
  methods <> [] /\
  (forall m, m ∈ methods -> exists a r, a ∈ ants_of (antByMethod s) m /\
     antRegistrations s !! a = Some r /\
     Supports now r m [] (Manager.AntRegistrationAliveTimeout cfg) = true) /\
  (forall t, t ∈ tags -> exists a r allocs, a ∈ ants_of (antByTag s) t /\
     antRegistrations s !! a = Some r /\ allocationsByAnt s !! a = Some allocs /\
     IsAlive now r (Manager.AntRegistrationAliveTimeout cfg) = true /\
     Z.of_nat (size allocs) <= MaxCapacity r).
Proof.
  assert (forall a, Manager.tag_ant_ok cfg now s a = true <-> exists r allocs,
     antRegistrations s !! a = Some r /\ allocationsByAnt s !! a = Some allocs /\
     IsAlive now r (Manager.AntRegistrationAliveTimeout cfg) = true /\
     Z.of_nat (size allocs) <= MaxCapacity r) as Hok.
  { intros a. unfold Manager.tag_ant_ok, getRegistrationByAnt, getAllocationsByAnt.
    destruct (antRegistrations s !! a), (allocationsByAnt s !! a); go_bool; naive_solver. }
  setoid_rewrite <- liveCount_zero. unfold Manager.HasAntsForJobTags.
  destruct methods as [|m0 methods]; [naive_solver|].
  destruct (Manager.check_methods cfg now s (m0 :: methods)) eqn:EM.
  - split; [done|]. intros (_ & HA & _). apply check_methods_None in HA. congruence.
  - cbv iota. rewrite check_methods_None in EM. rewrite check_tags_None. setoid_rewrite Hok. naive_solver.
Qed.

(** ** From registration to reservation *)

Lemma EqualFold_refl (t : string) : EqualFold t t = true.
Proof. apply eqb_string_refl. Qed.

Lemma MatchTags_subset (tags wanted : list string) :
  (forall t, t ∈ wanted -> TrimSpace t <> "" -> t ∈ tags) ->
  (wanted = [] \/ exists t, t ∈ wanted /\ TrimSpace t <> "") ->
  MatchTagsArray tags wanted = None.
Proof.
  intros Hsub Hw. unfold MatchTagsArray. destruct wanted as [|w wanted]; [by destruct tags|].
  destruct Hw as [|(t & Ht & Hb)]; [done|]. pose proof (Hsub t Ht Hb) as Hin.
  destruct tags as [|g tags]; [by apply not_elem_of_nil in Hin|].
  apply match_each_None. intros u Hu Hbu. exists u. split; [by apply Hsub|apply EqualFold_refl].
Qed.

Lemma fresh_alive now r timeout :
  0 <= timeout -> callback_ok r now = true -> IsAlive now (set_ReceivedAt r now) timeout = true.
Proof.
  intros Ht Hc. unfold IsAlive, elapsed, callback_ok in *. cbn.
  rewrite Z.sub_diag. change (wrap64 (wrap64 0 * second)) with 0.
  destruct (Z.ltb_spec timeout 0); [lia|]. by rewrite Hc.
Qed.

(** An ant that has just registered is available at once: a task whose
    method it runs and whose tags it lists (at least one tag that is not blank,
    or no tags) can be reserved, on that ant or on a less loaded one, unless an
    ant has reported an allocation without task types for the request. *)
Theorem registered_ant_is_available (O : RangeOrder) cfg now (s s1 : State) (r : AntRegistration) known q t m tags dry :
  Manager.reachable cfg s -> Manager.Register now s r = Some (s1, known) ->
  (forall a, ~ nil_types s1 a q) -> 0 <= Manager.AntRegistrationAliveTimeout cfg ->
  callback_ok r now = true -> m ∈ Methods r ->
  (forall t, t ∈ tags -> TrimSpace t <> "" -> t ∈ reg_Tags r) ->
  (tags = [] \/ exists t, t ∈ tags /\ TrimSpace t <> "") ->
  exists res s', reserve now (Manager.AntRegistrationAliveTimeout cfg) s1 q t m tags dry = Return (res, s').
Proof.
  intros Hs ER Hnil Hto Hc Hm Hsub Hw.
  assert (wf s1) as Hs1 by (eapply addRegistration_wf; [by apply (Manager.reachable_wf cfg)|exact ER]).
  assert (antRegistrations s1 !! AntID r = Some (set_ReceivedAt r now)) as Hr.
  { unfold Manager.Register, addRegistration in ER. destruct (merge_allocations _ _); [|done].
    injection ER as <- _. rewrite updateAntsByTags_index, updateAntsByMethods_index. cbn. by simplify_map_eq. }
  assert (tags_present s1 tags /\ eligible now (Manager.AntRegistrationAliveTimeout cfg) s1 m tags (AntID r))
    as [Hp He].
  { pose proof (fun u => wf_tag_complete s1 Hs1 _ _ u Hr) as HT. cbn in HT. split; [|split_and!].
    - intros u Hu Hb. specialize (HT u (Hsub u Hu Hb)). set_solver.
    - by eapply (wf_method_complete s1 Hs1).
    - destruct Hw as [|(u & Hu & Hb)]; [by left|right]. exists u. eauto.
    - exists (set_ReceivedAt r now). split; [done|]. apply Supports_spec. split_and!; [|done|].
      + by apply fresh_alive.
      + by apply MatchTags_subset. }
  pose proof (reserve_cases now (Manager.AntRegistrationAliveTimeout cfg) s1 q t m tags dry Hs1) as HC.
  destruct (reserve _ _ s1 q t m tags dry) as [[res s']|e|]; [eauto|naive_solver|].
  destruct HC as (_ & _ & a & _ & Ha). by apply Hnil in Ha.
Qed.

(** ** A concrete server *)
Module Demo.
Import Manager.

Definition cfg : JobsConfig := mkJobsConfig (60 * second) (3600 * second).
Definition ant (id : string) (methods tags : list string) : AntRegistration :=
  mkAntRegistration id ("topic-" +:+ id) "" 2 tags methods 0 0 ∅ 0 None.
Definition a1 : AntRegistration := ant "a1" ["SHELL"] ["x"].
Definition a2 : AntRegistration := ant "a2" ["DOCKER"] ["y"].
Definition registered (a : AntRegistration) (s : State) : State :=
  match Register 100 s a with Some (s', _) => s' | None => s end.
Definition s1 : State := registered a1 NewState.
Definition s2 : State := registered a2 s1.

(** Two tasks of request "q" on two ants. *)
Definition r1 := Reserve cfg 101 s2 "q" "build" "SHELL" ["x"].
Definition s3 : State := match r1 with Return (_, s) => s | _ => s2 end.
Definition res1 : AntReservation :=
  match r1 with Return (r, _) => r | _ => NewAntReservation 0 "" "" "" "" "" 0 0 end.
Definition r2 := Reserve cfg 102 s3 "q" "test" "DOCKER" [].
Definition s4 : State := match r2 with Return (_, s) => s | _ => s3 end.
(** The first task is done; then the job is. *)
Definition s5 : State := release s4 res1.
Definition s6 : State := releaseJob s5 "q".

Lemma reachable_s2 : reachable cfg s2.
Proof.
  eapply rtc_l; [apply (step_register cfg map_to_list_order 100 NewState a1 s1 true); vm_compute; reflexivity|].
  eapply rtc_l; [apply (step_register cfg map_to_list_order 100 s1 a2 s2 true); vm_compute; reflexivity|].
  reflexivity.
Qed.

Lemma r1_eq : r1 = Return (res1, s3).
Proof. vm_compute. reflexivity. Qed.

Lemma r2_eq : exists res, r2 = Return (res, s4).
Proof. eexists. vm_compute. reflexivity. Qed.

Lemma reachable_s4 : reachable cfg s4.
Proof.
  eapply rtc_r; [eapply rtc_r; [apply reachable_s2|]|].
  - eapply (step_reserve cfg _ 101 s2 "q" "build" "SHELL" ["x"]). apply r1_eq.
  - destruct r2_eq as [res Hr]. eapply (step_reserve cfg _ 102 s3 "q" "test" "DOCKER" []). apply Hr.
Qed.

Lemma reachable_s6 : reachable cfg s6.
Proof.
  eapply rtc_r; [eapply rtc_r; [apply reachable_s4|]|].
  - apply (step_release cfg s4 (Some res1)). vm_compute. reflexivity.
  - apply (step_release_job cfg _ s5 "q").
Qed.

End Demo.
Import Demo.

(** Releasing one task of a job that holds two ants makes the manager
    forget the other ant: when the job ends and is released, the other ant's
    allocation for the finished request stays, so its load never drops to
    zero (it waits for the reservation timeout). *)
Theorem release_then_release_job_leaks :
  Manager.reachable cfg s6 /\ load_of s4 "a1" = 1 /\ load_of s4 "a2" = 1 /\
  load_of s6 "a1" = 0 /\ load_of s6 "a2" = 1 /\ antsByRequest s6 !! "q" = None.
Proof. split; [apply reachable_s6|]. vm_compute. repeat split. Qed.

Lemma reachable_states_consistent_witness : Manager.reachable cfg s4 /\ wf s4.
Proof. split; [apply reachable_s4|apply (reachable_states_consistent cfg), reachable_s4]. Defined.

(** An ant registers with an allocation of request "q" that names no task
    types; the next task of the request that is reserved on it panics. *)
Definition careless : AntRegistration :=
  mkAntRegistration "a3" "topic-a3" "" 2 [] ["SHELL"] 0 0
    {["q" := Some (mkAntAllocation "q" None "a3" "topic-a3" 100 100)]} 0 None.
Definition s_nil : State := registered careless NewState.

Lemma reachable_s_nil : Manager.reachable cfg s_nil.
Proof.
  eapply rtc_l; [apply (Manager.step_register cfg map_to_list_order 100 NewState careless s_nil true); vm_compute; reflexivity|].
  reflexivity.
Qed.

(** The panic can be reached: the third clause of C2 is no empty promise. *)
Theorem nil_task_types_panic :
  Manager.reachable cfg s_nil /\ reserve 101 (60 * second) s_nil "q" "build" "SHELL" [] false = Panic.
Proof. split; [apply reachable_s_nil|]. vm_compute. reflexivity. Qed.

(** So does a registration whose allocation is [null]. *)
Example nil_allocation_panics :
  Manager.Register 100 NewState (mkAntRegistration "a4" "" "" 2 [] ["SHELL"] 0 0 {["q" := None]} 0 None) = None.
Proof. vm_compute. reflexivity. Qed.

Lemma reserve_fails_iff_witness :
  Manager.reachable cfg s_nil /\ Manager.reachable cfg s2 /\
  (exists a, least_loaded 101 (60 * second) s_nil "SHELL" [] a /\ nil_types s_nil a "q") /\
  ~ (tags_present s2 ["z"] /\ exists a, eligible 101 (60 * second) s2 "SHELL" ["z"] a).
Proof.
  split; [apply reachable_s_nil|]. split; [apply reachable_s2|]. split.
  - apply (reserve_fails_iff map_to_list_order cfg s_nil 101 "q" "build" "SHELL" [] false reachable_s_nil).
    vm_compute. reflexivity.
  - apply (reserve_fails_iff map_to_list_order cfg s2 101 "q" "build" "SHELL" ["z"] false reachable_s2).
    eexists. vm_compute. reflexivity.
Defined.

Lemma reserve_picks_least_loaded_witness :
  wf s2 /\ r1 = Return (res1, s3) /\ eligible 101 (60 * second) s2 "SHELL" ["x"] (res_AntID res1).
Proof.
  pose proof (Manager.reachable_wf _ _ reachable_s2) as Hs.
  split_and!; [done|apply r1_eq|].
  apply (reserve_picks_least_loaded map_to_list_order 101 (60 * second) s2 "q" "build" "SHELL" ["x"]
           res1 s3 Hs r1_eq).
Defined.

Lemma release_undoes_reserve_witness :
  wf s2 /\ r1 = Return (res1, s3) /\ not_reserved s2 (res_AntID res1) "q" "build" /\
  allocationsByAnt (release s3 res1) = allocationsByAnt s2.
Proof.
  pose proof (Manager.reachable_wf _ _ reachable_s2) as Hs.
  assert (not_reserved s2 (res_AntID res1) "q" "build") as Hn.
  { intros allocs al Ha Hq. vm_compute in Ha. injection Ha as <-. vm_compute in Hq. discriminate Hq. }
  split_and!; [done|apply r1_eq|done|].
  apply (release_undoes_reserve map_to_list_order 101 (60 * second) s2 "q" "build" "SHELL" ["x"]
           res1 s3 Hs r1_eq Hn).
Defined.

Lemma new_tracked q : tracked s2 q.
Proof.
  assert (map_Forall (fun _ (m : gmap string AntAllocation) => m = ∅) (allocationsByAnt s2)) as HE.
  { refine (bool_decide_unpack _ _). vm_compute. exact I. }
  intros a allocs Ha [al Hq]. apply HE in Ha as ->. by rewrite lookup_empty in Hq.
Qed.

Lemma release_job_frees_request_witness :
  wf s4 /\ tracked s4 "q" /\ antsByRequest s4 !! "q" <> None /\
  antsByRequest (releaseJob s4 "q") = delete "q" (antsByRequest s4).
Proof.
  pose proof (Manager.reachable_wf _ _ reachable_s2) as Hs2.
  pose proof (Manager.reachable_wf _ _ reachable_s4) as Hs4.
  assert (wf s3) as Hs3 by (eapply Manager.doReserve_wf; [apply Hs2|apply r1_eq]).
  destruct r2_eq as [res Hr].
  assert (tracked s4 "q") as Ht.
  { eapply (reserve_tracked _ 102 _ s3); [done|exact Hr|].
    eapply (reserve_tracked _ 101 _ s2); [done|exact r1_eq|apply new_tracked]. }
  assert (antsByRequest s4 !! "q" <> None) as Hq by (vm_compute; discriminate).
  split; [done|]. split; [done|]. split; [done|].
  apply (release_job_frees_request map_to_list_order s4 "q" Hs4 Ht Hq).
Defined.

(** A job of two tasks, the second of which no ant can run. *)
#[local] Instance pair_spec : TaskSpec (string * string) :=
  {| task_type := fst; task_method := snd; task_tags := fun _ => [] |}.

Lemma failed_job_reservation_rolls_back_witness :
  exists e m s', Manager.ReserveJobResources cfg 101 s2 "q" [("build", "SHELL"); ("deploy", "KUBERNETES")]
    = Error (e, m, s') /\ allocationsByAnt s' = allocationsByAnt s2 /\ m <> ∅.
Proof.
  pose proof (Manager.reachable_wf _ _ reachable_s2) as Hs.
  assert (forall a allocs, allocationsByAnt s2 !! a = Some allocs -> allocs !! "q" = None) as Hno.
  { intros a allocs Ha. apply eq_None_not_Some. intros Hq.
    pose proof (new_tracked "q" a allocs Ha Hq) as Hin. vm_compute in Hin.
    discriminate Hin. }
  destruct (Manager.ReserveJobResources cfg 101 s2 "q" [("build", "SHELL"); ("deploy", "KUBERNETES")])
    as [x|[[e m] s']|] eqn:E; [by vm_compute in E| |by vm_compute in E].
  exists e, m, s'. split; [done|]. split.
  - apply (failed_job_reservation_rolls_back map_to_list_order _ pair_spec cfg 101 s2 "q"
             [("build", "SHELL"); ("deploy", "KUBERNETES")] e m s' Hs eq_refl Hno E).
  - vm_compute in E. injection E as <- <- <-. done.
Defined.

Lemma reaper_keeps_live_ants_witness :
  wf s2 /\ antRegistrations (fst (Manager.reapStaleAnts cfg 1000 s2)) !! "a1" = None.
Proof.
  pose proof (Manager.reachable_wf _ _ reachable_s2) as Hs. split; [done|].
  rewrite (reaper_keeps_live_ants map_to_list_order cfg 1000 s2 "a1" Hs). vm_compute. reflexivity.
Defined.

Definition s2' : State := match Manager.Register 200 s2 a1 with Some (s', _) => s' | None => s2 end.

Lemma no_nil_types a : ~ nil_types s2' a "q".
Proof.
  assert (map_Forall (fun _ (m : gmap string AntAllocation) => m = ∅) (allocationsByAnt s2')) as HE.
  { refine (bool_decide_unpack _ _). vm_compute. exact I. }
  intros (allocs & al & Ha & Hq & _). apply HE in Ha as ->. by rewrite lookup_empty in Hq.
Qed.

Lemma registered_ant_is_available_witness :
  exists res s', reserve 200 (60 * second) s2' "q" "t" "SHELL" ["x"; " "] false
    = Return (res, s').
Proof.
  apply (registered_ant_is_available map_to_list_order cfg 200 s2 s2' a1 false "q" "t" "SHELL" ["x"; " "] false
           reachable_s2); [vm_compute; reflexivity|apply no_nil_types|done|done|apply list_elem_of_here| |].
  - intros t [->|[->|[]%not_elem_of_nil]%elem_of_cons]%elem_of_cons; [|done]. intros _. apply list_elem_of_here.
  - right. exists "x". split; [apply list_elem_of_here|done].
Defined.
