(* ===== verification/JobDefinition.v ===== *)
(** * JobDefinition: job and task definitions

    Models [src/queen/types/job_definition.go], [task_definition.go],
    [trigger_definition.go] and [src/internal/types/fan_out_config.go],
    [job_notify_config.go]: the validation of a job (task exit codes, targets
    of tasks, first task), the choice of the next task from the outcome of a
    task, the override of a task's status by its exit code, retention, retry
    delays and versions.

    A definition is a value: [Validate] returns the updated definition, and its
    error is the entry it leaves in the [Errors] map.  The task found in
    [lookupTasks] is the task object of the [Tasks] slice as it is when
    validation ends.  Cron expressions and e-mail patterns are matched by
    libraries; they are arguments of the definitions that use them. *)

From S2P Require Import Prelude RequestState Tags Resource.
From Stdlib Require Import Ascii String.
From Stdlib Require QArith.QArith_base.

Open Scope Z_scope.

Definition too_long (s : string) (n : nat) : bool := (n <? String.length s)%nat.
Arguments too_long : simpl never.

(** ** Fan-out configuration *)
Module FanOut.

Record FanOutConfig := mkFanOutConfig {
  Source : string;
  ItemVar : string;
  MaxParallel : Z;
  FailFast : bool;
  ExecutionMethod : TaskMethod;
  ForkJobType : string;
  ForkJobVersion : string;
  RawScript : list string;
  RawBeforeScript : list string;
  RawAfterScript : list string
}.

Inductive fan_out_error :=
| SourceRequired | SourceTooLong | ItemVarRequired | ItemVarTooLong | MaxParallelNegative
| ForkJobTypeTooLong.

(** A nil configuration is valid. *)
Definition IsJobFanOut (f : option FanOutConfig) : bool :=
  match f with Some f => ForkJobType f != "" | None => false end.

Definition Validate (f : option FanOutConfig) : option fan_out_error :=
  match f with
  | None => None
  | Some f =>
      if Source f == "" then Some SourceRequired
      else if too_long (Source f) 200 then Some SourceTooLong
      else if ItemVar f == "" then Some ItemVarRequired
      else if too_long (ItemVar f) 100 then Some ItemVarTooLong
      else if MaxParallel f <? 0 then Some MaxParallelNegative
      else if too_long (ForkJobType f) 200 then Some ForkJobTypeTooLong
      else None
  end.

Definition set_ExecutionMethod (f : FanOutConfig) (m : TaskMethod) : FanOutConfig :=
  mkFanOutConfig (Source f) (ItemVar f) (MaxParallel f) (FailFast f) m (ForkJobType f)
    (ForkJobVersion f) (RawScript f) (RawBeforeScript f) (RawAfterScript f).

End FanOut.

(** ** Notifications *)
Module Notify.

Definition EmailChannel : string := "email".
Definition SlackChannel : string := "slack".
Definition NotifyWhenOnSuccess : string := "onSuccess".
Definition NotifyWhenOnFailure : string := "onFailure".
Definition NotifyWhenAlways : string := "always".
Definition NotifyWhenNever : string := "never".

Record JobNotifyConfig := mkJobNotifyConfig { Recipients : list string; When : string }.

Definition Accept (w : string) (state lastState : RequestState) : bool :=
  if (w == "") || (w == NotifyWhenNever) then true
  else (w == NotifyWhenAlways)
       || (State.Completed state && (w == NotifyWhenOnSuccess))
       || (State.Failed state && (w == NotifyWhenOnFailure))
       || (State.Completed state && (w == NotifyWhenOnFailure) && State.Failed lastState).

Inductive email_error := EmailMissing | EmailInvalid.

(** [MatchEmail] is the match of the code's e-mail pattern. *)
Fixpoint ValidateEmail_loop (MatchEmail : string -> bool) (recipients : list string)
    : option email_error :=
  match recipients with
  | [] => None
  | email :: rest =>
      if email == "" then Some EmailMissing
      else if negb (MatchEmail email) then Some EmailInvalid
      else ValidateEmail_loop MatchEmail rest
  end.
Definition ValidateEmail (MatchEmail : string -> bool) (c : JobNotifyConfig) : option email_error :=
  ValidateEmail_loop MatchEmail (Recipients c).

End Notify.

(** ** Triggers *)
Module Trigger.

Record TriggerAuth := mkTriggerAuth { AuthMethod : string; SecretConfig : string; Header : string }.
Record TriggerRateLimit := mkTriggerRateLimit { Max : Z; Window : Z }.
Record TriggerDefinition := mkTriggerDefinition {
  Type_ : string;
  Name : string;
  Path : string;
  Auth : option TriggerAuth;
  Mode : string;
  Bucket : string;
  Prefix : string;
  Suffix : string;
  PollInterval : Z;
  Topic : string;
  Group : string;
  Shared : bool;
  Params : gmap string string;
  Filter : string;
  DedupKey : string;
  RateLimit : option TriggerRateLimit
}.

Inductive trigger_error :=
| NameRequired | AuthMethodRequired | SecretConfigRequired | BucketRequired | BadMode
| NotificationTopicRequired | QueueTopicRequired | BadType | RateLimitMax | RateLimitWindow.

Definition check_type (t : TriggerDefinition) : option trigger_error :=
  if Type_ t == "webhook" then
    match Auth t with
    | Some a => if AuthMethod a == "" then Some AuthMethodRequired
                else if SecretConfig a == "" then Some SecretConfigRequired else None
    | None => None
    end
  else if Type_ t == "s3" then
    if Bucket t == "" then Some BucketRequired
    else if (Mode t != "") && (Mode t != "poll") && (Mode t != "notification") then Some BadMode
    else if (Mode t == "notification") && (Topic t == "") then Some NotificationTopicRequired
    else None
  else if Type_ t == "queue" then
    if Topic t == "" then Some QueueTopicRequired else None
  else Some BadType.

Definition Validate (t : TriggerDefinition) : option trigger_error :=
  if Name t == "" then Some NameRequired
  else match check_type t with
       | Some e => Some e
       | None =>
           match RateLimit t with
           | Some r => if Max r <=? 0 then Some RateLimitMax
                       else if Window r <=? 0 then Some RateLimitWindow else None
           | None => None
           end
       end.

End Trigger.

(** ** Retry policies *)

(** The exponential back-off of a policy is computed by a library. *)
Record BackoffPolicy := mkBackoffPolicy { Min : Z; Max : Z; Factor : QArith_base.Q; Jitter : bool }.

(** A delay that is not configured is drawn at random ([None]: the source of
    randomness failed); the drawn delay is kept for later calls. *)
Definition delay_or_random (current : Z) (random : option Z) (base fallback : Z) : Z :=
  if current <=? 0
  then match random with Some n => Ants.second * (n + base) | None => Ants.second * fallback end
  else current.

(** The policy in use, if any: one with a positive minimum. *)
Definition active_policy (p : option BackoffPolicy) : option BackoffPolicy :=
  match p with Some bp => if 0 <? Min bp then Some bp else None | None => None end.

(** ** Tasks *)
Module Task.

(** The fields of a task definition that the queen's logic reads.  A nil
    [OnExitCode] is the empty map, which every use treats alike. *)
Record TaskDefinition := mkTaskDefinition {
  TaskType : string;
  Method : TaskMethod;
  Description : string;
  HostNetwork : string;
  AllowFailure : bool;
  AllowStartIfCompleted : bool;
  AlwaysRun : bool;
  Timeout : Z;
  Retry : Z;
  DelayBetweenRetries : Z;
  RetryBackoffPolicy : option BackoffPolicy;
  OnExitCodeSerialized : string;
  OnExitCode : gmap string string;
  OnCompleted : string;
  OnFailed : string;
  TaskOrder : Z;
  ReportStdout : bool;
  Tags : list string;
  Except : string;
  FanOut : option FanOut.FanOutConfig
}.

Definition NewTaskDefinition (taskType : string) (method : TaskMethod) : TaskDefinition :=
  mkTaskDefinition taskType method "" "" false false false 0 0 0 None "" ∅ "" "" 0 false [] "" None.

(** Assignments to fields. *)
Definition set_Method (td : TaskDefinition) (x : TaskMethod) : TaskDefinition :=
  mkTaskDefinition (TaskType td) x (Description td) (HostNetwork td) (AllowFailure td)
    (AllowStartIfCompleted td) (AlwaysRun td) (Timeout td) (Retry td) (DelayBetweenRetries td)
    (RetryBackoffPolicy td) (OnExitCodeSerialized td) (OnExitCode td) (OnCompleted td)
    (OnFailed td) (TaskOrder td) (ReportStdout td) (Tags td) (Except td) (FanOut td).
Definition set_Tags (td : TaskDefinition) (x : list string) : TaskDefinition :=
  mkTaskDefinition (TaskType td) (Method td) (Description td) (HostNetwork td) (AllowFailure td)
    (AllowStartIfCompleted td) (AlwaysRun td) (Timeout td) (Retry td) (DelayBetweenRetries td)
    (RetryBackoffPolicy td) (OnExitCodeSerialized td) (OnExitCode td) (OnCompleted td)
    (OnFailed td) (TaskOrder td) (ReportStdout td) x (Except td) (FanOut td).
Definition set_OnExitCode (td : TaskDefinition) (x : gmap string string) : TaskDefinition :=
  mkTaskDefinition (TaskType td) (Method td) (Description td) (HostNetwork td) (AllowFailure td)
    (AllowStartIfCompleted td) (AlwaysRun td) (Timeout td) (Retry td) (DelayBetweenRetries td)
    (RetryBackoffPolicy td) (OnExitCodeSerialized td) x (OnCompleted td) (OnFailed td)
    (TaskOrder td) (ReportStdout td) (Tags td) (Except td) (FanOut td).
Definition set_OnExitCodeSerialized (td : TaskDefinition) (x : string) : TaskDefinition :=
  mkTaskDefinition (TaskType td) (Method td) (Description td) (HostNetwork td) (AllowFailure td)
    (AllowStartIfCompleted td) (AlwaysRun td) (Timeout td) (Retry td) (DelayBetweenRetries td)
    (RetryBackoffPolicy td) x (OnExitCode td) (OnCompleted td) (OnFailed td) (TaskOrder td)
    (ReportStdout td) (Tags td) (Except td) (FanOut td).
Definition set_FanOut (td : TaskDefinition) (x : option FanOut.FanOutConfig) : TaskDefinition :=
  mkTaskDefinition (TaskType td) (Method td) (Description td) (HostNetwork td) (AllowFailure td)
    (AllowStartIfCompleted td) (AlwaysRun td) (Timeout td) (Retry td) (DelayBetweenRetries td)
    (RetryBackoffPolicy td) (OnExitCodeSerialized td) (OnExitCode td) (OnCompleted td)
    (OnFailed td) (TaskOrder td) (ReportStdout td) (Tags td) (Except td) x.
Definition set_TaskOrder (td : TaskDefinition) (x : Z) : TaskDefinition :=
  mkTaskDefinition (TaskType td) (Method td) (Description td) (HostNetwork td) (AllowFailure td)
    (AllowStartIfCompleted td) (AlwaysRun td) (Timeout td) (Retry td) (DelayBetweenRetries td)
    (RetryBackoffPolicy td) (OnExitCodeSerialized td) (OnExitCode td) (OnCompleted td)
    (OnFailed td) x (ReportStdout td) (Tags td) (Except td) (FanOut td).
Definition set_DelayBetweenRetries (td : TaskDefinition) (x : Z) : TaskDefinition :=
  mkTaskDefinition (TaskType td) (Method td) (Description td) (HostNetwork td) (AllowFailure td)
    (AllowStartIfCompleted td) (AlwaysRun td) (Timeout td) (Retry td) x (RetryBackoffPolicy td)
    (OnExitCodeSerialized td) (OnExitCode td) (OnCompleted td) (OnFailed td) (TaskOrder td)
    (ReportStdout td) (Tags td) (Except td) (FanOut td).

(** Reading a missing exit code yields the empty string. *)
Definition exit_target (td : TaskDefinition) (code : RequestState) : string :=
  default "" (OnExitCode td !! code).

Definition IsExcept (td : TaskDefinition) : bool := Contains (Except td) "true".

Definition HasNext (td : TaskDefinition) : bool :=
  (0 <? size (OnExitCode td))%nat || (OnCompleted td != "") || (OnFailed td != "").

Definition AddExitCode (td : TaskDefinition) (status task : string) : TaskDefinition :=
  set_OnExitCode td (<[State.NewRequestState status := task]> (OnExitCode td)).

Inductive task_error :=
| TaskTypeMissing
| MethodUnsupported (method : TaskMethod) (taskType : string)
| TaskTypeTooBig | DescriptionTooBig | HostNetworkTooBig
| FanOutInvalid (e : FanOut.fan_out_error).

(** [Validate]: the default method is KUBERNETES, tags are lower-cased and a
    fan-out task is rerouted to the FAN_OUT_JOB method. *)
Definition Validate (td : TaskDefinition) : task_error + TaskDefinition :=
  if TaskType td == "" then inl TaskTypeMissing
  else
    let td := if Method td == "" then set_Method td Method.Kubernetes else td in
    if negb (Method.IsValid (Method td)) then inl (MethodUnsupported (Method td) (TaskType td))
    else
      let td := set_Tags td (map ToLower (Tags td)) in
      if too_long (TaskType td) 100 then inl TaskTypeTooBig
      else if too_long (Description td) 500 then inl DescriptionTooBig
      else if too_long (HostNetwork td) 100 then inl HostNetworkTooBig
      else match FanOut td with
           | None => inr td
           | Some f =>
               let f := if FanOut.ExecutionMethod f == ""
                        then FanOut.set_ExecutionMethod f (Method td) else f in
               match FanOut.Validate (Some f) with
               | Some e => inl (FanOutInvalid e)
               | None => inr (set_Method (set_FanOut td (Some f)) Method.FanOutJob)
               end
           end.

(** Storing every code of a map in upper case. *)
Definition upper_codes `{RangeOrder} (m : gmap string string) (l : list (string * string))
    : gmap string string :=
  foldl (fun m '(k, v) => <[State.NewRequestState k := v]> m) m l.

(** [LoadOnExitCode]: from the serialized codes if there are any ([json] is the
    JSON library; [None] is its error), else the codes of the map are added in
    upper case; then the completion and failure targets are set. *)
Definition LoadOnExitCode `{RangeOrder} (json : string -> option (gmap string string))
    (td : TaskDefinition) : option TaskDefinition :=
  let loaded :=
    if (0 <? String.length (OnExitCodeSerialized td))%nat
    then option_map (fun m => upper_codes ∅ (range m)) (json (OnExitCodeSerialized td))
    else Some (upper_codes (OnExitCode td) (range (OnExitCode td))) in
  option_map (fun m =>
    let m := if OnCompleted td != "" then <[State.COMPLETED := OnCompleted td]> m else m in
    let m := if OnFailed td != "" then <[State.FAILED := OnFailed td]> m else m in
    set_OnExitCode td m) loaded.

(** [SaveOnExitCode], with the JSON library as an argument. *)
Definition SaveOnExitCode (marshal : gmap string string -> string) (td : TaskDefinition)
    : TaskDefinition :=
  set_OnExitCodeSerialized td
    (if (0 <? size (OnExitCode td))%nat then marshal (OnExitCode td) else "").

(** [OverrideStatusAndErrorCode]: the empty status means no override. *)
Definition OverrideStatusAndErrorCode (td : TaskDefinition) (exitCode : string)
    : RequestState * string :=
  if (size (OnExitCode td) =? 0)%nat then ("", "")
  else
    let target := exit_target td (State.NewRequestState exitCode) in
    let targetState := State.NewRequestState target in
    if targetState == State.FATAL then (State.FAILED, ErrorCodes.ErrorFatal)
    else if targetState == State.FAILED then (State.FAILED, "")
    else if targetState == State.COMPLETED then (State.COMPLETED, "")
    else if targetState == State.EXECUTING then (State.EXECUTING, "")
    else if targetState == State.RESTART_JOB then (State.FAILED, ErrorCodes.ErrorRestartJob)
    else if targetState == State.PAUSE_JOB then (State.PAUSED, ErrorCodes.ErrorPauseJob)
    else if targetState == State.WAIT_FOR_APPROVAL
         then (State.MANUAL_APPROVAL_REQUIRED, ErrorCodes.ErrorManualApprovalRequired)
    else if targetState == State.RESTART_TASK then (State.FAILED, ErrorCodes.ErrorRestartTask)
    else if HasPrefix target "ERR_" then (State.FAILED, target)
    else ("", "").

(** The delay before a retry: the back-off library ([ForAttempt]) when a policy
    is active, else the configured delay, else one or two seconds. *)
Definition GetDelayBetweenRetries (ForAttempt : BackoffPolicy -> Z -> Z) (random : option Z)
    (attempt : Z) (td : TaskDefinition) : Z * TaskDefinition :=
  match active_policy (RetryBackoffPolicy td) with
  | Some bp => (ForAttempt bp attempt, td)
  | None => let d := delay_or_random (DelayBetweenRetries td) random 1 2 in
            (d, set_DelayBetweenRetries td d)
  end.

(** Reserved names of variables. *)
Definition getReservedConfigProperties : list string :=
  ["headers"; "after_script"; "before_script"; "script"; "resources"; "required_params";
   "executor_options"; "tags"; "except"; "job_version"; "dependencies"; "artifact_ids"].
Definition isReservedConfigProperties (name : string) : bool :=
  existsb (fun reserved => reserved == name) getReservedConfigProperties.

End Task.

(** A task definition tells the resource manager what it needs. *)
#[export] Instance TaskDefinition_spec : TaskSpec Task.TaskDefinition :=
  {| task_type := Task.TaskType; task_method := Task.Method; task_tags := Task.Tags |}.

(** ** Jobs *)
Module Job.
Import Task.

(** The fields of a job definition that its methods read; configurations and
    variables are in the components that use them. *)
Record JobDefinition := mkJobDefinition {
  ID : string;
  JobType : string;
  SemVersion : string;
  URL : string;
  UserID : string;
  OrganizationID : string;
  jd_Description : string;
  Platform : string;
  CronTrigger : string;
  jd_Timeout : Z;
  PauseTime : Z;
  jd_Retry : Z;
  HardResetAfterRetries : Z;
  jd_DelayBetweenRetries : Z;
  jd_RetryBackoffPolicy : option BackoffPolicy;
  MaxConcurrency : Z;
  RetentionDaysForFailed : Z;
  RetentionDaysForCompleted : Z;
  RetentionDaysForCancelled : Z;
  Disabled : bool;
  PublicPlugin : bool;
  UsesTemplate : bool;
  jd_Tags : string;
  Methods : string;
  RawYaml : string;
  Tasks : list TaskDefinition;
  Notify : gmap string Notify.JobNotifyConfig;
  Triggers : list Trigger.TriggerDefinition;
  shouldSkip : string;
  lookupTasks : gmap string TaskDefinition
}.

Definition NewJobDefinition (jobType : string) : JobDefinition :=
  mkJobDefinition "" jobType "" "" "" "" "" "" "" 0 0 0 0 0 None 3 0 0 0 false false false "" "" ""
    [] ∅ [] "" ∅.

(** Assignments to fields. *)
Definition set_jd_Tags (jd : JobDefinition) (x : string) : JobDefinition :=
  mkJobDefinition (ID jd) (JobType jd) (SemVersion jd) (URL jd) (UserID jd) (OrganizationID jd)
    (jd_Description jd) (Platform jd) (CronTrigger jd) (jd_Timeout jd) (PauseTime jd)
    (jd_Retry jd) (HardResetAfterRetries jd) (jd_DelayBetweenRetries jd)
    (jd_RetryBackoffPolicy jd) (MaxConcurrency jd) (RetentionDaysForFailed jd)
    (RetentionDaysForCompleted jd) (RetentionDaysForCancelled jd) (Disabled jd)
    (PublicPlugin jd) (UsesTemplate jd) x (Methods jd) (RawYaml jd) (Tasks jd) (Notify jd)
    (Triggers jd) (shouldSkip jd) (lookupTasks jd).
Definition set_Methods (jd : JobDefinition) (x : string) : JobDefinition :=
  mkJobDefinition (ID jd) (JobType jd) (SemVersion jd) (URL jd) (UserID jd) (OrganizationID jd)
    (jd_Description jd) (Platform jd) (CronTrigger jd) (jd_Timeout jd) (PauseTime jd)
    (jd_Retry jd) (HardResetAfterRetries jd) (jd_DelayBetweenRetries jd)
    (jd_RetryBackoffPolicy jd) (MaxConcurrency jd) (RetentionDaysForFailed jd)
    (RetentionDaysForCompleted jd) (RetentionDaysForCancelled jd) (Disabled jd)
    (PublicPlugin jd) (UsesTemplate jd) (jd_Tags jd) x (RawYaml jd) (Tasks jd) (Notify jd)
    (Triggers jd) (shouldSkip jd) (lookupTasks jd).
Definition set_shouldSkip (jd : JobDefinition) (x : string) : JobDefinition :=
  mkJobDefinition (ID jd) (JobType jd) (SemVersion jd) (URL jd) (UserID jd) (OrganizationID jd)
    (jd_Description jd) (Platform jd) (CronTrigger jd) (jd_Timeout jd) (PauseTime jd)
    (jd_Retry jd) (HardResetAfterRetries jd) (jd_DelayBetweenRetries jd)
    (jd_RetryBackoffPolicy jd) (MaxConcurrency jd) (RetentionDaysForFailed jd)
    (RetentionDaysForCompleted jd) (RetentionDaysForCancelled jd) (Disabled jd)
    (PublicPlugin jd) (UsesTemplate jd) (jd_Tags jd) (Methods jd) (RawYaml jd) (Tasks jd)
    (Notify jd) (Triggers jd) x (lookupTasks jd).
Definition set_MaxConcurrency (jd : JobDefinition) (x : Z) : JobDefinition :=
  mkJobDefinition (ID jd) (JobType jd) (SemVersion jd) (URL jd) (UserID jd) (OrganizationID jd)
    (jd_Description jd) (Platform jd) (CronTrigger jd) (jd_Timeout jd) (PauseTime jd)
    (jd_Retry jd) (HardResetAfterRetries jd) (jd_DelayBetweenRetries jd)
    (jd_RetryBackoffPolicy jd) x (RetentionDaysForFailed jd) (RetentionDaysForCompleted jd)
    (RetentionDaysForCancelled jd) (Disabled jd) (PublicPlugin jd) (UsesTemplate jd)
    (jd_Tags jd) (Methods jd) (RawYaml jd) (Tasks jd) (Notify jd) (Triggers jd) (shouldSkip jd)
    (lookupTasks jd).
Definition set_UsesTemplate (jd : JobDefinition) (x : bool) : JobDefinition :=
  mkJobDefinition (ID jd) (JobType jd) (SemVersion jd) (URL jd) (UserID jd) (OrganizationID jd)
    (jd_Description jd) (Platform jd) (CronTrigger jd) (jd_Timeout jd) (PauseTime jd)
    (jd_Retry jd) (HardResetAfterRetries jd) (jd_DelayBetweenRetries jd)
    (jd_RetryBackoffPolicy jd) (MaxConcurrency jd) (RetentionDaysForFailed jd)
    (RetentionDaysForCompleted jd) (RetentionDaysForCancelled jd) (Disabled jd)
    (PublicPlugin jd) x (jd_Tags jd) (Methods jd) (RawYaml jd) (Tasks jd) (Notify jd)
    (Triggers jd) (shouldSkip jd) (lookupTasks jd).
Definition set_Tasks (jd : JobDefinition) (x : list TaskDefinition) : JobDefinition :=
  mkJobDefinition (ID jd) (JobType jd) (SemVersion jd) (URL jd) (UserID jd) (OrganizationID jd)
    (jd_Description jd) (Platform jd) (CronTrigger jd) (jd_Timeout jd) (PauseTime jd)
    (jd_Retry jd) (HardResetAfterRetries jd) (jd_DelayBetweenRetries jd)
    (jd_RetryBackoffPolicy jd) (MaxConcurrency jd) (RetentionDaysForFailed jd)
    (RetentionDaysForCompleted jd) (RetentionDaysForCancelled jd) (Disabled jd)
    (PublicPlugin jd) (UsesTemplate jd) (jd_Tags jd) (Methods jd) (RawYaml jd) x (Notify jd)
    (Triggers jd) (shouldSkip jd) (lookupTasks jd).
Definition set_lookupTasks (jd : JobDefinition) (x : gmap string TaskDefinition) : JobDefinition :=
  mkJobDefinition (ID jd) (JobType jd) (SemVersion jd) (URL jd) (UserID jd) (OrganizationID jd)
    (jd_Description jd) (Platform jd) (CronTrigger jd) (jd_Timeout jd) (PauseTime jd)
    (jd_Retry jd) (HardResetAfterRetries jd) (jd_DelayBetweenRetries jd)
    (jd_RetryBackoffPolicy jd) (MaxConcurrency jd) (RetentionDaysForFailed jd)
    (RetentionDaysForCompleted jd) (RetentionDaysForCancelled jd) (Disabled jd)
    (PublicPlugin jd) (UsesTemplate jd) (jd_Tags jd) (Methods jd) (RawYaml jd) (Tasks jd)
    (Notify jd) (Triggers jd) (shouldSkip jd) x.
Definition set_jd_DelayBetweenRetries (jd : JobDefinition) (x : Z) : JobDefinition :=
  mkJobDefinition (ID jd) (JobType jd) (SemVersion jd) (URL jd) (UserID jd) (OrganizationID jd)
    (jd_Description jd) (Platform jd) (CronTrigger jd) (jd_Timeout jd) (PauseTime jd)
    (jd_Retry jd) (HardResetAfterRetries jd) x (jd_RetryBackoffPolicy jd) (MaxConcurrency jd)
    (RetentionDaysForFailed jd) (RetentionDaysForCompleted jd) (RetentionDaysForCancelled jd)
    (Disabled jd) (PublicPlugin jd) (UsesTemplate jd) (jd_Tags jd) (Methods jd) (RawYaml jd)
    (Tasks jd) (Notify jd) (Triggers jd) (shouldSkip jd) (lookupTasks jd).
Definition set_PauseTime (jd : JobDefinition) (x : Z) : JobDefinition :=
  mkJobDefinition (ID jd) (JobType jd) (SemVersion jd) (URL jd) (UserID jd) (OrganizationID jd)
    (jd_Description jd) (Platform jd) (CronTrigger jd) (jd_Timeout jd) x (jd_Retry jd)
    (HardResetAfterRetries jd) (jd_DelayBetweenRetries jd) (jd_RetryBackoffPolicy jd)
    (MaxConcurrency jd) (RetentionDaysForFailed jd) (RetentionDaysForCompleted jd)
    (RetentionDaysForCancelled jd) (Disabled jd) (PublicPlugin jd) (UsesTemplate jd)
    (jd_Tags jd) (Methods jd) (RawYaml jd) (Tasks jd) (Notify jd) (Triggers jd) (shouldSkip jd)
    (lookupTasks jd).

Definition Editable (jd : JobDefinition) (userID organizationID : string) : bool :=
  if (OrganizationID jd != "") || (organizationID != "")
  then OrganizationID jd == organizationID
  else UserID jd == userID.

Definition Enabled (jd : JobDefinition) : bool := negb (Disabled jd).

Definition getUserJobTypeKey (organizationID userID jobType jobVersion : string) : string :=
  if organizationID == "" then userID +:+ "-" +:+ jobType +:+ ":" +:+ jobVersion
  else organizationID +:+ "-" +:+ jobType +:+ ":" +:+ jobVersion.
Definition GetUserJobTypeKey (jd : JobDefinition) : string :=
  getUserJobTypeKey (OrganizationID jd) (UserID jd) (JobType jd) (SemVersion jd).

Definition JobTypeAndVersion (jd : JobDefinition) : string :=
  if SemVersion jd == "" then JobType jd else JobType jd +:+ ":" +:+ SemVersion jd.

Definition ShortUserID (jd : JobDefinition) : string :=
  if too_long (UserID jd) 8 then take_string 8 (UserID jd) +:+ "..." else UserID jd.
Definition ShortJobType (jd : JobDefinition) : string :=
  if too_long (JobType jd) 12 then take_string 12 (JobType jd) +:+ "..." else JobType jd.

Definition TaskNames (jd : JobDefinition) : string :=
  foldl (fun b t => b +:+ TaskType t +:+ " ") "" (Tasks jd).

(** *** Delays *)
Definition GetDelayBetweenRetries (ForAttempt : BackoffPolicy -> Z -> Z) (random : option Z)
    (attempt : Z) (jd : JobDefinition) : Z * JobDefinition :=
  match active_policy (jd_RetryBackoffPolicy jd) with
  | Some bp => (ForAttempt bp attempt, jd)
  | None => let d := delay_or_random (jd_DelayBetweenRetries jd) random 5 10 in
            (d, set_jd_DelayBetweenRetries jd d)
  end.

Definition GetPauseTime (random : option Z) (jd : JobDefinition) : Z * JobDefinition :=
  let d := delay_or_random (PauseTime jd) random 30 30 in (d, set_PauseTime jd d).

(** *** Retention *)
Definition DefaultRetentionDaysForFailed : Z := 30.
Definition DefaultRetentionDaysForCompleted : Z := 7.
Definition DefaultRetentionDaysForCancelled : Z := 30.

Definition GetRetentionDays (jd : JobDefinition) (state : RequestState) : Z :=
  if state == State.FAILED then
    if 0 <? RetentionDaysForFailed jd then RetentionDaysForFailed jd else DefaultRetentionDaysForFailed
  else if state == State.COMPLETED then
    if 0 <? RetentionDaysForCompleted jd then RetentionDaysForCompleted jd
    else DefaultRetentionDaysForCompleted
  else if state == State.CANCELLED then
    if 0 <? RetentionDaysForCancelled jd then RetentionDaysForCancelled jd
    else DefaultRetentionDaysForCancelled
  else 0.

(** *** Versions *)
Inductive SemanticVersionType :=
| InvalidSemanticVersion | ValidSemanticVersion | ValidSemanticDevRcVersion.

Definition is_digit (c : ascii) : bool :=
  match digit_val c with Some _ => true | None => false end.
Fixpoint drop_digits (s : string) : string :=
  match s with
  | String c s' => if is_digit c then drop_digits s' else s
  | EmptyString => EmptyString
  end.
Definition drop_hyphen (s : string) : string :=
  match s with String c s' => if Ascii.eqb c "-" then s' else s | EmptyString => s end.
Fixpoint drop_string (n : nat) (s : string) : string :=
  match n, s with
  | S n, String _ s' => drop_string n s'
  | _, _ => s
  end.

(** The pattern [^\d*-?(dev|rc)-?\d*$]. *)
Definition numericDevRCPattern (s : string) : bool :=
  let s := drop_hyphen (drop_digits s) in
  if HasPrefix s "dev" then drop_digits (drop_hyphen (drop_string 3 s)) == ""
  else if HasPrefix s "rc" then drop_digits (drop_hyphen (drop_string 2 s)) == ""
  else false.

(** A version part that [Atoi] reads as a number that is not negative. *)
Definition numeric_part (p : string) : bool :=
  match Atoi p with Some n => 0 <=? n | None => false end.

Definition CheckSemVersion (jd : JobDefinition) : SemanticVersionType :=
  let ver := Split (SemVersion jd) "." in
  if (List.length ver <? 2)%nat then InvalidSemanticVersion
  else if negb (forallb numeric_part (removelast ver)) then InvalidSemanticVersion
  else let last := List.last ver "" in
       if numeric_part last then ValidSemanticVersion
       else if negb (numericDevRCPattern last) then InvalidSemanticVersion
       else ValidSemanticDevRcVersion.

(** The text before the first occurrence of [sub], when there is one. *)
Fixpoint before (s sub : string) : option string :=
  if HasPrefix s sub then Some EmptyString
  else match s with
       | EmptyString => None
       | String c s' => option_map (String c) (before s' sub)
       end.

(** The [%09d] verb on a number that is not negative. *)
Fixpoint zeros (n : nat) : string :=
  match n with O => EmptyString | S n => String "0" (zeros n) end.
Definition pad9 (n : Z) : string := zeros (9 - String.length (itoa n)) +:+ itoa n.

(** The loop over the parts: those before the third that are numbers. *)
Fixpoint normalize_parts (i : nat) (parts : list string) : string :=
  match parts with
  | [] => EmptyString
  | p :: rest =>
      match Atoi p with
      | Some n =>
          if (0 <=? n) && (i <? 3)%nat
          then (if (0 <? i)%nat then "." else "") +:+ pad9 n +:+ normalize_parts (S i) rest
          else normalize_parts (S i) rest
      | None => normalize_parts (S i) rest
      end
  end.

Definition NormalizedSemVersion (jd : JobDefinition) : string :=
  let v := SemVersion jd in
  if v == "" then ""
  else
    let head := match before v "-" with
                | Some h => h
                | None => match before v "rc" with
                          | Some h => h
                          | None => match before v "dev" with Some h => h | None => v end
                          end
                end in
    normalize_parts 0 (Split head ".").

(** *** Tasks of a job *)

Definition GetTask (jd : JobDefinition) (taskType : string) : option TaskDefinition :=
  lookupTasks jd !! taskType.

(** [AddTask]: a task of a known type replaces the task in the lookup table
    and takes over its order, but stays out of the [Tasks] slice. *)
Definition AddTask (jd : JobDefinition) (task : TaskDefinition) : JobDefinition :=
  match lookupTasks jd !! TaskType task with
  | None =>
      let maxOrder := foldl (fun m t => if m <? TaskOrder t then TaskOrder t else m) 0
                        (Tasks jd ++ [task]) in
      let task := set_TaskOrder task (maxOrder + 1) in
      set_lookupTasks (set_Tasks jd (Tasks jd ++ [task]))
        (<[TaskType task := task]> (lookupTasks jd))
  | Some old =>
      let task := set_TaskOrder task (TaskOrder old) in
      set_lookupTasks jd (<[TaskType task := task]> (lookupTasks jd))
  end.

Definition AddTasks (jd : JobDefinition) (tasks : list TaskDefinition) : JobDefinition :=
  foldl AddTask jd tasks.

Definition GetLastAlwaysRunTasks (jd : JobDefinition) : list TaskDefinition :=
  List.filter AlwaysRun (Tasks jd).

Definition GetLastTask (jd : JobDefinition) : option TaskDefinition :=
  foldl (fun last t => if (size (OnExitCode t) =? 0)%nat then Some t else last) None (Tasks jd).

(** [GetNextTask]: the next task and whether it was found by the exit code. *)
Definition GetNextTask (jd : JobDefinition) (task : TaskDefinition) (taskStatus : RequestState)
    (exitCode : string) : option TaskDefinition * bool :=
  if (size (OnExitCode task) =? 0)%nat then (None, false)
  else
    let nextTaskName := exit_target task (State.NewRequestState exitCode) in
    let next := State.NewRequestState nextTaskName in
    if next == State.EXECUTING then (Some task, false)
    else
      let nextTaskName :=
        if (next == State.PAUSE_JOB) || (next == State.PAUSED) then exit_target task State.PAUSE_JOB
        else if next == State.COMPLETED then exit_target task State.COMPLETED
        else if (next == State.FAILED) || (next == State.FATAL) then exit_target task State.FAILED
        else nextTaskName in
      match GetTask jd nextTaskName with
      | Some t => (Some t, true)
      | None =>
          match GetTask jd (exit_target task (State.NewRequestState taskStatus)) with
          | Some t => (Some t, false)
          | None =>
              if AllowFailure task then (GetTask jd (exit_target task State.COMPLETED), false)
              else (None, false)
          end
      end.

(** *** Validation *)
Inductive job_error :=
| JobTypeMissing | JobTypeTooBig | URLTooBig | JobDescriptionTooBig | PlatformTooBig | TagsTooBig
| PluginJobType | BadSemVersion | BadCron (cron : string) | TasksMissing | TooManyTasks
| BadTask (e : task_error) | MethodsMissing | RawYamlMissing
| DuplicateTask (taskType : string) | NoStartingTask
| EmptyTarget (taskType : string) | UndefinedTarget (taskType target : string)
| Unreachable (taskType : string) | NoFirstTask
| BadEmail (e : Notify.email_error) | DuplicateTrigger (name : string)
| BadTrigger (e : Trigger.trigger_error).

Definition maxTasksPerJob : nat := 100.

Section Validation.
Context `{RangeOrder}.

(** The distinct methods and tags of the tasks, in the order of a map range. *)
Definition buildMethods (tasks : list TaskDefinition) : string :=
  let taskMethods : gset string :=
    list_to_set (List.filter (fun m => m != "") (map Method tasks)) in
  foldl (builder_add (fun m => m) ", ") "" (range_set taskMethods).

Definition buildTags (tasks : list TaskDefinition) : string :=
  let taskTags : gset string := list_to_set (flat_map Task.Tags tasks) in
  foldl (builder_add (fun t => t) ",") "" (range_set taskTags).

Fixpoint validate_tasks (tasks : list TaskDefinition) : task_error + list TaskDefinition :=
  match tasks with
  | [] => inr []
  | t :: rest =>
      match Task.Validate t with
      | inl e => inl e
      | inr t' => match validate_tasks rest with
                  | inl e => inl e
                  | inr rest' => inr (t' :: rest')
                  end
      end
  end.

(** The targets that [validateTaskExitCodes] adds to one task. *)
Definition with_exit_codes (t : TaskDefinition) : TaskDefinition :=
  let m := OnExitCode t in
  let m := if OnCompleted t != "" then <[State.COMPLETED := OnCompleted t]> m else m in
  let m := if OnFailed t != "" then <[State.FAILED := OnFailed t]> m else m in
  let m := if AllowFailure t && (default "" (m !! State.FAILED) == "")
              && (default "" (m !! State.COMPLETED) != "")
           then <[State.FAILED := default "" (m !! State.COMPLETED)]> m else m in
  set_OnExitCode t m.

(** The loop of [validateTaskExitCodes]: the updated tasks, the lookup table
    and whether a task without a next task was seen. *)
Fixpoint exit_code_loop (tasks : list TaskDefinition) (lookup : gmap string TaskDefinition)
    (leaf : bool) : job_error + (list TaskDefinition * gmap string TaskDefinition * bool) :=
  match tasks with
  | [] => inr ([], lookup, leaf)
  | t :: rest =>
      match Task.Validate t with
      | inl e => inl (BadTask e)
      | inr t =>
          match lookup !! TaskType t with
          | Some _ => inl (DuplicateTask (TaskType t))
          | None =>
              let t := with_exit_codes t in
              match exit_code_loop rest (<[TaskType t := t]> lookup) (leaf || negb (HasNext t)) with
              | inl e => inl e
              | inr (rest', lookup', leaf') => inr (t :: rest', lookup', leaf')
              end
          end
      end
  end.

Definition validateTaskExitCodes (jd : JobDefinition) : job_error + JobDefinition :=
  match exit_code_loop (Tasks jd) (lookupTasks jd) false with
  | inl e => inl e
  | inr (tasks, lookup, leaf) =>
      if negb leaf then inl NoStartingTask
      else inr (set_lookupTasks (set_Tasks jd tasks) lookup)
  end.

(** Targets that are not tasks. *)
Definition reservedExitCodes : list string :=
  [State.FATAL; State.RESTART_JOB; State.PAUSE_JOB; State.RESTART_TASK; State.EXECUTING;
   State.FAILED; State.COMPLETED].
Definition special_target (next : string) : bool :=
  HasPrefix next "ERR_" || existsb (String.eqb next) reservedExitCodes.

Fixpoint check_targets (jd : JobDefinition) (taskType : string) (targets : list (string * string))
    (onExitTypes : gset string) : job_error + gset string :=
  match targets with
  | [] => inr onExitTypes
  | (_, next) :: rest =>
      if next == "" then inl (EmptyTarget taskType)
      else if special_target next then check_targets jd taskType rest onExitTypes
      else match lookupTasks jd !! next with
           | None => inl (UndefinedTarget taskType next)
           | Some _ => check_targets jd taskType rest ({[next]} ∪ onExitTypes)
           end
  end.

Fixpoint reachable_loop (jd : JobDefinition) (tasks : list TaskDefinition) (onExitTypes : gset string)
    : job_error + gset string :=
  match tasks with
  | [] => inr onExitTypes
  | t :: rest =>
      match check_targets jd (TaskType t) (range (OnExitCode t)) onExitTypes with
      | inl e => inl e
      | inr onExitTypes => reachable_loop jd rest onExitTypes
      end
  end.

Definition validateReachableTasks (jd : JobDefinition) : job_error + gset string :=
  reachable_loop jd (Tasks jd) ∅.

Fixpoint first_loop (single : bool) (onExitTypes : gset string) (tasks : list TaskDefinition)
    (firstTask : option TaskDefinition) : job_error + option TaskDefinition :=
  match tasks with
  | [] => inr firstTask
  | t :: rest =>
      if bool_decide (TaskType t ∈ onExitTypes) then first_loop single onExitTypes rest firstTask
      else match firstTask with
           | None => if single || HasNext t then first_loop single onExitTypes rest (Some t)
                     else inl (Unreachable (TaskType t))
           | Some _ => inl (Unreachable (TaskType t))
           end
  end.

Definition validateFirstTask (jd : JobDefinition) (onExitTypes : gset string)
    : job_error + TaskDefinition :=
  match first_loop (List.length (Tasks jd) =? 1)%nat onExitTypes (Tasks jd) None with
  | inl e => inl e
  | inr (Some t) => inr t
  | inr None => inl NoFirstTask
  end.

Definition GetFirstTask (jd : JobDefinition) : job_error + TaskDefinition :=
  match validateReachableTasks jd with
  | inl e => inl e
  | inr onExitTypes => validateFirstTask jd onExitTypes
  end.

(** Notifications are visited in the order of a map range. *)
Fixpoint check_notify (MatchEmail : string -> bool) (l : list (string * Notify.JobNotifyConfig))
    : option Notify.email_error :=
  match l with
  | [] => None
  | (source, notify) :: rest =>
      if source == Notify.EmailChannel
      then match Notify.ValidateEmail MatchEmail notify with
           | Some e => Some e
           | None => check_notify MatchEmail rest
           end
      else check_notify MatchEmail rest
  end.

Fixpoint check_triggers (l : list Trigger.TriggerDefinition) (names : gset string) : option job_error :=
  match l with
  | [] => None
  | t :: rest =>
      if bool_decide (Trigger.Name t ∈ names) then Some (DuplicateTrigger (Trigger.Name t))
      else match Trigger.Validate t with
           | Some e => Some (BadTrigger e)
           | None => check_triggers rest ({[Trigger.Name t]} ∪ names)
           end
  end.

(** The checks of [Validate] that only read the definition.  [cron_next] is the
    cron library: [None] when the expression does not parse, which
    [cronexpr.MustParse] turns into a panic, else whether there is a next time. *)
Definition check_fields (cron_next : string -> option bool) (jd : JobDefinition)
    : outcome job_error unit :=
  if JobType jd == "" then Error JobTypeMissing
  else if too_long (JobType jd) 100 then Error JobTypeTooBig
  else if too_long (URL jd) 200 then Error URLTooBig
  else if too_long (jd_Description jd) 500 then Error JobDescriptionTooBig
  else if too_long (Platform jd) 100 then Error PlatformTooBig
  else if too_long (jd_Tags jd) 1000 then Error TagsTooBig
  else if PublicPlugin jd && (List.length (Split (JobType jd) ".") <? 3)%nat then Error PluginJobType
  else if ((SemVersion jd != "") || PublicPlugin jd)
          && (match CheckSemVersion jd with InvalidSemanticVersion => true | _ => false end)
       then Error BadSemVersion
  else if CronTrigger jd != "" then
    match cron_next (CronTrigger jd) with
    | None => Panic
    | Some false => Error (BadCron (CronTrigger jd))
    | Some true => Return tt
    end
  else Return tt.

Definition Validate (cron_next : string -> option bool) (MatchEmail : string -> bool)
    (jd : JobDefinition) : outcome job_error JobDefinition :=
  match check_fields cron_next jd with
  | Panic => Panic
  | Error e => Error e
  | Return _ =>
      if (List.length (Tasks jd) =? 0)%nat then Error TasksMissing
      else if (maxTasksPerJob <? List.length (Tasks jd))%nat then Error TooManyTasks
      else match validate_tasks (Tasks jd) with
      | inl e => Error (BadTask e)
      | inr tasks =>
          let jd := set_Tasks jd tasks in
          let jd := set_shouldSkip (set_Methods (set_jd_Tags jd (buildTags tasks))
                                      (buildMethods tasks)) "" in
          if Methods jd == "" then Error MethodsMissing
          else if RawYaml jd == "" then Error RawYamlMissing
          else
            let jd := set_lookupTasks jd ∅ in
            let jd := set_MaxConcurrency jd (if MaxConcurrency jd <=? 1 then 3 else MaxConcurrency jd) in
            let jd := set_UsesTemplate jd
                        (Contains (RawYaml jd) "{{" && Contains (RawYaml jd) "}}") in
            match validateTaskExitCodes jd with
            | inl e => Error e
            | inr jd =>
                match check_notify MatchEmail (range (Notify jd)) with
                | Some e => Error (BadEmail e)
                | None =>
                    match GetFirstTask jd with
                    | inl e => Error e
                    | inr _ =>
                        match check_triggers (Triggers jd) ∅ with
                        | Some e => Error e
                        | None => Return jd
                        end
                    end
                end
            end
      end
  end.

End Validation.

End Job.
