(* ===== verification/JobSpec.v ===== *)
(** * JobSpec: what a validated job definition guarantees

    Theorems about [JobDefinition]: the structure of a validated job, the
    tasks that can follow a task, the status overrides, the stability of
    validation and the jobs it accepts although they can loop. *)

From S2P Require Import Prelude RequestState Tags Resource JobDefinition.
From Stdlib Require Import Ascii String.

Import Task Job.
Open Scope Z_scope.

(** ** Validation of tasks *)

Lemma Task_Validate_keeps t t' :
  Task.Validate t = inr t' ->
  TaskType t' = TaskType t /\ TaskType t <> "" /\ OnExitCode t' = OnExitCode t /\
  OnCompleted t' = OnCompleted t /\ OnFailed t' = OnFailed t /\ AllowFailure t' = AllowFailure t.
Proof.
  unfold Task.Validate. destruct (TaskType t == "") eqn:E; [done|]. apply eqb_string_false in E.
  repeat (case_match; try discriminate); intros [= <-]; done.
Qed.

Lemma upper_lower_idem f s :
  (forall c, f (f c) = f c) -> string_map f (string_map f s) = string_map f s.
Proof. intros Hf. induction s as [|c s IH]; cbn; [done|]. by rewrite Hf, IH. Qed.

Lemma lower_char_idem c : lower_char (lower_char c) = lower_char c.
Proof. destruct c as [[] [] [] [] [] [] [] []]; reflexivity. Qed.

Lemma ToLower_idem s : ToLower (ToLower s) = ToLower s.
Proof. apply upper_lower_idem, lower_char_idem. Qed.

(** The conditions under which [Task.Validate] changes nothing. *)
Record task_ok (t : TaskDefinition) : Prop := {
  ok_type : TaskType t <> "";
  ok_method : Method.IsValid (Method t) = true;
  ok_tags : map ToLower (Task.Tags t) = Task.Tags t;
  ok_short : too_long (TaskType t) 100 = false;
  ok_description : too_long (Task.Description t) 500 = false;
  ok_host : too_long (HostNetwork t) 100 = false;
  ok_fan_out : match Task.FanOut t with
               | None => True
               | Some f => FanOut.ExecutionMethod f <> "" /\ FanOut.Validate (Some f) = None /\
                           Method t = Method.FanOutJob
               end
}.

Lemma IsValid_nonempty m : Method.IsValid m = true -> m <> "".
Proof. intros H ->. discriminate H. Qed.

Lemma task_ok_fixed t : task_ok t -> Task.Validate t = inr t.
Proof.
  intros [Ht Hm Hg Hs Hd Hh Hf]. unfold Task.Validate. apply eqb_string_false in Ht. rewrite Ht.
  pose proof (IsValid_nonempty _ Hm) as Hne%eqb_string_false. rewrite Hne, Hm. cbn [negb].
  destruct t as [? ? ? ? ? ? ? ? ? ? ? ? ? ? ? ? ? ? ? fan]; cbn in *. rewrite Hs, Hd, Hh, Hg.
  destruct fan as [f|]; [|done]. destruct Hf as (He%eqb_string_false & Hv & ->). rewrite He.
  unfold FanOut.Validate in *. cbn in *. by rewrite Hv.
Qed.

Lemma Task_Validate_ok t t' : Task.Validate t = inr t' -> task_ok t'.
Proof.
  unfold Task.Validate. destruct (TaskType t == "") eqn:E; [done|]. apply eqb_string_false in E.
  set (t1 := if Method t == "" then _ else _).
  assert (TaskType t1 = TaskType t /\ Task.FanOut t1 = Task.FanOut t) as [Et Ef]
    by (subst t1; by destruct (Method t == "")).
  destruct (Method.IsValid (Method t1)) eqn:EM; [|done]. cbn [negb].
  assert (map ToLower (map ToLower (Task.Tags t1)) = map ToLower (Task.Tags t1)) as EG.
  { rewrite map_map. apply map_ext, ToLower_idem. }
  destruct (too_long (TaskType _) 100) eqn:E1; [done|].
  destruct (too_long (Task.Description _) 500) eqn:E2; [done|].
  destruct (too_long (HostNetwork _) 100) eqn:E3; [done|].
  destruct (Task.FanOut (set_Tags t1 _)) as [f|] eqn:EF.
  - set (f' := if FanOut.ExecutionMethod f == "" then _ else _).
    destruct (FanOut.Validate (Some f')) eqn:EV; [done|]. intros [= <-].
    split; cbn; try done; [by rewrite Et|]. split_and!; [|done..].
    subst f'. destruct (FanOut.ExecutionMethod f == "") eqn:EX; cbn; [by apply IsValid_nonempty|].
    by apply eqb_string_false.
  - intros [= <-]. split; cbn in *; try done; [by rewrite Et|]. by rewrite EF.
Qed.

Lemma with_exit_codes_ok t : task_ok t -> task_ok (with_exit_codes t).
Proof. by intros []. Qed.

(** Filling in the exit codes twice is filling them in once. *)
Lemma with_exit_codes_idem t : with_exit_codes (with_exit_codes t) = with_exit_codes t.
Proof.
  assert (forall (m : gmap string string) k x, m !! k = Some x -> <[k := x]> m = m) as HI
    by (intros; by apply insert_id).
  unfold with_exit_codes. destruct t as [? ? ? ? af ? ? ? ? ? ? ? m oc fl ? ? ? ? ?].
  cbn. f_equal. unfold set_OnExitCode; cbn. f_equal.
  destruct (oc == "") eqn:EC, (fl == "") eqn:EF, af; cbn;
    repeat match goal with
    | |- context [if ?b then _ else _] => let E := fresh "E" in destruct b eqn:E
    end; cbn;
    repeat (rewrite ?lookup_insert_eq, ?lookup_insert_ne in * by done; cbn in *);
    try done; try congruence;
    repeat first
      [ rewrite insert_insert_eq
      | rewrite (insert_insert_ne _ State.FAILED State.COMPLETED) by done
      | rewrite lookup_insert_eq in * | rewrite lookup_insert_ne in * by done ];
    cbn in *; try done; try congruence.
Qed.

(** ** The graph of tasks *)

(** [t] names [t'] as the task to run after some exit code. *)
Definition leads_to (t t' : TaskDefinition) : Prop :=
  exists code, OnExitCode t !! code = Some (TaskType t') /\ special_target (TaskType t') = false.

Lemma exit_code_loop_ok tasks lk leaf ts lk' leaf' :
  exit_code_loop tasks lk leaf = inr (ts, lk', leaf') ->
  (forall n t, lk' !! n = Some t <-> lk !! n = Some t \/ (t ∈ ts /\ TaskType t = n)) /\
  NoDup (map TaskType ts) /\
  (forall t, t ∈ ts -> lk !! TaskType t = None /\ TaskType t <> "" /\ task_ok t) /\
  (leaf' = true -> leaf = true \/ exists t, t ∈ ts /\ HasNext t = false).
Proof.
  revert lk leaf ts lk' leaf'. induction tasks as [|t tasks IH]; intros lk leaf ts lk' leaf'; cbn.
  { intros [= <- <- <-]. split_and!; [|constructor| |auto].
    - intros n t. split; [by left|]. intros [?|[?%not_elem_of_nil _]]; done.
    - intros t ?%not_elem_of_nil. done. }
  destruct (Task.Validate t) as [|t1] eqn:EV; [done|].
  destruct (lk !! TaskType t1) eqn:El; [done|].
  set (t2 := with_exit_codes t1). change (TaskType (with_exit_codes t1)) with (TaskType t1).
  destruct (exit_code_loop tasks _ _) as [|[[ts1 lk1] leaf1]] eqn:ER; [done|]. intros [= <- <- <-].
  apply IH in ER as (Hlk & Hnd & Hall & Hleaf).
  assert (TaskType t2 = TaskType t1) as Et by done.
  split_and!.
  - intros n t'. rewrite Hlk, lookup_insert_Some, elem_of_cons. split.
    + intros [[[<- <-]|[_ ?]]|?]; naive_solver.
    + intros [H1|[[->|H1] H2]]; [|naive_solver|naive_solver].
      destruct (decide (TaskType t1 = n)) as [<-|]; [congruence|naive_solver].
  - cbn. constructor; [|done]. intros (t' & Heq & Hin)%list_elem_of_fmap.
    destruct (Hall t' Hin) as [HN _]. rewrite <- Heq in HN. by rewrite lookup_insert_eq in HN.
  - intros t' [->|Hin]%elem_of_cons.
    + split_and!; [done| |by eapply with_exit_codes_ok, Task_Validate_ok].
      rewrite Et. pose proof (Task_Validate_keeps _ _ EV). naive_solver congruence.
    + destruct (Hall t' Hin) as [[? ?]%lookup_insert_None ?]. done.
  - intros Hl. destruct (Hleaf Hl) as [[?|Hn]%orb_true_iff|(t' & ? & ?)].
    + by left.
    + right. exists t2. split; [apply list_elem_of_here|]. by apply negb_true_iff in Hn.
    + right. exists t'. split; [by apply list_elem_of_further|done].
Qed.

Lemma check_targets_ok jd ty l acc X :
  check_targets jd ty l acc = inr X ->
  (forall k n, (k, n) ∈ l -> n <> "" /\ (special_target n = true \/ is_Some (lookupTasks jd !! n))) /\
  forall n, n ∈ X <-> n ∈ acc \/ exists k, (k, n) ∈ l /\ special_target n = false.
Proof.
  revert acc. induction l as [|[k0 n0] l IH]; intros acc; cbn.
  { intros [= <-]. split; [intros k n ?%not_elem_of_nil; done|].
    intros n. split; [by left|]. intros [?|(k & ?%not_elem_of_nil & _)]; done. }
  destruct (n0 == "") eqn:E; [done|]. apply eqb_string_false in E.
  setoid_rewrite elem_of_cons.
  destruct (special_target n0) eqn:ES; [|destruct (lookupTasks jd !! n0) as [t|] eqn:EL; [|done]];
    intros [H1 H2]%IH; split.
  - intros k n [[= -> ->]|?]; [auto|by eapply H1].
  - intros n. rewrite H2. naive_solver congruence.
  - intros k n [[= -> ->]|?]; [rewrite EL; eauto|by eapply H1].
  - intros n. rewrite H2, elem_of_union, elem_of_singleton. naive_solver congruence.
Qed.

Lemma reachable_loop_ok `{RangeOrder} jd tasks acc X :
  reachable_loop jd tasks acc = inr X ->
  (forall t k n, t ∈ tasks -> OnExitCode t !! k = Some n ->
     n <> "" /\ (special_target n = true \/ is_Some (lookupTasks jd !! n))) /\
  forall n, n ∈ X <-> n ∈ acc \/
     exists t k, t ∈ tasks /\ OnExitCode t !! k = Some n /\ special_target n = false.
Proof.
  revert acc. induction tasks as [|t tasks IH]; intros acc; cbn.
  { intros [= <-]. split; [intros t k n ?%not_elem_of_nil; done|].
    intros n. split; [by left|]. intros [?|(t & k & ?%not_elem_of_nil & _)]; done. }
  destruct (check_targets _ _ _ _) as [|X1] eqn:EC; [done|]. intros [H1 H2]%IH.
  apply check_targets_ok in EC as [H3 H4]. setoid_rewrite elem_of_range in H3.
  setoid_rewrite elem_of_range in H4. setoid_rewrite elem_of_cons. split.
  - intros t' k n [->|?]; [apply H3|by apply H1].
  - intros n. rewrite H2, H4. naive_solver.
Qed.

Lemma first_loop_some single X ts f r :
  first_loop single X ts (Some f) = inr r -> r = Some f /\ forall t, t ∈ ts -> TaskType t ∈ X.
Proof.
  induction ts as [|t ts IH]; cbn; [intros [= <-]; split; [done|by intros ? ?%not_elem_of_nil]|].
  destruct (bool_decide _) eqn:E; [|done]. apply bool_decide_eq_true in E.
  intros [-> HX]%IH. split; [done|]. intros t' [->|?]%elem_of_cons; auto.
Qed.

Lemma first_loop_ok single X ts t :
  first_loop single X ts None = inr (Some t) ->
  NoDup (map TaskType ts) ->
  t ∈ ts /\ (single = true \/ HasNext t = true) /\
  forall t', t' ∈ ts -> TaskType t' ∉ X <-> t' = t.
Proof.
  induction ts as [|t0 ts IH]; cbn; [done|]. intros HL [Hn Hnd]%NoDup_cons.
  destruct (bool_decide _) eqn:E.
  - apply bool_decide_eq_true in E. destruct (IH HL Hnd) as (Hin & HS & HX).
    split_and!; [by apply list_elem_of_further|done|].
    intros t' [->|?]%elem_of_cons; [|auto]. split; [done|]. intros ->.
    destruct Hn. apply list_elem_of_fmap. eauto.
  - apply bool_decide_eq_false in E. destruct (single || HasNext t0) eqn:ES; [|done].
    apply first_loop_some in HL as [[= ->] HX]. apply orb_true_iff in ES.
    split_and!; [apply list_elem_of_here|done|].
    intros t' [->|Hin]%elem_of_cons; [done|]. split; [intros Hx; by destruct Hx; apply HX|].
    intros ->. destruct Hn. apply list_elem_of_fmap. eauto.
Qed.

(** ** Validated jobs *)

(** What validation establishes, with the tasks and the lookup table in place. *)
Record validated (jd : JobDefinition) : Prop := {
  v_distinct : NoDup (map TaskType (Tasks jd));
  v_lookup n t : GetTask jd n = Some t <-> t ∈ Tasks jd /\ TaskType t = n;
  v_named t : t ∈ Tasks jd -> TaskType t <> "";
  v_targets t code n : t ∈ Tasks jd -> OnExitCode t !! code = Some n ->
    n <> "" /\ (special_target n = true \/ exists t', t' ∈ Tasks jd /\ TaskType t' = n);
  v_leaf : exists t, t ∈ Tasks jd /\ HasNext t = false;
  v_first : exists first, first ∈ Tasks jd /\
    forall t, t ∈ Tasks jd -> (t = first <-> forall t0, t0 ∈ Tasks jd -> ~ leads_to t0 t)
}.

(** The steps of a successful validation. *)
Lemma Validate_inv `{RangeOrder} cron email jd jd' :
  Job.Validate cron email jd = Return jd' ->
  exists jd0 first,
    lookupTasks jd0 = ∅ /\ validateTaskExitCodes jd0 = inr jd' /\ GetFirstTask jd' = inr first.
Proof.
  unfold Job.Validate. destruct (check_fields _ _); [|done|done].
  repeat (case_match; try discriminate); intros [= <-];
    (match goal with HV : validateTaskExitCodes ?x = inr _ |- _ => exists x end);
    eexists; split_and!; done.
Qed.

Lemma GetFirstTask_ok `{RangeOrder} jd first :
  GetFirstTask jd = inr first -> NoDup (map TaskType (Tasks jd)) ->
  first ∈ Tasks jd /\
  (forall t k n, t ∈ Tasks jd -> OnExitCode t !! k = Some n ->
     n <> "" /\ (special_target n = true \/ is_Some (lookupTasks jd !! n))) /\
  forall t, t ∈ Tasks jd -> (t = first <-> forall t0, t0 ∈ Tasks jd -> ~ leads_to t0 t).
Proof.
  unfold GetFirstTask, validateReachableTasks, validateFirstTask. intros HF Hnd.
  destruct (reachable_loop _ _ _) as [|X] eqn:ER; [done|].
  destruct (first_loop _ _ _ _) as [|[t|]] eqn:EF; [done| |done]. injection HF as ->.
  apply reachable_loop_ok in ER as [H1 H2]. apply first_loop_ok in EF as (Hin & _ & HX); [|done].
  split_and!; [done..|]. intros t Ht. rewrite <- (HX t Ht), H2. unfold leads_to. split.
  - intros Hn t0 H0 (code & Hc & Hs). destruct Hn. eauto 10.
  - intros Hn [?%not_elem_of_empty|(t0 & k & ? & ? & ?)]; [done|]. eapply Hn; eauto.
Qed.

Lemma Validate_validated `{RangeOrder} cron email jd jd' :
  Job.Validate cron email jd = Return jd' -> validated jd'.
Proof.
  intros (jd0 & first & H0 & HV & HF)%Validate_inv. unfold validateTaskExitCodes in HV.
  destruct (exit_code_loop _ _ _) as [|[[ts lk] leaf]] eqn:EL; [done|].
  destruct leaf; [|done]. cbn in HV. injection HV as <-.
  rewrite H0 in EL. apply exit_code_loop_ok in EL as (Hlk & Hnd & Hall & Hleaf).
  destruct (GetFirstTask_ok _ _ HF Hnd) as (Hin & Htgt & Hfirst). cbn in *.
  assert (forall n t, lk !! n = Some t <-> t ∈ ts /\ TaskType t = n) as Hlk'.
  { intros n t. rewrite Hlk, lookup_empty. naive_solver. }
  split; cbn; [done|apply Hlk'| | | |].
  - intros t Ht. by apply Hall.
  - intros t code n Ht Hc. destruct (Htgt t code n Ht Hc) as [? [?|[t' ?%Hlk']]]; eauto.
  - destruct (Hleaf eq_refl) as [?|?]; [done|done].
  - eauto.
Qed.

(** C15: a job definition that passes validation is a well-formed task graph:
    task types are distinct and not empty, looking a task up by name finds
    exactly the job's tasks, every exit-code target is a task of the job or a
    reserved outcome, some task ends the job, and there is exactly one first
    task: the only one that no task leads to. *)
Theorem validated_job_is_well_formed (O : RangeOrder) cron email (jd jd' : JobDefinition) :
  Job.Validate cron email jd = Return jd' -> validated jd'.
Proof. apply Validate_validated. Qed.

(** ** The next task *)

Lemma GetTask_target jd t code t' :
  validated jd -> GetTask jd (exit_target t code) = Some t' ->
  t' ∈ Tasks jd /\ OnExitCode t !! code = Some (TaskType t').
Proof.
  intros Hv [Hin Ht]%(v_lookup jd Hv). split; [done|]. unfold exit_target in Ht.
  destruct (OnExitCode t !! code) as [n|] eqn:E; cbn in Ht; [by rewrite Ht|].
  by apply (v_named jd Hv) in Hin.
Qed.

(** Where the next task comes from. *)
Lemma GetNextTask_source jd t status exitCode next found :
  validated jd -> GetNextTask jd t status exitCode = (Some next, found) ->
  (next = t /\ ToUpper (exit_target t (ToUpper exitCode)) = State.EXECUTING) \/
  (next ∈ Tasks jd /\ exists code, OnExitCode t !! code = Some (TaskType next)).
Proof.
  intros Hv. unfold GetNextTask, State.NewRequestState. destruct (size (OnExitCode t) =? 0)%nat; [done|].
  destruct (_ == State.EXECUTING) eqn:EE; [intros [= <- _]; left; by apply eqb_string_true in EE|].
  set (name := if _ || _ then _ else _).
  assert (exists c, name = exit_target t c) as [c ->] by (subst name; repeat case_match; eauto).
  intros HN. right. assert (exists c', GetTask jd (exit_target t c') = Some next) as [c' HG].
  { destruct (GetTask jd (exit_target t c)) eqn:E1; [naive_solver|].
    destruct (GetTask jd (exit_target t (ToUpper status))) eqn:E2; [naive_solver|].
    destruct (AllowFailure t); [|done]. injection HN as HN _. eauto. }
  apply GetTask_target in HG as [? ?]; [eauto|done].
Qed.

(** C36: the next task of a validated job is always a task of the job that the
    exit codes of the finished task name, or the task itself when its exit code
    maps to EXECUTING; and when an exit code (in any letter case) names a task
    of the job, that task is the next one, unless its name, in upper case, is
    EXECUTING, PAUSED, PAUSE_JOB, COMPLETED, FAILED or FATAL. *)
Theorem next_task_follows_exit_codes (jd : JobDefinition) (t : TaskDefinition) status exitCode :
  validated jd ->
  (forall next found, GetNextTask jd t status exitCode = (Some next, found) ->
     (next = t /\ ToUpper (exit_target t (ToUpper exitCode)) = State.EXECUTING) \/
     (next ∈ Tasks jd /\ exists code, OnExitCode t !! code = Some (TaskType next))) /\
  (forall next, next ∈ Tasks jd -> OnExitCode t !! ToUpper exitCode = Some (TaskType next) ->
     ToUpper (TaskType next) ∉ [State.EXECUTING; State.PAUSED; State.PAUSE_JOB; State.COMPLETED; State.FAILED; State.FATAL] ->
     GetNextTask jd t status exitCode = (Some next, true)).
Proof.
  intros Hv. split; [intros next found; by apply GetNextTask_source|].
  unfold GetNextTask, State.NewRequestState.
  intros next Hin Hc Hs. assert (exit_target t (ToUpper exitCode) = TaskType next) as Ht.
  { unfold exit_target. by rewrite Hc. }
  rewrite Ht. destruct (Nat.eqb_spec (size (OnExitCode t)) 0) as [H0%map_size_empty_iff|_].
  { by rewrite H0, lookup_empty in Hc. }
  repeat (apply not_elem_of_cons in Hs as [?%eqb_string_false Hs]).
  repeat match goal with H : (_ == _) = false |- _ => rewrite H; clear H end. cbn [orb].
  assert (GetTask jd (TaskType next) = Some next) as -> by (by apply (v_lookup jd Hv)). done.
Qed.

(** ** Overrides *)

(** The outcome that an exit-code target stands for. *)
Definition override_table : list (string * (RequestState * string)) :=
  [(State.FATAL, (State.FAILED, ErrorCodes.ErrorFatal));
   (State.FAILED, (State.FAILED, ""));
   (State.COMPLETED, (State.COMPLETED, ""));
   (State.EXECUTING, (State.EXECUTING, ""));
   (State.RESTART_JOB, (State.FAILED, ErrorCodes.ErrorRestartJob));
   (State.PAUSE_JOB, (State.PAUSED, ErrorCodes.ErrorPauseJob));
   (State.WAIT_FOR_APPROVAL, (State.MANUAL_APPROVAL_REQUIRED, ErrorCodes.ErrorManualApprovalRequired));
   (State.RESTART_TASK, (State.FAILED, ErrorCodes.ErrorRestartTask))].

(** The status override of an exit code depends only on the target that the
    task's table gives for the upper-cased code: a reserved target (in any
    letter case) stands for the status and error code of [override_table], a
    target that begins with ERR_ fails the task with that error code, and
    every other target, in particular the name of a task, overrides nothing. *)
Theorem override_follows_table (td : TaskDefinition) (exitCode : string) :
  let target := exit_target td (ToUpper exitCode) in
  OverrideStatusAndErrorCode td exitCode =
  match list_find (fun row => row.1 = ToUpper target) override_table with
  | Some (_, (_, outcome)) => outcome
  | None => if HasPrefix target "ERR_" then (State.FAILED, target) else ("", "")
  end.
Proof.
  cbn zeta. unfold OverrideStatusAndErrorCode, State.NewRequestState.
  destruct (Nat.eqb_spec (size (OnExitCode td)) 0) as [H0%map_size_empty_iff|_].
  { unfold exit_target. rewrite H0, lookup_empty. reflexivity. }
  set (target := exit_target td (ToUpper exitCode)).
  generalize (ToUpper target) as u. intros u.
  repeat match goal with
  | |- (if u == ?s then _ else _) = _ =>
      let E := fresh in destruct (u == s) eqn:E;
      [apply eqb_string_true in E; subst u; reflexivity|apply eqb_string_false in E]
  end.
  unfold override_table, list_find. rewrite !decide_False by (cbn; congruence). reflexivity.
Qed.

(** ** Stability of validation *)

Lemma validate_tasks_fixed ts : (forall t, t ∈ ts -> task_ok t) -> validate_tasks ts = inr ts.
Proof.
  induction ts as [|t ts IH]; intros Hok; cbn; [done|].
  rewrite task_ok_fixed by (apply Hok, list_elem_of_here).
  rewrite IH; [done|]. intros t' ?. by apply Hok, list_elem_of_further.
Qed.

Lemma validate_tasks_ok ts ts' : validate_tasks ts = inr ts' -> forall t, t ∈ ts' -> task_ok t.
Proof.
  revert ts'. induction ts as [|t ts IH]; intros ts'; cbn; [intros [= <-] t ?%not_elem_of_nil; done|].
  destruct (Task.Validate t) eqn:E; [done|]. destruct (validate_tasks ts) as [|r] eqn:ER; [done|].
  intros [= <-] t' [->|?]%elem_of_cons; [by eapply Task_Validate_ok|by eapply IH].
Qed.

(** On tasks that validation does not change, the loop only fills in codes. *)
Lemma exit_code_loop_tasks ts lk leaf r :
  (forall t, t ∈ ts -> task_ok t) -> exit_code_loop ts lk leaf = inr r ->
  r.1.1 = map with_exit_codes ts.
Proof.
  revert lk leaf r. induction ts as [|t ts IH]; intros lk leaf r Hok; cbn; [by intros [= <-]|].
  rewrite task_ok_fixed by (apply Hok, list_elem_of_here).
  destruct (lk !! TaskType t); [done|].
  destruct (exit_code_loop ts _ _) as [|[[ts1 lk1] leaf1]] eqn:E; [done|]. intros [= <-]. cbn.
  apply IH in E; [|intros t' ?; by apply Hok, list_elem_of_further]. cbn in E. by rewrite E.
Qed.

Lemma exit_code_loop_again ts lk leaf r :
  (forall t, t ∈ ts -> task_ok t) -> exit_code_loop ts lk leaf = inr r ->
  exit_code_loop (map with_exit_codes ts) lk leaf = inr r.
Proof.
  revert lk leaf r. induction ts as [|t ts IH]; intros lk leaf r Hok; cbn; [done|].
  pose proof (Hok t (list_elem_of_here _ _)) as Ht.
  rewrite task_ok_fixed by done. rewrite task_ok_fixed by (by apply with_exit_codes_ok).
  change (TaskType (with_exit_codes t)) with (TaskType t).
  destruct (lk !! TaskType t); [done|]. rewrite with_exit_codes_idem.
  destruct (exit_code_loop ts _ _) as [|[[ts1 lk1] leaf1]] eqn:E; [done|].
  by rewrite (IH _ _ _ (fun t' Hin => Hok t' (list_elem_of_further _ _ _ Hin)) E).
Qed.

Lemma map_with_exit_codes {B} (f : TaskDefinition -> B) ts :
  (forall t, f (with_exit_codes t) = f t) -> map f (map with_exit_codes ts) = map f ts.
Proof. intros Hf. rewrite map_map. by apply map_ext. Qed.

Lemma flat_map_with_exit_codes {B} (f : TaskDefinition -> list B) ts :
  (forall t, f (with_exit_codes t) = f t) -> flat_map f (map with_exit_codes ts) = flat_map f ts.
Proof. intros Hf. induction ts as [|t ts IH]; cbn; [done|]. by rewrite Hf, IH. Qed.

Lemma buildMethods_codes `{RangeOrder} ts : buildMethods (map with_exit_codes ts) = buildMethods ts.
Proof. unfold buildMethods. by rewrite map_with_exit_codes. Qed.

Lemma buildTags_codes `{RangeOrder} ts : buildTags (map with_exit_codes ts) = buildTags ts.
Proof. unfold buildTags. by rewrite flat_map_with_exit_codes. Qed.

(** The definition that validation builds from the validated tasks [ts] and
    their completed exit codes [ts']. *)
Definition finished `{RangeOrder} (jd : JobDefinition) (ts ts' : list TaskDefinition)
    (lk : gmap string TaskDefinition) : JobDefinition :=
  mkJobDefinition (ID jd) (JobType jd) (SemVersion jd) (URL jd) (UserID jd) (OrganizationID jd)
    (jd_Description jd) (Platform jd) (CronTrigger jd) (jd_Timeout jd) (PauseTime jd)
    (jd_Retry jd) (HardResetAfterRetries jd) (jd_DelayBetweenRetries jd)
    (jd_RetryBackoffPolicy jd) (if MaxConcurrency jd <=? 1 then 3 else MaxConcurrency jd)
    (RetentionDaysForFailed jd) (RetentionDaysForCompleted jd) (RetentionDaysForCancelled jd)
    (Disabled jd) (PublicPlugin jd) (Contains (RawYaml jd) "{{" && Contains (RawYaml jd) "}}")
    (buildTags ts) (buildMethods ts) (RawYaml jd) ts' (Notify jd) (Triggers jd) "" lk.

Lemma Validate_shape `{RangeOrder} cron email jd jd' :
  Job.Validate cron email jd = Return jd' <->
  exists ts ts' lk first,
    check_fields cron jd = Return tt /\
    (List.length (Tasks jd) =? 0)%nat = false /\ (maxTasksPerJob <? List.length (Tasks jd))%nat = false /\
    validate_tasks (Tasks jd) = inr ts /\ (buildMethods ts == "") = false /\ (RawYaml jd == "") = false /\
    exit_code_loop ts ∅ false = inr (ts', lk, true) /\ jd' = finished jd ts ts' lk /\
    check_notify email (range (Notify jd)) = None /\ GetFirstTask jd' = inr first /\
    check_triggers (Triggers jd) ∅ = None.
Proof.
  assert (forall ts ts' lk, Notify (finished jd ts ts' lk) = Notify jd /\
            Triggers (finished jd ts ts' lk) = Triggers jd) as HNT.
  { done. }
  unfold Job.Validate. split.
  - destruct (check_fields cron jd) as [[]| |]; [|done|done].
    destruct (List.length _ =? 0)%nat; [done|]. destruct (_ <? _)%nat; [done|].
    destruct (validate_tasks _) as [|ts]; [done|]. cbn [Methods RawYaml set_shouldSkip set_Methods].
    change (RawYaml (set_jd_Tags _ _)) with (RawYaml jd).
    destruct (buildMethods ts == "") eqn:EM; [done|]. destruct (RawYaml jd == "") eqn:ER; [done|].
    unfold validateTaskExitCodes. set (jd1 := set_UsesTemplate _ _).
    assert (Tasks jd1 = ts /\ lookupTasks jd1 = ∅) as [-> ->] by done.
    destruct (exit_code_loop ts ∅ false) as [|[[ts' lk] leaf]] eqn:EL; [done|].
    destruct leaf; [|done]. cbn [negb]. change (set_lookupTasks (set_Tasks jd1 ts') lk) with (finished jd ts ts' lk).
    destruct (HNT ts ts' lk) as [-> ->].
    destruct (check_notify _ _) eqn:EN; [done|]. destruct (GetFirstTask _) as [|f] eqn:EF; [done|].
    destruct (check_triggers _ _) eqn:ET; [done|]. intros [= <-].
    exists ts, ts', lk, f. split_and!; done.
  - intros (ts & ts' & lk & f & -> & -> & -> & -> & EM & ER & EL & -> & EN & EF & ET).
    cbn [Methods RawYaml set_shouldSkip set_Methods].
    change (RawYaml (set_jd_Tags _ _)) with (RawYaml jd). rewrite EM, ER.
    unfold validateTaskExitCodes. set (jd1 := set_UsesTemplate _ _).
    assert (Tasks jd1 = ts /\ lookupTasks jd1 = ∅) as [-> ->] by done.
    rewrite EL. cbn [negb]. change (set_lookupTasks (set_Tasks jd1 ts') lk) with (finished jd ts ts' lk).
    destruct (HNT ts ts' lk) as [-> ->]. by rewrite EN, EF, ET.
Qed.

Lemma finished_again `{RangeOrder} jd ts lk :
  finished (finished jd ts (map with_exit_codes ts) lk) (map with_exit_codes ts)
    (map with_exit_codes ts) lk = finished jd ts (map with_exit_codes ts) lk.
Proof.
  unfold finished. cbn [MaxConcurrency RawYaml]. rewrite buildMethods_codes, buildTags_codes.
  f_equal. destruct (MaxConcurrency jd <=? 1) eqn:E; [done|]. by rewrite E.
Qed.

Lemma check_fields_finished `{RangeOrder} cron jd ts ts' lk :
  check_fields cron jd = Return tt -> too_long (jd_Tags (finished jd ts ts' lk)) 1000 = false ->
  check_fields cron (finished jd ts ts' lk) = Return tt.
Proof.
  intros HC HT. unfold check_fields, CheckSemVersion in *. rewrite HT.
  cbn in *. repeat (match goal with
          | H : (if ?b then _ else _) = Return tt |- _ => destruct b; [discriminate H|]
          end); done.
Qed.

(** Validation is stable: a definition that passed validation, saved and
    loaded as it is, passes again and comes out unchanged, provided the tags it
    collected from its tasks are within the limit of 1000 bytes. *)
Theorem validation_is_stable (O : RangeOrder) cron email (jd jd' : JobDefinition) :
  Job.Validate cron email jd = Return jd' -> too_long (jd_Tags jd') 1000 = false ->
  Job.Validate cron email jd' = Return jd'.
Proof.
  intros (ts & ts' & lk & f & HC & H0 & H1 & HV & HM & HR & HL & -> & HN & HF & HT)%Validate_shape Htags.
  pose proof (validate_tasks_ok _ _ HV) as Hok.
  pose proof (exit_code_loop_tasks _ _ _ _ Hok HL) as Hts. cbn in Hts. subst ts'.
  apply exit_code_loop_again in HL; [|done].
  assert (forall t, t ∈ map with_exit_codes ts -> task_ok t) as Hok'.
  { intros t (t0 & -> & Hin)%list_elem_of_fmap. by apply with_exit_codes_ok, Hok. }
  assert (List.length ts = List.length (Tasks jd)) as Hlen.
  { clear -HV. revert ts HV. generalize (Tasks jd) as l. induction l as [|t l IH]; cbn; [by intros ? [= <-]|].
    intros ts. destruct (Task.Validate t); [done|]. destruct (validate_tasks l) eqn:E; [done|].
    intros [= <-]. cbn. by rewrite (IH _ eq_refl). }
  set (J := finished jd ts (map with_exit_codes ts) lk) in *.
  assert (Tasks J = map with_exit_codes ts /\ RawYaml J = RawYaml jd /\ Notify J = Notify jd /\
          Triggers J = Triggers jd) as (EJ & ER & EN & ET).
  { done. }
  apply Validate_shape. exists (map with_exit_codes ts), (map with_exit_codes ts), lk, f.
  rewrite EJ, ER, EN, ET, length_map, Hlen, buildMethods_codes. split_and!; try done.
  - by apply check_fields_finished.
  - by apply validate_tasks_fixed.
  - subst J. by rewrite finished_again.
Qed.

(** ** Tasks added to a definition *)

Lemma max_order_bound l m :
  let r := foldl (fun m t => if m <? TaskOrder t then TaskOrder t else m) m l in
  m <= r /\ forall t, t ∈ l -> TaskOrder t <= r.
Proof.
  revert m. induction l as [|x l IH]; intros m; cbn.
  { split; [lia|]. by intros t ?%not_elem_of_nil. }
  destruct (IH (if m <? TaskOrder x then TaskOrder x else m)) as [H1 H2].
  destruct (Z.ltb_spec m (TaskOrder x)); (split; [lia|]);
    intros t [->|?]%elem_of_cons; auto; lia.
Qed.

(** Adding a task makes it the task of its type and leaves the lookup of
    other types alone; a task of a new type is appended after all others and
    gets an order above all of theirs, while a task of a known type keeps the
    order of the one it replaces in the lookup table and is not put into the
    list of tasks. *)
Theorem add_task_effect (jd : JobDefinition) (task : TaskDefinition) :
  let jd' := AddTask jd task in
  (exists order, GetTask jd' (TaskType task) = Some (set_TaskOrder task order) /\
     match GetTask jd (TaskType task) with
     | None => Tasks jd' = Tasks jd ++ [set_TaskOrder task order] /\
               forall t, t ∈ Tasks jd -> TaskOrder t < order
     | Some old => Tasks jd' = Tasks jd /\ order = TaskOrder old
     end) /\
  forall n, n <> TaskType task -> GetTask jd' n = GetTask jd n.
Proof.
  cbn zeta. unfold GetTask, AddTask. destruct (lookupTasks jd !! TaskType task) as [old|]; cbn.
  - split; [|intros n Hn; by rewrite lookup_insert_ne]. exists (TaskOrder old).
    by rewrite lookup_insert_eq.
  - split; [|intros n Hn; by rewrite lookup_insert_ne].
    eexists. rewrite lookup_insert_eq. split; [done|]. split; [done|]. intros t Ht.
    destruct (max_order_bound (Tasks jd ++ [task]) 0) as [_ HB].
    specialize (HB t ltac:(by apply elem_of_app; left)). lia.
Qed.

(** ** Retention and delays *)

(** Job history is kept for a positive number of days exactly for terminal
    states; for every other state the answer is 0, which never purges. *)
Theorem retention_positive_iff_terminal (jd : JobDefinition) (state : RequestState) :
  (0 < GetRetentionDays jd state <-> State.IsTerminal state = true) /\
  (State.IsTerminal state = false -> GetRetentionDays jd state = 0).
Proof.
  unfold GetRetentionDays, State.IsTerminal.
  destruct (state == State.FAILED); [destruct (Z.ltb_spec 0 (RetentionDaysForFailed jd));
    unfold DefaultRetentionDaysForFailed; rewrite ?orb_true_r; cbn; intuition (try lia; discriminate)|].
  destruct (state == State.COMPLETED); [destruct (Z.ltb_spec 0 (RetentionDaysForCompleted jd));
    unfold DefaultRetentionDaysForCompleted; cbn; intuition (try lia; discriminate)|].
  destruct (state == State.CANCELLED); [destruct (Z.ltb_spec 0 (RetentionDaysForCancelled jd));
    unfold DefaultRetentionDaysForCancelled; cbn; intuition (try lia; discriminate)|].
  cbn. intuition (try lia; discriminate).
Qed.

(** Without a back-off policy a retry of a job waits a positive time: the
    configured one, or 5 to 14 seconds drawn at random (10 when the draw
    fails), and the same time on every later call, whatever is drawn then. *)
Theorem job_retry_delay_bounds ForAttempt ForAttempt' random random' attempt attempt' (jd : JobDefinition) :
  active_policy (jd_RetryBackoffPolicy jd) = None ->
  (forall n, random = Some n -> 0 <= n < 10) ->
  let '(d, jd') := Job.GetDelayBetweenRetries ForAttempt random attempt jd in
  0 < d /\
  (0 < jd_DelayBetweenRetries jd -> d = jd_DelayBetweenRetries jd) /\
  (jd_DelayBetweenRetries jd <= 0 -> 5 * Ants.second <= d <= 14 * Ants.second) /\
  fst (Job.GetDelayBetweenRetries ForAttempt' random' attempt' jd') = d.
Proof.
  intros Hp Hr. unfold Job.GetDelayBetweenRetries. rewrite Hp. cbn. rewrite Hp. cbn.
  unfold delay_or_random. destruct (Z.leb_spec (jd_DelayBetweenRetries jd) 0).
  - destruct random as [n|].
    + specialize (Hr n eq_refl). unfold Ants.second in *.
      destruct (Z.leb_spec (1000000000 * (n + 5)) 0); lia.
    + change (Ants.second * 10 <=? 0) with false. cbn [fst]. unfold Ants.second. lia.
  - destruct (Z.leb_spec (jd_DelayBetweenRetries jd) 0); lia.
Qed.

(** ** Notifications *)

(** The notification setting "never" accepts every outcome, exactly like an
    empty setting, while each other setting follows its name. *)
Theorem notify_never_accepts_all (state last : RequestState) :
  Notify.Accept Notify.NotifyWhenNever state last = true /\
  Notify.Accept Notify.NotifyWhenAlways state last = true /\
  Notify.Accept Notify.NotifyWhenOnSuccess state last = State.Completed state /\
  Notify.Accept Notify.NotifyWhenOnFailure state last =
    State.Failed state || (State.Completed state && State.Failed last).
Proof.
  unfold Notify.Accept. cbn. rewrite !andb_false_r, !andb_true_r, !orb_false_r. done.
Qed.

(** ** Concrete jobs *)
Module JobDemo.

Definition task (name completed failed : string) : TaskDefinition :=
  mkTaskDefinition name "SHELL" "" "" false false false 0 0 0 None "" ∅ completed failed 0 false
    ["linux"] "" None.
Definition job (tasks : list TaskDefinition) : JobDefinition :=
  mkJobDefinition "" "io.demo" "" "" "" "" "" "" "" 0 0 0 0 0 None 3 0 0 0 false false false "" ""
    "yaml" tasks ∅ [] "" ∅.
Definition cron (_ : string) : option bool := Some true.
Definition email (_ : string) : bool := true.
Abbreviation validate := (Job.Validate cron email).
Definition valid (jd : JobDefinition) : JobDefinition :=
  match validate jd with Return jd' => jd' | _ => jd end.

Definition pipeline : JobDefinition :=
  job [task "build" "test" "cleanup"; task "test" "cleanup" ""; task "cleanup" "" ""].

(** [b] and [c] lead to each other. *)
Definition cyclic : JobDefinition :=
  job [task "a" "b" ""; task "b" "c" "d"; task "c" "b" ""; task "d" "" ""].

(** One task with a tag of 1001 bytes. *)
Fixpoint long (n : nat) : string :=
  match n with O => EmptyString | S n => String "x" (long n) end.
Definition tagged : JobDefinition := job [set_Tags (task "a" "" "") [long 1001]].

(** A task that waits for approval on an exit code. *)
Definition approving : JobDefinition :=
  job [AddExitCode (task "a" "b" "") "APPROVE_ME" State.WAIT_FOR_APPROVAL; task "b" "" ""].

Definition b : TaskDefinition := default (task "" "" "") (GetTask (valid cyclic) "b").
Definition c : TaskDefinition := default (task "" "" "") (GetTask (valid cyclic) "c").

End JobDemo.
Import JobDemo.

(** Validation accepts jobs that are not acyclic graphs: here two tasks
    follow each other on completion, so that the job goes round as long as both
    complete. *)
Theorem validation_accepts_cycles :
  validate cyclic = Return (valid cyclic) /\
  GetNextTask (valid cyclic) b State.COMPLETED "" = (Some c, false) /\
  GetNextTask (valid cyclic) c State.COMPLETED "" = (Some b, false).
Proof. split_and!; vm_compute; reflexivity. Qed.

(** The limit on the tags of a job is checked before the tags are collected
    from the tasks, so a definition can pass validation and be rejected the next
    time it is validated, as happens when it is loaded. *)
Theorem tag_limit_is_checked_late :
  validate tagged = Return (valid tagged) /\ validate (valid tagged) = Error TagsTooBig.
Proof. split; vm_compute; reflexivity. Qed.

(** An exit code that maps to WAIT_FOR_APPROVAL makes validation fail,
    because it is missing from the reserved targets, although the status
    override knows it as a request for manual approval. *)
Theorem wait_for_approval_is_rejected :
  validate approving = Error (UndefinedTarget "a" State.WAIT_FOR_APPROVAL) /\
  OverrideStatusAndErrorCode (hd (task "" "" "") (Tasks approving)) "APPROVE_ME" =
    (State.MANUAL_APPROVAL_REQUIRED, ErrorCodes.ErrorManualApprovalRequired).
Proof. split; vm_compute; reflexivity. Qed.

Lemma validated_job_is_well_formed_witness :
  validate pipeline = Return (valid pipeline) /\ validated (valid pipeline).
Proof.
  assert (validate pipeline = Return (valid pipeline)) as E by (vm_compute; reflexivity).
  split; [exact E|]. exact (validated_job_is_well_formed map_to_list_order cron email pipeline _ E).
Defined.

Lemma next_task_follows_exit_codes_witness :
  validated (valid cyclic) /\
  GetNextTask (valid cyclic) (set_OnExitCode b {["GO" := "c"]}) State.FAILED "go" = (Some c, true).
Proof.
  assert (validated (valid cyclic)) as Hv.
  { apply (Validate_validated cron email cyclic). vm_compute. reflexivity. }
  split; [done|].
  assert (c ∈ Tasks (valid cyclic)) as Hin by (apply (v_lookup _ Hv "c"); vm_compute; reflexivity).
  assert (OnExitCode (set_OnExitCode b {["GO" := "c"]}) !! ToUpper "go" = Some (TaskType c)) as Hc
    by (vm_compute; reflexivity).
  assert (ToUpper (TaskType c) ∉ [State.EXECUTING; State.PAUSED; State.PAUSE_JOB; State.COMPLETED; State.FAILED; State.FATAL])
    as Hs by (apply (bool_decide_eq_false_1 (_ ∈ _)); vm_compute; reflexivity).
  exact (proj2 (next_task_follows_exit_codes (valid cyclic) (set_OnExitCode b {["GO" := "c"]})
                  State.FAILED "go" Hv) c Hin Hc Hs).
Defined.

Lemma validation_is_stable_witness :
  validate pipeline = Return (valid pipeline) /\ validate (valid pipeline) = Return (valid pipeline).
Proof.
  assert (validate pipeline = Return (valid pipeline)) as E by (vm_compute; reflexivity).
  split; [done|]. exact (validation_is_stable map_to_list_order cron email pipeline _ E eq_refl).
Defined.

Lemma retention_positive_iff_terminal_witness :
  GetRetentionDays pipeline State.COMPLETED = 7 /\ GetRetentionDays pipeline State.PENDING = 0.
Proof.
  split; [reflexivity|].
  apply (proj2 (retention_positive_iff_terminal pipeline State.PENDING)). reflexivity.
Defined.

Lemma job_retry_delay_bounds_witness :
  0 < fst (Job.GetDelayBetweenRetries (fun _ _ => 0) (Some 3) 0 pipeline).
Proof.
  apply (job_retry_delay_bounds (fun _ _ => 0) (fun _ _ => 0) (Some 3) None 0 1 pipeline); [reflexivity|].
  intros n [= <-]. lia.
Defined.
