(* ===== verification/Execution.v ===== *)
(** * Execution: job and task executions

    Models [src/queen/types/job_execution.go], [task_execution.go] and the
    values of [src/internal/types/name_type_value.go] they keep as contexts.

    The tasks of a job execution are pointers: [Tasks] is a list of addresses
    into [heap], where the objects live as long as the process does, so that an
    object can be shared with the supervisor or be left out of the list.
    A context value is given by its Go type and its text (the string itself, or
    the JSON of any other value).  Costs, which are floating point, the database
    identifiers of contexts and the time stamps other than the end of an
    execution are left out. *)

From S2P Require Import Prelude RequestState Resource JobDefinition.
From Stdlib Require Import Ascii String.

Open Scope Z_scope.

(** ** Context values *)
Module Values.

(** An [interface{}] given to a context: nil, a value JSON cannot represent, or
    a value with its reflected type and its text. *)
Inductive value :=
| Nil
| Unserializable
| Value (kind text : string).

Record NameTypeValue := mkNameTypeValue {
  Name : string;
  Kind : string;
  Value_ : string;
  Secret : bool
}.

Definition maxConfigValueLength : Z := 1000000.

Definition NewNameTypeValue (name : string) (v : value) (secret : bool) : option NameTypeValue :=
  match v with
  | Value kind text =>
      if maxConfigValueLength <? Z.of_nat (String.length text) then None
      else Some (mkNameTypeValue name kind text secret)
  | _ => None
  end.

Definition set_Value (nv : NameTypeValue) (text : string) : NameTypeValue :=
  mkNameTypeValue (Name nv) (Kind nv) text (Secret nv).

(** The contexts of an execution: the list that is saved and the transient table. *)
Record contexts := mkContexts {
  Contexts : list NameTypeValue;
  lookupContexts : gmap string NameTypeValue
}.

Definition no_contexts : contexts := mkContexts [] ∅.

(** [AddContext]: an entry of a known name gets the new text, and keeps its type. *)
Definition AddContext (c : contexts) (name : string) (v : value) : contexts * bool :=
  match NewNameTypeValue name v false with
  | None => (c, false)
  | Some ctx =>
      let list :=
        match lookupContexts c !! name with
        | None => Contexts c ++ [ctx]
        | Some _ => map (fun next => if Name next == name then set_Value next (Value_ ctx) else next)
                      (Contexts c)
        end in
      (mkContexts list (<[name := ctx]> (lookupContexts c)), true)
  end.

Fixpoint remove_first (name : string) (l : list NameTypeValue) : list NameTypeValue * option NameTypeValue :=
  match l with
  | [] => ([], None)
  | c :: rest =>
      if Name c == name then (rest, Some c)
      else let '(rest, found) := remove_first name rest in (c :: rest, found)
  end.

Definition DeleteContext (c : contexts) (name : string) : contexts * option NameTypeValue :=
  match lookupContexts c !! name with
  | None => (c, None)
  | Some _ =>
      let '(l, found) := remove_first name (Contexts c) in
      (mkContexts l (delete name (lookupContexts c)), found)
  end.

Definition GetContext (c : contexts) (name : string) : option NameTypeValue := lookupContexts c !! name.

End Values.

(** ** Task executions *)
Module TaskExec.
Import Values.

Record Artifact := mkArtifact { art_ID : string; art_Kind : string; art_URL : string }.

Record TaskExecution := mkTaskExecution {
  ID : string;
  JobExecutionID : string;
  TaskType : string;
  Method : TaskMethod;
  TaskState : RequestState;
  AllowFailure : bool;
  ExitCode : string;
  ExitMessage : string;
  ErrorCode : string;
  ErrorMessage : string;
  FailedCommand : string;
  AntID : string;
  AntHost : string;
  Retried : Z;
  te_contexts : contexts;
  Artifacts : list Artifact;
  TaskOrder : Z;
  CountServices : Z;
  EndedAt : option Z
}.

Definition NewTaskExecution (task : Task.TaskDefinition) : TaskExecution :=
  mkTaskExecution "" "" (Task.TaskType task) (Task.Method task) State.READY (Task.AllowFailure task)
    "" "" "" "" "" "" "" 0 no_contexts [] 0 0 None.

(** Assignments to fields. *)
Definition set_ID (t : TaskExecution) (x : string) : TaskExecution :=
  mkTaskExecution x (JobExecutionID t) (TaskType t) (Method t) (TaskState t) (AllowFailure t)
    (ExitCode t) (ExitMessage t) (ErrorCode t) (ErrorMessage t) (FailedCommand t) (AntID t)
    (AntHost t) (Retried t) (te_contexts t) (Artifacts t) (TaskOrder t) (CountServices t) (EndedAt t).
Definition set_order (t : TaskExecution) (order : Z) (owner : string) : TaskExecution :=
  mkTaskExecution (ID t) owner (TaskType t) (Method t) (TaskState t) (AllowFailure t)
    (ExitCode t) (ExitMessage t) (ErrorCode t) (ErrorMessage t) (FailedCommand t) (AntID t)
    (AntHost t) (Retried t) (te_contexts t) (Artifacts t) order (CountServices t) (EndedAt t).
Definition set_outcome (t : TaskExecution) (state : RequestState) (exit exitMsg : string)
    : TaskExecution :=
  mkTaskExecution (ID t) (JobExecutionID t) (TaskType t) (Method t) state (AllowFailure t)
    exit exitMsg (ErrorCode t) (ErrorMessage t) (FailedCommand t) (AntID t)
    (AntHost t) (Retried t) (te_contexts t) (Artifacts t) (TaskOrder t) (CountServices t) (EndedAt t).
Definition set_error (t : TaskExecution) (code msg : string) : TaskExecution :=
  mkTaskExecution (ID t) (JobExecutionID t) (TaskType t) (Method t) (TaskState t) (AllowFailure t)
    (ExitCode t) (ExitMessage t) code msg (FailedCommand t) (AntID t)
    (AntHost t) (Retried t) (te_contexts t) (Artifacts t) (TaskOrder t) (CountServices t) (EndedAt t).
Definition set_ant (t : TaskExecution) (ant host command : string) : TaskExecution :=
  mkTaskExecution (ID t) (JobExecutionID t) (TaskType t) (Method t) (TaskState t) (AllowFailure t)
    (ExitCode t) (ExitMessage t) (ErrorCode t) (ErrorMessage t) command ant
    host (Retried t) (te_contexts t) (Artifacts t) (TaskOrder t) (CountServices t) (EndedAt t).
Definition set_Retried (t : TaskExecution) (n : Z) : TaskExecution :=
  mkTaskExecution (ID t) (JobExecutionID t) (TaskType t) (Method t) (TaskState t) (AllowFailure t)
    (ExitCode t) (ExitMessage t) (ErrorCode t) (ErrorMessage t) (FailedCommand t) (AntID t)
    (AntHost t) n (te_contexts t) (Artifacts t) (TaskOrder t) (CountServices t) (EndedAt t).
Definition set_contexts (t : TaskExecution) (c : contexts) : TaskExecution :=
  mkTaskExecution (ID t) (JobExecutionID t) (TaskType t) (Method t) (TaskState t) (AllowFailure t)
    (ExitCode t) (ExitMessage t) (ErrorCode t) (ErrorMessage t) (FailedCommand t) (AntID t)
    (AntHost t) (Retried t) c (Artifacts t) (TaskOrder t) (CountServices t) (EndedAt t).
Definition set_services (t : TaskExecution) (n : Z) : TaskExecution :=
  mkTaskExecution (ID t) (JobExecutionID t) (TaskType t) (Method t) (TaskState t) (AllowFailure t)
    (ExitCode t) (ExitMessage t) (ErrorCode t) (ErrorMessage t) (FailedCommand t) (AntID t)
    (AntHost t) (Retried t) (te_contexts t) (Artifacts t) (TaskOrder t) n (EndedAt t).
Definition AddArtifact (t : TaskExecution) (a : Artifact) : TaskExecution :=
  mkTaskExecution (ID t) (JobExecutionID t) (TaskType t) (Method t) (TaskState t) (AllowFailure t)
    (ExitCode t) (ExitMessage t) (ErrorCode t) (ErrorMessage t) (FailedCommand t) (AntID t)
    (AntHost t) (Retried t) (te_contexts t) (Artifacts t ++ [a]) (TaskOrder t) (CountServices t)
    (EndedAt t).
Definition set_EndedAt (t : TaskExecution) (now : Z) : TaskExecution :=
  mkTaskExecution (ID t) (JobExecutionID t) (TaskType t) (Method t) (TaskState t) (AllowFailure t)
    (ExitCode t) (ExitMessage t) (ErrorCode t) (ErrorMessage t) (FailedCommand t) (AntID t)
    (AntHost t) (Retried t) (te_contexts t) (Artifacts t) (TaskOrder t) (CountServices t) (Some now).

Definition SetStatus (t : TaskExecution) (status : RequestState) : TaskExecution :=
  set_outcome t status (ExitCode t) (ExitMessage t).

(** The errors of [AddContext] are ignored by its callers. *)
Definition AddTaskContext (t : TaskExecution) (name : string) (v : value) : TaskExecution :=
  set_contexts t (fst (AddContext (te_contexts t) name v)).

Definition Validate (t : TaskExecution) : bool := TaskType t != "".

End TaskExec.

(** ** Job executions *)
Module JobExec.
Import Values TaskExec.

Record JobExecution := mkJobExecution {
  je_ID : string;
  JobRequestID : string;
  JobType : string;
  JobState : RequestState;
  CurrentTask : string;
  je_ErrorCode : string;
  je_ErrorMessage : string;
  je_contexts : contexts;
  Tasks : list nat;
  heap : list TaskExecution;
  je_EndedAt : option Z
}.

Definition with_tasks (je : JobExecution) (tasks : list nat) (h : list TaskExecution) : JobExecution :=
  mkJobExecution (je_ID je) (JobRequestID je) (JobType je) (JobState je) (CurrentTask je)
    (je_ErrorCode je) (je_ErrorMessage je) (je_contexts je) tasks h (je_EndedAt je).

(** The object at an address, and the change of an object. *)
Definition deref (je : JobExecution) (p : nat) : option TaskExecution := heap je !! p.
Definition update (je : JobExecution) (p : nat) (f : TaskExecution -> TaskExecution) : JobExecution :=
  with_tasks je (Tasks je) (alter f p (heap je)).

(** The tasks in the order of the list. *)
Definition tasks_of (je : JobExecution) : list TaskExecution := omap (deref je) (Tasks je).

Definition set_contexts (je : JobExecution) (c : contexts) : JobExecution :=
  mkJobExecution (je_ID je) (JobRequestID je) (JobType je) (JobState je) (CurrentTask je)
    (je_ErrorCode je) (je_ErrorMessage je) c (Tasks je) (heap je) (je_EndedAt je).
Definition AddJobContext (je : JobExecution) (name : string) (v : value) : JobExecution :=
  set_contexts je (fst (AddContext (je_contexts je) name v)).
Definition set_state (je : JobExecution) (state : RequestState) (code msg : string) (ended : option Z)
    : JobExecution :=
  mkJobExecution (je_ID je) (JobRequestID je) (JobType je) state (CurrentTask je) code msg
    (je_contexts je) (Tasks je) (heap je) ended.

(** The first address, with its index, whose object satisfies a test. *)
Fixpoint find_task (je : JobExecution) (test : TaskExecution -> bool) (i : nat) (l : list nat)
    : option (nat * nat) :=
  match l with
  | [] => None
  | p :: rest =>
      match deref je p with
      | Some t => if test t then Some (i, p) else find_task je test (S i) rest
      | None => find_task je test (S i) rest
      end
  end.

(** [GetTask]: by identifier, then by type; the index and the address. *)
Definition GetTask (je : JobExecution) (id taskType : string) : option (nat * nat) :=
  let byID := if id != "" then find_task je (fun t => ID t == id) 0 (Tasks je) else None in
  match byID with
  | Some r => Some r
  | None => if taskType != "" then find_task je (fun t => TaskType t == taskType) 0 (Tasks je) else None
  end.

Definition max_order (je : JobExecution) (l : list nat) : Z :=
  foldl (fun m p => match deref je p with
                    | Some t => if m <? TaskOrder t then TaskOrder t else m
                    | None => m
                    end) 0 l.

(** [AddTask]: the new object is put into the list only when no task of its type
    is there. *)
Definition AddTask (je : JobExecution) (task : Task.TaskDefinition) : JobExecution * nat :=
  let te := NewTaskExecution task in
  let p := List.length (heap je) in
  match GetTask je "" (Task.TaskType task) with
  | None =>
      let je1 := with_tasks je (Tasks je ++ [p]) (heap je ++ [te]) in
      (update je1 p (fun t => set_order t (max_order je1 (Tasks je1) + 1) (je_ID je)), p)
  | Some (_, q) =>
      let order := match deref je q with Some old => TaskOrder old | None => 0 end in
      (with_tasks je (Tasks je) (heap je ++ [set_order te order (je_ID je)]), p)
  end.

Definition AddTasks (je : JobExecution) (tasks : list Task.TaskDefinition) : JobExecution :=
  foldl (fun je t => fst (AddTask je t)) je tasks.

Definition DeleteTask (je : JobExecution) (id : string) : JobExecution * bool :=
  match GetTask je id "" with
  | None => (je, false)
  | Some (i, _) => (with_tasks je (take i (Tasks je) ++ drop (S i) (Tasks je)) (heap je), true)
  end.

Definition GetLastTask (je : JobExecution) : option TaskExecution :=
  match last (Tasks je) with Some p => deref je p | None => None end.

Definition GetLastExecutedTask (je : JobExecution) : option TaskExecution :=
  foldl (fun best t =>
           if negb (State.Processing (TaskState t)) &&
              match best with None => true | Some b => TaskOrder b <? TaskOrder t end
           then Some t else best) None (tasks_of je).

(** [GetFailedTaskError]: the first task that failed and may not fail. *)
Definition GetFailedTaskError (je : JobExecution) : option (TaskExecution * string * string) :=
  match List.find (fun t => negb (AllowFailure t) && State.Failed (TaskState t)) (tasks_of je) with
  | Some t => Some (t, ErrorCode t, ErrorMessage t)
  | None => None
  end.

Definition Validate (je : JobExecution) : bool := (JobType je != "") && (JobState je != "").

Definition ValidateBeforeSave (je : JobExecution) : bool :=
  Validate je && forallb TaskExec.Validate (tasks_of je).

End JobExec.
