(* ===== verification/ExecutionSpec.v ===== *)
(** * ExecutionSpec: contexts of executions

    A theorem about [Execution]: the list of contexts that is saved and the table
    behind [GetContext] stay in step over any sequence of calls. *)

From S2P Require Import Prelude RequestState JobDefinition Execution.

Open Scope Z_scope.
Import Values.

(** ** Contexts *)

(** The text saved under a name. *)
Definition text_of (l : list NameTypeValue) (name : string) : option string :=
  Value_ <$> List.find (fun x => Name x == name) l.
Arguments text_of : simpl never.

(** The list names every context once, with the same text as the table. *)
Record in_sync (c : contexts) : Prop := {
  is_names : NoDup (map Name (Contexts c));
  is_text name : Value_ <$> lookupContexts c !! name = text_of (Contexts c) name
}.

Lemma text_of_cons x l name :
  text_of (x :: l) name = if Name x == name then Some (Value_ x) else text_of l name.
Proof. unfold text_of. cbn. by destruct (Name x == name). Qed.

Lemma text_of_None l name : text_of l name = None <-> name ∉ map Name l.
Proof.
  induction l as [|x l IH]; [by split; [intros _; apply not_elem_of_nil|]|].
  rewrite text_of_cons, map_cons, not_elem_of_cons. destruct (Name x == name) eqn:E.
  - apply eqb_string_true in E as ->. naive_solver.
  - apply eqb_string_false in E. rewrite IH. naive_solver.
Qed.

Lemma text_of_snoc l x name :
  Name x ∉ map Name l ->
  text_of (l ++ [x]) name = if Name x == name then Some (Value_ x) else text_of l name.
Proof.
  induction l as [|y l IH]; cbn [app map]; [intros _; apply text_of_cons|].
  rewrite not_elem_of_cons. intros [Hne Hx]. rewrite !text_of_cons, (IH Hx).
  destruct (Name y == name) eqn:E; [|done]. apply eqb_string_true in E as <-.
  by rewrite (proj2 (eqb_string_false _ _) Hne).
Qed.

Lemma text_of_replace l name text m :
  name ∈ map Name l ->
  text_of (map (fun x => if Name x == name then set_Value x text else x) l) m =
  if name == m then Some text else text_of l m.
Proof.
  induction l as [|x l IH]; cbn [map]; [by intros ?%elem_of_nil|].
  rewrite !text_of_cons. destruct (Name x == name) eqn:E; cbn.
  - apply eqb_string_true in E as <-. intros _. destruct (Name x == m) eqn:Em; [done|].
    destruct (decide (Name x ∈ map Name l)) as [Hin|Hout]; [by rewrite IH|].
    clear IH Em. induction l as [|y l IH]; [done|]. cbn [map] in *. apply not_elem_of_cons in Hout as [Hy Hl].
    rewrite !text_of_cons. rewrite (proj2 (eqb_string_false (Name y) (Name x)) ltac:(done)).
    by rewrite (IH Hl).
  - apply eqb_string_false in E. rewrite elem_of_cons. intros [->|Hin]; [done|]. rewrite (IH Hin).
    destruct (Name x == m) eqn:Em; [|done]. apply eqb_string_true in Em as <-.
    by rewrite (proj2 (eqb_string_false name (Name x)) ltac:(done)).
Qed.

Lemma remove_first_names name l : map Name (remove_first name l).1 `sublist_of` map Name l.
Proof.
  induction l as [|x l IH]; cbn; [done|]. destruct (Name x == name); cbn; [by constructor|].
  destruct (remove_first name l) as [rest found]. cbn in *. by constructor.
Qed.

Lemma text_of_remove name l m :
  NoDup (map Name l) ->
  text_of (remove_first name l).1 m = if name == m then None else text_of l m.
Proof.
  induction l as [|x l IH]; cbn [map]; [by destruct (name == m)|]. intros [Hx Hl]%NoDup_cons. cbn.
  destruct (Name x == name) eqn:E; cbn.
  - apply eqb_string_true in E as <-. rewrite text_of_cons. destruct (Name x == m) eqn:Em; [|done].
    apply eqb_string_true in Em as <-. by apply text_of_None.
  - specialize (IH Hl). destruct (remove_first name l) as [rest found]. cbn in *.
    rewrite !text_of_cons, IH. destruct (Name x == m) eqn:Em; [|done].
    apply eqb_string_true in Em as <-. apply eqb_string_false in E.
    by rewrite (proj2 (eqb_string_false name (Name x)) ltac:(done)).
Qed.

Lemma map_Name_replace l name text :
  map Name (map (fun x => if Name x == name then set_Value x text else x) l) = map Name l.
Proof. induction l as [|x l IH]; cbn; [done|]. rewrite IH. by destruct (Name x == name). Qed.

Lemma AddContext_in_sync c name v : in_sync c -> in_sync (fst (AddContext c name v)).
Proof.
  intros [HN HT]. unfold AddContext. destruct (NewNameTypeValue name v false) as [ctx|] eqn:EV; [|done].
  assert (Name ctx = name) as Hn by (destruct v; simplify_eq/=; case_match; by simplify_eq/=).
  pose proof (HT name) as Hname. destruct (lookupContexts c !! name) as [old|] eqn:EL; cbn in Hname; cbn [fst].
  - assert (name ∈ map Name (Contexts c)) as Hin.
    { destruct (decide (name ∈ map Name (Contexts c))) as [|Hout%text_of_None]; [done|congruence]. }
    split; cbn; [by rewrite map_Name_replace|]. intros m. rewrite (text_of_replace _ _ _ m Hin).
    destruct (name == m) eqn:E; [apply eqb_string_true in E as <-; by rewrite lookup_insert_eq|].
    apply eqb_string_false in E. by rewrite lookup_insert_ne.
  - assert (name ∉ map Name (Contexts c)) as Hout by (by apply text_of_None). rewrite <- Hn in Hout.
    split; cbn.
    + rewrite map_app. apply NoDup_app. split_and!; [done| |apply NoDup_singleton].
      intros k Hk ->%list_elem_of_singleton. done.
    + intros m. rewrite (text_of_snoc _ _ m Hout), Hn.
      destruct (name == m) eqn:E; [apply eqb_string_true in E as <-; by rewrite lookup_insert_eq|].
      apply eqb_string_false in E. by rewrite lookup_insert_ne.
Qed.

Lemma DeleteContext_in_sync c name : in_sync c -> in_sync (fst (DeleteContext c name)).
Proof.
  intros [HN HT]. unfold DeleteContext. destruct (lookupContexts c !! name) as [old|] eqn:EL; [|done].
  pose proof (remove_first_names name (Contexts c)) as HS.
  pose proof (fun m => text_of_remove name (Contexts c) m HN) as HR.
  destruct (remove_first name (Contexts c)) as [l found]. cbn in *. split; cbn.
  - by eapply sublist_NoDup.
  - intros m. rewrite HR. destruct (name == m) eqn:E.
    + apply eqb_string_true in E as <-. by rewrite lookup_delete_eq.
    + apply eqb_string_false in E. by rewrite lookup_delete_ne.
Qed.

(** The calls that change the contexts of an execution. *)
Inductive context_call := CallAdd (name : string) (v : value) | CallDelete (name : string).

Definition do_call (c : contexts) (o : context_call) : contexts :=
  match o with
  | CallAdd name v => fst (AddContext c name v)
  | CallDelete name => fst (DeleteContext c name)
  end.

(** After any sequence of calls on a new execution, the list of contexts that
    is saved names each context once and holds the text that [GetContext] gives;
    and adding a context makes it the answer of [GetContext] for its name and
    leaves the other names alone. *)
Theorem contexts_stay_in_sync (calls : list context_call) name v other :
  let c := foldl do_call no_contexts calls in
  in_sync c /\
  GetContext (fst (AddContext c name v)) other =
    match NewNameTypeValue name v false with
    | Some ctx => if decide (other = name) then Some ctx else GetContext c other
    | None => GetContext c other
    end.
Proof.
  cbn zeta. split.
  - assert (in_sync no_contexts) as H0 by (split; [constructor|done]). revert H0.
    generalize no_contexts. induction calls as [|o l IH]; intros c Hc; cbn [foldl]; [done|]. apply IH.
    destruct o; [by apply AddContext_in_sync|by apply DeleteContext_in_sync].
  - unfold AddContext, GetContext. destruct (NewNameTypeValue name v false) as [ctx|]; [|done].
    cbn. destruct (decide (other = name)) as [->|Hne]; [by rewrite lookup_insert_eq|by rewrite lookup_insert_ne].
Qed.

(** A context that is given a value of another type is saved with the type it had
    at first: here a text is saved as an integer, so the row cannot be parsed
    when the execution is loaded. *)
Example context_keeps_its_first_type :
  let c := foldl do_call no_contexts
             [CallAdd "x" (Value "int" "7"); CallAdd "x" (Value "string" "seven")] in
  Contexts c = [mkNameTypeValue "x" "int" "seven" false] /\
  GetContext c "x" = Some (mkNameTypeValue "x" "string" "seven" false).
Proof. vm_compute. split; reflexivity. Qed.
