(* ===== verification/Supervisor.v ===== *)
(** * Supervisor: running a job and its tasks

    Models [src/queen/supervisor] (the job and task supervisors) and the parts
    of [src/queen/fsm] they drive: the task state machine, retries, the reuse of
    earlier results, error codes, pausing, restarting and finishing a job.

    The supervisor talks to ants, the database, the resource manager and the
    event bus.  Each call that leaves the process is an [event] appended to the
    trace of the run, and each answer is a function of the trace so far: an
    [Env] is an arbitrary environment, and theorems hold for all of them.
    Errors are their messages, which the code inspects.  Life-cycle events of
    other goroutines are delivered between tasks.

    The loop over replies and the recursion over tasks take fuel; [None] is a
    run that needs more of it.  Left out: log output, metrics and tracing, audit
    records, webhooks, the ticker that checks the quota, the lengths of delays,
    the standard output and the cost factor of a task, the error fields of the
    request object, and the fields of a request to an ant that are copied from
    the definition. *)

From S2P Require Import Prelude RequestState Resource JobDefinition Execution.
From Stdlib Require Import Ascii String.
From stdpp Require Import pretty.

Open Scope Z_scope.
Import Values TaskExec JobExec.

(** ** Requests, responses and the environment *)

(** The task a YAML template yields; the fields that [Task.TaskDefinition] lacks
    are next to it. *)
Record DynamicTask := mkDynamicTask {
  def : Task.TaskDefinition;
  Dependencies : list string;
  ArtifactIDs : list string;
  Services : list Z;            (* instances of each service *)
  HasApprovalPolicy : bool
}.

Record TaskRequest := mkTaskRequest {
  rq_TaskType : string;
  rq_TaskExecutionID : string;
  rq_Method : TaskMethod;
  JobRetry : Z;
  TaskRetry : Z;
  DependentArtifactIDs : list string
}.

Record TaskResponse := mkTaskResponse {
  Status : RequestState;
  Host : string;
  rs_ErrorMessage : string;
  rs_ErrorCode : string;
  rs_ExitCode : string;
  rs_ExitMessage : string;
  rs_FailedCommand : string;
  TaskContext : gmap string value;
  JobContext : gmap string value;
  rs_Artifacts : list Artifact;
  Warnings : list string
}.

Definition NewTaskResponse : TaskResponse :=
  mkTaskResponse State.UNKNOWN "" "" "" "" "" "" ∅ ∅ [] [].

Definition ErrorResponse (err : string) : TaskResponse :=
  mkTaskResponse State.FAILED "" err "" "" "" "" ∅ ∅ [] [].

Definition set_Status (r : TaskResponse) (x : RequestState) : TaskResponse :=
  mkTaskResponse x (Host r) (rs_ErrorMessage r) (rs_ErrorCode r) (rs_ExitCode r) (rs_ExitMessage r)
    (rs_FailedCommand r) (TaskContext r) (JobContext r) (rs_Artifacts r) (Warnings r).
Definition set_rs_ErrorCode (r : TaskResponse) (x : string) : TaskResponse :=
  mkTaskResponse (Status r) (Host r) (rs_ErrorMessage r) x (rs_ExitCode r) (rs_ExitMessage r)
    (rs_FailedCommand r) (TaskContext r) (JobContext r) (rs_Artifacts r) (Warnings r).
Definition set_rs_ErrorMessage (r : TaskResponse) (x : string) : TaskResponse :=
  mkTaskResponse (Status r) (Host r) x (rs_ErrorCode r) (rs_ExitCode r) (rs_ExitMessage r)
    (rs_FailedCommand r) (TaskContext r) (JobContext r) (rs_Artifacts r) (Warnings r).
Definition set_Warnings (r : TaskResponse) (x : list string) : TaskResponse :=
  mkTaskResponse (Status r) (Host r) (rs_ErrorMessage r) (rs_ErrorCode r) (rs_ExitCode r)
    (rs_ExitMessage r) (rs_FailedCommand r) (TaskContext r) (JobContext r) (rs_Artifacts r) x.
Definition AddResponseContext (r : TaskResponse) (name : string) (v : value) : TaskResponse :=
  mkTaskResponse (Status r) (Host r) (rs_ErrorMessage r) (rs_ErrorCode r) (rs_ExitCode r)
    (rs_ExitMessage r) (rs_FailedCommand r) (<[name := v]> (TaskContext r)) (JobContext r)
    (rs_Artifacts r) (Warnings r).

Definition AdditionalError (r : TaskResponse) (warning : string) (fatal : bool) : TaskResponse :=
  let warning := TrimSpace warning in
  if warning == "" then r
  else if fatal && (Status r != State.FAILED)
       then set_Status (set_rs_ErrorMessage r warning) State.FAILED
  else set_Warnings r (Warnings r ++ [warning]).

(** The calls that leave the process. *)
Inductive event :=
| EvSend (topic taskType : string) (jobRetry taskRetry : Z)
| EvSaveTask (t : TaskExecution)
| EvDeleteTask (id : string)
| EvTaskState (id : string) (old new : RequestState)
| EvSaveContexts
| EvJobState (old new : RequestState) (task : string)
| EvFinalizeJob (old new : RequestState) (code : string) (retried : Z)
| EvRequestState (old new : RequestState) (code : string) (retried : Z)
| EvJobLifecycle (state : RequestState)
| EvTaskLifecycle (taskType : string) (state : RequestState)
| EvDeadline (taskExecutionID : string)
| EvReserve (taskType : string) (method : TaskMethod)
| EvRelease (r : Ants.AntReservation)
| EvReleaseJob
| EvMatchError (message : string)
| EvSaveArtifact (a : Artifact)
| EvSleep (attempt : Z).

(** What an ant's answer to a request can be. *)
Inductive delivery :=
| DeliveryError (msg : string)      (* not sent, no answer, or an empty one *)
| BadPayload (msg : string)         (* an answer that cannot be decoded *)
| Delivered (r : TaskResponse).

Class Env := {
  now : list event -> Z;
  newID : list event -> string;
  ctx_err : list event -> option string;             (* the deadline of the context *)
  db_err : list event -> option string;              (* the last database call *)
  deliver : list event -> TaskRequest -> delivery;
  marshal_err : list event -> TaskRequest -> option string;
  request_err : list event -> TaskRequest -> option string;  (* TaskRequest.Validate *)
  dynamic_task : list event -> contexts -> string -> string + DynamicTask;
  registration : list event -> string -> option Ants.AntRegistration;
  reserve_ant : list event -> string + Ants.AntReservation;
  match_error : list event -> option ErrorCodes.ErrorCode;
  artifact_err : list event -> option string;         (* saving an artifact: the warning *)
  previous_cost : list event -> TaskExecution -> Z;   (* ExecutionCostSecs *)
  parse : string -> string -> value;                  (* numbers and JSON *)
  json : list string -> string;
  timings : list event -> string;                     (* times as text, for messages *)
  requested_at : list event -> string;
  elapsed_text : list event -> string;
  job_error_text : Job.job_error -> string;           (* the message of an error *)
  lifecycle : list event -> list (string * RequestState)
}.

(** ** The state of a run *)
Record Request := mkRequest {
  ReqID : string;
  ReqState : RequestState;
  ReqRetried : Z;
  PausedCount : Z;
  HardRestart : bool
}.

Record St := mkSt {
  exec : JobExecution;
  req : Request;
  errorCode : option ErrorCodes.ErrorCode;
  cancelled : bool;
  trace : list event
}.

(** What the state machine was created with. *)
Record Machine := mkMachine {
  jd : Job.JobDefinition;
  LastJobExecution : option JobExecution;
  Reservations : gmap string Ants.AntReservation;
  revertState : RequestState;
  AliveTimeout : Z;
  Version : Z                   (* of the job definition *)
}.

(** The task state machine. *)
Record Tsm := mkTsm {
  taskType : string;
  td : DynamicTask;
  te : nat;
  LastTaskExecution : option TaskExecution;
  Reservation : option Ants.AntReservation
}.

Section Supervisor.
Context {RO : RangeOrder} {EV : Env} (M : Machine).

Definition emit (s : St) (e : event) : St :=
  mkSt (exec s) (req s) (errorCode s) (cancelled s) (trace s ++ [e]).
Definition db (s : St) (e : event) : St * option string :=
  let s := emit s e in (s, db_err (trace s)).
Definition with_exec (s : St) (je : JobExecution) : St :=
  mkSt je (req s) (errorCode s) (cancelled s) (trace s).
Definition upd (s : St) (p : nat) (f : TaskExecution -> TaskExecution) : St :=
  with_exec s (update (exec s) p f).
Definition with_errorCode (s : St) (c : option ErrorCodes.ErrorCode) : St :=
  mkSt (exec s) (req s) c (cancelled s) (trace s).
Definition with_req (s : St) (r : Request) : St :=
  mkSt (exec s) r (errorCode s) (cancelled s) (trace s).
Definition cancel (s : St) : St := mkSt (exec s) (req s) (errorCode s) true (trace s).

Definition ctxErr (s : St) : option string :=
  if cancelled s then Some "context canceled" else ctx_err (trace s).

(** The object of the task state machine. *)
Definition cur (s : St) (t : Tsm) : TaskExecution :=
  default (NewTaskExecution (def (td t))) (deref (exec s) (te t)).

Definition set_ReqState (r : Request) (x : RequestState) : Request :=
  mkRequest (ReqID r) x (ReqRetried r) (PausedCount r) (HardRestart r).
Definition IncrRetried (r : Request) : Request :=
  mkRequest (ReqID r) (ReqState r) (ReqRetried r + 1) (PausedCount r) (HardRestart r).
Definition IncrPausedCount (r : Request) : Request :=
  mkRequest (ReqID r) (ReqState r) (ReqRetried r) (PausedCount r + 1) (HardRestart r).

(** ** The task state machine *)

(** [SaveTask] of the repository gives a new object its identifier, also when
    the transaction then fails. *)
Definition SaveTask (s : St) (p : nat) : St * option string :=
  match deref (exec s) p with
  | None => (s, None)
  | Some t =>
      if negb (TaskExec.Validate t) then (s, Some "taskType is not specified")
      else
        let s := upd s p (fun t =>
          if ID t != "" then
            if State.CanFinalize (TaskState t) then set_EndedAt t (now (trace s)) else t
          else set_ID t (newID (trace s))) in
        match deref (exec s) p with
        | Some t => db s (EvSaveTask t)
        | None => (s, None)
        end
  end.

Definition previousTaskExecutionCostSecs : string := "PreviousTaskExecutionCostSecs".

(** The second context is named by the parameter, which hides the constant. *)
Definition AddPreviousExecutionCostSecs (t : TaskExecution) (previousTaskExecutionID : string)
    (secs : Z) : TaskExecution :=
  if 0 <? secs then
    AddTaskContext
      (AddTaskContext t previousTaskExecutionCostSecs (Value "int64" (pretty secs)))
      previousTaskExecutionID (Value "string" previousTaskExecutionID)
  else t.

(** The second half of [NewTaskExecutionStateMachine]: a new task execution. *)
Definition create_task (s : St) (taskType : string) (td : DynamicTask) (prev : option (string * Z))
    : St * (string + Tsm) :=
  let '(je, p) := AddTask (exec s) (def td) in
  let s := with_exec s je in
  let s := match prev with
           | Some (id, secs) => upd s p (fun t => AddPreviousExecutionCostSecs t id secs)
           | None => s
           end in
  match SaveTask s p with
  | (s, Some e) =>
      (upd s p (fun t => set_error (SetStatus t State.FAILED) (ErrorCode t) e), inl e)
  | (s, None) => (s, inr (mkTsm taskType td p None None))
  end.

Definition NewTaskExecutionStateMachine (s : St) (taskType : string) : St * (string + Tsm) :=
  let found := GetTask (exec s) "" taskType in
  match dynamic_task (trace s) (je_contexts (exec s)) taskType with
  | inl e => (s, inl e)
  | inr td =>
      match found with
      | None => create_task s taskType td None
      | Some (_, p) =>
          match deref (exec s) p with
          | None => create_task s taskType td None
          | Some t =>
              if State.Completed (TaskState t) then (s, inr (mkTsm taskType td p None None))
              else
                let secs := previous_cost (trace s) t in
                let s := with_exec s (fst (DeleteTask (exec s) (ID t))) in
                match db s (EvDeleteTask (ID t)) with
                | (s, Some e) => (s, inl ("failed to delete old task due to " +:+ e))
                | (s, None) => create_task s taskType td (Some (ID t, secs))
                end
          end
      end
  end.

Definition ant_error_text (e : Ants.ant_error) : string :=
  match e with
  | Ants.AntIDNotSpecified => "antID is not specified for ant reservation"
  | Ants.AntTopicNotSpecified => "antTopic is not specified for ant reservation"
  | Ants.MethodsNotSpecified => "methods is not specified"
  end.

(** [validateAntAllocation]: keep the reservation while its ant is registered and
    supports the task, else reserve again. *)
Definition validateAntAllocation (s : St) (td : Task.TaskDefinition) (r : Ants.AntReservation)
    : St * (string + Ants.AntReservation) :=
  let reserve s :=
    let s := emit s (EvReserve (Task.TaskType td) (Task.Method td)) in (s, reserve_ant (trace s)) in
  match Ants.ValidateReservation r with
  | Some e => (s, inl (ant_error_text e))
  | None =>
      match registration (trace s) (Ants.res_AntID r) with
      | None => reserve s
      | Some ant =>
          if Ants.Supports (now (trace s)) ant (Task.Method td) (Task.Tags td) (AliveTimeout M)
          then (s, inr r)
          else reserve (emit s (EvRelease r))
      end
  end.

Definition PrepareExecution (s : St) (t : Tsm) : St * (string + Tsm) :=
  match ctxErr s with
  | Some e => (s, inl e)
  | None =>
      match Reservations M !! taskType t with
      | None =>
          (s, inl ("no ant found to execute the task '" +:+ taskType t +:+
                   "'  because matching ants not found in reservations (" +:+
                   pretty (size (Reservations M)) +:+ ")"))
      | Some r =>
          match Ants.ValidateReservation r with
          | Some e => (s, inl (ant_error_text e))
          | None =>
              match validateAntAllocation s (def (td t)) r with
              | (s, inl e) =>
                  (upd s (te t) (fun x =>
                     set_error (SetStatus x State.FAILED) ErrorCodes.ErrorAntsUnavailable e),
                   inl ("failed to validate ant reservation for task '" +:+ taskType t +:+
                        "'  due to " +:+ e))
              | (s, inr r) =>
                  let last :=
                    match LastJobExecution M with
                    | Some je => match GetTask je "" (Task.TaskType (def (td t))) with
                                 | Some (_, p) => deref je p
                                 | None => None
                                 end
                    | None => None
                    end in
                  let s := upd s (te t) (fun x =>
                    AddTaskContext
                      (AddTaskContext (set_ant x (Ants.res_AntID r) (AntHost x) (FailedCommand x))
                         "AntTopic" (Value "string" (Ants.res_AntTopic r)))
                      "AntID" (Value "string" (Ants.res_AntID r))) in
                  (s, inr (mkTsm (taskType t) (td t) (te t) last (Some r)))
              end
          end
      end
  end.

Definition SetTaskToExecuting (s : St) (t : Tsm) : St * option string :=
  let s := upd s (te t) (fun x => SetStatus x State.EXECUTING) in
  let '(s, err) := db s (EvTaskState (ID (cur s t)) State.READY State.EXECUTING) in
  (emit s (EvTaskLifecycle (TaskExec.TaskType (cur s t)) State.EXECUTING), err).

(** The error of saving the task is only logged by the caller. *)
Definition FinalizeTaskState (s : St) (t : Tsm) : St :=
  let s := upd s (te t) (fun x =>
    set_EndedAt (if State.Completed (TaskState x) then set_error x "" "" else x) (now (trace s))) in
  let s := emit s EvSaveContexts in
  let '(s, _) := SaveTask s (te t) in
  emit s (EvTaskLifecycle (TaskExec.TaskType (cur s t)) (TaskState (cur s t))).

Definition DoesRequireFullRestart (s : St) : bool :=
  HardRestart (req s)
  || ((0 <? Job.HardResetAfterRetries (jd M)) && (0 <? ReqRetried (req s))
      && (Z.rem (ReqRetried (req s)) (Job.HardResetAfterRetries (jd M) + 1) =? 0)).

Definition CanReusePreviousResult (s : St) (t : Tsm) : bool :=
  negb (DoesRequireFullRestart s)
  && match LastTaskExecution t with Some x => State.Completed (TaskState x) | None => false end.

(** The artifacts of the tasks a task depends on. *)
Definition ArtifactKindTask : string := "TASK_ARTIFACTS".
Fixpoint dependent_artifacts (je : JobExecution) (deps : list string) : string + list string :=
  match deps with
  | [] => inr []
  | dep :: rest =>
      match List.find (fun x => dep == TaskExec.TaskType x) (tasks_of je) with
      | None => inl dep
      | Some x =>
          match dependent_artifacts je rest with
          | inl e => inl e
          | inr ids =>
              inr (map art_ID (List.filter (fun a => art_Kind a == ArtifactKindTask) (Artifacts x)) ++ ids)
          end
      end
  end.

Definition BuildTaskRequest (s : St) (t : Tsm) : string + TaskRequest :=
  match dependent_artifacts (exec s) (Dependencies (td t)) with
  | inl dep => inl ("failed to find artifacts from dependent task '" +:+ dep +:+ "' for task '" +:+
                    Task.TaskType (def (td t)) +:+ "'")
  | inr ids =>
      let r := mkTaskRequest (Task.TaskType (def (td t))) (ID (cur s t)) (Task.Method (def (td t)))
                 (ReqRetried (req s)) (Retried (cur s t)) (ArtifactIDs (td t) ++ ids) in
      match request_err (trace s) r with Some e => inl e | None => inr r end
  end.

(** [GetParsedValue]: strings and booleans, else the parsers of the library. *)
Definition GetParsedValue (nv : NameTypeValue) : value :=
  if (Kind nv == "string") || (Kind nv == "types.RequestState") then Value "string" (Value_ nv)
  else if Kind nv == "bool" then Value "bool" (if Value_ nv == "true" then "true" else "false")
  else parse (Kind nv) (Value_ nv).

Definition BuildTaskResponseFromPreviousResult (s : St) (t : Tsm) : string + TaskResponse :=
  match BuildTaskRequest s t, LastTaskExecution t with
  | inl e, _ => inl e
  | inr _, None => inl ""
  | inr _, Some x =>
      let parsed := List.filter (fun '(_, v) => match v with Value _ _ => true | _ => false end)
                      (map (fun c => (Name c, GetParsedValue c)) (Contexts (te_contexts x))) in
      inr (mkTaskResponse (TaskState x) (AntHost x) "" "" (ExitCode x) (ExitMessage x)
             (FailedCommand x) (foldl (fun m '(k, v) => <[k := v]> m) ∅ parsed) ∅ (Artifacts x) [])
  end.

Definition SetFailed (s : St) (t : Tsm) (err : string) : St :=
  upd s (te t) (fun x =>
    let x := AddTaskContext x "OldStatus" (Value "types.RequestState" (TaskState x)) in
    let x := SetStatus x State.FAILED in
    let code := if ErrorCode x == ""
                then if Contains err "context deadline" then ErrorCodes.ErrorTaskTimedOut
                     else ErrorCodes.ErrorTaskExecute
                else ErrorCode x in
    set_error x code err).

Definition CanRetry (s : St) (t : Tsm) : bool :=
  (Retried (cur s t) <? Task.Retry (def (td t)) + 1)
  || match errorCode s with
     | Some c => (ErrorCodes.Action c == ErrorCodes.RetryTask)
                 && (Retried (cur s t) <? ErrorCodes.Retry c + 1)
     | None => false
     end.

(** Artifacts are saved one by one; a failure turns the response into an error. *)
Fixpoint updateArtifactsFromResponse (s : St) (t : Tsm) (i : Z) (l : list Artifact) (r : TaskResponse)
    : St * TaskResponse :=
  match l with
  | [] => (s, r)
  | a :: rest =>
      let s := emit s (EvSaveArtifact a) in
      match artifact_err (trace s) with
      | Some e =>
          updateArtifactsFromResponse s t (i + 1) rest
            (AdditionalError r e true)
      | None =>
          let s := with_exec s (AddJobContext (exec s)
                     (taskType t +:+ "_ArtifactURL_" +:+ pretty (i + 1)) (Value "string" (art_URL a))) in
          updateArtifactsFromResponse (upd s (te t) (fun x => AddArtifact x a)) t (i + 1) rest r
      end
  end.

Definition count_services (l : list Z) : Z :=
  foldl (fun n i => if 1 <? i then n + (i - 1) else n) (Z.of_nat (List.length l)) l.

(** The error part of [UpdateTaskFromResponse]; the returned error is the one
    the retry loop looks at. *)
Definition update_error (s : St) (t : Tsm) (r : TaskResponse) : St * TaskResponse * option string :=
  if Status r == State.COMPLETED then
    (upd s (te t) (fun x => set_error x "" ""), r, None)
  else if (Status r != State.MANUAL_APPROVAL_REQUIRED) && (Status r != State.PAUSED) then
    let s := emit s (EvMatchError (rs_ErrorMessage r)) in
    let code := match_error (trace s) in
    let s := with_errorCode s code in
    let r := match code with Some c => set_rs_ErrorCode r (ErrorCodes.Code c) | None => r end in
    let r := if rs_ErrorCode r == ""
             then set_rs_ErrorCode r (if Contains (rs_ErrorMessage r) "context deadline"
                                      then ErrorCodes.ErrorTaskTimedOut else ErrorCodes.ErrorTaskExecute)
             else r in
    (upd s (te t) (fun x => set_error x (rs_ErrorCode r) (rs_ErrorMessage r)), r,
     Some ("[tsm] ant failed to execute task '" +:+ taskType t +:+ "' due to '" +:+
           rs_ErrorMessage r +:+ "'"))
  else (s, r, None).

Definition UpdateTaskFromResponse (s : St) (t : Tsm) (rq : TaskRequest) (r : TaskResponse)
    : St * TaskResponse * option string :=
  let s := foldl (fun s '(k, v) => upd s (te t) (fun x => AddTaskContext x k v)) s (range (TaskContext r)) in
  let s := foldl (fun s '(k, v) => with_exec s (AddJobContext (exec s) k v)) s (range (JobContext r)) in
  let ant := match Reservation t with Some r => Ants.res_AntID r | None => "" end in
  let s := upd s (te t) (fun x =>
    set_services
      (set_outcome (set_ant x ant (Host r) (rs_FailedCommand r)) (Status r) (rs_ExitCode r)
         (rs_ExitMessage r))
      (count_services (Services (td t)))) in
  let '(s, r, err) := update_error s t r in
  let '(s, r) := updateArtifactsFromResponse s t 0 (rs_Artifacts r) r in
  let s := match Warnings r with
           | [] => s
           | l => upd s (te t) (fun x => AddTaskContext x "Warnings" (Value "[]string" (json l)))
           end in
  let s := if Method.SupportsCache (rq_Method rq)
           then upd s (te t) (fun x => AddTaskContext x "Timings" (Value "string" (timings (trace s))))
           else s in
  (s, r, err).

(** ** The task supervisor *)

(** The exit-code table of the task replaces status and error code. *)
Definition override_response (d : Task.TaskDefinition) (r : TaskResponse) : TaskResponse :=
  let '(newState, newErrorCode) := Task.OverrideStatusAndErrorCode d (rs_ExitCode r) in
  if newState != "" then
    let r := set_Status r newState in
    let r := if rs_ErrorCode r != ""
             then AddResponseContext r "OriginalErrorCode" (Value "string" (rs_ErrorCode r))
             else r in
    if newErrorCode != "" then set_rs_ErrorCode r newErrorCode else r
  else r.

(** [invoke]: send the request to the ant and apply the exit-code table.  The
    reservation was set by [PrepareExecution]. *)
Definition invoke (s : St) (t : Tsm) (rq : TaskRequest) : St * (string + TaskResponse) :=
  let rq := mkTaskRequest (rq_TaskType rq) (rq_TaskExecutionID rq) (rq_Method rq)
              (ReqRetried (req s)) (Retried (cur s t)) (DependentArtifactIDs rq) in
  match marshal_err (trace s) rq, Reservation t with
  | Some e, _ => (s, inl e)
  | None, None => (s, inl "")
  | None, Some r =>
      let s := upd s (te t) (fun x => set_ant x (Ants.res_AntID r) (AntHost x) (FailedCommand x)) in
      match NewNameTypeValue "AntTopic" (Value "string" (Ants.res_AntTopic r)) false with
      | None => (s, inl "failed to add context")
      | Some _ =>
          let s := upd s (te t) (fun x =>
            AddTaskContext x "AntTopic" (Value "string" (Ants.res_AntTopic r))) in
          let s := emit s (EvSend (Ants.res_AntTopic r) (rq_TaskType rq) (JobRetry rq) (TaskRetry rq)) in
          match deliver (trace s) rq with
          | DeliveryError e => (s, inl e)
          | BadPayload e => (s, inr (ErrorResponse e))
          | Delivered r => (s, inr (override_response (def (td t)) r))
          end
      end
  end.

(** [invokeManual]: no message is sent, the task waits for approval. *)
Definition invokeManual (s : St) (t : Tsm) : St * (string + TaskResponse) :=
  let s := upd s (te t) (fun x =>
    let x := set_ant x Method.Manual (AntHost x) (FailedCommand x) in
    let x := AddTaskContext x "ManualApprovalRequired" (Value "bool" "true") in
    let x := AddTaskContext x "ManualApprovalRequestedAt" (Value "string" (requested_at (trace s))) in
    AddTaskContext x "AwaitingApprovalFor" (Value "string" (Task.TaskType (def (td t))))) in
  let msg := "Task '" +:+ Task.TaskType (def (td t)) +:+ "' requires manual approval" in
  let r := mkTaskResponse State.MANUAL_APPROVAL_REQUIRED "" msg "" "AWAITING_APPROVAL" msg "" ∅ ∅ [] [] in
  let s := if ID (cur s t) != "" then emit s (EvDeadline (ID (cur s t))) else s in
  (s, inr r).

(** The retry loop of [tryExecuteTask].  An error of the call, or of the
    context, ends it and leaves the task as it is. *)
Fixpoint task_loop (fuel : nat) (executing : bool) (s : St) (t : Tsm) (rq : TaskRequest) : option St :=
  match fuel with
  | O => None
  | S fuel =>
      if CanRetry s t || executing then
        let '(s, result) :=
          if Task.Method (def (td t)) == Method.Manual then invokeManual s t else invoke s t rq in
        match result, ctxErr s with
        | inl _, _ => Some s
        | inr _, Some _ => Some s
        | inr r, None =>
            let '(s, r, err) := UpdateTaskFromResponse s t rq r in
            let executing := Status r == State.EXECUTING in
            if negb executing
               && (match err with None => true | Some _ => false end
                   || (Task.Retry (def (td t)) <=? Retried (cur s t)) || (Status r == State.FATAL))
            then Some s
            else
              let s := emit s (EvSleep (Retried (cur s t))) in
              task_loop fuel executing (upd s (te t) (fun x => set_Retried x (Retried x + 1))) t rq
        end
      else Some s
  end.

Definition tryExecuteTask (fuel : nat) (s : St) (t : Tsm) : option (St * option string) :=
  if Task.IsExcept (def (td t)) then
    let s := upd s (te t) (fun x =>
      set_outcome (AddTaskContext x "Except" (Value "string" (Task.Except (def (td t)))))
        State.COMPLETED "SKIPPED" "Skipped task due to except flag") in
    Some (s, None)
  else
    match BuildTaskRequest s t with
    | inl e => Some (s, Some ("failed to build request for '" +:+ Task.TaskType (def (td t)) +:+
                              "' due to " +:+ e))
    | inr rq =>
        match (if CanReusePreviousResult s t then BuildTaskResponseFromPreviousResult s t else inl "") with
        | inr r =>
            let last := match LastTaskExecution t with Some x => ID x | None => "" end in
            let s := upd s (te t) (fun x =>
              AddTaskContext x "ReusedPreviousResultFromTaskExecution" (Value "string" last)) in
            let '(s, _, err) := UpdateTaskFromResponse s t rq r in Some (s, err)
        | inl _ => option_map (fun s => (s, None)) (task_loop fuel true s t rq)
        end
    end.

(** The deferred part of [execute]: a task that is not in a final state fails. *)
Definition finish_task (s : St) (t : Tsm) (err : option string) : St * option string :=
  let '(s, err) :=
    if State.CanFinalize (TaskState (cur s t)) then (s, err)
    else
      let msg := match err with
                 | Some e => e
                 | None => match ctxErr s with
                           | Some e => e +:+ " " +:+ elapsed_text (trace s)
                           | None => "unknown error executing task " +:+ elapsed_text (trace s)
                           end
                 end in
      (SetFailed s t msg, Some msg) in
  (FinalizeTaskState s t, err).

(** [TaskSupervisor.Execute]; the machine as the caller sees it afterwards. *)
Definition Execute (fuel : nat) (s : St) (t : Tsm) : option (St * option string) :=
  if State.Completed (TaskState (cur s t)) then Some (s, None)
  else
    match PrepareExecution s t with
    | (s, inl e) => Some (finish_task s t (Some ("failed to prepare task for execution due to " +:+ e)))
    | (s, inr t) =>
        match SetTaskToExecuting s t with
        | (s, Some e) => Some (finish_task s t (Some e))
        | (s, None) =>
            match tryExecuteTask fuel s t with
            | None => None
            | Some (s, err) => Some (finish_task s t err)
            end
        end
    end.

(** ** The job state machine *)

(** [failed]: fail or cancel the execution; when that cannot be saved, the
    request alone is updated. *)
Definition failed (s : St) (oldState : RequestState) (isCancel : bool) (err code : string)
    : St * option string :=
  let code := if code == "" then ErrorCodes.ErrorJobExecute else code in
  let s := with_req s (set_ReqState (req s) State.FAILED) in
  let newState := if isCancel then State.CANCELLED else State.FAILED in
  let code := if isCancel then ErrorCodes.ErrorJobCancelled else code in
  let s := with_exec s (set_state (exec s) newState code err (Some (now (trace s)))) in
  match db s (EvFinalizeJob oldState newState code (ReqRetried (req s))) with
  | (s, None) => (s, None)
  | (s, Some _) =>
      let s := with_req s (set_ReqState (req s) newState) in
      db s (EvRequestState oldState newState code 0)
  end.

Definition LaunchFailed (s : St) (err : string) : St * option string :=
  let '(s, e) := failed s State.READY false err "" in
  (emit s (EvJobLifecycle (JobState (exec s))), e).

Definition with_error (s : St) (code msg : string) : St :=
  with_exec s (set_state (exec s) (JobState (exec s)) code msg (je_EndedAt (exec s))).

Definition ExecutionCancelled (s : St) (code msg : string) : St * option string :=
  if State.IsTerminal (JobState (exec s))
  then (s, Some "job cannot be cancelled because it's already in terminal state")
  else
    let code := if code == "" then ErrorCodes.ErrorJobCancelled else code in
    failed (with_error s code msg) State.EXECUTING true msg code.

Definition ExecutionFailed (s : St) (code msg : string) : St * option string :=
  if State.IsTerminal (JobState (exec s))
  then (s, Some "job cannot be failed because it's already in terminal state")
  else
    let code := if code == "" then ErrorCodes.ErrorJobExecute else code in
    let '(s, e) := failed (with_error s code msg) State.EXECUTING false msg code in
    (emit s (EvJobLifecycle (JobState (exec s))), e).

Definition ExecutionCompleted (s : St) : St * option string :=
  let s := with_req s (set_ReqState (req s) State.COMPLETED) in
  let s := with_exec s (set_state (exec s) State.COMPLETED "" "" (Some (now (trace s)))) in
  let '(s, e) := db s (EvFinalizeJob State.EXECUTING State.COMPLETED "" (ReqRetried (req s))) in
  (emit s (EvJobLifecycle State.COMPLETED), e).

Definition PauseJob (s : St) : St * option string :=
  if JobState (exec s) != State.EXECUTING
  then (s, Some "job cannot be paused because it's not executing")
  else
    let s := emit s EvReleaseJob in
    let s := with_req s (set_ReqState (req s) State.PAUSED) in
    let s := with_exec s (set_state (exec s) State.PAUSED ErrorCodes.ErrorPauseJob
                            (je_ErrorMessage (exec s)) (Some (now (trace s)))) in
    let s := with_req s (IncrRetried (IncrPausedCount (req s))) in
    let '(s, e) := db s (EvFinalizeJob State.EXECUTING State.PAUSED ErrorCodes.ErrorPauseJob
                           (ReqRetried (req s))) in
    (emit s (EvJobLifecycle State.PAUSED), e).

(** The execution is left as it is; only the request goes back to the queue. *)
Definition RestartJobBackToPendingPaused (s : St) (err : string) : St * option string :=
  let s := emit s EvReleaseJob in
  let s := with_req s (IncrRetried (IncrPausedCount (req s))) in
  let '(s, e) := db s (EvRequestState State.EXECUTING (revertState M) "" (ReqRetried (req s))) in
  (with_req s (set_ReqState (req s) (revertState M)), e).

(** Contexts are added until one is refused. *)
Fixpoint add_contexts (je : JobExecution) (l : list (string * value)) : JobExecution * bool :=
  match l with
  | [] => (je, true)
  | (name, v) :: rest =>
      let '(c, ok) := AddContext (je_contexts je) name v in
      if ok then add_contexts (JobExec.set_contexts je c) rest else (je, false)
  end.

Definition SetJobStatusToExecuting (s : St) : St * option string :=
  match db s (EvJobState State.READY State.EXECUTING "") with
  | (s, Some e) => (s, Some e)
  | (s, None) =>
      let s := with_req s (set_ReqState (req s) State.EXECUTING) in
      let je := exec s in
      let s := with_exec s (set_state je State.EXECUTING (je_ErrorCode je) (je_ErrorMessage je)
                              (je_EndedAt je)) in
      let '(je, ok) := add_contexts (exec s)
        [("JobDefinitionID", Value "string" (Job.ID (jd M)));
         ("WorkflowVersion", Value "string" (Job.SemVersion (jd M)));
         ("WorkflowInternalVersion", Value "int32" (pretty (Version M)))] in
      let s := with_exec s je in
      let s := if ok then emit s EvSaveContexts else s in
      (emit s (EvJobLifecycle State.EXECUTING), None)
  end.

Definition CanRetryJob (s : St) : bool :=
  (ReqRetried (req s) <? Job.jd_Retry (jd M) + 1)
  || match errorCode s with
     | Some c => (ErrorCodes.Action c == ErrorCodes.RetryJob)
                 && (ReqRetried (req s) <? ErrorCodes.Retry c + 1)
     | None => false
     end.

(** ** The job supervisor *)

(** [UpdateFromJobLifecycleEvent]: a job that is cancelled or paused elsewhere. *)
Definition UpdateFromJobLifecycleEvent (s : St) (id : string) (state : RequestState) : St :=
  let je := exec s in
  if (id == ReqID (req s)) && State.IsTerminal state then
    let code := if je_ErrorCode je != "" then je_ErrorCode je else ErrorCodes.ErrorJobCancelled in
    let msg := if je_ErrorMessage je != "" then je_ErrorMessage je else "job cancelled by user" in
    cancel (fst (ExecutionCancelled s code msg))
  else if (id == ReqID (req s)) && State.Paused state then cancel (fst (PauseJob s))
  else s.

Definition receive_lifecycle (s : St) : St :=
  foldl (fun s '(id, state) => UpdateFromJobLifecycleEvent s id state) s (lifecycle (trace s)).

(** [submitTask]: the error of a task that may fail is dropped. *)
Definition submitTask (fuel : nat) (s : St) (taskType : string)
    : option (St * option Tsm * option string) :=
  match NewTaskExecutionStateMachine s taskType with
  | (s, inl e) => Some (s, None, Some e)
  | (s, inr t) =>
      match Execute fuel s t with
      | None => None
      | Some (s, Some e) =>
          if Task.AllowFailure (def (td t)) then Some (s, Some t, None)
          else Some (s, Some t, Some ("[js] failed to execute task for '" +:+ taskType +:+
                                      "' due to " +:+ e))
      | Some (s, None) => Some (s, Some t, None)
      end
  end.

(** [%v] of a map prints the keys in order. *)
Definition show_map (m : gmap string string) : string :=
  "map[" +:+ Prelude.Join (map (fun '(k, v) => k +:+ ":" +:+ v)
                     (sort_slice (fun a b => String.ltb (fst a) (fst b)) (range m))) " " +:+ "]".

(** The outcome when no next task follows: an error code and an error, or none. *)
Definition last_outcome (s : St) (t : Tsm) (taskType : string) : string * option string :=
  let x := cur s t in
  let d := def (td t) in
  let text what := what +:+ taskType +:+ " status=" +:+ TaskState x +:+ " exit=" +:+ ExitCode x in
  if (TaskState x == State.FAILED) && negb (Task.AllowFailure d) then (ErrorCode x, Some (ErrorMessage x))
  else if TaskState x == State.PAUSED then (ErrorCodes.ErrorPauseJob, Some (ErrorMessage x))
  else if (0 <? size (Task.OnExitCode d))%nat then
    let target := State.NewRequestState (Task.exit_target d (TaskState x)) in
    if target == State.RESTART_JOB
    then (ErrorCodes.ErrorRestartJob, Some (text "restarting job after task "))
    else if (target == State.PAUSE_JOB) || (target == State.PAUSED)
    then (ErrorCodes.ErrorPauseJob, Some (text "pausing job after task "))
    else if target == State.FATAL
    then (ErrorCodes.ErrorFatal, Some (text "fatal error in task "))
    else if target == State.WAIT_FOR_APPROVAL
    then (ErrorCodes.ErrorManualApprovalRequired, Some (text "approval required after task "))
    else if target == State.RESTART_TASK
    then (ErrorCodes.ErrorRestartTask, Some (text "restarting task "))
    else (ErrorCodes.ErrorInvalidNextTask,
          Some ("cannot find next task after " +:+ taskType +:+ ", unexpected task status=" +:+
                TaskState x +:+ ", exit-code: " +:+ ExitCode x +:+ ", error-code: " +:+ ErrorCode x +:+
                ", multiple exits=" +:+ show_map (Task.OnExitCode d)))
  else if (TaskState x == State.COMPLETED) || Task.AllowFailure d then ("", None)
  else (ErrorCode x, Some ("last task failed after " +:+ taskType +:+ ", unknown task status=" +:+
                           TaskState x +:+ ", exit=" +:+ ExitCode x)).

(** [executeNextTask]: tasks are run one after the other along the exit codes.
    [fuel] bounds the number of tasks, [tfuel] the replies of one task. *)
Fixpoint executeNextTask (fuel tfuel : nat) (s : St) (taskType : string)
    : option (St * string * option string) :=
  match fuel with
  | O => None
  | S fuel =>
      let s := receive_lifecycle s in
      if State.IsTerminal (JobState (exec s)) then Some (s, "", None)
      else
        match submitTask tfuel s taskType with
        | None => None
        | Some (s, None, err) => Some (s, "", err)
        | Some (s, Some t, Some e) => Some (s, ErrorCode (cur s t), Some e)
        | Some (s, Some t, None) =>
            let x := cur s t in
            if TaskState x == State.MANUAL_APPROVAL_REQUIRED then
              let name := Task.TaskType (def (td t)) in
              match db s (EvJobState State.EXECUTING State.MANUAL_APPROVAL_REQUIRED name) with
              | (s, Some e) =>
                  Some (s, ErrorCode x, Some ("failed to set job to manual approval state: " +:+ e))
              | (s, None) =>
                  Some (s, ErrorCodes.ErrorManualApprovalRequired,
                        Some ("job paused for manual approval of task: " +:+ name))
              end
            else
              match fst (Job.GetNextTask (jd M) (def (td t)) (TaskState x) (ExitCode x)) with
              | Some next => executeNextTask fuel tfuel s (Task.TaskType next)
              | None => let '(code, err) := last_outcome s t taskType in Some (s, code, err)
              end
        end
  end.

(** The retry loop of [tryExecuteJob].  [task] is the task the last round
    started with: it is kept when the job is run again. *)
Fixpoint job_loop (rounds fuel tfuel : nat) (s : St) (startTaskType : string)
    (task : option Task.TaskDefinition) : option (St * string * option string) :=
  match rounds with
  | O => None
  | S rounds =>
      let task := if startTaskType != "" then Job.GetTask (jd M) startTaskType else task in
      let first := match task with
                   | Some t => inr t
                   | None => Job.GetFirstTask (jd M)
                   end in
      match first with
      | inl e => Some (s, "", Some (job_error_text e))
      | inr t =>
          match executeNextTask fuel tfuel s (Task.TaskType t) with
          | None => None
          | Some (s, code, err) =>
              let '(code, err) :=
                match err with
                | Some _ => (code, err)
                | None => match GetFailedTaskError (exec s) with
                          | Some (_, code, msg) => (code, Some msg)
                          | None => ("", None)
                          end
                end in
              if match err with None => true | Some _ => false end
                 || (code == ErrorCodes.ErrorFatal) || (code == ErrorCodes.ErrorRestartJob)
                 || (code == ErrorCodes.ErrorPauseJob) || (code == ErrorCodes.ErrorManualApprovalRequired)
                 || (ReqRetried (req s) =? Job.jd_Retry (jd M))
              then Some (s, code, err)
              else
                let s := emit s (EvSleep (ReqRetried (req s))) in
                let s := with_req s (IncrRetried (req s)) in
                if (0 <? ReqRetried (req s)) && CanRetryJob s
                then job_loop rounds fuel tfuel s "" (Some t)
                else Some (s, code, err)
          end
      end
  end.

(** The tasks that always run are submitted when the request is in a terminal
    state; their results are dropped. *)
Fixpoint run_always (fuel : nat) (s : St) (l : list Task.TaskDefinition) : option St :=
  match l with
  | [] => Some s
  | t :: rest =>
      match GetTask (exec s) "" (Task.TaskType t) with
      | Some _ => run_always fuel s rest
      | None => match submitTask fuel s (Task.TaskType t) with
                | None => None
                | Some (s, _, _) => run_always fuel s rest
                end
      end
  end.

Definition tryExecuteJob (rounds fuel tfuel : nat) (s : St) : option (St * option string) :=
  match SetJobStatusToExecuting s with
  | (s, Some e) => Some (LaunchFailed s ("failed to set job-execution state to EXECUTING due to " +:+ e))
  | (s, None) =>
      match job_loop rounds fuel tfuel s (CurrentTask (exec s)) None with
      | None => None
      | Some (s, _, None) => Some (ExecutionCompleted s)
      | Some (s, code, Some e) =>
          let finalized :=
            if State.IsTerminal (ReqState (req s))
            then run_always tfuel s (Job.GetLastAlwaysRunTasks (jd M)) else Some s in
          match finalized with
          | None => None
          | Some s =>
              if code == ErrorCodes.ErrorRestartJob then Some (RestartJobBackToPendingPaused s e)
              else if code == ErrorCodes.ErrorPauseJob then Some (PauseJob s)
              else if code == ErrorCodes.ErrorManualApprovalRequired then Some (s, None)
              else let '(s, _) := ExecutionFailed s code e in Some (s, Some e)
          end
      end
  end.

End Supervisor.
