(* ===== verification/SupervisorSpec.v ===== *)
(** * SupervisorSpec: what the supervisors promise

    Theorems about [Supervisor]: how often a task is sent to an ant, the final
    state of an executed task, the end of every job whose tasks do not form a
    cycle and whose sensors come to an end, and what completion means; and the jobs that go wrong. *)

From S2P Require Import Prelude RequestState Resource JobDefinition JobSpec Execution Supervisor.

Open Scope Z_scope.
Import Values TaskExec JobExec.

Section Facts.
Context {RO : RangeOrder} {EV : Env} (M : Machine).

(** ** What a step on one task leaves alone *)

(** [frame p s s']: the step changed contexts, outcome and trace, but no retry
    counter of the task at [p], no other field that drives the loops. *)
Record frame (p : nat) (s s' : St) : Prop := {
  fr_heap : List.length (heap (exec s')) = List.length (heap (exec s));
  fr_retried : Retried <$> deref (exec s') p = Retried <$> deref (exec s) p;
  fr_state : JobState (exec s') = JobState (exec s);
  fr_req : req s' = req s;
  fr_code : errorCode s' = errorCode s \/ exists tr, errorCode s' = match_error tr
}.

#[local] Instance frame_preorder p : PreOrder (frame p).
Proof.
  split; [by split; auto|]. intros s1 s2 s3 [A1 A2 A3 A4 A5] [B1 B2 B3 B4 B5].
  split; try congruence. destruct B5 as [->|]; auto.
Qed.

Lemma frame_emit p s e : frame p s (emit s e).
Proof. split; cbn; auto. Qed.

Lemma deref_update_eq je p f : deref (update je p f) p = f <$> deref je p.
Proof. apply list_lookup_alter_eq. Qed.

Lemma frame_upd p s f : (forall x, Retried (f x) = Retried x) -> frame p s (upd s p f).
Proof.
  intros Hf. split; cbn; auto.
  - by rewrite length_alter.
  - rewrite deref_update_eq, <- option_fmap_compose. by apply option_fmap_ext.
Qed.

Lemma frame_contexts p s c : frame p s (with_exec s (JobExec.set_contexts (exec s) c)).
Proof. split; cbn; auto. Qed.

Lemma frame_foldl {A} p (f : St -> A -> St) l s : (forall s x, frame p s (f s x)) -> frame p s (foldl f s l).
Proof.
  intros Hf. revert s. induction l as [|x l IH]; intros s; cbn; [reflexivity|].
  etrans; [apply Hf|apply IH].
Qed.

Lemma frame_SaveTask p s : frame p s (SaveTask s p).1.
Proof.
  unfold SaveTask. destruct (deref (exec s) p); [|reflexivity].
  destruct (negb _); [reflexivity|].
  set (s1 := upd _ _ _). assert (frame p s s1) as H1.
  { apply frame_upd. intros x. by repeat case_match. }
  destruct (deref (exec s1) p); [|done]. etrans; [exact H1|apply frame_emit].
Qed.

Ltac frame_step :=
  match goal with
  | |- frame _ ?s ?s => reflexivity
  | |- frame _ _ (upd _ _ _) => etrans; [|apply frame_upd; intros; by repeat case_match]
  | |- frame _ _ (emit _ _) => etrans; [|apply frame_emit]
  | |- frame _ _ (with_exec ?s (AddJobContext _ _ _)) => etrans; [|exact (frame_contexts _ s _)]
  | |- frame _ _ (foldl _ _ _) => etrans; [|apply frame_foldl; intros ? []]
  | |- frame _ _ (SaveTask _ _).1 => etrans; [|apply frame_SaveTask]
  end.

Lemma frame_Finalize s t : frame (te t) s (FinalizeTaskState s t).
Proof.
  unfold FinalizeTaskState. set (s1 := upd _ _ _).
  pose proof (frame_SaveTask (te t) (emit s1 EvSaveContexts)) as HS.
  destruct (SaveTask _ _) as [s2 e]. cbn in HS. frame_step. etrans; [|exact HS].
  subst s1. repeat frame_step.
Qed.

Lemma frame_SetExecuting s t : frame (te t) s (SetTaskToExecuting s t).1.
Proof. unfold SetTaskToExecuting. cbn. repeat frame_step. Qed.

Lemma frame_validateAnt s d r p : frame p s (validateAntAllocation M s d r).1.
Proof.
  unfold validateAntAllocation. destruct (Ants.ValidateReservation r); [reflexivity|].
  destruct (registration _ _) as [a|]; [|cbn; repeat frame_step].
  destruct (Ants.Supports _ _ _ _ _); cbn; repeat frame_step.
Qed.

Lemma frame_Prepare s t : frame (te t) s (PrepareExecution M s t).1.
Proof.
  unfold PrepareExecution. destruct (ctxErr s); [reflexivity|].
  destruct (Reservations M !! taskType t) as [r|]; [|reflexivity].
  destruct (Ants.ValidateReservation r); [reflexivity|].
  pose proof (frame_validateAnt s (def (td t)) r (te t)) as HV.
  destruct (validateAntAllocation _ _ _ _) as [s1 [e|r']]; cbn in *; (etrans; [exact HV|]); repeat frame_step.
Qed.

Lemma frame_artifacts t l i s r : frame (te t) s (updateArtifactsFromResponse s t i l r).1.
Proof.
  revert i s r. induction l as [|a l IH]; intros i s r; cbn; [reflexivity|].
  destruct (artifact_err _); (etrans; [|apply IH]); repeat frame_step.
Qed.

Lemma frame_update_error s t r : frame (te t) s (update_error s t r).1.1.
Proof.
  unfold update_error. destruct (_ == _); [cbn; repeat frame_step|].
  destruct (_ && _); [|reflexivity]. cbn.
  etrans; [|apply frame_upd; intros; by repeat case_match].
  etrans; [apply (frame_emit _ s (EvMatchError (rs_ErrorMessage r)))|]. split; cbn; eauto.
Qed.

Lemma frame_Update s t rq r : frame (te t) s (UpdateTaskFromResponse s t rq r).1.1.
Proof.
  unfold UpdateTaskFromResponse. set (s1 := upd _ _ _).
  assert (frame (te t) s s1) as H1 by (subst s1; repeat frame_step).
  pose proof (frame_update_error s1 t r) as H2. destruct (update_error s1 t r) as [[s2 r2] err].
  pose proof (frame_artifacts t (rs_Artifacts r2) 0 s2 r2) as H3.
  destruct (updateArtifactsFromResponse _ _ _ _ _) as [s3 r3]. cbn in *.
  assert (frame (te t) s s3) as H4 by (etrans; [exact H1|]; by etrans).
  destruct (Method.SupportsCache _), (Warnings r3); cbn; repeat frame_step; exact H4.
Qed.

Lemma frame_invoke s t rq : frame (te t) s (invoke s t rq).1.
Proof.
  unfold invoke. destruct (marshal_err _ _); [reflexivity|]. destruct (Reservation t); [|reflexivity].
  destruct (NewNameTypeValue _ _ _); [|cbn; repeat frame_step].
  destruct (deliver _ _); cbn; repeat frame_step.
Qed.

Lemma frame_invokeManual s t : frame (te t) s (invokeManual s t).1.
Proof. unfold invokeManual. cbn. destruct (negb _); cbn; repeat frame_step. Qed.

(** A finished task: everything but the state of the task is framed. *)
Lemma frame_finish s t err : frame (te t) s (finish_task s t err).1.
Proof.
  unfold finish_task. destruct (State.CanFinalize _); cbn; (etrans; [|apply frame_Finalize]); [reflexivity|].
  unfold SetFailed. repeat frame_step.
Qed.

(** ** Messages to ants *)
Definition is_send (e : event) : bool := match e with EvSend _ _ _ _ => true | _ => false end.
Definition sends_in (tr : list event) : nat := List.length (List.filter is_send tr).
Definition sends (s : St) : nat := sends_in (trace s).

Lemma sends_emit s e : sends (emit s e) = (sends s + if is_send e then 1 else 0)%nat.
Proof.
  unfold sends, sends_in, emit. cbn. rewrite List.filter_app, length_app. by destruct e.
Qed.

Lemma trace_foldl {A} (f : St -> A -> St) l s :
  (forall s x, trace (f s x) = trace s) -> trace (foldl f s l) = trace s.
Proof. intros Hf. revert s. induction l as [|x l IH]; intros s; cbn; [done|]. by rewrite IH, Hf. Qed.

Lemma artifacts_quiet t l (i : Z) (s : St) r :
  sends (fst (updateArtifactsFromResponse s t i l r)) = sends s /\
  (Status (updateArtifactsFromResponse s t i l r).2 = Status r \/
   Status (updateArtifactsFromResponse s t i l r).2 = State.FAILED).
Proof.
  revert i s r. induction l as [|a l IH]; intros i s r; cbn; [auto|].
  destruct (artifact_err _) as [e|].
  - destruct (IH (i + 1) (emit s (EvSaveArtifact a)) (AdditionalError r e true)) as [-> HS].
    split; [by rewrite sends_emit; cbn; lia|]. revert HS. unfold AdditionalError.
    destruct (_ == _); [done|]. cbn [andb]. destruct (negb _); naive_solver.
  - match goal with |- context[updateArtifactsFromResponse ?s1 t _ l r] =>
      destruct (IH (i + 1) s1 r) as [-> HS] end.
    split; [|done]. change (sends (emit s (EvSaveArtifact a)) = sends s). rewrite sends_emit. cbn. lia.
Qed.

(** Recording a response sends nothing; a failure to save artifacts can turn
    the status into FAILED. *)
Lemma Update_quiet s t rq r :
  let '(s', r', _) := UpdateTaskFromResponse s t rq r in
  sends s' = sends s /\ (Status r' = Status r \/ Status r' = State.FAILED).
Proof.
  unfold UpdateTaskFromResponse. set (s1 := upd _ _ _).
  assert (sends s1 = sends s) as H1.
  { subst s1. unfold sends, sends_in. cbn. rewrite trace_foldl by by intros ? [].
    by rewrite trace_foldl by by intros ? []. }
  destruct (update_error s1 t r) as [[s2 r2] err] eqn:E2.
  assert (sends s2 = sends s1 /\ Status r2 = Status r) as [H2 H2'].
  { revert E2. unfold update_error. clearbody s1.
    destruct (_ == _); [by intros [= <- <- _]|].
    destruct (_ && _); intros [= <- <- _]; [|done]. split; [|by repeat case_match].
    transitivity (sends (emit s1 (EvMatchError (rs_ErrorMessage r)))); [done|].
    rewrite sends_emit. cbn. lia. }
  destruct (artifacts_quiet t (rs_Artifacts r2) 0 s2 r2) as [H3 H3'].
  destruct (updateArtifactsFromResponse _ _ _ _ _) as [s3 r3]. cbn in *.
  split; [|by rewrite H2' in H3']. rewrite <- H1, <- H2, <- H3.
  by destruct (Method.SupportsCache _), (Warnings r3).
Qed.

Lemma invoke_sends s t rq : (sends s <= sends (invoke s t rq).1 <= sends s + 1)%nat.
Proof.
  unfold invoke. destruct (marshal_err _ _); [cbn; lia|]. destruct (Reservation t); [|cbn; lia].
  destruct (NewNameTypeValue _ _ _); [|cbn; unfold sends, sends_in; cbn; lia].
  set (s1 := emit _ _). assert (sends s1 = sends s + 1)%nat as Hs.
  { subst s1. rewrite sends_emit. cbn. unfold sends, sends_in. cbn. lia. }
  destruct (deliver _ _); cbn [fst]; lia.
Qed.

Lemma invokeManual_sends s t : sends (invokeManual s t).1 = sends s.
Proof.
  unfold invokeManual. cbn. destruct (negb _); [|done].
  match goal with |- sends (emit ?x ?e) = _ => rewrite (sends_emit x e) end.
  unfold sends, sends_in. cbn. lia.
Qed.

(** ** The retry loop of a task *)

(** An answer EXECUTING, as the exit-code table may make it, asks the supervisor to
    poll again.  The ants stop asking for that: when [N] requests have been
    sent, every answer is an outcome. *)
Definition stops_polling (N : nat) (d : Task.TaskDefinition) : Prop :=
  forall tr rq r, (N <= sends_in tr)%nat -> deliver tr rq = Delivered r ->
    Status (override_response d r) <> State.EXECUTING.

Definition allocated (s : St) (p : nat) : Prop := (p < List.length (heap (exec s)))%nat.

Lemma allocated_frame p s s' : frame p s s' -> allocated s p -> allocated s' p.
Proof. unfold allocated. intros HF. by rewrite (fr_heap _ _ _ HF). Qed.

Lemma cur_retried s s' t :
  frame (te t) s s' -> allocated s (te t) -> Retried (cur s' t) = Retried (cur s t).
Proof.
  intros HF Ha. pose proof (fr_retried _ _ _ HF) as HR. unfold cur, deref in *.
  destruct (lookup_lt_is_Some_2 _ _ Ha) as [x Hx]. rewrite Hx in *. cbn in *.
  apply fmap_Some in HR as (y & -> & Hy). done.
Qed.

Lemma cur_upd s t f : allocated s (te t) -> cur (upd s (te t) f) t = f (cur s t).
Proof.
  intros Ha. unfold cur. cbn. rewrite deref_update_eq. unfold deref.
  destruct (lookup_lt_is_Some_2 _ _ Ha) as [x ->]. done.
Qed.

(** [quiet s s']: like [frame], the retry counters aside. *)
Record quiet (s s' : St) : Prop := {
  q_heap : List.length (heap (exec s')) = List.length (heap (exec s));
  q_state : JobState (exec s') = JobState (exec s);
  q_req : req s' = req s;
  q_code : errorCode s' = errorCode s \/ exists tr, errorCode s' = match_error tr
}.

#[local] Instance quiet_preorder : PreOrder quiet.
Proof.
  split; [by split; auto|]. intros s1 s2 s3 [A1 A2 A3 A4] [B1 B2 B3 B4].
  split; try congruence. destruct B4 as [->|]; auto.
Qed.

Lemma frame_quiet p s s' : frame p s s' -> quiet s s'.
Proof. by intros []. Qed.

Lemma quiet_upd p s f : quiet s (upd s p f).
Proof. split; cbn; auto. by rewrite length_alter. Qed.

Lemma allocated_quiet p s s' : quiet s s' -> allocated s p -> allocated s' p.
Proof. unfold allocated. intros HF. by rewrite (q_heap _ _ HF). Qed.

(** One round: the call and, when it is answered, the record of the answer. *)
Lemma call_round s t rq :
  let call := if Task.Method (def (td t)) == Method.Manual then invokeManual s t else invoke s t rq in
  frame (te t) s call.1 /\ (sends s <= sends call.1 <= sends s + 1)%nat /\
  (forall N r, stops_polling N (def (td t)) -> call.2 = inr r -> Status r = State.EXECUTING ->
     sends call.1 = (sends s + 1)%nat /\ (sends call.1 < N)%nat).
Proof.
  cbn zeta. destruct (_ == _).
  - split; [apply frame_invokeManual|]. split; [rewrite invokeManual_sends; lia|].
    intros N r _. unfold invokeManual. cbn. by intros [= <-].
  - split; [apply frame_invoke|]. split; [apply invoke_sends|].
    intros N r Hp. unfold invoke. destruct (marshal_err _ _); [done|]. destruct (Reservation t); [|done].
    destruct (NewNameTypeValue _ _ _); [|done]. set (s1 := emit _ _).
    assert (sends s1 = sends s + 1)%nat as Hs by (subst s1; rewrite sends_emit; cbn; unfold sends, sends_in; cbn; lia).
    destruct (deliver _ _) eqn:E; cbn [fst snd]; intros [= <-]; [done|]. intros HX. split; [done|].
    destruct (decide (N <= sends s1)%nat) as [Hle|]; [|lia]. by destruct (Hp _ _ _ Hle E).
Qed.

(** The rounds that are left to a task: its retries, and the requests that may
    still be answered with EXECUTING. *)
Definition rounds_left (N : nat) (s : St) (t : Tsm) : nat :=
  (Z.to_nat (Task.Retry (def (td t)) - Retried (cur s t)) + (N - sends s))%nat.

(** A task is sent at most as often as it may be retried or its ant polls, and
    the loop needs no more fuel than that. *)
Lemma task_loop_ends N n executing s t rq :
  stops_polling N (def (td t)) -> allocated s (te t) -> (rounds_left N s t < n)%nat ->
  exists s', task_loop n executing s t rq = Some s' /\ quiet s s' /\
    (sends s' <= sends s + rounds_left N s t + 1)%nat.
Proof.
  unfold rounds_left. intros Hp. revert executing s. induction n as [|n IH]; intros executing s Ha Hn; [lia|].
  cbn [task_loop]. destruct (CanRetry s t || executing); [|exists s; split_and!; [done|reflexivity|lia]].
  destruct (call_round s t rq) as (HF & HS & HP).
  destruct (if Task.Method _ == _ then _ else _) as [s1 result]. cbn in HF, HS, HP. destruct HS as [HM HS].
  pose proof (frame_quiet _ _ _ HF) as HQ.
  destruct result as [e|r]; [exists s1; split_and!; [done|done|lia]|].
  destruct (ctxErr s1); [exists s1; split_and!; [done|done|lia]|].
  pose proof (frame_Update s1 t rq r) as HU. pose proof (Update_quiet s1 t rq r) as HU'.
  destruct (UpdateTaskFromResponse s1 t rq r) as [[s2 r2] err]. cbn in HU. destruct HU' as [HS2 Hst].
  assert (quiet s s2) as HQ2 by (etrans; [exact HQ|by eapply frame_quiet]).
  assert (Retried (cur s2 t) = Retried (cur s t)) as HR.
  { apply cur_retried; [|done]. by etrans. }
  destruct (negb _ && _) eqn:EB; [exists s2; split_and!; [done|done|lia]|].
  set (s3 := upd (emit s2 _) _ _).
  assert (quiet s2 s3) as HQ3.
  { etrans; [apply (frame_quiet (te t)), frame_emit|apply quiet_upd]. }
  assert (allocated s2 (te t)) as Ha2 by by eapply allocated_quiet.
  assert (Retried (cur s3 t) = Retried (cur s t) + 1) as HR3.
  { subst s3. rewrite (cur_upd (emit s2 _)) by exact Ha2. cbn. by rewrite <- HR. }
  assert (sends s3 = sends s1) as E3.
  { subst s3. transitivity (sends (emit s2 (EvSleep (Retried (cur s2 t))))); [done|].
    rewrite sends_emit. cbn. lia. }
  assert (sends s <= sends s1)%nat as Hmono by exact HM.
  assert (Z.to_nat (Task.Retry (def (td t)) - Retried (cur s3 t)) + (N - sends s3) <
          Z.to_nat (Task.Retry (def (td t)) - Retried (cur s t)) + (N - sends s))%nat as Hless.
  { rewrite HR3, E3. destruct (Status r2 == State.EXECUTING) eqn:EX; cbn [negb andb] in EB.
    - apply eqb_string_true in EX. assert (Status r = State.EXECUTING) as Hr by (destruct Hst as [<-|E]; [done|by rewrite E in EX]).
      destruct (HP N r Hp eq_refl Hr) as [H1 H2]. lia.
    - apply orb_false_iff in EB as [[_ Hlt%Z.leb_gt]%orb_false_iff _]. rewrite HR in Hlt. lia. }
  destruct (IH (Status r2 == State.EXECUTING) s3) as (s' & -> & HQ4 & HS4).
  - by eapply allocated_quiet.
  - lia.
  - exists s'. split_and!; [done|etrans; [exact HQ2|]; by etrans|]. lia.
Qed.

(** ** Executing one task *)

(** Whatever the ants answer, the loop only touches the task. *)
Lemma task_loop_quiet n executing s t rq s' :
  task_loop n executing s t rq = Some s' -> quiet s s'.
Proof.
  revert executing s. induction n as [|n IH]; intros executing s; cbn [task_loop]; [done|].
  destruct (CanRetry s t || executing); [|by intros [= <-]].
  destruct (call_round s t rq) as (HF & _ & _).
  destruct (if Task.Method _ == _ then _ else _) as [s1 result]. cbn in HF.
  apply frame_quiet in HF.
  destruct result as [e|r]; [by intros [= <-]|]. destruct (ctxErr s1); [by intros [= <-]|].
  pose proof (frame_quiet _ _ _ (frame_Update s1 t rq r)) as HU.
  destruct (UpdateTaskFromResponse s1 t rq r) as [[s2 r2] err]. cbn in HU.
  destruct (_ && _); [intros [= <-]; by etrans|]. intros HL%IH.
  etrans; [exact HF|]. etrans; [exact HU|]. etrans; [|exact HL].
  etrans; [apply (frame_quiet (te t)), frame_emit|apply quiet_upd].
Qed.

Lemma tryExecuteTask_quiet n s t s' err : tryExecuteTask M n s t = Some (s', err) -> quiet s s'.
Proof.
  unfold tryExecuteTask. destruct (Task.IsExcept _); [intros [= <- <-]; apply quiet_upd|].
  destruct (BuildTaskRequest s t) as [e|rq]; [by intros [= <- <-]|].
  destruct (if CanReusePreviousResult M s t then _ else _) as [e|r].
  - destruct (task_loop _ _ _ _ _) eqn:E; [|done]. intros [= <- <-]. by eapply task_loop_quiet.
  - match goal with |- context[UpdateTaskFromResponse ?x t rq r] => set (s1 := x) end.
    assert (quiet s s1) as H1 by (subst s1; apply quiet_upd).
    pose proof (frame_quiet _ _ _ (frame_Update s1 t rq r)) as HU.
    destruct (UpdateTaskFromResponse s1 t rq r) as [[s2 r2] e]. intros [= <- <-]. by etrans.
Qed.

Lemma Execute_quiet n s t s' err : Execute M n s t = Some (s', err) -> quiet s s'.
Proof.
  unfold Execute. destruct (State.Completed _); [by intros [= <- <-]|].
  pose proof (frame_Prepare s t) as HP.
  destruct (PrepareExecution M s t) as [s1 [e|t1]] eqn:EP; cbn in HP; apply frame_quiet in HP.
  { intros [= HF]. etrans; [exact HP|]. apply (frame_quiet (te t)).
    pose proof (frame_finish s1 t (Some ("failed to prepare task for execution due to " +:+ e))) as HX.
    by rewrite HF in HX. }
  pose proof (frame_quiet _ _ _ (frame_SetExecuting s1 t1)) as HE.
  destruct (SetTaskToExecuting s1 t1) as [s2 [e|]]; cbn in HE.
  - intros [= HF]. pose proof (frame_quiet _ _ _ (frame_finish s2 t1 (Some e))) as HX.
    rewrite HF in HX. etrans; [exact HP|]. by etrans.
  - destruct (tryExecuteTask M n s2 t1) as [[s3 e]|] eqn:ET; [|done]. intros [= HF].
    apply tryExecuteTask_quiet in ET.
    pose proof (frame_quiet _ _ _ (frame_finish s3 t1 e)) as HX. rewrite HF in HX.
    etrans; [exact HP|]. etrans; [exact HE|]. by etrans.
Qed.

(** The rewriting of [sends] under updates and events. *)
Lemma sends_upd s p f : sends (upd s p f) = sends s.
Proof. done. Qed.

Lemma Prepare_sends s t : sends (PrepareExecution M s t).1 = sends s.
Proof.
  unfold PrepareExecution, validateAntAllocation.
  repeat (case_match; simplify_eq/=; try done); rewrite ?sends_upd, ?sends_emit; cbn; lia.
Qed.

Lemma Prepare_tsm s t s' t' :
  PrepareExecution M s t = (s', inr t') -> te t' = te t /\ td t' = td t /\ taskType t' = taskType t.
Proof.
  unfold PrepareExecution. destruct (ctxErr s); [done|]. destruct (Reservations M !! _); [|done].
  destruct (Ants.ValidateReservation _); [done|].
  destruct (validateAntAllocation _ _ _ _) as [s1 [e|r]]; [done|]. by intros [= <- <-].
Qed.

Lemma SaveTask_sends s p : sends (SaveTask s p).1 = sends s.
Proof.
  unfold SaveTask. destruct (deref (exec s) p); [|done]. destruct (negb _); [done|].
  set (s1 := upd _ _ _). assert (sends s1 = sends s) as H1 by done. clearbody s1.
  destruct (deref (exec s1) p); [|done]. cbn [fst db]. rewrite sends_emit. cbn. lia.
Qed.

Lemma SetExecuting_sends s t : sends (SetTaskToExecuting s t).1 = sends s.
Proof. unfold SetTaskToExecuting, db. cbn [fst]. rewrite !sends_emit, sends_upd. cbn. lia. Qed.

Lemma finish_sends s t err : sends (finish_task s t err).1 = sends s.
Proof.
  unfold finish_task. destruct (if State.CanFinalize _ then _ else _) as [s1 e] eqn:E.
  assert (sends s1 = sends s) as H1 by (destruct (State.CanFinalize _); by simplify_eq).
  cbn [fst]. unfold FinalizeTaskState. set (s2 := upd s1 _ _).
  pose proof (SaveTask_sends (emit s2 EvSaveContexts) (te t)) as HS.
  destruct (SaveTask _ _) as [s3 e3]. cbn [fst] in *. rewrite !sends_emit in *. cbn [is_send] in *.
  subst s2. rewrite sends_upd in HS. lia.
Qed.

Lemma New_sends s ty : sends (NewTaskExecutionStateMachine s ty).1 = sends s.
Proof.
  assert (forall s0 d prev, sends (create_task s0 ty d prev).1 = sends s0) as HC.
  { intros s0 d prev. unfold create_task. destruct (AddTask _ _) as [je p].
    set (s1 := match prev with Some _ => _ | None => _ end).
    assert (sends s1 = sends s0) as H1 by (subst s1; by destruct prev as [[]|]). clearbody s1.
    pose proof (SaveTask_sends s1 p) as HS. destruct (SaveTask s1 p) as [s2 [e|]]; cbn [fst] in *;
      rewrite ?sends_upd; congruence. }
  unfold NewTaskExecutionStateMachine. destruct (dynamic_task _ _ ty) as [e|d]; [done|].
  destruct (GetTask _ _ _) as [[i p]|]; [|apply HC]. destruct (deref _ _) as [x|]; [|apply HC].
  destruct (State.Completed _); [done|]. unfold db.
  destruct (db_err _); [cbn [fst]|rewrite HC]; rewrite sends_emit; cbn; unfold sends, sends_in; cbn; lia.
Qed.

Lemma tryExecuteTask_ends N n s t :
  stops_polling N (def (td t)) -> allocated s (te t) -> (rounds_left N s t < n)%nat ->
  exists s' err, tryExecuteTask M n s t = Some (s', err) /\ (sends s' <= sends s + rounds_left N s t + 1)%nat.
Proof.
  intros Hp Ha Hn. unfold tryExecuteTask.
  destruct (Task.IsExcept _); [eexists _, _; split; [done|rewrite sends_upd; lia]|].
  destruct (BuildTaskRequest s t) as [e|rq]; [eexists _, _; split; [done|lia]|].
  destruct (if CanReusePreviousResult M s t then _ else _) as [e|r].
  - destruct (task_loop_ends N n true s t rq Hp Ha Hn) as (s' & -> & _ & HS). eexists _, _. by split.
  - match goal with |- context[UpdateTaskFromResponse ?x t rq r] =>
      pose proof (Update_quiet x t rq r) as HU; destruct (UpdateTaskFromResponse x t rq r) as [[s2 r2] e] end.
    destruct HU as [HU _]. eexists _, _. split; [done|]. rewrite HU, sends_upd. lia.
Qed.

Lemma Execute_ends N n s t :
  stops_polling N (def (td t)) -> allocated s (te t) -> (rounds_left N s t < n)%nat ->
  exists s' err, Execute M n s t = Some (s', err) /\ (sends s' <= sends s + rounds_left N s t + 1)%nat.
Proof.
  intros Hp Ha Hn. unfold Execute. destruct (State.Completed _); [eexists _, _; split; [done|lia]|].
  pose proof (frame_Prepare s t) as HF. pose proof (Prepare_sends s t) as HS.
  destruct (PrepareExecution M s t) as [s1 [e|t1]] eqn:EP; cbn in HF, HS.
  { destruct (finish_task s1 t _) as [s2 e2] eqn:EF. eexists _, _. split; [done|].
    apply (f_equal (fun x => sends x.1)) in EF. rewrite finish_sends in EF. cbn in EF. lia. }
  apply Prepare_tsm in EP as (Et & Ed & _).
  assert (forall s, cur s t1 = cur s t) as Ec by (intros; unfold cur; by rewrite Et, Ed).
  pose proof (frame_SetExecuting s1 t1) as HE. pose proof (SetExecuting_sends s1 t1) as HS1.
  destruct (SetTaskToExecuting s1 t1) as [s2 [e|]]; cbn in HE, HS1.
  { destruct (finish_task s2 t1 _) as [s3 e2] eqn:EF. eexists _, _. split; [done|].
    apply (f_equal (fun x => sends x.1)) in EF. rewrite finish_sends in EF. cbn in EF. lia. }
  assert (frame (te t1) s s2) as H2 by (rewrite Et in *; by etrans).
  assert (Retried (cur s2 t1) = Retried (cur s t)) as HR.
  { rewrite <- (Ec s). apply cur_retried; [done|by rewrite Et]. }
  assert (rounds_left N s2 t1 = rounds_left N s t) as HL by (unfold rounds_left; rewrite HR, Ed; lia).
  destruct (tryExecuteTask_ends N n s2 t1) as (s3 & err & -> & HS3).
  - by rewrite Ed.
  - eapply allocated_frame; [exact H2|by rewrite Et].
  - by rewrite HL.
  - destruct (finish_task s3 t1 err) as [s4 e4] eqn:EF. eexists _, _. split; [done|].
    apply (f_equal (fun x => sends x.1)) in EF. rewrite finish_sends in EF. cbn in EF.
    rewrite HL in HS3. lia.
Qed.

(** ** The state a task is left in *)

Lemma SaveTask_state s t :
  allocated s (te t) -> TaskState (cur (SaveTask s (te t)).1 t) = TaskState (cur s t).
Proof.
  intros Ha. unfold SaveTask. destruct (deref (exec s) (te t)); [|done]. destruct (negb _); [done|].
  set (f := fun _ => _). pose proof (cur_upd s t f Ha) as HC.
  assert (TaskState (f (cur s t)) = TaskState (cur s t)) as Hf by (subst f; cbn; by repeat case_match).
  destruct (deref (exec (upd s (te t) f)) (te t)); cbn [fst db].
  - change (TaskState (cur (upd s (te t) f) t) = TaskState (cur s t)). by rewrite HC.
  - by rewrite HC.
Qed.

Lemma Finalize_state s t :
  allocated s (te t) -> TaskState (cur (FinalizeTaskState s t) t) = TaskState (cur s t).
Proof.
  intros Ha. unfold FinalizeTaskState. set (f := fun _ => _).
  assert (allocated (emit (upd s (te t) f) EvSaveContexts) (te t)) as Ha1.
  { unfold allocated in *. cbn. by rewrite length_alter. }
  pose proof (SaveTask_state _ t Ha1) as HS. destruct (SaveTask _ _) as [s1 e]. cbn [fst] in HS.
  change (TaskState (cur s1 t) = TaskState (cur s t)). rewrite HS.
  change (TaskState (cur (upd s (te t) f) t) = TaskState (cur s t)). rewrite cur_upd by done.
  subst f. cbn. by destruct (State.Completed _).
Qed.

Lemma finish_state s t err :
  allocated s (te t) ->
  let st := TaskState (cur s t) in
  TaskState (cur (finish_task s t err).1 t) = (if State.CanFinalize st then st else State.FAILED) /\
  (State.CanFinalize st = true -> (finish_task s t err).2 = err).
Proof.
  intros Ha. cbn zeta. unfold finish_task. destruct (State.CanFinalize _) eqn:E; cbn [fst snd].
  - split; [|done]. by apply Finalize_state.
  - split; [|done]. rewrite Finalize_state.
    + unfold SetFailed. by rewrite cur_upd.
    + eapply allocated_quiet; [apply quiet_upd|done].
Qed.

Lemma Update_completed s t rq r :
  Status r = State.COMPLETED -> (UpdateTaskFromResponse s t rq r).2 = None.
Proof.
  intros Hr. unfold UpdateTaskFromResponse, update_error. rewrite Hr. cbn [String.eqb].
  change (State.COMPLETED == State.COMPLETED) with true. cbv iota.
  by destruct (updateArtifactsFromResponse _ _ _ _ _).
Qed.

(** An error of [tryExecuteTask] means that nothing was run. *)
Lemma tryExecuteTask_error n s t s' e : tryExecuteTask M n s t = Some (s', Some e) -> s' = s.
Proof.
  unfold tryExecuteTask. destruct (Task.IsExcept _); [done|].
  destruct (BuildTaskRequest s t) as [e1|rq]; [by intros [= <- _]|].
  destruct (if CanReusePreviousResult M s t then _ else _) as [e1|r] eqn:ER.
  - by destruct (task_loop _ _ _ _ _).
  - assert (Status r = State.COMPLETED) as Hr.
    { unfold CanReusePreviousResult in ER. destruct (negb _); [|done]. cbn [andb] in ER.
      destruct (LastTaskExecution t) as [x|] eqn:EL; [|done].
      destruct (State.Completed (TaskState x)) eqn:EC; [|done].
      unfold BuildTaskResponseFromPreviousResult in ER. rewrite EL in ER.
      destruct (BuildTaskRequest s t); [done|]. injection ER as <-. cbn. by apply eqb_string_true. }
    match goal with |- context[UpdateTaskFromResponse ?x t rq r] =>
      pose proof (Update_completed x t rq r Hr) as HU; destruct (UpdateTaskFromResponse x t rq r) as [[s2 r2] e2] end.
    cbn in HU. by subst.
Qed.

Lemma Execute_final n s t s' err :
  Execute M n s t = Some (s', err) -> allocated s (te t) ->
  TaskState (cur s t) = State.READY \/ TaskState (cur s t) = State.COMPLETED ->
  State.CanFinalize (TaskState (cur s' t)) = true /\
  (err <> None -> TaskState (cur s' t) = State.FAILED).
Proof.
  intros HX Ha Hst. unfold Execute in HX. destruct (State.Completed _) eqn:EC.
  { injection HX as <- <-. apply eqb_string_true in EC. by rewrite EC. }
  assert (TaskState (cur s t) = State.READY) as Hready.
  { destruct Hst as [|Hst]; [done|]. by rewrite Hst in EC. }
  pose proof (frame_Prepare s t) as HF.
  destruct (PrepareExecution M s t) as [s1 [e|t1]] eqn:EP; cbn [fst] in HF.
  { pose proof (finish_state s1 t (Some ("failed to prepare task for execution due to " +:+ e))
      (allocated_frame _ _ _ HF Ha)) as [HS _]. injection HX as HX. rewrite HX in HS. cbn [fst] in HS.
    assert (TaskState (cur s1 t) = State.READY \/ TaskState (cur s1 t) = State.FAILED) as H1.
    { revert EP. unfold PrepareExecution. destruct (ctxErr s); [intros [= <- _]; auto|].
      destruct (Reservations M !! _); [|intros [= <- _]; auto].
      destruct (Ants.ValidateReservation _); [intros [= <- _]; auto|].
      pose proof (frame_validateAnt s (def (td t)) a (te t)) as HV.
      destruct (validateAntAllocation _ _ _ _) as [s2 [e2|r]]; [|done]. intros [= <- _]. right.
      rewrite cur_upd; [done|by eapply allocated_frame]. }
    rewrite HS. by destruct H1 as [-> | ->]. }
  apply Prepare_tsm in EP as (Et & Ed & _).
  assert (forall s, cur s t1 = cur s t) as Ec by (intros; unfold cur; by rewrite Et, Ed).
  pose proof (frame_SetExecuting s1 t1) as HE.
  assert (allocated s1 (te t1)) as Ha1 by (rewrite Et; by eapply allocated_frame).
  assert (TaskState (cur (SetTaskToExecuting s1 t1).1 t1) = State.EXECUTING) as H2.
  { unfold SetTaskToExecuting. cbn [fst db].
    change (TaskState (cur (upd s1 (te t1) (fun x => SetStatus x State.EXECUTING)) t1) = State.EXECUTING).
    by rewrite cur_upd. }
  destruct (SetTaskToExecuting s1 t1) as [s2 oe]; cbn [fst] in HE, H2.
  assert (allocated s2 (te t1)) as Ha2 by by eapply allocated_frame.
  destruct oe as [e|].
  { pose proof (finish_state s2 t1 (Some e) Ha2) as [HS _]. injection HX as HX.
    rewrite HX in HS. cbn [fst] in HS. rewrite <- Ec, HS, H2. done. }
  destruct (tryExecuteTask M n s2 t1) as [[s3 oe]|] eqn:ET; [|done]. injection HX as HX.
  assert (allocated s3 (te t1)) as Ha3.
  { eapply allocated_quiet; [by eapply tryExecuteTask_quiet|done]. }
  pose proof (finish_state s3 t1 oe Ha3) as [HS HS2]. rewrite HX in HS, HS2. cbn [fst snd] in HS, HS2.
  rewrite <- Ec, HS. destruct (State.CanFinalize (TaskState (cur s3 t1))) eqn:EF; [|done].
  split; [done|]. rewrite (HS2 eq_refl). destruct oe as [e|]; [|done].
  apply tryExecuteTask_error in ET. subst s3. rewrite H2 in EF. done.
Qed.

(** ** Submitting a task *)

(** [steady s s']: no step of the job itself: its state, the request, and the
    error code up to a match. *)
Record steady (s s' : St) : Prop := {
  sd_state : JobState (exec s') = JobState (exec s);
  sd_req : req s' = req s;
  sd_code : errorCode s' = errorCode s \/ exists tr, errorCode s' = match_error tr
}.

#[local] Instance steady_preorder : PreOrder steady.
Proof.
  split; [by split; auto|]. intros s1 s2 s3 [A1 A2 A3] [B1 B2 B3].
  split; try congruence. destruct B3 as [->|]; auto.
Qed.

Lemma quiet_steady s s' : quiet s s' -> steady s s'.
Proof. by intros []. Qed.

(** A task object that has just been made. *)
Definition fresh (x : TaskExecution) : Prop := TaskState x = State.READY /\ Retried x = 0.

Lemma AddTask_spec je d :
  let '(je', p) := AddTask je d in
  JobState je' = JobState je /\ exists x, deref je' p = Some x /\ fresh x.
Proof.
  unfold AddTask. destruct (GetTask je "" (Task.TaskType d)) as [[i q]|]; (split; [done|]).
  - eexists. split; [by apply list_lookup_middle|done].
  - rewrite deref_update_eq. unfold deref. cbn. rewrite list_lookup_middle by done. by eexists.
Qed.

Lemma create_task_spec s ty d prev :
  let '(s', r) := create_task s ty d prev in
  steady s s' /\
  forall t, r = inr t ->
    allocated s' (te t) /\ fresh (cur s' t) /\ td t = d /\ taskType t = ty.
Proof.
  unfold create_task. pose proof (AddTask_spec (exec s) (def d)) as HA.
  destruct (AddTask (exec s) (def d)) as [je p]. destruct HA as (HJ & x & Hx & Hf).
  set (s1 := match prev with Some _ => _ | None => _ end).
  set (t0 := mkTsm ty d p None None).
  assert (steady s s1 /\ allocated s1 p /\ fresh (cur s1 t0)) as (H1 & Ha & Hc).
  { assert (allocated (with_exec s je) p) as Ha by by apply lookup_lt_is_Some_1; eexists.
    assert (cur (with_exec s je) t0 = x) as Hc by (unfold cur, deref in *; cbn; by rewrite Hx).
    subst s1. destruct prev as [[id secs]|]; [|by split_and!; [split; auto|..]; rewrite ?Hc].
    split; [split; auto|]. split; [by eapply allocated_quiet; [apply quiet_upd|]|].
    rewrite (cur_upd (with_exec s je) t0) by done. rewrite Hc.
    unfold AddPreviousExecutionCostSecs. by destruct (0 <? secs). }
  clearbody s1. pose proof (frame_SaveTask p s1) as HF. pose proof (SaveTask_state s1 t0 Ha) as HS.
  change (te t0) with p in HS.
  destruct (SaveTask s1 p) as [s2 [e|]]; cbn [fst] in HF, HS.
  - split; [|done]. etrans; [exact H1|]. etrans; [by eapply quiet_steady, frame_quiet|].
    eapply quiet_steady, quiet_upd.
  - split; [etrans; [exact H1|]; by eapply quiet_steady, frame_quiet|].
    intros t [= <-]. split_and!; [by eapply allocated_frame|split|done|done].
    + rewrite HS. apply Hc.
    + rewrite (cur_retried s1 s2 t0) by done. apply Hc.
Qed.

Lemma New_spec s ty :
  let '(s', r) := NewTaskExecutionStateMachine s ty in
  steady s s' /\
  forall t, r = inr t ->
    allocated s' (te t) /\ (TaskState (cur s' t) = State.COMPLETED \/ fresh (cur s' t)) /\
    taskType t = ty /\ exists tr c, dynamic_task tr c ty = inr (td t).
Proof.
  unfold NewTaskExecutionStateMachine. destruct (dynamic_task _ _ ty) as [e|d] eqn:ED; [done|].
  assert (forall s0 prev, steady s s0 -> let '(s', r) := create_task s0 ty d prev in
    steady s s' /\ forall t, r = inr t ->
      allocated s' (te t) /\ (TaskState (cur s' t) = State.COMPLETED \/ fresh (cur s' t)) /\
      taskType t = ty /\ exists tr c, dynamic_task tr c ty = inr (td t)) as HC.
  { intros s0 prev H0'. pose proof (create_task_spec s0 ty d prev) as HX.
    destruct (create_task s0 ty d prev) as [s1 r]. destruct HX as [H1 H2].
    split; [by etrans|]. intros t Ht. destruct (H2 t Ht) as (? & ? & <- & ?). split_and!; eauto. }
  destruct (GetTask (exec s) "" ty) as [[i p]|]; [|by apply HC].
  destruct (deref (exec s) p) as [x|] eqn:EX; [|by apply HC].
  destruct (State.Completed (TaskState x)) eqn:EC.
  - split; [done|]. intros t [= <-]. apply eqb_string_true in EC. cbn.
    split_and!; eauto; [by apply lookup_lt_is_Some_1; eexists|].
    left. unfold cur, deref in *. cbn. by rewrite EX.
  - assert (steady s (emit (with_exec s (DeleteTask (exec s) (ID x)).1) (EvDeleteTask (ID x)))) as HD.
    { split; cbn; auto. unfold DeleteTask. by destruct (GetTask _ _ _) as [[]|]. }
    unfold db. destruct (db_err _); [done|]. by apply HC.
Qed.

(** ** Running a job to its end *)

(** [later s s']: what every step of a run keeps: the retry counter does not
    decrease, and error codes come from the repository. *)
Record later (s s' : St) : Prop := {
  lt_retried : ReqRetried (req s) <= ReqRetried (req s');
  lt_code : errorCode s' = errorCode s \/ exists tr, errorCode s' = match_error tr
}.

#[local] Instance later_preorder : PreOrder later.
Proof.
  split; [by split; auto|]. intros s1 s2 s3 [A1 A2] [B1 B2].
  split; [lia|]. destruct B2 as [->|]; auto.
Qed.

Lemma steady_later s s' : steady s s' -> later s s'.
Proof. intros [_ Hr ?]. split; [by rewrite Hr|done]. Qed.

Lemma failed_later s old c err code : later s (failed s old c err code).1.
Proof. unfold failed, db. destruct (db_err _); cbn; split; cbn; auto; lia. Qed.

Lemma lifecycle_later s : later s (receive_lifecycle s).
Proof.
  unfold receive_lifecycle. generalize (lifecycle (trace s)). intros l. revert s.
  induction l as [|[id st] l IH]; intros s; cbn [foldl]; [reflexivity|]. etrans; [|apply IH].
  unfold UpdateFromJobLifecycleEvent. destruct (_ && _).
  - unfold ExecutionCancelled. destruct (State.IsTerminal _); [by split; auto|].
    match goal with |- later s (cancel (fst (failed ?x ?a ?b ?c ?d))) =>
      destruct (failed_later x a b c d) as [H1 H2] end. by split.
  - destruct (_ && _); [|reflexivity]. unfold PauseJob. destruct (negb _); [by split; auto|].
    split; cbn; auto; lia.
Qed.

Section Acyclic.
Variables (rank : string -> nat) (B R : Z) (K N : nat).
Hypothesis acyclic : forall tr c ty d st ex next found,
  dynamic_task tr c ty = inr d -> Job.GetNextTask (jd M) (def d) st ex = (Some next, found) ->
  (rank (Task.TaskType next) < rank ty)%nat.
Hypothesis rank_bound : forall ty, (rank ty < K)%nat.
Hypothesis polling : forall tr c ty d, dynamic_task tr c ty = inr d ->
  stops_polling N (def d) /\ Task.Retry (def d) <= R.
Hypothesis job_retries : Job.jd_Retry (jd M) <= B.
Hypothesis code_retries : forall tr c, match_error tr = Some c -> ErrorCodes.Retry c <= B.

(** The fuel of each loop. *)
Let tfuel : nat := S (Z.to_nat R + N).
Definition code_ok (s : St) : Prop := forall c, errorCode s = Some c -> ErrorCodes.Retry c <= B.

Lemma code_ok_later s s' : later s s' -> code_ok s -> code_ok s'.
Proof.
  unfold code_ok. intros [_ [->|[tr ->]]] Hs; [done|]. intros c. apply code_retries.
Qed.

Lemma submitTask_ends s ty :
  exists s' ot e, submitTask M tfuel s ty = Some (s', ot, e) /\ steady s s' /\
    forall t, ot = Some t -> exists tr c, dynamic_task tr c ty = inr (td t).
Proof.
  unfold submitTask. pose proof (New_spec s ty) as HN.
  destruct (NewTaskExecutionStateMachine s ty) as [s1 [e|t]]; destruct HN as [HS HN].
  { by eexists _, _, _. }
  destruct (HN t eq_refl) as (Ha & Hst & _ & tr & c & Hd).
  destruct (polling _ _ _ _ Hd) as [Hp HR].
  assert (exists s' err, Execute M tfuel s1 t = Some (s', err)) as (s' & err & HX).
  { destruct Hst as [Hc|[_ Hz]].
    - unfold Execute. rewrite Hc. eauto.
    - destruct (Execute_ends N tfuel s1 t Hp Ha) as (s' & err & HX & _); [unfold rounds_left; subst tfuel; lia|eauto]. }
  rewrite HX. apply Execute_quiet, quiet_steady in HX.
  assert (steady s s') as HS' by by etrans.
  destruct err; [destruct (Task.AllowFailure _)|]; eexists _, _, _; (split; [done|]);
    (split; [done|]); intros ? [= <-]; eauto.
Qed.

Lemma executeNextTask_ends fuel s ty :
  (rank ty < fuel)%nat ->
  exists s' code err, executeNextTask M fuel tfuel s ty = Some (s', code, err) /\ later s s'.
Proof.
  revert s ty. induction fuel as [|fuel IH]; intros s ty Hr; [lia|]. cbn [executeNextTask].
  pose proof (lifecycle_later s) as HL. destruct (State.IsTerminal _); [by eexists _, _, _|].
  destruct (submitTask_ends (receive_lifecycle s) ty) as (s1 & ot & e & -> & HS & Ht).
  assert (later s s1) as H1 by (etrans; [exact HL|by apply steady_later]).
  destruct ot as [t|]; [|by eexists _, _, _]. destruct e as [e|]; [by eexists _, _, _|].
  destruct (_ == _).
  { unfold db. destruct (db_err _); eexists _, _, _; (split; [done|]); etrans; try exact H1;
      by split; auto. }
  destruct (Ht t eq_refl) as (tr & c & Hd).
  destruct (Job.GetNextTask _ _ _ _) as [[next|] found] eqn:EN; cbn [fst].
  - destruct (IH s1 (Task.TaskType next)) as (s2 & code & err & -> & H2).
    + pose proof (acyclic _ _ _ _ _ _ _ _ Hd EN). lia.
    + eexists _, _, _. split; [done|]. by etrans.
  - destruct (last_outcome s1 t ty) as [code err]. by eexists _, _, _.
Qed.

Lemma CanRetryJob_bound s : code_ok s -> CanRetryJob M s = true -> ReqRetried (req s) <= B.
Proof.
  intros Hc. unfold CanRetryJob. rewrite orb_true_iff. intros [Hlt%Z.ltb_lt|HE]; [lia|].
  destruct (errorCode s) as [c|] eqn:E; [|done].
  apply andb_prop in HE as [_ Hlt%Z.ltb_lt]. specialize (Hc c E). lia.
Qed.

Lemma job_loop_ends rounds s start task :
  code_ok s -> (Z.to_nat (B + 1 - ReqRetried (req s)) < rounds)%nat ->
  exists s' code err, job_loop M rounds K tfuel s start task = Some (s', code, err).
Proof.
  revert s start task. induction rounds as [|rounds IH]; intros s start task Hc Hn; [lia|].
  cbn [job_loop]. set (task' := if start != "" then _ else _).
  destruct (match task' with Some t => _ | None => _ end) as [e|t]; [by eexists _, _, _|].
  destruct (executeNextTask_ends K s (Task.TaskType t)) as (s1 & code & err & -> & HL); [apply rank_bound|].
  destruct (match err with Some _ => _ | None => _ end) as [code' err'].
  destruct (_ || _); [by eexists _, _, _|].
  set (s2 := with_req (emit s1 _) _).
  assert (later s s2) as H2.
  { etrans; [exact HL|]. split; cbn; [lia|auto]. }
  destruct (0 <? ReqRetried (req s2)); [|by eexists _, _, _]. cbn [andb].
  destruct (CanRetryJob M s2) eqn:EC; [|by eexists _, _, _].
  pose proof (code_ok_later _ _ H2 Hc) as Hc2. apply CanRetryJob_bound in EC; [|done].
  apply IH; [done|]. destruct HL as [HL _]. cbn in *. lia.
Qed.

Lemma run_always_ends s l : exists s', run_always M tfuel s l = Some s'.
Proof.
  revert s. induction l as [|t l IH]; intros s; cbn [run_always]; [eauto|].
  destruct (GetTask _ _ _); [apply IH|].
  destruct (submitTask_ends s (Task.TaskType t)) as (s1 & ot & e & -> & _). apply IH.
Qed.

Lemma tryExecuteJob_ends s :
  code_ok s ->
  exists r, tryExecuteJob M (S (Z.to_nat (B + 1 - ReqRetried (req s)))) K tfuel s = Some r.
Proof.
  intros Hc. unfold tryExecuteJob.
  assert (later s (SetJobStatusToExecuting M s).1) as HL.
  { unfold SetJobStatusToExecuting, db. destruct (db_err _); [by split; auto|].
    destruct (add_contexts _ _) as [je ok]. destruct ok; split; cbn; auto; lia. }
  destruct (SetJobStatusToExecuting M s) as [s1 [e|]]; cbn [fst] in HL; [eauto|].
  destruct (job_loop_ends (S (Z.to_nat (B + 1 - ReqRetried (req s)))) s1 (CurrentTask (exec s1)) None)
    as (s2 & code & err & ->).
  - by eapply code_ok_later.
  - destruct HL as [HL _]. lia.
  - destruct err as [e|]; [|eauto].
    assert (exists s3, (if State.IsTerminal (ReqState (req s2))
      then run_always M tfuel s2 (Job.GetLastAlwaysRunTasks (jd M)) else Some s2) = Some s3) as [s3 ->].
    { destruct (State.IsTerminal _); [apply run_always_ends|eauto]. }
    repeat case_match; eauto.
Qed.

End Acyclic.

(** ** Completion *)

Lemma submitTask_steady n s ty s' ot e : submitTask M n s ty = Some (s', ot, e) -> steady s s'.
Proof.
  unfold submitTask. pose proof (New_spec s ty) as HN.
  destruct (NewTaskExecutionStateMachine s ty) as [s1 [e1|t]]; destruct HN as [HS _].
  { by intros [= <- _ _]. }
  destruct (Execute M n s1 t) as [[s2 oe]|] eqn:EX; [|done].
  apply Execute_quiet, quiet_steady in EX.
  destruct oe; [destruct (Task.AllowFailure _)|]; intros [= <- _ _]; by etrans.
Qed.

(** Running tasks and life-cycle events never complete a job. *)
Definition not_completed (s : St) : Prop := JobState (exec s) <> State.COMPLETED.

Lemma failed_state s old c err code :
  JobState (exec (failed s old c err code).1) = if c then State.CANCELLED else State.FAILED.
Proof. unfold failed, db. by destruct (db_err _), c. Qed.

Lemma lifecycle_not_completed s : not_completed s -> not_completed (receive_lifecycle s).
Proof.
  unfold receive_lifecycle. generalize (lifecycle (trace s)). intros l. revert s.
  induction l as [|[id st] l IH]; intros s Hs; cbn [foldl]; [done|]. apply IH. clear IH l.
  unfold UpdateFromJobLifecycleEvent, not_completed in *. destruct (_ && _).
  - unfold ExecutionCancelled. destruct (State.IsTerminal _); [done|].
    match goal with |- JobState (exec (cancel (fst (failed ?x ?a ?b ?c ?d)))) <> _ =>
      pose proof (failed_state x a b c d) as HF end. cbn [cancel exec]. by rewrite HF.
  - destruct (_ && _); [|done]. unfold PauseJob. by destruct (negb _).
Qed.

Lemma executeNextTask_not_completed fuel n s ty s' code err :
  executeNextTask M fuel n s ty = Some (s', code, err) -> not_completed s -> not_completed s'.
Proof.
  revert s ty. induction fuel as [|fuel IH]; intros s ty; cbn [executeNextTask]; [done|].
  intros HX Hs%lifecycle_not_completed. destruct (State.IsTerminal _); [by injection HX as <- _ _|].
  destruct (submitTask _ _ _ _) as [[[s1 ot] e]|] eqn:ES; [|done]. apply submitTask_steady in ES.
  assert (not_completed s1) as H1 by (unfold not_completed in *; by rewrite (sd_state _ _ ES)).
  destruct ot as [t|]; [|by injection HX as <- _ _]. destruct e; [by injection HX as <- _ _|].
  destruct (_ == _); [unfold db in HX; destruct (db_err _); by injection HX as <- _ _|].
  destruct (fst _) as [next|]; [by eapply IH|].
  destruct (last_outcome _ _ _). by injection HX as <- _ _.
Qed.

Lemma job_loop_outcome rounds fuel n s start task s' code err :
  job_loop M rounds fuel n s start task = Some (s', code, err) -> not_completed s ->
  not_completed s' /\ (err = None -> GetFailedTaskError (exec s') = None).
Proof.
  revert s start task. induction rounds as [|rounds IH]; intros s start task; cbn [job_loop]; [done|].
  set (task' := if start != "" then _ else _).
  destruct (match task' with Some t => _ | None => _ end) as [e|t]; [by intros [= <- _ <-]|].
  destruct (executeNextTask _ _ _ _ _) as [[[s1 code1] err1]|] eqn:EX; [|done].
  intros HX Hs. pose proof (executeNextTask_not_completed _ _ _ _ _ _ _ EX Hs) as H1.
  destruct (match err1 with Some _ => _ | None => _ end) as [code2 err2] eqn:E2.
  assert (err2 = None -> GetFailedTaskError (exec s1) = None) as HG.
  { intros ->. destruct err1; [done|]. revert E2.
    destruct (GetFailedTaskError (exec s1)) as [[[x c] m]|]; [|done]. intros [=]. }
  destruct (_ || _); [by injection HX as <- _ <-|].
  destruct (_ && _); [by eapply IH in HX|]. injection HX as <- _ <-. by split.
Qed.

Lemma run_always_not_completed n s l s' :
  run_always M n s l = Some s' -> not_completed s -> not_completed s'.
Proof.
  revert s. induction l as [|t l IH]; intros s; cbn [run_always]; [by intros [= <-]|].
  destruct (GetTask _ _ _); [apply IH|].
  destruct (submitTask _ _ _ _) as [[[s1 ot] e]|] eqn:ES; [|done]. apply submitTask_steady in ES.
  intros HX Hs. eapply IH; [exact HX|]. unfold not_completed in *. by rewrite (sd_state _ _ ES).
Qed.

Lemma add_contexts_state je l : JobState (add_contexts je l).1 = JobState je.
Proof.
  revert je. induction l as [|[k v] l IH]; intros je; cbn; [done|].
  destruct (AddContext _ _ _) as [c ok]. destruct ok; [by rewrite IH|done].
Qed.

Lemma SetExecuting_state s :
  (SetJobStatusToExecuting M s).2 = None ->
  JobState (exec (SetJobStatusToExecuting M s).1) = State.EXECUTING.
Proof.
  unfold SetJobStatusToExecuting, db. destruct (db_err _); [done|]. intros _.
  match goal with |- context[add_contexts ?x ?y] => pose proof (add_contexts_state x y) as HA end.
  destruct (add_contexts _ _) as [je ok]. by destruct ok.
Qed.

(** What the absence of an error says of each task. *)
Lemma no_failed_task je p x :
  GetFailedTaskError je = None -> p ∈ Tasks je -> deref je p = Some x -> AllowFailure x = false ->
  TaskState x <> State.FAILED /\ TaskState x <> State.CANCELLED.
Proof.
  unfold GetFailedTaskError. destruct (List.find _ _) as [y|] eqn:EF; [done|]. intros _ Hp Hx Ha.
  assert (In x (tasks_of je)) as Hin.
  { apply list_elem_of_In. unfold tasks_of. apply list_elem_of_omap. by exists p. }
  pose proof (List.find_none _ _ EF x Hin) as HF. cbn in HF. rewrite Ha in HF. cbn in HF.
  unfold State.Failed in HF. apply orb_false_iff in HF as [H1%eqb_string_false H2%eqb_string_false]. done.
Qed.

Lemma tryExecuteJob_completed rounds fuel n s s' e :
  tryExecuteJob M rounds fuel n s = Some (s', e) -> JobState (exec s') = State.COMPLETED ->
  GetFailedTaskError (exec s') = None.
Proof.
  unfold tryExecuteJob. pose proof (SetExecuting_state s) as HS.
  destruct (SetJobStatusToExecuting M s) as [s1 [e1|]].
  { unfold LaunchFailed. match goal with |- context[failed ?x ?a ?b ?c ?d] =>
      pose proof (failed_state x a b c d) as HF; destruct (failed x a b c d) as [s2 e2] end.
    intros [= <- _]. cbn in *. by rewrite HF. }
  cbn [fst snd] in HS. assert (not_completed s1) as H1 by (unfold not_completed; by rewrite HS).
  destruct (job_loop _ _ _ _ _ _ _) as [[[s2 code] err]|] eqn:EJ; [|done].
  destruct (job_loop_outcome _ _ _ _ _ _ _ _ _ EJ H1) as [H2 HG].
  destruct err as [err|]; [|intros [= <- _] _; exact (HG eq_refl)].
  destruct (if State.IsTerminal _ then _ else _) as [s3|] eqn:E3; [|done].
  assert (not_completed s3) as H3.
  { destruct (State.IsTerminal _); [by eapply run_always_not_completed|by injection E3 as <-]. }
  intros HX HC. exfalso. revert HC. destruct (_ == _); [by injection HX as <- _|].
  destruct (_ == _); [unfold PauseJob in HX; destruct (negb _); by injection HX as <- _|].
  destruct (_ == _); [by injection HX as <- _|].
  unfold ExecutionFailed in HX. destruct (State.IsTerminal (JobState _)); [by injection HX as <- _|].
  match goal with HX : context[failed ?x ?a ?b ?c ?d] |- _ =>
    pose proof (failed_state x a b c d) as HF; destruct (failed x a b c d) as [s4 e4] end.
  injection HX as <- _. cbn in *. by rewrite HF.
Qed.

(** A submitted task sends at most one request more than it may be retried, and
    those that are answered with EXECUTING. *)
Lemma submitTask_sends R N s ty :
  (forall tr c d, dynamic_task tr c ty = inr d -> stops_polling N (def d) /\ Task.Retry (def d) <= R) ->
  exists s' ot e, submitTask M (S (Z.to_nat R + N)) s ty = Some (s', ot, e) /\
    (sends s' <= sends s + S (Z.to_nat R + (N - sends s)))%nat.
Proof.
  intros HR. unfold submitTask. pose proof (New_spec s ty) as HN. pose proof (New_sends s ty) as HS.
  destruct (NewTaskExecutionStateMachine s ty) as [s1 [e|t]]; cbn [fst] in HS; destruct HN as [_ HN].
  { eexists _, _, _. split; [done|lia]. }
  destruct (HN t eq_refl) as (Ha & Hst & _ & tr & c & Hd). destruct (HR _ _ _ Hd) as [Hp Hle].
  assert (exists s' err, Execute M (S (Z.to_nat R + N)) s1 t = Some (s', err) /\
    (sends s' <= sends s1 + S (Z.to_nat R + (N - sends s1)))%nat) as (s' & err & -> & HX).
  { destruct Hst as [Hc|[_ Hz]].
    - unfold Execute. rewrite Hc. eexists _, _. split; [done|lia].
    - destruct (Execute_ends N (S (Z.to_nat R + N)) s1 t Hp Ha) as (s' & err & HX & Hs'); [unfold rounds_left; lia|].
      exists s', err. split; [done|]. unfold rounds_left in Hs'. rewrite Hz in Hs'. lia. }
  destruct err; [destruct (Task.AllowFailure _)|]; eexists _, _, _; (split; [done|lia]).
Qed.

Lemma submitTask_final n s ty s' t e :
  submitTask M n s ty = Some (s', Some t, e) ->
  State.CanFinalize (TaskState (cur s' t)) = true /\
  (e <> None -> TaskState (cur s' t) = State.FAILED).
Proof.
  unfold submitTask. pose proof (New_spec s ty) as HN.
  destruct (NewTaskExecutionStateMachine s ty) as [s1 [e1|t1]]; [done|]. destruct HN as [_ HN].
  destruct (HN t1 eq_refl) as (Ha & Hst & _).
  destruct (Execute M n s1 t1) as [[s2 oe]|] eqn:EX; [|done].
  apply Execute_final in EX as [H1 H2]; [|done|destruct Hst as [|[]]; auto].
  destruct oe as [e1|]; [destruct (Task.AllowFailure _)|]; intros [= <- <- <-]; naive_solver.
Qed.

(** ** Cycles of completed tasks *)
Lemma executeNextTask_loops (P : string -> Prop) s fuel n ty :
  lifecycle (trace s) = [] -> State.IsTerminal (JobState (exec s)) = false ->
  (forall ty, P ty -> exists i p x d next found,
     GetTask (exec s) "" ty = Some (i, p) /\ deref (exec s) p = Some x /\
     TaskState x = State.COMPLETED /\
     dynamic_task (trace s) (je_contexts (exec s)) ty = inr d /\
     Job.GetNextTask (jd M) (def d) State.COMPLETED (ExitCode x) = (Some next, found) /\
     P (Task.TaskType next)) ->
  P ty -> executeNextTask M fuel n s ty = None.
Proof.
  intros HL HT HP. revert ty. induction fuel as [|fuel IH]; intros ty Hty; [done|]. cbn [executeNextTask].
  assert (receive_lifecycle s = s) as -> by (unfold receive_lifecycle; by rewrite HL).
  rewrite HT. destruct (HP ty Hty) as (i & p & x & d & next & found & HG & HD & HC & Hd & HN & HPn).
  unfold submitTask, NewTaskExecutionStateMachine. rewrite Hd, HG, HD, HC.
  assert (cur s (mkTsm ty d p None None) = x) as Hx by (unfold cur; cbn [te]; by rewrite HD).
  change (State.Completed State.COMPLETED) with true. cbv iota.
  unfold Execute. rewrite Hx, HC. change (State.Completed State.COMPLETED) with true. cbv iota.
  rewrite Hx, HC. change (State.COMPLETED == State.MANUAL_APPROVAL_REQUIRED) with false. cbv iota.
  cbn [td def]. rewrite HN. cbn [fst]. by apply IH.
Qed.

End Facts.

(** ** Acyclic definitions

    A check that makes the tasks of a definition acyclic: a rank descends along
    every exit code, and no exit code keeps a task executing. *)
Definition targets (t : Task.TaskDefinition) : list string := map snd (map_to_list (Task.OnExitCode t)).
Definition descends (rank : string -> nat) (t : Task.TaskDefinition) : bool :=
  forallb (fun n => (ToUpper n != State.EXECUTING) && (rank n <? rank (Task.TaskType t))%nat) (targets t).

Lemma descends_next rank jd t st ex next found :
  validated jd -> descends rank t = true -> Job.GetNextTask jd t st ex = (Some next, found) ->
  (rank (Task.TaskType next) < rank (Task.TaskType t))%nat.
Proof.
  intros Hv Hd HN. unfold descends in Hd. rewrite forallb_forall in Hd.
  assert (forall code n, Task.OnExitCode t !! code = Some n ->
    ToUpper n <> State.EXECUTING /\ (rank n < rank (Task.TaskType t))%nat) as HT.
  { intros code n Hc. destruct (andb_prop _ _ (Hd n ltac:(apply in_map_iff; exists (code, n);
      split; [done|]; by apply list_elem_of_In, elem_of_map_to_list))) as [HE HR].
    split; [|by apply Nat.ltb_lt]. intros HX. by rewrite HX in HE. }
  destruct (GetNextTask_source _ _ _ _ _ _ Hv HN) as [[_ HX]|[_ [code Hc]]]; [|by apply (HT code)].
  exfalso. unfold Task.exit_target in HX. destruct (Task.OnExitCode t !! _) as [n|] eqn:Hc; [|done].
  by destruct (HT _ _ Hc).
Qed.

(** ** The theorems *)

(** A job whose supervision is bounded: the tasks its templates yield follow
    each other along a rank below [K], their ants stop to ask for polling once
    [N] requests have been sent, tasks are retried at most [R] times, and neither
    the job nor a registered error code asks for more than [B] runs. *)
Record bounded_job {E : Env} (M : Machine) (rank : string -> nat) (B R : Z) (K N : nat) : Prop := {
  bj_acyclic tr c ty d st ex next found :
    dynamic_task tr c ty = inr d -> Job.GetNextTask (jd M) (def d) st ex = (Some next, found) ->
    (rank (Task.TaskType next) < rank ty)%nat;
  bj_rank ty : (rank ty < K)%nat;
  bj_tasks tr c ty d : dynamic_task tr c ty = inr d -> stops_polling N (def d) /\ Task.Retry (def d) <= R;
  bj_job : Job.jd_Retry (jd M) <= B;
  bj_code tr c : match_error tr = Some c -> ErrorCodes.Retry c <= B
}.


(** A submitted task is sent to an ant at most once more than it may be
    retried and its ant may ask for polling: the retries of the error code found
    for a failure do not add to those of the task. *)
Theorem task_is_sent_at_most_retry_plus_one (O : RangeOrder) (E : Env) (M : Machine) (R : Z) N (s : St) ty :
  (forall tr c d, dynamic_task tr c ty = inr d -> stops_polling N (def d) /\ Task.Retry (def d) <= R) ->
  exists s' ot e, submitTask M (S (Z.to_nat R + N)) s ty = Some (s', ot, e) /\
    (sends s' <= sends s + S (Z.to_nat R + (N - sends s)))%nat.
Proof. apply submitTask_sends. Qed.

(** A task that was submitted is left in a final state: completed, failed,
    cancelled, paused or waiting for approval, never ready or executing; and the
    supervisor reports an error only for a task that is marked as failed. *)
Theorem submitted_task_is_final (O : RangeOrder) (E : Env) (M : Machine) n (s : St) ty s' t e :
  submitTask M n s ty = Some (s', Some t, e) ->
  State.CanFinalize (TaskState (cur s' t)) = true /\
  (e <> None -> TaskState (cur s' t) = State.FAILED).
Proof. apply submitTask_final. Qed.

(** C17: a job that the supervisor leaves as completed has, among the tasks of its
    execution, none that is failed or cancelled, other than those that are allowed
    to fail, in whatever way its tasks were run, retried, paused or cancelled
    before. *)
Theorem completed_job_has_no_failed_task (O : RangeOrder) (E : Env) (M : Machine) rounds fuel n (s s' : St) e p x :
  tryExecuteJob M rounds fuel n s = Some (s', e) -> JobState (exec s') = State.COMPLETED ->
  p ∈ Tasks (exec s') -> deref (exec s') p = Some x -> AllowFailure x = false ->
  TaskState x <> State.FAILED /\ TaskState x <> State.CANCELLED.
Proof. intros HX HC. eapply no_failed_task, tryExecuteJob_completed; done. Qed.

(** A cycle of completed tasks is run for ever: when each task of a set is
    completed and its exit codes lead to a task of the set, the supervisor never
    returns from any of them, however much fuel it gets, because a completed
    task is not executed again and the context is not looked at. *)
Theorem completed_cycle_never_returns (O : RangeOrder) (E : Env) (M : Machine) (P : string -> Prop)
    (s : St) ty :
  lifecycle (trace s) = [] -> State.IsTerminal (JobState (exec s)) = false ->
  (forall ty, P ty -> exists i p x d next found,
     GetTask (exec s) "" ty = Some (i, p) /\ deref (exec s) p = Some x /\
     TaskState x = State.COMPLETED /\
     dynamic_task (trace s) (je_contexts (exec s)) ty = inr d /\
     Job.GetNextTask (jd M) (def d) State.COMPLETED (ExitCode x) = (Some next, found) /\
     P (Task.TaskType next)) ->
  P ty -> forall fuel n, executeNextTask M fuel n s ty = None.
Proof. intros HL HT HP Hty fuel n. by apply (executeNextTask_loops M P). Qed.

(** ** Concrete runs *)
Module RunDemo.
Import JobDemo.

(** An ant that runs shell tasks, reserved for every task. *)
Definition ant : Ants.AntRegistration :=
  Ants.mkAntRegistration "ant" "topic" "" 10 ["linux"] ["SHELL"] 0 0 ∅ 0 None.
Definition reservation (ty : string) : Ants.AntReservation :=
  Ants.mkAntReservation "q" ty "ant" "topic" "" 0 0 0 0.

(** The ant completes every task but those that fail, and life-cycle events are
    delivered as given. *)
Definition answer (failing : list string) (rq : TaskRequest) : TaskResponse :=
  if existsb (fun n => n == rq_TaskType rq) failing
  then mkTaskResponse State.FAILED "" "boom" "" "1" "" "" ∅ ∅ [] []
  else mkTaskResponse State.COMPLETED "" "" "" "0" "" "" ∅ ∅ [] [].

Definition env_of (jd : Job.JobDefinition) (ant_answer : list event -> TaskRequest -> TaskResponse)
    (events : list event -> list (string * RequestState)) : Env := {|
  now := fun _ => 0;
  newID := fun tr => "id" +:+ pretty.pretty (List.length tr);
  ctx_err := fun _ => None;
  db_err := fun _ => None;
  deliver := fun tr rq => Delivered (ant_answer tr rq);
  marshal_err := fun _ _ => None;
  request_err := fun _ _ => None;
  dynamic_task := fun _ _ ty => match Job.GetTask jd ty with
                                | Some t => inr (mkDynamicTask t [] [] [] false)
                                | None => inl "failed to find task"
                                end;
  registration := fun _ _ => Some ant;
  reserve_ant := fun _ => inl "no ants";
  match_error := fun _ => None;
  artifact_err := fun _ => None;
  previous_cost := fun _ _ => 0;
  parse := fun _ _ => Nil;
  json := fun _ => "";
  timings := fun _ => "";
  requested_at := fun _ => "";
  elapsed_text := fun _ => "";
  job_error_text := fun _ => "";
  lifecycle := events
|}.
Abbreviation env jd failing events := (env_of jd (fun _ rq => answer failing rq) events).

Definition machine (jd : Job.JobDefinition) : Machine :=
  mkMachine jd None
    (list_to_map (map (fun t => (Task.TaskType t, reservation (Task.TaskType t))) (Job.Tasks jd)))
    State.PENDING 1000000000 1.

Definition start : St :=
  mkSt (mkJobExecution "e" "q" "io.demo" State.READY "" "" "" no_contexts [] [] None)
    (mkRequest "q" State.READY 0 0 false) None false [].

Definition no_events (_ : list event) : list (string * RequestState) := [].

Definition run (jd : Job.JobDefinition) (failing : list string) events : option (St * option string) :=
  tryExecuteJob (EV := env jd failing events) (machine jd) 2 10 2 start.
Definition final (r : option (St * option string)) : St := match r with Some (s, _) => s | None => start end.

Definition sent (s : St) : list string :=
  omap (fun e => match e with EvSend _ ty _ _ => Some ty | _ => None end) (trace s).

(** A cancellation that arrives when [build] has finished. *)
Definition cancel_after_build (tr : list event) : list (string * RequestState) :=
  if existsb (fun e => match e with EvTaskLifecycle ty st => (ty == "build") && (st == State.COMPLETED)
                                  | _ => false end) tr
     && negb (existsb (fun e => match e with EvFinalizeJob _ _ _ _ => true | _ => false end) tr)
  then [("q", State.CANCELLED)] else [].

(** [cleanup] is to run always, also when [build] fails. *)
Definition with_cleanup : Job.JobDefinition :=
  job [task "build" "cleanup" "";
       Task.mkTaskDefinition "cleanup" "SHELL" "" "" false false true 0 0 0 None "" ∅ "" "" 0 false
         ["linux"] "" None].

End RunDemo.
Import RunDemo.

(** The pipeline runs to its end; a run that goes round is not finished. *)
Example pipeline_runs :
  sent (final (run (JobDemo.valid JobDemo.pipeline) [] no_events)) = ["build"; "test"; "cleanup"] /\
  JobState (exec (final (run (JobDemo.valid JobDemo.pipeline) [] no_events))) = State.COMPLETED /\
  run (JobDemo.valid JobDemo.cyclic) [] no_events = None.
Proof. vm_compute. split_and!; reflexivity. Qed.

(** A job that is cancelled between two tasks is reported as completed: the
    supervisor of the cancelled job runs no further task, sees no failed task and
    marks the job as completed after it had been marked as cancelled. *)
Theorem cancelled_job_is_completed :
  let s := final (run (JobDemo.valid JobDemo.pipeline) [] cancel_after_build) in
  sent s = ["build"] /\
  In (EvFinalizeJob State.EXECUTING State.CANCELLED ErrorCodes.ErrorJobCancelled 0) (trace s) /\
  JobState (exec s) = State.COMPLETED /\ last (trace s) = Some (EvJobLifecycle State.COMPLETED).
Proof. vm_compute. split_and!; try reflexivity. tauto. Qed.

(** A task that is to run always is not run when the job fails: the request is
    still executing when the tasks that run always are looked for, so there is
    nothing to run. *)
Theorem always_run_task_is_skipped :
  let s := final (run (JobDemo.valid with_cleanup) ["build"] no_events) in
  JobDemo.validate with_cleanup = Return (JobDemo.valid with_cleanup) /\
  map Task.TaskType (Job.GetLastAlwaysRunTasks (JobDemo.valid with_cleanup)) = ["cleanup"] /\
  sent s = ["build"] /\ JobState (exec s) = State.FAILED.
Proof. vm_compute. split_and!; reflexivity. Qed.

(** The hypotheses of the theorems hold for a definition whose tasks pass a check. *)
Lemma env_task jd failing events tr c ty d :
  validated jd -> dynamic_task (Env := env_of jd failing events) tr c ty = inr d ->
  Task.TaskType (def d) = ty /\ def d ∈ Job.Tasks jd.
Proof.
  intros Hv. cbn [dynamic_task env_of]. destruct (Job.GetTask jd ty) as [t|] eqn:E; [|done]. intros [= <-].
  cbn [def]. apply (v_lookup _ Hv) in E. tauto.
Qed.

Definition task_ok (rank : string -> nat) (t : Task.TaskDefinition) : bool :=
  descends rank t && (Task.Retry t =? 0)
  && ((Task.OverrideStatusAndErrorCode t "0").1 != State.EXECUTING).

(** A sensor: the first [n] requests of a run are answered with EXECUTING. *)
Definition sensing (n : nat) (tr : list event) (rq : TaskRequest) : TaskResponse :=
  if (sends_in tr <=? n)%nat then mkTaskResponse State.EXECUTING "" "" "" "404" "" "" ∅ ∅ [] [] else answer [] rq.

Lemma task_ok_polls rank jd events t n :
  task_ok rank t = true -> stops_polling (EV := env_of jd (sensing n) events) (S n) t.
Proof.
  intros [_ HO]%andb_prop tr rq r Hn. cbn [deliver env_of]. unfold sensing.
  destruct (_ <=? n)%nat eqn:En; [apply Nat.leb_le in En; lia|]. intros [= <-].
  change (answer [] rq) with (mkTaskResponse State.COMPLETED "" "" "" "0" "" "" ∅ ∅ [] []).
  unfold override_response. cbn [rs_ExitCode].
  destruct (Task.OverrideStatusAndErrorCode t "0") as [st code]. cbn [fst] in HO.
  apply negb_true_iff, eqb_string_false in HO.
  destruct (st != ""); [|done]. cbn. by destruct (code != "").
Qed.

Lemma env_bounded jd rank events K n :
  validated jd -> forallb (task_ok rank) (Job.Tasks jd) = true -> (forall ty, rank ty < K)%nat ->
  Job.jd_Retry jd <= 0 ->
  bounded_job (E := env_of jd (sensing n) events) (machine jd) rank 0 0 K (S n).
Proof.
  intros Hv HA HK HJ. rewrite forallb_forall in HA. setoid_rewrite <- list_elem_of_In in HA. split.
  - intros tr c ty d st ex next found [<- Ht]%env_task HN; [|done].
    eapply descends_next; [exact Hv| |exact HN]. specialize (HA _ Ht). unfold task_ok in HA. go_bool. tauto.
  - exact HK.
  - intros tr c ty d [_ Ht]%env_task; [|done]. split; [by eapply task_ok_polls, HA|].
    specialize (HA _ Ht). unfold task_ok in HA.
    apply andb_prop in HA as [[_ ->%Z.eqb_eq]%andb_prop _]. done.
  - exact HJ.
  - done.
Qed.

Abbreviation pipe := (JobDemo.valid JobDemo.pipeline).
Abbreviation pipe_env := (env (JobDemo.valid JobDemo.pipeline) [] no_events).

Definition pipe_rank (ty : string) : nat :=
  if ty == "build" then 2 else if ty == "test" then 1 else 0.

Lemma pipe_validated : validated pipe.
Proof. apply (Validate_validated JobDemo.cron JobDemo.email JobDemo.pipeline). vm_compute. reflexivity. Qed.

(** Its first two requests are polls. *)
Abbreviation sensor_env := (env_of (JobDemo.valid JobDemo.pipeline) (sensing 2) no_events).
Lemma pipe_bounded : bounded_job (E := sensor_env) (machine pipe) pipe_rank 0 0 3 3.
Proof.
  apply env_bounded; [exact pipe_validated|vm_compute; reflexivity| |vm_compute; discriminate].
  intros ty. unfold pipe_rank. repeat case_match; lia.
Qed.

(** A sensor that goes on asking is polled as often as there is fuel. *)
Example sensor_is_polled_on :
  tryExecuteJob (EV := env_of (JobDemo.valid JobDemo.pipeline) (sensing 50) no_events) (machine pipe) 2 3 50 start = None.
Proof. vm_compute. reflexivity. Qed.


Lemma task_is_sent_at_most_retry_plus_one_witness :
  exists s' ot e, submitTask (EV := sensor_env) (machine pipe) 4 start "build" = Some (s', ot, e) /\
    (sends s' <= 4)%nat.
Proof.
  refine (task_is_sent_at_most_retry_plus_one map_to_list_order sensor_env (machine pipe) 0 3 start "build" _).
  intros tr c d Hd. exact (bj_tasks _ _ _ _ _ _ pipe_bounded tr c "build" d Hd).
Defined.

Abbreviation failed_build :=
  (submitTask (EV := env pipe ["build"] no_events) (machine pipe) 1 start "build").

Lemma submitted_task_is_final_witness :
  match failed_build with
  | Some (s', Some t, e) => State.CanFinalize (TaskState (cur s' t)) = true
  | _ => False
  end.
Proof.
  assert (forall r, failed_build = r -> match r with Some (_, Some _, _) => true | _ => false end = true ->
    match r with
    | Some (s', Some t, e) => State.CanFinalize (TaskState (cur s' t)) = true
    | _ => False
    end) as HR.
  { intros [[[s' [t|]] e]|] HX; [intros _|clear HX; discriminate..].
    exact (proj1 (submitted_task_is_final _ (env pipe ["build"] no_events) _ _ _ _ _ _ _ HX)). }
  apply (HR _ eq_refl). vm_compute. reflexivity.
Defined.

Abbreviation pipe_run := (tryExecuteJob (EV := pipe_env) (machine pipe) 2 10 2 start).

Lemma completed_job_has_no_failed_task_witness :
  match pipe_run with
  | Some (s', _) =>
      match Tasks (exec s') with
      | p :: _ => match deref (exec s') p with Some x => TaskState x <> State.FAILED | None => False end
      | [] => False
      end
  | None => False
  end.
Proof.
  assert (forall r, pipe_run = r ->
    match r with
    | Some (s', _) =>
        match Tasks (exec s') with
        | p :: _ => match deref (exec s') p with
                    | Some x => (JobState (exec s') == State.COMPLETED) && negb (AllowFailure x)
                    | None => false
                    end
        | [] => false
        end
    | None => false
    end = true ->
    match r with
    | Some (s', _) =>
        match Tasks (exec s') with
        | p :: _ => match deref (exec s') p with Some x => TaskState x <> State.FAILED | None => False end
        | [] => False
        end
    | None => False
    end) as HR.
  { intros [[s' e]|] HX; [|clear HX; discriminate]. destruct (Tasks (exec s')) as [|p l] eqn:ET; [discriminate|].
    destruct (deref (exec s') p) as [x|] eqn:ED; [|discriminate].
    intros [HC%eqb_string_true HA%negb_true_iff]%andb_prop.
    apply (completed_job_has_no_failed_task map_to_list_order pipe_env (machine pipe) 2 10 2 start s' e p x HX HC); [|done|done].
    rewrite ET. by left. }
  apply (HR _ eq_refl). vm_compute. reflexivity.
Defined.

(** A run of the cyclic job in which [b] and [c] have completed. *)
Abbreviation cyc := (JobDemo.valid JobDemo.cyclic).
Abbreviation cyc_env := (env (JobDemo.valid JobDemo.cyclic) [] no_events).

Definition done_task (t : Task.TaskDefinition) : TaskExecution :=
  set_outcome (NewTaskExecution t) State.COMPLETED "0" "".
Definition going_round : St :=
  with_exec start
    (mkJobExecution "e" "q" "io.demo" State.EXECUTING "" "" "" no_contexts [0%nat; 1%nat]
       [done_task JobDemo.b; done_task JobDemo.c] None).

Lemma completed_cycle_never_returns_witness :
  executeNextTask (EV := cyc_env) (machine cyc) 100 1 going_round "b" = None.
Proof.
  refine (completed_cycle_never_returns map_to_list_order cyc_env (machine cyc)
            (fun ty => ty = "b" \/ ty = "c") going_round "b" _ _ _ _ 100%nat 1%nat).
  - reflexivity.
  - reflexivity.
  - intros ty [-> | ->].
    + exists 0%nat, 0%nat, (done_task JobDemo.b), (mkDynamicTask JobDemo.b [] [] [] false), JobDemo.c, false.
      split_and!; [vm_compute; reflexivity..|right; vm_compute; reflexivity].
    + exists 1%nat, 1%nat, (done_task JobDemo.c), (mkDynamicTask JobDemo.c [] [] [] false), JobDemo.b, false.
      split_and!; [vm_compute; reflexivity..|left; vm_compute; reflexivity].
  - left. reflexivity.
Defined.
