(* ===== verification/Approval.v ===== *)
(** * Approval: multi-party approval of manual tasks

    Models [src/internal/types/query_context.go] (the tenant scope of queries),
    [src/queen/types/approval_policy.go], [approval_vote.go],
    [approval_deadline.go] and [src/queen/approval] (the vote repository and the
    approval service): casting votes, quorum and rejection, the transitions of
    task, execution and request, and the service-level deadlines.

    The database is a record of tables; a table is a list of rows and an update
    maps over the rows its condition selects.  Each SQL statement of a call, and
    the commit of a transaction, can fail: [err] says which ones do; a
    transaction that fails leaves the tables as they were.  Times are
    nanoseconds since Go's zero time; the [updated_at] and [created_at] columns
    are left out, nothing reads them here. *)

From S2P Require Import Prelude RequestState Acl.
From Stdlib Require Import Ascii.

Open Scope Z_scope.

(** ** Query: the tenant scope of database queries *)
Module Query.
Import Users.

Record QueryContext := mkQueryContext {
  UserIDColumn : string;
  OrganizationIDColumn : string;
  User_ : option User
}.

Definition NewQueryContext (user : option User) : QueryContext :=
  mkQueryContext "user_id" "organization_id" user.

(** Reading the roles fills a cache of the user; the answer is what counts here. *)
Definition IsAdmin (qc : QueryContext) : bool :=
  match User_ qc with Some u => snd (Users.IsAdmin u) | None => true end.
Definition IsReadAdmin (qc : QueryContext) : bool :=
  match User_ qc with Some u => snd (Users.IsReadAdmin u) | None => true end.
Definition GetUserID (qc : QueryContext) : string :=
  match User_ qc with Some u => ID u | None => "" end.
Definition GetOrganizationID (qc : QueryContext) : string :=
  match User_ qc with Some u => OrganizationID u | None => "" end.
Definition IsNull (qc : QueryContext) : bool :=
  match User_ qc with None => true | Some u => OrganizationID u == "" end.

Definition Matches (qc : QueryContext) (userID orgID : string) (readonly : bool) : bool :=
  match User_ qc with
  | None => true
  | Some u =>
      if IsAdmin qc || (IsReadAdmin qc && readonly) then true
      else if OrganizationID u != "" then OrganizationID u == orgID
      else ID u == userID
  end.

(** The conditions added to a query, as tests on a row: [row c] is the value of
    column [c]. *)
Definition AddUserWhere (qc : QueryContext) (readonly : bool) (row : string -> string) : bool :=
  match User_ qc with
  | None => true
  | Some u =>
      if IsAdmin qc || (UserIDColumn qc == "") || (readonly && IsReadAdmin qc) then true
      else row (UserIDColumn qc) == ID u
  end.

Definition AddOrgElseUserWhere (qc : QueryContext) (readonly : bool) (row : string -> string) : bool :=
  if IsAdmin qc || (readonly && IsReadAdmin qc) then true
  else match User_ qc with
       | Some u =>
           if (OrganizationID u != "") && (OrganizationIDColumn qc != "")
           then row (OrganizationIDColumn qc) == OrganizationID u
           else AddUserWhere qc readonly row
       | None => AddUserWhere qc readonly row
       end.

(** The scope of a query and the check on a loaded record agree. *)
Lemma scope_matches user readonly row :
  AddOrgElseUserWhere (NewQueryContext user) readonly row =
  Matches (NewQueryContext user) (row "user_id") (row "organization_id") readonly.
Proof.
  unfold AddOrgElseUserWhere, Matches, AddUserWhere. destruct user as [u|]; cbn [User_ NewQueryContext]; [|done].
  rewrite (andb_comm readonly). destruct (IsAdmin _ || (IsReadAdmin _ && readonly)) eqn:E; [done|].
  apply orb_false_iff in E as [-> ->]. cbn. rewrite andb_true_r.
  destruct (OrganizationID u == ""); cbn; apply String.eqb_sym.
Qed.

End Query.

(** ** Policy: who may vote and how many approvals are needed *)
Module Policy.

Definition TimeoutActionAutoApprove : string := "AUTO_APPROVE".
Definition TimeoutActionAutoReject : string := "AUTO_REJECT".
Definition TimeoutActionEscalate : string := "ESCALATE".

Record ApprovalPolicy := mkApprovalPolicy {
  MinApprovals : Z;
  AllowedRoles : string;
  AllowedUsers : string;
  RequireUnanimous : bool;
  SLADeadline : Z;
  TimeoutAction : string;
  EscalationRecipients : string
}.

Inductive policy_error := MinApprovalsTooLow | SLANegative | BadTimeoutAction.

Definition Validate (p : ApprovalPolicy) : option policy_error :=
  if MinApprovals p <? 1 then Some MinApprovalsTooLow
  else if SLADeadline p <? 0 then Some SLANegative
  else if (TimeoutAction p != "") && (TimeoutAction p != TimeoutActionAutoApprove)
          && (TimeoutAction p != TimeoutActionAutoReject) && (TimeoutAction p != TimeoutActionEscalate)
       then Some BadTimeoutAction
  else None.

Definition splitTrimmed (s : string) : list string :=
  List.filter (fun part => part != "") (map TrimSpace (Split s ","%char)).

Definition AllowedRoleList (p : ApprovalPolicy) : list string := splitTrimmed (AllowedRoles p).
Definition AllowedUserList (p : ApprovalPolicy) : list string := splitTrimmed (AllowedUsers p).
Definition EscalationRecipientList (p : ApprovalPolicy) : list string :=
  splitTrimmed (EscalationRecipients p).
Definition EffectiveTimeoutAction (p : ApprovalPolicy) : string :=
  if TimeoutAction p == "" then TimeoutActionEscalate else TimeoutAction p.

End Policy.

(** ** Votes: rows of the approval tables *)
Module Votes.

Definition ApprovalDecisionApproved : string := "APPROVED".
Definition ApprovalDecisionRejected : string := "REJECTED".
Definition SyntheticVoterID : string := "system:sla-timeout".

Record ApprovalVote := mkApprovalVote {
  v_ID : string;
  v_TaskExecutionID : string;
  v_JobRequestID : string;
  VoterID : string;
  VoterName : string;
  Decision : string;
  Comments : string;
  VotedAt : Z
}.

Inductive vote_invalid := NoTaskExecutionID | NoJobRequestID | NoVoterID | BadDecision.

Definition Validate (v : ApprovalVote) : option vote_invalid :=
  if v_TaskExecutionID v == "" then Some NoTaskExecutionID
  else if v_JobRequestID v == "" then Some NoJobRequestID
  else if VoterID v == "" then Some NoVoterID
  else if (Decision v != ApprovalDecisionApproved) && (Decision v != ApprovalDecisionRejected)
       then Some BadDecision
  else None.

Definition IsApproved (v : ApprovalVote) : bool := Decision v == ApprovalDecisionApproved.

Record ApprovalDeadline := mkApprovalDeadline {
  d_ID : string;
  d_TaskExecutionID : string;
  d_JobRequestID : string;
  Deadline : Z;
  Escalated : bool;
  Resolved : bool;
  d_TimeoutAction : string;
  d_EscalationRecipients : string
}.

Definition set_Resolved (d : ApprovalDeadline) : ApprovalDeadline :=
  mkApprovalDeadline (d_ID d) (d_TaskExecutionID d) (d_JobRequestID d) (Deadline d) (Escalated d)
    true (d_TimeoutAction d) (d_EscalationRecipients d).
Definition set_Escalated (d : ApprovalDeadline) : ApprovalDeadline :=
  mkApprovalDeadline (d_ID d) (d_TaskExecutionID d) (d_JobRequestID d) (Deadline d) true
    (Resolved d) (d_TimeoutAction d) (d_EscalationRecipients d).

Record ApprovalStatus := mkApprovalStatus {
  s_TaskExecutionID : string;
  s_JobRequestID : string;
  ApprovalsReceived : Z;
  RejectionsReceived : Z;
  MinApprovalsRequired : Z;
  QuorumReached : bool;
  Rejected : bool;
  s_Votes : list ApprovalVote
}.

(** The columns of the execution and request tables that approvals touch. *)
Record TaskRow := mkTaskRow {
  t_job_execution_id : string; t_task_type : string; t_task_state : RequestState;
  t_exit_code : string; t_exit_message : string; t_error_code : string; t_error_message : string;
  t_comments : string; t_ended_at : option Z
}.
Record ExecRow := mkExecRow {
  e_id : string; e_job_state : RequestState; e_error_code : string; e_error_message : string;
  e_ended_at : option Z
}.
Record RequestRow := mkRequestRow {
  r_id : string; r_organization_id : string; r_user_id : string; r_job_execution_id : string;
  r_job_state : RequestState; r_error_code : string; r_error_message : string; r_user_key : string
}.

Record DB := mkDB {
  votes : list ApprovalVote;
  deadlines : list ApprovalDeadline;
  taskExecutions : list TaskRow;
  jobExecutions : list ExecRow;
  jobRequests : list RequestRow
}.

(** [UPDATE ... SET f WHERE p]. *)
Definition update_where {A} (p : A -> bool) (f : A -> A) (rows : list A) : list A :=
  map (fun row => if p row then f row else row) rows.

Definition request_column (r : RequestRow) (c : string) : string :=
  if c == "user_id" then r_user_id r else if c == "organization_id" then r_organization_id r else "".

End Votes.

(** ** Repo: repository_impl.go *)
Module Repo.
Import Votes.

(** The statements of the approval code that can fail. *)
Inductive db_op :=
| OpHasVoted | OpSaveVote | OpReloadVote | OpCountVotes | OpGetVotes | OpUpdateTask
| OpUpdateExecution | OpUpdateRequest | OpResolveDeadline | OpCommit | OpMarkDeadline
| OpSaveDeadline.

Definition same_key (t voter : string) (v : ApprovalVote) : bool :=
  (v_TaskExecutionID v == t) && (VoterID v == voter).

Definition HasVoted (db : DB) (taskExecutionID voterID : string) : bool :=
  existsb (same_key taskExecutionID voterID) (votes db).

(** [SaveVote]: insert, or do nothing when the voter already has a vote for the
    task, then reload the stored row; a new row gets the identifier [newID]. *)
Inductive save_error := SaveInvalid (e : vote_invalid) | SaveFailed.

Definition fill_vote (now : Z) (newID : string) (v : ApprovalVote) : ApprovalVote :=
  mkApprovalVote (if v_ID v == "" then newID else v_ID v) (v_TaskExecutionID v) (v_JobRequestID v)
    (VoterID v) (VoterName v) (Decision v) (Comments v) (if VotedAt v =? 0 then now else VotedAt v).

Definition insert_vote (db : DB) (vote : ApprovalVote) : DB :=
  if HasVoted db (v_TaskExecutionID vote) (VoterID vote) then db
  else mkDB (votes db ++ [vote]) (deadlines db) (taskExecutions db) (jobExecutions db)
         (jobRequests db).

Definition SaveVote (err : db_op -> bool) (now : Z) (newID : string) (db : DB) (vote : ApprovalVote)
    : option save_error * DB :=
  match Votes.Validate vote with
  | Some e => (Some (SaveInvalid e), db)
  | None =>
      if err OpSaveVote then (Some SaveFailed, db)
      else (if err OpReloadVote then Some SaveFailed else None,
            insert_vote db (fill_vote now newID vote))
  end.

Definition votes_of (db : DB) (taskExecutionID : string) : list ApprovalVote :=
  List.filter (fun v => v_TaskExecutionID v == taskExecutionID) (votes db).

Definition GetVotes (db : DB) (taskExecutionID : string) : list ApprovalVote :=
  sort_slice (fun a b => VotedAt a <? VotedAt b) (votes_of db taskExecutionID).

Definition count_decision (d : string) (l : list ApprovalVote) : Z :=
  Z.of_nat (length (List.filter (fun v => Decision v == d) l)).

Definition CountVotes (db : DB) (taskExecutionID : string) : Z * Z :=
  (count_decision ApprovalDecisionApproved (votes_of db taskExecutionID),
   count_decision ApprovalDecisionRejected (votes_of db taskExecutionID)).

Definition with_deadlines (db : DB) (l : list ApprovalDeadline) : DB :=
  mkDB (votes db) l (taskExecutions db) (jobExecutions db) (jobRequests db).

Definition SaveDeadline (newID : string) (db : DB) (d : ApprovalDeadline) : DB :=
  with_deadlines db
    (deadlines db ++
     [mkApprovalDeadline (if d_ID d == "" then newID else d_ID d) (d_TaskExecutionID d)
        (d_JobRequestID d) (Deadline d) (Escalated d) (Resolved d) (d_TimeoutAction d)
        (d_EscalationRecipients d)]).

Definition breached (now : Z) (d : ApprovalDeadline) : bool :=
  negb (Resolved d) && negb (Escalated d) && (Deadline d <? now).
Definition FindBreachedDeadlines (db : DB) (now : Z) (limit : nat) : list ApprovalDeadline :=
  take limit (sort_slice (fun a b => Deadline a <? Deadline b) (List.filter (breached now) (deadlines db))).

Definition MarkDeadlineResolved (db : DB) (id : string) : DB :=
  with_deadlines db (update_where (fun d => d_ID d == id) set_Resolved (deadlines db)).
Definition MarkDeadlineEscalated (db : DB) (id : string) : DB :=
  with_deadlines db (update_where (fun d => d_ID d == id) set_Escalated (deadlines db)).
Definition ResolveDeadlineForTask (db : DB) (taskExecutionID : string) : DB :=
  with_deadlines db
    (update_where (fun d => (d_TaskExecutionID d == taskExecutionID) && negb (Resolved d))
       set_Resolved (deadlines db)).

End Repo.

(** ** Service: service.go *)
Module Service.
Import Votes Repo Policy Query.

(** The job request as loaded by the caller; its state may be older than the
    row in the database. *)
Record JobRequest := mkJobRequest {
  ID : string;
  JobState : RequestState;
  JobExecutionID : string
}.

Inductive vote_error :=
| RequestRequired | TaskTypeRequired | TaskExecutionRequired | VoterRequired | DecisionInvalid
| CommentsRequired
| NotAwaitingApproval (id : string) (state : RequestState)
| ReservedVoter | NoPolicy | NotAuthorized (voter : string)
| VoteInvalid (e : vote_invalid)
| DatabaseError.

Definition authorizeVoter (qc : QueryContext) (policy : option ApprovalPolicy) (voterID : string)
    : option vote_error :=
  if voterID == SyntheticVoterID then Some ReservedVoter
  else match policy with
  | None => Some NoPolicy
  | Some p =>
      let allowedUsers := AllowedUserList p in
      let allowedRoles := AllowedRoleList p in
      if (length allowedUsers =? 0)%nat && (length allowedRoles =? 0)%nat then None
      else if existsb (fun uid => (uid == voterID) || (uid == GetUserID qc)) allowedUsers then None
      else match User_ qc with
           | Some u =>
               if existsb (fun required => snd (Users.HasRole u (TrimSpace required) [])) allowedRoles
               then None else Some (NotAuthorized voterID)
           | None => Some (NotAuthorized voterID)
           end
  end.

Definition isRejected (approvals rejections : Z) (policy : option ApprovalPolicy) : bool :=
  if rejections =? 0 then false
  else match policy with
  | None => true
  | Some p =>
      if RequireUnanimous p then true
      else let totalAllowed := Z.of_nat (length (AllowedUserList p)) in
           if totalAllowed =? 0 then true
           else let remainingVoters := totalAllowed - approvals - rejections in
                let remainingVoters := if remainingVoters <? 0 then 0 else remainingVoters in
                approvals + remainingVoters <? MinApprovals p
  end.

Definition min_required (policy : option ApprovalPolicy) : Z :=
  match policy with Some p => MinApprovals p | None => 1 end.

(** [GetStatus]: [None] when the query fails. *)
Definition GetStatus (err : db_op -> bool) (db : DB) (taskExecutionID jobRequestID : string)
    (policy : option ApprovalPolicy) : option ApprovalStatus :=
  if err OpGetVotes then None
  else
    let vs := GetVotes db taskExecutionID in
    let approvals := Z.of_nat (length (List.filter IsApproved vs)) in
    let rejections := Z.of_nat (length (List.filter (fun v => negb (IsApproved v)) vs)) in
    Some (mkApprovalStatus taskExecutionID jobRequestID approvals rejections (min_required policy)
            (min_required policy <=? approvals) (isRejected approvals rejections policy) vs).

(** *** The two resolutions *)

Definition decision_text (verb by_ comments : string) : string :=
  let msg := verb +:+ " by " +:+ by_ in
  if comments != "" then msg +:+ ": " +:+ comments else msg.

Definition waiting_task (request : JobRequest) (taskType : string) (t : TaskRow) : bool :=
  (t_job_execution_id t == JobExecutionID request) && (t_task_type t == taskType)
  && (t_task_state t == State.MANUAL_APPROVAL_REQUIRED).
Definition waiting_request (qc : QueryContext) (request : JobRequest) (r : RequestRow) : bool :=
  AddOrgElseUserWhere qc false (request_column r)
  && (r_id r == ID request) && (r_job_state r == State.MANUAL_APPROVAL_REQUIRED).
Definition waiting_execution (request : JobRequest) (e : ExecRow) : bool :=
  (e_id e == JobExecutionID request) && (e_job_state e == State.MANUAL_APPROVAL_REQUIRED).

Definition approve_task (now : Z) (msg comments : string) (t : TaskRow) : TaskRow :=
  mkTaskRow (t_job_execution_id t) (t_task_type t) State.COMPLETED ApprovalDecisionApproved msg
    (t_error_code t) (t_error_message t) comments (Some now).
Definition reject_task (now : Z) (msg comments : string) (t : TaskRow) : TaskRow :=
  mkTaskRow (t_job_execution_id t) (t_task_type t) State.FAILED ApprovalDecisionRejected msg
    ErrorCodes.ErrorManualRejection msg comments (Some now).
Definition reject_execution (now : Z) (msg : string) (e : ExecRow) : ExecRow :=
  mkExecRow (e_id e) State.FAILED ErrorCodes.ErrorManualRejection msg (Some now).
Definition resume_request (r : RequestRow) : RequestRow :=
  mkRequestRow (r_id r) (r_organization_id r) (r_user_id r) (r_job_execution_id r) State.PENDING
    "" "" (r_user_key r).
Definition reject_request (msg key : string) (r : RequestRow) : RequestRow :=
  mkRequestRow (r_id r) (r_organization_id r) (r_user_id r) (r_job_execution_id r) State.FAILED
    ErrorCodes.ErrorManualRejection msg key.

(** A failed update or commit rolls the transaction back; a failure to resolve
    the deadline is only logged. *)
Definition finalizeApproval (err : db_op -> bool) (now : Z) (db : DB) (qc : QueryContext)
    (request : JobRequest) (taskType taskExecutionID approvedBy comments : string)
    : option vote_error * DB :=
  let msg := decision_text "Approved" approvedBy comments in
  if err OpUpdateTask || err OpUpdateRequest || err OpCommit then (Some DatabaseError, db)
  else
    let db' := mkDB (votes db) (deadlines db)
                 (update_where (waiting_task request taskType) (approve_task now msg comments)
                    (taskExecutions db))
                 (jobExecutions db)
                 (update_where (waiting_request qc request) resume_request (jobRequests db)) in
    (None, if err OpResolveDeadline then db' else ResolveDeadlineForTask db' taskExecutionID).

Definition finalizeRejection (err : db_op -> bool) (now : Z) (newKey : string) (db : DB)
    (qc : QueryContext) (request : JobRequest) (taskType taskExecutionID rejectedBy comments : string)
    : option vote_error * DB :=
  let msg := decision_text "Rejected" rejectedBy comments in
  if err OpUpdateTask || err OpUpdateExecution || err OpUpdateRequest || err OpCommit
  then (Some DatabaseError, db)
  else
    let db' := mkDB (votes db) (deadlines db)
                 (update_where (waiting_task request taskType) (reject_task now msg comments)
                    (taskExecutions db))
                 (update_where (waiting_execution request) (reject_execution now msg)
                    (jobExecutions db))
                 (update_where (waiting_request qc request) (reject_request msg newKey)
                    (jobRequests db)) in
    (None, if err OpResolveDeadline then db' else ResolveDeadlineForTask db' taskExecutionID).

(** *** Casting a vote *)

(** What a call returns, and the tables it leaves. *)
Record cast := mkCast { c_status : option ApprovalStatus; c_error : option vote_error; c_db : DB }.

Definition check_call (qc : QueryContext) (request : option JobRequest)
    (taskType taskExecutionID : string) (policy : option ApprovalPolicy) (voterID decision : string)
    : vote_error + JobRequest :=
  match request with
  | None => inl RequestRequired
  | Some request =>
      if taskType == "" then inl TaskTypeRequired
      else if taskExecutionID == "" then inl TaskExecutionRequired
      else if voterID == "" then inl VoterRequired
      else if (decision != ApprovalDecisionApproved) && (decision != ApprovalDecisionRejected)
           then inl DecisionInvalid
      else if JobState request != State.MANUAL_APPROVAL_REQUIRED
           then inl (NotAwaitingApproval (ID request) (JobState request))
      else match authorizeVoter qc policy voterID with
           | Some e => inl e
           | None => inr request
           end
  end.

(** The part after the vote is stored: count, decide, resolve. *)
Definition resolve_vote (err : db_op -> bool) (now : Z) (newKey : string) (db : DB)
    (qc : QueryContext) (request : JobRequest) (taskType taskExecutionID : string)
    (policy : option ApprovalPolicy) (voterID comments : string) : cast :=
  if err OpCountVotes then mkCast None (Some DatabaseError) db
  else let '(approvals, rejections) := CountVotes db taskExecutionID in
  if err OpGetVotes then mkCast None (Some DatabaseError) db
  else
    let status quorum rejected :=
      Some (mkApprovalStatus taskExecutionID (ID request) approvals rejections (min_required policy)
              quorum rejected (GetVotes db taskExecutionID)) in
    if isRejected approvals rejections policy then
      let '(e, db') := finalizeRejection err now newKey db qc request taskType taskExecutionID
                         voterID comments in
      mkCast (status false true) e db'
    else if min_required policy <=? approvals then
      let '(e, db') := finalizeApproval err now db qc request taskType taskExecutionID voterID
                         comments in
      mkCast (status true false) e db'
    else mkCast (status false false) None db.

Definition CastVote (err : db_op -> bool) (now : Z) (newID newKey : string) (db : DB)
    (qc : QueryContext) (request : option JobRequest) (taskType taskExecutionID : string)
    (policy : option ApprovalPolicy) (voterID voterName decision comments : string) : cast :=
  match check_call qc request taskType taskExecutionID policy voterID decision with
  | inl e => mkCast None (Some e) db
  | inr request =>
      if err OpHasVoted then mkCast None (Some DatabaseError) db
      else if HasVoted db taskExecutionID voterID then
        match GetStatus err db taskExecutionID (ID request) policy with
        | Some st => mkCast (Some st) None db
        | None => mkCast None (Some DatabaseError) db
        end
      else if (decision == ApprovalDecisionRejected) && (TrimSpace comments == "")
           then mkCast None (Some CommentsRequired) db
      else
        let vote := mkApprovalVote "" taskExecutionID (ID request) voterID voterName decision
                      comments now in
        match SaveVote err now newID db vote with
        | (Some (SaveInvalid e), db) => mkCast None (Some (VoteInvalid e)) db
        | (Some SaveFailed, db) => mkCast None (Some DatabaseError) db
        | (None, db) => resolve_vote err now newKey db qc request taskType taskExecutionID policy
                      voterID comments
        end
  end.

(** *** Service-level deadlines *)

(** [HandleSLABreach]; the notification has no effect on the tables. *)
Definition HandleSLABreach (err : db_op -> bool) (now : Z) (newKey : string) (db : DB)
    (qc : QueryContext) (deadline : ApprovalDeadline) (request : JobRequest) (taskType : string)
    : option vote_error * DB :=
  let mark (f : DB -> string -> DB) (db : DB) :=
    if err OpMarkDeadline then (Some DatabaseError, db) else (None, f db (d_ID deadline)) in
  if d_TimeoutAction deadline == TimeoutActionAutoApprove then
    match finalizeApproval err now db qc request taskType (d_TaskExecutionID deadline)
            SyntheticVoterID "Auto-approved by SLA timeout" with
    | (Some e, db) => (Some e, db)
    | (None, db) => mark MarkDeadlineResolved db
    end
  else if d_TimeoutAction deadline == TimeoutActionAutoReject then
    match finalizeRejection err now newKey db qc request taskType (d_TaskExecutionID deadline)
            SyntheticVoterID "Auto-rejected by SLA timeout" with
    | (Some e, db) => (Some e, db)
    | (None, db) => mark MarkDeadlineResolved db
    end
  else mark MarkDeadlineEscalated db.

Definition CreateDeadlineIfNeeded (err : db_op -> bool) (now : Z) (newID : string) (db : DB)
    (taskExecutionID jobRequestID : string) (policy : option ApprovalPolicy)
    : option vote_error * DB :=
  match policy with
  | None => (None, db)
  | Some p =>
      if SLADeadline p <=? 0 then (None, db)
      else if err OpSaveDeadline then (Some DatabaseError, db)
      else (None, SaveDeadline newID db
                    (mkApprovalDeadline "" taskExecutionID jobRequestID (now + SLADeadline p) false
                       false (EffectiveTimeoutAction p) (EscalationRecipients p)))
  end.

End Service.
