(* ===== verification/ApprovalSpec.v ===== *)
(** * ApprovalSpec: what the approval service promises

    Theorems about [Approval]: tenant scoping, one vote per voter, the exact
    rejection rule, the quorum a request needs to resume, the finality of votes
    and deadlines, and the resolution that is not retried. *)

From S2P Require Import Prelude RequestState Acl Approval.

Import Votes Repo Service.
Open Scope Z_scope.

(** ** Tenants *)

(** A query is confined to the caller's tenant: an administrator (or a
    read-administrator for a read) sees every row, a member of an organization
    exactly the rows of that organization and any other user exactly the own
    rows; the check on a loaded record gives the same answer. *)
Theorem queries_stay_in_tenant (u : Users.User) (readonly : bool) (row : string -> string) :
  let qc := Query.NewQueryContext (Some u) in
  Query.AddOrgElseUserWhere qc readonly row =
    Query.Matches qc (row "user_id") (row "organization_id") readonly /\
  (Query.AddOrgElseUserWhere qc readonly row = true <->
   Query.IsAdmin qc = true \/ (readonly = true /\ Query.IsReadAdmin qc = true) \/
   (if decide (Users.OrganizationID u = "") then row "user_id" = Users.ID u
    else row "organization_id" = Users.OrganizationID u)).
Proof.
  cbn zeta. split; [apply Query.scope_matches|]. rewrite Query.scope_matches.
  unfold Query.Matches. cbn [Query.User_ Query.NewQueryContext].
  destruct (Query.IsAdmin _) eqn:EA, (Query.IsReadAdmin _) eqn:ER, readonly; cbn [orb andb];
    try (split; [auto|done]).
  all: destruct (decide (Users.OrganizationID u = "")) as [->|Hne]; cbn;
    rewrite ?(proj2 (eqb_string_false _ _) Hne); cbn [negb]; rewrite eqb_string_true; naive_solver.
Qed.

(** ** Votes *)

Definition vote_key (v : ApprovalVote) : string * string := (v_TaskExecutionID v, VoterID v).
Definition votes_unique (db : DB) : Prop := NoDup (map vote_key (votes db)).

Lemma HasVoted_spec db t u :
  HasVoted db t u = true <-> (t, u) ∈ map vote_key (votes db).
Proof.
  unfold HasVoted. rewrite existsb_exists, list_elem_of_fmap. setoid_rewrite <- list_elem_of_In.
  unfold same_key, vote_key. split.
  - intros (v & Hv & [E1 E2]%andb_prop). apply eqb_string_true in E1, E2. exists v. by subst.
  - intros (v & [= -> ->] & Hv). exists v. by rewrite !eqb_string_refl.
Qed.

Lemma insert_vote_cases db v :
  (HasVoted db (v_TaskExecutionID v) (VoterID v) = true /\ insert_vote db v = db) \/
  (HasVoted db (v_TaskExecutionID v) (VoterID v) = false /\
   insert_vote db v =
     mkDB (votes db ++ [v]) (deadlines db) (taskExecutions db) (jobExecutions db) (jobRequests db)).
Proof. unfold insert_vote. destruct (HasVoted _ _ _); auto. Qed.

(** What storing a vote leaves alone, and what it adds. *)
Lemma insert_vote_spec db v :
  jobRequests (insert_vote db v) = jobRequests db /\
  votes db `prefix_of` votes (insert_vote db v) /\
  HasVoted (insert_vote db v) (v_TaskExecutionID v) (VoterID v) = true /\
  (votes_unique db -> votes_unique (insert_vote db v)).
Proof.
  destruct (insert_vote_cases db v) as [[Hv ->]|[Hn ->]]; [done|].
  split_and!; [done|by apply prefix_app_r| |].
  - apply HasVoted_spec. cbn. rewrite map_app. apply elem_of_app. right. apply list_elem_of_here.
  - unfold votes_unique. intros Hu. cbn. rewrite map_app. apply NoDup_app.
    split_and!; [done| |apply NoDup_singleton].
    intros k Hin ->%list_elem_of_singleton. apply HasVoted_spec in Hin. congruence.
Qed.

Lemma SaveVote_cases err now newID db v e db' :
  SaveVote err now newID db v = (e, db') ->
  (db' = db /\ e <> None) \/
  ((e = None \/ e = Some SaveFailed) /\ db' = insert_vote db (fill_vote now newID v)).
Proof.
  unfold SaveVote. destruct (Votes.Validate v); [intros [= <- <-]; auto|].
  destruct (err OpSaveVote); [intros [= <- <-]; auto|].
  intros [= <- <-]. right. split; [destruct (err OpReloadVote); auto|done].
Qed.

Lemma finalizeApproval_votes err now db qc req ty t by_ c :
  votes (finalizeApproval err now db qc req ty t by_ c).2 = votes db.
Proof. unfold finalizeApproval. by destruct (_ || _ || _), (err OpResolveDeadline). Qed.

Lemma finalizeRejection_votes err now k db qc req ty t by_ c :
  votes (finalizeRejection err now k db qc req ty t by_ c).2 = votes db.
Proof. unfold finalizeRejection. by destruct (_ || _ || _), (err OpResolveDeadline). Qed.

(** The tables after a vote: the same votes as right after it was stored. *)
Lemma resolve_vote_votes err now k db qc req ty t p u c :
  votes (c_db (resolve_vote err now k db qc req ty t p u c)) = votes db.
Proof.
  unfold resolve_vote. destruct (err OpCountVotes); [done|]. destruct (CountVotes db t) as [a r].
  destruct (err OpGetVotes); [done|]. destruct (isRejected a r p).
  - pose proof (finalizeRejection_votes err now k db qc req ty t u c) as HV.
    destruct (finalizeRejection _ _ _ _ _ _ _ _ _ _). done.
  - destruct (_ <=? _); [|done].
    pose proof (finalizeApproval_votes err now db qc req ty t u c) as HV.
    destruct (finalizeApproval _ _ _ _ _ _ _ _ _). done.
Qed.

(** The stages of [CastVote]: no change, or the vote is stored; then an error of
    the database ends the call, or the vote is counted. *)
Lemma CastVote_cases err now newID k db qc request ty t p u name d c :
  let r := CastVote err now newID k db qc request ty t p u name d c in
  c_db r = db \/
  exists req,
    request = Some req /\ authorizeVoter qc p u = None /\
    JobState req = State.MANUAL_APPROVAL_REQUIRED /\ HasVoted db t u = false /\
    let db1 := insert_vote db (fill_vote now newID (mkApprovalVote "" t (ID req) u name d c now)) in
    r = mkCast None (Some DatabaseError) db1 \/
    r = resolve_vote err now k db1 qc req ty t p u c.
Proof.
  cbn zeta. unfold CastVote. destruct (check_call _ _ _ _ _ _ _) as [e|req] eqn:EC; [by left|].
  assert (request = Some req /\ authorizeVoter qc p u = None /\
          JobState req = State.MANUAL_APPROVAL_REQUIRED) as (-> & HA & HJ).
  { unfold check_call in EC. destruct request as [req'|]; [|done].
    destruct (ty == ""); [done|]. destruct (t == ""); [done|]. destruct (u == ""); [done|].
    destruct (_ && _); [done|].
    destruct (JobState req' == State.MANUAL_APPROVAL_REQUIRED) eqn:EJ; [|done].
    destruct (authorizeVoter qc p u); [done|]. injection EC as <-. by apply eqb_string_true in EJ. }
  destruct (err OpHasVoted); [by left|]. destruct (HasVoted db t u) eqn:EH.
  { by destruct (GetStatus _ _ _ _ _); left. }
  destruct (_ && _); [by left|].
  destruct (SaveVote _ _ _ _ _) as [e db1] eqn:ES.
  apply SaveVote_cases in ES as [[-> He]|[[->| ->] ->]].
  - left. by destruct e as [[]|].
  - right. exists req. split_and!; auto.
  - right. exists req. split_and!; auto.
Qed.

(** What every call to cast a vote keeps. *)
Lemma CastVote_votes err now newID k (db : DB) qc request ty t p u name d c :
  let r := CastVote err now newID k db qc request ty t p u name d c in
  votes db `prefix_of` votes (c_db r) /\ (votes_unique db -> votes_unique (c_db r)).
Proof.
  cbn zeta. destruct (CastVote_cases err now newID k db qc request ty t p u name d c)
    as [->|(req & _ & _ & _ & _ & HE)]; [done|]. revert HE.
  set (v := fill_vote _ _ _). destruct (insert_vote_spec db v) as (_ & Hp & _ & Hu).
  unfold votes_unique in *. intros [->| ->]; [done|]. by rewrite resolve_vote_votes.
Qed.

(** The calls that change the approval tables, in any order, by any caller, with
    any failures of the database. *)
Inductive approval_step (db : DB) : DB -> Prop :=
| StepVote err now newID k qc request ty t p u name d c :
    approval_step db (c_db (CastVote err now newID k db qc request ty t p u name d c))
| StepBreach err now k qc dl req ty :
    approval_step db (HandleSLABreach err now k db qc dl req ty).2
| StepDeadline err now newID t r p :
    approval_step db (CreateDeadlineIfNeeded err now newID db t r p).2.

Lemma HandleSLABreach_votes err now k db qc dl req ty :
  votes (HandleSLABreach err now k db qc dl req ty).2 = votes db.
Proof.
  unfold HandleSLABreach. destruct (_ == _); [|destruct (_ == _)].
  - pose proof (finalizeApproval_votes err now db qc req ty (d_TaskExecutionID dl) SyntheticVoterID
      "Auto-approved by SLA timeout") as HV.
    destruct (finalizeApproval _ _ _ _ _ _ _ _ _) as [[e|] db1]; [done|]. by destruct (err OpMarkDeadline).
  - pose proof (finalizeRejection_votes err now k db qc req ty (d_TaskExecutionID dl) SyntheticVoterID
      "Auto-rejected by SLA timeout") as HV.
    destruct (finalizeRejection _ _ _ _ _ _ _ _ _ _) as [[e|] db1]; [done|]. by destruct (err OpMarkDeadline).
  - by destruct (err OpMarkDeadline).
Qed.

Lemma approval_step_votes db db' :
  approval_step db db' -> votes db `prefix_of` votes db' /\ (votes_unique db -> votes_unique db').
Proof.
  unfold votes_unique. intros [].
  - apply CastVote_votes.
  - by rewrite HandleSLABreach_votes.
  - unfold CreateDeadlineIfNeeded. destruct p; [|done]. destruct (_ <=? _); [done|].
    by destruct (err OpSaveDeadline).
Qed.

(** Over any sequence of votes, handled deadlines and new deadlines, by any
    callers and whichever database statements fail, no vote is changed or lost,
    and each approver has at most one vote per task execution. *)
Theorem one_vote_per_voter (db db' : DB) :
  rtc approval_step db db' -> votes_unique db ->
  votes_unique db' /\ votes db `prefix_of` votes db'.
Proof.
  induction 1 as [db|db db1 db2 Hs _ IH]; [done|]. intros Hu.
  destruct (approval_step_votes _ _ Hs) as [Hp Hu1]. destruct (IH (Hu1 Hu)) as [Hu2 Hp2].
  split; [done|]. by etrans.
Qed.

(** A call that is refused leaves every table as it was; only a failing
    database statement can leave a stored vote behind.  In particular nobody can
    vote as the system, nor on a task without a policy. *)
Theorem refused_vote_changes_nothing err now newID k (db : DB) qc request ty t p u name d c :
  let r := CastVote err now newID k db qc request ty t p u name d c in
  (forall e, c_error r = Some e -> e <> DatabaseError -> c_db r = db) /\
  (u = SyntheticVoterID \/ p = None -> c_error r <> None /\ c_db r = db).
Proof.
  cbn zeta. destruct (CastVote_cases err now newID k db qc request ty t p u name d c)
    as [HE|(req & _ & HA & _ & _ & HE)].
  - split; [done|]. intros Hno. split; [|done]. unfold CastVote.
    assert (exists e, check_call qc request ty t p u d = inl e) as [e ->]; [|done].
    unfold check_call. destruct request; [|eauto].
    assert (exists e, authorizeVoter qc p u = Some e) as [e ->].
    { unfold authorizeVoter. destruct (u == SyntheticVoterID) eqn:EU; [eauto|].
      apply eqb_string_false in EU. destruct Hno as [->| ->]; [done|eauto]. }
    repeat case_match; eauto.
  - split.
    + intros e He Hne. exfalso. apply Hne. revert He. revert HE. set (db1 := insert_vote _ _).
      intros [->| ->]; [by intros [= <-]|]. unfold resolve_vote.
      destruct (err OpCountVotes); [by intros [= <-]|]. destruct (CountVotes db1 t) as [a r].
      destruct (err OpGetVotes); [by intros [= <-]|].
      unfold finalizeRejection, finalizeApproval. repeat case_match; simplify_eq/=; naive_solver.
    + intros Hno. exfalso. unfold authorizeVoter in HA.
      destruct Hno as [->| ->]; [done|]. by destruct (_ == _).
Qed.

(** A vote is final: once a voter has a vote on a task, further calls by that
    voter change nothing, and a call that succeeds leaves the voter with a vote. *)
Theorem votes_are_final err now newID k (db : DB) qc request ty t p u name d c :
  let r := CastVote err now newID k db qc request ty t p u name d c in
  (HasVoted db t u = true -> c_db r = db) /\
  (c_error r = None -> HasVoted (c_db r) t u = true).
Proof.
  cbn zeta. split.
  - intros HV. destruct (CastVote_cases err now newID k db qc request ty t p u name d c)
      as [HE|(req & _ & _ & _ & HN & _)]; [done|congruence].
  - unfold CastVote. destruct (check_call _ _ _ _ _ _ _) as [|req]; [done|].
    destruct (err OpHasVoted); [done|].
    destruct (HasVoted db t u) eqn:EH; [by destruct (GetStatus _ _ _ _ _)|].
    destruct (_ && _); [done|]. destruct (SaveVote _ _ _ _ _) as [e db1] eqn:ES.
    apply SaveVote_cases in ES as [[-> He]|[[->| ->] ->]]; [by destruct e as [[]|]| |done].
    intros _. set (v := fill_vote _ _ _). destruct (insert_vote_spec db v) as (_ & _ & Hv & _).
    unfold HasVoted. rewrite resolve_vote_votes. exact Hv.
Qed.

(** ** Quorum *)

(** Without a unanimity rule, and with [n] allowed voters, a task is rejected
    exactly when somebody rejected it and no number of approvals by the voters
    who have not voted yet can reach the quorum. *)
Theorem rejection_means_quorum_is_out_of_reach (p : Policy.ApprovalPolicy) (a r : Z) :
  let n := Z.of_nat (length (Policy.AllowedUserList p)) in
  Policy.RequireUnanimous p = false -> 0 < n -> 0 <= a -> 0 <= r -> a + r <= n ->
  isRejected a r (Some p) = true <->
  0 < r /\ forall more, 0 <= more <= n - (a + r) -> a + more < Policy.MinApprovals p.
Proof.
  cbn zeta. intros Hun Hn Ha Hr Hsum. unfold isRejected. rewrite Hun.
  set (n := Z.of_nat _) in *. destruct (Z.eqb_spec r 0) as [->|Hr0]; [naive_solver lia|].
  destruct (Z.eqb_spec n 0); [lia|]. destruct (Z.ltb_spec (n - a - r) 0); [lia|].
  rewrite Z.ltb_lt. split.
  - intros Hlt. split; [lia|]. intros more Hm. lia.
  - intros [_ Hall]. specialize (Hall (n - a - r)). lia.
Qed.

(** The voters that approved a task. *)
Definition approvers (db : DB) (t : string) : list string :=
  map VoterID (List.filter (fun v => Decision v == ApprovalDecisionApproved) (votes_of db t)).

Lemma CountVotes_approvers db t : (CountVotes db t).1 = Z.of_nat (length (approvers db t)).
Proof. unfold CountVotes, count_decision, approvers. cbn. by rewrite length_map. Qed.

Lemma approvers_distinct db t : votes_unique db -> NoDup (approvers db t).
Proof.
  unfold votes_unique, approvers, votes_of. induction (votes db) as [|v l IH]; cbn; [constructor|].
  intros [Hn Hnd]%NoDup_cons. destruct (v_TaskExecutionID v == t) eqn:E; [|auto].
  cbn. destruct (Decision v == _); [|auto]. cbn. constructor; [|auto].
  intros (v' & Hv & Hin)%list_elem_of_fmap. apply Hn. apply list_elem_of_fmap.
  apply list_elem_of_In, filter_In in Hin as [Hin _]. apply filter_In in Hin as [Hin E'].
  exists v'. split; [|by apply list_elem_of_In]. apply eqb_string_true in E, E'. unfold vote_key. congruence.
Qed.

(** How [resolve_vote] changes the request table. *)
Lemma resolve_vote_requests err now k db qc req ty t p u c i row row' :
  jobRequests db !! i = Some row ->
  jobRequests (c_db (resolve_vote err now k db qc req ty t p u c)) !! i = Some row' ->
  row' = row \/
  (waiting_request qc req row = true /\
   ((row' = resume_request row /\ (CountVotes db t).1 >= min_required p /\
     isRejected (CountVotes db t).1 (CountVotes db t).2 p = false) \/
    (exists msg, row' = reject_request msg k row /\
     isRejected (CountVotes db t).1 (CountVotes db t).2 p = true))).
Proof.
  intros Hi. unfold resolve_vote. destruct (err OpCountVotes); [cbn; left; congruence|].
  destruct (CountVotes db t) as [a r]. destruct (err OpGetVotes); [cbn; left; congruence|].
  cbn [fst snd]. destruct (isRejected a r p) eqn:ER.
  - unfold finalizeRejection. destruct (_ || _ || _); [cbn; left; congruence|].
    destruct (err OpResolveDeadline); cbn; unfold update_where; rewrite list_lookup_fmap, Hi; cbn;
      (destruct (waiting_request qc req row) eqn:EW; intros [= <-]; [|by left]);
      right; (split; [done|]); right; by eexists.
  - destruct (Z.leb_spec (min_required p) a); [|cbn; left; congruence].
    unfold finalizeApproval. destruct (_ || _ || _); [cbn; left; congruence|].
    destruct (err OpResolveDeadline); cbn; unfold update_where; rewrite list_lookup_fmap, Hi; cbn;
      (destruct (waiting_request qc req row) eqn:EW; intros [= <-]; [|by left]);
      right; (split; [done|]); left; (split; [done|]); (split; [lia|done]).
Qed.

(** C20: a vote moves a request only out of MANUAL_APPROVAL_REQUIRED and only in
    two ways: to PENDING, by an authorized voter and when at least the required
    number of distinct voters approved, or to FAILED with the manual rejection
    error, when the rejection rule holds.  This is so for each row of
    the request table and whichever database statements fail. *)
Theorem request_resumes_only_with_quorum err now newID k (db : DB) qc request ty t p u name d c i row row' :
  votes_unique db ->
  let r := CastVote err now newID k db qc request ty t p u name d c in
  jobRequests db !! i = Some row -> jobRequests (c_db r) !! i = Some row' ->
  row' = row \/
  (r_job_state row = State.MANUAL_APPROVAL_REQUIRED /\
   ((r_job_state row' = State.PENDING /\
     (exists pol, p = Some pol /\ Policy.MinApprovals pol <= Z.of_nat (length (approvers (c_db r) t))) /\
     NoDup (approvers (c_db r) t) /\ authorizeVoter qc p u = None) \/
    (r_job_state row' = State.FAILED /\ r_error_code row' = ErrorCodes.ErrorManualRejection /\
     isRejected (CountVotes (c_db r) t).1 (CountVotes (c_db r) t).2 p = true))).
Proof.
  intros Hu r Hi Hi'.
  pose proof (proj2 (CastVote_votes err now newID k db qc request ty t p u name d c) Hu) as Hu'.
  fold r in Hu'. destruct (CastVote_cases err now newID k db qc request ty t p u name d c)
    as [HE|(req & _ & HA & _ & _ & HE)]; fold r in HE.
  { left. rewrite HE in Hi'. congruence. }
  revert HE. set (v := fill_vote _ _ _). destruct (insert_vote_spec db v) as (HJ & _ & _ & _).
  set (db1 := insert_vote db v) in *. intros [HE|HE].
  { left. rewrite HE in Hi'. cbn in Hi'. congruence. }
  assert (votes (c_db r) = votes db1) as HV by (rewrite HE; apply resolve_vote_votes).
  assert (CountVotes (c_db r) t = CountVotes db1 t) as HC by (unfold CountVotes, votes_of; by rewrite HV).
  rewrite HC. rewrite HE in Hi'. rewrite <- HJ in Hi.
  destruct (resolve_vote_requests _ _ _ _ _ _ _ _ _ _ _ i row row' Hi Hi')
    as [->|[HW [(-> & Hq & _)|(msg & -> & HR)]]]; [by left| |]; right;
    (split; [unfold waiting_request in HW; go_bool; naive_solver|]).
  - left. split; [done|]. split_and!; [|by apply approvers_distinct|done].
    assert (exists pol, p = Some pol) as [pol ->].
    { unfold authorizeVoter in HA. destruct (_ == _); [done|]. destruct p; [eauto|done]. }
    exists pol. split; [done|]. rewrite <- CountVotes_approvers, HC. by apply Z.ge_le.
  - right. done.
Qed.

(** ** Deadlines *)

Definition no_errors (_ : db_op) : bool := false.

(** Handling a breached deadline settles it: no deadline with its identifier
    is found breached again at any later time.  Automatic approval resumes the
    waiting request and automatic rejection fails it, while escalation leaves
    tasks, executions, requests and votes alone. *)
Theorem breached_deadline_is_settled now k (db : DB) qc (dl : ApprovalDeadline) req ty :
  let '(e, db') := HandleSLABreach no_errors now k db qc dl req ty in
  e = None /\
  (forall later limit x, x ∈ FindBreachedDeadlines db' later limit -> d_ID x <> d_ID dl) /\
  votes db' = votes db /\
  (d_TimeoutAction dl = Policy.TimeoutActionAutoApprove ->
     jobRequests db' = update_where (waiting_request qc req) resume_request (jobRequests db)) /\
  (d_TimeoutAction dl = Policy.TimeoutActionAutoReject ->
     jobRequests db' =
       update_where (waiting_request qc req)
         (reject_request (decision_text "Rejected" SyntheticVoterID "Auto-rejected by SLA timeout") k)
         (jobRequests db)) /\
  (d_TimeoutAction dl <> Policy.TimeoutActionAutoApprove ->
   d_TimeoutAction dl <> Policy.TimeoutActionAutoReject ->
     taskExecutions db' = taskExecutions db /\ jobExecutions db' = jobExecutions db /\
     jobRequests db' = jobRequests db).
Proof.
  assert (forall (f : ApprovalDeadline -> ApprovalDeadline) l later limit,
    (forall d, d_ID (f d) = d_ID d) -> (forall d, breached later (f d) = false) ->
    forall x, x ∈ take limit (sort_slice (fun a b => Deadline a <? Deadline b)
               (List.filter (breached later) (update_where (fun d => d_ID d == d_ID dl) f l))) ->
      d_ID x <> d_ID dl) as HB.
  { intros f l later limit Hid Hf x (i & Hx%list_elem_of_lookup_2 & _)%elem_of_take.
    rewrite sort_slice_perm in Hx.
    apply list_elem_of_In, filter_In in Hx as [Hin Hb]. apply in_map_iff in Hin as (d & <- & _).
    destruct (d_ID d == d_ID dl) eqn:E; [by rewrite Hf in Hb|by apply eqb_string_false]. }
  assert (forall later d, breached later (set_Resolved d) = false /\ breached later (set_Escalated d) = false)
    as HF by (intros later d; unfold breached; cbn; split; [done|by rewrite andb_false_r]).
  unfold HandleSLABreach, finalizeApproval, finalizeRejection. cbn [no_errors orb].
  destruct (d_TimeoutAction dl == Policy.TimeoutActionAutoApprove) eqn:EA;
    [|destruct (d_TimeoutAction dl == Policy.TimeoutActionAutoReject) eqn:ER];
    go_bool; (split; [done|]); (split; [|split; [done|]]).
  - intros later limit x. by apply HB; [|intros d; apply HF].
  - by rewrite EA; split_and!.
  - intros later limit x. by apply HB; [|intros d; apply HF].
  - by rewrite ER; split_and!.
  - intros later limit x. by apply HB; [|intros d; apply HF].
  - by split_and!.
Qed.

(** ** A concrete approval *)
Module ApprovalDemo.

Definition alice : Users.User := Users.mkUser "alice" "org" "" "" None None.
Definition qc : Query.QueryContext := Query.NewQueryContext (Some alice).
Definition policy (users : string) (min : Z) : option Policy.ApprovalPolicy :=
  Some (Policy.mkApprovalPolicy min "" users false 0 "" "").
Definition req : JobRequest := mkJobRequest "r1" State.MANUAL_APPROVAL_REQUIRED "e1".
Definition db0 : DB :=
  mkDB [] [] [mkTaskRow "e1" "deploy" State.MANUAL_APPROVAL_REQUIRED "" "" "" "" "" None]
    [mkExecRow "e1" State.MANUAL_APPROVAL_REQUIRED "" "" None]
    [mkRequestRow "r1" "org" "bob" "e1" State.MANUAL_APPROVAL_REQUIRED "" "" ""].

Definition vote (err : db_op -> bool) (db : DB) (users : string) (min : Z) (u d c : string) : cast :=
  CastVote err 10 "v" "k" db qc (Some req) "deploy" "t1" (policy users min) u u d c.

(** The update of the request fails. *)
Definition request_fails (op : db_op) : bool :=
  match op with OpUpdateRequest => true | _ => false end.

Definition state_of (db : DB) : list RequestState := map r_job_state (jobRequests db).

(** The only approver approves while the database fails, and tries again. *)
Definition first_try : cast := vote request_fails db0 "alice" 1 "alice" "APPROVED" "".
Definition second_try : cast := vote no_errors (c_db first_try) "alice" 1 "alice" "APPROVED" "".

Lemma db0_unique : votes_unique db0.
Proof. constructor. Qed.

End ApprovalDemo.
Import ApprovalDemo.

(** A vote that reaches the quorum while the update of the request fails is
    kept, but the resolution is not repeated: when the same approver tries
    again, the call reports that the quorum is reached and succeeds, and the
    request still waits for approval. *)
Theorem failed_resolution_is_not_retried :
  c_error first_try = Some DatabaseError /\
  c_error second_try = None /\
  option_map QuorumReached (c_status second_try) = Some true /\
  state_of (c_db second_try) = [State.MANUAL_APPROVAL_REQUIRED].
Proof. vm_compute. repeat split. Qed.

Lemma one_vote_per_voter_witness :
  let db1 := c_db (vote no_errors db0 "alice,bob" 2 "alice" "APPROVED" "") in
  let db2 := c_db (vote no_errors db1 "alice,bob" 2 "bob" "APPROVED" "") in
  votes_unique db2 /\ length (votes db2) = 2%nat.
Proof.
  cbn zeta. split; [|reflexivity]. eapply one_vote_per_voter; [|apply db0_unique].
  eapply rtc_l; [apply StepVote|]. eapply rtc_l; [apply StepVote|]. apply rtc_refl.
Defined.

Lemma refused_vote_changes_nothing_witness :
  c_db (vote no_errors db0 "alice" 1 SyntheticVoterID "APPROVED" "") = db0.
Proof.
  apply (refused_vote_changes_nothing no_errors 10 "v" "k" db0 qc (Some req) "deploy" "t1"
           (policy "alice" 1) SyntheticVoterID SyntheticVoterID "APPROVED" ""). by left.
Defined.

Lemma votes_are_final_witness :
  HasVoted (c_db (vote no_errors db0 "alice,bob" 2 "alice" "APPROVED" "")) "t1" "alice" = true.
Proof.
  apply (votes_are_final no_errors 10 "v" "k" db0 qc (Some req) "deploy" "t1" (policy "alice,bob" 2)
           "alice" "alice" "APPROVED" ""). reflexivity.
Defined.

Lemma rejection_means_quorum_is_out_of_reach_witness :
  isRejected 1 1 (policy "alice, bob , carl" 2) = false /\
  isRejected 0 2 (policy "alice, bob , carl" 2) = true.
Proof.
  split; [reflexivity|].
  apply (rejection_means_quorum_is_out_of_reach
           (Policy.mkApprovalPolicy 2 "" "alice, bob , carl" false 0 "" "") 0 2); try done.
  split; [lia|]. intros more Hm.
  change (Z.of_nat (length (Policy.AllowedUserList _))) with 3 in Hm.
  change (Policy.MinApprovals _) with 2. lia.
Defined.

Lemma request_resumes_only_with_quorum_witness :
  let r := vote no_errors db0 "alice,bob" 1 "alice" "APPROVED" "" in
  exists row row', jobRequests db0 !! 0%nat = Some row /\ jobRequests (c_db r) !! 0%nat = Some row' /\
    r_job_state row' = State.PENDING /\ NoDup (approvers (c_db r) "t1").
Proof.
  cbn zeta. eexists _, _. split; [reflexivity|]. split; [vm_compute; reflexivity|]. split; [reflexivity|].
  destruct (request_resumes_only_with_quorum no_errors 10 "v" "k" db0 qc (Some req) "deploy" "t1"
              (policy "alice,bob" 1) "alice" "alice" "APPROVED" "" 0 _ _ db0_unique eq_refl eq_refl)
    as [Heq|(_ & [(_ & _ & Hnd & _)|(Hf & _)])]; [by vm_compute in Heq|exact Hnd|by vm_compute in Hf].
Defined.
