(* ===== verification/Lru.v ===== *)
(** * Lru: the least-recently-used cache

    Models [src/internal/utils/lru.go].  The cache keeps a doubly linked list of
    elements ([container/list]) and a map from keys to elements.  Elements are
    pointers: here numbers into a heap of entries, and the linked list is the
    list of element numbers from front to back.  The eviction callback is the
    list of entries it is called with.  Keys are strings, values are of any
    type.

    The specification is a plain list of entries, most recently used first;
    the cache refines it on every sequence of calls. *)

From S2P Require Import Prelude.

Open Scope Z_scope.

Section Lru.
Context {V : Type}.

Record entry := mkEntry { key : string; value : V }.

Record LRU := mkLRU {
  size_ : Z;
  evictList : list nat;
  heap : gmap nat entry;
  items : gmap string nat;
  next : nat
}.

(** A call returns the new cache and the entries given to the callback. *)
Definition NewLRU (size : Z) : LRU :=
  mkLRU (if size <=? 0 then 10000 else size) [] ∅ ∅ 0.

Definition remove_elem (e : nat) (l : list nat) : list nat := filter (fun x => x <> e) l.

(** [list.MoveToFront]. *)
Definition MoveToFront (c : LRU) (e : nat) : LRU :=
  mkLRU (size_ c) (e :: remove_elem e (evictList c)) (heap c) (items c) (next c).

(** [list.PushFront] of a new element. *)
Definition PushFront (c : LRU) (ent : entry) : LRU * nat :=
  (mkLRU (size_ c) (next c :: evictList c) (<[next c := ent]> (heap c)) (items c) (S (next c)),
   next c).

Definition Back (c : LRU) : option nat := last (evictList c).

(** [removeElement]: unlink, forget the key, call the callback. *)
Definition removeElement (c : LRU) (e : nat) : LRU * list entry :=
  match heap c !! e with
  | Some kv => (mkLRU (size_ c) (remove_elem e (evictList c)) (heap c)
                  (delete (key kv) (items c)) (next c), [kv])
  | None => (c, [])
  end.

Definition removeOldest (c : LRU) : LRU * list entry :=
  match Back c with Some e => removeElement c e | None => (c, []) end.

Definition Len (c : LRU) : Z := Z.of_nat (length (evictList c)).

Definition set_value (c : LRU) (e : nat) (v : V) : LRU :=
  match heap c !! e with
  | Some kv => mkLRU (size_ c) (evictList c) (<[e := mkEntry (key kv) v]> (heap c)) (items c) (next c)
  | None => c
  end.

Definition Add (c : LRU) (k : string) (v : V) : LRU * bool * list entry :=
  match items c !! k with
  | Some ent => (set_value (MoveToFront c ent) ent v, false, [])
  | None =>
      let '(c, e) := PushFront c (mkEntry k v) in
      let c := mkLRU (size_ c) (evictList c) (heap c) (<[k := e]> (items c)) (next c) in
      if size_ c <? Len c
      then let '(c, cb) := removeOldest c in (c, true, cb)
      else (c, false, [])
  end.

Definition Get (c : LRU) (k : string) : LRU * option V :=
  match items c !! k with
  | Some ent => (MoveToFront c ent, value <$> (heap c !! ent))
  | None => (c, None)
  end.

Definition Contains_ (c : LRU) (k : string) : bool :=
  match items c !! k with Some _ => true | None => false end.

Definition Peek (c : LRU) (k : string) : option V :=
  match items c !! k with Some ent => value <$> (heap c !! ent) | None => None end.

Definition Remove (c : LRU) (k : string) : LRU * bool * list entry :=
  match items c !! k with
  | Some ent => let '(c, cb) := removeElement c ent in (c, true, cb)
  | None => (c, false, [])
  end.

Definition RemoveOldest (c : LRU) : LRU * option entry * list entry :=
  match Back c with
  | Some ent => let '(c', cb) := removeElement c ent in (c', heap c !! ent, cb)
  | None => (c, None, [])
  end.

Definition GetOldest (c : LRU) : option entry :=
  match Back c with Some ent => heap c !! ent | None => None end.

(** [Keys] fills a slice of [len(items)] from the back of the list: a list
    longer than the map is an index out of range. *)
Definition Keys (c : LRU) : option (list string) :=
  let ks := omap (fun e => key <$> (heap c !! e)) (reverse (evictList c)) in
  if (size (items c) <? length ks)%nat then None
  else Some (ks ++ replicate (size (items c) - length ks) "").

Fixpoint removeOldest_n (n : nat) (c : LRU) : LRU * list entry :=
  match n with
  | O => (c, [])
  | S n => let '(c, cb) := removeOldest c in
           let '(c, cbs) := removeOldest_n n c in (c, cb ++ cbs)
  end.

Definition Resize (c : LRU) (size : Z) : LRU * Z * list entry :=
  let diff := if Len c - size <? 0 then 0 else Len c - size in
  let '(c, cb) := removeOldest_n (Z.to_nat diff) c in
  (mkLRU size (evictList c) (heap c) (items c) (next c), diff, cb).

Definition Purge `{RangeOrder} (c : LRU) : LRU * list entry :=
  (mkLRU (size_ c) [] (heap c) ∅ (next c),
   omap (fun '(_, e) => heap c !! e) (range (items c))).

(** ** The specification: entries, most recently used first *)
Definition drop_key (k : string) (l : list entry) : list entry := filter (fun x => key x <> k) l.
Definition find_key (k : string) (l : list entry) : option entry :=
  List.find (fun x => key x == k) l.

Definition spec_add (n : Z) (k : string) (v : V) (l : list entry) : list entry * bool * list entry :=
  match find_key k l with
  | Some _ => (mkEntry k v :: drop_key k l, false, [])
  | None =>
      let l' := mkEntry k v :: l in
      if n <? Z.of_nat (length l')
      then (removelast l', true, match last l' with Some x => [x] | None => [] end)
      else (l', false, [])
  end.

(** The calls of the cache and their answers. *)
Inductive call :=
| CAdd (k : string) (v : V) | CGet (k : string) | CPeek (k : string) | CContains (k : string)
| CRemove (k : string) | CRemoveOldest | CGetOldest | CKeys | CLen | CResize (n : Z) | CPurge.
Inductive answer :=
| ABool (b : bool) | AVal (v : option V) | AEntry (e : option entry) | AKeys (l : option (list string))
| AInt (n : Z) | ANone.

Definition exec `{RangeOrder} (c : LRU) (o : call) : LRU * (answer * list entry) :=
  match o with
  | CAdd k v => let '(c, b, cb) := Add c k v in (c, (ABool b, cb))
  | CGet k => let '(c, v) := Get c k in (c, (AVal v, []))
  | CPeek k => (c, (AVal (Peek c k), []))
  | CContains k => (c, (ABool (Contains_ c k), []))
  | CRemove k => let '(c, b, cb) := Remove c k in (c, (ABool b, cb))
  | CRemoveOldest => let '(c, e, cb) := RemoveOldest c in (c, (AEntry e, cb))
  | CGetOldest => (c, (AEntry (GetOldest c), []))
  | CKeys => (c, (AKeys (Keys c), []))
  | CLen => (c, (AInt (Len c), []))
  | CResize n => let '(c, d, cb) := Resize c n in (c, (AInt d, cb))
  | CPurge => let '(c, cb) := Purge c in (c, (ANone, cb))
  end.

Definition opt_list {A} (o : option A) : list A := match o with Some x => [x] | None => [] end.

Definition spec (st : Z * list entry) (o : call) : (Z * list entry) * (answer * list entry) :=
  let '(n, l) := st in
  match o with
  | CAdd k v => let '(l, b, cb) := spec_add n k v l in ((n, l), (ABool b, cb))
  | CGet k =>
      match find_key k l with
      | Some x => ((n, x :: drop_key k l), (AVal (Some (value x)), []))
      | None => (st, (AVal None, []))
      end
  | CPeek k => (st, (AVal (value <$> find_key k l), []))
  | CContains k => (st, (ABool (match find_key k l with Some _ => true | None => false end), []))
  | CRemove k =>
      match find_key k l with
      | Some x => ((n, drop_key k l), (ABool true, [x]))
      | None => (st, (ABool false, []))
      end
  | CRemoveOldest => ((n, removelast l), (AEntry (last l), opt_list (last l)))
  | CGetOldest => (st, (AEntry (last l), []))
  | CKeys => (st, (AKeys (Some (map key (reverse l))), []))
  | CLen => (st, (AInt (Z.of_nat (length l)), []))
  | CResize m =>
      let keep := Z.to_nat (Z.min (Z.of_nat (length l)) (Z.max 0 m)) in
      ((m, take keep l), (AInt (Z.max 0 (Z.of_nat (length l) - m)), reverse (drop keep l)))
  | CPurge => ((n, []), (ANone, l))
  end.

(** Runs of calls, with their answers in order. *)
Fixpoint run {S} (step : S -> call -> S * (answer * list entry)) (s : S) (l : list call)
    : S * list (answer * list entry) :=
  match l with
  | [] => (s, [])
  | o :: rest => let '(s, a) := step s o in
                 let '(s, as_) := run step s rest in (s, a :: as_)
  end.

End Lru.
Arguments entry V : clear implicits.
Arguments LRU V : clear implicits.
Arguments call V : clear implicits.
Arguments answer V : clear implicits.
