(* ===== verification/LruSpec.v ===== *)
(** * LruSpec: the cache refines a list of entries

    The representation invariant of [Lru], its preservation by every operation
    and the refinement theorem on sequences of calls. *)

From S2P Require Import Prelude Lru.

Open Scope Z_scope.

Section LruSpec.
Context {V : Type}.
Implicit Types (c : LRU V) (l : list (entry V)) (x : entry V).

(** The cache [c] holds the entries [l], most recently used first. *)
Record rep c l : Prop := {
  rep_list : Forall2 (fun e x => heap c !! e = Some x) (evictList c) l;
  rep_nodup : NoDup (map key l);
  rep_items k e : items c !! k = Some e <-> e ∈ evictList c /\ key <$> (heap c !! e) = Some k;
  rep_next e : e ∈ evictList c -> (e < next c)%nat
}.

(** ** Lists *)

Lemma find_key_Some k l x : find_key k l = Some x -> key x = k /\ x ∈ l.
Proof.
  unfold find_key. intros [Hin Hk]%find_some. split; [by apply eqb_string_true|].
  by apply list_elem_of_In.
Qed.

Lemma find_key_None k l : find_key k l = None <-> k ∉ map key l.
Proof.
  unfold find_key. induction l as [|y l IH]; cbn; [split; [by intros _ ?%not_elem_of_nil|done]|].
  rewrite not_elem_of_cons. destruct (key y == k) eqn:E.
  - apply eqb_string_true in E. split; [done|]. intros [Hne _]. congruence.
  - apply eqb_string_false in E. rewrite IH. split; [|tauto]. intros Hn. split; [congruence|done].
Qed.

Lemma find_key_unique k l x : NoDup (map key l) -> x ∈ l -> key x = k -> find_key k l = Some x.
Proof.
  intros Hnd Hin Hk. destruct (find_key k l) as [y|] eqn:E.
  - apply find_key_Some in E as [Hy Hin']. f_equal.
    apply list_elem_of_lookup in Hin as [i Hi], Hin' as [j Hj].
    assert (i = j) as ->; [|congruence].
    eapply (NoDup_lookup (map key l)); [done|rewrite list_lookup_fmap, Hi; cbn; by rewrite Hk|].
    rewrite list_lookup_fmap, Hj. cbn. by rewrite Hy.
  - apply find_key_None in E. destruct E. apply list_elem_of_fmap. eauto.
Qed.

Lemma Forall2_filter {A B} (R : A -> B -> Prop) (P : A -> Prop) (Q : B -> Prop)
    `{!forall a, Decision (P a)} `{!forall b, Decision (Q b)} la lb :
  Forall2 R la lb -> (forall a b, a ∈ la -> b ∈ lb -> R a b -> P a <-> Q b) ->
  Forall2 R (filter P la) (filter Q lb).
Proof.
  induction 1 as [|a b la lb HR HF IH]; intros HPQ; [constructor|].
  assert (Forall2 R (filter P la) (filter Q lb)) as HF'.
  { apply IH. intros; by apply HPQ; [apply list_elem_of_further..|]. }
  rewrite !filter_cons. pose proof (HPQ a b (list_elem_of_here _ _) (list_elem_of_here _ _) HR) as HE.
  destruct (decide (P a)), (decide (Q b)); try tauto. by constructor.
Qed.

Lemma Forall2_weaken {A B} (R S : A -> B -> Prop) la lb :
  Forall2 R la lb -> (forall a b, a ∈ la -> R a b -> S a b) -> Forall2 S la lb.
Proof.
  induction 1 as [|a b la lb HR HF IH]; intros HS; constructor.
  - by apply HS; [apply list_elem_of_here|].
  - apply IH. intros a' b' Hin. by apply HS, list_elem_of_further.
Qed.

Lemma drop_key_shorter k l x : find_key k l = Some x -> (length (drop_key k l) < length l)%nat.
Proof.
  intros [<- Hin]%find_key_Some. unfold drop_key.
  induction l as [|y l IH]; [by apply not_elem_of_nil in Hin|].
  rewrite filter_cons. pose proof (length_filter (fun z => key z <> key x) l).
  destruct (decide _) as [Hd|Hd]; cbn; [|lia].
  apply elem_of_cons in Hin as [->|Hin]; [done|]. specialize (IH Hin). lia.
Qed.

Lemma drop_key_nodup k l : NoDup (map key l) -> NoDup (map key (drop_key k l)).
Proof.
  intros Hnd. eapply sublist_NoDup; [exact Hnd|].
  apply (fmap_sublist key), sublist_filter.
Qed.

(** Dropping the key of the last entry drops the last entry. *)
Lemma drop_key_last l x :
  NoDup (map key l) -> last l = Some x -> drop_key (key x) l = removelast l.
Proof.
  intros Hnd Hl. apply last_Some in Hl as [l' ->]. rewrite removelast_last.
  unfold drop_key. rewrite filter_app, filter_cons_False, filter_nil, app_nil_r by (intros []; done).
  rewrite map_app in Hnd. apply NoDup_app in Hnd as (_ & Hd & _).
  induction l' as [|y l' IH]; [done|]. rewrite filter_cons_True; [f_equal; apply IH|].
  - intros k Hk. apply Hd. cbn. by apply list_elem_of_further.
  - intros Hk. apply (Hd (key y)); [apply list_elem_of_here|]. cbn. rewrite Hk. apply list_elem_of_here.
Qed.

(** ** The representation *)

Lemma rep_pair c l e x i : rep c l -> evictList c !! i = Some e -> l !! i = Some x -> heap c !! e = Some x.
Proof. intros Hr He Hx. by eapply (Forall2_lookup_lr _ _ _ i _ _ (rep_list c l Hr)). Qed.

Lemma rep_elem c l e : rep c l -> e ∈ evictList c -> exists x, heap c !! e = Some x /\ x ∈ l.
Proof.
  intros Hr [i Hi]%list_elem_of_lookup.
  destruct (Forall2_lookup_l _ _ _ _ _ (rep_list c l Hr) Hi) as (x & Hx & Hh).
  exists x. split; [done|]. by eapply list_elem_of_lookup_2.
Qed.

Lemma rep_entry c l x : rep c l -> x ∈ l -> exists e, heap c !! e = Some x /\ e ∈ evictList c.
Proof.
  intros Hr [i Hi]%list_elem_of_lookup.
  destruct (Forall2_lookup_r _ _ _ _ _ (rep_list c l Hr) Hi) as (e & He & Hh).
  exists e. split; [done|]. by eapply list_elem_of_lookup_2.
Qed.

(** Looking a key up in the map of elements is finding it in the list. *)
Lemma rep_lookup c l k :
  rep c l ->
  match items c !! k with
  | Some e => exists x, e ∈ evictList c /\ heap c !! e = Some x /\ key x = k /\ find_key k l = Some x
  | None => find_key k l = None
  end.
Proof.
  intros Hr. destruct (items c !! k) as [e|] eqn:E.
  - apply (rep_items c l Hr) in E as [Hin Hk]. destruct (rep_elem c l e Hr Hin) as (x & Hx & Hxl).
    rewrite Hx in Hk. injection Hk as Hk. exists x. split_and!; try done.
    by apply find_key_unique; [apply (rep_nodup c l Hr)| |].
  - apply find_key_None. intros (x & Hk & Hx)%list_elem_of_fmap.
    destruct (rep_entry c l x Hr Hx) as (e & He & Hin).
    assert (items c !! k = Some e) as HS by (apply (rep_items c l Hr); by rewrite He, Hk). congruence.
Qed.

Lemma rep_same_key c l e e' x x' :
  rep c l -> e ∈ evictList c -> e' ∈ evictList c -> heap c !! e = Some x -> heap c !! e' = Some x' ->
  key x = key x' -> e = e'.
Proof.
  intros Hr He He' Hx Hx' Hk.
  assert (items c !! key x = Some e) as H1 by (apply (rep_items c l Hr); by rewrite Hx).
  assert (items c !! key x = Some e') as H2 by (apply (rep_items c l Hr); by rewrite Hx', Hk).
  congruence.
Qed.

Lemma rep_filter c l e x :
  rep c l -> e ∈ evictList c -> heap c !! e = Some x ->
  Forall2 (fun e x => heap c !! e = Some x) (remove_elem e (evictList c)) (drop_key (key x) l).
Proof.
  intros Hr He Hx. apply Forall2_filter; [apply Hr|]. intros e' x' He' _ Hx'. split.
  - intros Hne Hk. apply Hne. by eapply rep_same_key.
  - intros Hne ->. congruence.
Qed.

Lemma rep_remove c l e x :
  rep c l -> e ∈ evictList c -> heap c !! e = Some x ->
  rep (removeElement c e).1 (drop_key (key x) l) /\ (removeElement c e).2 = [x].
Proof.
  intros Hr He Hx. unfold removeElement. rewrite Hx. split; [|done]. cbn. split; cbn.
  - by eapply rep_filter.
  - apply drop_key_nodup, Hr.
  - intros k e'. rewrite lookup_delete_Some, (rep_items c l Hr). unfold remove_elem.
    rewrite list_elem_of_filter. split.
    + intros (Hne & Hin & Hk). split_and!; try done. intros ->. rewrite Hx in Hk. cbn in Hk. congruence.
    + intros ((Hne & Hin) & Hk). split_and!; try done. intros <-. apply Hne.
      destruct (heap c !! e') as [x'|] eqn:Hx'; [|done]. injection Hk as Hk. by eapply rep_same_key.
  - intros e' [_ Hin]%list_elem_of_filter. by eapply rep_next.
Qed.

Lemma rep_front c l e x :
  rep c l -> e ∈ evictList c -> heap c !! e = Some x ->
  rep (MoveToFront c e) (x :: drop_key (key x) l).
Proof.
  intros Hr He Hx. split; cbn.
  - constructor; [done|]. by eapply rep_filter.
  - constructor; [|apply drop_key_nodup, Hr]. intros (y & Hk & [Hne _]%list_elem_of_filter)%list_elem_of_fmap.
    by apply Hne.
  - intros k e'. rewrite (rep_items c l Hr). split; (intros [Hin Hk]; split; [|done]).
    + destruct (decide (e' = e)) as [->|]; [apply list_elem_of_here|].
      apply list_elem_of_further. by apply list_elem_of_filter.
    + apply elem_of_cons in Hin as [->|[_ ?]%list_elem_of_filter]; done.
  - intros e' [->|[_ Hin]%list_elem_of_filter]%elem_of_cons; by eapply rep_next.
Qed.

Lemma rep_back c l :
  rep c l ->
  match Back c with
  | Some e => exists x, e ∈ evictList c /\ heap c !! e = Some x /\ last l = Some x
  | None => l = []
  end.
Proof.
  intros Hr. unfold Back. pose proof (rep_list c l Hr) as HF. destruct (last (evictList c)) as [e|] eqn:E.
  - rewrite last_lookup in E. destruct (Forall2_lookup_l _ _ _ _ _ HF E) as (x & Hx & Hh).
    exists x. split_and!; [by eapply list_elem_of_lookup_2|done|].
    rewrite last_lookup, <- (Forall2_length _ _ _ HF). done.
  - apply last_None in E. rewrite E in HF. by inversion HF.
Qed.

Lemma rep_removeOldest c l :
  rep c l -> rep (removeOldest c).1 (removelast l) /\ (removeOldest c).2 = opt_list (last l).
Proof.
  intros Hr. unfold removeOldest. pose proof (rep_back c l Hr) as HB.
  destruct (Back c) as [e|]; [|subst; done]. destruct HB as (x & He & Hx & Hl).
  rewrite Hl, <- (drop_key_last l x) by (try apply Hr; done). by apply (rep_remove c l e x).
Qed.

Lemma removeOldest_size c : size_ (removeOldest c).1 = size_ c.
Proof. unfold removeOldest, removeElement. repeat case_match; done. Qed.

Lemma removeOldest_n_size n c : size_ (removeOldest_n n c).1 = size_ c.
Proof.
  revert c. induction n as [|n IH]; intros c; cbn; [done|].
  pose proof (removeOldest_size c) as H1. destruct (removeOldest c) as [c1 cb]. cbn in H1.
  specialize (IH c1). destruct (removeOldest_n n c1). cbn in *. congruence.
Qed.

Lemma removelast_take {A} (l : list A) : removelast l = take (length l - 1) l.
Proof.
  destruct l as [|a l] using rev_ind; [done|].
  rewrite removelast_last, length_app, take_app_le by (cbn; lia). cbn. rewrite firstn_all2; [done|lia].
Qed.

Lemma rep_removeOldest_n n c l :
  rep c l ->
  rep (removeOldest_n n c).1 (take (length l - n) l) /\
  (removeOldest_n n c).2 = reverse (drop (length l - n) l).
Proof.
  revert c l. induction n as [|n IH]; intros c l Hr; cbn.
  { rewrite Nat.sub_0_r, firstn_all, drop_all. done. }
  destruct (rep_removeOldest c l Hr) as [H1 H2]. destruct (removeOldest c) as [c1 cb]. cbn in H1, H2.
  destruct (IH c1 (removelast l) H1) as [H3 H4]. destruct (removeOldest_n n c1) as [c2 cbs]. cbn in *.
  subst cb cbs. destruct l as [|x l _] using rev_ind; [done|].
  rewrite removelast_last, length_app in *. cbn in *.
  replace (length l + 1 - S n)%nat with (length l - n)%nat by lia.
  rewrite last_snoc, take_app_le, drop_app_le by lia. split; [done|]. cbn. by rewrite reverse_snoc.
Qed.

(** The map has one entry per element. *)
Lemma rep_size c l : rep c l -> size (items c) = length l.
Proof.
  intros Hr. rewrite <- (length_map key l).
  assert (dom (items c) = list_to_set (map key l)) as HD.
  { apply set_eq. intros k. rewrite elem_of_dom, elem_of_list_to_set.
    pose proof (rep_lookup c l k Hr) as HL. destruct (items c !! k) as [e|].
    - split; [|by eexists]. intros _. destruct HL as (x & _ & _ & Hk & [_ Hx]%find_key_Some).
      apply list_elem_of_fmap. eauto.
    - apply find_key_None in HL. split; [by intros [? ?]|done]. }
  rewrite <- (size_dom (D := gset string)), HD. apply size_list_to_set, Hr.
Qed.

Lemma rep_omap {B} (f : entry V -> B) c es l :
  Forall2 (fun e x => heap c !! e = Some x) es l -> omap (fun e => f <$> (heap c !! e)) es = map f l.
Proof. induction 1 as [|e x es l Hx _ IH]; cbn; [done|]. by rewrite Hx, <- IH. Qed.

Lemma rep_keys c l : rep c l -> Keys c = Some (map key (reverse l)).
Proof.
  intros Hr. unfold Keys. rewrite (rep_omap key c _ (reverse l)) by apply Forall2_reverse, Hr.
  rewrite (rep_size c l Hr), length_map, length_reverse, Nat.ltb_irrefl, Nat.sub_diag. by rewrite app_nil_r.
Qed.

Lemma rep_purge `{RangeOrder} c l : rep c l -> rep (Purge c).1 [] /\ (Purge c).2 ≡ₚ l.
Proof.
  intros Hr. split.
  { split; cbn; [constructor|constructor|intros k e; rewrite lookup_empty|].
    - split; [done|]. by intros [?%not_elem_of_nil _].
    - by intros e ?%not_elem_of_nil. }
  unfold Purge. cbn [snd].
  assert (forall k e, (k, e) ∈ range (items c) -> exists x, heap c !! e = Some x /\ key x = k) as HK.
  { intros k e [Hin Hk]%elem_of_range%(rep_items c l Hr). destruct (heap c !! e) as [x|]; [|done].
    injection Hk as Hk. eauto. }
  assert (NoDup (map fst (range (items c)))) as HN.
  { rewrite range_perm. apply NoDup_fst_map_to_list. }
  apply NoDup_Permutation.
  - apply (NoDup_fmap_1 key).
    assert (forall r : list (string * nat), (forall k e, (k, e) ∈ r -> exists x, heap c !! e = Some x /\ key x = k) ->
      key <$> omap (fun '(_, e) => heap c !! e) r = map fst r) as HM.
    { induction r as [|[k e] r IH]; intros Hr'; cbn; [done|].
      destruct (Hr' k e (list_elem_of_here _ _)) as (x & -> & <-). cbn. f_equal. apply IH.
      intros k' e' ?. by apply Hr', list_elem_of_further. }
    rewrite HM by done. done.
  - apply (NoDup_fmap_1 key), Hr.
  - intros x. rewrite list_elem_of_omap. split.
    + intros ([k e] & Hin & Hx). apply elem_of_range, (rep_items c l Hr) in Hin as [Hin _].
      destruct (rep_elem c l e Hr Hin) as (y & Hy & ?). congruence.
    + intros Hx. destruct (rep_entry c l x Hr Hx) as (e & He & Hin). exists (key x, e).
      split; [|done]. apply elem_of_range, (rep_items c l Hr). by rewrite He.
Qed.

Lemma rep_push c l k v :
  rep c l -> items c !! k = None ->
  rep (mkLRU (size_ c) (next c :: evictList c) (<[next c := mkEntry k v]> (heap c))
         (<[k := next c]> (items c)) (S (next c))) (mkEntry k v :: l).
Proof.
  intros Hr Hk. pose proof (rep_lookup c l k Hr) as HL. rewrite Hk in HL. apply find_key_None in HL.
  assert (forall e, e ∈ evictList c -> e <> next c) as Hn.
  { intros e He ->. apply (rep_next c l Hr) in He. lia. }
  split; cbn.
  - constructor; [by rewrite lookup_insert_eq|]. eapply Forall2_weaken; [apply Hr|].
    intros e x He Hx. by rewrite lookup_insert_ne by (by apply not_eq_sym, Hn).
  - by constructor; [|apply Hr].
  - intros k' e. rewrite elem_of_cons. destruct (decide (k = k')) as [<-|Hkk].
    + rewrite lookup_insert_eq. split.
      * intros [= <-]. rewrite lookup_insert_eq. auto.
      * intros [[->|He] Hx]; [done|]. rewrite lookup_insert_ne in Hx by (by apply not_eq_sym, Hn).
        assert (items c !! k = Some e) by (by apply (rep_items c l Hr)). congruence.
    + rewrite lookup_insert_ne, (rep_items c l Hr) by done. split.
      * intros [He Hx]. rewrite lookup_insert_ne by (by apply not_eq_sym, Hn). auto.
      * intros [[->|He] Hx]; [rewrite lookup_insert_eq in Hx; cbn in Hx; congruence|].
        rewrite lookup_insert_ne in Hx by (by apply not_eq_sym, Hn). auto.
  - intros e [->|He]%elem_of_cons; [lia|]. apply (rep_next c l Hr) in He. lia.
Qed.

Lemma rep_set_value c x l e v :
  rep c (x :: l) -> evictList c = e :: tail (evictList c) -> heap c !! e = Some x ->
  rep (set_value c e v) (mkEntry (key x) v :: l).
Proof.
  intros Hr He Hx. unfold set_value. rewrite Hx. pose proof (rep_list c _ Hr) as HF.
  rewrite He in HF. apply Forall2_cons in HF as [_ HF].
  assert (forall e', e' ∈ tail (evictList c) -> e' <> e) as Hn.
  { intros e' Hin ->. apply list_elem_of_lookup in Hin as [i Hi].
    destruct (Forall2_lookup_l _ _ _ _ _ HF Hi) as (y & Hy & Hhy). rewrite Hx in Hhy. injection Hhy as <-.
    pose proof (rep_nodup c _ Hr) as Hnd. cbn in Hnd. apply NoDup_cons in Hnd as [Hnd _]. apply Hnd.
    apply list_elem_of_fmap. exists x. split; [done|]. by eapply list_elem_of_lookup_2. }
  split; cbn.
  - rewrite He. constructor; [by rewrite lookup_insert_eq|]. eapply Forall2_weaken; [exact HF|].
    intros e' y Hin Hy. by rewrite lookup_insert_ne by (by apply not_eq_sym, Hn).
  - apply Hr.
  - intros k e'. rewrite (rep_items c _ Hr). destruct (decide (e = e')) as [<-|Hne].
    + by rewrite lookup_insert_eq, Hx.
    + by rewrite lookup_insert_ne.
  - apply Hr.
Qed.

(** ** Simulation *)

Definition related c (st : Z * list (entry V)) : Prop := size_ c = st.1 /\ rep c st.2.

Definition same_answer (a b : answer V * list (entry V)) : Prop := a.1 = b.1 /\ a.2 ≡ₚ b.2.

Lemma Add_simulates c n l k v :
  size_ c = n -> rep c l ->
  let '(c', b, cb) := Add c k v in
  spec_add n k v l = ((spec_add n k v l).1.1, b, cb) /\ related c' (n, (spec_add n k v l).1.1).
Proof.
  intros Hn Hr. unfold Add, spec_add. pose proof (rep_lookup c l k Hr) as HL.
  destruct (items c !! k) as [e|] eqn:E.
  - destruct HL as (x & He & Hx & <- & ->). split; [done|]. split; cbn.
    + unfold set_value. cbn. by rewrite Hx.
    + by apply rep_set_value; [apply rep_front| |].
  - rewrite HL. unfold PushFront. cbn [size_ evictList heap items next].
    pose proof (rep_push c l k v Hr E) as Hp. set (c1 := mkLRU _ _ _ _ _) in *.
    pose proof (Forall2_length _ _ _ (rep_list _ _ Hp)) as Hlen.
    unfold Len at 1. rewrite Hlen. change (size_ c1) with (size_ c). rewrite Hn.
    destruct (n <? _); [|by split; [|split]].
    destruct (rep_removeOldest c1 _ Hp) as [H1 H2]. pose proof (removeOldest_size c1) as H3.
    destruct (removeOldest c1) as [c2 cb]. cbn in H1, H2, H3. subst cb. split.
    + cbn [fst]. by destruct (last _).
    + split; [cbn; congruence|done].
Qed.

Lemma Resize_simulates c l n :
  rep c l ->
  let keep := Z.to_nat (Z.min (Z.of_nat (length l)) (Z.max 0 n)) in
  let '(c', d, cb) := Resize c n in
  d = Z.max 0 (Z.of_nat (length l) - n) /\ cb = reverse (drop keep l) /\ related c' (n, take keep l).
Proof.
  intros Hr keep. unfold Resize, Len. rewrite (Forall2_length _ _ _ (rep_list _ _ Hr)).
  set (d := if _ <? 0 then 0 else _).
  assert (d = Z.max 0 (Z.of_nat (length l) - n)) as Hd.
  { subst d. destruct (Z.ltb_spec (Z.of_nat (length l) - n) 0); lia. }
  destruct (rep_removeOldest_n (Z.to_nat d) c l Hr) as [H1 H2].
  destruct (removeOldest_n (Z.to_nat d) c) as [c' cb]. cbn in H1, H2.
  assert (take (length l - Z.to_nat d) l = take keep l /\
          drop (length l - Z.to_nat d) l = drop keep l) as [H3 H4].
  { replace keep with (length l - Z.to_nat d)%nat by (subst keep; lia). done. }
  rewrite H3 in H1. rewrite H4 in H2. split_and!; try done. split; [done|]. cbn. by destruct H1.
Qed.

Lemma exec_simulates `{RangeOrder} c st o :
  related c st ->
  related (exec c o).1 (spec st o).1 /\ same_answer (exec c o).2 (spec st o).2.
Proof.
  destruct st as [n l]. intros [Hn Hr]. cbn in Hn, Hr.
  destruct o as [k v|k|k|k|k| | | | |m|]; cbn [exec spec].
  - pose proof (Add_simulates c n l k v Hn Hr) as HA. destruct (Add c k v) as [[c' b] cb].
    destruct HA as [-> HR]. done.
  - unfold Get. pose proof (rep_lookup c l k Hr) as HL. destruct (items c !! k) as [e|].
    + destruct HL as (x & He & Hx & Hk & ->). rewrite Hx. split; [|done]. split; [done|]. cbn.
      rewrite <- Hk. by apply rep_front.
    + by rewrite HL.
  - unfold Peek. pose proof (rep_lookup c l k Hr) as HL. split; [done|]. destruct (items c !! k) as [e|].
    + destruct HL as (x & He & Hx & Hk & ->). by rewrite Hx.
    + by rewrite HL.
  - unfold Contains_. pose proof (rep_lookup c l k Hr) as HL. split; [done|]. destruct (items c !! k) as [e|].
    + destruct HL as (x & He & Hx & Hk & ->). done.
    + by rewrite HL.
  - unfold Remove. pose proof (rep_lookup c l k Hr) as HL. destruct (items c !! k) as [e|].
    + destruct HL as (x & He & Hx & <- & ->). destruct (rep_remove c l e x Hr He Hx) as [H1 H2].
      assert (size_ (removeElement c e).1 = n) as H3 by (unfold removeElement; by rewrite Hx).
      destruct (removeElement c e) as [c' cb]. cbn in *. by subst cb.
    + by rewrite HL.
  - unfold RemoveOldest. pose proof (rep_removeOldest c l Hr) as [H1 H2]. pose proof (removeOldest_size c) as H3.
    unfold removeOldest in *. pose proof (rep_back c l Hr) as HB. destruct (Back c) as [e|].
    + destruct HB as (x & He & Hx & Hl). destruct (removeElement c e) as [c' cb]. cbn in *.
      rewrite Hx, Hl. subst cb. rewrite Hl. split; [split; [by rewrite H3|done]|done].
    + subst l. done.
  - unfold GetOldest. pose proof (rep_back c l Hr) as HB. split; [done|]. destruct (Back c) as [e|].
    + destruct HB as (x & He & Hx & Hl). by rewrite Hx, Hl.
    + by subst l.
  - split; [done|]. by rewrite (rep_keys c l Hr).
  - split; [done|]. unfold Len. by rewrite (Forall2_length _ _ _ (rep_list _ _ Hr)).
  - pose proof (Resize_simulates c l m Hr) as HS. destruct (Resize c m) as [[c' d] cb].
    destruct HS as (-> & -> & HR). done.
  - destruct (rep_purge c l Hr) as [H1 H2]. split; [by split|]. by split.
Qed.

Lemma rep_new n : related (NewLRU n) (if n <=? 0 then 10000 else n, []).
Proof.
  split; [done|]. split; cbn; [constructor..|intros k e; rewrite lookup_empty|].
  - split; [done|]. by intros [?%not_elem_of_nil _].
  - by intros e ?%not_elem_of_nil.
Qed.

Lemma run_simulates `{RangeOrder} ops c st :
  related c st -> Forall2 same_answer (run exec c ops).2 (run spec st ops).2.
Proof.
  revert c st. induction ops as [|o ops IH]; intros c st HR; cbn; [constructor|].
  destruct (exec_simulates c st o HR) as [H1 H2].
  destruct (exec c o) as [c' a], (spec st o) as [st' a']. cbn in *.
  specialize (IH c' st' H1). destruct (run exec c' ops), (run spec st' ops). by constructor.
Qed.

(** The cache behaves like a list of entries kept in order of use, on every
    sequence of calls: each call gives the same answer and hands the same
    entries to the eviction callback (for a purge, in any order), where adding
    or reading a key moves it to the front, and adding a new key beyond the
    capacity evicts exactly the entry used least recently. *)
Theorem lru_refines_list (O : RangeOrder) (n : Z) (ops : list (call V)) :
  Forall2 same_answer (run exec (NewLRU n) ops).2
    (run spec (if n <=? 0 then 10000 else n, []) ops).2.
Proof. apply run_simulates, rep_new. Qed.

(** ** Capacity *)

Lemma spec_bound (st : Z * list (entry V)) (o : call V) :
  Z.of_nat (length st.2) <= Z.max 0 st.1 ->
  Z.of_nat (length (spec st o).1.2) <= Z.max 0 (spec st o).1.1.
Proof.
  destruct st as [n l]. cbn [fst snd]. intros Hb.
  assert (forall k, (length (drop_key k l) <= length l)%nat) as HD by (intros; apply length_filter).
  assert (length (removelast l) <= length l)%nat as HRm by (rewrite removelast_take, length_take; lia).
  destruct o as [k v|k|k|k|k| | | | |m|]; cbn; try done.
  - unfold spec_add. destruct (find_key k l) as [x|] eqn:E.
    + cbn. apply drop_key_shorter in E. lia.
    + destruct (Z.ltb_spec n (Z.of_nat (length (mkEntry k v :: l)))) as [Hlt|Hle]; cbn [fst snd].
      * rewrite removelast_take, length_take. cbn [length]. lia.
      * cbn [length] in *. lia.
  - destruct (find_key k l) as [x|] eqn:E; [|done]. cbn. apply drop_key_shorter in E. lia.
  - destruct (find_key k l); cbn; [|done]. specialize (HD k). lia.
  - lia.
  - rewrite length_take. lia.
  - lia.
Qed.

(** The cache never holds more entries than its capacity: after any sequence
    of calls on a new cache, resizes included, the number of elements is at
    most the current size (none for a size below one), and the map of keys has
    exactly one key per element. *)
Theorem lru_within_capacity (O : RangeOrder) (n : Z) (ops : list (call V)) :
  let c := (run exec (NewLRU n) ops).1 in
  Len c <= Z.max 0 (size_ c) /\ size (items c) = length (evictList c).
Proof.
  assert (forall ops c st, related c st -> Z.of_nat (length st.2) <= Z.max 0 st.1 ->
    exists st', related (run exec c ops).1 st' /\ Z.of_nat (length st'.2) <= Z.max 0 st'.1) as HR.
  { clear ops. induction ops as [|o ops IH]; intros c st Hc Hb; cbn; [eauto|].
    destruct (exec_simulates c st o Hc) as [H1 _]. pose proof (spec_bound st o Hb) as H2.
    destruct (exec c o) as [c' a], (spec st o) as [st' a']. cbn in *.
    destruct (IH c' st' H1 H2) as (st'' & H3 & H4). destruct (run exec c' ops). eauto. }
  destruct (HR ops (NewLRU n) _ (rep_new n)) as ([m l] & [Hm Hr] & Hb); [cbn; lia|]. cbn in *.
  rewrite Hm, (rep_size _ _ Hr). unfold Len. rewrite (Forall2_length _ _ _ (rep_list _ _ Hr)). done.
Qed.

End LruSpec.
