(* ===== verification/Stats.v ===== *)
(** * Stats: rolling averages and the job statistics registry

    Models [src/internal/math] (minimum, maximum, the ring buffer behind the
    rolling average and the rolling minimum and maximum) and [src/queen/stats]
    ([job_stats.go], [job_stats_registry.go]): the counters of each job type,
    the pending jobs, the running jobs of users and organizations and the last
    status, which the scheduler reads to limit concurrency.

    Counters have the width of the code ([int64] totals, [int32] running jobs).
    An average is kept as the exact fraction of total and size; the rounding of
    the floating-point division is left out.  A registered job is a snapshot of
    the summary interface; the registry's lock makes its operations atomic.  The
    backend that copies the counters to Redis is left out. *)

From S2P Require Import Prelude RequestState Acl Approval.
From Stdlib Require Import QArith.

Open Scope go_scope.
Open Scope Z_scope.

(** ** Rolling: the ring buffers of internal/math *)
Module Rolling.

Definition Min (a b : Z) : Z := if a <=? b then a else b.
Definition Max (a b : Z) : Z := if b <=? a then a else b.
Definition Min64 (a b : Z) : Z := if a <=? b then a else b.
Definition Max64 (a b : Z) : Z := if b <=? a then a else b.
Definition MinDuration (a b : Z) : Z := if a <=? b then a else b.
Definition MaxDuration (a b : Z) : Z := if b <=? a then a else b.

Record RollingAverage := mkRollingAverage {
  samples : list Z;
  total : Z;
  index : nat;
  length_ : nat
}.

Definition NewRollingAverage (capacity : nat) : RollingAverage :=
  mkRollingAverage (replicate capacity 0) 0 0 0.

(** [Add]: reading a slot outside of the buffer, which happens when the capacity
    is zero, panics. *)
Definition Add (r : RollingAverage) (x : Z) : outcome Empty_set RollingAverage :=
  if x <=? 0 then Return r
  else
    let len := if (length_ r <? List.length (samples r))%nat then S (length_ r) else length_ r in
    match samples r !! index r with
    | None => Panic
    | Some old =>
        let i := S (index r) in
        Return (mkRollingAverage (<[index r := x]> (samples r))
                  (wrap64 (wrap64 (total r - old) + x))
                  (if (List.length (samples r) <=? i)%nat then 0%nat else i) len)
    end.

(** The number of samples an average is taken over; it is never zero. *)
Definition average_size (r : RollingAverage) : Z :=
  Max 1 (Min (Z.of_nat (List.length (samples r))) (Z.of_nat (length_ r))).
Definition Average (r : RollingAverage) : Q := Qmake (total r) (Z.to_pos (average_size r)).

Record RollingMinMax := mkRollingMinMax {
  average : RollingAverage;
  Min_ : Z;
  Max_ : Z
}.

Definition NewRollingMinMax (capacity : nat) : RollingMinMax :=
  mkRollingMinMax (NewRollingAverage capacity) int64_max 0.

Definition AddMinMax (r : RollingMinMax) (x : Z) : outcome Empty_set RollingMinMax :=
  match Add (average r) x with
  | Return a => Return (mkRollingMinMax a (Min64 (Min_ r) x) (Max64 (Max_ r) x))
  | Error e => Error e
  | Panic => Panic
  end.

(** A sequence of samples, one after the other. *)
Fixpoint add_all (r : RollingAverage) (xs : list Z) : outcome Empty_set RollingAverage :=
  match xs with
  | [] => Return r
  | x :: rest =>
      match Add r x with Return r' => add_all r' rest | Error e => Error e | Panic => Panic end
  end.

End Rolling.

(** ** JobStats: the counters of one job type *)
Module JobStats.
Import Rolling.

(** The [int32] counter of running jobs. *)
Definition wrap32 (z : Z) : Z := (z + 2 ^ 31) mod 2 ^ 32 - 2 ^ 31.

(** The key of a job type: what the jobs of one tenant and type share. *)
Record UserJobTypeKey := mkUserJobTypeKey {
  k_JobType : string;
  k_JobVersion : string;
  k_OrganizationID : string;
  k_UserID : string
}.

Definition getUserJobTypeKey (organizationID userID jobType jobVersion : string) : string :=
  if organizationID == "" then userID +:+ "-" +:+ jobType +:+ ":" +:+ jobVersion
  else organizationID +:+ "-" +:+ jobType +:+ ":" +:+ jobVersion.

Definition GetUserJobTypeKey (k : UserJobTypeKey) : string :=
  getUserJobTypeKey (k_OrganizationID k) (k_UserID k) (k_JobType k) (k_JobVersion k).

Record JobStats := mkJobStats {
  JobKey : UserJobTypeKey;
  FirstJobAt : option Z;
  LastJobAt : option Z;
  SucceededJobs : Z;
  PausedJobs : Z;
  FailedJobs : Z;
  ExecutingJobs : Z;
  AntsAvailable : bool;
  AntsCapacity : Z;
  AntUnavailableError : string;
  JobDisabled : bool;
  succeededJobsMinMax : RollingMinMax;
  failedJobsMinMax : RollingMinMax;
  pausedJobsMinMax : RollingMinMax
}.

Definition NewJobStats (jobKey : UserJobTypeKey) : JobStats :=
  mkJobStats jobKey None None 0 0 0 0 false 0 "" false
    (NewRollingMinMax 20) (NewRollingMinMax 20) (NewRollingMinMax 20).

Definition Started (now : Z) (j : JobStats) : JobStats :=
  mkJobStats (JobKey j) (match FirstJobAt j with None => Some now | Some t => Some t end) (Some now)
    (SucceededJobs j) (PausedJobs j) (FailedJobs j) (wrap32 (ExecutingJobs j + 1))
    true (AntsCapacity j) "" (JobDisabled j)
    (succeededJobsMinMax j) (failedJobsMinMax j) (pausedJobsMinMax j).

Definition executing_minus_one (j : JobStats) : JobStats :=
  mkJobStats (JobKey j) (FirstJobAt j) (LastJobAt j)
    (SucceededJobs j) (PausedJobs j) (FailedJobs j) (wrap32 (ExecutingJobs j - 1))
    (AntsAvailable j) (AntsCapacity j) (AntUnavailableError j) (JobDisabled j)
    (succeededJobsMinMax j) (failedJobsMinMax j) (pausedJobsMinMax j).
Definition Cancelled (j : JobStats) : JobStats := executing_minus_one j.
Definition RevertedPending (j : JobStats) : JobStats := executing_minus_one j.

(** The end of a job is counted and its latency added; the samples of a fresh
    record have twenty slots, so that adding to them does not panic. *)
Definition Succeeded (latency : Z) (j : JobStats) : outcome Empty_set JobStats :=
  match AddMinMax (succeededJobsMinMax j) latency with
  | Return m =>
      Return (mkJobStats (JobKey j) (FirstJobAt j) (LastJobAt j)
        (wrap64 (SucceededJobs j + 1)) (PausedJobs j) (FailedJobs j) (wrap32 (ExecutingJobs j - 1))
        (AntsAvailable j) (AntsCapacity j) (AntUnavailableError j) (JobDisabled j)
        m (failedJobsMinMax j) (pausedJobsMinMax j))
  | Error e => Error e
  | Panic => Panic
  end.
Definition Failed (latency : Z) (j : JobStats) : outcome Empty_set JobStats :=
  match AddMinMax (failedJobsMinMax j) latency with
  | Return m =>
      Return (mkJobStats (JobKey j) (FirstJobAt j) (LastJobAt j)
        (SucceededJobs j) (PausedJobs j) (wrap64 (FailedJobs j + 1)) (wrap32 (ExecutingJobs j - 1))
        (AntsAvailable j) (AntsCapacity j) (AntUnavailableError j) (JobDisabled j)
        (succeededJobsMinMax j) m (pausedJobsMinMax j))
  | Error e => Error e
  | Panic => Panic
  end.
Definition Paused (latency : Z) (j : JobStats) : outcome Empty_set JobStats :=
  match AddMinMax (pausedJobsMinMax j) latency with
  | Return m =>
      Return (mkJobStats (JobKey j) (FirstJobAt j) (LastJobAt j)
        (SucceededJobs j) (wrap64 (PausedJobs j + 1)) (FailedJobs j) (wrap32 (ExecutingJobs j - 1))
        (AntsAvailable j) (AntsCapacity j) (AntUnavailableError j) (JobDisabled j)
        (succeededJobsMinMax j) (failedJobsMinMax j) m)
  | Error e => Error e
  | Panic => Panic
  end.

(** [Calculate]: the figures derived from the counters. *)
Record figures := mkFigures {
  SucceededJobsAverage : Q; SucceededJobsMin : Z; SucceededJobsMax : Z;
  FailedJobsAverage : Q; FailedJobsMin : Z; FailedJobsMax : Z;
  SucceededJobsPercentages : Z
}.

Definition Calculate (j : JobStats) : figures :=
  let s := succeededJobsMinMax j in
  let f := failedJobsMinMax j in
  let n := wrap64 (SucceededJobs j + FailedJobs j) in
  mkFigures (Average (average s)) (Min_ s) (Max_ s) (Average (average f)) (Min_ f) (Max_ f)
    (if 0 <? n then Z.quot (wrap64 (SucceededJobs j * 100)) n else 0).

Definition set_ants (available : bool) (unavailableError : string) (j : JobStats) : JobStats :=
  mkJobStats (JobKey j) (FirstJobAt j) (LastJobAt j)
    (SucceededJobs j) (PausedJobs j) (FailedJobs j) (ExecutingJobs j)
    available (AntsCapacity j) unavailableError (JobDisabled j)
    (succeededJobsMinMax j) (failedJobsMinMax j) (pausedJobsMinMax j).
Definition set_disabled (disabled : bool) (j : JobStats) : JobStats :=
  mkJobStats (JobKey j) (FirstJobAt j) (LastJobAt j)
    (SucceededJobs j) (PausedJobs j) (FailedJobs j) (ExecutingJobs j)
    (AntsAvailable j) (AntsCapacity j) (AntUnavailableError j) disabled
    (succeededJobsMinMax j) (failedJobsMinMax j) (pausedJobsMinMax j).

End JobStats.

(** ** Registry: the statistics of all job types *)
Module Registry.
Import JobStats.

(** What the registry reads of a request, an execution or a job time. *)
Record Summary := mkSummary {
  s_ID : string;
  s_key : UserJobTypeKey;
  s_JobState : RequestState;
  s_JobPriority : Z;
  s_ScheduledAt : Z;
  s_CreatedAt : Z
}.

Definition key_of (req : Summary) : string := GetUserJobTypeKey (s_key req).
Definition user_of (req : Summary) : string := k_UserID (s_key req).
Definition org_of (req : Summary) : string := k_OrganizationID (s_key req).

Record JobStatsRegistry := mkRegistry {
  statsByJobType : gmap string JobStats;
  countByUser : gmap string (gset string);
  countByOrg : gmap string (gset string);
  pendingJobsByType : gmap string (gmap string Summary);
  lastJobStatus : gmap string (string * RequestState)
}.

Definition newRegistry : JobStatsRegistry := mkRegistry ∅ ∅ ∅ ∅ ∅.

Definition createOrFindStat (r : JobStatsRegistry) (key : UserJobTypeKey) : JobStats :=
  match statsByJobType r !! GetUserJobTypeKey key with
  | Some stats => stats
  | None => NewJobStats key
  end.

(** The record found or created is a pointer of the table: its change is stored. *)
Definition set_stat (r : JobStatsRegistry) (key : UserJobTypeKey) (stats : JobStats) : JobStatsRegistry :=
  mkRegistry (<[GetUserJobTypeKey key := stats]> (statsByJobType r)) (countByUser r) (countByOrg r)
    (pendingJobsByType r) (lastJobStatus r).
Definition change_stat (f : JobStats -> JobStats) (key : UserJobTypeKey) (r : JobStatsRegistry)
    : JobStatsRegistry :=
  set_stat r key (f (createOrFindStat r key)).

Definition removePendingJob (req : Summary) (r : JobStatsRegistry) : JobStatsRegistry :=
  match pendingJobsByType r !! key_of req with
  | Some pendingJobs =>
      mkRegistry (statsByJobType r) (countByUser r) (countByOrg r)
        (<[key_of req := delete (s_ID req) pendingJobs]> (pendingJobsByType r)) (lastJobStatus r)
  | None => r
  end.

(** The running jobs of an owner; an owner without a table has none. *)
Definition members (m : gmap string (gset string)) (owner : string) : gset string :=
  default ∅ (m !! owner).
Definition add_member (owner id : string) (m : gmap string (gset string)) : gmap string (gset string) :=
  if owner != "" then <[owner := {[id]} ∪ members m owner]> m else m.
Definition drop_member (owner id : string) (m : gmap string (gset string)) : gmap string (gset string) :=
  if (owner != "") && (0 <? size (members m owner))%nat
  then <[owner := members m owner ∖ {[id]}]> m else m.

Definition decrUserOrgCount (req : Summary) (r : JobStatsRegistry) : JobStatsRegistry :=
  mkRegistry (statsByJobType r) (drop_member (user_of req) (s_ID req) (countByUser r))
    (drop_member (org_of req) (s_ID req) (countByOrg r)) (pendingJobsByType r) (lastJobStatus r).
Definition incr_counts (req : Summary) (r : JobStatsRegistry) : JobStatsRegistry :=
  mkRegistry (statsByJobType r) (add_member (user_of req) (s_ID req) (countByUser r))
    (add_member (org_of req) (s_ID req) (countByOrg r)) (pendingJobsByType r) (lastJobStatus r).
Definition add_pending (req : Summary) (r : JobStatsRegistry) : JobStatsRegistry :=
  mkRegistry (statsByJobType r) (countByUser r) (countByOrg r)
    (<[key_of req := <[s_ID req := req]> (default ∅ (pendingJobsByType r !! key_of req))]>
       (pendingJobsByType r)) (lastJobStatus r).
Definition set_last (req : Summary) (r : JobStatsRegistry) : JobStatsRegistry :=
  mkRegistry (statsByJobType r) (countByUser r) (countByOrg r) (pendingJobsByType r)
    (<[key_of req := (s_ID req, s_JobState req)]> (lastJobStatus r)).

Definition Pending (req : Summary) (reverted : bool) (r : JobStatsRegistry) : JobStatsRegistry :=
  let r := decrUserOrgCount req (add_pending req r) in
  if reverted then change_stat RevertedPending (s_key req) r else r.

Definition UserOrgExecuting (r : JobStatsRegistry) (req : Summary) : nat * nat :=
  (size (members (countByUser r) (user_of req)), size (members (countByOrg r) (org_of req))).

Definition LastJobStatus (r : JobStatsRegistry) (req : Summary) : RequestState :=
  match lastJobStatus r !! key_of req with Some (_, state) => state | None => State.UNKNOWN end.

Definition Started (now : Z) (req : Summary) (r : JobStatsRegistry) : JobStatsRegistry :=
  incr_counts req (removePendingJob req (change_stat (JobStats.Started now) (s_key req) r)).

Definition Cancelled (req : Summary) (r : JobStatsRegistry) : JobStatsRegistry :=
  decrUserOrgCount req (removePendingJob req (change_stat JobStats.Cancelled (s_key req) r)).

(** The end of a job: counted by [f], then taken out of the running jobs. *)
Definition ended (f : JobStats -> outcome Empty_set JobStats) (req : Summary) (r : JobStatsRegistry)
    : outcome Empty_set JobStatsRegistry :=
  match f (createOrFindStat r (s_key req)) with
  | Return stats =>
      Return (set_last req (decrUserOrgCount req (removePendingJob req (set_stat r (s_key req) stats))))
  | Error e => Error e
  | Panic => Panic
  end.
Definition Succeeded (req : Summary) (latency : Z) : JobStatsRegistry -> outcome Empty_set JobStatsRegistry :=
  ended (JobStats.Succeeded latency) req.
Definition Failed (req : Summary) (latency : Z) : JobStatsRegistry -> outcome Empty_set JobStatsRegistry :=
  ended (JobStats.Failed latency) req.
Definition Paused (req : Summary) (latency : Z) : JobStatsRegistry -> outcome Empty_set JobStatsRegistry :=
  ended (JobStats.Paused latency) req.

Definition SetAntsAvailable (key : UserJobTypeKey) (available : bool) (unavailableError : string)
    (r : JobStatsRegistry) : JobStatsRegistry :=
  change_stat (set_ants available unavailableError) key r.
Definition SetDisabled (key : UserJobTypeKey) (disabled : bool) (r : JobStatsRegistry) : JobStatsRegistry :=
  change_stat (set_disabled disabled) key r.

Definition GetExecutionCount (r : JobStatsRegistry) (key : UserJobTypeKey) : Z :=
  match statsByJobType r !! GetUserJobTypeKey key with Some stat => ExecutingJobs stat | None => 0 end.

(** The order of the queue: higher priority first, then the older job. *)
Definition queue_before (t1 t2 : Summary) : bool :=
  if s_JobPriority t1 =? s_JobPriority t2 then s_CreatedAt t1 <? s_CreatedAt t2
  else s_JobPriority t2 <? s_JobPriority t1.

(** [BuildWaitEstimate]: the statistics and the identifiers of the pending jobs
    that are due within a minute, in the order of the queue. *)
Definition queued `{RangeOrder} (r : JobStatsRegistry) (now : Z) (key : UserJobTypeKey) : list Summary :=
  let maxTime := now + 60 * 1000000000 in
  let pendingJobs := default ∅ (pendingJobsByType r !! GetUserJobTypeKey key) in
  sort_slice queue_before
    (List.filter (fun job => negb (maxTime <? s_ScheduledAt job)) (map snd (range pendingJobs))).
Definition BuildWaitEstimate `{RangeOrder} (r : JobStatsRegistry) (now : Z) (key : UserJobTypeKey)
    : JobStats * list string :=
  match statsByJobType r !! GetUserJobTypeKey key with
  | None => (NewJobStats key, [])
  | Some stat => (stat, map s_ID (queued r now key))
  end.

(** [GetStats]: the records are visited in the order of the table, since the
    sort by date is applied to a slice that is still empty; those of the caller's
    tenant are copied, with their figures, and sorted by key. *)
Fixpoint page_stats (qc : Query.QueryContext) (offset max_ j n : nat) (all : list JobStats)
    : list (JobStats * figures) :=
  match all with
  | [] => []
  | stat :: rest =>
      if (j <? offset)%nat then page_stats qc offset max_ (S j) n rest
      else if (max_ <=? n)%nat then []
      else if Query.Matches qc (k_UserID (JobKey stat)) (k_OrganizationID (JobKey stat)) true
           then (stat, Calculate stat) :: page_stats qc offset max_ (S j) (S n) rest
           else page_stats qc offset max_ (S j) n rest
  end.
Definition GetStats `{RangeOrder} (r : JobStatsRegistry) (qc : Query.QueryContext) (offset max_ : nat)
    : list (JobStats * figures) :=
  sort_slice (fun a b => String.ltb (GetUserJobTypeKey (JobKey (fst a))) (GetUserJobTypeKey (JobKey (fst b))))
    (page_stats qc offset max_ 0 0 (map snd (range (statsByJobType r)))).

End Registry.
