(* ===== verification/StatsSpec.v ===== *)
(** * StatsSpec: what the statistics promise

    The rolling average is the average of the last samples (an equivalence with
    a definition over the list of all samples), and the registry is a function
    of the history of events: a job is pending or running when its last event
    says so, and the counter of running jobs is the number of starts less the
    number of ends. *)

From S2P Require Import Prelude RequestState Acl Approval Stats.
From Stdlib Require Import QArith Sorting.Sorted.

Open Scope go_scope.
Open Scope Z_scope.

(** ** The rolling average *)
Section RollingAverageSpec.
Import Rolling.

Definition sum (l : list Z) : Z := foldr Z.add 0 l.

(** The positive samples, and the last [cap] of them. *)
Definition positives (xs : list Z) : list Z := List.filter (Z.ltb 0) xs.
Definition last_n {A} (n : nat) (l : list A) : list A := drop (List.length l - n) l.
Definition window (cap : nat) (xs : list Z) : list Z := last_n cap (positives xs).

(** The average of the last [cap] positive samples, zero when there is none. *)
Definition reference_average (cap : nat) (xs : list Z) : Q :=
  Qmake (wrap64 (sum (window cap xs))) (Z.to_pos (Z.max 1 (Z.of_nat (List.length (window cap xs))))).

Lemma Max_max a b : Rolling.Max a b = Z.max a b.
Proof. unfold Rolling.Max. destruct (Z.leb_spec b a); lia. Qed.

Lemma Min_min a b : Rolling.Min a b = Z.min a b.
Proof. unfold Rolling.Min. destruct (Z.leb_spec a b); lia. Qed.

Lemma sum_app l1 l2 : sum (l1 ++ l2) = sum l1 + sum l2.
Proof. unfold sum. induction l1 as [|x l IH]; cbn; [done|]. rewrite IH. lia. Qed.

Lemma sum_replicate_0 n : sum (replicate n 0) = 0.
Proof. unfold sum. induction n; cbn; [done|lia]. Qed.

(** The samples in the order of their arrival, oldest first. *)
Definition arrival (r : RollingAverage) : list Z := drop (index r) (samples r) ++ take (index r) (samples r).

Record ring (cap : nat) (r : RollingAverage) : Prop := {
  ring_capacity : List.length (samples r) = cap;
  ring_index : (index r < cap)%nat;
  ring_total : total r = wrap64 (sum (arrival r))
}.

Lemma length_arrival cap r : ring cap r -> List.length (arrival r) = cap.
Proof.
  intros [Hc Hi _]. unfold arrival. rewrite length_app, length_drop, length_take. lia.
Qed.

Lemma ring_new cap : (0 < cap)%nat -> ring cap (NewRollingAverage cap).
Proof.
  intros Hc. split; cbn; [by rewrite length_replicate|done|].
  unfold arrival; cbn. by rewrite app_nil_r, drop_0, sum_replicate_0.
Qed.

Lemma wrap64_replace t s old x :
  t = wrap64 (s + old) -> wrap64 (wrap64 (t - old) + x) = wrap64 (s + x).
Proof.
  intros ->. rewrite wrap64_add_l. replace (wrap64 (s + old) - old + x) with (wrap64 (s + old) + (x - old)) by lia.
  rewrite wrap64_add_l. f_equal. lia.
Qed.

(** A positive sample takes the place of the oldest one. *)
Lemma ring_Add cap r x :
  ring cap r -> 0 < x ->
  exists r', Add r x = Return r' /\ ring cap r' /\ arrival r' = tail (arrival r) ++ [x] /\
    length_ r' = if (length_ r <? cap)%nat then S (length_ r) else length_ r.
Proof.
  intros HR Hx. pose proof (length_arrival cap r HR) as Hlen. destruct HR as [Hc Hi Ht].
  assert (exists old, samples r !! index r = Some old) as [old Hold] by (apply lookup_lt_is_Some; lia).
  unfold Add. destruct (Z.leb_spec x 0); [lia|]. rewrite Hold, Hc.
  pose proof (take_drop_middle _ _ _ Hold) as Hmid.
  assert (arrival r = old :: drop (S (index r)) (samples r) ++ take (index r) (samples r)) as Harr.
  { unfold arrival. by rewrite (drop_S _ _ _ Hold). }
  eexists; split; [reflexivity|].
  assert (forall r', samples r' = <[index r := x]> (samples r) ->
            index r' = (if (cap <=? S (index r))%nat then 0 else S (index r))%nat ->
            arrival r' = tail (arrival r) ++ [x]) as Hnew.
  { intros r' Hs' Hi'. rewrite Harr. cbn [tail]. unfold arrival. rewrite Hs', Hi'.
    rewrite (insert_take_drop (samples r) (index r) x) by lia.
    destruct (Nat.leb_spec cap (S (index r))).
    - rewrite drop_0, take_0, app_nil_r. rewrite (drop_ge _ (S (index r))) by lia. done.
    - rewrite drop_app_ge, take_app_ge by (rewrite length_take; lia).
      rewrite length_take, Nat.min_l by lia.
      replace (S (index r) - index r)%nat with 1%nat by lia. cbn [drop take].
      by rewrite drop_0, take_0, <- app_assoc. }
  match goal with |- ring _ ?r' /\ _ => pose proof (Hnew r' eq_refl eq_refl) as Hnext end.
  split; [constructor|by split].
  - cbn. by rewrite length_insert.
  - cbn. destruct (Nat.leb_spec cap (S (index r))); lia.
  - rewrite Hnext. cbn [total]. replace (sum (tail (arrival r) ++ [x])) with (sum (tail (arrival r)) + x)
      by (rewrite sum_app; unfold sum; cbn; lia).
    apply wrap64_replace. rewrite Ht, Harr. f_equal. unfold sum. cbn. lia.
Qed.

Lemma last_n_app_cons {A} n (l1 l2 : list A) :
  (n <= List.length l1)%nat -> last_n n (l1 ++ l2) = drop (List.length l2) (last_n n l1) ++ l2 \/ (n < List.length l2)%nat.
Proof.
  intros Hn. destruct (decide (n < List.length l2)%nat) as [|Hge]; [by right|left].
  unfold last_n. rewrite length_app, drop_app, drop_drop.
  replace (List.length l1 + List.length l2 - n - List.length l1)%nat with 0%nat by lia.
  rewrite drop_0. f_equal. f_equal. lia.
Qed.

Lemma last_n_snoc {A} n (l : list A) x :
  (0 < n)%nat -> (n <= List.length l)%nat -> last_n n (l ++ [x]) = tail (last_n n l) ++ [x].
Proof.
  intros Hn Hl. destruct (last_n_app_cons n l [x] Hl) as [H|H]; cbn in H; [|lia].
  rewrite H. by destruct (last_n n l).
Qed.

Lemma positives_cons x xs :
  positives (x :: xs) = if 0 <? x then x :: positives xs else positives xs.
Proof. done. Qed.

(** Adding samples keeps the last [cap] positive ones, after the zeros the
    buffer starts with. *)
Lemma add_all_window cap xs r ps :
  (0 < cap)%nat -> ring cap r ->
  arrival r = last_n cap (replicate cap 0 ++ ps) -> length_ r = Nat.min cap (List.length ps) ->
  exists r', add_all r xs = Return r' /\ ring cap r' /\
    arrival r' = last_n cap (replicate cap 0 ++ ps ++ positives xs) /\
    length_ r' = Nat.min cap (List.length (ps ++ positives xs)).
Proof.
  intros Hcap. revert r ps. induction xs as [|x xs IH]; intros r ps HR Ha Hl; cbn [add_all].
  { exists r. cbn. rewrite app_nil_r. done. }
  rewrite positives_cons. destruct (Z.ltb_spec 0 x) as [Hx|Hx].
  - destruct (ring_Add cap r x HR Hx) as (r1 & -> & HR1 & Ha1 & Hl1).
    rewrite Ha in Ha1. rewrite <- last_n_snoc in Ha1 by (try rewrite length_app, length_replicate; lia).
    rewrite <- app_assoc in Ha1.
    replace (ps ++ x :: positives xs) with ((ps ++ [x]) ++ positives xs) by (by rewrite <- app_assoc).
    apply IH; [done|done|]. rewrite Hl1, Hl, length_app. cbn [List.length].
    destruct (Nat.ltb_spec (Nat.min cap (List.length ps)) cap); lia.
  - unfold Add. destruct (Z.leb_spec x 0); [|lia]. by apply IH.
Qed.

Lemma sum_last_n_zeros cap ps : sum (last_n cap (replicate cap 0 ++ ps)) = sum (last_n cap ps).
Proof.
  unfold last_n. rewrite length_app, length_replicate, drop_app, drop_replicate, sum_app, sum_replicate_0.
  rewrite length_replicate, Z.add_0_l. f_equal. f_equal. lia.
Qed.

(** C37: after any sequence of samples the rolling average of a buffer with at
    least one slot is the average of the last samples: the positive samples are
    kept, at most as many as the buffer has slots, the oldest is dropped first,
    and the running total, which wraps around at 64 bits as each sample is
    added and taken away, is the wrapped sum of exactly these samples. *)
Theorem rolling_average_is_window (cap : nat) (xs : list Z) :
  (0 < cap)%nat ->
  exists r, add_all (NewRollingAverage cap) xs = Return r /\ Average r = reference_average cap xs.
Proof.
  intros Hcap.
  destruct (add_all_window cap xs (NewRollingAverage cap) [] Hcap) as (r & Hr & HR & Ha & Hl).
  - by apply ring_new.
  - unfold arrival, last_n. cbn.
    by rewrite drop_0, !app_nil_r, length_replicate, Nat.sub_diag, drop_0.
  - cbn. lia.
  - exists r. split; [done|]. cbn in Ha, Hl. unfold Average, reference_average.
    destruct HR as [Hc _ ->]. rewrite Ha, sum_last_n_zeros. f_equal. f_equal.
    unfold average_size, window, last_n. rewrite Hc, Hl, length_drop.
    rewrite Max_max, Min_min. lia.
Qed.

Lemma rolling_average_is_window_witness :
  exists r, add_all (NewRollingAverage 2) [5; 0; 7; -3; 9] = Return r /\
    Average r = reference_average 2 [5; 0; 7; -3; 9].
Proof. exact (rolling_average_is_window 2 [5; 0; 7; -3; 9] ltac:(lia)). Defined.

End RollingAverageSpec.

(** ** The registry as a function of its history *)
Section RegistrySpec.
Import JobStats Registry.

Inductive kind :=
| KPending (reverted : bool)
| KStarted (now : Z)
| KCancelled
| KSucceeded (latency : Z)
| KFailed (latency : Z)
| KPaused (latency : Z).

Definition event : Type := kind * Summary.

Definition apply_event (e : event) (r : JobStatsRegistry) : outcome Empty_set JobStatsRegistry :=
  let '(k, req) := e in
  match k with
  | KPending reverted => Return (Pending req reverted r)
  | KStarted now => Return (Started now req r)
  | KCancelled => Return (Cancelled req r)
  | KSucceeded latency => Succeeded req latency r
  | KFailed latency => Failed req latency r
  | KPaused latency => Paused req latency r
  end.

Fixpoint replay (evs : list event) (r : JobStatsRegistry) : outcome Empty_set JobStatsRegistry :=
  match evs with
  | [] => Return r
  | e :: rest =>
      match apply_event e r with Return r' => replay rest r' | Error x => Error x | Panic => Panic end
  end.

(** The last event about the requests that [f] selects. *)
Definition last_event (f : Summary -> bool) (evs : list event) : option event :=
  last (List.filter (fun e => f (snd e)) evs).

Definition same_job (key id : string) (req : Summary) : bool := (key_of req == key) && (s_ID req == id).
Definition same_owner (owner_of : Summary -> string) (owner id : string) (req : Summary) : bool :=
  (owner_of req == owner) && (s_ID req == id).

(** The job a key and an identifier name is pending when its last event says so. *)
Definition pending_in (evs : list event) (key id : string) : option Summary :=
  match last_event (same_job key id) evs with
  | Some (KPending _, req) => Some req
  | _ => None
  end.

(** A job of an owner is running when its last event is its start. *)
Definition running_in (owner_of : Summary -> string) (evs : list event) (owner id : string) : bool :=
  (owner != "") &&
  match last_event (same_owner owner_of owner id) evs with Some (KStarted _, _) => true | _ => false end.

Definition event_delta (k : kind) : Z :=
  match k with KPending false => 0 | KStarted _ => 1 | _ => -1 end.
(** Starts less ends of the jobs of a type. *)
Definition executing_in (evs : list event) (key : string) : Z :=
  sum (map (fun e : event => if key_of (snd e) == key then event_delta (fst e) else 0) evs).

Definition pending_at (r : JobStatsRegistry) (key id : string) : option Summary :=
  default ∅ (pendingJobsByType r !! key) !! id.
Definition executing_at (r : JobStatsRegistry) (key : string) : Z :=
  match statsByJobType r !! key with Some stat => ExecutingJobs stat | None => 0 end.

(** Every record of the table has its ring buffers, so that adding a latency
    does not panic. *)
Definition rings (j : JobStats) : Prop :=
  ring 20 (Rolling.average (succeededJobsMinMax j)) /\
  ring 20 (Rolling.average (failedJobsMinMax j)) /\
  ring 20 (Rolling.average (pausedJobsMinMax j)).
Definition well_formed (r : JobStatsRegistry) : Prop := map_Forall (fun _ => rings) (statsByJobType r).

Lemma last_event_snoc f evs e :
  last_event f (evs ++ [e]) = if f (snd e) then Some e else last_event f evs.
Proof.
  unfold last_event. rewrite List.filter_app. cbn. destruct (f (snd e)).
  - apply last_snoc.
  - by rewrite app_nil_r.
Qed.

Lemma executing_in_snoc evs k req key :
  executing_in (evs ++ [(k, req)]) key =
  executing_in evs key + (if key_of req == key then event_delta k else 0).
Proof. unfold executing_in. rewrite map_app, sum_app. f_equal. apply Z.add_0_r. Qed.

Lemma replay_app evs1 evs2 r :
  replay (evs1 ++ evs2) r =
  match replay evs1 r with Return r' => replay evs2 r' | Error x => Error x | Panic => Panic end.
Proof. revert r. induction evs1 as [|e evs IH]; intros r; cbn; [done|]. destruct (apply_event e r); eauto. Qed.

(** *** The parts of the operations *)

Lemma pending_at_add req r key id :
  pending_at (add_pending req r) key id = if same_job key id req then Some req else pending_at r key id.
Proof.
  unfold pending_at, add_pending, same_job; cbn. destruct (String.eqb_spec (key_of req) key) as [->|Hk]; cbn.
  - rewrite lookup_insert_eq. cbn. destruct (String.eqb_spec (s_ID req) id) as [->|Hi].
    + by rewrite lookup_insert_eq.
    + by rewrite lookup_insert_ne.
  - by rewrite lookup_insert_ne.
Qed.

Lemma pending_at_remove req r key id :
  pending_at (removePendingJob req r) key id = if same_job key id req then None else pending_at r key id.
Proof.
  unfold pending_at, removePendingJob, same_job.
  destruct (pendingJobsByType r !! key_of req) as [m|] eqn:Em; cbn;
    destruct (String.eqb_spec (key_of req) key) as [<-|Hk]; cbn.
  - rewrite lookup_insert_eq, Em. cbn. destruct (String.eqb_spec (s_ID req) id) as [->|Hi].
    + by rewrite lookup_delete_eq.
    + by rewrite lookup_delete_ne.
  - by rewrite lookup_insert_ne.
  - rewrite Em. cbn. rewrite lookup_empty. by destruct (s_ID req == id).
  - done.
Qed.

Lemma members_insert owner X m o :
  members (<[owner := X]> m) o = if decide (owner = o) then X else members m o.
Proof.
  unfold members. case_decide as Ho.
  - subst. by rewrite lookup_insert_eq.
  - by rewrite lookup_insert_ne.
Qed.

Lemma elem_of_add_member owner id m o i :
  i ∈ members (add_member owner id m) o <->
  (owner = o /\ owner <> "" /\ i = id) \/ i ∈ members m o.
Proof.
  unfold add_member. destruct (String.eqb_spec owner "") as [->|Hne]; cbn [negb]; [naive_solver|].
  rewrite members_insert. case_decide; set_solver.
Qed.

Lemma elem_of_drop_member owner id m o i :
  i ∈ members (drop_member owner id m) o <->
  i ∈ members m o /\ ~ (owner = o /\ owner <> "" /\ i = id).
Proof.
  unfold drop_member. destruct (String.eqb_spec owner "") as [->|Hne]; cbn [negb andb]; [naive_solver|].
  destruct (Nat.ltb_spec 0 (size (members m owner))) as [Hs|Hs].
  - rewrite members_insert. case_decide; set_solver.
  - split; [|tauto]. intros Hi. split; [done|]. intros (-> & _ & ->).
    assert (size (members m o) = 0)%nat as H0 by lia. apply size_empty_inv in H0. set_solver.
Qed.

Lemma executing_change f key r k :
  executing_at (change_stat f key r) k =
  if GetUserJobTypeKey key == k then ExecutingJobs (f (createOrFindStat r key)) else executing_at r k.
Proof.
  unfold executing_at, change_stat, set_stat; cbn.
  destruct (String.eqb_spec (GetUserJobTypeKey key) k) as [->|Hk].
  - by rewrite lookup_insert_eq.
  - by rewrite lookup_insert_ne.
Qed.

Lemma executing_found r key : ExecutingJobs (createOrFindStat r key) = executing_at r (GetUserJobTypeKey key).
Proof. unfold createOrFindStat, executing_at. by destruct (statsByJobType r !! _). Qed.

Lemma rings_found r key : well_formed r -> rings (createOrFindStat r key).
Proof.
  intros Hw. unfold createOrFindStat. destruct (statsByJobType r !! _) as [j|] eqn:E; [by eapply Hw|].
  repeat split; apply ring_new; lia.
Qed.

Lemma AddMinMax_ring m x :
  ring 20 (Rolling.average m) ->
  exists m', Rolling.AddMinMax m x = Return m' /\ ring 20 (Rolling.average m').
Proof.
  intros HR. unfold Rolling.AddMinMax. destruct (Z.leb_spec x 0).
  - unfold Rolling.Add. destruct (Z.leb_spec x 0); [|lia]. by eexists.
  - destruct (ring_Add 20 _ x HR) as (a & -> & Ha & _); [lia|]. by eexists.
Qed.

(** *** The effect of an event *)

Definition is_pending (k : kind) : bool := match k with KPending _ => true | _ => false end.
Definition is_start (k : kind) : bool := match k with KStarted _ => true | _ => false end.
Definition move_member (k : kind) (owner id : string) (m : gmap string (gset string)) : gmap string (gset string) :=
  if is_start k then add_member owner id m else drop_member owner id m.

Record effect (k : kind) (req : Summary) (r r' : JobStatsRegistry) : Prop := {
  eff_pending key id : pending_at r' key id =
    if same_job key id req then (if is_pending k then Some req else None) else pending_at r key id;
  eff_user : countByUser r' = move_member k (user_of req) (s_ID req) (countByUser r);
  eff_org : countByOrg r' = move_member k (org_of req) (s_ID req) (countByOrg r);
  eff_executing key : executing_at r' key =
    if key_of req == key
    then (if decide (event_delta k = 0) then executing_at r key else wrap32 (executing_at r key + event_delta k))
    else executing_at r key;
  eff_wf : well_formed r'
}.

Lemma well_formed_set r key j : well_formed r -> rings j -> well_formed (set_stat r key j).
Proof. intros Hw Hj. apply map_Forall_insert_2; [exact Hj|exact Hw]. Qed.

Lemma executing_set r key j k :
  executing_at (set_stat r key j) k =
  if GetUserJobTypeKey key == k then ExecutingJobs j else executing_at r k.
Proof. apply (executing_change (fun _ => j) key r k). Qed.

(** The projections a part of an operation leaves alone. *)
Lemma executing_removePending req r k : executing_at (removePendingJob req r) k = executing_at r k.
Proof. unfold removePendingJob. by destruct (pendingJobsByType r !! _). Qed.
Lemma wf_removePending req r : well_formed r -> well_formed (removePendingJob req r).
Proof. unfold removePendingJob. by destruct (pendingJobsByType r !! _). Qed.
Lemma users_removePending req r : countByUser (removePendingJob req r) = countByUser r.
Proof. unfold removePendingJob. by destruct (pendingJobsByType r !! _). Qed.
Lemma orgs_removePending req r : countByOrg (removePendingJob req r) = countByOrg r.
Proof. unfold removePendingJob. by destruct (pendingJobsByType r !! _). Qed.

(** An operation that replaces the record of the job's type by [j] and takes the
    job out of the pending ones. *)
Lemma effect_not_pending k req r j r' :
  well_formed r -> rings j -> is_pending k = false ->
  ExecutingJobs j = wrap32 (executing_at r (key_of req) + event_delta k) ->
  statsByJobType r' = statsByJobType (removePendingJob req (set_stat r (s_key req) j)) ->
  pendingJobsByType r' = pendingJobsByType (removePendingJob req (set_stat r (s_key req) j)) ->
  countByUser r' = move_member k (user_of req) (s_ID req) (countByUser r) ->
  countByOrg r' = move_member k (org_of req) (s_ID req) (countByOrg r) ->
  effect k req r r'.
Proof.
  intros Hw Hj Hk He Hs Hp Hu Ho. split; [| done | done | |].
  - intros key id. unfold pending_at at 1. rewrite Hp.
    fold (pending_at (removePendingJob req (set_stat r (s_key req) j)) key id).
    rewrite pending_at_remove, Hk. done.
  - intros key. unfold executing_at at 1. rewrite Hs.
    fold (executing_at (removePendingJob req (set_stat r (s_key req) j)) key).
    rewrite executing_removePending, executing_set. fold (key_of req).
    destruct (String.eqb_spec (key_of req) key) as [<-|]; [|done].
    rewrite He. case_decide as Hd; [|done]. by destruct k as [[]| | | | |].
  - unfold well_formed. rewrite Hs. apply wf_removePending. by apply well_formed_set.
Qed.

Lemma ended_effect k f req r :
  well_formed r -> is_pending k = false -> is_start k = false ->
  (forall j, rings j -> exists j', f j = Return j' /\ rings j' /\
     ExecutingJobs j' = wrap32 (ExecutingJobs j + event_delta k)) ->
  exists r', ended f req r = Return r' /\ effect k req r r'.
Proof.
  intros Hw Hp Hs Hf. destruct (Hf _ (rings_found r (s_key req) Hw)) as (j & Ej & Hj & He).
  unfold ended. rewrite Ej. eexists; split; [done|].
  eapply (effect_not_pending k req r j); try done.
  - by rewrite He, executing_found.
  - unfold move_member. rewrite Hs. cbn. by rewrite users_removePending.
  - unfold move_member. rewrite Hs. cbn. by rewrite orgs_removePending.
Qed.

Lemma apply_event_effect k req r :
  well_formed r -> exists r', apply_event (k, req) r = Return r' /\ effect k req r r'.
Proof.
  intros Hw. pose proof (rings_found r (s_key req) Hw) as Hr. destruct k as [rev|now| |lat|lat|lat]; cbn.
  - eexists; split; [done|]. unfold Pending. split.
    + intros key id. assert (pending_at (decrUserOrgCount req (add_pending req r)) key id =
        if same_job key id req then Some req else pending_at r key id) as HP by apply pending_at_add.
      by destruct rev.
    + by destruct rev.
    + by destruct rev.
    + intros key. destruct rev; cbn [event_delta].
      * rewrite executing_change. fold (key_of req). destruct (String.eqb_spec (key_of req) key) as [<-|]; [|done].
        cbn. by rewrite executing_found.
      * rewrite decide_True by done. by destruct (key_of req == key).
    + destruct rev; [|done]. apply well_formed_set; [done|].
      by apply (rings_found (decrUserOrgCount req (add_pending req r)) (s_key req)).
  - eexists; split; [done|]. eapply (effect_not_pending (KStarted now)); [done| |done| |reflexivity..| |]; [done| | |].
    + cbn. by rewrite executing_found.
    + cbn. by rewrite users_removePending.
    + cbn. by rewrite orgs_removePending.
  - eexists; split; [done|]. eapply (effect_not_pending KCancelled); [done| |done| |reflexivity..| |]; [done| | |].
    + cbn. by rewrite executing_found.
    + cbn. by rewrite users_removePending.
    + cbn. by rewrite orgs_removePending.
  - apply ended_effect; [done..|]. intros j (H1 & H2 & H3). unfold JobStats.Succeeded.
    destruct (AddMinMax_ring _ lat H1) as (m & -> & Hm). by eexists.
  - apply ended_effect; [done..|]. intros j (H1 & H2 & H3). unfold JobStats.Failed.
    destruct (AddMinMax_ring _ lat H2) as (m & -> & Hm). by eexists.
  - apply ended_effect; [done..|]. intros j (H1 & H2 & H3). unfold JobStats.Paused.
    destruct (AddMinMax_ring _ lat H3) as (m & -> & Hm). by eexists.
Qed.

Record follows (evs : list event) (r : JobStatsRegistry) : Prop := {
  fol_pending key id : pending_at r key id = pending_in evs key id;
  fol_user owner id : id ∈ members (countByUser r) owner <-> running_in user_of evs owner id = true;
  fol_org owner id : id ∈ members (countByOrg r) owner <-> running_in org_of evs owner id = true;
  fol_executing key : executing_at r key = wrap32 (executing_in evs key)
}.

Lemma wrap32_add_l a b : wrap32 (wrap32 a + b) = wrap32 (a + b).
Proof.
  unfold wrap32. f_equal.
  replace ((a + 2 ^ 31) mod 2 ^ 32 - 2 ^ 31 + b + 2 ^ 31) with ((a + 2 ^ 31) mod 2 ^ 32 + b) by lia.
  rewrite Zplus_mod_idemp_l. f_equal. lia.
Qed.

Lemma pending_in_snoc evs k req key id :
  pending_in (evs ++ [(k, req)]) key id =
  if same_job key id req then (if is_pending k then Some req else None) else pending_in evs key id.
Proof. unfold pending_in. rewrite last_event_snoc. cbn. by destruct (same_job key id req), k. Qed.

(** The running jobs of one kind of owner after one more event. *)
Lemma running_step owner_of evs k req m o i :
  (i ∈ members m o <-> running_in owner_of evs o i = true) ->
  i ∈ members (move_member k (owner_of req) (s_ID req) m) o <->
  running_in owner_of (evs ++ [(k, req)]) o i = true.
Proof.
  intros H. unfold running_in in *. rewrite last_event_snoc. cbn [snd].
  assert (same_owner owner_of o i req = bool_decide (owner_of req = o /\ s_ID req = i)) as ->.
  { unfold same_owner. destruct (String.eqb_spec (owner_of req) o), (String.eqb_spec (s_ID req) i);
      cbn; symmetry; rewrite ?bool_decide_eq_true, ?bool_decide_eq_false; naive_solver. }
  unfold move_member. destruct (String.eqb_spec o "") as [->|Ho]; cbn [negb andb] in *.
  - destruct k; cbn [is_start]; rewrite ?elem_of_add_member, ?elem_of_drop_member; naive_solver.
  - destruct k; cbn [is_start]; rewrite ?elem_of_add_member, ?elem_of_drop_member; case_bool_decide; naive_solver.
Qed.

(** C29: from the empty registry every sequence of events is counted without a
    panic, and the registry is determined by the history: a job is pending with
    the last summary given for it exactly when its last event made it pending; it
    is among the running jobs of its user and of its organization exactly when
    its last event is its start; and the number of running jobs of a type is the
    number of starts less the number of cancellations, ends, pauses and reverts,
    as a 32-bit number. *)
Theorem registry_follows_history (evs : list event) :
  exists r, replay evs newRegistry = Return r /\ follows evs r.
Proof.
  assert (exists r, replay evs newRegistry = Return r /\ well_formed r /\ follows evs r) as (r & ? & _ & ?);
    [|eauto].
  induction evs as [|[k req] evs IH] using rev_ind.
  { exists newRegistry. split; [done|]. split; [apply map_Forall_empty|]. split; cbn.
    - done.
    - intros o i. unfold running_in. cbn. rewrite andb_false_r. split; [|done]. unfold members. cbn. set_solver.
    - intros o i. unfold running_in. cbn. rewrite andb_false_r. split; [|done]. unfold members. cbn. set_solver.
    - done. }
  destruct IH as (r & Hr & Hw & [Hp Hu Ho He]). destruct (apply_event_effect k req r Hw) as (r' & Hr' & [Ep Eu Eo Ee Ew]).
  exists r'. rewrite replay_app, Hr. cbn [replay]. rewrite Hr'. split; [done|]. split; [done|]. split.
  - intros key id. by rewrite Ep, pending_in_snoc, Hp.
  - intros o i. rewrite Eu. apply running_step. apply Hu.
  - intros o i. rewrite Eo. apply running_step. apply Ho.
  - intros key. rewrite Ee, executing_in_snoc, He. destruct (String.eqb_spec (key_of req) key); [|by rewrite Z.add_0_r].
    case_decide as Hd; [by rewrite Hd, Z.add_0_r|]. apply wrap32_add_l.
Qed.

(** Cancelling a job that is still pending takes one off the counter of running
    jobs, which was not raised for it: the counter becomes negative. *)
Definition demo_key : UserJobTypeKey := mkUserJobTypeKey "build" "1.0" "org" "user".
Definition demo_job : Summary := mkSummary "r1" demo_key State.PENDING 1 0 0.

Lemma cancelled_pending_goes_negative :
  match replay [(KPending false, demo_job); (KCancelled, demo_job)] newRegistry with
  | Return r => GetExecutionCount r demo_key = -1
  | _ => False
  end.
Proof. reflexivity. Qed.

(** ** The queue of pending jobs *)

Lemma queue_before_asym a b : queue_before a b = true -> queue_before b a = false.
Proof.
  unfold queue_before. rewrite (Z.eqb_sym (s_JobPriority b)).
  destruct (s_JobPriority a =? s_JobPriority b); go_bool; lia.
Qed.

Lemma queue_trans a b c :
  not_after queue_before a b -> not_after queue_before b c -> not_after queue_before a c.
Proof.
  unfold not_after, queue_before.
  destruct (Z.eqb_spec (s_JobPriority b) (s_JobPriority a)), (Z.eqb_spec (s_JobPriority c) (s_JobPriority b)),
    (Z.eqb_spec (s_JobPriority c) (s_JobPriority a)); go_bool; lia.
Qed.

(** The order of the queue in terms of priorities and ages. *)
Lemma queue_before_spec a b :
  queue_before a b = false <-> ~ sooner (s_JobPriority a) (s_CreatedAt a) (s_JobPriority b) (s_CreatedAt b).
Proof. unfold queue_before, sooner. destruct (Z.eqb_spec (s_JobPriority a) (s_JobPriority b)); go_bool; lia. Qed.

(** The queue behind a wait estimate holds exactly the pending jobs of the
    type that are due within a minute, each once, and is in scheduling order: a
    job is never listed after one of lower priority, nor after a younger one of
    the same priority. *)
Theorem wait_queue_in_order `{RangeOrder} (r : JobStatsRegistry) (now : Z) (key : UserJobTypeKey) :
  StronglySorted (fun a b => ~ sooner (s_JobPriority b) (s_CreatedAt b) (s_JobPriority a) (s_CreatedAt a))
    (queued r now key) /\
  List.length (queued r now key) =
    List.length (List.filter (fun job => negb (now + 60000000000 <? s_ScheduledAt job))
      (map snd (map_to_list (default ∅ (pendingJobsByType r !! GetUserJobTypeKey key))))) /\
  forall job, job ∈ queued r now key <->
    s_ScheduledAt job <= now + 60000000000 /\
    exists id, pending_at r (GetUserJobTypeKey key) id = Some job.
Proof.
  unfold queued, pending_at. set (pj := default ∅ (pendingJobsByType r !! GetUserJobTypeKey key)).
  split; [|split].
  - eapply StronglySorted_weaken; [|apply sort_slice_ordered; [apply queue_before_asym|apply queue_trans]].
    intros a b. apply queue_before_spec.
  - rewrite sort_slice_perm. apply Permutation_length, filter_perm, Permutation_map, range_perm.
  - intros job. rewrite sort_slice_perm, list_elem_of_In, List.filter_In, <- list_elem_of_In, list_elem_of_fmap.
    rewrite negb_true_iff, Z.ltb_ge. split.
    + intros [([id s] & -> & Hs) Ht]. split; [done|]. exists id. by apply elem_of_range.
    + intros [Ht (id & Hid)]. split; [|done]. exists (id, job). split; [done|]. by apply elem_of_range.
Qed.

End RegistrySpec.
