(* ===== verification/Tables.v ===== *)
(** * Tables: the rows of the job store and the statements on them

    The tables of [src/migrations] that requests and executions live in, with
    the columns that the code under [src/queen/repository] reads or writes, and a
    small monad for the SQL statements of a repository call.

    A table is a list of rows in the order the database happens to keep them.  A
    column that can be NULL is an option; reading NULL into a Go string gives the
    empty string ([text]).  The tables whose rows only matter through the row
    they belong to (parameters, contexts, artifacts, logs, approvals) keep their
    identifier, their owner, their name, kind and value.  Times are nanoseconds. *)

From S2P Require Import Prelude RequestState Acl Approval.

Open Scope Z_scope.

(** ** Rows *)
Module Rows.

(** A row of [formicary_job_requests]. *)
Record RequestRow := mkRequestRow {
  r_ID : string;
  r_ParentID : string;
  r_UserKey : string;
  r_JobDefinitionID : string;
  r_JobExecutionID : option string;
  r_LastJobExecutionID : option string;
  r_OrganizationID : string;
  r_UserID : string;
  r_JobType : string;
  r_JobVersion : string;
  r_JobState : RequestState;
  r_JobPriority : Z;
  r_ScheduleAttempts : Z;
  r_Retried : Z;
  r_PausedCount : Z;
  r_CronTriggered : bool;
  r_ErrorCode : option string;
  r_ErrorMessage : option string;
  r_CurrentTask : string;
  r_ScheduledAt : Z;
  r_CreatedAt : Z;
  r_UpdatedAt : Z;
  r_HardRestart : bool;
  r_CascadeCancel : bool
}.

Definition set_r_ID (x : string) (r : RequestRow) : RequestRow :=
  mkRequestRow x (r_ParentID r) (r_UserKey r) (r_JobDefinitionID r) (r_JobExecutionID r)
    (r_LastJobExecutionID r) (r_OrganizationID r) (r_UserID r) (r_JobType r) (r_JobVersion r)
    (r_JobState r) (r_JobPriority r) (r_ScheduleAttempts r) (r_Retried r) (r_PausedCount r)
    (r_CronTriggered r) (r_ErrorCode r) (r_ErrorMessage r) (r_CurrentTask r) (r_ScheduledAt r)
    (r_CreatedAt r) (r_UpdatedAt r) (r_HardRestart r) (r_CascadeCancel r).
Definition set_r_ParentID (x : string) (r : RequestRow) : RequestRow :=
  mkRequestRow (r_ID r) x (r_UserKey r) (r_JobDefinitionID r) (r_JobExecutionID r)
    (r_LastJobExecutionID r) (r_OrganizationID r) (r_UserID r) (r_JobType r) (r_JobVersion r)
    (r_JobState r) (r_JobPriority r) (r_ScheduleAttempts r) (r_Retried r) (r_PausedCount r)
    (r_CronTriggered r) (r_ErrorCode r) (r_ErrorMessage r) (r_CurrentTask r) (r_ScheduledAt r)
    (r_CreatedAt r) (r_UpdatedAt r) (r_HardRestart r) (r_CascadeCancel r).
Definition set_r_UserKey (x : string) (r : RequestRow) : RequestRow :=
  mkRequestRow (r_ID r) (r_ParentID r) x (r_JobDefinitionID r) (r_JobExecutionID r)
    (r_LastJobExecutionID r) (r_OrganizationID r) (r_UserID r) (r_JobType r) (r_JobVersion r)
    (r_JobState r) (r_JobPriority r) (r_ScheduleAttempts r) (r_Retried r) (r_PausedCount r)
    (r_CronTriggered r) (r_ErrorCode r) (r_ErrorMessage r) (r_CurrentTask r) (r_ScheduledAt r)
    (r_CreatedAt r) (r_UpdatedAt r) (r_HardRestart r) (r_CascadeCancel r).
Definition set_r_JobDefinitionID (x : string) (r : RequestRow) : RequestRow :=
  mkRequestRow (r_ID r) (r_ParentID r) (r_UserKey r) x (r_JobExecutionID r)
    (r_LastJobExecutionID r) (r_OrganizationID r) (r_UserID r) (r_JobType r) (r_JobVersion r)
    (r_JobState r) (r_JobPriority r) (r_ScheduleAttempts r) (r_Retried r) (r_PausedCount r)
    (r_CronTriggered r) (r_ErrorCode r) (r_ErrorMessage r) (r_CurrentTask r) (r_ScheduledAt r)
    (r_CreatedAt r) (r_UpdatedAt r) (r_HardRestart r) (r_CascadeCancel r).
Definition set_r_JobExecutionID (x : option string) (r : RequestRow) : RequestRow :=
  mkRequestRow (r_ID r) (r_ParentID r) (r_UserKey r) (r_JobDefinitionID r) x
    (r_LastJobExecutionID r) (r_OrganizationID r) (r_UserID r) (r_JobType r) (r_JobVersion r)
    (r_JobState r) (r_JobPriority r) (r_ScheduleAttempts r) (r_Retried r) (r_PausedCount r)
    (r_CronTriggered r) (r_ErrorCode r) (r_ErrorMessage r) (r_CurrentTask r) (r_ScheduledAt r)
    (r_CreatedAt r) (r_UpdatedAt r) (r_HardRestart r) (r_CascadeCancel r).
Definition set_r_LastJobExecutionID (x : option string) (r : RequestRow) : RequestRow :=
  mkRequestRow (r_ID r) (r_ParentID r) (r_UserKey r) (r_JobDefinitionID r) (r_JobExecutionID r)
    x (r_OrganizationID r) (r_UserID r) (r_JobType r) (r_JobVersion r) (r_JobState r)
    (r_JobPriority r) (r_ScheduleAttempts r) (r_Retried r) (r_PausedCount r) (r_CronTriggered r)
    (r_ErrorCode r) (r_ErrorMessage r) (r_CurrentTask r) (r_ScheduledAt r) (r_CreatedAt r)
    (r_UpdatedAt r) (r_HardRestart r) (r_CascadeCancel r).
Definition set_r_OrganizationID (x : string) (r : RequestRow) : RequestRow :=
  mkRequestRow (r_ID r) (r_ParentID r) (r_UserKey r) (r_JobDefinitionID r) (r_JobExecutionID r)
    (r_LastJobExecutionID r) x (r_UserID r) (r_JobType r) (r_JobVersion r) (r_JobState r)
    (r_JobPriority r) (r_ScheduleAttempts r) (r_Retried r) (r_PausedCount r) (r_CronTriggered r)
    (r_ErrorCode r) (r_ErrorMessage r) (r_CurrentTask r) (r_ScheduledAt r) (r_CreatedAt r)
    (r_UpdatedAt r) (r_HardRestart r) (r_CascadeCancel r).
Definition set_r_UserID (x : string) (r : RequestRow) : RequestRow :=
  mkRequestRow (r_ID r) (r_ParentID r) (r_UserKey r) (r_JobDefinitionID r) (r_JobExecutionID r)
    (r_LastJobExecutionID r) (r_OrganizationID r) x (r_JobType r) (r_JobVersion r) (r_JobState
    r) (r_JobPriority r) (r_ScheduleAttempts r) (r_Retried r) (r_PausedCount r) (r_CronTriggered
    r) (r_ErrorCode r) (r_ErrorMessage r) (r_CurrentTask r) (r_ScheduledAt r) (r_CreatedAt r)
    (r_UpdatedAt r) (r_HardRestart r) (r_CascadeCancel r).
Definition set_r_JobState (x : RequestState) (r : RequestRow) : RequestRow :=
  mkRequestRow (r_ID r) (r_ParentID r) (r_UserKey r) (r_JobDefinitionID r) (r_JobExecutionID r)
    (r_LastJobExecutionID r) (r_OrganizationID r) (r_UserID r) (r_JobType r) (r_JobVersion r) x
    (r_JobPriority r) (r_ScheduleAttempts r) (r_Retried r) (r_PausedCount r) (r_CronTriggered r)
    (r_ErrorCode r) (r_ErrorMessage r) (r_CurrentTask r) (r_ScheduledAt r) (r_CreatedAt r)
    (r_UpdatedAt r) (r_HardRestart r) (r_CascadeCancel r).
Definition set_r_JobPriority (x : Z) (r : RequestRow) : RequestRow :=
  mkRequestRow (r_ID r) (r_ParentID r) (r_UserKey r) (r_JobDefinitionID r) (r_JobExecutionID r)
    (r_LastJobExecutionID r) (r_OrganizationID r) (r_UserID r) (r_JobType r) (r_JobVersion r)
    (r_JobState r) x (r_ScheduleAttempts r) (r_Retried r) (r_PausedCount r) (r_CronTriggered r)
    (r_ErrorCode r) (r_ErrorMessage r) (r_CurrentTask r) (r_ScheduledAt r) (r_CreatedAt r)
    (r_UpdatedAt r) (r_HardRestart r) (r_CascadeCancel r).
Definition set_r_ScheduleAttempts (x : Z) (r : RequestRow) : RequestRow :=
  mkRequestRow (r_ID r) (r_ParentID r) (r_UserKey r) (r_JobDefinitionID r) (r_JobExecutionID r)
    (r_LastJobExecutionID r) (r_OrganizationID r) (r_UserID r) (r_JobType r) (r_JobVersion r)
    (r_JobState r) (r_JobPriority r) x (r_Retried r) (r_PausedCount r) (r_CronTriggered r)
    (r_ErrorCode r) (r_ErrorMessage r) (r_CurrentTask r) (r_ScheduledAt r) (r_CreatedAt r)
    (r_UpdatedAt r) (r_HardRestart r) (r_CascadeCancel r).
Definition set_r_Retried (x : Z) (r : RequestRow) : RequestRow :=
  mkRequestRow (r_ID r) (r_ParentID r) (r_UserKey r) (r_JobDefinitionID r) (r_JobExecutionID r)
    (r_LastJobExecutionID r) (r_OrganizationID r) (r_UserID r) (r_JobType r) (r_JobVersion r)
    (r_JobState r) (r_JobPriority r) (r_ScheduleAttempts r) x (r_PausedCount r) (r_CronTriggered
    r) (r_ErrorCode r) (r_ErrorMessage r) (r_CurrentTask r) (r_ScheduledAt r) (r_CreatedAt r)
    (r_UpdatedAt r) (r_HardRestart r) (r_CascadeCancel r).
Definition set_r_PausedCount (x : Z) (r : RequestRow) : RequestRow :=
  mkRequestRow (r_ID r) (r_ParentID r) (r_UserKey r) (r_JobDefinitionID r) (r_JobExecutionID r)
    (r_LastJobExecutionID r) (r_OrganizationID r) (r_UserID r) (r_JobType r) (r_JobVersion r)
    (r_JobState r) (r_JobPriority r) (r_ScheduleAttempts r) (r_Retried r) x (r_CronTriggered r)
    (r_ErrorCode r) (r_ErrorMessage r) (r_CurrentTask r) (r_ScheduledAt r) (r_CreatedAt r)
    (r_UpdatedAt r) (r_HardRestart r) (r_CascadeCancel r).
Definition set_r_CronTriggered (x : bool) (r : RequestRow) : RequestRow :=
  mkRequestRow (r_ID r) (r_ParentID r) (r_UserKey r) (r_JobDefinitionID r) (r_JobExecutionID r)
    (r_LastJobExecutionID r) (r_OrganizationID r) (r_UserID r) (r_JobType r) (r_JobVersion r)
    (r_JobState r) (r_JobPriority r) (r_ScheduleAttempts r) (r_Retried r) (r_PausedCount r)
    x (r_ErrorCode r) (r_ErrorMessage r) (r_CurrentTask r) (r_ScheduledAt r)
    (r_CreatedAt r) (r_UpdatedAt r) (r_HardRestart r) (r_CascadeCancel r).
Definition set_r_ErrorCode (x : option string) (r : RequestRow) : RequestRow :=
  mkRequestRow (r_ID r) (r_ParentID r) (r_UserKey r) (r_JobDefinitionID r) (r_JobExecutionID r)
    (r_LastJobExecutionID r) (r_OrganizationID r) (r_UserID r) (r_JobType r) (r_JobVersion r)
    (r_JobState r) (r_JobPriority r) (r_ScheduleAttempts r) (r_Retried r) (r_PausedCount r)
    (r_CronTriggered r) x (r_ErrorMessage r) (r_CurrentTask r) (r_ScheduledAt r) (r_CreatedAt r)
    (r_UpdatedAt r) (r_HardRestart r) (r_CascadeCancel r).
Definition set_r_ErrorMessage (x : option string) (r : RequestRow) : RequestRow :=
  mkRequestRow (r_ID r) (r_ParentID r) (r_UserKey r) (r_JobDefinitionID r) (r_JobExecutionID r)
    (r_LastJobExecutionID r) (r_OrganizationID r) (r_UserID r) (r_JobType r) (r_JobVersion r)
    (r_JobState r) (r_JobPriority r) (r_ScheduleAttempts r) (r_Retried r) (r_PausedCount r)
    (r_CronTriggered r) (r_ErrorCode r) x (r_CurrentTask r) (r_ScheduledAt r) (r_CreatedAt r)
    (r_UpdatedAt r) (r_HardRestart r) (r_CascadeCancel r).
Definition set_r_CurrentTask (x : string) (r : RequestRow) : RequestRow :=
  mkRequestRow (r_ID r) (r_ParentID r) (r_UserKey r) (r_JobDefinitionID r) (r_JobExecutionID r)
    (r_LastJobExecutionID r) (r_OrganizationID r) (r_UserID r) (r_JobType r) (r_JobVersion r)
    (r_JobState r) (r_JobPriority r) (r_ScheduleAttempts r) (r_Retried r) (r_PausedCount r)
    (r_CronTriggered r) (r_ErrorCode r) (r_ErrorMessage r) x (r_ScheduledAt r) (r_CreatedAt r)
    (r_UpdatedAt r) (r_HardRestart r) (r_CascadeCancel r).
Definition set_r_ScheduledAt (x : Z) (r : RequestRow) : RequestRow :=
  mkRequestRow (r_ID r) (r_ParentID r) (r_UserKey r) (r_JobDefinitionID r) (r_JobExecutionID r)
    (r_LastJobExecutionID r) (r_OrganizationID r) (r_UserID r) (r_JobType r) (r_JobVersion r)
    (r_JobState r) (r_JobPriority r) (r_ScheduleAttempts r) (r_Retried r) (r_PausedCount r)
    (r_CronTriggered r) (r_ErrorCode r) (r_ErrorMessage r) (r_CurrentTask r) x (r_CreatedAt r)
    (r_UpdatedAt r) (r_HardRestart r) (r_CascadeCancel r).
Definition set_r_CreatedAt (x : Z) (r : RequestRow) : RequestRow :=
  mkRequestRow (r_ID r) (r_ParentID r) (r_UserKey r) (r_JobDefinitionID r) (r_JobExecutionID r)
    (r_LastJobExecutionID r) (r_OrganizationID r) (r_UserID r) (r_JobType r) (r_JobVersion r)
    (r_JobState r) (r_JobPriority r) (r_ScheduleAttempts r) (r_Retried r) (r_PausedCount r)
    (r_CronTriggered r) (r_ErrorCode r) (r_ErrorMessage r) (r_CurrentTask r) (r_ScheduledAt r) x
    (r_UpdatedAt r) (r_HardRestart r) (r_CascadeCancel r).
Definition set_r_UpdatedAt (x : Z) (r : RequestRow) : RequestRow :=
  mkRequestRow (r_ID r) (r_ParentID r) (r_UserKey r) (r_JobDefinitionID r) (r_JobExecutionID r)
    (r_LastJobExecutionID r) (r_OrganizationID r) (r_UserID r) (r_JobType r) (r_JobVersion r)
    (r_JobState r) (r_JobPriority r) (r_ScheduleAttempts r) (r_Retried r) (r_PausedCount r)
    (r_CronTriggered r) (r_ErrorCode r) (r_ErrorMessage r) (r_CurrentTask r) (r_ScheduledAt r)
    (r_CreatedAt r) x (r_HardRestart r) (r_CascadeCancel r).
Definition set_r_HardRestart (x : bool) (r : RequestRow) : RequestRow :=
  mkRequestRow (r_ID r) (r_ParentID r) (r_UserKey r) (r_JobDefinitionID r) (r_JobExecutionID r)
    (r_LastJobExecutionID r) (r_OrganizationID r) (r_UserID r) (r_JobType r) (r_JobVersion r)
    (r_JobState r) (r_JobPriority r) (r_ScheduleAttempts r) (r_Retried r) (r_PausedCount r)
    (r_CronTriggered r) (r_ErrorCode r) (r_ErrorMessage r) (r_CurrentTask r) (r_ScheduledAt r)
    (r_CreatedAt r) (r_UpdatedAt r) x (r_CascadeCancel r).

(** A row of [formicary_job_executions]. *)
Record ExecRow := mkExecRow {
  e_ID : string;
  e_JobRequestID : string;
  e_Active : bool;
  e_JobType : string;
  e_JobVersion : string;
  e_JobState : RequestState;
  e_CPUSecs : Z;
  e_UserID : string;
  e_OrganizationID : string;
  e_CurrentTask : string;
  e_ErrorCode : string;
  e_ErrorMessage : string;
  e_StartedAt : Z;
  e_EndedAt : option Z;
  e_UpdatedAt : Z
}.

Definition set_e_JobRequestID (x : string) (e : ExecRow) : ExecRow :=
  mkExecRow (e_ID e) x (e_Active e) (e_JobType e) (e_JobVersion e) (e_JobState e)
    (e_CPUSecs e) (e_UserID e) (e_OrganizationID e) (e_CurrentTask e) (e_ErrorCode e)
    (e_ErrorMessage e) (e_StartedAt e) (e_EndedAt e) (e_UpdatedAt e).
Definition set_e_ID (x : string) (e : ExecRow) : ExecRow :=
  mkExecRow x (e_JobRequestID e) (e_Active e) (e_JobType e) (e_JobVersion e) (e_JobState e)
    (e_CPUSecs e) (e_UserID e) (e_OrganizationID e) (e_CurrentTask e) (e_ErrorCode e)
    (e_ErrorMessage e) (e_StartedAt e) (e_EndedAt e) (e_UpdatedAt e).
Definition set_e_Active (x : bool) (e : ExecRow) : ExecRow :=
  mkExecRow (e_ID e) (e_JobRequestID e) x (e_JobType e) (e_JobVersion e) (e_JobState e)
    (e_CPUSecs e) (e_UserID e) (e_OrganizationID e) (e_CurrentTask e) (e_ErrorCode e)
    (e_ErrorMessage e) (e_StartedAt e) (e_EndedAt e) (e_UpdatedAt e).
Definition set_e_JobState (x : RequestState) (e : ExecRow) : ExecRow :=
  mkExecRow (e_ID e) (e_JobRequestID e) (e_Active e) (e_JobType e) (e_JobVersion e) x (e_CPUSecs
    e) (e_UserID e) (e_OrganizationID e) (e_CurrentTask e) (e_ErrorCode e) (e_ErrorMessage e)
    (e_StartedAt e) (e_EndedAt e) (e_UpdatedAt e).
Definition set_e_CPUSecs (x : Z) (e : ExecRow) : ExecRow :=
  mkExecRow (e_ID e) (e_JobRequestID e) (e_Active e) (e_JobType e) (e_JobVersion e) (e_JobState
    e) x (e_UserID e) (e_OrganizationID e) (e_CurrentTask e) (e_ErrorCode e) (e_ErrorMessage e)
    (e_StartedAt e) (e_EndedAt e) (e_UpdatedAt e).
Definition set_e_CurrentTask (x : string) (e : ExecRow) : ExecRow :=
  mkExecRow (e_ID e) (e_JobRequestID e) (e_Active e) (e_JobType e) (e_JobVersion e) (e_JobState
    e) (e_CPUSecs e) (e_UserID e) (e_OrganizationID e) x (e_ErrorCode e) (e_ErrorMessage e)
    (e_StartedAt e) (e_EndedAt e) (e_UpdatedAt e).
Definition set_e_ErrorCode (x : string) (e : ExecRow) : ExecRow :=
  mkExecRow (e_ID e) (e_JobRequestID e) (e_Active e) (e_JobType e) (e_JobVersion e) (e_JobState
    e) (e_CPUSecs e) (e_UserID e) (e_OrganizationID e) (e_CurrentTask e) x (e_ErrorMessage e)
    (e_StartedAt e) (e_EndedAt e) (e_UpdatedAt e).
Definition set_e_ErrorMessage (x : string) (e : ExecRow) : ExecRow :=
  mkExecRow (e_ID e) (e_JobRequestID e) (e_Active e) (e_JobType e) (e_JobVersion e) (e_JobState
    e) (e_CPUSecs e) (e_UserID e) (e_OrganizationID e) (e_CurrentTask e) (e_ErrorCode e) x
    (e_StartedAt e) (e_EndedAt e) (e_UpdatedAt e).
Definition set_e_EndedAt (x : option Z) (e : ExecRow) : ExecRow :=
  mkExecRow (e_ID e) (e_JobRequestID e) (e_Active e) (e_JobType e) (e_JobVersion e) (e_JobState
    e) (e_CPUSecs e) (e_UserID e) (e_OrganizationID e) (e_CurrentTask e) (e_ErrorCode e)
    (e_ErrorMessage e) (e_StartedAt e) x (e_UpdatedAt e).
Definition set_e_UpdatedAt (x : Z) (e : ExecRow) : ExecRow :=
  mkExecRow (e_ID e) (e_JobRequestID e) (e_Active e) (e_JobType e) (e_JobVersion e) (e_JobState
    e) (e_CPUSecs e) (e_UserID e) (e_OrganizationID e) (e_CurrentTask e) (e_ErrorCode e)
    (e_ErrorMessage e) (e_StartedAt e) (e_EndedAt e) x.

(** A row of [formicary_task_executions]. *)
Record TaskRow := mkTaskRow {
  t_ID : string;
  t_JobExecutionID : string;
  t_TaskType : string;
  t_Active : bool;
  t_TaskState : RequestState;
  t_TaskOrder : Z;
  t_CountServices : Z;
  t_StartedAt : Z;
  t_EndedAt : option Z;
  t_UpdatedAt : Z
}.

Definition set_t_ID (x : string) (t : TaskRow) : TaskRow :=
  mkTaskRow x (t_JobExecutionID t) (t_TaskType t) (t_Active t) (t_TaskState t) (t_TaskOrder t)
    (t_CountServices t) (t_StartedAt t) (t_EndedAt t) (t_UpdatedAt t).
Definition set_t_Active (x : bool) (t : TaskRow) : TaskRow :=
  mkTaskRow (t_ID t) (t_JobExecutionID t) (t_TaskType t) x (t_TaskState t) (t_TaskOrder t)
    (t_CountServices t) (t_StartedAt t) (t_EndedAt t) (t_UpdatedAt t).
Definition set_t_TaskState (x : RequestState) (t : TaskRow) : TaskRow :=
  mkTaskRow (t_ID t) (t_JobExecutionID t) (t_TaskType t) (t_Active t) x (t_TaskOrder t)
    (t_CountServices t) (t_StartedAt t) (t_EndedAt t) (t_UpdatedAt t).
Definition set_t_StartedAt (x : Z) (t : TaskRow) : TaskRow :=
  mkTaskRow (t_ID t) (t_JobExecutionID t) (t_TaskType t) (t_Active t) (t_TaskState t)
    (t_TaskOrder t) (t_CountServices t) x (t_EndedAt t) (t_UpdatedAt t).
Definition set_t_EndedAt (x : option Z) (t : TaskRow) : TaskRow :=
  mkTaskRow (t_ID t) (t_JobExecutionID t) (t_TaskType t) (t_Active t) (t_TaskState t)
    (t_TaskOrder t) (t_CountServices t) (t_StartedAt t) x (t_UpdatedAt t).
Definition set_t_UpdatedAt (x : Z) (t : TaskRow) : TaskRow :=
  mkTaskRow (t_ID t) (t_JobExecutionID t) (t_TaskType t) (t_Active t) (t_TaskState t)
    (t_TaskOrder t) (t_CountServices t) (t_StartedAt t) (t_EndedAt t) x.

(** A row of [formicary_job_definitions]; configs and variables as the text
    they are compared by, tasks by their type. *)
Record DefRow := mkDefRow {
  d_ID : string;
  d_JobType : string;
  d_SemVersion : string;
  d_PublicPlugin : bool;
  d_CronTrigger : string;
  d_Platform : string;
  d_Version : Z;
  d_MaxConcurrency : Z;
  d_Disabled : bool;
  d_Active : bool;
  d_UserID : string;
  d_OrganizationID : string;
  d_RawYaml : string;
  d_Configs : string;
  d_Variables : string;
  d_Tasks : list string
}.

Definition set_d_ID (x : string) (d : DefRow) : DefRow :=
  mkDefRow x (d_JobType d) (d_SemVersion d) (d_PublicPlugin d) (d_CronTrigger d) (d_Platform d) (d_Version d)
    (d_MaxConcurrency d) (d_Disabled d) (d_Active d) (d_UserID d) (d_OrganizationID d)
    (d_RawYaml d) (d_Configs d) (d_Variables d) (d_Tasks d).
Definition set_d_Version (x : Z) (d : DefRow) : DefRow :=
  mkDefRow (d_ID d) (d_JobType d) (d_SemVersion d) (d_PublicPlugin d) (d_CronTrigger d) (d_Platform d) x
    (d_MaxConcurrency d) (d_Disabled d) (d_Active d) (d_UserID d) (d_OrganizationID d)
    (d_RawYaml d) (d_Configs d) (d_Variables d) (d_Tasks d).
Definition set_d_MaxConcurrency (x : Z) (d : DefRow) : DefRow :=
  mkDefRow (d_ID d) (d_JobType d) (d_SemVersion d) (d_PublicPlugin d) (d_CronTrigger d) (d_Platform d)
    (d_Version d) x (d_Disabled d) (d_Active d) (d_UserID d) (d_OrganizationID d) (d_RawYaml d)
    (d_Configs d) (d_Variables d) (d_Tasks d).
Definition set_d_Disabled (x : bool) (d : DefRow) : DefRow :=
  mkDefRow (d_ID d) (d_JobType d) (d_SemVersion d) (d_PublicPlugin d) (d_CronTrigger d) (d_Platform d)
    (d_Version d) (d_MaxConcurrency d) x (d_Active d) (d_UserID d) (d_OrganizationID d)
    (d_RawYaml d) (d_Configs d) (d_Variables d) (d_Tasks d).
Definition set_d_Active (x : bool) (d : DefRow) : DefRow :=
  mkDefRow (d_ID d) (d_JobType d) (d_SemVersion d) (d_PublicPlugin d) (d_CronTrigger d) (d_Platform d)
    (d_Version d) (d_MaxConcurrency d) (d_Disabled d) x (d_UserID d) (d_OrganizationID d)
    (d_RawYaml d) (d_Configs d) (d_Variables d) (d_Tasks d).
Definition set_d_UserID (x : string) (d : DefRow) : DefRow :=
  mkDefRow (d_ID d) (d_JobType d) (d_SemVersion d) (d_PublicPlugin d) (d_CronTrigger d) (d_Platform d)
    (d_Version d) (d_MaxConcurrency d) (d_Disabled d) (d_Active d) x (d_OrganizationID d)
    (d_RawYaml d) (d_Configs d) (d_Variables d) (d_Tasks d).
Definition set_d_OrganizationID (x : string) (d : DefRow) : DefRow :=
  mkDefRow (d_ID d) (d_JobType d) (d_SemVersion d) (d_PublicPlugin d) (d_CronTrigger d) (d_Platform d)
    (d_Version d) (d_MaxConcurrency d) (d_Disabled d) (d_Active d) (d_UserID d) x (d_RawYaml d)
    (d_Configs d) (d_Variables d) (d_Tasks d).
Definition set_d_Configs (x : string) (d : DefRow) : DefRow :=
  mkDefRow (d_ID d) (d_JobType d) (d_SemVersion d) (d_PublicPlugin d) (d_CronTrigger d) (d_Platform d)
    (d_Version d) (d_MaxConcurrency d) (d_Disabled d) (d_Active d) (d_UserID d)
    (d_OrganizationID d) (d_RawYaml d) x (d_Variables d) (d_Tasks d).

(** A row that belongs to another row. *)
Record OwnedRow := mkOwnedRow {
  o_ID : string;
  o_Owner : string;
  o_Name : string;
  o_Kind : string;
  o_Value : string
}.

(** ** The tables *)
Record DB := mkDB {
  requests : list RequestRow;
  executions : list ExecRow;
  tasks : list TaskRow;
  definitions : list DefRow;
  params : list OwnedRow;
  exec_contexts : list OwnedRow;
  task_contexts : list OwnedRow;
  artifacts : list OwnedRow;
  log_events : list OwnedRow;
  resource_uses : list OwnedRow;
  approval_votes : list OwnedRow;
  approval_deadlines : list OwnedRow
}.

Definition set_requests (x : list RequestRow) (db : DB) : DB :=
  mkDB x (executions db) (tasks db) (definitions db) (params db) (exec_contexts db)
    (task_contexts db) (artifacts db) (log_events db) (resource_uses db) (approval_votes db)
    (approval_deadlines db).
Definition set_executions (x : list ExecRow) (db : DB) : DB :=
  mkDB (requests db) x (tasks db) (definitions db) (params db) (exec_contexts db) (task_contexts
    db) (artifacts db) (log_events db) (resource_uses db) (approval_votes db)
    (approval_deadlines db).
Definition set_tasks (x : list TaskRow) (db : DB) : DB :=
  mkDB (requests db) (executions db) x (definitions db) (params db) (exec_contexts db)
    (task_contexts db) (artifacts db) (log_events db) (resource_uses db) (approval_votes db)
    (approval_deadlines db).
Definition set_definitions (x : list DefRow) (db : DB) : DB :=
  mkDB (requests db) (executions db) (tasks db) x (params db) (exec_contexts db) (task_contexts
    db) (artifacts db) (log_events db) (resource_uses db) (approval_votes db)
    (approval_deadlines db).
Definition set_params (x : list OwnedRow) (db : DB) : DB :=
  mkDB (requests db) (executions db) (tasks db) (definitions db) x (exec_contexts db)
    (task_contexts db) (artifacts db) (log_events db) (resource_uses db) (approval_votes db)
    (approval_deadlines db).
Definition set_exec_contexts (x : list OwnedRow) (db : DB) : DB :=
  mkDB (requests db) (executions db) (tasks db) (definitions db) (params db) x (task_contexts
    db) (artifacts db) (log_events db) (resource_uses db) (approval_votes db)
    (approval_deadlines db).
Definition set_task_contexts (x : list OwnedRow) (db : DB) : DB :=
  mkDB (requests db) (executions db) (tasks db) (definitions db) (params db) (exec_contexts db)
    x (artifacts db) (log_events db) (resource_uses db) (approval_votes db) (approval_deadlines
    db).
Definition set_artifacts (x : list OwnedRow) (db : DB) : DB :=
  mkDB (requests db) (executions db) (tasks db) (definitions db) (params db) (exec_contexts db)
    (task_contexts db) x (log_events db) (resource_uses db) (approval_votes db)
    (approval_deadlines db).
Definition set_log_events (x : list OwnedRow) (db : DB) : DB :=
  mkDB (requests db) (executions db) (tasks db) (definitions db) (params db) (exec_contexts db)
    (task_contexts db) (artifacts db) x (resource_uses db) (approval_votes db)
    (approval_deadlines db).
Definition set_resource_uses (x : list OwnedRow) (db : DB) : DB :=
  mkDB (requests db) (executions db) (tasks db) (definitions db) (params db) (exec_contexts db)
    (task_contexts db) (artifacts db) (log_events db) x (approval_votes db) (approval_deadlines
    db).
Definition set_approval_votes (x : list OwnedRow) (db : DB) : DB :=
  mkDB (requests db) (executions db) (tasks db) (definitions db) (params db) (exec_contexts db)
    (task_contexts db) (artifacts db) (log_events db) (resource_uses db) x (approval_deadlines
    db).
Definition set_approval_deadlines (x : list OwnedRow) (db : DB) : DB :=
  mkDB (requests db) (executions db) (tasks db) (definitions db) (params db) (exec_contexts db)
    (task_contexts db) (artifacts db) (log_events db) (resource_uses db) (approval_votes db) x.

(** A nullable column read into a Go string. *)
Definition text (c : option string) : string := default "" c.

Definition request_column (r : RequestRow) (c : string) : string :=
  if c == "user_id" then r_UserID r else if c == "organization_id" then r_OrganizationID r else "".
Definition definition_column (d : DefRow) (c : string) : string :=
  if c == "user_id" then d_UserID d else if c == "organization_id" then d_OrganizationID d else "".
Definition exec_column (e : ExecRow) (c : string) : string :=
  if c == "user_id" then e_UserID e else if c == "organization_id" then e_OrganizationID e else "".

End Rows.

(** ** Sql: statements as functions on a table *)
Module Sql.

Definition update {A} (p : A -> bool) (f : A -> A) (t : list A) : list A :=
  map (fun x => if p x then f x else x) t.
Definition select {A} (p : A -> bool) (t : list A) : list A := List.filter p t.
Definition remove {A} (p : A -> bool) (t : list A) : list A := List.filter (fun x => negb (p x)) t.
Definition count {A} (p : A -> bool) (t : list A) : Z := Z.of_nat (List.length (List.filter p t)).
Definition one_of (x : string) (l : list string) : bool := existsb (String.eqb x) l.
(** Equality with a nullable column: NULL equals nothing. *)
Definition null_eq (c : option string) (x : string) : bool :=
  match c with Some y => y == x | None => false end.

End Sql.

(** ** Store: repository calls

    A call runs statements one after the other.  [err n] says whether the n-th
    statement (or commit) since the start fails; a statement that fails changes
    nothing.  [ulid n] is the n-th identifier made. *)
Module Store.
Import Rows.

Class Env := {
  now : Z;
  err : nat -> bool;
  (** Whether the failure of the n-th statement is a deadlock. *)
  deadlock : nat -> bool;
  ulid : nat -> string;
  (** What gorm's [Save] does when its update matches no row: some versions
      insert the row, replacing one with the same key. *)
  save_upserts : bool;
  (** Whether [NOT IN ?] selects a row when the list is empty, which depends on
      how gorm writes an empty list. *)
  not_in_empty : bool;
  (** The difference of two time stamps in the unit of the database. *)
  elapsed : Z -> Z -> Z
}.

Inductive error :=
| ValidationError
| NotFoundError
| PermissionError
| ConflictError
| TransitionError
| RefusedError
| DBError
| DeadlockError
(** A unique index refuses the row. *)
| UniqueError.

Record St := mkSt { db : DB; statements : nat; ulids : nat }.

Definition M (A : Type) : Type := St -> (A + error) * St.

Definition ret {A} (a : A) : M A := fun s => (inl a, s).
Definition throw {A} (e : error) : M A := fun s => (inr e, s).
Definition bind {A B} (m : M A) (k : A -> M B) : M B :=
  fun s => match m s with
           | (inl a, s') => k a s'
           | (inr e, s') => (inr e, s')
           end.
(** The error of [m], if any, is a value of the caller. *)
Definition try {A} (m : M A) : M (A + error) := fun s => let '(r, s') := m s in (inl r, s').

Declare Scope store_scope.
Notation "x <- m ;; k" := (bind m (fun x => k)) (at level 100, m at next level, right associativity) : store_scope.
Notation "m ;;; k" := (bind m (fun _ => k)) (at level 100, right associativity) : store_scope.
Open Scope store_scope.

Definition with_db (d : DB) (s : St) : St := mkSt d (statements s) (ulids s).

Section Statements.
Context `{Env}.

Definition ulid_Make : M string := fun s => (inl (ulid (ulids s)), mkSt (db s) (statements s) (S (ulids s))).

(** A failure that is passed on as it is can be recognized as a deadlock. *)
Definition failure (e : error) (n : nat) : error :=
  match e with DBError => if deadlock n then DeadlockError else DBError | _ => e end.

(** A statement: its failure is reported as [e]. *)
Definition exec {A} (e : error) (f : DB -> A * DB) : M A :=
  fun s =>
    if err (statements s) then (inr (failure e (statements s)), mkSt (db s) (S (statements s)) (ulids s))
    else let '(a, d) := f (db s) in (inl a, mkSt d (S (statements s)) (ulids s)).

Definition query {A} (e : error) (f : DB -> A) : M A := exec e (fun d => (f d, d)).

(** [UPDATE requests SET f WHERE p]: the number of rows affected. *)
Definition update_requests (p : RequestRow -> bool) (f : RequestRow -> RequestRow) (d : DB) : Z * DB :=
  (Sql.count p (requests d), set_requests (Sql.update p f (requests d)) d).
Definition update_executions (p : ExecRow -> bool) (f : ExecRow -> ExecRow) (d : DB) : Z * DB :=
  (Sql.count p (executions d), set_executions (Sql.update p f (executions d)) d).
Definition update_tasks (p : TaskRow -> bool) (f : TaskRow -> TaskRow) (d : DB) : Z * DB :=
  (Sql.count p (tasks d), set_tasks (Sql.update p f (tasks d)) d).

Definition update_definitions (p : DefRow -> bool) (f : DefRow -> DefRow) (d : DB) : Z * DB :=
  (Sql.count p (definitions d), set_definitions (Sql.update p f (definitions d)) d).

(** [db.Transaction]: an error of the body or of the commit undoes its changes. *)
Definition transaction {A} (m : M A) : M A :=
  fun s =>
    match m s with
    | (inl a, s') =>
        if err (statements s') then (inr (failure DBError (statements s')), mkSt (db s) (S (statements s')) (ulids s'))
        else (inl a, mkSt (db s') (S (statements s')) (ulids s'))
    | (inr e, s') => (inr e, with_db (db s) s')
    end.

(** [NOT IN ?] *)
Definition not_in (x : string) (l : list string) : bool :=
  match l with [] => not_in_empty | _ => negb (Sql.one_of x l) end.

(** The check on the number of rows that follows most updates. *)
Definition expect_one (n : Z) (e : error) : M unit := if n =? 1 then ret tt else throw e.

End Statements.

End Store.
