(* ===== verification/JobStore.v ===== *)
(** * JobStore: the repositories of requests and executions

    Models [src/queen/repository/job_request_repository_impl.go] and
    [job_execution_repository_impl.go]: the statements by which a request and
    its execution change state, with the conditions under which they do.

    A call reads the clock once.  Loading the parameters of a request, or the
    tasks and contexts of an execution, is part of the statement that loads the
    row.  The unique indexes on the key and on [user_key] are enforced on
    insertion; a violation of a foreign key is one of the ways a statement can
    fail ([err]).  Queries for reports and pages are left out. *)

From S2P Require Import Prelude RequestState Acl Approval Tables.
From Stdlib Require Import Ascii.

Open Scope Z_scope.

(** ** Requests: job_request_repository_impl.go *)
Module Requests.
Import Rows Store.
Open Scope store_scope.

Section Requests.
Context `{Env}.

Definition by_id (id : string) (r : RequestRow) : bool := r_ID r == id.
Definition in_scope (qc : Query.QueryContext) (readonly : bool) (r : RequestRow) : bool :=
  Query.AddOrgElseUserWhere qc readonly (request_column r).

(** The condition that the hand-written statements add for a caller who is not
    an administrator. *)
Definition tenant (qc : Query.QueryContext) (r : RequestRow) : bool :=
  if Query.IsAdmin qc then true
  else if Query.GetOrganizationID qc != "" then r_OrganizationID r == Query.GetOrganizationID qc
  else if Query.GetUserID qc != "" then r_UserID r == Query.GetUserID qc
  else true.

Definition first {A} (l : list A) : M A :=
  match l with x :: _ => ret x | [] => throw NotFoundError end.

Definition GetParams (id : string) : M (list OwnedRow) :=
  if id == "" then throw ValidationError
  else query DBError (fun d =>
    take 1000 (sort_slice (fun a b => String.ltb (o_Name a) (o_Name b))
                 (Sql.select (fun p => o_Owner p == id) (params d)))).

Definition Get (qc : Query.QueryContext) (id : string) : M RequestRow :=
  if id == "" then throw ValidationError
  else rows <- query NotFoundError (fun d => Sql.select (fun r => in_scope qc true r && by_id id r) (requests d)) ;;
       first rows.

Definition GetByUserKey (qc : Query.QueryContext) (userKey : string) : M RequestRow :=
  rows <- query NotFoundError (fun d =>
            Sql.select (fun r => in_scope qc true r && (r_UserKey r == userKey)) (requests d)) ;;
  first rows.

(** The columns [UpdateJobState] sets. *)
Definition state_updates (newState : RequestState) (errorMessage errorCode : string)
    (scheduleDelay retried pausedCount : Z) (key : string) (r : RequestRow) : RequestRow :=
  let r := set_r_UpdatedAt now (set_r_JobState newState r) in
  let r := if (errorMessage != "") || (newState == State.COMPLETED)
           then set_r_ErrorCode (Some errorCode) (set_r_ErrorMessage (Some errorMessage) r) else r in
  let r := if State.IsTerminal newState then set_r_UserKey key r else r in
  let r := if newState == State.EXECUTING then set_r_HardRestart false r else r in
  if (newState == State.PENDING) || (newState == State.PAUSED) then
    let r := if 0 <? scheduleDelay then set_r_ScheduledAt (now + scheduleDelay) r else r in
    let r := if 0 <? retried then set_r_Retried retried r else r in
    if 0 <? pausedCount then set_r_PausedCount pausedCount r else r
  else r.

Definition UpdateJobState (id : string) (oldState newState : RequestState)
    (errorMessage errorCode : string) (scheduleDelay retried pausedCount : Z) : M unit :=
  if (oldState != "") && negb (State.CanTransitionTo oldState newState) then throw TransitionError
  else
    key <- (if State.IsTerminal newState then ulid_Make else ret "") ;;
    n <- exec NotFoundError
           (update_requests (fun r => by_id id r && (if oldState != "" then r_JobState r == oldState else true))
              (state_updates newState errorMessage errorCode scheduleDelay retried pausedCount key)) ;;
    expect_one n NotFoundError.

Definition UpdateRunningTimestamp (id : string) : M unit :=
  n <- exec NotFoundError
         (update_requests (fun r => by_id id r && Sql.one_of (r_JobState r) State.RunningStates)
            (set_r_UpdatedAt now)) ;;
  expect_one n NotFoundError.

(** Whether a caller of an organization, or a user without one, owns the request. *)
Definition Editable (r : RequestRow) (userID organizationID : string) : bool :=
  if (r_OrganizationID r != "") || (organizationID != "") then r_OrganizationID r == organizationID
  else r_UserID r == userID.

(** Parameters without an identifier get one; all belong to the request. *)
Fixpoint own_params (owner : string) (ps : list OwnedRow) : M (list OwnedRow) :=
  match ps with
  | [] => ret []
  | p :: rest =>
      id <- (if o_ID p == "" then ulid_Make else ret (o_ID p)) ;;
      rest <- own_params owner rest ;;
      ret (mkOwnedRow id owner (o_Name p) (o_Kind p) (o_Value p) :: rest)
  end.

Definition clearOrphanJobParams (ps : list OwnedRow) (id : string) (d : DB) : DB :=
  set_params (Sql.remove (fun p => not_in (o_ID p) (map o_ID ps) && (o_Owner p == id)) (params d)) d.

(** The parameters saved with a request: those not in the table are inserted. *)
Definition add_owned (ps t : list OwnedRow) : list OwnedRow :=
  t ++ Sql.select (fun p => negb (Sql.one_of (o_ID p) (map o_ID t))) ps.

(** An insertion violates a unique index when the key or the user key is taken. *)
Definition taken (r : RequestRow) (t : list RequestRow) : bool :=
  existsb (fun x => (r_ID x == r_ID r) || (r_UserKey x == r_UserKey r)) t.

Definition insert_request (r : RequestRow) (ps : list OwnedRow) : M unit :=
  ok <- exec DBError (fun d =>
          if taken r (requests d) then (false, d)
          else (true, set_params (add_owned ps (params d)) (set_requests (requests d ++ [r]) d))) ;;
  if (ok : bool) then ret tt else throw UniqueError.

(** [Save] of an existing row writes all columns. *)
Definition replace_request (r : RequestRow) (ps : list OwnedRow) : M unit :=
  ok <- exec DBError (fun d =>
          if existsb (fun x => negb (by_id (r_ID r) x) && (r_UserKey x == r_UserKey r)) (requests d)
          then (false, d)
          else (true, set_params (add_owned ps (params d))
                        (set_requests (Sql.update (by_id (r_ID r)) (fun _ => r) (requests d)) d))) ;;
  if (ok : bool) then ret tt else throw UniqueError.

(** The row as it is to be written: a new request gets its identifier, an
    existing one is checked against the row it replaces. *)
Definition prepare (qc : Query.QueryContext) (req : RequestRow) (ps : list OwnedRow)
    : M (bool * RequestRow * list OwnedRow) :=
  let newReq := r_ID req == "" in
  req <- (if newReq then
            id <- ulid_Make ;;
            ret (set_r_JobState State.PENDING (set_r_UpdatedAt now (set_r_CreatedAt now (set_r_ID id req))))
          else
            old <- Get qc (r_ID req) ;;
            (if Editable old (Query.GetUserID qc) (Query.GetOrganizationID qc)
             then try (exec DBError (fun d => (tt, clearOrphanJobParams ps (r_ID req) d))) ;;;
                  ret (set_r_UpdatedAt now req)
             else throw PermissionError)) ;;
  req <- (if r_UserKey req == "" then key <- ulid_Make ;; ret (set_r_UserKey key req) else ret req) ;;
  ps <- own_params (r_ID req) ps ;;
  ret (newReq, req, ps).

(** The columns of the owner, from the caller. *)
Definition owned_by (qc : Query.QueryContext) (req : RequestRow) : RequestRow :=
  set_r_UserID (Query.GetUserID qc) (set_r_OrganizationID (Query.GetOrganizationID qc) req).

(** [valid] is the result of validating the request and its parameters. *)
Definition Save (qc : Query.QueryContext) (valid : bool) (req : RequestRow) (ps : list OwnedRow)
    : M (RequestRow * list OwnedRow) :=
  if negb valid then throw ValidationError
  else transaction (
    x <- prepare qc (owned_by qc req) ps ;;
    let '(newReq, req, ps) := x in
    (if (newReq : bool) then insert_request req ps else replace_request req ps) ;;;
    ret (req, ps)).

(** The caller's object is changed as the transaction runs, and stays changed
    when it fails. *)
Definition left_by_Save (qc : Query.QueryContext) (valid : bool) (req : RequestRow) (ps : list OwnedRow) (s : St)
    : RequestRow * list OwnedRow :=
  if negb valid then (req, ps)
  else match prepare qc (owned_by qc req) ps s with
       | (inl (_, req, ps), _) => (req, ps)
       | (inr _, _) => (owned_by qc req, ps)
       end.

Definition SetReadyToExecute (id jobExecutionID lastJobExecutionID : string) : M unit :=
  if id == "" then throw ValidationError
  else if jobExecutionID == "" then throw ValidationError
  else
    total <- query NotFoundError (fun d => Sql.count (fun e => e_ID e == jobExecutionID) (executions d)) ;;
    if total =? 0 then throw NotFoundError
    else
      n <- exec NotFoundError
             (update_requests (fun r => by_id id r && Sql.one_of (r_JobState r) [State.PENDING; State.PAUSED])
                (fun r => set_r_UpdatedAt now (set_r_LastJobExecutionID (Some lastJobExecutionID)
                   (set_r_JobExecutionID (Some jobExecutionID) (set_r_JobState State.READY r))))) ;;
      if n =? 1 then ret tt
      else Get (Query.NewQueryContext None) id ;;; throw NotFoundError.

Definition UpdatePriority (qc : Query.QueryContext) (id : string) (priority : Z) : M unit :=
  n <- exec NotFoundError
         (update_requests (fun r => in_scope qc false r && by_id id r)
            (fun r => set_r_UpdatedAt now (set_r_JobPriority priority r))) ;;
  expect_one n NotFoundError.

Definition not_terminal (s : RequestState) : bool := negb (Sql.one_of s State.TerminalStates).
Definition unix (t : Z) : Z := t / 1000000000.

(** [Cancel]: a request that cannot be loaded counts as cancelled. *)
Definition Cancel (qc : Query.QueryContext) (id : string) : M unit :=
  loaded <- try (Get qc id) ;;
  match loaded with
  | inr _ => ret tt
  | inl req =>
      if State.IsTerminal (r_JobState req) then throw ConflictError
      else transaction (
        n <- exec NotFoundError
               (update_requests (fun r => in_scope qc false r && by_id id r && not_terminal (r_JobState r))
                  (fun r => set_r_UpdatedAt now (set_r_ErrorMessage (Some "cancelled by job request")
                     (set_r_ErrorCode (Some ErrorCodes.ErrorJobCancelled) (set_r_JobState State.CANCELLED r))))) ;;
        expect_one n NotFoundError ;;;
        (if text (r_JobExecutionID req) != "" then
           exec NotFoundError
             (update_executions
                (fun e => Query.AddOrgElseUserWhere qc false (exec_column e)
                          && (e_ID e == text (r_JobExecutionID req)))
                (fun e => set_e_EndedAt (Some now) (set_e_CPUSecs (unix now - unix (r_ScheduledAt req))
                   (set_e_UpdatedAt now (set_e_ErrorCode ErrorCodes.ErrorJobCancelled
                      (set_e_ErrorMessage "job request cancelled" (set_e_JobState State.CANCELLED e))))))) ;;;
           ret tt
         else ret tt))
  end.

(** The live children of a request that are to be cancelled with it. *)
Definition active_child (parentID : string) (r : RequestRow) : bool :=
  (r_ParentID r == parentID) && r_CascadeCancel r && not_terminal (r_JobState r).
Definition FindActiveChildRequests (parentID : string) : M (list RequestRow) :=
  if parentID == "" then throw ValidationError
  else query DBError (fun d => Sql.select (active_child parentID) (requests d)).

(** The result of deleting the parameters is not looked at. *)
Definition Delete (qc : Query.QueryContext) (id : string) : M unit :=
  Get qc id ;;;
  transaction (
    try (exec DBError (fun d => (tt, set_params (Sql.remove (fun p => o_Owner p == id) (params d)) d))) ;;;
    exec DBError (fun d => (tt, set_requests (Sql.remove (by_id id) (requests d)) d))).

(** [DeletePendingCronByJobType]: both deletions go through the connection of the
    repository, not through the transaction around them, so that a failure of
    the second, or of the commit, does not undo the first. *)
Definition pending_cron (qc : Query.QueryContext) (jobType : string) (r : RequestRow) : bool :=
  (r_JobType r == jobType) && (r_JobState r == State.PENDING) && r_CronTriggered r && tenant qc r.
Definition DeletePendingCronByJobType (qc : Query.QueryContext) (jobType : string) : M unit :=
  ids <- query DBError (fun d => take 100 (map r_ID (Sql.select (pending_cron qc jobType) (requests d)))) ;;
  match ids with
  | [] => ret tt
  | _ =>
      exec NotFoundError (fun d => (tt, set_params (Sql.remove (fun p => Sql.one_of (o_Owner p) ids) (params d)) d)) ;;;
      exec NotFoundError (fun d => (tt, set_requests
        (Sql.remove (fun r => Sql.one_of (r_ID r) ids && (r_JobState r == State.PENDING)) (requests d)) d)) ;;;
      transaction (ret tt)
  end.

(** [PurgeOldRequests]: old requests in a terminal state with everything that
    belongs to them, children before parents. *)
Definition old_request (jobType : string) (state : RequestState) (olderThan : Z) (r : RequestRow) : bool :=
  (r_JobType r == jobType) && (r_JobState r == state) && (r_UpdatedAt r <? olderThan).
Definition remove_owned (ids : list string) (t : list OwnedRow) : list OwnedRow :=
  Sql.remove (fun o => Sql.one_of (o_Owner o) ids) t.

Definition purge_tasks (taskIDs : list string) : M unit :=
  match taskIDs with
  | [] => ret tt
  | _ =>
      exec DBError (fun d => (tt, set_approval_votes (remove_owned taskIDs (approval_votes d)) d)) ;;;
      exec DBError (fun d => (tt, set_approval_deadlines (remove_owned taskIDs (approval_deadlines d)) d)) ;;;
      exec DBError (fun d => (tt, set_resource_uses (remove_owned taskIDs (resource_uses d)) d)) ;;;
      exec DBError (fun d => (tt, set_task_contexts (remove_owned taskIDs (task_contexts d)) d)) ;;;
      exec DBError (fun d => (tt, set_tasks (Sql.remove (fun t => Sql.one_of (t_ID t) taskIDs) (tasks d)) d))
  end.
Definition purge_executions (execIDs : list string) : M unit :=
  match execIDs with
  | [] => ret tt
  | _ =>
      exec DBError (fun d => (tt, set_log_events (remove_owned execIDs (log_events d)) d)) ;;;
      exec DBError (fun d => (tt, set_exec_contexts (remove_owned execIDs (exec_contexts d)) d)) ;;;
      exec DBError (fun d => (tt, set_executions (Sql.remove (fun e => Sql.one_of (e_ID e) execIDs) (executions d)) d))
  end.

Definition PurgeOldRequests (jobType : string) (state : RequestState) (olderThan limit : Z) : M Z :=
  if negb (State.IsTerminal state) then throw RefusedError
  else
    let limit := if limit <=? 0 then 500 else limit in
    transaction (
      reqIDs <- query DBError (fun d =>
        take (Z.to_nat limit) (map r_ID (Sql.select (old_request jobType state olderThan) (requests d)))) ;;
      match reqIDs with
      | [] => ret 0
      | _ =>
          execIDs <- query DBError (fun d =>
            map e_ID (Sql.select (fun e => Sql.one_of (e_JobRequestID e) reqIDs) (executions d))) ;;
          taskIDs <- (match execIDs with
                      | [] => ret []
                      | _ => query DBError (fun d =>
                          map t_ID (Sql.select (fun t => Sql.one_of (t_JobExecutionID t) execIDs) (tasks d)))
                      end) ;;
          purge_tasks taskIDs ;;;
          purge_executions execIDs ;;;
          exec DBError (fun d => (tt, set_artifacts (remove_owned reqIDs (artifacts d)) d)) ;;;
          exec DBError (fun d => (tt, set_params (remove_owned reqIDs (params d)) d)) ;;;
          exec DBError (fun d =>
            let gone := fun r => Sql.one_of (r_ID r) reqIDs in
            (Sql.count gone (requests d), set_requests (Sql.remove gone (requests d)) d))
      end).

(** [Trigger]: the number of rows is not checked. *)
Definition Trigger (qc : Query.QueryContext) (id : string) : M unit :=
  key <- ulid_Make ;;
  exec NotFoundError
    (update_requests (fun r => by_id id r && r_CronTriggered r && (r_JobState r == State.PENDING) && tenant qc r)
       (fun r => set_r_UserKey key (set_r_UpdatedAt now (set_r_ScheduledAt now r)))) ;;;
  ret tt.

Definition restart_row (hard : bool) (newJobDefinitionID : string) (r : RequestRow) : RequestRow :=
  let r := set_r_LastJobExecutionID (r_JobExecutionID r) (set_r_JobState State.PENDING r) in
  let r := set_r_ErrorMessage None (set_r_ErrorCode None (set_r_JobExecutionID None r)) in
  let r := set_r_Retried (r_Retried r + 1) (set_r_ScheduleAttempts 0 r) in
  let r := set_r_UpdatedAt now (set_r_ScheduledAt now (set_r_HardRestart hard r)) in
  if newJobDefinitionID != "" then set_r_JobDefinitionID newJobDefinitionID r else r.
Definition Restart (qc : Query.QueryContext) (id : string) (hard : bool) (newJobDefinitionID : string) : M unit :=
  n <- exec NotFoundError
         (update_requests
            (fun r => by_id id r && negb (Sql.one_of (r_JobState r) State.NotRestartableStates) && tenant qc r)
            (restart_row hard newJobDefinitionID)) ;;
  expect_one n NotFoundError.

Definition IncrementScheduleAttempts (id : string) (scheduleSecs decrPriority : Z) (errorMessage : string) : M unit :=
  n <- exec NotFoundError
         (update_requests (by_id id)
            (fun r => set_r_UpdatedAt now (set_r_ErrorMessage (Some errorMessage)
               (set_r_JobPriority (r_JobPriority r - decrPriority) (set_r_ScheduledAt (now + scheduleSecs)
                  (set_r_ScheduleAttempts (r_ScheduleAttempts r + 1) r)))))) ;;
  expect_one n NotFoundError.

(** The most recently updated rows first. *)
Definition recent (l : list RequestRow) : list RequestRow :=
  sort_slice (fun a b => r_UpdatedAt b <? r_UpdatedAt a) l.
Definition RecentIDs (limit : nat) : M (gmap string RequestState) :=
  rows <- query DBError (fun d => take limit (recent (requests d))) ;;
  ret (foldl (fun m r => <[r_ID r := r_JobState r]> m) ∅ rows).
Definition RecentLiveIDs (limit : nat) : M (list string) :=
  query DBError (fun d => map r_ID (take limit (recent (Sql.select (fun r => not_terminal (r_JobState r)) (requests d))))).
Definition RecentDeadIDs (limit : nat) (fromOffset toOffset : Z) : M (list string) :=
  query DBError (fun d => map r_ID (take limit (recent (Sql.select (fun r =>
    Sql.one_of (r_JobState r) State.TerminalStates
    && (now - fromOffset <? r_UpdatedAt r) && (r_UpdatedAt r <? now - toOffset)) (requests d))))).

Definition CountByOrgAndState (org : string) (state : RequestState) : M Z :=
  query DBError (fun d => Sql.count (fun r => (r_OrganizationID r == org) && (r_JobState r == state)) (requests d)).
Definition CountByJobTypeAndState (jobType : string) (states : list RequestState) : M Z :=
  query DBError (fun d => Sql.count (fun r => (r_JobType r == jobType) &&
    match states with [] => true | _ => Sql.one_of (r_JobState r) states end) (requests d)).

(** The cron jobs that run or wait, or that hold the key of the next schedule;
    one for each tenant and type. *)
Record JobTypeCronTrigger := mkJobTypeCronTrigger {
  ct_JobType : string; ct_OrganizationID : string; ct_UserID : string; ct_UserKey : string; ct_CronTrigger : string
}.
Definition active_cron_states : list RequestState :=
  [State.PENDING; State.PAUSED; State.MANUAL_APPROVAL_REQUIRED; State.READY; State.STARTED; State.EXECUTING].
Definition active_cron (triggers : list JobTypeCronTrigger) (userKeys : list string) (r : RequestRow) : bool :=
  let userIDs := List.filter (fun u => u != "") (map ct_UserID triggers) in
  r_CronTriggered r &&
  ((Sql.one_of (r_JobType r) (map ct_JobType triggers) && Sql.one_of (r_JobState r) active_cron_states
    && match userIDs with [] => true | _ => Sql.one_of (r_UserID r) userIDs end)
   || Sql.one_of (r_UserKey r) userKeys).
Definition row_type_key (r : RequestRow) : string :=
  if r_OrganizationID r == "" then r_UserID r +:+ "-" +:+ r_JobType r +:+ ":" +:+ r_JobVersion r
  else r_OrganizationID r +:+ "-" +:+ r_JobType r +:+ ":" +:+ r_JobVersion r.
Fixpoint without_duplicates (seen : gset string) (l : list RequestRow) : list RequestRow :=
  match l with
  | [] => []
  | r :: rest =>
      if decide (row_type_key r ∈ seen) then without_duplicates seen rest
      else r :: without_duplicates ({[row_type_key r]} ∪ seen) rest
  end.
Definition FindActiveCronScheduledJobsByJobType (triggers : list JobTypeCronTrigger) (userKeys : list string)
    : M (list RequestRow) :=
  query DBError (fun d => without_duplicates ∅ (recent (Sql.select (active_cron triggers userKeys) (requests d)))).

(** [NextSchedulableJobsByTypes]: due requests of enabled and active
    definitions; the definition is matched by type and by user or organization. *)
Definition schedulable_definition (d : DB) (r : RequestRow) : bool :=
  existsb (fun def => (d_JobType def == r_JobType r) && negb (d_Disabled def) && d_Active def
                      && ((d_UserID def == r_UserID r) || (d_OrganizationID def == r_OrganizationID r)))
    (definitions d).
Definition schedulable (jobTypes : list string) (states : list RequestState) (d : DB) (r : RequestRow) : bool :=
  schedulable_definition d r && Sql.one_of (r_JobState r) states && (r_ScheduledAt r <=? now)
  && match jobTypes with [] => true | _ => Sql.one_of (r_JobType r) jobTypes end.
Definition schedule_before (a b : RequestRow) : bool :=
  if r_JobPriority a =? r_JobPriority b then r_CreatedAt a <? r_CreatedAt b
  else r_JobPriority b <? r_JobPriority a.
Definition NextSchedulableJobsByTypes (jobTypes : list string) (states : list RequestState) (limit : nat)
    : M (list RequestRow) :=
  query DBError (fun d => take limit (sort_slice schedule_before (Sql.select (schedulable jobTypes states d) (requests d)))).

(** [RequeueOrphanRequests] *)
Definition orphan (before : Z) (r : RequestRow) : bool :=
  Sql.one_of (r_JobState r) [State.STARTED; State.READY; State.EXECUTING] && (r_UpdatedAt r <? before).
Definition RequeueOrphanRequests (staleInterval : Z) : M Z :=
  exec DBError (update_requests (orphan (now - staleInterval))
    (fun r => set_r_UpdatedAt now (set_r_ScheduledAt now (set_r_JobState State.PENDING r)))).

(** [QueryOrphanRequests]: the interval, already a duration, is multiplied by a
    second once more, and the product wraps around. *)
Definition second : Z := 1000000000.
Definition orphan_date (staleInterval : Z) : Z := now + wrap64 (wrap64 (- staleInterval) * second).
Definition QueryOrphanRequests (limit offset : nat) (staleInterval : Z) : M (list RequestRow) :=
  query DBError (fun d => take limit (drop offset (sort_slice (fun a b => r_UpdatedAt a <? r_UpdatedAt b)
    (Sql.select (fun r => Sql.one_of (r_JobState r) State.OrphanStates
                          && (r_UpdatedAt r <? orphan_date staleInterval)) (requests d))))).

End Requests.
End Requests.

(** ** Executions: job_execution_repository_impl.go *)
Module Executions.
Import Rows Store.
Open Scope store_scope.

(** A task with its contexts, an execution with its contexts and tasks, as the
    caller holds them. *)
Record TaskObj := mkTaskObj { to_row : TaskRow; to_contexts : list OwnedRow }.
Record ExecObj := mkExecObj { xo_row : ExecRow; xo_contexts : list OwnedRow; xo_tasks : list TaskObj }.

Section Executions.
Context `{Env}.

Definition by_id (id : string) (e : ExecRow) : bool := e_ID e == id.
Definition not_terminal (s : RequestState) : bool := negb (Sql.one_of s State.TerminalStates).

(** The last updated task of each type. *)
Definition newer (t prev : TaskRow) : bool := t_UpdatedAt prev <? t_UpdatedAt t.
Definition latest_tasks (l : list TaskRow) : gmap string TaskRow :=
  foldl (fun latest t =>
           match latest !! t_TaskType t with
           | None => <[t_TaskType t := t]> latest
           | Some prev => if newer t prev then <[t_TaskType t := t]> latest else latest
           end) ∅ l.
Definition is_latest (latest : gmap string TaskRow) (t : TaskRow) : bool :=
  match latest !! t_TaskType t with Some l => t_ID l == t_ID t | None => false end.

(** The stale duplicates are deactivated; a failure to do so is only logged. *)
Fixpoint deactivate_all (ts : list TaskRow) : M unit :=
  match ts with
  | [] => ret tt
  | t :: rest =>
      try (exec DBError (update_tasks (fun x => t_ID x == t_ID t)
             (fun x => set_t_UpdatedAt now (set_t_Active false x)))) ;;;
      deactivate_all rest
  end.

Definition active_tasks (id : string) (d : DB) : list TaskRow :=
  Sql.select (fun t => (t_JobExecutionID t == id) && t_Active t) (tasks d).

(** [Get]: an active execution with its active tasks in order, at most one for
    each task type. *)
Definition Get (id : string) : M (ExecRow * list TaskRow) :=
  if id == "" then throw ValidationError
  else
    loaded <- query NotFoundError (fun d =>
      (Sql.select (fun e => by_id id e && e_Active e) (executions d), active_tasks id d)) ;;
    job <- Requests.first (fst loaded) ;;
    let ordered := sort_slice (fun a b => t_TaskOrder a <? t_TaskOrder b) (snd loaded) in
    let latest := latest_tasks ordered in
    if (size latest <? List.length ordered)%nat then
      deactivate_all (List.filter (fun t => negb (is_latest latest t)) ordered) ;;;
      ret (job, List.filter (is_latest latest) ordered)
    else ret (job, ordered).

Definition ResetStateToReady (id : string) : M unit :=
  transaction (
    n <- exec NotFoundError (update_executions (fun e => by_id id e && not_terminal (e_JobState e))
           (fun e => set_e_UpdatedAt now (set_e_JobState State.READY e))) ;;
    expect_one n NotFoundError).

(** The request of an execution in the expected state, the execution in it. *)
Definition request_in (id : string) (state : RequestState) (r : RequestRow) : bool :=
  Sql.null_eq (r_JobExecutionID r) id && (r_JobState r == state).
Definition execution_in (id : string) (state : RequestState) (e : ExecRow) : bool :=
  by_id id e && (e_JobState e == state) && not_terminal (e_JobState e).

Definition finalize_request (newState : RequestState) (errorMessage errorCode : string)
    (scheduleDelay retried pausedCount : Z) (key : string) (r : RequestRow) : RequestRow :=
  let r := set_r_ErrorMessage (Some errorMessage) (set_r_JobState newState r) in
  let r := set_r_UpdatedAt now (set_r_Retried retried (set_r_ErrorCode (Some errorCode) r)) in
  let r := if 0 <? pausedCount then set_r_PausedCount pausedCount r else r in
  let r := if State.IsTerminal newState then set_r_UserKey key r else r in
  if (newState == State.PAUSED) && (0 <? scheduleDelay) then set_r_ScheduledAt (now + scheduleDelay) r else r.
Definition finalize_execution (newState : RequestState) (errorMessage errorCode : string) (cpuSecs : Z)
    (e : ExecRow) : ExecRow :=
  set_e_UpdatedAt now (set_e_CPUSecs cpuSecs (set_e_EndedAt (Some now)
    (set_e_ErrorCode errorCode (set_e_ErrorMessage errorMessage (set_e_JobState newState e))))).

(** Both rows change state in one transaction. *)
Definition move_both (id : string) (oldState : RequestState) (f : RequestRow -> RequestRow)
    (g : ExecRow -> ExecRow) : M unit :=
  n <- exec NotFoundError (update_requests (request_in id oldState) f) ;;
  (if n =? 1 then ret tt
   else try (query DBError (fun d => Sql.select (fun r => Sql.null_eq (r_JobExecutionID r) id) (requests d))) ;;;
        throw NotFoundError) ;;;
  n <- exec NotFoundError (update_executions (execution_in id oldState) g) ;;
  expect_one n NotFoundError.

Definition FinalizeJobRequestAndExecutionState (id : string) (oldState newState : RequestState)
    (errorMessage errorCode : string) (cpuSecs scheduleDelay retried pausedCount : Z) : M unit :=
  if negb (State.CanFinalize newState) then throw ValidationError
  else transaction (
    key <- (if State.IsTerminal newState then ulid_Make else ret "") ;;
    move_both id oldState (finalize_request newState errorMessage errorCode scheduleDelay retried pausedCount key)
      (finalize_execution newState errorMessage errorCode cpuSecs)).

Definition UpdateJobRequestAndExecutionState (id : string) (oldState newState : RequestState)
    (currentTask : string) : M unit :=
  if State.IsTerminal newState then throw ValidationError
  else transaction (
    move_both id oldState
      (fun r => let r := set_r_UpdatedAt now (set_r_JobState newState r) in
                if currentTask != "" then set_r_CurrentTask currentTask r else r)
      (fun e => let e := set_e_UpdatedAt now (set_e_JobState newState e) in
                if currentTask != "" then set_e_CurrentTask currentTask e else e)).

Definition UpdateTaskState (id : string) (oldState newState : RequestState) : M unit :=
  transaction (
    n <- exec NotFoundError (update_tasks
           (fun t => (t_ID t == id) && (t_TaskState t == oldState) && not_terminal (t_TaskState t))
           (fun t => set_t_UpdatedAt now (set_t_TaskState newState t))) ;;
    expect_one n NotFoundError).

(** *** Contexts *)

(** A row inserted, or replacing the row with its key. *)
Definition put_owned (o : OwnedRow) (t : list OwnedRow) : list OwnedRow :=
  Sql.remove (fun x => o_ID x == o_ID o) t ++ [o].

Definition clearOrphanJobContexts (id : string) (cs : list OwnedRow) : M unit :=
  try (exec DBError (fun d => (tt, set_exec_contexts
    (Sql.remove (fun c => not_in (o_ID c) (map o_ID cs) && (o_Owner c == id)) (exec_contexts d)) d))) ;;;
  ret tt.

Fixpoint put_job_contexts (id : string) (cs : list OwnedRow) : M unit :=
  match cs with
  | [] => ret tt
  | c :: rest =>
      cid <- (if o_ID c == "" then ulid_Make else ret (o_ID c)) ;;
      exec DBError (fun d => (tt, set_exec_contexts (put_owned (mkOwnedRow cid id (o_Name c) (o_Kind c) (o_Value c)) (exec_contexts d)) d)) ;;;
      put_job_contexts id rest
  end.
Definition createJobContexts (id : string) (cs : list OwnedRow) : M unit :=
  clearOrphanJobContexts id cs ;;; put_job_contexts id cs.
Definition UpdateJobContext (id : string) (cs : list OwnedRow) : M unit :=
  transaction (createJobContexts id cs).

(** *** Tasks *)

Definition same_task (execID taskType : string) (t : TaskRow) : bool :=
  (t_JobExecutionID t == execID) && (t_TaskType t == taskType) && t_Active t.
Definition deactivate (t : TaskRow) : TaskRow := set_t_UpdatedAt now (set_t_Active false t).

(** gorm's [Save] of a task under a condition on its state: the number of rows. *)
Definition insert_task (t : TaskRow) (d : DB) : Z * DB := (1, set_tasks (tasks d ++ [t]) d).
Definition save_task_row (p : TaskRow -> bool) (t : TaskRow) (d : DB) : Z * DB :=
  if existsb p (tasks d) then update_tasks p (fun _ => t) d
  else if save_upserts
       then (1, set_tasks (Sql.remove (fun x => t_ID x == t_ID t) (tasks d) ++ [t]) d)
       else (0, d).

Fixpoint put_task_contexts (id : string) (cs : list OwnedRow) : M unit :=
  match cs with
  | [] => ret tt
  | c :: rest =>
      cid <- (if o_ID c == "" then ulid_Make else ret (o_ID c)) ;;
      exec DBError (fun d => (tt, set_task_contexts (put_owned (mkOwnedRow cid id (o_Name c) (o_Kind c) (o_Value c)) (task_contexts d)) d)) ;;;
      put_task_contexts id rest
  end.

(** [SaveTask]: the task becomes the only active one of its type. *)
Definition SaveTask (task : TaskObj) : M TaskRow :=
  let t := to_row task in
  if t_TaskType t == "" then throw ValidationError
  else transaction (
    let newTask := t_ID t == "" in
    t <- (if newTask then id <- ulid_Make ;; ret (set_t_ID id (set_t_UpdatedAt now (set_t_StartedAt now t)))
          else let t := set_t_UpdatedAt now t in
               ret (if State.CanFinalize (t_TaskState t) then set_t_EndedAt (Some now) t else t)) ;;
    let t := set_t_Active true t in
    let contextIDs := List.filter (fun c => c != "") (map o_ID (to_contexts task)) in
    n <- (if newTask then
            exec NotFoundError (update_tasks (same_task (t_JobExecutionID t) (t_TaskType t)) deactivate) ;;;
            exec NotFoundError (insert_task t)
          else
            exec NotFoundError (update_tasks (fun x => same_task (t_JobExecutionID t) (t_TaskType t) x
                                                       && (t_ID x != t_ID t)) deactivate) ;;;
            try (exec DBError (fun d => (tt, set_task_contexts
              (Sql.remove (fun c => (o_Owner c == t_ID t) && not_in (o_ID c) contextIDs) (task_contexts d)) d))) ;;;
            exec NotFoundError (save_task_row (fun x => (t_ID x == t_ID t) && not_terminal (t_TaskState x)) t)) ;;
    expect_one n NotFoundError ;;;
    put_task_contexts (t_ID t) (to_contexts task) ;;;
    ret t).

Definition DeleteTask (id : string) : M unit :=
  n <- exec NotFoundError (update_tasks (fun t => (t_ID t == id) && t_Active t) deactivate) ;;
  expect_one n NotFoundError.

(** [Delete]: the updates go through the connection of the repository, not
    through the transaction around them. *)
Fixpoint delete_tasks (ts : list TaskRow) : M unit :=
  match ts with
  | [] => ret tt
  | t :: rest => DeleteTask (t_ID t) ;;; delete_tasks rest
  end.
Definition Delete (id : string) : M unit :=
  old <- Get id ;;
  delete_tasks (snd old) ;;;
  n <- exec NotFoundError (update_executions (fun e => by_id id e && e_Active e)
         (fun e => set_e_UpdatedAt now (set_e_Active false e))) ;;
  expect_one n NotFoundError ;;;
  transaction (ret tt).

Definition GetJobsPendingManualApproval (qc : Query.QueryContext) (limit offset : nat) : M (list ExecRow) :=
  query DBError (fun d => take limit (drop offset (sort_slice (fun a b => e_UpdatedAt a <? e_UpdatedAt b)
    (Sql.select (fun e => (e_JobState e == State.MANUAL_APPROVAL_REQUIRED) && e_Active e &&
       (if Query.IsAdmin qc then true
        else if Query.GetOrganizationID qc != "" then e_OrganizationID e == Query.GetOrganizationID qc
        else if Query.GetUserID qc != "" then e_UserID e == Query.GetUserID qc else true)) (executions d))))).

End Executions.
End Executions.

(** ** ExecutionSave: [JobExecutionRepositoryImpl.Save]

    The object being saved is changed by an attempt, also by one that is rolled
    back: the identifiers given to tasks and contexts stay, only that of a new
    execution is taken back.  An attempt therefore returns the object as it is
    left, with the result. *)
Module ExecutionSave.
Import Rows Store Executions.
Open Scope store_scope.

Section Save.
Context `{Env}.

(** Computations that also change the object. *)
Definition MO (A : Type) : Type := ExecObj -> St -> (A + error) * ExecObj * St.
Definition lift {A} (m : M A) : MO A := fun o s => let '(r, s') := m s in (r, o, s').
Definition bind_o {A B} (m : MO A) (k : A -> MO B) : MO B :=
  fun o s => match m o s with
             | (inl a, o', s') => k a o' s'
             | (inr e, o', s') => (inr e, o', s')
             end.
Definition object : MO ExecObj := fun o s => (inl o, o, s).
Definition set_object (o' : ExecObj) : MO unit := fun _ s => (inl tt, o', s).

Definition new_id (id : string) : M string := if id == "" then ulid_Make else ret id.
Fixpoint own_contexts (owner : string) (cs : list OwnedRow) : M (list OwnedRow) :=
  match cs with
  | [] => ret []
  | c :: rest =>
      id <- new_id (o_ID c) ;;
      rest <- own_contexts owner rest ;;
      ret (mkOwnedRow id owner (o_Name c) (o_Kind c) (o_Value c) :: rest)
  end.

(** [clearOrphanJobTasks]: what is deleted are the tasks of the object that are
    not in the table, and their contexts. *)
Definition loadTasksIDByJobID (id : string) : M (list string) :=
  query DBError (fun d => map t_ID (Sql.select (fun t => t_JobExecutionID t == id) (tasks d))).
Fixpoint clear_task_contexts (ts : list TaskObj) : M unit :=
  match ts with
  | [] => ret tt
  | t :: rest =>
      try (exec DBError (fun d => (tt, set_task_contexts
        (Sql.remove (fun c => not_in (o_ID c) (map o_ID (to_contexts t)) && (o_Owner c == t_ID (to_row t)))
           (task_contexts d)) d))) ;;;
      clear_task_contexts rest
  end.
Definition clearOrphanJobTasks (o : ExecObj) : M unit :=
  loaded <- try (loadTasksIDByJobID (e_ID (xo_row o))) ;;
  match loaded with
  | inr _ => ret tt
  | inl oldTaskIDs =>
      let deleted := List.filter (fun id => negb (Sql.one_of id oldTaskIDs)) (map (fun t => t_ID (to_row t)) (xo_tasks o)) in
      try (exec DBError (fun d => (tt, set_task_contexts
        (Sql.remove (fun c => Sql.one_of (o_Owner c) deleted) (task_contexts d)) d))) ;;;
      try (exec DBError (fun d => (tt, set_tasks
        (Sql.remove (fun t => Sql.one_of (t_ID t) deleted && (t_JobExecutionID t == e_ID (xo_row o))) (tasks d)) d))) ;;;
      clear_task_contexts (xo_tasks o)
  end.

(** [calcCost]: zero when it cannot be computed. *)
Definition row_cost (t : TaskRow) : Z :=
  match t_EndedAt t with Some ended => (t_CountServices t + 1) * elapsed ended (t_StartedAt t) | None => 0 end.
Definition calcCost (id : string) : M Z :=
  r <- try (query DBError (fun d =>
         foldl Z.add 0 (map row_cost (Sql.select (fun t => t_JobExecutionID t == id) (tasks d))))) ;;
  ret (match r with inl c => c | inr _ => 0 end).

Definition own_task (id : string) (t : TaskObj) : TaskObj :=
  let row := to_row t in
  mkTaskObj (mkTaskRow (t_ID row) id (t_TaskType row) true (t_TaskState row) (t_TaskOrder row)
               (t_CountServices row) (t_StartedAt row) (t_EndedAt row) (t_UpdatedAt row)) (to_contexts t).

(** The row of the execution: inserted, or all its columns written. *)
Definition put_execution (newJob : bool) (e : ExecRow) : M unit :=
  ok <- exec DBError (fun d =>
    if newJob then
      if existsb (by_id (e_ID e)) (executions d) then (false, d)
      else (true, set_executions (executions d ++ [e]) d)
    else if existsb (by_id (e_ID e)) (executions d)
         then (true, set_executions (Sql.update (by_id (e_ID e)) (fun _ => e) (executions d)) d)
         else if save_upserts then (true, set_executions (executions d ++ [e]) d) else (true, d)) ;;
  if (ok : bool) then ret tt else throw DBError.

(** [Association("Contexts").Replace]: the contexts of the owner become these. *)
Definition replace_contexts (owner : string) (cs t : list OwnedRow) : list OwnedRow :=
  Sql.remove (fun c => (o_Owner c == owner) || Sql.one_of (o_ID c) (map o_ID cs)) t ++ cs.

Definition put_task_row (newTask : bool) (t : TaskRow) (d : DB) : Z * DB :=
  if newTask then insert_task t d else save_task_row (fun x => t_ID x == t_ID t) t d.

(** The tasks one after the other; those before [i] have been saved. *)
Fixpoint save_tasks (fuel i : nat) : MO unit :=
  match fuel with
  | O => lift (ret tt)
  | S fuel =>
      bind_o object (fun o =>
        match xo_tasks o !! i with
        | None => lift (ret tt)
        | Some t =>
            let newTask := t_ID (to_row t) == "" in
            bind_o (lift (new_id (t_ID (to_row t)))) (fun id =>
            bind_o (lift (own_contexts id (to_contexts t))) (fun cs =>
            let t' := mkTaskObj (set_t_ID id (to_row t)) cs in
            bind_o (set_object (mkExecObj (xo_row o) (xo_contexts o) (<[i := t']> (xo_tasks o)))) (fun _ =>
            bind_o (lift (exec DBError (put_task_row newTask (to_row t')))) (fun _ =>
            bind_o (lift (exec DBError (fun d =>
                     (tt, set_task_contexts (replace_contexts id cs (task_contexts d)) d)))) (fun _ =>
            save_tasks fuel (S i))))))
        end)
  end.

(** The body of the transaction; [cost] is the cost of the execution in seconds. *)
Definition save_body (cost : Z) : MO unit :=
  bind_o object (fun o =>
  let e := set_e_UpdatedAt now (xo_row o) in
  let newJob := e_ID e == "" in
  bind_o (lift (if newJob then ulid_Make
                else clearOrphanJobTasks o ;;; clearOrphanJobContexts (e_ID e) (xo_contexts o) ;;; ret (e_ID e))) (fun id =>
  bind_o (lift (own_contexts id (xo_contexts o))) (fun cs =>
  let e := set_e_Active true (set_e_ID id e) in
  bind_o (lift (if State.CanFinalize (e_JobState e) then
                  c <- (if newJob then ret 0 else calcCost id) ;;
                  ret (set_e_EndedAt (Some now) (set_e_CPUSecs (if (0 <? c) && (cost <? c) then c else cost) e))
                else ret e)) (fun e =>
  let o' := mkExecObj e cs (map (own_task id) (xo_tasks o)) in
  bind_o (set_object o') (fun _ =>
  bind_o (lift (put_execution newJob e)) (fun _ =>
  bind_o (lift (exec DBError (fun d => (tt, set_exec_contexts (replace_contexts id cs (exec_contexts d)) d)))) (fun _ =>
  save_tasks (List.length (xo_tasks o')) 0))))))).

Definition attempt (cost : Z) : MO unit :=
  fun o s =>
    match save_body cost o s with
    | (inl _, o', s') =>
        if err (statements s') then (inr (failure DBError (statements s')), o', mkSt (db s) (S (statements s')) (ulids s'))
        else (inl tt, o', mkSt (db s') (S (statements s')) (ulids s'))
    | (inr e, o', s') => (inr e, o', with_db (db s) s')
    end.

Definition isDeadlockError (e : error) : bool := match e with DeadlockError => true | _ => false end.
Definition maxRetries : nat := 3.

(** The identifier of a new execution is reset before each attempt. *)
Fixpoint save_loop (cost : Z) (isNewJob : bool) (attempts : nat) (last : unit + error) : MO unit :=
  match attempts with
  | O => fun o s => (last, o, s)
  | S attempts =>
      fun o s =>
        let o := if isNewJob then mkExecObj (set_e_ID "" (xo_row o)) (xo_contexts o) (xo_tasks o) else o in
        match attempt cost o s with
        | (inl _, o', s') => (inl tt, o', s')
        | (inr e, o', s') =>
            if isDeadlockError e then save_loop cost isNewJob attempts (inr e) o' s' else (inr e, o', s')
        end
  end.

Definition valid_object (o : ExecObj) : bool :=
  (e_JobType (xo_row o) != "") && (e_JobState (xo_row o) != "")
  && forallb (fun t => t_TaskType (to_row t) != "") (xo_tasks o).

(** The start time is set when it is missing. *)
Definition started_object (o : ExecObj) : ExecObj :=
  let started := if e_StartedAt (xo_row o) =? 0 then now else e_StartedAt (xo_row o) in
  let e := xo_row o in
  let e := mkExecRow (e_ID e) (e_JobRequestID e) (e_Active e) (e_JobType e) (e_JobVersion e) (e_JobState e)
             (e_CPUSecs e) (e_UserID e) (e_OrganizationID e) (e_CurrentTask e) (e_ErrorCode e)
             (e_ErrorMessage e) started (e_EndedAt e) (e_UpdatedAt e) in
  mkExecObj e (xo_contexts o) (xo_tasks o).

Definition Save (cost : Z) (jobExec : option ExecObj) (s : St) : (ExecObj + error) * St :=
  match jobExec with
  | None => (inr ValidationError, s)
  | Some o =>
      if negb (valid_object o) then (inr ValidationError, s)
      else
        match save_loop cost (e_ID (xo_row o) == "") maxRetries (inl tt) (started_object o) s with
        | (inl _, o', s') => (inl o', s')
        | (inr e, _, s') => (inr e, s')
        end
  end.
(** The object returned along with an error: as the last attempt left it. *)
Definition left_by_Save (cost : Z) (o : ExecObj) (s : St) : option ExecObj :=
  if negb (valid_object o) then None
  else match save_loop cost (e_ID (xo_row o) == "") maxRetries (inl tt) (started_object o) s with
       | (_, o', _) => Some o'
       end.

End Save.
End ExecutionSave.

(** ** Definitions: job_definition_repository_impl.go

    The organization of a user who has one is taken to be loaded, so that both
    ways of writing the scope of a query agree.  The text of variables and
    configs stands for [VariablesString] and [ConfigsString]; loading the tasks
    and decrypting them is left out. *)
Module Definitions.
Import Rows Store.
Open Scope store_scope.

Section Definitions.
Context `{Env} (MaxConcurrency : Z).

Definition by_id (id : string) (d : DefRow) : bool := d_ID d == id.
Definition in_scope (qc : Query.QueryContext) (readonly : bool) (d : DefRow) : bool :=
  Query.AddOrgElseUserWhere qc readonly (definition_column d).

Definition Editable (d : DefRow) (userID organizationID : string) : bool :=
  if (d_OrganizationID d != "") || (organizationID != "") then d_OrganizationID d == organizationID
  else d_UserID d == userID.

(** gorm's [First] takes the row with the least key. *)
Definition first_def (l : list DefRow) : option DefRow :=
  head (sort_slice (fun a b => String.ltb (d_ID a) (d_ID b)) l).

Definition check_access (qc : Query.QueryContext) (d : DefRow) : M DefRow :=
  if negb (d_PublicPlugin d) && negb (Query.IsReadAdmin qc)
     && negb (Editable d (Query.GetUserID qc) (Query.GetOrganizationID qc))
  then throw PermissionError else ret d.

Definition found (o : option DefRow) : M DefRow :=
  match o with Some d => ret d | None => throw NotFoundError end.

Definition Get (qc : Query.QueryContext) (id : string) : M DefRow :=
  if id == "" then throw ValidationError
  else
    d <- query NotFoundError (fun db => first_def (Sql.select (fun d => by_id id d
           && (d_PublicPlugin d || in_scope qc true d)) (definitions db))) ;;
    d <- found d ;;
    check_access qc d.

(** A job type with a version: the version of a public plugin, else the caller's. *)
Definition GetByType (qc : Query.QueryContext) (jobType : string) : M DefRow :=
  let '(jobType, semVersion) :=
    match Split jobType ":"%char with [t; v] => (t, v) | _ => (jobType, "") end in
  if jobType == "" then throw ValidationError
  else
    let of_type := fun d => d_JobType d == jobType in
    d <- (if semVersion == "" then
            query NotFoundError (fun db => first_def (Sql.select (fun d => of_type d && d_Active d && in_scope qc true d)
                                                        (definitions db)))
          else
            plugin <- try (o <- query NotFoundError (fun db => first_def (Sql.select (fun d =>
                             of_type d && (d_SemVersion d == semVersion) && d_PublicPlugin d) (definitions db))) ;;
                           found o) ;;
            match plugin with
            | inl d => ret (Some d)
            | inr _ =>
                query NotFoundError (fun db => first_def (Sql.select (fun d =>
                  of_type d && (d_SemVersion d == semVersion) && in_scope qc true d) (definitions db)))
            end) ;;
    d <- found d ;;
    check_access qc d.

Definition SetDisabled (id : string) (disabled : bool) : M unit :=
  n <- exec NotFoundError (update_definitions (by_id id) (set_d_Disabled disabled)) ;;
  expect_one n NotFoundError.

Definition Delete (qc : Query.QueryContext) (id : string) : M unit :=
  n <- exec NotFoundError (update_definitions (fun d => in_scope qc false d && by_id id d) (set_d_Active false)) ;;
  expect_one n NotFoundError.

Definition SetMaxConcurrency (id : string) (concurrency : Z) : M unit :=
  if concurrency <=? 0 then throw ValidationError
  else if MaxConcurrency <? concurrency then throw ValidationError
  else
    n <- exec NotFoundError (update_definitions (fun d => by_id id d && d_Active d) (set_d_MaxConcurrency concurrency)) ;;
    expect_one n NotFoundError.

(** [getLatestByType]: the row whose version is one less than the number of
    rows the caller sees; an error of the count is not looked at. *)
Definition getLatestByType (qc : Query.QueryContext) (jobType : string) : M DefRow :=
  count <- try (query DBError (fun db =>
    Sql.count (fun d => in_scope qc true d && (d_JobType d == jobType)) (definitions db))) ;;
  let n := match count with inl n => n | inr _ => 0 end in
  o <- query DBError (fun db => first_def (Sql.select (fun d => in_scope qc true d && (d_JobType d == jobType)
         && (d_Version d =? n - 1)) (definitions db))) ;;
  found o.

Definition unchanged (job old : DefRow) : bool :=
  (d_RawYaml job == d_RawYaml old) && (d_MaxConcurrency job =? d_MaxConcurrency old)
  && Bool.eqb (d_Disabled job) (d_Disabled old) && (d_Configs job == d_Configs old)
  && (d_Variables job == d_Variables old) && d_Active old.

(** The statements that write variables, tasks and configs. *)
Fixpoint write_parts (n : nat) : M unit :=
  match n with
  | O => ret tt
  | S n => exec DBError (fun d => (tt, d)) ;;; write_parts n
  end.

(** [Save] after validation.  The old version is deactivated by [Delete], which
    does not use the transaction: it stays deactivated when the rest fails. *)
Definition save_version (qc : Query.QueryContext) (job : DefRow) : M DefRow :=
  latest <- try (getLatestByType qc (d_JobType job)) ;;
  let previous := match latest with
                  | inl old => if d_ID old != "" then Some old else None
                  | inr _ => None
                  end in
  match previous with
  | Some old =>
      if unchanged job old then transaction (ret tt) ;;; ret job
      else
        Delete qc (d_ID old) ;;;
        id <- ulid_Make ;;
        let job := set_d_Configs (d_Configs old) (set_d_Disabled (d_Disabled old)
                     (set_d_MaxConcurrency (d_MaxConcurrency old) (set_d_Version (d_Version old + 1) job))) in
        let job := set_d_Active true (set_d_ID id job) in
        transaction (
          exec DBError (fun d => (tt, set_definitions (definitions d ++ [job]) d)) ;;;
          write_parts (S (S (2 * List.length (d_Tasks job))))) ;;;
        ret job
  | None =>
      id <- ulid_Make ;;
      let job := set_d_Active true (set_d_ID id (set_d_Disabled false (set_d_Version 0 job))) in
      transaction (
        exec DBError (fun d => (tt, set_definitions (definitions d ++ [job]) d)) ;;;
        write_parts (S (S (2 * List.length (d_Tasks job))))) ;;;
      ret job
  end.

(** [valid] is the result of validating the definition and, for a public plugin,
    of checking that its version is newer. *)
Definition Save (qc : Query.QueryContext) (valid : bool) (job : DefRow) : M DefRow :=
  if negb valid then throw ValidationError
  else save_version qc (set_d_OrganizationID (Query.GetOrganizationID qc) (set_d_UserID (Query.GetUserID qc) job)).

(** [Query]: one page of the active definitions the caller sees that have the
    properties asked for, ordered by type; pages are numbered from 0. *)
Definition matching (qc : Query.QueryContext) (params : DefRow -> bool) (db : DB) : list DefRow :=
  sort_slice (fun a b => String.ltb (d_JobType a) (d_JobType b))
    (Sql.select (fun d => in_scope qc true d && d_Active d && params d) (definitions db)).
Definition Query (qc : Query.QueryContext) (params : DefRow -> bool) (page pageSize : nat) : M (list DefRow) :=
  jobs <- query DBError (fun db => take pageSize (drop (page * pageSize) (matching qc params db))) ;;
  try (query DBError (fun db => Z.of_nat (List.length (matching qc params db)))) ;;;
  ret jobs.

End Definitions.
End Definitions.
