(* ===== verification/JobStoreSpec.v ===== *)
(** * JobStoreSpec: what the job store guarantees

    Properties of the repositories of requests and executions: state changes
    are compare-and-set, a request and its execution change state together or
    not at all, terminal states are final, a purge removes exactly the old
    requests with all that belongs to them, a saved task is the only active one
    of its type, and the queue of schedulable requests is complete and in order.

    A property that every statement of a call preserves is preserved by the call
    ([preserves] and its rules, collected in the hint database [store]). *)

From S2P Require Import Prelude RequestState Acl Approval Tables JobStore.
From stdpp Require Import relations.
From Stdlib Require Import Sorting.Sorted.

Open Scope Z_scope.

(** ** Reasoning about calls *)
Section Preserves.
Import Rows Store.
Open Scope store_scope.
Context `{Env} (I : DB -> Prop).

Definition preserves {A} (m : M A) : Prop := forall s, I (db s) -> I (db (snd (m s))).

Lemma preserves_ret {A} (a : A) : preserves (ret a).
Proof. by intros s. Qed.
Lemma preserves_throw {A} e : preserves (@throw A e).
Proof. by intros s. Qed.
Lemma preserves_bind {A B} (m : M A) (k : A -> M B) :
  preserves m -> (forall a, preserves (k a)) -> preserves (bind m k).
Proof.
  intros Hm Hk s HI. unfold bind. specialize (Hm s HI). destruct (m s) as [[a|e] s']; [|done]. by apply Hk.
Qed.
(** With a property of the value that the first call returns. *)
Lemma preserves_bind_post {A B} (Q : A -> Prop) (m : M A) (k : A -> M B) :
  preserves m -> (forall s a s', m s = (inl a, s') -> Q a) -> (forall a, Q a -> preserves (k a)) ->
  preserves (bind m k).
Proof.
  intros Hm HQ Hk s HI. unfold bind. specialize (Hm s HI). destruct (m s) as [[a|e] s'] eqn:E; [|done].
  apply (Hk a); eauto.
Qed.
Lemma preserves_try {A} (m : M A) : preserves m -> preserves (try m).
Proof. intros Hm s HI. unfold try. specialize (Hm s HI). by destruct (m s). Qed.
Lemma preserves_ulid : preserves ulid_Make.
Proof. by intros s. Qed.
Lemma preserves_exec {A} e (f : DB -> A * DB) : (forall d, I d -> I (snd (f d))) -> preserves (exec e f).
Proof.
  intros Hf s HI. unfold exec. destruct (err (statements s)); [done|].
  specialize (Hf (db s) HI). by destruct (f (db s)).
Qed.
Lemma preserves_query {A} e (f : DB -> A) : preserves (query e f).
Proof. apply preserves_exec. intros d HI. exact HI. Qed.
Lemma preserves_expect n e : preserves (expect_one n e).
Proof. intros s HI. unfold expect_one. by destruct (n =? 1). Qed.
Lemma preserves_if {A} (b : bool) (m1 m2 : M A) :
  preserves m1 -> preserves m2 -> preserves (if b then m1 else m2).
Proof. intros H1 H2. by destruct b. Qed.
Lemma preserves_transaction {A} (m : M A) : preserves m -> preserves (transaction m).
Proof.
  intros Hm s HI. unfold transaction. specialize (Hm s HI). destruct (m s) as [[a|e] s']; cbn in *; [|done].
  by destruct (err (statements s')).
Qed.

End Preserves.

Create HintDb store.
#[export] Hint Resolve preserves_ret preserves_throw preserves_bind preserves_try preserves_ulid preserves_query
  preserves_expect preserves_if preserves_transaction : store.

(** Split a call into its statements. *)
Ltac store_step :=
  lazymatch goal with
  | |- preserves _ (Store.bind _ _) => apply preserves_bind; [|intros ?]
  | |- preserves _ (Store.transaction _) => apply preserves_transaction
  | |- preserves _ (Store.try _) => apply preserves_try
  | |- preserves _ (if ?b then _ else _) => destruct b eqn:?
  | |- preserves _ (match ?x with _ => _ end) => destruct x eqn:?
  | |- preserves _ (Store.exec _ _) => apply preserves_exec; intros ? ?
  | |- preserves _ _ => solve [eauto with store]
  end.
Ltac store_split := repeat store_step.

(** *** Tables *)
Section SqlLemmas.

Lemma elem_of_update {A} (p : A -> bool) f t y :
  y ∈ Sql.update p f t <-> exists x, x ∈ t /\ y = (if p x then f x else x).
Proof. unfold Sql.update. rewrite list_elem_of_fmap. naive_solver. Qed.

Lemma elem_of_select {A} (p : A -> bool) t x : x ∈ Sql.select p t <-> x ∈ t /\ p x = true.
Proof. unfold Sql.select. rewrite !list_elem_of_In. apply List.filter_In. Qed.

Lemma elem_of_remove {A} (p : A -> bool) t x : x ∈ Sql.remove p t <-> x ∈ t /\ p x = false.
Proof. unfold Sql.remove. rewrite !list_elem_of_In, List.filter_In, negb_true_iff. done. Qed.

Lemma one_of_iff x l : Sql.one_of x l = true <-> x ∈ l.
Proof.
  unfold Sql.one_of. rewrite existsb_exists. setoid_rewrite eqb_string_true.
  rewrite list_elem_of_In. naive_solver.
Qed.

Lemma terminal_iff s : Sql.one_of s State.TerminalStates = State.IsTerminal s.
Proof. unfold Sql.one_of, State.IsTerminal. cbn. by rewrite orb_false_r, orb_assoc. Qed.

Lemma not_terminal_iff s : Executions.not_terminal s = true <-> State.IsTerminal s = false.
Proof. unfold Executions.not_terminal. rewrite terminal_iff, negb_true_iff. done. Qed.

(** Updating rows selected by a key that is unique. *)
Lemma count_pos {A} (p : A -> bool) t : 0 < Sql.count p t -> exists x, x ∈ t /\ p x = true.
Proof.
  unfold Sql.count. intros Hc. destruct (List.filter p t) as [|x l] eqn:E; [cbn in Hc; lia|].
  exists x. apply elem_of_select. unfold Sql.select. rewrite E. apply list_elem_of_here.
Qed.

Lemma count_zero_update {A} (p : A -> bool) f t : Sql.count p t = 0 -> Sql.update p f t = t.
Proof.
  unfold Sql.count, Sql.update. induction t as [|x t IH]; cbn; [done|]. destruct (p x); cbn; [lia|].
  intros Hc. by rewrite IH.
Qed.

Lemma count_unique {A} (p : A -> bool) (key : A -> string) k t :
  NoDup (map key t) -> (forall x, p x = true -> key x = k) -> 0 <= Sql.count p t <= 1.
Proof.
  unfold Sql.count. intros HN Hk. split; [lia|]. induction t as [|x t IH]; cbn; [lia|].
  cbn in HN. apply NoDup_cons in HN as [Hx HN]. destruct (p x) eqn:E; cbn; [|by apply IH].
  destruct (List.filter p t) as [|y l] eqn:Ef; [cbn; lia|]. exfalso. apply Hx.
  assert (y ∈ t /\ p y = true) as [Hy Hp].
  { apply elem_of_select. unfold Sql.select. rewrite Ef. apply list_elem_of_here. }
  rewrite (Hk x E), <- (Hk y Hp). by apply (list_elem_of_fmap_2 key t y).
Qed.

End SqlLemmas.

(** The loops of the calls: an invariant that does not look at a table is
    preserved by the loop that writes it. *)
Section Loops.
Import Rows Store.
Context `{Env} (I : DB -> Prop).

Lemma preserves_task_contexts i cs :
  (forall d t, I d -> I (set_task_contexts t d)) -> preserves I (Executions.put_task_contexts i cs).
Proof. intros HI. induction cs as [|c cs IH]; cbn; store_split; try done; by apply HI. Qed.
Lemma preserves_job_contexts i cs :
  (forall d t, I d -> I (set_exec_contexts t d)) -> preserves I (Executions.put_job_contexts i cs).
Proof. intros HI. induction cs as [|c cs IH]; cbn; store_split; try done; by apply HI. Qed.
Lemma preserves_deactivate ts :
  (forall d t, I d -> I (set_tasks t d)) -> preserves I (Executions.deactivate_all ts).
Proof. intros HI. induction ts as [|t ts IH]; cbn; store_split; try done; by apply HI. Qed.
Lemma preserves_delete_tasks ts :
  (forall d t, I d -> I (set_tasks t d)) -> preserves I (Executions.delete_tasks ts).
Proof.
  intros HI. induction ts as [|t ts IH]; cbn; store_split; try done. unfold Executions.DeleteTask.
  store_split. by apply HI.
Qed.
Lemma preserves_own o ps : preserves I (Requests.own_params o ps).
Proof. induction ps as [|p ps IH]; cbn; store_split; done. Qed.
Lemma preserves_first {A} (l : list A) : preserves I (Requests.first l).
Proof. destruct l; cbn; store_split. Qed.
Lemma preserves_Get qc id : preserves I (Requests.Get qc id).
Proof. unfold Requests.Get. store_split. apply preserves_first. Qed.
Lemma preserves_exec_Get id :
  (forall d t, I d -> I (set_tasks t d)) -> preserves I (Executions.Get id).
Proof.
  intros HI. unfold Executions.Get. store_split; try apply preserves_first. by apply preserves_deactivate.
Qed.
Lemma preserves_SaveTask t :
  (forall d t, I d -> I (set_tasks t d)) -> (forall d t, I d -> I (set_task_contexts t d)) ->
  preserves I (Executions.SaveTask t).
Proof.
  intros HT HC. unfold Executions.SaveTask.
  store_split; try apply preserves_task_contexts; try done; try (by apply HT); try (by apply HC).
  unfold Executions.save_task_row. repeat case_match; cbn; try done; by apply HT.
Qed.

End Loops.

#[export] Hint Resolve preserves_first preserves_Get preserves_own : store.

(** *** [Save] of an execution

    The object is changed as well and outlives a failed attempt, so the invariant
    of the tables is kept together with one of the object: its state is the
    caller's, its identifier is none, if [new], or one with [idP], its tasks are in
    states with [taskP]. *)
Section KeepsSave.
Import Rows Store Executions ExecutionSave.
Context `{Env} (I : DB -> Prop) (st : RequestState) (new : Prop) (idP : string -> Prop) (taskP : RequestState -> Prop).

Definition held (o : ExecObj) : Prop :=
  e_JobState (xo_row o) = st /\ (new /\ e_ID (xo_row o) = "" \/ idP (e_ID (xo_row o))) /\
  forall t, t ∈ xo_tasks o -> taskP (t_TaskState (to_row t)).

Definition keeps {A} (Q : A -> Prop) (m : MO A) : Prop :=
  forall o s, held o -> I (db s) ->
  let '(r, o', s') := m o s in held o' /\ I (db s') /\ forall a, r = inl a -> Q a.

Lemma save_keeps_bind {A B} (Q : A -> Prop) (R : B -> Prop) (m : MO A) (k : A -> MO B) :
  keeps Q m -> (forall a, Q a -> keeps R (k a)) -> keeps R (bind_o m k).
Proof.
  intros Hm Hk o s Ho Hs. unfold bind_o. specialize (Hm o s Ho Hs).
  destruct (m o s) as [[[a|e] o1] s1]; destruct Hm as (Ho1 & Hs1 & HQ); [|done]. apply (Hk a); auto.
Qed.
Lemma keeps_lift {A} (Q : A -> Prop) (m : M A) :
  preserves I m -> (forall s a s', m s = (inl a, s') -> Q a) -> keeps Q (lift m).
Proof.
  intros Hm HQ o s Ho Hs. unfold lift. specialize (Hm s Hs). destruct (m s) as [r s'] eqn:E.
  split_and!; [done|done|]. intros a ->. by eapply HQ.
Qed.
Lemma keeps_lift_any {A} (m : M A) : preserves I m -> keeps (fun _ => True) (lift m).
Proof. intros Hm. by apply keeps_lift. Qed.
Lemma keeps_object : keeps held object.
Proof. intros o s Ho Hs. split_and!; [done|done|]. by intros a [= <-]. Qed.
Lemma keeps_set o : held o -> keeps (fun _ => True) (set_object o).
Proof. by intros Ho o' s _ Hs. Qed.

Context (HC : forall d t, I d -> I (set_task_contexts t d))
        (HX : forall d t, I d -> I (set_exec_contexts t d))
        (HR : forall d p, I d -> I (set_tasks (Sql.remove p (tasks d)) d))
        (HT : forall b t d, taskP (t_TaskState t) -> I d -> I (snd (put_task_row b t d)))
        (HE : forall b e, e_JobState e = st -> idP (e_ID e) -> preserves I (put_execution b e))
        (HU : new -> forall n, idP (ulid n)) (HN : idP "" -> new).

Lemma preserves_new_id i : preserves I (new_id i).
Proof. unfold new_id. store_split. Qed.
Lemma preserves_own_contexts i cs : preserves I (own_contexts i cs).
Proof. induction cs as [|c cs IH]; cbn; store_split. Qed.
Lemma preserves_clear_task_contexts ts : preserves I (clear_task_contexts ts).
Proof. induction ts as [|t ts IH]; cbn; store_split; by apply HC. Qed.
Lemma preserves_clear_orphans o cs :
  preserves I (clearOrphanJobTasks o) /\ preserves I (clearOrphanJobContexts (e_ID (xo_row o)) cs).
Proof.
  split.
  - unfold clearOrphanJobTasks, loadTasksIDByJobID. store_split; first [by apply HC | by apply HR | apply preserves_clear_task_contexts].
  - unfold clearOrphanJobContexts. store_split; by apply HX.
Qed.

Lemma keeps_save_tasks fuel i : keeps (fun _ => True) (save_tasks fuel i).
Proof.
  revert i. induction fuel as [|fuel IH]; intros i; cbn [save_tasks]; [apply keeps_lift_any; store_split|].
  eapply save_keeps_bind; [apply keeps_object|]. intros o Ho. destruct (xo_tasks o !! i) as [t|] eqn:Et.
  2: { apply keeps_lift_any. store_split. }
  destruct Ho as (Hst & Hid & Hts). assert (taskP (t_TaskState (to_row t))) as Ht by (by eapply Hts, list_elem_of_lookup_2).
  eapply save_keeps_bind; [apply keeps_lift_any, preserves_new_id|]. intros tid _.
  eapply save_keeps_bind; [apply keeps_lift_any, preserves_own_contexts|]. intros cs _.
  eapply save_keeps_bind.
  { apply keeps_set. split_and!; [done|done|]. cbn. intros t' Ht'.
    apply list_elem_of_lookup in Ht' as [j Hj]. apply list_lookup_insert_Some in Hj as [(_ & <- & _)|[_ Hj]]; [done|].
    by eapply Hts, list_elem_of_lookup_2. }
  intros _ _. eapply save_keeps_bind; [apply keeps_lift_any; apply preserves_exec; intros d Hd; by apply HT|]. intros _ _.
  eapply save_keeps_bind; [apply keeps_lift_any; apply preserves_exec; intros d Hd; by apply HC|]. intros _ _. apply IH.
Qed.

Lemma keeps_save_body cost : keeps (fun _ => True) (save_body cost).
Proof.
  unfold save_body. eapply save_keeps_bind; [apply keeps_object|]. intros o (Hst & Hid & Hts).
  eapply (save_keeps_bind idP).
  { apply keeps_lift.
    - destruct (preserves_clear_orphans o (xo_contexts o)). store_split; done.
    - intros s i s'. cbn [e_ID set_e_UpdatedAt]. destruct (e_ID (xo_row o) == "") eqn:Ei.
      + intros [= <- _]. apply eqb_string_true in Ei. apply HU. destruct Hid as [[Hn _]|Hid]; [done|]. apply HN. by rewrite <- Ei.
      + intros HB. destruct Hid as [[_ Hid]|Hid]; [by rewrite Hid, eqb_string_refl in Ei|].
        unfold bind in HB. repeat case_match; try discriminate. by injection HB as <- _. }
  intros i Hi. eapply save_keeps_bind; [apply keeps_lift_any, preserves_own_contexts|]. intros cs _.
  eapply (save_keeps_bind (fun e => e_JobState e = st /\ idP (e_ID e))).
  { apply keeps_lift.
    - unfold calcCost. store_split.
    - intros s e s'. destruct (State.CanFinalize _); [|by intros [= <- _]].
      unfold bind. repeat case_match; try discriminate; by intros [= <- _]. }
  intros e [He Hei]. eapply save_keeps_bind.
  { apply keeps_set. split_and!; [done|by right|]. cbn. intros t Ht. apply list_elem_of_fmap in Ht as (t0 & -> & Ht0). by apply (Hts t0). }
  intros _ _. eapply save_keeps_bind; [apply keeps_lift_any; by apply HE|]. intros _ _.
  eapply save_keeps_bind; [apply keeps_lift_any; apply preserves_exec; intros d Hd; by apply HX|]. intros _ _.
  apply keeps_save_tasks.
Qed.

Lemma save_keeps_attempt cost : keeps (fun _ => True) (attempt cost).
Proof.
  intros o s Ho Hs. unfold attempt. pose proof (keeps_save_body cost o s Ho Hs) as HB.
  destruct (save_body cost o s) as [[[u|e] o1] s1]; destruct HB as (Ho1 & Hs1 & _); [|done].
  by destruct (err (statements s1)).
Qed.

Lemma keeps_save_loop cost isNew n last :
  (isNew = true -> new) -> keeps (fun _ => True) (save_loop cost isNew n last).
Proof.
  intros Hnew. revert last. induction n as [|n IH]; intros last o s Ho Hs; cbn [save_loop]; [done|].
  match goal with |- context [attempt cost ?o0 s] => assert (held o0) as Ho0 by
    (destruct isNew; [|done]; destruct Ho as (Hst & _ & Hts); split_and!; [done|left; auto|done]) end.
  pose proof (save_keeps_attempt cost _ s Ho0 Hs) as HA. destruct (attempt cost _ s) as [[[u|e] o1] s1];
    destruct HA as (Ho1 & Hs1 & _); [done|]. destruct (isDeadlockError e); [by apply IH|done].
Qed.

Lemma preserves_Save_execution cost o :
  held o -> preserves I (Save cost (Some o)).
Proof.
  intros Ho s Hs. unfold Save. destruct (negb (valid_object o)); [done|].
  assert ((e_ID (xo_row o) == "") = true -> new) as Hnew.
  { intros Hi%eqb_string_true. destruct Ho as (_ & [[Hn _]|Hn] & _); [done|]. apply HN. by rewrite <- Hi. }
  pose proof (keeps_save_loop cost _ maxRetries (inl tt) Hnew (started_object o) s Ho Hs) as HL.
  destruct (save_loop _ _ _ _ _ s) as [[r o1] s1]. destruct HL as (_ & HL & _). by destruct r.
Qed.
End KeepsSave.

(** ** Sequences of calls *)
Section Calls.
Import Rows Store.
Open Scope store_scope.

(** The calls of the two repositories that change rows. *)
Inductive call :=
| CUpdateJobState (id : string) (oldState newState : RequestState) (msg code : string) (delay retried paused : Z)
| CUpdateRunningTimestamp (id : string)
| CSave (qc : Query.QueryContext) (valid : bool) (req : RequestRow) (ps : list OwnedRow)
| CSetReadyToExecute (id execID lastExecID : string)
| CUpdatePriority (qc : Query.QueryContext) (id : string) (priority : Z)
| CCancel (qc : Query.QueryContext) (id : string)
| CDelete (qc : Query.QueryContext) (id : string)
| CDeletePendingCron (qc : Query.QueryContext) (jobType : string)
| CPurge (jobType : string) (state : RequestState) (olderThan limit : Z)
| CTrigger (qc : Query.QueryContext) (id : string)
| CRestart (qc : Query.QueryContext) (id : string) (hard : bool) (def : string)
| CIncrement (id : string) (secs decr : Z) (msg : string)
| CRequeue (interval : Z)
| CExecGet (id : string)
| CReset (id : string)
| CFinalize (id : string) (oldState newState : RequestState) (msg code : string) (cpu delay retried paused : Z)
| CUpdateBoth (id : string) (oldState newState : RequestState) (currentTask : string)
| CContext (id : string) (cs : list OwnedRow)
| CTaskState (id : string) (oldState newState : RequestState)
| CSaveTask (task : Executions.TaskObj)
| CSaveExec (cost : Z) (exec : Executions.ExecObj)
| CDeleteTask (id : string)
| CDeleteExec (id : string).

Definition ignore {A} (m : M A) : M unit := m ;;; ret tt.

Definition run_call `{Env} (c : call) : M unit :=
  match c with
  | CUpdateJobState id o n msg code delay retried paused => Requests.UpdateJobState id o n msg code delay retried paused
  | CUpdateRunningTimestamp id => Requests.UpdateRunningTimestamp id
  | CSave qc valid req ps => ignore (Requests.Save qc valid req ps)
  | CSetReadyToExecute id x l => Requests.SetReadyToExecute id x l
  | CUpdatePriority qc id p => Requests.UpdatePriority qc id p
  | CCancel qc id => Requests.Cancel qc id
  | CDelete qc id => Requests.Delete qc id
  | CDeletePendingCron qc jt => Requests.DeletePendingCronByJobType qc jt
  | CPurge jt st older limit => ignore (Requests.PurgeOldRequests jt st older limit)
  | CTrigger qc id => Requests.Trigger qc id
  | CRestart qc id hard def => Requests.Restart qc id hard def
  | CIncrement id secs decr msg => Requests.IncrementScheduleAttempts id secs decr msg
  | CRequeue i => ignore (Requests.RequeueOrphanRequests i)
  | CExecGet id => ignore (Executions.Get id)
  | CReset id => Executions.ResetStateToReady id
  | CFinalize id o n msg code cpu delay retried paused =>
      Executions.FinalizeJobRequestAndExecutionState id o n msg code cpu delay retried paused
  | CUpdateBoth id o n t => Executions.UpdateJobRequestAndExecutionState id o n t
  | CContext id cs => Executions.UpdateJobContext id cs
  | CTaskState id o n => Executions.UpdateTaskState id o n
  | CSaveTask t => ignore (Executions.SaveTask t)
  | CSaveExec cost o => ignore (ExecutionSave.Save cost (Some o))
  | CDeleteTask id => Executions.DeleteTask id
  | CDeleteExec id => Executions.Delete id
  end.

(** A call with any clock and any failing statements. *)
Inductive call_step (fresh : string -> Prop) (allowed : call -> Prop) : DB -> DB -> Prop :=
| call_run (env : Env) (c : call) (s : St) :
    (forall n, fresh (@ulid env n)) -> allowed c -> call_step fresh allowed (db s) (db (snd (@run_call env c s))).

(** *** Executions keep their terminal state *)

(** The executions with an identifier are in state [st] or cancelled. *)
Definition settled (id : string) (st : RequestState) (d : DB) : Prop :=
  forall e, e ∈ executions d -> e_ID e = id -> e_JobState e = st \/ e_JobState e = State.CANCELLED.

Lemma settled_update id st p f d :
  settled id st d ->
  (forall e, p e = true -> e_ID (f e) = e_ID e /\
     (e_JobState (f e) = e_JobState e \/ e_JobState (f e) = State.CANCELLED \/
      State.IsTerminal (e_JobState e) = false)) ->
  State.IsTerminal st = true -> settled id st (snd (update_executions p f d)).
Proof.
  intros Hs Hf Ht e' He' Hid. apply elem_of_update in He' as (e & He & ->). specialize (Hs e He).
  destruct (p e) eqn:Ep; [|by apply Hs]. destruct (Hf e Ep) as [Hi [Hk|[Hk|Hk]]]; rewrite ?Hi, ?Hk in *.
  - by apply Hs.
  - by right.
  - exfalso. destruct (Hs Hid) as [E|E]; rewrite E in Hk; [congruence|]. vm_compute in Hk. discriminate.
Qed.

Lemma settled_eq id st d d' : executions d' = executions d -> settled id st d -> settled id st d'.
Proof. unfold settled. by intros ->. Qed.

Lemma settled_remove id st p d :
  settled id st d -> settled id st (set_executions (Sql.remove p (executions d)) d).
Proof. intros Hs e He. apply elem_of_remove in He as [He _]. by apply Hs. Qed.

Lemma settled_both `{Env} id st i o f g :
  State.IsTerminal st = true -> (forall e, e_ID (g e) = e_ID e) ->
  preserves (settled id st) (Executions.move_both i o f g).
Proof.
  intros Ht Hg. unfold Executions.move_both. store_split; [by eapply settled_eq|].
  apply settled_update; [done| |done]. intros e He. unfold Executions.execution_in in He. go_bool.
  destruct He as [_ He]. apply not_terminal_iff in He. split; [done|]. by right; right.
Qed.


(** Close a goal on a table the invariant does not look at, or on a condition
    that is explicit. *)
Ltac settled_frame :=
  first [by eapply settled_eq | by apply settled_remove | by (eapply settled_eq; [|apply settled_remove; eassumption])].

(** [Save] of an execution writes the state that its caller holds: the calls here
    are the others, and those of [Save] whose object is another execution or holds
    a state the execution may be in. *)
Definition respects (id : string) (st : RequestState) (c : call) : Prop :=
  match c with
  | CSaveExec _ o =>
      e_ID (Executions.xo_row o) = id ->
      e_JobState (Executions.xo_row o) = st \/ e_JobState (Executions.xo_row o) = State.CANCELLED
  | _ => True
  end.

Lemma settled_put `{Env} id st b e :
  (e_ID e = id -> e_JobState e = st \/ e_JobState e = State.CANCELLED) ->
  preserves (settled id st) (ExecutionSave.put_execution b e).
Proof.
  intros He. assert (forall d, settled id st d -> settled id st (set_executions (executions d ++ [e]) d)) as HA.
  { intros d Hd x Hx. apply elem_of_app in Hx as [Hx|Hx]; [by apply Hd|].
    by apply list_elem_of_singleton in Hx as ->. }
  unfold ExecutionSave.put_execution. store_split. destruct b; [destruct (existsb _ _); [done|by apply HA]|].
  destruct (existsb _ _); [|destruct save_upserts; [by apply HA|done]].
  intros x Hx. apply elem_of_update in Hx as (y & Hy & ->). destruct (Executions.by_id _ y); [done|by eauto].
Qed.

Lemma settled_Save `{Env} id st cost o :
  respects id st (CSaveExec cost o) -> (forall n, ulid n <> id) ->
  preserves (settled id st) (ExecutionSave.Save cost (Some o)).
Proof.
  cbn. intros Hr Hu.
  apply (preserves_Save_execution _ (e_JobState (Executions.xo_row o))
           True (fun i => i = e_ID (Executions.xo_row o) \/ i <> id) (fun _ => True)); try done.
  - intros b t d _ Hd. unfold ExecutionSave.put_task_row, Executions.insert_task, Executions.save_task_row.
    repeat case_match; done.
  - intros b e He [Hi|Hi]; apply settled_put; [|done]. rewrite Hi, He. exact Hr.
  - intros _ n. right. apply Hu.
  - split_and!; [done|by right; left|done].
Qed.

Lemma call_settled `{Env} id st c :
  State.IsTerminal st = true -> respects id st c -> (forall n, ulid n <> id) -> preserves (settled id st) (run_call c).
Proof.
  intros Ht Hre Hu. assert (forall d t, settled id st d -> settled id st (set_tasks t d)) as HT by done.
  destruct c; cbn; unfold ignore; try (by store_split; settled_frame).
  - unfold Requests.UpdateJobState. store_split; settled_frame.
  - unfold Requests.UpdateRunningTimestamp. store_split; settled_frame.
  - unfold Requests.Save, Requests.prepare, Requests.insert_request, Requests.replace_request. store_split; cbn; repeat case_match; settled_frame.
  - unfold Requests.SetReadyToExecute. store_split; settled_frame.
  - unfold Requests.UpdatePriority. store_split; settled_frame.
  - unfold Requests.Cancel. store_split; [settled_frame|]. apply settled_update; [done| |done].
    intros e _. split; [done|]. by right; left.
  - unfold Requests.Delete. store_split; settled_frame.
  - unfold Requests.DeletePendingCronByJobType. store_split; settled_frame.
  - unfold Requests.PurgeOldRequests, Requests.purge_tasks, Requests.purge_executions. store_split; settled_frame.
  - unfold Requests.Trigger. store_split; settled_frame.
  - unfold Requests.Restart. store_split; settled_frame.
  - unfold Requests.IncrementScheduleAttempts. store_split; settled_frame.
  - unfold Requests.RequeueOrphanRequests. store_split; settled_frame.
  - store_split. by apply preserves_exec_Get.
  - unfold Executions.ResetStateToReady. store_split. apply settled_update; [done| |done].
    intros e He. go_bool. destruct He as [_ He]. apply not_terminal_iff in He. split; [done|]. by right; right.
  - unfold Executions.FinalizeJobRequestAndExecutionState. store_split. by apply settled_both.
  - unfold Executions.UpdateJobRequestAndExecutionState. store_split. apply settled_both; [done|].
    intros e. by destruct (currentTask != "").
  - unfold Executions.UpdateJobContext, Executions.createJobContexts, Executions.clearOrphanJobContexts.
    store_split; [settled_frame|]. by apply preserves_job_contexts.
  - unfold Executions.UpdateTaskState. store_split; settled_frame.
  - store_split. by apply preserves_SaveTask.
  - store_split. by apply settled_Save.
  - unfold Executions.DeleteTask. store_split; settled_frame.
  - unfold Executions.Delete. store_split; [by apply preserves_exec_Get|by apply preserves_delete_tasks|].
    apply settled_update; [done| |done]. intros e _. split; [done|]. by left.
Qed.

(** C18: once the rows of an execution are in a terminal state, no sequence of
    calls of the two repositories, whatever their arguments, their clock and the
    statements that fail, takes them back: an execution that is COMPLETED, FAILED
    or CANCELLED stays in that state or becomes CANCELLED.  The one call that
    could is [Save] of an execution with an object that has this identifier and
    holds another state: it writes what the object holds, and the sequences here
    are those without it ([respects]).  New identifiers are not the execution's. *)
Theorem terminal_executions_are_final (id : string) (st : RequestState) (d d' : DB) :
  State.IsTerminal st = true ->
  rtc (call_step (fun u => u <> id) (respects id st)) d d' ->
  (forall e, e ∈ executions d -> e_ID e = id -> e_JobState e = st) ->
  forall e, e ∈ executions d' -> e_ID e = id -> e_JobState e = st \/ e_JobState e = State.CANCELLED.
Proof.
  intros Ht Hr Hd. assert (settled id st d) as Hs by (intros e He Hi; left; by apply Hd).
  clear Hd. fold (settled id st d'). induction Hr as [d|d d1 d2 Hstep _ IH]; [done|].
  apply IH. destruct Hstep as [env c s Hu Hc]. by apply call_settled.
Qed.

(** *** Requests that completed *)

Lemma preserves_transaction_ok `{Env} (I : DB -> Prop) {A} (m : M A) :
  (forall s a s', I (db s) -> m s = (inl a, s') -> I (db s')) -> preserves I (transaction m).
Proof.
  intros Hm s HI. unfold transaction. destruct (m s) as [[a|e] s'] eqn:E; [|done].
  destruct (err (statements s')); [done|]. exact (Hm s a s' HI E).
Qed.

Lemma bind_inl {A B} (m : M A) (k : A -> M B) s b s' :
  bind m k s = (inl b, s') -> exists a s1, m s = (inl a, s1) /\ k a s1 = (inl b, s').
Proof. unfold bind. destruct (m s) as [[a|e] s1]; intros E; [eauto|discriminate]. Qed.

Lemma exec_inl `{Env} {A} e (f : DB -> A * DB) s a s' :
  exec e f s = (inl a, s') -> f (db s) = (a, db s') /\ ulids s' = ulids s.
Proof.
  unfold exec. destruct (err (statements s)); [discriminate|]. destruct (f (db s)).
  intros [= -> <-]. done.
Qed.

Lemma expect_one_inl `{Env} n e s a s' : expect_one n e s = (inl a, s') -> n = 1 /\ s' = s.
Proof. unfold expect_one. destruct (Z.eqb_spec n 1); intros [= _ <-]; done. Qed.

(** What a joint move did when it succeeded: one request and one execution were
    in the old state, which is not terminal, and these rows changed. *)
Lemma move_both_inl `{Env} i o f g s a s' :
  Executions.move_both i o f g s = (inl a, s') ->
  Sql.count (Executions.request_in i o) (requests (db s)) = 1 /\
  Sql.count (Executions.execution_in i o) (executions (db s)) = 1 /\
  State.IsTerminal o = false /\
  db s' = set_executions (Sql.update (Executions.execution_in i o) g (executions (db s)))
            (set_requests (Sql.update (Executions.request_in i o) f (requests (db s))) (db s)).
Proof.
  unfold Executions.move_both. intros HB. apply bind_inl in HB as (n & s1 & H1 & HB).
  apply exec_inl in H1 as [H1 _]. unfold update_requests in H1. injection H1 as Hn Hdb1.
  apply bind_inl in HB as (u & s2 & H2 & HB). destruct (Z.eqb_spec n 1) as [->|Hne].
  2:{ apply bind_inl in H2 as (? & ? & _ & H2). discriminate H2. }
  injection H2 as _ <-. apply bind_inl in HB as (n2 & s3 & H3 & HB).
  apply exec_inl in H3 as [H3 _]. unfold update_executions in H3. injection H3 as Hn2 Hdb3.
  apply expect_one_inl in HB as [-> ->]. rewrite <- Hdb1 in Hn2, Hdb3. cbn in Hn2, Hdb3.
  repeat split; try done.
  destruct (count_pos (Executions.execution_in i o) (executions (db s))) as (e & _ & He); [lia|].
  unfold Executions.execution_in in He. go_bool. destruct He as [[_ ->] He].
  by apply not_terminal_iff.
Qed.

Definition done_request (id : string) (d : DB) : Prop :=
  forall r, r ∈ requests d -> r_ID r = id -> r_JobState r = State.COMPLETED.

Lemma done_eq id d d' : requests d' = requests d -> done_request id d -> done_request id d'.
Proof. unfold done_request. by intros ->. Qed.

Lemma done_remove id p d : done_request id d -> done_request id (set_requests (Sql.remove p (requests d)) d).
Proof. intros Hd r Hr. apply elem_of_remove in Hr as [Hr _]. by apply Hd. Qed.

Lemma done_update id p f d :
  done_request id d ->
  (forall r, p r = true -> r_ID (f r) = r_ID r /\
     (r_JobState (f r) = r_JobState r \/ r_JobState r <> State.COMPLETED)) ->
  done_request id (snd (update_requests p f d)).
Proof.
  intros Hd Hf r' Hr Hid. apply elem_of_update in Hr as (r & Hr & ->). destruct (p r) eqn:Ep; [|by apply Hd].
  destruct (Hf r Ep) as [Hi [Hk|Hk]]; rewrite ?Hi, ?Hk in *; [by apply Hd|].
  exfalso. apply Hk. by apply Hd.
Qed.

Lemma done_insert id r d :
  r_ID r <> id -> done_request id d -> done_request id (set_requests (requests d ++ [r]) d).
Proof.
  intros Hne Hd r' Hr Hid. apply elem_of_app in Hr as [Hr|Hr]; [by apply Hd|].
  apply list_elem_of_singleton in Hr as ->. done.
Qed.

(** Calls that say from which state they move a request, and new requests. *)
Definition guarded (c : call) : Prop :=
  match c with
  | CUpdateJobState _ oldState _ _ _ _ _ _ => oldState <> ""
  | CSave _ _ req _ => r_ID req = ""
  | _ => True
  end.

Ltac not_completed :=
  let Hs := fresh in intros Hs;
  match goal with H : _ = ?b |- _ => rewrite Hs in H; discriminate H end.

Lemma done_move `{Env} id i o f g s a s' :
  (forall r, r_ID (f r) = r_ID r) -> done_request id (db s) ->
  Executions.move_both i o f g s = (inl a, s') -> done_request id (db s').
Proof.
  intros Hf HI HB. apply move_both_inl in HB as (_ & _ & Ho & ->).
  eapply done_eq; [|eapply (done_update id (Executions.request_in i o) f (db s)); [done|]]; [done|].
  intros r Hr. split; [apply Hf|]. right. unfold Executions.request_in in Hr. go_bool. destruct Hr as [_ ->].
  not_completed.
Qed.

Lemma state_updates_id `{Env} new msg code delay retried paused key r :
  r_ID (Requests.state_updates new msg code delay retried paused key r) = r_ID r.
Proof. unfold Requests.state_updates. by repeat case_match. Qed.

Lemma finalize_request_id `{Env} new msg code delay retried paused key r :
  r_ID (Executions.finalize_request new msg code delay retried paused key r) = r_ID r.
Proof. unfold Executions.finalize_request. by repeat case_match. Qed.

Ltac done_frame := first [by eapply done_eq | by apply done_remove].

(** A new request gets an identifier of [ulid]. *)
Lemma done_Save `{Env} id qc valid req ps :
  r_ID req = "" -> (forall n, ulid n <> id) -> preserves (done_request id) (Requests.Save qc valid req ps).
Proof.
  intros Hid Hu. unfold Requests.Save. store_step; [store_split|]. apply preserves_transaction.
  apply (preserves_bind_post _ (fun x => fst (fst x) = true /\ r_ID (snd (fst x)) <> id)).
  - unfold Requests.prepare. store_split; done.
  - unfold Requests.prepare. cbn [r_ID Requests.owned_by set_r_UserID set_r_OrganizationID]. rewrite Hid, eqb_string_refl.
    intros s x s' HB. apply bind_inl in HB as (row & s1 & HB1 & HB). apply bind_inl in HB1 as (i & s2 & [= <- _] & [= <- _]).
    apply bind_inl in HB as (row & s3 & HB1 & HB). apply bind_inl in HB as (ps' & s4 & _ & [= <- _]). split; [done|].
    cbn [fst snd]. destruct (r_UserKey _ == ""); [apply bind_inl in HB1 as (k & s5 & _ & [= <- _])|injection HB1 as <- _]; apply Hu.
  - intros [[newReq row] ps'] [Hn Hrow]. cbn [fst snd] in *. subst newReq. store_split. unfold Requests.insert_request. store_split.
    destruct (Requests.taken row (requests d)); [done|]. by apply (done_insert id row d).
Qed.

Lemma done_Save_execution `{Env} id cost o : preserves (done_request id) (ExecutionSave.Save cost (Some o)).
Proof.
  apply (preserves_Save_execution _ (e_JobState (Executions.xo_row o)) True (fun _ => True) (fun _ => True)); try done.
  - intros b t d _ Hd. unfold ExecutionSave.put_task_row, Executions.insert_task, Executions.save_task_row.
    repeat case_match; done.
  - intros b e _ _. unfold ExecutionSave.put_execution. store_split. repeat case_match; done.
  - split_and!; [done|by right|done].
Qed.

Lemma call_done `{Env} id c :
  guarded c -> (forall n, ulid n <> id) -> preserves (done_request id) (run_call c).
Proof.
  intros Hg Hu. assert (forall d t, done_request id d -> done_request id (set_tasks t d)) as HT by done.
  destruct c; cbn; unfold ignore; cbn in Hg.
  - unfold Requests.UpdateJobState. store_split. apply done_update; [done|]. intros r Hr. split; [apply state_updates_id|].
    right. go_bool. destruct Hr as [_ Hr]. destruct (String.eqb_spec oldState ""); [done|]. cbn [negb] in Hr.
    apply eqb_string_true in Hr. rewrite Hr. destruct Heqb as [?|Hc]; [done|]. intros ->. discriminate Hc.
  - unfold Requests.UpdateRunningTimestamp. store_split. apply done_update; [done|]. intros r _. split; [done|by left].
  - store_split. by apply done_Save.
  - unfold Requests.SetReadyToExecute. store_split. apply done_update; [done|]. intros r Hr. split; [done|].
    right. go_bool. destruct Hr as [_ Hr]. not_completed.
  - unfold Requests.UpdatePriority. store_split. apply done_update; [done|]. intros r _. split; [done|by left].
  - unfold Requests.Cancel. store_split; [|done_frame]. apply done_update; [done|]. intros row Hr. split; [done|].
    right. go_bool. destruct Hr as [_ Hr]. not_completed.
  - unfold Requests.Delete. store_split; done_frame.
  - unfold Requests.DeletePendingCronByJobType. store_split; done_frame.
  - unfold Requests.PurgeOldRequests, Requests.purge_tasks, Requests.purge_executions. store_split; done_frame.
  - unfold Requests.Trigger. store_split. apply done_update; [done|]. intros r _. split; [done|by left].
  - unfold Requests.Restart. store_split. apply done_update; [done|]. intros r Hr. split; [by unfold Requests.restart_row; case_match|].
    right. go_bool. destruct Hr as [[_ Hr] _]. not_completed.
  - unfold Requests.IncrementScheduleAttempts. store_split. apply done_update; [done|]. intros r _. split; [done|by left].
  - unfold Requests.RequeueOrphanRequests. store_split. apply done_update; [done|]. intros r Hr. split; [done|].
    right. unfold Requests.orphan in Hr. go_bool. destruct Hr as [Hr _]. not_completed.
  - store_split. by apply preserves_exec_Get.
  - unfold Executions.ResetStateToReady. store_split. done_frame.
  - unfold Executions.FinalizeJobRequestAndExecutionState. store_step; [store_split|]. apply preserves_transaction_ok.
    intros s a s' HI HB. apply bind_inl in HB as (x & s1 & H1 & HB). eapply done_move; [|shelve|exact HB].
    intros r. apply finalize_request_id.
    Unshelve. destruct (State.IsTerminal newState); by injection H1 as _ <-.
  - unfold Executions.UpdateJobRequestAndExecutionState. store_step; [store_split|]. apply preserves_transaction_ok.
    intros s a s' HI HB. eapply done_move; [|exact HI|exact HB]. intros r. by destruct (currentTask != "").
  - unfold Executions.UpdateJobContext, Executions.createJobContexts, Executions.clearOrphanJobContexts.
    store_split; [done_frame|]. by apply preserves_job_contexts.
  - unfold Executions.UpdateTaskState. store_split; done_frame.
  - store_split. by apply preserves_SaveTask.
  - store_split. by apply done_Save_execution.
  - unfold Executions.DeleteTask. store_split; done_frame.
  - unfold Executions.Delete. store_split; [by apply preserves_exec_Get|by apply preserves_delete_tasks|done_frame].
Qed.

(** A request that completed stays completed, or is removed: every sequence
    of repository calls that name the state they move a request from, or create
    a request with a new identifier, leaves its state COMPLETED; restart, cancel,
    orphan handling and the joint update of request and execution all refuse it. *)
Theorem completed_requests_are_final (id : string) (d d' : DB) :
  rtc (call_step (fun u => u <> id) guarded) d d' ->
  (forall r, r ∈ requests d -> r_ID r = id -> r_JobState r = State.COMPLETED) ->
  forall r, r ∈ requests d' -> r_ID r = id -> r_JobState r = State.COMPLETED.
Proof.
  intros Hr Hd. fold (done_request id d) in Hd. fold (done_request id d').
  induction Hr as [d|d d1 d2 Hstep _ IH]; [done|]. apply IH. destruct Hstep as [env c s Hu Hg]. by apply call_done.
Qed.

(** *** Compare and set *)

Lemma count_one_split {A} (p : A -> bool) f t :
  Sql.count p t = 1 ->
  exists l1 x l2, t = l1 ++ x :: l2 /\ p x = true /\ Sql.update p f t = l1 ++ f x :: l2 /\
    (forall y, y ∈ l1 ++ l2 -> p y = false).
Proof.
  unfold Sql.count. induction t as [|x t IH]; cbn; [done|]. destruct (p x) eqn:E; cbn; intros Hc.
  - assert (List.filter p t = []) as Hn by (destruct (List.filter p t); [done|cbn in Hc; lia]).
    exists [], x, t. split; [done|]. split; [done|].
    assert (forall y, y ∈ t -> p y = false) as Hf.
    { intros y Hy. destruct (p y) eqn:Ey; [|done]. exfalso.
      assert (y ∈ Sql.select p t) as Hs by (by apply elem_of_select). unfold Sql.select in Hs. rewrite Hn in Hs.
      by apply not_elem_of_nil in Hs. }
    split; [|by cbn]. cbn. f_equal. apply (count_zero_update p f t). unfold Sql.count. by rewrite Hn.
  - destruct (IH Hc) as (l1 & y & l2 & -> & Hy & Hu & Hf). exists (x :: l1), y, l2.
    split; [done|]. split; [done|]. split; [unfold Sql.update in *; cbn; by rewrite Hu|].
    intros z [->|Hz]%elem_of_cons; [done|by apply Hf].
Qed.

Definition expected (id : string) (oldState : RequestState) (r : RequestRow) : bool :=
  Requests.by_id id r && (if oldState != "" then r_JobState r == oldState else true).

Lemma UpdateJobState_run `{Env} id o n msg code delay retried paused s :
  (o != "") && negb (State.CanTransitionTo o n) = false ->
  exists key us,
  Requests.UpdateJobState id o n msg code delay retried paused s =
    if err (statements s) then (inr NotFoundError, mkSt (db s) (S (statements s)) us)
    else (if Sql.count (expected id o) (requests (db s)) =? 1 then inl tt else inr NotFoundError,
          mkSt (set_requests (Sql.update (expected id o)
                  (Requests.state_updates n msg code delay retried paused key) (requests (db s))) (db s))
               (S (statements s)) us).
Proof.
  intros Hg. unfold Requests.UpdateJobState. rewrite Hg. unfold bind, exec, ulid_Make, ret, update_requests, expect_one, throw, failure.
  exists (if State.IsTerminal n then ulid (ulids s) else ""), (if State.IsTerminal n then S (ulids s) else ulids s).
  unfold expected. destruct (State.IsTerminal n); cbn; destruct (err (statements s)); try reflexivity; by case_match.
Qed.

Lemma set_requests_same d : set_requests (requests d) d = d.
Proof. by destruct d. Qed.

Lemma state_updates_state `{Env} new msg code delay retried paused key r :
  r_JobState (Requests.state_updates new msg code delay retried paused key r) = new.
Proof. unfold Requests.state_updates. by repeat case_match. Qed.

(** The state of a request changes by compare and set.  With unique
    identifiers, [UpdateJobState] succeeds exactly when its statement does not
    fail, the transition from the given state is one the life cycle allows and
    the row is in that state (any state, when none is given); then this row alone
    changes and is in the new state.  Otherwise nothing changes. *)
Theorem job_state_update_is_compare_and_set `{Env} (id : string) (oldState newState : RequestState)
    (msg code : string) (delay retried paused : Z) (s s' : St) (res : unit + error) :
  NoDup (map r_ID (requests (db s))) ->
  Requests.UpdateJobState id oldState newState msg code delay retried paused s = (res, s') ->
  let allowed := oldState = "" \/ State.CanTransitionTo oldState newState = true in
  let matching r := r_ID r = id /\ (oldState = "" \/ r_JobState r = oldState) in
  (res = inl tt <-> err (statements s) = false /\ allowed /\ exists r, r ∈ requests (db s) /\ matching r) /\
  match res with
  | inl _ => exists l1 r r' l2, requests (db s) = l1 ++ r :: l2 /\ matching r /\
      db s' = set_requests (l1 ++ r' :: l2) (db s) /\ r_ID r' = id /\ r_JobState r' = newState
  | inr _ => db s' = db s
  end.
Proof.
  intros HN HU allowed matching.
  assert (forall r, expected id oldState r = true <-> matching r) as Hm.
  { intros r. unfold expected, Requests.by_id, matching. destruct (String.eqb_spec oldState "") as [->|Ho]; cbn [negb];
      rewrite andb_true_iff, !eqb_string_true; intuition congruence. }
  destruct ((oldState != "") && negb (State.CanTransitionTo oldState newState)) eqn:Hg.
  { unfold Requests.UpdateJobState in HU. rewrite Hg in HU. injection HU as <- <-. split; [|done].
    split; [discriminate|]. intros (_ & [->|Hc] & _); [discriminate Hg|]. rewrite Hc, andb_false_r in Hg. discriminate. }
  assert allowed as Ha by (unfold allowed; apply andb_false_iff in Hg as [Hg|Hg]; go_bool; tauto).
  destruct (UpdateJobState_run id oldState newState msg code delay retried paused s Hg) as (key & us & HR).
  rewrite HR in HU. destruct (err (statements s)); [injection HU as <- <-; split; [|done]; split; [discriminate|intuition discriminate]|].
  destruct (count_unique (expected id oldState) r_ID id (requests (db s)) HN) as [Hc0 Hc1].
  { intros r Hr. by apply Hm in Hr as []. }
  destruct (Z.eqb_spec (Sql.count (expected id oldState) (requests (db s))) 1) as [Hc|Hc]; injection HU as <- <-.
  - destruct (count_one_split (expected id oldState) (Requests.state_updates newState msg code delay retried paused key) _ Hc)
      as (l1 & r & l2 & Hl & Hr & Hup & _). apply Hm in Hr. split.
    + split; [|done]. intros _. split; [done|]. split; [done|]. exists r. rewrite Hl. split; [set_solver|done].
    + exists l1, r, (Requests.state_updates newState msg code delay retried paused key r), l2. cbn. rewrite Hup.
      rewrite state_updates_id, state_updates_state. destruct Hr as [Hi Ho]. done.
  - assert (Sql.count (expected id oldState) (requests (db s)) = 0) as H0 by lia. split.
    + split; [discriminate|]. intros (_ & _ & r & Hr & HM). exfalso. apply Hm in HM.
      unfold Sql.count in H0. destruct (List.filter (expected id oldState) (requests (db s))) eqn:Ef; [|cbn in H0; lia].
      assert (r ∈ Sql.select (expected id oldState) (requests (db s))) as Hs by (by apply elem_of_select).
      unfold Sql.select in Hs. rewrite Ef in Hs. by apply not_elem_of_nil in Hs.
    + cbn. by rewrite count_zero_update, set_requests_same.
Qed.

(** *** Joint moves *)

(** The calls that change the state of a request and of its execution. *)
Inductive joint_move `{Env} (id : string) (oldState newState : RequestState) : M unit -> Prop :=
| joint_update currentTask :
    joint_move id oldState newState (Executions.UpdateJobRequestAndExecutionState id oldState newState currentTask)
| joint_finalize msg code cpu delay retried paused :
    joint_move id oldState newState
      (Executions.FinalizeJobRequestAndExecutionState id oldState newState msg code cpu delay retried paused).

Lemma transaction_inv `{Env} {A} (m : M A) s res s' :
  transaction m s = (res, s') ->
  match res with
  | inl a => exists s1, m s = (inl a, s1) /\ db s' = db s1
  | inr _ => db s' = db s
  end.
Proof.
  unfold transaction. destruct (m s) as [[a|e] s1] eqn:E; [|by intros [= <- <-]].
  destruct (err (statements s1)); intros [= <- <-]; [done|]. eauto.
Qed.

Lemma joint_inv `{Env} id o n m s res s' :
  joint_move id o n m -> m s = (res, s') ->
  match res with
  | inl _ => exists f g s0 s1, db s0 = db s /\ Executions.move_both id o f g s0 = (inl tt, s1) /\ db s' = db s1 /\
      (forall r, r_ID (f r) = r_ID r /\ r_JobState (f r) = n) /\ (forall e, e_ID (g e) = e_ID e /\ e_JobState (g e) = n)
  | inr _ => db s' = db s
  end.
Proof.
  intros [t|msg code cpu delay retried paused] HR.
  - unfold Executions.UpdateJobRequestAndExecutionState in HR.
    destruct (State.IsTerminal n); [by injection HR as <- <-|].
    apply transaction_inv in HR. destruct res as [[]|e]; [|done]. destruct HR as (s1 & HR & Hdb).
    do 4 eexists. split; [reflexivity|]. split; [exact HR|]. split; [done|].
    split; intros x; by destruct (t != "").
  - unfold Executions.FinalizeJobRequestAndExecutionState in HR.
    destruct (negb (State.CanFinalize n)); [by injection HR as <- <-|].
    apply transaction_inv in HR. destruct res as [[]|e]; [|done]. destruct HR as (s1 & HR & Hdb).
    apply bind_inl in HR as (key & s0 & Hk & HR).
    exists (Executions.finalize_request n msg code delay retried paused key), (Executions.finalize_execution n msg code cpu), s0, s1.
    split; [destruct (State.IsTerminal n); by injection Hk as _ <-|]. split; [done|]. split; [done|].
    split; [|done]. intros r. split; [apply finalize_request_id|].
    unfold Executions.finalize_request. by repeat case_match.
Qed.

(** C3: a request and its execution change state together or not at all.  A call
    that moves both either changes no table, or it finds exactly one request
    that points to the execution and exactly one execution with the identifier,
    both in the old state, which is not a terminal one, and leaves both, and no
    other row, in the new state. *)
Theorem request_and_execution_move_together `{Env} (id : string) (oldState newState : RequestState)
    (m : M unit) (s s' : St) (res : unit + error) :
  joint_move id oldState newState m -> m s = (res, s') ->
  match res with
  | inr _ => db s' = db s
  | inl _ =>
      State.IsTerminal oldState = false /\
      exists q1 r r' q2 x1 e e' x2,
        requests (db s) = q1 ++ r :: q2 /\ r_JobExecutionID r = Some id /\ r_JobState r = oldState /\
        executions (db s) = x1 ++ e :: x2 /\ e_ID e = id /\ e_JobState e = oldState /\
        db s' = set_executions (x1 ++ e' :: x2) (set_requests (q1 ++ r' :: q2) (db s)) /\
        r_ID r' = r_ID r /\ r_JobState r' = newState /\ e_ID e' = id /\ e_JobState e' = newState
  end.
Proof.
  intros HJ HR. apply (joint_inv _ _ _ _ _ _ _ HJ) in HR. destruct res as [[]|err0]; [|done].
  destruct HR as (f & g & s0 & s1 & H0 & HB & H1 & Hf & Hg).
  apply move_both_inl in HB as (Hq & Hx & Ht & Hdb). rewrite H0 in Hq, Hx, Hdb. split; [done|].
  apply (count_one_split _ f) in Hq as (q1 & r & q2 & Hq & Hr & Hqu & _).
  apply (count_one_split _ g) in Hx as (x1 & e & x2 & Hx & He & Hxu & _).
  unfold Executions.request_in in Hr. unfold Executions.execution_in, Executions.by_id in He. go_bool.
  destruct Hr as [Hr Hr2], He as [[He He2] _]. destruct (Hf r) as [Hfi Hfs], (Hg e) as [Hgi Hgs].
  exists q1, r, (f r), q2, x1, e, (g e), x2. rewrite H1, Hdb, Hqu, Hxu. repeat split; try done; [|by rewrite Hgi].
  unfold Sql.null_eq in Hr. destruct (r_JobExecutionID r); [|done]. by apply eqb_string_true in Hr as ->.
Qed.

(** *** Saved tasks *)

Lemma try_inl {A} (m : M A) s a s' : try m s = (inl a, s') -> exists r, m s = (r, s').
Proof. unfold try. destruct (m s) as [r s1]. intros [= _ <-]. by exists r. Qed.

Lemma put_task_contexts_tasks `{Env} i cs s r s' :
  Executions.put_task_contexts i cs s = (r, s') -> tasks (db s') = tasks (db s).
Proof.
  intros HR. assert (preserves (fun d => tasks d = tasks (db s)) (Executions.put_task_contexts i cs)) as HP
    by (by apply preserves_task_contexts).
  specialize (HP s eq_refl). by rewrite HR in HP.
Qed.

Definition active_of (execID taskType : string) (d : DB) : list TaskRow :=
  Sql.select (Executions.same_task execID taskType) (tasks d).

Lemma update_tasks_inl `{Env} e p f s n s' :
  exec e (update_tasks p f) s = (inl n, s') -> tasks (db s') = Sql.update p f (tasks (db s)).
Proof. intros HE. apply exec_inl in HE as [HE _]. unfold update_tasks in HE. injection HE as _ <-. done. Qed.

(** A row of the same type that is still active after the deactivation of the
    rows selected by [p] is one [p] does not select. *)
Lemma deactivated `{Env} p x l : x ∈ Sql.update p Executions.deactivate l ->
  t_Active x = true -> x ∈ l /\ p x = false.
Proof.
  intros Hx Ha. apply elem_of_update in Hx as (y & Hy & ->). destruct (p y) eqn:E; [discriminate Ha|done].
Qed.

Lemma update_key {A} (key : A -> string) (p : A -> bool) f l :
  (forall x, key (f x) = key x) -> map key (Sql.update p f l) = map key l.
Proof.
  intros Hf. unfold Sql.update. rewrite map_map. apply map_ext. intros x. by destruct (p x).
Qed.

Lemma save_task_row_only `{Env} t d d' x :
  NoDup (map t_ID (tasks d)) ->
  Executions.save_task_row (fun x => (t_ID x == t_ID t) && Executions.not_terminal (t_TaskState x)) t d = (1, d') ->
  x ∈ tasks d' -> t_ID x = t_ID t -> x = t.
Proof.
  intros HN. unfold Executions.save_task_row. destruct (existsb _ (tasks d)) eqn:Ee.
  - unfold update_tasks. intros [= _ <-] Hx Hid. apply elem_of_update in Hx as (y & Hy & ->).
    destruct ((t_ID y == t_ID t) && _) eqn:Ep; [done|]. exfalso.
    apply existsb_exists in Ee as (z & Hz & Hpz). apply list_elem_of_In in Hz. go_bool. destruct Hpz as [Hzi Hzt].
    assert (z = y) as ->.
    { apply list_elem_of_lookup in Hz as [i Hi], Hy as [j Hj].
      assert (i = j) as ->.
      { eapply (NoDup_lookup (map t_ID (tasks d))); [done| |]; rewrite list_lookup_fmap; [by rewrite Hi|rewrite Hj; cbn; congruence]. }
      congruence. }
    rewrite Hzi, Hzt in Ep. destruct Ep; congruence.
  - destruct save_upserts; intros [= <-]. cbn.
    intros [Hx|Hx]%elem_of_app Hid; [|by apply list_elem_of_singleton in Hx].
    apply elem_of_remove in Hx as [_ Hx]. go_bool. done.
Qed.

(** A saved task is the only active one of its type.  When [SaveTask]
    succeeds on a table with unique task identifiers, every active row of the
    same execution and task type is the row just saved: earlier attempts of the
    task, and duplicates left by concurrent runs, are inactive. *)
Theorem saved_task_is_only_active `{Env} (task : Executions.TaskObj) (t : TaskRow) (s s' : St) :
  NoDup (map t_ID (tasks (db s))) ->
  Executions.SaveTask task s = (inl t, s') ->
  t_Active t = true /\
  forall x, x ∈ active_of (t_JobExecutionID t) (t_TaskType t) (db s') -> x = t.
Proof.
  intros HN HR. unfold Executions.SaveTask in HR. destruct (t_TaskType (Executions.to_row task) == ""); [discriminate|].
  apply transaction_inv in HR as (s1 & HR & ->). apply bind_inl in HR as (t0 & s2 & H2 & HR).
  apply bind_inl in HR as (n & s3 & H3 & HR). apply bind_inl in HR as (u4 & s4 & H4 & HR).
  apply expect_one_inl in H4 as [-> ->]. apply bind_inl in HR as (u5 & s5 & H5 & [= <- <-]).
  apply put_task_contexts_tasks in H5. set (t := set_t_Active true t0) in *. split; [done|].
  intros x Hx. apply elem_of_select in Hx as [Hx Hs]. rewrite H5 in Hx.
  assert (Executions.same_task (t_JobExecutionID t) (t_TaskType t) x = true) as Hst by done.
  unfold Executions.same_task in Hs. go_bool. destruct Hs as [_ Ha].
  assert (db s2 = db s) as H2db.
  { destruct (t_ID (Executions.to_row task) == ""); [apply bind_inl in H2 as (u & s0 & [= _ <-] & [= _ <-])|injection H2 as _ <-]; done. }
  destruct (t_ID (Executions.to_row task) == "").
  - apply bind_inl in H3 as (u6 & s6 & H6 & H3). apply update_tasks_inl in H6.
    apply exec_inl in H3 as [[= H3] _]. rewrite <- H3 in Hx. cbn in Hx.
    apply elem_of_app in Hx as [Hx|Hx]; [|by apply list_elem_of_singleton in Hx].
    rewrite H6 in Hx. apply deactivated in Hx as [_ Hx]; [|done]. congruence.
  - apply bind_inl in H3 as (u6 & s6 & H6 & H3). apply update_tasks_inl in H6.
    apply bind_inl in H3 as (u7 & s7 & H7 & H3). apply try_inl in H7 as (r7 & H7).
    assert (tasks (db s7) = tasks (db s6)) as H76.
    { unfold exec in H7. destruct (err (statements s6)); injection H7 as _ <-; done. }
    apply exec_inl in H3 as [H3 _].
    assert (map t_ID (tasks (db s7)) = map t_ID (tasks (db s))) as Hids.
    { rewrite H76, H6, H2db. by apply update_key. }
    destruct (decide (t_ID x = t_ID t)) as [Hid|Hid].
    + eapply save_task_row_only; [|exact H3|exact Hx|exact Hid]. by rewrite Hids.
    + exfalso. assert (x ∈ tasks (db s7)) as Hx7.
      { unfold Executions.save_task_row in H3. destruct (existsb _ _).
        - injection H3 as _ H3. rewrite <- H3 in Hx. apply elem_of_update in Hx as (y & Hy & ->).
          case_match; [done|exact Hy].
        - destruct save_upserts; [|discriminate]. injection H3 as H3. rewrite <- H3 in Hx. cbn in Hx.
          apply elem_of_app in Hx as [Hx|Hx]; [by apply elem_of_remove in Hx as []|].
          apply list_elem_of_singleton in Hx as ->. done. }
      rewrite H76, H6 in Hx7. apply deactivated in Hx7 as [_ Hx7]; [|done].
      rewrite Hst in Hx7. cbn in Hx7. go_bool. done.
Qed.

(** *** Purging *)

Definition ids {A} (key : A -> string) (t : list A) : list string := map key t.
Definition owned_by (owners : list string) (t : list OwnedRow) : Prop := forall o, o ∈ t -> o_Owner o ∈ owners.

(** Every row belongs to a row that exists. *)
Record references_ok (d : DB) : Prop := {
  ref_executions : forall e, e ∈ executions d -> e_JobRequestID e ∈ ids r_ID (requests d);
  ref_tasks : forall t, t ∈ tasks d -> t_JobExecutionID t ∈ ids e_ID (executions d);
  ref_params : owned_by (ids r_ID (requests d)) (params d);
  ref_artifacts : owned_by (ids r_ID (requests d)) (artifacts d);
  ref_logs : owned_by (ids e_ID (executions d)) (log_events d);
  ref_exec_contexts : owned_by (ids e_ID (executions d)) (exec_contexts d);
  ref_task_contexts : owned_by (ids t_ID (tasks d)) (task_contexts d);
  ref_uses : owned_by (ids t_ID (tasks d)) (resource_uses d);
  ref_votes : owned_by (ids t_ID (tasks d)) (approval_votes d);
  ref_deadlines : owned_by (ids t_ID (tasks d)) (approval_deadlines d)
}.

(** The executions of requests and the tasks of executions, by identifier. *)
Definition execs_of (reqIDs : list string) (d : DB) : list string :=
  map e_ID (Sql.select (fun e => Sql.one_of (e_JobRequestID e) reqIDs) (executions d)).
Definition tasks_of (execIDs : list string) (d : DB) : list string :=
  map t_ID (Sql.select (fun t => Sql.one_of (t_JobExecutionID t) execIDs) (tasks d)).

(** The tables without the given requests and what belongs to them. *)
Definition purged (reqIDs : list string) (d : DB) : DB :=
  let execIDs := execs_of reqIDs d in
  let taskIDs := tasks_of execIDs d in
  mkDB (Sql.remove (fun r => Sql.one_of (r_ID r) reqIDs) (requests d))
    (Sql.remove (fun e => Sql.one_of (e_ID e) execIDs) (executions d))
    (Sql.remove (fun t => Sql.one_of (t_ID t) taskIDs) (tasks d))
    (definitions d)
    (Requests.remove_owned reqIDs (params d)) (Requests.remove_owned execIDs (exec_contexts d))
    (Requests.remove_owned taskIDs (task_contexts d)) (Requests.remove_owned reqIDs (artifacts d))
    (Requests.remove_owned execIDs (log_events d)) (Requests.remove_owned taskIDs (resource_uses d))
    (Requests.remove_owned taskIDs (approval_votes d)) (Requests.remove_owned taskIDs (approval_deadlines d)).

Lemma remove_none {A} (key : A -> string) t : Sql.remove (fun x => Sql.one_of (key x) []) t = t.
Proof. unfold Sql.remove. induction t as [|x t IH]; cbn in *; [done|]. by rewrite IH. Qed.

Lemma exec_unit_inl `{Env} e (f : DB -> DB) s u s' : exec e (fun d => (tt, f d)) s = (inl u, s') -> db s' = f (db s).
Proof. intros HE. by apply exec_inl in HE as [[= _ <-] _]. Qed.

Lemma purge_tasks_inl `{Env} l s u s' :
  Requests.purge_tasks l s = (inl u, s') ->
  db s' = set_tasks (Sql.remove (fun t => Sql.one_of (t_ID t) l) (tasks (db s)))
    (set_task_contexts (Requests.remove_owned l (task_contexts (db s)))
    (set_resource_uses (Requests.remove_owned l (resource_uses (db s)))
    (set_approval_deadlines (Requests.remove_owned l (approval_deadlines (db s)))
    (set_approval_votes (Requests.remove_owned l (approval_votes (db s))) (db s))))).
Proof.
  destruct l as [|x l]; cbn [Requests.purge_tasks].
  - intros [= _ <-]. unfold Requests.remove_owned. rewrite !remove_none. by destruct (db s).
  - intros HB. apply bind_inl in HB as (u1 & s1 & H1%exec_unit_inl & HB). apply bind_inl in HB as (u2 & s2 & H2%exec_unit_inl & HB).
    apply bind_inl in HB as (u3 & s3 & H3%exec_unit_inl & HB). apply bind_inl in HB as (u4 & s4 & H4%exec_unit_inl & HB).
    apply exec_unit_inl in HB. by rewrite HB, H4, H3, H2, H1.
Qed.

Lemma purge_executions_inl `{Env} l s u s' :
  Requests.purge_executions l s = (inl u, s') ->
  db s' = set_executions (Sql.remove (fun e => Sql.one_of (e_ID e) l) (executions (db s)))
    (set_exec_contexts (Requests.remove_owned l (exec_contexts (db s)))
    (set_log_events (Requests.remove_owned l (log_events (db s))) (db s))).
Proof.
  destruct l as [|x l]; cbn [Requests.purge_executions].
  - intros [= _ <-]. unfold Requests.remove_owned. rewrite !remove_none. by destruct (db s).
  - intros HB. apply bind_inl in HB as (u1 & s1 & H1%exec_unit_inl & HB). apply bind_inl in HB as (u2 & s2 & H2%exec_unit_inl & HB).
    apply exec_unit_inl in HB. by rewrite HB, H2, H1.
Qed.

Lemma query_inl `{Env} {A} e (f : DB -> A) s a s' : query e f s = (inl a, s') -> a = f (db s) /\ db s' = db s.
Proof. intros HE. by apply exec_inl in HE as [[= <- <-] _]. Qed.

Lemma purged_nil d : purged [] d = d.
Proof.
  assert (execs_of [] d = []) as He.
  { unfold execs_of, Sql.select. induction (executions d); cbn; done. }
  assert (tasks_of [] d = []) as Ht.
  { unfold tasks_of, Sql.select. induction (tasks d); cbn; done. }
  unfold purged. rewrite He, Ht. unfold Requests.remove_owned. rewrite !remove_none. by destruct d.
Qed.

(** The requests that a purge selects. *)
Definition selected (jobType : string) (state : RequestState) (olderThan limit : Z) (d : DB) : list string :=
  take (Z.to_nat (if limit <=? 0 then 500 else limit))
    (map r_ID (Sql.select (Requests.old_request jobType state olderThan) (requests d))).

Lemma purge_inl `{Env} jobType state olderThan limit s res s' :
  Requests.PurgeOldRequests jobType state olderThan limit s = (res, s') ->
  match res with
  | inl n => State.IsTerminal state = true /\
      let reqIDs := selected jobType state olderThan limit (db s) in
      db s' = purged reqIDs (db s) /\ n = Sql.count (fun r => Sql.one_of (r_ID r) reqIDs) (requests (db s))
  | inr _ => db s' = db s
  end.
Proof.
  unfold Requests.PurgeOldRequests. destruct (State.IsTerminal state); cbn [negb]; [|by intros [= <- <-]].
  intros HT%transaction_inv. destruct res as [n|e]; [|done]. split; [done|]. destruct HT as (s1 & HB & ->).
  apply bind_inl in HB as (reqIDs & s2 & Hq & HB). apply query_inl in Hq as [Hq H2].
  fold (selected jobType state olderThan limit (db s)) in Hq. subst reqIDs.
  destruct (selected jobType state olderThan limit (db s)) as [|q0 qs] eqn:Eq.
  { injection HB as <- <-. rewrite purged_nil, H2. split; [done|]. cbn.
    unfold Sql.count. induction (requests (db s)); cbn; done. }
  rewrite <- Eq in HB |- *. set (reqIDs := selected jobType state olderThan limit (db s)) in *.
  apply bind_inl in HB as (execIDs & s3 & Hx & HB). apply query_inl in Hx as [Hx H3].
  rewrite H2 in Hx, H3. fold (execs_of reqIDs (db s)) in Hx. subst execIDs.
  apply bind_inl in HB as (taskIDs & s4 & Ht & HB).
  assert (taskIDs = tasks_of (execs_of reqIDs (db s)) (db s) /\ db s4 = db s) as [-> H4].
  { destruct (execs_of reqIDs (db s)) as [|x0 xs].
    - injection Ht as <- <-. split; [|done]. unfold tasks_of, Sql.select. by induction (tasks (db s)).
    - apply query_inl in Ht as [-> ->]. by rewrite H3. }
  apply bind_inl in HB as (u5 & s5 & H5%purge_tasks_inl & HB).
  apply bind_inl in HB as (u6 & s6 & H6%purge_executions_inl & HB).
  apply bind_inl in HB as (u7 & s7 & H7%exec_unit_inl & HB).
  apply bind_inl in HB as (u8 & s8 & H8%exec_unit_inl & HB).
  apply exec_inl in HB as [HB _]. injection HB as <- <-.
  rewrite H8, H7, H6, H5, H4. done.
Qed.

(** What is kept still has the row it belongs to. *)
Lemma kept_owner {A} (key : A -> string) (gone : list string) (t : list A) owner :
  owner ∈ ids key t -> owner ∉ gone -> owner ∈ ids key (Sql.remove (fun x => Sql.one_of (key x) gone) t).
Proof.
  unfold ids. intros (x & -> & Hx)%list_elem_of_fmap Hg. apply list_elem_of_fmap. exists x. split; [done|].
  apply elem_of_remove. split; [done|]. destruct (Sql.one_of (key x) gone) eqn:E; [|done].
  by apply one_of_iff in E.
Qed.

Lemma kept_owned {A} (key : A -> string) (gone : list string) (t : list A) os :
  owned_by (ids key t) os ->
  owned_by (ids key (Sql.remove (fun x => Sql.one_of (key x) gone) t)) (Requests.remove_owned gone os).
Proof.
  intros Ho o Hin. apply elem_of_remove in Hin as [Hin Hk]. apply kept_owner; [by apply Ho|].
  intros Hg. apply one_of_iff in Hg. congruence.
Qed.

(** A row that is kept does not belong to a parent that is removed. *)
Lemma kept_parent {A} (key parent : A -> string) (gone : list string) (t : list A) x :
  x ∈ Sql.remove (fun y => Sql.one_of (key y) (map key (Sql.select (fun z => Sql.one_of (parent z) gone) t))) t ->
  x ∈ t /\ parent x ∉ gone.
Proof.
  intros [Hx Hk]%elem_of_remove. split; [done|]. intros Hg. assert (Sql.one_of (key x)
    (map key (Sql.select (fun z => Sql.one_of (parent z) gone) t)) = true) as Hin; [|congruence].
  apply one_of_iff, list_elem_of_fmap. exists x. split; [done|]. apply elem_of_select. split; [done|]. by apply one_of_iff.
Qed.

Lemma purged_references reqIDs d : references_ok d -> references_ok (purged reqIDs d).
Proof.
  intros [He Ht Hp Ha Hl Hxc Htc Hu Hv Hd]. split; cbn; try (by apply kept_owned).
  - intros e Hin. apply (kept_parent e_ID e_JobRequestID) in Hin as [Hin Hg]. apply kept_owner; [by apply He|done].
  - intros t Hin. apply (kept_parent t_ID t_JobExecutionID) in Hin as [Hin Hg]. apply kept_owner; [by apply Ht|done].
Qed.

Lemma count_remove {A} (p : A -> bool) t :
  Sql.count p t = Z.of_nat (List.length t) - Z.of_nat (List.length (Sql.remove p t)).
Proof.
  unfold Sql.count, Sql.remove. induction t as [|x t IH]; [done|]. cbn [List.filter List.length].
  destruct (p x); cbn [negb List.length]; lia.
Qed.

(** A purge removes old terminal requests and nothing else, and leaves no
    row without the row it belongs to.  It either changes no table, or the state
    it was given is a terminal one and every request it removes is of the given
    type, in that state and older than the given time; it removes at most the
    given number (500 when it is not positive) and reports how many; and
    executions, tasks, parameters, contexts, artifacts, logs, approvals and
    resource uses keep referring to rows that exist. *)
Theorem purge_removes_only_old_requests `{Env} (jobType : string) (state : RequestState) (olderThan limit : Z)
    (s s' : St) (res : Z + error) :
  NoDup (map r_ID (requests (db s))) ->
  Requests.PurgeOldRequests jobType state olderThan limit s = (res, s') ->
  match res with
  | inr _ => db s' = db s
  | inl n =>
      State.IsTerminal state = true /\
      (forall r, r ∈ requests (db s) -> r ∉ requests (db s') ->
         r_JobType r = jobType /\ r_JobState r = state /\ r_UpdatedAt r < olderThan) /\
      (forall r, r ∈ requests (db s') -> r ∈ requests (db s)) /\
      n = Z.of_nat (List.length (requests (db s))) - Z.of_nat (List.length (requests (db s'))) /\
      n <= (if limit <=? 0 then 500 else limit) /\
      (references_ok (db s) -> references_ok (db s'))
  end.
Proof.
  intros HN HR%purge_inl. destruct res as [n|e]; [|done]. destruct HR as (Ht & Hdb & Hn). cbn zeta in *.
  set (reqIDs := selected jobType state olderThan limit (db s)) in *. rewrite Hdb. split; [done|].
  split; [|split; [|split; [|split]]].
  - intros r Hr Hg. cbn in Hg. rewrite elem_of_remove in Hg.
    destruct (Sql.one_of (r_ID r) reqIDs) eqn:E; [|by exfalso; apply Hg]. apply one_of_iff in E.
    apply elem_of_take in E as (i & Hi & _). apply list_elem_of_lookup_2 in Hi.
    apply list_elem_of_fmap in Hi as (r' & Hid & Hin). apply elem_of_select in Hin as [Hin Ho].
    assert (r = r') as ->.
    { apply list_elem_of_lookup in Hr as [k Hk], Hin as [j Hj].
      assert (k = j) as ->; [|congruence].
      eapply (NoDup_lookup (map r_ID (requests (db s)))); [done| |]; rewrite list_lookup_fmap; [by rewrite Hk|rewrite Hj; cbn; congruence]. }
    unfold Requests.old_request in Ho. go_bool. tauto.
  - intros r Hr. by apply elem_of_remove in Hr as [].
  - cbn. by rewrite Hn, count_remove.
  - rewrite Hn. transitivity (Z.of_nat (List.length reqIDs)).
    + clear -HN. unfold Sql.count.
      assert (List.length (List.filter (fun r => Sql.one_of (r_ID r) reqIDs) (requests (db s))) <= List.length reqIDs)%nat; [|lia].
      rewrite <- (length_map r_ID). apply (submseteq_length (A:=string)), NoDup_submseteq.
      * eapply sublist_NoDup; [exact HN|]. apply fmap_sublist, filter_sublist.
      * intros x (r & -> & Hr)%list_elem_of_fmap. apply elem_of_select in Hr as [_ Hr]. by apply one_of_iff.
    + unfold reqIDs, selected. rewrite length_take. destruct (limit <=? 0) eqn:El; go_bool; lia.
  - apply purged_references.
Qed.

(** *** The queue of schedulable requests *)

Lemma schedule_asym a b : Requests.schedule_before a b = true -> Requests.schedule_before b a = false.
Proof.
  unfold Requests.schedule_before. rewrite (Z.eqb_sym (r_JobPriority b)).
  destruct (r_JobPriority a =? r_JobPriority b); go_bool; lia.
Qed.

Lemma schedule_trans a b c :
  not_after Requests.schedule_before a b -> not_after Requests.schedule_before b c ->
  not_after Requests.schedule_before a c.
Proof.
  unfold not_after, Requests.schedule_before.
  destruct (Z.eqb_spec (r_JobPriority b) (r_JobPriority a)), (Z.eqb_spec (r_JobPriority c) (r_JobPriority b)),
    (Z.eqb_spec (r_JobPriority c) (r_JobPriority a)); go_bool; lia.
Qed.

Lemma StronglySorted_app_inv {A} (R : A -> A -> Prop) l1 l2 :
  StronglySorted R (l1 ++ l2) -> StronglySorted R l1 /\ forall x y, x ∈ l1 -> y ∈ l2 -> R x y.
Proof.
  induction l1 as [|z l1 IH]; cbn; intros HS; [split; [constructor|intros x y Hx; by apply not_elem_of_nil in Hx]|].
  inversion HS as [|? ? HS' HF]; subst. destruct (IH HS') as [H1 H2]. rewrite Forall_app in HF. destruct HF as [F1 F2].
  split; [by constructor|]. intros x y [->|Hx]%elem_of_cons Hy; [|by apply H2].
  rewrite Forall_forall in F2. by apply F2.
Qed.

(** What makes a request due, and the order in which due requests are taken. *)
Record due (jobTypes : list string) (states : list RequestState) (now : Z) (d : DB) (r : RequestRow) : Prop := {
  due_state : r_JobState r ∈ states;
  due_time : r_ScheduledAt r <= now;
  due_type : jobTypes = [] \/ r_JobType r ∈ jobTypes;
  due_definition : exists def, def ∈ definitions d /\ d_JobType def = r_JobType r /\ d_Disabled def = false /\
    d_Active def = true /\ (d_UserID def = r_UserID r \/ d_OrganizationID def = r_OrganizationID r)
}.
Abbreviation taken_before a b := (sooner (r_JobPriority a) (r_CreatedAt a) (r_JobPriority b) (r_CreatedAt b)).

Lemma schedulable_spec `{Env} jobTypes states d r :
  Requests.schedulable jobTypes states d r = true <-> due jobTypes states now d r.
Proof.
  unfold Requests.schedulable, Requests.schedulable_definition.
  rewrite !andb_true_iff, Z.leb_le, one_of_iff, existsb_exists. split.
  - intros [[[(def & Hd & HP) Hs] Ht] Hj]. go_bool. split; try done.
    + destruct jobTypes; [by left|right]. by apply one_of_iff.
    + exists def. rewrite list_elem_of_In. tauto.
  - intros [Hs Ht Hj (def & Hd & H1 & H2 & H3 & H4)]. split_and!; try done.
    + exists def. rewrite <- list_elem_of_In. split; [done|].
      rewrite H1, H2, H3, eqb_string_refl. cbn. destruct H4 as [->| ->]; rewrite eqb_string_refl; [done|apply orb_true_r].
    + destruct jobTypes; [done|]. destruct Hj as [?|?]; [done|]. by apply one_of_iff.
Qed.

Lemma schedule_before_spec a b : Requests.schedule_before a b = false <-> ~ taken_before a b.
Proof. unfold Requests.schedule_before, sooner. destruct (Z.eqb_spec (r_JobPriority a) (r_JobPriority b)); go_bool; lia. Qed.

(** C22: the scheduler's query, when it does not fail, returns the due requests in
    the order of their priority and, for equal priority, of their age: at most
    [limit] rows, each a request in one of the given states and of one of the given
    types (any, if none is given), scheduled for now or earlier, whose type has an
    enabled and active definition with the user or the organization of the request;
    and a request that qualifies is left out only when the limit is reached, and
    then it is to be taken before none of the rows returned. *)
Theorem schedulable_queue_is_complete `{Env} (jobTypes : list string) (states : list RequestState) (limit : nat)
    (s s' : St) (rows : list RequestRow) :
  Requests.NextSchedulableJobsByTypes jobTypes states limit s = (inl rows, s') ->
  StronglySorted (fun a b => ~ taken_before b a) rows /\
  (List.length rows <= limit)%nat /\
  (forall r, r ∈ rows -> r ∈ requests (db s) /\ due jobTypes states now (db s) r) /\
  (forall r, r ∈ requests (db s) -> due jobTypes states now (db s) r -> r ∉ rows ->
     List.length rows = limit /\ forall r', r' ∈ rows -> ~ taken_before r r').
Proof.
  unfold Requests.NextSchedulableJobsByTypes. intros [-> _]%query_inl.
  set (all := sort_slice _ _).
  assert (StronglySorted (not_after Requests.schedule_before) all) as HS
    by (apply sort_slice_ordered; [apply schedule_asym|apply schedule_trans]).
  assert (forall r, r ∈ all <-> r ∈ requests (db s) /\ due jobTypes states now (db s) r) as Hall.
  { intros r. unfold all. rewrite sort_slice_perm, <- schedulable_spec. apply elem_of_select. }
  rewrite <- (take_drop limit all) in HS. apply StronglySorted_app_inv in HS as [HS Hrest].
  split; [eapply StronglySorted_weaken; [|exact HS]; intros a b; apply schedule_before_spec|].
  split; [rewrite length_take; lia|]. split.
  - intros r Hr. apply Hall. rewrite <- (take_drop limit all). set_solver.
  - intros r Hr Hs Hn. assert (r ∈ drop limit all) as Hd.
    { assert (r ∈ all) as Hin by (by apply Hall). rewrite <- (take_drop limit all) in Hin. set_solver. }
    split; [|intros r' Hr'; by apply schedule_before_spec, Hrest]. rewrite length_take.
    apply list_elem_of_lookup in Hd as [i Hi]. apply lookup_lt_Some in Hi. rewrite length_drop in Hi. lia.
Qed.

(** *** Saving an execution *)
Section SaveSpec.
Import Executions ExecutionSave.
Context `{Env}.

Lemma bind_o_inl {A B} (m : MO A) (k : A -> MO B) o s b o' s' :
  bind_o m k o s = (inl b, o', s') -> exists a o1 s1, m o s = (inl a, o1, s1) /\ k a o1 s1 = (inl b, o', s').
Proof. unfold bind_o. destruct (m o s) as [[[a|e] o1] s1]; intros E; [eauto|discriminate]. Qed.

Lemma lift_inl {A} (m : M A) o s a o' s' : lift m o s = (inl a, o', s') -> m s = (inl a, s') /\ o' = o.
Proof. unfold lift. destruct (m s) as [r s1]. by intros [= -> <- <-]. Qed.

Lemma own_contexts_db owner cs s r s' : own_contexts owner cs s = (r, s') -> db s' = db s.
Proof.
  intros HR. assert (preserves (fun d => d = db s) (own_contexts owner cs)) as HP.
  { clear HR. induction cs as [|c cs IH]; cbn; unfold new_id; store_split; done. }
  specialize (HP s eq_refl). by rewrite HR in HP.
Qed.

Lemma own_contexts_owner owner cs s cs' s' :
  own_contexts owner cs s = (inl cs', s') -> forall c, c ∈ cs' -> o_Owner c = owner.
Proof.
  revert cs' s s'. induction cs as [|c cs IH]; intros cs' s s'; cbn; [intros [= <- _]; set_solver|].
  intros HB. apply bind_inl in HB as (i & s1 & _ & HB). apply bind_inl in HB as (rest & s2 & HR & [= <- _]).
  intros x Hx. apply elem_of_cons in Hx as [->|Hx]; [done|]. by eapply IH.
Qed.

(** Saving the tasks leaves the executions, their contexts and those of the
    object alone. *)
Lemma save_tasks_frame fuel i o s u o' s' :
  save_tasks fuel i o s = (inl u, o', s') ->
  executions (db s') = executions (db s) /\ exec_contexts (db s') = exec_contexts (db s) /\
  xo_row o' = xo_row o /\ xo_contexts o' = xo_contexts o.
Proof.
  revert i o s. induction fuel as [|fuel IH]; intros i o s; cbn [save_tasks]; [by intros [= _ <- <-]|].
  intros HB. apply bind_o_inl in HB as (o0 & o1 & s1 & [= -> <- <-] & HB).
  destruct (xo_tasks o0 !! i) as [t|]; [|by injection HB as _ <- <-].
  apply bind_o_inl in HB as (id & o2 & s2 & [H2 ->]%lift_inl & HB).
  apply bind_o_inl in HB as (cs & o3 & s3 & [H3 ->]%lift_inl & HB).
  apply bind_o_inl in HB as (u4 & o4 & s4 & [= _ <- <-] & HB).
  apply bind_o_inl in HB as (n & o5 & s5 & [H5 ->]%lift_inl & HB).
  apply bind_o_inl in HB as (u6 & o6 & s6 & [H6%exec_unit_inl ->]%lift_inl & HB).
  apply IH in HB as (HB & HB' & -> & ->). rewrite HB, HB', H6. cbn.
  assert (db s2 = db s) as E2.
  { unfold new_id in H2. destruct (t_ID (to_row t) == ""); by injection H2 as _ <-. }
  apply own_contexts_db in H3. apply exec_inl in H5 as [H5 _]. rewrite H3, E2 in H5.
  unfold put_task_row, insert_task, save_task_row, update_tasks in H5. repeat case_match; injection H5 as _ <-; done.
Qed.

Lemma put_execution_stored newJob e s u s' :
  put_execution newJob e s = (inl u, s') ->
  newJob = true \/ save_upserts = true \/ e_ID e ∈ map e_ID (executions (db s)) ->
  e ∈ executions (db s').
Proof.
  intros HB Hok. unfold put_execution in HB. apply bind_inl in HB as (ok & s1 & H1 & HB).
  destruct ok; [|discriminate]. injection HB as _ <-. apply exec_inl in H1 as [H1 _].
  destruct newJob.
  - destruct (existsb _ _); [discriminate|]. injection H1 as H1. rewrite <- H1. cbn. set_solver.
  - destruct (existsb (by_id (e_ID e)) (executions (db s))) eqn:Ee.
    + injection H1 as H1. rewrite <- H1. cbn. apply existsb_exists in Ee as (x & Hx & Hp). apply list_elem_of_In in Hx.
      apply elem_of_update. exists x. split; [done|]. by rewrite Hp.
    + destruct save_upserts; injection H1 as H1; rewrite <- H1; [cbn; set_solver|].
      destruct Hok as [?|[?|Hin]]; [done..|]. exfalso.
      apply list_elem_of_fmap in Hin as (x & Hid & Hx). apply not_true_iff_false in Ee. apply Ee.
      apply existsb_exists. exists x. split; [by apply list_elem_of_In|]. unfold by_id. rewrite Hid. apply eqb_string_refl.
Qed.

Lemma put_execution_others newJob e s u s' x :
  put_execution newJob e s = (inl u, s') -> e_ID x <> e_ID e ->
  x ∈ executions (db s') <-> x ∈ executions (db s).
Proof.
  intros HB Hx. unfold put_execution in HB. apply bind_inl in HB as (ok & s1 & H1 & HB).
  destruct ok; [|discriminate]. injection HB as _ <-. apply exec_inl in H1 as [H1 _].
  assert (x ∈ executions (db s) ++ [e] <-> x ∈ executions (db s)) as Happ.
  { rewrite elem_of_app, list_elem_of_singleton. split; [intros [?| ->]; done|by left]. }
  repeat case_match; try discriminate; injection H1 as H1; rewrite <- H1; try done. cbn. rewrite elem_of_update. split.
  - intros (y & Hy & ->). unfold by_id in Hx |- *. destruct (e_ID y == e_ID e); done.
  - intros Hin. exists x. split; [done|]. unfold by_id. by rewrite (proj2 (String.eqb_neq _ _)).
Qed.

(** What a save that succeeds has done: the contexts of the execution are those
    of the object returned, the other executions are as before, and the row is
    in the table when it was new, was there before, or gorm inserts it. *)
Record saved (o : ExecObj) (d d' : DB) (o' : ExecObj) : Prop := {
  saved_row : e_ID (xo_row o) = "" \/ save_upserts = true \/ e_ID (xo_row o) ∈ map e_ID (executions d) ->
    xo_row o' ∈ executions d';
  saved_contexts : forall c, c ∈ exec_contexts d' /\ o_Owner c = e_ID (xo_row o') <-> c ∈ xo_contexts o';
  saved_others : forall e, e_ID e <> e_ID (xo_row o') -> e ∈ executions d' <-> e ∈ executions d
}.

Lemma replaced_contexts owner cs t :
  (forall c, c ∈ cs -> o_Owner c = owner) ->
  forall c, c ∈ replace_contexts owner cs t /\ o_Owner c = owner <-> c ∈ cs.
Proof.
  intros Ho c. unfold replace_contexts. rewrite elem_of_app, elem_of_remove. split; [|by auto].
  intros [[[_ Hc]|Hc] <-]; [|done]. by rewrite eqb_string_refl in Hc.
Qed.

(** The statements before the row is written leave the executions alone. *)
Lemma before_put (newJob : bool) o cs s i s' :
  (if newJob then ulid_Make
   else bind (clearOrphanJobTasks o) (fun _ =>
        bind (clearOrphanJobContexts (e_ID (xo_row o)) cs) (fun _ => ret (e_ID (xo_row o))))) s = (inl i, s') ->
  executions (db s') = executions (db s) /\ (newJob = false -> i = e_ID (xo_row o)).
Proof.
  intros HB. split.
  - assert (preserves (fun d => executions d = executions (db s)) (clearOrphanJobTasks o) /\
            preserves (fun d => executions d = executions (db s)) (clearOrphanJobContexts (e_ID (xo_row o)) cs)) as [HP1 HP2]
      by (by apply preserves_clear_orphans).
    destruct newJob; [by injection HB as _ <-|]. apply bind_inl in HB as (u1 & s1 & H1 & HB).
    apply bind_inl in HB as (u2 & s2 & H2 & [= _ <-]). specialize (HP1 s eq_refl). rewrite H1 in HP1.
    specialize (HP2 s1 HP1). by rewrite H2 in HP2.
  - intros ->. apply bind_inl in HB as (u1 & s1 & _ & HB). by apply bind_inl in HB as (u2 & s2 & _ & [= <- _]).
Qed.

(** The finished row has the identifier chosen for it. *)
Lemma finished_row (newJob : bool) cost i e s e' s' :
  (if State.CanFinalize (e_JobState e) then
     bind (if newJob then ret 0 else calcCost i) (fun c =>
     ret (set_e_EndedAt (Some now) (set_e_CPUSecs (if (0 <? c) && (cost <? c) then c else cost) e)))
   else ret e) s = (inl e', s') -> e_ID e' = e_ID e /\ db s' = db s.
Proof.
  destruct (State.CanFinalize _); [|by intros [= <- <-]]. intros HB. apply bind_inl in HB as (c & s1 & HC & [= <- <-]).
  split; [done|]. destruct newJob; [by injection HC as _ <-|].
  assert (preserves (fun d => d = db s) (calcCost i)) as HP by (unfold calcCost; store_split).
  specialize (HP s eq_refl). by rewrite HC in HP.
Qed.

Lemma attempt_spec cost o s res o' s' :
  attempt cost o s = (res, o', s') ->
  match res with inr _ => db s' = db s | inl _ => saved o (db s) (db s') o' end.
Proof.
  unfold attempt. destruct (save_body cost o s) as [[[u|e] o1] s1] eqn:EB; [|by intros [= <- <- <-]].
  destruct (err (statements s1)); intros [= <- <- <-]; [done|]. cbn.
  unfold save_body in EB. apply bind_o_inl in EB as (o2 & o3 & s2 & [= <- <- <-] & EB).
  apply bind_o_inl in EB as (id & o4 & s4 & [[H4 Hid]%before_put ->]%lift_inl & EB).
  apply bind_o_inl in EB as (cs & o5 & s5 & [H5 ->]%lift_inl & EB).
  apply bind_o_inl in EB as (e & o6 & s6 & [[H6 H6']%finished_row ->]%lift_inl & EB). cbn in H6.
  apply bind_o_inl in EB as (u7 & o7 & s7 & [= _ <- <-] & EB).
  apply bind_o_inl in EB as (u8 & o8 & s8 & [H8 ->]%lift_inl & EB).
  apply bind_o_inl in EB as (u9 & o9 & s9 & [H9%exec_unit_inl ->]%lift_inl & EB).
  apply save_tasks_frame in EB as (EB & EB' & Hrow & Hcs). cbn in Hrow, Hcs.
  pose proof (own_contexts_owner _ _ _ _ _ H5) as Howner. apply own_contexts_db in H5.
  assert (executions (db s6) = executions (db s)) as H6e by (by rewrite H6', H5, H4).
  split; rewrite ?EB, ?EB', ?Hrow, ?Hcs, H9; cbn.
  - intros Hok. eapply put_execution_stored; [exact H8|]. rewrite H6e, H6. cbn in Hid |- *.
    destruct (String.eqb_spec (e_ID (xo_row o)) "") as [Hi|Hi]; [by left|]. rewrite (Hid eq_refl).
    destruct Hok as [?|Hok]; [done|by right].
  - rewrite H6. by apply replaced_contexts.
  - intros x Hx. rewrite (put_execution_others _ _ _ _ _ x H8 Hx). by rewrite H6e.
Qed.

(** An attempt that fails leaves the identifier of an existing execution. *)
Lemma attempt_id cost o s r o' s' :
  e_ID (xo_row o) <> "" -> attempt cost o s = (r, o', s') -> e_ID (xo_row o') = e_ID (xo_row o).
Proof.
  intros Hi HA.
  assert (keeps (fun _ => True) (e_JobState (xo_row o)) False (fun i => i = e_ID (xo_row o)) (fun _ => True)
            (fun _ => True) (attempt cost)) as HK.
  { apply save_keeps_attempt; try done. }
  specialize (HK o s). rewrite HA in HK. destruct HK as ((_ & [[Hf _]|Ho] & _) & _).
  - split_and!; [done|by right|done].
  - done.
  - done.
  - exact Ho.
Qed.

Lemma saved_same o o0 d d' o' :
  e_ID (xo_row o0) = e_ID (xo_row o) -> saved o0 d d' o' -> saved o d d' o'.
Proof. intros E [H1 H2 H3]. split; [by rewrite <- E|done|done]. Qed.

Lemma save_loop_spec cost n last o o0 s res o' s' :
  (e_ID (xo_row o0) = "" \/ e_ID (xo_row o) = e_ID (xo_row o0)) -> (0 < n)%nat ->
  save_loop cost (e_ID (xo_row o0) == "") n last o s = (res, o', s') ->
  match res with inr _ => db s' = db s | inl _ => saved o0 (db s) (db s') o' end.
Proof.
  revert last o s. induction n as [|n IH]; intros last o s Hid Hn HL; [lia|]. cbn [save_loop] in HL.
  set (o1 := if e_ID (xo_row o0) == "" then _ else o) in HL.
  assert (e_ID (xo_row o1) = e_ID (xo_row o0)) as H1.
  { unfold o1. destruct (String.eqb_spec (e_ID (xo_row o0)) "") as [->|?]; [done|]. by destruct Hid. }
  destruct (attempt cost o1 s) as [[r1 o2] s1] eqn:EA. pose proof (attempt_spec cost o1 s r1 o2 s1 EA) as HA.
  destruct r1 as [u|e]; [injection HL as <- <- <-; by eapply saved_same|].
  destruct (isDeadlockError e); [|by injection HL as <- <- <-].
  destruct n as [|n]; [cbn in HL; by injection HL as <- <- <-|].
  rewrite <- HA. apply (IH (inr e) o2 s1); [|lia|done].
  destruct (decide (e_ID (xo_row o0) = "")); [by left|right]. rewrite <- H1. eapply attempt_id; [by rewrite H1|exact EA].
Qed.

End SaveSpec.


End Calls.

(** ** Examples *)
Section StoreDemo.
Import Rows Store.

Definition demo_env : Env :=
  {| now := 1000000000000; err := fun _ => false; deadlock := fun _ => false;
     ulid := fun n => "ulid-" +:+ itoa (Z.of_nat n); save_upserts := true; not_in_empty := false;
     elapsed := fun a b => a - b |}.
Local Existing Instance demo_env.

Definition demo_request (id : string) (exec : option string) (state : RequestState) (priority created : Z) : RequestRow :=
  mkRequestRow id "" ("key-" +:+ id) "def-1" exec None "org" "user" "build" "" state priority 0 0 0 false
    None None "" 10 created 20 false false.
Definition demo_execution (id request : string) (state : RequestState) : ExecRow :=
  mkExecRow id request true "build" "" state 0 "user" "org" "" "" "" 10 None 20.
Definition demo_task (id : string) (active : bool) (state : RequestState) : TaskRow :=
  mkTaskRow id "x1" "compile" active state 0 0 10 None 20.

Definition demo_db : DB :=
  mkDB [demo_request "r1" (Some "x1") State.EXECUTING 5 100; demo_request "r2" None State.PENDING 5 50;
        demo_request "r3" (Some "x3") State.COMPLETED 9 70; demo_request "r4" None State.PENDING 7 80]
    [demo_execution "x1" "r1" State.EXECUTING; demo_execution "x3" "r3" State.COMPLETED]
    [demo_task "t1" true State.FAILED; demo_task "t2" true State.EXECUTING]
    [mkDefRow "def-1" "build" "" false "" "" 0 5 false true "user" "org" "" "" "" ["compile"]]
    [mkOwnedRow "p1" "r3" "Branch" "string" ""] [mkOwnedRow "c1" "x3" "Rev" "string" ""] [mkOwnedRow "c2" "t1" "Out" "string" ""]
    [mkOwnedRow "a1" "r3" "" "string" ""] [mkOwnedRow "l1" "x3" "" "string" ""] [] [] [].
Definition demo_st : St := mkSt demo_db 0 0.

Lemma demo_ids : NoDup (map r_ID (requests (db demo_st))).
Proof. apply (bool_decide_unpack _). vm_compute. exact Logic.I. Qed.
Lemma demo_task_ids : NoDup (map t_ID (tasks (db demo_st))).
Proof. apply (bool_decide_unpack _). vm_compute. exact Logic.I. Qed.

(** Saving the completed execution as it is, and restarting its request. *)
Abbreviation completed_object := (Executions.mkExecObj (demo_execution "x3" "r3" State.COMPLETED) [] []).
Abbreviation after_save := (snd (run_call (CSaveExec 0 completed_object) demo_st)).
Abbreviation after_restart := (snd (run_call (CRestart (Query.NewQueryContext None) "r3" true "") demo_st)).
Abbreviation completed_row := (mkExecRow "x3" "r3" true "build" "" State.COMPLETED 0 "user" "org" "" "" "" 10
  (Some 1000000000000) 1000000000000).

Lemma terminal_executions_are_final_witness :
  e_JobState completed_row = State.COMPLETED \/ e_JobState completed_row = State.CANCELLED.
Proof.
  refine (terminal_executions_are_final "x3" State.COMPLETED demo_db (db after_save) eq_refl
    (rtc_once _ _ (call_run _ _ demo_env (CSaveExec 0 completed_object) demo_st _ _)) _ completed_row _ eq_refl).
  - intros n. discriminate.
  - intros _. left. reflexivity.
  - intros e He Hid. cbn in He. apply elem_of_cons in He as [->|He]; [discriminate Hid|].
    apply elem_of_cons in He as [->|He]; [reflexivity|by apply not_elem_of_nil in He].
  - vm_compute. apply list_elem_of_further, list_elem_of_here.
Defined.

(** [Save] with an object that holds another state opens the execution again. *)
Example stale_save_reopens :
  map e_JobState (Sql.select (Executions.by_id "x3") (executions (db (snd (run_call
    (CSaveExec 0 (Executions.mkExecObj (demo_execution "x3" "r3" State.EXECUTING) [] [])) demo_st))))) = [State.EXECUTING].
Proof. vm_compute. reflexivity. Qed.

Lemma completed_requests_are_final_witness :
  r_JobState (demo_request "r3" (Some "x3") State.COMPLETED 9 70) = State.COMPLETED.
Proof.
  refine (completed_requests_are_final "r3" demo_db (db after_restart)
    (rtc_once _ _ (call_run _ _ demo_env (CRestart (Query.NewQueryContext None) "r3" true "") demo_st _ Logic.I))
    _ (demo_request "r3" (Some "x3") State.COMPLETED 9 70) _ eq_refl).
  - intros n. discriminate.
  - intros r Hr Hid. cbn in Hr. do 2 (apply elem_of_cons in Hr as [->|Hr]; [discriminate Hid|]).
    apply elem_of_cons in Hr as [->|Hr]; [reflexivity|].
    apply elem_of_cons in Hr as [->|Hr]; [discriminate Hid|by apply not_elem_of_nil in Hr].
  - vm_compute. do 2 apply list_elem_of_further. apply list_elem_of_here.
Defined.

Abbreviation ready_call := (Requests.UpdateJobState "r2" State.PENDING State.READY "" "" 0 0 0 demo_st).

Lemma job_state_update_is_compare_and_set_witness :
  exists l1 r r' l2, requests (db demo_st) = l1 ++ r :: l2 /\
    (r_ID r = "r2" /\ (State.PENDING = "" \/ r_JobState r = State.PENDING)) /\
    db (snd ready_call) = set_requests (l1 ++ r' :: l2) (db demo_st) /\ r_ID r' = "r2" /\ r_JobState r' = State.READY.
Proof.
  refine (proj2 (job_state_update_is_compare_and_set "r2" State.PENDING State.READY "" "" 0 0 0 demo_st
    (snd ready_call) (inl tt) demo_ids _)).
  vm_compute. reflexivity.
Defined.

Abbreviation finish_call :=
  (Executions.FinalizeJobRequestAndExecutionState "x1" State.EXECUTING State.COMPLETED "" "" 5 0 0 0 demo_st).

Lemma request_and_execution_move_together_witness :
  State.IsTerminal State.EXECUTING = false /\
  exists q1 r r' q2 x1 e e' x2,
    requests (db demo_st) = q1 ++ r :: q2 /\ r_JobExecutionID r = Some "x1" /\ r_JobState r = State.EXECUTING /\
    executions (db demo_st) = x1 ++ e :: x2 /\ e_ID e = "x1" /\ e_JobState e = State.EXECUTING /\
    db (snd finish_call) = set_executions (x1 ++ e' :: x2) (set_requests (q1 ++ r' :: q2) (db demo_st)) /\
    r_ID r' = r_ID r /\ r_JobState r' = State.COMPLETED /\ e_ID e' = "x1" /\ e_JobState e' = State.COMPLETED.
Proof.
  refine (request_and_execution_move_together "x1" State.EXECUTING State.COMPLETED
    (Executions.FinalizeJobRequestAndExecutionState "x1" State.EXECUTING State.COMPLETED "" "" 5 0 0 0)
    demo_st (snd finish_call) (inl tt) (joint_finalize _ _ _ "" "" 5 0 0 0) _).
  vm_compute. reflexivity.
Defined.

(** Saving the second attempt of a task deactivates the first. *)
Abbreviation demo_obj := (Executions.mkTaskObj (demo_task "t2" true State.COMPLETED) []).
Abbreviation saved_row := (mkTaskRow "t2" "x1" "compile" true State.COMPLETED 0 0 10 (Some 1000000000000) 1000000000000).
Abbreviation save_call := (Executions.SaveTask demo_obj demo_st).

Lemma saved_task_is_only_active_witness :
  t_Active saved_row = true /\ Forall (fun x => x = saved_row) (active_of "x1" "compile" (db (snd save_call))).
Proof.
  refine (let H := saved_task_is_only_active demo_obj saved_row demo_st (snd save_call) demo_task_ids _ in
          conj (proj1 H) (proj2 (Forall_forall _ _) (proj2 H))).
  vm_compute. reflexivity.
Defined.

Abbreviation purge_call := (Requests.PurgeOldRequests "build" State.COMPLETED 1000 10 demo_st).

Lemma purge_removes_only_old_requests_witness :
  1 = Z.of_nat (List.length (requests (db demo_st))) - Z.of_nat (List.length (requests (db (snd purge_call)))) /\
  1 <= (if 10 <=? 0 then 500 else 10).
Proof.
  refine (let H := purge_removes_only_old_requests "build" State.COMPLETED 1000 10 demo_st (snd purge_call) (inl 1)
            demo_ids _ in
          conj (proj1 (proj2 (proj2 (proj2 H)))) (proj1 (proj2 (proj2 (proj2 (proj2 H)))))).
  vm_compute. reflexivity.
Defined.

Abbreviation queue_call := (Requests.NextSchedulableJobsByTypes [] [State.PENDING] 1 demo_st).

Lemma schedulable_queue_is_complete_witness :
  ~ sooner 5 50 7 80.
Proof.
  assert (queue_call = (inl [demo_request "r4" None State.PENDING 7 80], snd queue_call)) as Hcall by (vm_compute; reflexivity).
  refine (proj2 (proj2 (proj2 (proj2 (schedulable_queue_is_complete [] [State.PENDING] 1 demo_st (snd queue_call) _ Hcall)))
    (demo_request "r2" None State.PENDING 5 50) _ _ _)
    (demo_request "r4" None State.PENDING 7 80) _).
  - apply list_elem_of_further, list_elem_of_here.
  - apply schedulable_spec. vm_compute. reflexivity.
  - intros [[=]|[]%not_elem_of_nil]%elem_of_cons.
  - apply list_elem_of_here.
Defined.

Abbreviation new_object := (Executions.mkExecObj (demo_execution "" "r2" State.READY) [] []).
Abbreviation new_row :=
  (mkExecRow "ulid-0" "r2" true "build" "" State.READY 0 "user" "org" "" "" "" 10 None 1000000000000).
Abbreviation create_call := (ExecutionSave.Save 0 (Some new_object) demo_st).


End StoreDemo.
