(* ===== verification/DefinitionSpec.v ===== *)
(** * DefinitionSpec: the versions of stored job definitions

    Saving a definition adds a version and deactivates the one before: the
    versions a tenant has of a job type are numbered without gaps and at most the
    last one is active. *)

From S2P Require Import Prelude RequestState Acl Approval Tables JobStore JobStoreSpec.

Open Scope Z_scope.

Section DefinitionSpec.
Import Rows Store Definitions.
Open Scope store_scope.

(** The definitions of a type that a caller sees. *)
Definition mine (qc : Query.QueryContext) (jobType : string) (d : DefRow) : bool :=
  in_scope qc true d && (d_JobType d == jobType).
Definition versions (qc : Query.QueryContext) (jobType : string) (d : DB) : list DefRow :=
  Sql.select (mine qc jobType) (definitions d).

Record versions_ok (qc : Query.QueryContext) (jobType : string) (d : DB) : Prop := {
  numbered : map d_Version (versions qc jobType d) ≡ₚ seqZ 0 (Z.of_nat (List.length (versions qc jobType d)));
  only_last_active : forall x, x ∈ versions qc jobType d -> d_Active x = true ->
    d_Version x = Z.of_nat (List.length (versions qc jobType d)) - 1;
  identified : forall x, x ∈ versions qc jobType d -> d_ID x <> ""
}.

Definition active_versions (qc : Query.QueryContext) (jobType : string) (d : DB) : list DefRow :=
  List.filter d_Active (versions qc jobType d).

Lemma first_def_None l : first_def l = None <-> l = [].
Proof.
  unfold first_def. split; [|by intros ->]. intros Hh. destruct l as [|x l]; [done|]. exfalso.
  pose proof (sort_slice_perm (fun a b => String.ltb (d_ID a) (d_ID b)) (x :: l)) as HP.
  destruct (sort_slice _ (x :: l)); [|discriminate Hh]. by apply Permutation_nil_cons in HP.
Qed.

Lemma first_def_Some l x : first_def l = Some x -> x ∈ l.
Proof.
  unfold first_def. intros Hh.
  rewrite <- (sort_slice_perm (fun a b => String.ltb (d_ID a) (d_ID b)) l).
  destruct (sort_slice _ l) as [|y t]; [discriminate|]. injection Hh as ->. apply list_elem_of_here.
Qed.

(** Without failures, the row found is the last version. *)
Lemma getLatest_run `{Env} qc jobType s :
  err (statements s) = false -> err (S (statements s)) = false -> versions_ok qc jobType (db s) ->
  exists s1, db s1 = db s /\
  ((versions qc jobType (db s) = [] /\ exists e, getLatestByType qc jobType s = (inr e, s1)) \/
   exists old, old ∈ versions qc jobType (db s) /\
     d_Version old = Z.of_nat (List.length (versions qc jobType (db s))) - 1 /\
     getLatestByType qc jobType s = (inl old, s1)).
Proof.
  intros E1 E2 [Hnum _ _]. unfold getLatestByType, bind, try, query, exec. cbn [fst snd]. rewrite E1. cbn [statements db].
  rewrite E2. cbn [db ulids statements]. set (n := Sql.count _ (definitions (db s))).
  assert (n = Z.of_nat (List.length (versions qc jobType (db s)))) as Hn by done.
  set (vs := versions qc jobType (db s)) in *.
  assert (forall x, x ∈ Sql.select (fun d => in_scope qc true d && (d_JobType d == jobType) && (d_Version d =? n - 1))
                          (definitions (db s)) <-> x ∈ vs /\ d_Version x = n - 1) as Hsel.
  { intros x. unfold vs, versions. rewrite !elem_of_select. unfold mine. rewrite (andb_true_iff (_ && _)), Z.eqb_eq. tauto. }
  exists (mkSt (db s) (S (S (statements s))) (ulids s)).
  match goal with |- context [first_def ?l] => destruct (first_def l) as [old|] eqn:Ef end; cbn.
  - split; [reflexivity|]. right. exists old. apply first_def_Some, Hsel in Ef as [Hin Hv]. rewrite <- Hn. by split_and!.
  - split; [reflexivity|]. left. apply first_def_None in Ef. split; [|by eexists].
    destruct vs as [|x l] eqn:Ev; [done|]. exfalso.
    assert (n - 1 ∈ map d_Version (x :: l)) as Hin.
    { rewrite Hnum. apply elem_of_seqZ. rewrite Hn. cbn [List.length]. lia. }
    apply list_elem_of_fmap in Hin as (y & Hy & Hin).
    assert (y ∈ @nil DefRow) as Hno by (rewrite <- Ef; apply Hsel; done). by apply not_elem_of_nil in Hno.
Qed.

Lemma versions_same qc t d d' : definitions d' = definitions d -> versions_ok qc t d -> versions_ok qc t d'.
Proof.
  intros E [H1 H2 H3]. assert (versions qc t d' = versions qc t d) as Ev by (unfold versions; by rewrite E).
  split; by rewrite Ev.
Qed.

(** Versions identify the rows of a type. *)
Lemma version_unique qc t d x y :
  versions_ok qc t d -> x ∈ versions qc t d -> y ∈ versions qc t d -> d_Version x = d_Version y -> x = y.
Proof.
  intros [Hn _ _] Hx Hy Hv. apply list_elem_of_lookup in Hx as [i Hi]. apply list_elem_of_lookup in Hy as [j Hj].
  assert (NoDup (map d_Version (versions qc t d))) as HD by (rewrite Hn; apply NoDup_seqZ).
  assert (i = j) as ->; [|congruence]. apply (NoDup_lookup _ i j (d_Version x) HD);
    change (map ?f ?l) with (f <$> l); rewrite list_lookup_fmap; [by rewrite Hi|by rewrite Hj, Hv].
Qed.

Lemma one_active qc t d : versions_ok qc t d -> (List.length (active_versions qc t d) <= 1)%nat.
Proof.
  intros Hok. unfold active_versions.
  assert (NoDup (versions qc t d)) as HD.
  { apply (NoDup_fmap_1 d_Version). change (d_Version <$> ?l) with (map d_Version l).
    rewrite (numbered _ _ _ Hok). apply NoDup_seqZ. }
  destruct (List.filter d_Active (versions qc t d)) as [|x [|y l]] eqn:E; cbn; [lia|lia|]. exfalso.
  assert (NoDup (x :: y :: l)) as HDf by (rewrite <- E; eapply sublist_NoDup; [exact HD|apply filter_sublist]).
  assert (forall z, z ∈ x :: y :: l -> z ∈ versions qc t d /\ d_Active z = true) as Hall.
  { intros z. rewrite <- E, !list_elem_of_In. apply List.filter_In. }
  destruct (Hall x (list_elem_of_here _ _)) as [Hx Ax].
  destruct (Hall y (list_elem_of_further _ _ _ (list_elem_of_here _ _))) as [Hy Ay].
  apply NoDup_cons in HDf as [Hni _]. apply Hni.
  rewrite (version_unique qc t d x y Hok Hx Hy); [apply list_elem_of_here|].
  rewrite (only_last_active _ _ _ Hok x Hx Ax), (only_last_active _ _ _ Hok y Hy Ay). done.
Qed.

(** Deactivating rows keeps the versions. *)
Lemma versions_deactivate qc t p d :
  map d_Version (versions qc t (snd (update_definitions p (set_d_Active false) d))) = map d_Version (versions qc t d) /\
  forall x, x ∈ versions qc t (snd (update_definitions p (set_d_Active false) d)) -> d_Active x = true ->
    x ∈ versions qc t d /\ p x = false.
Proof.
  split.
  - unfold versions, Sql.select, update_definitions, Sql.update. cbn. induction (definitions d) as [|y l IH]; cbn; [done|].
    assert (mine qc t (if p y then set_d_Active false y else y) = mine qc t y) as -> by (by destruct (p y)).
    destruct (mine qc t y); cbn; [|done]. rewrite IH. by destruct (p y).
  - intros x [Hx Hm]%elem_of_select Ha. apply elem_of_update in Hx as (y & Hy & ->).
    destruct (p y) eqn:E; [discriminate Ha|]. split; [|done]. by apply elem_of_select.
Qed.

Lemma versions_add qc t job d :
  mine qc t job = true ->
  versions qc t (set_definitions (definitions d ++ [job]) d) = versions qc t d ++ [job].
Proof. intros Hm. unfold versions, Sql.select. cbn. rewrite List.filter_app. cbn. by rewrite Hm. Qed.

Lemma write_parts_db `{Env} n s r s' : write_parts n s = (r, s') -> db s' = db s.
Proof.
  intros HR. assert (preserves (fun d => d = db s) (write_parts n)) as HP.
  { clear HR. induction n as [|n IH]; cbn; store_split; done. }
  specialize (HP s eq_refl). by rewrite HR in HP.
Qed.

(** The transaction that creates a version. *)
Definition create `{Env} (job : DefRow) : M unit :=
  transaction (exec DBError (fun d => (tt, set_definitions (definitions d ++ [job]) d)) ;;;
               write_parts (S (S (2 * List.length (d_Tasks job))))).

Lemma create_run `{Env} job s r s' :
  create job s = (r, s') ->
  match r with
  | inl _ => db s' = set_definitions (definitions (db s) ++ [job]) (db s)
  | inr _ => db s' = db s
  end.
Proof.
  intros HT%transaction_inv. destruct r as [u|e]; [|done]. destruct HT as (s1 & HB & ->).
  apply bind_inl in HB as (u1 & s2 & H2%exec_unit_inl & HB). apply write_parts_db in HB. by rewrite HB, H2.
Qed.

(** Adding the next version as the active one. *)
Lemma versions_next qc t job d :
  mine qc t job = true -> d_ID job <> "" -> (forall x, x ∈ versions qc t d -> d_ID x <> "") ->
  map d_Version (versions qc t d) ≡ₚ seqZ 0 (Z.of_nat (List.length (versions qc t d))) ->
  (forall x, x ∈ versions qc t d -> d_Active x = false) ->
  d_Version job = Z.of_nat (List.length (versions qc t d)) ->
  versions_ok qc t (set_definitions (definitions d ++ [job]) d).
Proof.
  intros Hm Hid Hids Hn Hno Hv. split; rewrite versions_add by done.
  - rewrite map_app, length_app, Hn. cbn. rewrite Hv.
    replace (Z.of_nat (List.length (versions qc t d) + 1)) with (Z.of_nat (List.length (versions qc t d)) + 1) by lia.
    rewrite seqZ_app by lia. done.
  - intros x [Hx|Hx]%elem_of_app Hax; [rewrite (Hno x Hx) in Hax; discriminate|].
    apply list_elem_of_singleton in Hx as ->. rewrite Hv, length_app. cbn. lia.
  - intros x [Hx|Hx]%elem_of_app; [by apply Hids|]. by apply list_elem_of_singleton in Hx as ->.
Qed.

Lemma deactivate_ok qc t p d :
  versions_ok qc t d -> versions_ok qc t (snd (update_definitions p (set_d_Active false) d)).
Proof.
  intros [H1 H2 H3]. destruct (versions_deactivate qc t p d) as [Hv Ha].
  assert (List.length (versions qc t (snd (update_definitions p (set_d_Active false) d))) =
          List.length (versions qc t d)) as Hl by (rewrite <- (length_map d_Version), Hv; apply length_map).
  split; rewrite ?Hl, ?Hv; [done| |].
  - intros x Hx Hact. by apply H2; [apply Ha|].
  - intros x [Hx Hm]%elem_of_select. apply elem_of_update in Hx as (y & Hy & ->).
    specialize (H3 y). destruct (p y); cbn in *; apply H3; by apply elem_of_select.
Qed.

(** A caller who is no administrator reads and writes the same rows. *)
Section Tenant.
Context `{Env} (u : Users.User).
Hypothesis ordinary : snd (Users.IsAdmin u) = false /\ snd (Users.IsReadAdmin u) = false.
Hypothesis ulid_ok : forall n, ulid n <> "".
Let qc := Query.NewQueryContext (Some u).

Lemma scope_ro d : in_scope qc false d = in_scope qc true d.
Proof.
  unfold in_scope, qc. rewrite !Query.scope_matches. unfold Query.Matches. cbn.
  unfold Query.IsAdmin, Query.IsReadAdmin. cbn. by rewrite (proj1 ordinary), (proj2 ordinary).
Qed.

Lemma own_scope d :
  in_scope qc true (set_d_OrganizationID (Query.GetOrganizationID qc) (set_d_UserID (Query.GetUserID qc) d)) = true.
Proof.
  unfold in_scope, qc. rewrite Query.scope_matches. unfold Query.Matches. cbn.
  unfold Query.IsAdmin, Query.IsReadAdmin. cbn. rewrite (proj1 ordinary), (proj2 ordinary). cbn.
  by rewrite !eqb_string_refl; case_match.
Qed.

(** After [Delete] no version is active. *)
Lemma Delete_run old s r s' :
  versions_ok qc (d_JobType old) (db s) -> old ∈ versions qc (d_JobType old) (db s) ->
  d_Version old = Z.of_nat (List.length (versions qc (d_JobType old) (db s))) - 1 ->
  Delete qc (d_ID old) s = (r, s') ->
  versions_ok qc (d_JobType old) (db s') /\
  (forall a, r = inl a ->
    List.length (versions qc (d_JobType old) (db s')) = List.length (versions qc (d_JobType old) (db s)) /\
    forall x, x ∈ versions qc (d_JobType old) (db s') -> d_Active x = false).
Proof.
  intros Hok Hin Hv. unfold Delete, bind, exec, expect_one.
  destruct (err (statements s)); [intros [= <- <-]; by split|].
  set (p := fun d => in_scope qc false d && by_id (d_ID old) d).
  destruct (versions_deactivate qc (d_JobType old) p (db s)) as [Hm Ha].
  pose proof (deactivate_ok qc (d_JobType old) p (db s) Hok) as Hok'.
  destruct (update_definitions p (set_d_Active false) (db s)) as [n d] eqn:E. cbn [snd] in *.
  intros HR. assert (db s' = d) as ->. { destruct (n =? 1); by injection HR as _ <-. }
  split; [done|]. intros a _. split; [by rewrite <- (length_map d_Version), Hm; apply length_map|].
  intros x Hx. destruct (d_Active x) eqn:Eact; [|done]. exfalso. destruct (Ha x Hx Eact) as [Hxin Hp].
  assert (x = old) as ->.
  { apply (version_unique qc (d_JobType old) (db s)); try done. rewrite Hv.
    by apply (only_last_active _ _ _ Hok x Hxin). }
  apply elem_of_select in Hin as [_ Hmine]. unfold p, mine, by_id in *. rewrite scope_ro, eqb_string_refl in Hp.
  apply andb_true_iff in Hmine as [Hmine _]. by rewrite Hmine in Hp.
Qed.

(** Creating the next version. *)
Lemma create_next job t n s r s' :
  mine qc t job = true -> d_Active job = true -> d_ID job <> "" ->
  versions_ok qc t (db s) -> (forall x, x ∈ versions qc t (db s) -> d_Active x = false) ->
  d_Version job = n -> n = Z.of_nat (List.length (versions qc t (db s))) ->
  (create job ;;; ret job) s = (r, s') ->
  versions_ok qc t (db s') /\ (forall a, r = inl a -> active_versions qc t (db s') = [job]).
Proof.
  intros Hm Ha Hid Hok Hno Hv Hn HR. unfold bind, ret in HR. destruct (create job s) as [[c|e] s1] eqn:E;
    apply create_run in E; injection HR as <- <-.
  - split; [rewrite E; apply versions_next; try done; [apply Hok|apply Hok|congruence]|].
    intros a _. unfold active_versions. rewrite E, versions_add, List.filter_app by done. cbn. rewrite Ha.
    assert (List.filter d_Active (versions qc t (db s)) = []) as ->; [|done].
    destruct (List.filter _ _) as [|x l] eqn:El; [done|]. exfalso.
    assert (List.In x (x :: l)) as Hx by (by left). rewrite <- El in Hx. apply List.filter_In in Hx as [Hx Hax].
    apply list_elem_of_In in Hx. rewrite (Hno x Hx) in Hax. discriminate.
  - split; [by apply (versions_same qc t (db s)); [rewrite E|]|discriminate].
Qed.

Lemma save_version_ok job s r s' :
  in_scope qc true job = true ->
  err (statements s) = false -> err (S (statements s)) = false ->
  versions_ok qc (d_JobType job) (db s) ->
  save_version qc job s = (r, s') ->
  versions_ok qc (d_JobType job) (db s') /\
  (forall a, r = inl a -> exists x, x ∈ active_versions qc (d_JobType job) (db s')).
Proof.
  intros Hs E1 E2 Hok. set (t := d_JobType job) in *. unfold save_version, bind at 1, try. fold t.
  destruct (getLatest_run qc t s E1 E2 Hok) as (s1 & Hd & [(Hnil & e & ->)|(old & Hin & Hv & ->)]).
  - intros HR. destruct (create_next (set_d_Active true (set_d_ID (ulid (ulids s1)) (set_d_Disabled false (set_d_Version 0 job)))) t 0
      (mkSt (db s1) (statements s1) (S (ulids s1))) r s') with (8 := HR)
      as [Hok' Hact]; cbn [db]; rewrite ?Hd, ?Hnil; try done.
    + unfold mine. cbn. rewrite eqb_string_refl, andb_true_r. exact Hs.
    + apply ulid_ok.
    + by intros x Hx%not_elem_of_nil.
    + split; [done|]. intros a Ha. rewrite (Hact a Ha). eexists. apply list_elem_of_here.
  - rewrite (proj2 (String.eqb_neq _ _) (identified _ _ _ Hok old Hin)). cbn [negb].
    assert (d_JobType old = t) as Ht.
    { apply elem_of_select in Hin as [_ Hm]. unfold mine in Hm. go_bool. tauto. }
    destruct (unchanged job old) eqn:Eu.
    + intros HR. assert (db s' = db s) as Hs'.
      { unfold bind, transaction, ret in HR. destruct (err (statements s1)); by injection HR as _ <-. }
      rewrite Hs'. split; [done|]. intros a _. exists old. unfold active_versions.
      apply list_elem_of_In, List.filter_In. split; [by apply list_elem_of_In|]. unfold unchanged in Eu. go_bool. tauto.
    + unfold bind at 1. destruct (Delete qc (d_ID old) s1) as [rd s2] eqn:ED.
      rewrite <- Hd, <- Ht in *.
      destruct (Delete_run old s1 rd s2 Hok Hin Hv ED) as [Hok2 Hdel].
      destruct rd as [[]|e]; [|by intros [= <- <-]].
      destruct (Hdel tt eq_refl) as [Hl Hno]. intros HR.
      destruct (create_next (set_d_Active true (set_d_ID (ulid (ulids s2)) (set_d_Configs (d_Configs old)
        (set_d_Disabled (d_Disabled old) (set_d_MaxConcurrency (d_MaxConcurrency old) (set_d_Version (d_Version old + 1) job))))))
        (d_JobType old) (d_Version old + 1) (mkSt (db s2) (statements s2) (S (ulids s2))) r s') with (8 := HR)
        as [Hok' Hact]; cbn [db]; try done.
      * unfold mine. cbn. rewrite Ht. unfold t. rewrite eqb_string_refl, andb_true_r. exact Hs.
      * apply ulid_ok.
      * rewrite Hl, Hv. lia.
      * split; [done|]. intros a Ha. rewrite (Hact a Ha). eexists. apply list_elem_of_here.
Qed.
End Tenant.

(** C34: for a user who is no administrator, saving a job definition keeps the
    versions of its type in order, whatever statement fails after the lookup: the
    versions are numbered from zero without gaps, at most one of them is active,
    it is the last one, and exactly one is active when the save succeeds. *)
Theorem at_most_one_active_version `{Env} (u : Users.User) valid job s
    (ordinary : snd (Users.IsAdmin u) = false /\ snd (Users.IsReadAdmin u) = false)
    (ulid_ok : forall n, ulid n <> "")
    (lookup : err (statements s) = false /\ err (S (statements s)) = false)
    (start : versions_ok (Query.NewQueryContext (Some u)) (d_JobType job) (db s)) :
  let '(r, s') := Save (Query.NewQueryContext (Some u)) valid job s in
  versions_ok (Query.NewQueryContext (Some u)) (d_JobType job) (db s') /\
  (List.length (active_versions (Query.NewQueryContext (Some u)) (d_JobType job) (db s')) <= 1)%nat /\
  (forall saved, r = inl saved ->
    List.length (active_versions (Query.NewQueryContext (Some u)) (d_JobType job) (db s')) = 1%nat).
Proof.
  destruct (Save _ valid job s) as [r s'] eqn:E. unfold Save in E. destruct valid; cbn [negb] in E.
  - apply save_version_ok in E; try apply lookup; try done; [|by apply own_scope].
    destruct E as [Hok Hact]. pose proof (one_active _ _ _ Hok) as H1. split_and!; [done|done|].
    intros a Ha. destruct (Hact a Ha) as [x Hx]. cbn [d_JobType set_d_OrganizationID set_d_UserID] in *.
    destruct (active_versions _ _ _); [by apply not_elem_of_nil in Hx|]. cbn in *. lia.
  - injection E as <- <-. split_and!; [done|by apply one_active|discriminate].
Qed.

End DefinitionSpec.

(** ** Witnesses *)
Section Witnesses.
Import Rows Store Definitions.

Definition owner : Users.User := Users.mkUser "user" "org" "" "" None None.
Definition edited : DefRow := mkDefRow "" "build" "" false "" "" 0 5 false false "" "" "tasks: []" "" "" ["compile"].

Lemma at_most_one_active_version_witness :
  (snd (Users.IsAdmin owner) = false /\ snd (Users.IsReadAdmin owner) = false) /\
  map d_Version (active_versions (Query.NewQueryContext (Some owner)) "build"
    (db (snd (Save (H := demo_env) (Query.NewQueryContext (Some owner)) true edited demo_st)))) = [1] /\
  let '(r, s') := Save (H := demo_env) (Query.NewQueryContext (Some owner)) true edited demo_st in
  versions_ok (Query.NewQueryContext (Some owner)) (d_JobType edited) (db s') /\
  (List.length (active_versions (Query.NewQueryContext (Some owner)) (d_JobType edited) (db s')) <= 1)%nat /\
  (forall saved, r = inl saved ->
    List.length (active_versions (Query.NewQueryContext (Some owner)) (d_JobType edited) (db s')) = 1%nat).
Proof.
  split; [by vm_compute|]. split; [by vm_compute|].
  refine (@at_most_one_active_version demo_env owner true edited demo_st _ _ _ _).
  - by vm_compute.
  - intros n. discriminate.
  - by vm_compute.
  - split.
    + vm_compute. reflexivity.
    + intros x Hx _. vm_compute in Hx. apply list_elem_of_singleton in Hx as ->. by vm_compute.
    + intros x Hx. vm_compute in Hx. apply list_elem_of_singleton in Hx as ->. discriminate.
Defined.

(** A save whose insertion fails has deactivated the previous version: the type
    is left without an active definition. *)
Example failed_save_leaves_none_active :
  let env := {| now := 0; err := fun n => Nat.eqb n 3; deadlock := fun _ => false;
                ulid := fun n => "ulid"; save_upserts := true; not_in_empty := false; elapsed := fun a b => a - b |} in
  let '(r, s') := Save (H := env) (Query.NewQueryContext (Some owner)) true edited demo_st in
  r = inr DBError /\ active_versions (Query.NewQueryContext (Some owner)) "build" (db demo_st) <> [] /\
  active_versions (Query.NewQueryContext (Some owner)) "build" (db s') = [].
Proof. vm_compute. split_and!; [reflexivity|discriminate|reflexivity]. Qed.
End Witnesses.
