(* ===== verification/StoreTypeSpec.v ===== *)
(** * StoreTypeSpec: the rows stay well typed

    The columns that hold states are strings and the counters are integers of the
    database: nothing but the code keeps them to the known states and above zero.
    Every call of the repositories, the save of an execution included, does, given arguments that are. *)

From S2P Require Import Prelude RequestState Acl Approval Tables JobStore JobStoreSpec.

Open Scope Z_scope.

Section Typed.
Import Rows Store.

Definition request_ok (r : RequestRow) : Prop :=
  State.IsKnown (r_JobState r) = true /\ 0 <= r_ScheduleAttempts r /\ 0 <= r_Retried r /\ 0 <= r_PausedCount r.
Definition execution_ok (e : ExecRow) : Prop := State.IsKnown (e_JobState e) = true.
Definition task_ok (t : TaskRow) : Prop := State.IsKnown (t_TaskState t) = true.

Record typed (d : DB) : Prop := {
  typed_requests : forall r, r ∈ requests d -> request_ok r;
  typed_executions : forall e, e ∈ executions d -> execution_ok e;
  typed_tasks : forall t, t ∈ tasks d -> task_ok t
}.

(** Arguments that name known states and count from zero. *)
Definition typed_call (c : call) : Prop :=
  match c with
  | CUpdateJobState _ _ n _ _ _ _ _ => State.IsKnown n = true
  | CSave _ _ req _ => request_ok req
  | CFinalize _ _ n _ _ _ _ retried _ => State.IsKnown n = true /\ 0 <= retried
  | CUpdateBoth _ _ n _ => State.IsKnown n = true
  | CTaskState _ _ n => State.IsKnown n = true
  | CSaveTask t => task_ok (Executions.to_row t)
  | CSaveExec _ o =>
      execution_ok (Executions.xo_row o) /\ forall t, t ∈ Executions.xo_tasks o -> task_ok (Executions.to_row t)
  | _ => True
  end.

Lemma typed_eq d d' :
  requests d' = requests d -> executions d' = executions d -> tasks d' = tasks d -> typed d -> typed d'.
Proof. intros H1 H2 H3 [T1 T2 T3]. split; by rewrite ?H1, ?H2, ?H3. Qed.

Lemma typed_update_requests p f d :
  typed d -> (forall r, request_ok r -> request_ok (f r)) -> typed (snd (update_requests p f d)).
Proof.
  intros [T1 T2 T3] Hf. split; [|done|done]. intros r Hr. apply elem_of_update in Hr as (x & Hx & ->).
  destruct (p x); [apply Hf|]; by apply T1.
Qed.
Lemma typed_update_executions p f d :
  typed d -> (forall e, execution_ok e -> execution_ok (f e)) -> typed (snd (update_executions p f d)).
Proof.
  intros [T1 T2 T3] Hf. split; [done| |done]. intros r Hr. apply elem_of_update in Hr as (x & Hx & ->).
  destruct (p x); [apply Hf|]; by apply T2.
Qed.
Lemma typed_update_tasks p f d :
  typed d -> (forall t, task_ok t -> task_ok (f t)) -> typed (snd (update_tasks p f d)).
Proof.
  intros [T1 T2 T3] Hf. split; [done|done|]. intros r Hr. apply elem_of_update in Hr as (x & Hx & ->).
  destruct (p x); [apply Hf|]; by apply T3.
Qed.
Lemma typed_remove_requests p d : typed d -> typed (set_requests (Sql.remove p (requests d)) d).
Proof. intros [T1 T2 T3]. split; [|done|done]. intros r [Hr _]%elem_of_remove. by apply T1. Qed.
Lemma typed_remove_executions p d : typed d -> typed (set_executions (Sql.remove p (executions d)) d).
Proof. intros [T1 T2 T3]. split; [done| |done]. intros r [Hr _]%elem_of_remove. by apply T2. Qed.
Lemma typed_remove_tasks p d : typed d -> typed (set_tasks (Sql.remove p (tasks d)) d).
Proof. intros [T1 T2 T3]. split; [done|done|]. intros r [Hr _]%elem_of_remove. by apply T3. Qed.
Lemma typed_add_request r d d' :
  typed d -> request_ok r -> requests d' = requests d ++ [r] -> executions d' = executions d -> tasks d' = tasks d -> typed d'.
Proof.
  intros [T1 T2 T3] Hr H1 H2 H3. split; rewrite ?H1, ?H2, ?H3; [|done|done].
  intros x [Hx|Hx]%elem_of_app; [by apply T1|]. by apply list_elem_of_singleton in Hx as ->.
Qed.
Lemma typed_add_task t ts d :
  typed d -> task_ok t -> (forall x, x ∈ ts -> x ∈ tasks d) -> typed (set_tasks (ts ++ [t]) d).
Proof.
  intros [T1 T2 T3] Ht Hs. split; [done|done|]. cbn. intros x [Hx|Hx]%elem_of_app; [by apply T3, Hs|].
  by apply list_elem_of_singleton in Hx as ->.
Qed.

(** A statement that changes some rows, or other tables. *)
Ltac typed_frame :=
  first [ done | match goal with Hd : typed ?d |- _ => by apply (typed_eq d) end
        | apply typed_remove_requests | apply typed_remove_executions | apply typed_remove_tasks
        | apply typed_update_requests; [done|] | apply typed_update_executions; [done|] | apply typed_update_tasks; [done|] ];
  try done; try (by intros ? (? & ? & ? & ?); split_and!; cbn; auto with lia).

Lemma typed_exec_Get `{Env} id : preserves typed (Executions.Get id).
Proof.
  unfold Executions.Get. store_split; try apply preserves_first.
  match goal with |- preserves _ (Executions.deactivate_all ?l) => generalize l end. intros l.
  induction l as [|t l IH]; cbn; store_split. typed_frame.
Qed.

Lemma typed_state_updates `{Env} n em ec d rt pc k r :
  State.IsKnown n = true -> request_ok r -> request_ok (Requests.state_updates n em ec d rt pc k r).
Proof.
  intros Hn (H1 & H2 & H3 & H4). unfold Requests.state_updates, request_ok.
  destruct (_ || (n == State.COMPLETED)), (State.IsTerminal n), (n == State.EXECUTING), (_ || (n == State.PAUSED)); cbn; try (by split_and!);
    destruct (0 <? d), (Z.ltb_spec 0 rt), (Z.ltb_spec 0 pc); cbn; split_and!; try done; lia.
Qed.

Lemma typed_move `{Env} i o f g :
  (forall r, request_ok r -> request_ok (f r)) -> (forall e, execution_ok e -> execution_ok (g e)) ->
  preserves typed (Executions.move_both i o f g).
Proof.
  intros Hf Hg. unfold Executions.move_both. store_split; [by apply typed_update_requests|by apply typed_update_executions].
Qed.

Lemma typed_prepare `{Env} qc req ps s x s' :
  request_ok req -> Requests.prepare qc req ps s = (inl x, s') -> request_ok (snd (fst x)).
Proof.
  intros Hr HP. unfold Requests.prepare in HP. apply bind_inl in HP as (r1 & s1 & HP1 & HP).
  assert (request_ok r1) as Hr1.
  { destruct (r_ID req == "").
    - apply bind_inl in HP1 as (i & s2 & _ & [= <- _]). destruct Hr as (_ & H2 & H3 & H4). by split_and!.
    - apply bind_inl in HP1 as (old & s2 & _ & HP1). destruct (Requests.Editable _ _ _); [|discriminate].
      apply bind_inl in HP1 as (u & s3 & _ & [= <- _]). exact Hr. }
  apply bind_inl in HP as (r2 & s2 & HP2 & HP). apply bind_inl in HP as (ps' & s3 & _ & [= <- _]). cbn.
  destruct (r_UserKey r1 == ""); [apply bind_inl in HP2 as (k & s4 & _ & [= <- _])|injection HP2 as <- _]; exact Hr1.
Qed.

Lemma typed_Save `{Env} qc valid req ps : request_ok req -> preserves typed (Requests.Save qc valid req ps).
Proof.
  intros Hr. unfold Requests.Save. store_step; [store_split|]. apply preserves_transaction.
  apply (preserves_bind_post _ (fun x => request_ok (snd (fst x)))).
  - unfold Requests.prepare. store_split; typed_frame.
  - intros s x s'. by apply typed_prepare.
  - intros [[newReq row] ps'] Hrow. cbn [fst snd] in Hrow. unfold Requests.insert_request, Requests.replace_request. store_split.
    + destruct (Requests.taken row (requests d)); [done|]. by eapply typed_add_request.
    + destruct (existsb _ (requests d)); [done|]. cbn. eapply typed_eq;
        [..|apply (typed_update_requests (Requests.by_id (r_ID row)) (fun _ => row) d); done]; done.
Qed.

Lemma typed_SaveTask `{Env} t : task_ok (Executions.to_row t) -> preserves typed (Executions.SaveTask t).
Proof.
  intros Ht. unfold Executions.SaveTask. store_step; [store_split|]. apply preserves_transaction.
  apply (preserves_bind_post _ task_ok).
  - store_split.
  - intros s x s'. destruct (t_ID _ == "").
    + intros HB. apply bind_inl in HB as (i & s1 & _ & [= <- _]). exact Ht.
    + intros [= <- _]. by destruct (State.CanFinalize _).
  - intros row Hrow. cbv zeta. assert (task_ok (set_t_Active true row)) as Hrow' by exact Hrow.
    revert Hrow'. generalize (set_t_Active true row). clear row Hrow. intros row Hrow.
    store_split; try typed_frame; try (apply preserves_task_contexts; intros; typed_frame).
    + unfold Executions.insert_task. cbn. by apply typed_add_task.
    + unfold Executions.save_task_row. destruct (existsb _ (tasks d)); [by apply typed_update_tasks|].
      destruct save_upserts; [|done]. cbn. apply typed_add_task; [done|done|]. by intros x [Hx _]%elem_of_remove.
Qed.

Lemma typed_put_task `{Env} b t d : task_ok t -> typed d -> typed (snd (ExecutionSave.put_task_row b t d)).
Proof.
  intros Ht Hd. unfold ExecutionSave.put_task_row. destruct b; [by apply typed_add_task|].
  unfold Executions.save_task_row. destruct (existsb _ (tasks d)); [by apply typed_update_tasks|].
  destruct save_upserts; [|done]. cbn. apply typed_add_task; [done|done|]. by intros x [Hx _]%elem_of_remove.
Qed.

Lemma typed_put_execution `{Env} b e : execution_ok e -> preserves typed (ExecutionSave.put_execution b e).
Proof.
  intros He. assert (forall d, typed d -> typed (set_executions (executions d ++ [e]) d)) as HA.
  { intros d [T1 T2 T3]. split; [done| |done]. intros x [Hx|Hx]%elem_of_app; [by apply T2|].
    by apply list_elem_of_singleton in Hx as ->. }
  unfold ExecutionSave.put_execution. store_split. destruct b; [destruct (existsb _ _); [done|by apply HA]|].
  destruct (existsb _ _); [by apply typed_update_executions|]. destruct save_upserts; [by apply HA|done].
Qed.

Lemma typed_Save_execution `{Env} cost o :
  typed_call (CSaveExec cost o) -> preserves typed (ExecutionSave.Save cost (Some o)).
Proof.
  intros [He Ht]. apply (preserves_Save_execution _ (e_JobState (Executions.xo_row o)) True (fun _ => True)
    (fun st => State.IsKnown st = true)); try done.
  - intros; typed_frame.
  - intros; typed_frame.
  - intros; typed_frame.
  - intros b t d. by apply typed_put_task.
  - intros b e Hst _. apply typed_put_execution. unfold execution_ok. by rewrite Hst.
  - split_and!; [done|by right|done].
Qed.

Lemma call_typed `{Env} c : typed_call c -> preserves typed (run_call c).
Proof.
  intros Hc. destruct c; cbn in *; unfold ignore; try (by store_split; typed_frame).
  - unfold Requests.UpdateJobState. store_split; typed_frame. intros r. by apply typed_state_updates.
  - unfold Requests.UpdateRunningTimestamp. store_split; typed_frame.
  - store_split. by apply typed_Save.
  - unfold Requests.SetReadyToExecute. store_split; typed_frame.
  - unfold Requests.UpdatePriority. store_split; typed_frame.
  - unfold Requests.Cancel. store_split; typed_frame.
  - unfold Requests.Delete. store_split; typed_frame.
  - unfold Requests.DeletePendingCronByJobType. store_split; typed_frame.
  - unfold Requests.PurgeOldRequests, Requests.purge_tasks, Requests.purge_executions. store_split; typed_frame.
  - unfold Requests.Trigger. store_split; typed_frame.
  - unfold Requests.Restart, Requests.restart_row. store_split; typed_frame.
    intros r (H1 & H2 & H3 & H4). destruct (_ != ""); split_and!; cbn; try done; lia.
  - unfold Requests.IncrementScheduleAttempts. store_split; typed_frame.
  - unfold Requests.RequeueOrphanRequests. store_split; typed_frame.
  - store_split. apply typed_exec_Get.
  - unfold Executions.ResetStateToReady. store_split; typed_frame.
  - destruct Hc as [Hn Hr]. unfold Executions.FinalizeJobRequestAndExecutionState. store_split. apply typed_move.
    + intros r (H1 & H2 & H3 & H4). unfold Executions.finalize_request.
      destruct (Z.ltb_spec 0 paused), (State.IsTerminal newState), (_ && _); split_and!; cbn; try done; lia.
    + done.
  - unfold Executions.UpdateJobRequestAndExecutionState. store_split. apply typed_move.
    + intros r (H1 & H2 & H3 & H4). by destruct (_ != ""); split_and!.
    + intros e He. by destruct (_ != "").
  - unfold Executions.UpdateJobContext, Executions.createJobContexts, Executions.clearOrphanJobContexts.
    store_split; [typed_frame|]. apply preserves_job_contexts. intros; typed_frame.
  - unfold Executions.UpdateTaskState. store_split; typed_frame.
  - store_split. by apply typed_SaveTask.
  - store_split. by apply (typed_Save_execution cost).
  - unfold Executions.DeleteTask. store_split; typed_frame.
  - unfold Executions.Delete. store_split; [apply typed_exec_Get| |typed_frame].
    match goal with |- preserves _ (Executions.delete_tasks ?l) => generalize l end. intros l.
    induction l as [|t l IH]; cbn; store_split. unfold Executions.DeleteTask. store_split; typed_frame.
Qed.

(** C35: the rows of requests, executions and tasks stay well typed through every
    sequence of calls of the two repositories, the saves of executions with their
    tasks included, with well-typed arguments, whatever statements fail: the state
    columns hold known states and the counters of attempts, retries and pauses are
    not negative. *)
Theorem stored_rows_are_typed (d d' : DB)
    (calls : rtc (call_step (fun _ => True) typed_call) d d')
    (start : typed d) :
  typed d'.
Proof.
  revert start. induction calls as [d|d d1 d2 Hstep _ IH]; [done|]. intros Hd. apply IH.
  destruct Hstep as [env c s _ Hc]. by apply call_typed.
Qed.
End Typed.

(** ** Witness *)
Section Witnesses.
Import Rows Store.

Lemma stored_rows_are_typed_witness :
  typed (db demo_st) /\ typed (db (snd (@run_call demo_env (CRestart (Query.NewQueryContext None) "r3" true "") demo_st))).
Proof.
  assert (typed (db demo_st)) as Hstart.
  { split; intros x Hx; vm_compute in Hx; repeat (apply elem_of_cons in Hx as [->|Hx]; [by vm_compute|]);
      by apply not_elem_of_nil in Hx. }
  split; [exact Hstart|].
  refine (stored_rows_are_typed (db demo_st) _ (rtc_once _ _ (call_run _ _ demo_env (CRestart (Query.NewQueryContext None) "r3" true "") demo_st _ _)) Hstart).
  - intros n. exact Logic.I.
  - exact Logic.I.
Defined.
End Witnesses.
