(* ===== verification/JobRequest.v ===== *)
(** * JobRequest: the request object, its parameters and its cron schedule

    Models [src/internal/types/name_type_value.go] (the typed values of
    parameters, variables and configs), the methods of
    [src/queen/types/job_request.go] that the job manager uses, and the cron
    schedule of [src/queen/types/job_definition.go].

    A request is its row of the table with its parameters.  [lookupParams] and
    [NameValueParams] are the maps that the object keeps beside the list.  Times
    are nanoseconds since Go's zero time, in UTC. *)

From S2P Require Import Prelude RequestState Acl Approval Stats Tables.
From Stdlib Require Import Ascii.

Open Scope Z_scope.

(** ** NameValue: typed values *)
Module NameValue.

(** A Go value as far as its kind decides how it is written: a string, a
    boolean, an integer of some kind, or another value with its JSON text, which
    [json.Marshal] may fail to produce. *)
Inductive value :=
| VNil
| VString (s : string)
| VBool (b : bool)
| VInt (kind : string) (z : Z)
| VOther (kind : string) (json : option string).

(** Reading numbers that are not integers, and JSON objects and arrays. *)
Class Decoder := {
  decode_float : string -> option value;
  decode_complex : string -> option value;
  decode_object : string -> option value;
  decode_array : string -> option value
}.

Record NameTypeValue := mkNameTypeValue {
  Name : string;
  Kind : string;
  Value : string;
  Secret : bool
}.

Definition maxConfigValueLength : Z := 1000000.
Definition encryptedPrefix : string := "_ENCRYPTED_".

Definition kind_of (v : value) : string :=
  match v with
  | VNil => ""
  | VString _ => "string"
  | VBool _ => "bool"
  | VInt k _ => k
  | VOther k _ => k
  end.

(** The text of a value: a string as it is, anything else as JSON. *)
Definition text_of (v : value) : option string :=
  match v with
  | VNil => None
  | VString s => Some s
  | VBool b => Some (if b then "true" else "false")
  | VInt _ z => Some (itoa z)
  | VOther _ json => json
  end.

Definition NewNameTypeValue (name : string) (v : value) (secret : bool) : option NameTypeValue :=
  match v, text_of v with
  | VNil, _ => None
  | _, None => None
  | _, Some s =>
      if maxConfigValueLength <? Z.of_nat (String.length s) then None
      else Some (mkNameTypeValue name (kind_of v) s secret)
  end.

Section Parse.
Context `{Decoder}.

Definition GetParsedValue (nv : NameTypeValue) : option value :=
  if (Kind nv == "string") || (Kind nv == "types.RequestState") then Some (VString (Value nv))
  else if Kind nv == "bool" then Some (VBool (Value nv == "true"))
  else if HasPrefix (Kind nv) "int" then
    match Atoi (Value nv) with Some z => Some (VInt "int64" z) | None => None end
  else if HasPrefix (Kind nv) "float" then decode_float (Value nv)
  else if HasPrefix (Kind nv) "complex" then decode_complex (Value nv)
  else if HasPrefix (Value nv) "{" then decode_object (Value nv)
  else if HasPrefix (Value nv) "[" then decode_array (Value nv)
  else None.
End Parse.

(** Encryption of secrets: [seal] is [crypto.Encrypt] with the base64 encoding
    of its result, [unseal] the decoding with [crypto.Decrypt]. *)
Class Cipher := {
  seal : string -> string -> option string;
  unseal : string -> string -> option string
}.

Section Secrets.
Context `{Cipher}.

Definition set_Value (v : string) (nv : NameTypeValue) : NameTypeValue :=
  mkNameTypeValue (Name nv) (Kind nv) v (Secret nv).

Definition Encrypt (key : string) (nv : NameTypeValue) : option NameTypeValue :=
  if (key != "") && Secret nv && (Value nv != "") && negb (HasPrefix (Value nv) encryptedPrefix)
  then match seal key (Value nv) with
       | Some b => Some (set_Value (encryptedPrefix +:+ b) nv)
       | None => None
       end
  else Some nv.

(** The rest of a string after [n] characters. *)
Fixpoint after (n : nat) (s : string) : string :=
  match n, s with
  | S n, String _ s => after n s
  | _, _ => s
  end.

Definition Decrypt (key : string) (nv : NameTypeValue) : option NameTypeValue :=
  if (key != "") && Secret nv && (Value nv != "") && HasPrefix (Value nv) encryptedPrefix
  then match unseal key (after (String.length encryptedPrefix) (Value nv)) with
       | Some b => Some (set_Value b nv)
       | None => None
       end
  else Some nv.
End Secrets.

Definition IsArtifactURL (nv : NameTypeValue) : bool := Contains (Name nv) "ArtifactURL".
Definition IsForkedJobID (nv : NameTypeValue) : bool := Contains (Name nv) "ForkedJobID".
Definition IsNameRegular (nv : NameTypeValue) : bool := negb (IsArtifactURL nv) && negb (IsForkedJobID nv).
Definition IsPrimitiveType (nv : NameTypeValue) : bool :=
  existsb (String.eqb (Kind nv))
    ["bool"; "string"; "uint8"; "uint16"; "uint32"; "uint64"; "int8"; "int16"; "int32"; "int64";
     "float32"; "float64"; "complex64"; "complex128"; "byte"].
Definition MaskVariables (all : list NameTypeValue) : list NameTypeValue :=
  List.filter (fun v => negb (Secret v)) all.

End NameValue.

(** ** Schedule: cron triggers *)
Module Schedule.
Import Rows.

(** [cronexpr.MustParse(expr).Next(t)], for an expression that validation has
    accepted; [None] when there is no next time. *)
Class Cron := { cron_next : string -> Z -> option Z }.

(** [time.RFC3339] in UTC: date and time to the second, from the day number. *)
Definition pad (width : nat) (n : Z) : string :=
  let s := itoa n in String.concat "" (repeat "0" (width - String.length s)) +:+ s.
Definition civil (days : Z) : Z * Z * Z :=
  let z := days + 306 in
  let era := z / 146097 in
  let doe := z mod 146097 in
  let yoe := (doe - doe / 1460 + doe / 36524 - doe / 146096) / 365 in
  let doy := doe - (365 * yoe + yoe / 4 - yoe / 100) in
  let mp := (5 * doy + 2) / 153 in
  let m := if mp <? 10 then mp + 3 else mp - 9 in
  (yoe + era * 400 + (if m <=? 2 then 1 else 0), m, doy - (153 * mp + 2) / 5 + 1).
Definition RFC3339 (t : Z) : string :=
  let secs := t / 1000000000 in
  let '(y, m, d) := civil (secs / 86400) in
  let s := secs mod 86400 in
  pad 4 y +:+ "-" +:+ pad 2 m +:+ "-" +:+ pad 2 d +:+ "T" +:+ pad 2 (s / 3600) +:+ ":"
    +:+ pad 2 (s / 60 mod 60) +:+ ":" +:+ pad 2 (s mod 60) +:+ "Z".

Section Schedule.
Context `{Cron} (now : Z).

(** [GetCronScheduleTimeAndUserKey] of a tenant and type: the next time and the
    key that identifies the run. *)
Definition schedule_key (prefix jobType : string) (t : Z) : string :=
  prefix +:+ "-" +:+ jobType +:+ "-" +:+ RFC3339 t.
Definition GetCronScheduleTimeAndUserKey (orgIDOrUserID jobType cronTrigger : string) : option (Z * string) :=
  if cronTrigger == "" then None
  else match cron_next cronTrigger now with
       | None => None
       | Some nextTime =>
           let prefix := if orgIDOrUserID == "" then "default" else orgIDOrUserID in
           Some (nextTime, schedule_key prefix jobType nextTime)
       end.

Definition orgIDOrUser (jd : DefRow) : string :=
  if d_OrganizationID jd != "" then d_OrganizationID jd else d_UserID jd.
Definition cron_schedule (jd : DefRow) : option (Z * string) :=
  if d_Disabled jd then None
  else GetCronScheduleTimeAndUserKey (orgIDOrUser jd) (d_JobType jd) (d_CronTrigger jd).

Definition UpdateUserKeyFromScheduleIfCronJob (job : DefRow) (r : RequestRow) : RequestRow :=
  match cron_schedule job with
  | Some (scheduledAt, userKey) => set_r_CronTriggered true (set_r_UserKey userKey (set_r_ScheduledAt scheduledAt r))
  | None => r
  end.
Definition UpdateScheduledAtFromCronTrigger (jd : DefRow) (r : RequestRow) : RequestRow * bool :=
  match cron_schedule jd with
  | Some (date, userKey) => (set_r_UserKey userKey (set_r_ScheduledAt date r), true)
  | None => (r, false)
  end.
End Schedule.

End Schedule.

(** ** Request: job_request.go *)
Module Request.
Import Rows NameValue Schedule.

(** A parameter: its identifier, the request it belongs to, its value. *)
Record Param := mkParam { p_ID : string; p_JobRequestID : string; p_nv : NameTypeValue }.

Record JobRequest := mkJobRequest {
  row : RequestRow;
  Description : string;
  Platform : string;
  JobGroup : string;
  Timeout : Z;
  Params : list Param;
  lookupParams : gmap string Param;
  NameValueParams : gmap string value;
  QuickSearch : string
}.

Definition set_row (r : RequestRow) (jr : JobRequest) : JobRequest :=
  mkJobRequest r (Description jr) (Platform jr) (JobGroup jr) (Timeout jr) (Params jr) (lookupParams jr) (NameValueParams jr) (QuickSearch jr).
Definition set_Params (ps : list Param) (jr : JobRequest) : JobRequest :=
  mkJobRequest (row jr) (Description jr) (Platform jr) (JobGroup jr) (Timeout jr) ps (lookupParams jr) (NameValueParams jr) (QuickSearch jr).

(** The row of a new object. *)
Definition new_row (now : Z) : RequestRow :=
  mkRequestRow "" "" "" "" None None "" "" "" "" State.PENDING 0 0 0 0 false None None "" now now now false false.
Definition NewRequest (now : Z) : JobRequest := mkJobRequest (new_row now) "" "" "" 0 [] ∅ ∅ "".

Definition NewJobRequestFromDefinition `{Cron} (now : Z) (job : DefRow) : option JobRequest :=
  if d_Disabled job then None
  else
    let r := mkRequestRow "" "" "" (d_ID job) None None (d_OrganizationID job) (d_UserID job) (d_JobType job)
               (d_SemVersion job) State.PENDING 0 0 0 0 false None None "" now now now false false in
    Some (mkJobRequest (UpdateUserKeyFromScheduleIfCronJob now job r) "" (d_Platform job) "" 0 [] ∅ ∅ "").

(** [AddParam]: a parameter with a known name keeps its place and its kind in
    the list; only its text is replaced. *)
Definition AddParam (name : string) (v : value) (jr : JobRequest) : option JobRequest :=
  match NewNameTypeValue name v false with
  | None => None
  | Some nv =>
      let param := mkParam "" (r_ID (row jr)) nv in
      let ps := match lookupParams jr !! name with
                | None => Params jr ++ [param]
                | Some _ => map (fun next => if Name (p_nv next) == name
                                             then mkParam (p_ID next) (p_JobRequestID next) (set_Value (Value nv) (p_nv next))
                                             else next) (Params jr)
                end in
      Some (mkJobRequest (row jr) (Description jr) (Platform jr) (JobGroup jr) (Timeout jr) ps (<[name := param]> (lookupParams jr))
              (<[name := v]> (NameValueParams jr)) (QuickSearch jr))
  end.

Definition GetParam (jr : JobRequest) (name : string) : option Param := lookupParams jr !! name.
Definition ClearParams (jr : JobRequest) : JobRequest :=
  mkJobRequest (row jr) (Description jr) (Platform jr) (JobGroup jr) (Timeout jr) [] ∅ ∅ (QuickSearch jr).
Definition ParamString (jr : JobRequest) : string :=
  Join (map (fun c => Name (p_nv c) +:+ "=" +:+ Value (p_nv c)) (Params jr)) " ".

Definition ForkedJob : string := "ForkedJob".
Definition IsForkedJob (jr : JobRequest) : bool :=
  match GetParam jr ForkedJob with Some p => Value (p_nv p) == "true" | None => false end.

Section Validation.
Context `{Decoder}.

(** [AfterLoad]: the maps are built again from the list; a value that cannot be
    read stops it. *)
Fixpoint load_params (ps : list Param) (lookup : gmap string Param) (values : gmap string value)
    : option (gmap string Param * gmap string value) :=
  match ps with
  | [] => Some (lookup, values)
  | p :: rest =>
      match GetParsedValue (p_nv p) with
      | None => None
      | Some v => load_params rest (<[Name (p_nv p) := p]> lookup) (<[Name (p_nv p) := v]> values)
      end
  end.
Definition AfterLoad (jr : JobRequest) : option JobRequest :=
  match load_params (Params jr) ∅ ∅ with
  | None => None
  | Some (lookup, values) =>
      Some (mkJobRequest (row jr) (Description jr) (Platform jr) (JobGroup jr) (Timeout jr) (Params jr) lookup values (QuickSearch jr))
  end.

Inductive invalid := BadParam | NoJobType | NoJobDefinitionID | NoJobState | NoScheduledAt.

(** [Validate]: the last check that fails is the error. *)
Definition Validate (jr : JobRequest) : JobRequest * option invalid :=
  match AfterLoad jr with
  | None => (jr, Some BadParam)
  | Some jr =>
      let r := row jr in
      let err := if r_JobType r == "" then Some NoJobType else None in
      let err := if r_JobDefinitionID r == "" then Some NoJobDefinitionID else err in
      let err := if r_JobState r == "" then Some NoJobState else err in
      let err := if r_ScheduledAt r =? 0 then Some NoScheduledAt else err in
      (jr, err)
  end.

(** Every named value is added to the list of parameters, up to one that fails. *)
Fixpoint add_all (l : list (string * value)) (jr : JobRequest) : JobRequest * bool :=
  match l with
  | [] => (jr, true)
  | (k, v) :: rest => match AddParam k v jr with Some jr => add_all rest jr | None => (jr, false) end
  end.

(** The text of the search column: at most a thousand characters. *)
Fixpoint firstn_string (n : nat) (s : string) : string :=
  match n, s with
  | S n, String c s => String c (firstn_string n s)
  | _, _ => EmptyString
  end.
Definition search_text (jr : JobRequest) (l : list (string * value)) : string :=
  Description jr +:+ " " +:+ Platform jr +:+ " " +:+ r_JobType (row jr) +:+ " " +:+ text (r_ErrorCode (row jr)) +:+ " "
  +:+ text (r_ErrorMessage (row jr)) +:+ ";"
  +:+ String.concat "" (map (fun kv => fst kv +:+ "=" +:+ default "" (text_of (snd kv))) l).
Definition updateQuickSearch `{RangeOrder} (jr : JobRequest) : JobRequest * option invalid :=
  match add_all (range (NameValueParams jr)) jr with
  | (jr', false) => (jr', Some BadParam)
  | (jr', true) =>
      Validate (mkJobRequest (row jr') (Description jr') (Platform jr') (JobGroup jr') (Timeout jr') (Params jr') (lookupParams jr') (NameValueParams jr')
                  (firstn_string 1000 (search_text jr (range (NameValueParams jr)))))
  end.

Definition ValidateBeforeSave `{RangeOrder} (jr : JobRequest) : JobRequest * option invalid :=
  match add_all (range (NameValueParams jr)) jr with
  | (jr, false) => (jr, Some BadParam)
  | (jr, true) => Validate (fst (updateQuickSearch jr))
  end.
End Validation.

(** *** What is shown of a request *)
Definition short (n : nat) (s : string) : string :=
  if (n <? String.length s)%nat then firstn_string n s +:+ "..." else s.
Definition ShortID (jr : JobRequest) : string :=
  if (6 <? String.length (r_ID (row jr)))%nat then firstn_string 6 (r_ID (row jr)) else r_ID (row jr).
Definition ShortUserID (jr : JobRequest) : string := short 8 (r_UserID (row jr)).
Definition ShortJobType (jr : JobRequest) : string := short 12 (r_JobType (row jr)).
Definition ShortUserKey (jr : JobRequest) : string :=
  let key := r_UserKey (row jr) in
  if (20 <? String.length key)%nat then "..." +:+ after (String.length key - 20) key else key.
Definition DescriptionShort (jr : JobRequest) : string :=
  let val := if Description jr == "" then
               match GetParam jr "Description" with Some p => Value (p_nv p) | None => "" end
             else Description jr in
  if val == "" then ""
  else if HasPrefix val "[" && Contains val "](" then val
  else short 10 val.
Definition JobTypeAndVersion (jr : JobRequest) : string :=
  if r_JobVersion (row jr) == "" then r_JobType (row jr) else r_JobType (row jr) +:+ ":" +:+ r_JobVersion (row jr).

(** *** Summaries *)
Definition key_of_row (r : RequestRow) : JobStats.UserJobTypeKey :=
  JobStats.mkUserJobTypeKey (r_JobType r) (r_JobVersion r) (r_OrganizationID r) (r_UserID r).
Definition summary (r : RequestRow) : Registry.Summary :=
  Registry.mkSummary (r_ID r) (key_of_row r) (r_JobState r) (r_JobPriority r) (r_ScheduledAt r) (r_CreatedAt r).

(** [NewJobRequestInfo] copies these columns; [retried], [paused_count] and
    [current_task] are left at zero. *)
Definition NewJobRequestInfo (r : RequestRow) : RequestRow :=
  mkRequestRow (r_ID r) "" "" (r_JobDefinitionID r) (r_JobExecutionID r) (r_LastJobExecutionID r)
    (r_OrganizationID r) (r_UserID r) (r_JobType r) (r_JobVersion r) (r_JobState r) (r_JobPriority r)
    (r_ScheduleAttempts r) 0 0 (r_CronTriggered r) None None "" (r_ScheduledAt r) (r_CreatedAt r) 0
    (r_HardRestart r) false.

(** *** [Equals]: the first difference found *)
Inductive difference :=
| Invalid (e : invalid) | DiffID | DiffJobType | DiffJobState | DiffJobPriority | DiffJobGroup | DiffUserKey | DiffJobDefinitionID
| DiffJobExecutionID | DiffOrganizationID | DiffUserID | DiffDescription | DiffPlatform | DiffTimeout | DiffRetried | DiffErrorCode
| DiffErrorMessage | DiffParamCount | DiffParam (name : string).

Fixpoint first_difference (l : list (bool * difference)) : option difference :=
  match l with
  | [] => None
  | (same, d) :: rest => if same : bool then first_difference rest else Some d
  end.
Definition same_param (other : JobRequest) (p : Param) : bool :=
  match GetParam other (Name (p_nv p)) with Some q => Value (p_nv q) == Value (p_nv p) | None => false end.

Definition Equals `{Decoder, RangeOrder} (jr other : JobRequest) : option difference :=
  let '(jr, e1) := ValidateBeforeSave jr in
  match e1 with
  | Some e => Some (Invalid e)
  | None =>
      let '(other, e2) := ValidateBeforeSave other in
      match e2 with
      | Some e => Some (Invalid e)
      | None =>
          let a := row jr in let b := row other in
          first_difference (
            [(r_ID a == r_ID b, DiffID); (r_JobType a == r_JobType b, DiffJobType);
             (r_JobState a == r_JobState b, DiffJobState); (r_JobPriority a =? r_JobPriority b, DiffJobPriority);
             (JobGroup jr == JobGroup other, DiffJobGroup);
             (r_UserKey a == r_UserKey b, DiffUserKey); (r_JobDefinitionID a == r_JobDefinitionID b, DiffJobDefinitionID);
             (text (r_JobExecutionID a) == text (r_JobExecutionID b), DiffJobExecutionID);
             (r_OrganizationID a == r_OrganizationID b, DiffOrganizationID); (r_UserID a == r_UserID b, DiffUserID);
             (Description jr == Description other, DiffDescription);
             (Platform jr == Platform other, DiffPlatform); (Timeout jr =? Timeout other, DiffTimeout);
             (r_Retried a =? r_Retried b, DiffRetried);
             (text (r_ErrorCode a) == text (r_ErrorCode b), DiffErrorCode);
             (text (r_ErrorMessage a) == text (r_ErrorMessage b), DiffErrorMessage);
             (Nat.eqb (List.length (Params jr)) (List.length (Params other)), DiffParamCount)]
            ++ map (fun p => (same_param other p, DiffParam (Name (p_nv p)))) (Params jr))
      end
  end.

End Request.
