(* ===== verification/JobRequestSpec.v ===== *)
(** * JobRequestSpec: typed values, secrets and parameters

    What is written as text is read back: strings, booleans and signed integers
    round trip, and so do secrets.  A parameter keeps the last value given to its
    name, once in the list. *)

From S2P Require Import Prelude RequestState Acl Approval Stats Tables JobRequest.
From Stdlib Require Import Ascii.

Open Scope Z_scope.

(** ** Values *)
Section Values.
Import NameValue.

Definition int_kinds : list string := ["int"; "int8"; "int16"; "int32"; "int64"].

(** The values that are read back, and as what. *)
Definition plain (v : value) : bool :=
  match v with
  | VString _ | VBool _ => true
  | VInt k z => existsb (String.eqb k) int_kinds && in_int64 z
  | _ => false
  end.
Definition read_back (v : value) : value := match v with VInt _ z => VInt "int64" z | _ => v end.

(** By the kind of the value. *)
Lemma plain_value_read_back `{Decoder} name v secret nv
    (is_plain : plain v = true)
    (written : NewNameTypeValue name v secret = Some nv) :
  Name nv = name /\ Secret nv = secret /\ GetParsedValue nv = Some (read_back v).
Proof.
  destruct v as [|s|b|k z|k j]; try discriminate is_plain; cbn in written.
  - destruct (_ <? _); [discriminate|]. by injection written as <-.
  - destruct b; by injection written as <-.
  - destruct (_ <? _); [discriminate|]. injection written as <-. split; [done|]. split; [done|].
    unfold plain in is_plain. apply andb_true_iff in is_plain as [Hk Hz]. unfold GetParsedValue. cbn [Kind Value].
    assert (k ∈ int_kinds) as Hin.
    { apply existsb_exists in Hk as (x & Hx & He). apply String.eqb_eq in He as ->. by apply list_elem_of_In. }
    rewrite (Atoi_itoa z Hz). unfold int_kinds in Hin.
    repeat (apply elem_of_cons in Hin as [->|Hin]; [reflexivity|]). by apply not_elem_of_nil in Hin.
Qed.

(** A string, a boolean or a signed integer written into a named value is read
    back as it was, whatever the decoders of other kinds do; only the kind of an
    integer becomes that of 64-bit integers. *)
Theorem typed_value_roundtrip `{Decoder} name v secret nv
    (is_plain : plain v = true)
    (written : NewNameTypeValue name v secret = Some nv) :
  Name nv = name /\ Secret nv = secret /\ GetParsedValue nv = Some (read_back v).
Proof. exact (plain_value_read_back name v secret nv is_plain written). Qed.

(** Unsigned integers are written and not read back. *)
Example unsigned_is_not_read `{Decoder} :
  exists nv, NewNameTypeValue "n" (VInt "uint32" 7) false = Some nv /\ GetParsedValue nv = None.
Proof. by eexists. Qed.

(** *** Secrets *)
Lemma after_app a b : after (String.length a) (a +:+ b) = b.
Proof. induction a as [|c a IH]; cbn; [by destruct b|exact IH]. Qed.
Lemma HasPrefix_app a b : HasPrefix (a +:+ b) a = true.
Proof.
  unfold HasPrefix. induction a as [|c a IH]; [by destruct b|]. rewrite string_app_cons. cbn [String.prefix].
  destruct (ascii_dec c c) as [_|Hc]; [exact IH|done].
Qed.

(** Decrypting a value that was encrypted gives it back, with a cipher that
    opens what it sealed, unless the text already began with the mark of encrypted
    values. *)
Theorem secret_roundtrip `{Cipher} key nv nv'
    (opens : forall v b, seal key v = Some b -> unseal key b = Some v)
    (unmarked : HasPrefix (Value nv) encryptedPrefix = false)
    (encrypted : Encrypt key nv = Some nv') :
  Decrypt key nv' = Some nv.
Proof.
  unfold Encrypt in encrypted. rewrite unmarked in encrypted. cbn [negb] in encrypted. rewrite andb_true_r in encrypted.
  destruct ((key != "") && Secret nv && (Value nv != "")) eqn:E.
  - destruct (seal key (Value nv)) as [b|] eqn:Es; [|discriminate]. injection encrypted as <-.
    apply andb_true_iff in E as [E _]. unfold Decrypt. cbn [Secret Value set_Value Name Kind].
    rewrite E, HasPrefix_app. rewrite (after_app encryptedPrefix), (opens _ _ Es). by destruct nv.
  - injection encrypted as <-. unfold Decrypt. by rewrite unmarked, andb_false_r.
Qed.
End Values.

(** ** Parameters *)
Section Params.
Import Rows NameValue Request.

Definition names (jr : JobRequest) : list string := map (fun p => Name (p_nv p)) (Params jr).

(** The list and the map hold the same texts under the same names. *)
Record coherent (jr : JobRequest) : Prop := {
  co_names : NoDup (names jr);
  co_lookup : forall k p, lookupParams jr !! k = Some p ->
    exists q, q ∈ Params jr /\ Name (p_nv q) = k /\ Value (p_nv q) = Value (p_nv p);
  co_list : forall q, q ∈ Params jr -> is_Some (lookupParams jr !! Name (p_nv q))
}.

Lemma coherent_new now : coherent (NewRequest now).
Proof. split; [apply NoDup_nil_2|by intros k p Hk; cbn in Hk; rewrite lookup_empty in Hk|by intros q Hq%not_elem_of_nil]. Qed.

Lemma new_named name v secret nv :
  NewNameTypeValue name v secret = Some nv -> Name nv = name /\ text_of v = Some (Value nv).
Proof.
  unfold NewNameTypeValue. destruct v as [|x|x|k z|k j]; [discriminate|..]; destruct (text_of _) as [t|] eqn:E;
    try discriminate; destruct (_ <? _); try discriminate; intros [= <-]; done.
Qed.

Lemma AddParam_coherent k v jr jr' :
  coherent jr -> AddParam k v jr = Some jr' ->
  coherent jr' /\ (exists p, GetParam jr' k = Some p /\ text_of v = Some (Value (p_nv p))) /\
  (forall k', k' <> k -> GetParam jr' k' = GetParam jr k').
Proof.
  intros [HN HL HQ]. unfold AddParam. destruct (NewNameTypeValue k v false) as [nv|] eqn:En; [|discriminate].
  apply new_named in En as [Hn Ht]. intros [= <-]. unfold GetParam. cbn [lookupParams Params].
  split; [|split; [exists (mkParam "" (r_ID (row jr)) nv); split; [apply lookup_insert_eq|done]|
                   intros k' Hk'; by rewrite lookup_insert_ne]].
  destruct (lookupParams jr !! k) as [old|] eqn:El.
  - set (upd := fun next => if Name (p_nv next) == k
                            then mkParam (p_ID next) (p_JobRequestID next) (set_Value (Value nv) (p_nv next)) else next).
    assert (forall q, Name (p_nv (upd q)) = Name (p_nv q)) as Hu by (intros q; unfold upd; by destruct (_ == _)).
    split; unfold names; cbn [Params lookupParams].
    + rewrite map_map. rewrite (map_ext _ (fun p => Name (p_nv p)) Hu). exact HN.
    + intros k' p Hp. apply lookup_insert_Some in Hp as [[<- <-]|[Hne Hp]].
      * destruct (HL k old El) as (q & Hq & Hqn & _). exists (upd q). split; [by apply list_elem_of_fmap; exists q|].
        unfold upd. by rewrite Hqn, eqb_string_refl.
      * destruct (HL k' p Hp) as (q & Hq & Hqn & Hqv). exists (upd q). split; [by apply list_elem_of_fmap; exists q|].
        unfold upd. rewrite Hqn, (proj2 (String.eqb_neq k' k)) by done. done.
    + intros q Hq. apply list_elem_of_fmap in Hq as (q' & -> & Hq'). rewrite Hu.
      apply lookup_insert_is_Some'. right. by apply HQ.
  - assert (k ∉ names jr) as Hk.
    { intros Hin. apply list_elem_of_fmap in Hin as (q & -> & Hq). destruct (HQ q Hq) as [p Hp]. congruence. }
    split; unfold names; cbn [Params lookupParams].
    + rewrite map_app. cbn. rewrite Hn. apply NoDup_app. split_and!; [done| |by apply NoDup_singleton].
      intros x Hx Hx'. apply list_elem_of_singleton in Hx' as ->. by apply Hk.
    + intros k' p Hp. apply lookup_insert_Some in Hp as [[<- <-]|[Hne Hp]].
      * eexists. split; [apply elem_of_app; right; apply list_elem_of_here|]. done.
      * destruct (HL k' p Hp) as (q & Hq & Hqr). exists q. split; [apply elem_of_app; by left|done].
    + intros q [Hq|Hq]%elem_of_app; apply lookup_insert_is_Some'; [right; by apply HQ|left].
      by apply list_elem_of_singleton in Hq as ->.
Qed.

(** The last value of a name in a sequence. *)
Definition last_value (k : string) (l : list (string * value)) : option value :=
  last (map snd (List.filter (fun kv => fst kv == k) l)).

Lemma last_value_snoc k l k' v : last_value k (l ++ [(k', v)]) = if k' == k then Some v else last_value k l.
Proof.
  unfold last_value. rewrite List.filter_app, map_app. cbn. destruct (k' == k); cbn; [apply last_snoc|by rewrite app_nil_r].
Qed.

Lemma add_all_snoc l k v jr jr' :
  add_all (l ++ [(k, v)]) jr = (jr', true) -> exists jr1, add_all l jr = (jr1, true) /\ AddParam k v jr1 = Some jr'.
Proof.
  revert jr. induction l as [|[k0 v0] l IH]; intros jr; cbn.
  - destruct (AddParam k v jr) as [jr1|] eqn:E; [|discriminate]. intros [= <-]. by exists jr.
  - destruct (AddParam k0 v0 jr) as [jr1|]; [apply IH|discriminate].
Qed.

(** After any sequence of values was given to the parameters of a new request,
    each name is in the list once, and both the list and the lookup hold the text
    of the last value given to it. *)
Theorem parameters_hold_the_last_value now l jr
    (added : add_all l (NewRequest now) = (jr, true)) :
  NoDup (names jr) /\
  forall k v, last_value k l = Some v ->
    exists p q, GetParam jr k = Some p /\ q ∈ Params jr /\ Name (p_nv q) = k /\
      text_of v = Some (Value (p_nv p)) /\ Value (p_nv q) = Value (p_nv p).
Proof.
  enough (coherent jr /\ forall k v, last_value k l = Some v -> exists p, GetParam jr k = Some p /\ text_of v = Some (Value (p_nv p)))
    as [Hco HL].
  { split; [apply Hco|]. intros k v Hv. destruct (HL k v Hv) as (p & Hp & Ht).
    destruct (co_lookup _ Hco k p Hp) as (q & Hq & Hqn & Hqv). exists p, q. by split_and!. }
  revert jr added. induction l as [|[k v] l IH] using rev_ind; intros jr HA.
  - injection HA as <-. split; [apply coherent_new|discriminate].
  - apply add_all_snoc in HA as (jr1 & HA1 & HA2). destruct (IH jr1 HA1) as [Hco HL].
    destruct (AddParam_coherent k v jr1 jr Hco HA2) as (Hco' & Hk & Hrest). split; [done|].
    intros k' v' Hv'. rewrite last_value_snoc in Hv'. destruct (String.eqb_spec k k') as [<-|Hne].
    + injection Hv' as <-. exact Hk.
    + destruct (HL k' v' Hv') as (p & Hp & Ht). exists p. split; [|done]. by rewrite Hrest.
Qed.

(** The kind of a parameter does not follow its value: a number replaced by a text
    makes the request invalid. *)
Example replaced_kind_is_invalid `{Decoder} :
  match AddParam "n" (VInt "int" 5) (NewRequest 1) with
  | Some jr => match AddParam "n" (VString "five") jr with
               | Some jr => snd (Validate jr) = Some BadParam
               | None => False
               end
  | None => False
  end.
Proof. reflexivity. Qed.
End Params.

(** ** Witnesses *)
Section Witnesses.
Import Rows NameValue Request.

Definition no_decoder : Decoder :=
  {| decode_float := fun _ => None; decode_complex := fun _ => None; decode_object := fun _ => None; decode_array := fun _ => None |}.
(** A cipher that marks the text. *)
Definition toy_cipher : Cipher :=
  {| seal := fun k v => Some (k +:+ v); unseal := fun k b => Some (after (String.length k) b) |}.

Lemma typed_value_roundtrip_witness :
  NewNameTypeValue "n" (VInt "int32" (-42)) true = Some (mkNameTypeValue "n" "int32" "-42" true) /\
  Name (mkNameTypeValue "n" "int32" "-42" true) = "n" /\ Secret (mkNameTypeValue "n" "int32" "-42" true) = true /\
  @GetParsedValue no_decoder (mkNameTypeValue "n" "int32" "-42" true) = Some (read_back (VInt "int32" (-42))).
Proof.
  split; [reflexivity|].
  refine (@typed_value_roundtrip no_decoder "n" (VInt "int32" (-42)) true _ _ _); reflexivity.
Defined.

Lemma secret_roundtrip_witness :
  @Encrypt toy_cipher "k" (mkNameTypeValue "p" "string" "s3cret" true) = Some (mkNameTypeValue "p" "string" "_ENCRYPTED_ks3cret" true) /\
  @Decrypt toy_cipher "k" (mkNameTypeValue "p" "string" "_ENCRYPTED_ks3cret" true) = Some (mkNameTypeValue "p" "string" "s3cret" true).
Proof.
  split; [reflexivity|].
  refine (@secret_roundtrip toy_cipher "k" (mkNameTypeValue "p" "string" "s3cret" true) _ _ _ _); [|reflexivity|reflexivity].
  intros v b Hb. injection Hb as <-. destruct v; reflexivity.
Defined.

Definition demo_adds : list (string * value) := [("a", VString "1"); ("b", VBool true); ("a", VString "2")].
Lemma parameters_hold_the_last_value_witness :
  last_value "a" demo_adds = Some (VString "2") /\
  NoDup (names (fst (add_all demo_adds (NewRequest 1)))) /\
  forall k v, last_value k demo_adds = Some v ->
    exists p q, GetParam (fst (add_all demo_adds (NewRequest 1))) k = Some p /\ q ∈ Params (fst (add_all demo_adds (NewRequest 1))) /\
      Name (p_nv q) = k /\ text_of v = Some (Value (p_nv p)) /\ Value (p_nv q) = Value (p_nv p).
Proof.
  split; [reflexivity|].
  refine (parameters_hold_the_last_value 1 demo_adds (fst (add_all demo_adds (NewRequest 1))) _). vm_compute. reflexivity.
Defined.

(** The text of a date. *)
Example rfc3339_date : Schedule.RFC3339 (63838000000 * 1000000000) = "2023-12-12T17:46:40Z".
Proof. vm_compute. reflexivity. Qed.
End Witnesses.
