(* ===== verification/JobManager.v ===== *)
(** * JobManager: requests, definitions and executions as the server drives them

    Models [src/queen/manager/job_manager.go] on top of the repositories
    ([JobStore]) and the statistics ([Stats]): submitting jobs, cron schedules,
    pausing, cancelling with cascade to the children, triggering, restarting,
    changing states and finishing, and the subscription quota.

    The state is that of the store with the statistics, the messages published,
    the audit records, the users' accounts, and the goroutines started and not
    yet run.  A goroutine is an entry of [background]; [run_task] is what it does
    when it runs, at any later point.  Logs, metric counters and the signal that
    wakes the scheduler are left out. *)

From S2P Require Import Prelude RequestState Acl Approval Stats Tables JobStore JobRequest.

Open Scope Z_scope.

(** ** Manager: state and effects *)
Module Manager.
Import Rows NameValue Schedule Request.

Inductive definition_change := UPDATED | ENABLED | DISABLED | DELETED.

(** Messages of the life cycle topics. *)
Inductive event :=
| JobRequestLifecycle (userID id jobType : string) (state : RequestState)
| JobDefinitionLifecycle (userID id jobType : string) (change : definition_change)
| JobExecutionLifecycle (userID id jobType executionID : string) (state : RequestState) (priority : Z)
| RecentlyCompletedJobs (ids : list string)
| JobWebhook (userID id executionID : string) (state : RequestState).

Inductive audit_kind := JobRequestPaused | JobRequestCancelled | JobRequestTriggered | JobRequestRestarted
| JobRequestFailed.

(** Goroutines. *)
Inductive task :=
| CascadeCancel (rootParentID : string)
| OverrideCancel (qc : Query.QueryContext) (id : string)
| NotifyJob (id : string) (lastRequestState : RequestState).

Inductive merror :=
| Repo (e : Store.error)
| PublishError
| QuotaError (message : string)
| JobDisabledError
| NotPausable
| UnknownState (s : string)
| ForkError
| BadParameter
| PluginError
| Panicked.

Record Subscription := mkSubscription { Active : bool; CPUQuota : Z; DiskQuota : Z; StartedAt : Z; EndedAt : Z }.
(** A user as the quota and the scheduler see it; the organization's message and
    limit when there is one. *)
Record Account := mkAccount {
  a_user : Users.User;
  a_subscription : option Subscription;
  StickyMessage : string;
  org_StickyMessage : option string;
  a_MaxConcurrency : Z;
  org_MaxConcurrency : option Z
}.

Record MS := mkMS {
  store : Store.St;
  registry : Registry.JobStatsRegistry;
  published : list event;
  publishes : nat;
  audits : list (string * audit_kind);
  accounts : gmap string Account;
  background : list task
}.

Definition set_store (x : Store.St) (s : MS) : MS :=
  mkMS x (registry s) (published s) (publishes s) (audits s) (accounts s) (background s).
Definition set_registry (x : Registry.JobStatsRegistry) (s : MS) : MS :=
  mkMS (store s) x (published s) (publishes s) (audits s) (accounts s) (background s).
Definition set_accounts (x : gmap string Account) (s : MS) : MS :=
  mkMS (store s) (registry s) (published s) (publishes s) (audits s) x (background s).
Definition set_background (x : list task) (s : MS) : MS :=
  mkMS (store s) (registry s) (published s) (publishes s) (audits s) (accounts s) x.

(** What the manager asks of its other collaborators and of its configuration. *)
Class Calls := {
  (** Whether the n-th message is sent. *)
  publish_ok : nat -> bool;
  (** Whether the database reports a unique index with one of the texts that
      [SubmitJob] looks for. *)
  names_duplicates : bool;
  SubscriptionQuotaEnabled : bool;
  AuthEnabled : bool;
  MaxConcurrency : Z;
  MaxJobTimeout : Z;
  (** The CPU seconds and the MiB of disk space used in the period of a
      subscription, or the text of the error. *)
  cpu_usage : Query.QueryContext -> Subscription -> Z + string;
  disk_usage : Query.QueryContext -> Subscription -> Z + string;
  user_update_ok : bool;
  (** The bundle of an organization. *)
  bundle_of : string -> option string;
  (** [ulid.Parse] accepts the text. *)
  ulid_Parse : string -> bool;
  (** The validation of a definition. *)
  valid_definition : DefRow -> bool
}.

(** *** Effects *)
Definition MM (A : Type) : Type := MS -> (A + merror) * MS.
Definition ret {A} (a : A) : MM A := fun s => (inl a, s).
Definition throw {A} (e : merror) : MM A := fun s => (inr e, s).
Definition bind {A B} (m : MM A) (k : A -> MM B) : MM B :=
  fun s => match m s with
           | (inl a, s') => k a s'
           | (inr e, s') => (inr e, s')
           end.
(** The result of [m] as a value of the caller. *)
Definition attempt {A} (m : MM A) : MM (A + merror) := fun s => let '(r, s') := m s in (inl r, s').

Declare Scope manager_scope.
Notation "x <- m ;; k" := (bind m (fun x => k)) (at level 100, m at next level, right associativity) : manager_scope.
Notation "m ;;; k" := (bind m (fun _ => k)) (at level 100, right associativity) : manager_scope.
Open Scope manager_scope.

Definition repo {A} (m : Store.M A) : MM A :=
  fun s => match m (store s) with
           | (inl a, s') => (inl a, set_store s' s)
           | (inr e, s') => (inr (Repo e), set_store s' s)
           end.
Definition stats (f : Registry.JobStatsRegistry -> Registry.JobStatsRegistry) : MM unit :=
  fun s => (inl tt, set_registry (f (registry s)) s).
Definition stats_end (f : Registry.JobStatsRegistry -> outcome Empty_set Registry.JobStatsRegistry) : MM unit :=
  fun s => match f (registry s) with
           | Return r => (inl tt, set_registry r s)
           | _ => (inr Panicked, s)
           end.
Definition get_registry : MM Registry.JobStatsRegistry := fun s => (inl (registry s), s).
Definition spawn (t : task) : MM unit := fun s => (inl tt, set_background (background s ++ [t]) s).
(** The result of saving an audit record is not looked at. *)
Definition audit (id : string) (kind : audit_kind) : MM unit :=
  fun s => (inl tt, mkMS (store s) (registry s) (published s) (publishes s) (audits s ++ [(id, kind)])
                      (accounts s) (background s)).

(** The context of a user made from two identifiers, and that of a system user. *)
Definition NewQueryContextFromIDs (userID orgID : string) : Query.QueryContext :=
  Query.NewQueryContext (Some (Users.mkUser userID orgID "" "" None None)).
Definition WithAdmin (qc : Query.QueryContext) : Query.QueryContext :=
  match Query.User_ qc with
  | Some _ => Query.mkQueryContext (Query.UserIDColumn qc) (Query.OrganizationIDColumn qc)
                (Some (Users.mkUser "" "" "" "Admin[]" None None))
  | None => qc
  end.

Section Manager.
Context `{Store.Env, Cron, Decoder, RangeOrder, Calls}.
Abbreviation now := Store.now.

Definition publish (e : event) : MM unit :=
  fun s =>
    if publish_ok (publishes s)
    then (inl tt, mkMS (store s) (registry s) (published s ++ [e]) (S (publishes s)) (audits s) (accounts s) (background s))
    else (inr PublishError, mkMS (store s) (registry s) (published s) (S (publishes s)) (audits s) (accounts s) (background s)).

Definition fireJobRequestChange (r : RequestRow) : MM unit :=
  publish (JobRequestLifecycle (r_UserID r) (r_ID r) (r_JobType r) (r_JobState r)).
Definition fireJobDefinitionChange (username id jobType : string) (change : definition_change) : MM unit :=
  publish (JobDefinitionLifecycle username id jobType change).

(** ** Job definitions *)
Definition GetJobDefinition (qc : Query.QueryContext) (id : string) : MM DefRow := repo (Definitions.Get qc id).
Definition GetJobDefinitionByType (qc : Query.QueryContext) (jobType version : string) : MM DefRow :=
  repo (Definitions.GetByType qc (jobType +:+ ":" +:+ version)).

Definition definition_key (d : DefRow) : JobStats.UserJobTypeKey :=
  JobStats.mkUserJobTypeKey (d_JobType d) (d_SemVersion d) (d_OrganizationID d) (d_UserID d).

(** The definition that has changed is announced, when it can be loaded. *)
Definition announce (qc : Query.QueryContext) (id : string) (change : definition_change)
    (also : DefRow -> MM unit) : MM unit :=
  loaded <- attempt (GetJobDefinition qc id) ;;
  match loaded with
  | inl d => also d ;;; attempt (fireJobDefinitionChange (d_UserID d) id (d_JobType d) change) ;;; ret tt
  | inr _ => ret tt
  end.
Definition SetJobDefinitionMaxConcurrency (qc : Query.QueryContext) (id : string) (concurrency : Z) : MM unit :=
  repo (Definitions.SetMaxConcurrency MaxConcurrency id concurrency) ;;;
  announce qc id UPDATED (fun _ => ret tt).
Definition DisableJobDefinition (qc : Query.QueryContext) (id : string) : MM unit :=
  repo (Definitions.SetDisabled id true) ;;;
  announce qc id DISABLED (fun d => stats (Registry.SetDisabled (definition_key d) true)).
Definition EnableJobDefinition (qc : Query.QueryContext) (id : string) : MM unit :=
  repo (Definitions.SetDisabled id false) ;;;
  announce qc id ENABLED (fun d => stats (Registry.SetDisabled (definition_key d) false)).
Definition DeleteJobDefinition (qc : Query.QueryContext) (id : string) : MM unit :=
  repo (Definitions.Delete qc id) ;;; announce qc id DELETED (fun _ => ret tt).

(** ** Subscription quota *)
Definition Expired (s : Subscription) : bool := negb (Active s) || (Requests.unix (EndedAt s) <? Requests.unix now).
Definition doCheckSubscriptionQuota (qc : Query.QueryContext) (user : option Account) : option string :=
  match user with
  | None => Some "quota-error: user subscription not found"
  | Some u =>
      if snd (Users.IsAdmin (a_user u)) then None
      else match a_subscription u with
           | None => Some "quota-error: user subscription not found"
           | Some sub =>
               if Expired sub then Some "quota-error: user subscription is expired"
               else match cpu_usage qc sub with
                    | inr e => Some e
                    | inl cpu =>
                        if CPUQuota sub <=? cpu
                        then Some ("quota-error: exceeded cpu quota " +:+ itoa (CPUQuota sub) +:+ " secs, check your subscription")
                        else match disk_usage qc sub with
                             | inr e => Some e
                             | inl disk =>
                                 if DiskQuota sub <=? disk
                                 then Some ("quota-error: exceeded disk quota " +:+ itoa (DiskQuota sub) +:+ " MiB, check your subscription")
                                 else None
                             end
                    end
           end
  end.

(** The messages shown to the user and to the organization. *)
Definition stick (message : string) (u : Account) : Account * bool :=
  let '(m, dirty1) := if StickyMessage u == "" then (message, true) else (StickyMessage u, false) in
  let '(o, dirty2) := match org_StickyMessage u with
                      | Some "" => (Some message, true)
                      | o => (o, false)
                      end in
  (mkAccount (a_user u) (a_subscription u) m o (a_MaxConcurrency u) (org_MaxConcurrency u), dirty1 || dirty2).
Definition unstick (u : Account) : Account * bool :=
  let '(m, dirty1) := if Contains (StickyMessage u) "quota-error" then ("", true) else (StickyMessage u, false) in
  let '(o, dirty2) := match org_StickyMessage u with
                      | Some o => if Contains o "quota-error" then (Some "", true) else (Some o, false)
                      | None => (None, false)
                      end in
  (mkAccount (a_user u) (a_subscription u) m o (a_MaxConcurrency u) (org_MaxConcurrency u), dirty1 || dirty2).

Definition CheckSubscriptionQuota (qc : Query.QueryContext) (user : Account) : MM unit :=
  if SubscriptionQuotaEnabled && AuthEnabled then
    let err := doCheckSubscriptionQuota qc (Some user) in
    let '(user', dirty) := match err with Some m => stick m user | None => unstick user end in
    (fun s => (inl tt, if dirty && user_update_ok
                       then set_accounts (<[Users.ID (a_user user) := user']> (accounts s)) s else s)) ;;;
    match err with Some m => throw (QuotaError m) | None => ret tt end
  else ret tt.

Definition GetUser (id : string) : MM Account :=
  fun s => match accounts s !! id with Some u => (inl u, s) | None => (inr (Repo Store.NotFoundError), s) end.

(** ** Job requests *)
Definition maxForkJobs : nat := 10.
Definition ParentJobTypePrefix : string := "ParentJobType".

Definition owned_of (p : Param) : OwnedRow :=
  mkOwnedRow (p_ID p) (p_JobRequestID p) (Name (p_nv p)) (Kind (p_nv p)) (Value (p_nv p)).
Definition param_of (o : OwnedRow) : Param :=
  mkParam (o_ID o) (o_Owner o) (mkNameTypeValue (o_Name o) (o_Kind o) (o_Value o) false).

(** [jobRequestRepository.Save] of the object: the result and the object as it
    is left. *)
Definition save_object (qc : Query.QueryContext) (jr : JobRequest) : MM ((JobRequest + merror) * JobRequest) :=
  fun s =>
    let '(jr, invalid) := ValidateBeforeSave jr in
    let valid := match invalid with None => true | Some _ => false end in
    let ps := map owned_of (Params jr) in
    let put := fun x : RequestRow * list OwnedRow => set_Params (map param_of (snd x)) (set_row (fst x) jr) in
    match Requests.Save qc valid (row jr) ps (store s) with
    | (inl x, s') => (inl (inl (put x), put x), set_store s' s)
    | (inr e, s') => (inl (inr (Repo e), put (Requests.left_by_Save qc valid (row jr) ps (store s))), set_store s' s)
    end.

(** The columns set before a request is saved. *)
Definition submitted (def : DefRow) (r : RequestRow) : RequestRow :=
  let r := set_r_JobExecutionID None (set_r_JobDefinitionID (d_ID def) (set_r_JobState State.PENDING r)) in
  let r := set_r_ScheduleAttempts 0 (set_r_ErrorMessage None (set_r_ErrorCode None r)) in
  let r := set_r_UpdatedAt now (set_r_CreatedAt now (set_r_Retried 0 r)) in
  let r := UpdateUserKeyFromScheduleIfCronJob now def r in
  let '(r, scheduled) := UpdateScheduledAtFromCronTrigger now def r in
  if negb scheduled && ((r_ScheduledAt r =? 0) || (Requests.unix (r_ScheduledAt r) <? Requests.unix now - 1))
  then set_r_ScheduledAt now r else r.

(** A job may not fork its own type, directly or through others, and not more
    than ten generations of jobs. *)
Definition parent_type (p : Param) : bool := HasPrefix (Name (p_nv p)) ParentJobTypePrefix.
Definition fork_allowed (jobType : string) (ps : list Param) : bool :=
  let parents := List.filter parent_type ps in
  negb (existsb (fun p => Value (p_nv p) == jobType) parents) && (List.length parents <=? maxForkJobs)%nat.

Definition check_quota (qc : Query.QueryContext) (r : RequestRow) (def : DefRow) : MM unit :=
  if SubscriptionQuotaEnabled && (r_UserID r != "") then
    user <- GetUser (r_UserID r) ;;
    checked <- attempt (CheckSubscriptionQuota qc user) ;;
    match checked with
    | inl _ => ret tt
    | inr e =>
        (if d_CronTrigger def != "" then attempt (DisableJobDefinition qc (d_ID def)) ;;; ret tt else ret tt) ;;;
        throw e
    end
  else ret tt.

(** [SaveJobRequest]: the result and the object as it is left. *)
Definition SaveJobRequest (qc : Query.QueryContext) (request : JobRequest) : MM ((JobRequest + merror) * JobRequest) :=
  let request := set_row (Requests.owned_by qc (row request)) request in
  def <- attempt (GetJobDefinitionByType qc (r_JobType (row request)) (r_JobVersion (row request))) ;;
  match def with
  | inr e => ret (inr e, request)
  | inl def =>
      quota <- attempt (check_quota qc (row request) def) ;;
      match quota with
      | inr e => ret (inr e, request)
      | inl _ =>
          let request := set_row (submitted def (row request)) request in
          if negb (fork_allowed (r_JobType (row request)) (Params request)) then ret (inr ForkError, request)
          else
            saved <- save_object qc request ;;
            match fst saved with
            | inr e => ret (inr e, snd saved)
            | inl req =>
                attempt (fireJobRequestChange (row req)) ;;;
                stats (Registry.Pending (summary (row req)) false) ;;;
                ret (inl req, req)
            end
      end
  end.
(** For callers that do not use the object again. *)
Definition save_request (qc : Query.QueryContext) (request : JobRequest) : MM JobRequest :=
  r <- SaveJobRequest qc request ;;
  match fst r with inl req => ret req | inr e => throw e end.

(** [DeactivateOldCronRequest], [DeleteJobRequest] and the other calls that are
    passed on. *)
Definition DeactivateOldCronRequest (qc : Query.QueryContext) (r : RequestRow) : MM unit :=
  if r_CronTriggered r then repo (Requests.DeletePendingCronByJobType qc (r_JobType r)) else ret tt.

(** *** Cron *)

(** The values of the old request's parameters, read and written again; one that
    cannot be read is nil and is dropped. *)
Definition copy_param (jr : JobRequest) (p : Param) : JobRequest :=
  match GetParsedValue (p_nv p) with
  | Some v => default jr (AddParam (Name (p_nv p)) v jr)
  | None => jr
  end.

(** A request of the caller, with its parameters when it is a full request. *)
Record IJobRequest := mkIJobRequest { i_row : RequestRow; i_params : option (list Param) }.

Definition old_params (qc : Query.QueryContext) (oldReq : IJobRequest) : MM (list Param) :=
  match i_params oldReq with
  | Some ps => ret ps
  | None =>
      loaded <- attempt (repo (Requests.Get qc (r_ID (i_row oldReq)))) ;;
      match loaded with
      | inl r => fun s => (inl (map param_of (Sql.select (fun o => o_Owner o == r_ID r) (params (Store.db (store s))))), s)
      | inr _ => ret []
      end
  end.

Definition scheduleCronRequest (jobDefinition : DefRow) (oldReq : option IJobRequest) : MM unit :=
  match NewJobRequestFromDefinition now jobDefinition with
  | None => throw JobDisabledError
  | Some request =>
      reg <- get_registry ;;
      if 0 <? Registry.GetExecutionCount reg (key_of_row (row request)) then ret tt
      else
        let qc := NewQueryContextFromIDs (r_UserID (row request)) (r_OrganizationID (row request)) in
        request <- (match oldReq with
                    | None => ret request
                    | Some old =>
                        ps <- old_params qc old ;;
                        let request := foldl copy_param request ps in
                        ret (set_row (set_r_OrganizationID (r_OrganizationID (i_row old))
                               (set_r_UserID (r_UserID (i_row old)) (set_r_ParentID (r_ID (i_row old)) (row request)))) request)
                    end) ;;
        existing <- (if r_UserKey (row request) != ""
                     then attempt (repo (Requests.GetByUserKey (WithAdmin qc) (r_UserKey (row request))))
                     else ret (inr (Repo Store.NotFoundError))) ;;
        match existing with
        | inl _ => ret tt
        | inr _ => save_request qc request ;;; ret tt
        end
  end.

(** The next run of a cron job. *)
Definition next_run (jobDefinition : DefRow) (oldReq : option IJobRequest) : MM unit :=
  match cron_schedule now jobDefinition with
  | Some _ => scheduleCronRequest jobDefinition oldReq
  | None => ret tt
  end.

Definition SaveJobDefinition (qc : Query.QueryContext) (d : DefRow) : MM DefRow :=
  (if d_PublicPlugin d && (d_UserID d != "") then
     if d_OrganizationID d == "" then throw PluginError
     else match bundle_of (d_OrganizationID d) with
          | None => throw PluginError
          | Some bundle => if HasPrefix (d_JobType d) bundle then ret tt else throw PluginError
          end
   else ret tt) ;;;
  (if valid_definition d then ret tt else throw (Repo Store.ValidationError)) ;;;
  saved <- repo (Definitions.Save qc true d) ;;
  attempt (fireJobDefinitionChange (d_UserID saved) (d_ID saved) (d_JobType saved) UPDATED) ;;;
  next_run saved None ;;;
  ret saved.

Definition FindMissingCronScheduledJobsByType (jobTypes : list Requests.JobTypeCronTrigger)
    : MM (list Requests.JobTypeCronTrigger) :=
  let org_or_user := fun t => if Requests.ct_OrganizationID t != "" then Requests.ct_OrganizationID t else Requests.ct_UserID t in
  let userKeys := map (fun t =>
    match GetCronScheduleTimeAndUserKey now (org_or_user t) (Requests.ct_JobType t) (Requests.ct_CronTrigger t) with
    | Some (_, key) => key
    | None => ""
    end) jobTypes in
  active <- repo (Requests.FindActiveCronScheduledJobsByJobType jobTypes userKeys) ;;
  let matched := fun t => existsb (fun a =>
    (Requests.ct_JobType t == r_JobType a) &&
    (((Requests.ct_OrganizationID t != "") && (r_OrganizationID a != "")
      && (Requests.ct_OrganizationID t == r_OrganizationID a))
     || (Requests.ct_UserID t == r_UserID a))) active in
  stats (fun reg => foldl (fun reg a => Registry.Pending (summary a) false reg) reg active) ;;;
  ret (List.filter (fun t => negb (matched t)) jobTypes).

(** *** Pausing and cancelling *)
Definition execution_event (r : RequestRow) (state : RequestState) : event :=
  JobExecutionLifecycle (r_UserID r) (r_ID r) (r_JobType r) (text (r_JobExecutionID r)) state (r_JobPriority r).

Definition pauseJob (r : RequestRow) : MM unit := publish (execution_event r State.PAUSED).
Definition cancelJob (qc : Query.QueryContext) (r : RequestRow) : MM unit :=
  publish (execution_event r State.CANCELLED) ;;; spawn (OverrideCancel qc (r_ID r)).

(** A failure to load the execution is only logged. *)
Definition GetJobRequest (qc : Query.QueryContext) (id : string) : MM RequestRow :=
  r <- repo (Requests.Get qc id) ;;
  (if text (r_JobExecutionID r) != "" then attempt (repo (Executions.Get (text (r_JobExecutionID r)))) ;;; ret tt
   else ret tt) ;;;
  ret r.

Definition overrideCancelRequest (qc : Query.QueryContext) (id : string) : MM unit :=
  verify <- attempt (GetJobRequest qc id) ;;
  match verify with
  | inl r => if State.IsTerminal (r_JobState r) then ret tt
             else attempt (repo (Requests.Cancel qc id)) ;;; ret tt
  | inr _ => ret tt
  end.

Definition PauseJobRequest (qc : Query.QueryContext) (id : string) : MM unit :=
  req <- repo (Requests.Get qc id) ;;
  if r_JobState req != State.EXECUTING then throw NotPausable
  else
    stats (Registry.Cancelled (summary req)) ;;;
    pauseJob req ;;;
    audit (r_ID req) JobRequestPaused.

(** Jobs that no ant works on are cancelled in the table; the others are told. *)
Definition waiting (state : RequestState) : bool :=
  (state == State.PENDING) || (state == State.PAUSED) || (state == State.MANUAL_APPROVAL_REQUIRED).

Definition CancelJobRequest (qc : Query.QueryContext) (id : string) : MM unit :=
  req <- repo (Requests.Get qc id) ;;
  stats (Registry.Cancelled (summary req)) ;;;
  (if waiting (r_JobState req) then
     repo (Requests.Cancel qc id) ;;;
     attempt (fireJobRequestChange (set_r_JobState State.CANCELLED req)) ;;; ret tt
   else cancelJob qc req) ;;;
  audit (r_ID req) JobRequestCancelled ;;;
  spawn (CascadeCancel id).

Definition cascadeCancelBFSMaxDepth : nat := 20.

Definition cancel_child (child : RequestRow) : MM unit :=
  let childQC := NewQueryContextFromIDs (r_UserID child) (r_OrganizationID child) in
  if waiting (r_JobState child) then
    cancelled <- attempt (repo (Requests.Cancel childQC (r_ID child))) ;;
    match cancelled with
    | inl _ => attempt (fireJobRequestChange (set_r_JobState State.CANCELLED child)) ;;; ret tt
    | inr _ => ret tt
    end
  else attempt (cancelJob childQC child) ;;; ret tt.

(** The children of one request: those not seen before are cancelled and their
    own children queued. *)
Fixpoint cancel_children (depth : nat) (children : list RequestRow) (visited : gset string) (queue : list (string * nat))
    : MM (gset string * list (string * nat)) :=
  match children with
  | [] => ret (visited, queue)
  | child :: rest =>
      if decide (r_ID child ∈ visited) then cancel_children depth rest visited queue
      else
        cancel_child child ;;;
        cancel_children depth rest ({[r_ID child]} ∪ visited) (queue ++ [(r_ID child, S depth)])
  end.

(** The loop over the queue; [false] when [fuel] does not reach its end. *)
Fixpoint cascade (fuel : nat) (visited : gset string) (queue : list (string * nat)) : MM bool :=
  match queue, fuel with
  | [], _ => ret true
  | _ :: _, O => ret false
  | (parentID, depth) :: queue, S fuel =>
      if (cascadeCancelBFSMaxDepth <=? depth)%nat then cascade fuel visited queue
      else
        children <- attempt (repo (Requests.FindActiveChildRequests parentID)) ;;
        match children with
        | inr _ => cascade fuel visited queue
        | inl children =>
            next <- cancel_children depth children visited queue ;;
            cascade fuel (fst next) (snd next)
        end
  end.
(** One step for the root and one for each request is enough. *)
Definition cascadeCancelToChildren (rootParentID : string) : MM bool :=
  fun s => cascade (S (List.length (requests (Store.db (store s))))) ∅ [(rootParentID, 0%nat)] s.

(** *** States *)
Definition IncrementScheduleAttemptsForJobRequest (r : RequestRow) (scheduleSecs decrPriority : Z)
    (errorMessage : string) : MM unit :=
  stats (Registry.SetAntsAvailable (key_of_row r) false errorMessage) ;;;
  repo (Requests.IncrementScheduleAttempts (r_ID r) scheduleSecs decrPriority errorMessage) ;;;
  stats (Registry.Pending (summary r) false).

(** [UpdateJobRequestState]: for a cron job that ends, the error of the update
    is replaced by that of loading the definition and scheduling the next run. *)
Definition UpdateJobRequestState (qc : Query.QueryContext) (req : IJobRequest) (oldState newState : RequestState)
    (errorMessage errorCode : string) (scheduleDelay retried : Z) (reverted : bool) : MM unit :=
  let r := i_row req in
  updated <- attempt (repo (Requests.UpdateJobState (r_ID r) oldState newState errorMessage errorCode
                              scheduleDelay retried (r_PausedCount r))) ;;
  if newState == State.PENDING then
    stats (Registry.Pending (summary r) reverted) ;;;
    match updated with inl _ => ret tt | inr e => throw e end
  else if State.IsTerminal newState && r_CronTriggered r then
    def <- GetJobDefinitionByType qc (r_JobType r) (r_JobVersion r) ;;
    next_run def (Some req)
  else match updated with inl _ => ret tt | inr e => throw e end.

Definition CountByJobTypeAndStateStrings (jobType : string) (states : list string) : MM Z :=
  match List.find (fun s => negb (State.IsKnown (State.NewRequestState s))) states with
  | Some s => throw (UnknownState s)
  | None => repo (Requests.CountByJobTypeAndState jobType (map State.NewRequestState states))
  end.

(** [SubmitJob]: a job from a template.  The parameters come from a map. *)
Fixpoint submit_params (ps : list (string * string)) (jr : JobRequest) : option JobRequest :=
  match ps with
  | [] => Some jr
  | (k, v) :: rest =>
      if k == "_user_key" then submit_params rest (set_row (set_r_UserKey v (row jr)) jr)
      else if k == "_parent_id" then submit_params rest (set_row (set_r_ParentID v (row jr)) jr)
      else match AddParam k (VString v) jr with Some jr => submit_params rest jr | None => None end
  end.

Definition isDuplicate (e : merror) : bool :=
  match e with Repo Store.UniqueError => names_duplicates | _ => false end.

Definition set_JobType (t : string) (r : RequestRow) : RequestRow :=
  mkRequestRow (r_ID r) (r_ParentID r) (r_UserKey r) (r_JobDefinitionID r) (r_JobExecutionID r)
    (r_LastJobExecutionID r) (r_OrganizationID r) (r_UserID r) t (r_JobVersion r)
    (r_JobState r) (r_JobPriority r) (r_ScheduleAttempts r) (r_Retried r) (r_PausedCount r)
    (r_CronTriggered r) (r_ErrorCode r) (r_ErrorMessage r) (r_CurrentTask r) (r_ScheduledAt r)
    (r_CreatedAt r) (r_UpdatedAt r) (r_HardRestart r) (r_CascadeCancel r).

Definition SubmitJob (jobType description : string) (ps : gmap string string) : MM string :=
  let start := mkJobRequest (set_JobType jobType (new_row now)) description "" "" 0 [] ∅ ∅ "" in
  match submit_params (range ps) start with
  | None => throw BadParameter
  | Some request =>
      ids <- (if r_ParentID (row request) != "" then
                parent <- attempt (repo (Requests.Get (Query.NewQueryContext None) (r_ParentID (row request)))) ;;
                ret (match parent with inl p => (r_UserID p, r_OrganizationID p) | inr _ => ("", "") end)
              else ret ("", "")) ;;
      let qc := NewQueryContextFromIDs (fst ids) (snd ids) in
      saved <- SaveJobRequest qc request ;;
      match saved with
      | (inl req, _) => ret (r_ID (row req))
      | (inr e, request) =>
          if isDuplicate e && (r_UserKey (row request) != "") then
            existing <- attempt (repo (Requests.GetByUserKey (WithAdmin qc) (r_UserKey (row request)))) ;;
            match existing with
            | inr _ => throw e
            | inl old =>
                if State.IsTerminal (r_JobState old) then
                  repo (Requests.UpdateJobState (r_ID old) "" (r_JobState old) "" "" 0 0 0) ;;;
                  again <- save_request qc request ;;
                  ret (r_ID (row again))
                else ret (r_ID old)
            end
          else throw e
      end
  end.

(** *** Triggering and restarting *)
Definition TriggerJobRequest (qc : Query.QueryContext) (id : string) : MM unit :=
  repo (Requests.Trigger qc id) ;;;
  loaded <- attempt (repo (Requests.Get qc id)) ;;
  match loaded with
  | inl r => attempt (fireJobRequestChange r) ;;; audit (r_ID r) JobRequestTriggered
  | inr _ => ret tt
  end.

Definition resolveVersionToDefinitionID (qc : Query.QueryContext) (jobType version : string) : MM string :=
  found <- (if ulid_Parse version then
              d <- attempt (GetJobDefinition qc version) ;;
              ret (match d with inl d => Some d | inr _ => None end)
            else ret None) ;;
  match found with
  | Some d => ret (d_ID d)
  | None => d <- GetJobDefinitionByType qc jobType version ;; ret (d_ID d)
  end.

Definition RestartJobRequest (qc : Query.QueryContext) (id : string) (hard : bool) (version : string) : MM unit :=
  newID <- (if (version == "latest") || (hard && (version == "")) then
              req <- repo (Requests.Get qc id) ;;
              latest <- GetJobDefinitionByType qc (r_JobType req) "" ;;
              ret (if d_ID latest != r_JobDefinitionID req then d_ID latest else "")
            else if version != "" then
              req <- repo (Requests.Get qc id) ;;
              resolveVersionToDefinitionID qc (r_JobType req) version
            else ret "") ;;
  repo (Requests.Restart qc id hard newID) ;;;
  loaded <- attempt (repo (Requests.Get qc id)) ;;
  match loaded with
  | inl r => attempt (fireJobRequestChange r) ;;; audit (r_ID r) JobRequestRestarted
  | inr _ => ret tt
  end.

(** ** Job executions *)
Definition exec_summary (e : ExecRow) : Registry.Summary :=
  Registry.mkSummary (e_JobRequestID e)
    (JobStats.mkUserJobTypeKey (e_JobType e) (e_JobVersion e) (e_OrganizationID e) (e_UserID e))
    (e_JobState e) (-1) (e_StartedAt e) (e_StartedAt e).

Definition milliseconds (d : Z) : Z := Z.quot d 1000000.
Definition ElapsedMillis (e : ExecRow) : Z :=
  match e_EndedAt e with
  | Some ended => if e_JobState e == State.EXECUTING then milliseconds (now - e_StartedAt e)
                  else Z.max 0 (milliseconds (ended - e_StartedAt e))
  | None => milliseconds (now - e_StartedAt e)
  end.
Definition cost_from (started : Z) (e : ExecRow) : Z :=
  let ended := match e_EndedAt e with
               | Some ended => if e_JobState e == State.EXECUTING then now else ended
               | None => now
               end in
  let secs := Z.quot (ended - started) 1000000000 in
  if 0 <? e_CPUSecs e then Z.max secs (e_CPUSecs e) else secs.
Definition ExecutionCostSecs (e : ExecRow) : Z := cost_from (e_StartedAt e) e.

Definition cost_when_saved (e : ExecRow) : Z := cost_from (if e_StartedAt e =? 0 then now else e_StartedAt e) e.
Definition CreateJobExecution (jobExec : Executions.ExecObj) : MM Executions.ExecObj :=
  saved <- repo (ExecutionSave.Save (cost_when_saved (Executions.xo_row jobExec)) (Some jobExec)) ;;
  stats (Registry.Started now (exec_summary (Executions.xo_row saved))) ;;;
  ret saved.

Definition ResetJobExecutionStateToReady (e : ExecRow) : MM unit :=
  stats (Registry.Started now (exec_summary e)) ;;;
  repo (Executions.ResetStateToReady (e_ID e)).

Definition SetJobRequestAndExecutingStatusToExecuting (executionID taskType : string) : MM unit :=
  repo (Executions.UpdateJobRequestAndExecutionState executionID State.READY State.EXECUTING taskType).
Definition SetJobRequestAndExecutingStatusToApprovalRequired (executionID taskType : string) : MM unit :=
  repo (Executions.UpdateJobRequestAndExecutionState executionID State.EXECUTING State.MANUAL_APPROVAL_REQUIRED taskType).

Definition forked (ps : option (list Param)) : bool :=
  existsb (fun p => (Name (p_nv p) == ForkedJob) && (Value (p_nv p) == "true")) (default [] ps).

(** The end of a job, as the request reports it. *)
Definition count_end (r : RequestRow) (e : ExecRow) : MM unit :=
  let millis := ElapsedMillis e in
  if State.Failed (r_JobState r) then stats_end (Registry.Failed (exec_summary e) millis)
  else if State.Paused (r_JobState r) then stats_end (Registry.Paused (exec_summary e) millis)
  else stats_end (Registry.Succeeded (exec_summary e) millis).

Definition FinalizeJobRequestAndExecutionState (qc : Query.QueryContext) (req : IJobRequest) (jobExec : ExecRow)
    (oldState : RequestState) (scheduleDelay retried : Z) : MM unit :=
  let r := i_row req in
  reg <- get_registry ;;
  let lastRequestState := Registry.LastJobStatus reg (summary r) in
  finalized <- attempt (repo (Executions.FinalizeJobRequestAndExecutionState (e_ID jobExec) oldState (e_JobState jobExec)
                 (e_ErrorMessage jobExec) (e_ErrorCode jobExec) (ExecutionCostSecs jobExec) scheduleDelay retried
                 (r_PausedCount r))) ;;
  count_end r jobExec ;;;
  (if forked (i_params req) then ret tt else spawn (NotifyJob (r_ID r) lastRequestState)) ;;;
  match finalized with
  | inr e => throw e
  | inl _ =>
      if State.IsTerminal (e_JobState jobExec) && r_CronTriggered r then
        def <- GetJobDefinitionByType qc (e_JobType jobExec) (e_JobVersion jobExec) ;;
        next_run def (Some req)
      else ret tt
  end.

(** *** Goroutines and start-up *)
Definition run_task (t : task) : MM unit :=
  match t with
  | CascadeCancel id => cascadeCancelToChildren id ;;; ret tt
  | OverrideCancel qc id => overrideCancelRequest qc id
  | NotifyJob _ _ => ret tt
  end.

Definition publishDeadJobIds : MM unit :=
  ids <- repo (Requests.RecentDeadIDs (Z.to_nat 10000) MaxJobTimeout (5 * 1000000000)) ;;
  publish (RecentlyCompletedJobs ids).

(** [retryNotify]: at most [maxAttempts] calls; the delays are left out. *)
Fixpoint retryNotify {A} (fn : MM A) (maxAttempts : nat) (last : A + merror) : MM A :=
  match maxAttempts with
  | O => fun s => (last, s)
  | S n => r <- attempt fn ;; match r with inl a => ret a | inr e => retryNotify fn n (inr e) end
  end.

(** A request with the times of its execution. *)
Definition job_time (d : DB) (r : RequestRow) : RequestRow * option (Z * option Z) :=
  (r, match List.find (fun e => Sql.null_eq (r_JobExecutionID r) (e_ID e)) (executions d) with
      | Some e => Some (e_StartedAt e, e_EndedAt e)
      | None => None
      end).
Definition GetJobTimes (limit : nat) : Store.M (list (RequestRow * option (Z * option Z))) :=
  Store.query Store.DBError (fun d => map (job_time d) (take limit (Requests.recent (requests d)))).
Definition Elapsed (t : option (Z * option Z)) : Z :=
  match t with Some (started, Some ended) => milliseconds (ended - started) | _ => 0 end.

Definition load_time (t : RequestRow * option (Z * option Z)) : MM unit :=
  let s := summary (fst t) in
  let state := r_JobState (fst t) in
  if State.Pending state then stats (Registry.Pending s false)
  else if State.Completed state then stats (Registry.Started now s) ;;; stats_end (Registry.Succeeded s (Elapsed (snd t)))
  else if State.Failed state then stats (Registry.Started now s) ;;; stats_end (Registry.Failed s (Elapsed (snd t)))
  else if State.Cancelled state then stats (Registry.Started now s) ;;; stats (Registry.Cancelled s)
  else ret tt.
Fixpoint load_times (l : list (RequestRow * option (Z * option Z))) : MM unit :=
  match l with
  | [] => ret tt
  | t :: rest => load_time t ;;; load_times rest
  end.
Definition initializeStatsRegistry : MM unit :=
  times <- attempt (repo (GetJobTimes 1000)) ;;
  match times with inl l => load_times l | inr _ => ret tt end.

End Manager.
End Manager.
