(* ===== verification/JobManagerSpec.v ===== *)
(** * JobManagerSpec: what the job manager guarantees

    Cancelling a job reaches the jobs it has forked: the traversal ends, whatever
    fails on the way, and without failures it cancels exactly the descendants of
    twenty generations that are to be cancelled with their parent. *)

From S2P Require Import Prelude RequestState Acl Approval Stats StatsSpec Tables JobStore JobStoreSpec DefinitionSpec JobRequest JobManager.
From Stdlib Require Import Sorted.

Open Scope Z_scope.

(** ** The cascade ends *)
Section Termination.
Import Rows Manager.
Context `{Store.Env, Calls}.

Definition request_ids (s : MS) : list string := map r_ID (requests (Store.db (store s))).

(** An operation that keeps the identifiers of the requests, and ends without an
    error of its own. *)
Definition quiet {A} (m : MM A) : Prop :=
  forall s, exists a s', m s = (inl a, s') /\ request_ids s' = request_ids s.

Lemma quiet_ret {A} (a : A) : quiet (ret a).
Proof. intros s. by exists a, s. Qed.

Lemma quiet_bind {A B} (m : MM A) (k : A -> MM B) : quiet m -> (forall a, quiet (k a)) -> quiet (bind m k).
Proof.
  intros Hm Hk s. destruct (Hm s) as (a & s1 & E1 & H1). destruct (Hk a s1) as (b & s2 & E2 & H2).
  exists b, s2. unfold bind. rewrite E1, E2. split; [done|]. by rewrite H2.
Qed.

Lemma quiet_attempt {A} (m : MM A) :
  (forall s, request_ids (snd (m s)) = request_ids s) -> quiet (attempt m).
Proof.
  intros Hm s. unfold attempt. specialize (Hm s). destruct (m s) as [r s']. by exists r, s'.
Qed.

Lemma repo_ids {A} (m : Store.M A) ids :
  preserves (fun d => map r_ID (requests d) = ids) m ->
  forall s, request_ids s = ids -> request_ids (snd (repo m s)) = ids.
Proof.
  intros Hm s Hs. unfold repo. specialize (Hm (store s) Hs). destruct (m (store s)) as [[a|e] s']; exact Hm.
Qed.

Lemma update_ids p f d ids :
  (forall r, r_ID (f r) = r_ID r) ->
  map r_ID (requests d) = ids -> map r_ID (requests (snd (Store.update_requests p f d))) = ids.
Proof.
  intros Hf <-. unfold Store.update_requests, Sql.update. cbn. rewrite map_map. apply map_ext.
  intros r. by destruct (p r).
Qed.

Lemma Cancel_ids qc id ids : preserves (fun d => map r_ID (requests d) = ids) (Requests.Cancel qc id).
Proof.
  unfold Requests.Cancel, Requests.Get, Requests.first. store_split; try done. by apply update_ids.
Qed.

Lemma state_updates_ID ns em ec d rt pc k r : r_ID (Requests.state_updates ns em ec d rt pc k r) = r_ID r.
Proof. unfold Requests.state_updates. repeat case_match; done. Qed.

Lemma UpdateJobState_ids id os ns em ec d rt pc ids :
  preserves (fun d => map r_ID (requests d) = ids) (Requests.UpdateJobState id os ns em ec d rt pc).
Proof. unfold Requests.UpdateJobState. store_split; try done. apply update_ids; [apply state_updates_ID|done]. Qed.

Lemma publish_ids e s : request_ids (snd (publish e s)) = request_ids s.
Proof. unfold publish. by destruct (publish_ok _). Qed.

Lemma cancelJob_ids qc r s : request_ids (snd (cancelJob qc r s)) = request_ids s.
Proof.
  unfold cancelJob, bind. pose proof (publish_ids (execution_event r State.CANCELLED) s) as HP.
  destruct (publish _ s) as [[u|e] s1]; exact HP.
Qed.

Lemma quiet_cancel_child child : quiet (cancel_child child).
Proof.
  unfold cancel_child. destruct (waiting _).
  - apply quiet_bind.
    + apply quiet_attempt. intros s. apply repo_ids; [apply Cancel_ids|done].
    + intros [u|e]; [|apply quiet_ret]. apply quiet_bind; [apply quiet_attempt, publish_ids|]. intros. apply quiet_ret.
  - apply quiet_bind; [apply quiet_attempt, cancelJob_ids|]. intros. apply quiet_ret.
Qed.

(** How many requests have not been visited. *)
Definition unvisited (s : MS) (visited : gset string) : nat := size (list_to_set (request_ids s) ∖ visited).

Lemma cancel_children_work depth children visited queue s :
  (forall c, c ∈ children -> r_ID c ∈ request_ids s) ->
  exists v q s', cancel_children depth children visited queue s = (inl (v, q), s') /\
    request_ids s' = request_ids s /\ (List.length q + unvisited s' v = List.length queue + unvisited s visited)%nat.
Proof.
  revert visited queue s. induction children as [|c rest IH]; intros visited queue s Hc; cbn [cancel_children].
  - exists visited, queue, s. done.
  - assert (forall x, x ∈ rest -> r_ID x ∈ request_ids s) as Hrest by (intros x Hx; apply Hc; by apply list_elem_of_further).
    destruct (decide (r_ID c ∈ visited)) as [Hv|Hv]; [by apply IH|].
    destruct (quiet_cancel_child c s) as (u & s1 & E1 & H1). unfold bind. rewrite E1.
    destruct (IH ({[r_ID c]} ∪ visited) (queue ++ [(r_ID c, S depth)]) s1) as (v & q & s2 & E2 & H2 & Hw).
    { intros x Hx. rewrite H1. by apply Hrest. }
    exists v, q, s2. split; [done|]. split; [by rewrite H2|]. rewrite Hw, length_app. cbn [List.length].
    unfold unvisited. rewrite H1.
    assert (r_ID c ∈ (list_to_set (request_ids s) ∖ visited : gset string)) as Hin.
    { apply elem_of_difference. split; [|done]. apply elem_of_list_to_set, Hc, list_elem_of_here. }
    replace (list_to_set (request_ids s) ∖ ({[r_ID c]} ∪ visited) : gset string)
      with ((list_to_set (request_ids s) ∖ visited) ∖ {[r_ID c]} : gset string) by set_solver.
    rewrite size_difference by set_solver. rewrite size_singleton.
    assert (size (list_to_set (request_ids s) ∖ visited : gset string) <> 0%nat) as Hne; [|lia].
    intros Hz. apply size_empty_inv in Hz. set_solver.
Qed.

Lemma children_in_table p s children s' :
  repo (Requests.FindActiveChildRequests p) s = (inl children, s') ->
  request_ids s' = request_ids s /\ forall c, c ∈ children -> c ∈ requests (Store.db (store s)) /\ Requests.active_child p c = true.
Proof.
  unfold repo, Requests.FindActiveChildRequests. destruct (p == ""); [discriminate|].
  destruct (Store.query _ _ (store s)) as [[l|e] s1] eqn:E; [|discriminate]. intros [= <- <-].
  apply query_inl in E as [-> Hdb]. split; [by unfold request_ids; cbn; rewrite Hdb|].
  intros c Hc. by apply elem_of_select in Hc.
Qed.

Lemma cascade_ends fuel visited queue s :
  (List.length queue + unvisited s visited <= fuel)%nat -> fst (cascade fuel visited queue s) = inl true.
Proof.
  revert visited queue s. induction fuel as [|fuel IH]; intros visited queue s Hf;
    destruct queue as [|[p depth] queue]; cbn [cascade]; try done; cbn [List.length] in Hf; [lia|].
  destruct (cascadeCancelBFSMaxDepth <=? depth)%nat; [apply IH; lia|].
  unfold bind at 1, attempt. destruct (repo (Requests.FindActiveChildRequests p) s) as [[children|e] s1] eqn:E.
  - apply children_in_table in E as [Hid Hc]. unfold bind.
    destruct (cancel_children_work depth children visited queue s1) as (v & q & s2 & E2 & H2 & Hw).
    { intros c Hin. rewrite Hid. apply list_elem_of_fmap. exists c. split; [done|]. by apply Hc. }
    rewrite E2. cbn [fst snd]. apply IH. rewrite Hw. unfold unvisited in *. rewrite Hid.
    lia.
  - apply IH. unfold repo, Requests.FindActiveChildRequests in E. destruct (p == "").
    + injection E as _ <-. unfold unvisited, request_ids in *. cbn in *. lia.
    + unfold Store.query, Store.exec in E. destruct (Store.err _); [|discriminate]. injection E as _ <-.
      unfold unvisited, request_ids in *. cbn in *. lia.
Qed.

Lemma cascade_cancel_ends' rootParentID s : fst (cascadeCancelToChildren rootParentID s) = inl true.
Proof.
  unfold cascadeCancelToChildren. apply cascade_ends. cbn [List.length].
  enough (unvisited s ∅ <= List.length (requests (Store.db (store s))))%nat by lia.
  unfold unvisited. rewrite difference_empty_L. etrans; [apply size_list_to_set_le|].
  unfold request_ids. by rewrite length_map.
Qed.

(** The traversal that cancels the descendants of a job ends: one step for
    the root and one for each request in the table is enough, whatever statements
    and messages fail and whatever cycles the parent links form. *)
Theorem cascade_cancel_ends rootParentID s : fst (cascadeCancelToChildren rootParentID s) = inl true.
Proof. apply cascade_cancel_ends'. Qed.
End Termination.

(** ** The cascade reaches the descendants *)
Section Coverage.
Import Rows Manager.
Context `{Store.Env, Calls}.
Hypothesis no_errors : forall n, Store.err n = false.
Hypothesis all_sent : forall n, publish_ok n = true.

Definition table (s : MS) : list RequestRow := requests (Store.db (store s)).

(** The children to cancel with a request, and the generations below it. *)
Definition child_of (d : list RequestRow) (p : string) (c : RequestRow) : Prop :=
  c ∈ d /\ Requests.active_child p c = true.
Inductive descendant (d : list RequestRow) (root : string) : nat -> RequestRow -> Prop :=
| a_child c : child_of d root c -> descendant d root 1 c
| a_grandchild n c c' : descendant d root n c -> child_of d (r_ID c) c' -> descendant d root (S n) c'.

Lemma descendant_in d root n c : descendant d root n c -> c ∈ d.
Proof. by destruct 1 as [c [Hc _]|n c c' _ [Hc _]]. Qed.

(** A job that waits is cancelled in the table; one that runs is told to stop,
    with a check that it did. *)
Definition told (c : RequestRow) (s : MS) : Prop :=
  if waiting (r_JobState c)
  then exists r, r ∈ table s /\ r_ID r = r_ID c /\ r_JobState r = State.CANCELLED
  else execution_event c State.CANCELLED ∈ published s /\
       OverrideCancel (NewQueryContextFromIDs (r_UserID c) (r_OrganizationID c)) (r_ID c) ∈ background s.

Record cancels (c : RequestRow) (s s' : MS) : Prop := {
  c_ids : request_ids s' = request_ids s;
  c_others : forall r, r_ID r <> r_ID c -> r ∈ table s' <-> r ∈ table s;
  c_told : told c s';
  c_published : published s ⊆ published s';
  c_background : background s ⊆ background s'
}.

Lemma cancels_keep c c' s s' : cancels c s s' -> r_ID c' <> r_ID c -> told c' s -> told c' s'.
Proof.
  intros [_ Ho _ Hp Hb] Hne. unfold told. destruct (waiting _).
  - intros (r & Hr & Hid & Hst). exists r. split; [|done]. apply Ho; [congruence|done].
  - intros [H1 H2]. split; [by apply Hp|by apply Hb].
Qed.

Lemma select_unique (p : RequestRow -> bool) c t :
  NoDup (map r_ID t) -> c ∈ t -> p c = true -> (forall r, p r = true -> r_ID r = r_ID c) -> Sql.select p t = [c].
Proof.
  intros HN Hc Hp Hk. pose proof (count_unique p r_ID (r_ID c) t HN Hk) as Hn.
  assert (c ∈ Sql.select p t) as Hin by (by apply elem_of_select).
  unfold Sql.count in Hn. fold (Sql.select p t) in Hn. destruct (Sql.select p t) as [|x [|y l]]; cbn in Hn.
  - by apply not_elem_of_nil in Hin.
  - by apply list_elem_of_singleton in Hin as ->.
  - lia.
Qed.

Lemma own_scope_request c b :
  Requests.in_scope (NewQueryContextFromIDs (r_UserID c) (r_OrganizationID c)) b c = true.
Proof.
  unfold Requests.in_scope, NewQueryContextFromIDs. rewrite Query.scope_matches. unfold Query.Matches. cbn.
  destruct (_ || _); [done|]. rewrite !eqb_string_refl. by destruct (r_OrganizationID c == "").
Qed.

(** [Cancel] of a live request by its owner. *)
Lemma Cancel_run c st :
  NoDup (map r_ID (requests (Store.db st))) -> c ∈ requests (Store.db st) -> r_ID c <> "" ->
  Requests.not_terminal (r_JobState c) = true ->
  exists f st' p, Requests.Cancel (NewQueryContextFromIDs (r_UserID c) (r_OrganizationID c)) (r_ID c) st = (inl tt, st') /\
    requests (Store.db st') = Sql.update p f (requests (Store.db st)) /\ p c = true /\
    (forall r, p r = true -> r_ID r = r_ID c) /\ (forall r, r_ID (f r) = r_ID r /\ r_JobState (f r) = State.CANCELLED).
Proof.
  intros HN Hc Hid Hnt. set (qc := NewQueryContextFromIDs _ _).
  pose proof (own_scope_request c true) as Hs1. pose proof (own_scope_request c false) as Hs2. fold qc in Hs1, Hs2.
  assert (Sql.select (fun r => Requests.in_scope qc true r && Requests.by_id (r_ID c) r) (requests (Store.db st)) = [c]) as Hsel.
  { apply select_unique; try done; [by rewrite Hs1; unfold Requests.by_id; rewrite eqb_string_refl|].
    intros r. unfold Requests.by_id. intros Hr. go_bool. tauto. }
  assert (State.IsTerminal (r_JobState c) = false) as Ht.
  { unfold Requests.not_terminal in Hnt. rewrite terminal_iff in Hnt. by destruct (State.IsTerminal _). }
  set (p := fun r => Requests.in_scope qc false r && Requests.by_id (r_ID c) r && Requests.not_terminal (r_JobState r)).
  assert (p c = true) as Hp by (unfold p, Requests.by_id; by rewrite Hs2, eqb_string_refl, Hnt).
  assert (forall r, p r = true -> r_ID r = r_ID c) as Hpk.
  { intros r. unfold p, Requests.by_id. intros Hr. go_bool. tauto. }
  assert (Sql.count p (requests (Store.db st)) = 1) as Hcount.
  { unfold Sql.count. fold (Sql.select p (requests (Store.db st))). by rewrite (select_unique p c). }
  set (f := fun r => set_r_UpdatedAt Store.now (set_r_ErrorMessage (Some "cancelled by job request")
                     (set_r_ErrorCode (Some ErrorCodes.ErrorJobCancelled) (set_r_JobState State.CANCELLED r)))).
  enough (exists st', Requests.Cancel qc (r_ID c) st = (inl tt, st') /\
                      requests (Store.db st') = Sql.update p f (requests (Store.db st))) as (st' & E1 & E2).
  { exists f, st', p. by split_and!. }
  unfold Requests.Cancel, Store.bind at 1, Store.try, Requests.Get.
  rewrite (proj2 (String.eqb_neq _ _) Hid). unfold Store.bind at 1, Store.query, Store.exec at 1. rewrite no_errors, Hsel.
  cbn [Requests.first Store.ret]. rewrite Ht.
  unfold Store.transaction, Store.bind, Store.exec. cbn [Store.statements Store.db]. rewrite !no_errors.
  unfold Store.update_requests. fold p. fold f. rewrite Hcount. cbn [Store.expect_one Z.eqb Pos.eqb Store.ret].
  destruct (text (r_JobExecutionID c) != ""); cbn beta iota zeta delta [Store.ret Store.statements Store.db Store.update_executions];
    repeat (rewrite no_errors; cbn beta iota zeta delta [Store.ret Store.statements Store.db]);
    eexists; (split; [reflexivity|reflexivity]).
Qed.

(** Identifiers tell rows apart. *)
Lemma same_row (t : list RequestRow) r c : NoDup (map r_ID t) -> r ∈ t -> c ∈ t -> r_ID r = r_ID c -> r = c.
Proof.
  intros HN Hr Hc He. apply list_elem_of_lookup in Hr as [i Hi]. apply list_elem_of_lookup in Hc as [j Hj].
  assert (i = j) as ->; [|congruence]. apply (NoDup_lookup _ i j (r_ID c) HN);
    change (map ?f ?l) with (f <$> l); rewrite list_lookup_fmap; [by rewrite Hi; cbn; rewrite He|by rewrite Hj].
Qed.

Lemma elem_of_update_other p f (t : list RequestRow) k r :
  (forall x, p x = true -> r_ID x = k) -> (forall x, r_ID (f x) = r_ID x) -> r_ID r <> k ->
  r ∈ Sql.update p f t <-> r ∈ t.
Proof.
  intros Hp Hf Hr. rewrite elem_of_update. split.
  - intros (x & Hx & ->). destruct (p x) eqn:E; [|done]. rewrite Hf in Hr. by apply Hp in E.
  - intros Hx. exists r. split; [done|]. destruct (p r) eqn:E; [|done]. by apply Hp in E.
Qed.

Lemma cancel_child_run c s :
  NoDup (request_ids s) -> c ∈ table s -> r_ID c <> "" -> Requests.not_terminal (r_JobState c) = true ->
  exists s', cancel_child c s = (inl tt, s') /\ cancels c s s'.
Proof.
  intros HN Hc Hid Hnt. unfold cancel_child. destruct (waiting (r_JobState c)) eqn:Ew.
  - destruct (Cancel_run c (store s) HN Hc Hid Hnt) as (f & st' & p & E & Hr & Hp & Hpk & Hf).
    unfold bind, attempt at 1, repo. rewrite E. unfold attempt, fireJobRequestChange, publish. cbn [publishes set_store].
    rewrite all_sent. eexists. split; [reflexivity|]. split; cbn.
    + unfold request_ids. cbn. rewrite Hr. unfold Sql.update. rewrite map_map. apply map_ext. intros r.
      destruct (p r); [apply Hf|done].
    + intros r Hne. unfold table. cbn. rewrite Hr. apply (elem_of_update_other _ _ _ (r_ID c)); try done. apply Hf.
    + unfold told. rewrite Ew. exists (f c). split; [|apply Hf]. unfold table. cbn. rewrite Hr. apply elem_of_update.
      exists c. split; [done|]. by rewrite Hp.
    + set_solver.
    + done.
  - unfold bind, attempt, cancelJob, bind, publish. rewrite all_sent. eexists. split; [reflexivity|]. split; cbn.
    + done.
    + done.
    + unfold told. rewrite Ew. cbn. set_solver.
    + set_solver.
    + set_solver.
Qed.

(** The search, with [D] the generation in which each request was found: what
    is visited has been told and what is not is as it was; a request that has been
    expanded has its children among the visited ones. *)
Section Search.
Context (s0 : MS) (root : string).
Hypothesis distinct : NoDup (request_ids s0).
Hypothesis named : forall r, r ∈ table s0 -> r_ID r <> "".
Hypothesis root_named : root <> "".

Definition at_depth (D : gmap string nat) (u : string) (d : nat) : Prop := (u = root /\ d = O) \/ D !! u = Some d.
Definition expanded (D : gmap string nat) (u : string) (d : nat) : Prop :=
  forall c, child_of (table s0) u c -> exists dc, D !! r_ID c = Some dc /\ (dc <= S d)%nat.

Record searching (D : gmap string nat) (visited : gset string) (queue : list (string * nat)) (s : MS) : Prop := {
  s_dom : dom D = visited;
  s_queue : forall u d, (u, d) ∈ queue -> at_depth D u d;
  s_found : forall u d, D !! u = Some d -> (d <= 20)%nat /\ exists r, r_ID r = u /\ descendant (table s0) root d r;
  s_ids : request_ids s = request_ids s0;
  s_same : forall r, r_ID r ∉ visited -> r ∈ table s <-> r ∈ table s0;
  s_told : forall r, r ∈ table s0 -> r_ID r ∈ visited -> told r s
}.

Lemma found_child p depth c D visited queue s :
  searching D visited queue s -> at_depth D p depth -> (depth < 20)%nat -> child_of (table s0) p c -> r_ID c ∉ visited ->
  exists s', cancel_child c s = (inl tt, s') /\
    searching (<[r_ID c := S depth]> D) ({[r_ID c]} ∪ visited) (queue ++ [(r_ID c, S depth)]) s'.
Proof.
  intros HS Hp Hd [Hin Hact] Hv.
  assert (Requests.not_terminal (r_JobState c) = true) as Hnt by (unfold Requests.active_child in Hact; go_bool; tauto).
  destruct (cancel_child_run c s) as (s1 & E1 & H1); [by rewrite (s_ids _ _ _ _ HS)|by apply (s_same _ _ _ _ HS)|by apply named|done|].
  assert (D !! r_ID c = None) as HDc by (apply not_elem_of_dom; by rewrite (s_dom _ _ _ _ HS)).
  exists s1. split; [done|]. split.
  - rewrite dom_insert_L. by rewrite (s_dom _ _ _ _ HS).
  - intros u d [Hq|Hq]%elem_of_app.
    + destruct (s_queue _ _ _ _ HS u d Hq) as [Hr|Hr]; [by left|]. right. eapply lookup_weaken; [exact Hr|by apply insert_subseteq].
    + apply list_elem_of_singleton in Hq. injection Hq as -> ->. right. apply lookup_insert_eq.
  - intros u d Hu. apply lookup_insert_Some in Hu as [[<- <-]|[_ Hu]]; [|by apply (s_found _ _ _ _ HS)].
    split; [lia|]. exists c. split; [done|]. destruct Hp as [[-> ->]|Hp]; [by apply a_child|].
    destruct (s_found _ _ _ _ HS p depth Hp) as (_ & r & <- & Hr). by eapply a_grandchild.
  - by rewrite (c_ids _ _ _ H1), (s_ids _ _ _ _ HS).
  - intros r Hr. rewrite (c_others _ _ _ H1) by set_solver. apply (s_same _ _ _ _ HS). set_solver.
  - intros r Hr Hrv. destruct (decide (r_ID r = r_ID c)) as [He|He].
    + assert (r = c) as ->; [|apply (c_told _ _ _ H1)]. by apply (same_row (table s0)).
    + eapply cancels_keep; [exact H1|done|]. apply (s_told _ _ _ _ HS); [done|set_solver].
Qed.

(** The expansion of a request [p] of generation [depth] whose children are
    [children]: those are found at most one generation below. *)
Lemma expand p depth children D visited queue s :
  searching D visited queue s -> at_depth D p depth -> (depth < 20)%nat ->
  (forall c, c ∈ children -> r_ID c ∉ visited -> child_of (table s0) p c) ->
  (forall u d, D !! u = Some d -> (d <= S depth)%nat) ->
  exists D' visited' new s',
    cancel_children depth children visited queue s = (inl (visited', queue ++ new), s') /\
    searching D' visited' (queue ++ new) s' /\ D ⊆ D' /\
    (forall u d, D' !! u = Some d -> D !! u = Some d \/ (u, d) ∈ new) /\
    (forall u d, (u, d) ∈ new -> d = S depth) /\
    (forall u d, D' !! u = Some d -> (d <= S depth)%nat) /\
    (forall c, c ∈ children -> r_ID c ∈ visited').
Proof.
  revert D visited queue s. induction children as [|c rest IH]; intros D visited queue s HS Hp Hd Hc Hle; cbn [cancel_children].
  { exists D, visited, [], s. rewrite app_nil_r. split_and!; try done; [by left|by intros ? ? ?%not_elem_of_nil|by intros ? ?%not_elem_of_nil]. }
  destruct (decide (r_ID c ∈ visited)) as [Hv|Hv].
  { destruct (IH D visited queue s HS Hp Hd) as (D' & v' & new & s' & E & HS' & Hsub & Hnew & Hdep & Hle' & Hvis); [|done|].
    { intros x Hx. apply Hc. by apply list_elem_of_further. }
    exists D', v', new, s'. split_and!; try done. intros x [->|Hx]%elem_of_cons; [|by apply Hvis].
    rewrite <- (s_dom _ _ _ _ HS'). rewrite <- (s_dom _ _ _ _ HS) in Hv. apply elem_of_dom in Hv as [d Hv].
    apply elem_of_dom. exists d. by eapply lookup_weaken. }
  destruct (found_child p depth c D visited queue s HS Hp Hd (Hc c (list_elem_of_here _ _) Hv) Hv) as (s1 & E1 & HS1).
  set (D1 := <[r_ID c := S depth]> D) in *.
  assert (D ⊆ D1) as Hsub1.
  { apply insert_subseteq, not_elem_of_dom. by rewrite (s_dom _ _ _ _ HS). }
  destruct (IH D1 ({[r_ID c]} ∪ visited) (queue ++ [(r_ID c, S depth)]) s1 HS1)
    as (D' & v' & new & s' & E & HS' & Hsub & Hnew & Hdep & Hle' & Hvis); try done.
  - destruct Hp as [Hp|Hp]; [by left|]. right. by eapply lookup_weaken.
  - intros x Hx Hxv. apply Hc; [by apply list_elem_of_further|set_solver].
  - intros u d Hu. apply lookup_insert_Some in Hu as [[_ <-]|[_ Hu]]; [done|by eapply Hle].
  - exists D', v', ((r_ID c, S depth) :: new), s'. unfold bind. rewrite E1, E, <- app_assoc. cbn [app]. split; [done|].
    rewrite <- app_assoc in HS'. cbn [app] in HS'. split_and!; try done.
    + by etrans.
    + intros u d Hu. destruct (Hnew u d Hu) as [Hu1|Hu1]; [|right; by apply list_elem_of_further].
      apply lookup_insert_Some in Hu1 as [[<- <-]|[_ Hu1]]; [right; apply list_elem_of_here|by left].
    + intros u d [Hu|Hu]%elem_of_cons; [by injection Hu as _ ->|by eapply Hdep].
    + intros x [->|Hx]%elem_of_cons; [|by apply Hvis]. rewrite <- (s_dom _ _ _ _ HS'). apply elem_of_dom.
      exists (S depth). eapply lookup_weaken; [|exact Hsub]. unfold D1. apply lookup_insert_eq.
Qed.

(** The whole search: the queue is in the order of generations and everything
    found is on it, too deep, or expanded. *)
Record loop (D : gmap string nat) (visited : gset string) (queue : list (string * nat)) (s : MS) : Prop := {
  l_search : searching D visited queue s;
  l_sorted : StronglySorted (fun a b => (snd a <= snd b)%nat) queue;
  l_bound : forall p dp q u d, queue = (p, dp) :: q -> D !! u = Some d -> (d <= S dp)%nat;
  l_closed : forall u d, at_depth D u d -> (u, d) ∈ queue \/ (20 <= d)%nat \/ expanded D u d
}.

Lemma searching_same D visited queue s s' :
  table s' = table s -> published s' = published s -> background s' = background s ->
  searching D visited queue s -> searching D visited queue s'.
Proof.
  intros Et Ep Eb [H1 H2 H3 H4 H5 H6]. split; try done.
  - rewrite <- H4. unfold request_ids. fold (table s') (table s). by rewrite Et.
  - intros r Hr. rewrite Et. by apply H5.
  - intros r Hr Hv. specialize (H6 r Hr Hv). unfold told in *. by rewrite Et, Ep, Eb.
Qed.

Lemma searching_tail D visited x queue s : searching D visited (x :: queue) s -> searching D visited queue s.
Proof. intros [H1 H2 H3 H4 H5 H6]. split; try done. intros u d Hq. apply H2. by apply list_elem_of_further. Qed.

Lemma expanded_mono D D' u d : D ⊆ D' -> expanded D u d -> expanded D' u d.
Proof. intros Hs He c Hc. destruct (He c Hc) as (dc & Hd & Hle). exists dc. split; [by eapply lookup_weaken|done]. Qed.

Lemma find_children p s :
  p <> "" -> exists s1, attempt (repo (Requests.FindActiveChildRequests p)) s =
    (inl (inl (Sql.select (Requests.active_child p) (table s))), s1) /\
    table s1 = table s /\ published s1 = published s /\ background s1 = background s.
Proof.
  intros Hp. unfold attempt, repo, Requests.FindActiveChildRequests. rewrite (proj2 (String.eqb_neq _ _) Hp).
  unfold Store.query, Store.exec. rewrite no_errors. by eexists.
Qed.

Lemma sorted_app_const (l new : list (string * nat)) k :
  StronglySorted (fun a b => (snd a <= snd b)%nat) l -> (forall u d, (u, d) ∈ l -> (d <= k)%nat) ->
  (forall u d, (u, d) ∈ new -> d = k) -> StronglySorted (fun a b => (snd a <= snd b)%nat) (l ++ new).
Proof.
  intros Hs Hl Hn. induction Hs as [|[u d] l Hs IH Hf]; cbn.
  - induction new as [|[u d] new IH]; [constructor|]. constructor.
    + apply IH. intros v e Hv. apply (Hn v e). by apply list_elem_of_further.
    + apply Forall_forall. intros [v e] Hv. cbn. rewrite (Hn u d (list_elem_of_here _ _)).
      by rewrite (Hn v e (list_elem_of_further _ _ _ Hv)).
  - constructor; [apply IH; intros v e Hv; apply (Hl v e); by apply list_elem_of_further|].
    apply Forall_app. split; [done|]. apply Forall_forall. intros [v e] Hv. cbn. rewrite (Hn v e Hv).
    apply (Hl u d), list_elem_of_here.
Qed.

Lemma loop_step p depth queue D visited s :
  loop D visited ((p, depth) :: queue) s -> (depth < 20)%nat ->
  exists D' visited' queue' s1 s2,
    attempt (repo (Requests.FindActiveChildRequests p)) s = (inl (inl (Sql.select (Requests.active_child p) (table s))), s1) /\
    cancel_children depth (Sql.select (Requests.active_child p) (table s)) visited queue s1 = (inl (visited', queue'), s2) /\
    loop D' visited' queue' s2.
Proof.
  intros [HS Hsort Hbound Hclosed] Hd.
  pose proof (s_queue _ _ _ _ HS p depth (list_elem_of_here _ _)) as Hp.
  assert (p <> "") as Hpn.
  { destruct Hp as [[-> _]|Hp]; [done|]. destruct (s_found _ _ _ _ HS p depth Hp) as (_ & r & <- & Hr).
    apply named. by eapply descendant_in. }
  destruct (find_children p s Hpn) as (s1 & E1 & Et & Ep & Eb).
  assert (forall u d, D !! u = Some d -> (d <= S depth)%nat) as Hle by (intros u d; by apply (Hbound p depth queue)).
  destruct (expand p depth (Sql.select (Requests.active_child p) (table s)) D visited queue s1)
    as (D' & v' & new & s2 & E2 & HS2 & Hsub & Hnew & Hdep & Hle' & Hvis); try done.
  { eapply searching_same; [done..|]. by eapply searching_tail. }
  { intros c [Hc Ha]%elem_of_select Hv. split; [|done]. by apply (s_same _ _ _ _ HS). }
  exists D', v', (queue ++ new), s1, s2. split; [done|]. split; [done|].
  apply StronglySorted_inv in Hsort as [Hsort Hfa]. rewrite Forall_forall in Hfa.
  assert (expanded D' p depth) as Hexp.
  { intros c [Hc Ha]. destruct (decide (r_ID c ∈ visited)) as [Hv|Hv].
    - rewrite <- (s_dom _ _ _ _ HS) in Hv. apply elem_of_dom in Hv as [dc Hv]. exists dc.
      split; [by eapply lookup_weaken|by eapply Hle].
    - assert (r_ID c ∈ v') as Hin.
      { apply Hvis, elem_of_select. split; [|done]. by apply (s_same _ _ _ _ HS). }
      rewrite <- (s_dom _ _ _ _ HS2) in Hin. apply elem_of_dom in Hin as [dc Hin]. exists dc. split; [done|by eapply Hle']. }
  split; [done| | |].
  - apply (sorted_app_const _ _ (S depth)); [done| |done]. intros u d Hu.
    destruct (s_queue _ _ _ _ HS u d (list_elem_of_further _ _ _ Hu)) as [[_ ->]|Hu']; [lia|by eapply Hle].
  - intros q dq rest u d Hq Hu. apply Hle' in Hu.
    enough (depth <= dq)%nat by lia. destruct queue as [|[q' dq'] queue']; cbn in Hq.
    + rewrite (Hdep q dq); [lia|]. rewrite Hq. apply list_elem_of_here.
    + injection Hq as -> -> _. apply (Hfa (q, dq)), list_elem_of_here.
  - assert (forall u d, at_depth D u d -> (u, d) ∈ queue ++ new \/ (20 <= d)%nat \/ expanded D' u d) as Hold.
    { intros u d Hu. destruct (Hclosed u d Hu) as [[Hq|Hq]%elem_of_cons|[Hq|Hq]].
      - injection Hq as -> ->. by right; right.
      - left. apply elem_of_app. by left.
      - by right; left.
      - right; right. by eapply expanded_mono. }
    intros u d [Hr|Hu]; [apply Hold; by left|]. destruct (Hnew u d Hu) as [Hu'|Hu']; [apply Hold; by right|].
    left. apply elem_of_app. by right.
Qed.

Lemma loop_skip p depth queue D visited s :
  loop D visited ((p, depth) :: queue) s -> (20 <= depth)%nat -> loop D visited queue s.
Proof.
  intros [HS Hsort Hbound Hclosed] Hd. apply StronglySorted_inv in Hsort as [Hsort Hfa]. rewrite Forall_forall in Hfa.
  split; [by eapply searching_tail|done| |].
  - intros q dq rest u d -> Hu. apply (Hbound p depth ((q, dq) :: rest)) in Hu; [|done].
    specialize (Hfa (q, dq) (list_elem_of_here _ _)). cbn in Hfa. lia.
  - intros u d Hu. destruct (Hclosed u d Hu) as [[Hq|Hq]%elem_of_cons|Hq]; [|by left|by right].
    injection Hq as -> ->. by right; left.
Qed.

Lemma loop_end fuel D visited queue s s' :
  loop D visited queue s -> cascade fuel visited queue s = (inl true, s') -> exists D' visited', loop D' visited' [] s'.
Proof.
  revert D visited queue s. induction fuel as [|fuel IH]; intros D visited queue s HL; destruct queue as [|[p depth] queue];
    cbn [cascade]; [by intros [= <-]; eauto|discriminate|by intros [= <-]; eauto|].
  destruct (Nat.leb_spec cascadeCancelBFSMaxDepth depth) as [Hd|Hd].
  - apply (IH D). by eapply loop_skip.
  - destruct (loop_step p depth queue D visited s HL Hd) as (D' & v' & q' & s1 & s2 & E1 & E2 & HL').
    unfold bind at 1. rewrite E1. unfold bind. rewrite E2. cbn [fst snd]. by apply (IH D').
Qed.

Lemma loop_start : loop ∅ ∅ [(root, 0%nat)] s0.
Proof.
  split; [split| | |].
  - apply dom_empty_L.
  - intros u d Hq. apply list_elem_of_singleton in Hq. injection Hq as -> ->. by left.
  - intros u d Hu. by rewrite lookup_empty in Hu.
  - done.
  - done.
  - intros r _ Hr. by apply not_elem_of_empty in Hr.
  - repeat constructor.
  - intros p dp q u d _ Hu. by rewrite lookup_empty in Hu.
  - intros u d [[-> ->]|Hu]; [left; by apply list_elem_of_singleton|by rewrite lookup_empty in Hu].
Qed.

(** When the queue is empty every descendant of twenty generations was found. *)
Lemma loop_complete D visited s n c :
  loop D visited [] s -> descendant (table s0) root n c -> (n <= 20)%nat -> exists d, D !! r_ID c = Some d /\ (d <= n)%nat.
Proof.
  intros HL. induction 1 as [c Hc|n c c' Hc IH Hc']; intros Hn.
  - destruct (l_closed _ _ _ _ HL root 0) as [Hq|[Hq|Hq]]; [by left|by apply not_elem_of_nil in Hq|lia|].
    apply (Hq c Hc).
  - destruct IH as (d & Hd & Hle); [lia|].
    destruct (l_closed _ _ _ _ HL (r_ID c) d) as [Hq|[Hq|Hq]]; [by right|by apply not_elem_of_nil in Hq|lia|].
    destruct (Hq c' Hc') as (dc & Hdc & Hle'). exists dc. split; [done|lia].
Qed.
End Search.

(** C5: when nothing fails, cancelling the children of a job reaches exactly its
    descendants of the first twenty generations, following live requests that are
    to be cancelled with their parent: each of them is cancelled in the table if
    it waits, and told to stop, with a check that it did, if it runs; every other
    request stays as it is. *)
Theorem cascade_cancel_reaches_descendants s root
    (distinct : NoDup (request_ids s))
    (named : forall r, r ∈ table s -> r_ID r <> "")
    (root_named : root <> "") :
  let s' := snd (cascadeCancelToChildren root s) in
  (forall n r, (n <= 20)%nat -> descendant (table s) root n r -> told r s') /\
  (forall r, r ∈ table s -> (forall n, (n <= 20)%nat -> ~ descendant (table s) root n r) -> r ∈ table s').
Proof.
  cbv zeta. pose proof (cascade_cancel_ends' root s) as Hend.
  unfold cascadeCancelToChildren in *. destruct (cascade _ _ _ s) as [r s'] eqn:E. cbn [fst snd] in *. subst r.
  destruct (loop_end s root distinct named root_named _ _ _ _ _ _ (loop_start s root) E) as (D & visited & HL).
  pose proof (l_search _ _ _ _ _ _ HL) as HS. split.
  - intros n r Hn Hr. apply (s_told _ _ _ _ _ _ HS); [by eapply descendant_in|].
    destruct (loop_complete s root D visited s' n r HL Hr Hn) as (d & Hd & _).
    rewrite <- (s_dom _ _ _ _ _ _ HS). by apply elem_of_dom.
  - intros r Hr Hno. apply (s_same _ _ _ _ _ _ HS); [|done]. rewrite <- (s_dom _ _ _ _ _ _ HS).
    intros [d Hd]%elem_of_dom. destruct (s_found _ _ _ _ _ _ HS _ _ Hd) as (Hle & r' & Hid & Hr').
    apply (Hno d Hle). assert (r = r') as ->; [|done]. apply (same_row (table s)); try done. by eapply descendant_in.
Qed.
End Coverage.

(** ** Submitting a job *)
Section Submit.
Import Rows NameValue Schedule Request Manager.
Context `{env : Store.Env, cron : Cron, dec : Decoder, ord : RangeOrder, calls : Calls}.
Open Scope manager_scope.

Lemma mbind_inl {A B} (m : MM A) (k : A -> MM B) s b s' :
  bind m k s = (inl b, s') -> exists a s1, m s = (inl a, s1) /\ k a s1 = (inl b, s').
Proof. unfold bind. destruct (m s) as [[a|e] s1]; intros E; [eauto|discriminate]. Qed.

Lemma attempt_inl {A} (m : MM A) s r s' : attempt m s = (inl r, s') -> m s = (r, s').
Proof. unfold attempt. destruct (m s). by intros [= <- <-]. Qed.

Lemma repo_inv {A} (m : Store.M A) s r s' :
  repo m s = (r, s') -> exists st, s' = set_store st s /\
    match r with inl a => m (store s) = (inl a, st) | inr e => exists e', e = Repo e' /\ m (store s) = (inr e', st) end.
Proof. unfold repo. destruct (m (store s)) as [[a|e] st]; intros [= <- <-]; exists st; split; eauto. Qed.

(** Operations that leave the requests alone. *)
Definition frames {A} (m : MM A) : Prop := forall s, table (snd (m s)) = table s.

Lemma frames_ret {A} (a : A) : frames (ret a).
Proof. done. Qed.
Lemma frames_throw {A} e : frames (throw (A := A) e).
Proof. done. Qed.
Lemma frames_bind {A B} (m : MM A) (k : A -> MM B) : frames m -> (forall a, frames (k a)) -> frames (bind m k).
Proof.
  intros Hm Hk s. unfold bind. specialize (Hm s). destruct (m s) as [[a|e] s1]; [|done]. cbn in Hm. by rewrite Hk.
Qed.
Lemma frames_attempt {A} (m : MM A) : frames m -> frames (attempt m).
Proof. intros Hm s. unfold attempt. specialize (Hm s). by destruct (m s). Qed.
Lemma frames_repo {A} (m : Store.M A) :
  (forall t, preserves (fun d => requests d = t) m) -> frames (repo m).
Proof.
  intros Hm s. unfold repo, table. specialize (Hm (requests (Store.db (store s))) (store s) eq_refl).
  by destruct (m (store s)) as [[a|e] st].
Qed.
Lemma frames_publish e : frames (publish e).
Proof. intros s. unfold publish. by destruct (publish_ok _). Qed.
Lemma frames_stats f : frames (stats f).
Proof. done. Qed.
Lemma frames_GetUser id : frames (GetUser id).
Proof. intros s. unfold GetUser. by destruct (accounts s !! id). Qed.

Ltac frames_step :=
  lazymatch goal with
  | |- frames (bind _ _) => apply frames_bind; [|intros ?]
  | |- frames (attempt _) => apply frames_attempt
  | |- frames (ret _) => apply frames_ret
  | |- frames (throw _) => apply frames_throw
  | |- frames (publish _) => apply frames_publish
  | |- frames (stats _) => apply frames_stats
  | |- frames (GetUser _) => apply frames_GetUser
  | |- frames (if ?b then _ else _) => destruct b
  | |- frames (match ?x with _ => _ end) => destruct x
  end.

Lemma frames_GetByType qc t v : frames (GetJobDefinitionByType qc t v).
Proof.
  apply frames_repo. intros l. unfold Definitions.GetByType, Definitions.found, Definitions.check_access. store_split; done.
Qed.

Lemma frames_GetDefinition qc id : frames (GetJobDefinition qc id).
Proof. apply frames_repo. intros l. unfold Definitions.Get, Definitions.found, Definitions.check_access. store_split; done. Qed.

Lemma frames_Disable qc id : frames (DisableJobDefinition qc id).
Proof.
  unfold DisableJobDefinition, announce, fireJobDefinitionChange. repeat (frames_step; cbv beta).
  - apply frames_repo. intros l. unfold Definitions.SetDisabled. store_split; done.
  - apply frames_GetDefinition.
Qed.

Lemma frames_check qc u : frames (CheckSubscriptionQuota qc u).
Proof.
  unfold CheckSubscriptionQuota. frames_step; [|apply frames_ret].
  destruct (match doCheckSubscriptionQuota qc (Some u) with Some m => stick m u | None => unstick u end) as [u' dirty].
  apply frames_bind; [|intros; repeat frames_step]. intros s. by destruct (dirty && user_update_ok).
Qed.

Lemma frames_quota qc r d : frames (check_quota qc r d).
Proof. unfold check_quota. repeat frames_step; [apply frames_check|apply frames_Disable]. Qed.

(** The object keeps its row through validation. *)
Lemma row_AddParam k v jr jr' : AddParam k v jr = Some jr' -> row jr' = row jr.
Proof. unfold AddParam. destruct (NewNameTypeValue k v false); [|discriminate]. by intros [= <-]. Qed.
Lemma row_add_all l jr : row (fst (add_all l jr)) = row jr.
Proof.
  revert jr. induction l as [|[k v] l IH]; intros jr; cbn; [done|].
  destruct (AddParam k v jr) as [jr'|] eqn:E; [|done]. rewrite IH. by eapply row_AddParam.
Qed.
Lemma row_Validate jr : row (fst (Validate jr)) = row jr.
Proof. unfold Validate, AfterLoad. by destruct (load_params _ _ _) as [[l v]|]. Qed.
Lemma row_validated jr : row (fst (ValidateBeforeSave jr)) = row jr.
Proof.
  unfold ValidateBeforeSave, updateQuickSearch. pose proof (row_add_all (range (NameValueParams jr)) jr) as H1.
  destruct (add_all _ jr) as [jr1 [|]]; [|done]. cbn in H1. rewrite row_Validate.
  pose proof (row_add_all (range (NameValueParams jr1)) jr1) as H2.
  destruct (add_all _ jr1) as [jr2 [|]]; cbn in *; [rewrite row_Validate; cbn|]; congruence.
Qed.

(** A new row is the old one with an identifier, its dates and a key. *)
Lemma Save_new qc valid req ps st r ps' st' :
  r_ID req = "" -> Requests.Save qc valid req ps st = (inl (r, ps'), st') ->
  requests (Store.db st') = requests (Store.db st) ++ [r] /\ valid = true /\
  r_JobState r = State.PENDING /\ r_UserID r = Query.GetUserID qc /\ r_OrganizationID r = Query.GetOrganizationID qc /\
  r_JobType r = r_JobType req /\ r_JobDefinitionID r = r_JobDefinitionID req /\
  ((exists n, r_ID r = Store.ulid n) /\ r_ParentID r = r_ParentID req /\ r_CascadeCancel r = r_CascadeCancel req /\
   (r_UserKey req <> "" -> r_UserKey r = r_UserKey req)) /\
  forall x, x ∈ requests (Store.db st) -> r_UserKey x <> r_UserKey r /\ r_ID x <> r_ID r.
Proof.
  intros Hid. unfold Requests.Save. destruct valid; [|discriminate]. cbn [negb].
  intros HT%transaction_inv. destruct HT as (s1 & HB & ->).
  apply bind_inl in HB as ([[newReq row] rows] & s2 & HP & HB). unfold Requests.prepare in HP.
  cbn [r_ID Requests.owned_by set_r_UserID set_r_OrganizationID] in HP. rewrite Hid, eqb_string_refl in HP.
  apply bind_inl in HP as (r1 & s3 & HP1 & HP). apply bind_inl in HP1 as (i & s4 & [= <- <-] & [= <- <-]).
  apply bind_inl in HP as (r2 & s5 & HP1 & HP). apply bind_inl in HP as (ps2 & s6 & HP2 & [= <- <- <- <-]).
  apply bind_inl in HB as ([] & s7 & HI & [= <- <- <-]). unfold Requests.insert_request in HI.
  apply bind_inl in HI as (ok & s8 & HE & HI). apply exec_inl in HE as [HE _].
  assert (Store.db s6 = Store.db s5) as Hd6.
  { assert (forall o l, preserves (fun d => d = Store.db s5) (Requests.own_params o l)) as HO.
    { intros o l. revert o. induction l as [|p l IH]; intros o; cbn; [store_split|]. store_split; apply IH. }
    specialize (HO (r_ID r2) ps s5 eq_refl). by rewrite HP2 in HO. }
  assert (Store.db s5 = Store.db st /\ r_ID r2 = Store.ulid (Store.ulids st) /\ r_JobState r2 = State.PENDING /\
          r_UserID r2 = Query.GetUserID qc /\ r_OrganizationID r2 = Query.GetOrganizationID qc /\
          r_JobType r2 = r_JobType req /\ r_JobDefinitionID r2 = r_JobDefinitionID req /\
          r_ParentID r2 = r_ParentID req /\ r_CascadeCancel r2 = r_CascadeCancel req /\
          (r_UserKey req <> "" -> r_UserKey r2 = r_UserKey req)) as (Hd5 & Hrest).
  { destruct (r_UserKey _ == "") eqn:Ek; [apply bind_inl in HP1 as (k & s9 & [= <- <-] & [= <- <-])|injection HP1 as <- <-];
      split_and!; try done. intros Hk. apply eqb_string_true in Ek. by destruct Hk. }
  destruct Hrest as (H1 & H2 & H3 & H4 & H5 & H6 & H7 & H8 & H9).
  destruct (Requests.taken r2 (requests (Store.db s6))) eqn:Et; injection HE as <- Hdb; [discriminate|].
  injection HI as <-. rewrite <- Hdb. cbn. rewrite Hd6, Hd5. split_and!; try done; [by eexists|].
  intros x Hx. unfold Requests.taken in Et. rewrite Hd6, Hd5 in Et.
  assert ((r_ID x == r_ID r2) || (r_UserKey x == r_UserKey r2) = false) as Hf.
  { destruct (_ || _) eqn:Ef; [|done]. rewrite <- Et. symmetry. apply existsb_exists. exists x. by rewrite <- list_elem_of_In. }
  apply orb_false_iff in Hf as [Hf1 Hf2]. by split; apply String.eqb_neq.
Qed.
Lemma submitted_keeps def r :
  r_ID (submitted def r) = r_ID r /\
  (r_JobType (submitted def r) = r_JobType r /\ r_ParentID (submitted def r) = r_ParentID r /\
   r_CascadeCancel (submitted def r) = r_CascadeCancel r) /\
  r_JobDefinitionID (submitted def r) = d_ID def /\
  (cron_schedule Store.now def = None -> r_UserKey (submitted def r) = r_UserKey r).
Proof.
  unfold submitted, UpdateUserKeyFromScheduleIfCronJob, UpdateScheduledAtFromCronTrigger.
  destruct (cron_schedule _ def) as [[t k]|]; cbn; [done|]. by destruct (_ || _).
Qed.

(** What saving an object did, when it succeeded and when it failed. *)
Lemma save_object_inv qc jr s r left s' :
  save_object qc jr s = (inl (r, left), s') ->
  let jr1 := fst (ValidateBeforeSave jr) in
  let valid := match snd (ValidateBeforeSave jr) with None => true | Some _ => false end in
  let ps := map owned_of (Params jr1) in
  exists st, s' = set_store st s /\
  match r with
  | inl saved => exists ps', Requests.Save qc valid (row jr) ps (store s) = (inl (row saved, ps'), st)
  | inr e => exists e', e = Repo e' /\ Requests.Save qc valid (row jr) ps (store s) = (inr e', st) /\
               row left = fst (Requests.left_by_Save qc valid (row jr) ps (store s))
  end.
Proof.
  cbv zeta. unfold save_object. pose proof (row_validated jr) as Hrow. destruct (ValidateBeforeSave jr) as [jr1 inv].
  cbn [fst snd] in *. rewrite Hrow. destruct (Requests.Save qc _ _ _ (store s)) as [[x|e] st] eqn:E;
    intros [= <- <- <-]; exists st; (split; [done|]); rewrite <- E.
  - exists (snd x). cbn. by rewrite <- surjective_pairing.
  - exists e. by split_and!.
Qed.

Lemma SaveJobRequest_inl qc request s saved left s' :
  SaveJobRequest qc request s = (inl (inl saved, left), s') ->
  exists def s1 s2 s3 left',
    GetJobDefinitionByType qc (r_JobType (row request)) (r_JobVersion (row request)) s = (inl def, s1) /\
    check_quota qc (Requests.owned_by qc (row request)) def s1 = (inl tt, s2) /\
    fork_allowed (r_JobType (row request)) (Params request) = true /\
    save_object qc (set_row (submitted def (Requests.owned_by qc (row request))) request) s2 = (inl (inl saved, left'), s3) /\
    table s' = table s3 /\ registry s' = Registry.Pending (summary (row saved)) false (registry s3).
Proof.
  unfold SaveJobRequest. intros HB. apply mbind_inl in HB as (def & s1 & E1%attempt_inl & HB).
  cbn [row set_row r_JobType r_JobVersion Requests.owned_by set_r_UserID set_r_OrganizationID] in E1.
  destruct def as [def|e]; [|discriminate]. apply mbind_inl in HB as (q & s2 & E2%attempt_inl & HB).
  destruct q as [[]|e]; [|discriminate]. cbn [row set_row] in HB.
  destruct (submitted_keeps def (Requests.owned_by qc (row request))) as (_ & (Ht & _) & _). rewrite Ht in HB.
  change (r_JobType (Requests.owned_by qc (row request))) with (r_JobType (row request)) in HB.
  change (Params (set_row _ (set_row _ request))) with (Params request) in HB.
  destruct (fork_allowed _ _) eqn:Ef; [|discriminate]. cbn [negb] in HB.
  apply mbind_inl in HB as ([r left'] & s3 & E3 & HB). cbn [fst snd] in HB. destruct r as [req|e]; [|discriminate].
  apply mbind_inl in HB as (u & s4 & E4%attempt_inl & HB). apply mbind_inl in HB as (v & s5 & E5 & HB).
  injection HB as -> <- <-. exists def, s1, s2, s3, left'. split_and!; try done.
  - injection E5 as _ <-. pose proof (frames_publish (JobRequestLifecycle (r_UserID (row saved)) (r_ID (row saved))
      (r_JobType (row saved)) (r_JobState (row saved))) s3) as HF. unfold fireJobRequestChange in E4. by rewrite E4 in HF.
  - injection E5 as _ <-. cbn. f_equal. unfold fireJobRequestChange, publish in E4.
    destruct (publish_ok _); by injection E4 as _ <-.
Qed.

(** A request that is not saved leaves the table as it was. *)
Lemma SaveJobRequest_inr qc request s e left s' :
  SaveJobRequest qc request s = (inl (inr e, left), s') -> table s' = table s.
Proof.
  unfold SaveJobRequest. intros HB. apply mbind_inl in HB as (def & s1 & E1%attempt_inl & HB).
  match type of E1 with GetJobDefinitionByType ?q ?t ?v _ = _ => pose proof (frames_GetByType q t v s) as F1 end.
  rewrite E1 in F1. cbn [snd] in F1.
  destruct def as [def|e1]; [|by injection HB as _ _ <-]. apply mbind_inl in HB as (q & s2 & E2%attempt_inl & HB).
  match type of E2 with check_quota ?q ?t ?v _ = _ => pose proof (frames_quota q t v s1) as F2 end.
  rewrite E2 in F2. cbn [snd] in F2. destruct q as [u|e1]; [|injection HB as _ _ <-; congruence].
  destruct (negb _); [injection HB as _ _ <-; congruence|].
  apply mbind_inl in HB as ([r left'] & s3 & E3 & HB). cbn [fst snd] in HB. destruct r as [req|e1].
  - apply mbind_inl in HB as (u1 & s4 & _ & HB). apply mbind_inl in HB as (v & s5 & _ & HB). discriminate.
  - injection HB as _ _ <-. apply save_object_inv in E3 as (st & -> & e' & _ & HS & _).
    unfold Requests.Save in HS. destruct (negb _); [injection HS as _ <-; cbn; unfold table in *; cbn; congruence|].
    apply transaction_inv in HS. unfold table in *. cbn in *. congruence.
Qed.

(** The definition found for a type is in the table, and the caller may use it. *)
Definition usable (qc : Query.QueryContext) (d : DefRow) : bool :=
  d_PublicPlugin d || Query.IsReadAdmin qc || Definitions.Editable d (Query.GetUserID qc) (Query.GetOrganizationID qc).

Lemma GetByType_found qc jobType st d st' :
  Definitions.GetByType qc jobType st = (inl d, st') -> d ∈ definitions (Store.db st) /\ usable qc d = true.
Proof.
  unfold Definitions.GetByType. destruct (match Split _ _ with [t; v] => _ | _ => _ end) as [t v].
  destruct (t == ""); [discriminate|]. intros (o & s1 & Eo & (d' & s2 & Ed & Ea)%bind_inl)%bind_inl.
  destruct o as [d1|]; [|discriminate]. injection Ed as <- <-. unfold Definitions.check_access in Ea.
  destruct (negb _ && _ && _) eqn:Hc; [discriminate|]. injection Ea as <- <-.
  assert (exists p, d1 ∈ Sql.select p (definitions (Store.db st))) as [p Hp]; cycle 1.
  { apply elem_of_select in Hp as [? _]. split; [done|]. unfold usable.
    by destruct (d_PublicPlugin d1), (Query.IsReadAdmin qc), (Definitions.Editable _ _ _). }
  destruct (v == ""); [apply query_inl in Eo as [Eo%eq_sym _]; apply first_def_Some in Eo; eauto|].
  apply bind_inl in Eo as (r & s3 & Er & Eo). unfold Store.try, Store.bind, Store.query, Store.exec in Er.
  destruct (Store.err (Store.statements st)); cbn in Er.
  { injection Er as <- <-. apply query_inl in Eo as [Eo%eq_sym _]. apply first_def_Some in Eo. eauto. }
  destruct (Definitions.first_def _) as [d2|] eqn:E2; injection Er as <- <-.
  - injection Eo as -> <-. apply first_def_Some in E2. eauto.
  - apply query_inl in Eo as [Eo%eq_sym _]. apply first_def_Some in Eo. eauto.
Qed.

(** The jobs a request names as its ancestors. *)
Definition ancestors (request : JobRequest) : list string :=
  map (fun p => Value (p_nv p)) (List.filter (fun p => HasPrefix (Name (p_nv p)) "ParentJobType") (Params request)).

Lemma fork_allowed_spec request :
  fork_allowed (r_JobType (row request)) (Params request) = true ->
  r_JobType (row request) ∉ ancestors request /\ (List.length (ancestors request) <= 10)%nat.
Proof.
  unfold fork_allowed, ancestors. intros [Hn Hl]%andb_true_iff. split.
  - intros (p & Hp & Hi)%list_elem_of_fmap. apply negb_true_iff in Hn. assert (existsb (fun p => Value (p_nv p) == r_JobType (row request))
      (List.filter parent_type (Params request)) = true) as Ht; [|congruence].
    apply existsb_exists. exists p. split; [by apply list_elem_of_In|]. rewrite Hp. apply eqb_string_refl.
  - rewrite length_map. by apply Nat.leb_le in Hl.
Qed.

(** The ancestors among the named values are in the list already, with these
    values, as [AddParam] leaves a request. *)
Definition listed (request : JobRequest) : Prop :=
  forall k v, NameValueParams request !! k = Some v -> HasPrefix k "ParentJobType" = true ->
  is_Some (lookupParams request !! k) /\
  forall p, p ∈ Params request -> Name (p_nv p) = k -> text_of v = Some (Value (p_nv p)).

Lemma NewNameTypeValue_Some k v nv : NewNameTypeValue k v false = Some nv -> Name nv = k /\ text_of v = Some (Value nv).
Proof.
  unfold NewNameTypeValue. destruct v; try discriminate;
    (destruct (text_of _) as [t|]; [|discriminate]); destruct (_ <? _); try discriminate; by intros [= <-].
Qed.

Lemma parents_of_map (f : Param -> Param) ps :
  (forall p, p ∈ ps -> Name (p_nv (f p)) = Name (p_nv p) /\
     (parent_type p = true -> Value (p_nv (f p)) = Value (p_nv p))) ->
  map (fun p => Value (p_nv p)) (List.filter parent_type (map f ps)) =
  map (fun p => Value (p_nv p)) (List.filter parent_type ps).
Proof.
  induction ps as [|p ps IH]; intros Hf; [done|]. cbn. destruct (Hf p (list_elem_of_here _ _)) as [Hn Hv].
  assert (parent_type (f p) = parent_type p) as Ht by (unfold parent_type; by rewrite Hn). rewrite Ht.
  assert (map (fun p => Value (p_nv p)) (List.filter parent_type (map f ps)) =
          map (fun p => Value (p_nv p)) (List.filter parent_type ps)) as HI by (apply IH; set_solver).
  destruct (parent_type p); cbn; [rewrite Hv|]; by rewrite ?HI.
Qed.

(** Adding the named values again leaves the ancestors as they are. *)
Lemma listed_AddParam k v jr jr' :
  listed jr -> NameValueParams jr !! k = Some v -> AddParam k v jr = Some jr' ->
  ancestors jr' = ancestors jr /\ listed jr' /\ NameValueParams jr' = NameValueParams jr.
Proof.
  intros HL Hk. unfold AddParam. destruct (NewNameTypeValue k v false) as [nv|] eqn:En; [|discriminate].
  apply NewNameTypeValue_Some in En as [Hname Htext]. intros [= <-].
  assert (forall p, p ∈ Params jr -> Name (p_nv p) = k -> HasPrefix k "ParentJobType" = true ->
            Value (p_nv p) = Value nv) as Hval.
  { intros p Hp Hn Hx. destruct (HL k v Hk Hx) as [_ Ht]. specialize (Ht p Hp Hn). congruence. }
  split; [|split; [|cbn; by apply insert_id]].
  - unfold ancestors. cbn [Params]. destruct (lookupParams jr !! k) as [old|] eqn:El.
    + apply parents_of_map. intros p Hp. destruct (String.eqb_spec (Name (p_nv p)) k) as [He|He]; [|done].
      split; [done|]. unfold parent_type, ParentJobTypePrefix. rewrite He. intros Hx. symmetry. by apply Hval.
    + rewrite List.filter_app, map_app. cbn. rewrite Hname.
      destruct (HasPrefix k "ParentJobType") eqn:Hx; [|cbn; by rewrite app_nil_r].
      destruct (HL k v Hk Hx) as [[? Hs] _]. congruence.
  - intros k' v' Hk' Hx. cbn [NameValueParams lookupParams Params] in *. rewrite insert_id in Hk' by done.
    destruct (HL k' v' Hk' Hx) as [Hs Ht]. split; [destruct (decide (k' = k)) as [->|?]; [rewrite lookup_insert_eq|rewrite lookup_insert_ne]; by eauto|].
    intros p Hp Hn. destruct (lookupParams jr !! k) as [old|] eqn:El.
    + apply list_elem_of_fmap in Hp as (q & -> & Hq). destruct (String.eqb_spec (Name (p_nv q)) k) as [He|He]; [|by apply Ht].
      cbn in Hn |- *. assert (k' = k) as -> by congruence. rewrite Hk in Hk'. by injection Hk' as <-.
    + apply elem_of_app in Hp as [Hp|Hp]; [by apply Ht|]. apply list_elem_of_singleton in Hp as ->. cbn in Hn.
      assert (k' = k) as -> by congruence. destruct Hs. congruence.
Qed.

Lemma listed_add_all l jr :
  (forall k v, (k, v) ∈ l -> NameValueParams jr !! k = Some v) -> listed jr ->
  ancestors (fst (add_all l jr)) = ancestors jr /\ listed (fst (add_all l jr)) /\
  NameValueParams (fst (add_all l jr)) = NameValueParams jr.
Proof.
  revert jr. induction l as [|[k v] l IH]; intros jr Hin HL; cbn; [done|].
  destruct (AddParam k v jr) as [jr1|] eqn:E; [|done].
  destruct (listed_AddParam k v jr jr1 HL (Hin k v (list_elem_of_here _ _)) E) as (H1 & H2 & H3).
  destruct (IH jr1) as (H4 & H5 & H6); [|done|by rewrite H4, H6].
  intros k' v' Hk'. rewrite H3. apply Hin. by apply list_elem_of_further.
Qed.

Lemma range_in {A} (m : gmap string A) k v : (k, v) ∈ range m -> m !! k = Some v.
Proof. rewrite range_perm. apply elem_of_map_to_list. Qed.

Lemma ancestors_Validate jr : ancestors (fst (Validate jr)) = ancestors jr.
Proof. unfold Validate, AfterLoad. by destruct (load_params _ _ _) as [[l v]|]. Qed.

Lemma listed_validated jr : listed jr -> ancestors (fst (ValidateBeforeSave jr)) = ancestors jr.
Proof.
  intros HL. unfold ValidateBeforeSave, updateQuickSearch.
  destruct (listed_add_all (range (NameValueParams jr)) jr (fun k v => range_in _ k v) HL) as (H1 & H2 & H3).
  destruct (add_all _ jr) as [jr1 [|]]; [|done]. cbn [fst] in *. rewrite ancestors_Validate.
  destruct (listed_add_all (range (NameValueParams jr1)) jr1 (fun k v => range_in _ k v) H2) as (H4 & _ & _).
  destruct (add_all _ jr1) as [jr2 [|]]; cbn [fst] in *; [rewrite ancestors_Validate|]; by rewrite <- H1, <- H4.
Qed.

(** The parameters that are stored have the names and the values given. *)
Definition texts (ps : list OwnedRow) : list (string * string) := map (fun p => (o_Name p, o_Value p)) ps.

Lemma own_params_texts owner ps st ps' st' :
  Requests.own_params owner ps st = (inl ps', st') -> texts ps' = texts ps.
Proof.
  revert st ps' st'. induction ps as [|p ps IH]; intros st ps' st'; cbn; [by intros [= <- _]|].
  intros HB. apply bind_inl in HB as (i & s1 & _ & HB). apply bind_inl in HB as (rest & s2 & HR & [= <- _]).
  unfold texts in *. cbn. f_equal. by eapply IH.
Qed.

Lemma Save_texts qc valid req ps st r ps' st' :
  Requests.Save qc valid req ps st = (inl (r, ps'), st') -> texts ps' = texts ps.
Proof.
  unfold Requests.Save. destruct (negb valid); [discriminate|]. intros (s1 & HB & _)%transaction_inv.
  apply bind_inl in HB as ([[newReq row] rows] & s2 & HP & HB). apply bind_inl in HB as (u & s3 & _ & [= _ <- _]).
  unfold Requests.prepare in HP. apply bind_inl in HP as (r1 & s4 & _ & HP). apply bind_inl in HP as (r2 & s5 & _ & HP).
  apply bind_inl in HP as (ps2 & s6 & HO & [= _ _ <- _]). by eapply own_params_texts.
Qed.

Lemma ancestors_texts jr :
  ancestors jr = map snd (List.filter (fun x => HasPrefix (fst x) "ParentJobType")
                           (map (fun p => (Name (p_nv p), Value (p_nv p))) (Params jr))).
Proof.
  unfold ancestors. induction (Params jr) as [|p ps IH]; [done|]. cbn [map List.filter fst].
  destruct (HasPrefix _ _); cbn [map snd]; [f_equal|]; exact IH.
Qed.

Lemma save_object_ancestors qc jr s saved left s' :
  save_object qc jr s = (inl (inl saved, left), s') -> ancestors saved = ancestors (fst (ValidateBeforeSave jr)).
Proof.
  unfold save_object. destruct (ValidateBeforeSave jr) as [jr1 inv]. cbn [fst].
  destruct (Requests.Save qc _ _ _ (store s)) as [[[r ps']|e] st] eqn:E; [|discriminate]. intros [= <- _ _].
  rewrite !ancestors_texts. do 2 f_equal. cbn. apply Save_texts in E. unfold texts in E. rewrite map_map in E.
  rewrite map_map. cbn in *. exact E.
Qed.

(** The user is an administrator, or has a subscription that is not over and of
    which neither computing time nor storage is used up. *)
Definition within_quota (qc : Query.QueryContext) (user : Account) : Prop :=
  snd (Users.IsAdmin (a_user user)) = true \/
  exists sub cpu disk, a_subscription user = Some sub /\ Active sub = true /\
    Requests.unix Store.now <= Requests.unix (EndedAt sub) /\
    cpu_usage qc sub = inl cpu /\ cpu < CPUQuota sub /\ disk_usage qc sub = inl disk /\ disk < DiskQuota sub.

Lemma quota_spec qc user : doCheckSubscriptionQuota qc (Some user) = None -> within_quota qc user.
Proof.
  unfold doCheckSubscriptionQuota, within_quota. destruct (snd _); [by left|].
  destruct (a_subscription user) as [sub|]; [|discriminate]. destruct (Expired sub) eqn:He; [discriminate|].
  apply orb_false_iff in He as [Ha%negb_false_iff Hu%Z.ltb_ge].
  destruct (cpu_usage qc sub) as [cpu|?] eqn:Ec; [|discriminate]. destruct (CPUQuota sub <=? cpu) eqn:Hc; [discriminate|].
  destruct (disk_usage qc sub) as [disk|] eqn:Ed; [|discriminate]. destruct (DiskQuota sub <=? disk) eqn:Hd; [discriminate|].
  apply Z.leb_gt in Hc, Hd. intros _. right. by exists sub, cpu, disk.
Qed.

(** C19: a new request, one without an identifier, that is accepted obeys the
    limits.  Its list of parameters names neither its own type nor more than ten
    types as its ancestors; that is checked before the named values are merged
    into the list, so the request that is stored obeys the limit too if every
    ancestor among the named values was in the list with that value, as it is
    after [AddParam] ([listed]).  Where the quota and the authentication are
    enabled and the caller is known, its user is an administrator or has a running
    subscription of which neither computing time nor storage is used up.  The
    request is stored at the end of the table as pending, owned by the caller, for
    a definition of the store that the caller may use, with a user key that no
    other request has, and it is counted among the pending jobs of its type. *)
Theorem accepted_request_is_within_limits qc request s saved left s'
    (new : r_ID (row request) = "")
    (accepted : SaveJobRequest qc request s = (inl (inl saved, left), s')) :
  (r_JobType (row request) ∉ ancestors request /\ (List.length (ancestors request) <= 10)%nat) /\
  (listed request -> r_JobType (row saved) ∉ ancestors saved /\ (List.length (ancestors saved) <= 10)%nat) /\
  (SubscriptionQuotaEnabled && AuthEnabled = true -> Query.GetUserID qc <> "" ->
    exists user, accounts s !! Query.GetUserID qc = Some user /\ within_quota qc user) /\
  table s' = table s ++ [row saved] /\
  r_JobState (row saved) = State.PENDING /\ r_UserID (row saved) = Query.GetUserID qc /\
  r_OrganizationID (row saved) = Query.GetOrganizationID qc /\
  (exists def, def ∈ definitions (Store.db (store s)) /\ usable qc def = true /\
     r_JobDefinitionID (row saved) = d_ID def) /\
  (forall x, x ∈ table s -> r_UserKey x <> r_UserKey (row saved)) /\
  (default ∅ (Registry.pendingJobsByType (registry s') !! Registry.key_of (summary (row saved)))) !! r_ID (row saved)
    = Some (summary (row saved)).
Proof.
  apply SaveJobRequest_inl in accepted as (def & s1 & s2 & s3 & left' & E1 & E2 & Ef & E3 & Et & Er).
  pose proof (frames_GetByType qc (r_JobType (row request)) (r_JobVersion (row request)) s) as F1. rewrite E1 in F1.
  pose proof (frames_quota qc (Requests.owned_by qc (row request)) def s1) as F2. rewrite E2 in F2. cbn [snd] in F1, F2.
  pose proof (save_object_ancestors _ _ _ _ _ _ E3) as Hanc.
  apply save_object_inv in E3 as (st & -> & ps' & HS).
  destruct (submitted_keeps def (Requests.owned_by qc (row request))) as (Hid & (Hty & _) & Hdef & _).
  apply Save_new in HS as (Htab & _ & Hst & Hu & Ho & Hjt & Hjd & _ & Hk); [|by cbn; rewrite Hid].
  destruct (repo_inv _ _ _ _ E1) as (st1 & Es1 & Hfound).
  split; [by apply fork_allowed_spec|]. split.
  { intros HL. rewrite Hanc, listed_validated by exact HL. cbn in Hjt. rewrite Hjt, Hty. exact (fork_allowed_spec request Ef). }
  split.
  - intros Hq Hne. subst s1.
    unfold check_quota in E2. apply andb_true_iff in Hq as [Hq1 Hq2]. rewrite Hq1 in E2.
    change (r_UserID (Requests.owned_by qc (row request))) with (Query.GetUserID qc) in E2.
    rewrite (proj2 (String.eqb_neq _ _) Hne) in E2. cbn [andb negb] in E2.
    apply mbind_inl in E2 as (user & s4 & Eu & E2). unfold GetUser in Eu. cbn [accounts set_store] in Eu.
    destruct (accounts s !! _) as [a|]; [|discriminate]. injection Eu as -> <-. exists user. split; [done|].
    apply mbind_inl in E2 as (c & s5 & Ec%attempt_inl & E2). destruct c as [u|e].
    + unfold CheckSubscriptionQuota in Ec. rewrite Hq1, Hq2 in Ec. cbn [andb] in Ec.
      destruct (doCheckSubscriptionQuota qc (Some user)) as [m|] eqn:Em; [|by apply quota_spec].
      destruct (stick m user) as [u' dirty]. discriminate.
    + destruct (d_CronTrigger def != ""); apply mbind_inl in E2 as (? & ? & _ & E2); discriminate.
  - split; [unfold table in *; cbn in Et; rewrite Et, Htab; congruence|]. split_and!; try done.
    + apply GetByType_found in Hfound as [Hin Hus]. exists def. split_and!; try done. by rewrite Hjd.
    + intros x Hx. apply Hk. unfold table in *. congruence.
    + rewrite Er. cbn. unfold Registry.add_pending. cbn. rewrite lookup_insert_eq. cbn. apply lookup_insert_eq.
Qed.

(** The object that a failed insertion leaves has an identifier. *)
Lemma left_identified qc valid r ps st e st' :
  r_ID r = "" -> Requests.Save qc valid r ps st = (inr e, st') -> valid = true ->
  r_ID (fst (Requests.left_by_Save qc valid r ps st)) = Store.ulid (Store.ulids st).
Proof.
  intros Hid _ ->. unfold Requests.left_by_Save, Requests.prepare. cbn [negb].
  cbn [r_ID Requests.owned_by set_r_UserID set_r_OrganizationID]. rewrite Hid, eqb_string_refl.
  unfold Store.bind at 1, Store.ulid_Make at 1. unfold Store.bind at 1.
  set (r1 := set_r_JobState _ _). set (st1 := Store.mkSt _ _ _).
  assert (forall o l s, exists l' s', Requests.own_params o l s = (inl l', s')) as HO.
  { intros o l. induction l as [|p l IH]; intros s; cbn; [by exists [], s|]. unfold Store.bind.
    destruct (o_ID p == ""); cbn.
    - destruct (IH (Store.mkSt (Store.db s) (Store.statements s) (S (Store.ulids s)))) as (l' & s' & ->). by eexists _, _.
    - destruct (IH s) as (l' & s' & ->). by eexists _, _. }
  unfold Store.bind. cbn [Store.ulid_Make Store.ret].
  match goal with |- context [if ?b then _ else _] => destruct b end; cbn [Store.ret].
  - match goal with |- context [Requests.own_params ?o ?l ?s] => destruct (HO o l s) as (l' & s' & ->) end. done.
  - match goal with |- context [Requests.own_params ?o ?l ?s] => destruct (HO o l s) as (l' & s' & ->) end. done.
Qed.

(** Only an insertion reports a unique index. *)
Definition never_unique {A} (m : Store.M A) : Prop := forall s s', m s <> (inr Store.UniqueError, s').

Lemma nu_bind {A B} (m : Store.M A) (k : A -> Store.M B) :
  never_unique m -> (forall a, never_unique (k a)) -> never_unique (Store.bind m k).
Proof.
  intros Hm Hk s s'. unfold Store.bind. destruct (m s) as [[a|e] s1] eqn:E; [apply Hk|].
  intros [= -> ->]. by apply (Hm s s').
Qed.
Lemma nu_query {A} e (f : DB -> A) : e <> Store.UniqueError -> e <> Store.DBError -> never_unique (Store.query e f).
Proof.
  intros Hu Hd s s'. unfold Store.query, Store.exec. destruct (Store.err _); [|discriminate].
  intros [= Hf _]. unfold Store.failure in Hf. destruct e; congruence.
Qed.
Lemma nu_try {A} (m : Store.M A) : never_unique (Store.try m).
Proof. intros s s'. unfold Store.try. by destruct (m s). Qed.

Lemma GetByType_nu qc t : never_unique (Definitions.GetByType qc t).
Proof.
  unfold Definitions.GetByType, Definitions.found, Definitions.check_access.
  repeat lazymatch goal with
         | |- never_unique (Store.bind _ _) => apply nu_bind; [|intros ?]
         | |- never_unique (Store.try _) => apply nu_try
         | |- never_unique (Store.query _ _) => apply nu_query; discriminate
         | |- never_unique (if ?b then _ else _) => destruct b
         | |- never_unique (match ?x with _ => _ end) => destruct x
         | |- never_unique _ => intros ? ?; discriminate
         end.
Qed.

Lemma quota_not_unique qc r d s s' : check_quota qc r d s <> (inr (Repo Store.UniqueError), s').
Proof.
  unfold check_quota. destruct (_ && _); [|discriminate]. unfold bind at 1, GetUser.
  destruct (accounts s !! _) as [u|]; [|discriminate]. unfold bind at 1, attempt, CheckSubscriptionQuota.
  destruct (SubscriptionQuotaEnabled && AuthEnabled); [|discriminate].
  destruct (match doCheckSubscriptionQuota qc (Some u) with Some m => stick m u | None => unstick u end) as [u' dirty].
  unfold bind at 1. destruct (doCheckSubscriptionQuota qc (Some u)); [|discriminate]. cbn [throw].
  destruct (d_CronTrigger d != ""); [|discriminate]. unfold bind. destruct (DisableJobDefinition _ _ _); discriminate.
Qed.

(** So the object of an insertion that a unique index refused has an identifier. *)
Lemma duplicate_left qc request s left s' :
  r_ID (row request) = "" -> SaveJobRequest qc request s = (inl (inr (Repo Store.UniqueError), left), s') ->
  exists n, r_ID (row left) = Store.ulid n.
Proof.
  intros Hid HB. unfold SaveJobRequest in HB. apply mbind_inl in HB as (def & s1 & E1%attempt_inl & HB).
  destruct def as [def|e].
  2: { injection HB as -> _ _. apply repo_inv in E1 as (st & _ & e' & [= <-] & E1). by apply GetByType_nu in E1. }
  apply mbind_inl in HB as (q & s2 & E2%attempt_inl & HB).
  destruct q as [u|e]; [|injection HB as -> _ _; by apply quota_not_unique in E2].
  destruct (negb _); [discriminate|]. apply mbind_inl in HB as ([r left'] & s3 & E3 & HB). cbn [fst snd] in HB.
  destruct r as [req|e].
  { apply mbind_inl in HB as (u1 & s4 & _ & HB). apply mbind_inl in HB as (v & s5 & _ & HB). discriminate. }
  injection HB as -> -> _. apply save_object_inv in E3 as (st & _ & e' & [= <-] & HS & ->).
  destruct (submitted_keeps def (Requests.owned_by qc (row request))) as (Hk & _ & _).
  eexists. eapply left_identified; [by cbn; rewrite Hk|exact HS|].
  unfold Requests.Save in HS. by destruct (match snd _ with None => true | Some _ => false end).
Qed.

(** A row with an identifier that is not in the table is refused. *)
Lemma Save_unknown qc valid r ps st x st' :
  r_ID r <> "" -> r_ID r ∉ map r_ID (requests (Store.db st)) -> Requests.Save qc valid r ps st <> (inl x, st').
Proof.
  intros Hid Hno HS. unfold Requests.Save in HS. destruct (negb valid); [discriminate|].
  apply transaction_inv in HS as (st1 & HB & _). apply bind_inl in HB as (y & st2 & HP & _).
  unfold Requests.prepare in HP. change (r_ID (Requests.owned_by qc r)) with (r_ID r) in HP.
  rewrite (proj2 (String.eqb_neq _ _) Hid) in HP.
  apply bind_inl in HP as (r1 & st3 & HP & _). apply bind_inl in HP as (old & st4 & HG & _).
  unfold Requests.Get in HG. rewrite (proj2 (String.eqb_neq _ _) Hid) in HG. apply bind_inl in HG as (rows & st5 & HQ & HF).
  apply query_inl in HQ as [-> _]. unfold Requests.first in HF. destruct (Sql.select _ _) as [|z l] eqn:Es; [discriminate|].
  assert (z ∈ z :: l) as Hz by apply list_elem_of_here. rewrite <- Es in Hz. apply elem_of_select in Hz as [Hz Hp].
  apply Hno, list_elem_of_fmap. exists z. unfold Requests.by_id in Hp. go_bool. by destruct Hp.
Qed.

Lemma unknown_refused qc jr s saved left s' :
  r_ID (row jr) <> "" -> r_ID (row jr) ∉ map r_ID (table s) -> SaveJobRequest qc jr s <> (inl (inl saved, left), s').
Proof.
  intros Hid Hno HS. apply SaveJobRequest_inl in HS as (def & s1 & s2 & s3 & left' & E1 & E2 & _ & E3 & _).
  pose proof (frames_GetByType qc (r_JobType (row jr)) (r_JobVersion (row jr)) s) as F1. rewrite E1 in F1.
  pose proof (frames_quota qc (Requests.owned_by qc (row jr)) def s1) as F2. rewrite E2 in F2. cbn [snd] in F1, F2.
  apply save_object_inv in E3 as (st & _ & ps' & HS).
  destruct (submitted_keeps def (Requests.owned_by qc (row jr))) as (Hk & _ & _).
  apply Save_unknown in HS; [done| |]; cbn [row set_row]; rewrite Hk; [done|].
  unfold table in *. by rewrite F2, F1.
Qed.

Lemma submit_params_new l jr jr' : submit_params l jr = Some jr' -> r_ID (row jr) = "" -> r_ID (row jr') = "".
Proof.
  revert jr. induction l as [|[k v] l IH]; intros jr; cbn; [by intros [= <-]|].
  destruct (k == "_user_key"); [by intros E; apply (IH _ E)|]. destruct (k == "_parent_id"); [by intros E; apply (IH _ E)|].
  destruct (AddParam k (VString v) jr) as [jr1|] eqn:E1; [|discriminate]. intros E Hid. apply (IH _ E).
  by rewrite (row_AddParam _ _ _ _ E1).
Qed.

Lemma frames_GetByUserKey qc k : frames (repo (Requests.GetByUserKey qc k)).
Proof. apply frames_repo. intros l. unfold Requests.GetByUserKey, Requests.first. store_split; done. Qed.
Lemma frames_Get qc id : frames (repo (Requests.Get qc id)).
Proof. apply frames_repo. intros l. unfold Requests.Get, Requests.first. store_split; done. Qed.

(** A job submitted from a template either is new, stored at the end of the
    table under the identifier returned, or its user key is that of a request
    that has not ended, whose identifier is returned without changing the table.
    In particular a key that an ended request still holds is never given to a new
    request: freeing the key and inserting again does not succeed. *)
Theorem submit_job_is_new_or_live jobType description ps s id s'
    (fresh : forall n, Store.ulid n ∉ map r_ID (table s))
    (named : forall n, Store.ulid n <> "")
    (submitted_ok : SubmitJob jobType description ps s = (inl id, s')) :
  (exists r, table s' = table s ++ [r] /\ r_ID r = id /\ r_JobState r = State.PENDING) \/
  (table s' = table s /\ exists r, r ∈ table s /\ r_ID r = id /\ State.IsTerminal (r_JobState r) = false).
Proof.
  unfold SubmitJob in submitted_ok. destruct (submit_params _ _) as [request|] eqn:Esp; [|discriminate].
  apply submit_params_new in Esp; [|done].
  apply mbind_inl in submitted_ok as (ids & s1 & E1 & HB). assert (table s1 = table s) as F1.
  { destruct (r_ParentID _ != ""); [|by injection E1 as _ <-].
    apply mbind_inl in E1 as (p & s2 & E2%attempt_inl & E1). injection E1 as _ <-.
    pose proof (frames_Get (Query.NewQueryContext None) (r_ParentID (row request)) s) as F. by rewrite E2 in F. }
  apply mbind_inl in HB as ([r left] & s2 & E2 & HB). destruct r as [req|e].
  - injection HB as <- <-. left. exists (row req). apply SaveJobRequest_inl in E2 as (def & s3 & s4 & s5 & left' & E3 & E4 & _ & E5 & Et & _).
    match type of E3 with GetJobDefinitionByType ?q ?t ?v _ = _ => pose proof (frames_GetByType q t v s1) as F3 end.
    match type of E4 with check_quota ?q ?t ?v _ = _ => pose proof (frames_quota q t v s3) as F4 end.
    rewrite E3 in F3. rewrite E4 in F4. cbn [snd] in F3, F4. apply save_object_inv in E5 as (st & -> & ps' & HS).
    match type of HS with Requests.Save ?q _ _ _ _ = _ => destruct (submitted_keeps def (Requests.owned_by q (row request))) as (Hid & _ & _) end.
    apply Save_new in HS as (Htab & _ & Hst & _); [|by cbn; rewrite Hid].
    split_and!; try done. rewrite Et. unfold table in *. cbn. rewrite Htab. congruence.
  - destruct (isDuplicate e && _) eqn:Ed; [|discriminate]. pose proof (SaveJobRequest_inr _ _ _ _ _ _ E2) as F2.
    apply mbind_inl in HB as (ex & s3 & E3%attempt_inl & HB).
    match type of E3 with repo (Requests.GetByUserKey ?q ?k) _ = _ => pose proof (frames_GetByUserKey q k s2) as F3 end.
    rewrite E3 in F3. cbn [snd] in F3. destruct ex as [old|e1]; [|discriminate].
    destruct (State.IsTerminal (r_JobState old)) eqn:Eterm.
    + exfalso. apply mbind_inl in HB as (u & s4 & E4 & HB). apply mbind_inl in HB as (again & s5 & E5 & _).
      apply mbind_inl in E5 as ([r left'] & s6 & E5 & HR). cbn [fst] in HR. destruct r as [req|e1]; [|discriminate].
      assert (e = Repo Store.UniqueError) as ->.
      { apply andb_true_iff in Ed as [Ed _]. destruct e as [[]| | | | | | | | |]; done. }
      destruct (duplicate_left _ _ _ _ _ Esp E2) as [n Hn].
      apply (unknown_refused _ _ _ _ _ _) in E5; [done|by rewrite Hn|]. rewrite Hn.
      assert (map r_ID (table s4) = map r_ID (table s3)) as Hids.
      { pose proof (repo_ids (Requests.UpdateJobState (r_ID old) "" (r_JobState old) "" "" 0 0 0) (request_ids s3)) as HR'.
        specialize (HR' (UpdateJobState_ids _ _ _ _ _ _ _ _ _) s3 eq_refl). by rewrite E4 in HR'. }
      rewrite Hids, F3, F2, F1. apply fresh.
    + injection HB as <- <-. right. split; [congruence|]. exists old. split_and!; try done.
      apply repo_inv in E3 as (st & -> & HG). unfold Requests.GetByUserKey in HG. apply bind_inl in HG as (rows & st1 & HQ & HF).
      apply query_inl in HQ as [-> _]. unfold Requests.first in HF. destruct (Sql.select _ _) as [|y l] eqn:Es; [discriminate|].
      injection HF as -> _. assert (old ∈ old :: l) as Hin by apply list_elem_of_here. rewrite <- Es in Hin.
      apply elem_of_select in Hin as [Hin _]. unfold table in *. congruence.
Qed.
End Submit.

(** ** Statistics at start-up *)
Section Startup.
Import Rows JobStats Registry Request Manager.
Context `{env : Store.Env}.

Definition idle (r : JobStatsRegistry) : Prop := well_formed r /\ forall key, executing_at r key = 0.

(** A job that is counted as started and as ended. *)
Lemma start_and_end t k req r :
  idle r -> event_delta k = -1 ->
  exists r1 r2, apply_event (KStarted t, req) r = Return r1 /\ apply_event (k, req) r1 = Return r2 /\ idle r2 /\
    forall key id, pending_at r2 key id = if same_job key id req then (if is_pending k then Some req else None) else pending_at r key id.
Proof.
  intros [Hw He] Hk. destruct (apply_event_effect (KStarted t) req r Hw) as (r1 & E1 & [P1 _ _ X1 W1]).
  destruct (apply_event_effect k req r1 W1) as (r2 & E2 & [P2 _ _ X2 W2]).
  exists r1, r2. split; [done|]. split; [done|]. split; [split; [done|]|].
  - intros key. rewrite X2, X1, Hk, He. destruct (key_of req == key); [|done]. by vm_compute.
  - intros key id. rewrite P2, P1. by destruct (same_job key id req).
Qed.

(** The states that the start-up counts. *)
Definition counted (state : RequestState) : bool :=
  State.Pending state || State.Completed state || State.Failed state || State.Cancelled state.

Lemma load_time_run t s :
  idle (registry s) -> exists r', load_time t s = (inl tt, set_registry r' s) /\ idle r' /\
    forall key id, pending_at r' key id =
      if same_job key id (summary (fst t)) && counted (r_JobState (fst t))
      then (if State.Pending (r_JobState (fst t)) then Some (summary (fst t)) else None) else pending_at (registry s) key id.
Proof.
  intros HI. unfold load_time, counted. set (req := summary (fst t)).
  destruct (State.Pending _) eqn:EP; [|destruct (State.Completed _) eqn:EC; [|destruct (State.Failed _) eqn:EF]].
  - destruct HI as [Hw He]. destruct (apply_event_effect (KPending false) req (registry s) Hw) as (r1 & E1 & [P1 _ _ X1 W1]).
    exists r1. injection E1 as <-. split; [done|]. split; [split; [done|]|].
    + intros key. rewrite X1. cbn. rewrite He. by destruct (key_of req == key).
    + intros key id. rewrite P1. cbn. by rewrite andb_true_r.
  - destruct (start_and_end Store.now (KSucceeded (Elapsed (snd t))) req (registry s) HI eq_refl) as (r1 & r2 & E1 & E2 & HI2 & P2).
    exists r2. unfold bind, stats, stats_end. cbn [registry set_registry]. injection E1 as E1. rewrite E1. cbn in E2. rewrite E2.
    split; [done|]. split; [done|]. intros key id. rewrite P2. cbn. by rewrite andb_true_r.
  - destruct (start_and_end Store.now (KFailed (Elapsed (snd t))) req (registry s) HI eq_refl) as (r1 & r2 & E1 & E2 & HI2 & P2).
    exists r2. unfold bind, stats, stats_end. cbn [registry set_registry]. injection E1 as E1. rewrite E1. cbn in E2. rewrite E2.
    split; [done|]. split; [done|]. intros key id. rewrite P2. cbn. by rewrite andb_true_r.
  - assert (State.Cancelled (r_JobState (fst t)) = false) as ->.
    { unfold State.Failed in EF. apply orb_false_iff in EF as [_ EF]. exact EF. }
    exists (registry s). split; [by destruct s|]. split; [done|]. intros key id. cbn. by rewrite andb_false_r.
Qed.

Lemma load_times_run l s :
  idle (registry s) -> NoDup (map (fun t => r_ID (fst t)) l) ->
  (forall t, t ∈ l -> forall key, pending_at (registry s) key (r_ID (fst t)) = None) ->
  exists r', load_times l s = (inl tt, set_registry r' s) /\ idle r' /\
    forall key id x, pending_at r' key id = Some x <->
      pending_at (registry s) key id = Some x \/
      exists t, t ∈ l /\ State.Pending (r_JobState (fst t)) = true /\ x = summary (fst t) /\ key_of x = key /\ s_ID x = id.
Proof.
  revert s. induction l as [|t l IH]; intros s HI HN Hno; cbn [load_times].
  { exists (registry s). split; [by destruct s|]. split; [done|]. intros key id x. split; [by left|].
    intros [Hx|(t & Ht & _)]; [done|by apply not_elem_of_nil in Ht]. }
  cbn in HN. apply NoDup_cons in HN as [Hni HN].
  destruct (load_time_run t s HI) as (r1 & E1 & HI1 & P1).
  destruct (IH (set_registry r1 s) HI1 HN) as (r2 & E2 & HI2 & P2).
  { intros t' Ht' key. cbn. rewrite P1. unfold same_job. cbn.
    assert (r_ID (fst t) <> r_ID (fst t')) as Hne.
    { intros He. apply Hni. rewrite He. apply list_elem_of_fmap. by exists t'. }
    rewrite (proj2 (String.eqb_neq _ _) Hne), andb_false_r. cbn. apply Hno. by apply list_elem_of_further. }
  exists r2. unfold bind. rewrite E1, E2. split; [done|]. split; [done|]. intros key id x. rewrite P2. cbn [registry set_registry].
  assert (pending_at r1 key id = Some x <-> pending_at (registry s) key id = Some x \/
    (State.Pending (r_JobState (fst t)) = true /\ x = summary (fst t) /\ key_of x = key /\ s_ID x = id)) as ->.
  { rewrite P1. destruct (same_job key id (summary (fst t))) eqn:Es; cbn [andb].
    - unfold same_job in Es. go_bool. destruct Es as [Ek Ei]. cbn in Ei.
      assert (pending_at (registry s) key id = None) as Hnone by (rewrite <- Ei; apply Hno, list_elem_of_here).
      rewrite Hnone. unfold counted. destruct (State.Pending (r_JobState (fst t))) eqn:EP; cbn [orb].
      + split; [intros [= <-]; right; by split_and!|]. by intros [?|(_ & -> & _)].
      + destruct (_ || _); (split; [done|by intros [?|(? & _)]]).
    - split; [by left|]. intros [?|(_ & -> & <- & <-)]; [done|]. unfold same_job in Es. by rewrite !eqb_string_refl in Es. }
  split.
  - intros [[Hx|Hx]|(t' & Ht' & Hx)]; [by left| |].
    + right. exists t. split; [apply list_elem_of_here|done].
    + right. exists t'. split; [by apply list_elem_of_further|done].
  - intros [Hx|(t' & [->|Ht']%elem_of_cons & Hx)]; [by left; left|by left; right|].
    right. by exists t'.
Qed.

(** The statistics built when the server starts agree with the table: the
    jobs counted as pending are exactly the pending requests among the thousand
    most recently updated ones, and no job is counted as executing. *)
Theorem startup_statistics_match_the_table s
    (fresh_registry : registry s = newRegistry)
    (query_ok : Store.err (Store.statements (store s)) = false)
    (distinct : NoDup (request_ids s)) :
  exists s', initializeStatsRegistry s = (inl tt, s') /\
    (forall key, executing_at (registry s') key = 0) /\
    (forall key id x, pending_at (registry s') key id = Some x <->
       exists r, r ∈ take 1000 (Requests.recent (table s)) /\ r_JobState r = State.PENDING /\
         x = summary r /\ key_of x = key /\ s_ID x = id).
Proof.
  unfold initializeStatsRegistry, bind, attempt, repo, GetJobTimes, Store.query, Store.exec. rewrite query_ok.
  set (rows := take 1000 (Requests.recent (requests (Store.db (store s))))).
  set (s1 := set_store _ s).
  destruct (load_times_run (map (job_time (Store.db (store s))) rows) s1) as (r' & -> & [_ He] & HP).
  - cbn. rewrite fresh_registry. split; [apply map_Forall_empty|done].
  - rewrite map_map. change (map _ rows) with (map r_ID rows).
    assert (NoDup (map r_ID (Requests.recent (requests (Store.db (store s)))))) as HD.
    { unfold Requests.recent. eapply NoDup_Permutation_proper; [|exact distinct]. apply Permutation_map, sort_slice_perm. }
    eapply sublist_NoDup; [exact HD|]. apply (fmap_sublist r_ID), sublist_take.
  - intros t _ key. cbn. by rewrite fresh_registry.
  - eexists. split; [done|]. split; [done|]. intros key id x. cbn [registry set_registry]. rewrite HP. cbn [registry s1 set_store].
    rewrite fresh_registry. split.
    + intros [Hx|(t & Ht & Hx)]; [done|]. apply list_elem_of_fmap in Ht as (r & -> & Hr). exists r. split; [done|].
      destruct Hx as (Hp & Hx). split; [by apply String.eqb_eq in Hp|done].
    + intros (r & Hr & Hst & Hx). right. exists (job_time (Store.db (store s)) r). split; [by apply list_elem_of_fmap; eexists|].
      split; [by apply String.eqb_eq|done].
Qed.
End Startup.

(** ** Witnesses *)
Section Witnesses.
Import Rows NameValue Schedule Request Manager.

Definition demo_cron : Cron := {| cron_next := fun _ t => Some (t + 60000000000) |}.
Definition demo_decoder : Decoder :=
  {| decode_float := fun _ => None; decode_complex := fun _ => None; decode_object := fun _ => None; decode_array := fun _ => None |}.
Definition demo_calls : Calls :=
  {| publish_ok := fun _ => true; names_duplicates := true; SubscriptionQuotaEnabled := true; AuthEnabled := true;
     MaxConcurrency := 10; MaxJobTimeout := 1000000000; cpu_usage := fun _ _ => inl 5; disk_usage := fun _ _ => inl 5;
     user_update_ok := true; bundle_of := fun _ => None; ulid_Parse := fun _ => false; valid_definition := fun _ => true |}.
Local Existing Instance demo_env.
Local Existing Instance demo_cron.
Local Existing Instance demo_decoder.
Local Existing Instance demo_calls.

Definition relative (id parent : string) (state : RequestState) : RequestRow :=
  mkRequestRow id parent ("key-" +:+ id) "def-1" None None "org" "user" "build" "" state 5 0 0 0 false None None "" 10 100 20
    false true.
Definition family : list RequestRow :=
  [relative "r1" "" State.EXECUTING; relative "r2" "r1" State.PENDING; relative "r3" "r2" State.EXECUTING;
   relative "r4" "r9" State.PENDING].
Definition build_definition : DefRow :=
  mkDefRow "def-1" "build" "" false "" "" 0 5 false true "user" "org" "" "" "" ["compile"].
Definition demo_ms (rows : list RequestRow) : MS :=
  mkMS (Store.mkSt (mkDB rows [] [] [build_definition] [] [] [] [] [] [] [] []) 0 0)
    Registry.newRegistry [] 0 [] {["user" := mkAccount (Users.mkUser "user" "org" "" "" None None) (Some (mkSubscription true 10 10 0 2000000000000)) "" None 5 None]} [].

Lemma cascade_cancel_reaches_descendants_witness :
  descendant (table (demo_ms family)) "r1" 2 (relative "r3" "r2" State.EXECUTING) /\
  let s' := snd (cascadeCancelToChildren "r1" (demo_ms family)) in
  (forall n r, (n <= 20)%nat -> descendant (table (demo_ms family)) "r1" n r -> told r s') /\
  (forall r, r ∈ table (demo_ms family) -> (forall n, (n <= 20)%nat -> ~ descendant (table (demo_ms family)) "r1" n r) ->
     r ∈ table s').
Proof.
  split.
  - apply (a_grandchild _ _ 1 (relative "r2" "r1" State.PENDING)); [apply a_child|]; (split; [set_solver|reflexivity]).
  - refine (cascade_cancel_reaches_descendants (fun _ => eq_refl) (fun _ => eq_refl) (demo_ms family) "r1" _ _ _).
    + apply (bool_decide_unpack _). vm_compute. exact Logic.I.
    + intros r Hr. vm_compute in Hr. repeat (apply elem_of_cons in Hr as [->|Hr]; [discriminate|]).
      by apply not_elem_of_nil in Hr.
    + discriminate.
Defined.

Definition caller : Query.QueryContext := Query.NewQueryContext (Some (Users.mkUser "user" "org" "" "" None None)).
Definition fresh_request : JobRequest := mkJobRequest (set_JobType "build" (new_row 5)) "" "" "" 0 [] ∅ ∅ "".

(** A request that "release" forked. *)
Definition forked_request : JobRequest :=
  default fresh_request (AddParam "ParentJobType1" (VString "release") fresh_request).
Definition forked_saved : ((JobRequest + merror) * JobRequest + merror) * MS :=
  SaveJobRequest caller forked_request (demo_ms family).
Definition forked_result : JobRequest := match fst forked_saved with inl (inl r, _) => r | _ => fresh_request end.

Lemma accepted_request_is_within_limits_witness :
  ancestors forked_result = ["release"] /\
  (r_JobType (row forked_result) ∉ ancestors forked_result /\ (List.length (ancestors forked_result) <= 10)%nat) /\
  table (snd forked_saved) = table (demo_ms family) ++ [row forked_result].
Proof.
  assert (SaveJobRequest caller forked_request (demo_ms family) = (inl (inl forked_result, forked_result), snd forked_saved))
    as Hsave by (vm_compute; reflexivity).
  destruct (accepted_request_is_within_limits caller forked_request (demo_ms family) forked_result forked_result
              (snd forked_saved) eq_refl Hsave) as (_ & Hlimit & _ & Htable & _).
  split; [vm_compute; reflexivity|]. split; [|exact Htable]. apply Hlimit.
  intros k v Hk _. change (NameValueParams forked_request) with
      (<["ParentJobType1" := VString "release"]> (∅ : gmap string value)) in Hk.
    apply lookup_insert_Some in Hk as [[<- <-]|[_ Hk]]; [|by rewrite lookup_empty in Hk]. split; [by eexists|].
    intros p Hp _. change (Params forked_request) with [mkParam "" "" (mkNameTypeValue "ParentJobType1" "string" "release" false)] in Hp.
    by apply list_elem_of_singleton in Hp as ->.
Defined.

(** A key of a waiting request, and one of a request that has ended. *)
Definition keyed (k : string) : gmap string string := {["_user_key" := k; "_parent_id" := "r1"]}.
Definition ended_family : list RequestRow := [relative "r1" "" State.EXECUTING; relative "r5" "" State.FAILED].

Lemma submit_job_is_new_or_live_witness :
  fst (SubmitJob "build" "" (keyed "key-r2") (demo_ms family)) = inl "r2" /\
  let s' := snd (SubmitJob "build" "" (keyed "key-r2") (demo_ms family)) in
  ((exists r, table s' = table (demo_ms family) ++ [r] /\ r_ID r = "r2" /\ r_JobState r = State.PENDING) \/
   (table s' = table (demo_ms family) /\
    exists r, r ∈ table (demo_ms family) /\ r_ID r = "r2" /\ State.IsTerminal (r_JobState r) = false)).
Proof.
  split; [vm_compute; reflexivity|]. cbv zeta.
  refine (submit_job_is_new_or_live "build" "" (keyed "key-r2") (demo_ms family) "r2" _ _ _ _).
  - intros n Hn. apply list_elem_of_fmap in Hn as (r & Hn & Hr). vm_compute in Hr.
    repeat (apply elem_of_cons in Hr as [->|Hr]; [discriminate Hn|]). by apply not_elem_of_nil in Hr.
  - intros n. discriminate.
  - vm_compute. reflexivity.
Defined.

(** The retry after freeing the key of an ended request fails. *)
Example submit_retry_fails :
  fst (SubmitJob "build" "" (keyed "key-r5") (demo_ms ended_family)) = inr (Repo Store.NotFoundError).
Proof. vm_compute. reflexivity. Qed.

Lemma startup_statistics_match_the_table_witness :
  map r_ID (take 1000 (Requests.recent (table (demo_ms family)))) = ["r1"; "r2"; "r3"; "r4"] /\
  exists s', initializeStatsRegistry (demo_ms family) = (inl tt, s') /\
    (forall key, executing_at (registry s') key = 0) /\
    (forall key id x, pending_at (registry s') key id = Some x <->
       exists r, r ∈ take 1000 (Requests.recent (table (demo_ms family))) /\ r_JobState r = State.PENDING /\
         x = summary r /\ Registry.key_of x = key /\ Registry.s_ID x = id).
Proof.
  split; [vm_compute; reflexivity|].
  refine (startup_statistics_match_the_table (demo_ms family) _ _ _); [reflexivity|reflexivity|].
  apply (bool_decide_unpack _). vm_compute. exact Logic.I.
Defined.

(** A cron job whose state cannot be changed, because it has moved on, and that
    has no further schedule: the caller is told that all went well. *)
Example state_error_is_lost :
  let job := set_r_CronTriggered true (relative "r1" "" State.PAUSED) in
  let s := demo_ms [job] in
  fst (repo (Requests.UpdateJobState "r1" State.EXECUTING State.FAILED "" "" 0 0 0) s) = inr (Repo Store.NotFoundError) /\
  fst (UpdateJobRequestState caller (mkIJobRequest job None) State.EXECUTING State.FAILED "" "" 0 0 false s) = inl tt.
Proof. vm_compute. split; reflexivity. Qed.
End Witnesses.
