(* ===== verification/Scheduler.v ===== *)
(** * Scheduler: from a due request to a running supervisor

    Models the scheduling half of [src/queen/fsm/job_execution_state.go], the
    scheduler ([src/queen/scheduler]) and the launcher ([src/queen/launcher]) on
    top of the job manager ([JobManager]) and the resource manager ([Resource]).

    - [Module Fsm]: the state machine of one request: validation, filters, limits,
      reservation of ants, creation of the execution with the launch message, and
      what happens when one of these fails.
    - [Module Scheduling]: one request ([scheduleJob]), one pass over the due
      requests ([schedulePendingJobs]), missing cron jobs and orphans.
    - [Module Launching]: the receiver of launch messages, with the table of
      supervisors.

    The state joins that of the job manager with the allocations of the resource
    manager, the launch messages sent and the fields of the scheduler.  A call
    ends with a value, an error, a crash (a Go panic, which ends the server since
    nothing recovers it) or a hang (a lock taken twice). *)

From S2P Require Import Prelude RequestState Acl Tags Resource JobDefinition Approval Stats Tables JobStore JobRequest JobManager.
From Stdlib Require Import Ascii.

Open Scope Z_scope.

(** ** Fsm: job_execution_state.go, scheduling *)
Module Fsm.
Import Rows NameValue Request JobManager.Manager.
Abbreviation Reservations_ := (gmap string Ants.AntReservation).

(** A launch message. *)
Record Launch := mkLaunch {
  l_UserID : string;
  l_JobRequestID : string;
  l_JobType : string;
  l_JobExecutionID : string;
  l_Reservations : Reservations_
}.

Inductive serror :=
| Mgr (e : merror)
| InvalidDefinition (e : Job.job_error)
| NotValidated (e : serror)
| RequiredParams (missing : list string)
| JobFiltered
| TooManyJobs | TooManyUserJobs | TooManyOrgJobs
| NoAnts (e : Resource.Manager.manager_error)
| NotReserved (e : Alloc.reserve_error)
| ExecutionExists
| InvalidState (s : RequestState)
| ExecutionNotSaved (e : serror)
| LaunchInvalid
| NotSent
| LaunchNotSent (e : serror)
| ExecutionIDMissing
| ReservationCount
| NoReservation (taskType : string)
| ExecutionMismatch
| NotReady (request execution : RequestState)
| AllocationAttempts (reason : serror)
| ReservationAttempts
| NotAvailable (e : serror)
| UserNotFound | SubscriptionExpired | SubscriptionMissing | RunningQuotaExceeded
| ShuttingDown
| Unhealthy
| NoPendingJobs.

(** The fields of the scheduler and of the launcher. *)
Record SS := mkSS {
  ms : MS;
  alloc : Alloc.State;
  launches : list Launch;
  sends : nat;
  backoffUntil : Z;
  backoffAttempt : nat;
  totalPendingJobs : Z;
  totalScheduledJobs : Z;
  supervisors : gmap string string
}.

Definition set_ms (x : MS) (s : SS) : SS :=
  mkSS x (alloc s) (launches s) (sends s) (backoffUntil s) (backoffAttempt s) (totalPendingJobs s)
    (totalScheduledJobs s) (supervisors s).
Definition set_alloc (x : Alloc.State) (s : SS) : SS :=
  mkSS (ms s) x (launches s) (sends s) (backoffUntil s) (backoffAttempt s) (totalPendingJobs s)
    (totalScheduledJobs s) (supervisors s).
Definition set_backoff (until : Z) (attempt : nat) (s : SS) : SS :=
  mkSS (ms s) (alloc s) (launches s) (sends s) until attempt (totalPendingJobs s) (totalScheduledJobs s)
    (supervisors s).
Definition set_totals (pending scheduled : Z) (s : SS) : SS :=
  mkSS (ms s) (alloc s) (launches s) (sends s) (backoffUntil s) (backoffAttempt s) pending scheduled (supervisors s).
Definition set_supervisors (x : gmap string string) (s : SS) : SS :=
  mkSS (ms s) (alloc s) (launches s) (sends s) (backoffUntil s) (backoffAttempt s) (totalPendingJobs s)
    (totalScheduledJobs s) x.

(** What scheduling asks of its configuration and of code outside the model. *)
Class Scheduling := {
  resource_cfg : Resource.Manager.JobsConfig;
  MaxScheduleAttempts : Z;
  NotReadyJobsMaxWait : Z;
  OrphanRequestsTimeout : Z;
  server_shutting_down : bool;
  healthy : bool;
  (** Whether a message is sent to the launch topic, and the subscription ended. *)
  send_ok : nat -> bool;
  unsubscribe_ok : bool;
  (** The back-off library: the delay of the n-th attempt. *)
  backoff_Duration : nat -> Z;
  ForAttempt : BackoffPolicy -> Z -> Z;
  random_delay : option Z;
  (** A definition as it is loaded with its tasks; the names it requires. *)
  definition_of : DefRow -> Job.JobDefinition;
  required_params : DefRow -> list string;
  cron_valid : string -> option bool;
  MatchEmail : string -> bool;
  (** The names set by the configurations of the organization, of the user and of
      the definition. *)
  configured : DefRow -> RequestRow -> list string;
  (** The tag of a YAML text, and a template rendered with the data of a request. *)
  ParseYamlTag : string -> string -> string;
  render : string -> RequestRow -> option string;
  DeleteFilteredCronJobs_variable : DefRow -> bool;
  has_webhook : DefRow -> RequestRow -> bool;
  (** The text of an error. *)
  describe : serror -> string
}.

(** *** Effects *)
Inductive result (A : Type) : Type :=
| Ok (a : A)
| Err (e : serror)
| Crash
| Hang.
Arguments Ok {A} a.
Arguments Err {A} e.
Arguments Crash {A}.
Arguments Hang {A}.

Definition SM (A : Type) : Type := SS -> result A * SS.
Definition sret {A} (a : A) : SM A := fun s => (Ok a, s).
Definition sthrow {A} (e : serror) : SM A := fun s => (Err e, s).
Definition crash {A} : SM A := fun s => (Crash, s).
Definition sbind {A B} (m : SM A) (k : A -> SM B) : SM B :=
  fun s => match m s with
           | (Ok a, s') => k a s'
           | (Err e, s') => (Err e, s')
           | (Crash, s') => (Crash, s')
           | (Hang, s') => (Hang, s')
           end.
(** The error of [m] as a value; a crash or a hang is none. *)
Definition sattempt {A} (m : SM A) : SM (A + serror) :=
  fun s => match m s with
           | (Ok a, s') => (Ok (inl a), s')
           | (Err e, s') => (Ok (inr e), s')
           | (Crash, s') => (Crash, s')
           | (Hang, s') => (Hang, s')
           end.
Declare Scope sched_scope.
Notation "x <- m ;; k" := (sbind m (fun x => k)) (at level 100, m at next level, right associativity) : sched_scope.
Notation "m ;;; k" := (sbind m (fun _ => k)) (at level 100, right associativity) : sched_scope.
Open Scope sched_scope.

Definition mgr {A} (m : MM A) : SM A :=
  fun s => match m (ms s) with
           | (inl a, x) => (Ok a, set_ms x s)
           | (inr Panicked, x) => (Crash, set_ms x s)
           | (inr e, x) => (Err (Mgr e), set_ms x s)
           end.

(** *** The state machine of a request *)
Record Jsm := mkJsm {
  Request : IJobRequest;
  JobDefinition : option (DefRow * Job.JobDefinition);
  JobExecution : option ExecRow;
  LastJobExecution : option ExecRow;
  User : option Account;
  Reservations : Reservations_;
  revertState : RequestState
}.

Definition with_Request (m : Jsm) (x : IJobRequest) : Jsm :=
  mkJsm x (JobDefinition m) (JobExecution m) (LastJobExecution m) (User m) (Reservations m) (revertState m).
Definition with_JobDefinition (m : Jsm) (x : option (DefRow * Job.JobDefinition)) : Jsm :=
  mkJsm (Request m) x (JobExecution m) (LastJobExecution m) (User m) (Reservations m) (revertState m).
Definition with_JobExecution (m : Jsm) (x : option ExecRow) : Jsm :=
  mkJsm (Request m) (JobDefinition m) x (LastJobExecution m) (User m) (Reservations m) (revertState m).
Definition with_LastJobExecution (m : Jsm) (x : option ExecRow) : Jsm :=
  mkJsm (Request m) (JobDefinition m) (JobExecution m) x (User m) (Reservations m) (revertState m).
Definition with_User (m : Jsm) (x : option Account) : Jsm :=
  mkJsm (Request m) (JobDefinition m) (JobExecution m) (LastJobExecution m) x (Reservations m) (revertState m).
Definition with_Reservations (m : Jsm) (x : Reservations_) : Jsm :=
  mkJsm (Request m) (JobDefinition m) (JobExecution m) (LastJobExecution m) (User m) x (revertState m).
Definition with_revertState (m : Jsm) (x : RequestState) : Jsm :=
  mkJsm (Request m) (JobDefinition m) (JobExecution m) (LastJobExecution m) (User m) (Reservations m) x.

Abbreviation req_row m := (i_row (Request m)).
Definition SetJobState (m : Jsm) (x : RequestState) : Jsm :=
  with_Request m (mkIJobRequest (set_r_JobState x (req_row m)) (i_params (Request m))).
Definition SetJobExecutionID (m : Jsm) (x : string) : Jsm :=
  with_Request m (mkIJobRequest (set_r_JobExecutionID (Some x) (req_row m)) (i_params (Request m))).
Definition SetParams (m : Jsm) (ps : list Param) : Jsm :=
  with_Request m (mkIJobRequest (req_row m) (Some ps)).

Definition NewJobExecutionStateMachine (request : IJobRequest) (reservations : Reservations_) : Jsm :=
  mkJsm request None None None None reservations "".

Section Fsm.
Context `{env : Store.Env, cron : Schedule.Cron, dec : Decoder, ord : RangeOrder, calls : Calls, sched : Scheduling}.
Abbreviation now := Store.now.

Definition QueryContext (m : Jsm) : Query.QueryContext :=
  match User m with
  | Some u => if snd (Users.IsAdmin (a_user u)) then WithAdmin (Query.NewQueryContext None)
              else NewQueryContextFromIDs (r_UserID (req_row m)) (r_OrganizationID (req_row m))
  | None => NewQueryContextFromIDs (r_UserID (req_row m)) (r_OrganizationID (req_row m))
  end.

(** The state a request goes back to. *)
Definition revert_of (state : RequestState) : RequestState :=
  if (state != State.PAUSED) && (state != State.MANUAL_APPROVAL_REQUIRED) then State.PENDING else state.

Definition missing_params (d : DefRow) (m : Jsm) : list string :=
  List.filter (fun name => negb (existsb (String.eqb name) (configured d (req_row m)))
                           && negb (existsb (fun p => Name (p_nv p) == name) (default [] (i_params (Request m)))))
    (required_params d).

(** [Validate]: the state machine is changed also when it fails. *)
Definition Validate (m : Jsm) : SM (Jsm * option serror) :=
  let m := with_revertState m (revert_of (r_JobState (req_row m))) in
  params <- (match i_params (Request m) with
             | Some _ => sret (inl m)
             | None =>
                 loaded <- sattempt (mgr (repo (Requests.GetParams (r_ID (req_row m))))) ;;
                 sret (match loaded with inl ps => inl (SetParams m (map param_of ps)) | inr e => inr e end)
             end) ;;
  match params with
  | inr e => sret (m, Some e)
  | inl m =>
      user <- (if r_UserID (req_row m) != "" then
                 u <- sattempt (mgr (GetUser (r_UserID (req_row m)))) ;;
                 sret (match u with inl u => inl (Some u) | inr e => inr e end)
               else sret (inl None)) ;;
      match user with
      | inr e => sret (m, Some e)
      | inl u =>
          let m := with_User m u in
          def <- sattempt (mgr (GetJobDefinition (QueryContext m) (r_JobDefinitionID (req_row m)))) ;;
          match def with
          | inr e => sret (m, Some e)
          | inl d =>
              match Job.Validate cron_valid MatchEmail (definition_of d) with
              | Panic => crash
              | Error e => sret (with_JobDefinition m (Some (d, definition_of d)), Some (InvalidDefinition e))
              | Return jd =>
                  let m := with_JobDefinition m (Some (d, jd)) in
                  owner <- (match User m with
                            | None => if (d_UserID d != "") && negb (d_PublicPlugin d) then
                                        u <- sattempt (mgr (GetUser (d_UserID d))) ;;
                                        sret (match u with inl u => inl (Some u) | inr e => inr e end)
                                      else sret (inl None)
                            | Some u => sret (inl (Some u))
                            end) ;;
                  match owner with
                  | inr e => sret (m, Some e)
                  | inl u =>
                      let m := with_User m u in
                      match missing_params d m with
                      | [] => sret (m, None)
                      | missing => sret (m, Some (RequiredParams missing))
                      end
                  end
              end
          end
      end
  end.

(** *** Filters *)
Definition SkipIf (jd : Job.JobDefinition) : string :=
  if negb (Job.UsesTemplate jd) || (Job.shouldSkip jd != "") then Job.shouldSkip jd
  else let tag := ParseYamlTag (Job.RawYaml jd) "skip_if:" in if tag == "" then "none" else tag.

Definition job_ShouldSkip (jd : Job.JobDefinition) (r : RequestRow) : bool :=
  if SkipIf jd == "" then false
  else match render (SkipIf jd) r with Some text => Contains text "true" | None => false end.

Definition ShouldSkip (m : Jsm) : option serror :=
  match JobDefinition m with
  | None => None
  | Some (_, jd) => if SkipIf jd == "" then None
                    else if job_ShouldSkip jd (req_row m) then Some JobFiltered else None
  end.

Definition DeleteFilteredCronJobs (d : DefRow) : bool :=
  if d_CronTrigger d == "" then false else DeleteFilteredCronJobs_variable d.

(** *** Limits and resources *)
(** Without a user the quota check reads a nil pointer. *)
Definition CheckSubscriptionQuota (m : Jsm) : SM unit :=
  match User m with
  | Some u => mgr (JobManager.Manager.CheckSubscriptionQuota (QueryContext m) u)
  | None => if SubscriptionQuotaEnabled && AuthEnabled then crash else sret tt
  end.

Definition job_methods (jd : Job.JobDefinition) : list TaskMethod :=
  map TrimSpace (Split (Job.Methods jd) ","%char).

Definition CheckAntResourcesAndConcurrencyForJob (m : Jsm) (s : SS) : option serror :=
  match JobDefinition m with
  | None => None
  | Some (d, jd) =>
      let reg := registry (ms s) in
      if JobStats.wrap32 (Job.MaxConcurrency jd) <=? Registry.GetExecutionCount reg (key_of_row (req_row m)) then Some TooManyJobs
      else
        let '(byUser, byOrg) := Registry.UserOrgExecuting reg (summary (req_row m)) in
        let owned := (d_UserID d != "") || (d_OrganizationID d != "") in
        if owned && match User m with Some u => a_MaxConcurrency u <=? Z.of_nat byUser | None => false end
        then Some TooManyUserJobs
        else if owned && match User m with
                         | Some u => match org_MaxConcurrency u with Some n => n <=? Z.of_nat byOrg | None => false end
                         | None => false
                         end
        then Some TooManyOrgJobs
        else match Resource.Manager.HasAntsForJobTags resource_cfg now (alloc s) (job_methods jd) (SplitTags (Job.jd_Tags jd)) with
             | Some e => Some (NoAnts e)
             | None => None
             end
  end.

Definition ReserveJobResources (m : Jsm) : SM (Jsm * option serror) :=
  fun s =>
    match JobDefinition m with
    | None => (Crash, s)
    | Some (_, jd) =>
        match Resource.Manager.ReserveJobResources resource_cfg now (alloc s) (r_ID (req_row m)) (Job.Tasks jd) with
        | Return (reservations, a) => (Ok (with_Reservations m reservations, None), set_alloc a s)
        | Error (e, reservations, a) => (Ok (with_Reservations m reservations, Some (NotReserved e)), set_alloc a s)
        | Panic => (Crash, s)
        end
    end.

Definition forceReleaseJobResources (m : Jsm) : SM unit :=
  fun s => (Ok tt, set_alloc (Resource.Manager.ReleaseJobResources (alloc s) (r_ID (req_row m))) s).

(** *** Messages *)
Definition publishJobWebhook (m : Jsm) (d : DefRow) (e : ExecRow) : SM unit :=
  if has_webhook d (req_row m) then
    sattempt (mgr (publish (JobWebhook (r_UserID (req_row m)) (r_ID (req_row m)) (e_ID e) (e_JobState e)))) ;;; sret tt
  else sret tt.

(** The message is checked before it is sent; a missing definition is read. *)
Definition sendJobExecutionLifecycleEvent (m : Jsm) : SM unit :=
  match JobExecution m with
  | None => sthrow LaunchInvalid
  | Some e =>
      match JobDefinition m with
      | None => crash
      | Some (d, _) =>
          publishJobWebhook m d e ;;;
          if (e_ID e == "") || (r_ID (req_row m) == "") || (r_JobType (req_row m) == "") || (e_JobState e == "")
          then sthrow LaunchInvalid
          else mgr (publish (JobExecutionLifecycle (r_UserID (req_row m)) (r_ID (req_row m)) (r_JobType (req_row m))
                               (e_ID e) (e_JobState e) (r_JobPriority (req_row m))))
      end
  end.

(** *** Failures *)
(** The delay before a retry, which the definition keeps. *)
Definition GetDelayBetweenRetries (m : Jsm) : Z * Jsm :=
  match JobDefinition m with
  | None => (1000000000, m)
  | Some (d, jd) =>
      let '(delay, jd) := Job.GetDelayBetweenRetries ForAttempt random_delay (r_Retried (req_row m)) jd in
      (delay, with_JobDefinition m (Some (d, jd)))
  end.

Definition failed_execution (m : Jsm) (newState : RequestState) (message code : string) (e : ExecRow) : ExecRow :=
  set_e_JobRequestID (r_ID (req_row m)) (set_e_ErrorCode code (set_e_ErrorMessage message
    (set_e_JobState newState (set_e_EndedAt (Some now) e)))).

Definition failed (m : Jsm) (oldState : RequestState) (cancelled : bool) (err : serror) (errorCode : string)
    : SM (Jsm * option serror) :=
  let errorCode := if errorCode == "" then ErrorCodes.ErrorJobExecute else errorCode in
  let m := SetJobState m State.FAILED in
  let newState := if cancelled then State.CANCELLED else State.FAILED in
  let errorCode := if cancelled then ErrorCodes.ErrorJobCancelled else errorCode in
  let message := describe err in
  saved <- (match JobExecution m with
            | None => sret (m, None)
            | Some e =>
                let e := failed_execution m newState message errorCode e in
                let '(delay, m) := GetDelayBetweenRetries (with_JobExecution m (Some e)) in
                r <- sattempt (mgr (FinalizeJobRequestAndExecutionState (QueryContext m) (Request m) e oldState delay
                                      (r_Retried (req_row m)))) ;;
                mgr (audit (r_ID (req_row m)) JobRequestFailed) ;;;
                sret (m, Some (match r with inl _ => None | inr e => Some e end))
            end) ;;
  let '(m, outcome) := saved in
  let '(delay, m) := GetDelayBetweenRetries m in
  match outcome with
  | Some None => sret (m, None)
  | _ =>
      let m := SetJobState m newState in
      r <- sattempt (mgr (UpdateJobRequestState (QueryContext m) (Request m) oldState newState message errorCode delay 0 false)) ;;
      sret (m, match r with inl _ => None | inr e => Some e end)
  end.

(** The error of a state machine call as the error of its caller. *)
Definition fail_with (m : Jsm) (e : option serror) : SM unit :=
  match e with Some e => sthrow e | None => sret tt end.

Definition ScheduleFailed (m : Jsm) (err : serror) (errorCode : string) : SM unit :=
  r <- failed m (revertState m) false err errorCode ;; fail_with (fst r) (snd r).

Definition LaunchFailed (m : Jsm) (err : serror) : SM unit :=
  r <- failed m State.READY false err "" ;;
  sattempt (sendJobExecutionLifecycleEvent (fst r)) ;;;
  fail_with (fst r) (snd r).

Definition RevertRequestToPendingPaused (m : Jsm) (err : serror) : SM unit :=
  forceReleaseJobResources m ;;;
  let '(delay, m) := GetDelayBetweenRetries m in
  r <- sattempt (mgr (UpdateJobRequestState (QueryContext m) (Request m) State.READY (revertState m) (describe err) ""
                        delay 0 false)) ;;
  let m := SetJobState m (revertState m) in
  deleted <- (match JobExecution m with
              | None => sret None
              | Some e => d <- sattempt (mgr (repo (Executions.Delete (e_ID e)))) ;; sret (Some d)
              end) ;;
  match deleted, r with
  | Some (inr e), _ => sthrow e
  | _, inr e => sthrow e
  | _, inl _ => sret tt
  end.

Definition RestartJobBackToPendingPaused (m : Jsm) (err : serror) : SM unit :=
  forceReleaseJobResources m ;;;
  let '(delay, m) := GetDelayBetweenRetries m in
  let r := set_r_Retried (r_Retried (req_row m) + 1) (set_r_PausedCount (r_PausedCount (req_row m) + 1) (req_row m)) in
  let m := with_Request m (mkIJobRequest r (i_params (Request m))) in
  mgr (UpdateJobRequestState (QueryContext m) (Request m) State.EXECUTING (revertState m) (describe err) "" delay
         (r_Retried r) true).

(** The running quota: the usage before the job is that of the state machine,
    which only the scheduler's own check sets. *)
Definition UpdateJobRequestTimestampAndCheckQuota (m : Jsm) (usedBefore : Z) : SM unit :=
  (if SubscriptionQuotaEnabled && AuthEnabled then
     match User m with
     | None => sthrow UserNotFound
     | Some u =>
         if snd (Users.IsAdmin (a_user u)) then sret tt
         else match a_subscription u, JobExecution m with
              | None, _ => sthrow SubscriptionMissing
              | Some sub, e =>
                  if Expired sub then sthrow SubscriptionExpired
                  else match e with
                       | None => crash
                       | Some e => if CPUQuota sub <=? usedBefore + Z.quot (now - e_StartedAt e) 1000000000
                                   then sthrow RunningQuotaExceeded else sret tt
                       end
              end
     end
   else sret tt) ;;;
  mgr (repo (Requests.UpdateRunningTimestamp (r_ID (req_row m)))).

(** *** Launching *)
Definition sendLaunchJobEvent (m : Jsm) : SM unit :=
  let executionID := match JobExecution m with Some e => e_ID e | None => "" end in
  let l := mkLaunch (r_UserID (req_row m)) (r_ID (req_row m)) (r_JobType (req_row m)) executionID (Reservations m) in
  if (l_JobExecutionID l == "") || (l_JobRequestID l == "") || (l_JobType l == "") then LaunchFailed m LaunchInvalid
  else fun s =>
    let sent := if send_ok (sends s) then launches s ++ [l] else launches s in
    (if send_ok (sends s) then Ok tt else Err NotSent,
     mkSS (ms s) (alloc s) sent (S (sends s)) (backoffUntil s) (backoffAttempt s) (totalPendingJobs s)
       (totalScheduledJobs s) (supervisors s)).

Definition NewJobExecution (r : RequestRow) : ExecRow :=
  mkExecRow "" (r_ID r) false (r_JobType r) (r_JobVersion r) State.READY 0 (r_UserID r) (r_OrganizationID r) "" "" ""
    now None now.

(** A new execution; when it cannot be saved, the object is kept with the error. *)
Definition new_execution (o : Executions.ExecObj) : SM (option ExecRow * option serror) :=
  fun s =>
    let left := ExecutionSave.left_by_Save (cost_when_saved (Executions.xo_row o)) o (store (ms s)) in
    match mgr (JobManager.Manager.CreateJobExecution o) s with
    | (Ok x, s') => (Ok (Some (Executions.xo_row x), None), s')
    | (Err e, s') => (Ok (Executions.xo_row <$> left, Some e), s')
    | (Crash, s') => (Crash, s')
    | (Hang, s') => (Hang, s')
    end.

(** The execution of the request: the old one if it has not ended, else a new one. *)
Definition obtain_execution (m : Jsm) : SM (option ExecRow * option serror) :=
  old <- (if text (r_JobExecutionID (req_row m)) != "" then
            e <- sattempt (mgr (repo (Executions.Get (text (r_JobExecutionID (req_row m)))))) ;;
            sret (match e with
                  | inl e => if State.IsTerminal (e_JobState (fst e)) then None else Some (fst e)
                  | inr _ => None
                  end)
          else sret None) ;;
  match old with
  | None => new_execution (Executions.mkExecObj (NewJobExecution (req_row m)) [] [])
  | Some e =>
      let e := set_e_JobRequestID (r_ID (req_row m)) e in
      r <- sattempt (mgr (ResetJobExecutionStateToReady e)) ;;
      sret (match r with inl _ => (Some e, None) | inr err => (None, Some err) end)
  end.

(** [CreateJobExecution]: the error of the database and that of the message. *)
Definition CreateJobExecution (m : Jsm) : SM (Jsm * option serror * option serror) :=
  match JobExecution m with
  | Some _ => sret (m, Some ExecutionExists, None)
  | None =>
      if (r_JobState (req_row m) != State.PENDING) && (r_JobState (req_row m) != State.PAUSED)
      then sret (m, Some (InvalidState (r_JobState (req_row m))), None)
      else
        obtained <- obtain_execution m ;;
        let m := with_JobExecution m (fst obtained) in
        match obtained with
        | (_, Some e) => sret (m, Some (ExecutionNotSaved e), None)
        | (None, None) => crash
        | (Some e, None) =>
            ready <- sattempt (mgr (repo (Requests.SetReadyToExecute (r_ID (req_row m)) (e_ID e)
                                            (text (r_LastJobExecutionID (req_row m)))))) ;;
            match ready with
            | inr e => sret (m, Some (ExecutionNotSaved e), None)
            | inl _ =>
                let m := SetJobState (SetJobExecutionID m (e_ID e)) State.READY in
                sent <- sattempt (sendLaunchJobEvent m) ;;
                sret (m, None, match sent with inl _ => None | inr e => Some (LaunchNotSent e) end)
            end
        end
  end.

(** *** PrepareLaunch *)
Definition unreserved (m : Jsm) (tasks : list Task.TaskDefinition) : option string :=
  match List.find (fun t => match Reservations m !! Task.TaskType t with Some _ => false | None => true end) tasks with
  | Some t => Some (Task.TaskType t)
  | None => None
  end.

Definition PrepareLaunch (m : Jsm) (jobExecutionID : string) : SM (Jsm * option serror) :=
  valid <- Validate m ;;
  match valid with
  | (m, Some e) => sret (m, Some e)
  | (m, None) =>
      let tasks := match JobDefinition m with Some (_, jd) => Job.Tasks jd | None => [] end in
      if jobExecutionID == "" then sret (m, Some ExecutionIDMissing)
      else if negb (size (Reservations m) =? List.length tasks)%nat then sret (m, Some ReservationCount)
      else match unreserved m tasks with
      | Some taskType => sret (m, Some (NoReservation taskType))
      | None =>
          exec <- sattempt (mgr (repo (Executions.Get jobExecutionID))) ;;
          match exec with
          | inr e => sret (m, Some e)
          | inl (e, _) =>
              let m := with_JobExecution m (Some e) in
              if jobExecutionID != text (r_JobExecutionID (req_row m)) then sret (m, Some ExecutionMismatch)
              else
                last <- (if text (r_LastJobExecutionID (req_row m)) != "" then
                           x <- sattempt (mgr (repo (Executions.Get (text (r_LastJobExecutionID (req_row m)))))) ;;
                           sret (match x with inl x => Some (fst x) | inr _ => None end)
                         else sret None) ;;
                let m := with_LastJobExecution m last in
                if (r_JobState (req_row m) != State.READY) || (e_JobState e != State.READY)
                then sret (m, Some (NotReady (r_JobState (req_row m)) (e_JobState e)))
                else sret (m, None)
          end
      end
  end.
End Fsm.
End Fsm.

(** ** Scheduling: job_scheduler.go and job_scheduler_subscription.go *)
Module Scheduling.
Import Rows NameValue Schedule Request JobManager.Manager Fsm.
Open Scope sched_scope.

Section Scheduling.
Context `{env : Store.Env, cron : Schedule.Cron, dec : Decoder, ord : RangeOrder, calls : Calls, sched : Fsm.Scheduling}.
Abbreviation now := Store.now.

(** The columns that the query of the scheduler reads; the others keep the zero
    values of the record. *)
Definition info_of (r : RequestRow) : IJobRequest :=
  mkIJobRequest (set_r_PausedCount 0 (set_r_HardRestart false r)) None.

(** The wait and the loss of priority of a request that found no ants. *)
Definition schedule_secs (scheduleAttempts : Z) : Z :=
  Rolling.Min (Z.quot NotReadyJobsMaxWait 1000000000) (scheduleAttempts * 5).
Definition decr_priority (scheduleAttempts priority : Z) : Z :=
  if (5 <=? scheduleAttempts) && (Z.rem scheduleAttempts 5 =? 0) && (5 <? priority) then 1 else 0.

(** No ants now: again later, unless the attempts are used up. *)
Definition not_available (m : Jsm) (e : serror) : SM unit :=
  let r := req_row m in
  if MaxScheduleAttempts <? r_ScheduleAttempts r + 1
  then ScheduleFailed m (AllocationAttempts e) ErrorCodes.ErrorAntResources
  else
    let scheduleAttempts := r_ScheduleAttempts r + 1 in
    let wait := schedule_secs scheduleAttempts * 1000000000 in
    let decrPriority := decr_priority scheduleAttempts (r_JobPriority r) in
    let r := set_r_JobPriority (r_JobPriority r - decrPriority) (set_r_ScheduledAt (r_ScheduledAt r + wait) r) in
    sattempt (mgr (IncrementScheduleAttemptsForJobRequest r wait decrPriority (describe e))) ;;;
    sthrow (NotAvailable e).

(** A filtered job fails, and a cron job may be removed; this counts as done. *)
Definition skip_job (m : Jsm) (e : serror) : SM unit :=
  sattempt (ScheduleFailed m e ErrorCodes.ErrorFilteredJob) ;;;
  match JobDefinition m with
  | Some (d, _) =>
      if DeleteFilteredCronJobs d
      then sattempt (mgr (repo (Requests.Delete (Query.NewQueryContext None) (r_ID (req_row m))))) ;;; sret tt
      else sret tt
  | None => sret tt
  end.

(** The execution is created and the launch message sent. *)
Definition launch (m : Jsm) : SM unit :=
  created <- CreateJobExecution m ;;
  match created with
  | (m, Some dbError, _) => ScheduleFailed m dbError ErrorCodes.ErrorJobExecute
  | (m, None, Some eventError) => RevertRequestToPendingPaused m eventError
  | (_, None, None) => sret tt
  end.

Definition reserve_and_launch (m : Jsm) : SM unit :=
  reserved <- ReserveJobResources m ;;
  match reserved with
  | (m, Some e) =>
      if MaxScheduleAttempts <? r_ScheduleAttempts (req_row m) + 1
      then ScheduleFailed m ReservationAttempts ErrorCodes.ErrorAntResources
      else sthrow e
  | (m, None) => launch m
  end.

Definition scheduleJob (request : IJobRequest) : SM unit :=
  valid <- Validate (NewJobExecutionStateMachine request ∅) ;;
  match valid with
  | (m, Some e) => ScheduleFailed m (NotValidated e) ErrorCodes.ErrorValidation
  | (m, None) =>
      quota <- sattempt (CheckSubscriptionQuota m) ;;
      match quota with
      | inr e => ScheduleFailed m e ErrorCodes.ErrorQuotaExceeded
      | inl _ =>
          match ShouldSkip m with
          | Some e => skip_job m e
          | None =>
              fun s => match CheckAntResourcesAndConcurrencyForJob m s with
                       | Some e => not_available m e s
                       | None => reserve_and_launch m s
                       end
          end
      end
  end.

(** The loop over the due requests: the number of those scheduled. *)
Fixpoint schedule_each (requests : list RequestRow) (scheduled : Z) : SM Z :=
  match requests with
  | [] => sret scheduled
  | r :: rest =>
      done <- sattempt (scheduleJob (info_of r)) ;;
      schedule_each rest (match done with inl _ => scheduled + 1 | inr _ => scheduled end)
  end.

Definition back_off : SM unit :=
  fun s => (Ok tt, set_backoff (now + backoff_Duration (backoffAttempt s)) (S (backoffAttempt s)) s).

(** [Stop] called by the pass that holds the lock: once the subscription has
    ended it waits for this lock. *)
Definition stop_while_locked {A} : SM A :=
  fun s => if unsubscribe_ok then (Hang, s) else (Err ShuttingDown, s).

Definition count_totals (pending scheduled : Z) : SM unit :=
  fun s => (Ok tt, set_totals ((totalPendingJobs s + pending) mod 2 ^ 64) ((totalScheduledJobs s + scheduled) mod 2 ^ 64) s).

Definition schedulePendingJobs : SM unit :=
  fun s =>
    if now <? backoffUntil s then (Ok tt, s)
    else (if server_shutting_down then stop_while_locked
          else if negb healthy then back_off ;;; sthrow Unhealthy
          else
            found <- sattempt (mgr (repo (Requests.NextSchedulableJobsByTypes [] [State.PENDING; State.PAUSED] 1000))) ;;
            match found with
            | inr e => back_off ;;; sthrow e
            | inl [] => back_off ;;; sthrow NoPendingJobs
            | inl requests =>
                count_totals (Z.of_nat (List.length requests)) 0 ;;;
                scheduled <- schedule_each requests 0 ;;
                count_totals 0 scheduled ;;;
                if 0 <? scheduled then (fun s => (Ok tt, set_backoff 0 0 s)) else sret tt
            end) s.

(** *** Orphans and missing cron jobs *)
Definition scheduleOrphanJobs : SM unit :=
  mgr (repo (Requests.RequeueOrphanRequests OrphanRequestsTimeout)) ;;; sret tt.

(** [GetJobTypesAndCronTrigger] of all tenants, without those that have none. *)
Definition trigger_of (d : DefRow) : Requests.JobTypeCronTrigger :=
  Requests.mkJobTypeCronTrigger (d_JobType d) (d_OrganizationID d) (d_UserID d) "" (d_CronTrigger d).
Definition same_trigger (a b : Requests.JobTypeCronTrigger) : bool :=
  (Requests.ct_JobType a == Requests.ct_JobType b) && (Requests.ct_OrganizationID a == Requests.ct_OrganizationID b)
  && (Requests.ct_UserID a == Requests.ct_UserID b) && (Requests.ct_CronTrigger a == Requests.ct_CronTrigger b).
Definition distinct (l : list Requests.JobTypeCronTrigger) : list Requests.JobTypeCronTrigger :=
  foldr (fun t rest => if existsb (same_trigger t) rest then rest else t :: rest) [] l.
Definition GetCronTriggeredJobTypes : MM (list Requests.JobTypeCronTrigger) :=
  bind (repo (Store.query Store.DBError (fun d =>
          sort_slice (fun a b => String.ltb (Requests.ct_JobType a) (Requests.ct_JobType b))
            (take (Z.to_nat 1000000) (distinct (map trigger_of (Sql.select d_Active (definitions d))))))))
    (fun all => ret (List.filter (fun t => Requests.ct_CronTrigger t != "") all)).

(** The request of a job whose next run is missing; failures are passed over. *)
Definition schedule_missing (t : Requests.JobTypeCronTrigger) : SM unit :=
  let qc := NewQueryContextFromIDs (Requests.ct_UserID t) (Requests.ct_OrganizationID t) in
  def <- sattempt (mgr (GetJobDefinitionByType qc (Requests.ct_JobType t) "")) ;;
  match def with
  | inr _ => sret tt
  | inl d =>
      match NewJobRequestFromDefinition now d with
      | None => sret tt
      | Some request => sattempt (mgr (SaveJobRequest qc request)) ;;; sret tt
      end
  end.
Fixpoint schedule_all_missing (l : list Requests.JobTypeCronTrigger) : SM unit :=
  match l with
  | [] => sret tt
  | t :: rest => schedule_missing t ;;; schedule_all_missing rest
  end.

Definition cronTriggeredJobChunkSize : nat := 100.
(** The batches; [fuel] bounds their number. *)
Fixpoint schedule_batches (fuel : nat) (jobTypes : list Requests.JobTypeCronTrigger) : SM unit :=
  match fuel, jobTypes with
  | _, [] => sret tt
  | O, _ => sret tt
  | S fuel, _ =>
      missing <- mgr (FindMissingCronScheduledJobsByType (take cronTriggeredJobChunkSize jobTypes)) ;;
      schedule_all_missing missing ;;;
      schedule_batches fuel (drop cronTriggeredJobChunkSize jobTypes)
  end.
Definition scheduleCronTriggeredJobs : SM unit :=
  jobTypes <- mgr GetCronTriggeredJobTypes ;;
  schedule_batches (List.length jobTypes) jobTypes.
End Scheduling.
End Scheduling.

(** ** Launching: job_launcher.go *)
Module Launching.
Import Rows NameValue Schedule Request JobManager.Manager Fsm.
Open Scope sched_scope.

Section Launching.
Context `{env : Store.Env, cron : Schedule.Cron, dec : Decoder, ord : RangeOrder, calls : Calls, sched : Fsm.Scheduling}.

(** A request loaded with its parameters. *)
Definition load_request (id : string) : SM IJobRequest :=
  r <- mgr (GetJobRequest (WithAdmin (Query.NewQueryContext None)) id) ;;
  fun s => (Ok (mkIJobRequest r (Some (map param_of (Sql.select (fun o => o_Owner o == r_ID r)
                                                      (params (Store.db (store (ms s)))))))), s).

Definition addSupervisor (requestID executionID : string) : SM unit :=
  fun s => (Ok tt, set_supervisors (<[requestID := executionID]> (supervisors s)) s).

Definition requeued (e : serror) : bool := match e with NoReservation _ => true | _ => false end.

Definition launchJob (requestID jobExecutionID : string) (reservations : gmap string Ants.AntReservation) : SM unit :=
  request <- load_request requestID ;;
  prepared <- PrepareLaunch (NewJobExecutionStateMachine request reservations) jobExecutionID ;;
  match prepared with
  | (m, Some e) => if requeued e then RevertRequestToPendingPaused m e else LaunchFailed m e
  | (_, None) => addSupervisor requestID jobExecutionID
  end.

(** The callback of the launch topic; failures are only logged. *)
Definition on_launch (l : Launch) : SM unit :=
  if (l_JobExecutionID l == "") || (l_JobRequestID l == "") || (l_JobType l == "") then sthrow LaunchInvalid
  else sattempt (launchJob (l_JobRequestID l) (l_JobExecutionID l) (l_Reservations l)) ;;; sret tt.

(** The callback of the life cycle topic: a supervisor of a job that has ended is
    dropped; whether the event is forwarded to it. *)
Definition removeSupervisor (requestID : string) (state : RequestState) : SM bool :=
  fun s =>
    let forwarded := match supervisors s !! requestID with
                     | Some _ => (state == State.CANCELLED) || (state == State.PAUSED)
                     | None => false
                     end in
    (Ok forwarded, set_supervisors (delete requestID (supervisors s)) s).
Definition on_lifecycle (requestID : string) (state : RequestState) : SM bool :=
  if State.IsTerminal state then removeSupervisor requestID state else sret false.
End Launching.
End Launching.
