(* ===== verification/SchedulerSpec.v ===== *)
(** * SchedulerSpec: what scheduling guarantees

    A launch message is sent only for a job within its limits, whose request and
    execution are ready and whose tasks all have an ant that holds them; a request
    that finds no ants is put off by a bounded delay, and what the failure paths
    leave behind is shown on examples. *)

From S2P Require Import Prelude RequestState Acl Tags Resource ResourceSpec JobDefinition JobSpec Approval Stats StatsSpec Tables.
From S2P Require Import JobStore JobStoreSpec DefinitionSpec JobRequest JobManager JobManagerSpec Scheduler.

Open Scope Z_scope.

(** ** Reservations of a whole job *)
Section Reserving.
Import Ants Alloc.
Context `{ord : RangeOrder}.

(** The ant of the reservation holds the task for the request. *)
Definition held (a : State) (q t : string) (res : AntReservation) : Prop :=
  res_JobRequestID res = q /\ res_TaskType res = t /\
  exists allocs al, allocationsByAnt a !! res_AntID res = Some allocs /\ allocs !! q = Some al /\
    task_types al !! t = Some State.RESERVED.

Lemma reserve_held now timeout s q t m tags res s' :
  wf s -> reserve now timeout s q t m tags false = Return (res, s') ->
  held s' q t res /\ forall t' res', held s q t' res' -> held s' q t' res'.
Proof.
  intros Hs E. pose proof (reserve_cases now timeout s q t m tags false Hs) as HC.
  rewrite E in HC. destruct HC as (_ & r & Hr & _ & Hq & Ht & _ & _ & allocs & Hal & _ & ->). split.
  - split_and!; try done. cbn. exists (<[q := reserved_allocation now allocs (res_AntID res) (AntTopic r) q t]> allocs),
      (reserved_allocation now allocs (res_AntID res) (AntTopic r) q t).
    rewrite !lookup_insert_eq. split_and!; try done.
    unfold reserved_allocation. destruct (allocs !! q); cbn; [by rewrite lookup_insert_eq|].
    apply lookup_insert_eq.
  - intros t' res' (H1 & H2 & allocs' & al & Ha & Hl & Hty). split_and!; try done. cbn.
    destruct (decide (res_AntID res = res_AntID res')) as [Heq|Hne].
    + rewrite <- Heq in *. rewrite lookup_insert_eq. eexists _, _. rewrite lookup_insert_eq. split_and!; [done..|].
      assert (allocs = allocs') as -> by congruence. unfold reserved_allocation. rewrite Hl. cbn.
      destruct (decide (t = t')) as [->|]; [by rewrite lookup_insert_eq|by rewrite lookup_insert_ne].
    + rewrite lookup_insert_ne by done. eauto.
Qed.

Lemma reserve_tasks_held {T} `{TaskSpec T} cfg now (tasks : list T) q : forall s acc m s',
  wf s -> Resource.Manager.reserve_tasks cfg now s q tasks false acc = Return (m, s') ->
  (forall t res, acc !! t = Some res -> held s q t res) ->
  (forall t res, m !! t = Some res -> held s' q t res) /\
  dom m = dom acc ∪ list_to_set (map task_type tasks).
Proof.
  induction tasks as [|task rest IH]; intros s acc m s' Hs; cbn [Resource.Manager.reserve_tasks].
  { intros [= -> ->] Ha. split; [done|]. set_solver. }
  destruct (Resource.Manager.doReserve _ _ _ _ _ _ _ _) as [[res s1]|e|] eqn:E; [|discriminate..].
  unfold Resource.Manager.doReserve in E. destruct (task_method task == ""); [discriminate|].
  intros HR Ha. pose proof (reserve_held _ _ _ _ _ _ _ _ _ Hs E) as [H1 H2].
  destruct (IH s1 (<[task_type task := res]> acc) m s') as [Hm Hd].
  - eapply reserve_wf; eassumption.
  - exact HR.
  - intros t' res'. intros [[<- <-]|[Hne Hl]]%lookup_insert_Some; [done|]. apply H2, Ha, Hl.
  - split; [done|]. rewrite Hd, dom_insert_L. cbn. set_solver.
Qed.
End Reserving.

(** ** Rows that become ready *)
Section Ready.
Import Rows Store.
Context `{env : Store.Env}.

Lemma bind_lift {A B} (m : M A) (k : A -> ExecutionSave.MO B) o s :
  ExecutionSave.bind_o (ExecutionSave.lift m) k o s =
  match m s with (inl a, s1) => k a o s1 | (inr e, s1) => (inr e, o, s1) end.
Proof. unfold ExecutionSave.bind_o, ExecutionSave.lift. by destruct (m s) as [[a|e] s1]. Qed.
Lemma bind_set {B} o' (k : unit -> ExecutionSave.MO B) o s :
  ExecutionSave.bind_o (ExecutionSave.set_object o') k o s = k tt o' s.
Proof. done. Qed.
Lemma bind_object {B} (k : Executions.ExecObj -> ExecutionSave.MO B) o s :
  ExecutionSave.bind_o ExecutionSave.object k o s = k o o s.
Proof. done. Qed.

(** Run the next statement of a save; when it fails the object is as it was. *)
Ltac save_step :=
  cbv beta; rewrite ?bind_object, ?bind_set, ?bind_lift; cbv beta;
  lazymatch goal with
  | |- match ?x with _ => _ end = _ -> _ => destruct x as [[?|?] ?] eqn:?; [|by intros [= _ <- _]]
  end.

Lemma save_tasks_row fuel : forall i o s r o' s',
  ExecutionSave.save_tasks fuel i o s = (r, o', s') -> Executions.xo_row o' = Executions.xo_row o.
Proof.
  induction fuel as [|fuel IH]; intros i o s r o' s'; cbn [ExecutionSave.save_tasks]; [by intros [= _ <- _]|].
  rewrite bind_object. destruct (Executions.xo_tasks o !! i) as [t|]; [|by intros [= _ <- _]].
  do 4 save_step. intros HS%IH. exact HS.
Qed.

(** Saving an execution keeps its state. *)
Lemma save_body_state cost o s r o' s' :
  ExecutionSave.save_body cost o s = (r, o', s') ->
  e_JobState (Executions.xo_row o') = e_JobState (Executions.xo_row o).
Proof.
  unfold ExecutionSave.save_body. do 3 save_step.
  assert (e_JobState e = e_JobState (Executions.xo_row o)) as He.
  { match goal with H : (if _ then _ else _) _ = (inl e, _) |- _ => rename H into E3 end.
    destruct (State.CanFinalize _); [|by injection E3 as <- _]. apply bind_inl in E3 as (c & s4 & _ & [= <- _]). done. }
  do 2 save_step. intros HS%save_tasks_row. by rewrite HS.
Qed.

Lemma save_loop_state cost isNew n : forall last o s r o' s',
  ExecutionSave.save_loop cost isNew n last o s = (r, o', s') ->
  e_JobState (Executions.xo_row o') = e_JobState (Executions.xo_row o).
Proof.
  induction n as [|n IH]; intros last o s r o' s'; cbn [ExecutionSave.save_loop]; [by intros [= _ <- _]|].
  set (o0 := if isNew then _ else o). assert (e_JobState (Executions.xo_row o0) = e_JobState (Executions.xo_row o)) as H0
    by (subst o0; by destruct isNew). rewrite <- H0. clearbody o0. clear H0.
  unfold ExecutionSave.attempt. destruct (ExecutionSave.save_body cost o0 s) as [[r1 o1] s1] eqn:EB.
  apply save_body_state in EB. rewrite <- EB. destruct r1 as [u|e].
  - destruct (err (statements s1)); [|by intros [= _ <- _]].
    destruct (ExecutionSave.isDeadlockError _); [apply IH|by intros [= _ <- _]].
  - destruct (ExecutionSave.isDeadlockError _); [apply IH|by intros [= _ <- _]].
Qed.

(** A new execution is in the table, in the state it was given. *)
Lemma created_execution cost o s o' s' :
  e_ID (Executions.xo_row o) = "" -> ExecutionSave.Save cost (Some o) s = (inl o', s') ->
  Executions.xo_row o' ∈ executions (db s') /\ e_JobState (Executions.xo_row o') = e_JobState (Executions.xo_row o).
Proof.
  intros Hid. unfold ExecutionSave.Save. destruct (negb _); [discriminate|].
  destruct (ExecutionSave.save_loop _ _ _ _ _ _) as [[[u|e] o1] s1] eqn:EL; [|discriminate]. intros [= <- <-].
  pose proof (save_loop_state _ _ _ _ _ _ _ _ _ EL) as Hst. split; [|exact Hst].
  apply (save_loop_spec cost _ _ _ o) in EL; [|by left|unfold ExecutionSave.maxRetries; lia].
  apply (saved_row _ _ _ _ EL). by left.
Qed.

(** One row that satisfies the condition and was updated. *)
Lemma updated_one {A} (p : A -> bool) f t : Sql.count p t = 1 -> exists x, x ∈ t /\ p x = true /\ f x ∈ Sql.update p f t.
Proof.
  intros Hc. destruct (count_pos p t) as (x & Hx & Hp); [lia|]. exists x. split_and!; try done.
  apply elem_of_update. exists x. by rewrite Hp.
Qed.

Lemma reset_execution id s u s' :
  Executions.ResetStateToReady id s = (inl u, s') ->
  exists e, e ∈ executions (db s') /\ e_ID e = id /\ e_JobState e = State.READY.
Proof.
  intros HT%transaction_inv. destruct HT as (s1 & (n & s2 & [HE _]%exec_inl & [-> ->]%expect_one_inl)%bind_inl & ->).
  injection HE as Hc Hd. rewrite <- Hd. cbn.
  destruct (updated_one _ (fun e => set_e_UpdatedAt now (set_e_JobState State.READY e)) _ Hc) as (x & Hx & Hp & Hin).
  eexists. split; [exact Hin|]. split; [|done]. apply andb_true_iff in Hp as [Hp _]. by apply String.eqb_eq in Hp.
Qed.

Lemma request_made_ready id execID last s u s' :
  Requests.SetReadyToExecute id execID last s = (inl u, s') ->
  executions (db s') = executions (db s) /\
  exists r, r ∈ requests (db s') /\ r_ID r = id /\ r_JobState r = State.READY /\ r_JobExecutionID r = Some execID.
Proof.
  unfold Requests.SetReadyToExecute. destruct (id == ""); [discriminate|]. destruct (execID == ""); [discriminate|].
  intros (total & s1 & [_ Hd1]%query_inl & HB)%bind_inl. destruct (total =? 0); [discriminate|].
  apply bind_inl in HB as (n & s2 & [HE _]%exec_inl & HB). destruct (Z.eqb_spec n 1) as [->|]; cycle 1.
  { apply bind_inl in HB as (? & ? & _ & HB). discriminate. }
  injection HB as _ <-. injection HE as Hc Hd. rewrite <- Hd, <- Hd1. cbn. split; [done|].
  match goal with H : Sql.count ?p ?t = 1 |- exists r, r ∈ Sql.update _ ?f _ /\ _ =>
    destruct (updated_one p f t H) as (x & Hx & Hp & Hin) end.
  eexists. split; [exact Hin|]. split_and!; try done. apply andb_true_iff in Hp as [Hp _]. by apply String.eqb_eq in Hp.
Qed.

Lemma definition_loaded qc id s d s' :
  Definitions.Get qc id s = (inl d, s') -> d ∈ definitions (db s) /\ d_ID d = id.
Proof.
  unfold Definitions.Get. destruct (id == ""); [discriminate|].
  intros (o & s1 & [Eo%eq_sym _]%query_inl & (d' & s2 & Ed & Ea)%bind_inl)%bind_inl.
  destruct o as [d1|]; [|discriminate]. injection Ed as <- <-. unfold Definitions.check_access in Ea.
  destruct (negb _ && _ && _); [discriminate|]. injection Ea as <- <-.
  apply first_def_Some in Eo. apply elem_of_select in Eo as [Hin Hp]. split; [done|].
  apply andb_true_iff in Hp as [Hp _]. by apply String.eqb_eq in Hp.
Qed.
End Ready.

(** ** What the calls leave alone *)
Section Frames.
Import Rows JobManager.Manager Fsm.
Context `{env : Store.Env, cron : Schedule.Cron, dec : NameValue.Decoder, ord : RangeOrder, calls : Calls, sched : Fsm.Scheduling}.

Definition keeps {A B} (f : SS -> B) (m : SM A) : Prop := forall s, f (snd (m s)) = f s.

Section Generic.
Context {B : Type} (f : SS -> B).
Lemma keeps_ret {A} (a : A) : keeps f (sret a).
Proof. done. Qed.
Lemma keeps_throw {A} e : keeps f (sthrow (A := A) e).
Proof. done. Qed.
Lemma keeps_crash {A} : keeps f (crash (A := A)).
Proof. done. Qed.
Lemma keeps_bind {A C} (m : SM A) (k : A -> SM C) : keeps f m -> (forall a, keeps f (k a)) -> keeps f (sbind m k).
Proof.
  intros Hm Hk s. unfold sbind. specialize (Hm s). destruct (m s) as [[a|e| |] s1]; cbn in *; try done. by rewrite Hk.
Qed.
Lemma keeps_attempt {A} (m : SM A) : keeps f m -> keeps f (sattempt m).
Proof. intros Hm s. unfold sattempt. specialize (Hm s). by destruct (m s) as [[a|e| |] s1]. Qed.
Lemma keeps_fail m e : keeps f (fail_with m e).
Proof. unfold fail_with. by destruct e. Qed.
End Generic.

(** Calls of the job manager change neither allocations nor launches. *)
Lemma keeps_mgr {A B} (f : SS -> B) (m : MM A) : (forall x s, f (set_ms x s) = f s) -> keeps f (mgr m).
Proof. intros Hf s. unfold mgr. destruct (m (ms s)) as [[a|e] x]; [apply Hf|]. destruct e; apply Hf. Qed.

Lemma mgr_ms {A B} (f : MS -> B) (m : MM A) : (forall s, f (snd (m s)) = f s) -> keeps (fun s => f (ms s)) (mgr m).
Proof. intros Hf s. unfold mgr. specialize (Hf (ms s)). destruct (m (ms s)) as [[a|e] x]; [done|]. by destruct e. Qed.

Lemma sbind_ok {A C} (m : SM A) (k : A -> SM C) s c s' :
  sbind m k s = (Ok c, s') -> exists a s1, m s = (Ok a, s1) /\ k a s1 = (Ok c, s').
Proof. unfold sbind. destruct (m s) as [[a|e| |] s1]; intros E; try discriminate. eauto. Qed.

Lemma sattempt_ok {A} (m : SM A) s r s' :
  sattempt m s = (Ok r, s') -> m s = (match r with inl a => Ok a | inr e => Err e end, s').
Proof. unfold sattempt. destruct (m s) as [[a|e| |] s1]; intros [= <- <-]; done. Qed.

Lemma mgr_ok {A} (m : MM A) s a s' : mgr m s = (Ok a, s') -> exists x, m (ms s) = (inl a, x) /\ s' = set_ms x s.
Proof.
  unfold mgr. destruct (m (ms s)) as [[a'|e] x]; [intros [= <- <-]; eauto|]. by destruct e.
Qed.
End Frames.

Ltac keeps_step :=
  lazymatch goal with
  | |- keeps _ (Fsm.sbind _ _) => apply keeps_bind; [|intros ?]
  | |- keeps _ (Fsm.sattempt _) => apply keeps_attempt
  | |- keeps _ (Fsm.sret _) => apply keeps_ret
  | |- keeps _ (Fsm.sthrow _) => apply keeps_throw
  | |- keeps _ Fsm.crash => apply keeps_crash
  | |- keeps _ (Fsm.fail_with _ _) => apply keeps_fail
  | |- keeps _ (if ?b then _ else _) => destruct b
  | |- keeps _ (match ?x with _ => _ end) => destruct x
  | |- keeps _ (let '(_, _) := ?x in _) => destruct x
  end.

(** ** Launching a due request *)
Abbreviation store_db s := (Store.db (JobManager.Manager.store (Fsm.ms s))).

Section Launch.
Import Rows JobManager.Manager Fsm Scheduler.Scheduling.
Context `{env : Store.Env, cron : Schedule.Cron, dec : NameValue.Decoder, ord : RangeOrder, calls : Calls, sched : Fsm.Scheduling}.

(** A function of the state that no call of the job manager changes. *)
Definition outside {B} (f : SS -> B) : Prop := forall x s, f (set_ms x s) = f s.

Lemma keeps_Validate {B} (f : SS -> B) m : outside f -> keeps f (Validate m).
Proof. intros Hf. unfold Validate. repeat (keeps_step || apply (keeps_mgr f _ Hf)). Qed.
Lemma keeps_quota {B} (f : SS -> B) m : outside f -> keeps f (CheckSubscriptionQuota m).
Proof. intros Hf. unfold CheckSubscriptionQuota. repeat (keeps_step || apply (keeps_mgr f _ Hf)). Qed.
Lemma keeps_failed {B} (f : SS -> B) m o c e code : outside f -> keeps f (failed m o c e code).
Proof. intros Hf. unfold failed. cbv zeta. repeat (keeps_step || apply (keeps_mgr f _ Hf)). Qed.
Lemma keeps_ScheduleFailed {B} (f : SS -> B) m e code : outside f -> keeps f (ScheduleFailed m e code).
Proof. intros Hf. unfold ScheduleFailed. repeat (keeps_step || apply (keeps_failed f _ _ _ _ _ Hf)). Qed.
Lemma keeps_lifecycle {B} (f : SS -> B) m : outside f -> keeps f (sendJobExecutionLifecycleEvent m).
Proof.
  intros Hf. unfold sendJobExecutionLifecycleEvent, publishJobWebhook. repeat (keeps_step || apply (keeps_mgr f _ Hf)).
Qed.
Lemma keeps_LaunchFailed {B} (f : SS -> B) m e : outside f -> keeps f (LaunchFailed m e).
Proof.
  intros Hf. unfold LaunchFailed. repeat (keeps_step || apply (keeps_failed f _ _ _ _ _ Hf) || apply (keeps_lifecycle f _ Hf)).
Qed.
Lemma keeps_obtain {B} (f : SS -> B) m : outside f -> keeps f (obtain_execution m).
Proof.
  intros Hf. unfold obtain_execution. repeat (keeps_step || apply (keeps_mgr f _ Hf)).
  intros s. unfold new_execution. pose proof (keeps_mgr f (JobManager.Manager.CreateJobExecution
    (Executions.mkExecObj (NewJobExecution (req_row m)) [] [])) Hf s) as HK.
  by destruct (mgr _ s) as [[x|e| |] s1].
Qed.

(** *** What validation establishes *)

(** The tables and the statistics are as before. *)
Definition same_data (s s' : SS) : Prop :=
  Store.db (store (ms s')) = Store.db (store (ms s)) /\ registry (ms s') = registry (ms s).

Lemma same_data_refl s : same_data s s.
Proof. done. Qed.
Lemma same_data_trans s1 s2 s3 : same_data s1 s2 -> same_data s2 s3 -> same_data s1 s3.
Proof. intros [H1 H2] [H3 H4]. split; congruence. Qed.

Lemma query_same {A} (m : Store.M A) s r s' :
  (forall d, preserves (fun x => x = d) m) -> mgr (repo m) s = (r, s') -> same_data s s'.
Proof.
  intros Hm. unfold mgr, repo. specialize (Hm _ (store (ms s)) eq_refl).
  destruct (m (store (ms s))) as [[a|e] st]; intros [= <- <-]; split; done.
Qed.
Lemma attempt_same {A} (m : SM A) s r s' : (forall r s', m s = (r, s') -> same_data s s') -> sattempt m s = (r, s') -> same_data s s'.
Proof. intros Hm. unfold sattempt. destruct (m s) as [[a|e| |] s1]; intros [= <- <-]; by eapply Hm. Qed.

Lemma GetParams_pure id d : preserves (fun x => x = d) (Requests.GetParams id).
Proof. unfold Requests.GetParams. store_split; done. Qed.
Lemma DefGet_pure qc id d : preserves (fun x => x = d) (Definitions.Get qc id).
Proof. unfold Definitions.Get, Definitions.found, Definitions.check_access. store_split; done. Qed.
Lemma GetUser_same id s r s' : mgr (GetUser id) s = (r, s') -> same_data s s'.
Proof. unfold mgr, GetUser. destruct (accounts (ms s) !! id); intros [= <- <-]; done. Qed.

Lemma params_step m s m1 s1 :
  match i_params (Request m) with
  | Some _ => sret (inl m)
  | None => sbind (sattempt (mgr (repo (Requests.GetParams (r_ID (req_row m))))))
      (fun loaded => sret (match loaded with inl ps => inl (SetParams m (map param_of ps)) | inr e => inr e end))
  end s = (Ok (inl m1 : Jsm + serror), s1) ->
  same_data s s1 /\ req_row m1 = req_row m /\ JobExecution m1 = JobExecution m.
Proof.
  destruct (i_params (Request m)); [by intros [= <- <-]|]. intros (l & s2 & E & E2)%sbind_ok.
  injection E2 as E2 <-. destruct l as [ps|e]; [|done]. injection E2 as <-. split; [|done].
  eapply attempt_same; [|exact E]. intros r s' E'. eapply query_same; [|exact E']. apply GetParams_pure.
Qed.

Lemma user_step (b : bool) id (u0 : option Account + serror) s u s1 :
  (if b then sbind (sattempt (mgr (GetUser id)))
     (fun u => sret (match u with inl u => inl (Some u) | inr e => inr e end)) else sret u0) s = (Ok u, s1) ->
  same_data s s1.
Proof.
  destruct b; [|by intros [= _ <-]]. intros (l & s2 & E & [= _ <-])%sbind_ok.
  eapply attempt_same; [|exact E]. apply GetUser_same.
Qed.

(** The request is of a valid definition of the store. *)
Definition has_definition (s : SS) (m : Jsm) (d : DefRow) (jd : Job.JobDefinition) : Prop :=
  JobDefinition m = Some (d, jd) /\ d ∈ definitions (Store.db (store (ms s))) /\ d_ID d = r_JobDefinitionID (req_row m) /\
  Job.Validate cron_valid MatchEmail (definition_of d) = Return jd.

Lemma Validate_ok m s m' s' :
  Validate m s = (Ok (m', None), s') ->
  same_data s s' /\ req_row m' = req_row m /\ JobExecution m' = JobExecution m /\ exists d jd, has_definition s m' d jd.
Proof.
  unfold Validate. cbv zeta. intros (p & s1 & E1 & H1)%sbind_ok. destruct p as [m1|e]; [|discriminate].
  apply params_step in E1 as (S1 & R1 & X1). cbn in R1, X1. apply sbind_ok in H1 as (u & s2 & E2 & H2).
  apply user_step in E2. destruct u as [u|e]; [|discriminate].
  apply sbind_ok in H2 as (def & s3 & E3%sattempt_ok & H3). destruct def as [d|e]; [|discriminate].
  assert (same_data s2 s3) as S3 by (eapply query_same; [apply DefGet_pure|exact E3]).
  apply mgr_ok in E3 as (x & (st & -> & E3)%repo_inv & ->). apply definition_loaded in E3 as [Hin Hid].
  destruct (Job.Validate _ _ _) as [jd|e|] eqn:Ev; [|discriminate..].
  apply sbind_ok in H3 as (o & s4 & E4 & H4). assert (same_data (set_ms (set_store st (ms s2)) s2) s4) as S4.
  { destruct (User _); [by injection E4 as _ <-|]. eapply user_step, E4. }
  destruct o as [o|e]; [|discriminate]. cbn in H4. destruct (missing_params _ _) eqn:Em; [|discriminate].
  injection H4 as <- <-. split; [|split; [exact R1|split; [exact X1|]]].
  - eapply same_data_trans; [exact S1|]. eapply same_data_trans; [exact E2|]. eapply same_data_trans; eassumption.
  - exists d, jd. split; [done|]. split; [|split; [exact Hid|exact Ev]].
    destruct S1 as [<- _], E2 as [<- _]. exact Hin.
Qed.

Lemma quota_same m s r s' : CheckSubscriptionQuota m s = (r, s') -> same_data s s'.
Proof.
  unfold CheckSubscriptionQuota. destruct (User m) as [u|]; [|by destruct (_ && _); intros [= _ <-]].
  unfold mgr, JobManager.Manager.CheckSubscriptionQuota. destruct (_ && _); [|by intros [= _ <-]].
  destruct (doCheckSubscriptionQuota _ _); [destruct (stick _ _) as [v b]|destruct (unstick _) as [v b]];
    cbn; destruct (b && _); by intros [= _ <-].
Qed.

(** *** The execution and the message *)
Lemma obtained_ready m s e s' :
  obtain_execution m s = (Ok (Some e, None), s') ->
  exists x, x ∈ executions (store_db s') /\ e_ID x = e_ID e /\ e_JobState x = State.READY.
Proof.
  unfold obtain_execution. intros (old & s1 & _ & HB)%sbind_ok. destruct old as [o|].
  - apply sbind_ok in HB as (r & s2 & E%sattempt_ok & HB). destruct r as [u|]; [|discriminate]. injection HB as <- <-.
    apply mgr_ok in E as (x & E & ->). unfold ResetJobExecutionStateToReady in E.
    apply mbind_inl in E as ([] & x1 & [= <-] & E). apply repo_inv in E as (st & -> & E).
    apply reset_execution in E. exact E.
  - unfold new_execution in HB. destruct (mgr _ s1) as [[x|e1| |] s2] eqn:E; try discriminate. injection HB as <- <-.
    apply mgr_ok in E as (y & E & ->). unfold JobManager.Manager.CreateJobExecution in E.
    apply mbind_inl in E as (o & x1 & E & E2). apply repo_inv in E as (st & -> & E).
    apply mbind_inl in E2 as ([] & x2 & [= <-] & [= <- <-]).
    apply created_execution in E as [Hin Hst]; [|done]. exists (Executions.xo_row o). split; [exact Hin|]. split; [done|exact Hst].
Qed.

Lemma launch_sent m s s' :
  sendLaunchJobEvent m s = (Ok tt, s') -> launches s' <> launches s ->
  exists e, JobExecution m = Some e /\ ms s' = ms s /\ alloc s' = alloc s /\
  launches s' = launches s ++ [mkLaunch (r_UserID (req_row m)) (r_ID (req_row m)) (r_JobType (req_row m)) (e_ID e) (Reservations m)].
Proof.
  unfold sendLaunchJobEvent. cbv zeta. destruct (_ || _ || _) eqn:Ev.
  - intros E Hne. exfalso. apply Hne. pose proof (keeps_LaunchFailed launches m LaunchInvalid ltac:(done) s) as HK. by rewrite E in HK.
  - destruct (send_ok (sends s)); [|done]. intros [= <-] _. destruct (JobExecution m) as [e|]; [|done]. by exists e.
Qed.

Lemma created_and_sent m s m' s' :
  CreateJobExecution m s = (Ok (m', None, None), s') -> launches s' <> launches s ->
  alloc s' = alloc s /\
  exists l, launches s' = launches s ++ [l] /\ l_JobRequestID l = r_ID (req_row m) /\ l_Reservations l = Reservations m /\
    (exists x, x ∈ requests (store_db s') /\ r_ID x = r_ID (req_row m) /\ r_JobState x = State.READY /\
       r_JobExecutionID x = Some (l_JobExecutionID l)) /\
    (exists x, x ∈ executions (store_db s') /\ e_ID x = l_JobExecutionID l /\ e_JobState x = State.READY).
Proof.
  unfold CreateJobExecution. destruct (JobExecution m); [discriminate|]. destruct (_ && _); [discriminate|].
  intros (o & s1 & E1 & HB)%sbind_ok Hne. cbv zeta in HB.
  pose proof (keeps_obtain launches m ltac:(done) s) as L1. rewrite E1 in L1. cbn in L1.
  pose proof (keeps_obtain alloc m ltac:(done) s) as A1. rewrite E1 in A1. cbn in A1.
  destruct o as [[e|] [err|]]; try discriminate. apply sbind_ok in HB as (r & s2 & E2%sattempt_ok & HB).
  destruct r as [u|]; [|discriminate]. apply sbind_ok in HB as (r & s3 & E3%sattempt_ok & HB). injection HB as <- Hr <-.
  destruct r as [[]|]; [|discriminate]. apply mgr_ok in E2 as (x & E2 & ->). apply repo_inv in E2 as (st & -> & E2).
  apply request_made_ready in E2 as [Hex Hreq]. apply launch_sent in E3 as (e' & [= <-] & Hms & Hal & HL); [|cbn; congruence].
  apply obtained_ready in E1 as (x & Hx & Hid & Hst). split; [cbn in Hal; congruence|].
  eexists. split; [cbn in HL; rewrite HL; f_equal; exact L1|]. cbn. rewrite Hms. cbn. split_and!; try done.
  exists x. by rewrite Hex.
Qed.

(** A call that keeps the launches cannot be the one that added a message. *)
Lemma no_launch {A} (m : SM A) s r s' : keeps launches m -> m s = (r, s') -> launches s' = launches s.
Proof. intros HK E. specialize (HK s). by rewrite E in HK. Qed.

(** A message is only added after every check has passed. *)
Lemma launch_reached r s s' :
  scheduleJob (info_of r) s = (Ok tt, s') -> launches s' <> launches s ->
  exists m s2 d jd, has_definition s m d jd /\ req_row m = i_row (info_of r) /\ same_data s s2 /\
    alloc s2 = alloc s /\ launches s2 = launches s /\
    CheckAntResourcesAndConcurrencyForJob m s2 = None /\ reserve_and_launch m s2 = (Ok tt, s').
Proof.
  unfold scheduleJob. intros ([m err] & s1 & E1 & HB)%sbind_ok Hne.
  pose proof (no_launch _ _ _ _ (keeps_Validate launches _ ltac:(done)) E1) as L1.
  pose proof (keeps_Validate alloc (NewJobExecutionStateMachine (info_of r) ∅) ltac:(done) s) as A1. rewrite E1 in A1.
  cbn [snd] in A1. destruct err as [e|].
  { apply no_launch in HB; [congruence|by apply keeps_ScheduleFailed]. }
  apply Validate_ok in E1 as (S1 & R1 & X1 & d & jd & HD). apply sbind_ok in HB as (q & s2 & E2%sattempt_ok & HB).
  pose proof (no_launch _ _ _ _ (keeps_quota launches _ ltac:(done)) E2) as L2.
  pose proof (keeps_quota alloc m ltac:(done) s1) as A2. rewrite E2 in A2. cbn [snd] in A2.
  apply quota_same in E2. destruct q as [u|e].
  2: { apply no_launch in HB; [congruence|by apply keeps_ScheduleFailed]. }
  destruct (ShouldSkip m) as [e|].
  { apply no_launch in HB; [congruence|]. unfold skip_job.
    repeat (keeps_step || apply keeps_ScheduleFailed || apply keeps_mgr); done. }
  cbv beta in HB. destruct (CheckAntResourcesAndConcurrencyForJob m s2) as [e|] eqn:EC.
  { apply no_launch in HB; [congruence|]. unfold not_available. cbv zeta.
    repeat (keeps_step || apply keeps_ScheduleFailed || apply keeps_mgr); done. }
  exists m, s2, d, jd. split_and!; try done; try congruence. eapply same_data_trans; eassumption.
Qed.

Lemma keeps_Revert {B} (f : SS -> B) m e :
  outside f -> (forall a s, f (set_alloc a s) = f s) -> keeps f (RevertRequestToPendingPaused m e).
Proof.
  intros Hf Ha. unfold RevertRequestToPendingPaused, forceReleaseJobResources.
  apply keeps_bind; [by intros s; apply Ha|intros _]. destruct (GetDelayBetweenRetries m) as [delay m1].
  repeat (keeps_step || apply (keeps_mgr f _ Hf)).
Qed.

(** A message that is not sent is not among the launches. *)
Lemma create_unsent m s m' e s' : CreateJobExecution m s = (Ok (m', None, Some e), s') -> launches s' = launches s.
Proof.
  unfold CreateJobExecution. destruct (JobExecution m); [discriminate|]. destruct (_ && _); [discriminate|].
  intros (o & s1 & E1 & HB)%sbind_ok. cbv zeta in HB.
  pose proof (no_launch _ _ _ _ (keeps_obtain launches m ltac:(done)) E1) as L1.
  destruct o as [[x|] [err|]]; try discriminate. apply sbind_ok in HB as (r & s2 & E2%sattempt_ok & HB).
  destruct r as [u|]; [|discriminate]. apply no_launch in E2; [|by apply keeps_mgr].
  apply sbind_ok in HB as (r & s3 & E3%sattempt_ok & HB). injection HB as <- Hr <-. destruct r as [[]|e3]; [discriminate|].
  rewrite <- L1, <- E2. clear -E3. revert E3. unfold sendLaunchJobEvent. cbv zeta. destruct (_ || _ || _).
  - intros E. apply no_launch in E; [done|by apply keeps_LaunchFailed].
  - destruct (send_ok (sends s2)); [done|]. by intros [= _ <-].
Qed.

Lemma create_failed m s m' e r s' : CreateJobExecution m s = (Ok (m', Some e, r), s') -> launches s' = launches s.
Proof.
  unfold CreateJobExecution. destruct (JobExecution m); [by intros [= _ _ _ <-]|]. destruct (_ && _); [by intros [= _ _ _ <-]|].
  intros (o & s1 & E1 & HB)%sbind_ok. cbv zeta in HB.
  pose proof (no_launch _ _ _ _ (keeps_obtain launches m ltac:(done)) E1) as L1.
  destruct o as [[x|] [err|]]; try discriminate; try (by injection HB as _ _ _ <-).
  apply sbind_ok in HB as (r2 & s2 & E2%sattempt_ok & HB). apply no_launch in E2; [|by apply keeps_mgr].
  destruct r2 as [u|]; [|injection HB as _ _ _ <-; congruence].
  apply sbind_ok in HB as (r3 & s3 & E3 & HB). discriminate.
Qed.

(** What is reserved and sent, when a message is sent. *)
Lemma reserved_and_sent m s d jd s' :
  Alloc.wf (alloc s) -> JobDefinition m = Some (d, jd) ->
  reserve_and_launch m s = (Ok tt, s') -> launches s' <> launches s ->
  exists l, launches s' = launches s ++ [l] /\ l_JobRequestID l = r_ID (req_row m) /\
    (exists x, x ∈ requests (store_db s') /\ r_ID x = r_ID (req_row m) /\ r_JobState x = State.READY /\
       r_JobExecutionID x = Some (l_JobExecutionID l)) /\
    (exists x, x ∈ executions (store_db s') /\ e_ID x = l_JobExecutionID l /\ e_JobState x = State.READY) /\
    (forall task, task ∈ Job.Tasks jd ->
       exists res, l_Reservations l !! Task.TaskType task = Some res /\
         held (alloc s') (r_ID (req_row m)) (Task.TaskType task) res).
Proof.
  intros Hwf Hd. unfold reserve_and_launch. intros ([m1 e1] & s1 & E1 & HB)%sbind_ok Hne.
  unfold ReserveJobResources in E1. rewrite Hd in E1.
  destruct (Resource.Manager.ReserveJobResources _ _ _ _ _) as [[res a]|[[e res] a]|] eqn:ER; [|..|discriminate].
  - injection E1 as <- <- <-. unfold launch in HB. apply sbind_ok in HB as ([[m2 db] ev] & s2 & E2 & HB).
    destruct db as [e|].
    { apply create_failed in E2. apply no_launch in HB; [cbn in *; congruence|by apply keeps_ScheduleFailed]. }
    destruct ev as [e|].
    { apply create_unsent in E2. apply no_launch in HB; [cbn in *; congruence|by apply keeps_Revert]. }
    injection HB as <-. apply created_and_sent in E2 as (Ha & l & HL & Hq & Hres & Hx & He); [|done].
    exists l. split_and!; try done. intros task Ht.
    destruct (reserve_tasks_held resource_cfg Store.now (Job.Tasks jd) (r_ID (req_row m)) (alloc s) ∅ res a Hwf ER) as [Hm Hdom].
    { intros t x Hl. by rewrite lookup_empty in Hl. }
    assert (Task.TaskType task ∈ dom res) as [x Hxl]%elem_of_dom.
    { rewrite Hdom. apply elem_of_union_r, elem_of_list_to_set, list_elem_of_fmap. by exists task. }
    exists x. rewrite Hres, Ha. split; [exact Hxl|]. by apply Hm.
  - injection E1 as <- <- <-. exfalso. destruct (MaxScheduleAttempts <? _); [|discriminate].
    apply no_launch in HB; [cbn in *; congruence|by apply keeps_ScheduleFailed].
Qed.

(** C4: a launch message is sent only for a job that may run and is set up to
    run.  When scheduling a due request adds a message, its definition is one of
    the store and valid, fewer jobs of its type were running than the definition
    allows; then the request is in the table as ready with the execution of the
    message, this execution is ready too, and the message carries, for every task
    of the job, a reservation of an ant that holds the task for this request. *)
Theorem launched_job_is_ready r s s'
    (consistent : Alloc.wf (alloc s))
    (scheduled : scheduleJob (info_of r) s = (Ok tt, s'))
    (message : launches s' <> launches s) :
  exists l d jd, launches s' = launches s ++ [l] /\ l_JobRequestID l = r_ID r /\
    d ∈ definitions (store_db s) /\ d_ID d = r_JobDefinitionID r /\
    Job.Validate cron_valid MatchEmail (definition_of d) = Return jd /\
    Registry.GetExecutionCount (registry (ms s)) (Request.key_of_row r) < JobStats.wrap32 (Job.MaxConcurrency jd) /\
    (exists x, x ∈ requests (store_db s') /\ r_ID x = r_ID r /\ r_JobState x = State.READY /\
       r_JobExecutionID x = Some (l_JobExecutionID l)) /\
    (exists x, x ∈ executions (store_db s') /\ e_ID x = l_JobExecutionID l /\ e_JobState x = State.READY) /\
    (forall task, task ∈ Job.Tasks jd ->
       exists res, l_Reservations l !! Task.TaskType task = Some res /\ held (alloc s') (r_ID r) (Task.TaskType task) res).
Proof.
  destruct (launch_reached r s s' scheduled message) as (m & s2 & d & jd & (Hjd & Hin & Hid & Hv) & Hr & [Hdb Hreg] & Ha & HL & HC & HB).
  destruct (reserved_and_sent m s2 d jd s') as (l & Hl & Hq & Hx & He & Ht); [by rewrite Ha|done|done|by rewrite HL|].
  rewrite Hr in *. exists l, d, jd. rewrite <- HL. split_and!; try done.
  unfold CheckAntResourcesAndConcurrencyForJob in HC. rewrite Hjd, Hr, Hreg in HC.
  destruct (_ <=? _) eqn:Hle in HC; [discriminate|]. by apply Z.leb_gt in Hle.
Qed.
End Launch.

(** ** Requests that find no ants *)
Section Waiting.
Import Rows JobManager.Manager Fsm Scheduler.Scheduling.
Context `{env : Store.Env, cron : Schedule.Cron, dec : NameValue.Decoder, ord : RangeOrder, calls : Calls, sched : Fsm.Scheduling}.

(** The only errors of the call are those of the job manager. *)
Definition manager_errors {A} (m : SM A) : Prop := forall s e s', m s = (Err e, s') -> exists x, e = Mgr x.

(** The call never ends with an error. *)
Definition no_error {A} (m : SM A) : Prop := forall s e s', m s = (Err e, s') -> False.
Lemma noerr_ret {A} (a : A) : no_error (sret a).
Proof. by intros s e s'. Qed.
Lemma noerr_crash {A} : no_error (crash (A := A)).
Proof. by intros s e s'. Qed.
Lemma noerr_attempt {A} (m : SM A) : no_error (sattempt m).
Proof. intros s e s'. unfold sattempt. by destruct (m s) as [[a|e1| |] s1]. Qed.
Lemma noerr_bind {A B} (m : SM A) (k : A -> SM B) : no_error m -> (forall a, no_error (k a)) -> no_error (sbind m k).
Proof.
  intros Hm Hk s e s'. unfold sbind. destruct (m s) as [[a|e1| |] s1] eqn:E; try discriminate; [apply Hk|].
  intros _. by eapply Hm.
Qed.
Ltac noerr_step :=
  lazymatch goal with
  | |- forall s e s', ?m s = (Err e, s') -> False => change (no_error m)
  | |- no_error (sbind _ _) => apply noerr_bind; [|intros ?]
  | |- no_error (sattempt _) => apply noerr_attempt
  | |- no_error (sret _) => apply noerr_ret
  | |- no_error crash => apply noerr_crash
  | |- no_error (if ?b then _ else _) => destruct b
  | |- no_error (match ?x with _ => _ end) => destruct x
  end.

Lemma me_ret {A} (a : A) : manager_errors (sret a).
Proof. by intros s e s'. Qed.
Lemma me_crash {A} : manager_errors (crash (A := A)).
Proof. by intros s e s'. Qed.
Lemma me_bind {A B} (m : SM A) (k : A -> SM B) : manager_errors m -> (forall a, manager_errors (k a)) -> manager_errors (sbind m k).
Proof.
  intros Hm Hk s e s'. unfold sbind. destruct (m s) as [[a|e1| |] s1] eqn:E; try discriminate; [apply Hk|].
  intros [= -> ->]. by eapply Hm.
Qed.
Lemma me_attempt {A} (m : SM A) : manager_errors (sattempt m).
Proof. intros s e s'. unfold sattempt. by destruct (m s) as [[a|e1| |] s1]. Qed.
Lemma me_mgr {A} (m : MM A) : manager_errors (mgr m).
Proof. intros s e s'. unfold mgr. destruct (m (ms s)) as [[a|x] y]; [done|]. destruct x; intros [= <- _]; eauto. Qed.

Ltac me_step :=
  lazymatch goal with
  | |- manager_errors (sbind _ _) => apply me_bind; [|intros ?]
  | |- manager_errors (sattempt _) => apply me_attempt
  | |- manager_errors (sret _) => apply me_ret
  | |- manager_errors crash => apply me_crash
  | |- manager_errors (mgr _) => apply me_mgr
  | |- manager_errors (if ?b then _ else _) => destruct b
  | |- manager_errors (match ?x with _ => _ end) => destruct x
  end.

(** An error kept as a value is one of the job manager. *)
Definition kept_error (e : option serror) : Prop := match e with Some e => exists x, e = Mgr x | None => True end.

Lemma attempt_mgr_kept {A} (m : MM A) s (r : A + serror) s' :
  sattempt (mgr m) s = (Ok r, s') -> kept_error (match r with inl _ => None | inr e => Some e end).
Proof. intros E%sattempt_ok. destruct r as [a|e]; [done|]. by eapply me_mgr. Qed.

Lemma failed_kept m o c err code s r s' : failed m o c err code s = (Ok r, s') -> kept_error (snd r).
Proof.
  unfold failed. cbv zeta. intros ([m1 out] & s1 & E1 & HB)%sbind_ok.
  destruct (GetDelayBetweenRetries m1) as [delay m2].
  destruct out as [[e|]|]; [|by injection HB as <- _|];
    (apply sbind_ok in HB as (x & s2 & E2%attempt_mgr_kept & HB); injection HB as <- _; exact E2).
Qed.
Lemma failed_me m o c err code : manager_errors (failed m o c err code).
Proof.
  unfold failed. cbv zeta. repeat me_step. all: try done.
Qed.

Lemma ScheduleFailed_me m err code : manager_errors (ScheduleFailed m err code).
Proof.
  intros s e s'. unfold ScheduleFailed, sbind. destruct (failed _ _ _ _ _ s) as [[r|e1| |] s1] eqn:E; try discriminate.
  - apply failed_kept in E. unfold fail_with. destruct (snd r) as [x|]; [|done]. by intros [= <- _].
  - intros [= <- _]. by eapply failed_me.
Qed.

Lemma fail_me (m : Jsm) x : kept_error x -> manager_errors (fail_with m x).
Proof. intros Hx s e s'. unfold fail_with. destruct x as [e1|]; [|done]. by intros [= <- _]. Qed.

Lemma Revert_me m err : manager_errors (RevertRequestToPendingPaused m err).
Proof.
  unfold RevertRequestToPendingPaused. apply me_bind; [by intros s e s'|intros _].
  destruct (GetDelayBetweenRetries m) as [delay m1]. intros s e s'. unfold sbind at 1.
  destruct (sattempt _ s) as [[r|e1| |] s1] eqn:E1; try discriminate; [|intros [= <- _]; eapply me_attempt, E1].
  apply attempt_mgr_kept in E1. unfold sbind. destruct (JobExecution _) as [x|].
  - unfold sbind. destruct (sattempt _ s1) as [[d|e1| |] s2] eqn:E2; try discriminate; [|intros [= <- _]; eapply me_attempt, E2].
    apply attempt_mgr_kept in E2. cbn. destruct d as [u|e2], r as [v|e3]; intros [= <- _]; done.
  - cbn. destruct r as [v|e3]; intros [= <- _]; done.
Qed.

Lemma obtain_me m : manager_errors (obtain_execution m).
Proof.
  unfold obtain_execution. repeat me_step. intros s e s'. unfold new_execution. by destruct (mgr _ s) as [[x|e1| |] s1].
Qed.
Lemma create_me m : manager_errors (CreateJobExecution m).
Proof. unfold CreateJobExecution. cbv zeta. repeat (me_step || apply obtain_me). Qed.
Lemma launch_me m : manager_errors (launch m).
Proof.
  unfold launch. apply me_bind; [apply create_me|]. intros [[m1 [e|]] [e'|]].
  all: try apply ScheduleFailed_me; try apply Revert_me; apply me_ret.
Qed.

(** Reserving and launching never says that ants are not available. *)
Lemma reserve_not_unavailable m s e s' : reserve_and_launch m s <> (Err (NotAvailable e), s').
Proof.
  unfold reserve_and_launch, sbind, ReserveJobResources.
  destruct (JobDefinition m) as [[d jd]|]; [|done].
  destruct (Resource.Manager.ReserveJobResources _ _ _ _ _) as [[res a]|[[x res] a]|]; [|..|done].
  - intros [y Hy]%launch_me. discriminate.
  - destruct (MaxScheduleAttempts <? _); [|done]. intros [y Hy]%ScheduleFailed_me. discriminate.
Qed.

(** How a request is put off: how long it waits and how much priority it loses. *)
Record put_off (attempts priority wait loss : Z) : Prop := {
  waits_a_while : wait = 5000000000 * (attempts + 1) \/
                  wait = 1000000000 * (NotReadyJobsMaxWait ÷ 1000000000) /\ wait < 5000000000 * (attempts + 1);
  waits_at_most : wait <= 1000000000 * (NotReadyJobsMaxWait ÷ 1000000000);
  loses_little : loss = 0 \/ loss = 1 /\ 5 < priority /\ 5 <= attempts + 1 /\ Z.rem (attempts + 1) 5 = 0
}.

Lemma put_off_spec attempts priority :
  put_off attempts priority (schedule_secs (attempts + 1) * 1000000000) (decr_priority (attempts + 1) priority).
Proof.
  unfold schedule_secs, decr_priority, Rolling.Min.
  split; [destruct (_ <=? _) eqn:E; go_bool; lia|destruct (_ <=? _) eqn:E; go_bool; lia|].
  destruct (5 <=? _) eqn:E1; [|by left]. destruct (Z.rem _ _ =? 0) eqn:E2; [|by left]. destruct (5 <? _) eqn:E3; [|by left].
  right. go_bool. split_and!; try done; lia.
Qed.

Lemma Validate_no_error m s e s' : Validate m s <> (Err e, s').
Proof.
  assert (forall s e s', Validate m s = (Err e, s') -> False) as HV; [|by intros E; eapply HV].
  clear s e s'. unfold Validate. cbv zeta. repeat noerr_step.
Qed.

Lemma skip_no_error m e1 s e s' : skip_job m e1 s <> (Err e, s').
Proof.
  assert (forall s e s', skip_job m e1 s = (Err e, s') -> False) as HV; [|by intros E; eapply HV].
  clear s e s'. unfold skip_job. repeat noerr_step.
Qed.

(** The statement that counts an attempt is run or not. *)
Lemma increment_cases id wait loss message st :
  let s' := snd (Requests.IncrementScheduleAttempts id wait loss message st) in
  Store.db s' = Store.db st \/
  Store.db s' = snd (Store.update_requests (Requests.by_id id)
    (fun r => set_r_UpdatedAt Store.now (set_r_ErrorMessage (Some message)
       (set_r_JobPriority (r_JobPriority r - loss) (set_r_ScheduledAt (Store.now + wait)
          (set_r_ScheduleAttempts (r_ScheduleAttempts r + 1) r))))) (Store.db st)).
Proof.
  unfold Requests.IncrementScheduleAttempts, Store.bind, Store.exec.
  destruct (Store.err (Store.statements st)); [by left|right]. cbn. unfold Store.expect_one. by destruct (_ =? 1).
Qed.

Lemma not_available_inv m e s e' s' :
  not_available m e s = (Err (NotAvailable e'), s') ->
  let r := req_row m in
  r_ScheduleAttempts r < MaxScheduleAttempts /\ alloc s' = alloc s /\ launches s' = launches s /\
  executions (store_db s') = executions (store_db s) /\
  (requests (store_db s') = requests (store_db s) \/
    exists message, requests (store_db s') =
      Sql.update (Requests.by_id (r_ID r)) (fun x => set_r_UpdatedAt Store.now (set_r_ErrorMessage (Some message)
         (set_r_JobPriority (r_JobPriority x - decr_priority (r_ScheduleAttempts r + 1) (r_JobPriority r))
           (set_r_ScheduledAt (Store.now + schedule_secs (r_ScheduleAttempts r + 1) * 1000000000)
            (set_r_ScheduleAttempts (r_ScheduleAttempts x + 1) x))))) (requests (store_db s))).
Proof.
  unfold not_available. cbv zeta. destruct (MaxScheduleAttempts <? _) eqn:Em.
  { intros [x Hx]%ScheduleFailed_me. discriminate. }
  apply Z.ltb_ge in Em. set (r1 := set_r_JobPriority _ _). set (w := _ * 1000000000). set (dp := decr_priority _ _).
  unfold sbind, sattempt, mgr, IncrementScheduleAttemptsForJobRequest, bind, stats, repo. cbn.
  pose proof (increment_cases (r_ID (req_row m)) w dp (describe e) (store (ms s))) as HI.
  change (r_ID r1) with (r_ID (req_row m)).
  destruct (Requests.IncrementScheduleAttempts _ _ _ _ _) as [[u|x] st]; cbn in *; intros [= _ <-]; (split; [lia|]); cbn;
    (split; [done|split; [done|]]); (destruct HI as [HI|HI]; rewrite HI; [by split; [|left]|]);
    (split; [done|right; by exists (describe e)]).
Qed.

(** A request for which no ants are available is put off, and not for ever.
    Scheduling it ends with that error only while it has attempts left; then it
    keeps no ants, no execution changes, and its row alone changes (or none, when
    the statement fails): one more attempt is counted, it is due again after five
    seconds for each attempt made but at most the configured wait, and at every
    fifth attempt it loses one point of a priority above five. *)
Theorem unavailable_job_is_put_off r s e s'
    (unavailable : scheduleJob (info_of r) s = (Err (NotAvailable e), s')) :
  r_ScheduleAttempts r < MaxScheduleAttempts /\ alloc s' = alloc s /\ launches s' = launches s /\
  executions (store_db s') = executions (store_db s) /\
  exists wait loss, put_off (r_ScheduleAttempts r) (r_JobPriority r) wait loss /\
   (requests (store_db s') = requests (store_db s) \/
    exists message, requests (store_db s') =
      Sql.update (Requests.by_id (r_ID r)) (fun x => set_r_UpdatedAt Store.now (set_r_ErrorMessage (Some message)
         (set_r_JobPriority (r_JobPriority x - loss) (set_r_ScheduledAt (Store.now + wait)
            (set_r_ScheduleAttempts (r_ScheduleAttempts x + 1) x))))) (requests (store_db s))).
Proof.
  unfold scheduleJob, sbind in unavailable. destruct (Validate _ s) as [[[m err]|e1| |] s1] eqn:E1; try discriminate.
  2: { exfalso. injection unavailable as -> ->. by apply Validate_no_error in E1. }
  pose proof (no_launch _ _ _ _ (keeps_Validate launches _ ltac:(done)) E1) as L1.
  pose proof (keeps_Validate alloc (NewJobExecutionStateMachine (info_of r) ∅) ltac:(done) s) as A1. rewrite E1 in A1.
  cbn [snd] in A1. destruct err as [e1|].
  { apply ScheduleFailed_me in unavailable as [x Hx]. discriminate. }
  apply Validate_ok in E1 as ([D1 G1] & R1 & _ & _). cbn in R1.
  destruct (sattempt (CheckSubscriptionQuota m) s1) as [[q|e1| |] s2] eqn:E2; try discriminate.
  2: { apply me_attempt in E2 as [x ->]. discriminate. }
  apply sattempt_ok in E2. pose proof (no_launch _ _ _ _ (keeps_quota launches _ ltac:(done)) E2) as L2.
  pose proof (keeps_quota alloc m ltac:(done) s1) as A2. rewrite E2 in A2. cbn [snd] in A2.
  apply quota_same in E2 as [D2 G2]. destruct q as [u|e1].
  2: { apply ScheduleFailed_me in unavailable as [x Hx]. discriminate. }
  destruct (ShouldSkip m) as [e1|].
  { exfalso. revert unavailable. apply skip_no_error. }
  destruct (CheckAntResourcesAndConcurrencyForJob m s2) as [e1|]; [|by apply reserve_not_unavailable in unavailable].
  apply not_available_inv in unavailable as (Hmax & Ha & HL & He & Hreq). rewrite R1 in Hmax, Hreq. cbn in Hmax, Hreq.
  split; [done|]. split; [congruence|]. split; [congruence|]. split; [congruence|].
  exists (schedule_secs (r_ScheduleAttempts r + 1) * 1000000000), (decr_priority (r_ScheduleAttempts r + 1) (r_JobPriority r)).
  split; [apply put_off_spec|]. rewrite <- D1, <- D2. exact Hreq.
Qed.

(** A pass that finds the server shutting down never returns: it holds the lock
    that stopping the scheduler waits for. *)
Lemma shutdown_hangs s :
  server_shutting_down = true -> unsubscribe_ok = true -> backoffUntil s <= Store.now ->
  Scheduler.Scheduling.schedulePendingJobs s = (Hang, s).
Proof.
  intros H1 H2 H3. unfold Scheduler.Scheduling.schedulePendingJobs, Scheduler.Scheduling.stop_while_locked.
  rewrite H1, H2. by rewrite (proj2 (Z.ltb_ge _ _) H3).
Qed.
End Waiting.

(** ** Concrete passes *)
Module SchedulerDemo.
Import Rows JobManager.Manager Fsm Scheduler.Scheduling Launching JobSpec.JobDemo.
#[local] Existing Instance demo_cron.
#[local] Existing Instance demo_decoder.
#[local] Existing Instance demo_calls.

(** The database fails at one statement, or never. *)
Definition env_failing (at_ : option nat) : Store.Env :=
  {| Store.now := 1000000000000; Store.err := fun n => match at_ with Some k => (n =? k)%nat | None => false end;
     Store.deadlock := fun _ => false; Store.ulid := fun n => "ulid-" +:+ itoa (Z.of_nat n); Store.save_upserts := true;
     Store.not_in_empty := false; Store.elapsed := fun a b => a - b |}.
Definition scheduling (sends_ok stopping : bool) (tags : list string) : Fsm.Scheduling :=
  {| resource_cfg := Resource.Manager.mkJobsConfig 60000000000 60000000000; MaxScheduleAttempts := 3;
     NotReadyJobsMaxWait := 30000000000; OrphanRequestsTimeout := 60000000000; server_shutting_down := stopping;
     healthy := true; send_ok := fun _ => sends_ok; unsubscribe_ok := true; backoff_Duration := fun _ => 100000000;
     ForAttempt := fun _ _ => 0; random_delay := None;
     definition_of := fun _ => job [Task.set_Tags (task "compile" "" "") tags];
     required_params := fun _ => []; cron_valid := JobDemo.cron; MatchEmail := email; configured := fun _ _ => [];
     ParseYamlTag := fun _ _ => ""; render := fun _ _ => None; DeleteFilteredCronJobs_variable := fun _ => false;
     has_webhook := fun _ _ => false; describe := fun _ => "error" |}.

Definition ant (id : string) (methods tags : list string) : Ants.AntRegistration :=
  Ants.mkAntRegistration id ("topic-" +:+ id) "" 2 tags methods 0 0 ∅ 1000000000000 None.
Definition register (a : Ants.AntRegistration) (s : Alloc.State) : Alloc.State :=
  match Resource.Manager.Register 1000000000000 s a with Some (s', _) => s' | None => s end.
Lemma register_wf a s : Alloc.wf s -> Alloc.wf (register a s).
Proof.
  intros Hs. unfold register. destruct (Resource.Manager.Register _ _ _) as [[s' b]|] eqn:E; [|done].
  by eapply Alloc.addRegistration_wf.
Qed.
Definition ants : Alloc.State := register (ant "a1" ["SHELL"] ["linux"]) Alloc.NewState.
(** One ant has the method and another one the tag. *)
Definition split_ants : Alloc.State :=
  register (ant "a1" ["SHELL"] ["mac"]) (register (ant "a2" ["DOCKER"] ["linux"]) Alloc.NewState).

Definition due_request : RequestRow := relative "q1" "" State.PENDING.
Definition demo_ss (rows : list RequestRow) (execs : list ExecRow) (a : Alloc.State) : SS :=
  mkSS (set_store (Store.mkSt (mkDB rows execs [] [build_definition] [] [] [] [] [] [] [] []) 0 0) (demo_ms rows))
    a [] 0 0 0 0 0 ∅.
Definition start : SS := demo_ss [due_request] [] ants.
Definition count (s : SS) : Z := Registry.GetExecutionCount (registry (ms s)) (Request.key_of_row due_request).
Definition run (e : Store.Env) (f : Fsm.Scheduling) (s : SS) : result unit * SS :=
  @scheduleJob e demo_cron demo_decoder map_to_list_order demo_calls f (info_of due_request) s.

Abbreviation calm := (env_failing None).
Abbreviation usual := (scheduling true false ["linux"]).

(** When the launch message cannot be sent the request goes back to PENDING, but
    the job stays counted as running. *)
Example unsent_launch_keeps_its_slot :
  count start = 0 /\ fst (run calm (scheduling false false ["linux"]) start) = Ok tt /\
  let s' := snd (run calm (scheduling false false ["linux"]) start) in
  map r_JobState (requests (store_db s')) = [State.PENDING] /\ launches s' = [] /\
  Alloc.antsByRequest (alloc s') = ∅ /\ count s' = 1.
Proof. vm_compute. repeat split. Qed.

(** When the execution cannot be saved the request fails, but its ants stay
    reserved, and the number of running jobs becomes negative. *)
Example failed_save_keeps_the_ants :
  let s' := snd (run (env_failing (Some 2%nat)) usual start) in
  map r_JobState (requests (store_db s')) = [State.FAILED] /\ executions (store_db s') = [] /\
  size (Alloc.antsByRequest (alloc s')) = 1%nat /\ count s' = -1.
Proof. vm_compute. repeat split. Qed.

(** A query that fails once while the request is validated fails the job. *)
Example one_failed_query_fails_the_job :
  map r_JobState (requests (store_db (snd (run (env_failing (Some 0%nat)) usual start)))) = [State.FAILED].
Proof. vm_compute. reflexivity. Qed.

(** A reservation that fails after the check of ants has passed changes nothing:
    the attempt is not counted and the request is due at once. *)
Example failed_reservation_is_not_counted :
  let s := demo_ss [due_request] [] split_ants in
  (exists e, fst (run calm usual s) = Err (NotReserved e)) /\
  requests (store_db (snd (run calm usual s))) = [due_request].
Proof. vm_compute. split; [eexists; reflexivity|reflexivity]. Qed.

(** Without a user the check of the quota ends the server. *)
Definition ownerless : RequestRow :=
  mkRequestRow "q1" "" "key" "def-1" None None "org" "" "build" "" State.PENDING 5 0 0 0 false None None "" 10 100 20 false true.
Definition ownerless_definition : DefRow := mkDefRow "def-1" "build" "" false "" "" 0 5 false true "" "org" "" "" "" ["compile"].
Example quota_without_user_crashes :
  let s := set_ms (set_store (Store.mkSt (mkDB [ownerless] [] [] [ownerless_definition] [] [] [] [] [] [] [] []) 0 0) (ms start)) start in
  fst (@scheduleJob calm demo_cron demo_decoder map_to_list_order demo_calls usual (info_of ownerless) s) = Crash.
Proof. vm_compute. reflexivity. Qed.

Lemma launched_job_is_ready_witness :
  let s' := snd (run calm usual start) in
  launches start = [] /\
  exists l d jd, launches s' = launches start ++ [l] /\ l_JobRequestID l = "q1" /\
    d ∈ definitions (store_db start) /\ d_ID d = "def-1" /\
    @Job.Validate map_to_list_order (@cron_valid usual) (@MatchEmail usual) (@definition_of usual d) = Return jd /\
    count start < JobStats.wrap32 (Job.MaxConcurrency jd) /\
    (exists x, x ∈ requests (store_db s') /\ r_ID x = "q1" /\ r_JobState x = State.READY /\
       r_JobExecutionID x = Some (l_JobExecutionID l)) /\
    (exists x, x ∈ executions (store_db s') /\ e_ID x = l_JobExecutionID l /\ e_JobState x = State.READY) /\
    (forall task, task ∈ Job.Tasks jd ->
       exists res, l_Reservations l !! Task.TaskType task = Some res /\ held (alloc s') "q1" (Task.TaskType task) res).
Proof.
  split; [reflexivity|].
  refine (@launched_job_is_ready calm demo_cron demo_decoder map_to_list_order demo_calls usual due_request start
            (snd (run calm usual start)) _ _ _).
  - apply register_wf, Alloc.wf_new.
  - vm_compute. reflexivity.
  - vm_compute. discriminate.
Defined.

(** No ant at all. *)
Definition starved : SS := demo_ss [due_request] [] Alloc.NewState.
Definition reason : serror := match fst (run calm usual starved) with Err (NotAvailable e) => e | _ => NotSent end.

Lemma unavailable_job_is_put_off_witness :
  map r_ScheduleAttempts (requests (store_db (snd (run calm usual starved)))) = [1] /\
  r_ScheduleAttempts due_request < 3.
Proof.
  split; [vm_compute; reflexivity|].
  refine (proj1 (@unavailable_job_is_put_off calm demo_cron demo_decoder map_to_list_order demo_calls usual due_request starved
            reason (snd (run calm usual starved)) _)).
  vm_compute. reflexivity.
Defined.
End SchedulerDemo.
