(* ===== verification/LauncherSpec.v ===== *)
(** * LauncherSpec: what the launcher guarantees

    A supervisor starts only for a job that is ready; a launch message that comes
    late or twice changes no request and no execution; and a running job that was
    scheduled from PENDING cannot be put back. *)

From S2P Require Import Prelude RequestState Acl Resource JobDefinition Approval Stats Tables JobStore JobStoreSpec JobRequest.
From S2P Require Import JobManager JobManagerSpec Scheduler SchedulerSpec.

Open Scope Z_scope.

(** ** The launcher *)
Section Launcher.
Import Rows JobManager.Manager Fsm Launching.
Context `{env : Store.Env, cron : Schedule.Cron, dec : NameValue.Decoder, ord : RangeOrder, calls : Calls, sched : Fsm.Scheduling}.

(** Requests and executions are as before. *)
Definition same_rows (s s' : SS) : Prop :=
  requests (store_db s') = requests (store_db s) /\ executions (store_db s') = executions (store_db s).
Lemma same_rows_refl s : same_rows s s.
Proof. done. Qed.
Lemma same_rows_trans s1 s2 s3 : same_rows s1 s2 -> same_rows s2 s3 -> same_rows s1 s3.
Proof. intros [H1 H2] [H3 H4]. split; congruence. Qed.
Lemma same_data_rows s s' : same_data s s' -> same_rows s s'.
Proof. intros [H _]. by split; rewrite H. Qed.

(** Loading an execution may only deactivate tasks. *)
Lemma ExecGet_rows id t u : preserves (fun d => requests d = t /\ executions d = u) (Executions.Get id).
Proof.
  assert (forall l, preserves (fun d => requests d = t /\ executions d = u) (Executions.deactivate_all l)) as HD.
  { induction l as [|x l IH]; cbn; store_split; done. }
  unfold Executions.Get, Requests.first. store_split; done.
Qed.

Lemma repo_rows {A} (m : Store.M A) s r s' :
  (forall t u, preserves (fun d => requests d = t /\ executions d = u) m) -> mgr (repo m) s = (r, s') -> same_rows s s'.
Proof.
  intros Hm. unfold mgr, repo. destruct (Hm _ _ (store (ms s)) (conj eq_refl eq_refl)) as [H1 H2].
  destruct (m (store (ms s))) as [[a|e] st]; intros [= <- <-]; split; done.
Qed.

Lemma execution_loaded id s e ts s' :
  Executions.Get id s = (inl (e, ts), s') -> e ∈ executions (Store.db s) /\ e_ID e = id.
Proof.
  unfold Executions.Get. destruct (id == ""); [discriminate|].
  intros (l & s1 & [-> _]%query_inl & HB)%bind_inl. apply bind_inl in HB as (job & s2 & E2 & HB). cbn in E2.
  assert (e = job) as ->.
  { destruct (_ <? _)%nat; [apply bind_inl in HB as (? & ? & _ & HB)|]; by injection HB as <- _ _. }
  unfold Requests.first in E2. destruct (Sql.select _ _) as [|x l] eqn:Es; [discriminate|]. injection E2 as <- <-.
  assert (x ∈ x :: l) as Hx by apply list_elem_of_here. rewrite <- Es in Hx. apply elem_of_select in Hx as [Hx Hp].
  split; [done|]. apply andb_true_iff in Hp as [Hp _]. by apply String.eqb_eq in Hp.
Qed.

(** Validation changes neither the data nor the other fields, also when it fails. *)
Definition same_machine (m m' : Jsm) : Prop :=
  req_row m' = req_row m /\ JobExecution m' = JobExecution m /\ Reservations m' = Reservations m.

Lemma Validate_machine m s m' e s' :
  Validate m s = (Ok (m', e), s') ->
  same_machine m m' /\ revertState m' = revert_of (r_JobState (req_row m)) /\ same_data s s'.
Proof.
  unfold Validate. cbv zeta. set (m0 := with_revertState _ _). assert (same_machine m m0 /\ revertState m0 = revert_of (r_JobState (req_row m)))
    as [M0 V0] by done. clearbody m0. intros (p & s1 & E1 & H1)%sbind_ok.
  assert (same_data s s1) as S1.
  { destruct (i_params (Request m0)); [by injection E1 as _ <-|]. apply sbind_ok in E1 as (l & s2 & E & [= _ <-]).
    eapply attempt_same; [|exact E]. intros r s3 E'. eapply query_same; [|exact E']. apply GetParams_pure. }
  destruct p as [m1|e1]; [|by injection H1 as <- _ <-].
  assert (same_machine m m1 /\ revertState m1 = revert_of (r_JobState (req_row m))) as [M1 V1].
  { destruct (i_params (Request m0)); [by injection E1 as <- _|]. apply sbind_ok in E1 as (l & s2 & _ & [= E _]).
    destruct l; [|done]. by injection E as <-. }
  apply sbind_ok in H1 as (u & s2 & E2%user_step & H2). pose proof (same_data_trans _ _ _ S1 E2) as S2.
  destruct u as [u|e1]; [|by injection H2 as <- _ <-].
  apply sbind_ok in H2 as (def & s3 & E3 & H3). assert (same_data s s3) as S3.
  { eapply same_data_trans; [exact S2|]. eapply attempt_same; [|exact E3]. intros r s4 E'. eapply query_same; [apply DefGet_pure|exact E']. }
  destruct def as [d|e1]; [|by injection H3 as <- _ <-].
  destruct (Job.Validate _ _ _) as [jd|e1|]; [|by injection H3 as <- _ <-|discriminate].
  apply sbind_ok in H3 as (o & s4 & E4 & H4). assert (same_data s s4) as S4.
  { eapply same_data_trans; [exact S3|]. destruct (User _); [by injection E4 as _ <-|]. eapply user_step, E4. }
  destruct o as [o|e1]; [|by injection H4 as <- _ <-]. destruct (missing_params _ _); by injection H4 as <- _ <-.
Qed.

Lemma load_request_ok id s req s' :
  load_request id s = (Ok req, s') ->
  same_rows s s' /\ i_row req ∈ requests (store_db s) /\ r_ID (i_row req) = id.
Proof.
  unfold load_request. intros (r & s1 & E & [= <- <-])%sbind_ok. cbn. apply mgr_ok in E as (x & E & ->).
  unfold GetJobRequest in E. apply mbind_inl in E as (r1 & x1 & E1 & E). apply mbind_inl in E as (u & x2 & E2 & [= <- <-]).
  apply repo_inv in E1 as (st & -> & E1). unfold Requests.Get in E1. destruct (id == ""); [discriminate|].
  apply bind_inl in E1 as (l & st1 & [-> Hd]%query_inl & E1). unfold Requests.first in E1.
  destruct (Sql.select _ _) as [|y l] eqn:Es; [discriminate|]. injection E1 as <- <-.
  assert (y ∈ y :: l) as Hy by apply list_elem_of_here. rewrite <- Es in Hy. apply elem_of_select in Hy as [Hy Hp].
  split; [|split; [done|]]; cycle 1. { apply andb_true_iff in Hp as [_ Hp]. by apply String.eqb_eq in Hp. }
  destruct (text _ != ""); [|injection E2 as _ <-; split; cbn; by rewrite Hd].
  apply mbind_inl in E2 as (u2 & x3 & E2 & [= _ <-]). unfold attempt, repo in E2.
  destruct (ExecGet_rows (text (r_JobExecutionID y)) (requests (Store.db st1)) (executions (Store.db st1)) st1 ltac:(done)) as [H1 H2].
  cbn in E2. destruct (Executions.Get _ st1) as [[z|z] st2]; injection E2 as _ <-; split; cbn in *; by rewrite ?H1, ?H2, Hd.
Qed.

Lemma unreserved_none m tasks task :
  unreserved m tasks = None -> task ∈ tasks -> is_Some (Reservations m !! Task.TaskType task).
Proof.
  unfold unreserved. destruct (List.find _ tasks) eqn:E; [discriminate|]. intros _ Ht%list_elem_of_In.
  pose proof (find_none _ _ E _ Ht) as Hn. cbn in Hn. destruct (Reservations m !! Task.TaskType task); [eauto|discriminate].
Qed.

(** What a prepared launch has checked. *)
Lemma PrepareLaunch_ok m id s m' s' :
  PrepareLaunch m id s = (Ok (m', None), s') ->
  same_rows s s' /\ r_JobState (req_row m) = State.READY /\ text (r_JobExecutionID (req_row m)) = id /\
  (exists e, e ∈ executions (store_db s) /\ e_ID e = id /\ e_JobState e = State.READY) /\
  exists d jd, d ∈ definitions (store_db s) /\ d_ID d = r_JobDefinitionID (req_row m) /\
    Job.Validate cron_valid MatchEmail (definition_of d) = Return jd /\ size (Reservations m) = List.length (Job.Tasks jd) /\
    forall task, task ∈ Job.Tasks jd -> is_Some (Reservations m !! Task.TaskType task).
Proof.
  unfold PrepareLaunch. intros ([m1 e1] & s1 & E1 & HB)%sbind_ok. destruct e1 as [e1|]; [discriminate|].
  pose proof (Validate_machine _ _ _ _ _ E1) as ((R1 & X1 & V1) & _ & S1).
  apply Validate_ok in E1 as (_ & _ & _ & d & jd & (Hjd & Hin & Hid & Hv)). rewrite Hjd in HB. cbv zeta in HB.
  destruct (id == "") eqn:Eid; [discriminate|]. destruct (negb _) eqn:En; [discriminate|].
  destruct (unreserved m1 _) eqn:Eu; [discriminate|]. apply sbind_ok in HB as (ex & s2 & E2%sattempt_ok & HB).
  destruct ex as [[e ts]|]; [|discriminate]. pose proof (repo_rows _ _ _ _ (ExecGet_rows id) E2) as S2.
  apply mgr_ok in E2 as (x & (st & -> & E2)%repo_inv & ->). apply execution_loaded in E2 as [He Heid].
  destruct (id != _) eqn:Emis in HB; [discriminate|]. apply sbind_ok in HB as (last & s3 & E3 & HB).
  destruct (_ || _) eqn:Er in HB; [discriminate|]. injection HB as <- <-. cbn in Emis, Er. rewrite R1 in *.
  apply orb_false_iff in Er as [Er1 Er2]. split; [|split; [by go_bool|split; [by go_bool|split]]].
  - eapply same_rows_trans; [by apply same_data_rows, S1|]. eapply same_rows_trans; [exact S2|].
    destruct (text _ != ""); [|by injection E3 as _ <-]. apply sbind_ok in E3 as (y & s4 & E3%sattempt_ok & [= _ <-]).
    eapply repo_rows; [apply ExecGet_rows|exact E3].
  - exists e. destruct S1 as [D1 _]. rewrite <- D1. by go_bool.
  - exists d, jd. rewrite <- V1. split_and!; try done.
    + apply negb_false_iff, Nat.eqb_eq in En. done.
    + intros task Ht. by eapply unreserved_none.
Qed.

Lemma keeps_load {B} (f : SS -> B) id : outside f -> keeps f (load_request id).
Proof. intros Hf. unfold load_request. apply keeps_bind; [by apply keeps_mgr|by intros ? ?]. Qed.
Lemma keeps_PrepareLaunch {B} (f : SS -> B) m id : outside f -> keeps f (PrepareLaunch m id).
Proof. intros Hf. unfold PrepareLaunch. repeat (keeps_step || apply (keeps_Validate f _ Hf) || apply (keeps_mgr f _ Hf)). Qed.
(** A supervisor starts only for a job that is ready.  When a launch message
    adds a supervisor, it is that of its request and execution; the request is in
    the table as ready with this execution, the execution is ready, and the
    message has exactly one reservation for each task of the definition. *)
Theorem supervisor_starts_only_ready_jobs requestID executionID reservations s s'
    (launched : launchJob requestID executionID reservations s = (Ok tt, s'))
    (started : supervisors s' <> supervisors s) :
  supervisors s' = <[requestID := executionID]> (supervisors s) /\
  (exists r d jd, r ∈ requests (store_db s') /\ r_ID r = requestID /\ r_JobState r = State.READY /\
     text (r_JobExecutionID r) = executionID /\
     d_ID d = r_JobDefinitionID r /\ Job.Validate cron_valid MatchEmail (definition_of d) = Return jd /\
     size reservations = List.length (Job.Tasks jd) /\
     forall task, task ∈ Job.Tasks jd -> is_Some (reservations !! Task.TaskType task)) /\
  (exists e, e ∈ executions (store_db s') /\ e_ID e = executionID /\ e_JobState e = State.READY).
Proof.
  unfold launchJob in launched. apply sbind_ok in launched as (req & s1 & E1 & HB).
  assert (supervisors s1 = supervisors s) as K1.
  { pose proof (keeps_load supervisors requestID ltac:(done) s) as HK. by rewrite E1 in HK. }
  apply load_request_ok in E1 as (S1 & Hin & Hid). apply sbind_ok in HB as ([m e] & s2 & E2 & HB).
  pose proof (keeps_PrepareLaunch supervisors (NewJobExecutionStateMachine req reservations) executionID ltac:(done) s1) as K2.
  rewrite E2 in K2. cbn [snd] in K2. destruct e as [e|].
  { exfalso. apply started. destruct (requeued e).
    - pose proof (keeps_Revert supervisors m e ltac:(done) ltac:(done) s2) as HK. rewrite HB in HK. cbn in HK. congruence.
    - pose proof (keeps_LaunchFailed supervisors m e ltac:(done) s2) as HK. rewrite HB in HK. cbn in HK. congruence. }
  apply PrepareLaunch_ok in E2 as (S2 & Hst & Hex & (x & Hx & Hxid & Hxst) & d & jd & Hd & Hdid & Hv & Hsz & Ht).
  injection HB as <-. cbn in *. split; [by rewrite K2, K1|].
  assert (same_rows s s2) as [HR HE] by (by eapply same_rows_trans). destruct S2 as [_ HE2]. split.
  - exists (i_row req), d, jd. rewrite HR. by split_and!.
  - exists x. rewrite HE2. by split_and!.
Qed.

(** ** Messages that come late *)

(** An assertion on the state that a call keeps. *)
Definition stays {A} (I : SS -> Prop) (m : SM A) : Prop := forall s, I s -> I (snd (m s)).
Lemma stays_bind {A B} I (m : SM A) (k : A -> SM B) : stays I m -> (forall a, stays I (k a)) -> stays I (sbind m k).
Proof.
  intros Hm Hk s HI. unfold sbind. specialize (Hm s HI). destruct (m s) as [[a|e| |] s1]; cbn in *; try done. by apply Hk.
Qed.
Lemma stays_attempt {A} I (m : SM A) : stays I m -> stays I (sattempt m).
Proof. intros Hm s HI. unfold sattempt. specialize (Hm s HI). by destruct (m s) as [[a|e| |] s1]. Qed.

(** The rows of requests and executions are these. *)
Definition rows_are (t : list RequestRow) (u : list ExecRow) (s : SS) : Prop :=
  requests (store_db s) = t /\ executions (store_db s) = u.
Definition mrows (t : list RequestRow) (u : list ExecRow) (x : MS) : Prop :=
  requests (Store.db (store x)) = t /\ executions (Store.db (store x)) = u.

Lemma stays_mgr {A} t u (m : MM A) : (forall x, mrows t u x -> mrows t u (snd (m x))) -> stays (rows_are t u) (mgr m).
Proof. intros Hm s HI. unfold mgr. specialize (Hm (ms s) HI). destruct (m (ms s)) as [[a|e] x]; [done|]. by destruct e. Qed.

Definition mstays {A} t u (m : MM A) : Prop := forall x, mrows t u x -> mrows t u (snd (m x)).
Lemma mstays_bind {A B} t u (m : MM A) (k : A -> MM B) : mstays t u m -> (forall a, mstays t u (k a)) -> mstays t u (bind m k).
Proof. intros Hm Hk x HI. unfold bind. specialize (Hm x HI). destruct (m x) as [[a|e] y]; [|done]. by apply Hk. Qed.
Lemma mstays_attempt {A} t u (m : MM A) : mstays t u m -> mstays t u (attempt m).
Proof. intros Hm x HI. unfold attempt. specialize (Hm x HI). by destruct (m x). Qed.
Lemma mstays_repo {A} t u (m : Store.M A) :
  preserves (fun d => requests d = t /\ executions d = u) m -> mstays t u (repo m).
Proof. intros Hm x HI. unfold repo. specialize (Hm (store x) HI). by destruct (m (store x)) as [[a|e] st]. Qed.
Lemma mstays_count t u r e : mstays t u (count_end r e).
Proof.
  intros x HI. unfold count_end, stats_end.
  destruct (State.Failed (r_JobState r)); [|destruct (State.Paused (r_JobState r))]; case_match; done.
Qed.
Lemma mstays_publish t u e : mstays t u (publish e).
Proof. intros x HI. unfold publish. by destruct (publish_ok _). Qed.

(** No request with this identifier, or with this execution, is ready. *)
Definition stale (requestID executionID : string) (t : list RequestRow) : Prop :=
  forall r, r ∈ t -> r_ID r = requestID \/ r_JobExecutionID r = Some executionID -> r_JobState r <> State.READY.

Lemma count_none {A} (p : A -> bool) t : (forall x, x ∈ t -> p x = false) -> Sql.count p t = 0.
Proof.
  intros Hp. destruct (Z.eq_dec (Sql.count p t) 0) as [|Hne]; [done|]. exfalso.
  assert (0 < Sql.count p t) as Hc by (unfold Sql.count in *; lia).
  apply count_pos in Hc as (x & Hx & Hpx). by rewrite Hp in Hpx.
Qed.

Lemma update_none p f d : (forall x, x ∈ requests d -> p x = false) -> Store.update_requests p f d = (0, d).
Proof.
  intros Hp%count_none. unfold Store.update_requests. rewrite Hp, count_zero_update by done. by destruct d.
Qed.

Lemma stale_update requestID executionID t u new msg code delay retried paused :
  stale requestID executionID t ->
  preserves (fun d => requests d = t /\ executions d = u)
    (Requests.UpdateJobState requestID State.READY new msg code delay retried paused).
Proof.
  intros Hs. unfold Requests.UpdateJobState. store_split; try done.
  match goal with H : _ /\ _ |- _ => destruct H as [<- <-] end. rewrite update_none; [done|].
  intros x Hx. destruct (Requests.by_id requestID x) eqn:Ei; [|done]. cbn. apply String.eqb_eq in Ei.
  apply String.eqb_neq. apply (Hs x); [done|by left].
Qed.

Lemma stale_move requestID executionID f g st :
  stale requestID executionID (requests (Store.db st)) ->
  Store.db (snd (Executions.move_both executionID State.READY f g st)) = Store.db st.
Proof.
  intros Hs. unfold Executions.move_both, Store.bind, Store.exec. destruct (Store.err (Store.statements st)); [done|].
  rewrite update_none; cycle 1.
  { intros x Hx. unfold Executions.request_in, Sql.null_eq. destruct (r_JobExecutionID x) as [i|] eqn:Ex; [|done].
    destruct (String.eqb_spec i executionID) as [->|]; [|done]. cbn. apply String.eqb_neq. apply (Hs x); [done|by right]. }
  cbn. unfold Store.try, Store.query, Store.exec. cbn. by destruct (Store.err _).
Qed.

Lemma stale_finalize requestID executionID t u new msg code cpu delay retried paused :
  stale requestID executionID t ->
  preserves (fun d => requests d = t /\ executions d = u)
    (Executions.FinalizeJobRequestAndExecutionState executionID State.READY new msg code cpu delay retried paused).
Proof.
  intros Hs. unfold Executions.FinalizeJobRequestAndExecutionState. store_step; [store_split|].
  apply preserves_transaction. store_step; [store_split|].
  intros st [H1 H2]. rewrite (stale_move requestID) by (by rewrite H1). done.
Qed.

Ltac stays_step :=
  lazymatch goal with
  | |- stays _ (sbind _ _) => apply stays_bind; [|intros ?]
  | |- stays _ (sattempt _) => apply stays_attempt
  | |- stays _ (if ?b then _ else _) => destruct b
  | |- stays _ (match ?x with _ => _ end) => destruct x
  | |- stays _ _ => by intros ? ?
  end.

Lemma stale_request_state qc req executionID t u new msg code delay retried :
  stale (r_ID (i_row req)) executionID t -> r_CronTriggered (i_row req) = false ->
  mstays t u (UpdateJobRequestState qc req State.READY new msg code delay retried false).
Proof.
  intros Hs Hc. unfold UpdateJobRequestState. cbv zeta. rewrite Hc, andb_false_r.
  apply mstays_bind; [by apply mstays_attempt, mstays_repo, (stale_update _ executionID)|intros a].
  destruct (new == State.PENDING); [apply mstays_bind; [by intros ? ?|intros _]|]; by destruct a; intros ? ?.
Qed.

Lemma stale_finalize_state qc req e t u delay retried :
  stale (r_ID (i_row req)) (e_ID e) t -> r_CronTriggered (i_row req) = false ->
  mstays t u (FinalizeJobRequestAndExecutionState qc req e State.READY delay retried).
Proof.
  intros Hs Hc. unfold FinalizeJobRequestAndExecutionState. cbv zeta. rewrite Hc, andb_false_r.
  apply mstays_bind; [by intros ? ?|intros reg].
  apply mstays_bind; [by apply mstays_attempt, mstays_repo, (stale_finalize (r_ID (i_row req)))|intros fin].
  apply mstays_bind; [apply mstays_count|intros _].
  apply mstays_bind; [by destruct (forked _); intros ? ?|intros _]. by destruct fin; intros ? ?.
Qed.

(** The delay is kept in the definition only. *)
Lemma delay_machine m : same_machine m (snd (GetDelayBetweenRetries m)) /\ revertState (snd (GetDelayBetweenRetries m)) = revertState m.
Proof.
  unfold GetDelayBetweenRetries. destruct (JobDefinition m) as [[d jd]|]; [|done].
  destruct (Job.GetDelayBetweenRetries _ _ _ _) as [z jd']. done.
Qed.

(** The request of the machine stays the same but for its state. *)
Definition same_request (m m' : Jsm) : Prop :=
  r_ID (req_row m') = r_ID (req_row m) /\ r_CronTriggered (req_row m') = r_CronTriggered (req_row m).

Lemma stays_bind_post {A B} I (Q : A -> Prop) (m : SM A) (k : A -> SM B) :
  stays I m -> (forall s a s', m s = (Ok a, s') -> Q a) -> (forall a, Q a -> stays I (k a)) -> stays I (sbind m k).
Proof.
  intros Hm HQ Hk s HI. unfold sbind. specialize (Hm s HI). destruct (m s) as [[a|e| |] s1] eqn:E; cbn in *; try done.
  apply Hk; [|done]. by eapply HQ.
Qed.

(** Finishing an execution that the machine has, if it has one. *)
Definition finish_execution (m : Jsm) (code : string) (err : serror) : SM (Jsm * option (option serror)) :=
  match JobExecution m with
  | None => sret (m, None)
  | Some e =>
      let e := failed_execution m State.FAILED (describe err) code e in
      let '(delay, m) := GetDelayBetweenRetries (with_JobExecution m (Some e)) in
      sbind (sattempt (mgr (FinalizeJobRequestAndExecutionState (QueryContext m) (Request m) e State.READY delay
                              (r_Retried (req_row m)))))
        (fun r => sbind (mgr (audit (r_ID (req_row m)) JobRequestFailed))
           (fun _ => sret (m, Some (match r with inl _ => None | inr e => Some e end))))
  end.

Lemma finish_request m code err s a s' : finish_execution m code err s = (Ok a, s') -> same_request m (fst a).
Proof.
  unfold finish_execution. destruct (JobExecution m) as [e|]; [|by intros [= <- _]]. cbv zeta.
  set (m1 := with_JobExecution m _). pose proof (delay_machine m1) as [[HR _] _].
  destruct (GetDelayBetweenRetries m1) as [delay m2]. cbn [snd] in HR.
  intros (r & s1 & _ & (u & s2 & _ & [= <- _])%sbind_ok)%sbind_ok. unfold same_request. cbn. by rewrite HR.
Qed.

Lemma stale_finish m code err executionID t u :
  stale (r_ID (req_row m)) executionID t -> r_CronTriggered (req_row m) = false ->
  (forall e, JobExecution m = Some e -> e_ID e = executionID) ->
  stays (rows_are t u) (finish_execution m code err).
Proof.
  intros Hs Hc He. unfold finish_execution. destruct (JobExecution m) as [e|]; [|by intros ? ?]. cbv zeta.
  specialize (He e eq_refl). set (e1 := failed_execution _ _ _ _ _). pose proof (delay_machine (with_JobExecution m (Some e1))) as [[HR _] _].
  destruct (GetDelayBetweenRetries _) as [delay m2]. cbn [snd] in HR.
  apply stays_bind; [apply stays_attempt, stays_mgr, stale_finalize_state; rewrite HR; cbn; by rewrite ?He|intros r].
  apply stays_bind; [apply stays_mgr; by intros ? ?|intros _; by intros ? ?].
Qed.

Lemma stale_failed m executionID t u err code :
  stale (r_ID (req_row m)) executionID t -> r_CronTriggered (req_row m) = false ->
  (forall e, JobExecution m = Some e -> e_ID e = executionID) ->
  stays (rows_are t u) (failed m State.READY false err code).
Proof.
  intros Hs Hc He. set (code' := if code == "" then ErrorCodes.ErrorJobExecute else code).
  change (failed m State.READY false err code) with (sbind (finish_execution (SetJobState m State.FAILED) code' err)
    (fun saved => let '(m, outcome) := saved in let '(delay, m) := GetDelayBetweenRetries m in
       match outcome with
       | Some None => sret (m, None)
       | _ => let m := SetJobState m State.FAILED in
              sbind (sattempt (mgr (UpdateJobRequestState (QueryContext m) (Request m) State.READY State.FAILED (describe err)
                                      code' delay 0 false)))
                (fun r => sret (m, match r with inl _ => None | inr e => Some e end))
       end)).
  eapply stays_bind_post; [by eapply stale_finish|intros s a s'; apply finish_request|].
  intros [m1 out] [Hid Hcr]. cbn [fst] in Hid, Hcr. pose proof (delay_machine m1) as [[HR _] _].
  destruct (GetDelayBetweenRetries m1) as [delay m2]. cbn [snd] in HR.
  destruct out as [[e|]|]; [|by intros ? ?|];
    (apply stays_bind; [|by intros ? ? ?]; apply stays_attempt, stays_mgr, (stale_request_state _ _ executionID);
     cbn; rewrite HR; [by rewrite Hid|by rewrite Hcr]).
Qed.

Lemma stays_lifecycle t u m : stays (rows_are t u) (sendJobExecutionLifecycleEvent m).
Proof.
  unfold sendJobExecutionLifecycleEvent, publishJobWebhook.
  repeat match goal with |- stays _ (mgr _) => apply stays_mgr, mstays_publish | _ => stays_step end.
Qed.

Lemma stays_query {A} t u (m : Store.M A) :
  preserves (fun d => requests d = t /\ executions d = u) m -> stays (rows_are t u) (mgr (repo m)).
Proof. intros Hm. by apply stays_mgr, mstays_repo. Qed.

Lemma stays_load t u id : stays (rows_are t u) (load_request id).
Proof.
  unfold load_request. apply stays_bind; [|by intros ? ? ?]. apply stays_mgr. unfold GetJobRequest.
  apply mstays_bind; [apply mstays_repo; unfold Requests.Get, Requests.first; store_split; done|intros r].
  apply mstays_bind; [|by intros ? ? ?]. destruct (text _ != ""); [|by intros ? ?].
  apply mstays_bind; [apply mstays_attempt, mstays_repo, ExecGet_rows|by intros ? ? ?].
Qed.

Lemma stays_Validate t u m : stays (rows_are t u) (Validate m).
Proof.
  unfold Validate. cbv zeta.
  repeat match goal with
  | |- stays _ (mgr (repo (Requests.GetParams _))) => apply stays_query; unfold Requests.GetParams; store_split; done
  | |- stays _ (mgr (GetJobDefinition _ _)) =>
      apply stays_query; unfold Definitions.Get, Definitions.found, Definitions.check_access; store_split; done
  | |- stays _ (mgr (GetUser _)) => apply stays_mgr; intros x Hx; unfold GetUser; by destruct (_ !! _)
  | _ => stays_step
  end.
Qed.

Lemma stays_Prepare t u m id : stays (rows_are t u) (PrepareLaunch m id).
Proof.
  unfold PrepareLaunch. apply stays_bind; [apply stays_Validate|]. intros [m1 [e|]]; [by intros ? ?|]. cbv zeta.
  repeat match goal with
  | |- stays _ (mgr (repo (Executions.Get _))) => apply stays_query, ExecGet_rows
  | _ => stays_step
  end.
Qed.

(** The machine of a launch that was refused. *)
Lemma Prepare_machine m id s m' e s' :
  PrepareLaunch m id s = (Ok (m', Some e), s') ->
  req_row m' = req_row m /\
  (JobExecution m' = JobExecution m \/ requeued e = false /\ exists x, JobExecution m' = Some x /\ e_ID x = id).
Proof.
  unfold PrepareLaunch. intros ([m1 e1] & s1 & E1 & HB)%sbind_ok.
  apply Validate_machine in E1 as ((R1 & X1 & _) & _ & _). destruct e1 as [e1|]; [by injection HB as <- _ _; auto|].
  cbv zeta in HB. destruct (id == ""); [by injection HB as <- _ _; auto|].
  destruct (negb _); [by injection HB as <- _ _; auto|]. destruct (unreserved _ _); [by injection HB as <- _ _; auto|].
  apply sbind_ok in HB as (ex & s2 & E2%sattempt_ok & HB). destruct ex as [[x ts]|x]; cycle 1.
  { by injection HB as <- <- _; auto. }
  apply mgr_ok in E2 as (y & (st & -> & E2)%repo_inv & ->). apply execution_loaded in E2 as [_ Hid].
  destruct (id != _) in HB; [injection HB as <- <- _; split; [done|right; eauto]|].
  apply sbind_ok in HB as (last & s3 & _ & HB). destruct (_ || _) in HB; [|done]. injection HB as <- <- _.
  split; [done|right; eauto].
Qed.

Lemma stale_Revert m t u executionID err :
  stale (r_ID (req_row m)) executionID t -> r_CronTriggered (req_row m) = false -> JobExecution m = None ->
  stays (rows_are t u) (RevertRequestToPendingPaused m err).
Proof.
  intros Hs Hc He. unfold RevertRequestToPendingPaused. apply stays_bind; [by intros ? ?|intros _].
  pose proof (delay_machine m) as [(HR & HX & _) _]. destruct (GetDelayBetweenRetries m) as [delay m1]. cbn [snd] in HR, HX.
  apply stays_bind; [|intros r].
  - apply stays_attempt, stays_mgr, (stale_request_state _ _ executionID); by rewrite HR.
  - cbn [JobExecution SetJobState with_Request]. rewrite HX, He. cbv zeta. apply stays_bind; [by intros ? ?|].
    intros a. destruct a as [[?|?]|]; destruct r; by intros ? ?.
Qed.

Lemma stale_LaunchFailed m t u executionID err :
  stale (r_ID (req_row m)) executionID t -> r_CronTriggered (req_row m) = false ->
  (forall e, JobExecution m = Some e -> e_ID e = executionID) ->
  stays (rows_are t u) (LaunchFailed m err).
Proof.
  intros Hs Hc He. unfold LaunchFailed. apply stays_bind; [by eapply stale_failed|intros r].
  apply stays_bind; [apply stays_attempt, stays_lifecycle|intros _]. unfold fail_with. by destruct (snd r); intros ? ?.
Qed.

(** A launch message that comes late, or twice, is harmless to the tables:
    when neither its request nor any request of its execution is ready, no
    request and no execution changes and no supervisor starts, whatever fails. *)
Theorem late_launch_changes_no_row requestID executionID reservations s res s'
    (late : stale requestID executionID (requests (store_db s)))
    (not_cron : forall r, r ∈ requests (store_db s) -> r_ID r = requestID -> r_CronTriggered r = false)
    (received : launchJob requestID executionID reservations s = (res, s')) :
  requests (store_db s') = requests (store_db s) /\ executions (store_db s') = executions (store_db s) /\
  supervisors s' = supervisors s.
Proof.
  set (t := requests (store_db s)) in *. set (u := executions (store_db s)).
  assert (rows_are t u s) as H0 by done. unfold launchJob, sbind in received.
  pose proof (stays_load t u requestID s H0) as H1. pose proof (keeps_load supervisors requestID ltac:(done) s) as K1.
  destruct (load_request requestID s) as [[req|e| |] s1] eqn:E1.
  2-4: injection received as <- <-; by destruct H1.
  apply load_request_ok in E1 as (_ & Hin & Hid). cbn in H1, K1.
  set (m0 := NewJobExecutionStateMachine req reservations) in *.
  pose proof (stays_Prepare t u m0 executionID s1 H1) as H2.
  pose proof (keeps_PrepareLaunch supervisors m0 executionID ltac:(done) s1) as K2.
  destruct (PrepareLaunch m0 executionID s1) as [[[m [e|]]|e| |] s2] eqn:E2; cbn in H2, K2.
  3-5: injection received as <- <-; split_and!; [apply H2..|congruence].
  - apply Prepare_machine in E2 as [HR HX]. assert (stale (r_ID (req_row m)) executionID t) as Hs by (rewrite HR; cbn; by rewrite Hid).
    assert (r_CronTriggered (req_row m) = false) as Hc by (rewrite HR; by apply not_cron).
    destruct (requeued e) eqn:Eq.
    + destruct HX as [HX|[HX _]]; [|congruence]. pose proof (stale_Revert m t u executionID e Hs Hc HX s2 H2) as H3.
      pose proof (keeps_Revert supervisors m e ltac:(done) ltac:(done) s2) as K3. rewrite received in H3, K3.
      split_and!; [apply H3..|cbn in K3; congruence].
    + pose proof (stale_LaunchFailed m t u executionID e Hs Hc) as H3.
      pose proof (keeps_LaunchFailed supervisors m e ltac:(done) s2) as K3. rewrite received in K3.
      assert (stays (rows_are t u) (LaunchFailed m e)) as H4.
      { apply H3. intros x Hx. destruct HX as [HX|(_ & y & HX & Hy)]; [by rewrite HX in Hx|congruence]. }
      specialize (H4 s2 H2). rewrite received in H4. split_and!; [apply H4..|cbn in K3; congruence].
  - exfalso. apply PrepareLaunch_ok in E2 as (_ & Hst & _). cbn in Hst. apply (late (i_row req)); [done|by left|done].
Qed.
End Launcher.

(** ** Restarting *)
Section Restart.
Import Rows JobManager.Manager Fsm.
Context `{env : Store.Env, cron : Schedule.Cron, dec : NameValue.Decoder, ord : RangeOrder, calls : Calls, sched : Fsm.Scheduling}.

(** A running job that was scheduled from PENDING is never put back: the
    transition table has no step from EXECUTING to PENDING, so restarting such a
    job always ends with an error and leaves every table as it was. *)
Theorem restart_to_pending_is_refused m err s
    (from_pending : revertState m = State.PENDING) :
  exists s', RestartJobBackToPendingPaused m err s = (Err (Mgr (Repo Store.TransitionError)), s') /\
    store_db s' = store_db s.
Proof.
  unfold RestartJobBackToPendingPaused, forceReleaseJobResources, sbind. cbv beta iota.
  pose proof (delay_machine m) as [_ HV]. destruct (GetDelayBetweenRetries m) as [delay m1]. cbn [snd] in HV.
  cbv zeta. cbn [revertState with_Request]. rewrite HV, from_pending.
  unfold mgr, UpdateJobRequestState, Requests.UpdateJobState. cbv zeta. change (State.CanTransitionTo State.EXECUTING State.PENDING) with false.
  eexists. split; [reflexivity|]. done.
Qed.

End Restart.

(** ** Concrete messages *)
Module LauncherDemo.
Import Rows JobManager.Manager Fsm Scheduler.Scheduling Launching SchedulerDemo.

(** The message of the first launch, received once and received again when the
    job runs. *)
Definition ready : SS := snd (run calm usual start).
Definition sent : Launch := match launches ready with l :: _ => l | [] => mkLaunch "" "" "" "" ∅ end.
Definition receive (s : SS) : result unit * SS :=
  @launchJob calm demo_cron demo_decoder map_to_list_order demo_calls usual (l_JobRequestID sent) (l_JobExecutionID sent)
    (l_Reservations sent) s.
Definition running_request : RequestRow := set_r_JobExecutionID (Some "ulid-0") (relative "q1" "" State.EXECUTING).
Definition running_execution : ExecRow :=
  mkExecRow "ulid-0" "q1" true "build" "" State.EXECUTING 0 "user" "org" "" "" "" 10 None 1000000000000.
Definition running : SS := demo_ss [running_request] [running_execution] ants.

Lemma supervisor_starts_only_ready_jobs_witness :
  supervisors ready = ∅ /\
  supervisors (snd (receive ready)) = <["q1" := "ulid-0"]> (supervisors ready).
Proof.
  split; [vm_compute; reflexivity|].
  refine (proj1 (@supervisor_starts_only_ready_jobs calm demo_cron demo_decoder map_to_list_order demo_calls usual
            (l_JobRequestID sent) (l_JobExecutionID sent) (l_Reservations sent) ready (snd (receive ready)) _ _)).
  - vm_compute. reflexivity.
  - vm_compute. discriminate.
Defined.

Lemma late_launch_changes_no_row_witness :
  requests (store_db (snd (receive running))) = [running_request] /\
  executions (store_db (snd (receive running))) = [running_execution] /\ supervisors (snd (receive running)) = ∅.
Proof.
  refine (@late_launch_changes_no_row calm demo_cron demo_decoder map_to_list_order demo_calls usual
            (l_JobRequestID sent) (l_JobExecutionID sent) (l_Reservations sent) running (fst (receive running))
            (snd (receive running)) _ _ (surjective_pairing _)).
  - intros r Hr _. vm_compute in Hr. apply elem_of_cons in Hr as [->|Hr]; [discriminate|by apply not_elem_of_nil in Hr].
  - intros r Hr _. vm_compute in Hr. apply elem_of_cons in Hr as [->|Hr]; [reflexivity|by apply not_elem_of_nil in Hr].
Defined.

(** But the job is counted as failed, and its failure is published, which makes
    the launcher forget its supervisor. *)
Example second_launch_reports_a_failure :
  count running = 0 /\ count (snd (receive running)) = -1 /\
  published (ms (snd (receive running))) = [JobExecutionLifecycle "user" "q1" "build" "ulid-0" State.FAILED 5].
Proof. vm_compute. repeat split. Qed.

Lemma restart_to_pending_is_refused_witness :
  let m := with_revertState (NewJobExecutionStateMachine (info_of running_request) ∅) State.PENDING in
  exists s', @RestartJobBackToPendingPaused calm demo_cron demo_decoder map_to_list_order demo_calls usual m NotSent running
      = (Err (Mgr (Repo Store.TransitionError)), s') /\ store_db s' = store_db running.
Proof.
  exact (@restart_to_pending_is_refused calm demo_cron demo_decoder map_to_list_order demo_calls usual
           (with_revertState (NewJobExecutionStateMachine (info_of running_request) ∅) State.PENDING) NotSent running eq_refl).
Defined.
End LauncherDemo.
