(* ===== verification/TaskMessage.v ===== *)
(** * TaskMessage: the requests and replies exchanged with ants

    Models [src/internal/types/task_request.go], [task_response.go],
    [variable_value.go], [sub_workflow_config.go] and the part of
    [executor_opts.go] that the queen's own tasklets read: the request for one
    task with its variables and options, its validation and keys, masking of
    secrets, and the reply that is built up with contexts, artifacts and errors. *)

From S2P Require Import Prelude RequestState Tags JobDefinition Tables JobRequest.
From Stdlib Require Import Ascii.

Open Scope Z_scope.

Module Message.
Import NameValue.

(** ** Variables *)
Record VariableValue := mkVariableValue { var_Value : value; var_Secret : bool }.
Definition NewVariableValue (v : value) (secret : bool) : VariableValue := mkVariableValue v secret.
Definition VariableValuesToMap (vars : gmap string VariableValue) : gmap string value := var_Value <$> vars.
Definition MaskVariableValues (all : gmap string VariableValue) : gmap string VariableValue :=
  filter (fun kv => var_Secret (snd kv) = false) all.

(** ** Child workflows *)
Record SubWorkflowConfig := mkSubWorkflowConfig {
  InputParams : list (string * string);
  OutputVariables : list (string * string);
  WaitForCompletion : bool
}.

(** A list of names and values as a map; a name given twice is an error. *)
Fixpoint unique_map (l : list (string * string)) (m : gmap string string) : option (gmap string string) :=
  match l with
  | [] => Some m
  | (name, v) :: rest =>
      match m !! name with
      | Some _ => None
      | None => unique_map rest (<[name := v]> m)
      end
  end.
Definition InputMap (c : option SubWorkflowConfig) : option (gmap string string) :=
  match c with Some c => unique_map (InputParams c) ∅ | None => Some ∅ end.
Definition OutputMap (c : option SubWorkflowConfig) : option (gmap string string) :=
  match c with Some c => unique_map (OutputVariables c) ∅ | None => Some ∅ end.

(** ** Options of the executor *)
Record ExecutorOptions := mkExecutorOptions {
  opt_Method : TaskMethod;
  opt_ForkJobType : string;
  opt_ForkJobVersion : string;
  ArtifactKeyPrefix : string;
  AwaitForkedTasks : list string;
  SubWorkflow : option SubWorkflowConfig;
  opt_FanOut : option FanOut.FanOutConfig
}.
Definition NewExecutorOptions (method : TaskMethod) : ExecutorOptions :=
  mkExecutorOptions method "" "" "" [] None None.

Inductive options_error := MethodMissing | MethodUnsupported | ForkJobTypeMissing | AwaitedTasksMissing.
Definition options_Validate (opt : ExecutorOptions) : option options_error :=
  if opt_Method opt == "" then Some MethodMissing
  else if negb (Method.IsValid (opt_Method opt)) then Some MethodUnsupported
  else if (opt_Method opt == Method.ForkJob) && (opt_ForkJobType opt == "") then Some ForkJobTypeMissing
  else if (opt_Method opt == Method.AwaitForkedJob) && (List.length (AwaitForkedTasks opt) =? 0)%nat
  then Some AwaitedTasksMissing
  else None.

(** ** Requests *)
Abbreviation TaskAction := string (only parsing).
Definition PING : TaskAction := "PING".
Definition EXECUTE : TaskAction := "EXECUTE".
Definition CANCEL : TaskAction := "CANCEL".
Definition TERMINATE : TaskAction := "TERMINATE_CONTAINER".
Definition LIST : TaskAction := "LIST_CONTAINERS".

Record TaskRequest := mkTaskRequest {
  UserID : string;
  OrganizationID : string;
  JobDefinitionID : string;
  JobRequestID : string;
  JobType : string;
  JobTypeVersion : string;
  JobExecutionID : string;
  TaskExecutionID : string;
  TaskType : string;
  CoRelationID : string;
  Action : TaskAction;
  Tags : list string;
  BeforeScript : list string;
  AfterScript : list string;
  Script : list string;
  Timeout : Z;
  Variables : gmap string VariableValue;
  ExecutorOpts : ExecutorOptions
}.

Definition set_Variables (x : gmap string VariableValue) (r : TaskRequest) : TaskRequest :=
  mkTaskRequest (UserID r) (OrganizationID r) (JobDefinitionID r) (JobRequestID r) (JobType r) (JobTypeVersion r)
    (JobExecutionID r) (TaskExecutionID r) (TaskType r) (CoRelationID r) (Action r) (Tags r) (BeforeScript r)
    (AfterScript r) (Script r) (Timeout r) x (ExecutorOpts r).
Definition set_ExecutorOpts (x : ExecutorOptions) (r : TaskRequest) : TaskRequest :=
  mkTaskRequest (UserID r) (OrganizationID r) (JobDefinitionID r) (JobRequestID r) (JobType r) (JobTypeVersion r)
    (JobExecutionID r) (TaskExecutionID r) (TaskType r) (CoRelationID r) (Action r) (Tags r) (BeforeScript r)
    (AfterScript r) (Script r) (Timeout r) (Variables r) x.
Definition set_AwaitForkedTasks (x : list string) (o : ExecutorOptions) : ExecutorOptions :=
  mkExecutorOptions (opt_Method o) (opt_ForkJobType o) (opt_ForkJobVersion o) (ArtifactKeyPrefix o) x (SubWorkflow o)
    (opt_FanOut o).

Definition TaskKey (requestID taskType : string) : string := requestID +:+ "-" +:+ taskType.
Definition Key (req : TaskRequest) : string := TaskKey (JobRequestID req) (TaskType req).

Definition KeyPath (req : TaskRequest) : string :=
  let userOrg := if OrganizationID req == "" then UserID req else OrganizationID req in
  let prefix := ArtifactKeyPrefix (ExecutorOpts req) in
  let prefix := if prefix == "" then "job-" +:+ JobRequestID req +:+ "/" +:+ TaskType req else prefix in
  NormalizePrefix userOrg +:+ prefix.

Definition AddVariable (name : string) (v : value) (secret : bool) (req : TaskRequest) : TaskRequest :=
  set_Variables (<[name := NewVariableValue v secret]> (Variables req)) req.

Inductive request_error :=
| ActionMissing | RequestIDMissing | ExecutionIDMissing | TaskExecutionIDMissing | JobTypeMissing | TaskTypeMissing
| ScriptMissing | OptionsInvalid (e : options_error).

Definition Validate (req : TaskRequest) : option request_error :=
  if Action req == "" then Some ActionMissing
  else if (Action req == EXECUTE) || (Action req == CANCEL) then
    if JobRequestID req == "" then Some RequestIDMissing
    else if JobExecutionID req == "" then Some ExecutionIDMissing
    else if TaskExecutionID req == "" then Some TaskExecutionIDMissing
    else if JobType req == "" then Some JobTypeMissing
    else if TaskType req == "" then Some TaskTypeMissing
    else if Method.RequiresScript (opt_Method (ExecutorOpts req)) && (List.length (Script req) =? 0)%nat
    then Some ScriptMissing
    else match options_Validate (ExecutorOpts req) with
         | Some e => Some (OptionsInvalid e)
         | None => None
         end
  else None.

(** ** Replies *)
Record TaskResponse := mkTaskResponse {
  re_JobRequestID : string;
  re_TaskExecutionID : string;
  re_JobType : string;
  re_JobTypeVersion : string;
  re_TaskType : string;
  re_CoRelationID : string;
  Status : RequestState;
  AntID : string;
  Host : string;
  ErrorMessage : string;
  ErrorCode : string;
  ExitCode : string;
  ExitMessage : string;
  TaskContext : gmap string value;
  JobContext : gmap string value;
  Artifacts : list string;
  Warnings : list string
}.

Definition NewTaskResponse (req : TaskRequest) : TaskResponse :=
  mkTaskResponse (JobRequestID req) (TaskExecutionID req) (JobType req) (JobTypeVersion req) (TaskType req)
    (CoRelationID req) State.UNKNOWN "" "" "" "" "" "" ∅ ∅ [] [].

Definition set_Status (x : RequestState) (r : TaskResponse) : TaskResponse :=
  mkTaskResponse (re_JobRequestID r) (re_TaskExecutionID r) (re_JobType r) (re_JobTypeVersion r) (re_TaskType r)
    (re_CoRelationID r) x (AntID r) (Host r) (ErrorMessage r) (ErrorCode r) (ExitCode r) (ExitMessage r) (TaskContext r)
    (JobContext r) (Artifacts r) (Warnings r).
Definition set_AntHost (ant host : string) (r : TaskResponse) : TaskResponse :=
  mkTaskResponse (re_JobRequestID r) (re_TaskExecutionID r) (re_JobType r) (re_JobTypeVersion r) (re_TaskType r)
    (re_CoRelationID r) (Status r) ant host (ErrorMessage r) (ErrorCode r) (ExitCode r) (ExitMessage r) (TaskContext r)
    (JobContext r) (Artifacts r) (Warnings r).
Definition set_ErrorMessage (x : string) (r : TaskResponse) : TaskResponse :=
  mkTaskResponse (re_JobRequestID r) (re_TaskExecutionID r) (re_JobType r) (re_JobTypeVersion r) (re_TaskType r)
    (re_CoRelationID r) (Status r) (AntID r) (Host r) x (ErrorCode r) (ExitCode r) (ExitMessage r) (TaskContext r)
    (JobContext r) (Artifacts r) (Warnings r).
Definition set_ErrorCode (x : string) (r : TaskResponse) : TaskResponse :=
  mkTaskResponse (re_JobRequestID r) (re_TaskExecutionID r) (re_JobType r) (re_JobTypeVersion r) (re_TaskType r)
    (re_CoRelationID r) (Status r) (AntID r) (Host r) (ErrorMessage r) x (ExitCode r) (ExitMessage r) (TaskContext r)
    (JobContext r) (Artifacts r) (Warnings r).
Definition set_Exit (code message : string) (r : TaskResponse) : TaskResponse :=
  mkTaskResponse (re_JobRequestID r) (re_TaskExecutionID r) (re_JobType r) (re_JobTypeVersion r) (re_TaskType r)
    (re_CoRelationID r) (Status r) (AntID r) (Host r) (ErrorMessage r) (ErrorCode r) code message (TaskContext r)
    (JobContext r) (Artifacts r) (Warnings r).
Definition AddContext (name : string) (v : value) (r : TaskResponse) : TaskResponse :=
  mkTaskResponse (re_JobRequestID r) (re_TaskExecutionID r) (re_JobType r) (re_JobTypeVersion r) (re_TaskType r)
    (re_CoRelationID r) (Status r) (AntID r) (Host r) (ErrorMessage r) (ErrorCode r) (ExitCode r) (ExitMessage r)
    (<[name := v]> (TaskContext r)) (JobContext r) (Artifacts r) (Warnings r).
Definition AddJobContext (name : string) (v : value) (r : TaskResponse) : TaskResponse :=
  mkTaskResponse (re_JobRequestID r) (re_TaskExecutionID r) (re_JobType r) (re_JobTypeVersion r) (re_TaskType r)
    (re_CoRelationID r) (Status r) (AntID r) (Host r) (ErrorMessage r) (ErrorCode r) (ExitCode r) (ExitMessage r)
    (TaskContext r) (<[name := v]> (JobContext r)) (Artifacts r) (Warnings r).
Definition AddArtifact (artifact : string) (r : TaskResponse) : TaskResponse :=
  mkTaskResponse (re_JobRequestID r) (re_TaskExecutionID r) (re_JobType r) (re_JobTypeVersion r) (re_TaskType r)
    (re_CoRelationID r) (Status r) (AntID r) (Host r) (ErrorMessage r) (ErrorCode r) (ExitCode r) (ExitMessage r)
    (TaskContext r) (JobContext r) (Artifacts r ++ [artifact]) (Warnings r).
Definition AddWarning (warning : string) (r : TaskResponse) : TaskResponse :=
  mkTaskResponse (re_JobRequestID r) (re_TaskExecutionID r) (re_JobType r) (re_JobTypeVersion r) (re_TaskType r)
    (re_CoRelationID r) (Status r) (AntID r) (Host r) (ErrorMessage r) (ErrorCode r) (ExitCode r) (ExitMessage r)
    (TaskContext r) (JobContext r) (Artifacts r) (Warnings r ++ [warning]).

Definition ErrorResponse (message : string) (req : TaskRequest) : TaskResponse :=
  set_Status State.FAILED (set_ErrorMessage message (NewTaskResponse req)).

Definition AdditionalError (warning : string) (fatal : bool) (r : TaskResponse) : TaskResponse :=
  let warning := TrimSpace warning in
  if warning == "" then r
  else if fatal && (Status r != State.FAILED) then set_Status State.FAILED (set_ErrorMessage warning r)
  else AddWarning warning r.

Inductive response_error := ReplyTaskExecutionIDMissing | ReplyJobTypeMissing | ReplyTaskTypeMissing | ReplyStatusMissing.
Definition response_Validate (r : TaskResponse) : option response_error :=
  if re_TaskExecutionID r == "" then Some ReplyTaskExecutionIDMissing
  else if re_JobType r == "" then Some ReplyJobTypeMissing
  else if re_TaskType r == "" then Some ReplyTaskTypeMissing
  else if Status r == "" then Some ReplyStatusMissing
  else None.

End Message.
