(* ===== verification/Tasklet.v ===== *)
(** * Tasklet: tasks that the queen runs itself

    Models [src/queen/tasklet]: forking a child job ([job_fork_tasklet.go]),
    waiting for children ([job_waiter.go], [job_fork_wait_tasklet.go]) and fanning
    out over the items of an array ([fan_out_tasklet.go]).

    - [Module Waiter]: the polls of a waiter, the loop around them, and the reply
      built from the executions of the children.
    - [Module Fork]: the child request of a fork, with or without waiting for it.
    - [Module Fan]: one request per item sent to ants, as steps of concurrent
      goroutines over a semaphore, a cancellable context and the resource
      manager; child jobs instead of requests; and the joined reply.

    The job manager and the resource manager are those of [JobManager] and
    [Resource].  Templates, JSON and the formatting of arbitrary values are
    arguments, as are the replies of ants and what other goroutines do to the
    state while a waiter sleeps. *)

From S2P Require Import Prelude RequestState Acl Tags Resource JobDefinition Approval Stats Tables JobStore JobRequest JobManager TaskMessage.
From Stdlib Require Import Ascii.

Open Scope Z_scope.

(** Errors of the tasklets, in the order of the code. *)
Inductive terror :=
| Mgr (e : JobManager.Manager.merror)
| NoAwaitedTasks | JobIDMissing (key : string)
| NotSubscribed | ContextDone | NotAllReceived | ExecutionMissing (requestID : string) (e : JobManager.Manager.merror)
| ForkTypeMissing | JobDisabled | DuplicateName | Unresolved (param : string) | ParamInvalid (param : string)
| FanOutMissing | FanOutInvalid (e : FanOut.fan_out_error) | SourceMissing (source : string) | SourceNotArray (source : string)
| FanOutFailed (e : terror) | SpawnFailed (idx : nat) (e : terror) | WaiterFailed (e : terror) | WaitFailed (e : terror) | BuildFailed (e : terror)
| MethodNotSet (idx : nat) | NotReservable (idx : nat) (e : Alloc.reserve_error) | NotMarshalled (idx : nat) (e : Message.request_error)
| SendFailed (idx : nat) (reason : string) | NoReply (idx : nat) | BadReply (idx : nat) (reason : string).

(** Templates, formatting and the text of errors. *)
Class Texts := {
  ParseTemplate : string -> gmap string NameValue.value -> option string;
  (** [%v] of a value that is neither a string, a boolean nor an integer. *)
  sprint_other : string -> option string -> string;
  (** A value that is already an array; a text that is a JSON array. *)
  as_array : NameValue.value -> option (list NameValue.value);
  json_array : string -> option (list NameValue.value);
  describe : terror -> string;
  (** The columns of an execution that its row leaves out. *)
  exit_columns : string -> string * string
}.

Definition sprint `{Texts} (v : NameValue.value) : string :=
  match v with
  | NameValue.VNil => "<nil>"
  | NameValue.VString s => s
  | NameValue.VBool b => if b then "true" else "false"
  | NameValue.VInt _ z => itoa z
  | NameValue.VOther k json => sprint_other k json
  end.

Definition forkedJobIDSuffix : string := ".ForkedJobID".
Definition forkedJobTypeSuffix : string := ".ForkedJobType".
Definition forkedJobVersionSuffix : string := ".ForkedJobVersion".

(** ** Waiter: job_waiter.go *)
Module Waiter.
Import Rows NameValue Request Message JobManager.Manager.
Open Scope manager_scope.

Record JobWaiter := mkJobWaiter {
  requestIDs : list string;
  finished : gmap string RequestRow;
  queryContext : Query.QueryContext;
  subWorkflow : option SubWorkflowConfig
}.
Definition set_finished (x : gmap string RequestRow) (w : JobWaiter) : JobWaiter :=
  mkJobWaiter (requestIDs w) x (queryContext w) (subWorkflow w).

Inductive wake := Cancelled | Notified | Slept.

(** The world around a waiter: whether the subscription works, whether the
    context of the tasklet is done at a poll, how a pause ends, and what happens
    to the state meanwhile. *)
Class World := {
  subscribe_ok : bool;
  context_done : nat -> bool;
  wakes : nat -> wake;
  elsewhere : nat -> MS -> MS
}.

Inductive wait_result := Complete | Failed (e : terror) | Waiting.

Section Waiter.
Context `{env : Store.Env, cron : Schedule.Cron, dec : Decoder, ord : RangeOrder, calls : Calls, texts : Texts}.

(** The identifier of the child that the task forked. *)
Definition job_id (vars : gmap string VariableValue) (taskType : string) : string + terror :=
  let reqKey := taskType +:+ forkedJobIDSuffix in
  match var_Value <$> vars !! reqKey with
  | None | Some VNil => inr (JobIDMissing reqKey)
  | Some (VString s) => if s == "" then inr (JobIDMissing reqKey) else inl s
  | Some v => let s := sprint v in if (s == "") || (s == "<nil>") then inr (JobIDMissing reqKey) else inl s
  end.
Fixpoint job_ids (vars : gmap string VariableValue) (taskTypes : list string) : list string + terror :=
  match taskTypes with
  | [] => inl []
  | t :: rest =>
      match job_id vars t with
      | inr e => inr e
      | inl id => match job_ids vars rest with inl ids => inl (id :: ids) | inr e => inr e end
      end
  end.
Definition buildJobIDs (taskReq : TaskRequest) : list string + terror :=
  match AwaitForkedTasks (ExecutorOpts taskReq) with
  | [] => inr NoAwaitedTasks
  | taskTypes => job_ids (Variables taskReq) taskTypes
  end.

Definition NewJobWaiter (taskReq : TaskRequest) : JobWaiter + terror :=
  match buildJobIDs taskReq with
  | inr e => inr e
  | inl ids => inl (mkJobWaiter ids ∅ (NewQueryContextFromIDs (UserID taskReq) (OrganizationID taskReq))
                      (SubWorkflow (ExecutorOpts taskReq)))
  end.

Definition completed (w : JobWaiter) : bool := (size (finished w) =? List.length (requestIDs w))%nat.

(** The requests that are not yet known to have ended are looked up; the first
    that cannot be loaded ends the poll. *)
Fixpoint poll_each (ids : list string) (w : JobWaiter) : MM (JobWaiter * option merror) :=
  match ids with
  | [] => ret (w, None)
  | id :: rest =>
      match finished w !! id with
      | Some _ => poll_each rest w
      | None =>
          req <- attempt (GetJobRequest (queryContext w) id) ;;
          match req with
          | inr e => ret (w, Some e)
          | inl req =>
              poll_each rest (if State.IsTerminal (r_JobState req) then set_finished (<[id := req]> (finished w)) w else w)
          end
      end
  end.
Definition Poll (done : bool) (w : JobWaiter) : MM (JobWaiter * (bool + terror)) :=
  if done then ret (w, inr ContextDone)
  else
    polled <- poll_each (requestIDs w) w ;;
    match polled with
    | (w, Some e) => ret (w, inr (Mgr e))
    | (w, None) => ret (w, inl (completed w))
    end.

(** *** The loop *)
Context `{world : World}.
Definition second : Z := 1000000000.
Definition next_sleep (sleep : Z) : Z := if sleep * 2 <=? 10 * second then sleep * 2 else sleep.

(** [fuel] bounds the polls; the pauses are those that were started. *)
Fixpoint wait_loop (fuel n : nat) (sleep : Z) (w : JobWaiter) : MM (JobWaiter * wait_result * list Z) :=
  match fuel with
  | O => ret (w, Waiting, [])
  | S fuel =>
      polled <- Poll (context_done n) w ;;
      match polled with
      | (w, inr e) => ret (w, Failed e, [])
      | (w, inl true) => ret (w, Complete, [])
      | (w, inl false) =>
          match wakes n with
          | Cancelled => ret (w, Failed ContextDone, [sleep])
          | Notified | Slept =>
              fun s => match wait_loop fuel (S n) (next_sleep sleep) w (elsewhere n s) with
                       | (inl (w, r, pauses), s) => (inl (w, r, sleep :: pauses), s)
                       | (inr e, s) => (inr e, s)
                       end
          end
      end
  end.
Definition RunAndWait (fuel : nat) (w : JobWaiter) : MM (JobWaiter * wait_result * list Z) :=
  if negb subscribe_ok then ret (w, Failed NotSubscribed, [])
  else wait_loop fuel 0 second w.

(** *** The reply *)
Definition nv_of (o : OwnedRow) : NameTypeValue := mkNameTypeValue (o_Name o) (o_Kind o) (o_Value o) false.

(** A value that cannot be parsed is left out. *)
Definition copy_context (name : string) (nv : NameTypeValue) (r : TaskResponse) : TaskResponse :=
  match GetParsedValue nv with Some v => AddContext name v r | None => r end.
Definition copy_all (contexts : list OwnedRow) (r : TaskResponse) : TaskResponse :=
  foldl (fun r c => copy_context (o_Name c) (nv_of c) r) r contexts.
Definition applyOutputMap (sub : option SubWorkflowConfig) (contexts : list OwnedRow) (r : TaskResponse) : TaskResponse :=
  match sub with
  | Some c =>
      match OutputVariables c with
      | [] => copy_all contexts r
      | _ =>
          match OutputMap sub with
          | None => copy_all contexts r
          | Some outputs =>
              foldl (fun r c => match outputs !! o_Name c with
                                | Some parentName => copy_context parentName (nv_of c) r
                                | None => r
                                end) r contexts
          end
      end
  | None => copy_all contexts r
  end.

(** What one finished child adds. *)
Definition add_child (sub : option SubWorkflowConfig) (requestID : string) (e : ExecRow) (contexts : list OwnedRow)
    (artifacts : list string) (r : TaskResponse) : TaskResponse :=
  let '(exitCode, exitMessage) := exit_columns (e_ID e) in
  let r := if State.Failed (Status r) then r else set_Status (e_JobState e) r in
  let r := if State.Failed (e_JobState e) && (ErrorMessage r == "")
           then set_Exit exitCode exitMessage (set_ErrorCode (e_ErrorCode e) (set_ErrorMessage (e_ErrorMessage e) r))
           else r in
  let key := fun name => "Request_" +:+ requestID +:+ "_" +:+ name in
  let r := AddContext (key "ErrorMessage") (VString (e_ErrorMessage e)) r in
  let r := AddContext (key "ErrorCode") (VString (e_ErrorCode e)) r in
  let r := AddContext (key "ExitCode") (VString exitCode) r in
  let r := AddContext (key "ExitMessage") (VString exitMessage) r in
  let r := AddContext (key "JobExecutionID") (VString (e_ID e)) r in
  foldl (fun r a => AddArtifact a r) (applyOutputMap sub contexts r) artifacts.

Definition contexts_of (id : string) (s : MS) : list OwnedRow :=
  Sql.select (fun o => o_Owner o == id) (exec_contexts (Store.db (store s))).
Definition artifacts_of (ts : list TaskRow) (s : MS) : list string :=
  flat_map (fun t => map o_ID (Sql.select (fun o => o_Owner o == t_ID t) (artifacts (Store.db (store s))))) ts.

Fixpoint add_children (sub : option SubWorkflowConfig) (l : list (string * RequestRow)) (r : TaskResponse)
    : MM (TaskResponse + terror) :=
  match l with
  | [] => ret (inl r)
  | (_, req) :: rest =>
      loaded <- attempt (repo (Executions.Get (text (r_JobExecutionID req)))) ;;
      match loaded with
      | inr e => ret (inr (ExecutionMissing (r_ID req) e))
      | inl (e, ts) =>
          fun s => add_children sub rest (add_child sub (r_ID req) e (contexts_of (e_ID e) s) (artifacts_of ts s) r) s
      end
  end.

Definition BuildTaskResponse (antID : string) (w : JobWaiter) (taskReq : TaskRequest) : MM (TaskResponse + terror) :=
  if negb (completed w) then ret (inr NotAllReceived)
  else add_children (subWorkflow w) (range (finished w))
         (set_AntHost antID "server" (set_Status State.COMPLETED (NewTaskResponse taskReq))).

(** *** Wake-ups *)
Definition matchesJobIDs (w : JobWaiter) (requestID : string) (state : RequestState) : bool :=
  State.IsTerminal state && existsb (String.eqb requestID) (requestIDs w).

(** A list of plain texts in JSON. *)
Definition json_strings (l : list string) : string :=
  let quoted := fun s => String (ascii_of_nat 34) (s +:+ String (ascii_of_nat 34) "") in
  "[" +:+ Join (map quoted l) "," +:+ "]".

(** The reply to the task that waits for children, unless the fuel runs out. *)
Definition wait_and_build (fuel : nat) (antID : string) (wrap : terror -> terror) (taskReq : TaskRequest)
    : MM (option (TaskResponse + terror)) :=
  match NewJobWaiter taskReq with
  | inr e => ret (Some (inl (ErrorResponse (describe e) taskReq)))
  | inl w =>
      waited <- RunAndWait fuel w ;;
      match waited with
      | (_, Waiting, _) => ret None
      | (_, Failed e, _) => ret (Some (inl (ErrorResponse (describe (wrap e)) taskReq)))
      | (w, Complete, _) =>
          built <- BuildTaskResponse antID w taskReq ;;
          ret (Some (match built with
                     | inr e => inr e
                     | inl r => inl (AddContext "TotalRequests" (VInt "int" (Z.of_nat (List.length (requestIDs w))))
                                       (AddContext "RequestIDs" (VOther "[]string" (Some (json_strings (requestIDs w)))) r))
                     end))
      end
  end.
Definition Execute (fuel : nat) (antID : string) (taskReq : TaskRequest) : MM (option (TaskResponse + terror)) :=
  wait_and_build fuel antID WaitFailed taskReq.
End Waiter.
End Waiter.

(** ** Fork: job_fork_tasklet.go *)
Module Fork.
Import Rows NameValue Request Message JobManager.Manager Waiter.
Open Scope manager_scope.

Section Fork.
Context `{env : Store.Env, cron : Schedule.Cron, dec : Decoder, ord : RangeOrder, calls : Calls, texts : Texts, world : World}.

(** The row of a child: of the given version, to be cancelled with its parent. *)
Definition child_row (version parentID : string) (r : RequestRow) : RequestRow :=
  mkRequestRow (r_ID r) parentID (r_UserKey r) (r_JobDefinitionID r) (r_JobExecutionID r) (r_LastJobExecutionID r)
    (r_OrganizationID r) (r_UserID r) (r_JobType r) version (r_JobState r) (r_JobPriority r) (r_ScheduleAttempts r)
    (r_Retried r) (r_PausedCount r) (r_CronTriggered r) (r_ErrorCode r) (r_ErrorMessage r) (r_CurrentTask r)
    (r_ScheduledAt r) (r_CreatedAt r) (r_UpdatedAt r) (r_HardRestart r) true.

(** A parameter whose value cannot be stored is left out. *)
Definition add_param (name : string) (v : value) (req : JobRequest) : JobRequest := default req (AddParam name v req).

(** The parameters of the child, each a template over the data. *)
Fixpoint add_inputs (l : list (string * string)) (data : gmap string value) (req : JobRequest) : JobRequest + terror :=
  match l with
  | [] => inl req
  | (childParam, templateExpr) :: rest =>
      match ParseTemplate templateExpr data with
      | None => inr (Unresolved childParam)
      | Some resolved =>
          match AddParam childParam (VString resolved) req with
          | None => inr (ParamInvalid childParam)
          | Some req => add_inputs rest data req
          end
      end
  end.
Definition apply_inputs (sub : option SubWorkflowConfig) (data : gmap string value) (req : JobRequest)
    : JobRequest + terror :=
  match sub with
  | None => inl req
  | Some c =>
      match InputParams c with
      | [] => inl req
      | _ => match InputMap sub with
             | None => inr DuplicateName
             | Some inputs => add_inputs (range inputs) data req
             end
      end
  end.

(** The request for a child job. *)
Definition child_request (taskReq : TaskRequest) (def : DefRow) : JobRequest + terror :=
  match NewJobRequestFromDefinition Store.now def with
  | None => inr JobDisabled
  | Some req =>
      let opts := ExecutorOpts taskReq in
      let data := VariableValuesToMap (MaskVariableValues (Variables taskReq)) in
      match apply_inputs (SubWorkflow opts) data req with
      | inr e => inr e
      | inl req =>
          let req := add_param ForkedJob (VBool true) req in
          let req := add_param (ParentJobTypePrefix +:+ "_" +:+ JobRequestID taskReq) (VString (JobType taskReq)) req in
          inl (set_row (child_row (opt_ForkJobVersion opts) (JobRequestID taskReq) (row req)) req)
      end
  end.

(** The child is saved; its request or the error. *)
Definition fork (taskReq : TaskRequest) : MM (JobRequest + terror) :=
  let qc := NewQueryContextFromIDs (UserID taskReq) (OrganizationID taskReq) in
  let opts := ExecutorOpts taskReq in
  if opt_ForkJobType opts == "" then ret (inr ForkTypeMissing)
  else
    def <- attempt (GetJobDefinitionByType qc (opt_ForkJobType opts) (opt_ForkJobVersion opts)) ;;
    match def with
    | inr e => ret (inr (Mgr e))
    | inl def =>
        match child_request taskReq def with
        | inr e => ret (inr e)
        | inl req =>
            saved <- SaveJobRequest qc req ;;
            ret (match fst saved with inl saved => inl saved | inr e => inr (Mgr e) end)
        end
    end.

(** Waiting for the child uses the request itself as that of a waiter. *)
Definition waitForChild (fuel : nat) (antID : string) (taskReq : TaskRequest) (childID : string)
    : MM (option (TaskResponse + terror)) :=
  let taskReq := AddVariable (TaskType taskReq +:+ forkedJobIDSuffix) (VString childID) false taskReq in
  let taskReq := set_ExecutorOpts (set_AwaitForkedTasks [TaskType taskReq] (ExecutorOpts taskReq)) taskReq in
  wait_and_build fuel antID WaiterFailed taskReq.

Definition forked_reply (antID : string) (taskReq : TaskRequest) (saved : JobRequest) : TaskResponse :=
  let r := set_Status State.COMPLETED (set_AntHost antID "server" (NewTaskResponse taskReq)) in
  let r := AddContext (TaskType taskReq +:+ forkedJobIDSuffix) (VString (r_ID (row saved))) r in
  let r := AddContext (TaskType taskReq +:+ forkedJobTypeSuffix) (VString (r_JobType (row saved))) r in
  let r := AddContext (TaskType taskReq +:+ forkedJobVersionSuffix) (VString (r_JobVersion (row saved))) r in
  AddJobContext (TaskType taskReq +:+ forkedJobIDSuffix) (VString (r_ID (row saved))) r.

Definition Execute (fuel : nat) (antID : string) (taskReq : TaskRequest) : MM (option (TaskResponse + terror)) :=
  forked <- fork taskReq ;;
  match forked with
  | inr e => ret (Some (inl (ErrorResponse (describe e) taskReq)))
  | inl saved =>
      if match SubWorkflow (ExecutorOpts taskReq) with Some c => WaitForCompletion c | None => false end
      then waitForChild fuel antID taskReq (r_ID (row saved))
      else ret (Some (inl (forked_reply antID taskReq saved)))
  end.
End Fork.
End Fork.

(** ** Fan: fan_out_tasklet.go *)
Module Fan.
Import Rows NameValue Request Message JobManager.Manager Waiter Fork.
Open Scope manager_scope.

(** One child's outcome. *)
Record fanOutResult := mkResult {
  fr_index : nat;
  fr_itemVal : string;
  fr_response : option TaskResponse;
  fr_err : option terror
}.

(** Where the goroutine of one item is: before the semaphore, past it, with an
    ant reserved and the request sent, with the outcome of the dispatch, done. *)
Inductive phase :=
| Queued
| Acquired
| Reserved (r : Ants.AntReservation)
| Answered (o : TaskResponse + terror)
| Done (r : fanOutResult).

(** What [SendReceive] gives, with the decoding of the reply. *)
Inductive reply :=
| Response (r : TaskResponse)
| SendError (reason : string)
| NoEvent
| Undecodable (reason : string).

Record State_ := mkState {
  alloc : Alloc.State;
  phases : list phase;
  cancelled : bool;
  firstFailure : option nat;
  sent : list (nat * TaskRequest)
}.
Definition set_phase (i : nat) (p : phase) (f : State_) : State_ :=
  mkState (alloc f) (<[i := p]> (phases f)) (cancelled f) (firstFailure f) (sent f).
Definition set_alloc (a : Alloc.State) (f : State_) : State_ :=
  mkState a (phases f) (cancelled f) (firstFailure f) (sent f).

Definition busy (p : phase) : bool := match p with Acquired | Reserved _ | Answered _ => true | _ => false end.
Definition running (f : State_) : nat := List.length (List.filter busy (phases f)).

(** The steps of the goroutines, and of the world: the context is cancelled, the
    resource manager is used by others. *)
Inductive event :=
| Admit (i : nat)
| Skip (i : nat)
| Dispatch (i : nat) (now : Z)
| Reply (i : nat) (r : reply)
| Finish (i : nat)
| CancelContext
| Elsewhere (a : Alloc.State).

Section Fan.
Context `{env : Store.Env, cron : Schedule.Cron, dec : Decoder, ord : RangeOrder, calls : Calls, texts : Texts, world : World}.
Context (resource_cfg : Resource.Manager.JobsConfig).

Definition resolveFanOutSource (taskReq : TaskRequest) (source : string) : list value + terror :=
  match var_Value <$> Variables taskReq !! source with
  | None | Some VNil => inr (SourceMissing source)
  | Some v =>
      match as_array v with
      | Some items => inl items
      | None => match json_array (sprint v) with Some items => inl items | None => inr (SourceNotArray source) end
      end
  end.

Definition fanOutMode (fanOut : FanOut.FanOutConfig) : string := if FanOut.IsJobFanOut (Some fanOut) then "job" else "task".

(** *** One item: the request of a child *)
Definition renderScripts (scripts : list string) (data : gmap string value) : list string :=
  map (fun s => default s (ParseTemplate s data)) scripts.
Definition child_script (raw given : list string) (data : gmap string value) : list string :=
  match raw with [] => given | _ => renderScripts raw data end.
Definition childTaskType (taskType : string) (idx : nat) : string := taskType +:+ "-fo-" +:+ itoa (Z.of_nat idx).
Definition child_task (parentReq : TaskRequest) (fanOut : FanOut.FanOutConfig) (itemVal : string) (idx : nat) : TaskRequest :=
  let o := ExecutorOpts parentReq in
  let childOpts := mkExecutorOptions (FanOut.ExecutionMethod fanOut) (opt_ForkJobType o) (opt_ForkJobVersion o)
                     (ArtifactKeyPrefix o) (AwaitForkedTasks o) (SubWorkflow o) None in
  let vars := <[FanOut.ItemVar fanOut := NewVariableValue (VString itemVal) false]> (Variables parentReq) in
  let data := VariableValuesToMap vars in
  mkTaskRequest (UserID parentReq) (OrganizationID parentReq) (JobDefinitionID parentReq) (JobRequestID parentReq)
    (JobType parentReq) (JobTypeVersion parentReq) (JobExecutionID parentReq) (TaskExecutionID parentReq)
    (childTaskType (TaskType parentReq) idx) (CoRelationID parentReq) (Action parentReq) (Tags parentReq)
    (child_script (FanOut.RawBeforeScript fanOut) (BeforeScript parentReq) data)
    (child_script (FanOut.RawAfterScript fanOut) (AfterScript parentReq) data)
    (child_script (FanOut.RawScript fanOut) (Script parentReq) data)
    (Timeout parentReq) vars childOpts.

(** *** Tasks: concurrent dispatch *)
Section Tasks.
Context (taskReq : TaskRequest) (fanOut : FanOut.FanOutConfig) (items : list value).

Definition concurrency : nat :=
  let n := List.length items in
  if (FanOut.MaxParallel fanOut <=? 0) || (Z.of_nat n <? FanOut.MaxParallel fanOut) then n
  else Z.to_nat (FanOut.MaxParallel fanOut).

Definition item_text (i : nat) : string := match items !! i with Some v => sprint v | None => "" end.
Definition child_of (i : nat) : TaskRequest := child_task taskReq fanOut (item_text i) i.

Definition start (a : Alloc.State) : State_ := mkState a (replicate (List.length items) Queued) false None [].

(** [dispatchSingleTask] up to sending: without a method or an ant it has ended. *)
Definition dispatch (i : nat) (now : Z) (f : State_) : option State_ :=
  let method := FanOut.ExecutionMethod fanOut in
  if (method == "") || negb (Method.IsValid method) then Some (set_phase i (Answered (inr (MethodNotSet i))) f)
  else
    match Resource.Manager.Reserve resource_cfg now (alloc f) (JobRequestID taskReq) (TaskType taskReq) method (Tags taskReq) with
    | Panic => None
    | Error e => Some (set_phase i (Answered (inr (NotReservable i e))) f)
    | Return (reservation, a) =>
        let f := set_phase i (Reserved reservation) (set_alloc a f) in
        Some (match Message.Validate (child_of i) with
              | Some _ => f
              | None => mkState (alloc f) (phases f) (cancelled f) (firstFailure f) (sent f ++ [(i, child_of i)])
              end)
    end.

(** The rest of it; the ant is released in any case. *)
Definition outcome_of (i : nat) (r : reply) : TaskResponse + terror :=
  match Message.Validate (child_of i) with
  | Some e => inr (NotMarshalled i e)
  | None =>
      match r with
      | SendError reason => inr (SendFailed i reason)
      | NoEvent => inr (NoReply i)
      | Undecodable reason => inr (BadReply i reason)
      | Response r => inl r
      end
  end.
Definition released (a : Alloc.State) (r : Ants.AntReservation) : Alloc.State :=
  match Resource.Manager.Release a (Some r) with inl _ => a | inr a' => a' end.

Definition failing (o : TaskResponse + terror) : bool :=
  match o with inl r => State.Failed (Status r) | inr _ => true end.
Definition result_of (i : nat) (o : TaskResponse + terror) : fanOutResult :=
  match o with
  | inl r => mkResult i (item_text i) (Some r) None
  | inr e => mkResult i (item_text i) None (Some e)
  end.

(** The result is noted; the first failure may cancel the others. *)
Definition finish (i : nat) (o : TaskResponse + terror) (f : State_) : State_ :=
  let f := set_phase i (Done (result_of i o)) f in
  match failing o, firstFailure f with
  | true, None => mkState (alloc f) (phases f) (cancelled f || FanOut.FailFast fanOut) (Some i) (sent f)
  | _, _ => f
  end.

(** A step, unless it is not possible in the state. *)
Definition step (e : event) (f : State_) : option State_ :=
  match e with
  | Admit i =>
      match phases f !! i with
      | Some Queued => if (running f <? concurrency)%nat then Some (set_phase i Acquired f) else None
      | _ => None
      end
  | Skip i =>
      match phases f !! i with
      | Some Queued => if cancelled f then Some (set_phase i (Done (mkResult i "" None (Some ContextDone))) f) else None
      | _ => None
      end
  | Dispatch i now => match phases f !! i with Some Acquired => dispatch i now f | _ => None end
  | Reply i r =>
      match phases f !! i with
      | Some (Reserved reservation) =>
          Some (set_phase i (Answered (outcome_of i r)) (set_alloc (released (alloc f) reservation) f))
      | _ => None
      end
  | Finish i => match phases f !! i with Some (Answered o) => Some (finish i o f) | _ => None end
  | CancelContext => Some (mkState (alloc f) (phases f) true (firstFailure f) (sent f))
  | Elsewhere a => Some (set_alloc a f)
  end.
Fixpoint run (es : list event) (f : State_) : option State_ :=
  match es with
  | [] => Some f
  | e :: rest => match step e f with Some f => run rest f | None => None end
  end.

(** The results, when every goroutine is done. *)
Fixpoint all_done (ps : list phase) : option (list fanOutResult) :=
  match ps with
  | [] => Some []
  | Done r :: rest => match all_done rest with Some rs => Some (r :: rs) | None => None end
  | _ :: _ => None
  end.
Definition results (f : State_) : option (list fanOutResult) := all_done (phases f).
End Tasks.

(** *** The joined reply *)
Definition prefix_of (itemVar : string) (idx : nat) : string := itemVar +:+ "_" +:+ itoa (Z.of_nat idx) +:+ "_".

(** The context and the artifacts of a child under its prefix. *)
Definition add_context_of (pre : string) (child r : TaskResponse) : TaskResponse :=
  foldl (fun r kv => AddContext (pre +:+ fst kv) (snd kv) r) r (range (TaskContext child)).
Definition add_artifacts_of (child r : TaskResponse) : TaskResponse := foldl (fun r a => AddArtifact a r) r (Artifacts child).

Definition add_result (itemVar : string) (r : TaskResponse) (x : fanOutResult) : TaskResponse :=
  let pre := prefix_of itemVar (fr_index x) in
  match fr_err x, fr_response x with
  | Some e, _ =>
      let r := if State.Failed (Status r) then r else set_ErrorMessage (describe e) (set_Status State.FAILED r) in
      AddContext (pre +:+ "error") (VString (describe e)) r
  | None, None => r
  | None, Some child =>
      let r := if State.Failed (Status child) && negb (State.Failed (Status r))
               then set_ErrorCode (ErrorCode child) (set_ErrorMessage (ErrorMessage child) (set_Status (Status child) r))
               else r in
      let r := AddContext (pre +:+ "status") (VString (Status child)) r in
      let r := AddContext (pre +:+ "error_code") (VString (ErrorCode child)) r in
      let r := AddContext (pre +:+ "error_message") (VString (ErrorMessage child)) r in
      let r := AddContext (pre +:+ "exit_code") (VString (ExitCode child)) r in
      add_artifacts_of child (add_context_of pre child r)
  end.

(** The reply of a waiter, as it comes from child jobs. *)
Definition from_waiter (antID : string) (taskReq : TaskRequest) (w : TaskResponse) : TaskResponse :=
  let r := set_AntHost antID "server" (set_Exit (ExitCode w) (ExitMessage w) (set_ErrorCode (ErrorCode w)
             (set_ErrorMessage (ErrorMessage w) (set_Status (Status w) (NewTaskResponse taskReq))))) in
  let r := foldl (fun r kv => AddContext (fst kv) (snd kv) r) r (range (TaskContext w)) in
  let r := foldl (fun r kv => AddJobContext (fst kv) (snd kv) r) r (range (JobContext w)) in
  add_artifacts_of w r.

Definition join_all (antID : string) (taskReq : TaskRequest) (itemVar : string) (rs : list fanOutResult) : TaskResponse :=
  foldl (add_result itemVar) (set_AntHost antID "server" (set_Status State.COMPLETED (NewTaskResponse taskReq))) rs.

Definition buildAggregatedResponse (antID : string) (taskReq : TaskRequest) (itemVar : string) (rs : list fanOutResult)
    : TaskResponse :=
  match rs with
  | [mkResult O itemVal (Some w) _] =>
      if itemVal == "" then from_waiter antID taskReq w else join_all antID taskReq itemVar rs
  | _ => join_all antID taskReq itemVar rs
  end.

(** *** Jobs: one child job per item *)
Definition spawnChildJob (parentReq : TaskRequest) (fanOut : FanOut.FanOutConfig) (itemVal : string) (idx : nat)
    : MM (string + terror) :=
  let qc := NewQueryContextFromIDs (UserID parentReq) (OrganizationID parentReq) in
  def <- attempt (GetJobDefinitionByType qc (FanOut.ForkJobType fanOut) (FanOut.ForkJobVersion fanOut)) ;;
  match def with
  | inr e => ret (inr (Mgr e))
  | inl def =>
      match NewJobRequestFromDefinition Store.now def with
      | None => ret (inr JobDisabled)
      | Some req =>
          let req := set_row (child_row (FanOut.ForkJobVersion fanOut) (JobRequestID parentReq) (row req)) req in
          let req := add_param ForkedJob (VBool true) req in
          let req := add_param (FanOut.ItemVar fanOut) (VString itemVal) req in
          let req := add_param ("FanOutIndex_" +:+ itoa (Z.of_nat idx)) (VInt "int" (Z.of_nat idx)) req in
          let data := <[FanOut.ItemVar fanOut := VString itemVal]>
                        (VariableValuesToMap (MaskVariableValues (Variables parentReq))) in
          match apply_inputs (SubWorkflow (ExecutorOpts parentReq)) data req with
          | inr e => ret (inr e)
          | inl req =>
              saved <- SaveJobRequest qc req ;;
              ret (match fst saved with inl saved => inl (r_ID (row saved)) | inr e => inr (Mgr e) end)
          end
      end
  end.

(** The goroutines that spawn the children, in the order in which they get the
    semaphore; [gives_up] says which of them see the cancelled context first. *)
Fixpoint spawn_each (taskReq : TaskRequest) (fanOut : FanOut.FanOutConfig) (gives_up : nat -> bool)
    (order : list (nat * value)) (cancelled : bool) (ids : gmap nat string) (err : option terror)
    : MM (gmap nat string * option terror) :=
  match order with
  | [] => ret (ids, err)
  | (idx, item) :: rest =>
      if cancelled && gives_up idx then spawn_each taskReq fanOut gives_up rest cancelled ids err
      else
        spawned <- spawnChildJob taskReq fanOut (sprint item) idx ;;
        match spawned, err with
        | inl id, _ => spawn_each taskReq fanOut gives_up rest cancelled (<[idx := id]> ids) err
        | inr e, None =>
            spawn_each taskReq fanOut gives_up rest (cancelled || FanOut.FailFast fanOut) ids (Some (SpawnFailed idx e))
        | inr _, Some _ => spawn_each taskReq fanOut gives_up rest cancelled ids err
        end
  end.

(** The request that makes a waiter wait for the children. *)
Definition awaitTaskType (taskReq : TaskRequest) (i : nat) : string :=
  "fan-out-" +:+ TaskType taskReq +:+ "-" +:+ itoa (Z.of_nat i).
Definition buildAwaitRequest (parentReq : TaskRequest) (n : nat) (ids : gmap nat string) : TaskRequest :=
  let known := List.filter (fun i => match ids !! i with Some id => id != "" | None => false end) (seq 0 n) in
  let vars := foldl (fun (m : gmap string VariableValue) i =>
                       <[awaitTaskType parentReq i +:+ forkedJobIDSuffix := NewVariableValue (VString (default "" (ids !! i))) false]> m)
                ∅ known in
  let opts := mkExecutorOptions Method.AwaitForkedJob "" "" "" (map (awaitTaskType parentReq) known)
                (SubWorkflow (ExecutorOpts parentReq)) None in
  mkTaskRequest (UserID parentReq) (OrganizationID parentReq) (JobDefinitionID parentReq) (JobRequestID parentReq)
    (JobType parentReq) (JobTypeVersion parentReq) (JobExecutionID parentReq) (TaskExecutionID parentReq)
    ("fan-out-" +:+ TaskType parentReq) "" EXECUTE [] [] [] [] (Timeout parentReq) vars opts.

Definition dispatchJobsAndWait (fuel : nat) (antID : string) (taskReq : TaskRequest) (fanOut : FanOut.FanOutConfig)
    (done : bool) (gives_up : nat -> bool) (order : list (nat * value)) : MM (option (list fanOutResult + terror)) :=
  spawned <- spawn_each taskReq fanOut gives_up order done ∅ None ;;
  match spawned with
  | (_, Some e) => ret (Some (inr e))
  | (ids, None) =>
      let awaitReq := buildAwaitRequest taskReq (List.length order) ids in
      match NewJobWaiter awaitReq with
      | inr e => ret (Some (inr (WaiterFailed e)))
      | inl w =>
          waited <- RunAndWait fuel w ;;
          match waited with
          | (_, Waiting, _) => ret None
          | (_, Failed e, _) => ret (Some (inr (WaitFailed e)))
          | (w, Complete, _) =>
              built <- BuildTaskResponse antID w awaitReq ;;
              ret (Some (match built with
                         | inr e => inr (BuildFailed e)
                         | inl r => inl [mkResult 0 "" (Some r) None]
                         end))
          end
      end
  end.

(** *** [Execute] *)
(** The configuration and the items, or a reply at once. *)
Definition prepare (antID : string) (taskReq : TaskRequest) : (FanOut.FanOutConfig * list value) + TaskResponse :=
  match opt_FanOut (ExecutorOpts taskReq) with
  | None => inr (ErrorResponse (describe FanOutMissing) taskReq)
  | Some fanOut =>
      match FanOut.Validate (Some fanOut) with
      | Some e => inr (ErrorResponse (describe (FanOutInvalid e)) taskReq)
      | None =>
          match resolveFanOutSource taskReq (FanOut.Source fanOut) with
          | inr e => inr (ErrorResponse (describe e) taskReq)
          | inl [] => inr (AddContext "FanOutItemCount" (VInt "int" 0)
                             (set_AntHost antID "server" (set_Status State.COMPLETED (NewTaskResponse taskReq))))
          | inl items => inl (fanOut, items)
          end
      end
  end.
Definition conclude (antID : string) (taskReq : TaskRequest) (fanOut : FanOut.FanOutConfig) (items : list value)
    (rs : list fanOutResult + terror) : TaskResponse :=
  match rs with
  | inr e => ErrorResponse (describe (FanOutFailed e)) taskReq
  | inl rs =>
      AddContext "FanOutMode" (VString (fanOutMode fanOut))
        (AddContext "FanOutSource" (VString (FanOut.Source fanOut))
           (AddContext "FanOutItemCount" (VInt "int" (Z.of_nat (List.length items)))
              (buildAggregatedResponse antID taskReq (FanOut.ItemVar fanOut) rs)))
  end.
(** Job fan-out: whether the context is done at the start, the order of the
    goroutines and which of them give up are choices of the world. *)
Definition execute_jobs (fuel : nat) (antID : string) (taskReq : TaskRequest) (done : bool) (gives_up : nat -> bool)
    (order : list (nat * value) -> list (nat * value)) : MM (option TaskResponse) :=
  match prepare antID taskReq with
  | inr r => ret (Some r)
  | inl (fanOut, items) =>
      rs <- dispatchJobsAndWait fuel antID taskReq fanOut done gives_up (order (zip (seq 0 (List.length items)) items)) ;;
      ret (match rs with Some rs => Some (conclude antID taskReq fanOut items rs) | None => None end)
  end.
End Fan.
End Fan.
