(* ===== verification/TaskletSpec.v ===== *)
(** * TaskletSpec: what the queen's own tasks guarantee

    - Fan-out over tasks: in every interleaving no more items are in flight than
      the limit allows, the goroutines never block one another and end, every
      item runs once, and the joined reply fails exactly when an item failed and
      keeps the context of every item apart from the others.
    - Waiting for children: a wait ends successfully only when every awaited job
      has ended, and never when one is awaited twice; its reply fails exactly
      when a child failed.
    - Forking: a forked child is stored so that cancelling its parent finds it. *)

From S2P Require Import Prelude RequestState Acl Tags Resource ResourceSpec JobDefinition Approval Stats Tables JobStore JobStoreSpec.
From S2P Require Import JobRequest JobManager JobManagerSpec TaskMessage Tasklet.
From Stdlib Require Import Ascii.

Open Scope Z_scope.

(** ** Fan-out over tasks *)
Section Tasks.
Import NameValue Message Fan.
Context `{ord : RangeOrder, texts : Texts} (cfg : Resource.Manager.JobsConfig).
Context (taskReq : TaskRequest) (fanOut : FanOut.FanOutConfig) (items : list value).
Abbreviation fan_step := (step cfg taskReq fanOut items).
Abbreviation fan_run := (run cfg taskReq fanOut items).
Abbreviation limit := (concurrency fanOut items).

(** Past the semaphore and not yet done. *)
Definition in_flight (p : phase) : bool := match p with Queued | Done _ => false | _ => true end.
Definition flying (f : State_) : nat := List.length (List.filter in_flight (phases f)).

Lemma running_flying f : running f = flying f.
Proof. done. Qed.

(** *** Counting phases *)
Lemma count_replace {A} (p : A -> bool) (l : list A) i x y :
  l !! i = Some x ->
  (List.length (List.filter p (<[i := y]> l)) + Nat.b2n (p x) = List.length (List.filter p l) + Nat.b2n (p y))%nat.
Proof.
  revert i. induction l as [|z l IH]; intros i Hx; [done|]. destruct i as [|i]; cbn in *.
  - injection Hx as ->. destruct (p x), (p y); cbn; lia.
  - specialize (IH _ Hx). destruct (p z); [exact (f_equal S IH)|exact IH].
Qed.

(** What a step does to the phases: one item moves forward, or none does. *)
Inductive moves (f f' : State_) : event -> Prop :=
| moves_one e i p p' : phases f !! i = Some p -> phases f' = <[i := p']> (phases f) ->
    match p, p' with
    | Queued, Acquired => (flying f < limit)%nat /\ e = Admit i
    | Queued, Done r => cancelled f = true /\ r = mkResult i "" None (Some ContextDone) /\ e = Skip i
    | Acquired, Reserved _ => exists now, e = Dispatch i now
    | Acquired, Answered (inr err) =>
        (err = MethodNotSet i \/ exists e', err = NotReservable i e') /\ exists now, e = Dispatch i now
    | Reserved _, Answered o => exists r, o = outcome_of taskReq fanOut items i r /\ e = Reply i r
    | Answered o, Done r => r = result_of items i o /\ e = Finish i
    | _, _ => False
    end -> moves f f' e
| moves_none e : phases f' = phases f -> (e = CancelContext \/ exists a, e = Elsewhere a) -> moves f f' e.

Lemma step_moves e f f' : fan_step e f = Some f' -> moves f f' e.
Proof.
  destruct e as [i|i|i now|i r|i| |a]; cbn [step].
  - destruct (phases f !! i) as [[]|] eqn:Ep; try done. destruct (_ <? _)%nat eqn:El; [|done]. intros [= <-].
    apply (moves_one _ _ _ i Queued Acquired); [done..|]. split; [|done]. rewrite <- running_flying. by apply Nat.ltb_lt.
  - destruct (phases f !! i) as [[]|] eqn:Ep; try done. destruct (cancelled f) eqn:Ec; [|done]. intros [= <-].
    by eapply (moves_one _ _ _ i Queued (Done _)).
  - destruct (phases f !! i) as [[]|] eqn:Ep; try done. unfold dispatch. destruct (_ || _).
    { intros [= <-]. apply (moves_one _ _ _ i Acquired (Answered (inr (MethodNotSet i)))); [done..|]. split; [by left|by eexists]. }
    destruct (Resource.Manager.Reserve _ _ _ _ _ _ _) as [[res a]|er|]; [| |done]; intros [= <-].
    + apply (moves_one _ _ _ i Acquired (Reserved res)); [done|by destruct (Message.Validate _)|by eexists].
    + apply (moves_one _ _ _ i Acquired (Answered (inr (NotReservable i er)))); [done..|].
      split; [right; by eexists|by eexists].
  - destruct (phases f !! i) as [[]|] eqn:Ep; try done. intros [= <-].
    eapply (moves_one _ _ _ i (Reserved _) (Answered _)); [exact Ep|done|]. by eexists.
  - destruct (phases f !! i) as [[]|] eqn:Ep; try done. intros [= <-].
    apply (moves_one _ _ _ i (Answered o) (Done (result_of items i o))); [exact Ep| |done].
    unfold finish. cbn. by destruct (failing o), (firstFailure f).
  - intros [= <-]. apply moves_none; [done|by left].
  - intros [= <-]. apply moves_none; [done|]. right. by eexists.
Qed.

Lemma run_induction (P : list event -> State_ -> Prop) a :
  P [] (start items a) ->
  (forall es e f f', fan_run es (start items a) = Some f -> P es f -> fan_step e f = Some f' -> P (es ++ [e]) f') ->
  forall es f, fan_run es (start items a) = Some f -> P es f.
Proof.
  intros H0 HS es. induction es as [|e es IH] using rev_ind; intros f.
  - by intros [= <-].
  - intros HR. assert (exists f0, fan_run es (start items a) = Some f0 /\ fan_step e f0 = Some f) as (f0 & E0 & E1).
    { clear -HR. revert HR. generalize (start items a). induction es as [|x es IH]; intros g; cbn.
      - intros HR. exists g. split; [done|]. by destruct (fan_step e g).
      - destruct (fan_step x g) as [g'|]; [|done]. apply IH. }
    eapply HS; [exact E0|by apply IH|exact E1].
Qed.

(** C6: a fan-out never has more items in flight than its limit: in every
    interleaving of its goroutines with ants, other users of the resource manager
    and cancellation, the items past the semaphore that are not done are at most
    [max_parallel] of them, or all when no limit is set. *)
Theorem fan_out_within_limit es a f
    (reached : fan_run es (start items a) = Some f) :
  (flying f <= List.length items)%nat /\
  (0 < FanOut.MaxParallel fanOut -> Z.of_nat (flying f) <= FanOut.MaxParallel fanOut).
Proof.
  assert (flying f <= limit)%nat as HL.
  { revert f reached. apply (run_induction (fun _ f => (flying f <= limit)%nat)).
    - unfold flying. cbn. replace (List.filter in_flight _) with (@nil phase); [cbn; lia|].
      induction (List.length items); cbn; congruence.
    - intros _ e f f' _ IH HS%step_moves. destruct HS as [e i p p' Ep Ep' Hm|e Ep' _]; unfold flying in *; rewrite Ep'; [|done].
      pose proof (count_replace in_flight (phases f) i p p' Ep) as HC.
      destruct p, p' as [| |?|[?|?]|?]; cbn in *; try done; try lia. }
  unfold concurrency in HL. destruct (_ || _) eqn:Eb; split; try lia.
  all: apply orb_false_iff in Eb || apply orb_true_iff in Eb; lia.
Qed.

(** *** Ending *)
Definition own (e : event) : bool := match e with CancelContext | Elsewhere _ => false | _ => true end.
Definition weight (p : phase) : nat :=
  match p with Queued => 4 | Acquired => 3 | Reserved _ => 2 | Answered _ => 1 | Done _ => 0 end.
Definition remaining (f : State_) : nat := sum_list_with weight (phases f).

Lemma sum_replace {A} (w : A -> nat) (l : list A) i x y :
  l !! i = Some x -> (sum_list_with w (<[i := y]> l) + w x = sum_list_with w l + w y)%nat.
Proof.
  revert i. induction l as [|z l IH]; intros [|i] Hx; try done.
  - injection Hx as ->. cbn. lia.
  - change (<[S i := y]> (z :: l)) with (z :: <[i := y]> l). specialize (IH i Hx). cbn [sum_list_with]. lia.
Qed.

Lemma step_remaining e f f' :
  fan_step e f = Some f' -> (remaining f' + Nat.b2n (own e) <= remaining f)%nat /\ List.length (phases f') = List.length (phases f).
Proof.
  intros HS%step_moves. unfold remaining. destruct HS as [e i p p' Ep Ep' Hm|e Ep' [->|[a ->]]]; rewrite Ep'; [|cbn; lia..].
  pose proof (sum_replace weight (phases f) i p p' Ep) as HC. rewrite length_insert.
  destruct (own e); cbn [Nat.b2n]; destruct p, p' as [| |?|[?|?]|?]; cbn in *; try done; lia.
Qed.

Lemma run_remaining es a f : fan_run es (start items a) = Some f ->
  (remaining f + List.length (List.filter own es) <= 4 * List.length items)%nat /\ List.length (phases f) = List.length items.
Proof.
  revert f. revert es. apply run_induction.
  - cbn. split; [|by rewrite length_replicate]. unfold remaining. cbn. induction (List.length items); cbn in *; lia.
  - intros es e f f' _ [IH1 IH2] [H1 H2]%step_remaining. rewrite List.filter_app, length_app. split; [|congruence].
    cbn. destruct (own e); cbn in *; lia.
Qed.

Lemma all_done_none ps : all_done ps = None -> exists i p, ps !! i = Some p /\ forall r, p <> Done r.
Proof.
  induction ps as [|p ps IH]; cbn; [done|]. destruct p; try (intros _; exists 0%nat; eexists; by split).
  destruct (all_done ps); [done|]. intros _. destruct IH as (i & p & Hp & Hn); [done|]. by exists (S i), p.
Qed.

(** No ant has reported an allocation of the request without task types. *)
Definition has_types (f : State_) : Prop := forall b, ~ nil_types (alloc f) b (JobRequestID taskReq).

Lemma dispatch_runs i now f : Alloc.wf (alloc f) -> has_types f -> dispatch cfg taskReq fanOut items i now f <> None.
Proof.
  intros Hwf Hty. unfold dispatch. destruct (_ || _); [done|].
  unfold Resource.Manager.Reserve, Resource.Manager.doReserve. destruct (_ == "") eqn:Em; [done|].
  match goal with |- context [Alloc.reserve ?n ?t ?a ?q ?y ?m ?g ?d] =>
    pose proof (reserve_cases n t a q y m g d Hwf) as HC; destruct (Alloc.reserve n t a q y m g d) as [[? ?]|?|] end; [done..|].
  destruct HC as (_ & _ & b & _ & Hb). by apply Hty in Hb.
Qed.

(** A fan-out ends: in every interleaving its goroutines take at most four
    steps for each item, and as long as some item is not done one of them can
    take a step (an ant that was asked answers or the call fails), unless an ant
    has reported an allocation of the request without task types, on which the
    reservation panics. *)
Theorem fan_out_ends es a f
    (reached : fan_run es (start items a) = Some f) :
  (List.length (List.filter own es) <= 4 * List.length items)%nat /\
  (Alloc.wf (alloc f) -> has_types f -> results f = None -> exists e, own e = true /\ fan_step e f <> None).
Proof.
  apply run_remaining in reached as [HR HL]. split; [lia|]. intros Hwf Hty (i & p & Hp & Hn)%all_done_none.
  assert (i < List.length items)%nat as Hi by (rewrite <- HL; by eapply lookup_lt_Some).
  destruct (List.filter in_flight (phases f)) as [|p1 rest] eqn:EF.
  - assert (in_flight p = false) as Hq.
    { destruct (in_flight p) eqn:Eq; [|done]. assert (p ∈ List.filter in_flight (phases f)) as Hin.
      { apply list_elem_of_In, filter_In. split; [|done]. by apply list_elem_of_In, (list_elem_of_lookup_2 _ i). }
      rewrite EF in Hin. by apply not_elem_of_nil in Hin. }
    destruct p; try done; [|by destruct (Hn r)]. exists (Admit i). split; [done|]. cbn [step]. rewrite Hp, running_flying.
    unfold flying. rewrite EF. destruct (_ <? _)%nat eqn:El; [done|]. apply Nat.ltb_ge in El. cbn in El.
    unfold concurrency in El. destruct (_ || _) eqn:Eb; [lia|]. apply orb_false_iff in Eb. lia.
  - assert (p1 ∈ phases f /\ in_flight p1 = true) as [Hin Hf].
    { rewrite list_elem_of_In, <- filter_In, EF. by left. }
    apply list_elem_of_lookup in Hin as [k Hk]. destruct p1 as [| |res|o|r]; try done.
    + exists (Dispatch k 0). split; [done|]. cbn [step]. rewrite Hk. by apply dispatch_runs.
    + exists (Reply k NoEvent). split; [done|]. cbn [step]. by rewrite Hk.
    + exists (Finish k). split; [done|]. cbn [step]. by rewrite Hk.
Qed.

(** *** What is sent and what is returned *)
Abbreviation child := (child_of taskReq fanOut items).
Definition was_sent (f : State_) (i : nat) : Prop := (i, child i) ∈ sent f.

(** The outcome of a dispatch that got a reply was sent. *)
Definition origin (f : State_) (i : nat) (o : TaskResponse + terror) : Prop :=
  (forall r, o = inl r -> was_sent f i) /\ o <> inr ContextDone.

Definition phase_ok (f : State_) (i : nat) (p : phase) : Prop :=
  match p with
  | Queued | Acquired => i ∉ map fst (sent f)
  | Reserved _ => Message.Validate (child i) = None -> was_sent f i
  | Answered o => origin f i o
  | Done r => (exists o, r = result_of items i o /\ origin f i o) \/
              (cancelled f = true /\ r = mkResult i "" None (Some ContextDone))
  end.
Record sound (f : State_) : Prop := {
  sound_phases i p : phases f !! i = Some p -> phase_ok f i p;
  sound_sent i c : (i, c) ∈ sent f -> c = child i /\ (i < List.length (phases f))%nat;
  sound_once : NoDup (map fst (sent f))
}.

Lemma phase_ok_mono f f' i p :
  (forall x, x ∈ sent f -> x ∈ sent f') -> (i ∉ map fst (sent f) -> i ∉ map fst (sent f')) ->
  (cancelled f = true -> cancelled f' = true) -> phase_ok f i p -> phase_ok f' i p.
Proof.
  intros Hs Hi Hc. destruct p; cbn; unfold origin, was_sent; try naive_solver.
Qed.

Lemma outcome_origin f i r : (Message.Validate (child i) = None -> was_sent f i) -> origin f i (outcome_of taskReq fanOut items i r).
Proof.
  intros Hs. unfold outcome_of. destruct (Message.Validate (child i)); [by split|].
  destruct r; split; try done. intros ? _. by apply Hs.
Qed.

(** A step that leaves the messages alone. *)
Lemma sound_step_same f f' i p' :
  sound f -> sent f' = sent f -> (cancelled f = true -> cancelled f' = true) ->
  phases f' = <[i := p']> (phases f) -> phase_ok f' i p' -> sound f'.
Proof.
  intros [HP HS HN] Es Ec Ep Hp'. split; [|by rewrite Es, Ep, length_insert|by rewrite Es]. intros k p. rewrite Ep.
  intros [(<- & <- & _)|[_ Hk]]%list_lookup_insert_Some; [done|]. apply HP in Hk. by apply (phase_ok_mono f); rewrite ?Es.
Qed.

Lemma dispatch_sound i now f f' :
  sound f -> phases f !! i = Some Acquired -> dispatch cfg taskReq fanOut items i now f = Some f' -> sound f'.
Proof.
  intros Hs Hi. unfold dispatch. destruct (_ || _).
  { intros [= <-]. apply (sound_step_same f _ i (Answered (inr (MethodNotSet i)))); done. }
  destruct (Resource.Manager.Reserve _ _ _ _ _ _ _) as [[res a]|er|]; [| |done]; intros [= <-].
  2: { apply (sound_step_same f _ i (Answered (inr (NotReservable i er)))); done. }
  destruct (Message.Validate (child i)) as [e|] eqn:Ev.
  { apply (sound_step_same f _ i (Reserved res)); try done. cbn. by rewrite Ev. }
  destruct Hs as [HP HS HN]. pose proof (HP _ _ Hi) as Hno. cbn in Hno. split; cbn.
  - intros k p [(<- & <- & _)|[Hne Hk]]%list_lookup_insert_Some.
    + intros _. apply elem_of_app. right. by apply list_elem_of_singleton.
    + apply HP in Hk. eapply phase_ok_mono; [| | |exact Hk]; cbn; try done.
      * intros x Hx. apply elem_of_app. by left.
      * rewrite map_app, elem_of_app. cbn. intros Hk1 [?|Hk2]; [done|]. apply list_elem_of_singleton in Hk2. congruence.
  - intros k c. rewrite length_insert. intros [Hk|Hk]%elem_of_app; [by apply HS|]. apply list_elem_of_singleton in Hk.
    injection Hk as -> ->. split; [done|]. by eapply lookup_lt_Some.
  - rewrite map_app. apply NoDup_app. split; [done|]. split; [|apply NoDup_singleton].
    cbn. intros x Hx ->%list_elem_of_singleton. done.
Qed.

Lemma step_sound e f f' : sound f -> fan_step e f = Some f' -> sound f'.
Proof.
  intros Hs. destruct e as [i|i|i now|i r|i| |a]; cbn [step].
  - destruct (phases f !! i) as [[]|] eqn:Ep; try done. destruct (_ <? _)%nat; [|done]. intros [= <-].
    apply (sound_step_same f _ i Acquired); try done. apply (sound_phases f Hs) in Ep. exact Ep.
  - destruct (phases f !! i) as [[]|] eqn:Ep; try done. destruct (cancelled f) eqn:Ec; [|done]. intros [= <-].
    eapply (sound_step_same f _ i (Done _)); try done. right. by split.
  - destruct (phases f !! i) as [[]|] eqn:Ep; try done. by apply dispatch_sound.
  - destruct (phases f !! i) as [[]|] eqn:Ep; try done. intros [= <-].
    eapply (sound_step_same f _ i (Answered _)); try done. apply outcome_origin. apply (sound_phases f Hs) in Ep. exact Ep.
  - destruct (phases f !! i) as [[]|] eqn:Ep; try done. intros [= <-]. apply (sound_phases f Hs) in Ep. cbn in Ep.
    apply (sound_step_same f _ i (Done (result_of items i o))); try done;
      unfold finish; cbn; destruct (failing o), (firstFailure f); cbn; try done.
    all: try (by intros ->). all: left; exists o; by split.
  - intros [= <-]. destruct Hs as [HP HS HN]. split; [|done..]. intros k p Hk%HP. by apply (phase_ok_mono f).
  - intros [= <-]. destruct Hs as [HP HS HN]. split; [|done..]. intros k p Hk%HP. by apply (phase_ok_mono f).
Qed.

Lemma run_sound es a f : fan_run es (start items a) = Some f -> sound f.
Proof.
  revert f. revert es. apply (run_induction (fun _ f => sound f)).
  - split; cbn; [|by intros i c ?%not_elem_of_nil|by apply NoDup_nil]. intros i p [-> _]%lookup_replicate. by apply not_elem_of_nil.
  - intros es e f f' _ Hf HS. by eapply step_sound.
Qed.

Lemma run_cancelled es a f :
  fan_run es (start items a) = Some f -> FanOut.FailFast fanOut = false -> CancelContext ∉ es -> cancelled f = false.
Proof.
  intros HR Hff. revert f HR. revert es.
  apply (run_induction (fun es f => CancelContext ∉ es -> cancelled f = false)); [done|].
  intros es e f f' _ IH HS Hn. rewrite elem_of_app, list_elem_of_singleton in Hn.
  assert (cancelled f = false) as Hf by (apply IH; tauto).
  destruct e as [i|i|i now|i r|i| |a']; cbn [step] in HS; [..|by injection HS as <-].
  6: by destruct Hn; right.
  all: destruct (phases f !! i) as [[]|]; try done.
  - destruct (_ <? _)%nat; [|done]. by injection HS as <-.
  - by rewrite Hf in HS.
  - unfold dispatch in HS. destruct (_ || _); [by injection HS as <-|].
    destruct (Resource.Manager.Reserve _ _ _ _ _ _ _) as [[res a2]|er|]; [| |done]; injection HS as <-; [|done].
    by destruct (Message.Validate _).
  - by injection HS as <-.
  - injection HS as <-. unfold finish. cbn. destruct (failing o), (firstFailure f); cbn; rewrite ?Hf, ?Hff; done.
Qed.

Lemma all_done_some ps rs : all_done ps = Some rs -> ps = map Done rs.
Proof.
  revert rs. induction ps as [|p ps IH]; intros rs; cbn; [by intros [= <-]|]. destruct p; try done.
  destruct (all_done ps); [|done]. intros [= <-]. cbn. f_equal. by apply IH.
Qed.

Lemma child_key_inj i k : Key (child i) = Key (child k) -> i = k.
Proof.
  unfold Key, TaskKey. cbn. unfold childTaskType. intros E%string_app_inj_l%string_app_inj_l%string_app_inj_l%string_app_inj_l.
  apply itoa_inj in E; lia.
Qed.

(** Without [fail_fast] and cancellation every item of a fan-out runs: each
    has its own result, in the order of the items, that is either the reply of an
    ant or the error of its own dispatch; the replies answer requests that were
    sent, at most one for each item, with the item in its variable and a key that
    no other request of the fan-out has. *)
Theorem fan_out_runs_every_item es a f rs
    (reached : fan_run es (start items a) = Some f)
    (keeps_going : FanOut.FailFast fanOut = false)
    (not_cancelled : CancelContext ∉ es)
    (ended : results f = Some rs) :
  List.length rs = List.length items /\
  (forall i r, rs !! i = Some r ->
     fr_index r = i /\ (exists v, items !! i = Some v /\ fr_itemVal r = sprint v) /\
     (fr_response r = None <-> is_Some (fr_err r)) /\ fr_err r <> Some ContextDone /\
     (is_Some (fr_response r) -> exists c, (i, c) ∈ sent f)) /\
  (forall i c, (i, c) ∈ sent f ->
     exists v, items !! i = Some v /\ Variables c !! FanOut.ItemVar fanOut = Some (NewVariableValue (VString (sprint v)) false)) /\
  NoDup (map (fun ic => Key (snd ic)) (sent f)).
Proof.
  pose proof (run_cancelled _ _ _ reached keeps_going not_cancelled) as Hc. pose proof (run_sound _ _ _ reached) as Hs.
  apply run_remaining in reached as [_ HL]. unfold results in ended. apply all_done_some in ended.
  assert (List.length rs = List.length items) as Hlen by (by rewrite <- HL, ended, length_map).
  assert (forall i, (i < List.length items)%nat -> exists v, items !! i = Some v /\ item_text items i = sprint v) as Hit.
  { intros i Hi. destruct (lookup_lt_is_Some_2 items i Hi) as [v Hv]. exists v. split; [done|]. unfold item_text. by rewrite Hv. }
  split; [done|]. split; [|split].
  - intros i r Hr. assert (phases f !! i = Some (Done r)) as HP by (rewrite ended; by rewrite list_lookup_fmap, Hr).
    apply (sound_phases f Hs) in HP as [(o & -> & HO)|[? _]]; [|congruence].
    destruct (Hit i) as (v & Hv & Ht); [rewrite <- Hlen; by eapply lookup_lt_Some|].
    destruct HO as [HO1 HO2]. destruct o as [resp|e]; cbn; (split; [done|]); (split; [by exists v|]); split.
    + split; [done|by intros [? ?]].
    + split; [done|]. intros _. exists (child i). by eapply HO1.
    + split; [by eexists|done].
    + split; [congruence|by intros [? ?]].
  - intros i c Hin. destruct (sound_sent f Hs i c Hin) as [-> Hi]. rewrite HL in Hi. destruct (Hit i Hi) as (v & Hv & Ht). exists v. split; [done|]. cbn. by rewrite lookup_insert_eq, Ht.
  - pose proof (sound_once f Hs) as HN. assert (forall i c, (i, c) ∈ sent f -> c = child i) as HS by (intros; by eapply sound_sent). clear -HN HS.
    induction (sent f) as [|[i c] l IH]; cbn in *; [by apply NoDup_nil|]. apply NoDup_cons in HN as [Hi HN].
    apply NoDup_cons. split; [|apply IH; [done|intros k x Hk; apply HS; by right]].
    intros ((k & x) & Ek & Hk)%list_elem_of_fmap. cbn in Ek.
    rewrite (HS i c (list_elem_of_here _ _)) in Ek. rewrite (HS k x (list_elem_of_further _ _ _ Hk)) in Ek.
    apply child_key_inj in Ek as ->. apply Hi. apply list_elem_of_fmap. by exists (k, x).
Qed.
End Tasks.

(** ** The joined reply *)
Section Join.
Import NameValue Message Fan.
Context `{ord : RangeOrder, texts : Texts}.

(** The key of an item decides the item and the rest. *)
Lemma prefix_inj v i j k k' : prefix_of v i +:+ k = prefix_of v j +:+ k' -> i = j /\ k = k'.
Proof.
  unfold prefix_of. rewrite !string_app_assoc. intros E%string_app_inj_l%string_app_inj_l.
  apply (string_split_inj "_"%char) in E as [E ->]; [|by apply itoa_avoids..]. split; [|done]. apply itoa_inj in E; lia.
Qed.

Lemma add_contexts_status {A} (key : A -> string) (val : A -> value) l : forall r,
  let r' := foldl (fun r x => AddContext (key x) (val x) r) r l in
  Status r' = Status r /\ Artifacts r' = Artifacts r.
Proof. induction l as [|x l IH]; intros r; [done|]. cbn. destruct (IH (AddContext (key x) (val x) r)) as [-> ->]. done. Qed.
Lemma add_artifacts_status l : forall r,
  let r' := foldl (fun r a => AddArtifact a r) r l in
  Status r' = Status r /\ Artifacts r' = Artifacts r ++ l /\ TaskContext r' = TaskContext r.
Proof.
  induction l as [|x l IH]; intros r; cbn; [by rewrite app_nil_r|]. destruct (IH (AddArtifact x r)) as (-> & -> & ->).
  cbn. by rewrite <- app_assoc.
Qed.

(** What is written under other keys, and what is written under a key. *)
Lemma add_contexts_other pre (l : list (string * value)) key : (forall k, k ∈ map fst l -> key <> pre +:+ k) -> forall r,
  TaskContext (foldl (fun r kv => AddContext (pre +:+ fst kv) (snd kv) r) r l) !! key = TaskContext r !! key.
Proof.
  induction l as [|[k v] l IH]; intros Hk r; [done|]. cbn. rewrite IH; [|intros k' Hk'; apply Hk; by right].
  cbn. rewrite lookup_insert_ne; [done|]. apply not_eq_sym, Hk. left.
Qed.
Lemma add_contexts_here pre (l : list (string * value)) k v : NoDup (map fst l) -> (k, v) ∈ l -> forall r,
  TaskContext (foldl (fun r kv => AddContext (pre +:+ fst kv) (snd kv) r) r l) !! (pre +:+ k) = Some v.
Proof.
  induction l as [|[k' v'] l IH]; cbn; [by intros _ ?%not_elem_of_nil|]. intros [Hn HN]%NoDup_cons [Heq|Hin]%elem_of_cons r.
  - injection Heq as -> ->. rewrite add_contexts_other; [apply lookup_insert_eq|]. intros k2 Hk2 E%string_app_inj_l. by subst.
  - by apply IH.
Qed.
Lemma NoDup_range {A} (m : gmap string A) : NoDup (map fst (range m)).
Proof. rewrite range_perm. apply NoDup_fst_map_to_list. Qed.

(** *** One result *)
Definition failed_result (x : fanOutResult) : bool :=
  match fr_err x, fr_response x with
  | Some _, _ => true
  | None, Some c => State.Failed (Status c)
  | None, None => false
  end.
Definition artifacts_in (x : fanOutResult) : list string :=
  match fr_err x, fr_response x with None, Some c => Artifacts c | _, _ => [] end.

Lemma add_result_status v r x :
  let r' := add_result v r x in
  State.Failed (Status r') = State.Failed (Status r) || failed_result x /\
  (failed_result x = false -> Status r' = Status r) /\ Artifacts r' = Artifacts r ++ artifacts_in x.
Proof.
  unfold add_result, failed_result, artifacts_in. destruct (fr_err x) as [e|], (fr_response x) as [c|]; cbv zeta.
  1, 2: destruct (State.Failed (Status r)) eqn:E; cbn; rewrite ?E, ?app_nil_r; done.
  2: by rewrite orb_false_r, app_nil_r.
  unfold add_artifacts_of, add_context_of.
  set (r1 := if _ && _ then _ else r).
  match goal with |- context [foldl _ (foldl _ ?r2 (range ?m)) ?l] =>
    pose proof (add_artifacts_status l (foldl (fun r kv => AddContext (prefix_of v (fr_index x) +:+ fst kv) (snd kv) r) r2 (range m))) as (-> & -> & _);
    pose proof (add_contexts_status (fun kv => prefix_of v (fr_index x) +:+ fst kv) snd (range m) r2) as (-> & ->)
  end. cbn. subst r1. destruct (State.Failed (Status c)) eqn:Ec, (State.Failed (Status r)) eqn:Er; cbn; rewrite ?Ec, ?Er; done.
Qed.

Lemma add_result_other v r x key :
  (forall k, key <> prefix_of v (fr_index x) +:+ k) -> TaskContext (add_result v r x) !! key = TaskContext r !! key.
Proof.
  intros Hk. unfold add_result. destruct (fr_err x) as [e|], (fr_response x) as [c|]; cbv zeta; [| | |done].
  1, 2: cbn; rewrite lookup_insert_ne by apply not_eq_sym, Hk; by destruct (State.Failed (Status r)).
  unfold add_artifacts_of, add_context_of.
  match goal with |- context [foldl _ (foldl _ ?r2 (range ?m)) ?l] =>
    pose proof (add_artifacts_status l (foldl (fun r kv => AddContext (prefix_of v (fr_index x) +:+ fst kv) (snd kv) r) r2 (range m))) as (_ & _ & ->)
  end. rewrite add_contexts_other by (intros; apply Hk). cbn. rewrite !lookup_insert_ne by apply not_eq_sym, Hk.
  by destruct (_ && _).
Qed.

Lemma add_result_here v r x c k val :
  fr_err x = None -> fr_response x = Some c -> TaskContext c !! k = Some val ->
  TaskContext (add_result v r x) !! (prefix_of v (fr_index x) +:+ k) = Some val.
Proof.
  intros He Hr Hk. unfold add_result. rewrite He, Hr. cbv zeta. unfold add_artifacts_of, add_context_of.
  match goal with |- context [foldl _ (foldl _ ?r2 (range ?m)) ?l] =>
    pose proof (add_artifacts_status l (foldl (fun r kv => AddContext (prefix_of v (fr_index x) +:+ fst kv) (snd kv) r) r2 (range m))) as (_ & _ & ->)
  end. apply add_contexts_here; [apply NoDup_range|by apply elem_of_range].
Qed.

(** *** All results *)
Lemma join_status v rs : forall r,
  let r' := foldl (add_result v) r rs in
  State.Failed (Status r') = State.Failed (Status r) || existsb failed_result rs /\
  (existsb failed_result rs = false -> Status r' = Status r) /\ Artifacts r' = Artifacts r ++ flat_map artifacts_in rs.
Proof.
  induction rs as [|x rs IH]; intros r; cbn; [by rewrite orb_false_r, app_nil_r|].
  destruct (IH (add_result v r x)) as (E1 & E2 & E3). destruct (add_result_status v r x) as (F1 & F2 & F3).
  rewrite E1, F1, E3, F3, <- app_assoc, orb_assoc. split; [done|]. split; [|done].
  intros [Hx Hr]%orb_false_iff. rewrite E2, F2 by done. done.
Qed.

Lemma join_other v rs key : (forall x k, x ∈ rs -> key <> prefix_of v (fr_index x) +:+ k) -> forall r,
  TaskContext (foldl (add_result v) r rs) !! key = TaskContext r !! key.
Proof.
  induction rs as [|x rs IH]; intros Hk r; [done|]. cbn. rewrite IH by (intros; apply Hk; by right).
  apply add_result_other. intros k. apply Hk. left.
Qed.

Lemma join_here v rs x c k val : NoDup (map fr_index rs) -> x ∈ rs ->
  fr_err x = None -> fr_response x = Some c -> TaskContext c !! k = Some val -> forall r,
  TaskContext (foldl (add_result v) r rs) !! (prefix_of v (fr_index x) +:+ k) = Some val.
Proof.
  intros HN Hx He Hr Hv. induction rs as [|y rs IH]; [by apply not_elem_of_nil in Hx|]. intros r. cbn in *.
  apply NoDup_cons in HN as [Hn HN]. apply elem_of_cons in Hx as [<-|Hx]; [|by apply IH].
  rewrite join_other; [by eapply add_result_here|]. intros z k' Hz [E _]%prefix_inj. apply Hn.
  rewrite E. apply list_elem_of_fmap. by exists z.
Qed.

Lemma plain_key v i k key : string_mem "_"%char key = false -> key <> prefix_of v i +:+ k.
Proof. intros Hk ->. unfold prefix_of in Hk. rewrite !string_mem_app in Hk. cbn in Hk. by rewrite orb_true_r in Hk. Qed.
Lemma indexed_NoDup rs : (forall i x, rs !! i = Some x -> fr_index x = i) -> NoDup (map fr_index rs).
Proof.
  intros Hi. assert (map fr_index rs = seq 0 (List.length rs)) as ->; [|apply NoDup_seq].
  apply list_eq. intros i. destruct (rs !! i) as [x|] eqn:Ex.
  - rewrite lookup_seq_lt by (by eapply lookup_lt_Some). rewrite list_lookup_fmap, Ex. cbn. by rewrite (Hi i x Ex).
  - rewrite list_lookup_fmap, Ex, lookup_seq_ge; [done|]. by apply lookup_ge_None.
Qed.

(** The reply of a fan-out over tasks is failed exactly when an item failed,
    that is when its dispatch ended with an error or its ant reported a failed
    state, and it is COMPLETED otherwise.
    The artifacts of all items are collected in order, and every variable of an
    item is found under the name of the item variable, the index and its own
    name, so that items never overwrite each other. *)
Theorem fan_out_reply_joins_all antID taskReq fanOut items rs
    (in_order : forall i x, rs !! i = Some x -> fr_index x = i)
    (of_tasks : forall x, rs = [x] -> fr_itemVal x <> "") :
  let reply := conclude antID taskReq fanOut items (inl rs) in
  (State.Failed (Status reply) = true <->
     exists x, x ∈ rs /\ (is_Some (fr_err x) \/ exists c, fr_response x = Some c /\ State.Failed (Status c) = true)) /\
  (State.Failed (Status reply) = false -> Status reply = State.COMPLETED) /\
  Artifacts reply = flat_map artifacts_in rs /\
  (forall x c k v, x ∈ rs -> fr_err x = None -> fr_response x = Some c -> TaskContext c !! k = Some v ->
     TaskContext reply !! (prefix_of (FanOut.ItemVar fanOut) (fr_index x) +:+ k) = Some v).
Proof.
  assert (buildAggregatedResponse antID taskReq (FanOut.ItemVar fanOut) rs = join_all antID taskReq (FanOut.ItemVar fanOut) rs) as E.
  { unfold buildAggregatedResponse. destruct rs as [|[[|i] t [w|] e] [|y rs]]; try done.
    specialize (of_tasks _ eq_refl). cbn in of_tasks. by rewrite (proj2 (String.eqb_neq t "") of_tasks). }
  cbn zeta. unfold conclude. rewrite E. unfold join_all. set (r0 := set_AntHost antID "server" _).
  destruct (join_status (FanOut.ItemVar fanOut) rs r0) as (E1 & E2 & E3). cbn in E1, E2, E3.
  split; [|split; [|split]].
  - change (Status (AddContext _ _ _)) with (Status (foldl (add_result (FanOut.ItemVar fanOut)) r0 rs)). rewrite E1.
    rewrite existsb_exists. split.
    + intros (x & Hx%list_elem_of_In & Hf). exists x. split; [done|]. unfold failed_result in Hf.
      destruct (fr_err x); [left; by eexists|]. destruct (fr_response x) as [c|]; [|done]. right. by exists c.
    + intros (x & Hx & Hf). exists x. split; [by apply list_elem_of_In|]. unfold failed_result.
      destruct Hf as [[e ->]|(c & -> & ->)]; [done|]. by destruct (fr_err x).
  - change (Status (AddContext _ _ _)) with (Status (foldl (add_result (FanOut.ItemVar fanOut)) r0 rs)). rewrite E1. exact E2.
  - exact E3.
  - intros x c k v Hx He Hr Hv. cbn. rewrite !lookup_insert_ne by (by apply plain_key).
    apply join_here with c; try done. by apply indexed_NoDup.
Qed.
End Join.

(** ** Waiting for children *)
Section Waiting.
Import Rows NameValue Message JobManager.Manager Waiter.
Context `{env : Store.Env, ord : RangeOrder, calls : Calls, texts : Texts, world : World}.

(** What is known of the requests that have ended. *)
Definition known_ended (ids : list string) (m : gmap string RequestRow) : Prop :=
  forall id r, m !! id = Some r -> id ∈ ids /\ r_ID r = id /\ State.IsTerminal (r_JobState r) = true.

Lemma GetJobRequest_found qc id s r s' : GetJobRequest qc id s = (inl r, s') -> r ∈ table s /\ r_ID r = id.
Proof.
  unfold GetJobRequest. intros (r1 & s1 & E1 & E2)%mbind_inl. apply mbind_inl in E2 as (u & s2 & _ & [= <- _]).
  apply repo_inv in E1 as (st & _ & E1). unfold Requests.Get in E1. destruct (id == ""); [done|].
  apply bind_inl in E1 as (rows & s3 & [-> _]%query_inl & E1). unfold Requests.first in E1.
  destruct (Sql.select _ _) as [|x rest] eqn:Ex; [done|]. injection E1 as <- _.
  assert (x ∈ Sql.select (fun r => Requests.in_scope qc true r && Requests.by_id id r) (requests (Store.db (store s)))) as Hx.
  { rewrite Ex. left. }
  apply elem_of_select in Hx as [Hx [_ Hi]%andb_true_iff]. split; [exact Hx|]. by apply String.eqb_eq in Hi.
Qed.

Lemma poll_each_known ids : forall w s,
  exists w' e s', poll_each ids w s = (inl (w', e), s') /\ requestIDs w' = requestIDs w /\ queryContext w' = queryContext w /\
    (forall l, ids ⊆ l -> known_ended l (finished w) -> known_ended l (finished w')) /\
    (forall id, is_Some (finished w !! id) -> is_Some (finished w' !! id)).
Proof.
  induction ids as [|id ids IH]; intros w s; cbn [poll_each].
  { exists w, None, s. by split_and!. }
  destruct (finished w !! id) as [r|] eqn:Ef.
  { destruct (IH w s) as (w' & e & s' & E & R & Q & H1 & H2). exists w', e, s'. split_and!; try done.
    intros l Hl. apply H1. etrans; [|exact Hl]. by right. }
  unfold bind, attempt. destruct (GetJobRequest (queryContext w) id s) as [[r|e] s1] eqn:Eg.
  - set (w1 := if State.IsTerminal (r_JobState r) then _ else w).
    destruct (IH w1 s1) as (w' & e & s' & E & R & Q & H1 & H2). exists w', e, s'.
    assert (requestIDs w1 = requestIDs w /\ queryContext w1 = queryContext w) as [R1 Q1] by (unfold w1; by destruct (State.IsTerminal _)).
    split_and!; [done|congruence|congruence| |].
    + intros l Hl Hk. apply H1; [etrans; [|exact Hl]; by right|]. unfold w1. destruct (State.IsTerminal _) eqn:Et; [|done].
      intros k x. cbn. intros [[<- <-]|[_ Hx]]%lookup_insert_Some; [|by apply Hk]. split; [apply Hl; left|].
      by apply GetJobRequest_found in Eg as [_ Eg].
    + intros k Hk. apply H2. unfold w1. destruct (State.IsTerminal _); [|done]. cbn. by apply lookup_insert_is_Some'; right.
  - exists w, (Some e), s1. by split_and!.
Qed.

Lemma Poll_known b w s :
  exists w' r s', Poll b w s = (inl (w', r), s') /\ requestIDs w' = requestIDs w /\ queryContext w' = queryContext w /\
    (known_ended (requestIDs w) (finished w) -> known_ended (requestIDs w') (finished w')) /\
    (r = inl true -> completed w' = true).
Proof.
  unfold Poll. destruct b; [by exists w, (inr ContextDone), s|].
  destruct (poll_each_known (requestIDs w) w s) as (w' & e & s' & E & R & Q & H1 & H2). unfold bind. rewrite E.
  destruct e as [e|]; [exists w', (inr (Mgr e)), s'|exists w', (inl (completed w')), s']; split_and!; try done.
  1, 2: intros Hk; rewrite R; by apply H1. by intros [= ?].
Qed.

Lemma next_sleep_bound x : x ∈ [second; 2 * second; 4 * second; 8 * second] ->
  next_sleep x ∈ [second; 2 * second; 4 * second; 8 * second].
Proof. intros Hx. unfold next_sleep, second in *. set_unfold. destruct Hx as [->|[->|[->|[->|[]]]]]; vm_compute; tauto. Qed.

Lemma wait_loop_known fuel : forall n sleep w s w' r pauses s',
  wait_loop fuel n sleep w s = (inl (w', r, pauses), s') ->
  known_ended (requestIDs w) (finished w) -> sleep ∈ [second; 2 * second; 4 * second; 8 * second] ->
  requestIDs w' = requestIDs w /\ known_ended (requestIDs w) (finished w') /\ Forall (fun p => p <= 8 * second) pauses /\
  (r = Complete -> completed w' = true).
Proof.
  assert (forall p, p ∈ [second; 2 * second; 4 * second; 8 * second] -> p <= 8 * second) as Hb.
  { unfold second. intros p Hp. set_unfold. lia. }
  induction fuel as [|fuel IH]; intros n sleep w s w' r pauses s'; cbn [wait_loop].
  { intros [= <- <- <- <-] Hk _. by split_and!. }
  intros (pr & s1 & E1 & HB)%mbind_inl Hk Hs.
  destruct (Poll_known (context_done n) w s) as (w1 & r1 & s1' & E & R & _ & K & C). rewrite E in E1. injection E1 as <- <-.
  apply K in Hk. rewrite R in Hk. destruct r1 as [[|]|e].
  - injection HB as <- <- <- <-. split_and!; try done. intros _. by apply C.
  - destruct (wakes n); [injection HB as <- <- <- <-; split_and!; try done; constructor; [by apply Hb|constructor]|..].
    all: destruct (wait_loop _ _ _ _ _) as [[[[w2 r2] p2]|e] s2] eqn:E2; [|done]; injection HB as <- <- <- <-.
    all: apply IH in E2 as (R2 & K2 & F2 & C2); [|by rewrite R|by apply next_sleep_bound].
    all: rewrite R in R2, K2; split_and!; try done; constructor; [by apply Hb|done].
  - injection HB as <- <- <- <-. by split_and!.
Qed.

(** *** Counting the requests that have ended *)
Lemma size_list_to_set_NoDup (l : list string) : (List.length l <= size (list_to_set l : gset string))%nat -> NoDup l.
Proof.
  induction l as [|x l IH]; cbn; [constructor|]. intros HL. pose proof (size_list_to_set_le l).
  destruct (decide (x ∈ l)) as [Hx|Hx].
  - replace ({[x]} ∪ list_to_set l : gset string) with (list_to_set l : gset string) in HL by set_solver. lia.
  - constructor; [done|]. apply IH. rewrite size_union, size_singleton in HL by set_solver. lia.
Qed.

Lemma completed_all w : known_ended (requestIDs w) (finished w) -> completed w = true ->
  NoDup (requestIDs w) /\ forall id, id ∈ requestIDs w -> is_Some (finished w !! id).
Proof.
  intros Hk Hc%Nat.eqb_eq. assert (dom (finished w) ⊆ list_to_set (requestIDs w)) as Hsub.
  { intros id [r Hr]%elem_of_dom. apply elem_of_list_to_set. by apply Hk in Hr as [? _]. }
  pose proof (subseteq_size _ _ Hsub) as Hle. rewrite size_dom in Hle. pose proof (size_list_to_set_le (requestIDs w)) as Hle2.
  split; [apply size_list_to_set_NoDup; lia|]. intros id Hid.
  assert (dom (finished w) = list_to_set (requestIDs w)) as Hd by (apply set_subseteq_size_eq; [done|rewrite size_dom; lia]).
  apply elem_of_dom. rewrite Hd. by apply elem_of_list_to_set.
Qed.

(** A wait ends successfully only when every awaited job has ended: each of
    them was then loaded in a terminal state, and no job was awaited twice (with a
    repeated job the waiter counts one request less than it expects and never
    completes).  It never pauses for more than eight seconds. *)
Theorem wait_ends_when_all_ended fuel w s w' pauses s'
    (fresh : finished w = ∅)
    (waited : RunAndWait fuel w s = (inl (w', Complete, pauses), s')) :
  NoDup (requestIDs w) /\ requestIDs w' = requestIDs w /\
  (forall id, id ∈ requestIDs w -> exists r, finished w' !! id = Some r /\ r_ID r = id /\
     r_JobState r ∈ [State.COMPLETED; State.FAILED; State.CANCELLED]) /\
  Forall (fun p => p <= 8 * 1000000000) pauses.
Proof.
  unfold RunAndWait in waited. destruct subscribe_ok; [|done].
  apply wait_loop_known in waited as (R & K & F & C); [|by rewrite fresh|left].
  rewrite <- R in K. destruct (completed_all w' K (C eq_refl)) as [HN HA]. rewrite R in HN, HA.
  split_and!; try done. intros id Hid. destruct (HA id Hid) as [r Hr]. exists r. split; [done|].
  apply K in Hr as (_ & Hi & Ht). split; [done|]. by rewrite <- one_of_iff, terminal_iff.
Qed.

(** *** A wait that completes *)
Definition readable (qc : Query.QueryContext) (ids : list string) (t : list RequestRow) : Prop :=
  forall id, id ∈ ids -> id <> "" /\ exists r, r ∈ t /\ Requests.in_scope qc true r = true /\ r_ID r = id.
Definition all_ended (ids : list string) (t : list RequestRow) : Prop :=
  forall r, r ∈ t -> r_ID r ∈ ids -> State.IsTerminal (r_JobState r) = true.

Lemma frames_GetJobRequest qc id : frames (GetJobRequest qc id).
Proof.
  unfold GetJobRequest. apply frames_bind; [apply frames_Get|]. intros r. apply frames_bind; [|intros; apply frames_ret].
  destruct (_ != ""); [|apply frames_ret]. apply frames_bind; [|intros; apply frames_ret].
  apply frames_attempt, frames_repo. intros t. by apply preserves_exec_Get.
Qed.

Lemma GetJobRequest_run qc id s :
  (forall n, Store.err n = false) -> readable qc [id] (table s) ->
  exists r s', GetJobRequest qc id s = (inl r, s') /\ r ∈ table s /\ r_ID r = id /\ table s' = table s.
Proof.
  intros Herr Hr. destruct (Hr id) as [Hne (r0 & Hin & Hsc & Hid)]; [left|].
  pose proof (frames_GetJobRequest qc id s) as HF. destruct (GetJobRequest qc id s) as [[r|e] s'] eqn:E.
  - exists r, s'. by destruct (GetJobRequest_found _ _ _ _ _ E) as [Ht Hi].
  - exfalso. revert E. unfold GetJobRequest, bind, repo, Requests.Get. rewrite (proj2 (String.eqb_neq id "") Hne).
    unfold Store.bind, Store.query, Store.exec. rewrite Herr. unfold Requests.first.
    destruct (Sql.select _ _) as [|x rest] eqn:Ex.
    + assert (r0 ∈ Sql.select (fun r => Requests.in_scope qc true r && Requests.by_id id r) (table s)) as Hx.
      { apply elem_of_select. split; [done|]. rewrite Hsc. cbn. unfold Requests.by_id. by apply String.eqb_eq. }
      unfold table in Hx. rewrite Ex in Hx. by apply not_elem_of_nil in Hx.
    + cbn. destruct (_ != ""); cbn; [|done]. unfold attempt. by destruct (Executions.Get _ _) as [[?|?] ?].
Qed.

Lemma poll_each_run ids : forall w s,
  (forall n, Store.err n = false) -> readable (queryContext w) ids (table s) ->
  exists w' s', poll_each ids w s = (inl (w', None), s') /\ table s' = table s /\
    (all_ended ids (table s) -> forall id, id ∈ ids -> is_Some (finished w' !! id)).
Proof.
  induction ids as [|id ids IH]; intros w s Herr Hr; cbn [poll_each].
  { exists w, s. split_and!; try done. by intros _ ? ?%not_elem_of_nil. }
  assert (readable (queryContext w) ids (table s)) as Hr' by (intros i Hi; apply Hr; by right).
  assert (all_ended (id :: ids) (table s) -> all_ended ids (table s)) as Ha by (intros HA r H1 H2; apply HA; [done|by right]).
  destruct (finished w !! id) as [r|] eqn:Ef.
  - destruct (IH w s Herr Hr') as (w' & s' & E & T & HE). exists w', s'. split_and!; try done.
    intros HA i [->|Hi]%elem_of_cons; [|by apply HE, Hi; apply Ha].
    destruct (poll_each_known ids w s) as (w2 & e2 & s2 & E2 & _ & _ & _ & H2). rewrite E in E2. injection E2 as <- _ _.
    apply H2. by exists r.
  - destruct (GetJobRequest_run (queryContext w) id s Herr) as (r & s1 & E1 & Hin & Hid & T1).
    { intros i ->%list_elem_of_singleton. apply Hr. left. }
    unfold bind, attempt. rewrite E1. set (w1 := if State.IsTerminal (r_JobState r) then _ else w).
    destruct (IH w1 s1 Herr) as (w' & s' & E & T & HE).
    { unfold w1. destruct (State.IsTerminal _); cbn; rewrite T1; done. }
    exists w', s'. split; [done|]. split; [congruence|]. intros HA i [->|Hi]%elem_of_cons; [|apply HE; [rewrite T1; by apply Ha|done]].
    destruct (poll_each_known ids w1 s1) as (w2 & e2 & s2 & E2 & _ & _ & _ & H2). rewrite E in E2. injection E2 as <- _ _.
    apply H2. unfold w1. rewrite (HA r Hin) by (rewrite Hid; left). cbn. exists r. apply lookup_insert_eq.
Qed.

Lemma Poll_run w s :
  (forall n, Store.err n = false) -> readable (queryContext w) (requestIDs w) (table s) ->
  NoDup (requestIDs w) -> known_ended (requestIDs w) (finished w) ->
  exists w' b s', Poll false w s = (inl (w', inl b), s') /\ table s' = table s /\ requestIDs w' = requestIDs w /\
    queryContext w' = queryContext w /\ known_ended (requestIDs w) (finished w') /\
    (all_ended (requestIDs w) (table s) -> b = true).
Proof.
  intros Herr Hr HN HK. unfold Poll. destruct (poll_each_run (requestIDs w) w s Herr Hr) as (w' & s' & E & T & HE).
  destruct (poll_each_known (requestIDs w) w s) as (w2 & e2 & s2 & E2 & R & Q & K & _). rewrite E in E2. injection E2 as <- <- <-.
  specialize (K (requestIDs w) ltac:(done) HK). unfold bind. rewrite E. exists w', (completed w'), s'. split_and!; try done.
  intros HA. specialize (HE HA). unfold completed. apply Nat.eqb_eq.
  assert (dom (finished w') = list_to_set (requestIDs w)) as Hd.
  { apply set_eq. intros id. rewrite elem_of_dom, elem_of_list_to_set. split; [|apply HE]. intros [r Hx]. by apply K in Hx as [? _]. }
  by rewrite <- size_dom, Hd, size_list_to_set, R.
Qed.

Lemma wait_loop_completes fuel : forall n k sleep w s,
  (forall j, Store.err j = false) -> (forall j, context_done j = false) -> (forall j, wakes j <> Cancelled) ->
  (forall j s, readable (queryContext w) (requestIDs w) (table s) -> readable (queryContext w) (requestIDs w) (table (elsewhere j s))) ->
  (forall s, all_ended (requestIDs w) (table (elsewhere n s))) ->
  readable (queryContext w) (requestIDs w) (table s) -> NoDup (requestIDs w) -> known_ended (requestIDs w) (finished w) ->
  (k <= n)%nat -> (n - k + 2 <= fuel)%nat ->
  exists w' pauses s', wait_loop fuel k sleep w s = (inl (w', Complete, pauses), s').
Proof.
  intros n k sleep w s Herr Hctx Hw Hkeep Hend. revert k sleep w s Hkeep Hend.
  induction fuel as [|fuel IH]; intros k sleep w s Hkeep Hend Hr HN HK Hle Hf; [lia|]. cbn [wait_loop].
  destruct (Poll_run w s Herr Hr HN HK) as (w1 & b & s1 & E & T & R & Q & K1 & HB).
  unfold bind. rewrite Hctx, E. destruct b; [by eexists _, _, _|].
  destruct (decide (k = n)) as [->|Hne].
  - destruct fuel as [|fuel]; [lia|].
    assert (exists w' pauses s', wait_loop (S fuel) (S n) (next_sleep sleep) w1 (elsewhere n s1) = (inl (w', Complete, pauses), s')) as (w' & ps & s' & E2).
    { cbn [wait_loop]. destruct (Poll_run w1 (elsewhere n s1)) as (w2 & b2 & s2 & E2 & _ & _ & _ & _ & HB2); try done.
      - rewrite Q, R. apply Hkeep. by rewrite T.
      - by rewrite R.
      - by rewrite R.
      - unfold bind. rewrite Hctx, E2, HB2; [by eexists _, _, _|]. rewrite R. apply Hend. }
    destruct (wakes n) eqn:Ew; [by destruct (Hw n)|..]; rewrite E2; by eexists _, _, _.
  - destruct (IH (S k) (next_sleep sleep) w1 (elsewhere k s1)) as (w' & ps & s' & E2); rewrite ?R, ?Q; try done; try lia.
    + apply Hkeep. by rewrite T.
    + destruct (wakes k) eqn:Ew; [by destruct (Hw k)|..]; rewrite E2; by eexists _, _, _.
Qed.

(** C30: a wait completes once its jobs have ended: when the awaited jobs are
    distinct, the caller can read them, queries work and the context lasts, and at
    some pause they have all ended, then the wait returns successfully by the
    second poll after it. *)
Theorem wait_completes n w s
    (distinct : NoDup (requestIDs w))
    (fresh : finished w = ∅)
    (subscribed : subscribe_ok = true)
    (queries_ok : forall j, Store.err j = false)
    (context_lasts : (forall j, context_done j = false) /\ forall j, wakes j <> Cancelled)
    (can_read : readable (queryContext w) (requestIDs w) (table s) /\
       forall j s, readable (queryContext w) (requestIDs w) (table s) ->
         readable (queryContext w) (requestIDs w) (table (elsewhere j s)))
    (jobs_end : forall s, all_ended (requestIDs w) (table (elsewhere n s))) :
  exists w' pauses s', RunAndWait (n + 2) w s = (inl (w', Complete, pauses), s').
Proof.
  unfold RunAndWait. rewrite subscribed. cbn [negb].
  apply (wait_loop_completes (n + 2) n 0); try done; try apply context_lasts; try apply can_read; try lia. by rewrite fresh.
Qed.

(** *** The reply of a wait *)
Context `{dec : Decoder}.

Lemma copy_all_status cs : forall r, Status (copy_all cs r) = Status r.
Proof.
  induction cs as [|c cs IH]; intros r; [done|]. cbn. change (Status (copy_all cs (copy_context (o_Name c) (nv_of c) r)) = Status r).
  rewrite IH. unfold copy_context. by destruct (GetParsedValue _).
Qed.
Lemma applyOutputMap_status sub cs r : Status (applyOutputMap sub cs r) = Status r.
Proof.
  unfold applyOutputMap. destruct sub as [c|]; [|apply copy_all_status]. destruct (OutputVariables c); [apply copy_all_status|].
  destruct (OutputMap _) as [m|]; [|apply copy_all_status]. revert r. induction cs as [|x cs IH]; intros r; [done|]. cbn. rewrite IH.
  destruct (m !! o_Name x); [|done]. unfold copy_context. by destruct (GetParsedValue _).
Qed.
Lemma add_child_status sub q e cs arts r :
  Status (add_child sub q e cs arts r) = if State.Failed (Status r) then Status r else e_JobState e.
Proof.
  unfold add_child. destruct (exit_columns (e_ID e)) as [code msg]. cbv zeta.
  match goal with |- context [foldl _ ?r0 arts] => pose proof (add_artifacts_status arts r0) as (-> & _) end.
  rewrite applyOutputMap_status. cbn. by destruct (State.Failed (e_JobState e) && _), (State.Failed (Status r)).
Qed.

(** The execution that is loaded. *)
Definition execution_of (t : list ExecRow) (r : RequestRow) (e : ExecRow) : Prop :=
  e ∈ t /\ e_ID e = text (r_JobExecutionID r) /\ e_Active e = true.

Lemma exec_Get_found id st e ts st' :
  Executions.Get id st = (inl (e, ts), st') -> e ∈ executions (Store.db st) /\ e_ID e = id /\ e_Active e = true.
Proof.
  unfold Executions.Get. destruct (id == ""); [done|]. intros (x & s1 & [-> _]%query_inl & E)%bind_inl.
  apply bind_inl in E as (e1 & s2 & E1 & E). cbn [fst] in E1. unfold Requests.first in E1.
  destruct (Sql.select _ _) as [|y rest] eqn:Ey; [done|]. injection E1 as <- <-.
  assert (y ∈ Sql.select (fun e => Executions.by_id id e && e_Active e) (executions (Store.db st))) as Hy by (rewrite Ey; left).
  apply elem_of_select in Hy as [Hy [Hi%String.eqb_eq Ha]%andb_true_iff].
  assert (e = y) as -> by (destruct (_ <? _)%nat; [apply bind_inl in E as (? & ? & _ & [= <- _ _])|injection E as <- _ _]; done).
  done.
Qed.

Lemma NoDup_map_eq {A B} (f : A -> B) l x y : NoDup (map f l) -> x ∈ l -> y ∈ l -> f x = f y -> x = y.
Proof.
  induction l as [|z l IH]; cbn; [by intros _ ?%not_elem_of_nil|]. intros [Hz HN]%NoDup_cons Hx Hy E.
  apply elem_of_cons in Hx as [->|Hx], Hy as [->|Hy]; try done; [| |by apply IH].
  - destruct Hz. rewrite E. apply list_elem_of_fmap. by exists y.
  - destruct Hz. rewrite <- E. apply list_elem_of_fmap. by exists x.
Qed.

Lemma add_children_status sub l : forall r s r' s',
  add_children sub l r s = (inl (inl r'), s') ->
  exists es, Forall2 (fun kv e => execution_of (executions (Store.db (store s))) (snd kv) e) l es /\
    State.Failed (Status r') = State.Failed (Status r) || existsb (fun e => State.Failed (e_JobState e)) es /\
    (State.Failed (Status r) = false -> Forall (fun e => e_JobState e = State.COMPLETED) es -> Status r = State.COMPLETED ->
     Status r' = State.COMPLETED).
Proof.
  induction l as [|[k req] l IH]; intros r s r' s'; cbn [add_children].
  { intros [= <- <-]. exists []. split; [constructor|]. by rewrite orb_false_r. }
  intros (x & s1 & E1%attempt_inl & E2)%mbind_inl. destruct x as [[e ts]|e]; [|done].
  apply repo_inv in E1 as (st & -> & E1). pose proof (exec_Get_found _ _ _ _ _ E1) as He.
  assert (executions (Store.db st) = executions (Store.db (store s))) as Hd.
  { pose proof (preserves_exec_Get (fun d => executions d = executions (Store.db (store s))) (text (r_JobExecutionID req)) ltac:(done) (store s) eq_refl) as HP.
    by rewrite E1 in HP. }
  apply IH in E2 as (es & HF & HS & HC). cbn [store set_store] in HF. rewrite Hd in HF.
  exists (e :: es). rewrite add_child_status in HS, HC. split; [by constructor|]. cbn [existsb].
  destruct (State.Failed (Status r)) eqn:Er; [by rewrite Er in HS|]. split; [by rewrite HS|].
  intros _ [Hc HA]%Forall_cons _. apply HC; [by rewrite Hc|done|done].
Qed.

Lemma BuildTaskResponse_status antID w taskReq s reply s' :
  BuildTaskResponse antID w taskReq s = (inl (inl reply), s') ->
  completed w = true /\ exists es,
    Forall2 (fun kv e => execution_of (executions (Store.db (store s))) (snd kv) e) (range (finished w)) es /\
    State.Failed (Status reply) = existsb (fun e => State.Failed (e_JobState e)) es /\
    (Forall (fun e => e_JobState e = State.COMPLETED) es -> Status reply = State.COMPLETED).
Proof.
  unfold BuildTaskResponse. destruct (completed w); [|done]. cbn [negb]. intros HA%add_children_status. split; [done|].
  destruct HA as (es & HF & HS & HC). exists es. split; [done|]. split; [exact HS|]. intros Hall. by apply HC.
Qed.

(** The reply of a wait is failed exactly when one of the awaited jobs has a
    failed or cancelled execution, whatever the order in which the jobs are
    visited; when all have completed it is COMPLETED. *)
Theorem wait_reply_fails_iff_child_failed antID w taskReq s reply s'
    (unique : NoDup (map e_ID (executions (Store.db (store s)))))
    (built : BuildTaskResponse antID w taskReq s = (inl (inl reply), s')) :
  (State.Failed (Status reply) = true <->
     exists id r e, finished w !! id = Some r /\ e ∈ executions (Store.db (store s)) /\ e_ID e = text (r_JobExecutionID r) /\
       e_JobState e ∈ [State.FAILED; State.CANCELLED]) /\
  ((forall id r e, finished w !! id = Some r -> e ∈ executions (Store.db (store s)) -> e_ID e = text (r_JobExecutionID r) ->
      e_JobState e = State.COMPLETED) -> Status reply = State.COMPLETED).
Proof.
  apply BuildTaskResponse_status in built as (_ & es & HF & HS & HC).
  assert (forall id r e, finished w !! id = Some r -> e ∈ executions (Store.db (store s)) -> e_ID e = text (r_JobExecutionID r) ->
    e ∈ es) as Hin.
  { intros id r e Hr%elem_of_range He Hid. apply list_elem_of_lookup in Hr as [i Hi].
    apply (Forall2_lookup_l _ _ _ _ _ HF) in Hi as (e' & He' & (H1 & H2 & _)). cbn in H2.
    assert (e = e') as ->; [|by apply (list_elem_of_lookup_2 _ i)]. by eapply NoDup_map_eq; [exact unique|done|done|congruence]. }
  assert (forall e, e ∈ es -> exists id r, finished w !! id = Some r /\ execution_of (executions (Store.db (store s))) r e) as Hes.
  { intros e He. apply list_elem_of_lookup in He as [i Hi].
    apply (Forall2_lookup_r _ _ _ _ _ HF) in Hi as ([id r] & Hr & Hx). exists id, r. split; [|done].
    apply elem_of_range. by apply (list_elem_of_lookup_2 _ i). }
  split.
  - rewrite HS, existsb_exists. split.
    + intros (e & He%list_elem_of_In & Hf). destruct (Hes e He) as (id & r & Hr & H1 & H2 & _). exists id, r, e.
      split_and!; try done. unfold State.Failed in Hf. apply orb_true_iff in Hf as [Hf%String.eqb_eq|Hf%String.eqb_eq]; rewrite Hf; set_solver.
    + intros (id & r & e & Hr & He & Hid & Hst). exists e. split; [apply list_elem_of_In; by eapply Hin|].
      set_unfold in Hst. destruct Hst as [->|[->|[]]]; done.
  - intros Hall. apply HC, Forall_forall. intros e He. destruct (Hes e He) as (id & r & Hr & H1 & H2 & _). by eapply Hall.
Qed.
End Waiting.

(** ** Children of a job *)
Section Children.
Import Rows NameValue Schedule Request Message JobManager.Manager Waiter Fork Fan.
Context `{env : Store.Env, cron : Schedule.Cron, dec : Decoder, ord : RangeOrder, calls : Calls, texts : Texts}.

Lemma row_add_param name v req : row (add_param name v req) = row req.
Proof. unfold add_param. destruct (AddParam name v req) as [r|] eqn:E; [|done]. by apply row_AddParam in E. Qed.
Lemma row_add_inputs l data : forall req req', add_inputs l data req = inl req' -> row req' = row req.
Proof.
  induction l as [|[k e] l IH]; intros req req'; cbn; [by intros [= <-]|]. destruct (ParseTemplate e data); [|done].
  destruct (AddParam _ _ _) eqn:E; [|done]. intros HI%IH. rewrite HI. by apply row_AddParam in E.
Qed.
Lemma row_apply_inputs sub data req req' : apply_inputs sub data req = inl req' -> row req' = row req.
Proof.
  unfold apply_inputs. destruct sub as [c|]; [|by intros [= <-]]. destruct (InputParams c); [by intros [= <-]|].
  destruct (InputMap _); [|done]. apply row_add_inputs.
Qed.

(** A row made for a child of the parent. *)
Definition child_of_parent (parentID : string) (r : RequestRow) : Prop :=
  r_ID r = "" /\ r_ParentID r = parentID /\ r_CascadeCancel r = true.

Lemma new_request_id def req : NewJobRequestFromDefinition Store.now def = Some req -> r_ID (row req) = "".
Proof.
  unfold NewJobRequestFromDefinition. destruct (d_Disabled def); [done|]. intros [= <-]. cbn.
  unfold UpdateUserKeyFromScheduleIfCronJob. by destruct (cron_schedule _ def) as [[? ?]|].
Qed.

(** What saving such a request leaves in the table. *)
Lemma child_saved qc req parentID s saved left s' :
  child_of_parent parentID (row req) -> SaveJobRequest qc req s = (inl (inl saved, left), s') ->
  table s' = table s ++ [row saved] /\ r_ParentID (row saved) = parentID /\ r_CascadeCancel (row saved) = true /\
  r_JobState (row saved) = State.PENDING.
Proof.
  intros (Hid & Hp & Hc) HS. apply SaveJobRequest_inl in HS as (def & s1 & s2 & s3 & left' & E1 & E2 & _ & E3 & Et & _).
  pose proof (frames_GetByType qc (r_JobType (row req)) (r_JobVersion (row req)) s) as F1. rewrite E1 in F1.
  pose proof (frames_quota qc (Requests.owned_by qc (row req)) def s1) as F2. rewrite E2 in F2. cbn [snd] in F1, F2.
  apply save_object_inv in E3 as (st & -> & ps' & HS).
  destruct (submitted_keeps def (Requests.owned_by qc (row req))) as (K1 & (_ & K2 & K3) & _).
  apply Save_new in HS as (Htab & _ & Hst & _ & _ & _ & _ & (_ & Hp' & Hc' & _) & _); [|by cbn; rewrite K1].
  cbn in Hp', Hc'. rewrite K2 in Hp'. rewrite K3 in Hc'. cbn in Hp', Hc'.
  split_and!; try congruence. unfold table in *. cbn in Et. rewrite Et, Htab. congruence.
Qed.

Lemma child_found parentID r s : parentID <> "" -> Store.err (Store.statements (store s)) = false ->
  r ∈ table s -> r_ParentID r = parentID -> r_CascadeCancel r = true -> r_JobState r = State.PENDING ->
  exists l st, Requests.FindActiveChildRequests parentID (store s) = (inl l, st) /\ r ∈ l.
Proof.
  intros Hne Herr Hin Hp Hc Hst. unfold Requests.FindActiveChildRequests. rewrite (proj2 (String.eqb_neq _ _) Hne).
  unfold Store.query, Store.exec. rewrite Herr. eexists _, _. split; [done|]. apply elem_of_select. split; [done|].
  unfold Requests.active_child. by rewrite Hp, Hc, Hst, eqb_string_refl.
Qed.

(** A child job is cancelled with its parent: when forking, or fanning out
    over jobs, has stored a child, the table has grown by the request that is
    reported, it is pending, and the search for the children to cancel with the
    job of the task finds it. *)
Theorem children_are_found_by_cancellation taskReq fanOut item idx s id s'
    (made : (exists saved, fork taskReq s = (inl (inl saved), s') /\ r_ID (row saved) = id) \/
            spawnChildJob taskReq fanOut item idx s = (inl (inl id), s'))
    (parent : JobRequestID taskReq <> "")
    (query_ok : Store.err (Store.statements (store s')) = false) :
  exists r, table s' = table s ++ [r] /\ r_ID r = id /\ r_JobState r = State.PENDING /\
    exists l st, Requests.FindActiveChildRequests (JobRequestID taskReq) (store s') = (inl l, st) /\ r ∈ l.
Proof.
  assert (exists qc req saved left s1, child_of_parent (JobRequestID taskReq) (row req) /\ table s1 = table s /\
            SaveJobRequest qc req s1 = (inl (inl saved, left), s') /\ r_ID (row saved) = id) as (qc & req & saved & left & s1 & HC & HT & HS & Hid).
  { destruct made as [(saved & HF & Hid)|HF].
    - unfold fork in HF. destruct (_ == ""); [done|]. apply mbind_inl in HF as (def & s1 & E1%attempt_inl & HF).
      match type of E1 with GetJobDefinitionByType ?q ?t ?v _ = _ => pose proof (frames_GetByType q t v s) as F1 end.
      rewrite E1 in F1. cbn [snd] in F1. destruct def as [def|e]; [|done]. destruct (child_request taskReq def) as [req|e] eqn:Ec; [|done].
      apply mbind_inl in HF as ([res left] & s2 & E2 & HF). injection HF as HF <-. destruct res as [x|e]; [|done]. injection HF as ->.
      exists (NewQueryContextFromIDs (UserID taskReq) (OrganizationID taskReq)), req, saved, left, s1. split_and!; try done.
      unfold child_request in Ec. destruct (NewJobRequestFromDefinition _ def) as [r0|] eqn:En; [|done].
      destruct (apply_inputs _ _ r0) as [r1|e] eqn:Ea; [|done]. injection Ec as <-. unfold child_of_parent. cbn.
      rewrite !row_add_param, (row_apply_inputs _ _ _ _ Ea). split_and!; [|done..]. by apply new_request_id in En.
    - unfold spawnChildJob in HF. apply mbind_inl in HF as (def & s1 & E1%attempt_inl & HF).
      match type of E1 with GetJobDefinitionByType ?q ?t ?v _ = _ => pose proof (frames_GetByType q t v s) as F1 end.
      rewrite E1 in F1. cbn [snd] in F1. destruct def as [def|e]; [|done]. destruct (NewJobRequestFromDefinition _ def) as [r0|] eqn:En; [|done].
      destruct (apply_inputs _ _ _) as [req|e] eqn:Ea; [|done]. apply mbind_inl in HF as ([res left] & s2 & E2 & HF).
      injection HF as HF <-. destruct res as [x|e]; [|done]. injection HF as <-.
      exists (NewQueryContextFromIDs (UserID taskReq) (OrganizationID taskReq)), req, x, left, s1. split_and!; try done.
      apply row_apply_inputs in Ea. unfold child_of_parent. rewrite Ea, !row_add_param. cbn. split_and!; [|done..].
      by apply new_request_id in En. }
  destruct (child_saved qc req _ s1 saved left s' HC HS) as (Ht & Hp & Hcc & Hst). exists (row saved). rewrite <- HT.
  split_and!; try done. apply child_found; try done. rewrite Ht. apply elem_of_app. right. by apply list_elem_of_singleton.
Qed.
End Children.

(** ** Concrete runs *)
Module TaskletDemo.
Import Rows NameValue Message JobManager.Manager Waiter Fork Fan ResourceSpec.Demo.

#[local] Existing Instance demo_env.
#[local] Existing Instance demo_cron.
#[local] Existing Instance demo_decoder.
#[local] Existing Instance demo_calls.
#[local] Instance demo_texts : Texts :=
  {| ParseTemplate := fun s _ => Some s; sprint_other := fun _ json => default "" json; as_array := fun _ => None;
     json_array := fun s => Some (map VString (Split s ","%char));
     describe := fun e => match e with ContextDone => "context canceled" | _ => "error" end; exit_columns := fun _ => ("", "") |}.
Definition demo_world (rows : list RequestRow) : World :=
  {| subscribe_ok := true; context_done := fun _ => false; wakes := fun _ => Slept; elsewhere := fun _ _ => demo_ms rows |}.

Definition fan (parallel : Z) (fast : bool) : FanOut.FanOutConfig :=
  FanOut.mkFanOutConfig "regions" "region" parallel fast "SHELL" "" "" ["deploy"] [] [].
Definition options : ExecutorOptions :=
  mkExecutorOptions "FAN_OUT_JOB" "build" "" "" ["wait"] None (Some (fan 2 false)).
Definition demo_task (vars : gmap string VariableValue) : TaskRequest :=
  mkTaskRequest "user" "org" "def" "q" "deploy-all" "" "x" "t" "deploy" "c" EXECUTE ["x"] [] [] ["run"] 0 vars options.
Definition parent : TaskRequest := demo_task ∅.
Definition regions : list value := [VString "east"; VString "west"; VString "north"].
Definition answer (status : RequestState) : TaskResponse :=
  AddContext "out" (VString "ok") (set_Status status (NewTaskResponse parent)).

Definition runs (f : FanOut.FanOutConfig) (items : list value) (es : list event) : State_ :=
  default (start items s2) (run cfg parent f items es (start items s2)).
Definition one (i : nat) (status : RequestState) : list event :=
  [Dispatch i 101; Reply i (Response (answer status)); Finish i].
Definition calm_run : list event :=
  [Admit 0; Admit 2] ++ one 2 State.COMPLETED ++ [Admit 1] ++ one 0 State.COMPLETED ++ one 1 State.FAILED.
Definition half_run : list event := [Admit 0; Admit 2; Dispatch 0 101; Dispatch 2 101].

Lemma fan_out_within_limit_witness :
  flying (runs (fan 2 false) regions half_run) = 2%nat /\
  (flying (runs (fan 2 false) regions half_run) <= List.length regions)%nat /\
  (0 < FanOut.MaxParallel (fan 2 false) -> Z.of_nat (flying (runs (fan 2 false) regions half_run)) <= FanOut.MaxParallel (fan 2 false)).
Proof.
  split; [vm_compute; reflexivity|].
  refine (fan_out_within_limit cfg parent (fan 2 false) regions half_run s2 _ _). vm_compute. reflexivity.
Defined.

Lemma fan_out_ends_witness :
  (List.length (List.filter own half_run) <= 4 * List.length regions)%nat /\
  (Alloc.wf (alloc (runs (fan 2 false) regions half_run)) -> has_types parent (runs (fan 2 false) regions half_run) -> results (runs (fan 2 false) regions half_run) = None ->
   exists e, own e = true /\ step cfg parent (fan 2 false) regions e (runs (fan 2 false) regions half_run) <> None).
Proof. refine (fan_out_ends cfg parent (fan 2 false) regions half_run s2 _ _). vm_compute. reflexivity. Defined.

Definition calm_results : list fanOutResult := default [] (results (runs (fan 2 false) regions calm_run)).

Lemma fan_out_runs_every_item_witness :
  List.length calm_results = 3%nat /\ map fst (sent (runs (fan 2 false) regions calm_run)) = [2; 0; 1]%nat.
Proof.
  destruct (fan_out_runs_every_item cfg parent (fan 2 false) regions calm_run s2 (runs (fan 2 false) regions calm_run) calm_results) as [HL _].
  - vm_compute. reflexivity.
  - reflexivity.
  - intros HC. apply list_elem_of_In in HC. vm_compute in HC. repeat (destruct HC as [HC|HC]; [discriminate HC|]). exact HC.
  - vm_compute. reflexivity.
  - split; [exact HL|vm_compute; reflexivity].
Defined.

Lemma fan_out_reply_joins_all_witness :
  let reply := conclude "fan" parent (fan 2 false) regions (inl calm_results) in
  Status reply = State.FAILED /\ TaskContext reply !! "region_2_out" = Some (VString "ok").
Proof.
  destruct (fan_out_reply_joins_all "fan" parent (fan 2 false) regions calm_results) as (_ & _ & _ & HC).
  - intros i x Hx. destruct i as [|[|[|i]]]; vm_compute in Hx; [injection Hx as <-; reflexivity..|discriminate Hx].
  - intros x Hx. vm_compute in Hx. discriminate Hx.
  - split; [vm_compute; reflexivity|].
    refine (HC (mkResult 2 "north" (Some (answer State.COMPLETED)) None) (answer State.COMPLETED) "out" (VString "ok") _ eq_refl eq_refl _).
    + apply (list_elem_of_lookup_2 _ 2). vm_compute. reflexivity.
    + vm_compute. reflexivity.
Defined.

(** *** What goes wrong *)

(** An ant with two places takes any number of items of one fan-out, since all of
    them are reserved for the same request and task; when the first item is done
    the ant counts as idle. *)
Definition three_at_once : list event :=
  [Admit 0; Admit 1; Admit 2; Dispatch 0 101; Dispatch 1 101; Dispatch 2 101].
Definition load (f : State_) : Z := Alloc.calculateLoad (default ∅ (Alloc.allocationsByAnt (alloc f) !! "a1")).
Example fan_out_overloads_ant :
  let f := runs (fan 0 false) regions three_at_once in
  let f' := runs (fan 0 false) regions (three_at_once ++ [Reply 0 NoEvent]) in
  List.length (sent f) = 3%nat /\ load f = 1 /\ Ants.MaxCapacity a1 = 2 /\
  flying f' = 3%nat /\ load f' = 0.
Proof. vm_compute. repeat split. Qed.

(** With [fail_fast] the message of the reply may be that of an item that was
    cancelled instead of the cause. *)
Definition failing_run : list event :=
  [Admit 1] ++ one 1 State.FAILED ++ [Skip 0; Skip 2].
Example fail_fast_hides_the_cause :
  let rs := default [] (results (runs (fan 1 true) regions failing_run)) in
  ErrorMessage (conclude "fan" parent (fan 1 true) regions (inl rs)) = "context canceled".
Proof. vm_compute. reflexivity. Qed.

(** The reply for a single item with an empty text is taken for that of child
    jobs: its variables are not under the prefix of the item. *)
Example single_blank_item_loses_its_prefix :
  let rs := default [] (results (runs (fan 1 false) [VString ""] ([Admit 0] ++ one 0 State.COMPLETED))) in
  let reply := conclude "fan" parent (fan 1 false) [VString ""] (inl rs) in
  TaskContext reply !! "region_0_out" = None /\ TaskContext reply !! "out" = Some (VString "ok").
Proof. vm_compute. split; reflexivity. Qed.

(** A variable of a child named as one that the tasklet writes replaces it. *)
Example child_variable_replaces_its_status :
  let child := AddContext "status" (VString "fine") (answer State.FAILED) in
  let rs := [mkResult 0 "east" (Some child) None; mkResult 1 "west" (Some (answer State.COMPLETED)) None] in
  TaskContext (conclude "fan" parent (fan 1 false) regions (inl rs)) !! "region_0_status" = Some (VString "fine").
Proof. vm_compute. reflexivity. Qed.

(** *** Waiting *)
Definition child_row_of (id : string) (state : RequestState) : RequestRow :=
  mkRequestRow id "q" ("key-" +:+ id) "def-1" (Some ("x-" +:+ id)) None "org" "user" "build" "" state 5 0 0 0 false None None "" 10 100 20
    false true.
Definition awaiting (ids : list string) : JobWaiter :=
  mkJobWaiter ids ∅ (NewQueryContextFromIDs "user" "org") None.
Definition ended_rows : list RequestRow := [child_row_of "k1" State.COMPLETED; child_row_of "k2" State.FAILED].
Definition waiting_rows : list RequestRow := [child_row_of "k1" State.COMPLETED; child_row_of "k2" State.EXECUTING].
#[local] Existing Instance demo_world.

Definition waited : ((JobWaiter * wait_result * list Z) + merror) * MS :=
  RunAndWait (world := demo_world ended_rows) 3 (awaiting ["k1"; "k2"]) (demo_ms waiting_rows).
Definition waiter_after : JobWaiter := match fst waited with inl (w, _, _) => w | _ => awaiting [] end.
Definition pauses_of : list Z := match fst waited with inl (_, _, p) => p | _ => [] end.

Lemma wait_ends_when_all_ended_witness :
  pauses_of = [1000000000] /\ NoDup ["k1"; "k2"] /\
  exists r, finished waiter_after !! "k2" = Some r /\ r_ID r = "k2" /\
    r_JobState r ∈ [State.COMPLETED; State.FAILED; State.CANCELLED].
Proof.
  destruct (wait_ends_when_all_ended (world := demo_world ended_rows) 3 (awaiting ["k1"; "k2"]) (demo_ms waiting_rows)
              waiter_after pauses_of (snd waited)) as (HN & _ & HR & _).
  - reflexivity.
  - vm_compute. reflexivity.
  - split; [vm_compute; reflexivity|]. split; [exact HN|]. refine (HR "k2" _). right. left.
Defined.

Lemma demo_readable rows : map r_ID rows = ["k1"; "k2"] ->
  Forall (fun r => r_OrganizationID r = "org") rows ->
  readable (NewQueryContextFromIDs "user" "org") ["k1"; "k2"] (table (demo_ms rows)).
Proof.
  destruct rows as [|x [|y [|]]]; try discriminate. intros [= Hx Hy] HF id Hid.
  apply Forall_cons in HF as [Ox HF]. apply Forall_cons in HF as [Oy _]. set_unfold in Hid.
  destruct Hid as [->|[->|[]]]; (split; [discriminate|]); [exists x|exists y]; (split; [set_solver|split; [|done]]).
  - change ((r_OrganizationID x == "org") = true). by rewrite Ox.
  - change ((r_OrganizationID y == "org") = true). by rewrite Oy.
Qed.

Lemma wait_completes_witness :
  exists w' pauses s', RunAndWait (world := demo_world ended_rows) 2 (awaiting ["k1"; "k2"]) (demo_ms waiting_rows) =
    (inl (w', Complete, pauses), s').
Proof.
  refine (wait_completes (world := demo_world ended_rows) 0 (awaiting ["k1"; "k2"]) (demo_ms waiting_rows) _ _ _ _ _ _ _).
  - apply (bool_decide_unpack _). vm_compute. exact Logic.I.
  - reflexivity.
  - reflexivity.
  - reflexivity.
  - split; [reflexivity|discriminate].
  - split; [|intros j s' _]; (apply demo_readable; [reflexivity|by repeat constructor]).
  - intros s' r Hr _. vm_compute in Hr. apply elem_of_cons in Hr as [->|Hr]; [reflexivity|].
    apply elem_of_cons in Hr as [->|Hr]; [reflexivity|]. by apply not_elem_of_nil in Hr.
Defined.

(** A job that is awaited twice: however long the loop runs, it has ended from
    the start and the wait does not. *)
Example repeated_job_is_awaited_for_ever :
  forallb (fun fuel => match fst (RunAndWait (world := demo_world ended_rows) fuel (awaiting ["k1"; "k1"]) (demo_ms ended_rows)) with
                       | inl (_, Waiter.Waiting, _) => true
                       | _ => false
                       end) (seq 0 20) = true.
Proof. vm_compute. reflexivity. Qed.

Definition execution (id : string) (state : RequestState) : ExecRow :=
  mkExecRow ("x-" +:+ id) id true "build" "" state 0 "user" "org" "" "code" "broken" 5 None 5.
Definition after_ms : MS :=
  set_store (Store.mkSt (mkDB ended_rows [execution "k1" State.COMPLETED; execution "k2" State.FAILED] [] [build_definition]
                           [] [] [] [] [] [] [] []) 0 0) (demo_ms ended_rows).
Definition demo_built : ((TaskResponse + terror) + merror) * MS := BuildTaskResponse "wait" waiter_after parent after_ms.
Definition demo_reply : TaskResponse := match fst demo_built with inl (inl r) => r | _ => answer "" end.

Lemma wait_reply_fails_iff_child_failed_witness : ErrorMessage demo_reply = "broken" /\ State.Failed (Status demo_reply) = true.
Proof.
  split; [vm_compute; reflexivity|].
  apply (wait_reply_fails_iff_child_failed "wait" waiter_after parent after_ms demo_reply (snd demo_built)).
  - apply (bool_decide_unpack _). vm_compute. exact Logic.I.
  - vm_compute. reflexivity.
  - exists "k2", (child_row_of "k2" State.FAILED), (execution "k2" State.FAILED). split; [vm_compute; reflexivity|].
    split; [right; left|]. split; [reflexivity|left].
Defined.

(** *** Children *)
Definition forked : ((Request.JobRequest + terror) + merror) * MS := fork parent (demo_ms []).
Lemma children_are_found_by_cancellation_witness :
  exists r, table (snd forked) = [] ++ [r] /\ r_ID r = "ulid-0" /\ r_JobState r = State.PENDING /\
    exists l st, Requests.FindActiveChildRequests "q" (store (snd forked)) = (inl l, st) /\ r ∈ l.
Proof.
  refine (children_are_found_by_cancellation parent (fan 2 false) "" 0 (demo_ms []) "ulid-0" (snd forked) _ _ _).
  - left. eexists. split; [vm_compute; reflexivity|vm_compute; reflexivity].
  - discriminate.
  - reflexivity.
Defined.

(** The request of a job that was itself forked by a job of type [build] may fork
    a job of type [build] again: only the type of the direct parent is passed on. *)
Definition deploy_request : RequestRow := relative "q" "p" State.EXECUTING.
Definition grandparent : OwnedRow := mkOwnedRow "o1" "q" (ParentJobTypePrefix +:+ "_p") "string" "build".
Definition forked_before : MS :=
  set_store (Store.mkSt (mkDB [deploy_request] [] [] [build_definition] [grandparent] [] [] [] [] [] [] []) 0 0) (demo_ms [deploy_request]).
Example fork_ignores_grandparents :
  match fst (fork parent forked_before) with inl (inl saved) => r_JobType (Request.row saved) == "build" | _ => false end = true.
Proof. vm_compute. reflexivity. Qed.

(** Fan-out over jobs passes no ancestor at all: a job may fan out to its own type. *)
Definition own_type : TaskRequest :=
  mkTaskRequest "user" "org" "def" "q" "build" "" "x" "t" "deploy" "c" EXECUTE [] [] [] [] 0 ∅ options.
Definition job_fan : FanOut.FanOutConfig := FanOut.mkFanOutConfig "regions" "region" 1 false "" "build" "" [] [] [].
Example fan_out_to_own_type_is_accepted :
  match fst (fork own_type (demo_ms [])), fst (spawnChildJob own_type job_fan "east" 0 (demo_ms [])) with
  | inl (inr (Mgr ForkError)), inl (inl id) => id == "ulid-0"
  | _, _ => false
  end = true.
Proof. vm_compute. reflexivity. Qed.

(** [max_parallel] limits how many children are being created, not how many run:
    with a limit of one, three children are pending at once. *)
Definition region_task : TaskRequest :=
  set_ExecutorOpts (mkExecutorOptions "FAN_OUT_JOB" "" "" "" [] None (Some job_fan))
    (demo_task {["regions" := NewVariableValue (VString "east,west,north") false]}).
Example job_fan_out_exceeds_max_parallel :
  let s := snd (execute_jobs (world := demo_world []) 0 "fan" region_task false (fun _ => false) (fun l => l) (demo_ms [])) in
  FanOut.MaxParallel job_fan = 1 /\ map r_JobState (table s) = [State.PENDING; State.PENDING; State.PENDING].
Proof. vm_compute. split; reflexivity. Qed.

End TaskletDemo.
