(* ===== verification/Trigger.v ===== *)
(** * Trigger: jobs started by web hooks, queues and buckets

    Models [src/queen/trigger/] ([evaluator.go], [submitter.go],
    [webhook_handler.go], [queue_subscriber.go], [s3_notification.go],
    [s3_poller.go], [manager.go]) on top of the job manager, with the rows of
    [src/queen/repository/trigger_state_repository_impl.go] and
    [src/queen/types/trigger_state.go].

    [TriggerStates] holds the rows and the effects, [Pipeline] what the sources
    share, and one module follows per source.  [TriggerManager] is the state
    machine that starts and stops them.  Traces, logs and the foreign key to the
    definitions are left out. *)

From S2P Require Import Prelude RequestState Acl Tags Approval Tables JobStore JobDefinition JobRequest JobManager.
From Stdlib Require Import Ascii.

Open Scope Z_scope.

(** ** TriggerStates: trigger_state_repository_impl.go *)
Module TriggerStates.
Import Rows NameValue Schedule Request JobManager.Manager.

Record TriggerState := mkTriggerState {
  ID : string;
  JobDefinitionID : string;
  TriggerName : string;
  LastSeenKey : string;
  LastSeenTime : Z;
  WindowStart : Z;
  WindowCount : Z;
  CreatedAt : Z;
  UpdatedAt : Z
}.

Definition set_LastSeen (key : string) (t : Z) (s : TriggerState) : TriggerState :=
  mkTriggerState (ID s) (JobDefinitionID s) (TriggerName s) key t (WindowStart s) (WindowCount s) (CreatedAt s) (UpdatedAt s).
Definition set_Window (start count : Z) (s : TriggerState) : TriggerState :=
  mkTriggerState (ID s) (JobDefinitionID s) (TriggerName s) (LastSeenKey s) (LastSeenTime s) start count (CreatedAt s) (UpdatedAt s).
Definition set_UpdatedAt (t : Z) (s : TriggerState) : TriggerState :=
  mkTriggerState (ID s) (JobDefinitionID s) (TriggerName s) (LastSeenKey s) (LastSeenTime s) (WindowStart s) (WindowCount s)
    (CreatedAt s) t.
Definition created (id : string) (t : Z) (s : TriggerState) : TriggerState :=
  mkTriggerState id (JobDefinitionID s) (TriggerName s) (LastSeenKey s) (LastSeenTime s) (WindowStart s) (WindowCount s)
    t (UpdatedAt s).
(** The zero value with its keys. *)
Definition zero_state (jobDefinitionID triggerName : string) : TriggerState :=
  mkTriggerState "" jobDefinitionID triggerName "" 0 0 0 0 0.

Inductive terror :=
| IdsRequired
| StateDb (e : Store.error)
| FilterFailed (reason : string)
| ParamFailed (param reason : string)
| DedupFailed (reason : string)
| JobDisabled
| BadTriggerParam (param : string)
| NotSaved (e : merror).

(** The manager's state with the table of trigger states. *)
Record TS := mkTS { ms : MS; states : list TriggerState }.

Definition TM (A : Type) : Type := TS -> (A + terror) * TS.
Definition ret {A} (a : A) : TM A := fun s => (inl a, s).
Definition throw {A} (e : terror) : TM A := fun s => (inr e, s).
Definition bind {A B} (m : TM A) (k : A -> TM B) : TM B :=
  fun s => match m s with
           | (inl a, s') => k a s'
           | (inr e, s') => (inr e, s')
           end.
Definition attempt {A} (m : TM A) : TM (A + terror) := fun s => let '(r, s') := m s in (inl r, s').
(** A call of the job manager. *)
Definition managed {A} (m : MM A) : TM A :=
  fun s => match m (ms s) with
           | (inl a, m') => (inl a, mkTS m' (states s))
           | (inr e, m') => (inr (NotSaved e), mkTS m' (states s))
           end.

Declare Scope trigger_scope.
Notation "x <- m ;; k" := (bind m (fun x => k)) (at level 100, m at next level, right associativity) : trigger_scope.
Notation "m ;;; k" := (bind m (fun _ => k)) (at level 100, right associativity) : trigger_scope.
Open Scope trigger_scope.

Section Repository.
Context `{Store.Env}.
Abbreviation now := Store.now.

(** A statement on the table of trigger states, counted with the others. *)
Definition tick (s : TS) : TS :=
  let st := store (ms s) in
  mkTS (set_store (Store.mkSt (Store.db st) (S (Store.statements st)) (Store.ulids st)) (ms s)) (states s).
Definition exec {A} (f : list TriggerState -> A * list TriggerState) : TM A :=
  fun s =>
    let n := Store.statements (store (ms s)) in
    if Store.err n then (inr (StateDb (Store.failure Store.DBError n)), tick s)
    else let '(a, t) := f (states s) in (inl a, mkTS (ms (tick s)) t).
Definition query {A} (f : list TriggerState -> A) : TM A := exec (fun t => (f t, t)).
Definition ulid_Make : TM string := fun s =>
  let st := store (ms s) in
  (inl (Store.ulid (Store.ulids st)),
   mkTS (set_store (Store.mkSt (Store.db st) (Store.statements st) (S (Store.ulids st))) (ms s)) (states s)).

Definition of_trigger (jobDefinitionID triggerName : string) (s : TriggerState) : bool :=
  (JobDefinitionID s == jobDefinitionID) && (TriggerName s == triggerName).
(** gorm's [First] takes the row with the least key. *)
Definition first_state (p : TriggerState -> bool) (t : list TriggerState) : option TriggerState :=
  head (sort_slice (fun a b => String.ltb (ID a) (ID b)) (Sql.select p t)).
(** Reading a count that does not fit the field is an error. *)
Definition scan (s : TriggerState) : TM TriggerState :=
  if (- 2 ^ 31 <=? WindowCount s) && (WindowCount s <? 2 ^ 31) then ret s else throw (StateDb Store.DBError).

Definition FindByJobDefinitionID (jobDefinitionID : string) : TM (list TriggerState) :=
  if jobDefinitionID == "" then throw IdsRequired
  else query (Sql.select (fun s => JobDefinitionID s == jobDefinitionID)).

Definition FindByJobAndTrigger (jobDefinitionID triggerName : string) : TM (option TriggerState) :=
  if (jobDefinitionID == "") || (triggerName == "") then throw IdsRequired
  else
    found <- query (first_state (of_trigger jobDefinitionID triggerName)) ;;
    match found with
    | None => ret None
    | Some s => s <- scan s ;; ret (Some s)
    end.

(** gorm's [Save]: all columns of the row with the key, else a new row.  The
    index on the two names refuses a second row. *)
Definition save_row (state : TriggerState) (t : list TriggerState) : bool * list TriggerState :=
  if existsb (fun s => (ID s != ID state) && of_trigger (JobDefinitionID state) (TriggerName state) s) t then (false, t)
  else if existsb (fun s => ID s == ID state) t then (true, Sql.update (fun s => ID s == ID state) (fun _ => state) t)
  else (true, t ++ [state]).

Definition Upsert (state : TriggerState) : TM TriggerState :=
  state <- (if ID state == "" then id <- ulid_Make ;; ret (created id now state) else ret state) ;;
  let state := set_UpdatedAt now state in
  ok <- exec (save_row state) ;;
  if (ok : bool) then ret state else throw (StateDb Store.UniqueError).

Definition update (p : TriggerState -> bool) (f : TriggerState -> TriggerState) : TM Z :=
  exec (fun t => (Sql.count p t, Sql.update p f t)).

Definition IncrementWindowCount (jobDefinitionID triggerName : string) (windowDuration : Z) : TM Z :=
  if (jobDefinitionID == "") || (triggerName == "") then throw IdsRequired
  else
    let windowExpiry := now - windowDuration in
    affected <- update (fun s => of_trigger jobDefinitionID triggerName s && (windowExpiry <=? WindowStart s))
                       (fun s => set_Window (WindowStart s) (WindowCount s + 1) s) ;;
    if affected =? 0 then
      state <- FindByJobAndTrigger jobDefinitionID triggerName ;;
      let state := default (zero_state jobDefinitionID triggerName) state in
      Upsert (set_Window now 1 state) ;;;
      ret 1
    else
      updated <- query (first_state (of_trigger jobDefinitionID triggerName)) ;;
      match updated with
      | None => throw (StateDb Store.NotFoundError)
      | Some s => s <- scan s ;; ret (WindowCount s)
      end.

Definition RecordFired (jobDefinitionID triggerName : string) : TM unit :=
  if (jobDefinitionID == "") || (triggerName == "") then throw IdsRequired
  else
    affected <- update (of_trigger jobDefinitionID triggerName)
                       (fun s => set_UpdatedAt now (set_LastSeen (LastSeenKey s) now s)) ;;
    if affected =? 0 then
      id <- ulid_Make ;;
      let state := mkTriggerState id jobDefinitionID triggerName "" now 0 0 now now in
      ok <- exec (fun t => if existsb (fun s => (ID s == id) || of_trigger jobDefinitionID triggerName s) t
                           then (false, t) else (true, t ++ [state])) ;;
      if (ok : bool) then ret tt else throw (StateDb Store.UniqueError)
    else ret tt.

Definition Reset (jobDefinitionID triggerName : string) : TM unit :=
  if (jobDefinitionID == "") || (triggerName == "") then throw IdsRequired
  else
    update (of_trigger jobDefinitionID triggerName) (fun s => set_UpdatedAt now (set_Window 0 0 (set_LastSeen "" 0 s))) ;;;
    ret tt.

Definition DeleteByJobDefinitionID (jobDefinitionID : string) : TM unit :=
  if jobDefinitionID == "" then throw IdsRequired
  else exec (fun t => (tt, Sql.remove (fun s => JobDefinitionID s == jobDefinitionID) t)).

End Repository.
(** The same environment at another time: a history has one for each step. *)
Definition at_time (t : Z) (e : Store.Env) : Store.Env :=
  {| Store.now := t; Store.err := Store.err (Env := e); Store.deadlock := Store.deadlock (Env := e);
     Store.ulid := Store.ulid (Env := e); Store.save_upserts := Store.save_upserts (Env := e);
     Store.not_in_empty := Store.not_in_empty (Env := e); Store.elapsed := Store.elapsed (Env := e) |}.

End TriggerStates.

(** ** Pipeline: evaluator.go, submitter.go and the triggers of a definition *)
Module Pipeline.
Import Rows NameValue Schedule Request JobManager.Manager TriggerStates.
Open Scope trigger_scope.

(** Values decoded from JSON, which only templates look into. *)
Class Json := { json : Type; json_Unmarshal : string -> option json }.

(** An object of a bucket; the time is absent in notifications. *)
Record Object := mkObject { Key : string; ObjBucket : string; Size : Z; ETag : string; LastModified : option Z }.

(** What a template is evaluated on. *)
Inductive Data `{Json} :=
| WebhookData (body : option json) (headers query : gmap string string)
| MessageData (message : option (json + string)) (properties : gmap string string)
| ObjectData (o : Object).

(** Templates and YAML documents as the libraries read them. *)
Class Documents `{Json} := {
  (** [text/template] with the helper functions: the output, or the error of
      parsing or executing. *)
  template : string -> Data -> string + string;
  (** The [triggers] of a document, as definitions and as plain maps. *)
  yaml_triggers : string -> option (list Trigger.TriggerDefinition);
  yaml_params : string -> option (list (option (gmap string string) * option string * option string));
  (** The configs of a definition, decrypted. *)
  Configs : DefRow -> list (string * string)
}.

Section Pipeline.
Context `{env : Store.Env, cron : Cron, dec : Decoder, ord : RangeOrder, calls : Calls, js : Json, docs : !Documents}.

(** *** The triggers of a definition (job_definition.go) *)
Definition newline : ascii := ascii_of_nat 10.
Definition strip_templates (rawYaml : string) : string :=
  foldr (fun line rest => if Contains line "{{" then rest else (line +:+ String newline EmptyString) +:+ rest) ""
        (Split rawYaml newline).

Definition restore (t : Trigger.TriggerDefinition) (m : option (gmap string string) * option string * option string)
    : Trigger.TriggerDefinition :=
  let '(params, filter, dedup) := m in
  Trigger.mkTriggerDefinition (Trigger.Type_ t) (Trigger.Name t) (Trigger.Path t) (Trigger.Auth t) (Trigger.Mode t)
    (Trigger.Bucket t) (Trigger.Prefix t) (Trigger.Suffix t) (Trigger.PollInterval t) (Trigger.Topic t) (Trigger.Group t)
    (Trigger.Shared t) (default (Trigger.Params t) params) (default (Trigger.Filter t) filter)
    (default (Trigger.DedupKey t) dedup) (Trigger.RateLimit t).
Fixpoint restore_all (ts : list Trigger.TriggerDefinition)
    (raw : list (option (gmap string string) * option string * option string)) : list Trigger.TriggerDefinition :=
  match ts, raw with
  | t :: ts, m :: raw => restore t m :: restore_all ts raw
  | ts, _ => ts
  end.

Definition parseTriggerDefinitions (rawYaml : string) : list Trigger.TriggerDefinition :=
  match yaml_triggers (strip_templates rawYaml) with
  | None => []
  | Some ts => match yaml_params rawYaml with Some raw => restore_all ts raw | None => ts end
  end.
Definition Triggers (jd : DefRow) : list Trigger.TriggerDefinition :=
  if d_RawYaml jd != "" then parseTriggerDefinitions (d_RawYaml jd) else [].

Definition GetConfigString (jd : DefRow) (name : string) : string :=
  match List.find (fun c => fst c == name) (Configs jd) with Some c => snd c | None => "" end.

(** *** Evaluator *)
Record EvalResult := mkEvalResult { Passed : bool; Params : gmap string string; DedupKey : string }.
Definition not_passed : EvalResult := mkEvalResult false ∅ "".

Definition evalTemplate (expr : string) (data : Data) : string + string :=
  if negb (Contains expr "{{") then inl expr else template expr data.

Definition checkAndIncrementRateLimit (jobDefID : string) (t : Trigger.TriggerDefinition) (r : Trigger.TriggerRateLimit)
    : TM bool :=
  newCount <- IncrementWindowCount jobDefID (Trigger.Name t) (Trigger.Window r) ;;
  ret (newCount <=? Trigger.Max r).

Definition passes_filter (t : Trigger.TriggerDefinition) (data : Data) : TM bool :=
  if Trigger.Filter t != "" then
    match evalTemplate (Trigger.Filter t) data with
    | inr e => throw (FilterFailed e)
    | inl result => ret (TrimSpace result == "true")
    end
  else ret true.

Fixpoint eval_params (ps : list (string * string)) (data : Data) (params : gmap string string) : TM (gmap string string) :=
  match ps with
  | [] => ret params
  | (paramName, tmplExpr) :: ps =>
      match evalTemplate tmplExpr data with
      | inr e => throw (ParamFailed paramName e)
      | inl val => eval_params ps data (<[paramName := val]> params)
      end
  end.

Definition eval_dedup (t : Trigger.TriggerDefinition) (data : Data) : TM string :=
  if Trigger.DedupKey t != "" then
    match evalTemplate (Trigger.DedupKey t) data with
    | inr e => throw (DedupFailed e)
    | inl key => ret (TrimSpace key)
    end
  else ret "".

Definition limited (t : Trigger.TriggerDefinition) : option Trigger.TriggerRateLimit :=
  match Trigger.RateLimit t with
  | Some r => if (0 <? Trigger.Max r) && (0 <? Trigger.Window r) then Some r else None
  | None => None
  end.

Definition Evaluate (jd : DefRow) (t : Trigger.TriggerDefinition) (data : Data) : TM EvalResult :=
  pass <- passes_filter t data ;;
  if negb pass then ret not_passed
  else
    params <- eval_params (range (Trigger.Params t)) data ∅ ;;
    dedupKey <- eval_dedup t data ;;
    allowed <- (match limited t with Some r => checkAndIncrementRateLimit (d_ID jd) t r | None => ret true end) ;;
    if negb allowed then ret not_passed else ret (mkEvalResult true params dedupKey).

(** *** Submitter *)
Fixpoint add_params (ps : list (string * string)) (req : JobRequest) : TM JobRequest :=
  match ps with
  | [] => ret req
  | (k, v) :: ps =>
      match AddParam k (VString v) req with
      | None => throw (BadTriggerParam k)
      | Some req => add_params ps req
      end
  end.

(** [isDuplicateKeyError] looks for the texts that [isDuplicate] stands for. *)
Definition Submit (jd : DefRow) (triggerName : string) (result : EvalResult) : TM (option JobRequest) :=
  match NewJobRequestFromDefinition Store.now jd with
  | None => throw JobDisabled
  | Some req =>
      req <- add_params (range (Params result)) req ;;
      let req := if DedupKey result != "" then set_row (set_r_UserKey (DedupKey result) (row req)) req else req in
      let qc := NewQueryContextFromIDs (d_UserID jd) (d_OrganizationID jd) in
      saved <- managed (SaveJobRequest qc req) ;;
      match fst saved with
      | inr e => if isDuplicate e then ret None else throw (NotSaved e)
      | inl saved =>
          attempt (RecordFired (d_ID jd) triggerName) ;;;
          ret (Some saved)
      end
  end.

End Pipeline.
End Pipeline.

(** ** Webhook: webhook_handler.go *)
Module Webhook.
Import Rows NameValue Schedule Request JobManager.Manager TriggerStates Pipeline.
Open Scope trigger_scope.

(** *** Header names (net/textproto) *)
Definition upper (c : ascii) : ascii :=
  let n := nat_of_ascii c in if (97 <=? n)%nat && (n <=? 122)%nat then ascii_of_nat (n - 32) else c.
Definition lower (c : ascii) : ascii :=
  let n := nat_of_ascii c in if (65 <=? n)%nat && (n <=? 90)%nat then ascii_of_nat (n + 32) else c.
Definition token (c : ascii) : bool :=
  let n := nat_of_ascii c in
  ((48 <=? n)%nat && (n <=? 57)%nat) || ((65 <=? n)%nat && (n <=? 90)%nat) || ((97 <=? n)%nat && (n <=? 122)%nat)
  || existsb (Ascii.eqb c) (String.list_ascii_of_string "!#$%&'*+-.^_`|~").
Fixpoint capitalize (first : bool) (s : string) : string :=
  match s with
  | EmptyString => EmptyString
  | String c s => String (if first then upper c else lower c) (capitalize (Ascii.eqb c "-") s)
  end.
Definition canonical (key : string) : string :=
  if forallb token (String.list_ascii_of_string key) then capitalize true key else key.

(** A request: the parameters of the route, the headers with canonical names,
    the query, the body, and whether reading the body fails. *)
Record HttpRequest := mkHttpRequest {
  job_type : string;
  trigger_name : string;
  Header : gmap string (list string);
  QueryParams : gmap string (list string);
  Body : string;
  read_fails : bool
}.
Definition header_Get (h : gmap string (list string)) (key : string) : string :=
  match h !! canonical key with Some (v :: _) => v | _ => "" end.

(** The answer: an error, the note that the event was not used, or the
    identifier of the request, empty when it was a duplicate. *)
Inductive response := Refused (status : Z) | Filtered | Accepted (request_id : string).

Section Webhook.
Context `{env : Store.Env, cron : Cron, dec : Decoder, ord : RangeOrder, calls : Calls, js : Json, docs : !Documents}.
(** The hexadecimal HMAC-SHA256 of a body under a secret. *)
Context (hmac_hex : string -> string -> string).

Definition defaultWebhookBodyMaxBytes : Z := 1024 * 1024.
Definition NewWebhookHandler (webhookBodyMaxBytes : Z) : Z :=
  if webhookBodyMaxBytes <=? 0 then defaultWebhookBodyMaxBytes else webhookBodyMaxBytes.

Definition findTrigger (triggers : list Trigger.TriggerDefinition) (name : string) : option Trigger.TriggerDefinition :=
  List.find (fun t => Trigger.Name t == name) triggers.

Definition VerifySignature (secret expectedHash256 body : string) : bool :=
  hmac_hex secret body == TrimPrefix expectedHash256 "sha256=".

Definition verifyTriggerAuth (auth : Trigger.TriggerAuth) (secret : string) (header : gmap string (list string)) (body : string)
    : bool :=
  if Trigger.AuthMethod auth == "hmac_sha256" then
    let sigHeader := header_Get header (Trigger.Header auth) in
    if sigHeader == "" then false else VerifySignature secret sigHeader body
  else if Trigger.AuthMethod auth == "bearer_token" then header_Get header "Authorization" == "Bearer " +:+ secret
  else if Trigger.AuthMethod auth == "api_key_header" then header_Get header (Trigger.Header auth) == secret
  else false.

(** The check of the secret; [Some] is the status of the refusal. *)
Definition authenticate (jd : DefRow) (t : Trigger.TriggerDefinition) (r : HttpRequest) : option Z :=
  match Trigger.Auth t with
  | None => None
  | Some auth =>
      let secret := GetConfigString jd (Trigger.SecretConfig auth) in
      if secret == "" then Some 500
      else if verifyTriggerAuth auth secret (Header r) (Body r) then None else Some 401
  end.

Definition webhook_data (r : HttpRequest) (body : option json) : Data :=
  WebhookData body (map_imap (fun k _ => Some (header_Get (Header r) k)) (Header r)) (omap head (QueryParams r)).

Definition parse_body (body : string) : option (option json) :=
  if body == "" then Some None else match json_Unmarshal body with Some v => Some (Some v) | None => None end.

Definition fire (jd : DefRow) (t : Trigger.TriggerDefinition) (triggerName : string) (data : Data) : TM response :=
  evaluated <- attempt (Evaluate jd t data) ;;
  match evaluated with
  | inr _ => ret (Refused 500)
  | inl result =>
      if negb (Passed result) then ret Filtered
      else
        submitted <- attempt (Submit jd triggerName result) ;;
        match submitted with
        | inr _ => ret (Refused 500)
        | inl None => ret (Accepted "")
        | inl (Some saved) => ret (Accepted (r_ID (row saved)))
        end
  end.

Definition handleWebhook (webhookBodyMaxBytes : Z) (r : HttpRequest) : TM response :=
  let qcAdmin := WithAdmin (NewQueryContextFromIDs "" "") in
  found <- attempt (managed (GetJobDefinitionByType qcAdmin (job_type r) "")) ;;
  match found with
  | inr _ => ret (Refused 404)
  | inl jd =>
      match findTrigger (Triggers jd) (trigger_name r) with
      | None => ret (Refused 404)
      | Some t =>
          if Trigger.Type_ t != "webhook" then ret (Refused 400)
          else if read_fails r then ret (Refused 500)
          else if webhookBodyMaxBytes <? Z.of_nat (String.length (Body r)) then ret (Refused 413)
          else
            match authenticate jd t r with
            | Some status => ret (Refused status)
            | None =>
                match parse_body (Body r) with
                | None => ret (Refused 400)
                | Some body => fire jd t (trigger_name r) (webhook_data r body)
                end
            end
      end
  end.

End Webhook.
End Webhook.

(** ** Sources: queue_subscriber.go, s3_notification.go and s3_poller.go *)
Module Sources.
Import Rows NameValue Schedule Request JobManager.Manager TriggerStates Pipeline.
Open Scope trigger_scope.

Section Sources.
Context `{env : Store.Env, cron : Cron, dec : Decoder, ord : RangeOrder, calls : Calls, js : Json, docs : !Documents}.
Context (jobDef : DefRow) (trigger : Trigger.TriggerDefinition).

(** *** Queues *)
Inductive delivery := Ack | Nack.

Definition queue_group : string :=
  if Trigger.Group trigger == "" then "formicary-trigger-" +:+ d_JobType jobDef +:+ "-" +:+ Trigger.Name trigger
  else Trigger.Group trigger.
Definition notification_group : string :=
  if Trigger.Group trigger == "" then "formicary-trigger-s3-" +:+ d_JobType jobDef +:+ "-" +:+ Trigger.Name trigger
  else Trigger.Group trigger.

Definition message_of (payload : string) : option (json + string) :=
  if payload == "" then None
  else match json_Unmarshal payload with Some v => Some (inl v) | None => Some (inr payload) end.

(** How the message is settled, with the error returned. *)
Definition handleMessage (payload : string) (properties : gmap string string) : TM (delivery * option terror) :=
  evaluated <- attempt (Evaluate jobDef trigger (MessageData (message_of payload) properties)) ;;
  match evaluated with
  | inr e => ret (Nack, Some e)
  | inl result =>
      if negb (Passed result) then ret (Ack, None)
      else
        submitted <- attempt (Submit jobDef (Trigger.Name trigger) result) ;;
        match submitted with inr e => ret (Nack, Some e) | inl _ => ret (Ack, None) end
  end.

(** *** Notifications: one record after the other; the message is always settled. *)
Definition handle_record (o : Object) : TM unit :=
  evaluated <- attempt (Evaluate jobDef trigger (ObjectData o)) ;;
  match evaluated with
  | inr _ => ret tt
  | inl result =>
      if negb (Passed result) then ret tt
      else attempt (Submit jobDef (Trigger.Name trigger) result) ;;; ret tt
  end.
Fixpoint handle_records (records : list Object) : TM unit :=
  match records with
  | [] => ret tt
  | o :: records => handle_record o ;;; handle_records records
  end.
(** [None] is a payload that cannot be read. *)
Definition handleNotification (records : option (list Object)) : TM (delivery * option terror) :=
  match records with
  | None => ret (Ack, None)
  | Some records => handle_records records ;;; ret (Ack, None)
  end.

(** *** Polling a bucket *)
Definition interval (defaultInterval : Z) : Z :=
  let i := Trigger.PollInterval trigger in
  let i := if i <=? 0 then defaultInterval else i in
  if i <=? 0 then 60 * 1000000000 else i.

Definition quote : ascii := ascii_of_nat 34.
Fixpoint unquote (l : list ascii) : list ascii :=
  match l with c :: l' => if Ascii.eqb c quote then unquote l' else l | [] => [] end.
Definition Trim (s : string) : string :=
  String.string_of_list_ascii (rev (unquote (rev (unquote (String.list_ascii_of_string s))))).

(** What the store lists: an object has its key, size, tag with quotes and time. *)
Record Listed := mkListed { obj_Key : string; obj_Size : Z; obj_ETag : option string; obj_LastModified : Z }.
Definition object_of (o : Listed) : Object :=
  mkObject (obj_Key o) (Trigger.Bucket trigger) (obj_Size o) (match obj_ETag o with Some e => Trim e | None => "" end)
    (Some (obj_LastModified o)).

Definition wanted (o : Listed) : bool :=
  (Trigger.Suffix trigger == "") || HasSuffix (obj_Key o) (Trigger.Suffix trigger).

(** One object: whether it is done with. *)
Definition poll_object (o : Listed) : TM bool :=
  if negb (wanted o) then ret true
  else
    evaluated <- attempt (Evaluate jobDef trigger (ObjectData (object_of o))) ;;
    match evaluated with
    | inr _ => ret false
    | inl result =>
        if negb (Passed result) then ret true
        else
          submitted <- attempt (Submit jobDef (Trigger.Name trigger) result) ;;
          match submitted with inr _ => ret false | inl _ => ret true end
    end.

Fixpoint poll_objects (objects : list Listed) (lastKey : string) : TM string :=
  match objects with
  | [] => ret lastKey
  | o :: objects =>
      done <- poll_object o ;;
      poll_objects objects (if (done : bool) then obj_Key o else lastKey)
  end.

(** The pages in order; [None] is a page that cannot be read, which ends the poll. *)
Fixpoint poll_pages (pages : list (option (list Listed))) (lastKey : string) : TM (option string) :=
  match pages with
  | [] => ret (Some lastKey)
  | None :: _ => ret None
  | Some objects :: pages =>
      lastKey <- poll_objects objects lastKey ;;
      poll_pages pages lastKey
  end.

(** What [ListObjectsV2] is asked: the bucket, the prefix and the key to start after. *)
Definition listing := string -> string -> string -> list (option (list Listed)).

Definition poll (list : listing) : TM unit :=
  found <- attempt (FindByJobAndTrigger (d_ID jobDef) (Trigger.Name trigger)) ;;
  match found with
  | inr _ => ret tt
  | inl None =>
      attempt (Upsert (set_LastSeen "" Store.now (zero_state (d_ID jobDef) (Trigger.Name trigger)))) ;;; ret tt
  | inl (Some state) =>
      last <- poll_pages (list (Trigger.Bucket trigger) (Trigger.Prefix trigger) (LastSeenKey state)) "" ;;
      match last with
      | None => ret tt
      | Some lastKey =>
          if (lastKey != "") && (lastKey != LastSeenKey state)
          then attempt (Upsert (set_LastSeen lastKey Store.now state)) ;;; ret tt
          else ret tt
      end
  end.

End Sources.
End Sources.

(** ** TriggerManager: manager.go

    A subscription or poller that was started is an entry of [running] until it
    is stopped; [active] holds what the manager knows of them. *)
Module TriggerManager.
Import Rows NameValue Schedule Request JobManager.Manager TriggerStates Pipeline.

Inductive source := QueueSource | NotificationSource | PollSource.
(** A running source: its number, its kind, and what it fires. *)
Record instance := mkInstance { number : nat; kind : source; inst_def : DefRow; inst_trigger : Trigger.TriggerDefinition }.

(** The key of a trigger: its definition and its name. *)
Abbreviation triggerKey := (string * string)%type (only parsing).

Record Mgr := mkMgr {
  ts : TS;
  active : gmap triggerKey nat;
  running : list instance;
  started : nat;
  isLeader : bool;
  lastLeaderEventAt : Z;
  wasLeader : bool;
  leaderSubscribed : bool;
  defLifecycleSubscribed : bool;
  watching : bool
}.

Definition set_ts (x : TS) (m : Mgr) : Mgr :=
  mkMgr x (active m) (running m) (started m) (isLeader m) (lastLeaderEventAt m) (wasLeader m) (leaderSubscribed m)
    (defLifecycleSubscribed m) (watching m).
Definition set_sources (a : gmap triggerKey nat) (r : list instance) (n : nat) (m : Mgr) : Mgr :=
  mkMgr (ts m) a r n (isLeader m) (lastLeaderEventAt m) (wasLeader m) (leaderSubscribed m)
    (defLifecycleSubscribed m) (watching m).
Definition set_leader (t : Z) (m : Mgr) : Mgr :=
  mkMgr (ts m) (active m) (running m) (started m) true t (wasLeader m) (leaderSubscribed m)
    (defLifecycleSubscribed m) (watching m).
Definition set_wasLeader (x : bool) (m : Mgr) : Mgr :=
  mkMgr (ts m) (active m) (running m) (started m) (isLeader m) (lastLeaderEventAt m) x (leaderSubscribed m)
    (defLifecycleSubscribed m) (watching m).
Definition set_subscribed (leader lifecycle watch : bool) (m : Mgr) : Mgr :=
  mkMgr (ts m) (active m) (running m) (started m) (isLeader m) (lastLeaderEventAt m) (wasLeader m) leader lifecycle watch.

(** The queue, the bucket client and the configuration. *)
Class Sources := {
  (** Whether the n-th source can be started, and whether its subscription can
      be ended. *)
  start_ok : nat -> bool;
  unsubscribe_ok : nat -> bool;
  (** Whether the manager's own two subscriptions succeed. *)
  leader_ok : bool;
  lifecycle_ok : bool;
  DisableTriggers : bool;
  JobSchedulerLeaderInterval : Z
}.

Section TriggerManager.
Context `{env : Store.Env, cron : Cron, dec : Decoder, ord : RangeOrder, calls : Calls, js : Json, docs : !Documents, src : Sources}.

(** The stop function of a source.  A subscription that cannot be ended goes
    on; a poller always ends. *)
Definition ends (n : nat) (i : instance) : bool :=
  (number i =? n)%nat && match kind i with PollSource => true | _ => unsubscribe_ok n end.
Definition stop (n : nat) (r : list instance) : list instance := List.filter (fun i => negb (ends n i)) r.

Definition stop_keys (p : triggerKey -> bool) (m : Mgr) : Mgr :=
  let chosen := List.filter (fun e => p (fst e)) (map_to_list (active m)) in
  set_sources (List.fold_left (fun a e => delete (fst e) a) chosen (active m))
    (List.fold_left (fun r e => stop (snd e) r) chosen (running m)) (started m) m.
Definition stopAllTriggers (m : Mgr) : Mgr := stop_keys (fun _ => true) m.
Definition stopTriggersForDef (jobDefID : string) (m : Mgr) : Mgr := stop_keys (fun k => fst k == jobDefID) m.

Definition source_of (t : Trigger.TriggerDefinition) : option source :=
  if Trigger.Type_ t == "queue" then Some QueueSource
  else if Trigger.Type_ t == "s3" then Some (if Trigger.Mode t == "notification" then NotificationSource else PollSource)
  else None.

Definition start_trigger (jd : DefRow) (t : Trigger.TriggerDefinition) (m : Mgr) : Mgr :=
  match source_of t with
  | None => m
  | Some k =>
      let n := started m in
      if start_ok n
      then set_sources (<[(d_ID jd, Trigger.Name t) := n]> (active m)) (running m ++ [mkInstance n k jd t]) (S n) m
      else set_sources (active m) (running m) (S n) m
  end.
Definition startTriggersForJobDef (jd : DefRow) (m : Mgr) : Mgr :=
  List.fold_left (fun m t => start_trigger jd t m) (Triggers jd) m.

Abbreviation admin := (WithAdmin (NewQueryContextFromIDs "" "")).

Definition startTriggersForDef (jobDefID : string) (m : Mgr) : Mgr :=
  let '(r, s) := managed (GetJobDefinition admin jobDefID) (ts m) in
  let m := set_ts s m in
  match r with
  | inr _ => m
  | inl jd => if d_Disabled jd || (List.length (Triggers jd) =? 0)%nat then m else startTriggersForJobDef jd m
  end.

(** One page of definitions after the other, until one is not full.  [false]:
    the pages did not end within the fuel. *)
Definition load_defs (defs : list DefRow) (m : Mgr) : Mgr :=
  List.fold_left (fun m jd => if (0 <? List.length (Triggers jd))%nat then startTriggersForJobDef jd m else m) defs m.
Definition pageSize : nat := 100.
Fixpoint load_pages (fuel page : nat) (m : Mgr) : Mgr * bool :=
  match fuel with
  | O => (m, false)
  | S fuel =>
      let '(r, s) := managed (repo (Definitions.Query admin (fun _ => true) page pageSize)) (ts m) in
      let m := set_ts s m in
      match r with
      | inr _ => (m, true)
      | inl defs =>
          let m := load_defs defs m in
          if (List.length defs <? pageSize)%nat then (m, true) else load_pages fuel (S page) m
      end
  end.
Definition definitions_of (m : Mgr) : list DefRow := definitions (Store.db (store (ms (ts m)))).
Definition loadAllTriggers (m : Mgr) : Mgr * bool := load_pages (S (List.length (definitions_of m))) 0 m.

(** *** Steps *)
Inductive event :=
| Start
(** A heartbeat of the scheduler; whether it can be read. *)
| LeaderEvent (readable : bool)
(** A change of a definition; [None] cannot be read. *)
| JobDefLifecycle (change : option (string * definition_change))
| Tick
| Stop
(** Others use the database. *)
| Change (s : TS).

Definition handleLeaderEvent (readable : bool) (m : Mgr) : Mgr := if readable then set_leader Store.now m else m.

Definition handleJobDefLifecycle (change : option (string * definition_change)) (m : Mgr) : Mgr :=
  match change with
  | None => m
  | Some (id, DELETED) | Some (id, DISABLED) => stopTriggersForDef id m
  | Some (id, UPDATED) | Some (id, ENABLED) =>
      if isLeader m then startTriggersForDef id (stopTriggersForDef id m) else m
  end.

Definition nowLeader (m : Mgr) : bool :=
  isLeader m && (Store.now - lastLeaderEventAt m <? JobSchedulerLeaderInterval * 3).
Definition watch (m : Mgr) : Mgr :=
  if nowLeader m && negb (wasLeader m) then fst (loadAllTriggers (set_wasLeader true m))
  else if negb (nowLeader m) && wasLeader m then stopAllTriggers (set_wasLeader false m)
  else m.

(** Subscriptions that fail leave the earlier ones in place. *)
Definition StartManager (m : Mgr) : Mgr :=
  if DisableTriggers then m
  else if negb leader_ok then m
  else if negb lifecycle_ok then set_subscribed true (defLifecycleSubscribed m) (watching m) m
  else set_subscribed true true true m.
Definition StopManager (m : Mgr) : Mgr := set_subscribed false false false (stopAllTriggers m).

Definition step (e : event) (m : Mgr) : Mgr :=
  match e with
  | Start => StartManager m
  | LeaderEvent readable => if leaderSubscribed m then handleLeaderEvent readable m else m
  | JobDefLifecycle change => if defLifecycleSubscribed m then handleJobDefLifecycle change m else m
  | Tick => if watching m then watch m else m
  | Stop => StopManager m
  | Change s => set_ts s m
  end.

Definition initial (s : TS) : Mgr := mkMgr s ∅ [] 0 false 0 false false false false.

End TriggerManager.

(** A history: each step at its own time. *)
Fixpoint run `{env : Store.Env, cron : Cron, dec : Decoder, ord : RangeOrder, calls : Calls, js : Json, docs : !Documents, src : Sources}
    (history : list (Z * event)) (m : Mgr) : Mgr :=
  match history with
  | [] => m
  | (t, e) :: history => run history (step (env := at_time t env) e m)
  end.

End TriggerManager.
