(* ===== verification/TriggerSpec.v ===== *)
(** * TriggerSpec: what triggers guarantee

    The limit on the events that pass in a time window, between and across the
    times at which the row of the trigger is written otherwise, what a web hook has to
    present, that an event seen before starts no second job, where polling a
    bucket resumes, and that the manager knows every source that runs. *)

From S2P Require Import Prelude RequestState Acl Tags Approval Stats Tables JobStore JobStoreSpec JobDefinition JobRequest JobManager.
From S2P Require Import DefinitionSpec JobManagerSpec SchedulerSpec.
From S2P Require Import Trigger.
From Stdlib Require Import Sorted OrdersEx.

Open Scope Z_scope.

(** ** Trigger states *)
Section States.
Import Rows JobManager.Manager TriggerStates.

Lemma tbind_inl {A B} (m : TM A) (k : A -> TM B) s b s' :
  bind m k s = (inl b, s') -> exists a s1, m s = (inl a, s1) /\ k a s1 = (inl b, s').
Proof. unfold bind. destruct (m s) as [[a|e] s1]; [eauto|discriminate]. Qed.
Lemma tattempt_inv {A} (m : TM A) s r s' : attempt m s = (r, s') -> exists x, r = inl x /\ m s = (x, s').
Proof. unfold attempt. destruct (m s) as [x s1]. intros [= <- <-]. eauto. Qed.

Definition names (s : TriggerState) : string * string := (JobDefinitionID s, TriggerName s).
(** The key and the index of the table. *)
Definition rows_ok (t : list TriggerState) : Prop := NoDup (map ID t) /\ NoDup (map names t).

Context (j n : string).
Abbreviation mine := (of_trigger j n).
Definition row_of (t : list TriggerState) : option TriggerState := List.find mine t.
Definition window_of (s : TriggerState) : Z * Z := (WindowStart s, WindowCount s).
Definition window (t : list TriggerState) : option (Z * Z) := option_map window_of (row_of t).

Lemma mine_names s : mine s = true <-> names s = (j, n).
Proof.
  unfold of_trigger, names. rewrite andb_true_iff, !eqb_string_true. split; [intros [-> ->]; done|by intros [= -> ->]].
Qed.

Lemma select_row t : NoDup (map names t) -> Sql.select mine t = match row_of t with Some x => [x] | None => [] end.
Proof.
  unfold row_of. induction t as [|x t IH]; cbn; [done|]. intros [Hx Ht]%NoDup_cons. destruct (mine x) eqn:E; [|by apply IH].
  f_equal. destruct (Sql.select mine t) as [|y l] eqn:Ey; [by unfold Sql.select in Ey|]. exfalso. apply Hx.
  assert (y ∈ Sql.select mine t) as [Hy Hm]%elem_of_select by (rewrite Ey; left).
  apply mine_names in E, Hm. rewrite E, <- Hm. by apply list_elem_of_fmap_2.
Qed.

Lemma first_state_row t : NoDup (map names t) -> first_state mine t = row_of t.
Proof. intros Ht. unfold first_state. rewrite select_row by done. by destruct (row_of t). Qed.

Lemma row_of_elem t x : row_of t = Some x -> x ∈ t /\ mine x = true.
Proof. intros [Hx Hm]%List.find_some. split; [by apply list_elem_of_In|done]. Qed.

(** Updates that keep the names and the keys. *)
Lemma row_of_map g t :
  (forall s, names (g s) = names s) -> row_of (map g t) = option_map g (row_of t).
Proof.
  intros Hg. unfold row_of. induction t as [|x t IH]; cbn; [done|].
  assert (mine (g x) = mine x) as ->; [|destruct (mine x); [done|exact IH]].
  apply eq_true_iff_eq. by rewrite !mine_names, Hg.
Qed.
Lemma NoDup_map_filter {A B} (g : A -> B) (p : A -> bool) l : NoDup (map g l) -> NoDup (map g (List.filter p l)).
Proof.
  induction l as [|x l IH]; [done|]. cbn. intros [Hx Hl]%NoDup_cons. destruct (p x); [|auto]. cbn. apply NoDup_cons. split; [|auto].
  intros (y & Hy & Hin)%list_elem_of_fmap. apply Hx. rewrite Hy. apply list_elem_of_fmap_2.
  apply list_elem_of_In, List.filter_In in Hin as [Hin _]. by apply list_elem_of_In.
Qed.
Lemma rows_ok_map g t :
  (forall s, names (g s) = names s) -> (forall s, ID (g s) = ID s) -> rows_ok t -> rows_ok (map g t).
Proof.
  intros Hn Hi [H1 H2]. split; rewrite List.map_map;
    [erewrite List.map_ext by apply Hi|erewrite List.map_ext by apply Hn]; done.
Qed.
Lemma rows_ok_update p f t :
  (forall s, names (f s) = names s) -> (forall s, ID (f s) = ID s) -> rows_ok t -> rows_ok (Sql.update p f t).
Proof. intros Hn Hi. apply rows_ok_map; intros s; by destruct (p s). Qed.
Lemma row_of_update p f t :
  (forall s, names (f s) = names s) -> row_of (Sql.update p f t) = option_map (fun s => if p s then f s else s) (row_of t).
Proof. intros Hn. apply (row_of_map (fun s => if p s then f s else s)). intros s. by destruct (p s). Qed.

Lemma count_mine c t :
  NoDup (map names t) ->
  Sql.count (fun s => mine s && c s) t = match row_of t with Some x => if c x then 1 else 0 | None => 0 end.
Proof.
  intros Ht. unfold Sql.count. assert (List.filter (fun s => mine s && c s) t = List.filter c (Sql.select mine t)) as ->.
  { unfold Sql.select. clear. induction t as [|x t IH]; cbn; [done|]. destruct (mine x); cbn; [destruct (c x); by rewrite IH|done]. }
  rewrite select_row by done. destruct (row_of t) as [x|]; cbn; [|done]. by destruct (c x).
Qed.

(** Saving the row of the trigger: the rows that are there, and a new one. *)
Lemma replace_row st t :
  rows_ok t -> mine st = true -> (forall x, x ∈ t -> mine x = true -> ID x = ID st) -> ID st ∈ map ID t ->
  rows_ok (Sql.update (fun s => ID s == ID st) (fun _ => st) t) /\
  row_of (Sql.update (fun s => ID s == ID st) (fun _ => st) t) = Some st.
Proof.
  intros [Hi Hn] Hm Hown Hy. apply mine_names in Hm as Hmn.
  induction t as [|x t IH]; [by apply not_elem_of_nil in Hy|].
  apply NoDup_cons in Hi as [Hxi Hi], Hn as [Hxn Hn]. cbn. destruct (ID x == ID st) eqn:Ex.
  - apply eqb_string_true in Ex. assert (Sql.update (fun s => ID s == ID st) (fun _ => st) t = t) as Hid.
    { unfold Sql.update. rewrite <- (List.map_id t) at 2. apply List.map_ext_in. intros z Hz%list_elem_of_In.
      destruct (String.eqb_spec (ID z) (ID st)) as [Ez|]; [|done]. exfalso. apply Hxi. rewrite Ex, <- Ez.
      by apply list_elem_of_fmap_2. }
    unfold Sql.update in Hid. rewrite Hid. split; [|by unfold row_of; cbn; rewrite Hm].
    split; cbn; apply NoDup_cons; split; try done; [by rewrite <- Ex|].
    intros (z & Hz & Hzt)%list_elem_of_fmap. apply Hxi. rewrite Ex. apply list_elem_of_fmap. exists z. split; [|done].
    symmetry. apply Hown; [by right|]. apply mine_names. by rewrite <- Hz.
  - apply elem_of_cons in Hy as [Hy|Hy]; [by rewrite Hy, eqb_string_refl in Ex|].
    destruct IH as [[H1 H2] H3]; [done|done|intros z Hz; apply Hown; by right|done|].
    assert (mine x = false) as Hxm.
    { destruct (mine x) eqn:E; [|done]. rewrite (Hown x), eqb_string_refl in Ex; [done|by left|done]. }
    split; [|unfold row_of in *; cbn; by rewrite Hxm]. split; cbn; apply NoDup_cons; split; try done.
    + intros (z & Hz & (w & Hw & ->)%elem_of_update)%list_elem_of_fmap.
      apply Hxi. rewrite Hz. destruct (String.eqb_spec (ID w) (ID st)) as [Ew|]; [|by apply list_elem_of_fmap_2].
      rewrite <- Ew. by apply list_elem_of_fmap_2.
    + intros (z & Hz & (w & Hw & ->)%elem_of_update)%list_elem_of_fmap.
      destruct (String.eqb_spec (ID w) (ID st)) as [Ew|]; [|apply Hxn; rewrite Hz; by apply list_elem_of_fmap_2].
      rewrite Hmn in Hz. by apply mine_names in Hz; congruence.
Qed.

Lemma append_row st t :
  rows_ok t -> mine st = true -> (forall x, x ∈ t -> ID x <> ID st /\ mine x = false) ->
  rows_ok (t ++ [st]) /\ row_of (t ++ [st]) = Some st.
Proof.
  intros [Hi Hn] Hm Hnew. split.
  - split; rewrite List.map_app; apply NoDup_app; (split; [done|split; [|apply NoDup_singleton]]);
      intros i (x & -> & Hx)%list_elem_of_fmap Hin; apply list_elem_of_singleton in Hin; destruct (Hnew x Hx) as [Hd Hf]; [done|].
    apply mine_names in Hm. rewrite Hm in Hin. apply mine_names in Hin. congruence.
  - unfold row_of. clear Hi Hn. induction t as [|x t IH]; cbn; [by rewrite Hm|].
    destruct (Hnew x) as [_ ->]; [by left|]. apply IH. intros y Hy. apply Hnew. by right.
Qed.

Lemma save_row_mine st t t' :
  rows_ok t -> mine st = true -> save_row st t = (true, t') -> rows_ok t' /\ row_of t' = Some st.
Proof.
  intros Hok Hm. unfold save_row. destruct (existsb _ t) eqn:E1; [discriminate|].
  apply mine_names in Hm as Hmn. injection Hmn as Hj Hnn. rewrite Hj, Hnn in E1.
  assert (forall x, x ∈ t -> mine x = true -> ID x = ID st) as Hown.
  { intros x Hx Hxm. destruct (decide (ID x = ID st)) as [|Hne]; [done|].
    rewrite (proj2 (existsb_exists _ t)) in E1; [done|]. exists x. split; [by apply list_elem_of_In|].
    rewrite Hxm, andb_true_r. by apply negb_true_iff, String.eqb_neq. }
  destruct (existsb (fun s => ID s == ID st) t) eqn:E2; intros [= <-].
  - apply existsb_exists in E2 as (y & Hy%list_elem_of_In & Ey%eqb_string_true). apply replace_row; try done.
    rewrite <- Ey. by apply list_elem_of_fmap_2.
  - apply append_row; [done..|]. intros x Hx. assert (ID x <> ID st) as Hne.
    { intros Hxe. rewrite (proj2 (existsb_exists _ t)) in E2; [done|]. exists x. rewrite Hxe, eqb_string_refl.
      split; [by apply list_elem_of_In|done]. }
    split; [done|]. destruct (mine x) eqn:E; [|done]. by destruct (Hne (Hown x Hx E)).
Qed.

Context `{env : Store.Env}.

Lemma exec_inv {A} (f : list TriggerState -> A * list TriggerState) s r s' :
  exec f s = (r, s') ->
  (exists e, r = inr e /\ states s' = states s) \/ (exists a, r = inl a /\ f (states s) = (a, states s')).
Proof.
  unfold exec. destruct (Store.err _); [intros [= <- <-]; left; by eexists|].
  destruct (f (states s)) as [a t] eqn:E. intros [= <- <-]. right. exists a. by split.
Qed.

Lemma scan_inv x s r s' : scan x s = (r, s') -> s' = s /\ (r = inl x \/ exists e, r = inr e).
Proof. unfold scan. destruct (_ && _); intros [= <- <-]; eauto. Qed.

Lemma Find_inv s r s' :
  rows_ok (states s) -> FindByJobAndTrigger j n s = (r, s') ->
  states s' = states s /\ (r = inl (row_of (states s)) \/ exists e, r = inr e).
Proof.
  intros [_ Hn]. unfold FindByJobAndTrigger. destruct (_ || _); [intros [= <- <-]; eauto|].
  unfold bind at 1. destruct (query _ s) as [x s1] eqn:Eq. apply exec_inv in Eq as [(e & -> & E)|(a & -> & [= <- E])].
  { intros [= <- <-]. eauto. }
  rewrite first_state_row by done. destruct (row_of (states s)) as [st|]; [|intros [= <- <-]; eauto].
  unfold bind. destruct (scan st s1) as [y s2] eqn:Es. apply scan_inv in Es as [-> [->|[e ->]]]; intros [= <- <-]; eauto.
Qed.

Lemma Upsert_inv st s r s' :
  rows_ok (states s) -> mine st = true -> Upsert st s = (r, s') ->
  (exists e, r = inr e /\ states s' = states s) \/
  (exists x, r = inl x /\ rows_ok (states s') /\ row_of (states s') = Some x /\ window_of x = window_of st /\
     LastSeenKey x = LastSeenKey st).
Proof.
  intros Hok Hm. unfold Upsert. unfold bind at 1.
  assert (exists st1 s1, (if ID st == "" then (bind ulid_Make (fun id => ret (created id Store.now st))) else ret st) s = (inl st1, s1) /\
    states s1 = states s /\ names st1 = names st /\ window_of st1 = window_of st /\ LastSeenKey st1 = LastSeenKey st)
    as (st1 & s1 & -> & Es & En & Ew & Ek).
  { destruct (ID st == ""); [|by exists st, s]. by eexists _, _. }
  unfold bind. destruct (exec _ s1) as [x s2] eqn:Ee. apply exec_inv in Ee as [(e & -> & E)|(b & -> & E)].
  { intros [= <- <-]. left. exists e. split; [done|congruence]. }
  destruct b.
  - intros [= <- <-]. right. exists (set_UpdatedAt Store.now st1). rewrite Es in E. apply save_row_mine in E as [H1 H2]; [|done|].
    + split_and!; done.
    + apply mine_names. apply mine_names in Hm. unfold names in *. cbn. congruence.
  - intros [= <- <-]. left. eexists. split; [done|]. unfold save_row in E. destruct (existsb _ _); [injection E as E; congruence|].
    destruct (existsb _ _); discriminate.
Qed.

(** What counting an event does to the window [w] of a trigger. *)
Definition counted (W : Z) (w w' : option (Z * Z)) (r : Z + terror) : Prop :=
  (w' = w /\ exists e, r = inr e) \/
  (exists a c, w = Some (a, c) /\ Store.now - W <= a /\ w' = Some (a, c + 1) /\ forall k, r = inl k -> k = c + 1) \/
  ((forall a c, w = Some (a, c) -> a < Store.now - W) /\ w' = Some (Store.now, 1) /\ forall k, r = inl k -> k = 1).

Lemma reset_window W s s1 r s' :
  rows_ok (states s1) -> states s1 = states s -> (forall a c, window (states s) = Some (a, c) -> a < Store.now - W) ->
  (bind (FindByJobAndTrigger j n) (fun state =>
     bind (Upsert (set_Window Store.now 1 (default (zero_state j n) state))) (fun _ => ret 1))) s1 = (r, s') ->
  rows_ok (states s') /\ counted W (window (states s)) (window (states s')) r.
Proof.
  intros Hok Es Hw. unfold bind at 1. destruct (FindByJobAndTrigger j n s1) as [x s2] eqn:Ef.
  apply Find_inv in Ef as [E2 Hx]; [|done]. rewrite Es in *. rewrite <- E2 in Hok.
  destruct Hx as [->|[e ->]]; [|intros [= <- <-]; rewrite E2 in *; split; [done|left; eauto]].
  unfold bind. destruct (Upsert _ s2) as [y s3] eqn:Eu. apply Upsert_inv in Eu; [|done|].
  - destruct Eu as [(e & -> & E3)|(st & -> & H1 & H2 & H3 & _)]; intros [= <- <-].
    + rewrite E3, E2 in *. split; [done|left; eauto].
    + split; [done|]. right. right. split_and!; [done| |by intros k [= <-]]. unfold window. rewrite H2. cbn. by rewrite H3.
  - apply mine_names. destruct (row_of (states s)) as [y0|] eqn:Ey; [|done]. apply row_of_elem in Ey as [_ Hy].
    apply mine_names in Hy. done.
Qed.

Lemma Increment_counts W s r s' :
  rows_ok (states s) -> IncrementWindowCount j n W s = (r, s') ->
  rows_ok (states s') /\ counted W (window (states s)) (window (states s')) r.
Proof.
  intros Hok. unfold IncrementWindowCount. destruct (_ || _) eqn:Ene; [intros [= <- <-]; split; [done|left; eauto]|].
  unfold bind at 1. destruct (update _ _ s) as [x s1] eqn:Eu. apply exec_inv in Eu as [(e & -> & E)|(a & -> & [= Ec E])].
  { intros [= <- <-]. rewrite E. split; [done|left; eauto]. }
  rewrite count_mine in Ec by apply Hok. cbv beta in Ec.
  destruct (row_of (states s)) as [y|] eqn:Ey; [destruct (Store.now - W <=? WindowStart y) eqn:Ew|]; subst a.
  - (* in the window *)
    change (1 =? 0) with false. cbv iota. unfold bind at 1.
    assert (rows_ok (states s1)) as Hok1 by (rewrite <- E; by apply rows_ok_update).
    assert (row_of (states s1) = Some (set_Window (WindowStart y) (WindowCount y + 1) y)) as Hrow.
    { rewrite <- E, row_of_update, Ey by done. cbn. apply row_of_elem in Ey as [_ ->]. by rewrite Ew. }
    assert (window (states s) = Some (window_of y)) as Hw by (unfold window; by rewrite Ey).
    assert (forall s2, states s2 = states s1 -> forall r2, (forall k, r2 = inl k -> k = WindowCount y + 1) ->
      rows_ok (states s2) /\ counted W (window (states s)) (window (states s2)) r2) as Hend.
    { intros s2 -> r2 Hr. split; [done|]. right. left. exists (WindowStart y), (WindowCount y). rewrite Hw. split_and!; try done.
      - by apply Z.leb_le.
      - unfold window. by rewrite Hrow. }
    destruct (query _ s1) as [q s2] eqn:Eq. apply exec_inv in Eq as [(e & -> & E2)|(o & -> & [= <- E2])].
    { intros [= <- <-]. by apply Hend. }
    rewrite first_state_row, Hrow by apply Hok1. unfold bind.
    destruct (scan _ s2) as [z s3] eqn:Es. apply scan_inv in Es as [-> [->|[e ->]]]; intros [= <- <-]; apply Hend; try done.
    cbn. by intros k [= <-].
  - rewrite (count_zero_update _ _ (states s)) in E by (rewrite count_mine by apply Hok; by rewrite Ey, Ew).
    apply (reset_window W s s1 r s'); [by rewrite <- E|done|]. intros a c Hw. unfold window in Hw. rewrite Ey in Hw.
    injection Hw as <- _. by apply Z.leb_gt.
  - rewrite (count_zero_update _ _ (states s)) in E by (rewrite count_mine by apply Hok; by rewrite Ey).
    apply (reset_window W s s1 r s'); [by rewrite <- E|done|]. intros a c Hw. unfold window in Hw. by rewrite Ey in Hw.
Qed.

End States.

(** ** The limit on events *)
Section RateLimit.
Import Rows NameValue Schedule Request JobManager.Manager TriggerStates Pipeline.
Context `{env : Store.Env, cron : Cron, dec : Decoder, ord : RangeOrder, calls : Calls, js : Json, docs : !Documents}.

Definition passed (r : EvalResult + terror) : bool := match r with inl x => Passed x | inr _ => false end.

Lemma eval_params_frame ps data m s r s' : eval_params ps data m s = (r, s') -> s' = s.
Proof.
  revert m. induction ps as [|[k e] ps IH]; intros m; cbn; [by intros [= _ <-]|].
  destruct (evalTemplate e data); [apply IH|by intros [= _ <-]].
Qed.

Lemma limited_positive t lim : limited t = Some lim -> 0 < Trigger.Max lim /\ 0 < Trigger.Window lim.
Proof.
  unfold limited. destruct (Trigger.RateLimit t) as [r|]; [|done]. destruct (_ && _) eqn:E; [|done].
  intros [= <-]. apply andb_true_iff in E as [?%Z.ltb_lt ?%Z.ltb_lt]. by split.
Qed.

Lemma Evaluate_counts jd t lim data s res s' :
  limited t = Some lim -> rows_ok (states s) -> Evaluate jd t data s = (res, s') ->
  let w := window (d_ID jd) (Trigger.Name t) in
  rows_ok (states s') /\ exists k, counted (Trigger.Window lim) (w (states s)) (w (states s')) k /\
    (passed res = true -> exists c, k = inl c /\ c <= Trigger.Max lim).
Proof.
  intros Hl Hok. cbv zeta. unfold Evaluate. rewrite Hl. unfold bind at 1.
  assert (forall (e : terror) (res' : EvalResult + terror), passed res' = false -> rows_ok (states s) /\ exists k,
    counted (Trigger.Window lim) (window (d_ID jd) (Trigger.Name t) (states s)) (window (d_ID jd) (Trigger.Name t) (states s)) k /\
    (passed res' = true -> exists c, k = inl c /\ c <= Trigger.Max lim)) as Hno.
  { intros e res' Hp. split; [done|]. exists (inr e). split; [left; eauto|congruence]. }
  assert (exists f, passes_filter t data s = (f, s)) as [f ->].
  { unfold passes_filter. destruct (_ != ""); [destruct (evalTemplate _ _)|]; by eexists. }
  destruct f as [[|]|e]; cbn [negb]; [|intros [= <- <-]; by apply (Hno IdsRequired)|intros [= <- <-]; by apply (Hno e)].
  unfold bind at 1. destruct (eval_params _ _ _ s) as [p s1] eqn:Ep. apply eval_params_frame in Ep as ->.
  destruct p as [p|e]; [|intros [= <- <-]; by apply (Hno e)].
  unfold bind at 1. assert (exists k, eval_dedup t data s = (k, s)) as [k ->].
  { unfold eval_dedup. destruct (_ != ""); [destruct (evalTemplate _ _)|]; by eexists. }
  destruct k as [k|e]; [|intros [= <- <-]; by apply (Hno e)].
  unfold checkAndIncrementRateLimit. unfold bind at 1 2.
  destruct (IncrementWindowCount _ _ _ s) as [c s2] eqn:Ei. apply Increment_counts in Ei as [Hok' Hc]; [|done].
  destruct c as [c|e].
  - cbn [ret]. destruct (c <=? Trigger.Max lim) eqn:Em; cbn [negb]; intros [= <- <-]; (split; [done|]); exists (inl c); split; try done.
    intros _. exists c. split; [done|]. by apply Z.leb_le.
  - intros [= <- <-]. split; [done|]. exists (inr e). by split.
Qed.

(** Recording that a trigger has fired leaves the windows alone. *)
Lemma RecordFired_window j n j' n' s r s' :
  rows_ok (states s) -> RecordFired j' n' s = (r, s') ->
  rows_ok (states s') /\ (window j n (states s') = window j n (states s) \/
                          window j n (states s) = None /\ window j n (states s') = Some (0, 0)).
Proof.
  intros Hok. unfold RecordFired. destruct (_ || _); [intros [= <- <-]; auto|].
  unfold bind at 1. destruct (update _ _ s) as [x s1] eqn:Eu. apply exec_inv in Eu as [(e & -> & E)|(a & -> & [= Ec E])].
  { intros [= <- <-]. rewrite E. auto. }
  assert (rows_ok (states s1)) as Hok1 by (rewrite <- E; by apply rows_ok_update).
  assert (window j n (states s1) = window j n (states s)) as Hw.
  { unfold window. rewrite <- E, row_of_update by done. destruct (row_of j n (states s)) as [y|]; [|done]. cbn.
    by destruct (of_trigger j' n' y). }
  destruct (a =? 0); [|intros [= <- <-]; auto].
  unfold bind at 1. cbn [ulid_Make]. unfold bind. match goal with |- context [exec ?f ?s0] => destruct (exec f s0) as [y s2] eqn:Ee end.
  apply exec_inv in Ee as [(e & -> & E2)|(b & -> & E2)]; cbn in E2.
  { intros [= <- <-]. rewrite E2. auto. }
  destruct (existsb _ _) eqn:Ex; injection E2 as <- E2; intros [= <- <-]; [rewrite <- E2; auto|]. rewrite <- E2.
  set (row := mkTriggerState _ _ _ _ _ _ _ _ _).
  assert (forall x, x ∈ states s1 -> ID x <> ID row /\ of_trigger j' n' x = false) as Hnew.
  { intros x Hx. assert ((ID x == ID row) || of_trigger j' n' x = false) as [H1 H2]%orb_false_iff.
    { destruct (_ || _) eqn:Eo; [|done]. rewrite (proj2 (existsb_exists _ (states s1))) in Ex; [done|].
      exists x. split; [by apply list_elem_of_In|]. exact Eo. }
    split; [by apply String.eqb_neq|done]. }
  assert (of_trigger j' n' row = true) as Hm by (apply mine_names; done).
  destruct (append_row j' n' row (states s1)) as [Hok2 _]; [done..|]. split; [done|].
  unfold window, row_of in *. rewrite <- Hw. assert (window_of row = (0, 0)) as Hz by done. clearbody row. clear -Hz. induction (states s1) as [|x l IH]; cbn.
  - destruct (of_trigger j n row); cbn; rewrite ?Hz; auto.
  - destruct (of_trigger j n x); [by left|done].
Qed.

Lemma add_params_frame ps req s r s' : add_params ps req s = (r, s') -> s' = s.
Proof.
  revert req. induction ps as [|[k v] ps IH]; intros req; cbn; [by intros [= _ <-]|].
  destruct (AddParam k _ req); [apply IH|by intros [= _ <-]].
Qed.

(** The error of saving is a value. *)
Lemma SaveJobRequest_no_throw qc request s e s' : SaveJobRequest qc request s <> (inr e, s').
Proof.
  unfold SaveJobRequest, Manager.bind, Manager.attempt, Manager.ret.
  destruct (GetJobDefinitionByType _ _ _ s) as [[def|e1] s1]; [|done].
  destruct (check_quota _ _ _ s1) as [[u|e1] s2]; [|done]. destruct (negb _); [done|]. unfold save_object.
  destruct (ValidateBeforeSave _) as [jr inv]. destruct (Requests.Save _ _ _ _ _) as [[x|e1] st]; cbn [fst snd]; [|done].
  by destruct (fireJobRequestChange _ _) as [v s3].
Qed.

(** What submitting does, step by step. *)
Lemma Submit_inv jd name result s r s' :
  Submit jd name result s = (r, s') ->
  (s' = s /\ exists e, r = inr e) \/
  exists req0 req saved left m' s1,
    NewJobRequestFromDefinition Store.now jd = Some req0 /\
    add_params (range (Params result)) req0 s = (inl req, s) /\
    (let req := if DedupKey result != "" then set_row (set_r_UserKey (DedupKey result) (row req)) req else req in
     SaveJobRequest (NewQueryContextFromIDs (d_UserID jd) (d_OrganizationID jd)) req (ms s)) = (inl (saved, left), m') /\
    s1 = mkTS m' (states s) /\
    match saved with
    | inr e => s' = s1 /\ r = (if isDuplicate e then inl None else inr (NotSaved e))
    | inl saved => r = inl (Some saved) /\ exists x, RecordFired (d_ID jd) name s1 = (x, s')
    end.
Proof.
  unfold Submit. destruct (NewJobRequestFromDefinition _ jd) as [req0|]; [|intros [= <- <-]; left; eauto].
  unfold bind at 1. destruct (add_params _ req0 s) as [q s0] eqn:Ea. apply add_params_frame in Ea as Es. subst s0.
  destruct q as [req|e]; [|intros [= <- <-]; left; eauto]. unfold bind at 1, managed.
  set (qc := NewQueryContextFromIDs _ _). set (rq := if DedupKey result != "" then _ else _).
  destruct (SaveJobRequest qc rq (ms s)) as [x m'] eqn:Es.
  destruct x as [[saved left]|e].
  - intros HB. right. exists req0, req, saved, left, m', (mkTS m' (states s)). split_and!; try done. cbn [fst] in HB.
    destruct saved as [saved|e]; [|destruct (isDuplicate e); by injection HB as <- <-].
    unfold bind, attempt in HB. destruct (RecordFired _ _ _) as [y s2]. injection HB as <- <-. eauto.
  - exfalso. by apply SaveJobRequest_no_throw in Es.
Qed.

End RateLimit.

Section History.
Import Rows NameValue Schedule Request JobManager.Manager TriggerStates Pipeline.
Context `{env : Store.Env, cron : Cron, dec : Decoder, ord : RangeOrder, calls : Calls, js : Json, docs : !Documents}.
Context (jd : DefRow) (t : Trigger.TriggerDefinition).
Abbreviation w := (window (d_ID jd) (Trigger.Name t)).

(** The events of one trigger, the latest first, with the time and whether the
    event passed; the clock does not go back.  Between them jobs are submitted, by
    this or other triggers, and the rest of the state changes, the rows of other
    triggers included. *)
Inductive history : list (Z * bool) -> TS -> Prop :=
| h_start s :
    rows_ok (states s) -> (forall a c, w (states s) = Some (a, c) -> 0 <= c) -> history [] s
| h_evaluate h s at_ data res s' :
    history h s -> (forall e, e ∈ h -> fst e <= at_) -> (forall a c, w (states s) = Some (a, c) -> a <= at_) ->
    Evaluate (env := at_time at_ env) jd t data s = (res, s') -> history ((at_, passed res) :: h) s'
| h_submit h s at_ jd' name result res s' :
    history h s -> Submit (env := at_time at_ env) jd' name result s = (res, s') -> history h s'
| h_other h s s' : history h s -> rows_ok (states s') -> w (states s') = w (states s) -> history h s'.

(** The events from [a] to [b] that passed. *)
Definition passes (a b : Z) (h : list (Z * bool)) : Z :=
  Sql.count (fun e => snd e && (a <=? fst e) && (fst e <=? b)) h.

Lemma passes_cons a b e h :
  passes a b (e :: h) = (if snd e && (a <=? fst e) && (fst e <=? b) then 1 else 0) + passes a b h.
Proof. unfold passes, Sql.count. cbn [List.filter]. destruct (_ && _); cbn [List.length]; lia. Qed.
Lemma passes_nonneg a b h : 0 <= passes a b h.
Proof. unfold passes, Sql.count. lia. Qed.
Lemma passes_mono a b a' b' h : a' <= a -> b <= b' -> passes a b h <= passes a' b' h.
Proof.
  intros Ha Hb. induction h as [|e h IH]; [done|]. rewrite !passes_cons.
  destruct (snd e); cbn [andb]; [|lia]. destruct (a <=? fst e) eqn:E1, (fst e <=? b) eqn:E2; cbn [andb];
    try (destruct (_ && _); lia). rewrite (proj2 (Z.leb_le a' (fst e))), (proj2 (Z.leb_le (fst e) b')) by lia. cbn [andb]. lia.
Qed.
Lemma passes_split a b c h : passes a c h <= passes a (b - 1) h + passes b c h.
Proof.
  induction h as [|e h IH]; [done|]. rewrite !passes_cons. destruct (snd e); cbn [andb]; [|lia].
  destruct (a <=? fst e) eqn:E1, (fst e <=? c) eqn:E2, (fst e <=? b - 1) eqn:E3, (b <=? fst e) eqn:E4; cbn [andb]; lia.
Qed.
Lemma passes_none a b h : (forall e, e ∈ h -> snd e = true -> fst e < a \/ b < fst e) -> passes a b h = 0.
Proof.
  induction h as [|e h IH]; [done|]. intros Hn. rewrite passes_cons, IH by (intros x Hx; apply Hn; by right).
  destruct (snd e) eqn:Es; [|done]. destruct (Hn e ltac:(by left) Es) as [?|?]; destruct (a <=? fst e) eqn:E1, (fst e <=? b) eqn:E2; cbn; lia.
Qed.

Context (lim : Trigger.TriggerRateLimit).
Abbreviation W := (Trigger.Window lim).
Abbreviation M := (Trigger.Max lim).

(** With a window from [a] with [c] events: no event passed after its end; those
    that passed since it began are counted and within the limit; so are those
    shortly before it. *)
Definition window_inv (h : list (Z * bool)) (x : option (Z * Z)) : Prop :=
  match x with
  | None => forall e, e ∈ h -> snd e = false
  | Some (a, c) =>
      0 <= c /\ (forall e, e ∈ h -> snd e = true -> fst e <= a + W) /\
      (forall b, passes a b h <= Z.min c M) /\
      (forall f, a - W <= f -> passes f (a - 1) h <= M)
  end.

Lemma inv_two h a c f : 0 < M -> window_inv h (Some (a, c)) -> a - W <= f -> passes f (f + W) h <= 2 * M.
Proof.
  intros HM (Hc & Hend & Hin & Hbefore) Hf. pose proof (passes_split f a (f + W) h). pose proof (Hin (f + W)).
  pose proof (Hbefore f Hf). lia.
Qed.

Lemma passes_skip a b e h : snd e = false \/ fst e < a \/ b < fst e -> passes a b (e :: h) = passes a b h.
Proof.
  intros He. rewrite passes_cons. destruct (snd e); cbn [andb]; [|done].
  destruct (a <=? fst e) eqn:E1, (fst e <=? b) eqn:E2; cbn [andb]; lia.
Qed.
Lemma passes_one a b e h : passes a b (e :: h) <= 1 + passes a b h.
Proof. rewrite passes_cons. destruct (_ && _); lia. Qed.

Lemma inv_weaken h x e : snd e = false -> window_inv h x -> window_inv (e :: h) x.
Proof.
  intros He. destruct x as [[a c]|]; cbn.
  - intros (Hc & Hend & Hin & Hb). split_and!; [done| | |].
    + intros x [->|Hx]%elem_of_cons Hs; [congruence|]. by apply Hend.
    + intros b. rewrite passes_skip by auto. apply Hin.
    + intros f Hf. rewrite passes_skip by auto. by apply Hb.
  - intros Hn x [->|Hx]%elem_of_cons; [done|]. by apply Hn.
Qed.

Lemma counted_inv h x x' k p at_ :
  0 < M -> 0 < W -> window_inv h x -> (forall a c, x = Some (a, c) -> a <= at_) ->
  counted (env := at_time at_ env) W x x' k -> (p = true -> exists c, k = inl c /\ c <= M) ->
  window_inv ((at_, p) :: h) x' /\ (p = true -> exists a c, x' = Some (a, c) /\ a <= at_).
Proof.
  intros HM HW Hinv Hclock Hc Hp. destruct Hc as [[-> [e ->]]|[(a & c & -> & Hw & -> & Hk)|(Hold & -> & Hk)]]; cbn [Store.now at_time] in *.
  - assert (p = false) as -> by (destruct p; [by destruct Hp as (? & ? & _)|done]). split; [by apply inv_weaken|done].
  - specialize (Hclock a c eq_refl). split; [|intros _; eauto]. destruct Hinv as (Hc0 & Hend & Hin & Hb). split_and!; [lia| | |].
    + intros x [->|Hx]%elem_of_cons Hs; [cbn; lia|]. by apply Hend.
    + intros b. specialize (Hin b). destruct p; [|rewrite passes_skip by auto; lia].
      destruct Hp as (c' & -> & Hle); [done|]. specialize (Hk c' eq_refl). pose proof (passes_one a b (at_, true) h). lia.
    + intros f Hf. rewrite passes_skip by (right; right; cbn; lia). by apply Hb.
  - split; [|intros _; eexists _, _; split; [done|lia]].
    assert (forall e, e ∈ h -> snd e = true -> fst e < at_) as Hpast.
    { intros e He Hs. destruct x as [[a c]|]; cbn in Hinv; [|by rewrite Hinv in Hs].
      destruct Hinv as (_ & Hend & _). specialize (Hend e He Hs). specialize (Hold a c eq_refl). lia. }
    split_and!; [lia| | |].
    + intros x' [->|Hx]%elem_of_cons Hs; [cbn; lia|]. specialize (Hpast x' Hx Hs). lia.
    + intros b. pose proof (passes_one at_ b (at_, p) h). rewrite (passes_none at_ b h) in * by (intros; left; by apply Hpast). lia.
    + intros f Hf. rewrite passes_skip by (right; right; cbn; lia). destruct x as [[a c]|]; cbn in Hinv.
      * destruct Hinv as (_ & _ & Hin & _). specialize (Hold a c eq_refl). specialize (Hin (at_ - 1)).
        pose proof (passes_mono f (at_ - 1) a (at_ - 1) h). lia.
      * rewrite passes_none; [lia|]. intros e He Hs. by rewrite Hinv in Hs.
Qed.

Lemma Submit_window jd' name result at_ s res s' :
  rows_ok (states s) -> Submit (env := at_time at_ env) jd' name result s = (res, s') ->
  rows_ok (states s') /\ (w (states s') = w (states s) \/ w (states s) = None /\ w (states s') = Some (0, 0)).
Proof.
  intros Hok HS. apply Submit_inv in HS as [[-> _]|(r0 & r1 & saved & left & m' & s1 & _ & _ & _ & -> & HS)]; [auto|].
  destruct saved as [saved|e]; [|destruct HS as [-> _]; auto]. destruct HS as [_ [x HS]].
  by apply (RecordFired_window (d_ID jd) (Trigger.Name t)) in HS.
Qed.

Lemma history_inv h s :
  limited t = Some lim -> history h s ->
  rows_ok (states s) /\ window_inv h (w (states s)) /\ forall f, passes f (f + W) h <= 2 * M.
Proof.
  intros Hl Hh. destruct (limited_positive t lim Hl) as [HM HW].
  induction Hh as [s Hok Hc|h s at_ data res s' Hh (Hok & Hinv & Htwo) Hlast Hclock HE|h s at_ jd' name result res s' Hh (Hok & Hinv & Htwo) HS
                  |h s s' Hh (Hok & Hinv & Htwo) Hok' Hw].
  - split_and!; [done| |intros f; change (passes f (f + W) []) with 0; lia]. destruct (w (states s)) as [[a c]|] eqn:Ew; cbn.
    + split_and!; [by eapply Hc|intros e He; by apply not_elem_of_nil in He|intros b; specialize (Hc a c eq_refl); change (passes a b []) with 0; lia|].
      intros f _. change (passes f (a - 1) []) with 0. lia.
    + intros e He. by apply not_elem_of_nil in He.
  - apply Evaluate_counts with (lim := lim) in HE as [Hok' (k & Hk & Hp)]; [|done..].
    destruct (counted_inv h (w (states s)) (w (states s')) k (passed res) at_) as [Hinv' Hlate]; [done..|].
    split_and!; [done|done|]. intros f. destruct (passed res) eqn:Er; [|rewrite passes_skip by auto; apply Htwo].
    destruct (Hlate eq_refl) as (a & c & Ea & Hle). rewrite Ea in Hinv'.
    destruct (decide (f <= at_ <= f + W)) as [Hin|Hout].
    + apply (inv_two _ a c); [done|done|lia].
    + rewrite passes_skip; [apply Htwo|]. right. cbn. lia.
  - apply Submit_window in HS as [Hok' [Hw|[Hw Hw']]]; [..|done]; split_and!; try done.
    + by rewrite Hw.
    + rewrite Hw'. rewrite Hw in Hinv. cbn in *. assert (forall a b, passes a b h = 0) as H0.
      { intros a b. apply passes_none. intros e He Hs. by rewrite Hinv in Hs. }
      split_and!; [lia|intros e He Hs; by rewrite Hinv in Hs|intros b; rewrite H0; lia|intros f _; rewrite H0; lia].
  - split_and!; [done|by rewrite Hw|done].
Qed.

(** *** Everything that happens to the row of a trigger

    The log of a trigger has its events and the times at which its row was
    written otherwise ([Rewrite]): it was reset or deleted, or a poller wrote back
    the row it had read before its events were counted.  The clock of the log
    does not go back. *)
Inductive entry := Event (at_ : Z) (pass : bool) | Rewrite (at_ : Z).
Definition when (e : entry) : Z := match e with Event at_ _ | Rewrite at_ => at_ end.

(** The calls that write the row otherwise. *)
Inductive write :=
| WReset
| WDelete
| WUpsert (state : TriggerState).
Definition perform (at_ : Z) (x : write) : TM unit :=
  match x with
  | WReset => Reset (H := at_time at_ env) (d_ID jd) (Trigger.Name t)
  | WDelete => DeleteByJobDefinitionID (H := at_time at_ env) (d_ID jd)
  | WUpsert state => bind (Upsert (H := at_time at_ env) state) (fun _ => ret tt)
  end.
(** What is written back is a row of the trigger with a count. *)
Definition of_row (x : write) : Prop :=
  match x with
  | WUpsert state => of_trigger (d_ID jd) (Trigger.Name t) state = true /\ 0 <= WindowCount state
  | _ => True
  end.

Inductive log : list entry -> TS -> Prop :=
| l_start s :
    rows_ok (states s) -> (forall a c, w (states s) = Some (a, c) -> 0 <= c) -> log [] s
| l_evaluate h s at_ data res s' :
    log h s -> (forall e, e ∈ h -> when e <= at_) -> (forall a c, w (states s) = Some (a, c) -> a <= at_) ->
    Evaluate (env := at_time at_ env) jd t data s = (res, s') -> log (Event at_ (passed res) :: h) s'
| l_submit h s at_ jd' name result res s' :
    log h s -> Submit (env := at_time at_ env) jd' name result s = (res, s') -> log h s'
| l_other h s s' : log h s -> rows_ok (states s') -> w (states s') = w (states s) -> log h s'
| l_write h s at_ x res s' :
    log h s -> (forall e, e ∈ h -> when e <= at_) -> of_row x -> perform at_ x s = (res, s') -> log (Rewrite at_ :: h) s'.

(** The events of a log, those since the last rewrite, and the events and rewrites
    of a period. *)
Definition events (h : list entry) : list (Z * bool) :=
  flat_map (fun e => match e with Event at_ p => [(at_, p)] | Rewrite _ => [] end) h.
Fixpoint latest (h : list entry) : list (Z * bool) :=
  match h with
  | Event at_ p :: h => (at_, p) :: latest h
  | _ => []
  end.
Definition rewrites (a b : Z) (h : list entry) : Z :=
  Sql.count (fun e => match e with Rewrite at_ => (a <=? at_) && (at_ <=? b) | Event _ _ => false end) h.

Lemma perform_window at_ x s res s' :
  rows_ok (states s) -> (forall a c, w (states s) = Some (a, c) -> 0 <= c) -> of_row x -> perform at_ x s = (res, s') ->
  rows_ok (states s') /\ forall a c, w (states s') = Some (a, c) -> 0 <= c.
Proof.
  intros Hok Hc Hx. destruct x as [| |state]; cbn [perform].
  - unfold Reset. destruct (_ || _); [by intros [= <- <-]|]. unfold bind, update.
    match goal with |- context [exec ?f s] => destruct (exec f s) as [y s1] eqn:Ee end.
    apply exec_inv in Ee as [(e & -> & E)|(b & -> & [= _ E])]; intros [= <- <-]; [by rewrite E|]. rewrite <- E.
    split; [by apply rows_ok_update|]. intros a c. unfold window. rewrite row_of_update by done.
    destruct (row_of _ _ (states s)) as [y|] eqn:Ey; [|done]. apply row_of_elem in Ey as [_ Hm]. cbn. rewrite Hm. by intros [= _ <-].
  - unfold DeleteByJobDefinitionID. destruct (_ == ""); [by intros [= <- <-]|]. intros Ee.
    apply exec_inv in Ee as [(e & -> & E)|(b & -> & [= _ E])]; [by rewrite E|]. rewrite <- E. split.
    + destruct Hok as [H1 H2]. split; by apply NoDup_map_filter.
    + intros a c. unfold window. destruct (row_of _ _ (Sql.remove _ _)) as [y|] eqn:Ey; [|done].
      apply row_of_elem in Ey as [Hin Hm]. apply mine_names in Hm. unfold names in Hm. injection Hm as Hj _.
      apply list_elem_of_In, List.filter_In in Hin as [_ Hne]. by rewrite Hj, eqb_string_refl in Hne.
  - destruct Hx as [Hm Hn]. unfold bind. destruct (Upsert state s) as [y s1] eqn:Eu.
    apply (Upsert_inv (d_ID jd) (Trigger.Name t) state s y s1 Hok Hm) in Eu as [(e & -> & E)|(z & -> & H1 & H2 & H3 & _)]; intros [= <- <-].
    + by rewrite E.
    + split; [done|]. intros a c. unfold window. rewrite H2. cbn. rewrite H3. by intros [= _ <-].
Qed.

(** Since the last rewrite a log is a history. *)
Lemma log_history h s : limited t = Some lim -> log h s -> history (latest h) s.
Proof.
  intros Hl. induction 1 as [s H1 H2|h s at_ data res s' Hh IH Hlast Hw HE|h s at_ jd' name result res s' Hh IH HS|h s s' Hh IH H1 H2
                            |h s at_ x res s' Hh IH Hlast Hx HE]; cbn [latest].
  - by constructor.
  - eapply h_evaluate; [exact IH| |exact Hw|exact HE]. intros e He.
    assert (forall h, e ∈ latest h -> exists p, Event (fst e) p ∈ h) as Hin.
    { clear. induction h as [|[at_ p|at_] h IH]; cbn; [by intros ?%not_elem_of_nil| |by intros ?%not_elem_of_nil].
      intros [->|He]%elem_of_cons; [exists p; by left|]. destruct (IH He) as [q Hq]. exists q. by right. }
    destruct (Hin h He) as [p Hp]. apply (Hlast _ Hp).
  - by eapply h_submit.
  - by eapply h_other.
  - apply history_inv in IH as (Hok & Hinv & _); [|done].
    destruct (perform_window at_ x s res s' Hok) as [H1 H2]; [|done..|by constructor].
    intros a c Ew. rewrite Ew in Hinv. by destruct Hinv.
Qed.

Lemma rewrites_cons a b e h :
  rewrites a b (e :: h) =
  match e with Rewrite at_ => if (a <=? at_) && (at_ <=? b) then 1 else 0 | Event _ _ => 0 end + rewrites a b h.
Proof. unfold rewrites, Sql.count. cbn [List.filter]. destruct e; [done|]. destruct (_ && _); cbn [List.length]; lia. Qed.
Lemma rewrites_nonneg a b h : 0 <= rewrites a b h.
Proof. unfold rewrites, Sql.count. lia. Qed.

(** What a log was before its last rewrite, and when that was. *)
Fixpoint before (h : list entry) : option (Z * list entry) :=
  match h with
  | Event _ _ :: h => before h
  | Rewrite at_ :: h => Some (at_, h)
  | [] => None
  end.
Lemma passes_before a b h :
  passes a b (events h) = passes a b (latest h) + match before h with Some (_, h') => passes a b (events h') | None => 0 end.
Proof.
  induction h as [|[at_ p|at_] h IH]; [done| |done]. cbn [events flat_map latest before app]. fold (events h).
  rewrite !passes_cons, IH. lia.
Qed.
Lemma rewrites_before a b h :
  rewrites a b h = match before h with
                   | Some (at_, h') => (if (a <=? at_) && (at_ <=? b) then 1 else 0) + rewrites a b h'
                   | None => 0
                   end.
Proof. induction h as [|[at_ p|at_] h IH]; [done| |]; rewrite rewrites_cons; [exact IH|done]. Qed.
Lemma before_shorter h at_ h' : before h = Some (at_, h') -> (List.length h' < List.length h)%nat.
Proof. induction h as [|[] h IH]; cbn; [done| |]; [intros ?%IH; lia|intros [= _ <-]; lia]. Qed.
Lemma event_of_events at_ p h : (at_, p) ∈ events h -> Event at_ p ∈ h.
Proof.
  induction h as [|[a q|a] h IH]; cbn; [by intros ?%not_elem_of_nil| |intros ?%IH; by right].
  intros [[= -> ->]|Hin]%elem_of_cons; [by left|right; auto].
Qed.

(** The log before a rewrite is one, all of it is earlier, and what follows is later. *)
Lemma log_before h s at_ h' :
  log h s -> before h = Some (at_, h') ->
  (exists s', log h' s') /\ (forall e, e ∈ h' -> when e <= at_) /\ Rewrite at_ ∈ h /\ forall e, e ∈ latest h -> at_ <= fst e.
Proof.
  induction 1 as [s H1 H2|h s a data res s' Hh IH Hlast Hw HE|h s a jd' name result res s' Hh IH HS|h s s' Hh IH H1 H2
                 |h s a x res s' Hh IH Hlast Hx HE]; cbn [before latest]; auto.
  - done.
  - intros Hb. destruct (IH Hb) as (H1 & H2 & H3 & H4). split_and!; [done|done|by right|].
    intros e [->|He]%elem_of_cons; [exact (Hlast _ H3)|auto].
  - intros [= <- <-]. split_and!; [eauto|done|by left|]. by intros e ?%not_elem_of_nil.
Qed.

Lemma log_bound : limited t = Some lim -> 0 < M -> 0 <= W -> forall n h s, (List.length h <= n)%nat -> log h s ->
  forall f, passes f (f + W) (events h) <= 2 * M * (1 + rewrites f (f + W) h).
Proof.
  intros Hl HM HW. induction n as [n IH] using lt_wf_ind. intros h s Hn Hh f.
  destruct (history_inv _ s Hl (log_history h s Hl Hh)) as (_ & _ & Htwo). specialize (Htwo f).
  rewrite passes_before, rewrites_before. destruct (before h) as [[at_ h']|] eqn:Eb; [|lia].
  destruct (log_before h s at_ h' Hh Eb) as ([s' Hh'] & Hpast & _ & Hlate). apply before_shorter in Eb.
  pose proof (IH (List.length h') ltac:(lia) h' s' ltac:(lia) Hh' f) as Hb. pose proof (rewrites_nonneg f (f + W) h').
  destruct (f <=? at_) eqn:E1; [destruct (at_ <=? f + W) eqn:E2|]; cbn [andb].
  - lia.
  - rewrite (passes_none f (f + W) (latest h)); [lia|]. intros e He _. specialize (Hlate e He). lia.
  - rewrite (passes_none f (f + W) (events h')); [nia|]. intros [a p] He _. specialize (Hpast _ (event_of_events a p h' He)). cbn in *. lia.
Qed.

(** C12: a trigger's limit of [Max] events in a time [Window] bounds its events, when
    they are evaluated one after another and the clock does not go back.  Since
    the row of the trigger was last written otherwise, at most [Max] events pass
    in the window that the server counts.  In any period as long as the window,
    wherever it begins, at most twice [Max] pass, and twice [Max] more for each
    time that the row was reset, deleted or written back in this period.  The table
    has one row for a trigger, as its index demands, and no negative counts. *)
Theorem rate_limit_bounds_events h s
  (limit : limited t = Some lim)
  (logged : log h s) :
  (forall a c b, w (states s) = Some (a, c) -> passes a b (latest h) <= M) /\
  forall f, passes f (f + W) (events h) <= 2 * M * (1 + rewrites f (f + W) h).
Proof.
  split.
  - destruct (history_inv _ s limit (log_history h s limit logged)) as (_ & Hinv & _).
    intros a c b Ew. rewrite Ew in Hinv. destruct Hinv as (_ & _ & Hin & _). specialize (Hin b). lia.
  - destruct (limited_positive t lim limit). by apply (log_bound limit ltac:(done) ltac:(lia) (List.length h) h s).
Qed.

End History.

(** ** What a trigger stores *)
Section Stores.
Import Rows NameValue Schedule Request JobManager.Manager TriggerStates Pipeline.
Context `{env : Store.Env, cron : Cron, dec : Decoder, ord : RangeOrder, calls : Calls, js : Json, docs : !Documents}.

Definition requests_of (s : TS) : list RequestRow := table (ms s).
(** Operations that leave the requests alone. *)
Definition tframes {A} (m : TM A) : Prop := forall s, requests_of (snd (m s)) = requests_of s.

Lemma tframes_ret {A} (a : A) : tframes (ret a).
Proof. done. Qed.
Lemma tframes_throw {A} e : tframes (throw (A := A) e).
Proof. done. Qed.
Lemma tframes_bind {A B} (m : TM A) (k : A -> TM B) : tframes m -> (forall a, tframes (k a)) -> tframes (bind m k).
Proof. intros Hm Hk s. unfold bind. specialize (Hm s). destruct (m s) as [[a|e] s1]; [|done]. cbn in Hm. by rewrite Hk. Qed.
Lemma tframes_exec {A} (f : list TriggerState -> A * list TriggerState) : tframes (exec f).
Proof. intros s. unfold exec. destruct (Store.err _); [done|]. by destruct (f (states s)). Qed.
Lemma tframes_ulid : tframes ulid_Make.
Proof. done. Qed.

Ltac tframes_step :=
  lazymatch goal with
  | |- tframes (bind _ _) => apply tframes_bind; [|intros ?]
  | |- tframes (ret _) => apply tframes_ret
  | |- tframes (throw _) => apply tframes_throw
  | |- tframes (exec _) => apply tframes_exec
  | |- tframes (query _) => apply tframes_exec
  | |- tframes (update _ _) => apply tframes_exec
  | |- tframes ulid_Make => apply tframes_ulid
  | |- tframes (if ?b then _ else _) => destruct b
  | |- tframes (match ?x with _ => _ end) => destruct x
  end.

Lemma tframes_Upsert st : tframes (Upsert st).
Proof. unfold Upsert. repeat (tframes_step; cbv zeta). Qed.
Lemma tframes_Find j n : tframes (FindByJobAndTrigger j n).
Proof. unfold FindByJobAndTrigger, scan. repeat tframes_step. Qed.
Lemma tframes_RecordFired j n : tframes (RecordFired j n).
Proof. unfold RecordFired. repeat (tframes_step; cbv zeta). Qed.
Lemma tframes_Increment j n w : tframes (IncrementWindowCount j n w).
Proof.
  unfold IncrementWindowCount, scan. repeat (tframes_step; cbv zeta); [apply tframes_Find|apply tframes_Upsert].
Qed.
Lemma tframes_Evaluate jd t data : tframes (Evaluate jd t data).
Proof.
  unfold Evaluate, passes_filter, eval_dedup, checkAndIncrementRateLimit. repeat tframes_step; try apply tframes_Increment.
  all: intros s; destruct (eval_params _ _ _ s) as [r s1] eqn:E; apply eval_params_frame in E; by subst.
Qed.

(** A request that is saved is the last row; with no schedule it keeps the key
    it came with, which no other request has. *)
Lemma saved_row qc request s saved left s' :
  r_ID (row request) = "" -> SaveJobRequest qc request s = (inl (inl saved, left), s') ->
  table s' = table s ++ [row saved] /\ r_JobType (row saved) = r_JobType (row request) /\
  r_UserID (row saved) = Query.GetUserID qc /\ r_OrganizationID (row saved) = Query.GetOrganizationID qc /\
  (forall x, x ∈ table s -> r_UserKey x <> r_UserKey (row saved)) /\
  exists def, def ∈ definitions (Store.db (store s)) /\
    (r_UserKey (row request) <> "" -> cron_schedule Store.now def = None -> r_UserKey (row saved) = r_UserKey (row request)).
Proof.
  intros Hid HS. apply SaveJobRequest_inl in HS as (def & s1 & s2 & s3 & left' & E1 & E2 & _ & E3 & Et & _).
  pose proof (frames_GetByType qc (r_JobType (row request)) (r_JobVersion (row request)) s) as F1. rewrite E1 in F1.
  pose proof (frames_quota qc (Requests.owned_by qc (row request)) def s1) as F2. rewrite E2 in F2. cbn [snd] in F1, F2.
  apply save_object_inv in E3 as (st & -> & ps' & HS).
  destruct (submitted_keeps def (Requests.owned_by qc (row request))) as (Hid' & (Hty & _) & _ & Hkey).
  apply Save_new in HS as (Htab & _ & _ & Hu & Ho & Hjt & _ & (_ & _ & _ & Hsame) & Hk); [|cbn; by rewrite Hid'].
  assert (table s2 = table s) as Ht by congruence.
  split; [unfold table in *; cbn in Et; congruence|]. split; [rewrite Hjt; exact Hty|]. split_and!; [done|done| |].
  - intros x Hx. apply Hk. unfold table in *. congruence.
  - destruct (repo_inv _ _ _ _ E1) as (st1 & _ & Hfound). apply GetByType_found in Hfound as [Hin _].
    exists def. split; [done|]. intros Hne Hc. specialize (Hkey Hc). cbn [row set_row] in Hsame.
    rewrite Hkey in Hsame. by apply Hsame.
Qed.

Lemma add_params_row ps req s req' s' : add_params ps req s = (inl req', s') -> row req' = row req.
Proof.
  revert req. induction ps as [|[k v] ps IH]; intros req; cbn; [by intros [= <- _]|].
  destruct (AddParam k _ req) as [r1|] eqn:E; [|done]. intros H1%IH. apply row_AddParam in E. congruence.
Qed.

Lemma new_request_row jd req :
  NewJobRequestFromDefinition Store.now jd = Some req -> r_ID (row req) = "" /\ r_JobType (row req) = d_JobType jd.
Proof.
  unfold NewJobRequestFromDefinition. destruct (d_Disabled jd); [discriminate|]. intros [= <-]. cbn.
  unfold UpdateUserKeyFromScheduleIfCronJob. by destruct (cron_schedule _ jd) as [[]|].
Qed.

(** What submitting stores. *)
Definition submits (jd : DefRow) (result : EvalResult) (saved : JobRequest) (s s' : TS) : Prop :=
  requests_of s' = requests_of s ++ [row saved] /\ r_JobType (row saved) = d_JobType jd /\
  r_UserID (row saved) = d_UserID jd /\ r_OrganizationID (row saved) = d_OrganizationID jd /\
  (forall x, x ∈ requests_of s -> r_UserKey x <> r_UserKey (row saved)) /\
  (DedupKey result <> "" -> (forall def, def ∈ definitions (Store.db (store (ms s))) -> cron_schedule Store.now def = None) ->
   r_UserKey (row saved) = DedupKey result).

Lemma Submit_stores jd name result s r s' :
  Submit jd name result s = (r, s') ->
  match r with
  | inl (Some saved) => submits jd result saved s s'
  | _ => requests_of s' = requests_of s
  end.
Proof.
  intros HS. apply Submit_inv in HS as [[-> [e ->]]|(r0 & r1 & saved & left & m' & s1 & H0 & H1 & H2 & -> & HS)]; [done|].
  cbv zeta in H2. apply new_request_row in H0 as [Hi Ht]. apply add_params_row in H1.
  destruct saved as [saved|e].
  - destruct HS as [-> [x HF]]. pose proof (tframes_RecordFired (d_ID jd) name (mkTS m' (states s))) as HR.
    rewrite HF in HR. cbn [snd] in HR.
    assert (r_ID (row (if DedupKey result != "" then set_row (set_r_UserKey (DedupKey result) (row r1)) r1 else r1)) = "" /\
      r_JobType (row (if DedupKey result != "" then set_row (set_r_UserKey (DedupKey result) (row r1)) r1 else r1)) = d_JobType jd)
      as [Hi' Ht'] by (destruct (DedupKey result != ""); cbn; by rewrite H1).
    apply saved_row in H2 as (T & J & U & O & K & def & Hdef & HK); [|done].
    unfold submits, requests_of in *. cbn in HR. rewrite HR. split_and!; try done; [congruence|].
    intros Hne Hcron. destruct (String.eqb_spec (DedupKey result) "") as [|_]; [done|]. cbn in HK.
    apply HK; [done|]. by apply Hcron.
  - destruct HS as [-> Hr]. apply SaveJobRequest_inr in H2. destruct (isDuplicate e); by rewrite Hr.
Qed.

(** An event whose key is that of a stored request starts no second job, and
    one that starts a job has a key no stored request had, which its request is
    stored with; here no definition has a schedule. *)
Theorem duplicate_event_starts_no_job jd name result s r s'
  (submitted : Submit jd name result s = (r, s'))
  (keyed : DedupKey result <> "")
  (unscheduled : forall def, def ∈ definitions (Store.db (store (ms s))) -> cron_schedule Store.now def = None) :
  (exists x, x ∈ requests_of s /\ r_UserKey x = DedupKey result) /\ requests_of s' = requests_of s \/
  ~ (exists x, x ∈ requests_of s /\ r_UserKey x = DedupKey result) /\
  ((exists saved, r = inl (Some saved) /\ requests_of s' = requests_of s ++ [row saved] /\
      r_UserKey (row saved) = DedupKey result /\ r_JobType (row saved) = d_JobType jd) \/
   requests_of s' = requests_of s /\ forall saved, r <> inl (Some saved)).
Proof.
  apply Submit_stores in submitted. destruct (decide (DedupKey result ∈ map r_UserKey (requests_of s))) as [Hin|Hout].
  - left. apply list_elem_of_fmap in Hin as (x & Hx & Hin). split; [exists x; by split|].
    destruct r as [[saved|]|e]; [|done..]. destruct submitted as (_ & _ & _ & _ & K & HK). destruct (K x Hin).
    rewrite HK by done. done.
  - right. split; [intros (x & Hx & E); apply Hout; rewrite <- E; by apply list_elem_of_fmap_2|].
    destruct r as [[saved|]|e]; [left|by right..]. destruct submitted as (T & J & _ & _ & _ & HK). exists saved.
    split_and!; try done. by apply HK.
Qed.

End Stores.

(** ** Web hooks *)
Section Webhooks.
Import Rows NameValue Schedule Request JobManager.Manager TriggerStates Pipeline Webhook.
Context `{env : Store.Env, cron : Cron, dec : Decoder, ord : RangeOrder, calls : Calls, js : Json, docs : !Documents}.
Context (hmac_hex : string -> string -> string).

(** The caller knows the secret: it signed the body with it or sent it. *)
Inductive presents (a : Trigger.TriggerAuth) (secret : string) (r : HttpRequest) : Prop :=
| signed pre :
    Trigger.AuthMethod a = "hmac_sha256" -> pre = "" \/ pre = "sha256=" ->
    header_Get (Header r) (Trigger.Header a) = pre +:+ hmac_hex secret (Body r) -> presents a secret r
| bearer :
    Trigger.AuthMethod a = "bearer_token" -> header_Get (Header r) "Authorization" = "Bearer " +:+ secret -> presents a secret r
| api_key :
    Trigger.AuthMethod a = "api_key_header" -> header_Get (Header r) (Trigger.Header a) = secret -> presents a secret r.


Lemma VerifySignature_spec secret sig body :
  VerifySignature hmac_hex secret sig body = true -> exists pre, (pre = "" \/ pre = "sha256=") /\ sig = pre +:+ hmac_hex secret body.
Proof.
  unfold VerifySignature, TrimPrefix, HasPrefix. destruct (String.prefix "sha256=" sig) eqn:E; intros H1%eqb_string_true.
  - exists "sha256=". split; [by right|]. rewrite H1. by apply drop_prefix.
  - exists "". rewrite H1. split; [by left|done].
Qed.

Lemma authenticate_spec jd t r a :
  Trigger.Auth t = Some a -> authenticate hmac_hex jd t r = None ->
  GetConfigString jd (Trigger.SecretConfig a) <> "" /\ presents a (GetConfigString jd (Trigger.SecretConfig a)) r.
Proof.
  unfold authenticate. intros ->. set (secret := GetConfigString _ _).
  destruct (String.eqb_spec secret "") as [|Hne]; [done|]. destruct (verifyTriggerAuth _ _ _ _ _) eqn:Ev; [|done].
  intros _. split; [done|]. unfold verifyTriggerAuth in Ev.
  destruct (String.eqb_spec (Trigger.AuthMethod a) "hmac_sha256") as [Em|_].
  - destruct (_ == ""); [done|]. apply VerifySignature_spec in Ev as (pre & Hp & Hs). by apply (signed _ _ _ pre).
  - destruct (String.eqb_spec (Trigger.AuthMethod a) "bearer_token") as [Em|_]; [apply bearer; [done|by apply eqb_string_true]|].
    destruct (String.eqb_spec (Trigger.AuthMethod a) "api_key_header") as [Em|_]; [|done].
    apply api_key; [done|by apply eqb_string_true].
Qed.

Lemma fire_stores jd t name data s r s' :
  fire jd t name data s = (inl r, s') ->
  requests_of s' = requests_of s \/
  exists saved, r = Accepted (r_ID (row saved)) /\ requests_of s' = requests_of s ++ [row saved] /\ r_JobType (row saved) = d_JobType jd /\
    r_UserID (row saved) = d_UserID jd /\ r_OrganizationID (row saved) = d_OrganizationID jd.
Proof.
  unfold fire. intros (x & s1 & E1 & HB)%tbind_inl. apply tattempt_inv in E1 as (y & [= <-] & E1).
  pose proof (tframes_Evaluate jd t data s) as HF. rewrite E1 in HF. cbn [snd] in HF.
  destruct x as [res|e]; [|injection HB as <- <-; auto]. destruct (negb _); [injection HB as <- <-; auto|].
  apply tbind_inl in HB as (z & s2 & E2 & HB). apply tattempt_inv in E2 as (z' & [= <-] & E2).
  apply Submit_stores in E2. destruct z as [[saved|]|e]; injection HB as <- <-; [right|left; congruence..].
  destruct E2 as (T & J & U & O & _). exists saved. split_and!; try done. congruence.
Qed.

(** C11: a web hook starts a job only for a definition of the table with a trigger
    of that name and kind, for a body within the limit, and, when the trigger
    asks for authentication, only for a caller that presents the configured
    secret, which is not empty; then exactly one request is stored, for the
    owner of the definition. *)
Theorem webhook_needs_the_secret maxBytes r s res s'
  (handled : handleWebhook hmac_hex maxBytes r s = (inl res, s'))
  (fired : requests_of s' <> requests_of s) :
  exists jd t saved,
    jd ∈ definitions (Store.db (store (ms s))) /\ t ∈ Triggers jd /\ Trigger.Name t = trigger_name r /\
    Trigger.Type_ t = "webhook" /\ Z.of_nat (String.length (Body r)) <= maxBytes /\
    (forall a, Trigger.Auth t = Some a ->
       GetConfigString jd (Trigger.SecretConfig a) <> "" /\ presents a (GetConfigString jd (Trigger.SecretConfig a)) r) /\
    res = Accepted (r_ID (row saved)) /\ requests_of s' = requests_of s ++ [row saved] /\
    r_JobType (row saved) = d_JobType jd /\ r_UserID (row saved) = d_UserID jd /\ r_OrganizationID (row saved) = d_OrganizationID jd.
Proof.
  unfold handleWebhook in handled. cbv zeta in handled. set (qc := WithAdmin _) in handled.
  apply tbind_inl in handled as (x & s1 & E1 & HB). apply tattempt_inv in E1 as (y & [= <-] & E1).
  unfold managed in E1. pose proof (frames_GetByType qc (job_type r) "" (ms s)) as HF.
  destruct (GetJobDefinitionByType qc (job_type r) "" (ms s)) as [[jd|e] m1] eqn:Eg; injection E1 as <- <-; cbn [snd] in HF.
  2: { injection HB as _ <-. done. }
  destruct (repo_inv _ _ _ _ Eg) as (st1 & _ & Hfound). apply GetByType_found in Hfound as [Hin _].
  destruct (findTrigger _ _) as [t|] eqn:Ef; [|by injection HB as _ <-].
  apply List.find_some in Ef as [Ht%list_elem_of_In Hn%eqb_string_true].
  destruct (Trigger.Type_ t != "webhook") eqn:Ety; [by injection HB as _ <-|]. destruct (read_fails r); [by injection HB as _ <-|].
  destruct (maxBytes <? _) eqn:Eb; [by injection HB as _ <-|].
  destruct (authenticate hmac_hex jd t r) as [st|] eqn:Ea; [by injection HB as _ <-|].
  destruct (parse_body _) as [body|]; [|by injection HB as _ <-].
  apply fire_stores in HB as [HB|(saved & Hr & HT & HJ & HU & HO)].
  { destruct fired. rewrite HB. exact HF. }
  exists jd, t, saved. apply negb_false_iff, eqb_string_true in Ety. apply Z.ltb_ge in Eb. split_and!; try done.
  - intros a Hauth. by apply (authenticate_spec jd t r).
  - rewrite HT. f_equal. exact HF.
Qed.

End Webhooks.

(** ** Polling a bucket *)

(** Keys are ordered by their bytes. *)
Definition key_lt (a b : string) : Prop := String.ltb a b = true.
#[global] Instance key_lt_order : StrictOrder key_lt.
Proof.
  assert (forall a b, key_lt a b <-> String_as_OT.lt a b) as Hiff.
  { intros a b. assert (String.compare a b = String_as_OT.compare a b) as E.
    { revert b. by induction a as [|c a IH]; intros [|d b]. }
    unfold key_lt, String.ltb, String_as_OT.lt. rewrite E. by destruct (String_as_OT.compare a b). }
  split.
  - intros a Ha%Hiff. by apply StrictOrder_Irreflexive in Ha.
  - intros a b c Ha%Hiff Hb%Hiff. apply Hiff. by transitivity b.
Qed.

Section Polling.
Import Rows NameValue Schedule Request JobManager.Manager TriggerStates Pipeline Trigger.Sources.
Context `{env : Store.Env, cron : Cron, dec : Decoder, ord : RangeOrder, calls : Calls, js : Json, docs : !Documents}.
Context (jobDef : DefRow) (trigger : Trigger.TriggerDefinition).
Abbreviation j := (d_ID jobDef).
Abbreviation n := (Trigger.Name trigger).

Lemma Evaluate_rows t data s r s' : rows_ok (states s) -> Evaluate jobDef t data s = (r, s') -> rows_ok (states s').
Proof.
  intros Hok HE. destruct (limited t) as [lim|] eqn:El; [by destruct (Evaluate_counts _ _ _ _ _ _ _ El Hok HE) as [? _]|].
  enough (s' = s) as -> by done. unfold Evaluate in HE. rewrite El in HE. unfold bind at 1 in HE.
  assert (exists f, passes_filter t data s = (f, s)) as [f Ef].
  { unfold passes_filter. destruct (_ != ""); [destruct (evalTemplate _ _)|]; by eexists. }
  rewrite Ef in HE. destruct f as [[|]|e]; cbn [negb] in HE; [|by injection HE as _ <-..].
  unfold bind at 1 in HE. destruct (eval_params _ _ _ s) as [p s1] eqn:Ep. apply eval_params_frame in Ep as ->.
  destruct p as [p|e]; [|by injection HE as _ <-]. unfold bind at 1 in HE.
  assert (exists k, eval_dedup t data s = (k, s)) as [k Ek].
  { unfold eval_dedup. destruct (_ != ""); [destruct (evalTemplate _ _)|]; by eexists. }
  rewrite Ek in HE. destruct k as [k|e]; by injection HE as _ <-.
Qed.

Lemma Submit_rows jd name result s r s' : rows_ok (states s) -> Submit jd name result s = (r, s') -> rows_ok (states s').
Proof.
  intros Hok HS. apply Submit_inv in HS as [[-> _]|(r0 & r1 & saved & left & m' & s1 & _ & _ & _ & -> & HS)]; [done|].
  destruct saved as [saved|e]; [|by destruct HS as [-> _]]. destruct HS as [_ [x HS]].
  by destruct (RecordFired_window "" "" _ _ (mkTS m' (states s)) _ _ Hok HS) as [? _].
Qed.

(** Each object in turn, with whether it is done with. *)
Inductive polled : list Listed -> list bool -> TS -> TS -> Prop :=
| polled_nil s : polled [] [] s s
| polled_cons o objects b flags s s1 s2 :
    poll_object jobDef trigger o s = (inl b, s1) -> polled objects flags s1 s2 -> polled (o :: objects) (b :: flags) s s2.

Lemma poll_object_inv o s : rows_ok (states s) -> exists b s1, poll_object jobDef trigger o s = (inl b, s1) /\ rows_ok (states s1).
Proof.
  intros Hok. unfold poll_object. destruct (negb _); [by eexists _, _|]. unfold bind at 1, attempt at 1.
  destruct (Evaluate _ _ _ s) as [x s1] eqn:E. apply Evaluate_rows in E; [|done].
  destruct x as [res|e]; [|by eexists _, _]. destruct (negb _); [by eexists _, _|]. unfold bind, attempt.
  destruct (Submit _ _ _ s1) as [y s2] eqn:E2. apply Submit_rows in E2; [|done]. destruct y; by eexists _, _.
Qed.

(** The key of the last object that is done with. *)
Fixpoint last_done (objects : list Listed) (flags : list bool) (key : string) : string :=
  match objects, flags with
  | o :: objects, b :: flags => last_done objects flags (if (b : bool) then obj_Key o else key)
  | _, _ => key
  end.

Lemma poll_objects_inv objects key s :
  rows_ok (states s) -> exists flags s2, polled objects flags s s2 /\ rows_ok (states s2) /\ List.length flags = List.length objects /\
    poll_objects jobDef trigger objects key s = (inl (last_done objects flags key), s2).
Proof.
  revert key s. induction objects as [|o objects IH]; intros key s Hok.
  { exists [], s. split_and!; try done. constructor. }
  destruct (poll_object_inv o s Hok) as (b & s1 & E & Hok1).
  destruct (IH (if b then obj_Key o else key) s1 Hok1) as (flags & s2 & HP & Hok2 & HL & HR).
  exists (b :: flags), s2. split_and!; [by eapply polled_cons|done|cbn; congruence|].
  cbn. unfold bind. by rewrite E.
Qed.

Lemma poll_pages_concat pages key s :
  rows_ok (states s) ->
  poll_pages jobDef trigger (map Some pages) key s =
    (let '(r, s') := poll_objects jobDef trigger (List.concat pages) key s in (match r with inl k => inl (Some k) | inr e => inr e end, s')).
Proof.
  revert key s. induction pages as [|p pages IH]; intros key s Hok; [done|]. cbn [map poll_pages List.concat].
  assert (forall l l' k st, rows_ok (states st) -> poll_objects jobDef trigger (l ++ l') k st =
    bind (poll_objects jobDef trigger l k) (poll_objects jobDef trigger l') st) as Happ.
  { clear. induction l as [|o l IH]; intros l' k st Hok; [done|]. cbn.
    destruct (poll_object_inv o st Hok) as (b & s1 & E & Hok1). unfold bind in *. rewrite E. by apply IH. }
  rewrite Happ by done. unfold bind. destruct (poll_objects_inv p key s Hok) as (flags & s2 & _ & Hok2 & _ & ->). by apply IH.
Qed.

(** The last object done with, in an increasing list. *)
Lemma last_done_bound objects flags key :
  StronglySorted key_lt (map obj_Key objects) -> (forall o, o ∈ objects -> key_lt key (obj_Key o)) ->
  List.length flags = List.length objects ->
  (key = last_done objects flags key \/ key_lt key (last_done objects flags key)) /\
  forall i o, objects !! i = Some o ->
    (key_lt (last_done objects flags key) (obj_Key o) <-> forall k, (i <= k)%nat -> flags !! k <> Some true).
Proof.
  revert flags key. induction objects as [|o objects IH]; intros [|b flags] key HS Hlow HL; try done.
  { split; [by left|]. done. }
  cbn in HL. injection HL as HL. apply StronglySorted_inv in HS as [HS Hall]. rewrite Forall_forall in Hall.
  assert (forall x, x ∈ objects -> key_lt (obj_Key o) (obj_Key x)) as Hgt by (intros x Hx; apply Hall; by apply list_elem_of_fmap_2).
  assert (forall x, x ∈ objects -> key_lt (if b then obj_Key o else key) (obj_Key x)) as Hlow'.
  { intros x Hx. destruct b; [by apply Hgt|]. apply Hlow. by right. }
  destruct (IH flags _ HS Hlow' HL) as [Hge Hiff]. cbn [last_done]. set (last := last_done _ _ _) in *. split.
  - pose proof (Hlow o ltac:(by left)). destruct b; [right|done]. destruct Hge as [<-|Hge]; [done|by transitivity (obj_Key o)].
  - intros [|i] x Hx; [injection Hx as <-|].
    + destruct b.
      * split; [|intros Hk; by destruct (Hk 0%nat)]. intros Hlt. exfalso.
        destruct Hge as [<-|Hge]; [exact (irreflexivity key_lt _ Hlt)|]. apply (irreflexivity key_lt (obj_Key o)). by transitivity last.
      * pose proof (Hlow o ltac:(by left)) as Ho. split.
        -- intros Hlt [|k] Hk; [done|]. cbn. intros Hf.
           destruct (lookup_lt_is_Some_2 objects k) as [y Hy]; [rewrite <- HL; by eapply lookup_lt_Some|].
           assert (~ key_lt last (obj_Key y)) as Hno by (intros Hly; apply (proj1 (Hiff k y Hy) Hly k); [lia|done]).
           apply Hno. transitivity (obj_Key o); [done|]. apply Hgt. by eapply list_elem_of_lookup_2.
        -- intros Hk. destruct Hge as [<-|Hge]; [done|]. exfalso. assert (forall k, flags !! k <> Some true) as Hnone.
           { intros k. apply (Hk (S k)). lia. }
           assert (last = key) as El; [|rewrite El in Hge; exact (irreflexivity key_lt _ Hge)].
           subst last. clear -Hnone. revert flags Hnone. induction objects as [|y objects IH]; intros [|b flags] Hnone; try done.
           cbn. destruct b; [by destruct (Hnone 0%nat)|]. apply IH. intros k. apply (Hnone (S k)).
    + rewrite (Hiff i x Hx). split; intros Hk k Hle; [destruct k as [|k]; [lia|apply Hk; lia]|apply (Hk (S k)); lia].
Qed.

Lemma last_done_start objects flags :
  (forall key, last_done objects flags key = key) \/
  exists o, o ∈ objects /\ forall key, last_done objects flags key = obj_Key o.
Proof.
  revert flags. induction objects as [|o objects IH]; intros [|b flags]; try (by left).
  cbn. destruct (IH flags) as [Hsame|(x & Hx & Hlast)].
  - destruct b; [right; exists o; split; [by left|done]|by left].
  - right. exists x. split; [by right|done].
Qed.

(** Polling a bucket handles each listed object in turn and resumes after the
    last one that is done with: an object is listed again by the next poll
    exactly when it comes after all those, so none that was done with fires
    twice, and one that failed is retried only when no later one succeeded.  The
    store lists keys in increasing order from the key asked for, and no page
    fails. *)
Theorem poll_resumes_after_the_last_done list pages st s s1
  (rows : rows_ok (states s1))
  (found : FindByJobAndTrigger j n s = (inl (Some st), s1))
  (listed : list (Trigger.Bucket trigger) (Trigger.Prefix trigger) (LastSeenKey st) = map Some pages)
  (increasing : StronglySorted key_lt (map obj_Key (List.concat pages)))
  (after : forall o, o ∈ List.concat pages -> key_lt (LastSeenKey st) (obj_Key o))
  (own : of_trigger j n st = true) :
  exists flags s2, polled (List.concat pages) flags s1 s2 /\ List.length flags = List.length (List.concat pages) /\
  let cursor := last_done (List.concat pages) flags (LastSeenKey st) in
  (forall i o, List.concat pages !! i = Some o ->
     (key_lt cursor (obj_Key o) <-> forall k, (i <= k)%nat -> flags !! k <> Some true)) /\
  let s' := snd (poll jobDef trigger list s) in
  (cursor = LastSeenKey st /\ s' = s2 \/
   (exists x, row_of j n (states s') = Some x /\ LastSeenKey x = cursor) \/
   states s' = states s2 /\ exists e, fst (Upsert (set_LastSeen cursor Store.now st) s2) = inr e).
Proof.
  destruct (poll_objects_inv (List.concat pages) "" s1 rows) as (flags & s2 & HP & Hok & HL & HR).
  exists flags, s2. split_and!; [done|done|]. cbv zeta.
  destruct (last_done_bound (List.concat pages) flags (LastSeenKey st)) as [_ Hiff]; [done..|]. split; [done|].
  destruct (poll jobDef trigger list s) as [r s'] eqn:EP. cbn [snd]. unfold poll in EP.
  unfold bind at 1, attempt at 1 in EP. rewrite found in EP. unfold bind at 1 in EP.
  rewrite listed, poll_pages_concat, HR in EP by done.
  destruct (last_done_start (List.concat pages) flags) as [Hsame|(o & Ho & Hlast)].
  - left. rewrite !Hsame in *. rewrite eqb_string_refl in EP. by injection EP as _ <-.
  - right. rewrite !Hlast in *. pose proof (after o Ho) as Hlt.
    destruct (String.eqb_spec (obj_Key o) "") as [E|_]; [rewrite E in Hlt; by destruct (LastSeenKey st)|].
    destruct (String.eqb_spec (obj_Key o) (LastSeenKey st)) as [E|_].
    { rewrite E in Hlt. by destruct (irreflexivity key_lt _ Hlt). }
    cbn [negb andb] in EP. unfold bind, attempt in EP. destruct (Upsert _ s2) as [x s3] eqn:EU. injection EP as _ <-.
    apply (Upsert_inv j n) in EU as [(e & -> & E)|(x' & -> & _ & Hr & _ & Hk)]; [| |done|done].
    + right. split; [done|by eexists].
    + left. by exists x'.
Qed.

End Polling.

(** ** The manager knows what runs *)
Section Manager.
Import Rows NameValue Schedule Request JobManager.Manager TriggerStates Pipeline TriggerManager.
Context `{env : Store.Env, cron : Cron, dec : Decoder, ord : RangeOrder, calls : Calls, js : Json, docs : !Documents,
          src : !TriggerManager.Sources}.

Definition key_of (i : instance) : triggerKey := (d_ID (inst_def i), Trigger.Name (inst_trigger i)).

(** Every source that runs is known under its key, and every key is one of a
    source that runs. *)
Record tracking (a : gmap triggerKey nat) (r : list instance) (n : nat) : Prop := {
  known : forall i, i ∈ r -> a !! key_of i = Some (number i);
  alive : forall k m, a !! k = Some m -> exists i, i ∈ r /\ number i = m /\ key_of i = k;
  numbered : NoDup (map number r);
  fresh : forall i, i ∈ r -> (number i < n)%nat
}.
Abbreviation tracks m := (tracking (active m) (running m) (started m)).

Lemma tracking_start a r n k jd t :
  tracking a r n -> a !! (d_ID jd, Trigger.Name t) = None ->
  tracking (<[(d_ID jd, Trigger.Name t) := n]> a) (r ++ [mkInstance n k jd t]) (S n).
Proof.
  intros [Hk Ha Hn Hf] Hnew. set (new := mkInstance n k jd t). split.
  - intros i [Hi|Hi]%elem_of_app.
    + rewrite lookup_insert_ne; [by apply Hk|]. intros E. apply Hk in Hi. by rewrite <- E, Hnew in Hi.
    + apply list_elem_of_singleton in Hi as ->. apply lookup_insert_eq.
  - intros key m Hm. destruct (decide (key = (d_ID jd, Trigger.Name t))) as [->|Hne].
    + rewrite lookup_insert_eq in Hm. injection Hm as <-. exists new. split_and!; [apply elem_of_app; right; by left|done..].
    + rewrite lookup_insert_ne in Hm by done. apply Ha in Hm as (i & Hi & ? & ?). exists i. split_and!; [apply elem_of_app; by left|done..].
  - rewrite List.map_app. apply NoDup_app. split_and!; [done| |apply NoDup_singleton].
    intros x (i & -> & Hi)%list_elem_of_fmap Hx. apply list_elem_of_singleton in Hx. apply Hf in Hi. cbn in Hx. lia.
  - intros i [Hi|Hi]%elem_of_app; [apply Hf in Hi; lia|]. apply list_elem_of_singleton in Hi as ->. cbn. lia.
Qed.
Lemma tracking_more a r n : tracking a r n -> tracking a r (S n).
Proof. intros [Hk Ha Hn Hf]. split; try done. intros i Hi. apply Hf in Hi. lia. Qed.

(** Starting the triggers of a definition of which none is known. *)
Lemma start_trigger_tracks jd t m :
  tracks m -> active m !! (d_ID jd, Trigger.Name t) = None ->
  tracks (start_trigger jd t m) /\
  forall k, k <> (d_ID jd, Trigger.Name t) -> active (start_trigger jd t m) !! k = active m !! k.
Proof.
  intros HT Hnew. unfold start_trigger. destruct (source_of t) as [k|]; [|done].
  destruct (start_ok (started m)); cbn; (split; [|intros key Hne]).
  - by apply tracking_start.
  - by rewrite lookup_insert_ne.
  - by apply tracking_more.
  - done.
Qed.

Lemma start_triggers_track jd ts m :
  NoDup (map Trigger.Name ts) -> tracks m -> (forall name, name ∈ map Trigger.Name ts -> active m !! (d_ID jd, name) = None) ->
  let m' := List.fold_left (fun m t => start_trigger jd t m) ts m in
  tracks m' /\ forall k, fst k <> d_ID jd -> active m' !! k = active m !! k.
Proof.
  cbv zeta. revert m. induction ts as [|t ts IH]; intros m; cbn; [done|]. intros [Ht Hts]%NoDup_cons HT Hnone.
  destruct (start_trigger_tracks jd t m) as [HT1 Hk1]; [done|apply Hnone; by left|].
  destruct (IH (start_trigger jd t m)) as [HT2 Hk2]; [done|done| |].
  - intros name Hin. rewrite Hk1; [apply Hnone; by right|]. intros [= ->]. done.
  - split; [done|]. intros k Hk. rewrite Hk2, Hk1; [done|intros ->; done|done].
Qed.

(** The triggers of a definition have names of their own. *)
Definition names_apart (jd : DefRow) : Prop := NoDup (map Trigger.Name (Triggers jd)).

Lemma load_defs_track defs m :
  NoDup (map d_ID defs) -> Forall names_apart defs -> tracks m -> (forall jd name, jd ∈ defs -> active m !! (d_ID jd, name) = None) ->
  tracks (load_defs defs m) /\ forall k, fst k ∉ map d_ID defs -> active (load_defs defs m) !! k = active m !! k.
Proof.
  revert m. induction defs as [|jd defs IH]; intros m; cbn; [done|]. intros [Hd Hds]%NoDup_cons [Hn Hns]%Forall_cons HT Hnone.
  set (m1 := if (0 <? List.length (Triggers jd))%nat then startTriggersForJobDef jd m else m).
  assert (tracks m1 /\ forall k, fst k <> d_ID jd -> active m1 !! k = active m !! k) as [HT1 Hk1].
  { subst m1. destruct (0 <? _)%nat; [|done]. apply start_triggers_track; [done|done|]. intros name _. apply Hnone. by left. }
  destruct (IH m1) as [HT2 Hk2]; [done|done|done| |].
  - intros jd' name Hin. rewrite Hk1; [apply Hnone; by right|]. cbn. intros E. apply Hd. rewrite <- E. by apply list_elem_of_fmap_2.
  - split; [done|]. intros k [Hk Hks]%not_elem_of_cons. by rewrite Hk2, Hk1.
Qed.

(** Reading leaves the tables as they are. *)
Definition db_of (s : TS) : DB := Store.db (store (ms s)).
Lemma managed_repo {A} (f : Store.M A) s r s' :
  (forall d, preserves (fun x => x = d) f) -> managed (repo f) s = (r, s') ->
  db_of s' = db_of s /\ match r with inl a => fst (f (store (ms s))) = inl a | inr _ => True end.
Proof.
  intros Hp. unfold managed, repo, db_of. specialize (Hp _ (store (ms s)) eq_refl).
  by destruct (f (store (ms s))) as [[a|e] st]; intros [= <- <-].
Qed.

Lemma page_read qc q page size s r s' :
  managed (repo (Definitions.Query qc q page size)) s = (r, s') ->
  db_of s' = db_of s /\
  match r with inl defs => defs = take size (drop (page * size) (Definitions.matching qc q (db_of s))) | inr _ => True end.
Proof.
  intros HR. apply managed_repo in HR as [Hd Hr]; [|intros d; unfold Definitions.Query; store_split; done].
  split; [done|]. destruct r as [defs|e]; [|done]. unfold Definitions.Query in Hr.
  unfold Store.bind at 1, Store.query at 1, Store.exec at 1 in Hr. destruct (Store.err _); [done|].
  unfold Store.bind, Store.try in Hr. destruct (Store.query _ _ _) as [x y]. by injection Hr as <-.
Qed.

Lemma matching_ids qc q d : NoDup (map d_ID (definitions d)) -> NoDup (map d_ID (Definitions.matching qc q d)).
Proof.
  intros Hd. unfold Definitions.matching. rewrite sort_slice_perm. unfold Sql.select.
  induction (definitions d) as [|x l IH]; cbn in *; [constructor|]. apply NoDup_cons in Hd as [Hx Hl]. destruct (_ && _ && _); [|by apply IH].
  cbn. apply NoDup_cons. split; [|by apply IH]. intros (y & E & [Hy _]%elem_of_select)%list_elem_of_fmap. apply Hx. rewrite E.
  by apply list_elem_of_fmap_2.
Qed.
Lemma matching_in qc q d jd : jd ∈ Definitions.matching qc q d -> jd ∈ definitions d.
Proof. unfold Definitions.matching. rewrite sort_slice_perm. by intros [? _]%elem_of_select. Qed.
Lemma matching_length qc q d : (List.length (Definitions.matching qc q d) <= List.length (definitions d))%nat.
Proof. unfold Definitions.matching. rewrite sort_slice_perm. unfold Sql.select. apply List.filter_length_le. Qed.

Lemma load_defs_rest defs m : ts (load_defs defs m) = ts m /\ wasLeader (load_defs defs m) = wasLeader m.
Proof.
  revert m. induction defs as [|jd defs IH]; intros m; [done|]. unfold load_defs in *. cbn [List.fold_left].
  assert (forall l m0, ts (List.fold_left (fun m t => start_trigger jd t m) l m0) = ts m0 /\
    wasLeader (List.fold_left (fun m t => start_trigger jd t m) l m0) = wasLeader m0) as Hf.
  { induction l as [|t l IHl]; intros m0; cbn; [done|]. destruct (IHl (start_trigger jd t m0)) as [-> ->].
    unfold start_trigger. destruct (source_of t); [|done]. by destruct (start_ok _). }
  destruct (0 <? List.length (Triggers jd))%nat; [|apply IH]. destruct (IH (startTriggersForJobDef jd m)) as [-> ->]. apply Hf.
Qed.

Lemma load_pages_track fuel page m :
  let L := Definitions.matching (WithAdmin (NewQueryContextFromIDs "" "")) (fun _ => true) (db_of (ts m)) in
  NoDup (map d_ID (definitions (db_of (ts m)))) -> Forall names_apart (definitions (db_of (ts m))) -> tracks m ->
  (forall jd name, jd ∈ drop (page * pageSize) L -> active m !! (d_ID jd, name) = None) ->
  (page * pageSize <= List.length L < (page + fuel) * pageSize)%nat ->
  exists m', load_pages fuel page m = (m', true) /\ tracks m' /\ db_of (ts m') = db_of (ts m) /\ wasLeader m' = wasLeader m.
Proof.
  cbv zeta. revert page m. induction fuel as [|fuel IH]; intros page m Hids Hns HT Hnone Hlen; [lia|].
  cbn [load_pages]. destruct (managed _ (ts m)) as [r s] eqn:EQ. apply page_read in EQ as [Hd Hr].
  destruct r as [defs|e]; [|by exists (set_ts s m)].
  set (L := Definitions.matching _ _ _) in *. pose proof (matching_ids (WithAdmin (NewQueryContextFromIDs "" "")) (fun _ => true) _ Hids) as HND.
  fold L in HND. rewrite <- (take_drop (page * pageSize) L), List.map_app in HND. apply NoDup_app in HND as (_ & _ & HND).
  assert (drop (page * pageSize) L = defs ++ drop (S page * pageSize) L) as Hsplit.
  { rewrite Hr. rewrite <- (take_drop pageSize (drop (page * pageSize) L)) at 1. rewrite drop_drop. do 2 f_equal. lia. }
  rewrite Hsplit, List.map_app in HND. apply NoDup_app in HND as (HD1 & HD2 & _). rewrite Hsplit in Hnone.
  destruct (load_defs_track defs (set_ts s m)) as [HT1 Hk1]; [done| |done|intros jd name Hin; apply Hnone, elem_of_app; by left|].
  { apply Forall_forall. intros jd Hjd. rewrite Forall_forall in Hns. apply Hns, (matching_in (WithAdmin (NewQueryContextFromIDs "" "")) (fun _ => true)).
    fold L. rewrite <- (take_drop (page * pageSize) L), Hsplit. set_solver. }
  destruct (load_defs_rest defs (set_ts s m)) as [Hts Hwl]. cbn in Hts, Hwl.
  destruct (List.length defs <? pageSize)%nat eqn:El; [exists (load_defs defs (set_ts s m)); rewrite Hts; by split_and!|].
  apply Nat.ltb_ge in El. destruct (IH (S page) (load_defs defs (set_ts s m))) as (m' & -> & HT' & Hd' & Hw'); rewrite ?Hts, ?Hd; fold L.
  - done.
  - done.
  - done.
  - intros jd name Hin. rewrite Hk1; [apply Hnone, elem_of_app; by right|]. cbn. intros Hin2. apply (HD2 _ Hin2).
    by apply list_elem_of_fmap_2.
  - split; [|lia]. rewrite Hr in El. rewrite length_take, length_drop in El. unfold pageSize in *. lia.
  - exists m'. rewrite Hd', Hts, Hd, Hw', Hwl. by split_and!.
Qed.

Lemma loadAllTriggers_tracks m :
  NoDup (map d_ID (definitions (db_of (ts m)))) -> Forall names_apart (definitions (db_of (ts m))) -> tracks m -> active m = ∅ ->
  exists m', loadAllTriggers m = (m', true) /\ tracks m' /\ db_of (ts m') = db_of (ts m) /\ wasLeader m' = wasLeader m.
Proof.
  intros Hids Hns HT Hnone. unfold loadAllTriggers. apply load_pages_track; [done|done|done|intros; by rewrite Hnone|].
  pose proof (matching_length (WithAdmin (NewQueryContextFromIDs "" "")) (fun _ => true) (db_of (ts m))).
  unfold definitions_of, pageSize. unfold db_of in *. lia.
Qed.

(** *** Stopping *)
Context (unsubscribes : forall k, unsubscribe_ok k = true).

Lemma ends_number k i : ends k i = (number i =? k)%nat.
Proof. unfold ends. rewrite unsubscribes. destruct (number i =? k)%nat; [by destruct (kind i)|done]. Qed.

Lemma stop_all_elem (chosen : list (triggerKey * nat)) r i :
  i ∈ List.fold_left (fun r e => stop (snd e) r) chosen r <-> i ∈ r /\ forall e, e ∈ chosen -> number i <> snd e.
Proof.
  revert r. induction chosen as [|e chosen IH]; intros r; cbn.
  { split; [intros Hi; split; [done|]|by intros [? _]]. intros e He. by apply not_elem_of_nil in He. }
  rewrite IH. unfold stop. rewrite list_elem_of_In, filter_In, <- list_elem_of_In, ends_number, negb_true_iff, Nat.eqb_neq.
  split.
  - intros [[Hi He] Hr]. split; [done|]. intros x [->|Hx]%elem_of_cons; [done|by apply Hr].
  - intros [Hi Hr]. split; [split; [done|apply Hr; by left]|intros x Hx; apply Hr; by right].
Qed.

Lemma stop_all_numbers (chosen : list (triggerKey * nat)) r :
  NoDup (map number r) -> NoDup (map number (List.fold_left (fun r e => stop (snd e) r) chosen r)).
Proof.
  revert r. induction chosen as [|e chosen IH]; intros r Hr; cbn; [done|]. apply IH. unfold stop. clear IH.
  induction r as [|i r IH]; cbn in *; [constructor|]. apply NoDup_cons in Hr as [Hi Hr]. destruct (negb _); [|by apply IH].
  cbn. apply NoDup_cons. split; [|by apply IH]. intros (y & E & [Hy _]%elem_of_select)%list_elem_of_fmap. apply Hi. rewrite E.
  by apply list_elem_of_fmap_2.
Qed.

Lemma delete_all (chosen : list (triggerKey * nat)) (a : gmap triggerKey nat) k :
  List.fold_left (fun a e => delete (fst e) a) chosen a !! k = (if bool_decide (k ∈ map fst chosen) then None else a !! k).
Proof.
  revert a. induction chosen as [|e chosen IH]; intros a; cbn; [done|]. rewrite IH.
  destruct (decide (k ∈ map fst chosen)) as [Hin|Hout].
  - rewrite !bool_decide_eq_true_2; [done|by right|done].
  - rewrite (bool_decide_eq_false_2 (k ∈ map fst chosen)) by done. destruct (decide (k = fst e)) as [->|Hne].
    + rewrite bool_decide_eq_true_2 by (by left). apply lookup_delete_eq.
    + rewrite bool_decide_eq_false_2 by (by apply not_elem_of_cons). by apply lookup_delete_ne.
Qed.

Lemma stop_keys_active p m k : active (stop_keys p m) !! k = (if p k then None else active m !! k).
Proof.
  unfold stop_keys. cbn. rewrite delete_all. destruct (p k) eqn:Ep.
  - destruct (bool_decide _) eqn:Eb; [done|]. apply bool_decide_eq_false in Eb. destruct (active m !! k) as [x|] eqn:Ea; [|done].
    destruct Eb. apply list_elem_of_fmap. exists (k, x). split; [done|]. apply elem_of_select. split; [by apply elem_of_map_to_list|done].
  - rewrite bool_decide_eq_false_2; [done|]. intros ([k' x] & -> & [_ Hp]%elem_of_select)%list_elem_of_fmap. cbn in *. congruence.
Qed.

Lemma stop_keys_running p m i : tracks m -> i ∈ running (stop_keys p m) <-> i ∈ running m /\ p (key_of i) = false.
Proof.
  intros [Hk Ha Hn Hf]. unfold stop_keys. cbn. rewrite stop_all_elem. split; intros [Hi Hc]; (split; [done|]).
  - destruct (p (key_of i)) eqn:Ep; [|done]. destruct (Hc (key_of i, number i)); [|done]. apply elem_of_select.
    split; [by apply elem_of_map_to_list, Hk|done].
  - intros [k x] [Hx Hp]%elem_of_select. cbn in *. intros Hnum. apply elem_of_map_to_list in Hx. apply Ha in Hx as (i' & Hi' & Hn' & Hk').
    assert (i' = i) as ->; [|congruence]. rewrite <- Hn' in Hnum. clear -Hn Hi Hi' Hnum.
    induction (running m) as [|y l IH]; [by apply not_elem_of_nil in Hi|]. cbn in Hn. apply NoDup_cons in Hn as [Hy Hl].
    apply elem_of_cons in Hi as [->|Hi], Hi' as [->|Hi']; [done| | |by apply IH].
    + destruct Hy. rewrite Hnum. by apply list_elem_of_fmap_2.
    + destruct Hy. rewrite <- Hnum. by apply list_elem_of_fmap_2.
Qed.

Lemma stop_keys_tracks p m : tracks m -> tracks (stop_keys p m).
Proof.
  intros HT. pose proof (fun i => stop_keys_running p m i HT) as Hr. destruct HT as [Hk Ha Hn Hf]. split.
  - intros i [Hi Hp]%Hr. rewrite stop_keys_active, Hp. by apply Hk.
  - intros k x. rewrite stop_keys_active. destruct (p k) eqn:Ep; [done|]. intros (i & Hi & Hx & Hkey)%Ha. exists i.
    split_and!; try done. apply Hr. split; [done|congruence].
  - by apply stop_all_numbers.
  - intros i [Hi _]%Hr. by apply Hf.
Qed.

Lemma startTriggersForDef_tracks id m :
  Forall names_apart (definitions (db_of (ts m))) -> tracks m -> (forall name, active m !! (id, name) = None) ->
  tracks (startTriggersForDef id m) /\ db_of (ts (startTriggersForDef id m)) = db_of (ts m) /\
  wasLeader (startTriggersForDef id m) = wasLeader m.
Proof.
  intros Hns HT Hnone. unfold startTriggersForDef. destruct (managed _ (ts m)) as [r s] eqn:ER.
  apply managed_repo in ER as [Hd Hr]; [|intros d; apply DefGet_pure]. destruct r as [jd|e]; [|done].
  destruct (Definitions.Get _ id (store (ms (ts m)))) as [x st] eqn:EG. cbn in Hr. subst x. apply definition_loaded in EG as [Hin Hid].
  rewrite Forall_forall in Hns. specialize (Hns jd Hin).
  destruct (_ || _); [done|]. destruct (start_triggers_track jd (Triggers jd) (set_ts s m)) as [HT' _]; [done|done| |].
  - intros name _. rewrite Hid. apply Hnone.
  - split; [done|]. destruct (load_defs_rest [jd] (set_ts s m)) as [H1 H2]. unfold load_defs in *. cbn [List.fold_left] in *.
    unfold startTriggersForJobDef in *. destruct (Triggers jd) as [|t l]; [done|]. cbn [List.length Nat.ltb Nat.leb] in *. by rewrite H1, H2.
Qed.

End Manager.

Section ManagerSteps.
Import Rows NameValue Schedule Request JobManager.Manager TriggerStates Pipeline TriggerManager.
Context `{env : Store.Env, cron : Cron, dec : Decoder, ord : RangeOrder, calls : Calls, js : Json, docs : !Documents,
          src : !TriggerManager.Sources}.

(** The database has no two definitions with one identifier, and the triggers of a
    definition have names of their own. *)
Definition sane (s : TS) : Prop :=
  NoDup (map d_ID (definitions (db_of s))) /\ Forall names_apart (definitions (db_of s)).

(** A change of a definition is announced to a leader only once its triggers are
    loaded. *)
Definition orderly (e : event) (m : Mgr) : Prop :=
  match e with
  | JobDefLifecycle (Some (_, UPDATED)) | JobDefLifecycle (Some (_, ENABLED)) => isLeader m = true -> wasLeader m = true
  | Change s => sane s
  | _ => True
  end.

Inductive reached : Mgr -> Prop :=
| reached_start s : sane s -> reached (initial s)
| reached_step at_ e m : reached m -> orderly e m -> reached (step (env := at_time at_ env) e m).

Context (unsubscribes : forall k, unsubscribe_ok k = true).

Definition leads (m : Mgr) : Prop :=
  tracking (active m) (running m) (started m) /\ sane (ts m) /\
  (wasLeader m = false -> active m = ∅).

Lemma stop_keys_leads p m : leads m -> leads (stop_keys p m).
Proof.
  intros (HT & Hids & Hw). split; [by apply stop_keys_tracks|]. split; [done|]. intros Hno. cbn in Hno. apply map_eq. intros k.
  rewrite stop_keys_active, Hw by done. rewrite lookup_empty. by destruct (p k).
Qed.

Lemma step_leads at_ e m : leads m -> orderly e m -> leads (step (env := at_time at_ env) e m).
Proof.
  intros HL Ho. pose proof HL as (HT & [Hids Hns] & Hw). destruct e as [|readable|change| | |s]; cbn [step].
  - unfold StartManager. destruct DisableTriggers; [done|]. destruct (negb leader_ok); [done|]. by destruct (negb lifecycle_ok).
  - destruct (leaderSubscribed m); [|done]. by destruct readable.
  - destruct (defLifecycleSubscribed m); [|done]. destruct change as [[id ch]|]; [|done].
    assert (isLeader m = true -> wasLeader m = true -> leads (startTriggersForDef (env := at_time at_ env) id (stopTriggersForDef id m))) as Hup.
    { intros _ Hwl. destruct (stop_keys_leads (fun k => fst k == id) m HL) as (HT1 & [Hids1 Hns1] & _).
      destruct (startTriggersForDef_tracks (env := at_time at_ env) id (stopTriggersForDef id m)) as (H1 & H2 & H3); [done|done| |].
      - intros name. unfold stopTriggersForDef. rewrite stop_keys_active. cbn. by rewrite eqb_string_refl.
      - split; [done|]. split; [unfold sane; by rewrite H2|]. rewrite H3. cbn. congruence. }
    destruct ch; cbn [handleJobDefLifecycle orderly] in *; try (by apply stop_keys_leads); destruct (isLeader m); auto.
  - destruct (watching m); [|done]. unfold watch. destruct (nowLeader m && negb (wasLeader m)) eqn:E1.
    + apply andb_true_iff in E1 as [_ Hwl%negb_true_iff].
      destruct (loadAllTriggers_tracks (env := at_time at_ env) (set_wasLeader true m)) as (m' & Hm & H1 & H2 & H3); [done|done|done|by apply Hw|].
      rewrite Hm. cbn [fst]. split; [done|]. split; [unfold sane; by rewrite H2|]. rewrite H3. done.
    + destruct (negb (nowLeader m) && wasLeader m); [|done]. unfold stopAllTriggers. split; [|split].
      * by apply (stop_keys_tracks unsubscribes (fun _ => true) (set_wasLeader false m)).
      * done.
      * intros _. apply map_eq. intros k. rewrite stop_keys_active. by rewrite lookup_empty.
  - by apply (stop_keys_leads (fun _ => true)).
  - by split.
Qed.

(** C33: the trigger manager knows its sources.  Every queue subscription,
    notification subscription and poller that runs is known to it under its
    trigger, at most one runs for a trigger, none runs while the watcher of the
    manager has not taken up the leadership (every server takes it up when it hears
    a leader's heartbeats), and stopping the manager stops them all.  This is for
    runs in which the triggers of each definition have names of their own, a change
    of a definition reaches a leader only after it has loaded its triggers, and
    subscriptions end when they are asked to. *)
Theorem manager_tracks_sources m (state : reached m) :
  (forall i, i ∈ running m -> active m !! key_of i = Some (number i)) /\
  NoDup (map key_of (running m)) /\
  (wasLeader m = false -> running m = []) /\
  running (StopManager m) = [].
Proof.
  assert (leads m) as HL.
  { induction state as [s Hids|at_ e m Hm IH Ho]; [|by apply step_leads]. split; [|by split]. split; try done.
    - intros i Hi. by apply not_elem_of_nil in Hi.
    - constructor.
    - intros i Hi. by apply not_elem_of_nil in Hi. }
  destruct HL as (HT & _ & Hw). pose proof HT as [Hk Ha Hn Hf]. split_and!.
  - done.
  - clear -Hk Hn. induction (running m) as [|i l IH]; cbn in *; [constructor|]. apply NoDup_cons in Hn as [Hi Hl]. apply NoDup_cons.
    split; [|apply IH; [intros x Hx; apply Hk; by right|done]]. intros (y & E & Hy)%list_elem_of_fmap. apply Hi.
    assert (Some (number i) = Some (number y)) as [= ->]; [|by apply list_elem_of_fmap_2].
    rewrite <- (Hk i), <- (Hk y), E; [done|by right|by left].
  - intros Hno. destruct (running m) as [|i l]; [done|]. specialize (Hk i ltac:(by left)). by rewrite Hw in Hk.
  - destruct (running (StopManager m)) as [|i l] eqn:E; [done|]. assert (i ∈ running (stop_keys (fun _ => true) m)) as Hi.
    { change (i ∈ running (StopManager m)). rewrite E. by left. }
    apply stop_keys_running in Hi as [_ Hp]; done.
Qed.

End ManagerSteps.

(** ** Examples *)
Module TriggerDemo.
Import Rows NameValue Schedule Request JobManager.Manager TriggerStates Pipeline Webhook Trigger.Sources TriggerManager.

#[local] Existing Instance demo_env.
#[local] Existing Instance demo_cron.
#[local] Existing Instance demo_decoder.
#[local] Existing Instance demo_calls.
#[local] Instance demo_json : Json := {| json := string; json_Unmarshal := fun s => if HasPrefix s "{" then Some s else None |}.

(** Minutes of the clock of the example. *)
Definition minute (n : Z) : Z := 1000000000000 + n * 60000000000.

Definition trigger (type name : string) (auth : option Trigger.TriggerAuth) (filter dedup : string)
    (limit : option Trigger.TriggerRateLimit) : Trigger.TriggerDefinition :=
  Trigger.mkTriggerDefinition type name "" auth "" "inbox" "" ".csv" 0 "orders" "" false ∅ filter dedup limit.
Definition per_hour (n : Z) : option Trigger.TriggerRateLimit := Some (Trigger.mkTriggerRateLimit n 3600000000000).
Definition token : Trigger.TriggerAuth := Trigger.mkTriggerAuth "bearer_token" "token" "".
Definition push : Trigger.TriggerDefinition := trigger "webhook" "push" (Some token) "" "" None.
Definition limited_push : Trigger.TriggerDefinition := trigger "webhook" "push" None "" "" (per_hour 2).
Definition files : Trigger.TriggerDefinition := trigger "s3" "files" None "{{filter}}" "" (per_hour 1).
Definition orders : Trigger.TriggerDefinition := trigger "queue" "orders" None "" "{{key}}" None.

#[local] Instance demo_documents : Documents :=
  {| template := fun expr data =>
       match data with
       | ObjectData o => if Key o == "b.csv" then inr "no such field" else inl "true"
       | MessageData (Some (inl v)) _ => inl v
       | _ => inl "true"
       end;
     yaml_triggers := fun y => if HasPrefix y "push" then Some [push]
                               else if HasPrefix y "orders" then Some [orders] else Some [];
     yaml_params := fun _ => None;
     Configs := fun _ => [("token", "s3cret")] |}.

Definition definition (id yaml : string) (disabled : bool) : DefRow :=
  mkDefRow id "build" "" false "" "" 0 5 disabled true "user" "org" yaml "" "" ["compile"].
Definition world (defs : list DefRow) (rows : list RequestRow) (t : list TriggerState) : TS :=
  mkTS (mkMS (Store.mkSt (mkDB rows [] [] defs [] [] [] [] [] [] [] []) 0 0) Registry.newRegistry [] 0 []
    {["user" := mkAccount (Users.mkUser "user" "org" "" "" None None)
                  (Some (mkSubscription true 10 10 0 2000000000000)) "" None 5 None]} []) t.
Definition build : DefRow := definition "def-1" "push" false.
Definition quiet_world : TS := world [build] [] [].

(** *** Limits *)
Definition event_at (n : Z) (t : Trigger.TriggerDefinition) (s : TS) : (EvalResult + terror) * TS :=
  Evaluate (env := at_time (minute n) demo_env) build t (WebhookData None ∅ ∅) s.
Definition s1 : TS := snd (event_at 0 limited_push quiet_world).
Definition s2 : TS := snd (event_at 59 limited_push s1).
Definition s3 : TS := snd (event_at 60 limited_push s2).
Definition s4 : TS := snd (perform build limited_push (minute 60) WReset s3).
Definition s5 : TS := snd (event_at 60 limited_push s4).
Definition s6 : TS := snd (event_at 62 limited_push s5).
Definition seen : list entry :=
  [Event (minute 62) true; Event (minute 60) true; Rewrite (minute 60); Event (minute 60) false; Event (minute 59) true;
   Event (minute 0) true].

Lemma past n (h : list entry) : forallb (fun e => when e <=? minute n) h = true -> forall e, e ∈ h -> when e <= minute n.
Proof. intros Hp e He. rewrite List.forallb_forall in Hp. by apply Z.leb_le, Hp, list_elem_of_In. Qed.
Lemma seen_event n b h s :
  passed (fst (event_at n limited_push s)) = b -> log build limited_push h s -> forallb (fun e => when e <=? minute n) h = true ->
  match window "def-1" "push" (states s) with Some (a, _) => a <=? minute n | None => true end = true ->
  log build limited_push (Event (minute n) b :: h) (snd (event_at n limited_push s)).
Proof.
  intros <- Hh Hp Hw. apply (l_evaluate _ _ _ s _ (WebhookData None ∅ ∅)); [done|by apply past| |apply surjective_pairing].
  intros a c E. unfold d_ID, Trigger.Name in E. cbn in E. rewrite E in Hw. by apply Z.leb_le.
Qed.
Lemma seen_reset n h s :
  log build limited_push h s -> forallb (fun e => when e <=? minute n) h = true ->
  log build limited_push (Rewrite (minute n) :: h) (snd (perform build limited_push (minute n) WReset s)).
Proof. intros Hh Hp. eapply (l_write _ _ _ s _ WReset); [done|by apply past|done|apply surjective_pairing]. Qed.

Lemma rate_limit_bounds_events_witness :
  limited limited_push = per_hour 2 /\
  (forall a c b, window "def-1" "push" (states s6) = Some (a, c) -> passes a b (latest seen) <= 2) /\
  forall f, passes f (f + 3600000000000) (events seen) <= 2 * 2 * (1 + rewrites f (f + 3600000000000) seen).
Proof.
  split; [reflexivity|].
  refine (rate_limit_bounds_events build limited_push (Trigger.mkTriggerRateLimit 2 3600000000000) seen s6 eq_refl _).
  apply (seen_event 62 true _ s5); [by vm_compute| |by vm_compute..].
  apply (seen_event 60 true _ s4); [by vm_compute| |by vm_compute..].
  apply (seen_reset 60 _ s3); [|by vm_compute].
  apply (seen_event 60 false _ s2); [by vm_compute| |by vm_compute..].
  apply (seen_event 59 true _ s1); [by vm_compute| |by vm_compute..].
  apply (seen_event 0 true _ quiet_world); [by vm_compute| |by vm_compute..].
  constructor; [split; constructor|discriminate].
Defined.

(** Three events pass within an hour although the limit is two. *)
Example limit_is_not_sliding :
  map (fun s => fst (event_at (fst s) limited_push (snd s))) [(59, s1); (61, s3); (62, snd (event_at 61 limited_push s3))]
    = repeat (inl (mkEvalResult true ∅ "")) 3.
Proof. vm_compute. reflexivity. Qed.

(** *** Web hooks *)
Definition digest (secret body : string) : string := secret +:+ body.
Definition request (auth body : string) : HttpRequest :=
  mkHttpRequest "build" "push" {["Authorization" := [auth]]} ∅ body false.
Definition hook (auth : string) : (response + terror) * TS :=
  handleWebhook digest 1048576 (request auth "{}") quiet_world.
Definition hooked : TS := snd (hook "Bearer s3cret").

Example wrong_token_is_refused : fst (hook "Bearer guess") = inl (Refused 401).
Proof. vm_compute. reflexivity. Qed.

Lemma webhook_needs_the_secret_witness :
  fst (hook "Bearer s3cret") = inl (Accepted "ulid-0") /\
  exists jd t saved,
    jd ∈ definitions (Store.db (store (ms quiet_world))) /\ t ∈ Triggers jd /\ Trigger.Name t = "push" /\
    Trigger.Type_ t = "webhook" /\ Z.of_nat (String.length "{}") <= 1048576 /\
    (forall a, Trigger.Auth t = Some a ->
       GetConfigString jd (Trigger.SecretConfig a) <> "" /\
       presents digest a (GetConfigString jd (Trigger.SecretConfig a)) (request "Bearer s3cret" "{}")) /\
    Accepted "ulid-0" = Accepted (r_ID (row saved)) /\ requests_of hooked = requests_of quiet_world ++ [row saved] /\
    r_JobType (row saved) = d_JobType jd /\ r_UserID (row saved) = d_UserID jd /\ r_OrganizationID (row saved) = d_OrganizationID jd.
Proof.
  split; [vm_compute; reflexivity|].
  refine (webhook_needs_the_secret digest 1048576 (request "Bearer s3cret" "{}") quiet_world (Accepted "ulid-0") hooked _ _).
  - vm_compute. reflexivity.
  - vm_compute. discriminate.
Defined.

(** A type that two tenants use: the hook fires the definition with the lesser
    identifier, whose triggers are other ones. *)
Definition tenants : TS :=
  world [definition "def-0" "other" false; build] [] [].
Example other_tenant_hides_a_hook :
  fst (handleWebhook digest 1048576 (request "Bearer s3cret" "{}") tenants) = inl (Refused 404).
Proof. vm_compute. reflexivity. Qed.

(** *** Keys *)
Definition keyed (k : string) : EvalResult := mkEvalResult true ∅ k.
Definition first_order : TS := snd (Submit build "orders" (keyed "order-1") quiet_world).
Lemma duplicate_event_starts_no_job_witness :
  fst (Submit build "orders" (keyed "order-1") first_order) = inl None /\
  ((exists x, x ∈ requests_of first_order /\ r_UserKey x = "order-1") /\
     requests_of (snd (Submit build "orders" (keyed "order-1") first_order)) = requests_of first_order \/
   ~ (exists x, x ∈ requests_of first_order /\ r_UserKey x = "order-1") /\
   ((exists saved, fst (Submit build "orders" (keyed "order-1") first_order) = inl (Some saved) /\
       requests_of (snd (Submit build "orders" (keyed "order-1") first_order)) = requests_of first_order ++ [row saved] /\
       r_UserKey (row saved) = "order-1" /\ r_JobType (row saved) = "build") \/
    requests_of (snd (Submit build "orders" (keyed "order-1") first_order)) = requests_of first_order /\
    forall saved, fst (Submit build "orders" (keyed "order-1") first_order) <> inl (Some saved))).
Proof.
  split; [vm_compute; reflexivity|].
  refine (duplicate_event_starts_no_job build "orders" (keyed "order-1") first_order _ _ (surjective_pairing _) _ _).
  - discriminate.
  - intros def Hdef. vm_compute in Hdef. apply elem_of_cons in Hdef as [->|Hdef]; [reflexivity|by apply not_elem_of_nil in Hdef].
Defined.

(** A definition with a schedule: its key takes the place of the event's, so the
    same event is refused as a duplicate of another one. *)
Definition nightly : DefRow :=
  mkDefRow "def-1" "build" "" false "@daily" "" 0 5 false true "user" "org" "orders" "" "" ["compile"].
Definition two_orders : TS :=
  snd (Submit nightly "orders" (keyed "order-1") (world [nightly] [] [])).
Example schedule_replaces_the_key :
  map r_UserKey (requests_of two_orders) <> ["order-1"] /\
  fst (Submit nightly "orders" (keyed "order-2") two_orders) = inl None.
Proof. split; vm_compute; [discriminate|reflexivity]. Qed.

(** *** Polling *)
Definition listed (k : string) : Listed := mkListed k 1 None 0.
Definition state_row : TriggerState := mkTriggerState "ts-1" "def-1" "files" "" 5 0 0 5 5.
Definition bucket : TS := world [build] [] [state_row].
Definition free_files : Trigger.TriggerDefinition := trigger "s3" "files" None "{{filter}}" "" None.
Definition pages_of (l : list (option (list Listed))) : listing := fun _ _ _ => l.
Definition demo_pages : list (list Listed) := [[listed "a.csv"; listed "b.csv"]; [listed "c.csv"; listed "d.txt"]].
Definition after_poll : TS := snd (poll build free_files (pages_of (map Some demo_pages)) bucket).

Lemma poll_resumes_after_the_last_done_witness :
  option_map LastSeenKey (row_of "def-1" "files" (states after_poll)) = Some "d.txt" /\
  exists flags s2, polled build free_files (List.concat demo_pages) flags
      (snd (FindByJobAndTrigger "def-1" "files" bucket)) s2 /\ List.length flags = List.length (List.concat demo_pages) /\
  let cursor := last_done (List.concat demo_pages) flags "" in
  (forall i o, List.concat demo_pages !! i = Some o ->
     (key_lt cursor (obj_Key o) <-> forall k, (i <= k)%nat -> flags !! k <> Some true)) /\
  let s' := after_poll in
  (cursor = "" /\ s' = s2 \/
   (exists x, row_of "def-1" "files" (states s') = Some x /\ LastSeenKey x = cursor) \/
   states s' = states s2 /\ exists e, fst (Upsert (set_LastSeen cursor Store.now state_row) s2) = inr e).
Proof.
  split; [vm_compute; reflexivity|].
  refine (poll_resumes_after_the_last_done build free_files (pages_of (map Some demo_pages)) demo_pages state_row bucket _ _ _ _ _ _ _).
  - split; (apply (bool_decide_unpack _); vm_compute; exact Logic.I).
  - vm_compute. reflexivity.
  - reflexivity.
  - repeat constructor.
  - intros o Ho. apply list_elem_of_In in Ho. cbn in Ho. repeat destruct Ho as [<-|Ho]; done.
  - reflexivity.
Defined.

(** "b.csv" could not be evaluated; the poll goes on and leaves it behind. *)
Example failed_object_is_left_behind :
  option_map LastSeenKey (row_of "def-1" "files" (states after_poll)) = Some "d.txt" /\
  List.length (requests_of after_poll) = 2%nat.
Proof. split; vm_compute; reflexivity. Qed.

(** One event an hour is allowed; a poll every minute lets one pass each time. *)
Definition poll_at (n : Z) (k : string) (s : TS) : TS :=
  snd (poll (env := at_time (minute n) demo_env) build files (pages_of [Some [listed k]]) s).
Example poll_forgets_the_count :
  List.length (requests_of (poll_at 2 "c.csv" (poll_at 1 "a.csv" bucket))) = 2%nat.
Proof. vm_compute. reflexivity. Qed.

(** A page that cannot be read: the objects before it fire again. *)
Example failed_page_fires_again :
  let broken := pages_of [Some [listed "a.csv"]; None] in
  List.length (requests_of (snd (poll build free_files broken (snd (poll build free_files broken bucket))))) = 2%nat.
Proof. vm_compute. reflexivity. Qed.

(** *** The manager *)
#[local] Instance demo_sources : TriggerManager.Sources :=
  {| start_ok := fun _ => true; unsubscribe_ok := fun _ => true; leader_ok := true; lifecycle_ok := true;
     DisableTriggers := false; JobSchedulerLeaderInterval := 15000000000 |}.
Definition shop : TS := world [definition "def-1" "orders" false] [] [].
Definition shop2 : TS := world [set_d_Active false (definition "def-1" "orders" false); definition "def-2" "orders" false] [] [].
Definition leader : list (Z * event) := [(minute 0, Start); (minute 0, LeaderEvent true); (minute 0, Tick)].
Definition leading : Mgr := run leader (initial shop).

Lemma manager_tracks_sources_witness :
  map number (running leading) = [0%nat] /\
  (forall i, i ∈ running leading -> active leading !! key_of i = Some (number i)) /\
  NoDup (map key_of (running leading)) /\
  (wasLeader leading = false -> running leading = []) /\ running (StopManager leading) = [].
Proof.
  split; [vm_compute; reflexivity|]. refine (manager_tracks_sources _ leading _).
  - reflexivity.
  - apply reached_step; [apply reached_step; [apply reached_step; [apply reached_start|]|]|]; try exact Logic.I.
    split; [apply NoDup_singleton|]. apply Forall_singleton. vm_compute. apply NoDup_singleton.
Defined.

(** A new version has a new identifier: the source of the old one goes on. *)
Example update_leaves_the_old_source :
  map (fun i => d_ID (inst_def i))
    (running (run [(minute 0, Change shop2); (minute 0, JobDefLifecycle (Some ("def-2", UPDATED)))] leading)) = ["def-1"; "def-2"].
Proof. vm_compute. reflexivity. Qed.

(** A change announced between the heartbeat and the tick: two sources run for
    one trigger, and stopping the manager leaves one of them. *)
Definition early : list (Z * event) :=
  [(minute 0, Start); (minute 0, LeaderEvent true); (minute 0, JobDefLifecycle (Some ("def-1", UPDATED))); (minute 0, Tick)].
Example early_change_leaks_a_source :
  List.length (running (run early (initial shop))) = 2%nat /\ List.length (running (run (early ++ [(minute 1, Stop)]) (initial shop))) = 1%nat.
Proof. split; vm_compute; reflexivity. Qed.

(** The triggers of a disabled definition are loaded with the others. *)
Example disabled_definition_is_loaded :
  List.length (running (run leader (initial (world [definition "def-1" "orders" true] [] [])))) = 1%nat.
Proof. vm_compute. reflexivity. Qed.

End TriggerDemo.
