(* ===== verification/Retention.v ===== *)
(** * Retention: old job history

    Models [src/queen/manager/retention_manager.go] on the repositories and
    [GetRetentionDays] of [src/queen/types/job_definition.go], and shows that a
    purge ends, that it removes no request before its time, and that it removes
    all expired requests of a type and state it is run for. *)

From S2P Require Import Prelude RequestState Acl Approval Tables JobStore JobStoreSpec JobManager.
From S2P Require Import DefinitionSpec JobManagerSpec TriggerSpec.

Open Scope Z_scope.

(** ** Model *)
Module Retention.
Import Rows Store.
Open Scope store_scope.

(** The columns of a definition with its periods, in days, and whether the
    context has ended when it is asked for the n-th time. *)
Class Periods := {
  RetentionDaysForFailed : DefRow -> Z;
  RetentionDaysForCompleted : DefRow -> Z;
  RetentionDaysForCancelled : DefRow -> Z;
  context_ended : nat -> bool
}.

Section Retention.
Context `{Env, Periods}.

Definition DefaultRetentionDaysForFailed : Z := 30.
Definition DefaultRetentionDaysForCompleted : Z := 7.
Definition DefaultRetentionDaysForCancelled : Z := 30.

Definition GetRetentionDays (jd : DefRow) (state : RequestState) : Z :=
  if state == State.FAILED then
    if 0 <? RetentionDaysForFailed jd then RetentionDaysForFailed jd else DefaultRetentionDaysForFailed
  else if state == State.COMPLETED then
    if 0 <? RetentionDaysForCompleted jd then RetentionDaysForCompleted jd else DefaultRetentionDaysForCompleted
  else if state == State.CANCELLED then
    if 0 <? RetentionDaysForCancelled jd then RetentionDaysForCancelled jd else DefaultRetentionDaysForCancelled
  else 0.

(** [AddDate(0, 0, -days)]: days of 24 hours. *)
Definition olderThan (days : Z) : Z := now - days * 86400000000000.

(** [purgeState]: the number removed, with the error that ended it; [None] when
    the batches did not end within the fuel. *)
Definition batchSize : Z := 500.
Fixpoint purge_batches (fuel : nat) (asked : nat) (total : Z) (jobType : string) (state : RequestState) (before : Z)
    : M (option (Z * bool)) :=
  match fuel with
  | O => ret None
  | S fuel =>
      if context_ended asked then ret (Some (total, false))
      else
        n <- try (Requests.PurgeOldRequests jobType state before batchSize) ;;
        match n with
        | inr _ => ret (Some (total, false))
        | inl n =>
            if n <? batchSize then ret (Some (total + n, true))
            else purge_batches fuel (S asked) (total + n) jobType state before
        end
  end.
Definition purgeState (jobType : string) (state : RequestState) (before : Z) : M (option (Z * bool)) :=
  fun s => purge_batches (S (List.length (requests (db s)))) 0 0 jobType state before s.

(** The states of one definition: a failed purge is skipped and not counted. *)
Definition terminalStates : list RequestState := [State.FAILED; State.COMPLETED; State.CANCELLED].
Fixpoint purge_states (jd : DefRow) (states : list RequestState) (total : Z) : M Z :=
  match states with
  | [] => ret total
  | state :: states =>
      let days := GetRetentionDays jd state in
      if days <=? 0 then purge_states jd states total
      else
        purged <- purgeState (d_JobType jd) state (olderThan days) ;;
        purge_states jd states (match purged with Some (n, true) => total + n | _ => total end)
  end.
Fixpoint purge_defs (jds : list DefRow) (total : Z) : M Z :=
  match jds with
  | [] => ret total
  | jd :: jds =>
      total <- purge_states jd terminalStates total ;;
      purge_defs jds total
  end.

(** [PurgeAll]: the number removed and whether the definitions could be read.
    The offset of the next definitions is handed to [Query] as a page number. *)
Definition pageSize : nat := Z.to_nat 1000.
Fixpoint purge_pages (fuel offset : nat) (total : Z) : M (option (Z * bool)) :=
  match fuel with
  | O => ret None
  | S fuel =>
      jobDefs <- try (Definitions.Query (Manager.WithAdmin (Manager.NewQueryContextFromIDs "" "")) d_Active offset pageSize) ;;
      match jobDefs with
      | inr _ => ret (Some (total, false))
      | inl [] => ret (Some (total, true))
      | inl jobDefs =>
          total <- purge_defs jobDefs total ;;
          if (List.length jobDefs <? pageSize)%nat then ret (Some (total, true))
          else purge_pages fuel (offset + pageSize) total
      end
  end.
Definition PurgeAll : M (option (Z * bool)) :=
  fun s => purge_pages (S (S (List.length (definitions (db s))))) 0 0 s.

End Retention.
End Retention.

(** ** What a purge does *)
Section Purging.
Import Rows Store Retention.
Context `{env : Env, periods : Periods}.

(** A step that only removes requests for which [p] holds, whatever fails. *)
Definition shrinks (p : RequestRow -> Prop) (d d' : DB) : Prop :=
  (forall r, r ∈ requests d' -> r ∈ requests d) /\
  (forall r, r ∈ requests d -> r ∉ requests d' -> p r) /\
  definitions d' = definitions d /\ NoDup (map r_ID (requests d')) /\ (references_ok d -> references_ok d').

Lemma shrinks_refl p d : NoDup (map r_ID (requests d)) -> shrinks p d d.
Proof. intros Hd. split_and!; done. Qed.
Lemma shrinks_trans p d d1 d2 : NoDup (map r_ID (requests d)) -> shrinks p d d1 -> shrinks p d1 d2 -> shrinks p d d2.
Proof.
  intros Hd (A1 & B1 & C1 & D1 & E1) (A2 & B2 & C2 & D2 & E2). split_and!; [naive_solver| |congruence|done|naive_solver].
  intros r Hr Hn. destruct (decide (r_ID r ∈ map r_ID (requests d1))) as [Hi|Hi].
  - apply list_elem_of_fmap in Hi as (r' & Hid & Hr'). assert (r = r') as ->; [|by apply B2].
    by apply (same_row (requests d)); [| |apply A1|].
  - apply B1; [done|]. intros Hr1. apply Hi. by apply list_elem_of_fmap_2.
Qed.
Lemma shrinks_weaken (p q : RequestRow -> Prop) d d' : (forall r, p r -> q r) -> shrinks p d d' -> shrinks q d d'.
Proof. intros Hpq (A & B & C & D & E). split_and!; auto. Qed.

(** An operation that only shrinks. *)
Definition shrinking {A} (p : RequestRow -> Prop) (m : M A) : Prop :=
  forall s, NoDup (map r_ID (requests (db s))) -> shrinks p (db s) (db (snd (m s))).
Lemma shrinking_bind {A B} p (m : M A) (k : A -> M B) :
  shrinking p m -> (forall a, shrinking p (k a)) -> shrinking p (bind m k).
Proof.
  intros Hm Hk s Hs. unfold bind. specialize (Hm s Hs). destruct (m s) as [[a|e] s1]; [|done]. cbn [snd] in Hm.
  eapply shrinks_trans; [done|exact Hm|]. apply Hk. apply Hm.
Qed.
Lemma shrinking_ret {A} p (a : A) : shrinking p (ret a).
Proof. intros s Hs. by apply shrinks_refl. Qed.
Lemma shrinking_try {A} p (m : M A) : shrinking p m -> shrinking p (try m).
Proof. intros Hm s Hs. unfold try. specialize (Hm s Hs). by destruct (m s). Qed.

(** A request of a type, in a state, last changed before a time. *)
Definition expired (jobType : string) (state : RequestState) (before : Z) (r : RequestRow) : Prop :=
  r_JobType r = jobType /\ r_JobState r = state /\ State.IsTerminal state = true /\ r_UpdatedAt r < before.

Lemma purge_shrinking jobType state before limit :
  shrinking (expired jobType state before) (Requests.PurgeOldRequests jobType state before limit).
Proof.
  intros s Hs. destruct (Requests.PurgeOldRequests jobType state before limit s) as [r s'] eqn:E. cbn [snd].
  pose proof (purge_inl _ _ _ _ _ _ _ E) as HI. apply purge_removes_only_old_requests in E; [|done].
  destruct r as [n|e]; [|rewrite E; by apply shrinks_refl]. destruct E as (Ht & Hgone & Hsub & _ & _ & Href), HI as (_ & Hdb & _).
  split_and!; [done| |by rewrite Hdb|rewrite Hdb; cbn|done].
  - intros r Hr Hn. destruct (Hgone r Hr Hn) as (? & ? & ?). by split_and!.
  - eapply sublist_NoDup; [exact Hs|]. apply fmap_sublist, filter_sublist.
Qed.

Lemma purge_batches_shrinking fuel asked total jobType state before :
  shrinking (expired jobType state before) (purge_batches fuel asked total jobType state before).
Proof.
  revert asked total. induction fuel as [|fuel IH]; intros asked total; cbn [purge_batches]; [apply shrinking_ret|].
  destruct (context_ended asked); [apply shrinking_ret|]. apply shrinking_bind; [apply shrinking_try, purge_shrinking|].
  intros [n|e]; [|apply shrinking_ret]. destruct (n <? batchSize); [apply shrinking_ret|apply IH].
Qed.

(** What the periods of the active definitions in the table allow to remove:
    an ended request whose last change is more days ago than its period. *)
Definition out_of_time (defs : list DefRow) (r : RequestRow) : Prop :=
  exists jd, jd ∈ defs /\ d_Active jd = true /\ d_JobType jd = r_JobType r /\
    (r_JobState r = State.FAILED \/ r_JobState r = State.COMPLETED \/ r_JobState r = State.CANCELLED) /\
    0 < GetRetentionDays jd (r_JobState r) /\
    GetRetentionDays jd (r_JobState r) * (24 * 3600 * 1000000000) < now - r_UpdatedAt r.

Lemma purge_states_shrinking defs jd states total :
  jd ∈ defs -> d_Active jd = true -> (forall x, x ∈ states -> x ∈ terminalStates) ->
  shrinking (out_of_time defs) (purge_states jd states total).
Proof.
  intros Hjd Hact. revert total. induction states as [|state states IH]; intros total Hst; cbn [purge_states]; [apply shrinking_ret|].
  assert (forall x, x ∈ states -> x ∈ terminalStates) as Hst' by (intros x Hx; apply Hst; by right).
  destruct (GetRetentionDays jd state <=? 0) eqn:Ed; [by apply IH|]. apply Z.leb_gt in Ed.
  apply shrinking_bind; [|intros [[n [|]]|]; by apply IH].
  intros s Hs. unfold purgeState. eapply shrinks_weaken; [|by apply purge_batches_shrinking].
  intros r (Ht & Hr & Hterm & Ho). exists jd. rewrite Hr. split_and!; try done.
  - assert (state ∈ terminalStates) as Hin by (apply Hst; by left). unfold terminalStates in Hin. set_solver.
  - unfold olderThan in Ho. lia.
Qed.
Lemma purge_defs_shrinking defs jds total :
  (forall x, x ∈ jds -> x ∈ defs /\ d_Active x = true) -> shrinking (out_of_time defs) (purge_defs jds total).
Proof.
  revert total. induction jds as [|jd jds IH]; intros total Hin; cbn [purge_defs]; [apply shrinking_ret|].
  destruct (Hin jd) as [Hd Ha]; [by left|].
  apply shrinking_bind; [by apply purge_states_shrinking|]. intros t. apply IH. intros x Hx. apply Hin. by right.
Qed.

Lemma Query_defs qc q page size s r s' :
  Definitions.Query qc q page size s = (r, s') ->
  db s' = db s /\ forall jds, r = inl jds -> jds = take size (drop (page * size) (Definitions.matching qc q (db s))).
Proof.
  intros HR. assert (preserves (fun x => x = db s) (Definitions.Query qc q page size)) as HP.
  { unfold Definitions.Query. store_split; done. }
  specialize (HP s eq_refl). rewrite HR in HP. split; [done|]. intros jds ->. unfold Definitions.Query in HR.
  unfold bind at 1, query at 1, exec at 1 in HR. destruct (err _); [discriminate|].
  unfold bind, try in HR. destruct (query _ _ _) as [x y]. by injection HR as <- _.
Qed.
Lemma matching_elem qc q d x : x ∈ Definitions.matching qc q d -> x ∈ definitions d /\ d_Active x = true.
Proof.
  unfold Definitions.matching. rewrite sort_slice_perm. intros [Hx Hp]%elem_of_select. split; [done|]. go_bool. tauto.
Qed.

Lemma purge_pages_shrinking fuel offset total s :
  NoDup (map r_ID (requests (db s))) ->
  shrinks (out_of_time (definitions (db s))) (db s) (db (snd (purge_pages fuel offset total s))).
Proof.
  revert offset total s. induction fuel as [|fuel IH]; intros offset total s Hs; cbn [purge_pages]; [by apply shrinks_refl|].
  unfold bind at 1, try. destruct (Definitions.Query _ _ _ _ s) as [x s1] eqn:EQ. apply Query_defs in EQ as [Hd Hx].
  rewrite <- Hd in Hs |- *. destruct x as [jds|e]; [|by apply shrinks_refl]. specialize (Hx jds eq_refl).
  assert (forall x, x ∈ jds -> x ∈ definitions (db s1) /\ d_Active x = true) as Hin.
  { intros x Hxin. rewrite Hx in Hxin. apply elem_of_take in Hxin as (i & Hi & _). rewrite lookup_drop in Hi.
    rewrite Hd. by apply list_elem_of_lookup_2, matching_elem in Hi. }
  destruct jds as [|jd jds]; [by apply shrinks_refl|]. unfold bind.
  pose proof (purge_defs_shrinking (definitions (db s1)) (jd :: jds) total Hin s1 Hs) as HP.
  destruct (purge_defs (jd :: jds) total s1) as [[t|e] s2]; [|done]. cbn [snd] in HP.
  destruct (_ <? _)%nat; [done|]. eapply shrinks_trans; [done|exact HP|]. destruct HP as (_ & _ & HD & HN & _).
  rewrite <- HD. by apply IH.
Qed.

(** C13: a retention run removes a request only when it has failed, been completed
    or been cancelled, and its last change is more days ago than the period that an
    active definition of its type gives for that state; definitions stay, and
    no row is left without the row it belongs to, whatever statement fails. *)
Theorem retention_removes_only_expired s
  (keys : NoDup (map r_ID (requests (db s)))) :
  let s' := snd (PurgeAll s) in
  (forall r, r ∈ requests (db s') -> r ∈ requests (db s)) /\
  (forall r, r ∈ requests (db s) -> r ∉ requests (db s') -> out_of_time (definitions (db s)) r) /\
  definitions (db s') = definitions (db s) /\ (references_ok (db s) -> references_ok (db s')).
Proof. cbv zeta. destruct (purge_pages_shrinking (S (S (List.length (definitions (db s))))) 0 0 s keys) as (A & B & C & D & E). by split_and!. Qed.

End Purging.

(** ** Without failures *)
Section Draining.
Import Rows Store Retention.
Context `{env : Env, periods : Periods}.
Context (no_errors : forall n, err n = false) (goes_on : forall n, context_ended n = false).

Definition succeeds {A} (m : M A) : Prop := forall s, exists a s', m s = (inl a, s').
Lemma succeeds_bind {A B} (m : M A) (k : A -> M B) : succeeds m -> (forall a, succeeds (k a)) -> succeeds (bind m k).
Proof. intros Hm Hk s. unfold bind. destruct (Hm s) as (a & s1 & ->). apply Hk. Qed.
Lemma succeeds_ret {A} (a : A) : succeeds (ret a).
Proof. intros s. by exists a, s. Qed.
Lemma succeeds_exec {A} e (f : DB -> A * DB) : succeeds (exec e f).
Proof. intros s. unfold exec. rewrite no_errors. destruct (f (db s)). by eexists _, _. Qed.
Lemma succeeds_transaction {A} (m : M A) : succeeds m -> succeeds (transaction m).
Proof. intros Hm s. unfold transaction. destruct (Hm s) as (a & s1 & ->). rewrite no_errors. by eexists _, _. Qed.

Lemma purge_succeeds jobType state before limit :
  State.IsTerminal state = true -> succeeds (Requests.PurgeOldRequests jobType state before limit).
Proof.
  intros Ht. unfold Requests.PurgeOldRequests, Requests.purge_tasks, Requests.purge_executions. rewrite Ht. cbn [negb].
  apply succeeds_transaction. repeat lazymatch goal with
    | |- succeeds (bind _ _) => apply succeeds_bind; [|intros ?]
    | |- succeeds (ret _) => apply succeeds_ret
    | |- succeeds (exec _ _) => apply succeeds_exec
    | |- succeeds (query _ _) => apply succeeds_exec
    | |- succeeds (match ?x with _ => _ end) => destruct x
    end.
Qed.

(** A batch that is not full has removed all that there was. *)
Lemma last_batch jobType state before s n s' :
  NoDup (map r_ID (requests (db s))) ->
  Requests.PurgeOldRequests jobType state before batchSize s = (inl n, s') -> n < batchSize ->
  forall r, r ∈ requests (db s') -> Requests.old_request jobType state before r = false.
Proof.
  intros HN HP Hn r Hr. apply purge_inl in HP as (_ & Hdb & Hcount). cbv zeta in *.
  set (old := Sql.select (Requests.old_request jobType state before) (requests (db s))) in *.
  assert (selected jobType state before batchSize (db s) = take 500 (map r_ID old)) as Hsel by done.
  rewrite Hsel in *. rewrite Hdb in Hr. cbn in Hr. apply elem_of_remove in Hr as [Hr Hk].
  destruct (Requests.old_request jobType state before r) eqn:Eo; [|done]. exfalso.
  assert (List.length (take 500 (map r_ID old)) <= Z.to_nat n)%nat as Hle.
  { rewrite Hcount. unfold Sql.count. rewrite Nat2Z.id, <- (length_map r_ID (List.filter _ _)).
    apply (submseteq_length (A := string)), NoDup_submseteq.
    - eapply sublist_NoDup; [|apply sublist_take]. eapply sublist_NoDup; [exact HN|]. apply fmap_sublist, filter_sublist.
    - intros x Hx. assert (x ∈ map r_ID old) as Hold.
      { apply elem_of_take in Hx as (i & Hi & _). by apply list_elem_of_lookup_2 in Hi. }
      apply list_elem_of_fmap in Hold as (y & -> & [Hy _]%elem_of_select). apply list_elem_of_fmap. exists y. split; [done|].
      apply elem_of_select. split; [done|]. by apply one_of_iff. }
  assert (0 <= n) as Hn0 by (rewrite Hcount; unfold Sql.count; lia).
  unfold batchSize in Hn. rewrite length_take in Hle.
  rewrite (take_ge (map r_ID old)) in Hk by lia. apply eq_true_false_abs in Hk; [done|]. apply one_of_iff, list_elem_of_fmap.
  exists r. split; [done|]. apply elem_of_select. by split.
Qed.

Lemma purge_batches_drain fuel asked total jobType state before s :
  NoDup (map r_ID (requests (db s))) -> State.IsTerminal state = true -> (List.length (requests (db s)) < fuel)%nat ->
  exists n s', purge_batches fuel asked total jobType state before s = (inl (Some (total + n, true)), s') /\
    (forall r, r ∈ requests (db s') -> Requests.old_request jobType state before r = false) /\
    n = Z.of_nat (List.length (requests (db s))) - Z.of_nat (List.length (requests (db s'))).
Proof.
  revert asked total s. induction fuel as [|fuel IH]; intros asked total s HN Ht Hf; [lia|]. cbn [purge_batches]. rewrite goes_on.
  destruct (purge_succeeds jobType state before batchSize Ht s) as (n & s1 & E). unfold bind at 1, try. rewrite E.
  destruct (purge_removes_only_old_requests _ _ _ _ _ _ _ HN E) as (_ & _ & _ & Hn & _).
  destruct (n <? batchSize) eqn:El.
  - apply Z.ltb_lt in El. exists n, s1. split_and!; [done| |done]. by eapply last_batch.
  - apply Z.ltb_ge in El. unfold batchSize in El.
    pose proof (purge_shrinking jobType state before batchSize s HN) as HS. rewrite E in HS. cbn [snd] in HS. destruct HS as (_ & _ & _ & HN1 & _).
    destruct (IH (S asked) (total + n) s1) as (n' & s' & -> & Hall & Hn'); [done|done|lia|].
    exists (n + n'), s'. split_and!; [by rewrite Z.add_assoc|done|lia].
Qed.

(** When no statement fails, the purge of a type and a terminal state ends,
    leaves exactly the requests that are not old ones of that type and state,
    and reports how many it removed. *)
Theorem purge_state_drains jobType state before s
  (keys : NoDup (map r_ID (requests (db s))))
  (terminal : State.IsTerminal state = true) :
  exists n s', purgeState jobType state before s = (inl (Some (n, true)), s') /\
    (forall r, r ∈ requests (db s') <-> r ∈ requests (db s) /\ Requests.old_request jobType state before r = false) /\
    n = Z.of_nat (List.length (requests (db s))) - Z.of_nat (List.length (requests (db s'))).
Proof.
  destruct (purge_batches_drain (S (List.length (requests (db s)))) 0 0 jobType state before s) as (n & s' & E & Hall & Hn); [done..|lia|].
  exists n, s'. split_and!; [exact E| |done].
  pose proof (purge_batches_shrinking (S (List.length (requests (db s)))) 0 0 jobType state before s keys) as HS.
  rewrite E in HS. cbn [snd] in HS. destruct HS as (Hsub & Hgone & _). intros r. split; [intros Hr; split; [by apply Hsub|by apply Hall]|].
  intros [Hr Hno]. destruct (decide (r_ID r ∈ map r_ID (requests (db s')))) as [(r' & Hid & Hr')%list_elem_of_fmap|Hout].
  - rewrite (same_row (requests (db s)) r r' keys Hr (Hsub r' Hr') Hid). done.
  - assert (r ∉ requests (db s')) as Hn' by (intros Hr'; apply Hout; by apply list_elem_of_fmap_2).
    destruct (Hgone r Hr Hn') as (H1 & H2 & _ & H4). unfold Requests.old_request in Hno. rewrite H1, H2, !eqb_string_refl in Hno.
    cbn in Hno. apply Z.ltb_ge in Hno. lia.
Qed.

End Draining.

(** ** The definitions that are visited *)
Section Pages.
Import Rows Store Retention.
Context `{env : Env, periods : Periods}.
Abbreviation admin := (Manager.WithAdmin (Manager.NewQueryContextFromIDs "" "")).

(** The second page asked for is the one with number 1000: with at most a
    million definitions it is empty, and only the first thousand are visited. *)
Theorem retention_visits_a_thousand_definitions s :
  NoDup (map r_ID (requests (db s))) -> (List.length (definitions (db s)) <= Z.to_nat 1000000)%nat ->
  forall r, r ∈ requests (db s) -> r ∉ requests (db (snd (PurgeAll s))) ->
    out_of_time (take pageSize (Definitions.matching admin d_Active (db s))) r.
Proof.
  intros Hs Hlen. enough (shrinks (out_of_time (take pageSize (Definitions.matching admin d_Active (db s)))) (db s) (db (snd (PurgeAll s))))
    as (_ & HB & _) by exact HB.
  unfold PurgeAll. cbn [purge_pages]. unfold bind at 1, try. destruct (Definitions.Query _ _ _ _ s) as [x s1] eqn:EQ.
  apply Query_defs in EQ as [Hd Hx]. rewrite <- Hd in Hs |- *. destruct x as [jds|e]; [|by apply shrinks_refl].
  specialize (Hx jds eq_refl). rewrite Nat.mul_0_l, drop_0, <- Hd in Hx. rewrite <- Hx.
  destruct jds as [|jd jds]; [by apply shrinks_refl|]. unfold bind at 1.
  assert (forall x, x ∈ jd :: jds -> x ∈ jd :: jds /\ d_Active x = true) as Hin.
  { intros x H. split; [done|]. rewrite Hx in H. apply elem_of_take in H as (i & Hi & _). by apply list_elem_of_lookup_2, matching_elem in Hi as [_ ?]. }
  pose proof (purge_defs_shrinking (jd :: jds) (jd :: jds) 0 Hin s1 Hs) as HP.
  destruct (purge_defs (jd :: jds) 0 s1) as [[t|e] s2]; [|done]. cbn [snd] in HP. destruct (_ <? _)%nat; [done|].
  unfold bind at 1, try. destruct (Definitions.Query _ _ (0 + pageSize) _ s2) as [y s3] eqn:EQ2. apply Query_defs in EQ2 as [Hd2 Hy].
  destruct y as [l|e]; [|cbn [ret snd]; by rewrite Hd2]. specialize (Hy l eq_refl). rewrite drop_ge, take_nil in Hy.
  - subst l. cbn [ret snd]. by rewrite Hd2.
  - destruct HP as (_ & _ & HD & _). rewrite matching_length, HD, Hd. unfold pageSize. rewrite Nat.add_0_l, <- Z2Nat.inj_mul by lia. done.
Qed.

End Pages.

(** ** Examples *)
Module RetentionDemo.
Import Rows Store Retention.
#[local] Existing Instance demo_env.
#[local] Instance demo_periods : Periods :=
  {| RetentionDaysForFailed := fun jd => if d_ID jd == "short" then 1 else 365; RetentionDaysForCompleted := fun _ => 0;
     RetentionDaysForCancelled := fun _ => 0; context_ended := fun _ => false |}.

Definition job (id user : string) : DefRow :=
  mkDefRow id "build" "" false "" "" 0 5 false true user "" "" "" "" ["compile"].
Definition request (id user : string) (state : RequestState) (updated : Z) : RequestRow :=
  mkRequestRow id "" ("key-" +:+ id) "def" None None "" user "build" "" state 0 0 0 0 false None None "" 10 10 updated false false.
(** Two days before the time of the example. *)
Definition two_days_ago : Z := 1000000000000 - 2 * 86400000000000.
Definition history : list RequestRow :=
  [request "r1" "alice" State.FAILED two_days_ago; request "r2" "alice" State.EXECUTING two_days_ago;
   request "r3" "alice" State.COMPLETED two_days_ago].
Definition stored (defs : list DefRow) (rows : list RequestRow) : St :=
  mkSt (mkDB rows [] [] defs [] [] [] [] [] [] [] []) 0 0.

Lemma retention_removes_only_expired_witness :
  map r_ID (requests (db (snd (PurgeAll (stored [job "short" "alice"] history))))) = ["r2"; "r3"] /\
  let s' := snd (PurgeAll (stored [job "short" "alice"] history)) in
  (forall r, r ∈ requests (db s') -> r ∈ history) /\
  (forall r, r ∈ history -> r ∉ requests (db s') -> out_of_time [job "short" "alice"] r) /\
  definitions (db s') = [job "short" "alice"] /\ (references_ok (db (stored [job "short" "alice"] history)) -> references_ok (db s')).
Proof.
  split; [vm_compute; reflexivity|]. apply (retention_removes_only_expired (stored [job "short" "alice"] history)).
  apply (bool_decide_unpack _). vm_compute. exact Logic.I.
Defined.

Lemma purge_state_drains_witness :
  State.IsTerminal State.FAILED = true /\
  exists n s', purgeState "build" State.FAILED 0 (stored [] history) = (inl (Some (n, true)), s') /\
    (forall r, r ∈ requests (db s') <-> r ∈ history /\ Requests.old_request "build" State.FAILED 0 r = false) /\
    n = Z.of_nat (List.length history) - Z.of_nat (List.length (requests (db s'))).
Proof.
  split; [reflexivity|].
  refine (purge_state_drains (fun _ => eq_refl) (fun _ => eq_refl) "build" State.FAILED 0 (stored [] history) _ eq_refl).
  apply (bool_decide_unpack _). vm_compute. exact Logic.I.
Defined.

(** The period of one tenant's definition applies to the requests of another
    tenant with a definition of the same type. *)
Example other_tenant_is_purged :
  requests (db (snd (PurgeAll (stored [job "short" "alice"; job "long" "bob"] [request "r4" "bob" State.FAILED two_days_ago])))) = [].
Proof. vm_compute. reflexivity. Qed.

End RetentionDemo.
