(* ===== verification/Ant.v ===== *)
(** * Ant: what a worker keeps about its tasks and containers

    Models [src/internal/tasklet] and the state of [src/ants]: the registry of
    requests in progress ([request_registry.go], [Module InProgress]), the
    registry of running containers ([src/ants/registry], [Module Running]), the
    reaper of containers ([src/ants/executor/utils], [Module Reaper]), the
    tasklet that receives, executes and answers requests ([base_tasklet.go] and
    [tasklet_subscription.go], [Module Worker]) and the ant's own executor of the
    tasklet ([src/ants/handler/request_handler.go], [Module AntHandler]).

    The registry holds pointers: a request that two goroutines share is one cell
    of a heap.  Each request is handled by its own goroutine, whose calls on
    shared state are separate steps, since other goroutines act between them. *)

From Stdlib Require Import Ascii.
From S2P Require Import Prelude RequestState Tags Lru Resource JobDefinition Tables JobRequest TaskMessage.

Open Scope Z_scope.

(** ** Requests in progress *)
Module InProgress.
Import Message.

(** A request as the ant holds it: its context ends when it is cancelled. *)
Record Cell := mkCell {
  cell_request : TaskRequest;
  cell_Status : RequestState;
  has_Cancel : bool;
  ended : bool;
  Cancelled : bool
}.

Record Registry := mkRegistry { cells : gmap nat Cell; requests : gmap string nat }.
Definition set_cell (p : nat) (c : Cell) (r : Registry) : Registry := mkRegistry (<[p := c]> (cells r)) (requests r).
Definition NewRequestRegistry : Registry := mkRegistry ∅ ∅.

Inductive registry_error := RequestMissing | KeyMissing | KeyExists | KeyNotFound (key : string) | CancelMissing.

(** The call of the function [req.Cancel]. *)
Definition cancel (c : Cell) : Cell := mkCell (cell_request c) (cell_Status c) (has_Cancel c) true (Cancelled c).
Definition mark_cancelled (c : Cell) : Cell := mkCell (cell_request c) (cell_Status c) (has_Cancel c) (ended c) true.
Definition ready (c : Cell) : Cell := mkCell (cell_request c) State.READY (has_Cancel c) (ended c) (Cancelled c).

(** A pointer that is not in the heap is nil. *)
Definition Add (p : nat) (r : Registry) : (unit + registry_error) * Registry :=
  match cells r !! p with
  | None => (inr RequestMissing, r)
  | Some req =>
      let key := Key (cell_request req) in
      if key == "" then (inr KeyMissing, r)
      else match requests r !! key with
           | Some _ => (inr KeyExists, r)
           | None => (inl tt, mkRegistry (<[p := ready req]> (cells r)) (<[key := p]> (requests r)))
           end
  end.

Definition Cancel (key : string) (r : Registry) : (unit + registry_error) * Registry :=
  if key == "" then (inr KeyMissing, r)
  else match requests r !! key ≫= fun p => pair p <$> cells r !! p with
       | None => (inr (KeyNotFound key), r)
       | Some (p, req) =>
           if negb (has_Cancel req) then (inr CancelMissing, r)
           else (inl tt, set_cell p (mark_cancelled (cancel req)) r)
       end.

(** [CancelJob] stops at the first request of the job that the range meets. *)
Section Job.
Context `{RangeOrder}.
Definition of_job (requestID : string) (r : Registry) (kp : string * nat) : bool :=
  match cells r !! snd kp with
  | Some req => (JobRequestID (cell_request req) == requestID) && has_Cancel req
  | None => false
  end.
Definition CancelJob (requestID : string) (r : Registry) : Registry :=
  match List.find (of_job requestID r) (range (requests r)) with
  | None => r
  | Some (_, p) =>
      match cells r !! p with
      | None => r
      | Some req => mkRegistry (<[p := cancel req]> (cells r)) (delete (Key (cell_request req)) (requests r))
      end
  end.

Definition Remove (p : nat) (r : Registry) : (unit + registry_error) * Registry :=
  match cells r !! p with
  | None => (inr RequestMissing, r)
  | Some req =>
      let key := Key (cell_request req) in
      if key == "" then (inr KeyMissing, r)
      else match requests r !! key with
           | None => (inr (KeyNotFound key), r)
           | Some _ => (inl tt, mkRegistry (cells r) (delete key (requests r)))
           end
  end.

Definition Count (r : Registry) : Z := Z.of_nat (size (requests r)).

(** One allocation for each job: a later task of the job replaces it. *)
Definition GetAllocations (now : Z) (antID antTopic : string) (r : Registry) : gmap string Ants.AntAllocation :=
  foldl (fun m kp =>
           match cells r !! snd kp with
           | Some req =>
               <[JobRequestID (cell_request req) :=
                   Ants.NewAntAllocation now antID antTopic (JobRequestID (cell_request req)) (TaskType (cell_request req))]> m
           | None => m
           end) ∅ (range (requests r)).
End Job.
End InProgress.

(** ** Running containers *)
Module Running.
Import Containers.

Abbreviation ContainerStatus := string (only parsing).
Definition ContainerNonExistent : ContainerStatus := "NON_EXISTENT".
Definition ContainerExistsWithGoodAnt : ContainerStatus := "EXISTS_WITH_GOOD_ANT".
Definition OrphanContainer : ContainerStatus := "ORPHAN_CONTAINER".

(** A registration with the time its ant was started. *)
Record Registered := mkRegistered { registration : Ants.AntRegistration; AntStartedAt : Z }.
Record Registry := mkRegistry {
  registrations : gmap string Registered;
  containersEvents : gmap string ContainerLifecycleEvent
}.
Definition NewAntContainersRegistry : Registry := mkRegistry ∅ ∅.

(** [executor.State] of a container. *)
Abbreviation State_ := string (only parsing).
Definition Creating : State_ := "CREATING".
Definition Running_ : State_ := "RUNNING".
Definition Removing_ : State_ := "REMOVING".
Definition Unknown_ : State_ := "UNKNOWN".
Definition Pending_ : State_ := "PENDING".
Definition Succeeded : State_ := "SUCCEEDED".
Definition Failed_ : State_ := "FAILED".
Definition ContainerFailed : State_ := "CONTAINER_FAILED".
Definition ReadyOrRunning (s : State_) : bool := (s == Creating) || (s == Running_) || (s == Pending_).
Definition Done_ (s : State_) : bool := (s == Removing_) || (s == Unknown_) || (s == Succeeded) || (s == Failed_).

(** What [executor.Info] tells of a container. *)
Record Info := mkInfo {
  GetID : string;
  GetName : string;
  info_State : State_;
  GetStartedAt : Z;
  GetEndedAt : option Z;
  GetLabels : gmap string string
}.

Section Registry.
Context `{RangeOrder} (now : Z).

Definition GetContainerEvents (r : Registry) : list ContainerLifecycleEvent :=
  sort_slice (fun a b => Unix (CreatedAt b) <? Unix (CreatedAt a)) (map snd (range (containersEvents r))).

(** [false]: a state that is neither started nor final is refused. *)
Definition UpdateContainer (e : ContainerLifecycleEvent) (r : Registry) : bool * Registry :=
  if ContainerState e == State.STARTED then (true, mkRegistry (registrations r) (<[Key e := e]> (containersEvents r)))
  else if State.IsTerminal (ContainerState e) then (true, mkRegistry (registrations r) (delete (Key e) (containersEvents r)))
  else (false, r).

Definition GetContainerEvent (method : TaskMethod) (containerName : string) (r : Registry) : option ContainerLifecycleEvent :=
  containersEvents r !! ContainerLifecycleEventKey method containerName.

(** The status, and whether an error says that the container runs. *)
Definition CheckIfAlreadyRunning (method : TaskMethod) (containerName : string) (r : Registry) : ContainerStatus * bool :=
  match containersEvents r !! ContainerLifecycleEventKey method containerName with
  | None => (ContainerNonExistent, false)
  | Some e =>
      match registrations r !! ce_AntID e with
      | None => (OrphanContainer, true)
      | Some reg =>
          if Unix (AntStartedAt reg) <? Unix (CreatedAt e) then (ContainerExistsWithGoodAnt, true)
          else (OrphanContainer, true)
      end
  end.

Definition registerAnt (x : Registered) (r : Registry) : Registry :=
  let x := mkRegistered (Ants.set_ReceivedAt (registration x) now) (AntStartedAt x) in
  mkRegistry (<[Ants.AntID (registration x) := x]> (registrations r)) (containersEvents r).

(** The callbacks of the two topics; [None] is a payload that cannot be read. *)
Definition on_container (e : option ContainerLifecycleEvent) (r : Registry) : Registry :=
  match e with Some e => snd (UpdateContainer e r) | None => r end.
Definition on_registration (x : option Registered) (r : Registry) : Registry :=
  match x with Some x => registerAnt x r | None => r end.

(** [NewContainerLifecycleEvent]: the event is created now. *)
Definition NewContainerLifecycleEvent (userID antID : string) (method : TaskMethod) (containerName containerID : string)
    (state : RequestState) (labels : gmap string string) (startedAt : Z) (endedAt : option Z) : ContainerLifecycleEvent :=
  mkContainerLifecycleEvent now userID antID method containerName containerID state labels startedAt endedAt.

(** At the start: containers without the label of an ant are left out, and a
    state that is neither done nor running counts as started. *)
Definition state_of (s : State_) : RequestState := if Done_ s then State.COMPLETED else State.STARTED.
Definition register_container (method : TaskMethod) (c : Info) (r : Registry) : Registry :=
  let antID := default "" (GetLabels c !! "AntID") in
  if antID == "" then r
  else snd (UpdateContainer
              (NewContainerLifecycleEvent (default "" (GetLabels c !! "UserID")) antID method (GetName c) (GetID c)
                 (state_of (info_State c)) (GetLabels c) (GetStartedAt c) (GetEndedAt c)) r).
Definition registerAlreadyRunningContainers (containersByMethod : gmap string (list Info)) (r : Registry) : Registry :=
  foldl (fun r mc => foldl (fun r c => register_container (fst mc) c r) r (snd mc)) r (range containersByMethod).
End Registry.
End Running.

(** ** The reaper of containers *)
Module Reaper.
Import Running.

Section Reaper.
Context `{RangeOrder} (now MaxJobTimeout : Z).

(** [ElapsedSecs]: whole seconds, as a duration. *)
Definition ElapsedSecs (c : Info) : Z :=
  let t := match GetEndedAt c with Some e => e | None => now end in
  Z.quot (Containers.time_sub t (GetStartedAt c)) 1000000000 * 1000000000.

(** [Get] moves the identifier to the front of the cache. *)
Definition canReap (c : Info) (recent : (@LRU bool)) : bool * (@LRU bool) :=
  if Contains (GetName c) "frm-" then
    if MaxJobTimeout <? ElapsedSecs c then (true, recent)
    else
      let parts := Split (GetName c) "-"%char in
      if (3 <? List.length parts)%nat then
        match Lru.Get recent (nth 1 parts "") with
        | (recent, Some known) => (known, recent)
        | (recent, None) => (false, recent)
        end
      else (false, recent)
  else (false, recent).

(** The callback of the topic of completed jobs. *)
Definition on_completed (ids : option (list string)) (recent : (@LRU bool)) : (@LRU bool) :=
  match ids with
  | Some ids => foldl (fun l id => fst (fst (Lru.Add l id true))) recent ids
  | None => recent
  end.

(** One pass: the containers that are to be stopped. *)
Fixpoint reap_each (method : TaskMethod) (cs : list Info) (acc : list (TaskMethod * Info)) (recent : (@LRU bool))
    : list (TaskMethod * Info) * (@LRU bool) :=
  match cs with
  | [] => (acc, recent)
  | c :: cs =>
      let '(yes, recent) := canReap c recent in
      reap_each method cs (if yes then acc ++ [(method, c)] else acc) recent
  end.
Definition reap (containersByMethod : gmap string (list Info)) (recent : (@LRU bool))
    : list (TaskMethod * Info) * (@LRU bool) :=
  foldl (fun '(acc, recent) mc => reap_each (fst mc) (snd mc) acc recent) ([], recent) (range containersByMethod).
End Reaper.
End Reaper.

(** ** The tasklet

    What [BaseTasklet] asks of its executor.  [W] is the executor's own state;
    the execution of a task is not a call here but a pair of steps, the start
    and the end, since it runs beside everything else. *)
Module Worker.
Import Message InProgress.

Class Executor (W : Type) := {
  PreExecute : TaskRequest -> W -> bool * W;
  TerminateContainer : TaskRequest -> W -> (TaskResponse + string) * W;
  ListContainers : TaskRequest -> W -> (TaskResponse + string) * W
}.

(** Whether the n-th reply can be encoded and sent. *)
Class Network := { sends : nat -> bool }.

(** Where the goroutine of a request is: the message has been read; the
    executor agreed to execute it; the task executes; its reply has been sent. *)
Inductive phase := Received | Checked | Executing | Replied.

(** A goroutine with the topic for its reply. *)
Record Work := mkWork { work_phase : phase; replyTopic : string }.

Record Tasklet {W : Type} := mkTasklet {
  registry : Registry;
  world : W;
  works : gmap nat Work;
  next : nat;
  totalExecuted : Z;
  tried : nat;
  sent : list (nat * string * TaskResponse)
}.
Arguments Tasklet : clear implicits.
Arguments mkTasklet {W}.

Section Tasklet.
Context {W : Type} `{Executor W, Network, RangeOrder}.
Definition set_registry (r : Registry) (t : Tasklet W) : Tasklet W :=
  mkTasklet r (world t) (works t) (next t) (totalExecuted t) (tried t) (sent t).
Definition set_world (w : W) (t : Tasklet W) : Tasklet W :=
  mkTasklet (registry t) w (works t) (next t) (totalExecuted t) (tried t) (sent t).
Definition set_works (l : gmap nat Work) (t : Tasklet W) : Tasklet W :=
  mkTasklet (registry t) (world t) l (next t) (totalExecuted t) (tried t) (sent t).
Definition count_executed (t : Tasklet W) : Tasklet W :=
  mkTasklet (registry t) (world t) (works t) (next t) (totalExecuted t + 1) (tried t) (sent t).
Definition go (p : nat) (ph : phase) (w : Work) (t : Tasklet W) : Tasklet W :=
  set_works (<[p := mkWork ph (replyTopic w)]> (works t)) t.

(** The goroutine of [p] returns: its context ends. *)
Definition leave (p : nat) (t : Tasklet W) : Tasklet W :=
  let cs := match cells (registry t) !! p with Some c => <[p := cancel c]> (cells (registry t)) | None => cells (registry t) end in
  set_registry (mkRegistry cs (requests (registry t))) (set_works (delete p (works t)) t).

(** [sendResponse]: a reply that is not valid is not sent. *)
Definition sendResponse (p : nat) (topic : string) (taskResp : TaskResponse) (t : Tasklet W) : Tasklet W :=
  match response_Validate taskResp with
  | Some _ => t
  | None =>
      mkTasklet (registry t) (world t) (works t) (next t) (totalExecuted t) (S (tried t))
        (if sends (tried t) then sent t ++ [(p, topic, taskResp)] else sent t)
  end.

Definition failed_reply (req : TaskRequest) (message : string) : TaskResponse :=
  set_ErrorMessage message (set_ErrorCode ErrorCodes.ErrorAntExecutionFailed (set_Status State.FAILED (NewTaskResponse req))).
Definition reply_of (req : TaskRequest) (r : TaskResponse + string) : TaskResponse :=
  match r with inl taskResp => taskResp | inr message => failed_reply req message end.

(** The callback of the request topic: a message that can be read and is valid
    gets a goroutine. *)
Definition set_CoRelationID (x : string) (r : TaskRequest) : TaskRequest :=
  mkTaskRequest (UserID r) (OrganizationID r) (JobDefinitionID r) (JobRequestID r) (JobType r) (JobTypeVersion r)
    (JobExecutionID r) (TaskExecutionID r) (TaskType r) x (Action r) (Tags r) (BeforeScript r) (AfterScript r) (Script r)
    (Timeout r) (Variables r) (ExecutorOpts r).
Definition on_request (payload : option TaskRequest) (coRelationID topic : string) (t : Tasklet W) : Tasklet W :=
  match payload with
  | None => t
  | Some req =>
      match Validate req with
      | Some _ => t
      | None =>
          let c := mkCell (set_CoRelationID coRelationID req) "" true false false in
          mkTasklet (set_cell (next t) c (registry t)) (world t) (<[next t := mkWork Received topic]> (works t)) (S (next t))
            (totalExecuted t) (tried t) (sent t)
      end
  end.

(** The first part of [handleRequest]: an execution asks [PreExecute]; the
    other actions are answered at once. *)
Definition begin_request (p : nat) (w : Work) (req : TaskRequest) (t : Tasklet W) : Tasklet W :=
  if Action req == CANCEL then leave p (set_registry (snd (Cancel (Key req) (registry t))) t)
  else if Action req == EXECUTE then
    let '(proceed, x) := PreExecute req (world t) in
    if proceed then go p Checked w (set_world x t) else leave p (set_world x t)
  else if Action req == TERMINATE then
    let '(r, x) := TerminateContainer req (world t) in
    leave p (sendResponse p (replyTopic w) (reply_of req r) (set_world x t))
  else if Action req == PING then
    leave p (sendResponse p (replyTopic w) (set_Status State.COMPLETED (NewTaskResponse req)) t)
  else if Action req == LIST then
    let '(r, x) := ListContainers req (world t) in
    leave p (sendResponse p (replyTopic w) (reply_of req r) (set_world x t))
  else leave p (sendResponse p (replyTopic w) (failed_reply req ("received unknown action " +:+ Action req)) t).

(** The second part: a request that cannot be added is dropped without a reply. *)
Definition add_request (p : nat) (w : Work) (t : Tasklet W) : Tasklet W :=
  match Add p (registry t) with
  | (inr _, r) => leave p (set_registry r t)
  | (inl _, r) => count_executed (go p Executing w (set_registry r t))
  end.

(** The end of the execution: the reply is sent, and then the deferred calls
    remove the request and end its context. *)
Definition end_request (p : nat) (w : Work) (req : TaskRequest) (r : TaskResponse + string) (t : Tasklet W) : Tasklet W :=
  go p Replied w (sendResponse p (replyTopic w) (reply_of req r) t).
Definition remove_request (p : nat) (t : Tasklet W) : Tasklet W :=
  leave p (set_registry (snd (Remove p (registry t))) t).

(** The callbacks of the life cycles of jobs and tasks. *)
Definition on_job_event (e : option (string * RequestState)) (t : Tasklet W) : Tasklet W :=
  match e with
  | Some (requestID, state) =>
      if (state == State.CANCELLED) || (state == State.PAUSED) || (state == State.MANUAL_APPROVAL_REQUIRED)
      then set_registry (CancelJob requestID (registry t)) t
      else t
  | None => t
  end.
Definition on_task_event (e : option (string * RequestState)) (t : Tasklet W) : Tasklet W :=
  match e with
  | Some (key, state) =>
      if (state == State.CANCELLED) || (state == State.PAUSED) then set_registry (snd (Cancel key (registry t))) t else t
  | None => t
  end.

(** The registration that the ticker publishes. *)
Definition sendRegisterAntRequest (now : Z) (topic : string) (reg : Ants.AntRegistration) (t : Tasklet W) : Ants.AntRegistration :=
  Ants.mkAntRegistration (Ants.AntID reg) topic (Ants.EncryptionKey reg) (Ants.MaxCapacity reg) (Ants.reg_Tags reg)
    (Ants.Methods reg) (Count (registry t)) (totalExecuted t)
    (Some <$> GetAllocations now (Ants.AntID reg) topic (registry t))
    (Ants.ReceivedAt reg) (Ants.ValidRegistration reg).

(** ** Steps of the goroutines and callbacks *)
Inductive event :=
| Incoming (payload : option TaskRequest) (coRelationID topic : string)
| Begin (p : nat)
| Admit (p : nat)
| Finish (p : nat) (r : TaskResponse + string)
| Return (p : nat)
| JobEvent (e : option (string * RequestState))
| TaskEvent (e : option (string * RequestState))
| Outside (w : W).

(** A step that the phase of its goroutine does not allow does nothing. *)
Definition at_phase (p : nat) (ph : phase) (k : Work -> TaskRequest -> Tasklet W) (t : Tasklet W) : Tasklet W :=
  match works t !! p, cells (registry t) !! p with
  | Some w, Some c =>
      match ph, work_phase w with
      | Received, Received | Checked, Checked | Executing, Executing | Replied, Replied => k w (cell_request c)
      | _, _ => t
      end
  | _, _ => t
  end.
Definition step (e : event) (t : Tasklet W) : Tasklet W :=
  match e with
  | Incoming payload coRelationID topic => on_request payload coRelationID topic t
  | Begin p => at_phase p Received (fun w req => begin_request p w req t) t
  | Admit p => at_phase p Checked (fun w _ => add_request p w t) t
  | Finish p r => at_phase p Executing (fun w req => end_request p w req r t) t
  | Return p => at_phase p Replied (fun _ _ => remove_request p t) t
  | JobEvent e => on_job_event e t
  | TaskEvent e => on_task_event e t
  | Outside w => set_world w t
  end.
Definition initial (w : W) : Tasklet W := mkTasklet NewRequestRegistry w ∅ 0 0 0 [].
Fixpoint run (es : list event) (t : Tasklet W) : Tasklet W :=
  match es with [] => t | e :: es => run es (step e t) end.
End Tasklet.
Arguments event : clear implicits.
End Worker.

(** ** The executor of an ant *)
Module AntHandler.
Import Message Worker.

(** The containers it knows, those it was told to stop, and the events it
    published about them. *)
Record Ant := mkAnt {
  containers : Running.Registry;
  stops : list (TaskMethod * string);
  published : list Containers.ContainerLifecycleEvent
}.

(** [StopContainer] answers with an error or none; the name of a container is
    in the options of the request; events are shown as JSON. *)
Class Machine := {
  ant_id : string;
  clock : Z;
  stop_error : TaskMethod -> string -> option string;
  Name : TaskRequest -> string;
  json_events : list Containers.ContainerLifecycleEvent -> string + string;
  publishes : nat -> bool
}.

Section AntHandler.
Context `{Machine, RangeOrder}.
Definition StopContainer (method : TaskMethod) (name : string) (a : Ant) : option string * Ant :=
  (stop_error method name, mkAnt (containers a) (stops a ++ [(method, name)]) (published a)).
Definition sendContainerEvent (userID : string) (method : TaskMethod) (status : RequestState)
    (c : Containers.ContainerLifecycleEvent) (a : Ant) : Ant :=
  if publishes (List.length (published a)) then
    mkAnt (containers a) (stops a)
      (published a ++
         [Running.NewContainerLifecycleEvent clock userID ant_id method (Containers.ContainerName c) (Containers.ContainerID c)
            status (Containers.Labels c) (Containers.StartedAt c) (Containers.EndedAt c)])
  else a.

Definition PreExecute (req : TaskRequest) (a : Ant) : bool * Ant :=
  let method := opt_Method (ExecutorOpts req) in
  match Running.CheckIfAlreadyRunning method (Name req) (containers a) with
  | (status, true) =>
      if status == Running.ContainerExistsWithGoodAnt then (false, a)
      else (true, snd (StopContainer method (Name req) a))
  | (_, false) => (true, a)
  end.

Definition with_code (status : RequestState) (code message : string) (req : TaskRequest) : TaskResponse :=
  set_ErrorMessage message (set_ErrorCode code (set_Status status (NewTaskResponse req))).

(** When the container cannot be stopped the error is returned with a reply;
    the tasklet then makes its own. *)
Definition TerminateContainer (req : TaskRequest) (a : Ant) : (TaskResponse + string) * Ant :=
  let method := opt_Method (ExecutorOpts req) in
  match Running.GetContainerEvent method (Name req) (containers a) with
  | None =>
      (inl (with_code State.FAILED ErrorCodes.ErrorContainerNotFound
              ("failed to find container for " +:+ Name req +:+ " method " +:+ method) req), a)
  | Some c =>
      match StopContainer method (Name req) a with
      | (Some e, a) => (inr e, a)
      | (None, a) =>
          (inl (set_Status State.COMPLETED (NewTaskResponse req)), sendContainerEvent (UserID req) method State.CANCELLED c a)
      end
  end.

Definition ListContainers (req : TaskRequest) (a : Ant) : (TaskResponse + string) * Ant :=
  match json_events (Running.GetContainerEvents (containers a)) with
  | inl containers => (inl (AddContext "containers" (NameValue.VString containers) (set_Status State.COMPLETED (NewTaskResponse req))), a)
  | inr e => (inr e, a)
  end.

#[export] Instance ant_executor : Executor Ant :=
  {| Worker.PreExecute := PreExecute; Worker.TerminateContainer := TerminateContainer; Worker.ListContainers := ListContainers |}.
End AntHandler.
End AntHandler.
