(* ===== verification/AntSpec.v ===== *)
(** * AntSpec: theorems about the tasks and containers of an ant *)

From Stdlib Require Import Ascii.
From S2P Require Import Prelude RequestState Tags Lru LruSpec Resource JobDefinition Tables JobRequest TaskMessage Ant.

Open Scope Z_scope.
Import Message InProgress Worker.

(** The one element with a key, where keys are unique. *)
Lemma filter_unique {A B} `{EqDecision B} (f : A -> B) (l : list A) x :
  NoDup (map f l) -> x ∈ l -> filter (fun y => f y = f x) l = [x].
Proof.
  induction l as [|a l IH]; cbn [map]; [by intros _ ?%elem_of_nil|]. intros [Ha Hl]%NoDup_cons Hx. rewrite filter_cons.
  apply elem_of_cons in Hx as [->|Hx].
  - rewrite decide_True by done. f_equal. clear IH Hl. induction l as [|y l IH]; [done|]. cbn [map] in Ha.
    apply not_elem_of_cons in Ha as [Hy Ha]. rewrite filter_cons, decide_False by congruence. by apply IH.
  - rewrite decide_False; [by apply IH|]. intros E. apply Ha. rewrite E. by apply list_elem_of_fmap_2.
Qed.

(** ** Requests that do not change *)

(** What no operation changes of the request behind a pointer. *)
Definition static (r : InProgress.Registry) (p : nat) : option (TaskRequest * bool) :=
  (fun c => (cell_request c, has_Cancel c)) <$> cells r !! p.
Definition same_requests (r r' : InProgress.Registry) : Prop := forall p, static r' p = static r p.

Lemma same_insert r p c c' m :
  cells r !! p = Some c -> cell_request c' = cell_request c -> has_Cancel c' = has_Cancel c ->
  same_requests r (mkRegistry (<[p := c']> (cells r)) m).
Proof.
  intros Hp H1 H2 q. unfold static. cbn.
  destruct (decide (q = p)) as [->|]; [by rewrite lookup_insert_eq, Hp; cbn; rewrite H1, H2|by rewrite lookup_insert_ne].
Qed.
Lemma static_Some r p c : cells r !! p = Some c -> static r p = Some (cell_request c, has_Cancel c).
Proof. unfold static. by intros ->. Qed.

(** Adding, cancelling and removing change which requests are registered in
    the way their names say, and no request. *)
Lemma Add_spec p r x r' :
  Add p r = (x, r') ->
  same_requests r r' /\
  match x with
  | inl _ => exists req b, static r p = Some (req, b) /\ requests r !! Key req = None /\ requests r' = <[Key req := p]> (requests r)
  | inr _ => r' = r
  end.
Proof.
  unfold Add. destruct (cells r !! p) as [c|] eqn:Ep; [|by intros [= <- <-]]. destruct (_ == ""); [by intros [= <- <-]|].
  destruct (requests r !! _) eqn:Ek; intros [= <- <-]; [done|]. split; [by eapply same_insert|].
  exists (cell_request c), (has_Cancel c). by rewrite (static_Some _ _ _ Ep).
Qed.
Lemma Cancel_spec key r x r' : Cancel key r = (x, r') -> same_requests r r' /\ requests r' = requests r.
Proof.
  unfold Cancel. destruct (key == ""); [by intros [= <- <-]|]. destruct (requests r !! key) as [p|]; cbn; [|by intros [= <- <-]].
  destruct (cells r !! p) as [c|] eqn:Ep; cbn; [|by intros [= <- <-]].
  destruct (has_Cancel c) eqn:Eh; cbn; intros [= <- <-]; [|done]. split; [|done]. by eapply same_insert.
Qed.
Lemma Remove_spec `{RangeOrder} p r x r' req b :
  static r p = Some (req, b) -> Remove p r = (x, r') -> same_requests r r' /\ requests r' = delete (Key req) (requests r).
Proof.
  unfold Remove, static. destruct (cells r !! p) as [c|] eqn:Ep; [|done]. intros [= -> _].
  assert (Key req == "" = false) as Hk by (unfold Key, TaskKey; by destruct (JobRequestID req)).
  rewrite Hk. destruct (requests r !! Key req) eqn:E; intros [= <- <-]; [done|]. by rewrite delete_id.
Qed.
Lemma CancelJob_spec `{RangeOrder} id r :
  same_requests r (CancelJob id r) /\
  (requests (CancelJob id r) = requests r \/ exists k, requests (CancelJob id r) = delete k (requests r)).
Proof.
  unfold CancelJob. destruct (find _ _) as [[k p]|]; [|split; [done|by left]].
  destruct (cells r !! p) as [c|] eqn:Ep; [|split; [done|by left]]. split; [by eapply same_insert|right]. by eexists.
Qed.

(** ** The invariant of a tasklet *)
Section Tasklet.
Context {W : Type} `{Executor W, Network, RangeOrder}.
Implicit Types t : Tasklet W.

(** A goroutine between the start of its task and its return. *)
Definition busy (w : Work) : bool := match work_phase w with Executing | Replied => true | _ => false end.

Record inv t : Prop := mkInv {
  inv_fresh : forall p x, static (registry t) p = Some x -> (p < next t)%nat /\ snd x = true;
  inv_works : forall p w, works t !! p = Some w -> is_Some (static (registry t) p);
  inv_registered : forall k p, requests (registry t) !! k = Some p ->
    exists w req, works t !! p = Some w /\ busy w = true /\ static (registry t) p = Some (req, true) /\ Key req = k
}.
(** The converse, which holds as long as no job is cancelled. *)
Definition all_registered t : Prop :=
  forall p w req b, works t !! p = Some w -> busy w = true -> static (registry t) p = Some (req, b) ->
    requests (registry t) !! Key req = Some p.

(** Only requests, goroutines and the next number matter. *)
Lemma inv_frame t t' :
  same_requests (registry t) (registry t') -> requests (registry t') ⊆ requests (registry t) ->
  works t' = works t -> next t' = next t -> inv t -> inv t'.
Proof.
  intros HS HR HW HN [A B C]. split.
  - intros p x. rewrite HS, HN. apply A.
  - intros p w. rewrite HS, HW. apply B.
  - intros k p Hk. rewrite HS, HW. apply C. by eapply lookup_weaken.
Qed.
Lemma all_registered_frame t t' :
  same_requests (registry t) (registry t') -> requests (registry t') = requests (registry t) ->
  works t' = works t -> all_registered t -> all_registered t'.
Proof. intros HS HR HW A p w req b. rewrite HS, HR, HW. apply A. Qed.

(** A goroutine that no key points to can return. *)
Lemma leave_same p t : same_requests (registry t) (registry (leave p t)) /\ requests (registry (leave p t)) = requests (registry t).
Proof.
  unfold leave. cbn. destruct (cells (registry t) !! p) as [c|] eqn:Ep; [|done]. split; [by eapply same_insert|done].
Qed.
Lemma leave_inv p t : (forall k, requests (registry t) !! k <> Some p) -> inv t -> inv (leave p t).
Proof.
  intros Hp [A B C]. destruct (leave_same p t) as [HS HR]. split.
  - intros q x. rewrite HS. apply A.
  - intros q w Hw. rewrite HS. unfold leave in Hw. cbn in Hw. apply lookup_delete_Some in Hw as [_ Hw]. by eapply B.
  - intros k q. rewrite HR, HS. intros Hk. destruct (C k q Hk) as (w & req & Hw & Hb & Hs & HK). exists w, req.
    split_and!; try done. unfold leave. cbn. rewrite lookup_delete_ne; [done|]. intros ->. by eapply Hp.
Qed.
Lemma leave_all_registered p t : all_registered t -> all_registered (leave p t).
Proof.
  intros A q w req b. destruct (leave_same p t) as [HS HR]. rewrite HS, HR. unfold leave. cbn. intros [_ Hw]%lookup_delete_Some.
  by eapply A.
Qed.

(** A goroutine that is not busy is not registered. *)
Lemma idle_not_registered t p w k : inv t -> works t !! p = Some w -> busy w = false -> requests (registry t) !! k <> Some p.
Proof. intros I Hw Hb Hk. destruct (inv_registered _ I k p Hk) as (w' & req & Hw' & Hb' & _). congruence. Qed.

(** A step of a goroutine happens only in its phase. *)
Lemma at_phase_cases (P : Tasklet W -> Prop) p ph k t :
  P t -> (forall w req b, works t !! p = Some w -> static (registry t) p = Some (req, b) -> work_phase w = ph -> P (k w req)) ->
  P (at_phase p ph k t).
Proof.
  intros Ht Hk. unfold at_phase. destruct (works t !! p) as [w|] eqn:Ew; [|done]. destruct (cells (registry t) !! p) as [c|] eqn:Ec; [|done].
  pose proof (static_Some _ _ _ Ec) as Hs. destruct ph, (work_phase w) eqn:Ep; try done; by eapply Hk.
Qed.

(** The parts of a tasklet that a reply changes. *)
Lemma sendResponse_frame p topic r t :
  registry (sendResponse p topic r t) = registry t /\ works (sendResponse p topic r t) = works t /\
  next (sendResponse p topic r t) = next t.
Proof. unfold sendResponse. by destruct (response_Validate r). Qed.
Lemma sendResponse_inv p topic r t : inv t -> inv (sendResponse p topic r t).
Proof. destruct (sendResponse_frame p topic r t) as (A & B & C). apply inv_frame; by rewrite ?A. Qed.
Lemma set_world_inv x t : inv t -> inv (set_world x t).
Proof. by apply inv_frame. Qed.

(** A phase that is not registered, or keeps being registered. *)
Lemma go_inv p ph w t :
  works t !! p = Some w -> (forall k, requests (registry t) !! k = Some p -> busy (mkWork ph (replyTopic w)) = true) ->
  inv t -> inv (go p ph w t).
Proof.
  intros Hw Hb [A B C]. split; cbn; [done| |].
  - intros q v. destruct (decide (q = p)) as [->|]; [|rewrite lookup_insert_ne by done; by apply B]. intros _. by eapply B.
  - intros k q Hk. destruct (C k q Hk) as (v & req & Hv & Hb' & Hs & HK).
    destruct (decide (q = p)) as [->|]; [|exists v, req; by rewrite lookup_insert_ne].
    exists (mkWork ph (replyTopic w)), req. rewrite lookup_insert_eq. split_and!; try done. by eapply Hb.
Qed.

Lemma on_request_inv payload id topic t : inv t -> inv (on_request payload id topic t).
Proof.
  intros I. unfold on_request. destruct payload as [req|]; [|done]. destruct (Validate req); [done|].
  assert (forall x, static (registry t) (next t) <> Some x) as Hn.
  { intros x Hx. destruct (inv_fresh _ I _ _ Hx). lia. }
  assert (forall q, q <> next t -> forall c m, static (mkRegistry (<[next t := c]> (cells (registry t))) m) q = static (registry t) q) as HS.
  { intros q Hq c m. unfold static. cbn. by rewrite lookup_insert_ne. }
  destruct I as [A B C]. split; cbn.
  - intros p x. destruct (decide (p = next t)) as [->|Hp]; [unfold static; cbn; rewrite lookup_insert_eq; intros [= <-]; split; [lia|done]|].
    unfold set_cell. rewrite HS by done. intros Hx. destruct (A _ _ Hx). split; [lia|done].
  - intros p w. destruct (decide (p = next t)) as [->|Hp]; [intros _; unfold static; cbn; rewrite lookup_insert_eq; by eexists|].
    unfold set_cell. rewrite lookup_insert_ne, HS by done. apply B.
  - intros k p Hk. destruct (C k p Hk) as (w & r & Hw & Hb & Hs & HK). assert (p <> next t) as Hp by (intros ->; by eapply Hn).
    exists w, r. unfold set_cell. by rewrite lookup_insert_ne, HS.
Qed.
Lemma on_request_all_registered payload id topic t : inv t -> all_registered t -> all_registered (on_request payload id topic t).
Proof.
  intros I A. unfold on_request. destruct payload as [req|]; [|done]. destruct (Validate req); [done|].
  intros p w r b. cbn. destruct (decide (p = next t)) as [->|Hp]; [rewrite lookup_insert_eq; by intros [= <-]|].
  rewrite lookup_insert_ne by done. unfold static. cbn. rewrite lookup_insert_ne by done. apply A.
Qed.


(** [t'] differs from [t] at most in the flags of requests, in the executor's
    state and in the replies [l] it sent. *)
Record frame t t' (l : list (nat * string * TaskResponse)) : Prop := mkFrame {
  frame_requests : same_requests (registry t) (registry t');
  frame_keys : requests (registry t') = requests (registry t);
  frame_works : works t' = works t;
  frame_next : next t' = next t;
  frame_sent : sent t' = sent t ++ l
}.
Lemma frame_inv t t' l : frame t t' l -> inv t -> inv t'.
Proof. intros [A B C D _]. apply inv_frame; rewrite ?B; done. Qed.
Lemma frame_all_registered t t' l : frame t t' l -> all_registered t -> all_registered t'.
Proof. intros [A B C D _]. by apply all_registered_frame. Qed.
Lemma frame_world x t : frame t (set_world x t) [].
Proof. split; try done. by rewrite app_nil_r. Qed.
Lemma frame_send p topic r x t :
  exists l, frame t (sendResponse p topic r (set_world x t)) l /\ (l = [] \/ l = [(p, topic, r)]).
Proof.
  unfold sendResponse. destruct (response_Validate r); [exists []; split; [by apply frame_world|by left]|].
  cbn. destruct (sends (tried t)); [exists [(p, topic, r)]|exists []]; (split; [|tauto]); split; try done; cbn; by rewrite ?app_nil_r.
Qed.
Lemma frame_registry r t :
  same_requests (registry t) r -> requests r = requests (registry t) -> frame t (set_registry r t) [].
Proof. intros A B. split; try done. by rewrite app_nil_r. Qed.

(** The first part of a request either sends it on to be added or, possibly
    after a reply, ends it. *)
Lemma begin_shape p w req t :
  exists t1 l, frame t t1 l /\
    (l = [] /\ Action req = EXECUTE /\ begin_request p w req t = go p Checked w t1 \/
     (l = [] \/ exists r, l = [(p, replyTopic w, r)]) /\ begin_request p w req t = leave p t1).
Proof.
  assert (forall r x, exists t1 l, frame t t1 l /\
    (l = [] /\ Action req = EXECUTE /\ leave p (sendResponse p (replyTopic w) r (set_world x t)) = go p Checked w t1 \/
     (l = [] \/ exists r, l = [(p, replyTopic w, r)]) /\ leave p (sendResponse p (replyTopic w) r (set_world x t)) = leave p t1)) as HS.
  { intros r x. destruct (frame_send p (replyTopic w) r x t) as (l & HF & Hl). eexists _, l. split; [exact HF|right]. split; [|done].
    destruct Hl as [->| ->]; [by left|right; by eexists]. }
  assert (set_world (world t) t = t) as HW by (by destruct t).
  unfold begin_request. destruct (_ == CANCEL).
  { destruct (Cancel _ _) as [x r] eqn:EC. apply Cancel_spec in EC as [A B]. eexists _, []. split; [by apply frame_registry|].
    right. split; [by left|done]. }
  destruct (_ == EXECUTE) eqn:EE.
  { apply eqb_string_true in EE. destruct (PreExecute _ _) as [[|] x]; eexists _, []; (split; [apply frame_world|]); [by left|right; split; [by left|done]]. }
  destruct (_ == TERMINATE); [destruct (TerminateContainer _ _) as [r x]; apply HS|].
  destruct (_ == PING); [specialize (HS (set_Status State.COMPLETED (NewTaskResponse req)) (world t)); by rewrite HW in HS|].
  destruct (_ == LIST); [destruct (ListContainers _ _) as [r x]; apply HS|].
  specialize (HS (failed_reply req ("received unknown action " +:+ Action req)) (world t)). by rewrite HW in HS.
Qed.

(** ** Steps keep the invariant *)
Lemma begin_inv p w req t :
  works t !! p = Some w -> work_phase w = Received -> inv t -> inv (begin_request p w req t).
Proof.
  intros Hw Hp I. assert (busy w = false) as Hb by (unfold busy; by rewrite Hp).
  destruct (begin_shape p w req t) as (t1 & l & HF & [(_ & _ & ->)|[_ ->]]); pose proof (frame_inv _ _ _ HF I) as I1;
    rewrite <- (frame_works _ _ _ HF) in Hw.
  - apply go_inv; [done| |done]. intros k Hk. by destruct (idle_not_registered _ _ _ k I1 Hw Hb).
  - apply leave_inv; [|done]. intros k. by eapply idle_not_registered.
Qed.
Lemma begin_all_registered p w req t :
  works t !! p = Some w -> all_registered t -> all_registered (begin_request p w req t).
Proof.
  intros Hw A. destruct (begin_shape p w req t) as (t1 & l & HF & [(_ & _ & ->)|[_ ->]]);
    pose proof (frame_all_registered _ _ _ HF A) as A1; [|by apply leave_all_registered].
  intros q v r b. cbn. destruct (decide (q = p)) as [->|]; [rewrite lookup_insert_eq; by intros [= <-]|].
  rewrite lookup_insert_ne by done. apply A1.
Qed.

Lemma add_inv p w t : works t !! p = Some w -> work_phase w = Checked -> inv t -> inv (add_request p w t).
Proof.
  intros Hw Hp I. assert (busy w = false) as Hb by (unfold busy; by rewrite Hp). unfold add_request.
  destruct (Add p (registry t)) as [[[]|e] r] eqn:EA; apply Add_spec in EA as [HS HR].
  - destruct HR as (req & b & Hs & Hk & HR). destruct I as [A B C]. split; cbn.
    + intros q x. rewrite HS. apply A.
    + intros q v. rewrite HS. destruct (decide (q = p)) as [->|]; [by rewrite Hs|]. rewrite lookup_insert_ne by done. apply B.
    + intros k q. rewrite HR, HS. destruct (A _ _ Hs) as [_ Ht]. cbn in Ht. subst b.
      destruct (decide (k = Key req)) as [->|Hne]; [rewrite lookup_insert_eq; intros [= <-]|rewrite lookup_insert_ne by done; intros Hq].
      * exists (mkWork Executing (replyTopic w)), req. by rewrite lookup_insert_eq.
      * destruct (C k q Hq) as (v & r' & Hv & Hb' & Hs' & HK). exists v, r'. rewrite lookup_insert_ne; [done|congruence].
  - subst r. apply leave_inv; [|by apply (inv_frame t)]. cbn. intros k. by eapply idle_not_registered.
Qed.
Lemma add_all_registered p w t : works t !! p = Some w -> inv t -> all_registered t -> all_registered (add_request p w t).
Proof.
  intros Hw I A. unfold add_request. destruct (Add p (registry t)) as [[[]|e] r] eqn:EA; apply Add_spec in EA as [HS HR].
  - destruct HR as (req & b & Hs & Hk & HR). intros q v r' b' Hv Hb Hr. cbn in *. rewrite HS in Hr. rewrite HR.
    destruct (decide (q = p)) as [->|]; [rewrite Hs in Hr; injection Hr as -> _; by rewrite lookup_insert_eq|].
    rewrite lookup_insert_ne in Hv by done. pose proof (A _ _ _ _ Hv Hb Hr) as Hq. rewrite lookup_insert_ne; [done|congruence].
  - subst r. apply leave_all_registered. by apply (all_registered_frame t).
Qed.

Lemma end_inv p w req r t : works t !! p = Some w -> inv t -> inv (end_request p w req r t).
Proof.
  intros Hw I. apply go_inv; [by rewrite (proj1 (proj2 (sendResponse_frame _ _ _ _)))|done|by apply sendResponse_inv].
Qed.
Lemma end_all_registered p w req r t :
  works t !! p = Some w -> work_phase w = Executing -> all_registered t -> all_registered (end_request p w req r t).
Proof.
  intros Hw Hp A q v r' b. unfold end_request. destruct (sendResponse_frame p (replyTopic w) (reply_of req r) t) as (HR & HW & _).
  cbn. rewrite HR, HW. destruct (decide (q = p)) as [->|]; [rewrite lookup_insert_eq|rewrite lookup_insert_ne by done; apply A].
  intros [= <-] _ Hs. eapply A; [done| |done]. unfold busy. by rewrite Hp.
Qed.

Lemma remove_inv p w t : works t !! p = Some w -> inv t -> inv (remove_request p t).
Proof.
  intros Hw I. destruct (inv_works _ I _ _ Hw) as [[req b] Hs]. unfold remove_request.
  destruct (Remove p (registry t)) as [x r] eqn:ER. apply (Remove_spec _ _ _ _ _ _ Hs) in ER as [HS HR].
  apply leave_inv; cbn.
  - intros k. rewrite HR, lookup_delete_Some. intros [Hk Hp]. destruct (inv_registered _ I k p Hp) as (v & r' & _ & _ & Hs' & HK). congruence.
  - apply (inv_frame t); cbn; try done. rewrite HR. apply delete_subseteq.
Qed.
Lemma remove_all_registered p w t :
  works t !! p = Some w -> work_phase w = Replied -> inv t -> all_registered t -> all_registered (remove_request p t).
Proof.
  intros Hw Hp I A q v req b. destruct (inv_works _ I _ _ Hw) as [[r0 b0] Hs]. unfold remove_request.
  destruct (Remove p (registry t)) as [x r] eqn:ER. apply (Remove_spec _ _ _ _ _ _ Hs) in ER as [HS HR]. cbn [snd].
  destruct (leave_same p (set_registry r t)) as [HS' HR']. rewrite HS', HR'. cbn. rewrite HS, HR.
  intros [Hq Hv]%lookup_delete_Some Hb Hr. pose proof (A _ _ _ _ Hv Hb Hr) as HK. apply lookup_delete_Some. split; [|done].
  intros Heq. assert (requests (registry t) !! Key r0 = Some p) as Hk; [|congruence].
  eapply A; [done| |done]. unfold busy. by rewrite Hp.
Qed.

Lemma step_inv e t : inv t -> inv (step e t).
Proof.
  intros I. destruct e as [payload id topic|p|p|p r|p|e|e|x]; cbn [step].
  - by apply on_request_inv.
  - apply at_phase_cases; [done|]. intros w req b Hw Hs Hp. by apply begin_inv.
  - apply at_phase_cases; [done|]. intros w req b Hw Hs Hp. by apply add_inv.
  - apply at_phase_cases; [done|]. intros w req b Hw Hs Hp. by apply end_inv.
  - apply at_phase_cases; [done|]. intros w req b Hw Hs Hp. by eapply remove_inv.
  - destruct e as [[id state]|]; cbn; [|done]. destruct (_ || _); [|done]. destruct (CancelJob_spec id (registry t)) as [HS HR].
    apply (inv_frame t); try done. cbn. destruct HR as [->|[k ->]]; [done|apply delete_subseteq].
  - destruct e as [[key state]|]; cbn; [|done]. destruct (_ || _); [|done]. destruct (Cancel _ _) as [x r] eqn:EC.
    apply Cancel_spec in EC as [HS HR]. by apply (frame_inv t _ []), I; apply frame_registry.
  - by apply set_world_inv.
Qed.

(** An event that cancels no job. *)
Definition keeps_jobs (e : event W) : bool :=
  match e with
  | JobEvent (Some (_, state)) =>
      negb ((state == State.CANCELLED) || (state == State.PAUSED) || (state == State.MANUAL_APPROVAL_REQUIRED))
  | _ => true
  end.
Lemma step_all_registered e t : keeps_jobs e = true -> inv t -> all_registered t -> all_registered (step e t).
Proof.
  intros HK I A. destruct e as [payload id topic|p|p|p r|p|e|e|x]; cbn [step].
  - by apply on_request_all_registered.
  - apply at_phase_cases; [done|]. intros w req b Hw Hs Hp. by apply begin_all_registered.
  - apply at_phase_cases; [done|]. intros w req b Hw Hs Hp. by apply add_all_registered.
  - apply at_phase_cases; [done|]. intros w req b Hw Hs Hp. by apply end_all_registered.
  - apply at_phase_cases; [done|]. intros w req b Hw Hs Hp. by eapply remove_all_registered.
  - destruct e as [[id state]|]; cbn in *; [|done]. by destruct (_ || _).
  - destruct e as [[key state]|]; cbn; [|done]. destruct (_ || _); [|done]. destruct (Cancel _ _) as [x r] eqn:EC.
    apply Cancel_spec in EC as [HS HR]. by apply (all_registered_frame t).
  - by apply (all_registered_frame t).
Qed.

Lemma ant_initial_inv w : inv (initial w).
Proof. split; cbn; try done. Qed.
Lemma run_inv es t : inv t -> inv (run es t).
Proof. revert t. induction es as [|e es IH]; intros t I; [done|]. by apply IH, step_inv. Qed.
Lemma run_all_registered es t :
  forallb keeps_jobs es = true -> inv t -> all_registered t -> inv (run es t) /\ all_registered (run es t).
Proof.
  revert t. induction es as [|e es IH]; intros t HK I A; [done|]. cbn in HK. apply andb_true_iff in HK as [He HK].
  apply IH; [done|by apply step_inv|by apply step_all_registered].
Qed.

(** ** What the queen is told *)
Definition busy_works t : gmap nat Work := filter (fun pw => busy (snd pw) = true) (works t).

Lemma registered_perm t :
  inv t -> all_registered t ->
  map snd (map_to_list (requests (registry t))) ≡ₚ map fst (map_to_list (busy_works t)).
Proof.
  intros I A. apply NoDup_Permutation.
  - apply NoDup_fmap_2_strong; [|apply NoDup_map_to_list]. intros [k p] [k' p'] Hk Hk' [= <-].
    apply elem_of_map_to_list in Hk, Hk'. destruct (inv_registered _ I _ _ Hk) as (? & ? & _ & _ & Hs1 & <-).
    destruct (inv_registered _ I _ _ Hk') as (? & ? & _ & _ & Hs2 & <-). congruence.
  - apply NoDup_fst_map_to_list.
  - intros p. rewrite !list_elem_of_fmap. split.
    + intros ([k q] & -> & Hk). apply elem_of_map_to_list in Hk. destruct (inv_registered _ I _ _ Hk) as (w & req & Hw & Hb & _).
      exists (q, w). split; [done|]. by apply elem_of_map_to_list, map_lookup_filter_Some_2.
    + intros ([q w] & -> & Hw). apply elem_of_map_to_list, map_lookup_filter_Some in Hw as [Hw Hb].
      destruct (inv_works _ I _ _ Hw) as [[req b] Hs]. exists (Key req, q). split; [done|].
      apply elem_of_map_to_list. by eapply A.
Qed.

(** C25: as long as no job is cancelled, paused or put up for approval, in every
    interleaving of messages and goroutines: an ant never executes two requests
    for the same task of a job at the same time, and the load that it reports
    to the queen is the number of tasks it is working on. *)
Theorem ant_load_is_the_work_in_progress w es now topic reg
  (no_job_cancelled : forallb keeps_jobs es = true) :
  let t := run es (initial w) in
  (forall p q wp wq rp rq bp bq,
     works t !! p = Some wp -> busy wp = true -> static (registry t) p = Some (rp, bp) ->
     works t !! q = Some wq -> busy wq = true -> static (registry t) q = Some (rq, bq) ->
     JobRequestID rp = JobRequestID rq -> TaskType rp = TaskType rq -> p = q) /\
  Ants.CurrentLoad (sendRegisterAntRequest now topic reg t) = Z.of_nat (size (busy_works t)).
Proof.
  cbv zeta. destruct (run_all_registered es (initial w) no_job_cancelled (ant_initial_inv w)) as [I A]; [done|].
  set (t := run es (initial w)) in *. split.
  - intros p q wp wq rp rq bp bq Hp Hbp Hsp Hq Hbq Hsq HJ HT. pose proof (A _ _ _ _ Hp Hbp Hsp) as K1.
    pose proof (A _ _ _ _ Hq Hbq Hsq) as K2. unfold Key in *. rewrite HJ, HT in K1. congruence.
  - cbn. unfold Count. f_equal. pose proof (Permutation_length (registered_perm t I A)) as HL.
    rewrite !length_map in HL. by rewrite <- !length_map_to_list.
Qed.

(** ** Replies *)
Record answered t : Prop := mkAnswered {
  an_once : NoDup (map (fun x => fst (fst x)) (sent t));
  an_phase : forall p topic r, (p, topic, r) ∈ sent t ->
    (p < next t)%nat /\ forall w, works t !! p = Some w -> work_phase w = Replied;
  an_valid : forall p req b, static (registry t) p = Some (req, b) -> Validate req = None;
  an_execute : forall p w req b, works t !! p = Some w -> static (registry t) p = Some (req, b) ->
    work_phase w <> Received -> Action req = EXECUTE
}.

(** The goroutine [p] goes from [w] to [w'], or ends, and replies with [l]. *)
Lemma answered_move p w w' l t t' :
  works t !! p = Some w -> inv t -> answered t ->
  same_requests (registry t) (registry t') -> next t' = next t -> sent t' = sent t ++ l ->
  works t' = partial_alter (fun _ => w') p (works t) ->
  (l = [] \/ work_phase w <> Replied /\ exists topic r, l = [(p, topic, r)]) ->
  (forall v, w' = Some v -> (l <> [] \/ work_phase w = Replied -> work_phase v = Replied) /\
     forall req b, static (registry t) p = Some (req, b) -> Action req = EXECUTE) ->
  answered t'.
Proof.
  intros Hw I [A B C D] HS HN HL HW Hl Hv. split.
  - rewrite HL, map_app. destruct Hl as [->|(Hr & topic & r & ->)]; [by rewrite app_nil_r|]. apply NoDup_app. split_and!; [done| |apply NoDup_singleton].
    intros q Hq. cbn. rewrite list_elem_of_singleton. intros ->. apply list_elem_of_fmap in Hq as ([[q topic'] r'] & -> & Hin).
    apply Hr. destruct (B _ _ _ Hin) as [_ HB]. by apply HB.
  - intros q topic r. rewrite HL, HN, HW, elem_of_app. intros [Hin|Hin].
    + destruct (B _ _ _ Hin) as [Hq HB]. split; [done|]. intros v. destruct (decide (q = p)) as [->|].
      * rewrite lookup_partial_alter_eq. intros Heq. apply (Hv v Heq). right. by apply HB.
      * rewrite lookup_partial_alter_ne by done. apply HB.
    + destruct Hl as [->|(Hr & topic' & r' & ->)]; [by apply elem_of_nil in Hin|]. apply list_elem_of_singleton in Hin as [= -> -> ->].
      destruct (inv_works _ I _ _ Hw) as [x Hx]. split; [by destruct (inv_fresh _ I _ _ Hx)|].
      intros v. rewrite lookup_partial_alter_eq. intros Heq. apply (Hv v Heq). by left.
  - intros q req b. rewrite HS. apply C.
  - intros q v req b. rewrite HW, HS. destruct (decide (q = p)) as [->|].
    + rewrite lookup_partial_alter_eq. intros Heq Hs _. by eapply Hv.
    + rewrite lookup_partial_alter_ne by done. apply D.
Qed.

(** Steps that move no goroutine and send nothing. *)
Lemma answered_frame t t' : frame t t' [] -> answered t -> answered t'.
Proof.
  intros [HS _ HW HN HL] [A B C D]. rewrite app_nil_r in HL. split.
  - by rewrite HL.
  - intros p topic r. rewrite HL, HN, HW. apply B.
  - intros p req b. rewrite HS. apply C.
  - intros p w req b. rewrite HS, HW. apply D.
Qed.

Lemma on_request_answered payload id topic t : inv t -> answered t -> answered (on_request payload id topic t).
Proof.
  intros I [A B C D]. unfold on_request. destruct payload as [req|]; [|done]. destruct (Validate req) eqn:EV; [done|]. split; cbn.
  - done.
  - intros p tp r Hin. destruct (B _ _ _ Hin) as [Hp HB]. split; [lia|]. intros w. rewrite lookup_insert_ne by lia. apply HB.
  - intros p r b. unfold static. cbn. destruct (decide (p = next t)) as [->|]; [rewrite lookup_insert_eq; by intros [= <- _]|].
    rewrite lookup_insert_ne by done. apply C.
  - intros p w r b. destruct (decide (p = next t)) as [->|]; [rewrite lookup_insert_eq; by intros [= <-]|].
    unfold static. cbn. rewrite !lookup_insert_ne by done. apply D.
Qed.


Lemma step_answered e t : inv t -> answered t -> answered (step e t).
Proof.
  intros I A. destruct e as [payload id topic|p|p|p r|p|e|e|x]; cbn [step].
  - by apply on_request_answered.
  - apply at_phase_cases; [done|]. intros w req b Hw Hs Hp.
    destruct (begin_shape p w req t) as (t1 & l & [HS HR HW HN HL] & [(-> & HE & ->)|(Hl & ->)]).
    + eapply (answered_move p w (Some (mkWork Checked (replyTopic w))) []); try done; cbn; [by rewrite HW|by left|].
      intros v [= <-]. split; [intros [?|?]; congruence|]. intros r0 b0. rewrite Hs. by intros [= <- _].
    + destruct (leave_same p t1) as [HS' _]. eapply (answered_move p w None l); try done; cbn.
      * intros q. by rewrite HS'.
      * by rewrite HW.
      * destruct Hl as [->|[r ->]]; [by left|right]. split; [congruence|by eexists _, _].
  - apply at_phase_cases; [done|]. intros w req b Hw Hs Hp. unfold add_request.
    destruct (Add p (registry t)) as [[[]|err] r] eqn:EA; apply Add_spec in EA as [HS HR].
    + eapply (answered_move p w (Some (mkWork Executing (replyTopic w))) []); try done; cbn; [by rewrite app_nil_r|by left|].
      intros v [= <-]. split; [intros [?|?]; congruence|]. intros r0 b0 Hs0. eapply (an_execute _ A); [exact Hw|exact Hs0|congruence].
    + destruct (leave_same p (set_registry r t)) as [HS' _]. eapply (answered_move p w None []); try done; cbn.
      * intros q. rewrite HS'. apply HS.
      * by rewrite app_nil_r.
      * by left.
  - apply at_phase_cases; [done|]. intros w req b Hw Hs Hp. unfold end_request.
    assert (set_world (world t) t = t) as HW by (by destruct t).
    destruct (frame_send p (replyTopic w) (reply_of req r) (world t) t) as (l & [HS HR HWk HN HL] & Hl). rewrite HW in *.
    eapply (answered_move p w (Some (mkWork Replied (replyTopic w))) l); try done; cbn.
    + by rewrite HWk.
    + destruct Hl as [->| ->]; [by left|right]. split; [congruence|by eexists _, _].
    + intros v [= <-]. split; [done|]. intros r0 b0 Hs0. eapply (an_execute _ A); [exact Hw|exact Hs0|congruence].
  - apply at_phase_cases; [done|]. intros w req b Hw Hs Hp. unfold remove_request.
    destruct (Remove p (registry t)) as [x r] eqn:ER. apply (Remove_spec _ _ _ _ _ _ Hs) in ER as [HS HR]. cbn [snd].
    destruct (leave_same p (set_registry r t)) as [HS' _]. eapply (answered_move p w None []); try done; cbn.
    + intros q. rewrite HS'. apply HS.
    + by rewrite app_nil_r.
    + by left.
  - destruct e as [[id state]|]; cbn; [|done]. destruct (_ || _); [|done]. destruct (CancelJob_spec id (registry t)) as [HS _].
    destruct A as [A B C D]. split; cbn; [done|done| |]; intros p.
    + intros req b. rewrite HS. apply C.
    + intros w req b. rewrite HS. apply D.
  - destruct e as [[key state]|]; cbn; [|done]. destruct (_ || _); [|done]. destruct (Cancel _ _) as [x r] eqn:EC.
    apply Cancel_spec in EC as [HS HR]. by apply (answered_frame t); [apply frame_registry|].
  - by apply (answered_frame t); [apply frame_world|].
Qed.
Lemma initial_answered w : answered (initial w).
Proof. split; cbn; try done; [apply NoDup_nil; done|]. intros p topic r Hr. by apply elem_of_nil in Hr. Qed.
Lemma run_answered es t : inv t -> answered t -> answered (run es t).
Proof. revert t. induction es as [|e es IH]; intros t I A; [done|]. cbn. apply IH; [by apply step_inv|by apply step_answered]. Qed.

(** Replies are never taken back. *)
Lemma step_sent e t : exists l, sent (step e t) = sent t ++ l.
Proof.
  assert (forall k ph p, (forall w req, exists l, sent (k w req) = sent t ++ l) -> exists l, sent (at_phase p ph k t) = sent t ++ l) as HA.
  { intros k ph p Hk. apply at_phase_cases; [exists []; by rewrite app_nil_r|]. intros. apply Hk. }
  destruct e as [payload id topic|p|p|p r|p|e|e|x]; cbn [step]; try (apply HA; intros w req).
  - exists []. rewrite app_nil_r. unfold on_request. destruct payload as [req|]; [|done]. by destruct (Validate req).
  - destruct (begin_shape p w req t) as (t1 & l & [_ _ _ _ HL] & [(_ & _ & ->)|(_ & ->)]); by exists l.
  - exists []. rewrite app_nil_r. unfold add_request. by destruct (Add _ _) as [[[]|]].
  - unfold end_request, sendResponse. destruct (response_Validate _); cbn; [exists []; by rewrite app_nil_r|].
    destruct (sends _); [by eexists|exists []; by rewrite app_nil_r].
  - exists []. by rewrite app_nil_r.
  - exists []. rewrite app_nil_r. destruct e as [[id state]|]; cbn; [|done]. by destruct (_ || _).
  - exists []. rewrite app_nil_r. destruct e as [[id state]|]; cbn; [|done]. by destruct (_ || _).
  - exists []. by rewrite app_nil_r.
Qed.

(** Only its own end moves a goroutine that executes. *)
Lemma step_executing e t p w :
  inv t -> works t !! p = Some w -> work_phase w = Executing -> (forall r, e <> Finish p r) ->
  works (step e t) !! p = Some w /\ static (registry (step e t)) p = static (registry t) p.
Proof.
  intros I Hw Hp Hne. assert (p <> next t) as Hnx.
  { intros ->. destruct (inv_works _ I _ _ Hw) as [x Hx]. destruct (inv_fresh _ I _ _ Hx). lia. }
  assert (forall (k : Work -> TaskRequest -> Tasklet W) ph q,
    (forall v req b, q <> p -> works t !! q = Some v -> static (registry t) q = Some (req, b) ->
       works (k v req) !! p = Some w /\ static (registry (k v req)) p = static (registry t) p) ->
    ph <> Executing -> works (at_phase q ph k t) !! p = Some w /\ static (registry (at_phase q ph k t)) p = static (registry t) p) as HA.
  { intros k ph q Hk Hph. apply at_phase_cases; [done|]. intros v req b Hv Hs Hpv. eapply Hk; [congruence|done..]. }
  destruct e as [payload id topic|q|q|q r|q|e|e|x]; cbn [step]; try (apply HA; [|done]; intros v req b Hq Hv Hs).
  - unfold on_request. destruct payload as [req|]; [|done]. destruct (Validate req); [done|]. cbn.
    unfold static. cbn. by rewrite !lookup_insert_ne.
  - destruct (begin_shape q v req t) as (t1 & l & [HS HR HW HN HL] & [(_ & _ & ->)|(_ & ->)]).
    + cbn. rewrite lookup_insert_ne by done. by rewrite HW.
    + destruct (leave_same q t1) as [HS' _]. rewrite HS', HS. cbn. rewrite lookup_delete_ne by done. by rewrite HW.
  - unfold add_request. destruct (Add q (registry t)) as [[[]|err] r] eqn:EA; apply Add_spec in EA as [HS _].
    + cbn. by rewrite lookup_insert_ne.
    + destruct (leave_same q (set_registry r t)) as [HS' _]. rewrite HS'. cbn. by rewrite lookup_delete_ne.
  - apply at_phase_cases; [done|]. intros v req b Hv Hs Hpv. assert (q <> p) as Hq by (intros ->; by destruct (Hne r)).
    unfold end_request. cbn. destruct (sendResponse_frame q (replyTopic v) (reply_of req r) t) as (-> & -> & _). by rewrite lookup_insert_ne.
  - unfold remove_request. destruct (Remove q (registry t)) as [x r] eqn:ER. apply (Remove_spec _ _ _ _ _ _ Hs) in ER as [HS _]. cbn [snd].
    destruct (leave_same q (set_registry r t)) as [HS' _]. rewrite HS'. cbn. by rewrite lookup_delete_ne.
  - destruct e as [[id state]|]; cbn; [|done]. destruct (_ || _); [|done]. cbn. by rewrite (proj1 (CancelJob_spec _ _)).
  - destruct e as [[key state]|]; cbn; [|done]. destruct (_ || _); [|done]. destruct (Cancel _ _) as [x r] eqn:EC.
    apply Cancel_spec in EC as [HS _]. cbn. by rewrite HS.
  - done.
Qed.

(** A request that executes is one whose failure can be reported. *)
Lemma failed_reply_valid req message : Validate req = None -> Action req = EXECUTE -> response_Validate (failed_reply req message) = None.
Proof.
  intros HV HA. unfold Validate in HV. rewrite HA in HV. cbn in HV. unfold failed_reply, response_Validate. cbn.
  repeat (destruct (_ == "") in HV |- *; [discriminate|]). done.
Qed.

Lemma finish_replies t p w req b r :
  answered t -> works t !! p = Some w -> work_phase w = Executing -> static (registry t) p = Some (req, b) ->
  (forall n, sends n = true) -> (forall x, r = inl x -> response_Validate x = None) ->
  (p, replyTopic w, reply_of req r) ∈ sent (step (Finish p r) t).
Proof.
  intros A Hw Hp Hs HN HV. unfold step, at_phase. rewrite Hw. unfold static in Hs. destruct (cells (registry t) !! p) as [c|] eqn:Ec; [|done].
  injection Hs as Hr Hb. rewrite Hp, Hr. unfold end_request, sendResponse.
  assert (response_Validate (reply_of req r) = None) as ->.
  { destruct r as [x|m]; cbn; [by apply HV|]. apply failed_reply_valid.
    - eapply (an_valid _ A p req b). unfold static. rewrite Ec. cbn. congruence.
    - eapply (an_execute _ A p w req b); [done| |congruence]. unfold static. rewrite Ec. cbn. congruence. }
  cbn. rewrite HN. apply elem_of_app. right. by left.
Qed.

Lemma execution_is_answered es t p w req b :
  inv t -> answered t -> works t !! p = Some w -> work_phase w = Executing -> static (registry t) p = Some (req, b) ->
  (forall n, sends n = true) -> (forall x, Finish p (inl x) ∈ es -> response_Validate x = None) ->
  works (run es t) !! p = None -> exists r, Finish p r ∈ es /\ (p, replyTopic w, reply_of req r) ∈ sent (run es t).
Proof.
  assert (forall es t x, x ∈ sent t -> x ∈ sent (run es t)) as Hgrow.
  { clear. induction es as [|e es IH]; intros t x Hx; [done|]. apply IH. destruct (step_sent e t) as [l ->]. apply elem_of_app. by left. }
  revert t. induction es as [|e es IH]; intros t I A Hw Hp Hs HN HV Hgone; [cbn in Hgone; congruence|].
  assert ((exists r, e = Finish p r) \/ forall r, e <> Finish p r) as [[r ->]|Hne].
  { destruct e as [| | |q r| | | |]; try (right; by intros ?).
    destruct (decide (q = p)) as [->|]; [left; by exists r|right; by intros ? [= ]]. }
  - exists r. split; [by left|]. apply (Hgrow es (step (Finish p r) t)).
    eapply finish_replies; try done. intros x ->. apply HV. by left.
  - destruct (step_executing e t p w I Hw Hp) as [Hw' Hs']; [done|].
    destruct (IH (step e t)) as (r & Hin & Hr); try done.
    + by apply step_inv.
    + by apply step_answered.
    + congruence.
    + intros x Hx. apply HV. by right.
    + exists r. split; [by right|done].
Qed.

(** C9: in every interleaving, a request that an ant executes is answered
    exactly once, on its own topic, by the reply of its execution, once its
    goroutine has returned, provided that messages can be sent and that the
    executor's replies are valid. *)
Theorem every_execution_is_answered_once w es1 es2 p wk req b
  (executing : works (run es1 (initial w)) !! p = Some wk /\ work_phase wk = Executing)
  (request : static (registry (run es1 (initial w))) p = Some (req, b))
  (network : forall n, sends n = true)
  (valid_replies : forall x, Finish p (inl x) ∈ es2 -> response_Validate x = None)
  (returned : works (run es2 (run es1 (initial w))) !! p = None) :
  exists r, Finish p r ∈ es2 /\
    filter (fun x => fst (fst x) = p) (sent (run es2 (run es1 (initial w)))) = [(p, replyTopic wk, reply_of req r)].
Proof.
  destruct executing as [Hw Hp]. pose proof (run_inv es1 _ (ant_initial_inv w)) as I.
  pose proof (run_answered es1 _ (ant_initial_inv w) (initial_answered w)) as A.
  destruct (execution_is_answered es2 _ p wk req b I A Hw Hp request network valid_replies returned) as (r & Hr & Hin).
  exists r. split; [done|]. apply (filter_unique (fun x => fst (fst x)) _ (p, replyTopic wk, reply_of req r)); [|done].
  apply (an_once _ (run_answered es2 _ I A)).
Qed.
End Tasklet.

(** ** Containers *)
Section ContainerEvents.
Context `{RangeOrder}.
Import Containers Running.

(** What the callbacks receive: events of containers and registrations, with
    the time a registration arrives. *)
Inductive message := ContainerMessage (e : ContainerLifecycleEvent) | RegistrationMessage (now : Z) (x : Registered).
Definition receive (r : Running.Registry) (m : message) : Running.Registry :=
  match m with
  | ContainerMessage e => on_container (Some e) r
  | RegistrationMessage now x => on_registration now (Some x) r
  end.

(** The history as a specification: the last event of a container that says
    that it started or ended, and the last registration of an ant. *)
Definition tells (e : ContainerLifecycleEvent) : bool := (ContainerState e == State.STARTED) || State.IsTerminal (ContainerState e).
Definition last_event (k : string) (h : list message) : option ContainerLifecycleEvent :=
  foldl (fun x m => match m with ContainerMessage e => if (Key e == k) && tells e then Some e else x | _ => x end) None h.
Definition last_start (ant : string) (h : list message) : option Z :=
  foldl (fun x m => match m with
                    | RegistrationMessage _ y => if Ants.AntID (registration y) == ant then Some (AntStartedAt y) else x
                    | _ => x
                    end) None h.
Definition runs (k : string) (h : list message) : option ContainerLifecycleEvent :=
  match last_event k h with Some e => if ContainerState e == State.STARTED then Some e else None | None => None end.

Lemma last_message_snoc k h m :
  last_event k (h ++ [m]) =
  match m with ContainerMessage e => if (Key e == k) && tells e then Some e else last_event k h | _ => last_event k h end.
Proof. unfold last_event. by rewrite foldl_app. Qed.
Lemma last_start_snoc a h m :
  last_start a (h ++ [m]) =
  match m with RegistrationMessage _ y => if Ants.AntID (registration y) == a then Some (AntStartedAt y) else last_start a h | _ => last_start a h end.
Proof. unfold last_start. by rewrite foldl_app. Qed.

Lemma registry_follows_messages h :
  let r := foldl receive NewAntContainersRegistry h in
  (forall k, containersEvents r !! k = runs k h) /\ (forall a, AntStartedAt <$> registrations r !! a = last_start a h).
Proof.
  cbv zeta. induction h as [|m h IH] using rev_ind; [done|]. destruct IH as [IHc IHr]. rewrite foldl_app. cbn [foldl].
  set (r := foldl receive _ h) in *. split.
  - intros k. unfold runs. rewrite last_message_snoc. destruct m as [e|now x]; cbn [receive on_container on_registration]; [|cbn; apply IHc].
    unfold UpdateContainer. unfold tells. destruct (ContainerState e == State.STARTED) eqn:Es; cbn.
    + destruct (Key e == k) eqn:Ek; cbn.
      * apply eqb_string_true in Ek as <-. by rewrite lookup_insert_eq, Es.
      * rewrite lookup_insert_ne; [apply IHc|]. intros <-. by rewrite eqb_string_refl in Ek.
    + destruct (State.IsTerminal (ContainerState e)) eqn:Et; cbn; [|rewrite andb_false_r; apply IHc]. rewrite andb_true_r.
      destruct (Key e == k) eqn:Ek.
      * apply eqb_string_true in Ek as <-. by rewrite lookup_delete_eq, Es.
      * rewrite lookup_delete_ne; [apply IHc|]. intros <-. by rewrite eqb_string_refl in Ek.
  - intros a. rewrite last_start_snoc. destruct m as [e|now x]; cbn [receive on_container on_registration].
    + unfold UpdateContainer. destruct (_ == State.STARTED); [apply IHr|]. destruct (State.IsTerminal _); apply IHr.
    + unfold registerAnt. cbn. destruct (Ants.AntID (registration x) == a) eqn:Ea.
      * apply eqb_string_true in Ea as <-. by rewrite lookup_insert_eq.
      * rewrite lookup_insert_ne; [apply IHr|]. intros <-. by rewrite eqb_string_refl in Ea.
Qed.
End ContainerEvents.

Section Duplicates.
Context `{RangeOrder, AntHandler.Machine}.
Import Containers Running.

(** C28: after any history of container events and registrations, an ant ignores
    a request exactly when the last word on the container of the request is
    that it was started, and the ant that started it has registered and was,
    to the second, started before; when another ant's word is not enough the
    container is stopped first, and without a running container nothing is. *)
Theorem duplicate_is_ignored_iff_a_good_ant_runs_it h req ss ps :
  let method := opt_Method (ExecutorOpts req) in
  let k := ContainerLifecycleEventKey method (AntHandler.Name req) in
  let a := AntHandler.mkAnt (foldl receive NewAntContainersRegistry h) ss ps in
  AntHandler.PreExecute req a =
  match runs k h with
  | None => (true, a)
  | Some e =>
      if match last_start (ce_AntID e) h with Some t => Unix t <? Unix (CreatedAt e) | None => false end then (false, a)
      else (true, AntHandler.mkAnt (AntHandler.containers a) (ss ++ [(method, AntHandler.Name req)]) ps)
  end.
Proof.
  cbv zeta. destruct (registry_follows_messages h) as [HC HR]. unfold AntHandler.PreExecute, CheckIfAlreadyRunning. cbn [AntHandler.containers].
  rewrite HC. destruct (runs _ h) as [e|]; [|done]. rewrite <- HR.
  destruct (registrations _ !! ce_AntID e) as [x|]; cbn; [|done]. by destruct (_ <? _).
Qed.
End Duplicates.

(** ** The reaper *)

(** The identifiers that the cache knows are among those it was told. *)
Lemma Add_known (c : @LRU bool) k v x : is_Some (items (fst (fst (Lru.Add c k v))) !! x) -> x = k \/ is_Some (items c !! x).
Proof.
  unfold Lru.Add. destruct (items c !! k) as [e|] eqn:Ek; cbn.
  - unfold set_value. cbn. destruct (heap c !! e); cbn; tauto.
  - assert (forall y, is_Some (<[k := Lru.next c]> (items c) !! y) -> y = k \/ is_Some (items c !! y)) as HI.
    { intros y. destruct (decide (y = k)) as [->|]; [by left|rewrite lookup_insert_ne by done; by right]. }
    destruct (_ <? _); cbn; [|apply HI]. unfold removeOldest. destruct (Back _) as [e|]; cbn; [|apply HI].
    unfold removeElement. destruct (heap _ !! e) as [kv|]; cbn; [|apply HI]. rewrite lookup_delete_is_Some. intros [_ Hx]. by apply HI.
Qed.
Lemma on_completed_known ids (c : @LRU bool) x :
  is_Some (items (Reaper.on_completed (Some ids) c) !! x) -> x ∈ ids \/ is_Some (items c !! x).
Proof.
  revert c. induction ids as [|id ids IH]; intros c; cbn; [by right|]. intros [Hx|Hx]%IH; [left; by right|].
  apply Add_known in Hx as [->|Hx]; [left; by left|by right].
Qed.
Lemma Split_forall P s sep x : string_forall P s = true -> x ∈ Split s sep -> string_forall P x = true.
Proof.
  revert x. induction s as [|c s IH]; intros x Hs; cbn; [by intros ->%list_elem_of_singleton|].
  cbn in Hs. apply andb_true_iff in Hs as [Hc Hs]. destruct (Ascii.eqb c sep).
  - intros [->|Hx]%elem_of_cons; [done|by apply IH].
  - pose proof (IH) as IH'. destruct (Split s sep) as [|y ys] eqn:ES; [by intros ->%list_elem_of_singleton; cbn; rewrite Hc|].
    intros [->|Hx]%elem_of_cons; [cbn; rewrite Hc; apply IH; [done|by left]|]. apply IH; [done|by right].
Qed.

(** Containers have names of lower-case letters, digits and hyphens, while the
    identifiers of jobs have upper-case letters: the reaper is told which jobs
    have ended, and removes only containers that have run for too long. *)
Theorem reaper_ignores_completed_jobs now timeout c ids :
  string_forall dns_char (Running.GetName c) = true -> (forall id, id ∈ ids -> string_forall dns_char id = false) ->
  fst (Reaper.canReap now timeout c (Reaper.on_completed (Some ids) (NewLRU 10000))) =
  Contains (Running.GetName c) "frm-" && (timeout <? Reaper.ElapsedSecs now c).
Proof.
  intros Hn Hids. unfold Reaper.canReap. destruct (Contains _ _); [|done]. destruct (_ <? _); [done|]. cbn [andb].
  destruct (_ <? _)%nat; [|done]. unfold Lru.Get. destruct (items _ !! _) as [e|] eqn:Ei; [|done]. exfalso.
  destruct (on_completed_known ids (NewLRU 10000) (nth 1 (Split (Running.GetName c) "-") "")) as [Hx|Hx].
  - rewrite Ei. by eexists.
  - apply Hids in Hx. destruct (nth_in_or_default 1 (Split (Running.GetName c) "-") "") as [Hi|He]; [|by rewrite He in Hx].
    apply list_elem_of_In, (Split_forall dns_char) in Hi; [|done]. congruence.
  - cbn in Hx. rewrite lookup_empty in Hx. by destruct Hx.
Qed.

(** ** Concrete runs *)
Module AntDemo.

(** An executor that agrees to everything, and a network that works. *)
#[local] Instance agreeable : Executor unit :=
  {| PreExecute := fun _ w => (true, w); TerminateContainer := fun _ w => (inr "no containers", w);
     ListContainers := fun _ w => (inr "no containers", w) |}.
#[local] Instance working : Network := {| sends := fun _ => true |}.

Definition shell_task (job task : string) : TaskRequest :=
  mkTaskRequest "alice" "" "def" job "build" "" "exec" "texec" task "" EXECUTE [] [] [] ["make"] 0 ∅ (NewExecutorOptions Method.Shell).
Definition done_reply (job task : string) : TaskResponse := set_Status State.COMPLETED (NewTaskResponse (shell_task job task)).
Definition incoming (job task : string) : event unit := Incoming (Some (shell_task job task)) "c" "reply".

(** Two tasks of a job execute. *)
Definition two_tasks : list (event unit) :=
  [incoming "J1" "a"; incoming "J1" "b"; Begin 0; Begin 1; Admit 1; Admit 0].

Lemma ant_load_is_the_work_in_progress_witness :
  let t := run two_tasks (initial tt) in
  size (busy_works t) = 2%nat /\
  (forall p q wp wq rp rq bp bq,
     works t !! p = Some wp -> busy wp = true -> static (registry t) p = Some (rp, bp) ->
     works t !! q = Some wq -> busy wq = true -> static (registry t) q = Some (rq, bq) ->
     JobRequestID rp = JobRequestID rq -> TaskType rp = TaskType rq -> p = q) /\
  Ants.CurrentLoad (sendRegisterAntRequest 0 "ant-topic" (Ants.mkAntRegistration "a1" "" "" 5 [] [Method.Shell] 0 0 ∅ 0 None) t)
    = Z.of_nat (size (busy_works t)).
Proof.
  split; [vm_compute; reflexivity|].
  apply (ant_load_is_the_work_in_progress tt two_tasks 0 "ant-topic"
           (Ants.mkAntRegistration "a1" "" "" 5 [] [Method.Shell] 0 0 ∅ 0 None)). reflexivity.
Defined.

Definition ends_b : list (event unit) :=
  [Finish 1 (inl (done_reply "J1" "b")); JobEvent (Some ("J1", State.CANCELLED)); Return 1].

Lemma every_execution_is_answered_once_witness :
  exists r, Finish 1 r ∈ ends_b /\
    filter (fun x => fst (fst x) = 1%nat) (sent (run ends_b (run two_tasks (initial tt)))) =
      [(1%nat, "reply", reply_of (set_CoRelationID "c" (shell_task "J1" "b")) r)].
Proof.
  apply (every_execution_is_answered_once tt two_tasks ends_b 1 (mkWork Executing "reply") (set_CoRelationID "c" (shell_task "J1" "b")) true).
  - split; vm_compute; reflexivity.
  - vm_compute. reflexivity.
  - reflexivity.
  - intros x Hx. unfold ends_b in Hx. repeat (apply elem_of_cons in Hx as [Hx|Hx]); try discriminate Hx; [|by apply elem_of_nil in Hx].
    injection Hx as ->. vm_compute. reflexivity.
  - vm_compute. reflexivity.
Defined.

(** Cancelling a job ends one of its tasks; the other goes on. *)
Example one_task_survives_the_job :
  let t := run [JobEvent (Some ("J1", State.CANCELLED))] (run two_tasks (initial tt)) in
  (fun c => (ended c, Cancelled c)) <$> cells (registry t) !! 0%nat = Some (true, false) /\
  (fun c => (ended c, Cancelled c)) <$> cells (registry t) !! 1%nat = Some (false, false).
Proof. vm_compute. split; reflexivity. Qed.

(** While the task of a cancelled job still ends, the ant accepts the task again,
    and the end of the first then removes the second, whose work is not reported. *)
Example return_removes_the_successor :
  let t := run ([incoming "J1" "a"; Begin 0; Admit 0; JobEvent (Some ("J1", State.PAUSED)); incoming "J1" "a"; Begin 1; Admit 1;
                 Finish 0 (inl (done_reply "J1" "a")); Return 0]) (initial tt) in
  work_phase <$> works t !! 1%nat = Some Executing /\ Count (registry t) = 0 /\
  fst (InProgress.Cancel "J1-a" (registry t)) = inr (KeyNotFound "J1-a").
Proof. vm_compute. repeat split. Qed.

(** A retry that arrives after the reply and before the request is removed is
    dropped, and nobody answers it. *)
Example quick_retry_is_dropped :
  let t := run [incoming "J1" "a"; Begin 0; Admit 0; Finish 0 (inr "no space"); incoming "J1" "a"; Begin 1; Admit 1; Return 0]
             (initial tt) in
  works t = ∅ /\ map (fun x => fst (fst x)) (sent t) = [0%nat].
Proof. vm_compute. split; reflexivity. Qed.

(** Of two tasks of a job, the allocations that are reported name one. *)
Example one_allocation_for_two_tasks :
  let t := run two_tasks (initial tt) in
  Count (registry t) = 2 /\
  (fun al => size (Ants.task_types al)) <$> GetAllocations 0 "a1" "topic" (registry t) !! "J1" = Some 1%nat.
Proof. vm_compute. split; reflexivity. Qed.

(** ** Containers *)
Import Containers Running.
#[local] Instance machine : AntHandler.Machine :=
  {| AntHandler.ant_id := "a1"; AntHandler.clock := 100000000000; AntHandler.stop_error := fun _ _ => None;
     AntHandler.Name := fun req => ToLower (JobRequestID req +:+ TaskType req);
     AntHandler.json_events := fun l => inl (itoa (Z.of_nat (List.length l))); AntHandler.publishes := fun _ => true |}.
Definition second : Z := 1000000000.
Definition started_by (ant : string) (at_ : Z) : message :=
  ContainerMessage (mkContainerLifecycleEvent at_ "alice" ant Method.Shell "j1a" "id" State.STARTED ∅ at_ None).
Definition registered (ant : string) (start : Z) : message :=
  RegistrationMessage start (mkRegistered (Ants.mkAntRegistration ant "t" "" 5 [] [Method.Shell] 0 0 ∅ 0 None) start).
Definition ant_after (h : list message) : AntHandler.Ant := AntHandler.mkAnt (foldl receive NewAntContainersRegistry h) [] [].

(** A container of another ant whose registration has not been received yet is
    stopped. *)
Example unknown_ant_loses_its_container :
  AntHandler.stops (snd (AntHandler.PreExecute (shell_task "J1" "a") (ant_after [started_by "a2" (50 * second)]))) = [(Method.Shell, "j1a")].
Proof. vm_compute. reflexivity. Qed.

(** An ant that registered once is trusted for ever, and its requests ignored. *)
Example dead_ant_is_trusted :
  fst (AntHandler.PreExecute (shell_task "J1" "a") (ant_after [registered "a2" (10 * second); started_by "a2" (50 * second)])) = false.
Proof. vm_compute. reflexivity. Qed.

(** The containers that an ant finds when it starts again are registered with
    the present time, after its own start: it takes them for its own work, and
    ignores the request for the task they were left from. *)
Example restarted_ant_trusts_its_leftovers :
  let left := mkInfo "id" "j1a" Running_ (20 * second) None {["AntID" := "a1"]} in
  let r := registerAlreadyRunningContainers (95 * second) {[Method.Shell := [left]]} (foldl receive NewAntContainersRegistry [registered "a1" (90 * second)]) in
  fst (AntHandler.PreExecute (shell_task "J1" "a") (AntHandler.mkAnt r [] [])) = false.
Proof. vm_compute. reflexivity. Qed.

(** The label of a container holds the name of its ant in lower case. *)
Example upper_case_ant_is_unknown :
  let label := MakeDNS1123Compatible "Ant_1" in
  let left := mkInfo "id" "j1a" Running_ (20 * second) None {["AntID" := label]} in
  let r := registerAlreadyRunningContainers (95 * second) {[Method.Shell := [left]]} (foldl receive NewAntContainersRegistry [registered "Ant_1" (10 * second)]) in
  CheckIfAlreadyRunning Method.Shell "j1a" r = (OrphanContainer, true).
Proof. vm_compute. reflexivity. Qed.

(** The container of a job that has ended stays. *)
Example ended_job_keeps_its_container :
  let c := mkInfo "id" (MakeDNS1123Compatible "frm-01H8XGJWBWBAQ-build-0-0-77") Running_ (20 * second) None ∅ in
  fst (Reaper.canReap (30 * second) (3600 * second) c (Reaper.on_completed (Some ["01H8XGJWBWBAQ"]) (NewLRU 10000))) = false.
Proof. vm_compute. reflexivity. Qed.

End AntDemo.
