(* ===== verification/AntExecutor.v ===== *)
(** * AntExecutor: how an ant executes one task

    Models [src/ants/handler/request_executor.go] and [src/ants/transfer]: the
    container is built, the scripts run in it, artifacts and caches are fetched
    before and stored after, the container is stopped and the reply filled in.
    [Module Paths] has the path functions of Go, [Module Options] the options of
    a task that ants read ([src/internal/types/artifacts_config.go],
    [executor_opts.go], [artifact.go]), [Module Execution_] the execution.

    What happens outside, such as the result of a command or the answer of the
    artifact store, is an arbitrary function of the calls made before, so it may
    change with time and with what other goroutines do.  Traces, log output,
    volumes of containers and timings are left out. *)

From Stdlib Require Import Ascii.
From S2P Require Import Prelude RequestState Tags JobDefinition Tables JobRequest TaskMessage Ant.

Open Scope Z_scope.

(** ** Paths *)
Module Paths.
Definition slash : ascii := "/"%char.

(** The elements of a path that [filepath.Clean] keeps, the last first. *)
Fixpoint clean_parts (rooted : bool) (parts acc : list string) : list string :=
  match parts with
  | [] => acc
  | p :: parts =>
      if (p == "") || (p == ".") then clean_parts rooted parts acc
      else if p == ".." then
        match acc with
        | [] => clean_parts rooted parts (if rooted then [] else [".."])
        | q :: acc' => clean_parts rooted parts (if q == ".." then ".." :: acc else acc')
        end
      else clean_parts rooted parts (p :: acc)
  end.
Definition Clean (p : string) : string :=
  let rooted := HasPrefix p "/" in
  let s := Join (reverse (clean_parts rooted (Split p slash) [])) "/" in
  if rooted then "/" +:+ s else if s == "" then "." else s.
Definition Join2 (dir p : string) : string :=
  if (dir == "") && (p == "") then ""
  else if dir == "" then Clean p
  else if p == "" then Clean dir
  else Clean (dir +:+ "/" +:+ p).
(** [filepath.Dir]: what is before the last slash. *)
Definition Dir (p : string) : string :=
  match reverse (Split p slash) with
  | [] | [_] => "."
  | _ :: front => Clean (Join (reverse front) "/" +:+ "/")
  end.
(** [filepath.Base]: the last element, without slashes at the end. *)
Definition Base (p : string) : string :=
  if p == "" then "."
  else match List.filter (fun x => x != "") (reverse (Split p slash)) with
       | [] => "/"
       | x :: _ => x
       end.
Definition ReplaceDirPath (paths : list string) (dir : string) : list string :=
  if dir == "" then paths else map (fun k => Join2 dir (Base k)) paths.
End Paths.

(** ** Options and artifacts *)
Module Options.
Import NameValue.

Definition ArtifactsWhenOnSuccess : string := "onSuccess".
Definition ArtifactsWhenOnFailure : string := "onFailure".
Definition ArtifactsWhenAlways : string := "always".
Definition DefaultArtifactsExpirationDuration : Z := 24 * 1000 * 3600 * 1000000000.
Definition DefaultCacheExpirationDuration : Z := 24 * 30 * 3600 * 1000000000.
Record ArtifactsConfig := mkArtifactsConfig { art_Paths : list string; art_ExpiresAfter : Z; When : string }.
Definition art_Expiration (now : Z) (ac : ArtifactsConfig) : Z :=
  now + (if 0 <? art_ExpiresAfter ac then art_ExpiresAfter ac else DefaultArtifactsExpirationDuration).
Definition art_Valid (succeeded : bool) (ac : ArtifactsConfig) : bool :=
  let when := if When ac == "" then ArtifactsWhenAlways else When ac in
  if succeeded then (when == ArtifactsWhenAlways) || (when == ArtifactsWhenOnSuccess)
  else (when == ArtifactsWhenAlways) || (when == ArtifactsWhenOnFailure).
Definition GetPathsAndExpiration (now : Z) (succeeded : bool) (ac : ArtifactsConfig) : list string * Z :=
  (if art_Valid succeeded ac then art_Paths ac else [], art_Expiration now ac).

Record CacheConfig := mkCacheConfig {
  cache_Paths : list string;
  cache_Key : string;
  KeyPaths : list string;
  NewKeyDigest : string;
  cache_ExpiresAfter : Z
}.
Definition cache_Expiration (now : Z) (ac : CacheConfig) : Z :=
  now + (if 0 <? cache_ExpiresAfter ac then cache_ExpiresAfter ac else DefaultCacheExpirationDuration).
Definition cache_Valid (ac : CacheConfig) : bool :=
  (0 <? List.length (cache_Paths ac))%nat && ((0 <? List.length (KeyPaths ac))%nat || (cache_Key ac != "")).

Record AntOptions := mkAntOptions {
  Name : string;
  Debug : bool;
  Privileged : bool;
  ReportStdout : bool;
  Environment : gmap string string;
  HelperEnvironment : gmap string string;
  PodLabels : gmap string string;
  Artifacts : ArtifactsConfig;
  Cache : CacheConfig;
  DependentArtifactIDs : list string;
  ArtifactsDirectory : string;
  CacheDirectory : string;
  Image : string;
  HelperImage : string
}.
Definition set_environments (env helper labels : gmap string string) (helperImage : string) (o : AntOptions) : AntOptions :=
  mkAntOptions (Name o) (Debug o) (Privileged o) (ReportStdout o) env helper labels (Artifacts o) (Cache o)
    (DependentArtifactIDs o) (ArtifactsDirectory o) (CacheDirectory o) (Image o) helperImage.
Definition add_path (p : string) (o : AntOptions) : AntOptions :=
  mkAntOptions (Name o) (Debug o) (Privileged o) (ReportStdout o) (Environment o) (HelperEnvironment o) (PodLabels o)
    (mkArtifactsConfig (art_Paths (Artifacts o) ++ [p]) (art_ExpiresAfter (Artifacts o)) (When (Artifacts o))) (Cache o)
    (DependentArtifactIDs o) (ArtifactsDirectory o) (CacheDirectory o) (Image o) (HelperImage o).
Definition set_NewKeyDigest (d : string) (o : AntOptions) : AntOptions :=
  mkAntOptions (Name o) (Debug o) (Privileged o) (ReportStdout o) (Environment o) (HelperEnvironment o) (PodLabels o)
    (Artifacts o)
    (mkCacheConfig (cache_Paths (Cache o)) (cache_Key (Cache o)) (KeyPaths (Cache o)) d (cache_ExpiresAfter (Cache o)))
    (DependentArtifactIDs o) (ArtifactsDirectory o) (CacheDirectory o) (Image o) (HelperImage o).

Definition ArtifactKindLogs : string := "LOGS".
Definition ArtifactKindTask : string := "TASK_ARTIFACTS".
Definition ArtifactKindUser : string := "USER_UPLOADED".
Definition ArtifactKindCache : string := "CACHE".
Record Artifact := mkArtifact {
  a_ID : string;
  a_Bucket : string;
  a_Name : string;
  a_Kind : string;
  a_SHA256 : string;
  a_ContentLength : Z;
  a_ExpiresAt : Z;
  a_Metadata : gmap string string
}.
Definition set_Kind (kind : string) (a : Artifact) : Artifact :=
  mkArtifact (a_ID a) (a_Bucket a) (a_Name a) kind (a_SHA256 a) (a_ContentLength a) (a_ExpiresAt a) (a_Metadata a).
Definition set_ExpiresAt (t : Z) (a : Artifact) : Artifact :=
  mkArtifact (a_ID a) (a_Bucket a) (a_Name a) (a_Kind a) (a_SHA256 a) (a_ContentLength a) t (a_Metadata a).
Definition put_metadata (k v : string) (a : Artifact) : Artifact :=
  mkArtifact (a_ID a) (a_Bucket a) (a_Name a) (a_Kind a) (a_SHA256 a) (a_ContentLength a) (a_ExpiresAt a) (<[k := v]> (a_Metadata a)).
(** The first thing missing, as a text. *)
Definition a_Validate (a : Artifact) : option string :=
  if a_Name a == "" then Some "artifact name is not specified"
  else if a_Bucket a == "" then Some "artifact bucket is not specified"
  else if a_ID a == "" then Some "artifact id is not specified"
  else if a_SHA256 a == "" then Some "artifact sha256 is not specified"
  else if a_ContentLength a =? 0 then Some "artifact content-length is not specified"
  else None.

(** ** The artifact store *)
Record S3Config := mkS3Config {
  Endpoint : string;
  AccessKeyID : string;
  SecretAccessKey : string;
  Region : string;
  Prefix : string;
  Bucket : string;
  UseSSL : bool;
  LocalMode : bool;
  LocalContainerHost : string
}.
Definition BuildEndpoint (c : S3Config) : string :=
  (if UseSSL c then "https" else "http") +:+ "://" +:+ Endpoint c.
(** The host, and the port after the last colon of the endpoint. *)
Definition LocalContainerEndpoint (c : S3Config) : string :=
  let host := if LocalContainerHost c == "" then "host.docker.internal" else LocalContainerHost c in
  let port := match reverse (Split (Endpoint c) ":"%char) with p :: _ :: _ => p | _ => "8333" end in
  host +:+ ":" +:+ port.
Definition BuildContainerEndpoint (c : S3Config) : string :=
  if LocalMode c then "http://" +:+ LocalContainerEndpoint c else BuildEndpoint c.
(** The environment of the helper container. *)
Definition helper_environment (c : S3Config) : gmap string string :=
  list_to_map
    [("AWS_URL", BuildContainerEndpoint c); ("AWS_ENDPOINT", if LocalMode c then LocalContainerEndpoint c else Endpoint c);
     ("AWS_ACCESS_KEY_ID", AccessKeyID c); ("AWS_SECRET_ACCESS_KEY", SecretAccessKey c); ("AWS_DEFAULT_REGION", Region c);
     ("AWS_CLI_S3_ADDRESSING_STYLE", "path"); ("AWS_CLI_S3_SIGNATURE_VERSION", "s3v4");
     ("AWS_CLI_S3_MAX_CONCURRENT_REQUESTS", "10")].

(** ** Secrets

    [fmt.Sprintf] with the verb %s marks a value that is not a string. *)
Class Percent := { percent_s_other : string -> option string -> string }.
Section Text.
Context `{Percent, RangeOrder}.
Definition percent_s (v : value) : string :=
  match v with
  | VNil => "%!s(<nil>)"
  | VString s => s
  | VBool b => "%!s(bool=" +:+ (if b then "true" else "false") +:+ ")"
  | VInt k z => "%!s(" +:+ k +:+ "=" +:+ itoa z +:+ ")"
  | VOther k json => percent_s_other k json
  end.
Definition GetMaskFields (req : Message.TaskRequest) : list string :=
  omap (fun kv => if Message.var_Secret (snd kv) then Some (percent_s (Message.var_Value (snd kv))) else None)
    (range (Message.Variables req)).
Definition maskedText : string := "[****]".
Definition Mask (req : Message.TaskRequest) (s : string) : string :=
  if s == "" then s else foldl (fun s next => ReplaceAll s next maskedText) s (GetMaskFields req).
Definition CacheArtifactID_ (req : Message.TaskRequest) (o : AntOptions) (prefix key : string) : string :=
  if negb (cache_Valid (Cache o)) then ""
  else CacheArtifactID prefix (if Message.OrganizationID req == "" then Message.UserID req else Message.OrganizationID req)
         (Message.JobType req) key.
End Text.
End Options.

(** ** The execution of a task *)
Module Execution_.
Import Message Options NameValue.

(** The reply with the fields that only ants fill in. *)
Record Reply := mkReply {
  base : TaskResponse;
  Stdout : list string;
  FailedCommand : string;
  arts : list Artifact
}.
Definition set_base (f : TaskResponse -> TaskResponse) (r : Reply) : Reply :=
  mkReply (f (base r)) (Stdout r) (FailedCommand r) (arts r).
Definition add_stdout (s : string) (r : Reply) : Reply := mkReply (base r) (Stdout r ++ [s]) (FailedCommand r) (arts r).
Definition set_FailedCommand (s : string) (r : Reply) : Reply := mkReply (base r) (Stdout r) s (arts r).
Definition add_artifact (a : Artifact) (r : Reply) : Reply :=
  mkReply (AddArtifact (a_ID a) (base r)) (Stdout r) (FailedCommand r) (arts r ++ [a]).

(** The result of a command. *)
Record Result := mkResult {
  stdout : string;
  stderr : string;
  exitCode : Z;
  exitMessage : string;
  cmd_error : option string
}.

(** What the execution does outside: a command of a script, with whether it may
    run without a shell and whether it failed; a command that moves artifacts. *)
Inductive call :=
| OpenLog
| Build (environment helper : gmap string string)
| Publish (state : RequestState)
| Script_ (cmd : string) (withoutShell failed : bool)
| Move (cmd : string) (helper : bool)
| SaveFile (prefix id name : string) (paths : list string)
| SaveBytes (prefix name : string)
| Fetch (id dir : string)
| Digest (paths : list string)
| Capture (fileName : string)
| Stop
| Cleanup (paths : list string).

Class Node := {
  ant_id : string;
  host : string;
  ant_Debug : bool;
  S3 : S3Config;
  Kubernetes_HelperImage : string;
  Docker_HelperImage : string;
  Namespace : string;
  Kubernetes_Host : string;
  Docker_Host : string;
  Docker_Server : string;
  clock : Z;
  container_ID : string;
  container_Name : string;
  container_Host : string;
  container_IP : string;
  container_State : list call -> string;
  log_error : list call -> option string;
  build_error : list call -> option string;
  command : list call -> string -> bool -> Result;
  (** [ctx.Err()] when a script has run. *)
  ctx_Err : list call -> option string;
  (** The flag that a cancellation sets. *)
  is_Cancelled : list call -> bool;
  save_file : list call -> Artifact -> Artifact + string;
  save_bytes : list call -> string -> string -> Artifact + string;
  fetch_error : list call -> option string;
  digest : list call -> string + string;
  capture : list call -> string -> string + string;
  (** The error of [strconv.Atoi]. *)
  atoi_error : string -> string;
  describe : Artifact -> string
}.

Record St := mkSt { calls : list call; opts : AntOptions; resp : Reply }.
Definition X (A : Type) : Type := St -> A * St.
Definition ret {A} (a : A) : X A := fun s => (a, s).
Definition bind {A B} (m : X A) (k : A -> X B) : X B := fun s => let '(a, s) := m s in k a s.
Declare Scope run_scope.
Delimit Scope run_scope with run.
Notation "x <- m ;; k" := (bind m (fun x => k)) (at level 100, m at next level, right associativity) : run_scope.
Notation "m ;;; k" := (bind m (fun _ => k)) (at level 100, right associativity) : run_scope.
Open Scope run_scope.
Definition act (c : call) : X unit := fun s => (tt, mkSt (calls s ++ [c]) (opts s) (resp s)).
Definition ask {A} (f : list call -> A) : X A := fun s => (f (calls s), s).
Definition get_opts : X AntOptions := fun s => (opts s, s).
Definition set_opts (f : AntOptions -> AntOptions) : X unit := fun s => (tt, mkSt (calls s) (f (opts s)) (resp s)).
Definition get_resp : X Reply := fun s => (resp s, s).
Definition set_resp (f : Reply -> Reply) : X unit := fun s => (tt, mkSt (calls s) (opts s) (f (resp s))).

Section Executor.
Context `{Node, Percent, RangeOrder} (req : TaskRequest).
Abbreviation method := (opt_Method (ExecutorOpts req)).

(** ** Commands of artifact transfers *)
Definition execute_cmd (cmd : string) (helper : bool) : X Result :=
  r <- ask (fun l => command l cmd helper) ;;
  act (Move cmd helper) ;;;
  ret r.

(** What [ArtifactTransfer] does through a helper container or by itself. *)
Inductive transfer := HelperContainer | Service.
Definition buildArtifactTransferService : option transfer :=
  if (method == Method.Shell) || (method == Method.HTTPGet) || (method == Method.HTTPPostForm) || (method == Method.HTTPPostJSON)
     || (method == Method.HTTPPutJSON) || (method == Method.HTTPDelete) || (method == Method.WebSocket)
  then Some Service
  else if (method == Method.Kubernetes) || (method == Method.Docker) then Some HelperContainer
  else None.

(** *** Through a helper container *)
Definition configureCmd : string := "aws configure set default.s3.addressing_style path".

Fixpoint copy_all (dir : string) (paths : list string) (names : string) : X string :=
  match paths with
  | [] => ret names
  | p :: paths =>
      let '(cmd, zipName) :=
        if HasPrefix p "/" then ("mkdir -p " +:+ dir +:+ " && cp -r --parents " +:+ p +:+ " " +:+ dir, TrimPrefix p "/")
        else ("mv " +:+ p +:+ " " +:+ dir, p) in
      r <- execute_cmd cmd false ;;
      copy_all dir paths (match cmd_error r with Some _ => names | None => names +:+ zipName +:+ " " end)
  end.

(** The commands of the debugging aid; their results only go to the log. *)
Definition debugPreUpload (zipFile : string) : X unit :=
  execute_cmd (configureCmd +:+ " && ls -lh " +:+ zipFile) true ;;;
  r <- execute_cmd ("curl -f --connect-timeout 3 -s -o /dev/null -w '%{http_code}' '" +:+ BuildContainerEndpoint S3 +:+ "'") true ;;
  (match cmd_error r with
   | None => ret tt
   | Some _ => execute_cmd "curl -f --connect-timeout 3 -s -o /dev/null -w '%{http_code}' '$AWS_URL'" true ;;; ret tt
   end) ;;;
  execute_cmd ("aws s3 --endpoint-url " +:+ BuildContainerEndpoint S3 +:+ " ls s3://" +:+ Bucket S3 +:+ "/") true ;;;
  ret tt.

Definition helper_upload (id name : string) (paths : list string) (expiration : Z) (dir : string) : X (Artifact + string) :=
  names <- copy_all dir paths "" ;;
  let zipFile := Paths.Join2 dir name in
  let zipCmd := "cd " +:+ dir +:+ " && ls -l && python3 -m zipfile -c " +:+ zipFile +:+ " " +:+ names
                +:+ " && python3 -m zipfile -l " +:+ zipFile in
  zip <- execute_cmd zipCmd true ;;
  match cmd_error zip with
  | Some e => ret (inr ("failed to zip artifacts " +:+ zipFile +:+ " [" +:+ zipCmd +:+ "] due to " +:+ e +:+ ", stderr=" +:+ stderr zip))
  | None =>
      let shaCmd := "sha256sum " +:+ zipFile +:+ " && ls -l " +:+ zipFile +:+ " && python3 -m zipfile -l " +:+ zipFile +:+ "|head -10" in
      sha <- execute_cmd shaCmd true ;;
      match cmd_error sha with
      | Some e => ret (inr ("failed to zip artifacts " +:+ zipFile +:+ " [" +:+ shaCmd +:+ "] due to " +:+ e +:+ ", stderr=" +:+ stderr sha))
      | None =>
          let parts := Split (stdout sha) " "%char in
          if (List.length parts <=? 6)%nat
          then ret (inr ("unexpected parts found in upload [" +:+ Join parts " " +:+ "]"))
          else match Atoi (nth 6 parts "") with
               | None => ret (inr ("failed to parse parts [" +:+ Join parts " " +:+ "] due to " +:+ atoi_error (nth 6 parts "")))
               | Some size =>
                   let sha256 := nth 0 parts "" in
                   let sha256 := drop_string (String.length sha256 - 64) sha256 in
                   (if ant_Debug then debugPreUpload zipFile else ret tt) ;;;
                   let uploadCmd := configureCmd +:+ " && ls -l " +:+ zipFile +:+ " && aws s3 --endpoint-url " +:+ BuildContainerEndpoint S3
                                    +:+ " cp " +:+ zipFile +:+ " s3://" +:+ Bucket S3 +:+ "/" +:+ id in
                   let uploadCmd := if clock / 1000000000 <? expiration / 1000000000
                                    then uploadCmd +:+ " --expires " +:+ Schedule.RFC3339 expiration else uploadCmd in
                   up <- execute_cmd uploadCmd true ;;
                   match cmd_error up with
                   | Some e => ret (inr ("failed to upload " +:+ id +:+ " due to " +:+ e +:+ ", stderr=" +:+ stderr sha))
                   | None => ret (inl (mkArtifact id (Bucket S3) name "" sha256 size expiration ∅))
                   end
               end
      end
  end.

Fixpoint run_all (id : string) (cmds : list string) : X (option string) :=
  match cmds with
  | [] => ret None
  | cmd :: cmds =>
      r <- execute_cmd cmd true ;;
      match cmd_error r with
      | Some e => ret (Some ("failed to download dependent artifact '" +:+ id +:+ "' due to " +:+ e +:+ ", stderr=" +:+ stderr r))
      | None => run_all id cmds
      end
  end.
Definition helper_download (extractedDir id : string) : X (option string) :=
  run_all id
    ["mkdir -p " +:+ extractedDir +:+ " && aws s3 --endpoint-url " +:+ BuildContainerEndpoint S3 +:+ " cp s3://" +:+ Bucket S3 +:+ "/" +:+ id
       +:+ " all_artifacts.zip && ls -l all_artifacts.zip";
     "python3 -m zipfile -e all_artifacts.zip " +:+ extractedDir;
     "rm all_artifacts.zip && find " +:+ extractedDir +:+ " | head -10"].

Definition helper_digest (paths : list string) : X (string + string) :=
  match paths with
  | [] => ret (inr "no paths specified for digest")
  | _ =>
      o <- get_opts ;;
      r <- execute_cmd ("cp " +:+ Join paths " " +:+ " " +:+ CacheDirectory o) false ;;
      match cmd_error r with
      | Some e => ret (inr ("failed to copy key files for calculating cache key due to " +:+ e +:+ ", stderr=" +:+ stderr r))
      | None =>
          r <- execute_cmd ("cat " +:+ Join (Paths.ReplaceDirPath paths (CacheDirectory o)) " " +:+ "|sha256sum|awk '{print $1}'") true ;;
          match cmd_error r with
          | Some e => ret (inr ("failed to calculate cache key due to " +:+ e +:+ ", stderr=" +:+ stderr r))
          | None => ret (inl (TrimSpace (stdout r)))
          end
      end
  end.

(** *** By the ant itself *)
Definition service_upload (prefix id name : string) (paths : list string) (expiration : Z) : X (Artifact + string) :=
  r <- ask (fun l => save_file l (mkArtifact id "" name "" "" 0 expiration ∅)) ;;
  act (SaveFile prefix id name paths) ;;;
  ret r.

(** *** The interface *)
Definition UploadArtifacts (t : transfer) (paths : list string) (expiration : Z) : X (Artifact + string) :=
  o <- get_opts ;;
  match t with
  | HelperContainer =>
      helper_upload (NormalizePrefix (Prefix S3) +:+ KeyPath req +:+ ".zip") (TaskType req +:+ ".zip") paths expiration (ArtifactsDirectory o)
  | Service => service_upload (KeyPath req) "" (TaskType req +:+ ".zip") paths expiration
  end.
Definition UploadCache (t : transfer) (id : string) (paths : list string) (expiration : Z) : X (Artifact + string) :=
  o <- get_opts ;;
  match t with
  | HelperContainer => helper_upload id (TaskType req +:+ "_cache.zip") paths expiration (CacheDirectory o)
  | Service => service_upload "" id (TaskType req +:+ "_cache.zip") paths expiration
  end.
Definition CalculateDigest (t : transfer) (paths : list string) : X (string + string) :=
  match t with
  | HelperContainer => helper_digest paths
  | Service =>
      match paths with
      | [] => ret (inr "no paths specified for digest")
      | _ => r <- ask digest ;; act (Digest paths) ;;; ret r
      end
  end.
Definition DownloadArtifact (t : transfer) (extractedDir id : string) : X (option string) :=
  match t with
  | HelperContainer => helper_download extractedDir id
  | Service => r <- ask fetch_error ;; act (Fetch id extractedDir) ;;; ret r
  end.

(** ** Before the script: dependent artifacts and the cache *)
Definition warn (message : string) (fatal : bool) : X unit := set_resp (set_base (AdditionalError message fatal)).

Fixpoint download_all (t : transfer) (dir : string) (ids : list string) : X (option string) :=
  match ids with
  | [] => ret None
  | id :: ids =>
      r <- DownloadArtifact t dir id ;;
      match r with
      | Some e => warn e true ;;; ret (Some e)
      | None => download_all t dir ids
      end
  end.
Definition downloadDependentArtifacts (t : transfer) : X (option string) :=
  o <- get_opts ;;
  let extractedDir := ArtifactsDirectory o +:+ "/extracted-artifacts" in
  failed <- download_all t extractedDir (DependentArtifactIDs o) ;;
  match failed with
  | Some e => ret (Some e)
  | None =>
      r <- execute_cmd ("find " +:+ extractedDir +:+ " -mindepth 1 -maxdepth 1 -exec cp -R {} . \; && find " +:+ extractedDir +:+ " | head -10") false ;;
      match cmd_error r with
      | Some e => warn ("failed to extract dependent artifact due to " +:+ e +:+ ", stderr=" +:+ stderr r) true ;;; ret (Some e)
      | None =>
          if String.length (stdout r) =? 0 then
            let msg := "dependent artifact extraction produced no output in " +:+ extractedDir +:+ " — files may not have copied" in
            warn msg false ;;; ret (Some msg)
          else ret None
      end%nat
  end.

Fixpoint extract_cache (dir : string) (paths : list string) : X unit :=
  match paths with
  | [] => ret tt
  | p :: paths =>
      execute_cmd ("mkdir -p " +:+ Paths.Dir p +:+ " && mv " +:+ Paths.Join2 dir p +:+ " " +:+ p) false ;;;
      extract_cache dir paths
  end.
(** The cache never fails a task. *)
Definition downloadCache (t : transfer) : X (option string) :=
  o <- get_opts ;;
  d <- (if (cache_Key (Cache o) == "") && (0 <? List.length (KeyPaths (Cache o)))%nat then
          d <- CalculateDigest t (KeyPaths (Cache o)) ;;
          match d with
          | inl d => ret d
          | inr e => warn e false ;;; ret ""
          end
        else ret (cache_Key (Cache o))) ;;
  if d == "" then ret None
  else
    set_opts (set_NewKeyDigest d) ;;;
    r <- DownloadArtifact t (CacheDirectory o) (CacheArtifactID_ req o (Prefix S3) d) ;;
    match r with
    | Some _ => ret None
    | None => extract_cache (CacheDirectory o) (cache_Paths (Cache o)) ;;; ret None
    end.

(** The error of the dependent artifacts is assigned and then dropped. *)
Definition SetupCacheAndDownloadArtifacts : X (option string) :=
  match buildArtifactTransferService with
  | None => ret (Some ("failed to find artifact transfer service for " +:+ method))
  | Some t =>
      o <- get_opts ;;
      (if Method.SupportsDependentArtifacts method && (0 <? List.length (DependentArtifactIDs o))%nat
       then downloadDependentArtifacts t else ret None) ;;;
      if cache_Valid (Cache o) && Method.SupportsCache method then downloadCache t else ret None
  end.

(** ** Commands of a script *)
Definition is_shell_char (c : ascii) : bool :=
  Ascii.eqb c "&" || Ascii.eqb c "|" || Ascii.eqb c "$" || Ascii.eqb c ">" || Ascii.eqb c "<"
  || ((48 <=? nat_of_ascii c)%nat && (nat_of_ascii c <=? 57)%nat).
Definition checkCommandCanExecuteWithoutShell (cmd : string) : bool := string_forall (fun c => negb (is_shell_char c)) cmd.

(** The first message is kept, and the first exit code unless a later command
    has a positive one. *)
Definition note_exit (cmd : string) (r : Result) (x : Reply) : Reply :=
  let code := if (ExitCode (base x) == "") || (0 <? exitCode r) then itoa (exitCode r) else ExitCode (base x) in
  let message := if ExitMessage (base x) == "" then Mask req (exitMessage r) else ExitMessage (base x) in
  let x := set_base (set_Exit code message) x in
  match cmd_error r with
  | Some _ => if FailedCommand x == "" then set_FailedCommand (Mask req cmd) x else x
  | None => x
  end.
Definition doExecute (cmd : string) : X Result :=
  r <- ask (fun l => command l cmd false) ;;
  act (Script_ cmd (checkCommandCanExecuteWithoutShell cmd) (match cmd_error r with Some _ => true | None => false end)) ;;;
  set_resp (note_exit cmd r) ;;;
  ret r.

(** A line that sets a variable of the job. *)
Definition set_output : string := "::set-output name=".
Definition output_of (line : string) : option (string * string) :=
  let line := TrimSpace line in
  if HasPrefix line set_output && Contains line "::" then
    match Cut (TrimPrefix line set_output) "::" with
    | Some (key, v) => if key == "" then None else Some (key, v)
    | None => None
    end
  else None.
Definition newline : ascii := ascii_of_nat 10.
Definition add_outputs (out : string) (x : Reply) : Reply :=
  foldl (fun x line => match output_of line with
                       | Some (key, v) => set_base (AddJobContext key (VString v)) x
                       | None => x
                       end) x (Split out newline).

Definition addArtifactToPath (i : nat) (out : string) : X (string + string) :=
  if (String.length out =? 0)%nat then ret (inl "")
  else
    let fileName := JobRequestID req +:+ "_" +:+ MakeDNS1123Compatible (TaskType req) +:+ "_" +:+ itoa (Z.of_nat i) +:+ ".stdout" in
    r <- ask (fun l => capture l fileName) ;;
    act (Capture fileName) ;;;
    ret r.

(** One command with what is read from its output: an error that ends the
    script, or the last error so far. *)
Definition run_command (i : nat) (cmd : string) (failOnError : bool) (lastError : option string)
    : X (string + option string) :=
  r <- doExecute cmd ;;
  match cmd_error r, failOnError with
  | Some e, true => ret (inl e)
  | err, _ =>
      o <- get_opts ;;
      (match err with
       | None => if ReportStdout o then set_resp (add_stdout (stdout r)) else ret tt
       | Some _ => ret tt
       end) ;;;
      let lastError := match err with Some e => Some e | None => lastError end in
      set_resp (add_outputs (stdout r)) ;;;
      if Method.SupportsCaptureStdout method then
        path <- addArtifactToPath i (stdout r) ;;
        match path with
        | inr e => if failOnError then ret (inl e) else ret (inr (Some e))
        | inl path => (if path != "" then set_opts (add_path path) else ret tt) ;;; ret (inr lastError)
        end
      else ret (inr lastError)
  end.
Fixpoint run_commands (i : nat) (cmds : list string) (failOnError : bool) (lastError : option string) : X (option string) :=
  match cmds with
  | [] => match lastError with Some e => ret (Some e) | None => ask ctx_Err end
  | cmd :: cmds =>
      r <- run_command i cmd failOnError lastError ;;
      match r with
      | inl e => ret (Some e)
      | inr lastError => run_commands (S i) cmds failOnError lastError
      end
  end.
Definition execute (cmds : list string) (failOnError : bool) : X (option string) := run_commands 0 cmds failOnError None.

(** ** The container *)
Definition sendContainerEvent (status : RequestState) : X unit := act (Publish status).

(** [BuildProvider] knows these methods. *)
Definition supported : bool :=
  (method == Method.Shell) || (method == Method.Docker) || (method == Method.Kubernetes) || Method.IsHTTP method.

Definition prepare : X unit :=
  set_opts (fun o =>
    set_environments
      (foldl (fun m kv => <[fst kv := percent_s (var_Value (snd kv))]> m) (Environment o) (range (Variables req)))
      (helper_environment S3 ∪ HelperEnvironment o)
      (<["AntID" := MakeDNS1123Compatible ant_id]> (PodLabels o))
      (if method == Method.Kubernetes then Kubernetes_HelperImage
       else if method == Method.Docker then Docker_HelperImage else HelperImage o) o).
Definition BuildExecutor : X (option string) :=
  if negb supported then ret (Some ("unsupported method " +:+ method))
  else
    o <- get_opts ;;
    r <- ask build_error ;;
    act (Build (Environment o) (HelperEnvironment o)) ;;;
    ret r.
Definition preProcess : X (option string) :=
  l <- ask log_error ;;
  act OpenLog ;;;
  match l with
  | Some e => ret (Some e)
  | None =>
      prepare ;;;
      b <- BuildExecutor ;;
      match b with
      | Some e => ret (Some e)
      | None => sendContainerEvent State.STARTED ;;; ret None
      end
  end.

(** ** After the script *)
Definition uploadArtifacts (t : transfer) (paths : list string) (expiration : Z) : X (Artifact + string) :=
  r <- UploadArtifacts t paths expiration ;;
  match r with
  | inr e => warn e true ;;; ret (inr e)
  | inl a =>
      let a := set_Kind ArtifactKindTask a in
      match a_Validate a with
      | Some e => ret (inr ("failed to validate artifact " +:+ describe a +:+ " due to " +:+ e))
      | None => set_resp (add_artifact a) ;;; ret (inl a)
      end
  end.
Definition uploadCache (t : transfer) : X (option Artifact) :=
  o <- get_opts ;;
  let key := NewKeyDigest (Cache o) in
  if key == "" then ret None
  else
    r <- UploadCache t (CacheArtifactID_ req o (Prefix S3) key) (cache_Paths (Cache o)) (cache_Expiration clock (Cache o)) ;;
    match r with
    | inr e => warn e false ;;; ret None
    | inl a =>
        let a := set_Kind ArtifactKindCache a in
        match a_Validate a with
        | Some e => warn ("failed to validate artifact " +:+ describe a +:+ " due to " +:+ e) false ;;; ret None
        | None =>
            let a := put_metadata "KeysDigest" key a in
            set_resp (add_artifact a) ;;;
            set_resp (set_base (AddContext "CachedArtifactKey" (VString key))) ;;;
            ret (Some a)
        end
    end.
Definition UploadCacheAndArtifacts : X (list Artifact + string) :=
  match buildArtifactTransferService with
  | None => ret (inr ("failed to find artifact transfer service for " +:+ method))
  | Some t =>
      o <- get_opts ;;
      x <- get_resp ;;
      let '(paths, expiration) := GetPathsAndExpiration clock (State.Completed (Status (base x))) (Artifacts o) in
      r <- (if (0 <? List.length paths)%nat then
              a <- uploadArtifacts t paths expiration ;;
              ret (match a with inl a => inl [a] | inr e => inr e end)
            else ret (inl [])) ;;
      match r with
      | inr e => ret (inr e)
      | inl l =>
          if Method.SupportsCache method && cache_Valid (Cache o) then
            c <- uploadCache t ;;
            ret (inl (match c with Some c => l ++ [c] | None => l end))
          else ret (inl l)
      end
  end.

Definition UploadConsoleLog : X unit :=
  r <- ask (fun l => save_bytes l (KeyPath req) (TaskType req +:+ "_console.txt")) ;;
  act (SaveBytes (KeyPath req) (TaskType req +:+ "_console.txt")) ;;;
  match r with
  | inr _ => ret tt
  | inl a => set_resp (add_artifact (set_ExpiresAt (clock + DefaultArtifactsExpirationDuration) (set_Kind ArtifactKindLogs a)))
  end.

Definition updateResponseContext : X unit :=
  o <- get_opts ;;
  x <- get_resp ;;
  state <- ask container_State ;;
  set_resp (set_base (fun b =>
    let b := set_AntHost ant_id host b in
    let b := AddContext "Image" (VString (Image o)) b in
    let b := AddContext "HelperImage" (VString (HelperImage o)) b in
    let b := if method == Method.Kubernetes then
               let b := AddContext "Namespace" (VString Namespace) b in
               if Kubernetes_Host != "" then AddContext "KubernetesHost" (VString Kubernetes_Host) b else b
             else if method == Method.Docker then
               AddContext "DockerServer" (VString Docker_Server) (AddContext "DockerHost" (VString Docker_Host) b)
             else b in
    let b := AddJobContext (TaskType req +:+ "-status") (VOther "types.RequestState" (Some (Status b))) b in
    let b := AddContext "ContainerID" (VString container_ID) b in
    let b := AddContext "ContainerName" (VString container_Name) b in
    let b := AddContext "ContainerState" (VOther "executor.State" (Some state)) b in
    let b := if container_Host != "" then AddContext "ContainerHost" (VString container_Host) b else b in
    if container_IP != "" then AddContext "ContainerIP" (VString container_IP) b else b)).

(** Artifacts are stored unless the request is cancelled or the container has
    failed; the container is stopped in any case. *)
Definition store_artifacts : X unit :=
  c <- ask is_Cancelled ;;
  state <- ask container_State ;;
  if negb c && (state != Running.ContainerFailed) then
    r <- UploadCacheAndArtifacts ;;
    match r with
    | inr e => warn ("failed to upload artifacts due to '" +:+ e +:+ "'") true
    | inl _ => ret tt
    end
  else ret tt.
Definition store_console : X unit :=
  o <- get_opts ;;
  act (Cleanup (art_Paths (Artifacts o))) ;;;
  c <- ask is_Cancelled ;;
  (if negb c then UploadConsoleLog else ret tt) ;;;
  updateResponseContext.
Definition postProcess : X unit :=
  store_artifacts ;;;
  act Stop ;;;
  store_console ;;;
  sendContainerEvent State.COMPLETED.

(** ** A task *)
Definition fail (message : string) : X unit := set_resp (set_base (fun b => set_ErrorMessage message (set_Status State.FAILED b))).

(** The scripts before the after-script, and the status they give. *)
Definition scripts : X unit :=
  e <- execute (BeforeScript req) true ;;
  match e with
  | Some e => fail (Mask req e)
  | None =>
      e <- SetupCacheAndDownloadArtifacts ;;
      match e with
      | Some e => fail e
      | None =>
          e <- execute (Script req) true ;;
          match e with
          | Some e => fail (Mask req e)
          | None => set_resp (set_base (set_Status State.COMPLETED))
          end
      end
  end.
Definition debug_command : string :=
  "echo system memory in bytes && cat /sys/fs/cgroup/memory/memory.usage_in_bytes && echo cpu usage in nanoseconds && cat /sys/fs/cgroup/cpu/cpuacct.usage && df -k".
Definition after_script (o : AntOptions) : list string :=
  if Debug o && Privileged o then AfterScript req ++ [debug_command] else AfterScript req.
Definition Execute : X unit :=
  p <- preProcess ;;
  match p with
  | Some e => fail (Mask req e)
  | None =>
      scripts ;;;
      o <- get_opts ;;
      e <- execute (after_script o) false ;;
      (match e with Some e => warn e false | None => ret tt end) ;;;
      postProcess
  end.
Definition Execute_task (o : AntOptions) : St := snd (Execute (mkSt [] o (mkReply (NewTaskResponse req) [] "" []))).
End Executor.
End Execution_.
