(* ===== verification/AntExecutorSpec.v ===== *)
(** * AntExecutorSpec: theorems about the execution of a task by an ant *)

From Stdlib Require Import Ascii.
From S2P Require Import Prelude RequestState Tags JobDefinition Tables JobRequest TaskMessage Ant AntExecutor.

Open Scope Z_scope.
Import Message Options NameValue Execution_.

(** ** What the parts of an execution leave alone

    A quiet call neither runs a script, stops the container nor publishes its
    state.  A gentle computation makes quiet calls only, keeps the options that
    decide on debugging, and leaves the status or sets it to failed. *)
Definition quiet (c : call) : bool :=
  match c with Build _ _ | Publish _ | Script_ _ _ _ | Stop => false | _ => true end.
Definition status (s : St) : RequestState := Status (base (resp s)).
Definition debugging (o : AntOptions) : bool * bool := (Debug o, Privileged o).

(** Calls of the kind [P] were made between [s] and [s']. *)
Record moves (P : call -> bool) (s s' : St) (l : list call) : Prop := mkMoves {
  moves_calls : calls s' = calls s ++ l;
  moves_kind : forallb P l = true;
  moves_debugging : debugging (opts s') = debugging (opts s);
  moves_status : status s' = status s \/ status s' = State.FAILED
}.
Definition via (P : call -> bool) (s s' : St) : Prop := exists l, moves P s s' l.
Definition keeps {A} (P : call -> bool) (m : X A) : Prop := forall s, via P s (snd (m s)).

Lemma via_refl P s : via P s s.
Proof. exists []. split; try done; [by rewrite app_nil_r|by left]. Qed.
Lemma via_trans P s1 s2 s3 : via P s1 s2 -> via P s2 s3 -> via P s1 s3.
Proof.
  intros (l1 & [A1 B1 C1 D1]) (l2 & [A2 B2 C2 D2]). exists (l1 ++ l2). split.
  - by rewrite A2, A1, app_assoc.
  - by rewrite forallb_app, B1, B2.
  - congruence.
  - destruct D2 as [->|D2]; [done|by right].
Qed.

Lemma executor_keeps_ret {A} P (a : A) : keeps P (ret a).
Proof. intros s. apply via_refl. Qed.
Lemma executor_keeps_bind {A B} P (m : X A) (k : A -> X B) : keeps P m -> (forall a, keeps P (k a)) -> keeps P (bind m k).
Proof. intros Hm Hk s. unfold bind. specialize (Hm s). destruct (m s) as [a s1]. eapply via_trans; [exact Hm|apply Hk]. Qed.
Lemma keeps_act P c : P c = true -> keeps P (act c).
Proof. intros Hc s. exists [c]. split; try done; [cbn; by rewrite Hc|by left]. Qed.
Lemma keeps_ask {A} P (f : list call -> A) : keeps P (ask f).
Proof. intros s. apply via_refl. Qed.
Lemma keeps_get_opts P : keeps P get_opts.
Proof. intros s. apply via_refl. Qed.
Lemma keeps_get_resp P : keeps P get_resp.
Proof. intros s. apply via_refl. Qed.
Lemma keeps_set_opts P f : (forall o, debugging (f o) = debugging o) -> keeps P (set_opts f).
Proof. intros Hf s. exists []. split; cbn; [by rewrite app_nil_r|done|done|by left]. Qed.
Lemma keeps_set_resp P f : (forall r, Status (base (f r)) = Status (base r) \/ Status (base (f r)) = State.FAILED) -> keeps P (set_resp f).
Proof. intros Hf s. exists []. split; cbn; [by rewrite app_nil_r|done|done|apply Hf]. Qed.
Lemma warn_keeps P message fatal : keeps P (warn message fatal).
Proof.
  apply keeps_set_resp. intros r. cbn. unfold AdditionalError. destruct (_ == ""); [by left|].
  destruct (_ && _); [by right|by left].
Qed.

Create HintDb executor.
#[export] Hint Resolve executor_keeps_ret keeps_ask keeps_get_opts keeps_get_resp warn_keeps : executor.
Ltac keep :=
  repeat first
    [ solve [auto with executor]
    | match goal with
      | |- keeps _ (bind _ _) => apply executor_keeps_bind; [|intros ?]
      | |- keeps _ (act _) => apply keeps_act; reflexivity
      | |- keeps _ (set_opts _) => apply keeps_set_opts; intros ?; reflexivity
      | |- keeps _ (set_resp _) => apply keeps_set_resp; intros ?; by left
      | |- keeps _ (let x := _ in _) => cbv zeta
      | |- keeps _ (match ?x with _ => _ end) => destruct x
      end ].

Section Parts.
Context `{Node, Percent, RangeOrder} (req : TaskRequest).

Lemma execute_cmd_keeps cmd helper : keeps quiet (execute_cmd cmd helper).
Proof. unfold execute_cmd. keep. Qed.
#[local] Hint Resolve execute_cmd_keeps : executor.
Lemma copy_all_keeps dir paths names : keeps quiet (copy_all dir paths names).
Proof. revert names. induction paths as [|p paths IH]; intros names; cbn [copy_all]; keep; apply IH. Qed.
Lemma debugPreUpload_keeps zipFile : keeps quiet (debugPreUpload zipFile).
Proof. unfold debugPreUpload. keep. Qed.
#[local] Hint Resolve copy_all_keeps debugPreUpload_keeps : executor.
Lemma helper_upload_keeps id name paths expiration dir : keeps quiet (helper_upload id name paths expiration dir).
Proof. unfold helper_upload. keep. Qed.
Lemma run_all_keeps id cmds : keeps quiet (run_all id cmds).
Proof. induction cmds as [|c cmds IH]; cbn [run_all]; keep; apply IH. Qed.
Lemma helper_digest_keeps paths : keeps quiet (helper_digest paths).
Proof. unfold helper_digest. keep. Qed.
Lemma service_upload_keeps prefix id name paths expiration : keeps quiet (service_upload prefix id name paths expiration).
Proof. unfold service_upload. keep. Qed.
#[local] Hint Resolve helper_upload_keeps run_all_keeps helper_digest_keeps service_upload_keeps : executor.
Lemma UploadArtifacts_keeps t paths expiration : keeps quiet (UploadArtifacts req t paths expiration).
Proof. unfold UploadArtifacts. keep. Qed.
Lemma UploadCache_keeps t id paths expiration : keeps quiet (UploadCache req t id paths expiration).
Proof. unfold UploadCache. keep. Qed.
Lemma CalculateDigest_keeps t paths : keeps quiet (CalculateDigest t paths).
Proof. unfold CalculateDigest. keep. Qed.
Lemma DownloadArtifact_keeps t dir id : keeps quiet (DownloadArtifact t dir id).
Proof. unfold DownloadArtifact, helper_download. keep. Qed.
#[local] Hint Resolve UploadArtifacts_keeps UploadCache_keeps CalculateDigest_keeps DownloadArtifact_keeps : executor.
Lemma download_all_keeps t dir ids : keeps quiet (download_all t dir ids).
Proof. induction ids as [|id ids IH]; cbn [download_all]; keep; apply IH. Qed.
Lemma extract_cache_keeps dir paths : keeps quiet (extract_cache dir paths).
Proof. induction paths as [|p paths IH]; cbn [extract_cache]; keep; apply IH. Qed.
#[local] Hint Resolve download_all_keeps extract_cache_keeps : executor.
Lemma downloadDependentArtifacts_keeps t : keeps quiet (downloadDependentArtifacts t).
Proof. unfold downloadDependentArtifacts. keep. Qed.
Lemma downloadCache_keeps t : keeps quiet (downloadCache req t).
Proof. unfold downloadCache. keep. Qed.
#[local] Hint Resolve downloadDependentArtifacts_keeps downloadCache_keeps : executor.
Lemma Setup_keeps : keeps quiet (SetupCacheAndDownloadArtifacts req).
Proof. unfold SetupCacheAndDownloadArtifacts. keep. Qed.
Lemma uploadArtifacts_keeps t paths expiration : keeps quiet (uploadArtifacts req t paths expiration).
Proof. unfold uploadArtifacts. keep. Qed.
Lemma uploadCache_keeps t : keeps quiet (uploadCache req t).
Proof. unfold uploadCache. keep. Qed.
#[local] Hint Resolve uploadArtifacts_keeps uploadCache_keeps : executor.
Lemma UploadCacheAndArtifacts_keeps : keeps quiet (UploadCacheAndArtifacts req).
Proof. unfold UploadCacheAndArtifacts. keep. Qed.
Lemma UploadConsoleLog_keeps : keeps quiet (UploadConsoleLog req).
Proof. unfold UploadConsoleLog. keep. Qed.
Lemma updateResponseContext_keeps : keeps quiet (updateResponseContext req).
Proof.
  unfold updateResponseContext. keep. apply keeps_set_resp. intros r. left. cbn.
  repeat match goal with |- context [if ?b then _ else _] => destruct b end; reflexivity.
Qed.
#[local] Hint Resolve Setup_keeps UploadCacheAndArtifacts_keeps UploadConsoleLog_keeps updateResponseContext_keeps : executor.

(** ** Scripts *)

(** The commands of scripts among the calls, with whether they failed. *)
Definition script_of (l : list call) : list (string * bool) :=
  omap (fun c => match c with Script_ cmd _ failed => Some (cmd, failed) | _ => None end) l.
Definition succeeded (cmds : list string) : list (string * bool) := map (fun cmd => (cmd, false)) cmds.
(** A call that leaves the container running. *)
Definition working (c : call) : bool := match c with Build _ _ | Publish _ | Stop => false | _ => true end.

Lemma script_of_app l l' : script_of (l ++ l') = script_of l ++ script_of l'.
Proof. apply omap_app. Qed.
Lemma quiet_script l : forallb quiet l = true -> script_of l = [].
Proof.
  induction l as [|c l IH]; [done|]. cbn [forallb]. intros [Hc Hl]%andb_prop. destruct c; try discriminate; exact (IH Hl).
Qed.
Lemma quiet_working l : forallb quiet l = true -> forallb working l = true.
Proof. induction l as [|c l IH]; cbn; [done|]. intros [Hc Hl]%andb_prop. rewrite IH by done. by destruct c. Qed.

(** A computation that runs the commands [R] describes. *)
Definition scripted {A} (m : X A) (R : A -> list (string * bool) -> Prop) : Prop :=
  forall s, exists l, moves working s (snd (m s)) l /\ R (fst (m s)) (script_of l).
Lemma scripted_bind {A B} (m : X A) (k : A -> X B) R S T :
  scripted m R -> (forall a, scripted (k a) (S a)) -> (forall a b l l', R a l -> S a b l' -> T b (l ++ l')) ->
  scripted (bind m k) T.
Proof.
  intros Hm Hk HT s. unfold bind. destruct (Hm s) as (l & M & HR). destruct (m s) as [a s1]. destruct (Hk a s1) as (l' & M' & HS).
  exists (l ++ l'). cbn in *. rewrite script_of_app. split; [|by eapply HT]. destruct M as [A1 B1 C1 D1], M' as [A2 B2 C2 D2]. split.
  - by rewrite A2, A1, app_assoc.
  - by rewrite forallb_app, B1, B2.
  - congruence.
  - destruct D2 as [->|D2]; [done|by right].
Qed.
Lemma scripted_quiet {A} (m : X A) : keeps quiet m -> scripted m (fun _ l => l = []).
Proof.
  intros Hm s. destruct (Hm s) as (l & [A1 B1 C1 D1]). exists l. split; [|by apply quiet_script].
  split; [done|by apply quiet_working|done|done].
Qed.
Lemma scripted_weaken {A} (m : X A) (R S : A -> list (string * bool) -> Prop) :
  scripted m R -> (forall a l, R a l -> S a l) -> scripted m S.
Proof. intros Hm HS s. destruct (Hm s) as (l & M & HR). exists l. split; [done|by apply HS]. Qed.
Lemma scripted_value {A} (m : X A) (V : A -> Prop) : keeps quiet m -> (forall s, V (fst (m s))) -> scripted m (fun x l => l = [] /\ V x).
Proof. intros Hm HV s. destruct (scripted_quiet m Hm s) as (l & M & Hl). by exists l. Qed.

(** One command. *)
Lemma doExecute_scripted cmd :
  scripted (doExecute req cmd) (fun r l => l = [(cmd, match cmd_error r with Some _ => true | None => false end)]).
Proof.
  intros s. set (r := command (calls s) cmd false).
  exists [Script_ cmd (checkCommandCanExecuteWithoutShell cmd) (match cmd_error r with Some _ => true | None => false end)].
  split; [|done]. split; cbn; try done. left. unfold status. cbn. unfold note_exit. cbn. fold r. destruct (cmd_error r); [|done].
  by destruct (_ == "").
Qed.
Lemma add_outputs_status out x : Status (base (add_outputs out x)) = Status (base x).
Proof.
  unfold add_outputs. generalize (Split out newline). intros lines. revert x. induction lines as [|y ys IH]; intros x; [done|].
  cbn [foldl]. rewrite IH. by destruct (output_of y) as [[k v]|].
Qed.
Lemma addArtifactToPath_keeps i out : keeps quiet (addArtifactToPath req i out).
Proof. unfold addArtifactToPath. keep. Qed.
#[local] Hint Resolve addArtifactToPath_keeps : executor.

Lemma run_command_scripted i cmd failOnError lastError :
  scripted (run_command req i cmd failOnError lastError) (fun x l =>
    exists failed, l = [(cmd, failed)] /\
      if failOnError then forall y, x = inr y -> failed = false /\ y = lastError else exists y, x = inr y).
Proof.
  unfold run_command. eapply (scripted_bind _ _ _ (fun r x l => l = [] /\
    if failOnError then forall y, x = inr y -> cmd_error r = None /\ y = lastError else exists y, x = inr y)).
  - apply doExecute_scripted.
  - intros r. apply scripted_value.
    + keep; apply keeps_set_resp; intros x; left; apply add_outputs_status.
    + intros s. destruct (cmd_error r) as [e|], failOnError; unfold bind, get_opts, set_resp, set_opts, ret; cbn; try done;
        repeat first [ done | match goal with |- context [match ?x with _ => _ end] => destruct x end | by eexists | naive_solver ].
  - intros r x l l' -> (-> & HV). eexists. split; [done|]. destruct failOnError; [|done]. intros y Hy. destruct (HV y Hy) as [-> ->]. done.
Qed.

Lemma ctx_scripted : scripted (ask ctx_Err) (fun _ l => l = []).
Proof. apply scripted_quiet, keeps_ask. Qed.

(** Of a script that stops at failures, a first part of the commands runs, of
    which only the last can have failed; all of them succeed when there is no
    error. *)
Definition first_part (cmds : list string) (l : list (string * bool)) : Prop :=
  (exists n, map fst l = take n cmds) /\ Forall (fun x => snd x = false) (removelast l).
Lemma first_part_nil cmds : first_part cmds [].
Proof. split; [by exists 0%nat|constructor]. Qed.
Lemma first_part_cons cmd cmds l : first_part cmds l -> first_part (cmd :: cmds) ((cmd, false) :: l).
Proof.
  intros [[n Hn] HF]. split; [exists (S n); cbn; by rewrite Hn|]. destruct l as [|x l]; [constructor|]. by constructor.
Qed.
Lemma run_commands_stop i cmds lastError :
  scripted (run_commands req i cmds true lastError)
    (fun e l => first_part cmds l /\ (e = None -> l = succeeded cmds /\ lastError = None)).
Proof.
  revert i lastError. induction cmds as [|cmd cmds IH]; intros i lastError; cbn [run_commands].
  - eapply (scripted_weaken _ (fun e l => l = [] /\ (e = None -> lastError = None))).
    + apply scripted_value; [keep|]. by intros s; destruct lastError.
    + intros e l (-> & He). split; [apply first_part_nil|]. intros E. by split; [|apply He].
  - eapply (scripted_bind _ _ _ (fun x e l => match x with inl e' => l = [] /\ e = Some e' | inr y =>
        first_part cmds l /\ (e = None -> l = succeeded cmds /\ y = None) end)).
    + apply run_command_scripted.
    + intros [e|y]; [|apply IH]. by apply scripted_value; [apply executor_keeps_ret|].
    + intros [e|y] b l l' (failed & -> & HV).
      * intros (-> & ->). split; [|done]. split; [by exists 1%nat|constructor].
      * destruct (HV y eq_refl) as [-> ->]. intros [HF He]. split; [by apply first_part_cons|].
        intros E. destruct (He E) as [-> ->]. done.
Qed.
(** A script that goes on after failures runs all its commands. *)
Lemma run_commands_all i cmds lastError :
  scripted (run_commands req i cmds false lastError) (fun _ l => map fst l = cmds).
Proof.
  revert i lastError. induction cmds as [|cmd cmds IH]; intros i lastError; cbn [run_commands].
  - eapply scripted_weaken; [apply scripted_quiet; keep|]. by intros e l ->.
  - eapply (scripted_bind _ _ _ (fun x _ l => match x with inl _ => True | inr _ => map fst l = cmds end)).
    + apply run_command_scripted.
    + intros [e|y]; [|apply IH]. eapply scripted_weaken; [apply scripted_quiet, executor_keeps_ret|done].
    + intros x b l l' (failed & -> & y & ->) Hl. cbn. by rewrite Hl.
Qed.

Lemma fail_status message : keeps quiet (fail message).
Proof. apply keeps_set_resp. intros r. by right. Qed.
#[local] Hint Resolve fail_status : executor.

(** The scripts that decide on the status. *)
Definition ordered (l : list (string * bool)) (completed : bool) : Prop :=
  exists b c, l = b ++ c /\ first_part (BeforeScript req) b /\ first_part (Script req) c /\
    (c <> [] -> b = succeeded (BeforeScript req)) /\
    (completed = true -> b = succeeded (BeforeScript req) /\ c = succeeded (Script req)).
Lemma scripts_moves s :
  exists l, calls (snd (scripts req s)) = calls s ++ l /\ forallb working l = true /\
    debugging (opts (snd (scripts req s))) = debugging (opts s) /\
    (status (snd (scripts req s)) = State.COMPLETED \/ status (snd (scripts req s)) = State.FAILED) /\
    ordered (script_of l) (status (snd (scripts req s)) == State.COMPLETED).
Proof.
  destruct (scripts req s) as [u s'] eqn:ES. cbn [snd]. unfold scripts, bind at 1, execute at 1 in ES.
  destruct (run_commands_stop 0 (BeforeScript req) None s) as (l1 & M1 & F1 & E1).
  destruct (run_commands req 0 (BeforeScript req) true None s) as [[e|] s1]; cbn [fst snd] in *; destruct M1 as [A1 B1 C1 _].
  { injection ES as _ <-. exists l1. split_and!; try done; [by right|]. exists (script_of l1), []. rewrite app_nil_r.
    split_and!; try done. apply first_part_nil. }
  destruct (E1 eq_refl) as [HB _]. unfold bind at 1 in ES. destruct (Setup_keeps s1) as (l2 & [A2 B2 C2 _]).
  destruct (SetupCacheAndDownloadArtifacts req s1) as [[e|] s2]; cbn [fst snd] in *.
  { injection ES as _ <-. exists (l1 ++ l2). split_and!.
    - cbn. by rewrite A2, A1, app_assoc.
    - by rewrite forallb_app, B1, quiet_working.
    - unfold debugging in *. cbn. congruence.
    - by right.
    - exists (script_of l1), []. rewrite script_of_app, (quiet_script l2 B2). split_and!; try done. apply first_part_nil. }
  unfold bind at 1, execute in ES. destruct (run_commands_stop 0 (Script req) None s2) as (l3 & M3 & F3 & E3).
  destruct (run_commands req 0 (Script req) true None s2) as [x s3]; cbn [fst snd] in *; destruct M3 as [A3 B3 C3 _].
  exists (l1 ++ l2 ++ l3). rewrite !script_of_app, (quiet_script l2 B2), app_nil_l, !forallb_app, B1, B3, (quiet_working l2 B2).
  assert (calls s3 = calls s ++ l1 ++ l2 ++ l3) as HC by (by rewrite A3, A2, A1, !app_assoc).
  assert (debugging (opts s3) = debugging (opts s)) as HD by congruence.
  destruct x as [e|]; injection ES as _ <-.
  - split_and!; try done; [by right|]. by exists (script_of l1), (script_of l3).
  - destruct (E3 eq_refl) as [HS _]. split_and!; try done; [by left|]. by exists (script_of l1), (script_of l3).
Qed.

(** A call that is made without a container. *)
Definition unbuilt (c : call) : bool := match c with Script_ _ _ _ | Stop | Publish _ => false | _ => true end.
Lemma preProcess_moves s :
  match fst (preProcess req s) with
  | Some _ => exists l, moves unbuilt s (snd (preProcess req s)) l
  | None => exists l, calls (snd (preProcess req s)) = calls s ++ l /\ script_of l = [] /\ Stop ∉ l /\ last l = Some (Publish State.STARTED) /\
      debugging (opts (snd (preProcess req s))) = debugging (opts s)
  end.
Proof.
  unfold preProcess, bind, ask, act. cbn. destruct (log_error (calls s)) as [e|]; cbn; [by exists [OpenLog]; split; [..|by left]|].
  unfold BuildExecutor. destruct (supported req); cbn; [|by exists [OpenLog]; split; [..|by left]].
  unfold bind, get_opts, ask, act. cbn. destruct (build_error _) as [e|]; cbn.
  - eexists. rewrite <- app_assoc. split; [done|done|done|by left].
  - eexists. rewrite <- !app_assoc. split_and!; [done|done| |done|done]. cbn. set_solver.
Qed.

(** The container is stopped once, and its end published last. *)
Lemma postProcess_moves s :
  exists l1 l2, calls (snd (postProcess req s)) = calls s ++ l1 ++ Stop :: l2 ++ [Publish State.COMPLETED] /\
    forallb quiet l1 = true /\ forallb quiet l2 = true /\
    (status (snd (postProcess req s)) = status s \/ status (snd (postProcess req s)) = State.FAILED).
Proof.
  assert (keeps quiet (store_artifacts req)) as HU by (unfold store_artifacts; keep).
  assert (keeps quiet (store_console req)) as HR by (unfold store_console; keep).
  unfold postProcess, bind. destruct (HU s) as (l1 & [A1 B1 C1 D1]). destruct (store_artifacts req s) as [u1 s1]. cbn [snd] in *.
  destruct (act Stop s1) as [u2 s2] eqn:E2. injection E2 as _ <-.
  match goal with |- context [store_console req ?x] => destruct (HR x) as (l2 & [A2 B2 C2 D2]); destruct (store_console req x) as [u3 s3] end.
  cbn [snd] in *. exists l1, l2. cbn. cbn in A2. rewrite A2, A1, <- !app_assoc. split_and!; try done. unfold status in *. cbn in *.
  destruct D2 as [->|D2]; [done|by right].
Qed.

Lemma forallb_not_in {A} (P : A -> bool) (l : list A) x : forallb P l = true -> P x = false -> x ∉ l.
Proof. intros Hl Hx Hin. rewrite forallb_forall in Hl. apply list_elem_of_In, Hl in Hin. congruence. Qed.
Lemma unbuilt_script l : forallb unbuilt l = true -> script_of l = [].
Proof. induction l as [|c l IH]; [done|]. cbn [forallb]. intros [Hc Hl]%andb_prop. destruct c; try discriminate; exact (IH Hl). Qed.

(** An execution: without a container it fails at once; with one, the scripts,
    the after-script, the transfers, the end of the container. *)
Inductive shape (o : AntOptions) (s : St) : Prop :=
| no_container : forallb unbuilt (calls s) = true -> status s = State.FAILED -> shape o s
| with_container pre main after l1 l2 :
    calls s = pre ++ main ++ after ++ l1 ++ Stop :: l2 ++ [Publish State.COMPLETED] ->
    script_of pre = [] -> Stop ∉ pre -> last pre = Some (Publish State.STARTED) ->
    forallb working main = true -> forallb working after = true -> forallb quiet l1 = true -> forallb quiet l2 = true ->
    map fst (script_of after) = after_script req o ->
    (status s = State.COMPLETED \/ status s = State.FAILED) ->
    ordered (script_of main) (status s == State.COMPLETED) -> shape o s.

Lemma ordered_failed l b : ordered l b -> ordered l false.
Proof. intros (x & y & A & B & C & D & _). exists x, y. by split_and!. Qed.
Lemma after_script_debugging o o' : debugging o = debugging o' -> after_script req o = after_script req o'.
Proof. unfold after_script, debugging. by intros [= -> ->]. Qed.

Lemma Execute_shape o : shape o (Execute_task req o).
Proof.
  unfold Execute_task. set (s0 := mkSt [] o _). destruct (Execute req s0) as [u s] eqn:ES. cbn [snd].
  unfold Execute, bind at 1 in ES. pose proof (preProcess_moves s0) as HP. destruct (preProcess req s0) as [[e|] s1]; cbn [fst snd] in *.
  { injection ES as _ <-. destruct HP as (l & [A B C D]). cbn in A. apply no_container; [cbn; by rewrite A|done]. }
  destruct HP as (l0 & A0 & B0 & C0 & D0 & E0). cbn in A0, E0. unfold bind at 1 in ES.
  destruct (scripts_moves s1) as (l1 & A1 & B1 & C1 & D1 & E1). destruct (scripts req s1) as [u1 s2]. cbn [snd] in *.
  unfold bind at 1, get_opts in ES. unfold bind at 1, execute in ES.
  destruct (run_commands_all 0 (after_script req (opts s2)) None s2) as (l2 & M2 & E2).
  destruct (run_commands req 0 (after_script req (opts s2)) false None s2) as [e s3]; cbn [fst snd] in *. destruct M2 as [A2 B2 C2 D2].
  unfold bind at 1 in ES.
  assert (keeps quiet (match e with Some e => warn e false | None => ret tt end)) as HW by keep.
  destruct (HW s3) as (l3 & [A3 B3 C3 D3]). destruct (match e with Some e => warn e false | None => ret tt end s3) as [u2 s4]. cbn [snd] in *.
  destruct (postProcess_moves s4) as (l4 & l5 & A4 & B4 & C4 & D4). rewrite ES in *. cbn [snd] in *.
  apply (with_container _ _ l0 l1 l2 (l3 ++ l4) l5); try done.
  - by rewrite A4, A3, A2, A1, A0, <- !app_assoc.
  - by rewrite forallb_app, B3, B4.
  - rewrite E2. apply after_script_debugging. congruence.
  - destruct D4, D3, D2, D1; solve [left; congruence|right; congruence].
  - destruct (status s == State.COMPLETED) eqn:Es; [|by eapply ordered_failed]. apply eqb_string_true in Es.
    assert (State.FAILED <> State.COMPLETED) as Hne by done. replace (status s2) with State.COMPLETED in E1; [done|].
    destruct D4 as [D4|D4], D3 as [D3|D3], D2 as [D2|D2]; congruence.
Qed.

(** C10: the scripts of a task run in order: the commands before it, the script,
    the commands after it; only the last command of the first two can have
    failed, and the script starts only after all commands before it succeeded.
    The after-script runs completely whenever there is a container.  A task is
    completed only if every command of the first two scripts ran and succeeded;
    otherwise it has failed. *)
Theorem task_scripts_run_in_order o :
  let s := Execute_task req o in
  (status s = State.COMPLETED \/ status s = State.FAILED) /\
  exists before script after,
    script_of (calls s) = before ++ script ++ after /\
    first_part (BeforeScript req) before /\ first_part (Script req) script /\
    (script <> [] -> before = succeeded (BeforeScript req)) /\
    (map fst after = after_script req o \/ Stop ∉ calls s /\ before ++ script ++ after = [] /\ status s = State.FAILED) /\
    (status s = State.COMPLETED -> before = succeeded (BeforeScript req) /\ script = succeeded (Script req)).
Proof.
  cbv zeta. destruct (Execute_shape o) as [Hu Hs|pre main after l1 l2 HC HP HN HL HM HA H1' H2' HAs Hst (b & c & HO & Hb & Hc & Hbc & Hcomp)].
  - split; [by right|]. exists [], [], []. rewrite (unbuilt_script _ Hu). split_and!; try done; [apply first_part_nil..| |by rewrite Hs].
    right. split_and!; try done. by eapply forallb_not_in.
  - split; [done|]. exists b, c, (script_of after). rewrite HC, !script_of_app, HP, (quiet_script l1), HO by done.
    change (script_of (Stop :: l2 ++ [Publish State.COMPLETED])) with (script_of (l2 ++ [Publish State.COMPLETED])).
    rewrite script_of_app, (quiet_script l2), !app_nil_l, app_nil_r, <- app_assoc by done. split_and!; try done; [by left|].
    intros E. apply Hcomp. by rewrite E.
Qed.

(** C24: a container that was started is stopped, exactly once, after every
    command of the scripts and whatever failed before; its end is published last. *)
Theorem started_container_is_stopped o :
  let l := calls (Execute_task req o) in
  Publish State.STARTED ∈ l ->
  exists pre post, l = pre ++ Stop :: post /\ Stop ∉ pre /\ Stop ∉ post /\ script_of post = [] /\ last l = Some (Publish State.COMPLETED).
Proof.
  cbv zeta. intros Hin. destruct (Execute_shape o) as [Hu Hs|pre main after l1 l2 HC HP HN HL HM HA H1' H2' HAs Hst _].
  - by destruct (forallb_not_in unbuilt _ (Publish State.STARTED) Hu eq_refl Hin).
  - exists (pre ++ main ++ after ++ l1), (l2 ++ [Publish State.COMPLETED]). rewrite HC, <- !app_assoc. split_and!; [done| | | |].
    + rewrite !elem_of_app. intros [?|[?|[?|?]]]; [done| | |];
        [by apply (forallb_not_in working main Stop HM eq_refl)|by apply (forallb_not_in working after Stop HA eq_refl)|
         by apply (forallb_not_in quiet l1 Stop H1' eq_refl)].
    + rewrite elem_of_app. intros [?|?]; [by apply (forallb_not_in quiet l2 Stop H2' eq_refl)|set_solver].
    + by rewrite script_of_app, (quiet_script l2).
    + rewrite !app_assoc. change (?x ++ Stop :: ?y) with (x ++ [Stop] ++ y). rewrite !app_assoc. by rewrite last_snoc.
Qed.
End Parts.

(** ** Variables set by scripts *)
Definition output_line (kv : string * string) : string := set_output +:+ fst kv +:+ "::" +:+ snd kv.

(** A name without colons, and a value that does not end with white space. *)
Definition printable (kv : string * string) : Prop :=
  fst kv <> "" /\ string_mem ":" (fst kv) = false /\ trim_right (snd kv) = snd kv /\
  string_mem newline (fst kv) = false /\ string_mem newline (snd kv) = false.

Lemma prefix_app a b : String.prefix a (a +:+ b) = true.
Proof. induction a as [|c a IH]; [by destruct b|]. rewrite string_app_cons. cbn. by destruct (ascii_dec c c). Qed.
Lemma drop_app a b : drop_string (String.length a) (a +:+ b) = b.
Proof. induction a as [|c a IH]; [by destruct b|]. exact IH. Qed.
Lemma Cut_app k v : string_mem ":" k = false -> Cut (k +:+ "::" +:+ v) "::" = Some (k, v).
Proof.
  induction k as [|c k IH]; intros Hk; [cbn; by destruct v|]. cbn [string_mem] in Hk. apply orb_false_elim in Hk as [Hc Hk].
  rewrite string_app_cons. cbn [Cut String.prefix]. destruct (ascii_dec ":" c) as [<-|]; [by rewrite Ascii.eqb_refl in Hc|].
  by rewrite IH.
Qed.
Lemma trim_right_app a b : trim_right b <> "" -> trim_right (a +:+ b) = a +:+ trim_right b.
Proof.
  intros Hb. induction a as [|c a IH]; [done|]. rewrite !string_app_cons. cbn [trim_right]. rewrite IH.
  destruct (a +:+ trim_right b) eqn:E; [|done]. destruct a; [by rewrite string_app_nil_l in E|discriminate].
Qed.
Lemma output_line_parsed kv : printable kv -> output_of (output_line kv) = Some kv.
Proof.
  destruct kv as [k v]. intros (Hk & Hc & Hv & _ & _). cbn [fst snd] in *. unfold output_of, output_line. cbn [fst snd].
  assert (trim_right ("::" +:+ v) = "::" +:+ v) as Ht.
  { destruct v as [|c v]; [done|]. rewrite trim_right_app; rewrite Hv; done. }
  assert (TrimSpace (set_output +:+ k +:+ "::" +:+ v) = set_output +:+ k +:+ "::" +:+ v) as ->.
  { unfold TrimSpace. change (trim_left (set_output +:+ k +:+ "::" +:+ v)) with (set_output +:+ k +:+ "::" +:+ v).
    rewrite <- !string_app_assoc, (string_app_assoc (set_output +:+ k)), trim_right_app; rewrite Ht; done. }
  unfold HasPrefix, TrimPrefix. rewrite prefix_app. unfold HasPrefix. rewrite prefix_app, drop_app, Cut_app by done.
  change (Contains (set_output +:+ k +:+ "::" +:+ v) "::") with true. cbn [andb]. destruct (k == "") eqn:E; [|done].
  by apply eqb_string_true in E.
Qed.
Lemma output_line_newline kv : printable kv -> string_mem newline (output_line kv) = false.
Proof.
  intros (_ & _ & _ & Hk & Hv). rewrite !string_mem_forall in *. unfold output_line. rewrite !string_forall_app, Hk, Hv. done.
Qed.

(** What a script prints with the command that sets variables, one to a
    line, arrives as variables of the job: the names and values are read back,
    in order, and a name that is set again takes the later value. *)
Theorem set_output_roundtrip kvs x (printed : Forall printable kvs) (some : kvs <> []) :
  add_outputs (Join (map output_line kvs) (String newline "")) x =
  set_base (fun b => foldl (fun b kv => AddJobContext (fst kv) (VString (snd kv)) b) b kvs) x.
Proof.
  unfold add_outputs. rewrite Split_Join; [|by destruct kvs|].
  - clear some. revert x. induction printed as [|kv kvs Hkv Hkvs IH]; intros x; [by destruct x|]. cbn [map foldl].
    rewrite (output_line_parsed _ Hkv). destruct kv as [k v]. rewrite IH. by destruct x.
  - apply Forall_fmap. eapply Forall_impl; [exact printed|]. apply output_line_newline.
Qed.

(** A task with the method HTTP_PUT_FORM is valid and always fails: no provider
    of executors knows the method. *)
Theorem put_form_task_always_fails `{Node, Percent, RangeOrder} req o :
  opt_Method (ExecutorOpts req) = Method.HTTPPutFORM ->
  Method.IsValid Method.HTTPPutFORM = true /\ status (Execute_task req o) = State.FAILED /\ script_of (calls (Execute_task req o)) = [].
Proof.
  intros Hm. split; [done|]. unfold Execute_task, Execute, preProcess, bind, ask, act. cbn.
  destruct (log_error []); [done|]. unfold BuildExecutor, supported. rewrite Hm. done.
Qed.

(** ** Concrete tasks *)
Module ExecutorDemo.

Definition ok : Result := mkResult "" "" 0 "" None.
#[local] Instance percent : Percent := {| percent_s_other := fun k j => "%!s(" +:+ k +:+ "=" +:+ default "" j +:+ ")" |}.
(** A machine on which the commands "lint" and "report" fail, nothing is in the
    artifact store, and files are saved. *)
#[local] Instance node : Node :=
  {| ant_id := "a1"; host := "h"; ant_Debug := false; S3 := mkS3Config "s3:9000" "k" "s" "r" "" "bucket" false false "";
     Kubernetes_HelperImage := "helper"; Docker_HelperImage := "helper"; Namespace := "ns"; Kubernetes_Host := ""; Docker_Host := "";
     Docker_Server := ""; clock := 0; container_ID := "c1"; container_Name := "frm"; container_Host := ""; container_IP := "";
     container_State := fun _ => Running.Running_; log_error := fun _ => None; build_error := fun _ => None;
     command := fun _ cmd _ =>
       if cmd == "lint" then mkResult "" "" 2 "failed" (Some "exit 2")
       else if cmd == "report" then mkResult "" "" 3 "failed" (Some "cannot reach hunter2")
       else if cmd == "version" then mkResult (output_line ("Version", "1.2")) "" 0 "" None
       else ok;
     ctx_Err := fun _ => None; is_Cancelled := fun _ => false;
     save_file := fun _ a => inl (mkArtifact "id" "bucket" (a_Name a) "" "sha" 10 (a_ExpiresAt a) ∅);
     save_bytes := fun _ p n => inl (mkArtifact (p +:+ n) "bucket" n "" "sha" 10 0 ∅);
     fetch_error := fun _ => Some "no such key"; digest := fun _ => inr "no file"; capture := fun _ f => inl f;
     atoi_error := fun _ => "invalid syntax"; describe := a_Name |}.

Definition options (deps : list string) : AntOptions :=
  mkAntOptions "frm" false false false ∅ ∅ ∅ (mkArtifactsConfig [] 0 "") (mkCacheConfig [] "" [] "" 0) deps "/art" "/cache" "img" "".
Definition task (before script after : list string) : TaskRequest :=
  mkTaskRequest "alice" "" "def" "J1" "build" "" "exec" "texec" "compile" "c" EXECUTE [] before after script 0
    {["PASSWORD" := mkVariableValue (VString "hunter2") true; "RETRIES" := mkVariableValue (VInt "int" 3) false]}
    (NewExecutorOptions Method.Shell).

Lemma started_container_is_stopped_witness :
  let l := calls (Execute_task (task ["version"] ["lint"; "make"] ["report"]) (options [])) in
  script_of l = [("version", false); ("lint", true); ("report", true)] /\
  exists pre post, l = pre ++ Stop :: post /\ Stop ∉ pre /\ Stop ∉ post /\ script_of post = [] /\ last l = Some (Publish State.COMPLETED).
Proof.
  split; [vm_compute; reflexivity|].
  apply (started_container_is_stopped (task ["version"] ["lint"; "make"] ["report"]) (options [])).
  vm_compute. repeat (first [apply list_elem_of_here | apply list_elem_of_further]).
Defined.
Lemma set_output_roundtrip_witness :
  add_outputs (Join (map output_line [("A", "1"); ("B", "x::y"); ("A", "")]) (String newline "")) (mkReply (NewTaskResponse (task [] [] [])) [] "" []) =
  set_base (fun b => foldl (fun b kv => AddJobContext (fst kv) (VString (snd kv)) b) b [("A", "1"); ("B", "x::y"); ("A", "")])
    (mkReply (NewTaskResponse (task [] [] [])) [] "" []).
Proof.
  apply set_output_roundtrip; [|done]. repeat constructor; done.
Defined.

(** A dependent artifact that cannot be fetched is reported in the error
    message of a task that runs without it and is completed. *)
Example missing_artifact_is_ignored :
  let s := Execute_task (task [] ["make"] []) (options ["a0"]) in
  status s = State.COMPLETED /\ ErrorMessage (base (resp s)) = "no such key" /\ script_of (calls s) = [("make", false)].
Proof. vm_compute. repeat split. Qed.

(** The exit code of a completed task is that of a failed after-script. *)
Example after_script_changes_the_exit_code :
  let s := Execute_task (task [] ["make"] ["report"]) (options []) in
  status s = State.COMPLETED /\ ExitCode (base (resp s)) = "3" /\ FailedCommand (resp s) = "report".
Proof. vm_compute. repeat split. Qed.

(** Secrets are masked in the errors of a script, and not in warnings. *)
Example warning_shows_the_secret :
  ErrorMessage (base (resp (Execute_task (task [] ["report"] []) (options [])))) = "cannot reach [****]" /\
  Warnings (base (resp (Execute_task (task [] ["make"] ["report"]) (options [])))) = ["cannot reach hunter2"].
Proof. vm_compute. split; reflexivity. Qed.

(** A variable that is not a string reaches the environment with the mark of a
    wrong verb. *)
Example number_in_the_environment :
  exists env helper, Build env helper ∈ calls (Execute_task (task [] ["make"] []) (options [])) /\ env !! "RETRIES" = Some "%!s(int=3)".
Proof. eexists _, _. split; [vm_compute; apply list_elem_of_further, list_elem_of_here|vm_compute; reflexivity]. Qed.

(** An empty secret puts the mask between all characters. *)
Example empty_secret_spoils_messages :
  Mask (AddVariable "TOKEN" (VString "") true (mkTaskRequest "" "" "" "" "" "" "" "" "" "" "" [] [] [] [] 0 ∅ (NewExecutorOptions ""))) "ab"
  = "[****]a[****]b[****]".
Proof. vm_compute. reflexivity. Qed.

End ExecutorDemo.
