(* ===== verification/Queue.v ===== *)
(** * Queue: messages between the queen, its ants and their parts

    Models [src/internal/queue]: message headers ([message_event.go],
    [Module Headers]), the checks on topics and messages ([client_helper.go],
    [Module Checks]), the counters of a topic ([metrics_helper.go],
    [Module Metrics]), the multiplexer that hands a message to the callbacks of
    its topic ([send_receive_mx.go], [Module Mx]) and the client that delivers
    within one process ([client_channel.go], [Module Channel]).

    Callbacks of users are code outside the queue: what one does while it runs
    (acknowledge, refuse, in any order and number, and fail or not) is an
    arbitrary function of the number of the delivery, and it may acknowledge or
    refuse later, when it has returned.  What it sends is a step of its own. *)

From Stdlib Require Import Ascii.
From S2P Require Import Prelude Resource.

Open Scope Z_scope.

(** ** Headers and messages *)
Module Headers.
Abbreviation MessageHeaders := (gmap string string) (only parsing).
Definition DisableBatchingKey : string := "DisableBatching".
Definition ReusableTopicKey : string := "ReusableTopic".
Definition MessageTarget : string := "MessageTarget".
Definition CorrelationIDKey : string := "CorrelationID".
Definition replyTopicKey : string := "ReplyTopic".
Definition messageKey : string := "Key".
Definition producerKey : string := "Producer".
Definition groupKey : string := "ArtifactGroup".
Definition lastOffsetKey : string := "lastOffset".
Definition firstOffsetKey : string := "lastOffset".

(** Keys and values in turn; a key without a value at the end is left out. *)
Fixpoint add_headers (keyValues : list string) (res : MessageHeaders) : MessageHeaders :=
  match keyValues with
  | k :: v :: rest => add_headers rest (<[k := v]> res)
  | _ => res
  end.
Definition NewMessageHeaders (keyValues : list string) : MessageHeaders := add_headers keyValues ∅.

(** Reading a key that is not there gives the empty string. *)
Definition get (k : string) (h : MessageHeaders) : string := default "" (h !! k).
Definition GetReplyTopic (h : MessageHeaders) : string := get replyTopicKey h.
Definition SetReplyTopic (v : string) (h : MessageHeaders) : MessageHeaders := <[replyTopicKey := v]> h.
Definition GetCorrelationID (h : MessageHeaders) : string := get CorrelationIDKey h.
Definition SetCorrelationID (v : string) (h : MessageHeaders) : MessageHeaders := <[CorrelationIDKey := v]> h.
Definition GetMessageKey (h : MessageHeaders) : string := get messageKey h.
Definition SetMessageKey (v : string) (h : MessageHeaders) : MessageHeaders := <[messageKey := v]> h.
Definition GetProducer (h : MessageHeaders) : string := get producerKey h.
Definition SetProducer (v : string) (h : MessageHeaders) : MessageHeaders := <[producerKey := v]> h.
Definition GetGroup (defGroup : string) (h : MessageHeaders) : string :=
  let group := get groupKey h in if group != "" then group else defGroup.
Definition SetGroup (v : string) (h : MessageHeaders) : MessageHeaders := <[groupKey := v]> h.
Definition GetFirstOffset (h : MessageHeaders) : string := get firstOffsetKey h.
Definition SetFirstOffset (v : string) (h : MessageHeaders) : MessageHeaders := <[firstOffsetKey := v]> h.
Definition GetLastOffset (h : MessageHeaders) : string := get lastOffsetKey h.
Definition SetLastOffset (v : string) (h : MessageHeaders) : MessageHeaders := <[lastOffsetKey := v]> h.
Definition show_bool (b : bool) : string := if b then "true" else "false".
Definition IsDisableBatching (h : MessageHeaders) : bool := get DisableBatchingKey h == "true".
Definition SetDisableBatching (v : bool) (h : MessageHeaders) : MessageHeaders := <[DisableBatchingKey := show_bool v]> h.
Definition IsReusableTopic (h : MessageHeaders) : bool := (get ReusableTopicKey h == "true") || (get ReusableTopicKey h == "").
Definition SetReusableTopic (v : bool) (h : MessageHeaders) : MessageHeaders := <[ReusableTopicKey := show_bool v]> h.

Record MessageEvent := mkMessageEvent {
  Topic : string;
  ProducerName : string;
  Properties : MessageHeaders;
  Payload : string;
  ID : string;
  PublishTime : Z;
  Partition : Z;
  Offset : Z
}.
Definition CoRelationID (e : MessageEvent) : string := GetCorrelationID (Properties e).
Definition ReplyTopic (e : MessageEvent) : string := GetReplyTopic (Properties e).
Definition Producer (e : MessageEvent) : string := GetProducer (Properties e).
End Headers.

(** ** Checks *)
Module Checks.
Import Headers.

Inductive check_error :=
| EmptyTopic | LongTopic | DotTopic (topic : string) | TopicChar
| EmptyGroup | LongGroup | GroupChar
| EmptyKey | LongKey | KeyChar | LongValue
| HeaderKey (key : string) (e : check_error) | HeaderValue (key : string) (e : check_error)
| LongCorrelationID | BadReplyTopic (e : check_error)
| NoCallback | EmptyPayload | LongPayload (size max : Z)
| BadTopic (e : check_error) | BadProperties (e : check_error) | BadGroup (e : check_error)
| BadOutTopic (e : check_error) | BadInTopic (e : check_error).

Definition isValidTopicNameChar (c : ascii) : bool :=
  let n := nat_of_ascii c in
  ((97 <=? n) && (n <=? 122) || (65 <=? n) && (n <=? 90) || (48 <=? n) && (n <=? 57))%nat
  || Ascii.eqb c "." || Ascii.eqb c "_" || Ascii.eqb c "-".
Definition isValidGroupNameChar (c : ascii) : bool :=
  let n := nat_of_ascii c in
  ((97 <=? n) && (n <=? 122) || (65 <=? n) && (n <=? 90) || (48 <=? n) && (n <=? 57))%nat
  || Ascii.eqb c "." || Ascii.eqb c "_" || Ascii.eqb c "-".

(** A byte that is not ASCII belongs to a character that is not allowed. *)
Definition validateTopic (topic : string) : option check_error :=
  if topic == "" then Some EmptyTopic
  else if (249 <? String.length topic)%nat then Some LongTopic
  else if (topic == ".") || (topic == "..") then Some (DotTopic topic)
  else if string_forall isValidTopicNameChar topic then None
  else Some TopicChar.
Definition validateGroupName (group : string) : option check_error :=
  if group == "" then Some EmptyGroup
  else if (249 <? String.length group)%nat then Some LongGroup
  else if string_forall isValidGroupNameChar group then None
  else Some GroupChar.
Definition validateHeaderKey (key : string) : option check_error :=
  if key == "" then Some EmptyKey
  else if (256 <? String.length key)%nat then Some LongKey
  else if string_forall (fun c => (nat_of_ascii c <=? 127)%nat) key then None
  else Some KeyChar.
Definition validateHeaderValue (v : string) : option check_error :=
  if 32 * 1024 <? Z.of_nat (String.length v) then Some LongValue else None.

Section Checks.
Context `{RangeOrder}.
Fixpoint validate_headers (l : list (string * string)) : option check_error :=
  match l with
  | [] => None
  | (key, v) :: l =>
      match validateHeaderKey key with
      | Some e => Some (HeaderKey key e)
      | None => match validateHeaderValue v with
                | Some e => Some (HeaderValue key e)
                | None => validate_headers l
                end
      end
  end.
Definition validateProperties (props : MessageHeaders) : option check_error :=
  match validate_headers (range props) with
  | Some e => Some e
  | None =>
      if (GetCorrelationID props != "") && (128 <? String.length (GetCorrelationID props))%nat then Some LongCorrelationID
      else if GetReplyTopic props != "" then
        match validateTopic (GetReplyTopic props) with
        | Some e => Some (BadReplyTopic e)
        | None => None
        end
      else None
  end.
Definition validateMessageSize (payload : string) (maxMessageSize : Z) : option check_error :=
  let n := Z.of_nat (String.length payload) in
  if maxMessageSize <? n then Some (LongPayload n maxMessageSize) else None.
Definition validateSendRequest (topic payload : string) (props : MessageHeaders) (maxMessageSize : Z) : option check_error :=
  match validateTopic topic with
  | Some e => Some e
  | None =>
      if payload == "" then Some EmptyPayload
      else match validateMessageSize payload maxMessageSize with
           | Some e => Some e
           | None => validateProperties props
           end
  end.

(** A subscription as it is asked for; its callback is named by a number. *)
Record SubscribeOptions := mkSubscribeOptions {
  so_Topic : string;
  so_Shared : bool;
  so_Callback : bool;
  so_Group : string;
  so_Props : MessageHeaders
}.
Definition validateSubscribeOptions (o : SubscribeOptions) : option check_error :=
  match validateTopic (so_Topic o) with
  | Some e => Some (BadTopic e)
  | None =>
      if negb (so_Callback o) then Some NoCallback
      else match validateProperties (so_Props o) with
           | Some e => Some (BadProperties e)
           | None =>
               if so_Group o != "" then
                 match validateGroupName (so_Group o) with Some e => Some (BadGroup e) | None => None end
               else None
           end
  end.

Record SendReceiveRequest := mkSendReceiveRequest {
  OutTopic : string;
  InTopic : string;
  sr_Payload : string;
  sr_Props : MessageHeaders;
  sr_Timeout : Z
}.
Definition validateSendReceiveRequest (r : SendReceiveRequest) (maxMessageSize : Z) : option check_error :=
  match validateTopic (OutTopic r) with
  | Some e => Some (BadOutTopic e)
  | None =>
      match validateTopic (InTopic r) with
      | Some e => Some (BadInTopic e)
      | None => validateSendRequest (OutTopic r) (sr_Payload r) (sr_Props r) maxMessageSize
      end
  end.
End Checks.

(** [prepareProps], which the clients of brokers use, with a new identifier. *)
Definition prepareProps (ulid : string) (r : SendReceiveRequest) : MessageHeaders :=
  SetDisableBatching true (SetReplyTopic (InTopic r) (SetCorrelationID ulid (sr_Props r))).
Definition getRetryDelay (attempt : Z) : Z := (attempt + 1) * 1000000000.
End Checks.

(** ** Counters of topics *)
Module Metrics.
Record QueueMetrics := mkQueueMetrics {
  MessagesPublished : Z;
  MessagesConsumed : Z;
  MessagesRetried : Z;
  MessagesFailed : Z;
  ProcessingLatency : option Z;
  LastProcessingTime : option Z;
  QueueDepth : Z
}.
Record MetricsCollector := mkMetricsCollector {
  metrics : gmap string QueueMetrics;
  validTopics : gmap string bool
}.
Definition newMetricsCollector : MetricsCollector := mkMetricsCollector ∅ ∅.
Definition zero : QueueMetrics := mkQueueMetrics 0 0 0 0 None None 0.
Definition hasTopic (topic : string) (m : MetricsCollector) : bool := default false (validTopics m !! topic).
Definition setTopic (topic : string) (valid : bool) (m : MetricsCollector) : MetricsCollector :=
  mkMetricsCollector (metrics m) (<[topic := valid]> (validTopics m)).
Definition GetMetrics (topic : string) (m : MetricsCollector) : QueueMetrics :=
  match metrics m !! topic with
  | Some c => mkQueueMetrics (MessagesPublished c) (MessagesConsumed c) (MessagesRetried c) (MessagesFailed c) None (LastProcessingTime c) 0
  | None => zero
  end.

(** The average that is kept: [elapsed] is the time between the two readings of
    the clock in the same call. *)
Definition new_latency (elapsed : Z) (c : QueueMetrics) : option Z :=
  let current := default 0 (ProcessingLatency c) in
  if 0 <? MessagesConsumed c
  then Some (Z.quot (current * (MessagesConsumed c - 1) + elapsed) (MessagesConsumed c))
  else Some current.
Definition count (published consumed retried failed queueDepth : Z) (c : QueueMetrics) : QueueMetrics :=
  mkQueueMetrics
    (if 0 <? published then MessagesPublished c + published else MessagesPublished c)
    (if 0 <? consumed then MessagesConsumed c + consumed else MessagesConsumed c)
    (if 0 <? retried then MessagesRetried c + retried else MessagesRetried c)
    (if 0 <? failed then MessagesFailed c + failed else MessagesFailed c)
    (ProcessingLatency c) (LastProcessingTime c)
    (if 0 <=? queueDepth then queueDepth else QueueDepth c).
Definition updateMetrics (now elapsed : Z) (topic : string) (published consumed retried failed queueDepth : Z)
    (m : MetricsCollector) : MetricsCollector :=
  let c := count published consumed retried failed queueDepth (default zero (metrics m !! topic)) in
  let c := if (0 <? consumed) || (0 <? retried) || (0 <? published)
           then mkQueueMetrics (MessagesPublished c) (MessagesConsumed c) (MessagesRetried c) (MessagesFailed c)
                  (new_latency elapsed c) (Some now) (QueueDepth c)
           else c in
  mkMetricsCollector (<[topic := c]> (metrics m)) (validTopics m).

(** The tick of the collector: counters of every topic that was ever known are
    copied, with the time since their last change as latency. *)
Definition getTopicMetrics (now : Z) (topic : string) (m : MetricsCollector) : QueueMetrics :=
  match metrics m !! topic with
  | Some c =>
      mkQueueMetrics (MessagesPublished c) (MessagesConsumed c) (MessagesRetried c) (MessagesFailed c)
        (match LastProcessingTime c with Some t => Some (now - t) | None => None end) (LastProcessingTime c) (QueueDepth c)
  | None => zero
  end.
Definition gatherMetrics `{RangeOrder} (now : Z) (m : MetricsCollector) : MetricsCollector :=
  foldl (fun m tv => mkMetricsCollector (<[fst tv := getTopicMetrics now (fst tv) m]> (metrics m)) (validTopics m))
    m (range (validTopics m)).

Definition calculateMetricsDelta (current : QueueMetrics) (previous : option QueueMetrics) : QueueMetrics :=
  match previous with
  | None => current
  | Some p =>
      mkQueueMetrics (MessagesPublished current - MessagesPublished p) (MessagesConsumed current - MessagesConsumed p)
        (MessagesRetried current - MessagesRetried p) (MessagesFailed current - MessagesFailed p)
        (ProcessingLatency current) (LastProcessingTime current) (QueueDepth current)
  end.
End Metrics.

(** ** The multiplexer of a topic

    [C] stands for what a callback closes over, [S] for the state of the client
    that notifies, and [invoke] for the call of a callback; [true] is an error. *)
Module Mx.
Import Headers.

Section Mx.
Context {C S : Type} `{RangeOrder}.

Record Entry := mkEntry { correlationID : string; callback : C }.
Abbreviation Multiplexer := (gmap string Entry) (only parsing).
Definition Add (id : string) (e : Entry) (mx : Multiplexer) : Multiplexer := <[id := e]> mx.
Definition Remove (id : string) (mx : Multiplexer) : Multiplexer := delete id mx.
Definition SubscriberIDs (mx : Multiplexer) : list string := map fst (range mx).

Context (invoke : string -> C -> MessageEvent -> S -> bool * S) (filter_ : string -> MessageEvent -> bool)
  (ack : S -> S) (commitTimeout now : Z).

(** A callback without correlation identifier gets every message, one with it
    only its own; the first error ends the round. *)
Definition wants (e : Entry) (event : MessageEvent) : bool :=
  (correlationID e == "") || (correlationID e == CoRelationID event).
Definition too_old (event : MessageEvent) : bool :=
  Z.quot commitTimeout 1000000000 <? Containers.Unix now - Containers.Unix (PublishTime event).
Fixpoint notify (subscribers : list (string * Entry)) (event : MessageEvent) (sent : nat) (s : S) : nat * S :=
  match subscribers with
  | [] => (sent, s)
  | (id, next) :: rest =>
      if wants next event then
        if filter_ id event then
          let '(failed, s) := invoke id (callback next) event s in
          if failed then (Datatypes.S sent, s) else notify rest event (Datatypes.S sent) s
        else notify rest event (Datatypes.S sent) s
      else notify rest event sent (if too_old event then ack s else s)
  end.
Definition Notify (mx : Multiplexer) (event : MessageEvent) (s : S) : nat * S := notify (range mx) event 0 s.
End Mx.
Arguments Entry : clear implicits.
End Mx.

(** ** The client within one process *)
Module Channel.
Import Headers Checks Metrics Mx.

(** The callbacks: a user's, or the one that [SendReceive] waits with. *)
Inductive callback_kind := UserCallback | ResponseOf (call : nat).
Inductive signal := Ack | Nack.

(** What a callback of [Subscribe] closes over. *)
Record Closure := mkClosure { cl_Topic : string; cl_dlq : string; cl_kind : callback_kind }.

Record topicChannel := mkTopicChannel {
  name : string;
  subscribers : gset string;
  multiplexer : gmap string (Entry Closure);
  redeliveryCh : list MessageEvent;
  ch_closed : bool
}.

(** One call of a subscription's callback, with its [processed] flag, and the
    notification it belongs to, with its own. *)
Record Delivery := mkDelivery { d_sub : string; d_closure : Closure; d_msg : MessageEvent; d_processed : bool; d_outer : nat }.
Record Outer := mkOuter { o_redelivery : bool; o_channel : nat; o_name : string; o_msg : MessageEvent; o_processed : bool }.

(** A call of [SendReceive]: its channel of one place, closed when it returns. *)
Record Call := mkCall {
  c_correlationID : string;
  c_InTopic : string;
  c_subID : string;
  c_response : option MessageEvent;
  c_closed : bool;
  c_result : option (option MessageEvent)
}.

Record Client := mkClient {
  topics : gmap string nat;
  channels : gmap nat topicChannel;
  closed : bool;
  collector : MetricsCollector;
  retries : gmap (string * string) Z;
  deliveries : gmap nat Delivery;
  outers : gmap nat Outer;
  requeues : gmap nat (string * string * MessageHeaders);
  calls : gmap nat Call;
  next : nat;
  now : Z;
  crashed : bool
}.
Definition set_topics (x : gmap string nat) (c : Client) : Client :=
  mkClient x (channels c) (closed c) (collector c) (retries c) (deliveries c) (outers c) (requeues c) (calls c) (next c) (now c) (crashed c).
Definition set_channels (x : gmap nat topicChannel) (c : Client) : Client :=
  mkClient (topics c) x (closed c) (collector c) (retries c) (deliveries c) (outers c) (requeues c) (calls c) (next c) (now c) (crashed c).
Definition set_closed (c : Client) : Client :=
  mkClient (topics c) (channels c) true (collector c) (retries c) (deliveries c) (outers c) (requeues c) (calls c) (next c) (now c) (crashed c).
Definition set_collector (x : MetricsCollector) (c : Client) : Client :=
  mkClient (topics c) (channels c) (closed c) x (retries c) (deliveries c) (outers c) (requeues c) (calls c) (next c) (now c) (crashed c).
Definition set_retries (x : gmap (string * string) Z) (c : Client) : Client :=
  mkClient (topics c) (channels c) (closed c) (collector c) x (deliveries c) (outers c) (requeues c) (calls c) (next c) (now c) (crashed c).
Definition set_deliveries (x : gmap nat Delivery) (c : Client) : Client :=
  mkClient (topics c) (channels c) (closed c) (collector c) (retries c) x (outers c) (requeues c) (calls c) (next c) (now c) (crashed c).
Definition set_outers (x : gmap nat Outer) (c : Client) : Client :=
  mkClient (topics c) (channels c) (closed c) (collector c) (retries c) (deliveries c) x (requeues c) (calls c) (next c) (now c) (crashed c).
Definition set_requeues (x : gmap nat (string * string * MessageHeaders)) (c : Client) : Client :=
  mkClient (topics c) (channels c) (closed c) (collector c) (retries c) (deliveries c) (outers c) x (calls c) (next c) (now c) (crashed c).
Definition set_calls (x : gmap nat Call) (c : Client) : Client :=
  mkClient (topics c) (channels c) (closed c) (collector c) (retries c) (deliveries c) (outers c) (requeues c) x (next c) (now c) (crashed c).
Definition set_next (x : nat) (c : Client) : Client :=
  mkClient (topics c) (channels c) (closed c) (collector c) (retries c) (deliveries c) (outers c) (requeues c) (calls c) x (now c) (crashed c).
Definition set_now (x : Z) (c : Client) : Client :=
  mkClient (topics c) (channels c) (closed c) (collector c) (retries c) (deliveries c) (outers c) (requeues c) (calls c) (next c) x (crashed c).
Definition crash (c : Client) : Client :=
  mkClient (topics c) (channels c) (closed c) (collector c) (retries c) (deliveries c) (outers c) (requeues c) (calls c) (next c) (now c) true.
Definition newChannelClient (t : Z) : Client := mkClient ∅ ∅ false newMetricsCollector ∅ ∅ ∅ ∅ ∅ 0 t false.

Inductive send_error := ContextEnded | Refused (e : check_error) | ClientClosed | NotFound (id : string) | Overflow
| SubscribeFailed (e : check_error) | SendFailed (e : send_error).

(** New identifiers are distinct.  [handle] says what a user's callback does in
    its n-th delivery, [wanted] what the filter of a subscription accepts,
    [ended] whether the context of a delivery has ended when the callback of
    [SendReceive] looks; [stack] bounds the depth of calls. *)
Class Users := {
  ulid : nat -> string;
  ulid_inj : forall i j, ulid i = ulid j -> i = j;
  handle : nat -> MessageEvent -> list signal * bool;
  wanted : string -> MessageEvent -> bool;
  ended : nat -> bool;
  MaxMessageSize : Z;
  MaxConnections : nat;
  RetryMax : Z;
  stack : nat
}.

Section Client.
Context `{Users, RangeOrder}.

(** Numbers are used once: identifiers, channels, deliveries and calls. *)
Definition fresh (c : Client) : nat * Client := (next c, set_next (S (next c)) c).
Definition tally (topic : string) (published consumed retried failed : Z) (c : Client) : Client :=
  set_collector (updateMetrics (now c) 0 topic published consumed retried failed 0 (collector c)) c.

Definition getOrCreateTopic (topic : string) (c : Client) : nat * Client :=
  match topics c !! topic with
  | Some t => (t, c)
  | None =>
      let '(t, c) := fresh c in
      let c := set_channels (<[t := mkTopicChannel topic ∅ ∅ [] false]> (channels c)) c in
      (t, set_collector (setTopic topic true (collector c)) (set_topics (<[topic := t]> (topics c)) c))
  end.

(** *** The functions that a notification passes on *)
Definition outer_ack (o : nat) (c : Client) : Client :=
  match outers c !! o with
  | Some x =>
      if o_processed x then c
      else
        let c := set_outers (<[o := mkOuter (o_redelivery x) (o_channel x) (o_name x) (o_msg x) true]> (outers c)) c in
        if o_redelivery x then tally (o_name x) 0 1 0 0 c else tally (o_name x) 1 0 0 0 c
  | None => c
  end.

(** A full channel loses the message, a closed one is a panic. *)
Definition queue_again (t : nat) (topic : string) (msg : MessageEvent) (c : Client) : Client :=
  match channels c !! t with
  | Some ch =>
      if ch_closed ch then crash c
      else if (List.length (redeliveryCh ch) <? MaxConnections)%nat then
        tally topic 0 0 1 0
          (set_channels (<[t := mkTopicChannel (name ch) (subscribers ch) (multiplexer ch) (redeliveryCh ch ++ [msg]) false]> (channels c)) c)
      else c
  | None => c
  end.
Definition outer_nack (o : nat) (c : Client) : Client :=
  match outers c !! o with
  | Some x =>
      if o_processed x then c
      else queue_again (o_channel x) (o_name x) (o_msg x)
             (set_outers (<[o := mkOuter (o_redelivery x) (o_channel x) (o_name x) (o_msg x) true]> (outers c)) c)
  | None => c
  end.

(** *** The functions that a callback gets *)
Definition mark (d : nat) (x : Delivery) (c : Client) : Client :=
  set_deliveries (<[d := mkDelivery (d_sub x) (d_closure x) (d_msg x) true (d_outer x)]> (deliveries c)) c.
Definition wrappedAck (d : nat) (c : Client) : Client :=
  match deliveries c !! d with
  | Some x => if d_processed x then c else outer_ack (d_outer x) (tally (cl_Topic (d_closure x)) 0 1 0 0 (mark d x c))
  | None => c
  end.

Definition dlq_headers (msg : MessageEvent) (retryCount : Z) : MessageHeaders :=
  <["Error" := "Max retries exceeded"]> (<["OriginalTopic" := Topic msg]> (<["RetryCount" := itoa retryCount]> (Properties msg))).
Definition later (topic payload : string) (props : MessageHeaders) (c : Client) : Client :=
  let '(i, c) := fresh c in set_requeues (<[i := (topic, payload, props)]> (requeues c)) c.

(** [send] is the client's [Send], one call deeper. *)
Definition wrappedNack (send : string -> string -> MessageHeaders -> Client -> (string + send_error) * Client)
    (d : nat) (c : Client) : Client :=
  match deliveries c !! d with
  | Some x =>
      if d_processed x then c
      else
        let msg := d_msg x in
        let k := (d_sub x, ID msg) in
        let retryCount := default 0 (retries c !! k) + 1 in
        let c := set_retries (<[k := retryCount]> (retries c)) (mark d x c) in
        if RetryMax <=? retryCount then
          let c := if cl_dlq (d_closure x) != "" then
                     match send (cl_dlq (d_closure x)) (Payload msg) (dlq_headers msg retryCount) c with
                     | (inl _, c) => set_retries (delete k (retries c)) c
                     | (inr _, c) => c
                     end
                   else c in
          wrappedAck d c
        else
          outer_nack (d_outer x)
            (later (Topic msg) (Payload msg) (Properties msg) (tally (cl_Topic (d_closure x)) 0 0 1 0 c))
  | None => c
  end.
Definition act (send : string -> string -> MessageHeaders -> Client -> (string + send_error) * Client)
    (d : nat) (g : signal) (c : Client) : Client :=
  match g with Ack => wrappedAck d c | Nack => wrappedNack send d c end.

(** The callback of [SendReceive]: a second reply finds the place taken, and a
    late one the channel closed. *)
Definition on_response (send : string -> string -> MessageHeaders -> Client -> (string + send_error) * Client)
    (call d : nat) (msg : MessageEvent) (c : Client) : bool * Client :=
  match calls c !! call with
  | Some x =>
      if CoRelationID msg == c_correlationID x then
        if ended d then (true, c)
        else if c_closed x then (false, wrappedNack send d c)
        else match c_response x with
             | None =>
                 (false, wrappedAck d
                           (set_calls (<[call := mkCall (c_correlationID x) (c_InTopic x) (c_subID x) (Some msg) false (c_result x)]> (calls c)) c))
             | Some _ => (false, wrappedNack send d c)
             end
      else (false, c)
  | None => (false, c)
  end.

(** The call of a subscription's callback. *)
Definition invoke (send : string -> string -> MessageHeaders -> Client -> (string + send_error) * Client)
    (o : nat) (id : string) (cl : Closure) (msg : MessageEvent) (c : Client) : bool * Client :=
  let '(d, c) := fresh c in
  let c := set_deliveries (<[d := mkDelivery id cl msg false o]> (deliveries c)) c in
  let '(failed, c) :=
    match cl_kind cl with
    | UserCallback => let '(signals, failed) := handle d msg in (failed, foldl (fun c g => act send d g c) c signals)
    | ResponseOf call => on_response send call d msg c
    end in
  (failed, if failed then tally (cl_Topic cl) 0 0 0 1 c else c).

Definition commitTimeout : Z := 30 * 1000000000.
Definition notify_topic (send : string -> string -> MessageHeaders -> Client -> (string + send_error) * Client)
    (redelivery : bool) (t : nat) (msg : MessageEvent) (c : Client) : Client :=
  match channels c !! t with
  | Some ch =>
      let '(o, c) := fresh c in
      let c := set_outers (<[o := mkOuter redelivery t (name ch) msg false]> (outers c)) c in
      let c := if redelivery then c else tally (name ch) 1 0 0 0 c in
      let '(sent, c) := Notify (invoke send o) wanted (outer_ack o) commitTimeout (now c) (multiplexer ch) msg c in
      if (sent =? 0)%nat then outer_ack o c else c
  | None => c
  end.

(** *** The operations *)
Fixpoint Send (depth : nat) (ctx_ended : bool) (topic payload : string) (props : MessageHeaders) (c : Client)
    : (string + send_error) * Client :=
  match depth with
  | O => (inr Overflow, crash c)
  | S depth =>
      if ctx_ended then (inr ContextEnded, c)
      else match validateSendRequest topic payload props MaxMessageSize with
           | Some e => (inr (Refused e), c)
           | None =>
               if closed c then (inr ClientClosed, c)
               else
                 let '(i, c) := fresh c in
                 let msg := mkMessageEvent topic "" props payload (ulid i) (now c) 0 0 in
                 let '(t, c) := getOrCreateTopic topic c in
                 (inl (ID msg), notify_topic (Send depth ctx_ended) false t msg c)
           end
  end.
Definition Publish := Send.

(** One turn of the redelivery loop of a topic. *)
Definition handleRedelivery (t : nat) (c : Client) : Client :=
  match channels c !! t with
  | Some ch =>
      match redeliveryCh ch with
      | msg :: rest =>
          notify_topic (Send stack false) true t msg
            (set_channels (<[t := mkTopicChannel (name ch) (subscribers ch) (multiplexer ch) rest (ch_closed ch)]> (channels c)) c)
      | [] => c
      end
  | None => c
  end.

(** The goroutine that sends a refused message again. *)
Definition requeue (i : nat) (ctx_ended : bool) (c : Client) : Client :=
  match requeues c !! i with
  | Some (topic, payload, props) => snd (Send stack ctx_ended topic payload props (set_requeues (delete i (requeues c)) c))
  | None => c
  end.

Definition subscribe (kind : callback_kind) (opts : SubscribeOptions) (c : Client) : (string + check_error) * Client :=
  match validateSubscribeOptions opts with
  | Some e => (inr e, c)
  | None =>
      let '(i, c) := fresh c in
      let subID := ulid i in
      let '(t, c) := getOrCreateTopic (so_Topic opts) c in
      match channels c !! t with
      | Some ch =>
          let e := mkEntry (GetCorrelationID (so_Props opts)) (mkClosure (so_Topic opts) (get "DeadLetterQueue" (so_Props opts)) kind) in
          (inl subID,
           set_channels (<[t := mkTopicChannel (name ch) ({[subID]} ∪ subscribers ch) (Mx.Add subID e (multiplexer ch))
                                  (redeliveryCh ch) (ch_closed ch)]> (channels c)) c)
      | None => (inl subID, c)
      end
  end.
Definition Subscribe := subscribe UserCallback.

(** The goroutine of [Add]: when the context of a subscription has ended its
    callback is removed. *)
Definition context_ended (t : nat) (id : string) (c : Client) : Client :=
  match channels c !! t with
  | Some ch =>
      set_channels (<[t := mkTopicChannel (name ch) (subscribers ch) (Mx.Remove id (multiplexer ch)) (redeliveryCh ch) (ch_closed ch)]> (channels c)) c
  | None => c
  end.

(** The callback stays with the multiplexer. *)
Definition UnSubscribe (topic id : string) (c : Client) : option send_error * Client :=
  let '(t, c) := getOrCreateTopic topic c in
  match channels c !! t with
  | Some ch =>
      if decide (id ∈ subscribers ch) then
        let left := subscribers ch ∖ {[id]} in
        let c := set_channels (<[t := mkTopicChannel (name ch) left (multiplexer ch) (redeliveryCh ch) (ch_closed ch)]> (channels c)) c in
        (None,
         if (size left =? 0)%nat
         then set_collector (setTopic topic false (collector c)) (set_topics (delete topic (topics c)) c)
         else c)
      else (Some (NotFound id), c)
  | None => (Some (NotFound id), c)
  end.

Definition CreateTopicIfNotExists (topic : string) (c : Client) : option check_error * Client :=
  if topic == "" then (Some EmptyTopic, c) else (None, snd (getOrCreateTopic topic c)).

Definition close_channel (c : Client) (tt : string * nat) : Client :=
  match channels c !! snd tt with
  | Some ch =>
      set_collector (setTopic (fst tt) false (collector c))
        (set_channels (<[snd tt := mkTopicChannel (name ch) (subscribers ch) (multiplexer ch) (redeliveryCh ch) true]> (channels c)) c)
  | None => c
  end.
Definition Close (c : Client) : Client :=
  if closed c then c else set_closed (foldl close_channel c (range (topics c))).

(** [SendReceive] up to its wait: the number of the call. *)
Definition end_call (call : nat) (result : option MessageEvent) (c : Client) : Client :=
  match calls c !! call with
  | Some x =>
      let c := snd (UnSubscribe (c_InTopic x) (c_subID x) c) in
      set_calls (<[call := mkCall (c_correlationID x) (c_InTopic x) (c_subID x) (c_response x) true (Some result)]> (calls c)) c
  | None => c
  end.
Definition set_subID (call : nat) (subID : string) (c : Client) : Client :=
  match calls c !! call with
  | Some x => set_calls (<[call := mkCall (c_correlationID x) (c_InTopic x) subID (c_response x) (c_closed x) (c_result x)]> (calls c)) c
  | None => c
  end.
Definition SendReceive (ctx_ended : bool) (r : SendReceiveRequest) (c : Client) : (nat + send_error) * Client :=
  match validateSendReceiveRequest r MaxMessageSize with
  | Some e => (inr (Refused e), c)
  | None =>
      let '(call, c) := fresh c in
      let correlationID := ulid call in
      let c := set_calls (<[call := mkCall correlationID (InTopic r) "" None false None]> (calls c)) c in
      let opts := mkSubscribeOptions (InTopic r) false true "" ∅ in
      match subscribe (ResponseOf call) opts c with
      | (inr e, c) => (inr (SubscribeFailed e), c)
      | (inl subID, c) =>
          let c := set_subID call subID c in
          let props := SetReplyTopic (InTopic r) (SetCorrelationID correlationID (sr_Props r)) in
          match Send stack ctx_ended (OutTopic r) (sr_Payload r) props c with
          | (inr e, c) => (inr (SendFailed e), end_call call None c)
          | (inl _, c) => (inl call, c)
          end
      end
  end.

(** The end of the wait: by the reply, or by the timeout. *)
Definition receive (call : nat) (c : Client) : Client :=
  match calls c !! call with
  | Some x =>
      match c_result x, c_response x with
      | None, Some msg => end_call call (Some msg) c
      | _, _ => c
      end
  | None => c
  end.
Definition timeout (call : nat) (c : Client) : Client :=
  match calls c !! call with
  | Some x => match c_result x with None => end_call call None c | Some _ => c end
  | None => c
  end.

(** *** Steps *)
Inductive event :=
| Clock (t : Z)
| DoSend (ctx_ended : bool) (topic payload : string) (props : MessageHeaders)
| DoSubscribe (opts : SubscribeOptions)
| DoUnSubscribe (topic id : string)
| DoCreate (topic : string)
| DoClose
| Signal (d : nat) (g : signal) (ctx_ended : bool)
| Redeliver (t : nat)
| Requeue (i : nat) (ctx_ended : bool)
| ContextEnd (t : nat) (id : string)
| StartCall (ctx_ended : bool) (r : SendReceiveRequest)
| Receive (call : nat)
| Expire (call : nat).
Definition step (e : event) (c : Client) : Client :=
  match e with
  | Clock t => set_now t c
  | DoSend ctx_ended topic payload props => snd (Send stack ctx_ended topic payload props c)
  | DoSubscribe opts => snd (Subscribe opts c)
  | DoUnSubscribe topic id => snd (UnSubscribe topic id c)
  | DoCreate topic => snd (CreateTopicIfNotExists topic c)
  | DoClose => Close c
  | Signal d g ctx_ended => act (Send stack ctx_ended) d g c
  | Redeliver t => handleRedelivery t c
  | Requeue i ctx_ended => requeue i ctx_ended c
  | ContextEnd t id => context_ended t id c
  | StartCall ctx_ended r => snd (SendReceive ctx_ended r c)
  | Receive call => receive call c
  | Expire call => timeout call c
  end.
Fixpoint run (es : list event) (c : Client) : Client :=
  match es with [] => c | e :: es => run es (step e c) end.
End Client.
End Channel.
