(* ===== verification/QueueSpec.v ===== *)
(** * QueueSpec: what the in-process queue guarantees

    A call gets the reply with its own correlation identifier, whatever is late,
    redelivered or sent by others; and a message is handed to every callback that
    the multiplexer of its topic holds, also those that have been unsubscribed. *)

From Stdlib Require Import Ascii.
From S2P Require Import Prelude Resource Queue.
Import Headers Checks Metrics Mx Channel.

Open Scope Z_scope.

Section Channel.
Context `{Users, RangeOrder}.

(** ** The invariant of a client

    Topics lead to channels of their name, messages wait in the channel of their
    topic, and a callback that waits for a reply sits with the topic of its call.
    [later_than]: numbers are not used again, channels keep their names and calls
    their topics. *)
Definition topic_of (c : Client) (call : nat) (topic : string) : Prop :=
  (call < next c)%nat /\ forall x, calls c !! call = Some x -> c_InTopic x = topic.
Definition named (c : Client) (t : nat) (topic : string) : Prop := exists ch, channels c !! t = Some ch /\ name ch = topic.

(** Messages have identifiers that were made. *)
Definition known (c : Client) (m : MessageEvent) : Prop := exists i, (i < next c)%nat /\ ID m = ulid i.
Record channel_ok (c : Client) (t : nat) (ch : topicChannel) : Prop := {
  ok_number : (t < next c)%nat;
  ok_waiting : Forall (fun m => Topic m = name ch /\ known c m) (redeliveryCh ch);
  ok_callbacks : forall id e call, multiplexer ch !! id = Some e -> cl_kind (callback e) = ResponseOf call -> topic_of c call (name ch)
}.
Record call_ok (c : Client) (call : nat) (x : Call) : Prop := {
  ok_call_number : (call < next c)%nat;
  ok_correlation : c_correlationID x = ulid call;
  ok_response : forall m, c_response x = Some m -> CoRelationID m = ulid call /\ Topic m = c_InTopic x;
  ok_result : forall m, c_result x = Some (Some m) -> c_response x = Some m
}.
Record inv (c : Client) : Prop := {
  inv_topics : forall topic t, topics c !! topic = Some t -> named c t topic;
  inv_channels : forall t ch, channels c !! t = Some ch -> channel_ok c t ch;
  inv_outers : forall o x, outers c !! o = Some x -> named c (o_channel x) (o_name x) /\ Topic (o_msg x) = o_name x /\ known c (o_msg x);
  inv_deliveries : forall d x, deliveries c !! d = Some x -> (d < next c)%nat /\ known c (d_msg x);
  inv_calls : forall call x, calls c !! call = Some x -> call_ok c call x
}.
Record later_than (c c' : Client) : Prop := {
  lt_next : (next c <= next c')%nat;
  lt_named : forall t topic, named c t topic -> named c' t topic;
  lt_calls : forall call x', (call < next c)%nat -> calls c' !! call = Some x' -> exists x, calls c !! call = Some x /\ c_InTopic x = c_InTopic x'
}.
Definition good (c c' : Client) : Prop := inv c -> inv c' /\ later_than c c'.

Lemma later_refl c : later_than c c.
Proof. split; [done|done|eauto]. Qed.
Lemma later_trans c1 c2 c3 : later_than c1 c2 -> later_than c2 c3 -> later_than c1 c3.
Proof.
  intros [A1 B1 C1] [A2 B2 C2]. split; [lia|auto|]. intros call x Hl Hx. destruct (C2 call x ltac:(lia) Hx) as (y & Hy & <-).
  destruct (C1 call y Hl Hy) as (z & Hz & <-). eauto.
Qed.
Lemma good_refl c : good c c.
Proof. intros. split; [done|apply later_refl]. Qed.
Lemma good_trans c1 c2 c3 : good c1 c2 -> good c2 c3 -> good c1 c3.
Proof. intros A B I. destruct (A I) as [I2 L2]. destruct (B I2) as [I3 L3]. split; [done|by eapply later_trans]. Qed.
Lemma topic_of_later c c' call topic : later_than c c' -> topic_of c call topic -> topic_of c' call topic.
Proof. intros [A B C] [D E]. split; [lia|]. intros x Hx. destruct (C call x D Hx) as (y & Hy & <-). by apply E. Qed.
Lemma known_later c c' m : later_than c c' -> known c m -> known c' m.
Proof. intros L (i & Hi & E). exists i. split; [pose proof (lt_next _ _ L); lia|done]. Qed.
Lemma channel_ok_later c c' t ch : later_than c c' -> channel_ok c t ch -> channel_ok c' t ch.
Proof.
  intros L [A B C]. split; [pose proof (lt_next _ _ L); lia| |].
  - eapply Forall_impl; [exact B|]. intros m [D E]. split; [done|by eapply known_later].
  - intros. eapply topic_of_later; eauto.
Qed.
Lemma outer_ok_later c c' x :
  later_than c c' -> named c (o_channel x) (o_name x) /\ Topic (o_msg x) = o_name x /\ known c (o_msg x) ->
  named c' (o_channel x) (o_name x) /\ Topic (o_msg x) = o_name x /\ known c' (o_msg x).
Proof. intros L (A & B & C). split_and!; [by apply (lt_named _ _ L)|done|by eapply known_later]. Qed.
Lemma delivery_ok_later c c' d x :
  later_than c c' -> (d < next c)%nat /\ known c (d_msg x) -> (d < next c')%nat /\ known c' (d_msg x).
Proof. intros L [A B]. split; [pose proof (lt_next _ _ L); lia|by eapply known_later]. Qed.

(** Steps that leave topics, channels, notifications and calls alone. *)
Lemma good_frame c c' :
  topics c' = topics c -> channels c' = channels c -> outers c' = outers c -> calls c' = calls c -> deliveries c' = deliveries c ->
  (next c <= next c')%nat -> good c c'.
Proof.
  intros ET EC EO EX ED EN [I1 I2 I3 I5 I4].
  assert (later_than c c') as L. { split; [done|unfold named; by rewrite EC|]. rewrite EX. eauto. }
  split; [|done]. split.
  - rewrite ET. intros topic t HT. apply (lt_named _ _ L). eauto.
  - rewrite EC. intros t ch HC. eapply channel_ok_later; eauto.
  - rewrite EO. intros o x HO. eapply outer_ok_later; eauto.
  - rewrite ED. intros d x HD. eapply delivery_ok_later; eauto.
  - rewrite EX. intros call x HX. destruct (I4 call x HX) as [A B C D]. split; [lia|done..].
Qed.
Ltac frame := apply good_frame; cbn; done || lia.

Lemma good_fresh c : good c (snd (fresh c)).
Proof. frame. Qed.
Lemma good_tally topic a b r f c : good c (tally topic a b r f c).
Proof. frame. Qed.

Lemma good_delivery c d x :
  (inv c -> (d < next c)%nat /\ known c (d_msg x)) -> good c (set_deliveries (<[d := x]> (deliveries c)) c).
Proof.
  intros HD I. specialize (HD I). destruct I as [I1 I2 I3 I5 I4]. split; [|by split; [|done|cbn; eauto]]. split; cbn.
  - done.
  - intros t ch HC. by destruct (I2 t ch HC).
  - done.
  - intros d' y. destruct (decide (d' = d)) as [->|Hne]; [rewrite lookup_insert_eq; by intros [= <-]|].
    rewrite lookup_insert_ne by done. apply I5.
  - intros call y HX. by destruct (I4 call y HX).
Qed.

(** A channel is replaced by one of the same name. *)
Lemma good_channel c t ch ch' :
  channels c !! t = Some ch -> name ch' = name ch ->
  (inv c -> channel_ok c t ch -> channel_ok c t ch') ->
  good c (set_channels (<[t := ch']> (channels c)) c).
Proof.
  intros EC EN HO I. pose proof I as [I1 I2 I3 I5 I4].
  assert (later_than c (set_channels (<[t := ch']> (channels c)) c)) as L.
  { split; [done| |cbn; eauto]. intros t' topic (x & Hx & <-). unfold named. cbn. destruct (decide (t' = t)) as [->|Hne].
    - exists ch'. rewrite lookup_insert_eq. split; [done|]. congruence.
    - exists x. by rewrite lookup_insert_ne. }
  split; [|done]. split; cbn.
  - intros topic t' HT. apply (lt_named _ _ L). eauto.
  - intros t' x. destruct (decide (t' = t)) as [->|Hne].
    + rewrite lookup_insert_eq. intros [= <-]. eapply channel_ok_later; [exact L|]. eauto.
    + rewrite lookup_insert_ne by done. intros. eapply channel_ok_later; eauto.
  - intros o x HX. eapply outer_ok_later; eauto.
  - done.
  - intros call x HX. destruct (I4 call x HX) as [A B C D]. by split.
Qed.

Lemma good_outer c o x :
  Topic (o_msg x) = o_name x -> known c (o_msg x) -> named c (o_channel x) (o_name x) -> good c (set_outers (<[o := x]> (outers c)) c).
Proof.
  intros HT HK HN I. pose proof I as [I1 I2 I3 I5 I4]. split; [|by split; [|done|eauto]]. split; cbn.
  - done.
  - intros t ch HC. destruct (I2 t ch HC). by split.
  - intros o' x'. destruct (decide (o' = o)) as [->|Hne]; [rewrite lookup_insert_eq; by intros [= <-]|].
    rewrite lookup_insert_ne by done. apply I3.
  - done.
  - intros call y HX. destruct (I4 call y HX). by split.
Qed.
Lemma good_outer_processed c o x :
  outers c !! o = Some x ->
  good c (set_outers (<[o := mkOuter (o_redelivery x) (o_channel x) (o_name x) (o_msg x) true]> (outers c)) c).
Proof. intros E I. destruct (inv_outers _ I o x E) as (? & ? & ?). by apply good_outer. Qed.

(** A call changes without changing its name and topic. *)
Lemma good_call c call x x' :
  calls c !! call = Some x -> c_InTopic x' = c_InTopic x -> (inv c -> call_ok c call x') ->
  good c (set_calls (<[call := x']> (calls c)) c).
Proof.
  intros EX ET HO I. pose proof I as [I1 I2 I3 I5 I4].
  assert (later_than c (set_calls (<[call := x']> (calls c)) c)) as L.
  { split; [done|done|]. cbn. intros call' y Hl. destruct (decide (call' = call)) as [->|Hne].
    - rewrite lookup_insert_eq. intros [= <-]. eauto.
    - rewrite lookup_insert_ne by done. eauto. }
  split; [|done]. split; cbn; [done| |done|done|].
  - intros t ch HC. eapply channel_ok_later; eauto.
  - intros call' y. destruct (decide (call' = call)) as [->|Hne].
    + rewrite lookup_insert_eq. intros [= <-]. by destruct (HO I).
    + rewrite lookup_insert_ne by done. intros Hy. by destruct (I4 _ _ Hy).
Qed.

(** ** Every operation keeps it *)
Abbreviation sender := (string -> string -> gmap string string -> Client -> (string + send_error) * Client) (only parsing).
Definition good_sender (send : sender) : Prop := forall topic payload props c, good c (snd (send topic payload props c)).

Lemma good_outer_ack o c : good c (outer_ack o c).
Proof.
  unfold outer_ack. destruct (outers c !! o) as [x|] eqn:E; [|apply good_refl]. destruct (o_processed x); [apply good_refl|].
  eapply good_trans; [by apply (good_outer_processed c o x)|]. destruct (o_redelivery x); apply good_tally.
Qed.
Lemma good_queue_again t topic msg c : (inv c -> named c t (Topic msg) /\ known c msg) -> good c (queue_again t topic msg c).
Proof.
  intros HN I. specialize (HN I). revert I. change (good c (queue_again t topic msg c)). unfold queue_again.
  destruct HN as [(ch & E & EN) HK]. rewrite E. destruct (ch_closed ch); [frame|].
  destruct (_ <? _)%nat; [|apply good_refl]. eapply good_trans; [|apply good_tally].
  eapply (good_channel c t ch); [done|done|]. intros _ [A B C]. split; [done| |done]. cbn. apply Forall_app. by split; [|constructor].
Qed.
Lemma good_outer_nack o c : good c (outer_nack o c).
Proof.
  unfold outer_nack. destruct (outers c !! o) as [x|] eqn:E; [|apply good_refl]. destruct (o_processed x); [apply good_refl|].
  intros I. destruct (inv_outers _ I o x E) as (HN & HT & HK). revert I.
  eapply good_trans; [by apply (good_outer_processed c o x)|]. apply good_queue_again. by rewrite HT.
Qed.
Lemma good_mark d x c : deliveries c !! d = Some x -> good c (mark d x c).
Proof. intros E. apply good_delivery. intros I. exact (inv_deliveries _ I d x E). Qed.
Lemma good_wrappedAck d c : good c (wrappedAck d c).
Proof.
  unfold wrappedAck. destruct (deliveries c !! d) as [x|] eqn:ED; [|apply good_refl]. destruct (d_processed x); [apply good_refl|].
  eapply good_trans; [by apply (good_mark d x)|]. eapply good_trans; [apply good_tally|apply good_outer_ack].
Qed.
Lemma good_later topic payload props c : good c (later topic payload props c).
Proof. frame. Qed.

Section Sender.
Context (send : sender) (send_good : good_sender send).
Lemma good_wrappedNack d c : good c (wrappedNack send d c).
Proof.
  unfold wrappedNack. destruct (deliveries c !! d) as [x|] eqn:ED; [|apply good_refl]. destruct (d_processed x); [apply good_refl|].
  set (k := (d_sub x, ID (d_msg x))). set (n := default 0 (retries c !! k) + 1).
  set (c1 := set_retries (<[k := n]> (retries c)) (mark d x c)). cbv zeta.
  eapply (good_trans _ c1); [eapply good_trans; [by apply (good_mark d x)|frame]|]. destruct (RetryMax <=? n).
  - destruct (cl_dlq (d_closure x) != ""); [|apply good_wrappedAck].
    pose proof (send_good (cl_dlq (d_closure x)) (Payload (d_msg x)) (dlq_headers (d_msg x) n) c1) as HS.
    destruct (send _ _ _ c1) as [[?|?] c2]; cbn in HS; (eapply good_trans; [exact HS|]).
    + eapply good_trans; [|apply good_wrappedAck]. frame.
    + apply good_wrappedAck.
  - eapply good_trans; [apply good_tally|]. eapply good_trans; [apply good_later|apply good_outer_nack].
Qed.
Lemma good_act d g c : good c (act send d g c).
Proof. destruct g; [apply good_wrappedAck|apply good_wrappedNack]. Qed.
Lemma good_signals d gs c : good c (foldl (fun c g => act send d g c) c gs).
Proof. revert c. induction gs as [|g gs IH]; intros c; [apply good_refl|]. eapply good_trans; [apply good_act|apply IH]. Qed.

Lemma good_on_response call d msg c : (inv c -> topic_of c call (Topic msg)) -> good c (snd (on_response send call d msg c)).
Proof.
  intros HT I. specialize (HT I). revert I. change (good c (snd (on_response send call d msg c))). unfold on_response.
  destruct (calls c !! call) as [x|] eqn:E; [|apply good_refl]. destruct (_ == _) eqn:EQ; [|apply good_refl].
  destruct (ended d); [apply good_refl|]. destruct (c_closed x); [apply good_wrappedNack|].
  destruct (c_response x) eqn:ER; [apply good_wrappedNack|]. cbn [snd]. eapply good_trans; [|apply good_wrappedAck].
  eapply (good_call c call x); [done|done|]. intros I. destruct (inv_calls _ I _ _ E) as [A B C D]. apply eqb_string_true in EQ. split; cbn.
  - done.
  - done.
  - intros m [= <-]. split; [congruence|]. symmetry. by apply HT.
  - intros m Hm. by rewrite (D m Hm) in ER.
Qed.

(** An entry that waits for a reply belongs to the topic of the message. *)
Definition belongs (c : Client) (topic : string) (e : Entry Closure) : Prop :=
  forall call, cl_kind (callback e) = ResponseOf call -> topic_of c call topic.
Lemma belongs_later c c' topic e : later_than c c' -> belongs c topic e -> belongs c' topic e.
Proof. intros L B call E. eapply topic_of_later; eauto. Qed.

Lemma good_invoke o id e msg c : (inv c -> belongs c (Topic msg) e /\ known c msg) -> good c (snd (invoke send o id (callback e) msg c)).
Proof.
  intros HB I. destruct (HB I) as [HB' HK]. revert I. change (good c (snd (invoke send o id (callback e) msg c))). unfold invoke. cbn [fresh].
  set (c1 := set_deliveries _ _). set (d := next c).
  assert (good c c1) as G1.
  { eapply good_trans; [apply good_fresh|]. apply good_delivery. intros _. split; [cbn; lia|]. destruct HK as (i & Hi & Ei). exists i. split; [cbn; lia|done]. }
  assert (forall b c2, good c c2 -> good c (snd (b : bool, if b then tally (cl_Topic (callback e)) 0 0 0 1 c2 else c2))) as HF.
  { intros b c2 G. destruct b; [|done]. eapply good_trans; [exact G|apply good_tally]. }
  destruct (cl_kind (callback e)) as [|call] eqn:EK.
  - destruct (handle d msg) as [gs b]. apply HF. eapply good_trans; [exact G1|apply good_signals].
  - destruct (on_response send call d msg c1) as [b c2] eqn:ER. apply HF. intros I. destruct (G1 I) as [I1 L1].
    assert (good c1 c2) as G2. { pose proof (good_on_response call d msg c1) as G. rewrite ER in G. apply G. intros _. eapply topic_of_later; [exact L1|by apply HB']. }
    by apply (good_trans c c1 c2).
Qed.

Lemma good_notify o commit t msg l sent c :
  inv c -> known c msg -> Forall (fun ie => belongs c (Topic msg) (snd ie)) l ->
  let c' := snd (notify (invoke send o) wanted (outer_ack o) commit t l msg sent c) in inv c' /\ later_than c c'.
Proof.
  revert sent c. induction l as [|[id e] l IH]; intros sent c I HK HF; cbn [notify]; [by split; [|apply later_refl]|].
  apply Forall_cons in HF as [HE HF]. cbn in HE.
  assert (forall n c', good c c' ->
    let c2 := snd (notify (invoke send o) wanted (outer_ack o) commit t l msg n c') in inv c2 /\ later_than c c2) as HR.
  { intros n c' G. destruct (G I) as [I' L']. destruct (IH n c' I') as [I2 L2].
    - by eapply known_later.
    - eapply Forall_impl; [exact HF|]. intros ie. by apply belongs_later.
    - split; [done|by eapply later_trans]. }
  destruct (wants e msg).
  - destruct (wanted id msg); [|apply HR, good_refl].
    pose proof (good_invoke o id e msg c (fun _ => conj HE HK)) as GI. destruct (invoke send o id (callback e) msg c) as [[] c1].
    + by apply GI.
    + by apply HR.
  - apply HR. destruct (too_old _ _ _); [apply good_outer_ack|apply good_refl].
Qed.
Lemma good_notify_topic redelivery t msg c :
  (inv c -> named c t (Topic msg) /\ known c msg) -> good c (notify_topic send redelivery t msg c).
Proof.
  intros HN I. destruct (HN I) as [(ch & EC & EN) HK]. unfold notify_topic. rewrite EC.
  destruct (fresh c) as [o c0] eqn:EF. cbv zeta.
  assert (good c c0) as G0 by (pose proof (good_fresh c) as G; by rewrite EF in G).
  set (c1 := set_outers _ c0). set (c2 := if redelivery then c1 else tally (name ch) 1 0 0 0 c1).
  assert (inv c2 /\ later_than c c2) as [I2 L2].
  { destruct (G0 I) as [I0 L0].
    assert (good c0 c1) as G1. { apply good_outer; cbn; [done|by eapply known_later|]. apply (lt_named _ _ L0). by exists ch. }
    assert (good c1 c2) as G2. { subst c2. destruct redelivery; [apply good_refl|apply good_tally]. }
    destruct (good_trans _ _ _ G1 G2 I0) as [I2 L2]. split; [done|by eapply later_trans]. }
  clearbody c2. unfold Notify.
  destruct (good_notify o commitTimeout (now c2) msg (range (multiplexer ch)) 0 c2 I2 (known_later _ _ _ L2 HK)) as [I3 L3].
  { apply Forall_forall. intros [id e] Hin call EK. apply elem_of_range in Hin. rewrite <- EN. eapply topic_of_later; [exact L2|].
    eapply ok_callbacks; [by apply (inv_channels _ I)|done|done]. }
  destruct (notify _ _ _ _ _ _ _ _ c2) as [sent c3]. cbn [snd] in I3, L3.
  assert (inv c3 /\ later_than c c3) as [J K] by (split; [done|by eapply later_trans]).
  destruct (sent =? 0)%nat; [|done]. destruct (good_outer_ack o c3 J) as [J' K']. split; [done|by eapply later_trans].
Qed.
End Sender.

Lemma good_topic topic c :
  let r := getOrCreateTopic topic c in good c (snd r) /\ (inv c -> named (snd r) (fst r) topic).
Proof.
  unfold getOrCreateTopic. destruct (topics c !! topic) as [t|] eqn:ET.
  { split; [apply good_refl|]. intros I. by apply (inv_topics _ I). }
  cbn [fresh fst snd]. set (ch := mkTopicChannel topic ∅ ∅ [] false). set (c' := set_collector _ _).
  assert (channels c' = <[next c := ch]> (channels c)) as EC by done.
  assert (forall t x, inv c -> channels c !! t = Some x -> t <> next c) as Hnew.
  { intros t x I Hx ->. pose proof (ok_number _ _ _ (inv_channels _ I _ _ Hx)). lia. }
  split; [|intros _; exists ch; rewrite EC, lookup_insert_eq; done].
  intros I. pose proof I as [I1 I2 I3 I5 I4].
  assert (later_than c c') as L.
  { split; [cbn; lia| |cbn; eauto]. intros t n (x & Hx & En). exists x. rewrite EC, lookup_insert_ne; [done|]. symmetry. eauto. }
  split; [|done]. split.
  - intros topic' t. cbn. destruct (decide (topic' = topic)) as [->|Hne].
    + rewrite lookup_insert_eq. intros [= <-]. exists ch. by rewrite EC, lookup_insert_eq.
    + rewrite lookup_insert_ne by done. intros HT. apply (lt_named _ _ L). eauto.
  - intros t x. rewrite EC. destruct (decide (t = next c)) as [->|Hne].
    + rewrite lookup_insert_eq. intros [= <-]. split; [cbn; lia|constructor|]. intros id e call. by cbn.
    + rewrite lookup_insert_ne by done. intros. eapply channel_ok_later; eauto.
  - intros o x HX. eapply outer_ok_later; eauto.
  - intros d x HX. eapply delivery_ok_later; eauto.
  - intros call x HX. destruct (I4 call x HX) as [A B C D]. split; [cbn; lia|done..].
Qed.

Lemma good_Send depth ctx : good_sender (Send depth ctx).
Proof.
  induction depth as [|depth IH]; intros topic payload props c; cbn [Send]; [frame|].
  destruct ctx; [apply good_refl|]. destruct (validateSendRequest _ _ _ _); [apply good_refl|]. destruct (closed c); [apply good_refl|].
  cbn [fresh]. destruct (good_topic topic (set_next (S (next c)) c)) as [G HN]. destruct (getOrCreateTopic topic _) as [t c1]. cbn [fst snd] in *.
  intros I. destruct (good_fresh c I) as [I0 L0]. destruct (G I0) as [I1 L1].
  destruct (good_notify_topic _ IH false t (mkMessageEvent topic "" props payload (ulid (next c)) (now (set_next (S (next c)) c)) 0 0) c1) as [I2 L2].
  - intros _. split; [by apply HN|]. exists (next c). split; [|done]. pose proof (lt_next _ _ L1). cbn in *. lia.
  - done.
  - split; [exact I2|]. eapply later_trans; [exact L0|]. by eapply later_trans.
Qed.

Lemma good_redelivery t c : good c (handleRedelivery t c).
Proof.
  unfold handleRedelivery. destruct (channels c !! t) as [ch|] eqn:EC; [|apply good_refl].
  destruct (redeliveryCh ch) as [|msg rest] eqn:ER; [apply good_refl|].
  intros I. pose proof (ok_waiting _ _ _ (inv_channels _ I _ _ EC)) as HW. rewrite ER in HW. apply Forall_cons in HW as [HM HW].
  revert I. eapply good_trans; [|apply (good_notify_topic (Send stack false)); [apply good_Send|]].
  - eapply (good_channel c t ch); [done|done|]. intros _ [A B C]. by split.
  - intros _. destruct HM as [HM (i & Hi & Ei)]. split; [eexists; cbn; by rewrite lookup_insert_eq|by exists i].
Qed.
Lemma good_requeue i ctx c : good c (requeue i ctx c).
Proof.
  unfold requeue. destruct (requeues c !! i) as [[[topic payload] props]|]; [|apply good_refl].
  eapply good_trans; [|apply good_Send]. frame.
Qed.

(** A subscription: a callback that waits for a reply belongs to a call that has
    a number and is not stored yet, or is stored with that topic. *)
Lemma good_subscribe kind opts c :
  (forall call, kind = ResponseOf call -> topic_of c call (so_Topic opts)) -> good c (snd (subscribe kind opts c)).
Proof.
  intros HK. unfold subscribe. destruct (validateSubscribeOptions opts); [apply good_refl|]. cbn [fresh].
  destruct (good_topic (so_Topic opts) (set_next (S (next c)) c)) as [G HN]. destruct (getOrCreateTopic _ _) as [t c1]. cbn [fst snd] in *.
  intros I. destruct (good_fresh c I) as [I0 L0]. destruct (G I0) as [I1 L1]. destruct (HN I0) as (ch & EC & EN). rewrite EC. cbn [snd].
  assert (later_than c c1) as L01 by (by eapply later_trans).
  destruct (good_channel c1 t ch (mkTopicChannel (name ch) ({[ulid (next c)]} ∪ subscribers ch)
    (Mx.Add (ulid (next c)) (mkEntry (GetCorrelationID (so_Props opts)) (mkClosure (so_Topic opts) (get "DeadLetterQueue" (so_Props opts)) kind)) (multiplexer ch))
    (redeliveryCh ch) (ch_closed ch))) as [I2 L2]; [done|done| |done|].
  - intros _ [A B C]. split; [done|done|]. cbn [name multiplexer]. intros id e call. unfold Mx.Add.
    destruct (decide (id = ulid (next c))) as [->|Hne].
    + rewrite lookup_insert_eq. intros [= <-] EK. cbn in EK. rewrite EN. eapply topic_of_later; [exact L01|by apply HK].
    + rewrite lookup_insert_ne by done. apply C.
  - split; [done|by eapply later_trans].
Qed.

Lemma good_forget topic c m : good c (set_collector m (set_topics (delete topic (topics c)) c)).
Proof.
  intros I. pose proof I as [I1 I2 I3 I5 I4]. split; [|by split; [|done|cbn; eauto]]. split; cbn.
  - intros topic' t HT. apply lookup_delete_Some in HT as [_ HT]. by apply I1.
  - intros t ch HC. by destruct (I2 t ch HC).
  - done.
  - done.
  - intros call x HX. by destruct (I4 call x HX).
Qed.
Lemma good_UnSubscribe topic id c : good c (snd (UnSubscribe topic id c)) /\ calls (snd (UnSubscribe topic id c)) = calls c.
Proof.
  unfold UnSubscribe. destruct (good_topic topic c) as [G HN].
  assert (calls (snd (getOrCreateTopic topic c)) = calls c) as EX. { unfold getOrCreateTopic. by destruct (topics c !! topic). }
  destruct (getOrCreateTopic topic c) as [t c1]. cbn [fst snd] in *.
  destruct (channels c1 !! t) as [ch|] eqn:EC; [|done]. destruct (decide _); [|done]. cbv zeta.
  set (ch' := mkTopicChannel _ _ _ _ _). assert (good c (set_channels (<[t := ch']> (channels c1)) c1)) as G1.
  { eapply good_trans; [exact G|]. eapply (good_channel c1 t ch); [done|done|]. intros _ [A B C]. by split. }
  split; [|by destruct (_ =? _)%nat]. destruct (_ =? _)%nat; cbn [snd]; [|exact G1]. eapply good_trans; [exact G1|]. apply good_forget.
Qed.
Lemma good_close_channel c tt : good c (close_channel c tt).
Proof.
  unfold close_channel. destruct (channels c !! snd tt) as [ch|] eqn:EC; [|apply good_refl].
  eapply good_trans; [eapply (good_channel c (snd tt) ch (mkTopicChannel (name ch) (subscribers ch) (multiplexer ch) (redeliveryCh ch) true)); [done|done|]|frame].
  intros _ [A B C]. by split.
Qed.
Lemma good_Close c : good c (Close c).
Proof.
  unfold Close. destruct (closed c); [apply good_refl|]. eapply good_trans; [|frame].
  generalize (range (topics c)). intros l. revert c. induction l as [|x l IH]; intros c; [apply good_refl|].
  eapply good_trans; [apply good_close_channel|apply IH].
Qed.

Lemma good_end_call call result c :
  (forall x m, calls c !! call = Some x -> result = Some m -> c_response x = Some m) -> good c (end_call call result c).
Proof.
  intros HR. unfold end_call. destruct (calls c !! call) as [x|] eqn:EX; [|apply good_refl].
  destruct (good_UnSubscribe (c_InTopic x) (c_subID x) c) as [G EC]. eapply good_trans; [exact G|].
  eapply (good_call _ call x); [by rewrite EC|done|]. intros I. destruct (inv_calls _ I call x) as [A B C D]; [by rewrite EC|].
  split; cbn; [done..|]. intros m [= ->]. eauto.
Qed.
Lemma good_receive call c : good c (receive call c).
Proof.
  unfold receive. destruct (calls c !! call) as [x|] eqn:EX; [|apply good_refl]. destruct (c_result x); [apply good_refl|].
  destruct (c_response x) eqn:ER; [|apply good_refl]. apply good_end_call. intros y m' Hy [= <-]. congruence.
Qed.
Lemma good_timeout call c : good c (timeout call c).
Proof.
  unfold timeout. destruct (calls c !! call) as [x|] eqn:EX; [|apply good_refl]. destruct (c_result x); [apply good_refl|]. by apply good_end_call.
Qed.

(** A new call, with a new number. *)
Lemma good_new_call c inTopic :
  good c (set_calls (<[next c := mkCall (ulid (next c)) inTopic "" None false None]> (calls c)) (set_next (S (next c)) c)).
Proof.
  intros I. pose proof I as [I1 I2 I3 I5 I4]. set (x := mkCall _ _ _ _ _ _). set (c' := set_calls _ _).
  assert (forall call, (call < next c)%nat -> calls c' !! call = calls c !! call) as Hold.
  { intros call Hl. cbn. rewrite lookup_insert_ne; [done|lia]. }
  assert (later_than c c') as L. { split; [cbn; lia|done|]. intros call y Hl. rewrite Hold by done. eauto. }
  split; [|done]. split; [done| | | |].
  - intros t ch HC. eapply channel_ok_later; eauto.
  - intros o y HY. eapply outer_ok_later; eauto.
  - intros d y HY. eapply delivery_ok_later; eauto.
  - intros call y. cbn. destruct (decide (call = next c)) as [->|Hne].
    + rewrite lookup_insert_eq. intros [= <-]. split; cbn; [lia|done|by intros ?|by intros ?].
    + rewrite lookup_insert_ne by done. intros Hy. destruct (I4 _ _ Hy) as [A B C D]. split; [cbn; lia|done..].
Qed.
Lemma good_set_subID call subID c : good c (set_subID call subID c).
Proof.
  unfold set_subID. destruct (calls c !! call) as [x|] eqn:EX; [|apply good_refl].
  eapply (good_call c call x); [done|done|]. intros I. destruct (inv_calls _ I _ _ EX). by split.
Qed.
Lemma good_SendReceive ctx r c : good c (snd (SendReceive ctx r c)).
Proof.
  unfold SendReceive. destruct (validateSendReceiveRequest _ _); [apply good_refl|]. cbn [fresh]. cbv zeta.
  pose proof (good_new_call c (InTopic r)) as G. set (c1 := set_calls _ _) in *. eapply good_trans; [exact G|]. clear G.
  pose proof (good_subscribe (ResponseOf (next c)) (mkSubscribeOptions (InTopic r) false true "" ∅) c1) as G.
  destruct (subscribe _ _ c1) as [[subID|e] c2]; cbn [snd] in *.
  2:{ apply G. intros call [= <-]. split; [cbn; lia|]. intros x. cbn. rewrite lookup_insert_eq. by intros [= <-]. }
  eapply good_trans; [apply G|]. { intros call [= <-]. split; [cbn; lia|]. intros x. cbn. rewrite lookup_insert_eq. by intros [= <-]. }
  eapply good_trans; [apply (good_set_subID (next c) subID)|]. set (c3 := set_subID _ _ _).
  pose proof (good_Send stack ctx (OutTopic r) (sr_Payload r) (SetReplyTopic (InTopic r) (SetCorrelationID (ulid (next c)) (sr_Props r))) c3) as GS.
  destruct (Send _ _ _ _ _ c3) as [[id|e] c4]; cbn [snd] in *; [exact GS|]. eapply good_trans; [exact GS|]. by apply good_end_call.
Qed.

Lemma good_step e c : good c (step e c).
Proof.
  destruct e; cbn [step].
  - frame.
  - apply good_Send.
  - apply good_subscribe. by intros ?.
  - apply good_UnSubscribe.
  - unfold CreateTopicIfNotExists. destruct (_ == _); [apply good_refl|]. apply good_topic.
  - apply good_Close.
  - apply good_act, good_Send.
  - apply good_redelivery.
  - apply good_requeue.
  - unfold context_ended. destruct (channels c !! t) as [ch|] eqn:EC; [|apply good_refl].
    eapply (good_channel c t ch); [done|done|]. intros _ [A B C]. split; [done|done|]. cbn. intros id' x call Hx. unfold Mx.Remove in Hx. apply lookup_delete_Some in Hx as [_ Hx]. by eapply C.
  - apply good_SendReceive.
  - apply good_receive.
  - apply good_timeout.
Qed.
Lemma good_run es c : good c (run es c).
Proof. revert c. induction es as [|e es IH]; intros c; [apply good_refl|]. eapply good_trans; [apply good_step|apply IH]. Qed.
Lemma queue_initial_inv t : inv (newChannelClient t).
Proof. by split. Qed.

(** C21: in every interleaving of senders, callbacks, late acknowledgements,
    redeliveries and timeouts, the reply that a call of [SendReceive] returns was
    sent to the topic on which the call waits and carries the identifier of the
    call, and no two calls have the same identifier: a call never gets the reply
    to another. *)
Theorem reply_belongs_to_its_call t es call x m
  (called : calls (run es (newChannelClient t)) !! call = Some x) (returned : c_result x = Some (Some m)) :
  Topic m = c_InTopic x /\ CoRelationID m = c_correlationID x /\
  forall call' x', calls (run es (newChannelClient t)) !! call' = Some x' -> c_correlationID x' = CoRelationID m -> call' = call.
Proof.
  destruct (good_run es (newChannelClient t) (queue_initial_inv t)) as [I _]. destruct (inv_calls _ I _ _ called) as [_ B C D].
  destruct (C m (D m returned)) as [E F]. split_and!; [done|congruence|]. intros call' x' Hx' Hm.
  destruct (inv_calls _ I _ _ Hx') as [_ B' _ _]. apply ulid_inj. congruence.
Qed.

(** ** Deliveries of one message

    [delivered c d sub id]: the delivery [d] handed the message [id] to [sub].
    [quiet i]: the message with the i-th identifier is not delivered. *)
Definition delivered (c : Client) (d : nat) (sub id : string) : Prop :=
  exists x, deliveries c !! d = Some x /\ d_sub x = sub /\ ID (d_msg x) = id.
Definition numbered (c : Client) : Prop := forall d x, deliveries c !! d = Some x -> (d < next c)%nat.
Definition quiet (i : nat) (c c' : Client) : Prop :=
  numbered c -> (i < next c)%nat ->
  numbered c' /\ (next c <= next c')%nat /\ forall d sub, delivered c' d sub (ulid i) <-> delivered c d sub (ulid i).

Lemma quiet_refl i c : quiet i c c.
Proof. by intros. Qed.
Lemma quiet_trans i c1 c2 c3 : quiet i c1 c2 -> quiet i c2 c3 -> quiet i c1 c3.
Proof.
  intros A B N L. destruct (A N L) as (N2 & L2 & D2). destruct (B N2 ltac:(lia)) as (N3 & L3 & D3).
  split_and!; [done|lia|]. intros d sub. by rewrite D3.
Qed.
Lemma quiet_frame i c c' : deliveries c' = deliveries c -> (next c <= next c')%nat -> quiet i c c'.
Proof. intros ED EN N L. unfold numbered, delivered. rewrite ED. split_and!; [|done|done]. intros d x E. specialize (N d x E). lia. Qed.
Ltac still := apply quiet_frame; cbn; done || lia.
Lemma quiet_outer_ack i o c : quiet i c (outer_ack o c).
Proof. unfold outer_ack. repeat case_match; try apply quiet_refl; still. Qed.
Lemma quiet_outer_nack i o c : quiet i c (outer_nack o c).
Proof. unfold outer_nack, queue_again. repeat case_match; try apply quiet_refl; still. Qed.
Lemma quiet_mark i d x c : deliveries c !! d = Some x -> quiet i c (mark d x c).
Proof.
  intros E N L. unfold numbered, delivered. cbn. split_and!; [|done|].
  - intros d' y. destruct (decide (d' = d)) as [->|Hne]; [intros _; eauto|]. rewrite lookup_insert_ne by done. eauto.
  - intros d' sub. destruct (decide (d' = d)) as [->|Hne]; [|by rewrite lookup_insert_ne]. rewrite lookup_insert_eq.
    split; [intros (y & [= <-] & A & B)|intros (y & Hy & A & B); simplify_eq]; eauto.
Qed.
Lemma quiet_wrappedAck i d c : quiet i c (wrappedAck d c).
Proof.
  unfold wrappedAck. destruct (deliveries c !! d) as [x|] eqn:ED; [|apply quiet_refl]. destruct (d_processed x); [apply quiet_refl|].
  eapply quiet_trans; [by apply (quiet_mark i d x)|]. eapply quiet_trans; [|apply quiet_outer_ack]. still.
Qed.

Section Quiet.
Context (send : sender) (i : nat) (send_quiet : forall topic payload props c, quiet i c (snd (send topic payload props c))).
Lemma quiet_wrappedNack d c : quiet i c (wrappedNack send d c).
Proof.
  unfold wrappedNack. destruct (deliveries c !! d) as [x|] eqn:ED; [|apply quiet_refl]. destruct (d_processed x); [apply quiet_refl|].
  set (k := (d_sub x, ID (d_msg x))). set (n := default 0 (retries c !! k) + 1). set (c1 := set_retries (<[k := n]> (retries c)) (mark d x c)). cbv zeta.
  eapply (quiet_trans _ _ c1); [eapply quiet_trans; [by apply (quiet_mark i d x)|still]|]. destruct (RetryMax <=? n).
  - destruct (cl_dlq (d_closure x) != ""); [|apply quiet_wrappedAck].
    pose proof (send_quiet (cl_dlq (d_closure x)) (Payload (d_msg x)) (dlq_headers (d_msg x) n) c1) as HS.
    destruct (send _ _ _ c1) as [[?|?] c2]; cbn in HS; (eapply quiet_trans; [exact HS|]).
    + eapply quiet_trans; [|apply quiet_wrappedAck]. still.
    + apply quiet_wrappedAck.
  - eapply quiet_trans; [|apply quiet_outer_nack]. still.
Qed.
Lemma quiet_act d g c : quiet i c (act send d g c).
Proof. destruct g; [apply quiet_wrappedAck|apply quiet_wrappedNack]. Qed.
Lemma quiet_signals d gs c : quiet i c (foldl (fun c g => act send d g c) c gs).
Proof. revert c. induction gs as [|g gs IH]; intros c; [apply quiet_refl|]. eapply quiet_trans; [apply quiet_act|apply IH]. Qed.
Lemma quiet_on_response call d msg c : quiet i c (snd (on_response send call d msg c)).
Proof.
  unfold on_response. repeat case_match; cbn [snd]; try apply quiet_refl; try apply quiet_wrappedNack.
  eapply quiet_trans; [|apply quiet_wrappedAck]. still.
Qed.

(** What the callback does once its delivery is recorded. *)
Definition record (o : nat) (id : string) (cl : Closure) (msg : MessageEvent) (c : Client) : Client :=
  set_deliveries (<[next c := mkDelivery id cl msg false o]> (deliveries c)) (snd (fresh c)).
Lemma quiet_callback o id cl msg c : quiet i (record o id cl msg c) (snd (invoke send o id cl msg c)).
Proof.
  unfold invoke. cbn [fresh]. fold (record o id cl msg c). change (set_deliveries _ _) with (record o id cl msg c).
  destruct (cl_kind cl) as [|call].
  - destruct (handle (next c) msg) as [gs b]. cbn [snd]. destruct b; [|apply quiet_signals].
    eapply quiet_trans; [apply quiet_signals|still].
  - pose proof (quiet_on_response call (next c) msg (record o id cl msg c)) as Q.
    destruct (on_response _ _ _ _ _) as [b c2]. cbn [snd] in *. destruct b; [|done]. eapply quiet_trans; [exact Q|still].
Qed.
Lemma record_delivered o id cl msg c d sub i' : numbered c ->
  numbered (record o id cl msg c) /\
  (delivered (record o id cl msg c) d sub i' <-> delivered c d sub i' \/ (d = next c /\ sub = id /\ ID msg = i')).
Proof.
  intros N. unfold numbered, delivered. cbn. split.
  - intros d' y. destruct (decide (d' = next c)) as [->|Hne]; [intros _; lia|]. rewrite lookup_insert_ne by done. intros E. specialize (N _ _ E). lia.
  - destruct (decide (d = next c)) as [->|Hne].
    + rewrite lookup_insert_eq. split; [intros (x & [= <-] & <- & <-); by right|]. intros [(x & Hx & _)|(_ & -> & <-)]; [|eauto].
      specialize (N _ _ Hx). lia.
    + rewrite lookup_insert_ne by done. split; [by left|]. intros [?|(? & _)]; done.
Qed.
Lemma quiet_invoke o id cl msg c : ID msg <> ulid i -> quiet i c (snd (invoke send o id cl msg c)).
Proof.
  intros Hne N L. destruct (quiet_callback o id cl msg c) as (N2 & L2 & D2).
  - by apply (record_delivered o id cl msg c 0 "" "").
  - cbn. lia.
  - split_and!; [done|change (next (record o id cl msg c)) with (S (next c)) in L2; lia|]. intros d sub. rewrite D2. destruct (record_delivered o id cl msg c d sub (ulid i) N) as [_ ->].
    split; [intros [?|(_ & _ & ?)]; done|by left].
Qed.
Lemma quiet_notify o commit t msg l sent c :
  ID msg <> ulid i -> quiet i c (snd (notify (invoke send o) wanted (outer_ack o) commit t l msg sent c)).
Proof.
  intros Hne. revert sent c. induction l as [|[id e] l IH]; intros sent c; cbn [notify]; [apply quiet_refl|].
  destruct (wants e msg).
  - destruct (wanted id msg); [|apply IH]. pose proof (quiet_invoke o id (callback e) msg c Hne) as Q.
    destruct (invoke send o id (callback e) msg c) as [[] c1]; [done|]. eapply quiet_trans; [exact Q|apply IH].
  - eapply quiet_trans; [|apply IH]. destruct (too_old _ _ _); [apply quiet_outer_ack|apply quiet_refl].
Qed.
End Quiet.
Lemma quiet_topic i topic c : quiet i c (snd (getOrCreateTopic topic c)).
Proof. unfold getOrCreateTopic. destruct (topics c !! topic); [apply quiet_refl|still]. Qed.
Lemma quiet_notify_topic send i redelivery t msg c :
  (forall topic payload props c, quiet i c (snd (send topic payload props c))) -> ID msg <> ulid i -> quiet i c (notify_topic send redelivery t msg c).
Proof.
  intros HS Hne. unfold notify_topic. destruct (channels c !! t) as [ch|]; [|apply quiet_refl]. cbn [fresh]. cbv zeta.
  set (c1 := set_outers _ _). set (c2 := if redelivery then c1 else _).
  eapply (quiet_trans _ _ c2); [subst c2; destruct redelivery; still|]. unfold Notify.
  pose proof (quiet_notify send i HS (next c) commitTimeout (now c2) msg (range (multiplexer ch)) 0 c2 Hne) as Q.
  destruct (notify _ _ _ _ _ _ _ _ c2) as [sent c3]. destruct (sent =? 0)%nat; [|done]. eapply quiet_trans; [exact Q|apply quiet_outer_ack].
Qed.
Lemma quiet_Send i depth ctx topic payload props c : quiet i c (snd (Send depth ctx topic payload props c)).
Proof.
  revert topic payload props c. induction depth as [|depth IH]; intros topic payload props c; cbn [Send]; [still|].
  destruct ctx; [apply quiet_refl|]. destruct (validateSendRequest _ _ _ _); [apply quiet_refl|]. destruct (closed c); [apply quiet_refl|].
  cbn [fresh]. pose proof (quiet_topic i topic (set_next (S (next c)) c)) as QT. destruct (getOrCreateTopic topic _) as [t c1]. cbn [snd] in *.
  intros N L.
  assert (ulid (next c) <> ulid i) as Hne by (intros E; apply ulid_inj in E; lia). revert N L.
  eapply quiet_trans; [|eapply quiet_trans; [exact QT|]]; [still|]. by apply quiet_notify_topic.
Qed.

(** The subscriptions that a round of notifications reaches. *)
Definition targets (msg : MessageEvent) (l : list (string * Entry Closure)) : list string :=
  map fst (List.filter (fun ie => wants (snd ie) msg && wanted (fst ie) msg) l).
Definition no_failures : Prop := (forall d m, snd (handle d m) = false) /\ (forall d, ended d = false).

Lemma invoke_succeeds send o id cl msg c : no_failures -> fst (invoke send o id cl msg c) = false.
Proof.
  intros [A B]. unfold invoke. cbn [fresh]. destruct (cl_kind cl) as [|call].
  - pose proof (A (next c) msg). destruct (handle (next c) msg) as [gs b]. done.
  - unfold on_response. rewrite B. by repeat case_match.
Qed.
Lemma notify_exact send i o commit t msg l sent c :
  no_failures -> (forall topic payload props c, quiet i c (snd (send topic payload props c))) -> ID msg = ulid i ->
  numbered c -> (i < next c)%nat ->
  let c' := snd (notify (invoke send o) wanted (outer_ack o) commit t l msg sent c) in
  numbered c' /\ (next c <= next c')%nat /\
  exists ds, map snd ds = targets msg l /\ forall d sub, delivered c' d sub (ulid i) <-> delivered c d sub (ulid i) \/ (d, sub) ∈ ds.
Proof.
  intros HN HS HI. revert sent c. induction l as [|[id e] l IH]; intros sent c N L; cbn [notify].
  { split_and!; [done|done|]. exists []. split; [done|]. intros. rewrite elem_of_nil. tauto. }
  unfold targets. cbn [List.filter fst snd].
  destruct (wants e msg); cbn [andb].
  - destruct (wanted id msg); [|by apply IH].
    pose proof (invoke_succeeds send o id (callback e) msg c HN) as HF.
    destruct (quiet_callback send i HS o id (callback e) msg c) as (N1 & L1 & D1); [by apply (record_delivered o id (callback e) msg c 0 "" "")|cbn; lia|].
    destruct (invoke send o id (callback e) msg c) as [b c1]. cbn [fst snd] in *. subst b. change (next (record o id (callback e) msg c)) with (S (next c)) in L1.
    destruct (IH (S sent) c1 N1 ltac:(lia)) as (N2 & L2 & ds & ED & HD). split_and!; [done|lia|].
    exists ((next c, id) :: ds). cbn [map snd]. split; [by rewrite ED|]. intros d sub. rewrite HD, D1.
    destruct (record_delivered o id (callback e) msg c d sub (ulid i) N) as [_ ->]. rewrite elem_of_cons. split.
    + intros [[?|(-> & -> & _)]|?]; auto.
    + intros [?|[[= -> ->]|?]]; auto.
  - set (c1 := if too_old _ _ _ then _ else c).
    assert (quiet i c c1) as Q by (subst c1; destruct (too_old _ _ _); [apply quiet_outer_ack|apply quiet_refl]).
    destruct (Q N L) as (N1 & L1 & D1). destruct (IH sent c1 N1 ltac:(lia)) as (N2 & L2 & ds & ED & HD). split_and!; [done|lia|].
    exists ds. split; [done|]. intros d sub. by rewrite HD, D1.
Qed.

(** The callbacks of a topic, and those that want a message. *)
Definition callbacks (c : Client) (topic : string) : gmap string (Entry Closure) :=
  match topics c !! topic with
  | Some t => match channels c !! t with Some ch => multiplexer ch | None => ∅ end
  | None => ∅
  end.
Definition reaches (c : Client) (msg : MessageEvent) (sub : string) : bool :=
  match callbacks c (Topic msg) !! sub with
  | Some e => wants e msg && wanted sub msg
  | None => false
  end.
Lemma targets_spec c msg sub : sub ∈ targets msg (range (callbacks c (Topic msg))) <-> reaches c msg sub = true.
Proof.
  unfold targets, reaches. rewrite list_elem_of_In, in_map_iff. setoid_rewrite filter_In. setoid_rewrite <- list_elem_of_In. split.
  - intros ([id e] & <- & Hin & HW). apply elem_of_range in Hin. cbn in *. by rewrite Hin.
  - destruct (callbacks c (Topic msg) !! sub) as [e|] eqn:E; [|done]. intros HW. exists (sub, e). split_and!; [done|by apply elem_of_range|done].
Qed.
Lemma targets_NoDup c msg : NoDup (targets msg (range (callbacks c (Topic msg)))).
Proof.
  unfold targets. set (m := callbacks c (Topic msg)).
  assert (NoDup (map fst (range m))) as HN. { rewrite (Permutation_map fst (range_perm m)). apply NoDup_fst_map_to_list. }
  revert HN. generalize (range m). intros l. induction l as [|x l IH]; cbn; [constructor|]. intros [HX HN]%NoDup_cons.
  destruct (_ && _); [|by apply IH]. cbn. constructor; [|by apply IH]. rewrite list_elem_of_In, in_map_iff in *.
  intros (y & E & [Hy _]%filter_In). apply HX. by exists y.
Qed.

(** The topic of a message, with its callbacks. *)
Lemma topic_callbacks topic i c t c1 :
  inv c -> getOrCreateTopic topic (set_next i c) = (t, c1) -> (next c <= i)%nat ->
  now c1 = now c /\ exists ch, channels c1 !! t = Some ch /\ multiplexer ch = callbacks c topic.
Proof.
  intros I. unfold getOrCreateTopic, callbacks. cbn [topics set_next]. destruct (topics c !! topic) as [t'|] eqn:E; intros [= <- <-] _.
  - split; [done|]. destruct (inv_topics _ I _ _ E) as (ch & EC & _). exists ch. cbn. by rewrite EC.
  - split; [done|]. eexists. cbn. by rewrite lookup_insert_eq.
Qed.
Lemma notify_topic_exact send i t msg ch c :
  no_failures -> (forall topic payload props c, quiet i c (snd (send topic payload props c))) -> ID msg = ulid i ->
  numbered c -> (i < next c)%nat -> channels c !! t = Some ch -> (forall d sub, ~ delivered c d sub (ulid i)) ->
  exists ds, map snd ds = targets msg (range (multiplexer ch)) /\
    forall d sub, delivered (notify_topic send false t msg c) d sub (ulid i) <-> (d, sub) ∈ ds.
Proof.
  intros HN HS HI N L EC Hfresh. unfold notify_topic. rewrite EC. cbn [fresh]. cbv zeta. set (c2 := tally _ _ _ _ _ _).
  assert (quiet i c c2) as Q2 by still. destruct (Q2 N L) as (N2 & L2 & D2). unfold Notify.
  destruct (notify_exact send i (next c) commitTimeout (now c2) msg (range (multiplexer ch)) 0 c2 HN HS HI N2 ltac:(lia)) as (N3 & L3 & ds & ED & HD).
  destruct (notify _ _ _ _ _ _ _ _ c2) as [sent c3]. cbn [snd] in *. exists ds. split; [done|]. intros d sub.
  assert (quiet i c3 (if (sent =? 0)%nat then outer_ack (next c) c3 else c3)) as Q3 by (destruct (sent =? 0)%nat; [apply quiet_outer_ack|apply quiet_refl]).
  destruct (Q3 N3 ltac:(lia)) as (_ & _ & ->). rewrite HD, D2. split; [|tauto]. intros [?|?]; [by destruct (Hfresh d sub)|done].
Qed.
Lemma Send_exact depth topic payload props id c c' :
  no_failures -> inv c -> Send (S depth) false topic payload props c = (inl id, c') ->
  exists ds, map snd ds = targets (mkMessageEvent topic "" props payload id (now c) 0 0) (range (callbacks c topic)) /\
    forall d sub, delivered c' d sub id <-> (d, sub) ∈ ds.
Proof.
  intros HN I. cbn [Send]. destruct (validateSendRequest _ _ _ _); [done|]. destruct (closed c); [done|]. cbn [fresh].
  set (i := next c). pose proof (quiet_topic i topic (set_next (S i) c)) as QT. destruct (getOrCreateTopic topic _) as [t c1] eqn:EG.
  destruct (topic_callbacks topic (S i) c t c1 I EG ltac:(lia)) as (EN & ch & EC & EM). intros [= <- <-]. cbn [snd] in QT. rewrite <- EM.
  assert (numbered (set_next (S i) c)) as N0. { intros d x Hx. destruct (inv_deliveries _ I d x Hx). cbn. lia. }
  destruct (QT N0 ltac:(cbn; lia)) as (N1 & L1 & D1). change (S i <= next c1)%nat in L1.
  apply (notify_topic_exact (Send depth false) i); try done; [apply quiet_Send|].
  intros d s. rewrite D1. intros (x & Hx & _ & HID). destruct (inv_deliveries _ I d x Hx) as [_ (j & Hj & Ej)].
  rewrite HID in Ej. apply ulid_inj in Ej. lia.
Qed.

(** A message that is accepted is handed to the callbacks that the multiplexer of
    its topic has before [Send] returns: when no callback fails, every one that
    wants the message gets it exactly once, and no other callback gets it, whatever
    the callbacks acknowledge or refuse, and whatever is sent to dead-letter topics
    meanwhile.  Callbacks of ended subscriptions and of shared groups are among
    them, against what the interface promises: see the examples below. *)
Theorem send_reaches_every_subscriber t es depth topic payload props id c' sub
  (callbacks_succeed : no_failures)
  (accepted : Send (S depth) false topic payload props (run es (newChannelClient t)) = (inl id, c')) :
  let c := run es (newChannelClient t) in
  let msg := mkMessageEvent topic "" props payload id (now c) 0 0 in
  if reaches c msg sub
  then exists d, delivered c' d sub id /\ forall d', delivered c' d' sub id -> d' = d
  else forall d, ~ delivered c' d sub id.
Proof.
  cbv zeta. destruct (good_run es (newChannelClient t) (queue_initial_inv t)) as [I _]. set (c := run es (newChannelClient t)) in *. clearbody c.
  destruct (Send_exact _ _ _ _ _ _ _ callbacks_succeed I accepted) as (ds & ED & Hall). set (msg := mkMessageEvent _ _ _ _ _ _ _ _) in *.
  pose proof (targets_spec c msg sub) as HT1. pose proof (targets_NoDup c msg) as HT2. cbn [Topic msg] in HT1, HT2. rewrite <- ED in HT1, HT2.
  destruct (reaches c msg sub).
  - destruct HT1 as [_ HT1]. specialize (HT1 eq_refl). rewrite list_elem_of_In, in_map_iff in HT1. destruct HT1 as ([d s] & <- & Hin%list_elem_of_In).
    exists d. cbn. split; [by apply Hall|]. intros d' Hd'%Hall.
    apply list_elem_of_lookup in Hin as [a Ha]. apply list_elem_of_lookup in Hd' as [b Hb].
    assert (a = b) as ->. { eapply (NoDup_lookup _ a b s HT2); rewrite list_lookup_fmap; [by rewrite Ha|by rewrite Hb]. }
    rewrite Ha in Hb. congruence.
  - intros d Hin%Hall. destruct HT1 as [HT1 _]. assert (false = true); [|done]. apply HT1.
    rewrite list_elem_of_In, in_map_iff. exists (d, sub). split; [done|]. by apply list_elem_of_In.
Qed.
End Channel.

(** ** Concrete clients *)
Module QueueDemo.
Definition id_of (n : nat) : string := "u" +:+ itoa (Z.of_nat n).
Lemma id_of_inj i j : id_of i = id_of j -> i = j.
Proof. intros E. apply string_app_inj_l, itoa_inj in E; lia. Qed.
(** Callbacks that do the same each time. *)
Definition users (gs : list signal) (fails : string -> bool) (retryMax : Z) : Users :=
  {| ulid := id_of; ulid_inj := id_of_inj; handle := fun d m => (gs, fails (Payload m)); wanted := fun _ _ => true; ended := fun _ => false;
     MaxMessageSize := 1000; MaxConnections := 4; RetryMax := retryMax; stack := 5 |}.
Definition acking : Users := users [Ack] (fun _ => false) 3.
Definition refusing : Users := users [Nack] (fun _ => false) 3.
Definition on (topic : string) (props : gmap string string) : SubscribeOptions := mkSubscribeOptions topic true true "workers" props.
Definition start : Client := newChannelClient 0.
(** The deliveries, the oldest first: to whom, and what. *)
Definition log (c : Client) : list (string * string) :=
  omap (fun d => x ← deliveries c !! d; Some (d_sub x, Payload (d_msg x))) (seq 0 (next c)).
(** Copies of messages that wait to be delivered again. *)
Definition waiting (c : Client) : nat :=
  (size (requeues c) + foldr (fun tc n => List.length (redeliveryCh (snd tc)) + n) 0 (map_to_list (channels c)))%nat.

Definition asks : list event :=
  [DoSubscribe (on "jobs" ∅); StartCall false (mkSendReceiveRequest "jobs" "answers" "work" ∅ 0);
   DoSend false "answers" "other" (SetCorrelationID "u9" ∅); DoSend false "answers" "done" (SetCorrelationID (id_of 2) ∅); Receive 2].
Definition answered : Call :=
  mkCall (id_of 2) "answers" (id_of 3) (Some (mkMessageEvent "answers" "" (SetCorrelationID (id_of 2) ∅) "done" (id_of 11) 0 0 0)) true
    (Some (Some (mkMessageEvent "answers" "" (SetCorrelationID (id_of 2) ∅) "done" (id_of 11) 0 0 0))).
Lemma reply_belongs_to_its_call_witness :
  let c := run (H := acking) asks (newChannelClient 0) in
  calls c !! 2%nat = Some answered /\
  forall call' x', calls c !! call' = Some x' -> c_correlationID x' = id_of 2 -> call' = 2%nat.
Proof.
  cbv zeta. assert (calls (run (H := acking) asks (newChannelClient 0)) !! 2%nat = Some answered) as E by (vm_compute; reflexivity).
  split; [exact E|].
  exact (proj2 (proj2 (reply_belongs_to_its_call (H := acking) 0 asks 2 answered _ E eq_refl))).
Defined.

Definition two : list event := [DoSubscribe (on "jobs" ∅); DoSubscribe (on "jobs" ∅)].
Lemma send_reaches_every_subscriber_witness :
  exists d, delivered (snd (Send (H := acking) 5 false "jobs" "work" ∅ (run (H := acking) two start))) d (id_of 2) (id_of 3).
Proof.
  assert (no_failures (H := acking)) as HF by done.
  assert (Send (H := acking) 5 false "jobs" "work" ∅ (run (H := acking) two (newChannelClient 0)) =
          (inl (id_of 3), snd (Send (H := acking) 5 false "jobs" "work" ∅ (run (H := acking) two start)))) as HS by (vm_compute; reflexivity).
  destruct (send_reaches_every_subscriber (H := acking) 0 two 4 "jobs" "work" ∅ (id_of 3) _ (id_of 2) HF HS) as (d & Hd & _).
  by exists d.
Defined.

(** A subscription that has ended still gets messages while the topic has
    another. *)
Example ended_subscription_gets_messages :
  let c := run (H := acking) (two ++ [DoUnSubscribe "jobs" (id_of 0); DoSend false "jobs" "work" ∅]) start in
  log c = [(id_of 2, "work"); (id_of 0, "work")].
Proof. vm_compute. reflexivity. Qed.

(** Subscriptions that share a group each get the message. *)
Example shared_subscriptions_all_get_it :
  log (run (H := acking) (two ++ [DoSend false "jobs" "work" ∅]) start) = [(id_of 2, "work"); (id_of 0, "work")].
Proof. vm_compute. reflexivity. Qed.

(** A callback that fails keeps the message from those that come after it. *)
Example failing_callback_hides_the_message :
  log (run (H := users [] (fun _ => true) 3) (two ++ [DoSend false "jobs" "work" ∅]) start) = [(id_of 2, "work")].
Proof. vm_compute. reflexivity. Qed.

(** A refused message is queued for redelivery and sent again: each copy that is
    refused makes two. *)
Definition refused : Client := run (H := refusing) [DoSubscribe (on "jobs" ∅); DoSend false "jobs" "work" ∅] start.
Example refused_message_multiplies :
  waiting refused = 2%nat /\
  waiting (run (H := refusing) [Redeliver 1; Requeue 5 false] refused) = 4%nat.
Proof. vm_compute. split; reflexivity. Qed.

(** When the retries are used up the message goes to the dead-letter topic but is
    neither acknowledged nor counted as consumed. *)
Example dead_letter_is_not_acknowledged :
  let c := run (H := users [Nack] (fun _ => false) 1) [DoSubscribe (on "jobs" {["DeadLetterQueue" := "dead"]}); DoSend false "jobs" "work" ∅] start in
  (o_processed <$> outers c !! 3%nat) = Some false /\ MessagesConsumed (GetMetrics "jobs" (collector c)) = 0 /\
  MessagesPublished (GetMetrics "dead" (collector c)) = 2.
Proof. vm_compute. split_and!; reflexivity. Qed.

(** A message that is acknowledged counts as published twice. *)
Example acknowledged_message_counts_twice :
  let c := run (H := acking) [DoSubscribe (on "jobs" ∅); DoSend false "jobs" "work" ∅] start in
  MessagesPublished (GetMetrics "jobs" (collector c)) = 2.
Proof. vm_compute. reflexivity. Qed.

(** A refusal after the client was closed panics. *)
Example refusal_after_close_panics :
  crashed (run (H := users [] (fun _ => false) 3) [DoSubscribe (on "jobs" ∅); DoSend false "jobs" "work" ∅; DoClose; Signal 4 Nack false] start) = true.
Proof. vm_compute. reflexivity. Qed.

(** The offsets share one header. *)
Example first_offset_replaces_last : GetLastOffset (SetFirstOffset "1" (SetLastOffset "7" ∅)) = "1".
Proof. reflexivity. Qed.

(** Leaving a topic that nobody knows creates it. *)
Example leaving_creates_the_topic :
  let r := UnSubscribe "nowhere" "x" start in fst r = Some (NotFound "x") /\ topics (snd r) !! "nowhere" = Some 0%nat.
Proof. vm_compute. split; reflexivity. Qed.

(** The latency that is kept is that of the reading of the clock. *)
Example latency_measures_nothing :
  (ProcessingLatency <$> metrics (collector (run (H := acking) [DoSubscribe (on "jobs" ∅); DoSend false "jobs" "work" ∅; Clock 5000000000; Signal 4 Ack false] start)) !! "jobs")
  = Some (Some 0).
Proof. vm_compute. reflexivity. Qed.
End QueueDemo.
