(* ===== verification/WsQueue.v ===== *)
(** * WsQueue: messages between the queen and ants over WebSockets

    Models [src/internal/queue]: the frames ([websocket_protocol.go],
    [Module Frames]), the ant's store for messages that cannot be sent
    ([websocket_buffer_sqlite.go], [Module Buffer]), the client on an ant
    ([client_websocket_client.go], [Module WsAnt]) and the one on the queen
    ([client_websocket_server.go], [Module WsServer]).

    The network is outside: whether a frame is written and what is answered is a
    parameter of each step.  Frames are values; their JSON form is left out, and
    so are deadlines, pings and the delays between attempts to connect. *)

From Stdlib Require Import Ascii.
From S2P Require Import Prelude Resource Queue.
Import Headers Checks Metrics Mx.

Open Scope Z_scope.

(** ** Frames *)
Module Frames.
Abbreviation WSFrameType := string (only parsing).
Definition WSFrameSubscribe : WSFrameType := "subscribe".
Definition WSFrameUnsubscribe : WSFrameType := "unsubscribe".
Definition WSFramePublish : WSFrameType := "publish".
Definition WSFrameAck : WSFrameType := "ack".
Definition WSFrameNack : WSFrameType := "nack".
Definition WSFramePing : WSFrameType := "ping".
Definition WSFramePong : WSFrameType := "pong".
Definition WSFrameError : WSFrameType := "error".
Definition WSFrameSubscribeAck : WSFrameType := "subscribe_ack".
Record WSFrame := mkWSFrame {
  Type_ : WSFrameType;
  f_ID : string;
  f_Topic : string;
  SubscriptionID : string;
  f_Payload : string;
  f_Properties : gmap string string;
  Group : string;
  Shared : bool;
  f_Error : string;
  Timestamp : Z
}.
Section Frames.
Context (now : Z).
Definition newSubscribeFrame (id topic group : string) (shared : bool) : WSFrame :=
  mkWSFrame WSFrameSubscribe id topic "" "" ∅ group shared "" now.
Definition newUnsubscribeFrame (id topic subID : string) : WSFrame :=
  mkWSFrame WSFrameUnsubscribe id topic subID "" ∅ "" false "" now.
Definition newPublishFrame (id topic payload : string) (props : gmap string string) : WSFrame :=
  mkWSFrame WSFramePublish id topic "" payload props "" false "" now.
Definition newAckFrame (frameID : string) : WSFrame := mkWSFrame WSFrameAck frameID "" "" "" ∅ "" false "" now.
Definition newNackFrame (frameID : string) : WSFrame := mkWSFrame WSFrameNack frameID "" "" "" ∅ "" false "" now.
Definition newErrorFrame (frameID errMsg : string) : WSFrame := mkWSFrame WSFrameError frameID "" "" "" ∅ "" false errMsg now.
Definition newPingFrame (id : string) : WSFrame := mkWSFrame WSFramePing id "" "" "" ∅ "" false "" now.
Definition newPongFrame (id : string) : WSFrame := mkWSFrame WSFramePong id "" "" "" ∅ "" false "" now.
(** The answer to a subscription. *)
Definition newSubscribeAckFrame (frameID subID : string) : WSFrame :=
  mkWSFrame WSFrameSubscribeAck frameID "" subID "" ∅ "" false "" now.
Definition event_of (f : WSFrame) : MessageEvent :=
  mkMessageEvent (f_Topic f) "" (f_Properties f) (f_Payload f) (f_ID f) (Timestamp f) 0 0.
End Frames.
End Frames.

(** ** The store of unsent messages

    Rows of the table [ws_outbox] in the order of their numbers, which are never
    used twice.  Every statement may fail. *)
Module Buffer.
Record Row := mkRow { row_id : Z; r_topic : string; r_payload : string; r_properties : string; created_at : Z; expires_at : Z }.
Record wsOfflineBuffer := mkBuffer { rows : list Row; last_id : Z; asked : nat }.
Definition empty_buffer : wsOfflineBuffer := mkBuffer [] 0 0.
Record bufferedMessage := mkBuffered { b_ID : Z; b_Topic : string; b_Payload : string; b_Properties : gmap string string }.

(** Headers are stored as JSON; [sql_fails] for the n-th statement. *)
Class Disk := {
  to_json : gmap string string -> string;
  of_json : string -> option (gmap string string);
  sql_fails : nat -> bool;
  maxSize : Z;
  ttl : Z
}.
Inductive buffer_error := CountFailed | BufferFull (n max : Z) | InsertFailed | PruneFailed | QueryFailed | BadProperties_ (id : Z) | DeleteFailed.

Section Buffer.
Context `{Disk}.
(** A statement, with its answer when it succeeds. *)
Definition statement (b : wsOfflineBuffer) : bool * wsOfflineBuffer :=
  (sql_fails (asked b), mkBuffer (rows b) (last_id b) (S (asked b))).
Definition alive (nowUnix : Z) (r : Row) : bool := nowUnix <? expires_at r.
Definition countLocked (nowUnix : Z) (b : wsOfflineBuffer) : option Z * wsOfflineBuffer :=
  let '(fails, b) := statement b in
  (if fails then None else Some (Z.of_nat (List.length (List.filter (alive nowUnix) (rows b)))), b).
Definition Count (now : Z) (b : wsOfflineBuffer) : option Z * wsOfflineBuffer := countLocked (Containers.Unix now) b.

Definition Enqueue (now : Z) (topic payload : string) (props : gmap string string) (b : wsOfflineBuffer)
    : (Z + buffer_error) * wsOfflineBuffer :=
  match countLocked (Containers.Unix now) b with
  | (None, b) => (inr CountFailed, b)
  | (Some count, b) =>
      if maxSize <=? count then (inr (BufferFull count maxSize), b)
      else
        let '(fails, b) := statement b in
        if fails then (inr InsertFailed, b)
        else
          let id := last_id b + 1 in
          (inl id, mkBuffer (rows b ++ [mkRow id topic payload (to_json props) (Containers.Unix now) (Containers.Unix (now + ttl))]) id (asked b))
  end.

Fixpoint scan (l : list Row) : list bufferedMessage + buffer_error :=
  match l with
  | [] => inl []
  | r :: l =>
      match of_json (r_properties r) with
      | None => inr (BadProperties_ (row_id r))
      | Some props =>
          match scan l with
          | inl ms => inl (mkBuffered (row_id r) (r_topic r) (r_payload r) props :: ms)
          | inr e => inr e
          end
      end
  end.
(** Rows that have expired are deleted first. *)
Definition DequeueAll (now : Z) (b : wsOfflineBuffer) : (list bufferedMessage + buffer_error) * wsOfflineBuffer :=
  let '(fails, b) := statement b in
  if fails then (inr PruneFailed, b)
  else
    let b := mkBuffer (List.filter (alive (Containers.Unix now)) (rows b)) (last_id b) (asked b) in
    let '(fails, b) := statement b in
    if fails then (inr QueryFailed, b)
    else (scan (List.filter (alive (Containers.Unix now)) (rows b)), b).
Definition Remove (id : Z) (b : wsOfflineBuffer) : option buffer_error * wsOfflineBuffer :=
  let '(fails, b) := statement b in
  if fails then (Some DeleteFailed, b) else (None, mkBuffer (List.filter (fun r => negb (row_id r =? id)) (rows b)) (last_id b) (asked b)).
End Buffer.
End Buffer.

(** ** The client on an ant *)
Module WsAnt.
Import Frames Buffer.

Record antLocalSub := mkAntLocalSub { as_id : string; as_topic : string; as_subID : string }.

(** What happens to a frame that is sent and waited for. *)
Inductive outcome := WriteError | ConnectionLost | TimedOut | Answered (resp : WSFrame).

(** What has happened, for the record: the answer of the queen to a frame arrived,
    or the connection was lost while a frame waited; the accepted message of call
    [n] was stored as a row; a row was sent in a frame; rows have expired. *)
Inductive entry :=
| Replied (f resp : WSFrame)
| Broken (f : WSFrame)
| Stored (n : nat) (row : Z) (topic payload : string) (at_time : Z)
| Forwarded (row : Z) (f : WSFrame)
| Expired (rows : list Z) (at_time : Z).

Record Client := mkClient {
  connected : bool;
  a_closed : bool;
  subs : gmap string antLocalSub;
  subsByServerID : gmap string string;
  buffer : wsOfflineBuffer;
  drains : gmap nat (list bufferedMessage);
  reconnects : bool;
  metrics_ : MetricsCollector;
  written : list WSFrame;
  next : nat;
  now : Z;
  record : list entry
}.
Definition set_connected (x : bool) (c : Client) : Client :=
  mkClient x (a_closed c) (subs c) (subsByServerID c) (buffer c) (drains c) (reconnects c) (metrics_ c) (written c) (next c) (now c) (record c).
Definition set_closed (c : Client) : Client :=
  mkClient false true (subs c) (subsByServerID c) (buffer c) (drains c) (reconnects c) (metrics_ c) (written c) (next c) (now c) (record c).
Definition set_subs (x : gmap string antLocalSub) (c : Client) : Client :=
  mkClient (connected c) (a_closed c) x (subsByServerID c) (buffer c) (drains c) (reconnects c) (metrics_ c) (written c) (next c) (now c) (record c).
Definition set_server_ids (x : gmap string string) (c : Client) : Client :=
  mkClient (connected c) (a_closed c) (subs c) x (buffer c) (drains c) (reconnects c) (metrics_ c) (written c) (next c) (now c) (record c).
Definition set_buffer (x : wsOfflineBuffer) (c : Client) : Client :=
  mkClient (connected c) (a_closed c) (subs c) (subsByServerID c) x (drains c) (reconnects c) (metrics_ c) (written c) (next c) (now c) (record c).
Definition set_drains (x : gmap nat (list bufferedMessage)) (c : Client) : Client :=
  mkClient (connected c) (a_closed c) (subs c) (subsByServerID c) (buffer c) x (reconnects c) (metrics_ c) (written c) (next c) (now c) (record c).
Definition set_reconnects (x : bool) (c : Client) : Client :=
  mkClient (connected c) (a_closed c) (subs c) (subsByServerID c) (buffer c) (drains c) x (metrics_ c) (written c) (next c) (now c) (record c).
Definition set_metrics (x : MetricsCollector) (c : Client) : Client :=
  mkClient (connected c) (a_closed c) (subs c) (subsByServerID c) (buffer c) (drains c) (reconnects c) x (written c) (next c) (now c) (record c).
Definition write (f : WSFrame) (c : Client) : Client :=
  mkClient (connected c) (a_closed c) (subs c) (subsByServerID c) (buffer c) (drains c) (reconnects c) (metrics_ c) (written c ++ [f]) (next c) (now c) (record c).
Definition set_next (x : nat) (c : Client) : Client :=
  mkClient (connected c) (a_closed c) (subs c) (subsByServerID c) (buffer c) (drains c) (reconnects c) (metrics_ c) (written c) x (now c) (record c).
Definition set_now (x : Z) (c : Client) : Client :=
  mkClient (connected c) (a_closed c) (subs c) (subsByServerID c) (buffer c) (drains c) (reconnects c) (metrics_ c) (written c) (next c) x (record c).
Definition note (e : entry) (c : Client) : Client :=
  mkClient (connected c) (a_closed c) (subs c) (subsByServerID c) (buffer c) (drains c) (reconnects c) (metrics_ c) (written c) (next c) (now c) (record c ++ [e]).
Definition newWebSocketAntClient (t : Z) : Client :=
  mkClient false false ∅ ∅ empty_buffer ∅ false newMetricsCollector [] 0 t [].

Inductive ant_error :=
| CtxEnded | Refused_ (e : check_error) | NotConnected | WriteFailed | AckTimeout | OfflineBuffer (e : buffer_error)
| SendAndBufferFailed (send : ant_error) (e : buffer_error) | ServerError (message : string) | SubscribeError (message : string).

(** New identifiers, and the largest message. *)
Class Ids := { ulid : nat -> string; MaxMessageSize : Z }.

Section Ant.
Context `{Disk, Ids, RangeOrder}.
Definition fresh (c : Client) : nat * Client := (next c, set_next (S (next c)) c).
Definition tally (topic : string) (published consumed retried failed : Z) (c : Client) : Client :=
  set_metrics (updateMetrics (now c) 0 topic published consumed retried failed 0 (metrics_ c)) c.

(** The frames that wait for an answer get an error frame: see [ConnectionLost]. *)
Definition triggerReconnect (c : Client) : Client := set_reconnects true (set_connected false c).
Definition writeRaw (fails : bool) (f : WSFrame) (c : Client) : option ant_error * Client :=
  if negb (connected c) then (Some NotConnected, c)
  else if fails then (Some WriteFailed, triggerReconnect c)
  else (None, write f c).
Definition sendFrameAwaitAck (f : WSFrame) (o : outcome) (c : Client) : (WSFrame + ant_error) * Client :=
  match writeRaw (match o with WriteError => true | _ => false end) f c with
  | (Some e, c) => (inr e, c)
  | (None, c) =>
      match o with
      | Answered resp => (inl resp, note (Replied f resp) c)
      | ConnectionLost => (inl (newErrorFrame (now c) (f_ID f) "connection lost"), note (Broken f) (triggerReconnect c))
      | _ => (inr AckTimeout, c)
      end
  end.

Definition sendSubscribe (sub : antLocalSub) (o : outcome) (c : Client) : option ant_error * Client :=
  let '(i, c) := fresh c in
  match sendFrameAwaitAck (newSubscribeFrame (now c) (ulid i) (as_topic sub) "" false) o c with
  | (inr e, c) => (Some e, c)
  | (inl resp, c) =>
      if Type_ resp == WSFrameError then (Some (SubscribeError (f_Error resp)), c)
      else (None, if SubscriptionID resp != "" then set_server_ids (<[SubscriptionID resp := as_id sub]> (subsByServerID c)) c else c)
  end.

(** [outcomes] for the frames of the subscriptions that are made again. *)
Fixpoint subscribe_all (l : list (string * antLocalSub)) (outcomes : list outcome) (c : Client) : Client :=
  match l with
  | [] => c
  | (_, sub) :: l =>
      match outcomes with
      | o :: outcomes => subscribe_all l outcomes (snd (sendSubscribe sub o c))
      | [] => subscribe_all l [] (snd (sendSubscribe sub TimedOut c))
      end
  end.
(** A connection that is made: subscriptions are made again, and the buffer is
    drained by a goroutine of its own. *)
Definition start_drain (c : Client) : Client := let '(d, c) := fresh c in set_drains (<[d := []]> (drains c)) c.
Definition connect (dialed : bool) (outcomes : list outcome) (c : Client) : bool * Client :=
  if dialed then (true, start_drain (subscribe_all (range (subs c)) outcomes (set_connected true c)))
  else (false, c).
(** One turn of the reconnect loop. *)
Definition reconnect (dialed : bool) (outcomes : list outcome) (c : Client) : Client :=
  if negb (reconnects c) || a_closed c then c
  else if connected c then set_reconnects false c
  else match connect dialed outcomes c with
       | (true, c) => set_reconnects false c
       | (false, c) => c
       end.

(** A step of a goroutine that drains the buffer: when its list is used up it
    asks for more and ends when there is nothing. *)
Definition dequeue (c : Client) : (list bufferedMessage + buffer_error) * Client :=
  let '(r, b) := DequeueAll (now c) (buffer c) in
  let gone := map row_id (List.filter (fun x => negb (alive (Containers.Unix (now c)) x)) (rows (buffer c))) in
  (r, match r with inr PruneFailed => set_buffer b c | _ => note (Expired gone (now c)) (set_buffer b c) end).
(** An answer of any type counts as delivered. *)
Definition forward (m : bufferedMessage) (o : outcome) (c : Client) : bool * Client :=
  let '(i, c) := fresh c in
  let f := newPublishFrame (now c) (ulid i) (b_Topic m) (b_Payload m) (b_Properties m) in
  match sendFrameAwaitAck f o c with
  | (inr _, c) => (false, c)
  | (inl _, c) =>
      let c := note (Forwarded (b_ID m) f) c in
      (true, set_buffer (snd (Remove (b_ID m) (buffer c))) c)
  end.
Definition drainBuffer (d : nat) (o : outcome) (c : Client) : Client :=
  match drains c !! d with
  | None => c
  | Some [] =>
      match dequeue c with
      | (inl (m :: ms), c) => set_drains (<[d := m :: ms]> (drains c)) c
      | (_, c) => set_drains (delete d (drains c)) c
      end
  | Some (m :: ms) =>
      if connected c then
        match forward m o c with
        | (true, c) => set_drains (<[d := ms]> (drains c)) c
        | (false, c) => set_drains (delete d (drains c)) c
        end
      else set_drains (delete d (drains c)) c
  end.

(** *** The interface of queues *)
Definition Subscribe (opts : SubscribeOptions) (o : outcome) (c : Client) : (string + check_error) * Client :=
  match validateSubscribeOptions opts with
  | Some e => (inr e, c)
  | None =>
      let '(i, c) := fresh c in
      let sub := mkAntLocalSub (ulid i) (so_Topic opts) "" in
      let c := set_subs (<[ulid i := sub]> (subs c)) c in
      let c := set_metrics (setTopic (so_Topic opts) true (metrics_ c)) c in
      (inl (ulid i), if connected c then snd (sendSubscribe sub o c) else c)
  end.
Definition UnSubscribe (topic id : string) (write_fails : bool) (c : Client) : Client :=
  match subs c !! id with
  | None => c
  | Some sub =>
      let c := set_subs (delete id (subs c)) c in
      if as_subID sub != "" then
        let c := set_server_ids (delete (as_subID sub) (subsByServerID c)) c in
        if connected c then
          let '(i, c) := fresh c in
          snd (writeRaw write_fails (newUnsubscribeFrame (now c) (ulid i) topic (as_subID sub)) c)
        else c
      else c
  end.

Definition keep (n : nat) (topic payload : string) (props : gmap string string) (c : Client) : (unit + buffer_error) * Client :=
  match Enqueue (now c) topic payload props (buffer c) with
  | (inl row, b) => (inl tt, note (Stored n row topic payload (now c)) (set_buffer b c))
  | (inr e, b) => (inr e, set_buffer b c)
  end.
Definition Send (ctx_ended : bool) (topic payload : string) (props : gmap string string) (o : outcome) (c : Client)
    : (nat + ant_error) * Client :=
  if ctx_ended then (inr CtxEnded, c)
  else match validateSendRequest topic payload props MaxMessageSize with
       | Some e => (inr (Refused_ e), c)
       | None =>
           let '(n, c) := fresh c in
           if negb (connected c) then
             match keep n topic payload props c with
             | (inl _, c) => (inl n, c)
             | (inr e, c) => (inr (OfflineBuffer e), c)
             end
           else
             match sendFrameAwaitAck (newPublishFrame (now c) (ulid n) topic payload props) o c with
             | (inr e, c) =>
                 match keep n topic payload props c with
                 | (inl _, c) => (inl n, c)
                 | (inr b, c) => (inr (SendAndBufferFailed e b), c)
                 end
             | (inl resp, c) =>
                 if Type_ resp == WSFrameError then (inr (ServerError (f_Error resp)), c)
                 else (inl n, tally topic 1 0 0 0 c)
             end
       end.
Definition Publish := Send.
Definition Close (c : Client) : Client := if a_closed c then c else set_closed c.

(** *** Frames from the queen

    The subscriptions that get a message: the one that the queen names, or else
    all of the topic. *)
Definition receivers (f : WSFrame) (c : Client) : list antLocalSub :=
  let named := if SubscriptionID f != "" then
                 match subsByServerID c !! SubscriptionID f ≫= fun id => subs c !! id with Some s => [s] | None => [] end
               else [] in
  match named with
  | [] => List.filter (fun s => as_topic s == f_Topic f) (map snd (range (subs c)))
  | _ => named
  end.
(** What a user's callback answers first: at most one frame goes back. *)
Context (filter_ : string -> MessageEvent -> bool) (answer : string -> MessageEvent -> option bool).
Fixpoint first_answer (l : list antLocalSub) (e : MessageEvent) : option bool :=
  match l with
  | [] => None
  | s :: l => if filter_ (as_id s) e then match answer (as_id s) e with Some b => Some b | None => first_answer l e end
              else first_answer l e
  end.
Definition deliverToSubscribers (f : WSFrame) (write_fails : bool) (c : Client) : list (string * MessageEvent) * Client :=
  let l := receivers f c in
  let e := event_of f in
  let c := match first_answer l e with
           | Some true => snd (writeRaw write_fails (newAckFrame (now c) (f_ID f)) c)
           | Some false => snd (writeRaw write_fails (newNackFrame (now c) (f_ID f)) c)
           | None => c
           end in
  (map (fun s => (as_id s, e)) (List.filter (fun s => filter_ (as_id s) e) l), tally (f_Topic f) 0 1 0 0 c).
(** Answers are handed to whoever waits for them: see [Answered]. *)
Definition dispatchFrame (f : WSFrame) (write_fails : bool) (c : Client) : list (string * MessageEvent) * Client :=
  if Type_ f == WSFramePublish then deliverToSubscribers f write_fails c
  else if Type_ f == WSFramePing then ([], snd (writeRaw write_fails (newPongFrame (now c) (f_ID f)) c))
  else ([], c).
Definition read_error (c : Client) : Client := if a_closed c then c else triggerReconnect c.

(** *** Steps *)
Inductive event :=
| Clock (t : Z)
| DoSend (ctx_ended : bool) (topic payload : string) (props : gmap string string) (o : outcome)
| DoSubscribe (opts : SubscribeOptions) (o : outcome)
| DoUnSubscribe (topic id : string) (write_fails : bool)
| Connect (dialed : bool) (outcomes : list outcome)
| Reconnect (dialed : bool) (outcomes : list outcome)
| Drain (d : nat) (o : outcome)
| Incoming (f : WSFrame) (write_fails : bool)
| ReadError
| DoClose.
(** The clock does not go back. *)
Definition step (e : event) (c : Client) : Client :=
  match e with
  | Clock t => set_now (Z.max t (now c)) c
  | DoSend ctx_ended topic payload props o => snd (Send ctx_ended topic payload props o c)
  | DoSubscribe opts o => snd (Subscribe opts o c)
  | DoUnSubscribe topic id write_fails => UnSubscribe topic id write_fails c
  | Connect dialed outcomes => snd (connect dialed outcomes c)
  | Reconnect dialed outcomes => reconnect dialed outcomes c
  | Drain d o => drainBuffer d o c
  | Incoming f write_fails => snd (dispatchFrame f write_fails c)
  | ReadError => read_error c
  | DoClose => Close c
  end.
Fixpoint run (es : list event) (c : Client) : Client :=
  match es with [] => c | e :: es => run es (step e c) end.
End Ant.
End WsAnt.

(** ** The client on the queen *)
Module WsServer.
Import Frames.

(** A connection of an ant: frames to be written, and its subscriptions. *)
Record wsServerConn := mkConn { cn_id : string; sendCh : list WSFrame; cn_closed : bool; cn_subs : gmap string (list string) }.
Definition sendCapacity : nat := 256.
Definition addSub (topic subID : string) (x : wsServerConn) : wsServerConn :=
  mkConn (cn_id x) (sendCh x) (cn_closed x) (<[topic := default [] (cn_subs x !! topic) ++ [subID]]> (cn_subs x)).
Fixpoint remove_first (subID : string) (ids : list string) : list string :=
  match ids with
  | [] => []
  | id :: ids => if id == subID then ids else id :: remove_first subID ids
  end.
Definition removeSub (topic subID : string) (x : wsServerConn) : wsServerConn :=
  let ids := remove_first subID (default [] (cn_subs x !! topic)) in
  mkConn (cn_id x) (sendCh x) (cn_closed x)
    (match ids with [] => delete topic (cn_subs x) | _ => <[topic := ids]> (cn_subs x) end).
(** A frame is dropped when the queue is full. *)
Definition send (f : WSFrame) (x : wsServerConn) : bool * wsServerConn :=
  if (List.length (sendCh x) <? sendCapacity)%nat
  then (true, mkConn (cn_id x) (sendCh x ++ [f]) (cn_closed x) (cn_subs x))
  else (false, x).

Record wsTopic := mkTopic {
  w_name : string;
  localSubs : gset string;
  remoteSubs : gmap string nat;
  mx : gmap string (Entry Channel.callback_kind)
}.

(** A subscription of an ant between the look-up of its topic and its entry. *)
Record Flight := mkFlight { fl_conn : nat; fl_topic : string; fl_object : nat; fl_subID : string; fl_frame : string }.

Record Server := mkServer {
  topics : gmap string nat;
  objects : gmap nat wsTopic;
  conns : gmap string nat;
  connections : gmap nat wsServerConn;
  calls : gmap nat Channel.Call;
  flights : gmap nat Flight;
  collector : MetricsCollector;
  heard : list (string * MessageEvent);
  s_closed : bool;
  next : nat;
  now : Z
}.
Definition set_topics (x : gmap string nat) (s : Server) : Server :=
  mkServer x (objects s) (conns s) (connections s) (calls s) (flights s) (collector s) (heard s) (s_closed s) (next s) (now s).
Definition set_objects (x : gmap nat wsTopic) (s : Server) : Server :=
  mkServer (topics s) x (conns s) (connections s) (calls s) (flights s) (collector s) (heard s) (s_closed s) (next s) (now s).
Definition set_conns (x : gmap string nat) (s : Server) : Server :=
  mkServer (topics s) (objects s) x (connections s) (calls s) (flights s) (collector s) (heard s) (s_closed s) (next s) (now s).
Definition set_connections (x : gmap nat wsServerConn) (s : Server) : Server :=
  mkServer (topics s) (objects s) (conns s) x (calls s) (flights s) (collector s) (heard s) (s_closed s) (next s) (now s).
Definition set_calls (x : gmap nat Channel.Call) (s : Server) : Server :=
  mkServer (topics s) (objects s) (conns s) (connections s) x (flights s) (collector s) (heard s) (s_closed s) (next s) (now s).
Definition set_flights (x : gmap nat Flight) (s : Server) : Server :=
  mkServer (topics s) (objects s) (conns s) (connections s) (calls s) x (collector s) (heard s) (s_closed s) (next s) (now s).
Definition set_collector (x : MetricsCollector) (s : Server) : Server :=
  mkServer (topics s) (objects s) (conns s) (connections s) (calls s) (flights s) x (heard s) (s_closed s) (next s) (now s).
Definition hear (id : string) (e : MessageEvent) (s : Server) : Server :=
  mkServer (topics s) (objects s) (conns s) (connections s) (calls s) (flights s) (collector s) (heard s ++ [(id, e)]) (s_closed s) (next s) (now s).
Definition set_s_closed (s : Server) : Server :=
  mkServer (topics s) (objects s) (conns s) (connections s) (calls s) (flights s) (collector s) (heard s) true (next s) (now s).
Definition set_next (x : nat) (s : Server) : Server :=
  mkServer (topics s) (objects s) (conns s) (connections s) (calls s) (flights s) (collector s) (heard s) (s_closed s) x (now s).
Definition newWebSocketServerClient (t : Z) : Server := mkServer ∅ ∅ ∅ ∅ ∅ ∅ newMetricsCollector [] false 0 t.

Inductive server_error := CtxEnded | Refused_ (e : check_error) | NoBearer | EmptyBearer | BadJWT | NotAPIToken (t : string) | BadToken
| SubscribeFailed (e : check_error) | SendFailed (e : server_error).

(** The secrets of the configuration, and what [web.ParseToken] says of a token. *)
Class Tokens := { JWTSecret : string; Token : string; ParseToken : string -> string -> option string }.
Definition TokenTypeAPI : string := "api".

Section Server.
Context `{Channel.Users, Tokens, RangeOrder}.
Definition fresh (s : Server) : nat * Server := (next s, set_next (S (next s)) s).
Definition tally (topic : string) (published consumed retried failed : Z) (s : Server) : Server :=
  set_collector (updateMetrics (now s) 0 topic published consumed retried failed 0 (collector s)) s.

Definition authenticate (authHeader : string) : option server_error :=
  if (JWTSecret == "") && (Token == "") then None
  else if negb (HasPrefix authHeader "Bearer ") then Some NoBearer
  else
    let tokenStr := TrimPrefix authHeader "Bearer " in
    if tokenStr == "" then Some EmptyBearer
    else if JWTSecret != "" then
      match ParseToken tokenStr JWTSecret with
      | None => Some BadJWT
      | Some tokenType => if tokenType != TokenTypeAPI then Some (NotAPIToken tokenType) else None
      end
    else if tokenStr != Token then Some BadToken else None.
(** A new connection. *)
Definition HTTPHandler (authHeader : string) (upgraded : bool) (s : Server) : option server_error * Server :=
  match authenticate authHeader with
  | Some e => (Some e, s)
  | None =>
      if upgraded then
        let '(i, s) := fresh s in
        (None, set_connections (<[i := mkConn (Channel.ulid i) [] false ∅]> (connections s)) (set_conns (<[Channel.ulid i := i]> (conns s)) s))
      else (None, s)
  end.
Definition ConnectedAntCount (s : Server) : nat := size (conns s).

Definition getOrCreateTopic (name : string) (s : Server) : nat * Server :=
  match topics s !! name with
  | Some t => (t, s)
  | None =>
      let '(t, s) := fresh s in
      (t, set_objects (<[t := mkTopic name ∅ ∅ ∅]> (objects s)) (set_topics (<[name := t]> (topics s)) s))
  end.
Definition maybeDeleteTopic (name : string) (s : Server) : Server :=
  match topics s !! name ≫= fun t => objects s !! t with
  | Some w => if (size (localSubs w) =? 0)%nat && (size (remoteSubs w) =? 0)%nat then set_topics (delete name (topics s)) s else s
  | None => s
  end.
Definition change_topic (t : nat) (f : wsTopic -> wsTopic) (s : Server) : Server :=
  match objects s !! t with Some w => set_objects (<[t := f w]> (objects s)) s | None => s end.
Definition add_local (id : string) (e : Entry Channel.callback_kind) (w : wsTopic) : wsTopic :=
  mkTopic (w_name w) ({[id]} ∪ localSubs w) (remoteSubs w) (Mx.Add id e (mx w)).
Definition drop_local (id : string) (w : wsTopic) : wsTopic :=
  mkTopic (w_name w) (localSubs w ∖ {[id]}) (remoteSubs w) (Mx.Remove id (mx w)).
Definition add_remote (id : string) (x : nat) (w : wsTopic) : wsTopic := mkTopic (w_name w) (localSubs w) (<[id := x]> (remoteSubs w)) (mx w).
Definition drop_remote (id : string) (w : wsTopic) : wsTopic := mkTopic (w_name w) (localSubs w) (delete id (remoteSubs w)) (mx w).
Definition change_conn (x : nat) (f : wsServerConn -> wsServerConn) (s : Server) : Server :=
  match connections s !! x with Some cn => set_connections (<[x := f cn]> (connections s)) s | None => s end.
Definition send_to (x : nat) (f : WSFrame) (s : Server) : bool * Server :=
  match connections s !! x with
  | Some cn => let '(ok, cn) := send f cn in (ok, set_connections (<[x := cn]> (connections s)) s)
  | None => (false, s)
  end.

(** *** Subscribers on the queen *)
Definition subscribe (kind : Channel.callback_kind) (opts : SubscribeOptions) (s : Server) : (string + check_error) * Server :=
  match validateSubscribeOptions opts with
  | Some e => (inr e, s)
  | None =>
      let '(i, s) := fresh s in
      let '(t, s) := getOrCreateTopic (so_Topic opts) s in
      let s := change_topic t (add_local (Channel.ulid i) (mkEntry (GetCorrelationID (so_Props opts)) kind)) s in
      (inl (Channel.ulid i), set_collector (setTopic (so_Topic opts) true (collector s)) s)
  end.
Definition Subscribe := subscribe Channel.UserCallback.
Definition UnSubscribe (topic id : string) (s : Server) : Server :=
  match topics s !! topic with
  | None => s
  | Some t =>
      match objects s !! t with
      | Some w => if decide (id ∈ localSubs w) then maybeDeleteTopic topic (change_topic t (drop_local id) s) else s
      | None => s
      end
  end.

(** The call of a callback: its acknowledgements are only counted, for messages
    of the queen ([counts]). *)
Definition settle (counts : bool) (topic : string) (g : Channel.signal) (s : Server) : Server :=
  if counts then match g with Channel.Ack => tally topic 0 1 0 0 s | Channel.Nack => tally topic 0 0 1 0 s end else s.
Definition on_response (counts : bool) (call : nat) (e : MessageEvent) (s : Server) : Server :=
  match calls s !! call with
  | Some x =>
      if CoRelationID e == Channel.c_correlationID x then
        match Channel.c_response x with
        | None =>
            settle counts (Topic e) Channel.Ack
              (set_calls (<[call := Channel.mkCall (Channel.c_correlationID x) (Channel.c_InTopic x) (Channel.c_subID x) (Some e)
                                      (Channel.c_closed x) (Channel.c_result x)]> (calls s)) s)
        | Some _ => settle counts (Topic e) Channel.Nack s
        end
      else s
  | None => s
  end.
Definition invoke (counts : bool) (id : string) (kind : Channel.callback_kind) (e : MessageEvent) (s : Server) : bool * Server :=
  let '(d, s) := fresh s in
  let s := hear id e s in
  match kind with
  | Channel.UserCallback =>
      let '(signals, failed) := Channel.handle d e in (failed, foldl (fun s g => settle counts (Topic e) g s) s signals)
  | Channel.ResponseOf call => (false, on_response counts call e s)
  end.
Definition notify_local (counts : bool) (t : nat) (e : MessageEvent) (s : Server) : nat * Server :=
  match objects s !! t with
  | Some w =>
      Notify (invoke counts) Channel.wanted (fun s => if counts then tally (Topic e) 0 1 0 0 s else s) Channel.commitTimeout (now s) (mx w) e s
  | None => (0%nat, s)
  end.

(** *** Sending: callbacks first, then one frame for each subscription of an ant *)
Fixpoint send_remotes (l : list (string * nat)) (f : WSFrame) (sent : nat) (s : Server) : nat * Server :=
  match l with
  | [] => (sent, s)
  | (_, x) :: l =>
      let '(ok, s) := send_to x f s in send_remotes l f (if ok then S sent else sent) s
  end.
Definition Send (ctx_ended : bool) (topic payload : string) (props : gmap string string) (s : Server) : (string + server_error) * Server :=
  if ctx_ended then (inr CtxEnded, s)
  else match validateSendRequest topic payload props Channel.MaxMessageSize with
       | Some e => (inr (Refused_ e), s)
       | None =>
           let '(i, s) := fresh s in
           let msgID := Channel.ulid i in
           let e := mkMessageEvent topic "" props payload msgID (now s) 0 0 in
           let s := tally topic 1 0 0 0 s in
           let '(t, s) := getOrCreateTopic topic s in
           let '(sent, s) := notify_local true t e s in
           let remotes := match objects s !! t with Some w => range (remoteSubs w) | None => [] end in
           let '(sent, s) := send_remotes remotes (newPublishFrame (now s) msgID topic payload props) sent s in
           (inl msgID, if (sent =? 0)%nat then tally topic 0 1 0 0 s else s)
       end.
Definition Publish := Send.
Definition CreateTopicIfNotExists (topic : string) (s : Server) : Server := snd (getOrCreateTopic topic s).

Definition end_call (call : nat) (result : option MessageEvent) (s : Server) : Server :=
  match calls s !! call with
  | Some x =>
      let s := UnSubscribe (Channel.c_InTopic x) (Channel.c_subID x) s in
      set_calls (<[call := Channel.mkCall (Channel.c_correlationID x) (Channel.c_InTopic x) (Channel.c_subID x) (Channel.c_response x)
                             true (Some result)]> (calls s)) s
  | None => s
  end.
Definition set_subID (call : nat) (subID : string) (s : Server) : Server :=
  match calls s !! call with
  | Some x => set_calls (<[call := Channel.mkCall (Channel.c_correlationID x) (Channel.c_InTopic x) subID (Channel.c_response x)
                                     (Channel.c_closed x) (Channel.c_result x)]> (calls s)) s
  | None => s
  end.
Definition SendReceive (ctx_ended : bool) (r : SendReceiveRequest) (s : Server) : (nat + server_error) * Server :=
  match validateSendReceiveRequest r Channel.MaxMessageSize with
  | Some e => (inr (Refused_ e), s)
  | None =>
      let '(call, s) := fresh s in
      let correlationID := Channel.ulid call in
      let s := set_calls (<[call := Channel.mkCall correlationID (InTopic r) "" None false None]> (calls s)) s in
      match subscribe (Channel.ResponseOf call) (mkSubscribeOptions (InTopic r) false true "" ∅) s with
      | (inr e, s) => (inr (SubscribeFailed e), s)
      | (inl subID, s) =>
          let s := set_subID call subID s in
          match Send ctx_ended (OutTopic r) (sr_Payload r) (SetReplyTopic (InTopic r) (SetCorrelationID correlationID (sr_Props r))) s with
          | (inr e, s) => (inr (SendFailed e), end_call call None s)
          | (inl _, s) => (inl call, s)
          end
      end
  end.
(** The end of its wait, by the reply or by the timeout. *)
Definition receive (call : nat) (s : Server) : Server :=
  match calls s !! call with
  | Some x =>
      match Channel.c_result x, Channel.c_response x with
      | None, Some e => end_call call (Some e) s
      | _, _ => s
      end
  | None => s
  end.
Definition timeout (call : nat) (s : Server) : Server :=
  match calls s !! call with
  | Some x => match Channel.c_result x with None => end_call call None s | Some _ => s end
  | None => s
  end.

(** *** Frames of an ant

    A subscription is made in two parts, between which the topic may go. *)
Definition begin_subscribe (x : nat) (f : WSFrame) (s : Server) : Server :=
  let '(i, s) := fresh s in
  let '(t, s) := getOrCreateTopic (f_Topic f) s in
  set_flights (<[i := mkFlight x (f_Topic f) t (Channel.ulid i) (f_ID f)]> (flights s)) s.
Definition end_subscribe (i : nat) (s : Server) : Server :=
  match flights s !! i with
  | Some fl =>
      let s := set_flights (delete i (flights s)) s in
      let s := change_topic (fl_object fl) (add_remote (fl_subID fl) (fl_conn fl)) s in
      let s := change_conn (fl_conn fl) (addSub (fl_topic fl) (fl_subID fl)) s in
      snd (send_to (fl_conn fl) (newSubscribeAckFrame (now s) (fl_frame fl) (fl_subID fl)) s)
  | None => s
  end.
Definition handleSubscribeFrame (x : nat) (f : WSFrame) (s : Server) : Server := end_subscribe (next s) (begin_subscribe x f s).
Definition handleUnsubscribeFrame (x : nat) (f : WSFrame) (s : Server) : Server :=
  let s := match topics s !! f_Topic f with Some t => change_topic t (drop_remote (SubscriptionID f)) s | None => s end in
  let s := change_conn x (removeSub (f_Topic f) (SubscriptionID f)) s in
  snd (send_to x (newAckFrame (now s) (f_ID f)) s).
Definition handlePublishFromAnt (x : nat) (f : WSFrame) (s : Server) : Server :=
  let s := tally (f_Topic f) 1 0 0 0 s in
  let '(t, s) := getOrCreateTopic (f_Topic f) s in
  let s := snd (notify_local false t (event_of f) s) in
  snd (send_to x (newAckFrame (now s) (f_ID f)) s).
Definition handleFrame (x : nat) (f : WSFrame) (s : Server) : Server :=
  if Type_ f == WSFrameSubscribe then handleSubscribeFrame x f s
  else if Type_ f == WSFrameUnsubscribe then handleUnsubscribeFrame x f s
  else if Type_ f == WSFramePublish then handlePublishFromAnt x f s
  else if Type_ f == WSFramePing then snd (send_to x (newPongFrame (now s) (f_ID f)) s)
  else s.

(** The end of a connection, which [close]s it at most once. *)
Definition close (cn : wsServerConn) : wsServerConn := mkConn (cn_id cn) (sendCh cn) true (cn_subs cn).
Definition remove_subs (s : Server) (ti : string * list string) : Server :=
  match topics s !! fst ti with
  | Some t => maybeDeleteTopic (fst ti) (foldl (fun s id => change_topic t (drop_remote id) s) s (snd ti))
  | None => s
  end.
Definition removeConn (x : nat) (s : Server) : Server :=
  match connections s !! x with
  | Some cn =>
      let s := change_conn x close s in
      let s := set_conns (delete (cn_id cn) (conns s)) s in
      foldl remove_subs s (range (cn_subs cn))
  | None => s
  end.
Definition Close (s : Server) : Server :=
  if s_closed s then s else foldl (fun s ix => change_conn (snd ix) close s) (set_s_closed s) (range (conns s)).
End Server.
End WsServer.
