(* ===== verification/WsQueueSpec.v ===== *)
(** * WsQueueSpec: what ants and queen can rely on over WebSockets

    The store of unsent messages is bounded, and the record of the ant's client
    (answers that arrived, rows stored, sent on and expired, connections lost)
    accounts for every message that it accepted. *)

From Stdlib Require Import Ascii.
From S2P Require Import Prelude Resource Queue QueueSpec WsQueue.
Import Headers Checks Metrics Frames Buffer.

Open Scope Z_scope.

Section Ant.
Import WsAnt.
Context `{Disk, Ids, RangeOrder} (filter_ : string -> MessageEvent -> bool) (answer : string -> MessageEvent -> option bool).

(** ** The invariant of an ant's client

    Rows and the messages of running drains are stored messages; a stored
    message is in the buffer unless it was sent on or has expired. *)
Definition stored (c : Client) (row : Z) (topic payload : string) (t : Z) : Prop := exists n, Stored n row topic payload t ∈ record c.
(** A frame that publishes the message, and a row that was sent in such a frame,
    to which the answer came or during which the connection was lost. *)
Definition publishes (f : WSFrame) (topic payload : string) : Prop :=
  Type_ f = WSFramePublish /\ f_Topic f = topic /\ f_Payload f = payload.
Definition sent_on (c : Client) (row : Z) (topic payload : string) : Prop :=
  exists f, Forwarded row f ∈ record c /\ publishes f topic payload /\
    ((exists resp, Replied f resp ∈ record c) \/ Broken f ∈ record c).
Definition fate (c : Client) (row : Z) (topic payload : string) (t : Z) : Prop :=
  (exists r, r ∈ rows (buffer c) /\ row_id r = row) \/ sent_on c row topic payload \/
  exists gone t', Expired gone t' ∈ record c /\ row ∈ gone /\ Containers.Unix (t + ttl) <= Containers.Unix t'.
Record inv (c : Client) : Prop := {
  inv_rows : forall r, r ∈ rows (buffer c) ->
    row_id r <= last_id (buffer c) /\ exists t, stored c (row_id r) (r_topic r) (r_payload r) t /\ expires_at r = Containers.Unix (t + ttl);
  inv_unique : forall n n' row tp pl t tp' pl' t', Stored n row tp pl t ∈ record c -> Stored n' row tp' pl' t' ∈ record c -> tp = tp' /\ pl = pl' /\ t = t';
  inv_old : forall n row tp pl t, Stored n row tp pl t ∈ record c -> row <= last_id (buffer c);
  inv_drains : forall d ms m, drains c !! d = Some ms -> m ∈ ms -> exists t, stored c (b_ID m) (b_Topic m) (b_Payload m) t;
  inv_fate : forall n row tp pl t, Stored n row tp pl t ∈ record c -> fate c row tp pl t;
  inv_bound : Z.of_nat (List.length (List.filter (alive (Containers.Unix (now c))) (rows (buffer c)))) <= Z.max 0 maxSize
}.

(** What no step undoes. *)
Definition grows (c c' : Client) : Prop := exists l, record c' = record c ++ l.
Lemma grows_refl c : grows c c.
Proof. exists []. by rewrite app_nil_r. Qed.
Lemma grows_trans c1 c2 c3 : grows c1 c2 -> grows c2 c3 -> grows c1 c3.
Proof. intros [l E] [l' E']. exists (l ++ l'). by rewrite E', E, app_assoc. Qed.
Lemma grows_in c c' e : grows c c' -> e ∈ record c -> e ∈ record c'.
Proof. intros [l ->] Hin. apply elem_of_app. by left. Qed.
Definition good (c c' : Client) : Prop := inv c -> inv c' /\ grows c c'.
Lemma ws_good_refl c : good c c.
Proof. intros. split; [done|apply grows_refl]. Qed.
Lemma ws_good_trans c1 c2 c3 : good c1 c2 -> good c2 c3 -> good c1 c3.
Proof. intros A B I. destruct (A I) as [I2 L2]. destruct (B I2) as [I3 L3]. split; [done|by eapply grows_trans]. Qed.

Lemma ws_good_frame c c' :
  rows (buffer c') = rows (buffer c) -> last_id (buffer c') = last_id (buffer c) -> drains c' = drains c -> record c' = record c -> now c' = now c -> good c c'.
Proof.
  intros ER EL ED EC EN [I1 I2 I3 I4 I5 I6]. split; [|exists []; by rewrite EC, app_nil_r].
  unfold stored, fate, sent_on in *. split; unfold stored, fate, sent_on; rewrite ?ER, ?EL, ?ED, ?EC, ?EN; assumption.
Qed.
Ltac frame := apply ws_good_frame; reflexivity.

(** A new entry that stores nothing. *)
Definition plain (e : entry) : bool := match e with Stored _ _ _ _ _ => false | _ => true end.
Lemma plain_in e c n row tp pl t : plain e = true -> Stored n row tp pl t ∈ record (note e c) <-> Stored n row tp pl t ∈ record c.
Proof. intros HP. cbn. rewrite elem_of_app, list_elem_of_singleton. split; [intros [?|<-]; [done|by cbn in HP]|by left]. Qed.
Lemma sent_on_grows c c' row tp pl : grows c c' -> sent_on c row tp pl -> sent_on c' row tp pl.
Proof.
  intros HG (f & HF & HP & HR). exists f. split_and!; [by eapply grows_in|done|].
  destruct HR as [[resp HR]|HR]; [left; exists resp|right]; by eapply grows_in.
Qed.
Lemma fate_grows c c' row tp pl t : grows c c' -> rows (buffer c') = rows (buffer c) -> fate c row tp pl t -> fate c' row tp pl t.
Proof.
  intros HG ER [(r & ? & ?)|[HS|(g & t' & ? & ? & ?)]].
  - left. exists r. by rewrite ER.
  - right; left. by eapply sent_on_grows.
  - do 2 right. exists g, t'. by split_and!; [eapply grows_in| |].
Qed.
Lemma good_note e c : plain e = true -> good c (note e c).
Proof.
  intros HP [I1 I2 I3 I4 I5 I6]. split; [|by exists [e]].
  assert (forall row tp pl t, stored (note e c) row tp pl t <-> stored c row tp pl t) as HS by (intros; unfold stored; by setoid_rewrite plain_in).
  split; [| | | | |done].
  - intros r Hr. destruct (I1 r Hr) as (A & t & B & C). split; [done|]. exists t. by rewrite HS.
  - intros *. rewrite !plain_in by done. apply I2.
  - intros *. rewrite plain_in by done. apply I3.
  - intros d ms m Hd Hm. destruct (I4 d ms m Hd Hm) as (t & Ht). exists t. by rewrite HS.
  - intros n row tp pl t. rewrite plain_in by done. intros HI.
    eapply (fate_grows c); [by exists [e]|done|by eapply I5].
Qed.
Lemma ws_good_tally topic a b r f c : good c (tally topic a b r f c).
Proof. frame. Qed.
Lemma good_write fails f c : good c (snd (writeRaw fails f c)).
Proof. unfold writeRaw. destruct (negb _); [apply ws_good_refl|]. destruct fails; frame. Qed.
Lemma good_await f o c : good c (snd (sendFrameAwaitAck f o c)).
Proof.
  unfold sendFrameAwaitAck. pose proof (good_write (match o with WriteError => true | _ => false end) f c) as G.
  destruct (writeRaw _ f c) as [[e|] c1]; cbn [snd] in *; [done|]. destruct o; try done;
    (eapply ws_good_trans; [exact G|]).
  - eapply (ws_good_trans _ (triggerReconnect c1)); [frame|by apply good_note].
  - by apply good_note.
Qed.
Lemma ws_good_subscribe sub o c : good c (snd (sendSubscribe sub o c)).
Proof.
  unfold sendSubscribe. cbn [fresh]. set (f := newSubscribeFrame _ _ _ _ _).
  eapply ws_good_trans; [|eapply ws_good_trans; [apply (good_await f o (set_next (S (next c)) c))|]]; [frame|].
  destruct (sendFrameAwaitAck _ _ _) as [[resp|e] c1]; [|apply ws_good_refl]. destruct (_ == _); [apply ws_good_refl|]. cbn. destruct (_ != _); [frame|apply ws_good_refl].
Qed.
Lemma good_subscribe_all l os c : good c (subscribe_all l os c).
Proof.
  revert os c. induction l as [|[id sub] l IH]; intros os c; [apply ws_good_refl|]. cbn. destruct os as [|o os];
    (eapply ws_good_trans; [apply ws_good_subscribe|apply IH]).
Qed.

(** A message is stored under a new number. *)
Lemma good_store n topic payload props k c :
  Z.of_nat (List.length (List.filter (alive (Containers.Unix (now c))) (rows (buffer c)))) < maxSize ->
  let id := last_id (buffer c) + 1 in
  let r := mkRow id topic payload (to_json props) (Containers.Unix (now c)) (Containers.Unix (now c + ttl)) in
  good c (note (Stored n id topic payload (now c)) (set_buffer (mkBuffer (rows (buffer c) ++ [r]) id k) c)).
Proof.
  cbv zeta. intros HM [I1 I2 I3 I4 I5 I6]. set (id := last_id (buffer c) + 1). set (r := mkRow _ _ _ _ _ _). set (c' := note _ _).
  assert (forall e, e ∈ record c' <-> e ∈ record c \/ e = Stored n id topic payload (now c)) as HR.
  { intros e. cbn. by rewrite elem_of_app, list_elem_of_singleton. }
  assert (forall row tp pl t, stored c row tp pl t -> stored c' row tp pl t) as HS. { intros * (m & Hm). exists m. apply HR. by left. }
  split; [|by eexists]. split.
  - cbn. intros x. rewrite elem_of_app, list_elem_of_singleton. intros [Hx| ->].
    + destruct (I1 x Hx) as (A & t & B & C). split; [lia|]. exists t. split; [by apply HS|done].
    + cbn. split; [lia|]. exists (now c). split; [|done]. exists n. apply HR. by right.
  - intros a b row tp pl t tp' pl' t'. rewrite !HR. intros [A|EA] [B|EB].
    + by eapply I2.
    + injection EB as _ -> _ _ _. specialize (I3 _ _ _ _ _ A). lia.
    + injection EA as _ -> _ _ _. specialize (I3 _ _ _ _ _ B). lia.
    + by simplify_eq.
  - intros a row tp pl t. rewrite HR. cbn. intros [A|[= -> -> -> -> ->]]; [specialize (I3 _ _ _ _ _ A); lia|lia].
  - cbn. intros d ms m Hd Hm. destruct (I4 d ms m Hd Hm) as (t & Ht). exists t. by apply HS.
  - intros a row tp pl t. rewrite HR. intros [A|[= -> -> -> -> ->]].
    + destruct (I5 _ _ _ _ _ A) as [(x & ? & ?)|[HF|(g & t' & ? & ? & ?)]].
      * left. exists x. split; [apply elem_of_app; by left|done].
      * right; left. eapply sent_on_grows; [|exact HF]. by eexists.
      * do 2 right. exists g, t'. split_and!; [apply HR; by left|done|done].
    + left. exists r. split; [apply elem_of_app; right; by constructor|done].
  - cbn [buffer c' note set_buffer rows now]. rewrite List.filter_app, length_app. cbn. destruct (alive _ r); cbn; lia.
Qed.
Lemma keep_spec n topic payload props c r c' :
  keep n topic payload props c = (r, c') ->
  good c c' /\ (forall u, r = inl u -> exists row t, Stored n row topic payload t ∈ record c').
Proof.
  unfold keep, Enqueue, countLocked, statement. destruct (sql_fails (asked (buffer c))); [intros [= <- <-]; split; [frame|done]|].
  cbn [rows]. destruct (_ <=? _) eqn:EM; [intros [= <- <-]; split; [frame|done]|]. apply Z.leb_gt in EM. cbn [asked last_id rows].
  destruct (sql_fails _); [intros [= <- <-]; split; [frame|done]|]. intros [= <- <-]. split; [by apply good_store|].
  intros _ _. eexists _, _. cbn. apply elem_of_app. right. by constructor.
Qed.

(** Rows leave the buffer when they were sent on or have expired. *)
Lemma good_remove (b : Row -> bool) k c :
  (inv c -> forall r n tp pl t, r ∈ rows (buffer c) -> b r = false -> Stored n (row_id r) tp pl t ∈ record c ->
     sent_on c (row_id r) tp pl \/
     exists gone t', Expired gone t' ∈ record c /\ row_id r ∈ gone /\ Containers.Unix (t + ttl) <= Containers.Unix t') ->
  good c (set_buffer (mkBuffer (List.filter b (rows (buffer c))) (last_id (buffer c)) k) c).
Proof.
  intros HB I. specialize (HB I). destruct I as [I1 I2 I3 I4 I5 I6]. split; [|exists []; by rewrite app_nil_r].
  split; [|done|done|done| |].
  - cbn. intros r Hr. rewrite list_elem_of_In, filter_In, <- list_elem_of_In in Hr. exact (I1 r (proj1 Hr)).
  - intros n row tp pl t HI. unfold fate. cbn. destruct (I5 _ _ _ _ _ HI) as [(r & Hr & Er)|?]; [|by right].
    destruct (b r) eqn:EB.
    + left. exists r. by rewrite list_elem_of_In, filter_In, <- list_elem_of_In.
    + right. subst row. by eapply HB.
  - cbn. etransitivity; [|exact I6]. apply inj_le. generalize (rows (buffer c)). intros l. induction l as [|x l IH]; cbn; [lia|].
    destruct (b x); cbn; destruct (alive _ x); cbn; lia.
Qed.
Lemma scan_elem l ms : scan l = inl ms -> forall m, m ∈ ms -> exists r, r ∈ l /\ b_ID m = row_id r /\ b_Topic m = r_topic r /\ b_Payload m = r_payload r.
Proof.
  revert ms. induction l as [|r l IH]; cbn; intros ms; [intros [= <-] m Hm; by apply elem_of_nil in Hm|].
  destruct (of_json _); [|done]. destruct (scan l) as [ms'|]; [|done]. intros [= <-] m. rewrite elem_of_cons. intros [->|Hm].
  - exists r. by split_and!; [constructor| | |].
  - destruct (IH ms' eq_refl m Hm) as (x & Hx & ?). exists x. by split; [constructor|].
Qed.
Lemma scan_error l e : scan l = inr e -> e <> PruneFailed.
Proof. revert e. induction l as [|r l IH]; cbn; intros e; [done|]. destruct (of_json _); [|by intros [= <-]]. destruct (scan l); [done|]. intros [= <-]. by apply IH. Qed.
(** The rows that [DequeueAll] prunes are noted before they go. *)
Lemma good_prune k c :
  let gone := map row_id (List.filter (fun x => negb (alive (Containers.Unix (now c)) x)) (rows (buffer c))) in
  good c (note (Expired gone (now c)) (set_buffer (mkBuffer (List.filter (alive (Containers.Unix (now c))) (rows (buffer c))) (last_id (buffer c)) k) c)).
Proof.
  cbv zeta. set (gone := map _ _).
  apply (ws_good_trans _ (note (Expired gone (now c)) c)); [by apply good_note|].
  refine (good_remove (alive (Containers.Unix (now c))) k (note (Expired gone (now c)) c) _). intros I r n tp pl t Hr EA HI.
  right. exists gone, (now c). split_and!.
  - cbn. apply elem_of_app. right. by constructor.
  - rewrite list_elem_of_In. apply in_map. apply filter_In. split; [by apply list_elem_of_In|by rewrite EA].
  - destruct (inv_rows _ I r Hr) as (_ & t' & (n' & HS) & HE). destruct (inv_unique _ I _ _ _ _ _ _ _ _ _ HI HS) as (_ & _ & ->).
    unfold alive in EA. apply Z.ltb_ge in EA. rewrite <- HE. exact EA.
Qed.
Lemma dequeue_spec c r c' :
  dequeue c = (r, c') -> good c c' /\ (inv c -> forall ms m, r = inl ms -> m ∈ ms -> exists t, stored c' (b_ID m) (b_Topic m) (b_Payload m) t).
Proof.
  unfold dequeue, DequeueAll, statement. destruct (sql_fails (asked (buffer c))); [intros [= <- <-]; split; [frame|done]|].
  cbn [rows last_id asked]. destruct (sql_fails _); [intros [= <- <-]; split; [apply good_prune|done]|]. intros [= <- <-].
  destruct (scan _) as [ms|e] eqn:ES; [|split; [|done]].
  - split; [apply good_prune|]. intros I ms' m [= <-] Hm. destruct (good_prune (S (S (asked (buffer c)))) c I) as [I' _].
    destruct (scan_elem _ _ ES m Hm) as (r & Hr & -> & -> & ->).
    assert (r ∈ List.filter (alive (Containers.Unix (now c))) (rows (buffer c))) as Hr'.
    { rewrite list_elem_of_In, filter_In in Hr. rewrite list_elem_of_In. apply Hr. }
    destruct (inv_rows _ I' r Hr') as (_ & t & HS & _). by exists t.
  - apply scan_error in ES. destruct e; try apply good_prune. done.
Qed.

(** A drain sends a stored message on, notes it, and deletes its row. *)
Lemma await_noted f o c resp c' :
  sendFrameAwaitAck f o c = (inl resp, c') ->
  Replied f resp ∈ record c' \/ (Broken f ∈ record c' /\ Type_ resp = WSFrameError).
Proof.
  unfold sendFrameAwaitAck. destruct (writeRaw _ _ _) as [[e|] c1]; [done|].
  destruct o; try done; intros [= <- <-]; cbn; [right; split; [|done]|left]; apply elem_of_app; right; by constructor.
Qed.
Lemma good_forward m o c :
  (inv c -> exists t, stored c (b_ID m) (b_Topic m) (b_Payload m) t) -> good c (snd (forward m o c)).
Proof.
  intros HM. unfold forward. cbn [fresh]. cbv zeta. set (f := newPublishFrame _ _ _ _ _).
  assert (good c (snd (sendFrameAwaitAck f o (set_next (S (next c)) c)))) as G by (eapply ws_good_trans; [|apply good_await]; frame).
  destruct (sendFrameAwaitAck _ _ _) as [[resp|e] c1] eqn:EW; cbn [snd] in *; [|done]. apply await_noted in EW.
  intros I. destruct (HM I) as (t & n & HS). destruct (G I) as [I1 G1]. apply (grows_in _ _ _ G1) in HS.
  set (e := Forwarded _ f). assert (good c1 (note e c1)) as G2 by (by apply good_note).
  assert (good (note e c1) (set_buffer (snd (Remove (b_ID m) (buffer (note e c1)))) (note e c1))) as G3.
  { unfold Remove, statement. destruct (sql_fails _); [frame|]. cbn [snd rows last_id asked]. apply good_remove.
    intros I' r n' tp pl t' Hr EB HI. apply negb_false_iff, Z.eqb_eq in EB. cbn in Hr.
    assert (Stored n (b_ID m) (b_Topic m) (b_Payload m) t ∈ record (note e c1)) as HS' by (cbn; apply elem_of_app; by left).
    rewrite <- EB in HS'. destruct (inv_unique _ I' _ _ _ _ _ _ _ _ _ HI HS') as (-> & -> & ->). left. exists f. split_and!; [|done|].
    - cbn. apply elem_of_app. right. subst e. rewrite EB. by constructor.
    - destruct EW as [EW|[EW _]]; [left; exists resp|right]; cbn; apply elem_of_app; by left. }
  destruct (ws_good_trans _ _ _ G2 G3 I1) as [I3 G4]. split; [exact I3|]. eapply grows_trans; [exact G1|exact G4].
Qed.
Lemma good_drains c l : (inv c -> forall d ms m, l !! d = Some ms -> m ∈ ms -> exists t, stored c (b_ID m) (b_Topic m) (b_Payload m) t) -> good c (set_drains l c).
Proof.
  intros HL I. specialize (HL I). destruct I as [I1 I2 I3 I4 I5 I6]. split; [|exists []; by rewrite app_nil_r]. by split.
Qed.
Lemma good_drain_set c d ms :
  (inv c -> forall m, m ∈ ms -> exists t, stored c (b_ID m) (b_Topic m) (b_Payload m) t) -> good c (set_drains (<[d := ms]> (drains c)) c).
Proof.
  intros HM. apply good_drains. intros I d' ms' m. destruct (decide (d' = d)) as [->|Hne].
  - rewrite lookup_insert_eq. intros [= <-]. by apply HM.
  - rewrite lookup_insert_ne by done. by apply (inv_drains _ I).
Qed.
Lemma good_drain_end c d : good c (set_drains (delete d (drains c)) c).
Proof. apply good_drains. intros I d' ms m Hd. apply lookup_delete_Some in Hd as [_ Hd]. by apply (inv_drains _ I _ _ _ Hd). Qed.
Lemma good_drain d o c : good c (drainBuffer d o c).
Proof.
  unfold drainBuffer. destruct (drains c !! d) as [[|m ms]|] eqn:ED; [| |apply ws_good_refl].
  - destruct (dequeue c) as [r c1] eqn:EQ. destruct (dequeue_spec _ _ _ EQ) as [G HS]. intros I. destruct (G I) as [I1 G1].
    specialize (HS I). assert (forall c2, good c1 c2 -> inv c2 /\ grows c c2) as HC.
    { intros c2 G2. destruct (G2 I1) as [? ?]. split; [done|by eapply grows_trans]. }
    destruct r as [[|m ms]|]; apply HC; try apply good_drain_end. apply good_drain_set. intros _ x Hx. by eapply HS.
  - destruct (connected c); [|apply good_drain_end].
    intros I. destruct (good_forward m o c) as [I1 G1]; [intros _; eapply (inv_drains _ I); [exact ED|by constructor]|done|].
    assert (forall x, x ∈ ms -> exists t, stored (snd (forward m o c)) (b_ID x) (b_Topic x) (b_Payload x) t) as HM.
    { intros x Hx. destruct (inv_drains _ I _ _ x ED) as (t & n & Hn); [by constructor|]. exists t, n. by eapply grows_in. }
    destruct (forward m o c) as [[] c1]; cbn [snd] in *.
    + destruct (good_drain_set c1 d ms (fun _ => HM) I1). split; [done|by eapply grows_trans].
    + destruct (good_drain_end c1 d I1). split; [done|by eapply grows_trans].
Qed.
Lemma good_connect dialed os c : good c (snd (connect dialed os c)).
Proof.
  unfold connect. destruct dialed; [|apply ws_good_refl]. cbn [snd]. set (c0 := set_connected true c). eapply (ws_good_trans _ c0); [frame|].
  eapply ws_good_trans; [apply (good_subscribe_all (range (subs c)) os)|]. unfold start_drain. cbn [fresh]. set (c1 := subscribe_all _ _ _).
  eapply (ws_good_trans _ (set_next (S (next c1)) c1)); [frame|]. apply good_drain_set. intros _ m Hm. by apply elem_of_nil in Hm.
Qed.
Lemma Send_spec ctx topic payload props o c r c' :
  Send ctx topic payload props o c = (r, c') ->
  good c c' /\ forall n, r = inl n ->
  (exists f resp, publishes f topic payload /\ f_ID f = ulid n /\ Replied f resp ∈ record c' /\ Type_ resp <> WSFrameError) \/
  exists row t, Stored n row topic payload t ∈ record c'.
Proof.
  unfold Send. destruct ctx; [intros [= <- <-]; by split; [apply ws_good_refl|]|].
  destruct (validateSendRequest _ _ _ _); [intros [= <- <-]; by split; [apply ws_good_refl|]|]. cbn [fresh].
  set (c0 := set_next (S (next c)) c). assert (good c c0) as G0 by frame.
  assert (forall k c1 r1 c2, good c c1 -> keep k topic payload props c1 = (r1, c2) ->
    good c c2 /\ forall u, r1 = inl u -> exists row t, Stored k row topic payload t ∈ record c2) as HK.
  { intros k c1 r1 c2 G1 EK. destruct (keep_spec _ _ _ _ _ _ _ EK) as [G2 HR]. split; [by eapply ws_good_trans|done]. }
  destruct (negb (connected c0)).
  { destruct (keep _ _ _ _ c0) as [r1 c2] eqn:EK. destruct (HK _ _ _ _ G0 EK) as [G2 HR].
    destruct r1 as [[]|e]; intros [= <- <-]; (split; [done|]); intros n [= <-]. right. by apply (HR tt). }
  set (f := newPublishFrame _ _ _ _ _). assert (good c (snd (sendFrameAwaitAck f o c0))) as G1 by (eapply ws_good_trans; [exact G0|apply good_await]).
  destruct (sendFrameAwaitAck f o c0) as [[resp|e] c1] eqn:EW; cbn [snd] in G1.
  - apply await_noted in EW. destruct (Type_ resp == WSFrameError) eqn:EE; intros [= <- <-]; (split; [|try done]).
    + exact G1.
    + eapply ws_good_trans; [exact G1|apply ws_good_tally].
    + apply eqb_string_false in EE. intros n [= <-]. left. exists f, resp. by destruct EW as [EW|[_ EW]].
  - destruct (keep _ _ _ _ c1) as [r1 c2] eqn:EK. destruct (HK _ _ _ _ G1 EK) as [G2 HR].
    destruct r1 as [[]|e']; intros [= <- <-]; (split; [done|]); intros n [= <-]. right. by apply (HR tt).
Qed.

Lemma alive_later a b l : a <= b -> (List.length (List.filter (alive b) l) <= List.length (List.filter (alive a) l))%nat.
Proof.
  intros Hab. induction l as [|r l IH]; cbn; [lia|].
  assert (alive b r = true -> alive a r = true) as HI by (unfold alive; rewrite !Z.ltb_lt; lia).
  destruct (alive b r), (alive a r); cbn; try lia.
Qed.
Lemma good_clock t c : good c (set_now (Z.max t (now c)) c).
Proof.
  intros [I1 I2 I3 I4 I5 I6]. split; [|exists []; by rewrite app_nil_r]. split; [done..|]. cbn. etransitivity; [|exact I6].
  apply inj_le, alive_later. apply Z.div_le_mono; lia.
Qed.
Lemma ws_good_step e c : good c (step filter_ answer e c).
Proof.
  destruct e; cbn [step].
  - apply good_clock.
  - destruct (Send _ _ _ _ _ c) as [r c'] eqn:ES. by destruct (Send_spec _ _ _ _ _ _ _ _ ES).
  - unfold Subscribe. destruct (validateSubscribeOptions opts); [apply ws_good_refl|]. cbn [fresh snd]. set (c1 := set_metrics _ _).
    apply (ws_good_trans _ c1); [frame|]. destruct (connected c1); [apply ws_good_subscribe|apply ws_good_refl].
  - unfold UnSubscribe. destruct (subs c !! id); [|apply ws_good_refl]. cbn [fresh]. destruct (_ != _); [|frame].
    destruct (connected _); [|frame]. eapply ws_good_trans; [|apply good_write]. frame.
  - apply good_connect.
  - unfold reconnect. destruct (_ || _); [apply ws_good_refl|]. destruct (connected c); [frame|].
    pose proof (good_connect dialed outcomes c) as G. destruct (connect dialed outcomes c) as [[] c1]; cbn [snd] in G; [|done].
    eapply ws_good_trans; [exact G|frame].
  - apply good_drain.
  - unfold dispatchFrame. destruct (_ == _); [|destruct (_ == _); [apply good_write|apply ws_good_refl]].
    unfold deliverToSubscribers. cbn [snd]. eapply ws_good_trans; [|apply ws_good_tally].
    destruct (first_answer _ _ _ _) as [[]|]; try apply good_write. apply ws_good_refl.
  - unfold read_error. destruct (a_closed c); [apply ws_good_refl|frame].
  - unfold Close. destruct (a_closed c); [apply ws_good_refl|frame].
Qed.
Lemma ws_good_run es c : good c (run filter_ answer es c).
Proof.
  revert c. induction es as [|e es IH]; intros c; [apply ws_good_refl|].
  eapply ws_good_trans; [apply ws_good_step|apply IH].
Qed.
Lemma ws_initial_inv t : inv (newWebSocketAntClient t).
Proof.
  split; cbn; try (intros; by match goal with H : _ ∈ [] |- _ => apply elem_of_nil in H end); [done|lia].
Qed.
End Ant.

Section Ants.
Import WsAnt.
Context `{Disk, Ids, RangeOrder} (filter_ : string -> MessageEvent -> bool) (answer : string -> MessageEvent -> option bool).

(** C23: a message that an ant's client accepts is accounted for, whether the ant
    is connected or not and whatever the network and the disk do.  At any later
    time the queen's answer to the frame that published it has arrived and is no
    error frame, or it was stored as a row, and that row
    - is still in the ant's buffer with the message,
    - or was sent on in a frame with the message, to which an answer of the queen
      has arrived,
    - or the time for which messages are kept had passed when it was removed,
    - or was sent on in a frame with the message, and the connection was lost
      while its answer was awaited.
    So a message is given up although the queen may not have it in two cases only:
    when the connection is lost while a row is sent on, and when the answer to it
    is an error, which the code does not test there. *)
Theorem accepted_message_is_accounted_for t es ctx topic payload props o es' n c
  (accepted : Send ctx topic payload props o (run filter_ answer es (newWebSocketAntClient t)) = (inl n, c)) :
  let c' := run filter_ answer es' c in
  (exists f resp, publishes f topic payload /\ f_ID f = ulid n /\ Replied f resp ∈ record c' /\ Type_ resp <> WSFrameError) \/
  exists row stored_at,
    Stored n row topic payload stored_at ∈ record c' /\
    ((exists r, r ∈ rows (buffer c') /\ row_id r = row /\ r_topic r = topic /\ r_payload r = payload) \/
     (exists f resp, Forwarded row f ∈ record c' /\ publishes f topic payload /\ Replied f resp ∈ record c') \/
     (exists gone t', Expired gone t' ∈ record c' /\ row ∈ gone /\ Containers.Unix (stored_at + ttl) <= Containers.Unix t') \/
     (exists f, Forwarded row f ∈ record c' /\ publishes f topic payload /\ Broken f ∈ record c')).
Proof.
  cbv zeta. destruct (ws_good_run filter_ answer es _ (ws_initial_inv t)) as [I _].
  destruct (Send_spec _ _ _ _ _ _ _ _ accepted) as [G HS]. destruct (G I) as [I1 _].
  destruct (ws_good_run filter_ answer es' c I1) as [I2 G2].
  destruct (HS n eq_refl) as [(f & resp & HP & HI & HR & HE)|(row & t0 & HR)].
  { left. exists f, resp. by split_and!; [| |eapply grows_in|]. }
  right. apply (grows_in _ _ _ G2) in HR. exists row, t0. split; [done|].
  destruct (inv_fate _ I2 _ _ _ _ _ HR) as [(r & Hr & <-)|[(f & HF & HP & [[resp HA]|HA])|(g & t' & ? & ? & ?)]].
  - left. exists r. destruct (inv_rows _ I2 r Hr) as (_ & t' & (n' & HR') & _). by destruct (inv_unique _ I2 _ _ _ _ _ _ _ _ _ HR HR') as (-> & -> & _).
  - right; left. by exists f, resp.
  - do 3 right. by exists f.
  - do 2 right; left. by exists g, t'.
Qed.

(** At every time the ant's buffer holds at most the configured number of
    messages that have not expired. *)
Theorem offline_buffer_is_bounded t es :
  let c := run filter_ answer es (newWebSocketAntClient t) in
  Z.of_nat (List.length (List.filter (alive (Containers.Unix (now c))) (rows (buffer c)))) <= Z.max 0 maxSize.
Proof. cbv zeta. apply inv_bound. by apply (ws_good_run filter_ answer es _ (ws_initial_inv t)). Qed.
End Ants.

(** ** The queen *)
Section Server.
Import WsServer.
Context `{Channel.Users, Tokens, RangeOrder}.

(** Steps of callbacks leave connections and topics alone. *)
Definition still (s s' : Server) : Prop := connections s' = connections s /\ objects s' = objects s /\ topics s' = topics s /\ now s' = now s.
Lemma still_refl s : still s s.
Proof. done. Qed.
Lemma still_trans s1 s2 s3 : still s1 s2 -> still s2 s3 -> still s1 s3.
Proof. intros (A & B & C & D) (E & F & G & I). unfold still. by rewrite E, F, G, I. Qed.
Lemma still_settle counts topic g s : still s (settle counts topic g s).
Proof. unfold settle. destruct counts; [|done]. by destruct g. Qed.
Lemma still_signals counts topic gs s : still s (foldl (fun s g => settle counts topic g s) s gs).
Proof. revert s. induction gs as [|g gs IH]; intros s; [done|]. eapply still_trans; [apply still_settle|apply IH]. Qed.
Lemma still_invoke counts id kind e s : still s (snd (invoke counts id kind e s)).
Proof.
  unfold invoke. cbn [fresh]. set (s1 := hear _ _ _). apply (still_trans _ s1); [done|]. destruct kind as [|call].
  - destruct (Channel.handle _ e) as [gs b]. apply still_signals.
  - cbn [snd]. unfold on_response. repeat case_match; try done; try apply still_settle. eapply still_trans; [|apply still_settle]. done.
Qed.
Lemma still_notify counts t e s : still s (snd (notify_local counts t e s)).
Proof.
  unfold notify_local, Mx.Notify. destruct (objects s !! t) as [w|]; [|done]. generalize (range (mx w)) 0%nat. generalize (now s). intros n l k.
  revert k s. induction l as [|[id en] l IH]; intros k s; [done|]. cbn [Mx.notify]. destruct (Mx.wants en e).
  - destruct (Channel.wanted id e); [|apply IH]. pose proof (still_invoke counts id (Mx.callback en) e s) as HI.
    destruct (invoke _ _ _ _ s) as [[] s1]; [done|]. eapply still_trans; [exact HI|apply IH].
  - eapply still_trans; [|apply IH]. destruct (Mx.too_old _ _ _); [|done]. by destruct counts.
Qed.

Lemma send_remotes_frames l f k s x cn :
  connections s !! x = Some cn -> (List.length (sendCh cn) <= sendCapacity)%nat ->
  exists cn', connections (snd (send_remotes l f k s)) !! x = Some cn' /\
    sendCh cn' = sendCh cn ++ replicate (Nat.min (List.length (List.filter (fun ix => (snd ix =? x)%nat) l)) (sendCapacity - List.length (sendCh cn))) f.
Proof.
  revert k s cn. induction l as [|[id y] l IH]; intros k s cn HC HL; cbn [send_remotes].
  { exists cn. split; [done|]. by rewrite app_nil_r. }
  cbn [List.filter snd]. unfold send_to. destruct (y =? x)%nat eqn:EX.
  - apply Nat.eqb_eq in EX. subst y. rewrite HC. unfold send. destruct (_ <? _)%nat eqn:EL.
    + apply Nat.ltb_lt in EL. set (cn1 := mkConn _ _ _ _). destruct (IH (S k) (set_connections (<[x := cn1]> (connections s)) s) cn1) as (cn' & HC' & ES).
      * cbn. by rewrite lookup_insert_eq.
      * cbn. rewrite length_app. cbn. lia.
      * exists cn'. split; [exact HC'|]. rewrite ES. subst cn1. cbn [sendCh List.length]. rewrite <- app_assoc. f_equal. rewrite length_app. cbn [List.length].
        set (n := List.length (List.filter _ l)). replace (Nat.min (S n) (sendCapacity - List.length (sendCh cn)))
          with (S (Nat.min n (sendCapacity - (List.length (sendCh cn) + 1)))) by lia. done.
    + apply Nat.ltb_ge in EL. destruct (IH k (set_connections (<[x := cn]> (connections s)) s) cn) as (cn' & HC' & ES); [cbn; by rewrite lookup_insert_eq|done|].
      exists cn'. split; [exact HC'|]. rewrite ES. f_equal. f_equal. lia.
  - apply Nat.eqb_neq in EX. destruct (connections s !! y) as [cy|]; [|by apply IH]. destruct (send f cy) as [ok cy'].
    apply IH; [|done]. cbn. by rewrite lookup_insert_ne.
Qed.

(** A message of the queen goes to an ant once for each subscription of its
    connection to the topic, as long as the queue of the connection has room. *)
Theorem one_frame_per_subscription topic payload props s id s' t w x cn :
  Send false topic payload props s = (inl id, s') ->
  topics s !! topic = Some t -> objects s !! t = Some w -> connections s !! x = Some cn -> (List.length (sendCh cn) <= sendCapacity)%nat ->
  exists cn', connections s' !! x = Some cn' /\
    sendCh cn' = sendCh cn ++ replicate (Nat.min (List.length (List.filter (fun ix => (snd ix =? x)%nat) (range (remoteSubs w))))
                                         (sendCapacity - List.length (sendCh cn))) (newPublishFrame (now s) id topic payload props).
Proof.
  intros HS HT HW HC HL. unfold Send in HS. destruct (validateSendRequest _ _ _ _); [done|]. cbn [fresh] in HS. cbv zeta in HS.
  unfold getOrCreateTopic in HS. cbn [topics tally set_collector set_next] in HS. rewrite HT in HS.
  set (s1 := tally _ _ _ _ _ _) in HS. set (e := mkMessageEvent _ _ _ _ _ _ _ _) in HS.
  pose proof (still_notify true t e s1) as (E1 & E2 & _ & E4). destruct (notify_local true t e s1) as [sent s2]. cbn [snd] in *.
  assert (objects s2 !! t = Some w) as HW' by (rewrite E2; exact HW). rewrite HW' in HS.
  assert (connections s2 !! x = Some cn) as HC' by (rewrite E1; exact HC).
  assert (now s2 = now s) as EN by (rewrite E4; done). rewrite EN in HS.
  destruct (send_remotes_frames (range (remoteSubs w)) (newPublishFrame (now s) (Channel.ulid (next s)) topic payload props) sent s2 x cn HC' HL) as (cn' & H1' & H2').
  destruct (send_remotes _ _ sent s2) as [sent' s3]. cbn [snd] in *. injection HS as <- <-.
  exists cn'. split; [by destruct (sent' =? 0)%nat|exact H2'].
Qed.
End Server.

(** ** Concrete ants and queens *)
Module WsDemo.
Definition id_of (n : nat) : string := QueueSpec.QueueDemo.id_of n.
#[local] Instance disk : Disk :=
  {| to_json := fun _ => ""; of_json := fun _ => Some ∅; sql_fails := fun _ => false; maxSize := 2; ttl := 60 * 1000000000 |}.
#[local] Instance ids : WsAnt.Ids := {| WsAnt.ulid := id_of; WsAnt.MaxMessageSize := 1000 |}.
#[local] Instance users : Channel.Users := QueueSpec.QueueDemo.acking.
#[local] Instance tokens : WsServer.Tokens := {| WsServer.JWTSecret := ""; WsServer.Token := "secret"; WsServer.ParseToken := fun _ _ => None |}.
Definition all (_ : string) (_ : MessageEvent) : bool := true.
Definition silent (_ : string) (_ : MessageEvent) : option bool := None.
Abbreviation ant_run := (WsAnt.run all silent).
Definition acked : WsAnt.outcome := WsAnt.Answered (newAckFrame 0 "x").
Definition ant0 : WsAnt.Client := WsAnt.newWebSocketAntClient 0.
Abbreviation offline := [WsAnt.DoSend false "results" "one" ∅ WsAnt.TimedOut].

Lemma accepted_message_is_accounted_for_witness :
  let c := snd (WsAnt.Send false "results" "one" ∅ WsAnt.TimedOut ant0) in
  let c' := ant_run [WsAnt.Connect true []; WsAnt.Drain 1 acked; WsAnt.Drain 1 acked] c in
  WsAnt.record c' <> [] /\
  ((exists f resp, publishes f "results" "one" /\ f_ID f = WsAnt.ulid 0 /\ WsAnt.Replied f resp ∈ WsAnt.record c' /\ Type_ resp <> WSFrameError) \/
   exists row t0, WsAnt.Stored 0 row "results" "one" t0 ∈ WsAnt.record c' /\
    ((exists r, r ∈ rows (WsAnt.buffer c') /\ row_id r = row /\ r_topic r = "results" /\ r_payload r = "one") \/
     (exists f resp, WsAnt.Forwarded row f ∈ WsAnt.record c' /\ publishes f "results" "one" /\ WsAnt.Replied f resp ∈ WsAnt.record c') \/
     (exists gone t', WsAnt.Expired gone t' ∈ WsAnt.record c' /\ row ∈ gone /\ Containers.Unix (t0 + ttl) <= Containers.Unix t') \/
     (exists f, WsAnt.Forwarded row f ∈ WsAnt.record c' /\ publishes f "results" "one" /\ WsAnt.Broken f ∈ WsAnt.record c'))).
Proof.
  cbv zeta. split; [vm_compute; discriminate|].
  refine (accepted_message_is_accounted_for all silent 0 [] false "results" "one" ∅ WsAnt.TimedOut
    [WsAnt.Connect true []; WsAnt.Drain 1 acked; WsAnt.Drain 1 acked] 0 _ _).
  vm_compute. reflexivity.
Defined.

(** A connection that is lost while a message of the buffer waits for its answer
    is taken for an answer: the message is deleted and never arrives. *)
Example lost_connection_loses_the_message :
  let c := ant_run (offline ++ [WsAnt.Connect true []; WsAnt.Drain 1 acked; WsAnt.Drain 1 WsAnt.ConnectionLost]) ant0 in
  let f := newPublishFrame 0 (id_of 2) "results" "one" ∅ in
  WsAnt.record c = [WsAnt.Stored 0 1 "results" "one" 0; WsAnt.Expired [] 0; WsAnt.Broken f; WsAnt.Forwarded 1 f] /\ rows (WsAnt.buffer c) = [].
Proof. vm_compute. split; reflexivity. Qed.

(** A message that is stored because its acknowledgement did not come stays in
    the buffer of a connected ant: only a new connection starts a drain. *)
Example stored_message_waits_for_a_disconnect :
  let c := ant_run [WsAnt.Connect true []; WsAnt.Drain 0 acked; WsAnt.DoSend false "results" "one" ∅ WsAnt.TimedOut; WsAnt.Drain 0 acked] ant0 in
  WsAnt.connected c = true /\ WsAnt.drains c = ∅ /\ List.length (rows (WsAnt.buffer c)) = 1%nat.
Proof. vm_compute. split_and!; reflexivity. Qed.

(** Rows that have expired are not counted, and only a drain deletes them. *)
Example expired_rows_pile_up :
  let es := [WsAnt.DoSend false "results" "a" ∅ acked; WsAnt.DoSend false "results" "b" ∅ acked] in
  List.length (rows (WsAnt.buffer (ant_run (es ++ [WsAnt.Clock (61 * 1000000000)] ++ es ++ [WsAnt.Clock (122 * 1000000000)] ++ es) ant0))) = 6%nat.
Proof. vm_compute. reflexivity. Qed.

(** Ending a subscription is never told to the queen. *)
Definition subscribed : WsAnt.outcome := WsAnt.Answered (newSubscribeAckFrame 0 "x" "server-sub").
Definition jobs : SubscribeOptions := mkSubscribeOptions "jobs" false true "" ∅.
Example unsubscribe_is_not_sent :
  let c := ant_run [WsAnt.Connect true []; WsAnt.DoSubscribe jobs subscribed; WsAnt.DoUnSubscribe "jobs" (id_of 1) false] ant0 in
  WsAnt.subs c = ∅ /\ WsAnt.subsByServerID c !! "server-sub" = Some (id_of 1) /\ map Type_ (WsAnt.written c) = [WSFrameSubscribe].
Proof. vm_compute. split_and!; reflexivity. Qed.

(** An ant with two subscriptions to a topic gets each message in two frames,
    and each frame goes to both. *)
Definition queen : WsServer.Server := snd (WsServer.HTTPHandler "Bearer secret" true (WsServer.newWebSocketServerClient 0)).
Definition sub_frame (id : string) : WSFrame := newSubscribeFrame 0 id "jobs" "" false.
Definition queen2 : WsServer.Server := WsServer.handleFrame 0 (sub_frame "b") (WsServer.handleFrame 0 (sub_frame "a") queen).
Definition frames_to (x : nat) (s : WsServer.Server) : list WSFrame :=
  List.filter (fun f => Type_ f == WSFramePublish) (match WsServer.connections s !! x with Some cn => WsServer.sendCh cn | None => [] end).
Definition ant2 : WsAnt.Client :=
  ant_run [WsAnt.Connect true []; WsAnt.DoSubscribe jobs subscribed; WsAnt.DoSubscribe jobs subscribed] ant0.
Example two_subscriptions_get_four_messages :
  let frames := frames_to 0 (snd (WsServer.Send false "jobs" "work" ∅ queen2)) in
  List.length frames = 2%nat /\
  List.length (concat (map (fun f => fst (WsAnt.deliverToSubscribers all silent f false ant2)) frames)) = 4%nat.
Proof. vm_compute. split; reflexivity. Qed.

(** What one ant publishes, another ant that has subscribed does not get. *)
Definition queen_two_ants : WsServer.Server :=
  WsServer.handleFrame 1 (sub_frame "a") (snd (WsServer.HTTPHandler "Bearer secret" true queen)).
Example ants_do_not_hear_each_other :
  frames_to 1 (WsServer.handleFrame 0 (newPublishFrame 0 "p" "jobs" "work" ∅) queen_two_ants) = [].
Proof. vm_compute. reflexivity. Qed.

(** A topic that loses its last subscriber between the two parts of an ant's
    subscription takes the subscription with it, although it is confirmed. *)
Example confirmed_subscription_gets_nothing :
  let s := snd (WsServer.Subscribe jobs queen) in
  let s := WsServer.begin_subscribe 0 (sub_frame "a") s in
  let s := WsServer.UnSubscribe "jobs" (id_of 1) s in
  let s := WsServer.end_subscribe 3 s in
  (map Type_ <$> (WsServer.sendCh <$> WsServer.connections s !! 0%nat)) = Some [WSFrameSubscribeAck] /\
  frames_to 0 (snd (WsServer.Send false "jobs" "work" ∅ s)) = [].
Proof. vm_compute. split; reflexivity. Qed.

(** A subscription that is entered after its connection was removed stays, and
    its messages count as sent. *)
Example removed_connection_keeps_a_subscription :
  let s := WsServer.begin_subscribe 0 (sub_frame "a") queen in
  let s := WsServer.end_subscribe 1 (WsServer.removeConn 0 s) in
  WsServer.conns s = ∅ /\ List.length (frames_to 0 (snd (WsServer.Send false "jobs" "work" ∅ s))) = 1%nat.
Proof. vm_compute. split; reflexivity. Qed.

Example ant_needs_the_token :
  WsServer.authenticate "Bearer wrong" = Some WsServer.BadToken /\ WsServer.authenticate "secret" = Some WsServer.NoBearer /\
  WsServer.authenticate "Bearer secret" = None.
Proof. vm_compute. split_and!; reflexivity. Qed.
End WsDemo.
