(* ===== verification/Gateway.v ===== *)
(** * Gateway: events for the web clients of the queen

    Models [src/queen/gateway]: the subscription of a WebSocket client
    ([lease.go], [Module Leases]), the registry with its three indexes
    ([lease_registry.go], [Module Registry]), and the gateway that fills it from
    the clients' messages, empties it when a client leaves or is silent, and
    forwards the queue's events ([websocket_gateway.go],
    [event_subscriptions.go], [Module Gw]).

    Leases are objects: the registry holds pointers, a goroutine may hold a
    pointer after its removal from the registry.  Registry operations run under
    one lock and are atomic; between them the goroutines (one per connection, one
    per notification, the reaper) interleave freely, which is what
    [Gw.step] lets them do.  The network decides what is read and whether a write
    succeeds. *)

From Stdlib Require Import Ascii.
From S2P Require Import Prelude Resource.

Open Scope Z_scope.

(** ** Leases *)
Module Leases.
(** The remote end of a connection and its printed form ([net.TCPAddr]). *)
Record TCPAddr := mkTCPAddr { IP : string; Port : Z }.
Definition JoinHostPort (host port : string) : string :=
  if string_mem ":"%char host || string_mem "%"%char host then "[" +:+ host +:+ "]:" +:+ port else host +:+ ":" +:+ port.
Definition Addr_String (a : TCPAddr) : string := JoinHostPort (IP a) (itoa (Port a)).
(** IP addresses have digits, dots, colons and a zone, and no brackets. *)
Definition ip_ok (a : TCPAddr) : bool := negb (string_mem "["%char (IP a)) && negb (string_mem "]"%char (IP a)).

Record Conn := mkConn { conn_id : nat; RemoteAddr : TCPAddr }.

Record SubscriptionLease := mkLease {
  EventType : string;
  EventScope : string;
  userID : string;
  updatedAt : Z;
  connection : option Conn;
  done_closed : bool;
  lock : option nat
}.

Definition EventKey (address userID eventType eventScope : string) : string :=
  address +:+ "::" +:+ userID +:+ "::" +:+ eventType +:+ "::" +:+ eventScope.
Definition Address (l : SubscriptionLease) : string :=
  match connection l with Some c => Addr_String (RemoteAddr c) | None => "" end.
Definition Key (l : SubscriptionLease) : string := EventKey (Address l) (userID l) (EventType l) (EventScope l).
Definition KeyWithoutAddress (l : SubscriptionLease) : string := EventKey "" (userID l) (EventType l) (EventScope l).

Definition Validate (l : SubscriptionLease) : option string :=
  if String.eqb (EventType l) "" then Some "event-type is not specified"
  else match connection l with None => Some "connection is not specified" | Some _ => None end.

(** A message of a client, after [json.Unmarshal] ([None] when that fails). *)
Definition UnmarshalSubscriptionLease (b : option (string * string)) (conn : Conn) : SubscriptionLease + string :=
  match b with
  | None => inr "invalid JSON"
  | Some (eventType, eventScope) =>
      let l := mkLease eventType eventScope "" 0 (Some conn) false None in
      match Validate l with Some e => inr e | None => inl l end
  end.

Definition set_updatedAt (t : Z) (l : SubscriptionLease) : SubscriptionLease :=
  mkLease (EventType l) (EventScope l) (userID l) t (connection l) (done_closed l) (lock l).
Definition set_userID (u : string) (l : SubscriptionLease) : SubscriptionLease :=
  mkLease (EventType l) (EventScope l) u (updatedAt l) (connection l) (done_closed l) (lock l).
Definition set_lock (k : nat) (l : SubscriptionLease) : SubscriptionLease :=
  mkLease (EventType l) (EventScope l) (userID l) (updatedAt l) (connection l) (done_closed l) (Some k).
Definition set_done (l : SubscriptionLease) : SubscriptionLease :=
  mkLease (EventType l) (EventScope l) (userID l) (updatedAt l) (connection l) true (lock l).
End Leases.

(** ** The registry *)
Module Registry.
Import Leases.

(** The lease objects and the sockets closed so far are kept beside the maps of
    the struct; [fresh] numbers objects and mutexes. *)
Record LeaseRegistry := mkRegistry {
  objects : gmap nat SubscriptionLease;
  closed : gset nat;
  fresh : nat;
  leasesByKey : gmap string nat;
  keysByUserAndEventType : gmap string (gset string);
  keysByAddresses : gmap string (gset string);
  locksByAddresses : gmap string nat
}.
Definition NewLeaseRegistry : LeaseRegistry := mkRegistry ∅ ∅ 0 ∅ ∅ ∅ ∅.

Definition set_object (p : nat) (l : SubscriptionLease) (r : LeaseRegistry) : LeaseRegistry :=
  mkRegistry (<[p := l]> (objects r)) (closed r) (fresh r) (leasesByKey r) (keysByUserAndEventType r) (keysByAddresses r) (locksByAddresses r).
Definition set_closed (c : nat) (r : LeaseRegistry) : LeaseRegistry :=
  mkRegistry (objects r) ({[c]} ∪ closed r) (fresh r) (leasesByKey r) (keysByUserAndEventType r) (keysByAddresses r) (locksByAddresses r).
Definition set_leases (m : gmap string nat) (r : LeaseRegistry) : LeaseRegistry :=
  mkRegistry (objects r) (closed r) (fresh r) m (keysByUserAndEventType r) (keysByAddresses r) (locksByAddresses r).
Definition set_byEvent (m : gmap string (gset string)) (r : LeaseRegistry) : LeaseRegistry :=
  mkRegistry (objects r) (closed r) (fresh r) (leasesByKey r) m (keysByAddresses r) (locksByAddresses r).
Definition set_byAddress (m : gmap string (gset string)) (r : LeaseRegistry) : LeaseRegistry :=
  mkRegistry (objects r) (closed r) (fresh r) (leasesByKey r) (keysByUserAndEventType r) m (locksByAddresses r).
Definition set_locks (m : gmap string nat) (r : LeaseRegistry) : LeaseRegistry :=
  mkRegistry (objects r) (closed r) (fresh r) (leasesByKey r) (keysByUserAndEventType r) (keysByAddresses r) m.
(** A new object, with the pointer to it. *)
Definition new_object (l : SubscriptionLease) (r : LeaseRegistry) : nat * LeaseRegistry :=
  (fresh r, mkRegistry (<[fresh r := l]> (objects r)) (closed r) (S (fresh r)) (leasesByKey r) (keysByUserAndEventType r)
              (keysByAddresses r) (locksByAddresses r)).
Definition new_mutex (r : LeaseRegistry) : nat * LeaseRegistry :=
  (fresh r, mkRegistry (objects r) (closed r) (S (fresh r)) (leasesByKey r) (keysByUserAndEventType r) (keysByAddresses r) (locksByAddresses r)).

(** A call returns the registry with an error or none, or panics. *)
Inductive outcome := Returns (r : LeaseRegistry) (err : option string) | Panics.

Definition is_open (r : LeaseRegistry) (l : SubscriptionLease) : bool :=
  match connection l with Some c => bool_decide (conn_id c ∉ closed r) | None => false end.

(** [Some ok] when the payload is written ([network] willing) or an error
    returned, [None] for the panic on a lease without a lock. *)
Definition WriteMessage (network : bool) (r : LeaseRegistry) (l : SubscriptionLease) : option bool :=
  match lock l with None => None | Some _ => Some (is_open r l && network) end.

(** Closing a closed channel panics, which is recovered before the socket is
    closed; the mutex is taken outside the recovery. *)
Definition Close (p : nat) (l : SubscriptionLease) (r : LeaseRegistry) : option LeaseRegistry :=
  match lock l with
  | None => None
  | Some _ =>
      if done_closed l then Some r
      else
        let r := set_object p (set_done l) r in
        Some (match connection l with Some c => set_closed (conn_id c) r | None => r end)
  end.

(** [keys[k] = true] on an entry that may be missing. *)
Definition index_add (e k : string) (m : gmap string (gset string)) : gmap string (gset string) :=
  <[e := {[k]} ∪ default ∅ (m !! e)]> m.
(** The entry without [k], and whether it is gone. *)
Definition index_remove (e k : string) (m : gmap string (gset string)) : gmap string (gset string) * bool :=
  match m !! e with
  | None => (m, false)
  | Some keys =>
      let keys := keys ∖ {[k]} in
      if bool_decide (keys = ∅) then (delete e m, true) else (<[e := keys]> m, false)
  end.

Definition Add (now : Z) (lease : option nat) (r : LeaseRegistry) : outcome :=
  match lease ≫= fun p => (p,.) <$> objects r !! p with
  | None => Returns r (Some "lease not specified")
  | Some (p, l) =>
      match Validate l with
      | Some e => Returns r (Some e)
      | None =>
          let '(leaseLock, r) :=
            match locksByAddresses r !! Address l with
            | Some k => (k, r)
            | None => let '(k, r) := new_mutex r in (k, set_locks (<[Address l := k]> (locksByAddresses r)) r)
            end in
          match leasesByKey r !! Key l ≫= fun q => (q,.) <$> objects r !! q with
          | Some (q, old) => Returns (set_object q (set_updatedAt now old) r) None
          | None =>
              let r := set_object p (set_lock leaseLock (set_updatedAt now l)) r in
              let r := set_leases (<[Key l := p]> (leasesByKey r)) r in
              let r := set_byEvent (index_add (KeyWithoutAddress l) (Key l) (keysByUserAndEventType r)) r in
              Returns (set_byAddress (index_add (Address l) (Key l) (keysByAddresses r)) r) None
          end
      end
  end.

Definition Remove (lease : option nat) (r : LeaseRegistry) : outcome :=
  match lease ≫= fun p => (p,.) <$> objects r !! p with
  | None => Returns r (Some "lease not specified")
  | Some (p, l) =>
      match Validate l with
      | Some e => Returns r (Some e)
      | None =>
          match Close p l r with
          | None => Panics
          | Some r =>
              let r := set_leases (delete (Key l) (leasesByKey r)) r in
              let r := set_byEvent (index_remove (KeyWithoutAddress l) (Key l) (keysByUserAndEventType r)).1 r in
              let '(m, gone) := index_remove (Address l) (Key l) (keysByAddresses r) in
              let r := set_byAddress m r in
              Returns (if gone then set_locks (delete (Address l) (locksByAddresses r)) r else r) None
          end
      end
  end.

(** The pointers behind an index's keys; keys without a lease leave the index. *)
Definition leases_of (keys : gset string) (r : LeaseRegistry) : list nat := omap (fun k => leasesByKey r !! k) (elements keys).
Definition live_keys (keys : gset string) (r : LeaseRegistry) : gset string := filter (fun k => is_Some (leasesByKey r !! k)) keys.
Definition getAllLeases (r : LeaseRegistry) : list nat := (map_to_list (leasesByKey r)).*2.
Definition getLeasesByAddress (address : string) (r : LeaseRegistry) : list nat * LeaseRegistry :=
  match keysByAddresses r !! address with
  | None => ([], r)
  | Some keys =>
      (leases_of keys r,
       if bool_decide (live_keys keys r = keys) then r else set_byAddress (<[address := live_keys keys r]> (keysByAddresses r)) r)
  end.
Definition getLeasesByUserAndEventTypeScope (userID eventType eventScope : string) (r : LeaseRegistry) : list nat * LeaseRegistry :=
  let eventKey := EventKey "" userID eventType eventScope in
  match keysByUserAndEventType r !! eventKey with
  | None => ([], r)
  | Some keys =>
      (leases_of keys r,
       if bool_decide (live_keys keys r = keys) then r else set_byEvent (<[eventKey := live_keys keys r]> (keysByUserAndEventType r)) r)
  end.
End Registry.

(** ** The gateway *)
Module Gw.
Import Leases Registry.

(** *** Events of the queue *)
Inductive GatewayEvent :=
  | JobDefinitionLifecycle (user : string)
  | JobRequestLifecycle (user : string)
  | JobExecutionLifecycle (user : string)
  | TaskExecutionLifecycle (user jobRequestID : string)
  | LogMessage (user jobRequestID : string)
  | HealthError
  | ContainerLifecycle (user : string).

(** *** Goroutines *)
(** The one of a connection: it reads, with a count of control messages; its
    deferred call is due; it removes the leases of its address; it is done. *)
Inductive handler := Reading (controlTries : nat) | Returned | Leaving (leases : list nat) | Gone.
Record client := mkClient { ws : Conn; phase : handler }.
(** The one of a notification, with the leases still to be written. *)
Record writer := mkWriter { w_user : string; w_type : string; w_scope : string; w_payload : string; w_leases : list nat }.
(** A payload written to a socket, and a subscription accepted from one. *)
Record delivery := mkDelivery { d_conn : nat; d_user : string; d_type : string; d_scope : string; d_payload : string }.
Record registration := mkRegistration { g_conn : nat; g_user : string; g_type : string; g_scope : string }.

Record Gateway := mkGateway {
  registry : LeaseRegistry;
  clients : list client;
  reaper : option (Z * list nat);
  writers : list writer;
  archive : list GatewayEvent;
  delivered : list delivery;
  registered : list registration;
  refused : list nat;
  crashed : bool
}.
Definition New : Gateway := mkGateway NewLeaseRegistry [] None [] [] [] [] [] false.

Definition set_registry (r : LeaseRegistry) (g : Gateway) : Gateway :=
  mkGateway r (clients g) (reaper g) (writers g) (archive g) (delivered g) (registered g) (refused g) (crashed g).
Definition set_clients (l : list client) (g : Gateway) : Gateway :=
  mkGateway (registry g) l (reaper g) (writers g) (archive g) (delivered g) (registered g) (refused g) (crashed g).
Definition set_phase (c : nat) (h : handler) (g : Gateway) : Gateway :=
  set_clients (alter (fun x => mkClient (ws x) h) c (clients g)) g.
Definition set_reaper (x : option (Z * list nat)) (g : Gateway) : Gateway :=
  mkGateway (registry g) (clients g) x (writers g) (archive g) (delivered g) (registered g) (refused g) (crashed g).
Definition set_writers (m : list writer) (g : Gateway) : Gateway :=
  mkGateway (registry g) (clients g) (reaper g) m (archive g) (delivered g) (registered g) (refused g) (crashed g).
Definition set_archive (l : list GatewayEvent) (g : Gateway) : Gateway :=
  mkGateway (registry g) (clients g) (reaper g) (writers g) l (delivered g) (registered g) (refused g) (crashed g).
Definition deliver (d : delivery) (g : Gateway) : Gateway :=
  mkGateway (registry g) (clients g) (reaper g) (writers g) (archive g) (delivered g ++ [d]) (registered g) (refused g) (crashed g).
Definition register (x : registration) (g : Gateway) : Gateway :=
  mkGateway (registry g) (clients g) (reaper g) (writers g) (archive g) (delivered g) (registered g ++ [x]) (refused g) (crashed g).
(** The error event for a client without a session, written past the lock. *)
Definition refuse (c : nat) (g : Gateway) : Gateway :=
  mkGateway (registry g) (clients g) (reaper g) (writers g) (archive g) (delivered g) (registered g) (refused g ++ [c]) (crashed g).
Definition crash (g : Gateway) : Gateway :=
  mkGateway (registry g) (clients g) (reaper g) (writers g) (archive g) (delivered g) (registered g) (refused g) true.

(** What [ReadMessage] returns, with the user the session of the connection
    gives at that time ([None] for no valid session). *)
Inductive incoming := ReadError | Message (msgType : Z) (body : option (string * string)) (session : option string).
Definition TextMessage : Z := 1.
Definition BinaryMessage : Z := 2.

(** What can happen next.  The goroutine that works through a list may take any
    of its elements: the order of a map's keys is not specified. *)
Inductive event :=
  | Connect (a : TCPAddr)
  | Receive (c : nat) (now : Z) (m : incoming)
  | Unwind (c : nat)
  | DropLease (c i : nat)
  | Reap (now : Z)
  | ReapLease (i : nat)
  | Notice (ev : option GatewayEvent) (payload : string) (saved : bool)
  | WriteLease (w i : nat) (network : bool).

Section Gateway.
Context (AuthEnabled : bool) (OrphanRequestsTimeout : Z).

Definition handleRegistration (c : nat) (x : client) (controlTries : nat) (now : Z) (m : incoming) (g : Gateway) : Gateway :=
  match m with
  | ReadError => set_phase c Returned g
  | Message msgType body session =>
      if (controlTries <? 10)%nat && negb (msgType =? TextMessage) && negb (msgType =? BinaryMessage) then
        set_phase c (Reading (S controlTries)) g
      else if (10 <=? controlTries)%nat then set_phase c Returned g
      else
        let g := set_phase c (Reading 0) g in
        match UnmarshalSubscriptionLease body (ws x) with
        | inr _ => set_phase c Returned g
        | inl lease =>
            match (if AuthEnabled then session else Some (userID lease)) with
            | None => set_phase c Returned (refuse (conn_id (ws x)) g)
            | Some u =>
                let lease := set_userID u lease in
                let '(p, r) := new_object lease (registry g) in
                match Add now (Some p) r with
                | Panics => crash g
                | Returns r (Some _) => set_phase c Returned (set_registry r g)
                | Returns r None =>
                    register (mkRegistration (conn_id (ws x)) u (EventType lease) (EventScope lease)) (set_registry r g)
                end
            end
        end
  end.

(** [Remove], its error ignored by every caller. *)
Definition remove_lease (p : nat) (g : Gateway) : Gateway :=
  match Remove (Some p) (registry g) with Panics => crash g | Returns r _ => set_registry r g end.

Definition is_stale (now : Z) (l : SubscriptionLease) : bool :=
  OrphanRequestsTimeout <? wrap64 (wrap64 (Containers.Unix now - Containers.Unix (updatedAt l)) * 1000000000).
(** One round of the loop of [reapStaleLeases]. *)
Definition reap_lease (now : Z) (p : nat) (g : Gateway) : Gateway :=
  match objects (registry g) !! p with
  | Some l => if is_stale now l then remove_lease p g else g
  | None => g
  end.

Definition Notify (user eventType eventScope payload : string) (g : Gateway) : Gateway :=
  let '(leases, r) := getLeasesByUserAndEventTypeScope user eventType eventScope (registry g) in
  let g := set_registry r g in
  match leases with
  | [] => g
  | _ => set_writers (writers g ++ [mkWriter user eventType eventScope payload leases]) g
  end.

(** The callbacks of the subscriptions, for a payload that decodes. *)
Definition subscribeToJobDefinitionLifecycleEvent (user payload : string) : Gateway -> Gateway := Notify user "JobDefinitionLifecycleEvent" "" payload.
Definition subscribeToJobRequestLifecycleEvent (user payload : string) : Gateway -> Gateway := Notify user "JobRequestLifecycleEvent" "" payload.
Definition subscribeToJobExecutionLifecycleEvent (user payload : string) : Gateway -> Gateway := Notify user "JobExecutionLifecycleEvent" "" payload.
Definition subscribeToTaskExecutionLifecycleEvent (user jobRequestID payload : string) : Gateway -> Gateway := Notify user "TaskExecutionLifecycleEvent" jobRequestID payload.
(** A log message is also stored; a failure to store it is ignored. *)
Definition subscribeToLogEvent (user jobRequestID payload : string) (saved : bool) (g : Gateway) : Gateway :=
  let g := Notify user "LogEvent" jobRequestID payload g in
  if saved then set_archive (archive g ++ [LogMessage user jobRequestID]) g else g.
Definition subscribeToHealthErrorEvent (payload : string) : Gateway -> Gateway := Notify "" "HealthErrorEvent" "" payload.
Definition subscribeToContainersLifecycleEvents (user payload : string) : Gateway -> Gateway := Notify user "ContainerLifecycleEvent" "" payload.
(** A payload that does not decode is dropped. *)
Definition on_event (ev : option GatewayEvent) (payload : string) (saved : bool) (g : Gateway) : Gateway :=
  match ev with
  | None => g
  | Some (JobDefinitionLifecycle u) => subscribeToJobDefinitionLifecycleEvent u payload g
  | Some (JobRequestLifecycle u) => subscribeToJobRequestLifecycleEvent u payload g
  | Some (JobExecutionLifecycle u) => subscribeToJobExecutionLifecycleEvent u payload g
  | Some (TaskExecutionLifecycle u q) => subscribeToTaskExecutionLifecycleEvent u q payload g
  | Some (LogMessage u q) => subscribeToLogEvent u q payload saved g
  | Some HealthError => subscribeToHealthErrorEvent payload g
  | Some (ContainerLifecycle u) => subscribeToContainersLifecycleEvents u payload g
  end.

(** One write of a notification; an error is logged. *)
Definition write_lease (w : writer) (p : nat) (network : bool) (g : Gateway) : Gateway :=
  match objects (registry g) !! p with
  | None => g
  | Some l =>
      match WriteMessage network (registry g) l, connection l with
      | None, _ => crash g
      | Some true, Some c => deliver (mkDelivery (conn_id c) (w_user w) (w_type w) (w_scope w) (w_payload w)) g
      | _, _ => g
      end
  end.

Definition step (e : event) (g : Gateway) : option Gateway :=
  if crashed g then None
  else
    match e with
    | Connect a =>
        if ip_ok a then Some (set_clients (clients g ++ [mkClient (mkConn (List.length (clients g)) a) (Reading 0)]) g) else None
    | Receive c now m =>
        match clients g !! c with
        | Some (mkClient _ (Reading n) as x) => Some (handleRegistration c x n now m g)
        | _ => None
        end
    | Unwind c =>
        match clients g !! c with
        | Some (mkClient conn Returned) =>
            let '(leases, r) := getLeasesByAddress (Addr_String (RemoteAddr conn)) (registry g) in
            Some (set_phase c (Leaving leases) (set_registry r g))
        | _ => None
        end
    | DropLease c i =>
        match clients g !! c with
        | Some (mkClient _ (Leaving leases)) =>
            match leases !! i with
            | Some p => Some (set_phase c (Leaving (delete i leases)) (remove_lease p g))
            | None => match leases with [] => Some (set_phase c Gone g) | _ => None end
            end
        | _ => None
        end
    | Reap now =>
        match reaper g with
        | None | Some (_, []) => Some (set_reaper (Some (now, getAllLeases (registry g))) g)
        | _ => None
        end
    | ReapLease i =>
        match reaper g with
        | Some (now, leases) =>
            match leases !! i with
            | Some p => Some (set_reaper (Some (now, delete i leases)) (reap_lease now p g))
            | None => None
            end
        | None => None
        end
    | Notice ev payload saved => Some (on_event ev payload saved g)
    | WriteLease k i network =>
        match writers g !! k with
        | Some w =>
            match w_leases w !! i with
            | Some p =>
                let w' := mkWriter (w_user w) (w_type w) (w_scope w) (w_payload w) (delete i (w_leases w)) in
                Some (set_writers (<[k := w']> (writers g)) (write_lease w p network g))
            | None => None
            end
        | None => None
        end
    end.

Fixpoint run (l : list event) (g : Gateway) : option Gateway :=
  match l with [] => Some g | e :: l => step e g ≫= run l end.
End Gateway.

(** *** Starting and stopping *)
Inductive topic :=
  | JobDefinitionLifecycleTopic | JobRequestLifecycleTopic | JobExecutionLifecycleTopic | TaskExecutionLifecycleTopic
  | ContainerLifecycleTopic | LogTopic | HealthErrorTopic.
#[global] Instance topic_eq_dec : EqDecision topic.
Proof. solve_decision. Defined.
Definition subscriptions : list (string * topic) :=
  [("JobDefinitionLifecycleEvent", JobDefinitionLifecycleTopic); ("JobRequestLifecycleEvent", JobRequestLifecycleTopic);
   ("JobExecutionLifecycleEvent", JobExecutionLifecycleTopic); ("TaskExecutionLifecycleEvent", TaskExecutionLifecycleTopic);
   ("ContainersLifecycleEvents", ContainerLifecycleTopic); ("LogEvent", LogTopic); ("HealthErrorEvent", HealthErrorTopic)].

Inductive queue_call := Subscribed (t : topic) | UnSubscribed (t : topic) (id : string).
(** The identifiers of the subscriptions, the ticker of the reaper, and the
    calls made to the queue. *)
Record service := mkService { ids : list (topic * string); ticker : bool; calls : list queue_call }.
Definition idle : service := mkService [] false [].
Inductive start_result := Started | StartError (e : string) | StartPanics.

Section Service.
Context (GatewaySubscriptions : gmap string bool) (Subscribe : topic -> string + string)
        (UnSubscribe : topic -> string -> option string).

Definition id_of (t : topic) (s : service) : string :=
  match list_find (fun x => x.1 = t) (ids s) with Some (_, (_, id)) => id | None => "" end.
Fixpoint ErrorsAny (l : list (option string)) : option string :=
  match l with [] => None | Some e :: _ => Some e | None :: l => ErrorsAny l end.
(** [None] when the ticker was never created. *)
Definition Stop (s : service) : option (option string) * service :=
  let errs := map (fun x => UnSubscribe x.2 (id_of x.2 s)) subscriptions in
  let s' := mkService (ids s) (ticker s) (calls s ++ map (fun x => UnSubscribed x.2 (id_of x.2 s)) subscriptions) in
  if ticker s then (Some (ErrorsAny errs), s') else (None, s').

Fixpoint start_from (l : list (string * topic)) (s : service) : start_result * service :=
  match l with
  | [] => (Started, mkService (ids s) true (calls s))
  | (name, t) :: l =>
      if default false (GatewaySubscriptions !! name) then
        let s := mkService (ids s) (ticker s) (calls s ++ [Subscribed t]) in
        match Subscribe t with
        | inl id => start_from l (mkService (ids s ++ [(t, id)]) (ticker s) (calls s))
        | inr e =>
            if bool_decide (t = JobDefinitionLifecycleTopic) then (StartError e, s)
            else match Stop s with (Some _, s) => (StartError e, s) | (None, s) => (StartPanics, s) end
        end
      else start_from l s
  end.
Definition Start : start_result * service := start_from subscriptions idle.
End Service.
End Gw.
