(* ===== verification/GatewaySpec.v ===== *)
(** * GatewaySpec: what the gateway promises to its web clients

    In every interleaving of the gateway's goroutines the three indexes of the
    registry agree, so that a notification finds exactly the subscribers; a
    client gets only events of the user its session belongs to; and nothing is
    left of a client once its goroutine has ended. *)

From Stdlib Require Import Ascii.
From S2P Require Import Prelude Resource Gateway.
Import Leases Registry Gw.

Open Scope Z_scope.

(** ** Keys *)
(** Texts joined by two colons, the first without one. *)
Lemma colons_inj a s a' s' :
  string_mem ":"%char a = false -> string_mem ":"%char a' = false -> a +:+ "::" +:+ s = a' +:+ "::" +:+ s' -> a = a' /\ s = s'.
Proof.
  intros Ha Ha' Heq. change (a +:+ String ":" (String ":" s) = a' +:+ String ":" (String ":" s')) in Heq.
  apply string_split_inj in Heq as [-> Heq]; [|done..]. by injection Heq as ->.
Qed.

Lemma JoinHostPort_inj h p h' p' rest rest' :
  string_mem "["%char h = false -> string_mem "]"%char h = false -> string_mem "["%char h' = false -> string_mem "]"%char h' = false ->
  string_mem ":"%char p = false -> string_mem ":"%char p' = false ->
  JoinHostPort h p +:+ "::" +:+ rest = JoinHostPort h' p' +:+ "::" +:+ rest' ->
  JoinHostPort h p = JoinHostPort h' p' /\ rest = rest'.
Proof.
  intros H1 H2 H3 H4 Hp Hp'. unfold JoinHostPort.
  destruct (string_mem ":"%char h || _) eqn:E, (string_mem ":"%char h' || _) eqn:E'; rewrite ?string_app_assoc.
  - intros [= Heq]. change (h +:+ String "]" (":" +:+ p +:+ "::" +:+ rest) = h' +:+ String "]" (":" +:+ p' +:+ "::" +:+ rest')) in Heq.
    apply string_split_inj in Heq as [-> Heq]; [|done..]. injection Heq as Heq. by apply colons_inj in Heq as [-> ->].
  - destruct h' as [|x h']; cbn; [by intros [=]|]. intros [= <- _]. cbn in H3. done.
  - destruct h as [|x h]; cbn; [by intros [=]|]. intros [= -> _]. cbn in H1. done.
  - apply orb_false_iff in E as [E _], E' as [E' _]. intros Heq.
    change (h +:+ String ":" (p +:+ "::" +:+ rest) = h' +:+ String ":" (p' +:+ "::" +:+ rest')) in Heq.
    apply string_split_inj in Heq as [-> Heq]; [|done..]. by apply colons_inj in Heq as [-> ->].
Qed.

Definition wf_lease (l : SubscriptionLease) : Prop :=
  EventType l ≠ "" /\ exists c, connection l = Some c /\ ip_ok (RemoteAddr c) = true.

Lemma ip_ok_spec a : ip_ok a = true -> string_mem "["%char (IP a) = false /\ string_mem "]"%char (IP a) = false.
Proof. unfold ip_ok. intros [H1 H2]%andb_true_iff. by rewrite !negb_true_iff in H1, H2. Qed.

(** Leases with the same key have the same address and subscription. *)
Lemma Key_inj l l' : wf_lease l -> wf_lease l' -> Key l = Key l' -> Address l = Address l' /\ KeyWithoutAddress l = KeyWithoutAddress l'.
Proof.
  intros (_ & c & Hc & Ha) (_ & c' & Hc' & Ha'). unfold Key, KeyWithoutAddress, EventKey, Address. rewrite Hc, Hc'.
  apply ip_ok_spec in Ha as [], Ha' as []. intros Heq%JoinHostPort_inj; [|try done; by apply itoa_avoids..].
  destruct Heq as [E1 E2]. unfold Addr_String. by rewrite E1, E2.
Qed.

Lemma event_key_user u t s u' t' s' :
  string_mem ":"%char u = false -> string_mem ":"%char u' = false -> EventKey "" u t s = EventKey "" u' t' s' ->
  u = u' /\ t +:+ "::" +:+ s = t' +:+ "::" +:+ s'.
Proof. unfold EventKey. intros Hu Hu' [= Heq]. by apply colons_inj in Heq. Qed.

(** ** The registry *)
Definition static (l : SubscriptionLease) := (EventType l, EventScope l, userID l, connection l).
Lemma static_keys l l' :
  static l = static l' -> Key l = Key l' /\ KeyWithoutAddress l = KeyWithoutAddress l' /\ Address l = Address l' /\ (wf_lease l -> wf_lease l').
Proof.
  destruct l, l'. unfold static. cbn. intros [= -> -> -> ->]. done.
Qed.

(** [k] leads to the lease [l] at [p]. *)
Definition holds (r : LeaseRegistry) (k : string) (p : nat) (l : SubscriptionLease) : Prop :=
  leasesByKey r !! k = Some p /\ objects r !! p = Some l.
Definition indexed (m : gmap string (gset string)) (r : LeaseRegistry) (key_of : SubscriptionLease -> string) : Prop :=
  (forall e k, k ∈ default ∅ (m !! e) <-> exists p l, holds r k p l /\ key_of l = e) /\ (forall e ks, m !! e = Some ks -> ks ≠ ∅).

Record reg_inv (r : LeaseRegistry) : Prop := {
  inv_fresh : forall p l, objects r !! p = Some l -> (p < fresh r)%nat;
  inv_wf : forall p l, objects r !! p = Some l -> wf_lease l;
  inv_key : forall k p, leasesByKey r !! k = Some p ->
    exists l, objects r !! p = Some l /\ Key l = k /\ lock l = locksByAddresses r !! Address l /\ lock l ≠ None;
  inv_event : indexed (keysByUserAndEventType r) r KeyWithoutAddress;
  inv_address : indexed (keysByAddresses r) r Address;
  inv_locks : forall a, is_Some (locksByAddresses r !! a) <-> is_Some (keysByAddresses r !! a)
}.

(** What a registry keeps: the objects, up to time, lock and channel. *)
Definition keeps_objects (r r' : LeaseRegistry) : Prop :=
  forall p l, objects r !! p = Some l ->
    exists l', objects r' !! p = Some l' /\ static l' = static l /\ (lock l ≠ None -> lock l' ≠ None).
(** No object appears. *)
Definition stems (r r' : LeaseRegistry) : Prop :=
  forall p l', objects r' !! p = Some l' -> exists l, objects r !! p = Some l /\ static l' = static l.
Definition usable (r : LeaseRegistry) (p : nat) : Prop := exists l, objects r !! p = Some l /\ lock l ≠ None.

Lemma keeps_objects_refl r : keeps_objects r r.
Proof. intros p l Hl. by exists l. Qed.
Lemma keeps_objects_trans r1 r2 r3 : keeps_objects r1 r2 -> keeps_objects r2 r3 -> keeps_objects r1 r3.
Proof.
  intros H12 H23 p l Hl. destruct (H12 p l Hl) as (l2 & H2 & E2 & L2). destruct (H23 p l2 H2) as (l3 & H3 & E3 & L3).
  exists l3. split_and!; [done|congruence|auto].
Qed.
Lemma usable_later r r' p : keeps_objects r r' -> usable r p -> usable r' p.
Proof. intros Hk (l & Hl & HL). destruct (Hk p l Hl) as (l' & Hl' & _ & HL'). exists l'. auto. Qed.

(** *** Changes of an index *)
(** The same keys with leases of the same texts. *)
Definition same_holds (r r' : LeaseRegistry) : Prop :=
  leasesByKey r' = leasesByKey r /\
  (forall k p l, holds r k p l -> exists l', objects r' !! p = Some l' /\ static l' = static l /\ lock l' = lock l).
Lemma indexed_same m r r' key_of :
  (forall l l', static l = static l' -> key_of l = key_of l') -> (forall k p, leasesByKey r !! k = Some p -> is_Some (objects r !! p)) ->
  same_holds r r' -> indexed m r key_of -> indexed m r' key_of.
Proof.
  intros Hs Hsome [HL Hh] [Hm Hne]. split; [|done]. intros e k. rewrite Hm. split.
  - intros (p & l & [H1 H2] & He). destruct (Hh k p l) as (l' & H' & E & _); [done|]. exists p, l'. unfold holds. rewrite HL.
    split_and!; [done..|]. rewrite <- He. by apply Hs.
  - intros (p & l' & [H1 H2] & He). rewrite HL in H1. destruct (Hsome k p H1) as [l Hl].
    destruct (Hh k p l) as (l2 & H' & E & _); [done|]. rewrite H2 in H'. injection H' as <-. exists p, l. split; [done|].
    rewrite <- He. by apply Hs.
Qed.

Lemma indexed_add m r r' key_of k p l :
  leasesByKey r' = <[k := p]> (leasesByKey r) -> leasesByKey r !! k = None -> objects r' = <[p := l]> (objects r) ->
  (forall k', leasesByKey r !! k' ≠ Some p) -> indexed m r key_of -> indexed (index_add (key_of l) k m) r' key_of.
Proof.
  intros HL Hk HO Hp [Hm Hne]. unfold index_add. split.
  - intros e k'. transitivity (k' ∈ default ∅ (m !! e) \/ (k' = k /\ e = key_of l)).
    { destruct (decide (e = key_of l)) as [->|Hd]; [rewrite lookup_insert_eq; cbn; set_solver|].
      rewrite lookup_insert_ne by done. naive_solver. }
    rewrite Hm. unfold holds. rewrite HL, HO. split.
    + intros [(q & l' & [H1 H2] & He)|[-> ->]].
      * exists q, l'. rewrite lookup_insert_ne by congruence. rewrite lookup_insert_ne; [done|].
        intros ->. by apply (Hp k').
      * exists p, l. by rewrite !lookup_insert_eq.
    + intros (q & l' & [H1 H2] & He). apply lookup_insert_Some in H1 as [[-> ->]|[Hn H1]].
      * rewrite lookup_insert_eq in H2. injection H2 as <-. by right.
      * left. exists q, l'. apply lookup_insert_Some in H2 as [[-> ->]|[_ H2]]; [|done].
        by destruct (Hp k').
  - intros e ks. rewrite lookup_insert_Some. intros [[_ <-]|[_ H]]; [set_solver|by eapply Hne].
Qed.

Lemma index_remove_spec m e k :
  (forall e' ks, m !! e' = Some ks -> ks ≠ ∅) ->
  (forall e' k', k' ∈ default ∅ ((index_remove e k m).1 !! e') <-> k' ∈ default ∅ (m !! e') /\ ~ (e' = e /\ k' = k)) /\
  (forall e' ks, (index_remove e k m).1 !! e' = Some ks -> ks ≠ ∅) /\
  (forall e', is_Some ((index_remove e k m).1 !! e') <-> is_Some (m !! e') /\ ((index_remove e k m).2 = true -> e' ≠ e)).
Proof.
  intros Hne. unfold index_remove. destruct (m !! e) as [ks|] eqn:Em; cbn; [case_bool_decide as Hks; cbn|].
  - split_and!.
    + intros e' k'. destruct (decide (e' = e)) as [->|Hd]; [rewrite lookup_delete_eq, Em; cbn; set_solver|].
      rewrite lookup_delete_ne by done. naive_solver.
    + intros e' ks' [_ H']%lookup_delete_Some. by eapply Hne.
    + intros e'. rewrite lookup_delete_is_Some. naive_solver.
  - split_and!.
    + intros e' k'. destruct (decide (e' = e)) as [->|Hd]; [rewrite lookup_insert_eq, Em; cbn; set_solver|].
      rewrite lookup_insert_ne by done. naive_solver.
    + intros e' ks' [[_ <-]|[_ H']]%lookup_insert_Some; [done|by eapply Hne].
    + intros e'. rewrite lookup_insert_is_Some. split; [|by destruct (decide (e = e')); naive_solver].
      intros [->|[_ H']]; [by rewrite Em|done].
  - split_and!; [|done|naive_solver]. intros e' k'. split; [|by intros []]. intros Hk. split; [done|].
    intros [-> ->]. rewrite Em in Hk. set_solver.
Qed.

Lemma indexed_remove m r r' key_of k e :
  leasesByKey r' = delete k (leasesByKey r) -> (forall p l, holds r k p l -> key_of l = e) ->
  (forall k' p, leasesByKey r !! k' = Some p -> forall l, objects r !! p = Some l <-> objects r' !! p = Some l) ->
  indexed m r key_of -> indexed (index_remove e k m).1 r' key_of.
Proof.
  intros HL He Ho [Hm Hne]. destruct (index_remove_spec m e k Hne) as (H1 & H2 & _). split; [|done].
  intros e' k'. rewrite H1, Hm. unfold holds. rewrite HL. split.
  - intros [(p & l & [Hp Hl] & <-) Hn]. exists p, l. rewrite <- (Ho k' p Hp l). rewrite lookup_delete_ne; [done|].
    intros ->. apply Hn. split; [|done]. by eapply He.
  - intros (p & l & [Hp Hl] & <-). apply lookup_delete_Some in Hp as [Hd Hp]. split; [|by intros [_ ->]].
    exists p, l. split; [|done]. split; [done|]. by apply (Ho k' p Hp).
Qed.

(** *** The operations *)
Lemma registered_object r k p : reg_inv r -> leasesByKey r !! k = Some p -> is_Some (objects r !! p).
Proof. intros Hr Hk. destruct (inv_key r Hr k p Hk) as (l & -> & _). by exists l. Qed.

Lemma set_object_inv r p l l' :
  reg_inv r -> objects r !! p = Some l -> static l' = static l -> lock l' = lock l -> reg_inv (set_object p l' r).
Proof.
  intros Hr Hp Hs Hl. destruct (static_keys l' l Hs) as (EK & EE & EA & _). destruct (static_keys l l' (eq_sym Hs)) as (_ & _ & _ & Hw).
  assert (same_holds r (set_object p l' r)) as Hsame.
  { split; [done|]. intros k q x [H1 H2]. cbn. destruct (decide (q = p)) as [->|Hd]; [|by rewrite lookup_insert_ne; eauto].
    rewrite lookup_insert_eq. exists l'. rewrite Hp in H2. by injection H2 as <-. }
  split; cbn.
  - intros q x [[-> <-]|[_ Hq]]%lookup_insert_Some; by eapply inv_fresh.
  - intros q x [[-> <-]|[_ Hq]]%lookup_insert_Some; [by eapply Hw, inv_wf|by eapply inv_wf].
  - intros k q Hk. destruct (inv_key r Hr k q Hk) as (x & Hx & <- & HL & Hn).
    destruct (decide (q = p)) as [->|Hd]; [|exists x; by rewrite lookup_insert_ne].
    rewrite Hp in Hx. injection Hx as <-. exists l'. rewrite lookup_insert_eq, EK, EA, Hl. done.
  - eapply indexed_same; [| |exact Hsame|apply Hr]; [|intros k q; by apply registered_object]. intros x x' E. by apply static_keys in E as (_ & ? & _).
  - eapply indexed_same; [| |exact Hsame|apply Hr]; [|intros k q; by apply registered_object]. intros x x' E. by apply static_keys in E as (_ & _ & ? & _).
  - apply Hr.
Qed.

Lemma set_object_keeps r p l l' :
  objects r !! p = Some l -> static l' = static l -> (lock l ≠ None -> lock l' ≠ None) -> keeps_objects r (set_object p l' r).
Proof.
  intros Hp Hs Hl q x Hx. cbn. destruct (decide (q = p)) as [->|Hd]; [|by rewrite lookup_insert_ne; eauto].
  rewrite lookup_insert_eq. exists l'. rewrite Hp in Hx. by injection Hx as <-.
Qed.

Lemma set_object_stems r r' p l l' : objects r' = objects (set_object p l' r) -> objects r !! p = Some l -> static l' = static l -> stems r r'.
Proof.
  intros HO Hp Hs q x. rewrite HO. cbn. intros [[<- <-]|[_ Hq]]%lookup_insert_Some; eauto.
Qed.

Lemma reg_inv_frame r r' :
  objects r' = objects r -> fresh r' = fresh r -> leasesByKey r' = leasesByKey r -> keysByUserAndEventType r' = keysByUserAndEventType r ->
  keysByAddresses r' = keysByAddresses r -> locksByAddresses r' = locksByAddresses r -> reg_inv r -> reg_inv r'.
Proof.
  destruct r, r'. cbn. intros -> -> -> -> -> -> Hr. split; by apply Hr.
Qed.

Lemma Close_spec r p l :
  reg_inv r -> objects r !! p = Some l -> lock l ≠ None ->
  exists r', Close p l r = Some r' /\ reg_inv r' /\ keeps_objects r r' /\ stems r r' /\ leasesByKey r' = leasesByKey r.
Proof.
  intros Hr Hp Hl. unfold Close. destruct (lock l) as [k|] eqn:El; [|done]. destruct (done_closed l).
  { exists r. split_and!; try done; [apply keeps_objects_refl|by intros q x; eauto]. }
  destruct (inv_wf r Hr p l Hp) as (_ & c & -> & _). eexists. split_and!; [done| | |by eapply set_object_stems|done].
  - eapply reg_inv_frame; [..|apply (set_object_inv r p l (set_done l) Hr Hp)]; done.
  - intros q x Hx. by apply (set_object_keeps r p l (set_done l) Hp).
Qed.

Lemma Validate_wf l : wf_lease l -> Validate l = None.
Proof. intros (Hn & c & Hc & _). unfold Validate. rewrite Hc. by destruct (String.eqb_spec (EventType l) ""). Qed.

Lemma registry_Remove_spec r p l :
  reg_inv r -> objects r !! p = Some l -> lock l ≠ None ->
  exists r', Remove (Some p) r = Returns r' None /\ reg_inv r' /\ keeps_objects r r' /\ stems r r' /\
    leasesByKey r' = delete (Key l) (leasesByKey r).
Proof.
  intros Hr Hp Hl. unfold Remove. cbn. rewrite Hp. cbn. rewrite (Validate_wf l) by by eapply inv_wf.
  destruct (Close_spec r p l Hr Hp Hl) as (r1 & -> & Hr1 & Hk1 & Hs1 & HL1).
  assert (forall k q x, holds r1 k q x -> k = Key l -> Address x = Address l /\ KeyWithoutAddress x = KeyWithoutAddress l) as Hsame.
  { intros k q x [H1 H2] ->. destruct (inv_key r1 Hr1 _ q H1) as (y & Hy & E & _). rewrite H2 in Hy. injection Hy as <-.
    apply Key_inj in E; [done|by eapply (inv_wf r1 Hr1)|by eapply (inv_wf r Hr)]. }
  cbn. destruct (index_remove_spec (keysByAddresses r1) (Address l) (Key l) (proj2 (inv_address r1 Hr1))) as (_ & _ & Hdom).
  destruct (index_remove (Address l) (Key l) (keysByAddresses r1)) as [m gone] eqn:Em. eexists. split; [done|].
  assert (forall k q, delete (Key l) (leasesByKey r1) !! k = Some q -> forall x, objects r1 !! q = Some x -> gone = true -> Address x ≠ Address l) as Hgone.
  { intros k q [Hd Hq]%lookup_delete_Some x Hx -> HA. unfold index_remove in Em.
    assert (k ∈ default ∅ (keysByAddresses r1 !! Address l)) as Hin by (apply (inv_address r1 Hr1); by exists q, x).
    destruct (keysByAddresses r1 !! Address l) as [ks|]; [|by set_solver]. case_bool_decide as Hks; [|by injection Em].
    cbn in Hin. set_solver. }
  split_and!; [|intros q x Hx; destruct (Hk1 q x Hx) as (y & ?); exists y; by destruct gone|
    intros q x Hx; apply (Hs1 q); by destruct gone|by destruct gone; cbn; rewrite HL1].
  cbn in Hdom.
  match goal with |- reg_inv ?R => set (r2 := R) end.
  assert (objects r2 = objects r1 /\ fresh r2 = fresh r1 /\ leasesByKey r2 = delete (Key l) (leasesByKey r1) /\
    keysByUserAndEventType r2 = (index_remove (KeyWithoutAddress l) (Key l) (keysByUserAndEventType r1)).1 /\ keysByAddresses r2 = m /\
    locksByAddresses r2 = if gone then delete (Address l) (locksByAddresses r1) else locksByAddresses r1) as (HO & HF & HL & HE & HA & HK)
    by by destruct gone.
  clearbody r2. split; rewrite ?HO, ?HF, ?HL, ?HE, ?HA; [apply Hr1..| | | |].
  - intros k q Hq. destruct (inv_key r1 Hr1 k q) as (x & Hx & E & HLk & Hn); [by apply lookup_delete_Some in Hq as []|].
    exists x. split_and!; [done..| |done]. rewrite HK, HLk. destruct gone; [|done]. rewrite lookup_delete_ne; [done|].
    apply not_eq_sym. by eapply Hgone.
  - eapply indexed_remove; [exact HL| | |apply Hr1]; [|by rewrite HO]. intros q x Hx. by eapply Hsame.
  - replace m with (index_remove (Address l) (Key l) (keysByAddresses r1)).1 by by rewrite Em.
    eapply indexed_remove; [exact HL| | |apply Hr1]; [|by rewrite HO]. intros q x Hx. by eapply Hsame.
  - intros a. rewrite HK, Hdom, <- (inv_locks r1 Hr1 a). destruct gone; [|naive_solver].
    rewrite lookup_delete_is_Some. naive_solver.
Qed.

(** A registered key has a lock at its address. *)
Lemma registered_lock r k p l :
  reg_inv r -> wf_lease l -> Key l = k -> leasesByKey r !! k = Some p -> is_Some (locksByAddresses r !! Address l).
Proof.
  intros Hr Hl <- Hk. destruct (inv_key r Hr _ p Hk) as (x & Hx & E & HL & Hn).
  apply Key_inj in E as [<- _]; [|by eapply inv_wf|done]. rewrite <- HL. by destruct (lock x).
Qed.

(** A lease under a new key, with the lock [k] of its address. *)
Lemma insert_lease_inv r r' p l k now :
  reg_inv r -> objects r !! p = Some l -> leasesByKey r !! Key l = None -> (fresh r <= fresh r')%nat ->
  locksByAddresses r' = <[Address l := k]> (locksByAddresses r) ->
  (forall x, locksByAddresses r !! Address l = Some x -> x = k) ->
  objects r' = <[p := set_lock k (set_updatedAt now l)]> (objects r) -> leasesByKey r' = <[Key l := p]> (leasesByKey r) ->
  keysByUserAndEventType r' = index_add (KeyWithoutAddress l) (Key l) (keysByUserAndEventType r) ->
  keysByAddresses r' = index_add (Address l) (Key l) (keysByAddresses r) -> reg_inv r'.
Proof.
  intros Hr Hp Hnew HF HK Hk HO HL HE HA. set (l' := set_lock k (set_updatedAt now l)) in *.
  destruct (static_keys l' l eq_refl) as (EK & EE & EA & _).
  assert (forall k', leasesByKey r !! k' ≠ Some p) as Hout.
  { intros k' Hk'. destruct (inv_key r Hr k' p Hk') as (x & Hx & E & _). rewrite Hp in Hx. injection Hx as <-. congruence. }
  split; rewrite ?HO, ?HL, ?HE, ?HA, ?HK.
  - intros q x [[<- _]|[_ Hq]]%lookup_insert_Some; apply (Nat.lt_le_trans _ (fresh r)); try lia; by eapply inv_fresh.
  - intros q x [[<- <-]|[_ Hq]]%lookup_insert_Some; [|by eapply inv_wf]. destruct (inv_wf r Hr p l Hp) as (? & ?). by split.
  - intros k' q [[<- <-]|[Hd Hq]]%lookup_insert_Some.
    + exists l'. rewrite lookup_insert_eq, EK, EA, lookup_insert_eq. done.
    + destruct (inv_key r Hr k' q Hq) as (x & Hx & E & HLx & Hn). exists x. rewrite lookup_insert_ne by by intros ->; apply (Hout k').
      split_and!; [done..| |done]. rewrite HLx. destruct (decide (Address l = Address x)) as [e|e]; [|by rewrite lookup_insert_ne].
      rewrite e, lookup_insert_eq. rewrite e in Hk. rewrite HLx in Hn.
      destruct (locksByAddresses r !! Address x) as [y|] eqn:Ey; [|done]. by rewrite (Hk y eq_refl).
  - rewrite <- EE. eapply indexed_add; [exact HL|done|exact HO|done|apply Hr].
  - rewrite <- EA. eapply indexed_add; [exact HL|done|exact HO|done|apply Hr].
  - intros a. unfold index_add. rewrite !lookup_insert_is_Some, (inv_locks r Hr a). done.
Qed.

Definition added (p : nat) (l : SubscriptionLease) (m : gmap string nat) : gmap string nat :=
  match m !! Key l with Some _ => m | None => <[Key l := p]> m end.

Lemma registry_Add_spec r p l now :
  reg_inv r -> objects r !! p = Some l ->
  exists r', Add now (Some p) r = Returns r' None /\ reg_inv r' /\ keeps_objects r r' /\ stems r r' /\
    leasesByKey r' = added p l (leasesByKey r).
Proof.
  intros Hr Hp. assert (wf_lease l) as Hwf by by eapply inv_wf. unfold Add, added. cbn. rewrite Hp. cbn. rewrite (Validate_wf l Hwf).
  destruct (locksByAddresses r !! Address l) as [k|] eqn:Ek; cbn.
  - destruct (leasesByKey r !! Key l) as [q|] eqn:Eq; cbn.
    + destruct (registered_object r _ q Hr Eq) as [old Hold]. rewrite Hold. cbn. eexists. split_and!; [done| | |by eapply set_object_stems|done].
      * by eapply set_object_inv.
      * by eapply set_object_keeps.
    + eexists. split_and!; [done| | |by eapply set_object_stems|done].
      * eapply (insert_lease_inv r _ p l k now); try done. cbn. rewrite insert_id; [done|done]. intros x. rewrite Ek. by intros [= ->].
      * apply (set_object_keeps r p l); [done..|]. done.
  - assert (leasesByKey r !! Key l = None) as Eq.
    { destruct (leasesByKey r !! Key l) as [q|] eqn:Eq; [|done]. destruct (registered_lock r _ q l Hr Hwf eq_refl Eq). congruence. }
    rewrite Eq. cbn. eexists. split_and!; [done| | |by eapply set_object_stems|done].
    + eapply (insert_lease_inv r _ p l (fresh r) now); try done. cbn. lia. intros x. by rewrite Ek.
    + apply (set_object_keeps r p l); [done..|]. done.
Qed.

(** *** Lookups *)
Lemma elem_of_leases_of keys r p : p ∈ leases_of keys r <-> exists k, k ∈ keys /\ leasesByKey r !! k = Some p.
Proof. unfold leases_of. rewrite list_elem_of_omap. by setoid_rewrite elem_of_elements. Qed.

Lemma NoDup_omap_inj {A B} (f : A -> option B) (l : list A) :
  (forall x y z, f x = Some z -> f y = Some z -> x = y) -> NoDup l -> NoDup (omap f l).
Proof.
  intros Hf. induction 1 as [|x l Hx _ IH]; cbn; [by apply NoDup_nil|]. destruct (f x) as [z|] eqn:E; [|done].
  apply NoDup_cons. split; [|done]. rewrite list_elem_of_omap. intros (y & Hy & Ey). by rewrite (Hf x y z E Ey) in Hx.
Qed.

(** Exactly the leases of an index entry, each once. *)
Definition answers (r : LeaseRegistry) (key_of : SubscriptionLease -> string) (e : string) (ps : list nat) : Prop :=
  NoDup ps /\ forall p, p ∈ ps <-> exists k l, holds r k p l /\ key_of l = e.

Lemma answers_entry r m key_of e :
  reg_inv r -> indexed m r key_of -> answers r key_of e (match m !! e with Some keys => leases_of keys r | None => [] end).
Proof.
  intros Hr [Hm Hne]. split.
  - destruct (m !! e) as [keys|]; [|apply NoDup_nil_2]. apply NoDup_omap_inj; [|apply NoDup_elements].
    intros k k' p Hk Hk'. destruct (inv_key r Hr k p Hk) as (l & Hl & <- & _), (inv_key r Hr k' p Hk') as (l' & Hl' & <- & _). congruence.
  - intros p. specialize (Hm e). destruct (m !! e) as [keys|]; cbn in Hm.
    + rewrite elem_of_leases_of. split.
      * intros (k & Hk & Hp). apply Hm in Hk as (q & l & [H1 H2] & E). exists k, l. assert (q = p) as -> by congruence. done.
      * intros (k & l & [H1 H2] & E). exists k. split; [|done]. apply Hm. by exists p, l.
    + split; [by intros ?%elem_of_nil|]. intros (k & l & Hh & E). exfalso. apply (not_elem_of_empty (C := gset string) k). apply Hm. by exists p, l.
Qed.

Lemma live_keys_entry r m key_of e keys : indexed m r key_of -> m !! e = Some keys -> live_keys keys r = keys.
Proof.
  intros [Hm _] He. apply set_eq. intros k. unfold live_keys. rewrite elem_of_filter. split; [by intros []|]. intros Hk. split; [|done].
  specialize (Hm e k). rewrite He in Hm. apply Hm in Hk as (p & l & [H1 _] & _). by rewrite H1.
Qed.

Lemma getLeasesByAddress_spec r a :
  reg_inv r -> exists ps, getLeasesByAddress a r = (ps, r) /\ answers r Address a ps.
Proof.
  intros Hr. unfold getLeasesByAddress. pose proof (answers_entry r _ Address a Hr (inv_address r Hr)) as Ha.
  destruct (keysByAddresses r !! a) as [keys|] eqn:E; [|by eauto]. eexists. split; [|done].
  rewrite bool_decide_true; [done|]. eapply live_keys_entry; [apply (inv_address r Hr)|done].
Qed.

Lemma getLeasesByUser_spec r u t s :
  reg_inv r -> exists ps, getLeasesByUserAndEventTypeScope u t s r = (ps, r) /\ answers r KeyWithoutAddress (EventKey "" u t s) ps.
Proof.
  intros Hr. unfold getLeasesByUserAndEventTypeScope.
  pose proof (answers_entry r _ KeyWithoutAddress (EventKey "" u t s) Hr (inv_event r Hr)) as Ha.
  destruct (keysByUserAndEventType r !! _) as [keys|] eqn:E; [|by eauto]. eexists. split; [|done].
  rewrite bool_decide_true; [done|]. eapply live_keys_entry; [apply (inv_event r Hr)|done].
Qed.

Lemma getAllLeases_spec r p : p ∈ getAllLeases r <-> exists k, leasesByKey r !! k = Some p.
Proof.
  unfold getAllLeases. rewrite list_elem_of_fmap. split.
  - intros ([k q] & -> & H%elem_of_map_to_list). by exists k.
  - intros [k H]. exists (k, p). by rewrite elem_of_map_to_list.
Qed.

Lemma holds_usable r k p l : reg_inv r -> holds r k p l -> usable r p.
Proof. intros Hr [H1 H2]. destruct (inv_key r Hr k p H1) as (x & Hx & _ & _ & Hn). by exists x. Qed.

(** ** The gateway *)
Definition conn_of (l : SubscriptionLease) : option nat := conn_id <$> connection l.
Definition phase_ok (r : LeaseRegistry) (c : nat) (h : handler) : Prop :=
  match h with
  | Reading _ | Returned => True
  | Leaving ps =>
      (forall p, p ∈ ps -> usable r p) /\
      (forall k p l, holds r k p l -> conn_of l = Some c -> exists q x, q ∈ ps /\ objects r !! q = Some x /\ Key x = k)
  | Gone => forall k p l, holds r k p l -> conn_of l ≠ Some c
  end.
Definition writer_ok (r : LeaseRegistry) (w : writer) : Prop :=
  forall p, p ∈ w_leases w ->
    exists l, objects r !! p = Some l /\ lock l ≠ None /\ KeyWithoutAddress l = EventKey "" (w_user w) (w_type w) (w_scope w).
Definition object_ok (g : Gateway) (l : SubscriptionLease) : Prop :=
  exists cn x, connection l = Some cn /\ clients g !! conn_id cn = Some x /\ ws x = cn /\
    mkRegistration (conn_id cn) (userID l) (EventType l) (EventScope l) ∈ registered g.
Definition delivery_ok (g : Gateway) (d : delivery) : Prop :=
  exists x, x ∈ registered g /\ g_conn x = d_conn d /\
    EventKey "" (g_user x) (g_type x) (g_scope x) = EventKey "" (d_user d) (d_type d) (d_scope d).

Record gw_inv (g : Gateway) : Prop := {
  gi_ok : crashed g = false;
  gi_registry : reg_inv (registry g);
  gi_clients : forall c x, clients g !! c = Some x -> conn_id (ws x) = c /\ ip_ok (RemoteAddr (ws x)) = true;
  gi_objects : forall p l, objects (registry g) !! p = Some l -> object_ok g l;
  gi_reaper : forall now ps p, reaper g = Some (now, ps) -> p ∈ ps -> usable (registry g) p;
  gi_phases : forall c x, clients g !! c = Some x -> phase_ok (registry g) c (phase x);
  gi_writers : forall w, w ∈ writers g -> writer_ok (registry g) w;
  gi_delivered : forall d, d ∈ delivered g -> delivery_ok g d
}.

(** A key kept by a later registry leads to the same lease. *)
Lemma holds_before r r' k p l :
  stems r r' -> leasesByKey r' ⊆ leasesByKey r -> holds r' k p l -> exists x, holds r k p x /\ static l = static x.
Proof.
  intros Hs HL [H1 H2]. destruct (Hs p l H2) as (x & Hx & E). exists x. split; [|done]. split; [|done].
  by eapply lookup_weaken.
Qed.
Lemma conn_of_static l l' : static l = static l' -> conn_of l = conn_of l'.
Proof. intros E. unfold conn_of, static in *. by injection E as _ _ _ ->. Qed.
Lemma writer_ok_later r r' w : keeps_objects r r' -> writer_ok r w -> writer_ok r' w.
Proof.
  intros Hk Hw p Hp. destruct (Hw p Hp) as (l & Hl & HL & E). destruct (Hk p l Hl) as (l' & Hl' & Es & HL'). exists l'.
  apply static_keys in Es as (_ & -> & _). auto.
Qed.

Lemma phase_ok_later r r' c h :
  keeps_objects r r' -> (forall k p l, holds r' k p l -> conn_of l = Some c -> exists x, holds r k p x /\ conn_of x = Some c) ->
  phase_ok r c h -> phase_ok r' c h.
Proof.
  intros Hk Hb.
  destruct h as [| |ps|]; cbn; [done|done| |].
  - intros [Hu Hp]. split; [intros p Hin; by eapply usable_later, Hu|]. intros k p l Hh Hc. destruct (Hb k p l Hh Hc) as (x & Hx & Hcx).
    destruct (Hp k p x Hx Hcx) as (q & y & Hq & Hy & E). destruct (Hk q y Hy) as (y' & Hy' & Es & _).
    exists q, y'. by apply static_keys in Es as (-> & _).
  - intros Hn k p l Hh Hc. destruct (Hb k p l Hh Hc) as (x & Hx & Hcx). by apply (Hn k p x).
Qed.

Lemma set_registry_inv g r' :
  gw_inv g -> reg_inv r' -> keeps_objects (registry g) r' -> stems (registry g) r' -> leasesByKey r' ⊆ leasesByKey (registry g) ->
  gw_inv (set_registry r' g).
Proof.
  intros Hg Hr Hk Hs HL. split; cbn; [apply Hg|done|apply Hg| | | | |apply Hg].
  - intros p l Hl. destruct (Hs p l Hl) as (x & Hx & E). destruct (gi_objects g Hg p x Hx) as (cn & y & Hc).
    exists cn, y. unfold static in E. by injection E as -> -> -> ->.
  - intros now ps p Hp Hin. by eapply usable_later, gi_reaper.
  - intros c x Hx. eapply phase_ok_later; [done| |by apply Hg]. intros k p l Hh Hc.
    destruct (holds_before _ _ k p l Hs HL Hh) as (y & Hy & E). exists y. by rewrite <- (conn_of_static l y E).
  - intros w Hw. by eapply writer_ok_later, gi_writers.
Qed.

Lemma remove_lease_inv g p l :
  gw_inv g -> objects (registry g) !! p = Some l -> lock l ≠ None ->
  gw_inv (remove_lease p g) /\ leasesByKey (registry (remove_lease p g)) = delete (Key l) (leasesByKey (registry g)) /\
  keeps_objects (registry g) (registry (remove_lease p g)) /\ stems (registry g) (registry (remove_lease p g)) /\
  clients (remove_lease p g) = clients g /\ reaper (remove_lease p g) = reaper g /\ registered (remove_lease p g) = registered g.
Proof.
  intros Hg Hp Hl. unfold remove_lease. destruct (registry_Remove_spec (registry g) p l (gi_registry g Hg) Hp Hl) as (r' & -> & Hr & Hk & Hs & HL).
  split_and!; try done. apply set_registry_inv; try done. rewrite HL. apply delete_subseteq.
Qed.

Lemma set_phase_lookup c h (l : list client) c' x :
  alter (fun x => mkClient (ws x) h) c l !! c' = Some x ->
  exists y, l !! c' = Some y /\ ws x = ws y /\ ((c' = c /\ phase x = h) \/ (c' ≠ c /\ x = y)).
Proof.
  destruct (decide (c' = c)) as [->|Hd].
  - rewrite list_lookup_alter_eq. destruct (l !! c) as [y|]; cbn; [|done]. intros [= <-]. exists y. auto.
  - rewrite list_lookup_alter_ne by done. eauto 10.
Qed.
Lemma set_phase_client c h (l : list client) c' y :
  l !! c' = Some y -> exists x, alter (fun x => mkClient (ws x) h) c l !! c' = Some x /\ ws x = ws y.
Proof.
  intros Hy. destruct (decide (c' = c)) as [->|Hd]; [rewrite list_lookup_alter_eq|rewrite list_lookup_alter_ne by done]; rewrite Hy; eauto.
Qed.

Lemma set_phase_inv g c h : gw_inv g -> phase_ok (registry g) c h -> gw_inv (set_phase c h g).
Proof.
  intros Hg Hh. split; cbn; try apply Hg.
  - intros c' x Hx. destruct (set_phase_lookup _ _ _ _ _ Hx) as (y & Hy & -> & _). by apply (gi_clients g Hg).
  - intros p l Hl. destruct (gi_objects g Hg p l Hl) as (cn & y & Hc & Hy & Hw & Hreg).
    destruct (set_phase_client c h _ _ _ Hy) as (x & Hx & Ew). exists cn, x. cbn. by rewrite Ew.
  - intros c' x Hx. destruct (set_phase_lookup _ _ _ _ _ Hx) as (y & Hy & _ & [[-> ->]|[_ ->]]); [done|by apply (gi_phases g Hg)].
Qed.

Lemma connect_inv g a : gw_inv g -> ip_ok a = true ->
  gw_inv (set_clients (clients g ++ [mkClient (mkConn (List.length (clients g)) a) (Reading 0)]) g).
Proof.
  intros Hg Ha. split; cbn; try apply Hg.
  - intros c x [[_ Hx]|[-> <-]]%lookup_snoc_Some; [by apply (gi_clients g Hg)|done].
  - intros p l Hl. destruct (gi_objects g Hg p l Hl) as (cn & y & Hc & Hy & Hw). exists cn, y. split_and!; [done| |apply Hw..].
    by apply lookup_app_l_Some.
  - intros c x [[_ Hx]|[-> <-]]%lookup_snoc_Some; [by apply (gi_phases g Hg)|done].
Qed.

Lemma new_object_inv r l : reg_inv r -> wf_lease l ->
  reg_inv (new_object l r).2 /\ objects r !! fresh r = None /\ objects (new_object l r).2 = <[fresh r := l]> (objects r) /\
  leasesByKey (new_object l r).2 = leasesByKey r.
Proof.
  intros Hr Hl. assert (objects r !! fresh r = None) as Hn.
  { destruct (objects r !! fresh r) as [x|] eqn:E; [|done]. pose proof (inv_fresh r Hr _ _ E). lia. }
  split_and!; try done. assert (same_holds r (new_object l r).2) as Hsame.
  { split; [done|]. intros k q x [H1 H2]. cbn. rewrite lookup_insert_ne by congruence. by exists x. }
  split; cbn; [| | | | |apply Hr].
  - intros q x [[<- _]|[_ Hq]]%lookup_insert_Some; [lia|]. pose proof (inv_fresh r Hr _ _ Hq). lia.
  - intros q x [[<- <-]|[_ Hq]]%lookup_insert_Some; [done|by eapply inv_wf].
  - intros k q Hk. destruct (inv_key r Hr k q Hk) as (x & Hx & H'). exists x. rewrite lookup_insert_ne by congruence. done.
  - eapply indexed_same; [| |exact Hsame|apply Hr]; [|intros k q; by apply registered_object]. intros x x' E. by apply static_keys in E as (_ & ? & _).
  - eapply indexed_same; [| |exact Hsame|apply Hr]; [|intros k q; by apply registered_object]. intros x x' E. by apply static_keys in E as (_ & _ & ? & _).
Qed.

Lemma accept_inv g c x n l now :
  gw_inv g -> clients g !! c = Some x -> phase x = Reading n -> wf_lease l -> connection l = Some (ws x) ->
  exists r', Add now (Some (fresh (registry g))) (new_object l (registry g)).2 = Returns r' None /\
    gw_inv (register (mkRegistration (conn_id (ws x)) (userID l) (EventType l) (EventScope l)) (set_registry r' g)).
Proof.
  intros Hg Hx Hph Hl Hc. destruct (new_object_inv (registry g) l (gi_registry g Hg) Hl) as (Hr1 & Hn & HO & HL).
  set (r1 := (new_object l (registry g)).2) in *. set (p := fresh (registry g)) in *.
  destruct (registry_Add_spec r1 p l now Hr1) as (r' & HA & Hr' & Hk & Hs & HL'); [by rewrite HO, lookup_insert_eq|].
  exists r'. split; [done|]. destruct (gi_clients g Hg c x Hx) as [Hid _].
  assert (keeps_objects (registry g) r') as Hkeep.
  { eapply keeps_objects_trans; [|done]. intros q y Hy. exists y. rewrite HO, lookup_insert_ne by congruence. done. }
  assert (forall q y, objects r' !! q = Some y -> (q = p /\ static y = static l) \/ exists z, objects (registry g) !! q = Some z /\ static y = static z) as Hfrom.
  { intros q y Hy. destruct (Hs q y Hy) as (z & Hz & E). rewrite HO in Hz. apply lookup_insert_Some in Hz as [[<- <-]|[_ Hz]]; eauto. }
  split; cbn; try apply Hg; try done.
  - intros q y Hy. destruct (Hfrom q y Hy) as [[-> E]|(z & Hz & E)]; unfold static in E; injection E as E1 E2 E3 E4.
    + exists (ws x), x. cbn. rewrite E1, E2, E3, E4, Hid. split_and!; [done..|]. apply elem_of_app. right. by apply list_elem_of_singleton.
    + destruct (gi_objects g Hg q z Hz) as (cn & w & Hcn & Hw & Hws & Hreg). exists cn, w. cbn. rewrite E1, E2, E3, E4. split_and!; [done..|].
      apply elem_of_app. by left.
  - intros t ps q Hp Hq. by eapply usable_later, gi_reaper.
  - intros c' y Hy. pose proof (gi_phases g Hg c' y Hy) as Hok.
    destruct (decide (c' = c)) as [->|Hd]; [rewrite Hx in Hy; injection Hy as <-; by rewrite Hph|].
    eapply phase_ok_later; [exact Hkeep| |exact Hok]. intros k q z [H1 H2] Hcz.
    destruct (Hfrom q z H2) as [[-> E]|(z' & Hz & E)]; rewrite (conn_of_static _ _ E) in Hcz.
    { unfold conn_of in Hcz. rewrite Hc in Hcz. cbn in Hcz. congruence. }
    exists z'. split; [|done]. split; [|done]. rewrite HL', HL in H1. unfold added in H1.
    destruct (leasesByKey (registry g) !! Key l) as [q'|] eqn:Ek; [done|]. apply lookup_insert_Some in H1 as [[_ ->]|[_ H1]]; [congruence|done].
  - intros w Hw. by eapply writer_ok_later, gi_writers.
  - intros d Hd. destruct (gi_delivered g Hg d Hd) as (y & Hy & H'). exists y. split; [|done]. apply elem_of_app. by left.
Qed.

Section Runs.
Context (AuthEnabled : bool) (Timeout : Z).
Abbreviation handleRegistration := (handleRegistration AuthEnabled).
Abbreviation step := (step AuthEnabled Timeout).
Abbreviation run := (run AuthEnabled Timeout).

Lemma refuse_inv g c : gw_inv g -> gw_inv (refuse c g).
Proof. intros Hg. split; apply Hg. Qed.

Lemma receive_inv g c x n now m :
  gw_inv g -> clients g !! c = Some x -> phase x = Reading n -> gw_inv (handleRegistration c x n now m g).
Proof.
  intros Hg Hx Hph. unfold Gw.handleRegistration. destruct m as [|msgType body session]; [by apply set_phase_inv|].
  destruct (_ && _); [by apply set_phase_inv|]. destruct (10 <=? n)%nat; [by apply set_phase_inv|].
  assert (gw_inv (set_phase c (Reading 0) g)) as Hg0 by by apply set_phase_inv.
  assert (exists y, clients (set_phase c (Reading 0) g) !! c = Some y /\ ws y = ws x /\ phase y = Reading 0) as (y & Hy & Ew & Hpy).
  { cbn. rewrite list_lookup_alter_eq, Hx. cbn. eauto. }
  set (g0 := set_phase c (Reading 0) g) in *. destruct body as [[ty sc]|]; [|by apply set_phase_inv].
  unfold UnmarshalSubscriptionLease. destruct (Validate _) eqn:Ev; [by apply set_phase_inv|].
  destruct (if AuthEnabled then _ else _) as [u|]; [|apply set_phase_inv; [by apply refuse_inv|done]].
  set (l := set_userID u _). assert (wf_lease l) as Hl.
  { split; [|exists (ws x); split; [done|by apply (gi_clients g Hg c)]]. cbn. unfold Validate in Ev. cbn in Ev. by destruct (String.eqb_spec ty ""). }
  destruct (accept_inv g0 c y 0 l now Hg0 Hy Hpy Hl) as (r' & HA & Hinv); [by rewrite Ew|].
  cbn -[Add new_object]. rewrite Ew in Hinv. change (new_object l (registry g)) with (fresh (registry g0), (new_object l (registry g0)).2).
  cbn beta iota. by rewrite HA.
Qed.

Lemma Notify_inv g u t s payload : gw_inv g -> gw_inv (Notify u t s payload g) /\ registered (Notify u t s payload g) = registered g.
Proof.
  intros Hg. unfold Notify. destruct (getLeasesByUser_spec (registry g) u t s (gi_registry g Hg)) as (ps & -> & _ & Hps).
  destruct ps as [|p ps]; [by split; [split; apply Hg|]|]. split; [|done]. split; cbn; try apply Hg.
  intros w [Hw| ->%list_elem_of_singleton]%elem_of_app; [by apply Hg|]. intros q Hq. cbn in *.
  apply Hps in Hq as (k & l & Hh & E). exists l. split_and!; [apply Hh| |done].
  destruct (inv_key _ (gi_registry g Hg) k q (proj1 Hh)) as (x & Hx & _ & _ & Hn). destruct Hh as [_ Hh]. congruence.
Qed.

Lemma on_event_inv g ev payload saved : gw_inv g -> gw_inv (on_event ev payload saved g) /\ registered (on_event ev payload saved g) = registered g.
Proof.
  intros Hg. destruct ev as [[u|u|u|u q|u q| |u]|]; cbn [on_event].
  5: { unfold subscribeToLogEvent. destruct (Notify_inv g u "LogEvent" q payload Hg) as [HN HR].
       destruct saved; [|done]. split; [|done]. split; apply HN. }
  7: done.
  all: unfold subscribeToJobDefinitionLifecycleEvent, subscribeToJobRequestLifecycleEvent, subscribeToJobExecutionLifecycleEvent,
    subscribeToTaskExecutionLifecycleEvent, subscribeToHealthErrorEvent, subscribeToContainersLifecycleEvents; by apply Notify_inv.
Qed.

Lemma write_inv g k w p network w' :
  gw_inv g -> writers g !! k = Some w -> p ∈ w_leases w -> (forall q, q ∈ w_leases w' -> q ∈ w_leases w) ->
  w_user w' = w_user w -> w_type w' = w_type w -> w_scope w' = w_scope w ->
  gw_inv (set_writers (<[k := w']> (writers g)) (write_lease w p network g)) /\
  registered (write_lease w p network g) = registered g.
Proof.
  intros Hg Hw Hp Hsub E1 E2 E3. assert (w ∈ writers g) as Hin by by eapply list_elem_of_lookup_2.
  destruct (gi_writers g Hg w Hin p Hp) as (l & Hl & Hlock & EK). unfold write_lease, WriteMessage. rewrite Hl.
  assert (forall v, v ∈ <[k := w']> (writers g) -> writer_ok (registry g) v) as Hwr.
  { intros v (i & Hi)%list_elem_of_lookup. apply list_lookup_insert_Some in Hi as [(_ & <- & _)|[_ Hi]].
    - intros q Hq. destruct (gi_writers g Hg w Hin q (Hsub q Hq)) as (y & Hy). exists y. by rewrite E1, E2, E3.
    - by apply Hg; eapply list_elem_of_lookup_2. }
  destruct (lock l) as [k'|]; [|done]. destruct (gi_objects g Hg p l Hl) as (cn & x & Hc & _ & _ & Hreg). rewrite Hc.
  destruct (is_open _ l && network); (split; [|done]); split; cbn; try apply Hg; try done.
  intros d [Hd| ->%list_elem_of_singleton]%elem_of_app; [by apply Hg|]. exists (mkRegistration (conn_id cn) (userID l) (EventType l) (EventScope l)).
  done.
Qed.

Lemma drop_inv g c conn ps i p :
  gw_inv g -> clients g !! c = Some (mkClient conn (Leaving ps)) -> ps !! i = Some p ->
  gw_inv (set_phase c (Leaving (delete i ps)) (remove_lease p g)).
Proof.
  intros Hg Hc Hi. destruct (gi_phases g Hg c _ Hc) as [Hu Hh]. destruct (Hu p) as (l & Hl & Hlock); [by eapply list_elem_of_lookup_2|].
  destruct (remove_lease_inv g p l Hg Hl Hlock) as (Hg' & HL & Hk & Hs & HC & _). apply set_phase_inv; [done|].
  split; [intros q Hq%list_elem_of_delete_inv; by eapply usable_later, Hu|].
  rewrite <- HC in Hc. destruct (gi_phases _ Hg' c _ Hc) as [_ Hh']. intros k q x Hx Hcx.
  destruct (Hh' k q x Hx Hcx) as (q' & y & Hq' & Hy & E). exists q', y. split_and!; [|done..].
  rewrite (delete_Permutation ps i p Hi) in Hq'. apply elem_of_cons in Hq' as [->|Hq']; [|done]. exfalso.
  destruct Hx as [Hx _]. rewrite HL in Hx. apply lookup_delete_Some in Hx as [Hne _]. apply Hne. rewrite <- E.
  destruct (Hk p l Hl) as (y' & Hy' & Es & _). rewrite Hy in Hy'. injection Hy' as <-. by apply static_keys in Es as (-> & _).
Qed.

Lemma unwind_inv g c conn :
  gw_inv g -> clients g !! c = Some (mkClient conn Returned) ->
  exists ps, getLeasesByAddress (Addr_String (RemoteAddr conn)) (registry g) = (ps, registry g) /\
    gw_inv (set_phase c (Leaving ps) (set_registry (registry g) g)).
Proof.
  intros Hg Hc. destruct (getLeasesByAddress_spec (registry g) (Addr_String (RemoteAddr conn)) (gi_registry g Hg)) as (ps & -> & _ & Hps).
  exists ps. split; [done|]. apply set_phase_inv; [by split; apply Hg|]. split.
  - intros p (k & l & Hh & _)%Hps. by eapply holds_usable; [apply Hg|].
  - intros k p l Hh Hcl. exists p, l. split_and!; [|apply Hh|].
    + apply Hps. exists k, l. split; [done|]. destruct (gi_objects g Hg p l (proj2 Hh)) as (cn & x & Hcn & Hx & Hw & _).
      unfold conn_of in Hcl. rewrite Hcn in Hcl. injection Hcl as Hcl. rewrite Hcl in Hx. rewrite Hc in Hx. injection Hx as <-.
      unfold Address. rewrite Hcn. by rewrite <- Hw.
    + destruct Hh as [H1 H2]. cbn in H1, H2. destruct (inv_key _ (gi_registry g Hg) k p H1) as (x & Hx & E & _). rewrite H2 in Hx. by injection Hx as ->.
Qed.

Lemma reap_inv g now ps i p :
  gw_inv g -> reaper g = Some (now, ps) -> ps !! i = Some p ->
  gw_inv (set_reaper (Some (now, delete i ps)) (reap_lease Timeout now p g)) /\ registered (reap_lease Timeout now p g) = registered g.
Proof.
  intros Hg Hr Hi. destruct (gi_reaper g Hg now ps p Hr) as (l & Hl & Hlock); [by eapply list_elem_of_lookup_2|].
  assert (exists g', reap_lease Timeout now p g = g' /\ gw_inv g' /\ reaper g' = reaper g /\ registered g' = registered g) as (g' & -> & Hg' & Er & Eg).
  { eexists. split; [done|]. unfold reap_lease. rewrite Hl. destruct (is_stale _ _ l); [|done].
    by destruct (remove_lease_inv g p l Hg Hl Hlock) as (? & _ & _ & _ & _ & ? & ?). }
  split; [|done]. split; cbn; try apply Hg'. intros t qs q [= <- <-] Hq%list_elem_of_delete_inv.
  eapply (gi_reaper g' Hg'); [by rewrite Er|done].
Qed.

(** The message a registration comes from. *)
Definition asked (l : list event) (x : registration) : Prop :=
  exists now msgType session,
    Receive (g_conn x) now (Message msgType (Some (g_type x, g_scope x)) session) ∈ l /\ (AuthEnabled = true -> session = Some (g_user x)).
Definition moves (e : event) (g g' : Gateway) : Prop :=
  gw_inv g' /\ forall x, x ∈ registered g' -> x ∈ registered g \/ asked [e] x.
Lemma quiet_moves e g g' : gw_inv g' -> registered g' = registered g -> moves e g g'.
Proof. intros Hg E. split; [done|]. rewrite E. auto. Qed.

Lemma receive_asked g c x n now m :
  conn_id (ws x) = c ->
  forall y, y ∈ registered (handleRegistration c x n now m g) -> y ∈ registered g \/ asked [Receive c now m] y.
Proof.
  intros Hid y. unfold Gw.handleRegistration. destruct m as [|msgType body session]; [by left|].
  destruct (_ && _); [by left|]. destruct (10 <=? n)%nat; [by left|]. destruct body as [[ty sc]|]; [|by left].
  unfold UnmarshalSubscriptionLease. destruct (Validate _); [by left|].
  destruct (if AuthEnabled then _ else _) as [u|] eqn:Eu; [|by left]. cbn -[Add new_object].
  destruct (new_object _ _) as [p r]. destruct (Add now (Some p) r) as [r' [err|]|]; [by left| |by left]. cbn.
  intros [Hy| ->%list_elem_of_singleton]%elem_of_app; [by left|]. right. exists now, msgType, session. cbn. rewrite Hid.
  split; [by apply list_elem_of_singleton|]. intros EA. by rewrite EA in Eu.
Qed.

Lemma gateway_step_moves e g g' : gw_inv g -> step e g = Some g' -> moves e g g'.
Proof.
  intros Hg. unfold Gw.step. rewrite (gi_ok g Hg). destruct e as [a|c now m|c|c i|now|i|ev payload saved|k i network].
  - destruct (ip_ok a) eqn:Ha; [|done]. intros [= <-]. apply quiet_moves; [by apply connect_inv|done].
  - destruct (clients g !! c) as [[conn [n| | |]]|] eqn:Hc; try done. intros [= <-]. destruct (gi_clients g Hg c _ Hc) as [Hid _].
    split; [by eapply receive_inv|by apply receive_asked].
  - destruct (clients g !! c) as [[conn [n| | |]]|] eqn:Hc; try done. destruct (unwind_inv g c conn Hg Hc) as (ps & -> & Hinv).
    intros [= <-]. by apply quiet_moves.
  - destruct (clients g !! c) as [[conn [n| |ps|]]|] eqn:Hc; try done. destruct (ps !! i) as [p|] eqn:Hi.
    + intros [= <-]. apply quiet_moves; [by eapply drop_inv|]. destruct (gi_phases g Hg c _ Hc) as [Hu _].
      destruct (Hu p) as (l & Hl & Hlock); [by eapply list_elem_of_lookup_2|].
      by destruct (remove_lease_inv g p l Hg Hl Hlock) as (_ & _ & _ & _ & _ & _ & ?).
    + destruct ps; [|done]. intros [= <-]. apply quiet_moves; [|done]. apply set_phase_inv; [done|].
      destruct (gi_phases g Hg c _ Hc) as [_ Hh]. intros k p l Hl Hcl. destruct (Hh k p l Hl Hcl) as (q & x & Hq & _). by apply elem_of_nil in Hq.
  - intros H. assert (g' = set_reaper (Some (now, getAllLeases (registry g))) g) as ->
      by (destruct (reaper g) as [[? [|? ?]]|]; by simplify_eq).
    apply quiet_moves; [|done]. split; cbn; try apply Hg. intros t ps p [= <- <-] [k Hk]%getAllLeases_spec.
    destruct (inv_key _ (gi_registry g Hg) k p Hk) as (l & Hl & _ & _ & Hn). by exists l.
  - destruct (reaper g) as [[now ps]|] eqn:Hr; [|done]. destruct (ps !! i) as [p|] eqn:Hi; [|done]. intros [= <-].
    destruct (reap_inv g now ps i p Hg Hr Hi). by apply quiet_moves.
  - intros [= <-]. destruct (on_event_inv g ev payload saved Hg). by apply quiet_moves.
  - destruct (writers g !! k) as [w|] eqn:Hw; [|done]. destruct (w_leases w !! i) as [p|] eqn:Hi; [|done]. intros [= <-].
    destruct (write_inv g k w p network (mkWriter (w_user w) (w_type w) (w_scope w) (w_payload w) (delete i (w_leases w))) Hg Hw)
      as [H1 H2]; try done; [by eapply list_elem_of_lookup_2|by intros q Hq%list_elem_of_delete_inv|]. by apply quiet_moves.
Qed.

Lemma NewLeaseRegistry_inv : reg_inv NewLeaseRegistry.
Proof.
  assert (forall key_of, indexed ∅ NewLeaseRegistry key_of) as Hi.
  { split; [|by intros e ks; rewrite lookup_empty]. intros e k. rewrite lookup_empty. cbn. split; [set_solver|].
    by intros (p & l & [H1 _] & _). }
  split; cbn; [by intros p l; rewrite lookup_empty..|apply Hi|apply Hi|]. intros a. rewrite !lookup_empty. by split; intros [].
Qed.
Lemma New_inv : gw_inv New.
Proof.
  split; cbn; [done|apply NewLeaseRegistry_inv|by intros ? ?|by intros ? ?; rewrite lookup_empty|done|by intros ? ?| |].
  - by intros w Hw%elem_of_nil.
  - by intros d Hd%elem_of_nil.
Qed.

Lemma run_moves l g g' :
  gw_inv g -> run l g = Some g' -> gw_inv g' /\ forall x, x ∈ registered g' -> x ∈ registered g \/ asked l x.
Proof.
  revert g. induction l as [|e l IH]; intros g Hg; cbn; [intros [= <-]; auto|]. destruct (step e g) as [g1|] eqn:E; [|done]. cbn.
  intros Hrun. destruct (gateway_step_moves e g g1 Hg E) as [Hg1 H1]. destruct (IH g1 Hg1 Hrun) as [Hg' H']. split; [done|].
  intros x Hx. destruct (H' x Hx) as [Hx1|(now & t & s & Hin & Ha)].
  - destruct (H1 x Hx1) as [Hx0|(now & t & s & Hin & Ha)]; [by left|]. right. exists now, t, s. split; [|done].
    apply list_elem_of_singleton in Hin as ->. apply elem_of_cons. by left.
  - right. exists now, t, s. split; [|done]. apply elem_of_cons. by right.
Qed.
End Runs.

(** The registry is consistent in every interleaving of the clients'
    goroutines, the reaper and the notifications.  The gateway does not crash; a
    lookup by address and one by user, type and scope finds exactly the registered
    leases with these, each once, and removes nothing; and the leases of one
    address share one mutex, so that writes to a socket exclude each other. *)
Theorem gateway_lookups_are_exact AuthEnabled Timeout l g :
  run AuthEnabled Timeout l New = Some g ->
  crashed g = false /\
  (forall a, exists ps, getLeasesByAddress a (registry g) = (ps, registry g) /\ answers (registry g) Address a ps) /\
  (forall u t s, exists ps, getLeasesByUserAndEventTypeScope u t s (registry g) = (ps, registry g) /\
     answers (registry g) KeyWithoutAddress (EventKey "" u t s) ps) /\
  (forall k p x k' p' x', holds (registry g) k p x -> holds (registry g) k' p' x' -> Address x = Address x' ->
     lock x = lock x' /\ lock x ≠ None).
Proof.
  intros Hrun. destruct (run_moves _ _ l New g New_inv Hrun) as [Hg _]. pose proof (gi_registry g Hg) as Hr.
  split_and!; [apply Hg|intros a; by apply getLeasesByAddress_spec|intros u t s; by apply getLeasesByUser_spec|].
  intros k p x k' p' x' [H1 H2] [H3 H4] E. destruct (inv_key _ Hr k p H1) as (y & Hy & _ & HL & Hn), (inv_key _ Hr k' p' H3) as (y' & Hy' & _ & HL' & _).
  rewrite H2 in Hy. rewrite H4 in Hy'. simplify_eq. split; [congruence|done].
Qed.

(** ** Whose events are written

    The user that an event of the queue belongs to, the type under which clients
    subscribe to it and the scope; errors of the server belong to nobody. *)
Definition owner (ev : GatewayEvent) : string :=
  match ev with
  | JobDefinitionLifecycle u | JobRequestLifecycle u | JobExecutionLifecycle u | TaskExecutionLifecycle u _
  | LogMessage u _ | ContainerLifecycle u => u
  | HealthError => ""
  end.
Definition type_name (ev : GatewayEvent) : string :=
  match ev with
  | JobDefinitionLifecycle _ => "JobDefinitionLifecycleEvent"
  | JobRequestLifecycle _ => "JobRequestLifecycleEvent"
  | JobExecutionLifecycle _ => "JobExecutionLifecycleEvent"
  | TaskExecutionLifecycle _ _ => "TaskExecutionLifecycleEvent"
  | LogMessage _ _ => "LogEvent"
  | HealthError => "HealthErrorEvent"
  | ContainerLifecycle _ => "ContainerLifecycleEvent"
  end.
Definition job_of (ev : GatewayEvent) : string :=
  match ev with TaskExecutionLifecycle _ q | LogMessage _ q => q | _ => "" end.

(** An event with this payload was received, and it has these labels. *)
Definition told (l : list event) (user type scope payload : string) : Prop :=
  exists ev saved, Notice (Some ev) payload saved ∈ l /\ owner ev = user /\ type_name ev = type /\ job_of ev = scope.
Definition sourced (l : list event) (g : Gateway) : Prop :=
  (forall w, w ∈ writers g -> told l (w_user w) (w_type w) (w_scope w) (w_payload w)) /\
  (forall d, d ∈ delivered g -> told l (d_user d) (d_type d) (d_scope d) (d_payload d)).

Lemma told_later l e u t s p : told l u t s p -> told (l ++ [e]) u t s p.
Proof. intros (ev & saved & Hin & H). exists ev, saved. split; [|done]. apply elem_of_app. by left. Qed.
Lemma sourced_later l e g g' : writers g' = writers g -> delivered g' = delivered g -> sourced l g -> sourced (l ++ [e]) g'.
Proof. unfold sourced. intros -> -> [Hw Hd]. split; intros x Hx; apply told_later; auto. Qed.

Lemma remove_quiet p g : writers (remove_lease p g) = writers g /\ delivered (remove_lease p g) = delivered g.
Proof. unfold remove_lease. by destruct (Remove _ _). Qed.
Lemma reap_quiet Timeout now p g : writers (reap_lease Timeout now p g) = writers g /\ delivered (reap_lease Timeout now p g) = delivered g.
Proof. unfold reap_lease. destruct (objects _ !! p); [|done]. destruct (is_stale _ _ _); [apply remove_quiet|done]. Qed.
Lemma receive_quiet AuthEnabled c x n now m g :
  writers (handleRegistration AuthEnabled c x n now m g) = writers g /\ delivered (handleRegistration AuthEnabled c x n now m g) = delivered g.
Proof.
  unfold handleRegistration. destruct m as [|msgType body session]; [done|]. destruct (_ && _); [done|]. destruct (10 <=? n)%nat; [done|].
  destruct (UnmarshalSubscriptionLease _ _) as [l|]; [|done]. destruct (if AuthEnabled then _ else _); [|done].
  destruct (new_object _ _) as [p r]. by destruct (Add _ _ _) as [? [?|]|].
Qed.

(** A notification carries the labels it was made for. *)
Lemma Notify_sourced l u t s p g :
  sourced l g -> told l u t s p -> sourced l (Notify u t s p g).
Proof.
  intros [Hw Hd] Ht. unfold Notify. destruct (getLeasesByUserAndEventTypeScope _ _ _ _) as [ps r]. destruct ps as [|q ps]; [by split|].
  split; [|done]. cbn. intros w [Hin| ->%list_elem_of_singleton]%elem_of_app; [by apply Hw|done].
Qed.
Lemma on_event_sourced l ev payload saved g : sourced l g -> sourced (l ++ [Notice ev payload saved]) (on_event ev payload saved g).
Proof.
  intros Hs. assert (sourced (l ++ [Notice ev payload saved]) g) as Hs' by by eapply sourced_later.
  destruct ev as [ev|]; [|done].
  assert (told (l ++ [Notice (Some ev) payload saved]) (owner ev) (type_name ev) (job_of ev) payload) as Ht.
  { exists ev, saved. split; [|done]. apply elem_of_app. right. by apply list_elem_of_singleton. }
  pose proof (Notify_sourced _ _ _ _ _ g Hs' Ht) as HN.
  destruct ev; cbn [owner type_name job_of] in HN; cbn [on_event]; try exact HN.
  unfold subscribeToLogEvent. destruct saved; [|exact HN]. destruct HN as [H1 H2]. split; [exact H1|exact H2].
Qed.
Lemma write_sourced l e k i w p network g w' :
  sourced l g -> writers g !! k = Some w -> w_leases w !! i = Some p ->
  (w_user w', w_type w', w_scope w', w_payload w') = (w_user w, w_type w, w_scope w, w_payload w) ->
  sourced (l ++ [e]) (set_writers (<[k := w']> (writers g)) (write_lease w p network g)).
Proof.
  intros [Hw Hd] Hk Hi [= E1 E2 E3 E4]. pose proof (Hw w ltac:(by eapply list_elem_of_lookup_2)) as Ht. split; cbn.
  - intros x (j & Hj)%list_elem_of_lookup. apply told_later. apply list_lookup_insert_Some in Hj as [(-> & <- & _)|[_ Hj]].
    + by rewrite E1, E2, E3, E4.
    + apply Hw. by eapply list_elem_of_lookup_2.
  - intros d Hin. apply told_later. unfold write_lease in Hin. destruct (objects (registry g) !! p) as [x|]; [|by apply Hd].
    destruct (WriteMessage network (registry g) x) as [[]|], (connection x); cbn in Hin; try (by apply Hd).
    apply elem_of_app in Hin as [Hin| ->%list_elem_of_singleton]; [by apply Hd|done].
Qed.

Lemma step_sourced AuthEnabled Timeout l e g g' : sourced l g -> step AuthEnabled Timeout e g = Some g' -> sourced (l ++ [e]) g'.
Proof.
  intros Hs. unfold step. destruct (crashed g); [done|]. destruct e as [a|c now m|c|c i|now|i|ev payload saved|k i network].
  - destruct (ip_ok a); [|done]. intros [= <-]. by eapply sourced_later.
  - destruct (clients g !! c) as [[conn []]|]; try done. intros [= <-]. eapply sourced_later; [apply receive_quiet|apply receive_quiet|done].
  - destruct (clients g !! c) as [[conn []]|]; try done. destruct (getLeasesByAddress _ _) as [ps r]. intros [= <-]. by eapply sourced_later.
  - destruct (clients g !! c) as [[conn [| |ps|]]|]; try done. destruct (ps !! i) as [p|].
    + intros [= <-]. eapply sourced_later; [apply (remove_quiet p)|apply (remove_quiet p)|done].
    + destruct ps; [|done]. intros [= <-]. by eapply sourced_later.
  - intros H. destruct (reaper g) as [[? [|]]|]; simplify_eq; by eapply sourced_later.
  - destruct (reaper g) as [[now ps]|]; [|done]. destruct (ps !! i) as [p|]; [|done]. intros [= <-].
    eapply sourced_later; [apply (reap_quiet Timeout now p)|apply (reap_quiet Timeout now p)|done].
  - intros [= <-]. by apply on_event_sourced.
  - destruct (writers g !! k) as [w|] eqn:Hw; [|done]. destruct (w_leases w !! i) as [p|] eqn:Hi; [|done]. intros [= <-].
    by eapply write_sourced.
Qed.
Lemma run_sourced AuthEnabled Timeout l2 : forall l1 g g', sourced l1 g -> run AuthEnabled Timeout l2 g = Some g' -> sourced (l1 ++ l2) g'.
Proof.
  induction l2 as [|e l2 IH]; intros l1 g g' Hs; cbn; [rewrite app_nil_r; by intros [= <-]|].
  destruct (step AuthEnabled Timeout e g) as [g1|] eqn:E; [|done]. cbn. intros Hrun. change (l1 ++ e :: l2) with (l1 ++ [e] ++ l2). rewrite (app_assoc l1 [e] l2).
  eapply IH; [by eapply step_sourced|done].
Qed.

(** The identifiers of users that a run meets: those of sessions and of events. *)
Definition users_in (e : event) : list string :=
  match e with
  | Receive _ _ (Message _ _ (Some u)) => [u]
  | Notice (Some ev) _ _ => [owner ev]
  | _ => []
  end.

(** C14: where clients have to log in, a client gets only events of its own user.
    An event that was written to a socket is the payload of an event that the
    queue delivered and that belongs to a user [u], and that socket had sent a
    message, read while its session belonged to [u], that asked for events; if
    the type in that message has no colon, it is the type of the event and the
    scope is that of the event (the job request for task and log events).
    Identifiers of users have no colons.  (The only other frame that the gateway
    writes tells a client without a session that it has none.) *)
Theorem events_reach_only_their_user Timeout l g d :
  run true Timeout l New = Some g -> d ∈ delivered g ->
  (forall e u, e ∈ l -> u ∈ users_in e -> string_mem ":"%char u = false) ->
  exists ev saved now msgType ty sc,
    Notice (Some ev) (d_payload d) saved ∈ l /\
    Receive (d_conn d) now (Message msgType (Some (ty, sc)) (Some (owner ev))) ∈ l /\
    (string_mem ":"%char ty = false -> ty = type_name ev /\ sc = job_of ev).
Proof.
  intros Hrun Hd Hus. destruct (run_moves _ _ l New g New_inv Hrun) as [Hg Hasked].
  assert (sourced [] New) as H0 by (split; by intros ? ?%elem_of_nil).
  destruct (run_sourced _ _ l [] New g H0 Hrun) as [_ Hs]. destruct (Hs d Hd) as (ev & saved & Hin & E1 & E2 & E3).
  destruct (gi_delivered g Hg d Hd) as (x & Hx & Hc & EK).
  destruct (Hasked x Hx) as [?%elem_of_nil|(now & t & s & Hr & Es)]; [done|]. rewrite (Es eq_refl) in Hr.
  assert (string_mem ":"%char (g_user x) = false) as H1 by (apply (Hus _ _ Hr); cbn; by apply list_elem_of_singleton).
  assert (string_mem ":"%char (owner ev) = false) as H2 by (apply (Hus _ _ Hin); cbn; by apply list_elem_of_singleton).
  rewrite E1 in H2. destruct (event_key_user _ _ _ _ _ _ H1 H2 EK) as [Eu Et].
  exists ev, saved, now, t, (g_type x), (g_scope x). rewrite E1, <- Eu, <- Hc. split_and!; [done..|]. rewrite E2, E3. intros H3.
  assert (string_mem ":"%char (d_type d) = false) as H4 by (rewrite <- E2; by destruct ev). by apply colons_inj in Et.
Qed.

(** When the goroutine of a connection has ended, no lease of that connection
    is registered: however reads, removals by the reaper and the cleanup
    interleave. *)
Theorem no_lease_outlives_its_handler AuthEnabled Timeout l g c conn k p x :
  run AuthEnabled Timeout l New = Some g -> clients g !! c = Some (mkClient conn Gone) -> holds (registry g) k p x ->
  conn_of x ≠ Some c.
Proof.
  intros Hrun Hc Hh. destruct (run_moves _ _ l New g New_inv Hrun) as [Hg _]. by apply (gi_phases g Hg c _ Hc k p).
Qed.

(** ** Starting *)
Section Starting.
Context (enabled : gmap string bool) (Subscribe : topic -> string + string) (UnSubscribe : topic -> string -> option string).

(** A subscription that fails after the first stops the gateway, whose ticker
    does not exist yet: the start does not return the error but panics. *)
Lemma failed_start_panics l s :
  ticker s = false -> Forall (fun x => x.2 ≠ JobDefinitionLifecycleTopic) l ->
  (exists x, x ∈ l /\ default false (enabled !! x.1) = true /\ exists e, Subscribe x.2 = inr e) ->
  (start_from enabled Subscribe UnSubscribe l s).1 = StartPanics.
Proof.
  intros Ht Hl. revert s Ht. induction Hl as [|[name t] l Hne _ IH]; intros s Ht (x & Hx & He & e & Hf); [by apply elem_of_nil in Hx|].
  cbn [start_from]. apply elem_of_cons in Hx as [->|Hx]; [|assert (exists y, y ∈ l /\ default false (enabled !! y.1) = true /\ exists e, Subscribe y.2 = inr e) as Hrest by eauto 10].
  - cbn in He, Hf. rewrite He, Hf. rewrite bool_decide_false by done. unfold Stop. cbn. by rewrite Ht.
  - destruct (default false (enabled !! name)); [|by apply IH]. destruct (Subscribe t) as [id|e']; [by apply IH|].
    rewrite bool_decide_false by done. unfold Stop. cbn. by rewrite Ht.
Qed.

(** Without failures exactly the enabled subscriptions are made, in order. *)
Lemma start_subscribes l s :
  (forall x, x ∈ l -> default false (enabled !! x.1) = true -> exists id, Subscribe x.2 = inl id) ->
  exists s', start_from enabled Subscribe UnSubscribe l s = (Started, s') /\ ticker s' = true /\
    calls s' = calls s ++ map (fun x => Subscribed x.2) (List.filter (fun x => default false (enabled !! x.1)) l).
Proof.
  revert s. induction l as [|[name t] l IH]; intros s Hok; cbn [start_from List.filter map].
  { eexists. split_and!; [done..|]. by rewrite app_nil_r. }
  assert (forall x, x ∈ l -> default false (enabled !! x.1) = true -> exists id, Subscribe x.2 = inl id) as Hl
    by (intros x Hx; apply Hok; apply elem_of_cons; by right).
  cbn [fst]. destruct (default false (enabled !! name)) eqn:E; [|by apply IH].
  destruct (Hok (name, t)) as [id Hid]; [apply elem_of_cons; by left|done|]. cbn in Hid. rewrite Hid. cbn.
  destruct (IH (mkService (ids s ++ [(t, id)]) (ticker s) (calls s ++ [Subscribed t])) Hl) as (s' & -> & Ht & Hc).
  exists s'. split_and!; [done..|]. rewrite Hc. cbn. by rewrite <- app_assoc.
Qed.
End Starting.

(** ** Examples *)
Module GatewayDemo.
Definition ip4 : TCPAddr := mkTCPAddr "10.0.0.7" 51000.
Definition ip6 : TCPAddr := mkTCPAddr "::1" 51001.
Definition ask (ty sc user : string) : incoming := Message TextMessage (Some (ty, sc)) (Some user).
Definition minute : Z := 60 * 1000000000.
(** Two users subscribe; an event of the first is written to its socket; its
    connection ends. *)
Definition busy : list event :=
  [Connect ip4; Connect ip6;
   Receive 0 0 (ask "LogEvent" "r1" "ann"); Receive 0 0 (ask "JobExecutionLifecycleEvent" "" "ann");
   Receive 1 0 (ask "LogEvent" "r1" "bob");
   Notice (Some (LogMessage "ann" "r1")) "log" true; WriteLease 0 0 true].
Definition ended : list event := busy ++ [Receive 0 0 ReadError; Unwind 0; DropLease 0 1; DropLease 0 0; DropLease 0 0].
Definition state (l : list event) : Gateway := default New (run true minute l New).
Lemma state_run l : is_Some (run true minute l New) -> run true minute l New = Some (state l).
Proof. unfold state. by intros [g ->]. Qed.

Lemma gateway_lookups_are_exact_witness :
  run true minute busy New = Some (state busy) /\ crashed (state busy) = false /\
  getLeasesByUserAndEventTypeScope "ann" "LogEvent" "r1" (registry (state busy)) = ([0%nat], registry (state busy)).
Proof.
  split; [by vm_compute|]. split; [|by vm_compute].
  exact (proj1 (gateway_lookups_are_exact true minute busy (state busy) ltac:(by vm_compute))).
Defined.

Definition log_for_ann : delivery := mkDelivery 0 "ann" "LogEvent" "r1" "log".
Lemma events_reach_only_their_user_witness :
  delivered (state busy) = [log_for_ann] /\
  exists ev saved now msgType ty sc,
    Notice (Some ev) "log" saved ∈ busy /\ Receive 0 now (Message msgType (Some (ty, sc)) (Some (owner ev))) ∈ busy /\
    (string_mem ":"%char ty = false -> ty = type_name ev /\ sc = job_of ev).
Proof.
  assert (delivered (state busy) = [log_for_ann]) as E by by vm_compute. split; [done|].
  apply (events_reach_only_their_user minute busy (state busy) log_for_ann); [by vm_compute| |].
  - rewrite E. by apply list_elem_of_singleton.
  - assert (Forall (fun e => Forall (fun u => string_mem ":"%char u = false) (users_in e)) busy) as HF by (vm_compute; repeat constructor).
    intros e u He Hu. rewrite Forall_forall in HF. specialize (HF e He). rewrite Forall_forall in HF. by apply HF.
Defined.

Lemma no_lease_outlives_its_handler_witness :
  exists p x, holds (registry (state ended)) "[::1]:51001::bob::LogEvent::r1" p x /\ conn_of x ≠ Some 0%nat.
Proof.
  eexists _, _. split; [split; by vm_compute|].
  refine (no_lease_outlives_its_handler true minute ended (state ended) 0 (mkConn 0 ip4) "[::1]:51001::bob::LogEvent::r1" _ _ _ _ _);
    [by vm_compute|by vm_compute|split; by vm_compute].
Defined.

(** A client renews one of two subscriptions; the reaper removes the other one
    and with it closes the socket of both: the renewed one stays registered and
    gets nothing. *)
Lemma stale_lease_closes_the_connection :
  let g := state [Connect ip4; Receive 0 0 (ask "LogEvent" "r1" "ann"); Receive 0 0 (ask "LogEvent" "r2" "ann");
                  Receive 0 minute (ask "LogEvent" "r2" "ann"); Reap (minute + minute / 2); ReapLease 0; ReapLease 0;
                  Notice (Some (LogMessage "ann" "r2")) "log" true; WriteLease 0 0 true] in
  leasesByKey (registry g) !! "10.0.0.7:51000::ann::LogEvent::r2" = Some 2%nat /\ closed (registry g) = {[0%nat]} /\ delivered g = [].
Proof. cbv zeta. split_and!; by vm_compute. Qed.

(** Health errors are for the user without a name: with sessions no subscriber of
    them is ever notified. *)
Lemma health_errors_reach_nobody :
  writers (state [Connect ip4; Receive 0 0 (ask "HealthErrorEvent" "" "ann"); Notice (Some HealthError) "down" true]) = [].
Proof. by vm_compute. Qed.

(** A first message that is no subscription ends the goroutine; the socket, which
    only the removal of a lease closes, stays open. *)
Lemma refused_client_stays_connected :
  let g := state [Connect ip4; Receive 0 0 (Message TextMessage None (Some "ann")); Unwind 0; DropLease 0 0] in
  clients g = [mkClient (mkConn 0 ip4) Gone] /\ closed (registry g) = ∅.
Proof. by vm_compute. Qed.

(** A client that comes back from the same address before its old goroutine has
    ended renews the old lease, and has none when that goroutine has cleaned up. *)
Lemma early_return_loses_the_subscription :
  let g := state [Connect ip4; Receive 0 0 (ask "LogEvent" "r1" "ann"); Connect ip4; Receive 1 0 (ask "LogEvent" "r1" "ann");
                  Receive 0 0 ReadError; Unwind 0; DropLease 0 0; DropLease 0 0] in
  leasesByKey (registry g) = ∅ /\ clients g !! 1%nat = Some (mkClient (mkConn 1 ip4) (Reading 0)) /\ closed (registry g) = {[0%nat]}.
Proof. cbv zeta. split_and!; by vm_compute. Qed.
End GatewayDemo.
