(* ===== verification/Account.v ===== *)
(** * Account: users, organizations and what belongs to them

    Models the data of [src/internal/types] and [src/queen/types] behind the
    accounts: e-mail addresses and notifications ([job_notify_config.go],
    [Module Mail]), configurations of an owner ([config.go], [Module Configs]),
    subscriptions ([subscription.go]), organizations ([organization.go]), users
    ([user.go]), invitations, e-mail verifications, tokens and sessions.

    Times are nanoseconds, zero for Go's zero time.  The maps [Errors] for the web
    forms and the caches of roles and permissions (see [Acl.Users]) are left
    out. *)

From Stdlib Require Import Ascii.
From S2P Require Import Prelude Acl JobDefinition JobRequest Resource.
Import Notify NameValue.

Open Scope Z_scope.
Open Scope go_scope.

(** The last of the checks that fail, as in a chain of [if]s that assign [err]. *)
Definition last_error {E} (l : list (bool * E)) : option E := foldl (fun (e : option E) (x : bool * E) => if fst x then Some (snd x) else e) None l.
Definition nonempty_or (a b : string) : string := if a != "" then a else b.

(** ** E-mail addresses *)
Module Mail.
Definition between (a b : ascii) (c : ascii) : bool :=
  (nat_of_ascii a <=? nat_of_ascii c)%nat && (nat_of_ascii c <=? nat_of_ascii b)%nat.
Definition alnum (c : ascii) : bool := between "a" "z" c || between "A" "Z" c || between "0" "9" c.
(** The characters before the [@] of [emailRegex]. *)
Definition local_char (c : ascii) : bool := alnum c || string_mem c ".!#$%&'*+/=?^_`{|}~-".
Definition label_char (c : ascii) : bool := alnum c || Ascii.eqb c "-".
Fixpoint last_char (c : ascii) (s : string) : ascii := match s with EmptyString => c | String d s => last_char d s end.
(** A label: at most 63 letters, digits and hyphens, with no hyphen at its ends. *)
Definition label_ok (s : string) : bool :=
  match s with
  | EmptyString => false
  | String c r => alnum c && alnum (last_char c r) && string_forall label_char s && (String.length s <=? 63)%nat
  end.
(** [regexp.MustCompile(emailRegex).MatchString]. *)
Fixpoint match_from (s : string) (started : bool) : bool :=
  match s with
  | EmptyString => false
  | String c r =>
      if Ascii.eqb c "@" then started && forallb label_ok (Split r ".") else local_char c && match_from r true
  end.
Definition MatchEmail (s : string) : bool := match_from s false.

(** [SetEmails] and [SetChannels]. *)
Fixpoint set_emails (emails : list string) : option (list string) :=
  match emails with
  | [] => Some []
  | e :: rest =>
      let e := TrimSpace (ToLower e) in
      if e == "" then set_emails rest
      else if MatchEmail e then cons e <$> set_emails rest else None
  end.
Definition SetEmails (rawEmail : string) : option (list string) :=
  match set_emails (Split rawEmail ",") with Some [] | None => None | Some l => Some l end.
Definition SetChannels (rawChannel : string) : option (list string) :=
  match List.filter (fun c => c != "") (map (fun c => TrimSpace (ToLower c)) (Split rawChannel ",")) with
  | [] => None
  | l => Some l
  end.
Definition JobNotifyConfigWithEmail (email when : string) : option JobNotifyConfig :=
  (fun l => mkJobNotifyConfig l when) <$> SetEmails email.
Definition JobNotifyConfigWithChannel (channel when : string) : option JobNotifyConfig :=
  (fun l => mkJobNotifyConfig l when) <$> SetChannels channel.
End Mail.
Import Mail.

(** ** Configurations of an organization or a user *)
Module Configs.
Definition ConfigurableTypeOrg : string := "organizations".
Definition ConfigurableTypeUser : string := "users".
Record Config := mkConfig {
  c_ID : string;
  c_ConfigurableID : string;
  c_ConfigurableType : string;
  c_nv : NameTypeValue;
  c_CreatedAt : Z;
  c_UpdatedAt : Z
}.
Definition set_c_ID (x : string) (r : Config) : Config :=
  mkConfig x (c_ConfigurableID r) (c_ConfigurableType r) (c_nv r) (c_CreatedAt r) (c_UpdatedAt r).
Definition set_c_ConfigurableID (x : string) (r : Config) : Config :=
  mkConfig (c_ID r) x (c_ConfigurableType r) (c_nv r) (c_CreatedAt r) (c_UpdatedAt r).
Definition set_c_ConfigurableType (x : string) (r : Config) : Config :=
  mkConfig (c_ID r) (c_ConfigurableID r) x (c_nv r) (c_CreatedAt r) (c_UpdatedAt r).
Definition set_c_nv (x : NameTypeValue) (r : Config) : Config :=
  mkConfig (c_ID r) (c_ConfigurableID r) (c_ConfigurableType r) x (c_CreatedAt r) (c_UpdatedAt r).
Definition set_c_CreatedAt (x : Z) (r : Config) : Config :=
  mkConfig (c_ID r) (c_ConfigurableID r) (c_ConfigurableType r) (c_nv r) x (c_UpdatedAt r).
Definition set_c_UpdatedAt (x : Z) (r : Config) : Config :=
  mkConfig (c_ID r) (c_ConfigurableID r) (c_ConfigurableType r) (c_nv r) (c_CreatedAt r) x.
Inductive config_error := OwnerMissing | OwnerTypeMissing | NameMissing | KindMissing | ValueMissing | EncryptionFailed.
Definition Validate (c : Config) : option config_error :=
  last_error
    [(c_ConfigurableID c == "", OwnerMissing); (c_ConfigurableType c == "", OwnerTypeMissing); (Name (c_nv c) == "", NameMissing);
     (Kind (c_nv c) == "", KindMissing); (Value (c_nv c) == "", ValueMissing)].
Section Secrets.
Context `{Cipher} (now : Z).
Definition AfterLoad (key : string) (c : Config) : option Config := (fun x => set_c_nv x c) <$> Decrypt key (c_nv c).
Definition ValidateBeforeSave (key : string) (c : Config) : Config + config_error :=
  match Validate c with
  | Some e => inr e
  | None => match Encrypt key (c_nv c) with Some x => inl (set_c_nv x c) | None => inr EncryptionFailed end
  end.
Definition NewOrgConfig (orgID name : string) (v : value) (secret : bool) : option Config :=
  (fun x => mkConfig "" orgID ConfigurableTypeOrg x now now) <$> NewNameTypeValue name v secret.
Definition NewUserConfig (userID name : string) (v : value) (secret : bool) : option Config :=
  (fun x => mkConfig "" userID ConfigurableTypeUser x now now) <$> NewNameTypeValue name v secret.
End Secrets.
End Configs.
Import Configs.

(** ** Subscriptions *)
Module Subscriptions.
Definition IndividualSubscription : string := "INDIVIDUAL".
Definition OrganizationSubscription : string := "ORGANIZATION".
Definition Monthly : string := "MONTHLY".
Definition Freemium : string := "FREEMIUM".
Record Subscription := mkSubscription {
  s_ID : string;
  s_UserID : string;
  s_OrganizationID : string;
  s_Policy : string;
  s_Kind : string;
  s_Period : string;
  s_Price : Z;
  s_CPUQuota : Z;
  s_DiskQuota : Z;
  s_StartedAt : Z;
  s_EndedAt : Z;
  s_Active : bool;
  s_CreatedAt : Z;
  s_UpdatedAt : Z
}.
Definition set_s_ID (x : string) (r : Subscription) : Subscription :=
  mkSubscription x (s_UserID r) (s_OrganizationID r) (s_Policy r) (s_Kind r) (s_Period r) (s_Price r) (s_CPUQuota r)
    (s_DiskQuota r) (s_StartedAt r) (s_EndedAt r) (s_Active r) (s_CreatedAt r) (s_UpdatedAt r).
Definition set_s_Active (x : bool) (r : Subscription) : Subscription :=
  mkSubscription (s_ID r) (s_UserID r) (s_OrganizationID r) (s_Policy r) (s_Kind r) (s_Period r) (s_Price r) (s_CPUQuota r)
    (s_DiskQuota r) (s_StartedAt r) (s_EndedAt r) x (s_CreatedAt r) (s_UpdatedAt r).
Definition set_s_CreatedAt (x : Z) (r : Subscription) : Subscription :=
  mkSubscription (s_ID r) (s_UserID r) (s_OrganizationID r) (s_Policy r) (s_Kind r) (s_Period r) (s_Price r) (s_CPUQuota r)
    (s_DiskQuota r) (s_StartedAt r) (s_EndedAt r) (s_Active r) x (s_UpdatedAt r).
Definition set_s_UpdatedAt (x : Z) (r : Subscription) : Subscription :=
  mkSubscription (s_ID r) (s_UserID r) (s_OrganizationID r) (s_Policy r) (s_Kind r) (s_Period r) (s_Price r) (s_CPUQuota r)
    (s_DiskQuota r) (s_StartedAt r) (s_EndedAt r) (s_Active r) (s_CreatedAt r) x.
Definition Validate (s : Subscription) : option string :=
  if s_Kind s == "" then Some "kind is not specified"
  else if s_Policy s == "" then Some "policy is not specified"
  else if s_Period s == "" then Some "period is not specified"
  else if (s_UserID s == "") && (s_OrganizationID s == "") then Some "userID and organizationID is not specified"
  else if (s_Price s =? 0) && (s_Policy s != Freemium) then Some "price is not specified"
  else if s_CPUQuota s =? 0 then Some "cpu-quota is not specified"
  else if s_DiskQuota s =? 0 then Some "disk-quota is not specified"
  else if s_StartedAt s =? 0 then Some "started-at is not specified"
  else if s_EndedAt s =? 0 then Some "ended-at is not specified"
  else None.
Definition Expired (now : Z) (s : Subscription) : bool :=
  negb (s_Active s) || (Containers.Unix (s_EndedAt s) <? Containers.Unix now).
(** The condition of the preloads. *)
Definition current (now : Z) (s : Subscription) : bool := s_Active s && (s_StartedAt s <=? now) && (now <=? s_EndedAt s).
End Subscriptions.
Import Subscriptions.

(** ** Organizations *)
Module Orgs.
Record Organization := mkOrganization {
  o_ID : string;
  o_ParentID : string;
  o_OwnerUserID : string;
  o_BundleID : string;
  o_OrgUnit : string;
  o_Salt : string;
  o_MaxConcurrency : Z;
  o_StickyMessage : string;
  o_LicensePolicy : string;
  o_Configs : list Config;
  o_Subscription : option Subscription;
  o_IsPersonal : bool;
  o_Active : bool;
  o_CreatedAt : Z;
  o_UpdatedAt : Z
}.
Definition set_o_ID (x : string) (r : Organization) : Organization :=
  mkOrganization x (o_ParentID r) (o_OwnerUserID r) (o_BundleID r) (o_OrgUnit r) (o_Salt r) (o_MaxConcurrency r)
    (o_StickyMessage r) (o_LicensePolicy r) (o_Configs r) (o_Subscription r) (o_IsPersonal r) (o_Active r) (o_CreatedAt r)
    (o_UpdatedAt r).
Definition set_o_OwnerUserID (x : string) (r : Organization) : Organization :=
  mkOrganization (o_ID r) (o_ParentID r) x (o_BundleID r) (o_OrgUnit r) (o_Salt r) (o_MaxConcurrency r) (o_StickyMessage r)
    (o_LicensePolicy r) (o_Configs r) (o_Subscription r) (o_IsPersonal r) (o_Active r) (o_CreatedAt r) (o_UpdatedAt r).
Definition set_o_BundleID (x : string) (r : Organization) : Organization :=
  mkOrganization (o_ID r) (o_ParentID r) (o_OwnerUserID r) x (o_OrgUnit r) (o_Salt r) (o_MaxConcurrency r) (o_StickyMessage r)
    (o_LicensePolicy r) (o_Configs r) (o_Subscription r) (o_IsPersonal r) (o_Active r) (o_CreatedAt r) (o_UpdatedAt r).
Definition set_o_OrgUnit (x : string) (r : Organization) : Organization :=
  mkOrganization (o_ID r) (o_ParentID r) (o_OwnerUserID r) (o_BundleID r) x (o_Salt r) (o_MaxConcurrency r) (o_StickyMessage r)
    (o_LicensePolicy r) (o_Configs r) (o_Subscription r) (o_IsPersonal r) (o_Active r) (o_CreatedAt r) (o_UpdatedAt r).
Definition set_o_MaxConcurrency (x : Z) (r : Organization) : Organization :=
  mkOrganization (o_ID r) (o_ParentID r) (o_OwnerUserID r) (o_BundleID r) (o_OrgUnit r) (o_Salt r) x (o_StickyMessage r)
    (o_LicensePolicy r) (o_Configs r) (o_Subscription r) (o_IsPersonal r) (o_Active r) (o_CreatedAt r) (o_UpdatedAt r).
Definition set_o_StickyMessage (x : string) (r : Organization) : Organization :=
  mkOrganization (o_ID r) (o_ParentID r) (o_OwnerUserID r) (o_BundleID r) (o_OrgUnit r) (o_Salt r) (o_MaxConcurrency r) x
    (o_LicensePolicy r) (o_Configs r) (o_Subscription r) (o_IsPersonal r) (o_Active r) (o_CreatedAt r) (o_UpdatedAt r).
Definition set_o_Configs (x : list Config) (r : Organization) : Organization :=
  mkOrganization (o_ID r) (o_ParentID r) (o_OwnerUserID r) (o_BundleID r) (o_OrgUnit r) (o_Salt r) (o_MaxConcurrency r)
    (o_StickyMessage r) (o_LicensePolicy r) x (o_Subscription r) (o_IsPersonal r) (o_Active r) (o_CreatedAt r) (o_UpdatedAt r).
Definition set_o_Subscription (x : option Subscription) (r : Organization) : Organization :=
  mkOrganization (o_ID r) (o_ParentID r) (o_OwnerUserID r) (o_BundleID r) (o_OrgUnit r) (o_Salt r) (o_MaxConcurrency r)
    (o_StickyMessage r) (o_LicensePolicy r) (o_Configs r) x (o_IsPersonal r) (o_Active r) (o_CreatedAt r) (o_UpdatedAt r).
Definition set_o_IsPersonal (x : bool) (r : Organization) : Organization :=
  mkOrganization (o_ID r) (o_ParentID r) (o_OwnerUserID r) (o_BundleID r) (o_OrgUnit r) (o_Salt r) (o_MaxConcurrency r)
    (o_StickyMessage r) (o_LicensePolicy r) (o_Configs r) (o_Subscription r) x (o_Active r) (o_CreatedAt r) (o_UpdatedAt r).
Definition set_o_Active (x : bool) (r : Organization) : Organization :=
  mkOrganization (o_ID r) (o_ParentID r) (o_OwnerUserID r) (o_BundleID r) (o_OrgUnit r) (o_Salt r) (o_MaxConcurrency r)
    (o_StickyMessage r) (o_LicensePolicy r) (o_Configs r) (o_Subscription r) (o_IsPersonal r) x (o_CreatedAt r) (o_UpdatedAt r).
Definition set_o_CreatedAt (x : Z) (r : Organization) : Organization :=
  mkOrganization (o_ID r) (o_ParentID r) (o_OwnerUserID r) (o_BundleID r) (o_OrgUnit r) (o_Salt r) (o_MaxConcurrency r)
    (o_StickyMessage r) (o_LicensePolicy r) (o_Configs r) (o_Subscription r) (o_IsPersonal r) (o_Active r) x (o_UpdatedAt r).
Definition set_o_UpdatedAt (x : Z) (r : Organization) : Organization :=
  mkOrganization (o_ID r) (o_ParentID r) (o_OwnerUserID r) (o_BundleID r) (o_OrgUnit r) (o_Salt r) (o_MaxConcurrency r)
    (o_StickyMessage r) (o_LicensePolicy r) (o_Configs r) (o_Subscription r) (o_IsPersonal r) (o_Active r) (o_CreatedAt r) x.
Definition NewOrganization (now : Z) (ownerID orgUnit bundle : string) : Organization :=
  mkOrganization "" "" ownerID bundle orgUnit "" 1 "" "" [] None false true now now.
Definition NewPersonalOrg (now : Z) (id ownerID username : string) : Organization :=
  set_o_IsPersonal true (NewOrganization now ownerID username (id +:+ ".formicary.io")).

Inductive org_error := OrgUnitMissing | OrgUnitTooLong | BundleMissing | BundleTooLong | OrgConfig (e : config_error).
(** The defaults of a personal organization come from [ids]. *)
Definition Validate (ids : string * string) (o : Organization) : Organization * option org_error :=
  let noUnit := o_OrgUnit o == "" in
  let o := if noUnit && o_IsPersonal o then set_o_OrgUnit (fst ids) o else o in
  let e1 := [(noUnit && negb (o_IsPersonal o), OrgUnitMissing); ((100 <? String.length (o_OrgUnit o))%nat, OrgUnitTooLong)] in
  let noBundle := o_BundleID o == "" in
  let o := if noBundle && o_IsPersonal o then set_o_BundleID (snd ids +:+ ".formicary.io") o else o in
  let e2 := [(noBundle && negb (o_IsPersonal o), BundleMissing); ((100 <? String.length (o_BundleID o))%nat, BundleTooLong)] in
  (if o_MaxConcurrency o =? 0 then set_o_MaxConcurrency 3 o else o, last_error (e1 ++ e2)).

Section Configured.
Context `{Cipher}.
Fixpoint encrypt_all (key : string) (l : list Config) : list Config + config_error :=
  match l with
  | [] => inl []
  | c :: l =>
      match ValidateBeforeSave key c with
      | inr e => inr e
      | inl c => match encrypt_all key l with inl l => inl (c :: l) | inr e => inr e end
      end
  end.
Definition ValidateBeforeSave (ids : string * string) (key : string) (o : Organization) : Organization + org_error :=
  match Validate ids o with
  | (_, Some e) => inr e
  | (o, None) => match encrypt_all key (o_Configs o) with inl l => inl (set_o_Configs l o) | inr e => inr (OrgConfig e) end
  end.
Definition AfterLoad (key : string) (o : Organization) : option Organization :=
  (fun l => set_o_Configs l o) <$> mapM (Configs.AfterLoad key) (o_Configs o).
End Configured.

(** The configurations of an organization by name: the first one counts. *)
Definition named (name : string) (c : Config) : bool := Name (c_nv c) == name.
Definition GetConfig (name : string) (o : Organization) : option Config := List.find (named name) (o_Configs o).
Definition GetConfigString (name : string) (o : Organization) : string :=
  match GetConfig name o with Some c => Value (c_nv c) | None => "" end.
Definition GetConfigByID (id : string) (o : Organization) : option Config := List.find (fun c => c_ID c == id) (o_Configs o).
Fixpoint set_first (name : string) (x : Config) (l : list Config) : option (Config * list Config) :=
  match l with
  | [] => None
  | c :: l =>
      if named name c then
        let c := set_c_nv (mkNameTypeValue (Name (c_nv c)) (Kind (c_nv x)) (Value (c_nv x)) (Secret (c_nv x))) c in Some (c, c :: l)
      else match set_first name x l with Some (y, l) => Some (y, c :: l) | None => None end
  end.
Definition AddConfig (now : Z) (name : string) (v : value) (secret : bool) (o : Organization) : option (Config * Organization) :=
  match NewOrgConfig now (o_ID o) name v secret with
  | None => None
  | Some x =>
      match set_first name x (o_Configs o) with
      | Some (c, l) => Some (c, set_o_Configs l o)
      | None => Some (x, set_o_Configs (o_Configs o ++ [x]) o)
      end
  end.
Fixpoint delete_first (name : string) (l : list Config) : option (Config * list Config) :=
  match l with
  | [] => None
  | c :: l => if named name c then Some (c, l) else match delete_first name l with Some (x, l) => Some (x, c :: l) | None => None end
  end.
Definition DeleteConfig (name : string) (o : Organization) : option Config * Organization :=
  match delete_first name (o_Configs o) with Some (c, l) => (Some c, set_o_Configs l o) | None => (None, o) end.
Definition ConfigString (o : Organization) : string :=
  foldl (fun b c => b +:+ Name (c_nv c) +:+ "=" +:+ Value (c_nv c) +:+ ",") "" (o_Configs o).
End Orgs.
Import Orgs.

(** ** Users *)
Module Accounts.
Record User := mkAccount {
  u_ID : string;
  u_Name : string;
  u_Username : string;
  u_Email : string;
  u_URL : string;
  u_PictureURL : string;
  u_OrganizationID : string;
  u_Organization : option Organization;
  u_AuthID : string;
  u_AuthProvider : string;
  u_MaxConcurrency : Z;
  u_NotifySerialized : string;
  u_StickyMessage : string;
  u_BundleID : string;
  u_SerializedPerms : string;
  u_SerializedRoles : string;
  u_Salt : string;
  u_Subscription : option Subscription;
  u_EmailVerified : bool;
  u_Locked : bool;
  u_Active : bool;
  u_CreatedAt : Z;
  u_UpdatedAt : Z;
  u_OrgUnit : string;
  u_InvitationCode : string;
  u_Notify : gmap string JobNotifyConfig
}.
Definition set_u_ID (x : string) (r : User) : User :=
  mkAccount x (u_Name r) (u_Username r) (u_Email r) (u_URL r) (u_PictureURL r) (u_OrganizationID r) (u_Organization r)
    (u_AuthID r) (u_AuthProvider r) (u_MaxConcurrency r) (u_NotifySerialized r) (u_StickyMessage r) (u_BundleID r)
    (u_SerializedPerms r) (u_SerializedRoles r) (u_Salt r) (u_Subscription r) (u_EmailVerified r) (u_Locked r) (u_Active r)
    (u_CreatedAt r) (u_UpdatedAt r) (u_OrgUnit r) (u_InvitationCode r) (u_Notify r).
Definition set_u_Name (x : string) (r : User) : User :=
  mkAccount (u_ID r) x (u_Username r) (u_Email r) (u_URL r) (u_PictureURL r) (u_OrganizationID r) (u_Organization r) (u_AuthID r)
    (u_AuthProvider r) (u_MaxConcurrency r) (u_NotifySerialized r) (u_StickyMessage r) (u_BundleID r) (u_SerializedPerms r)
    (u_SerializedRoles r) (u_Salt r) (u_Subscription r) (u_EmailVerified r) (u_Locked r) (u_Active r) (u_CreatedAt r)
    (u_UpdatedAt r) (u_OrgUnit r) (u_InvitationCode r) (u_Notify r).
Definition set_u_Email (x : string) (r : User) : User :=
  mkAccount (u_ID r) (u_Name r) (u_Username r) x (u_URL r) (u_PictureURL r) (u_OrganizationID r) (u_Organization r) (u_AuthID r)
    (u_AuthProvider r) (u_MaxConcurrency r) (u_NotifySerialized r) (u_StickyMessage r) (u_BundleID r) (u_SerializedPerms r)
    (u_SerializedRoles r) (u_Salt r) (u_Subscription r) (u_EmailVerified r) (u_Locked r) (u_Active r) (u_CreatedAt r)
    (u_UpdatedAt r) (u_OrgUnit r) (u_InvitationCode r) (u_Notify r).
Definition set_u_URL (x : string) (r : User) : User :=
  mkAccount (u_ID r) (u_Name r) (u_Username r) (u_Email r) x (u_PictureURL r) (u_OrganizationID r) (u_Organization r) (u_AuthID r)
    (u_AuthProvider r) (u_MaxConcurrency r) (u_NotifySerialized r) (u_StickyMessage r) (u_BundleID r) (u_SerializedPerms r)
    (u_SerializedRoles r) (u_Salt r) (u_Subscription r) (u_EmailVerified r) (u_Locked r) (u_Active r) (u_CreatedAt r)
    (u_UpdatedAt r) (u_OrgUnit r) (u_InvitationCode r) (u_Notify r).
Definition set_u_PictureURL (x : string) (r : User) : User :=
  mkAccount (u_ID r) (u_Name r) (u_Username r) (u_Email r) (u_URL r) x (u_OrganizationID r) (u_Organization r) (u_AuthID r)
    (u_AuthProvider r) (u_MaxConcurrency r) (u_NotifySerialized r) (u_StickyMessage r) (u_BundleID r) (u_SerializedPerms r)
    (u_SerializedRoles r) (u_Salt r) (u_Subscription r) (u_EmailVerified r) (u_Locked r) (u_Active r) (u_CreatedAt r)
    (u_UpdatedAt r) (u_OrgUnit r) (u_InvitationCode r) (u_Notify r).
Definition set_u_OrganizationID (x : string) (r : User) : User :=
  mkAccount (u_ID r) (u_Name r) (u_Username r) (u_Email r) (u_URL r) (u_PictureURL r) x (u_Organization r) (u_AuthID r)
    (u_AuthProvider r) (u_MaxConcurrency r) (u_NotifySerialized r) (u_StickyMessage r) (u_BundleID r) (u_SerializedPerms r)
    (u_SerializedRoles r) (u_Salt r) (u_Subscription r) (u_EmailVerified r) (u_Locked r) (u_Active r) (u_CreatedAt r)
    (u_UpdatedAt r) (u_OrgUnit r) (u_InvitationCode r) (u_Notify r).
Definition set_u_Organization (x : option Organization) (r : User) : User :=
  mkAccount (u_ID r) (u_Name r) (u_Username r) (u_Email r) (u_URL r) (u_PictureURL r) (u_OrganizationID r) x (u_AuthID r)
    (u_AuthProvider r) (u_MaxConcurrency r) (u_NotifySerialized r) (u_StickyMessage r) (u_BundleID r) (u_SerializedPerms r)
    (u_SerializedRoles r) (u_Salt r) (u_Subscription r) (u_EmailVerified r) (u_Locked r) (u_Active r) (u_CreatedAt r)
    (u_UpdatedAt r) (u_OrgUnit r) (u_InvitationCode r) (u_Notify r).
Definition set_u_AuthID (x : string) (r : User) : User :=
  mkAccount (u_ID r) (u_Name r) (u_Username r) (u_Email r) (u_URL r) (u_PictureURL r) (u_OrganizationID r) (u_Organization r) x
    (u_AuthProvider r) (u_MaxConcurrency r) (u_NotifySerialized r) (u_StickyMessage r) (u_BundleID r) (u_SerializedPerms r)
    (u_SerializedRoles r) (u_Salt r) (u_Subscription r) (u_EmailVerified r) (u_Locked r) (u_Active r) (u_CreatedAt r)
    (u_UpdatedAt r) (u_OrgUnit r) (u_InvitationCode r) (u_Notify r).
Definition set_u_AuthProvider (x : string) (r : User) : User :=
  mkAccount (u_ID r) (u_Name r) (u_Username r) (u_Email r) (u_URL r) (u_PictureURL r) (u_OrganizationID r) (u_Organization r)
    (u_AuthID r) x (u_MaxConcurrency r) (u_NotifySerialized r) (u_StickyMessage r) (u_BundleID r) (u_SerializedPerms r)
    (u_SerializedRoles r) (u_Salt r) (u_Subscription r) (u_EmailVerified r) (u_Locked r) (u_Active r) (u_CreatedAt r)
    (u_UpdatedAt r) (u_OrgUnit r) (u_InvitationCode r) (u_Notify r).
Definition set_u_MaxConcurrency (x : Z) (r : User) : User :=
  mkAccount (u_ID r) (u_Name r) (u_Username r) (u_Email r) (u_URL r) (u_PictureURL r) (u_OrganizationID r) (u_Organization r)
    (u_AuthID r) (u_AuthProvider r) x (u_NotifySerialized r) (u_StickyMessage r) (u_BundleID r) (u_SerializedPerms r)
    (u_SerializedRoles r) (u_Salt r) (u_Subscription r) (u_EmailVerified r) (u_Locked r) (u_Active r) (u_CreatedAt r)
    (u_UpdatedAt r) (u_OrgUnit r) (u_InvitationCode r) (u_Notify r).
Definition set_u_NotifySerialized (x : string) (r : User) : User :=
  mkAccount (u_ID r) (u_Name r) (u_Username r) (u_Email r) (u_URL r) (u_PictureURL r) (u_OrganizationID r) (u_Organization r)
    (u_AuthID r) (u_AuthProvider r) (u_MaxConcurrency r) x (u_StickyMessage r) (u_BundleID r) (u_SerializedPerms r)
    (u_SerializedRoles r) (u_Salt r) (u_Subscription r) (u_EmailVerified r) (u_Locked r) (u_Active r) (u_CreatedAt r)
    (u_UpdatedAt r) (u_OrgUnit r) (u_InvitationCode r) (u_Notify r).
Definition set_u_StickyMessage (x : string) (r : User) : User :=
  mkAccount (u_ID r) (u_Name r) (u_Username r) (u_Email r) (u_URL r) (u_PictureURL r) (u_OrganizationID r) (u_Organization r)
    (u_AuthID r) (u_AuthProvider r) (u_MaxConcurrency r) (u_NotifySerialized r) x (u_BundleID r) (u_SerializedPerms r)
    (u_SerializedRoles r) (u_Salt r) (u_Subscription r) (u_EmailVerified r) (u_Locked r) (u_Active r) (u_CreatedAt r)
    (u_UpdatedAt r) (u_OrgUnit r) (u_InvitationCode r) (u_Notify r).
Definition set_u_BundleID (x : string) (r : User) : User :=
  mkAccount (u_ID r) (u_Name r) (u_Username r) (u_Email r) (u_URL r) (u_PictureURL r) (u_OrganizationID r) (u_Organization r)
    (u_AuthID r) (u_AuthProvider r) (u_MaxConcurrency r) (u_NotifySerialized r) (u_StickyMessage r) x (u_SerializedPerms r)
    (u_SerializedRoles r) (u_Salt r) (u_Subscription r) (u_EmailVerified r) (u_Locked r) (u_Active r) (u_CreatedAt r)
    (u_UpdatedAt r) (u_OrgUnit r) (u_InvitationCode r) (u_Notify r).
Definition set_u_SerializedPerms (x : string) (r : User) : User :=
  mkAccount (u_ID r) (u_Name r) (u_Username r) (u_Email r) (u_URL r) (u_PictureURL r) (u_OrganizationID r) (u_Organization r)
    (u_AuthID r) (u_AuthProvider r) (u_MaxConcurrency r) (u_NotifySerialized r) (u_StickyMessage r) (u_BundleID r) x
    (u_SerializedRoles r) (u_Salt r) (u_Subscription r) (u_EmailVerified r) (u_Locked r) (u_Active r) (u_CreatedAt r)
    (u_UpdatedAt r) (u_OrgUnit r) (u_InvitationCode r) (u_Notify r).
Definition set_u_SerializedRoles (x : string) (r : User) : User :=
  mkAccount (u_ID r) (u_Name r) (u_Username r) (u_Email r) (u_URL r) (u_PictureURL r) (u_OrganizationID r) (u_Organization r)
    (u_AuthID r) (u_AuthProvider r) (u_MaxConcurrency r) (u_NotifySerialized r) (u_StickyMessage r) (u_BundleID r)
    (u_SerializedPerms r) x (u_Salt r) (u_Subscription r) (u_EmailVerified r) (u_Locked r) (u_Active r) (u_CreatedAt r)
    (u_UpdatedAt r) (u_OrgUnit r) (u_InvitationCode r) (u_Notify r).
Definition set_u_Subscription (x : option Subscription) (r : User) : User :=
  mkAccount (u_ID r) (u_Name r) (u_Username r) (u_Email r) (u_URL r) (u_PictureURL r) (u_OrganizationID r) (u_Organization r)
    (u_AuthID r) (u_AuthProvider r) (u_MaxConcurrency r) (u_NotifySerialized r) (u_StickyMessage r) (u_BundleID r)
    (u_SerializedPerms r) (u_SerializedRoles r) (u_Salt r) x (u_EmailVerified r) (u_Locked r) (u_Active r) (u_CreatedAt r)
    (u_UpdatedAt r) (u_OrgUnit r) (u_InvitationCode r) (u_Notify r).
Definition set_u_EmailVerified (x : bool) (r : User) : User :=
  mkAccount (u_ID r) (u_Name r) (u_Username r) (u_Email r) (u_URL r) (u_PictureURL r) (u_OrganizationID r) (u_Organization r)
    (u_AuthID r) (u_AuthProvider r) (u_MaxConcurrency r) (u_NotifySerialized r) (u_StickyMessage r) (u_BundleID r)
    (u_SerializedPerms r) (u_SerializedRoles r) (u_Salt r) (u_Subscription r) x (u_Locked r) (u_Active r) (u_CreatedAt r)
    (u_UpdatedAt r) (u_OrgUnit r) (u_InvitationCode r) (u_Notify r).
Definition set_u_Active (x : bool) (r : User) : User :=
  mkAccount (u_ID r) (u_Name r) (u_Username r) (u_Email r) (u_URL r) (u_PictureURL r) (u_OrganizationID r) (u_Organization r)
    (u_AuthID r) (u_AuthProvider r) (u_MaxConcurrency r) (u_NotifySerialized r) (u_StickyMessage r) (u_BundleID r)
    (u_SerializedPerms r) (u_SerializedRoles r) (u_Salt r) (u_Subscription r) (u_EmailVerified r) (u_Locked r) x (u_CreatedAt r)
    (u_UpdatedAt r) (u_OrgUnit r) (u_InvitationCode r) (u_Notify r).
Definition set_u_CreatedAt (x : Z) (r : User) : User :=
  mkAccount (u_ID r) (u_Name r) (u_Username r) (u_Email r) (u_URL r) (u_PictureURL r) (u_OrganizationID r) (u_Organization r)
    (u_AuthID r) (u_AuthProvider r) (u_MaxConcurrency r) (u_NotifySerialized r) (u_StickyMessage r) (u_BundleID r)
    (u_SerializedPerms r) (u_SerializedRoles r) (u_Salt r) (u_Subscription r) (u_EmailVerified r) (u_Locked r) (u_Active r) x
    (u_UpdatedAt r) (u_OrgUnit r) (u_InvitationCode r) (u_Notify r).
Definition set_u_UpdatedAt (x : Z) (r : User) : User :=
  mkAccount (u_ID r) (u_Name r) (u_Username r) (u_Email r) (u_URL r) (u_PictureURL r) (u_OrganizationID r) (u_Organization r)
    (u_AuthID r) (u_AuthProvider r) (u_MaxConcurrency r) (u_NotifySerialized r) (u_StickyMessage r) (u_BundleID r)
    (u_SerializedPerms r) (u_SerializedRoles r) (u_Salt r) (u_Subscription r) (u_EmailVerified r) (u_Locked r) (u_Active r)
    (u_CreatedAt r) x (u_OrgUnit r) (u_InvitationCode r) (u_Notify r).
Definition set_u_OrgUnit (x : string) (r : User) : User :=
  mkAccount (u_ID r) (u_Name r) (u_Username r) (u_Email r) (u_URL r) (u_PictureURL r) (u_OrganizationID r) (u_Organization r)
    (u_AuthID r) (u_AuthProvider r) (u_MaxConcurrency r) (u_NotifySerialized r) (u_StickyMessage r) (u_BundleID r)
    (u_SerializedPerms r) (u_SerializedRoles r) (u_Salt r) (u_Subscription r) (u_EmailVerified r) (u_Locked r) (u_Active r)
    (u_CreatedAt r) (u_UpdatedAt r) x (u_InvitationCode r) (u_Notify r).
Definition set_u_InvitationCode (x : string) (r : User) : User :=
  mkAccount (u_ID r) (u_Name r) (u_Username r) (u_Email r) (u_URL r) (u_PictureURL r) (u_OrganizationID r) (u_Organization r)
    (u_AuthID r) (u_AuthProvider r) (u_MaxConcurrency r) (u_NotifySerialized r) (u_StickyMessage r) (u_BundleID r)
    (u_SerializedPerms r) (u_SerializedRoles r) (u_Salt r) (u_Subscription r) (u_EmailVerified r) (u_Locked r) (u_Active r)
    (u_CreatedAt r) (u_UpdatedAt r) (u_OrgUnit r) x (u_Notify r).
Definition set_u_Notify (x : gmap string JobNotifyConfig) (r : User) : User :=
  mkAccount (u_ID r) (u_Name r) (u_Username r) (u_Email r) (u_URL r) (u_PictureURL r) (u_OrganizationID r) (u_Organization r)
    (u_AuthID r) (u_AuthProvider r) (u_MaxConcurrency r) (u_NotifySerialized r) (u_StickyMessage r) (u_BundleID r)
    (u_SerializedPerms r) (u_SerializedRoles r) (u_Salt r) (u_Subscription r) (u_EmailVerified r) (u_Locked r) (u_Active r)
    (u_CreatedAt r) (u_UpdatedAt r) (u_OrgUnit r) (u_InvitationCode r) x.
(** The part of a user that access control looks at. *)
Definition acl_of (u : User) : Users.User :=
  Users.mkUser (u_ID u) (u_OrganizationID u) (u_SerializedPerms u) (u_SerializedRoles u) None None.

Definition NewUser (now : Z) (orgID username name email roles : string) : User :=
  let email := if (email == "") && Contains username "@" then username else email in
  mkAccount "" name username (ToLower email) "" "" orgID None "" "" 0 "" "" "" Perm.DefaultPermissionsString roles "" None
    false false true now now "" "" ∅.

Definition HasOrganization (u : User) : bool :=
  (u_OrganizationID u != "") && match u_Organization u with Some _ => true | None => false end.
Definition HasOrganizationOrInvitationCode (u : User) : bool :=
  (u_OrganizationID u != "") || (u_OrgUnit u != "") || (u_InvitationCode u != "").
Definition HasInvitationCode (u : User) : bool := u_InvitationCode u != "".

(** JSON of the notifications. *)
Class Notifications := { notify_json : gmap string JobNotifyConfig -> string; notify_of_json : string -> option (gmap string JobNotifyConfig) }.
Inductive user_error :=
  | UsernameMissing | UserNameMissing | UserNameTooLong | EmailMissing_ | EmailTooLong | EmailInvalid_ | UnitTooLong | NotifyInvalid (e : email_error).
(** A valid list of addresses for notifications clears the errors found before. *)
Definition Validate (u : User) : User * option user_error :=
  let e :=
    last_error
      [(u_Username u == "", UsernameMissing); (u_Name u == "", UserNameMissing); ((100 <? String.length (u_Name u))%nat, UserNameTooLong);
       (u_Email u == "", EmailMissing_); ((100 <? String.length (u_Email u))%nat, EmailTooLong); (negb (MatchEmail (u_Email u)), EmailInvalid_);
       ((100 <? String.length (u_OrgUnit u))%nat, UnitTooLong)] in
  let u := if u_MaxConcurrency u =? 0 then set_u_MaxConcurrency 1 u else u in
  (u, match u_Notify u !! EmailChannel with Some c => NotifyInvalid <$> ValidateEmail MatchEmail c | None => e end).

Section Saved.
Context `{Notifications}.
Definition ValidateBeforeSave (u : User) : User + user_error :=
  match Validate u with
  | (_, Some e) => inr e
  | (u, None) =>
      let u := if (0 <? size (u_Notify u))%nat then set_u_NotifySerialized (notify_json (u_Notify u)) u else u in
      inl (set_u_Email (ToLower (TrimSpace (u_Email u))) u)
  end.
Definition AfterLoad (u : User) : option User :=
  let loaded :=
    if u_NotifySerialized u != "" then (fun n => set_u_Notify n u) <$> notify_of_json (u_NotifySerialized u)
    else Some (match JobNotifyConfigWithEmail (u_Email u) NotifyWhenOnFailure with
               | Some c => set_u_Notify {[EmailChannel := c]} u
               | None => u
               end) in
  (fun u => match u_Organization u with
            | Some o => set_u_BundleID (o_BundleID o) (set_u_OrgUnit (o_OrgUnit o) u)
            | None => u
            end) <$> loaded.
End Saved.

Definition NotifyEmail (u : User) : string :=
  Join (match u_Notify u !! EmailChannel with Some c => Recipients c | None => [] end) ",".
Definition NotifyChannel (u : User) : string :=
  Join (match u_Notify u !! SlackChannel with Some c => Recipients c | None => [] end) ",".
Definition SetNotifyEmail (email when : string) (u : User) : option User :=
  (fun c => set_u_Notify (<[EmailChannel := c]> (u_Notify u)) u) <$> JobNotifyConfigWithEmail email when.
Definition SetNotifyChannel (channel when : string) (u : User) : option User :=
  (fun c => set_u_Notify (<[SlackChannel := c]> (u_Notify u)) u) <$> JobNotifyConfigWithChannel channel when.
(** The keys of the map built from the own address and the recipients. *)
Definition GetUnverifiedNotificationEmails (u : User) : gset string :=
  (if (u_Email u != "") && negb (u_EmailVerified u) then {[ToLower (u_Email u)]} else ∅) ∪
  list_to_set (map ToLower (match u_Notify u !! EmailChannel with Some c => Recipients c | None => [] end)).

Definition BackfillDefaultPermissions (u : User) : User :=
  set_u_SerializedPerms (Users.SerializedPerms (Users.BackfillDefaultPermissions (acl_of u))) u.
Definition CopyRolesPermissions (u other : User) : User :=
  set_u_SerializedRoles (u_SerializedRoles other) (set_u_SerializedPerms (u_SerializedPerms other) u).

Definition NewFreemiumSubscription (now : Z) (u : User) : Subscription :=
  mkSubscription "" (u_ID u) (u_OrganizationID u) Freemium
    (if HasOrganization u then OrganizationSubscription else IndividualSubscription) Monthly 0 1000 1000 now
    (now + 3600 * 24 * 30 * 1000000000) true now now.
End Accounts.
Import Accounts.

(** ** Invitations, verifications, tokens and sessions *)
Module Access.
Definition three_days : Z := 3600 * 24 * 3 * 1000000000.
Record UserInvitation := mkInvitation {
  i_ID : string;
  i_Email : string;
  i_InvitationCode : string;
  i_OrganizationID : string;
  i_OrgUnit : string;
  i_InvitedByUserID : string;
  i_AcceptedAt : option Z;
  i_ExpiresAt : Z;
  i_CreatedAt : Z
}.
Definition set_i_ID (x : string) (r : UserInvitation) : UserInvitation :=
  mkInvitation x (i_Email r) (i_InvitationCode r) (i_OrganizationID r) (i_OrgUnit r) (i_InvitedByUserID r) (i_AcceptedAt r)
    (i_ExpiresAt r) (i_CreatedAt r).
Definition set_i_InvitationCode (x : string) (r : UserInvitation) : UserInvitation :=
  mkInvitation (i_ID r) (i_Email r) x (i_OrganizationID r) (i_OrgUnit r) (i_InvitedByUserID r) (i_AcceptedAt r) (i_ExpiresAt r)
    (i_CreatedAt r).
Definition set_i_OrganizationID (x : string) (r : UserInvitation) : UserInvitation :=
  mkInvitation (i_ID r) (i_Email r) (i_InvitationCode r) x (i_OrgUnit r) (i_InvitedByUserID r) (i_AcceptedAt r) (i_ExpiresAt r)
    (i_CreatedAt r).
Definition set_i_OrgUnit (x : string) (r : UserInvitation) : UserInvitation :=
  mkInvitation (i_ID r) (i_Email r) (i_InvitationCode r) (i_OrganizationID r) x (i_InvitedByUserID r) (i_AcceptedAt r)
    (i_ExpiresAt r) (i_CreatedAt r).
Definition set_i_InvitedByUserID (x : string) (r : UserInvitation) : UserInvitation :=
  mkInvitation (i_ID r) (i_Email r) (i_InvitationCode r) (i_OrganizationID r) (i_OrgUnit r) x (i_AcceptedAt r) (i_ExpiresAt r)
    (i_CreatedAt r).
Definition set_i_AcceptedAt (x : option Z) (r : UserInvitation) : UserInvitation :=
  mkInvitation (i_ID r) (i_Email r) (i_InvitationCode r) (i_OrganizationID r) (i_OrgUnit r) (i_InvitedByUserID r) x
    (i_ExpiresAt r) (i_CreatedAt r).
Definition set_i_ExpiresAt (x : Z) (r : UserInvitation) : UserInvitation :=
  mkInvitation (i_ID r) (i_Email r) (i_InvitationCode r) (i_OrganizationID r) (i_OrgUnit r) (i_InvitedByUserID r)
    (i_AcceptedAt r) x (i_CreatedAt r).
Definition set_i_CreatedAt (x : Z) (r : UserInvitation) : UserInvitation :=
  mkInvitation (i_ID r) (i_Email r) (i_InvitationCode r) (i_OrganizationID r) (i_OrgUnit r) (i_InvitedByUserID r) (i_AcceptedAt r)
    (i_ExpiresAt r) x.
Inductive invitation_error := InviteEmailMissing | InviteEmailInvalid | InviteOrgMissing | InvitedByMissing | InviteUnitMissing.
Definition Invitation_Validate (now : Z) (i : UserInvitation) : UserInvitation * option invitation_error :=
  (if Containers.Unix (i_ExpiresAt i) <? Containers.Unix now then set_i_ExpiresAt (now + three_days) i else i,
   last_error [(i_Email i == "", InviteEmailMissing); (negb (MatchEmail (i_Email i)), InviteEmailInvalid); (i_OrganizationID i == "", InviteOrgMissing);
               (i_InvitedByUserID i == "", InvitedByMissing); (i_OrgUnit i == "", InviteUnitMissing)]).
Definition Invitation_ValidateBeforeSave (now : Z) (id code : string) (i : UserInvitation) : UserInvitation + invitation_error :=
  match Invitation_Validate now i with
  | (_, Some e) => inr e
  | (i, None) => inl (set_i_InvitationCode code (set_i_AcceptedAt None (set_i_CreatedAt now (set_i_ID id i))))
  end.
Definition NewUserInvitation (now : Z) (code email : string) (byUser : User) : UserInvitation :=
  mkInvitation "" email code (u_OrganizationID byUser)
    (if HasOrganization byUser then match u_Organization byUser with Some o => o_OrgUnit o | None => "" end else u_OrgUnit byUser)
    (u_ID byUser) None (now + three_days) now.

Record EmailVerification := mkVerification {
  v_ID : string;
  v_Email : string;
  v_EmailCode : string;
  v_UserID : string;
  v_OrganizationID : string;
  v_ExpiresAt : Z;
  v_VerifiedAt : option Z;
  v_CreatedAt : Z
}.
Definition set_v_ID (x : string) (r : EmailVerification) : EmailVerification :=
  mkVerification x (v_Email r) (v_EmailCode r) (v_UserID r) (v_OrganizationID r) (v_ExpiresAt r) (v_VerifiedAt r) (v_CreatedAt r).
Definition set_v_EmailCode (x : string) (r : EmailVerification) : EmailVerification :=
  mkVerification (v_ID r) (v_Email r) x (v_UserID r) (v_OrganizationID r) (v_ExpiresAt r) (v_VerifiedAt r) (v_CreatedAt r).
Definition set_v_ExpiresAt (x : Z) (r : EmailVerification) : EmailVerification :=
  mkVerification (v_ID r) (v_Email r) (v_EmailCode r) (v_UserID r) (v_OrganizationID r) x (v_VerifiedAt r) (v_CreatedAt r).
Definition set_v_VerifiedAt (x : option Z) (r : EmailVerification) : EmailVerification :=
  mkVerification (v_ID r) (v_Email r) (v_EmailCode r) (v_UserID r) (v_OrganizationID r) (v_ExpiresAt r) x (v_CreatedAt r).
Definition set_v_CreatedAt (x : Z) (r : EmailVerification) : EmailVerification :=
  mkVerification (v_ID r) (v_Email r) (v_EmailCode r) (v_UserID r) (v_OrganizationID r) (v_ExpiresAt r) (v_VerifiedAt r) x.
Inductive verification_error := VerifyEmailMissing | VerifyEmailInvalid | VerifyUserMissing.
Definition Verification_Validate (now : Z) (v : EmailVerification) : EmailVerification * option verification_error :=
  (if Containers.Unix (v_ExpiresAt v) <? Containers.Unix now then set_v_ExpiresAt (now + three_days) v else v,
   last_error [(v_Email v == "", VerifyEmailMissing); (negb (MatchEmail (v_Email v)), VerifyEmailInvalid); (v_UserID v == "", VerifyUserMissing)]).
Definition Verification_ValidateBeforeSave (now : Z) (id code : string) (v : EmailVerification) : EmailVerification + verification_error :=
  match Verification_Validate now v with
  | (_, Some e) => inr e
  | (v, None) => inl (set_v_VerifiedAt None (set_v_CreatedAt now (set_v_ID id (set_v_EmailCode code v))))
  end.
Definition NewEmailVerification (now : Z) (code email : string) (u : User) : EmailVerification :=
  mkVerification "" email code (u_ID u) (u_OrganizationID u) (now + 3600 * 24 * 1000000000) None now.

Record UserToken := mkToken {
  t_ID : string;
  t_UserID : string;
  t_OrganizationID : string;
  t_TokenName : string;
  t_SHA256 : string;
  t_Active : bool;
  t_ExpiresAt : Z;
  t_CreatedAt : Z;
  t_APIToken : string
}.
Definition set_t_ID (x : string) (r : UserToken) : UserToken :=
  mkToken x (t_UserID r) (t_OrganizationID r) (t_TokenName r) (t_SHA256 r) (t_Active r) (t_ExpiresAt r) (t_CreatedAt r) (t_APIToken r).
Definition set_t_SHA256 (x : string) (r : UserToken) : UserToken :=
  mkToken (t_ID r) (t_UserID r) (t_OrganizationID r) (t_TokenName r) x (t_Active r) (t_ExpiresAt r) (t_CreatedAt r) (t_APIToken r).
Definition set_t_Active (x : bool) (r : UserToken) : UserToken :=
  mkToken (t_ID r) (t_UserID r) (t_OrganizationID r) (t_TokenName r) (t_SHA256 r) x (t_ExpiresAt r) (t_CreatedAt r) (t_APIToken r).
Definition set_t_ExpiresAt (x : Z) (r : UserToken) : UserToken :=
  mkToken (t_ID r) (t_UserID r) (t_OrganizationID r) (t_TokenName r) (t_SHA256 r) (t_Active r) x (t_CreatedAt r) (t_APIToken r).
Definition set_t_CreatedAt (x : Z) (r : UserToken) : UserToken :=
  mkToken (t_ID r) (t_UserID r) (t_OrganizationID r) (t_TokenName r) (t_SHA256 r) (t_Active r) (t_ExpiresAt r) x (t_APIToken r).
Definition set_t_APIToken (x : string) (r : UserToken) : UserToken :=
  mkToken (t_ID r) (t_UserID r) (t_OrganizationID r) (t_TokenName r) (t_SHA256 r) (t_Active r) (t_ExpiresAt r) (t_CreatedAt r) x.
Definition NewUserToken (now : Z) (u : User) (tokenName : string) : UserToken :=
  mkToken "" (u_ID u) (u_OrganizationID u) tokenName "" true 0 now "".
Inductive token_error := TokenUserMissing | TokenNameMissing | APITokenMissing | TokenExpired.
Definition Token_Validate (sha256 : string -> string) (now : Z) (t : UserToken) : UserToken + token_error :=
  if t_UserID t == "" then inr TokenUserMissing
  else if t_TokenName t == "" then inr TokenNameMissing
  else if t_APIToken t == "" then inr APITokenMissing
  else if Containers.Unix (t_ExpiresAt t) <? Containers.Unix now then inr TokenExpired
  else inl (set_t_SHA256 (sha256 (t_APIToken t)) t).

Record UserSession := mkSession {
  n_ID : string;
  n_SessionID : string;
  n_UserID : string;
  n_Username : string;
  n_Email : string;
  n_PictureURL : string;
  n_AuthProvider : string;
  n_IPAddress : string;
  n_Data : string;
  n_CreatedAt : Z;
  n_UpdatedAt : Z
}.
Definition set_n_ID (x : string) (r : UserSession) : UserSession :=
  mkSession x (n_SessionID r) (n_UserID r) (n_Username r) (n_Email r) (n_PictureURL r) (n_AuthProvider r) (n_IPAddress r)
    (n_Data r) (n_CreatedAt r) (n_UpdatedAt r).
Definition set_n_UserID (x : string) (r : UserSession) : UserSession :=
  mkSession (n_ID r) (n_SessionID r) x (n_Username r) (n_Email r) (n_PictureURL r) (n_AuthProvider r) (n_IPAddress r) (n_Data r)
    (n_CreatedAt r) (n_UpdatedAt r).
Definition set_n_Username (x : string) (r : UserSession) : UserSession :=
  mkSession (n_ID r) (n_SessionID r) (n_UserID r) x (n_Email r) (n_PictureURL r) (n_AuthProvider r) (n_IPAddress r) (n_Data r)
    (n_CreatedAt r) (n_UpdatedAt r).
Definition set_n_Email (x : string) (r : UserSession) : UserSession :=
  mkSession (n_ID r) (n_SessionID r) (n_UserID r) (n_Username r) x (n_PictureURL r) (n_AuthProvider r) (n_IPAddress r) (n_Data r)
    (n_CreatedAt r) (n_UpdatedAt r).
Definition set_n_PictureURL (x : string) (r : UserSession) : UserSession :=
  mkSession (n_ID r) (n_SessionID r) (n_UserID r) (n_Username r) (n_Email r) x (n_AuthProvider r) (n_IPAddress r) (n_Data r)
    (n_CreatedAt r) (n_UpdatedAt r).
Definition set_n_AuthProvider (x : string) (r : UserSession) : UserSession :=
  mkSession (n_ID r) (n_SessionID r) (n_UserID r) (n_Username r) (n_Email r) (n_PictureURL r) x (n_IPAddress r) (n_Data r)
    (n_CreatedAt r) (n_UpdatedAt r).
Definition set_n_CreatedAt (x : Z) (r : UserSession) : UserSession :=
  mkSession (n_ID r) (n_SessionID r) (n_UserID r) (n_Username r) (n_Email r) (n_PictureURL r) (n_AuthProvider r) (n_IPAddress r)
    (n_Data r) x (n_UpdatedAt r).
Definition set_n_UpdatedAt (x : Z) (r : UserSession) : UserSession :=
  mkSession (n_ID r) (n_SessionID r) (n_UserID r) (n_Username r) (n_Email r) (n_PictureURL r) (n_AuthProvider r) (n_IPAddress r)
    (n_Data r) (n_CreatedAt r) x.
Definition NewUserSession (now : Z) (u : User) (sessionID : string) : UserSession :=
  mkSession "" sessionID (u_ID u) (u_Username u) (u_Email u) (u_PictureURL u) "" "" "" now 0.
Inductive session_error := SessionIDMissing | SessionUsernameMissing | SessionUserMissing.
Definition Session_Validate (s : UserSession) : option session_error :=
  if n_SessionID s == "" then Some SessionIDMissing
  else if n_Username s == "" then Some SessionUsernameMissing
  else if n_UserID s == "" then Some SessionUserMissing
  else None.
End Access.
