(* ===== verification/AccountStore.v ===== *)
(** * AccountStore: the repositories of accounts

    Models [user_repository_impl.go], [org_repository_impl.go],
    [invitation_repository_impl.go], [email_verification_repository_impl.go],
    [subscription_repository_impl.go] and [config_repository_impl.go] of
    [src/queen/repository], with the conditions of [query_context.go].

    A table is a list of rows in the order of their keys.  A statement may fail;
    a transaction that fails leaves the tables as they were.  The unique indexes
    of the migrations are there for the databases they are run on and not for
    SQLite ([indexes]).  The conditions that [addQuery] builds from the parameters
    of a search are a test on rows, and the order asked for a function. *)

From Stdlib Require Import Ascii.
From S2P Require Import Prelude Acl JobDefinition Approval JobRequest Resource Account.
Import Query Notify NameValue Mail Configs Subscriptions Orgs Accounts Access.

Open Scope Z_scope.
Open Scope go_scope.

(** ** Tables and statements *)
Module Bank.
Record DB := mkDB {
  users : list User;
  orgs : list Organization;
  configs : list Config;
  invitations : list UserInvitation;
  verifications : list EmailVerification;
  subscriptions : list Subscription;
  tokens : list UserToken;
  sessions : list UserSession
}.
Definition empty : DB := mkDB [] [] [] [] [] [] [] [].
Definition set_users (l : list User) (d : DB) : DB :=
  mkDB l (orgs d) (configs d) (invitations d) (verifications d) (subscriptions d) (tokens d) (sessions d).
Definition set_orgs (l : list Organization) (d : DB) : DB :=
  mkDB (users d) l (configs d) (invitations d) (verifications d) (subscriptions d) (tokens d) (sessions d).
Definition set_configs (l : list Config) (d : DB) : DB :=
  mkDB (users d) (orgs d) l (invitations d) (verifications d) (subscriptions d) (tokens d) (sessions d).
Definition set_invitations (l : list UserInvitation) (d : DB) : DB :=
  mkDB (users d) (orgs d) (configs d) l (verifications d) (subscriptions d) (tokens d) (sessions d).
Definition set_verifications (l : list EmailVerification) (d : DB) : DB :=
  mkDB (users d) (orgs d) (configs d) (invitations d) l (subscriptions d) (tokens d) (sessions d).
Definition set_subscriptions (l : list Subscription) (d : DB) : DB :=
  mkDB (users d) (orgs d) (configs d) (invitations d) (verifications d) l (tokens d) (sessions d).
Definition set_tokens (l : list UserToken) (d : DB) : DB :=
  mkDB (users d) (orgs d) (configs d) (invitations d) (verifications d) (subscriptions d) l (sessions d).
Definition set_sessions (l : list UserSession) (d : DB) : DB :=
  mkDB (users d) (orgs d) (configs d) (invitations d) (verifications d) (subscriptions d) (tokens d) l.

(** The outside of the accounts: failing statements, fresh identifiers and codes,
    e-mails that are sent or not, hashes, tokens and keys. *)
Class World := {
  fails : nat -> bool;
  ulid : nat -> string;
  randomString : nat -> string;
  mailed : nat -> bool;
  indexes : bool;
  SHA256 : string -> string;
  SHA256Key : string -> string;
  (** [security.BuildToken]: the token and when it expires. *)
  BuildToken : Z -> User -> option (string * Z);
  EncryptionKey : string;
  (** [user_id = ? || organization_id = ?] for a row, as the database reads it. *)
  user_bars_org : string -> string -> Subscription -> bool
}.

Inductive error := ValidationError | NotFoundError | DuplicateError | PermissionError | LimitError | DBError | MailError | Refused (why : string).
Inductive record_kind := UserRecord | OrgRecord | SubscriptionRecord | TokenRecord | InviteRecord | VerificationRecord | ConfigRecord.
(** The audit trail, the changes told to the caches and the e-mails sent. *)
Record St := mkSt {
  db : DB;
  asked : nat;
  made : nat;
  time : Z;
  audits : list (record_kind * string);
  fired : list (string * bool);
  outbox : list (string * string)
}.
Definition initial : St := mkSt empty 0 0 0 [] [] [].
Definition M (A : Type) : Type := St -> (A + error) * St.
Definition ret {A} (a : A) : M A := fun s => (inl a, s).
Definition throw {A} (e : error) : M A := fun s => (inr e, s).
Definition bind {A B} (m : M A) (k : A -> M B) : M B :=
  fun s => match m s with (inl a, s) => k a s | (inr e, s) => (inr e, s) end.
(** The error of a call as a value of the caller. *)
Definition attempt {A} (m : M A) : M (A + error) := fun s => let '(r, s) := m s in (inl r, s).
(** [x, _ := m]: nothing on an error. *)
Definition maybe {A} (m : M A) : M (option A) := fun s => let '(r, s) := m s in (inl (match r with inl a => Some a | inr _ => None end), s).
Declare Scope bank_scope.
Notation "x <- m ;; k" := (bind m (fun x => k)) (at level 100, m at next level, right associativity) : bank_scope.
Notation "m ;;; k" := (bind m (fun _ => k)) (at level 100, right associativity) : bank_scope.
Open Scope bank_scope.

Definition set_db (d : DB) (s : St) : St := mkSt d (asked s) (made s) (time s) (audits s) (fired s) (outbox s).
Definition now : M Z := fun s => (inl (time s), s).
Definition audit (k : record_kind) (id : string) : M unit :=
  fun s => (inl tt, mkSt (db s) (asked s) (made s) (time s) (audits s ++ [(k, id)]) (fired s) (outbox s)).
(** [FireObjectUpdatedHandler]: true for an update, false for a deletion. *)
Definition fire (id : string) (updated : bool) : M unit :=
  fun s => (inl tt, mkSt (db s) (asked s) (made s) (time s) (audits s) (fired s ++ [(id, updated)]) (outbox s)).

Section Statements.
Context `{World}.
Definition fresh (f : nat -> string) : M string :=
  fun s => (inl (f (made s)), mkSt (db s) (asked s) (S (made s)) (time s) (audits s) (fired s) (outbox s)).
Definition new_id : M string := fresh ulid.
Definition new_code : M string := fresh randomString.
Definition tick (s : St) : St := mkSt (db s) (S (asked s)) (made s) (time s) (audits s) (fired s) (outbox s).
Definition exec {A} (e : error) (f : DB -> A * DB) : M A :=
  fun s => if fails (asked s) then (inr e, tick s) else let '(a, d) := f (db s) in (inl a, set_db d (tick s)).
Definition query {A} (e : error) (f : DB -> A) : M A := exec e (fun d => (f d, d)).
(** [db.Transaction]: an error of the body or of the commit undoes its changes. *)
Definition transaction {A} (m : M A) : M A :=
  fun s =>
    match m s with
    | (inl a, s') => if fails (asked s') then (inr DBError, set_db (db s) (tick s')) else (inl a, tick s')
    | (inr e, s') => (inr e, set_db (db s) s')
    end.
(** An e-mail to an address. *)
Definition send (to text : string) : M unit :=
  fun s => if mailed (asked s) then (inl tt, mkSt (db s) (S (asked s)) (made s) (time s) (audits s) (fired s) (outbox s ++ [(to, text)]))
           else (inr MailError, tick s).

(** Rows by a test: the first, all with a change, their number. *)
Definition first {A} (p : A -> bool) (l : list A) : option A := List.find p l.
Definition update {A} (p : A -> bool) (f : A -> A) (l : list A) : list A := map (fun x => if p x then f x else x) l.
Definition count {A} (p : A -> bool) (l : list A) : Z := Z.of_nat (List.length (List.filter p l)).
Definition found {A} (e : error) (o : option A) : M A := match o with Some a => ret a | None => throw e end.
Definition expect_one (n : Z) (e : error) : M unit := if n =? 1 then ret tt else throw e.
(** The rows of a page. *)
Definition page_of {A} (page pageSize : nat) (l : list A) : list A := firstn pageSize (skipn (page * pageSize) l).
End Statements.
End Bank.
Import Bank.

(** ** Configurations *)
Module ConfigRepo.
Section Repo.
Context `{World} `{Cipher}.
(** The user of a query context with the salt of its organization, which the
    context's own user (see [Approval.Query]) does not carry. *)
Definition encryptionKey (salt : string) : string := if EncryptionKey == "" then "" else SHA256Key (EncryptionKey +:+ salt).

Definition owned_by (t id : string) (c : Config) : bool := (c_ConfigurableType c == t) && (c_ConfigurableID c == id).
Definition scopedDB (qc : QueryContext) (readonly : bool) (c : Config) : bool :=
  if IsAdmin qc || (readonly && IsReadAdmin qc) then true
  else match User_ qc with
       | Some u =>
           if Users.OrganizationID u != ""
           then owned_by ConfigurableTypeOrg (Users.OrganizationID u) c || owned_by ConfigurableTypeUser (Users.ID u) c
           else owned_by ConfigurableTypeUser (Users.ID u) c
       | None => false
       end.
Definition strictScopedDB (qc : QueryContext) (readonly : bool) (c : Config) : bool :=
  if IsAdmin qc || (readonly && IsReadAdmin qc) then true
  else match User_ qc with
       | Some u =>
           if Users.OrganizationID u != ""
           then owned_by ConfigurableTypeOrg (Users.OrganizationID u) c || owned_by ConfigurableTypeUser (Users.ID u) c
           else owned_by ConfigurableTypeUser (Users.ID u) c
       | None => false
       end.
Definition scopedOrgDB (qc : QueryContext) (orgID : string) (c : Config) : bool :=
  if IsAdmin qc then owned_by ConfigurableTypeOrg orgID c
  else match User_ qc with
       | Some u => (Users.OrganizationID u == orgID) && owned_by ConfigurableTypeOrg orgID c
       | None => false
       end.
Definition scopedUserDB (qc : QueryContext) (userID : string) (c : Config) : bool :=
  if IsAdmin qc then owned_by ConfigurableTypeUser userID c
  else match User_ qc with
       | Some u => (Users.ID u == userID) && owned_by ConfigurableTypeUser userID c
       | None => false
       end.

Definition Get (qc : QueryContext) (salt id : string) : M Config :=
  r <- query NotFoundError (fun d => first (fun c => strictScopedDB qc true c && (c_ID c == id)) (configs d)) ;;
  c <- found NotFoundError r ;;
  found DBError (Configs.AfterLoad (encryptionKey salt) c).
Definition Delete (qc : QueryContext) (id : string) : M unit :=
  n <- exec NotFoundError
         (fun d => let p := fun c => strictScopedDB qc false c && (c_ID c == id) in
                   (count p (configs d), set_configs (List.filter (fun c => negb (p c)) (configs d)) d)) ;;
  expect_one n NotFoundError ;;;
  fire id false.
Definition getByOwnerAndName (t id name : string) : M Config :=
  r <- query NotFoundError (fun d => first (fun c => owned_by t id c && (Name (c_nv c) == name)) (configs d)) ;;
  found NotFoundError r.
(** [tx.Create] and [tx.Save] of a row. *)
Definition same_owner_name (c x : Config) : bool :=
  owned_by (c_ConfigurableType c) (c_ConfigurableID c) x && (Name (c_nv x) == Name (c_nv c)).
Definition insert_config (c : Config) : M unit :=
  ok <- exec DBError (fun d => if indexes && existsb (same_owner_name c) (configs d) then (false, d) else (true, set_configs (configs d ++ [c]) d)) ;;
  if ok : bool then ret tt else throw DBError.
Definition put_config (c : Config) (d : DB) : DB :=
  if existsb (fun x => c_ID x == c_ID c) (configs d) then set_configs (update (fun x => c_ID x == c_ID c) (fun _ => c) (configs d)) d
  else set_configs (configs d ++ [c]) d.
Definition Save (salt : string) (cfg : Config) : M Config :=
  match Configs.ValidateBeforeSave (encryptionKey salt) cfg with
  | inr _ => throw ValidationError
  | inl cfg =>
      cfg <- transaction
        (old <- maybe (getByOwnerAndName (c_ConfigurableType cfg) (c_ConfigurableID cfg) (Name (c_nv cfg))) ;;
         let cfg := match old with Some o => set_c_CreatedAt (c_CreatedAt o) (set_c_ID (c_ID o) cfg) | None => cfg end in
         t <- now ;;
         if c_ID cfg == "" then
           id <- new_id ;;
           let cfg := set_c_UpdatedAt t (set_c_CreatedAt t (set_c_ID id cfg)) in
           insert_config cfg ;;; ret cfg
         else
           let cfg := set_c_UpdatedAt t cfg in
           exec DBError (fun d => (tt, put_config cfg d)) ;;; ret cfg) ;;
      fire (c_ID cfg) true ;;;
      ret cfg
  end.
(** The rows of a page in the order of their names, decrypted. *)
Definition by_name (l : list Config) : list Config := sort_slice (fun a b => String.ltb (Name (c_nv a)) (Name (c_nv b))) l.
Definition decrypt_all (salt : string) (l : list Config) : M (list Config) := found DBError (mapM (Configs.AfterLoad (encryptionKey salt)) l).
Definition Query (qc : QueryContext) (salt : string) (where_ : Config -> bool) (order : option (list Config -> list Config)) (page pageSize : nat) : M (list Config * Z) :=
  let p := fun c => scopedDB qc true c && where_ c in
  l <- query DBError (fun d => page_of page pageSize (default by_name order (List.filter p (configs d)))) ;;
  n <- maybe (query DBError (fun d => count p (configs d))) ;;
  l <- decrypt_all salt l ;;
  ret (l, default 0 n).
Definition QueryOrgConfigs (qc : QueryContext) (salt orgID : string) (page pageSize : nat) : M (list Config * Z) :=
  l <- query DBError (fun d => page_of page pageSize (by_name (List.filter (scopedOrgDB qc orgID) (configs d)))) ;;
  n <- maybe (query DBError (fun d => count (scopedOrgDB qc orgID) (configs d))) ;;
  l <- decrypt_all salt l ;;
  ret (l, default 0 n).
Definition QueryUserConfigs (qc : QueryContext) (salt userID : string) (page pageSize : nat) : M (list Config * Z) :=
  l <- query DBError (fun d => page_of page pageSize (by_name (List.filter (scopedUserDB qc userID) (configs d)))) ;;
  n <- maybe (query DBError (fun d => count (scopedUserDB qc userID) (configs d))) ;;
  l <- decrypt_all salt l ;;
  ret (l, default 0 n).
End Repo.
End ConfigRepo.

(** ** Users, tokens and sessions *)
Module UserRepo.
Section Repo.
Context `{World} `{Notifications}.

Definition with_user_column (column : string) (qc : QueryContext) : QueryContext := mkQueryContext column (OrganizationIDColumn qc) (User_ qc).
(** The columns of a user that scopes name. *)
Definition user_row (u : User) (column : string) : string :=
  if column == "id" then u_ID u else if column == "organization_id" then u_OrganizationID u else "".
Definition token_row (t : UserToken) (column : string) : string :=
  if column == "user_id" then t_UserID t else if column == "organization_id" then t_OrganizationID t else "".
Definition scope (qc : QueryContext) (readonly : bool) (u : User) : bool :=
  AddOrgElseUserWhere (with_user_column "id" qc) readonly (user_row u).

(** What is stored of a user, and the organization and subscriptions loaded with
    it. *)
Definition stored (u : User) : User :=
  set_u_Notify ∅ (set_u_OrgUnit "" (set_u_Subscription None (set_u_Organization None
    (mkAccount (u_ID u) (u_Name u) (u_Username u) (u_Email u) (u_URL u) (u_PictureURL u) (u_OrganizationID u) None (u_AuthID u)
       (u_AuthProvider u) (u_MaxConcurrency u) (u_NotifySerialized u) (u_StickyMessage u) (u_BundleID u) (u_SerializedPerms u)
       (u_SerializedRoles u) (u_Salt u) None (u_EmailVerified u) (u_Locked u) (u_Active u) (u_CreatedAt u) (u_UpdatedAt u) "" "" ∅)))).
Definition org_subscription (t : Z) (id : string) (d : DB) : option Subscription :=
  first (fun s => (s_OrganizationID s == id) && current t s) (subscriptions d).
Definition org_configs (id : string) (d : DB) : list Config := List.filter (ConfigRepo.owned_by ConfigurableTypeOrg id) (configs d).
Definition preload_org (t : Z) (d : DB) (o : Organization) : Organization :=
  set_o_Configs (org_configs (o_ID o) d) (set_o_Subscription (org_subscription t (o_ID o) d) o).
Definition preload (t : Z) (d : DB) (u : User) : User :=
  set_u_Subscription (first (fun s => (s_UserID s == u_ID u) && current t s) (subscriptions d))
    (set_u_Organization (preload_org t d <$> first (fun o => o_ID o == u_OrganizationID u) (orgs d)) u).

Definition Get (qc : QueryContext) (id : string) : M User :=
  t <- now ;;
  r <- query NotFoundError (fun d => preload t d <$> first (fun u => scope qc true u && (u_ID u == id) && u_Active u) (users d)) ;;
  u <- found NotFoundError r ;;
  found DBError (AfterLoad u).
Definition GetByUsername (qc : QueryContext) (username : string) : M User :=
  t <- now ;;
  r <- query NotFoundError (fun d => preload t d <$> first (fun u => scope qc true u && (u_Username u == username) && u_Active u) (users d)) ;;
  u <- found NotFoundError r ;;
  found DBError (AfterLoad u).
Definition lookupUsername (username : string) : M User :=
  r <- query NotFoundError (fun d => first (fun u => u_Username u == username) (users d)) ;;
  u <- found NotFoundError r ;;
  found DBError (AfterLoad u).

Definition Delete (qc : QueryContext) (id : string) : M unit :=
  t <- now ;;
  n <- exec NotFoundError
         (fun d => let p := fun u => scope qc false u && (u_ID u == id) && u_Active u in
                   (count p (users d),
                    set_users (update p (fun u => set_u_UpdatedAt t (set_u_OrganizationID "" (set_u_Active false u))) (users d)) d)) ;;
  expect_one n NotFoundError.

Definition taken (u x : User) : bool := (u_Username x == u_Username u) || (u_Email x == u_Email u).
Definition insert_user (u : User) : M unit :=
  ok <- exec DBError (fun d => if indexes && existsb (taken u) (users d) then (false, d) else (true, set_users (users d ++ [stored u]) d)) ;;
  if ok : bool then ret tt else throw DBError.
(** [tx.Save] of a user whose row exists. *)
Definition put_user (u : User) : M unit :=
  ok <- exec DBError
          (fun d => if indexes && existsb (fun x => (u_ID x != u_ID u) && taken u x) (users d) then (false, d)
                    else (true, set_users (update (fun x => u_ID x == u_ID u) (fun _ => stored u) (users d)) d)) ;;
  if ok : bool then ret tt else throw DBError.

Definition Create (user : User) : M User :=
  match ValidateBeforeSave user with
  | inr _ => throw ValidationError
  | inl user =>
      old <- maybe (lookupUsername (u_Username user)) ;;
      match old with
      | Some _ => throw DuplicateError
      | None =>
          transaction
            (t <- now ;;
             id <- new_id ;;
             let user := set_u_UpdatedAt t (set_u_CreatedAt t (set_u_ID id (set_u_Active true user))) in
             insert_user user ;;; ret user)
      end
  end.

(** What an update takes over from the user it is given. *)
Definition merge (qc : QueryContext) (t : Z) (user old : User) : User :=
  let verified := u_EmailVerified user && negb ((u_Email user != "") && (u_Email old != u_Email user)) in
  let old := set_u_Active true old in
  let old := set_u_Name (nonempty_or (u_Name user) (u_Name old)) old in
  let old := set_u_PictureURL (nonempty_or (u_PictureURL user) (u_PictureURL old)) old in
  let old := set_u_URL (nonempty_or (u_URL user) (u_URL old)) old in
  let old := set_u_Email (nonempty_or (u_Email user) (u_Email old)) old in
  let old := set_u_AuthProvider (nonempty_or (u_AuthProvider user) (u_AuthProvider old)) old in
  let old := set_u_AuthID (nonempty_or (u_AuthID user) (u_AuthID old)) old in
  let old :=
    if IsAdmin qc then set_u_OrganizationID (nonempty_or (u_OrganizationID user) (u_OrganizationID old)) old
    else set_u_OrganizationID (GetOrganizationID qc) old in
  let old := set_u_BundleID (nonempty_or (u_BundleID user) (u_BundleID old)) old in
  let old := set_u_NotifySerialized (nonempty_or (u_NotifySerialized user) (u_NotifySerialized old)) old in
  let old := if verified then set_u_EmailVerified true old else old in
  set_u_UpdatedAt t old.
Definition Update (qc : QueryContext) (user : User) : M User :=
  match ValidateBeforeSave user with
  | inr _ => throw ValidationError
  | inl user =>
      old <- maybe (lookupUsername (u_Username user)) ;;
      match old with
      | None => throw NotFoundError
      | Some old =>
          if negb (IsAdmin qc) && negb (Matches qc (u_ID old) (u_OrganizationID old) false) then throw PermissionError
          else
            transaction
              (t <- now ;;
               let old := merge qc t user old in
               put_user old ;;;
               found DBError (AfterLoad old))
      end
  end.

Definition Query (qc : QueryContext) (where_ : User -> bool) (order : option (list User -> list User)) (page pageSize : nat) : M (list User * Z) :=
  let p := fun u => scope qc true u && u_Active u && where_ u in
  l <- query DBError (fun d => page_of page pageSize (default id order (List.filter p (users d)))) ;;
  n <- maybe (query DBError (fun d => count p (users d))) ;;
  ret (map (fun u => default u (AfterLoad u)) l, default 0 n).

(** *** Sessions *)
Definition AddSession (session : UserSession) : M unit :=
  match Session_Validate session with
  | Some _ => throw ValidationError
  | None =>
      transaction
        (t <- now ;;
         id <- new_id ;;
         exec DBError (fun d => (tt, set_sessions (sessions d ++ [set_n_UpdatedAt t (set_n_CreatedAt t (set_n_ID id session))]) d)))
  end.
Definition GetSession (sessionID : string) : M UserSession :=
  r <- query NotFoundError (fun d => first (fun s => n_SessionID s == sessionID) (sessions d)) ;;
  found NotFoundError r.
Definition UpdateSession (session : UserSession) : M unit :=
  match Session_Validate session with
  | Some _ => throw ValidationError
  | None =>
      old <- GetSession (n_SessionID session) ;;
      transaction
        (t <- now ;;
         let x := set_n_PictureURL (nonempty_or (n_PictureURL session) (n_PictureURL old)) old in
         let x := set_n_AuthProvider (nonempty_or (n_AuthProvider session) (n_AuthProvider x)) x in
         let x := set_n_UserID (nonempty_or (n_UserID session) (n_UserID x)) x in
         let x := set_n_Username (nonempty_or (n_Username session) (n_Username x)) x in
         let x := set_n_UpdatedAt t (set_n_Email (nonempty_or (n_Email session) (n_Email x)) x) in
         exec DBError (fun d => (tt, set_sessions (update (fun s => n_ID s == n_ID old) (fun _ => x) (sessions d)) d)))
  end.

(** *** Tokens *)
Definition maxTokens : Z := 10.
Definition live (t : Z) (x : UserToken) : bool := (t <? t_ExpiresAt x) && t_Active x.
(** The error of the count is dropped. *)
Definition countToken (userID : string) : M Z :=
  t <- now ;;
  n <- maybe (query DBError (fun d => count (fun x => (t_UserID x == userID) && live t x) (tokens d))) ;;
  ret (default 0 n).
Definition AddToken (token : UserToken) : M UserToken :=
  t <- now ;;
  match Token_Validate SHA256 t token with
  | inr _ => throw ValidationError
  | inl token =>
      total <- countToken (t_UserID token) ;;
      if maxTokens <=? total then throw ValidationError
      else
        transaction
          (id <- new_id ;;
           let token := set_t_CreatedAt t (set_t_ID id (set_t_Active true token)) in
           exec DBError (fun d => (tt, set_tokens (tokens d ++ [set_t_APIToken "" token]) d)) ;;; ret token)
  end.
Definition RevokeToken (qc : QueryContext) (userID id : string) : M unit :=
  n <- exec NotFoundError
         (fun d => let p := fun x => AddUserWhere (with_user_column "user_id" qc) false (token_row x) && (t_UserID x == userID) && (t_ID x == id) && t_Active x in
                   (count p (tokens d), set_tokens (update p (set_t_Active false) (tokens d)) d)) ;;
  expect_one n NotFoundError.
Definition GetTokens (qc : QueryContext) (userID : string) : M (list UserToken) :=
  t <- now ;;
  query DBError
    (fun d => List.filter (fun x => AddUserWhere (with_user_column "user_id" qc) true (token_row x) && (t_UserID x == userID) && live t x) (tokens d)).
Definition HasToken (userID tokenName sha256 : string) : M bool :=
  t <- now ;;
  n <- maybe (query DBError
         (fun d => count (fun x => (t_UserID x == userID) && (t_TokenName x == tokenName) && (t_SHA256 x == sha256) && live t x) (tokens d))) ;;
  ret (0 <? default 0 n).
End Repo.
End UserRepo.

(** ** Organizations *)
Module OrgRepo.
Section Repo.
Context `{World} `{Cipher}.

Definition encryptionKey (o : Organization) : string := ConfigRepo.encryptionKey (o_Salt o).
Definition load (t : Z) (p : Organization -> bool) : M Organization :=
  r <- query NotFoundError (fun d => UserRepo.preload_org t d <$> first p (orgs d)) ;;
  o <- found NotFoundError r ;;
  found DBError (Orgs.AfterLoad (encryptionKey o) o).
(** The query context is not looked at. *)
Definition Get (id : string) : M Organization := t <- now ;; load t (fun o => (o_ID o == id) && o_Active o).
Definition GetByUnit (unit_ : string) : M Organization := t <- now ;; load t (fun o => (o_OrgUnit o == unit_) && o_Active o).
(** Without configurations and with deleted organizations. *)
Definition lookupOrg (unit_ : string) : M Organization :=
  r <- query NotFoundError (fun d => first (fun o => o_OrgUnit o == unit_) (orgs d)) ;;
  o <- found NotFoundError r ;;
  found DBError (Orgs.AfterLoad (encryptionKey o) o).
Definition lookupBundle (bundle unit_ : string) : M Z :=
  n <- maybe (query DBError (fun d => count (fun o => (o_OrgUnit o != unit_) && (o_BundleID o == bundle)) (orgs d))) ;;
  ret (default 0 n).
Definition decrypt_orgs (l : list Organization) : M (list Organization) :=
  found DBError (mapM (fun o => Orgs.AfterLoad (encryptionKey o) o) l).
Definition GetByParentID (parentID : string) : M (list Organization) :=
  t <- now ;;
  l <- query DBError (fun d => map (UserRepo.preload_org t d) (firstn 100 (List.filter (fun o => (o_ParentID o == parentID) && o_Active o) (orgs d)))) ;;
  decrypt_orgs l.

Definition Delete (id : string) : M unit :=
  transaction
    (t <- now ;;
     n <- exec NotFoundError
            (fun d => let p := fun o => (o_ID o == id) && o_Active o in
                      (count p (orgs d), set_orgs (update p (fun o => set_o_UpdatedAt t (set_o_Active false o)) (orgs d)) d)) ;;
     expect_one n NotFoundError ;;;
     exec DBError
       (fun d => (tt, set_users (update (fun u => (u_OrganizationID u == id) && u_Active u)
                         (fun u => set_u_UpdatedAt t (set_u_BundleID "" (set_u_OrganizationID "" (set_u_Name "" (set_u_Active false u))))) (users d)) d))) ;;;
  fire id false.

Definition org_taken (o x : Organization) : bool := (o_OrgUnit x == o_OrgUnit o) || (o_BundleID x == o_BundleID o).
Definition stored_org (o : Organization) : Organization := set_o_Subscription None (set_o_Configs [] o).
Definition owned (id : string) (c : Config) : Config := set_c_ConfigurableType ConfigurableTypeOrg (set_c_ConfigurableID id c).
Definition insert_org (o : Organization) : M unit :=
  ok <- exec DBError
          (fun d => if indexes && existsb (org_taken o) (orgs d) then (false, d)
                    else (true, set_configs (configs d ++ o_Configs o) (set_orgs (orgs d ++ [stored_org o]) d))) ;;
  if ok : bool then ret tt else throw DBError.
Definition Create (org : Organization) : M Organization :=
  unit_ <- new_id ;;
  bundle <- new_id ;;
  match Orgs.ValidateBeforeSave (unit_, bundle) (encryptionKey org) org with
  | inr _ => throw ValidationError
  | inl org =>
      old <- maybe (lookupOrg (o_OrgUnit org)) ;;
      match old with
      | Some _ => throw DuplicateError
      | None =>
          n <- lookupBundle (o_BundleID org) (o_OrgUnit org) ;;
          if 0 <? n then throw DuplicateError
          else
            transaction
              (t <- now ;;
               id <- new_id ;;
               let org := set_o_UpdatedAt t (set_o_CreatedAt t (set_o_ID id (set_o_Active true org))) in
               let org := set_o_Configs (map (owned id) (o_Configs org)) org in
               insert_org org ;;; ret org)
      end
  end.
Definition put_org (o : Organization) : M unit :=
  ok <- exec DBError
          (fun d => if indexes && existsb (fun x => (o_ID x != o_ID o) && org_taken o x) (orgs d) then (false, d)
                    else (true, set_orgs (update (fun x => o_ID x == o_ID o) (fun _ => stored_org o) (orgs d)) d)) ;;
  if ok : bool then ret tt else throw DBError.
Definition Update (qc : QueryContext) (org : Organization) : M Organization :=
  unit_ <- new_id ;;
  bundle <- new_id ;;
  match Orgs.ValidateBeforeSave (unit_, bundle) (encryptionKey org) org with
  | inr _ => throw ValidationError
  | inl org =>
      old <- maybe (lookupOrg (o_OrgUnit org)) ;;
      match old with
      | None => throw NotFoundError
      | Some old =>
          if negb (Matches qc (o_OwnerUserID old) (o_ID old) false) then throw PermissionError
          else
            old <- transaction
              (t <- now ;;
               let x := set_o_OrgUnit (nonempty_or (o_OrgUnit org) (o_OrgUnit old)) old in
               let x := set_o_BundleID (nonempty_or (o_BundleID org) (o_BundleID x)) x in
               let x := set_o_UpdatedAt t (set_o_Active true x) in
               put_org x ;;; ret x) ;;
            fire (o_ID org) true ;;;
            ret old
      end
  end.
(** The handlers run before the commit. *)
Definition UpdateStickyMessage (user : User) : M unit :=
  transaction
    (exec DBError (fun d => (tt, set_users (update (fun u => u_ID u == u_ID user) (set_u_StickyMessage (u_StickyMessage user)) (users d)) d)) ;;;
     fire (u_ID user) true ;;;
     match u_Organization user with
     | Some o =>
         if u_OrganizationID user != "" then
           exec DBError
             (fun d => (tt, set_orgs (update (fun x => o_ID x == u_OrganizationID user) (set_o_StickyMessage (o_StickyMessage o)) (orgs d)) d)) ;;;
           fire (u_OrganizationID user) true
         else ret tt
     | None => ret tt
     end).
Definition Query (where_ : Organization -> bool) (order : option (list Organization -> list Organization)) (page pageSize : nat) : M (list Organization * Z) :=
  t <- now ;;
  let p := fun o => o_Active o && where_ o in
  l <- query DBError (fun d => map (UserRepo.preload_org t d) (page_of page pageSize (default id order (List.filter p (orgs d))))) ;;
  n <- maybe (query DBError (fun d => count p (orgs d))) ;;
  l <- decrypt_orgs l ;;
  ret (l, default 0 n).
End Repo.
End OrgRepo.

(** ** Invitations *)
Module InvitationRepo.
Section Repo.
Context `{World}.

Definition pending (t : Z) (orgID : string) (i : UserInvitation) : bool :=
  (i_OrganizationID i == orgID) && match i_AcceptedAt i with None => true | Some _ => false end && (t <? i_ExpiresAt i).
Definition has_code (code : string) (i : UserInvitation) : bool := i_InvitationCode i == code.
Definition insert_invitation (i : UserInvitation) : M unit :=
  ok <- exec DBError
          (fun d => if indexes && existsb (has_code (i_InvitationCode i)) (invitations d) then (false, d)
                    else (true, set_invitations (invitations d ++ [i]) d)) ;;
  if ok : bool then ret tt else throw DBError.
(** A failing count of the codes is taken for none. *)
Definition Create (invitation : UserInvitation) : M UserInvitation :=
  t <- now ;;
  id <- new_id ;;
  code <- new_code ;;
  match Invitation_ValidateBeforeSave t id code invitation with
  | inr _ => throw ValidationError
  | inl i =>
      same <- maybe (query DBError (fun d => count (has_code (i_InvitationCode i)) (invitations d))) ;;
      if 0 <? default 0 same then throw DuplicateError
      else
        total <- query DBError (fun d => count (pending t (i_OrganizationID i)) (invitations d)) ;;
        if 100 <? total then throw LimitError
        else transaction (insert_invitation i) ;;; ret i
  end.
Definition Get (id : string) : M UserInvitation :=
  r <- query NotFoundError (fun d => first (fun i => (i_ID i == id) || (i_InvitationCode i == id)) (invitations d)) ;;
  found NotFoundError r.
Definition Delete (id : string) : M unit :=
  n <- exec DBError (fun d => let p := fun i => i_ID i == id in (count p (invitations d), set_invitations (List.filter (fun i => negb (p i)) (invitations d)) d)) ;;
  expect_one n NotFoundError.
Definition Find (email code : string) : M UserInvitation :=
  r <- query NotFoundError (fun d => first (fun i => (i_Email i == email) && (i_InvitationCode i == code)) (invitations d)) ;;
  found NotFoundError r.
Definition acceptable (t : Z) (email code : string) (i : UserInvitation) : bool :=
  (i_Email i == email) && (i_InvitationCode i == code) && (t <=? i_ExpiresAt i) && match i_AcceptedAt i with None => true | Some _ => false end.
Definition Accept (email code : string) : M UserInvitation :=
  t <- now ;;
  n <- exec NotFoundError
         (fun d => (count (acceptable t email code) (invitations d),
                    set_invitations (update (acceptable t email code) (set_i_AcceptedAt (Some t)) (invitations d)) d)) ;;
  expect_one n NotFoundError ;;;
  Find email code.
(** The columns a scope names; a user without a loaded organization is not
    restricted, and the number of records is not counted. *)
Definition AddOrgWhere (has_org : bool) (qc : QueryContext) (readonly : bool) (i : UserInvitation) : bool :=
  if IsAdmin qc || (readonly && IsReadAdmin qc) then true
  else if has_org then i_OrganizationID i == GetOrganizationID qc else true.
Definition Query (has_org : bool) (qc : QueryContext) (where_ : UserInvitation -> bool) (order : option (list UserInvitation -> list UserInvitation))
    (page pageSize : nat) : M (list UserInvitation) :=
  query DBError
    (fun d => page_of page pageSize (default id order (List.filter (fun i => AddOrgWhere has_org qc true i && where_ i) (invitations d)))).
Definition Count (where_ : UserInvitation -> bool) : M Z := query DBError (fun d => count where_ (invitations d)).
End Repo.
End InvitationRepo.

(** ** Verified e-mail addresses *)
Module VerificationRepo.
Section Repo.
Context `{World}.

Definition row (v : EmailVerification) (column : string) : string :=
  if column == "user_id" then v_UserID v else if column == "organization_id" then v_OrganizationID v else "".
Definition waiting (v : EmailVerification) : bool := match v_VerifiedAt v with None => true | Some _ => false end.
Definition insert_verification (v : EmailVerification) : M unit :=
  ok <- exec DBError
          (fun d => if indexes && existsb (fun x => v_EmailCode x == v_EmailCode v) (verifications d) then (false, d)
                    else (true, set_verifications (verifications d ++ [v]) d)) ;;
  if ok : bool then ret tt else throw DBError.
Definition Create (ev : EmailVerification) : M EmailVerification :=
  t <- now ;;
  code <- new_code ;;
  id <- new_id ;;
  match Verification_ValidateBeforeSave t id code ev with
  | inr _ => throw ValidationError
  | inl ev =>
      total <- query DBError (fun d => count (fun v => (v_UserID v == v_UserID ev) && waiting v && (t <? v_ExpiresAt v)) (verifications d)) ;;
      if 10 <? total then throw LimitError else insert_verification ev ;;; ret ev
  end.
Definition Get (qc : QueryContext) (id : string) : M EmailVerification :=
  r <- query NotFoundError (fun d => first (fun v => AddUserWhere qc true (row v) && ((v_ID v == id) || (v_EmailCode v == id))) (verifications d)) ;;
  found NotFoundError r.
Definition Delete (qc : QueryContext) (id : string) : M unit :=
  n <- exec DBError
         (fun d => let p := fun v => AddUserWhere qc false (row v) && (v_ID v == id) in
                   (count p (verifications d), set_verifications (List.filter (fun v => negb (p v)) (verifications d)) d)) ;;
  expect_one n NotFoundError.
Definition GetVerifiedEmails (qc : QueryContext) (user : User) : M (gset string) :=
  let p := fun v => AddOrgElseUserWhere qc true (row v) && negb (waiting v) &&
                    (if HasOrganization user then v_OrganizationID v == u_OrganizationID user else v_UserID v == u_ID user) in
  l <- maybe (query DBError (fun d => firstn 100 (List.filter p (verifications d)))) ;;
  ret (list_to_set (map (fun v => ToLower (v_Email v)) (default [] l))).
Definition verifiable (qc : QueryContext) (t : Z) (userID code : string) (v : EmailVerification) : bool :=
  AddUserWhere qc false (row v) && (v_EmailCode v == code) && (t <? v_ExpiresAt v) && waiting v && (v_UserID v == userID).
Definition Verify (qc : QueryContext) (user : User) (code : string) : M EmailVerification :=
  t <- now ;;
  updated <- exec DBError
    (fun d => let p := verifiable qc t (u_ID user) code in (count p (verifications d), set_verifications (update p (set_v_VerifiedAt (Some t)) (verifications d)) d)) ;;
  r <- query NotFoundError (fun d => first (fun v => v_EmailCode v == code) (verifications d)) ;;
  ev <- found NotFoundError r ;;
  if waiting ev && negb (updated =? 1) then throw NotFoundError else ret ev.
Definition newest_first (l : list EmailVerification) : list EmailVerification := sort_slice (fun a b => v_CreatedAt b <? v_CreatedAt a) l.
Definition Query (qc : QueryContext) (where_ : EmailVerification -> bool) (order : option (list EmailVerification -> list EmailVerification))
    (page pageSize : nat) : M (list EmailVerification * Z) :=
  let p := fun v => AddUserWhere qc true (row v) && where_ v in
  l <- query DBError (fun d => page_of page pageSize (default newest_first order (List.filter p (verifications d)))) ;;
  n <- maybe (query DBError (fun d => count p (verifications d))) ;;
  ret (l, default 0 n).
End Repo.
End VerificationRepo.

(** ** Subscriptions *)
Module SubscriptionRepo.
Section Repo.
Context `{World}.

Definition row (s : Subscription) (column : string) : string :=
  if column == "user_id" then s_UserID s else if column == "organization_id" then s_OrganizationID s else "".
Definition Get (qc : QueryContext) (id : string) : M Subscription :=
  r <- query NotFoundError (fun d => first (fun s => AddOrgElseUserWhere qc true (row s) && (s_ID s == id) && s_Active s) (subscriptions d)) ;;
  found NotFoundError r.
Definition Delete (qc : QueryContext) (id : string) : M unit :=
  t <- now ;;
  n <- exec DBError
         (fun d => let p := fun s => (s_ID s == id) && s_Active s && AddOrgElseUserWhere qc false (row s) in
                   (count p (subscriptions d), set_subscriptions (update p (fun s => set_s_UpdatedAt t (set_s_Active false s)) (subscriptions d)) d)) ;;
  expect_one n NotFoundError ;;;
  fire id false.
(** The rows switched off by a new subscription.  [tx.Model(subscription)] adds
    the key of its argument to the conditions. *)
Definition replaced (sub s : Subscription) : bool :=
  (s_ID s == s_ID sub) && s_Active s && (s_ID s != s_ID sub) && user_bars_org (s_UserID sub) (s_OrganizationID sub) s.
Definition Create (sub : Subscription) : M Subscription :=
  match Subscriptions.Validate sub with
  | Some _ => throw ValidationError
  | None =>
      id <- new_id ;;
      let sub := set_s_ID id sub in
      sub <- transaction
        (t <- now ;;
         attempt (exec DBError (fun d => (tt, set_subscriptions (update (replaced sub) (fun s => set_s_UpdatedAt t (set_s_Active false s)) (subscriptions d)) d))) ;;;
         let sub := set_s_Active true (set_s_UpdatedAt t (set_s_CreatedAt t sub)) in
         exec DBError (fun d => (tt, set_subscriptions (subscriptions d ++ [sub]) d)) ;;;
         ret sub) ;;
      fire (s_ID sub) true ;;;
      ret sub
  end.
Definition put_subscription (sub : Subscription) (d : DB) : DB :=
  if existsb (fun s => s_ID s == s_ID sub) (subscriptions d) then set_subscriptions (update (fun s => s_ID s == s_ID sub) (fun _ => sub) (subscriptions d)) d
  else set_subscriptions (subscriptions d ++ [sub]) d.
Definition Update (qc : QueryContext) (sub : Subscription) : M Subscription :=
  match Subscriptions.Validate sub with
  | Some _ => throw ValidationError
  | None =>
      if negb (Matches qc (s_UserID sub) (s_OrganizationID sub) false) then throw PermissionError
      else
        t <- now ;;
        let sub := set_s_UpdatedAt t (set_s_Active true sub) in
        transaction (exec DBError (fun d => (tt, put_subscription sub d))) ;;;
        fire (s_ID sub) true ;;;
        ret sub
  end.
Definition latest_first (l : list Subscription) : list Subscription := sort_slice (fun a b => s_CreatedAt b <? s_CreatedAt a) l.
Definition Query (qc : QueryContext) (where_ : Subscription -> bool) (order : option (list Subscription -> list Subscription)) (page pageSize : nat) : M (list Subscription * Z) :=
  let p := fun s => AddOrgElseUserWhere qc true (row s) && s_Active s && where_ s in
  l <- query DBError (fun d => page_of page pageSize (default latest_first order (List.filter p (subscriptions d)))) ;;
  n <- maybe (query DBError (fun d => count p (subscriptions d))) ;;
  ret (l, default 0 n).
End Repo.
End SubscriptionRepo.
