(* ===== verification/AccountManager.v ===== *)
(** * AccountManager: signing up, invitations and e-mail addresses

    Models [src/queen/manager/user_manager.go] over the repositories of
    [AccountStore], and the sign-up form of
    [src/queen/controller/admin/user_admin_controller.go] ([SignupForm]), the way
    in which an account is made.  Objects are passed and returned as values: where
    the code changes a user it was given, the definition returns the changed one.
    Saving an audit record never changes what a method does, so that only the fact
    is kept. *)

From Stdlib Require Import Ascii.
From S2P Require Import Prelude Acl JobDefinition Approval JobRequest Resource Account AccountStore.
Import Query Notify NameValue Mail Configs Subscriptions Orgs Accounts Access Bank.

Open Scope Z_scope.
Open Scope go_scope.
Open Scope bank_scope.

Module UserManager.
(** The user of a call. *)
Abbreviation Caller := (option User).
Definition qc_of (c : Caller) : QueryContext := NewQueryContext (acl_of <$> c).
Definition HasOrganization (c : Caller) : bool :=
  match c with Some u => match u_Organization u with Some _ => true | None => false end | None => false end.
Definition GetSalt (c : Caller) : string :=
  match c with
  | Some u => match u_Organization u with Some o => o_Salt o | None => u_Salt u end
  | None => ""
  end.
(** [NewQueryContext(nil, "").WithAdmin()]: without a user, which counts as an
    administrator. *)
Definition adminQC : Caller := None.

Section Manager.
Context `{World} `{Notifications} `{Cipher}.

Definition GetUser (c : Caller) (userID : string) : M User := UserRepo.Get (qc_of c) userID.
Definition DeleteUser (c : Caller) (userID : string) : M unit := UserRepo.Delete (qc_of c) userID.
Definition GetUserTokens (c : Caller) (userID : string) : M (list UserToken) := UserRepo.GetTokens (qc_of c) userID.
Definition RevokeUserToken (c : Caller) (userID token : string) : M unit := UserRepo.RevokeToken (qc_of c) userID token.
Definition GetOrganization (id : string) : M Organization := OrgRepo.Get id.
Definition DeleteOrganization (id : string) : M unit := OrgRepo.Delete id.
Definition GetInvitation (id : string) : M UserInvitation := InvitationRepo.Get id.

(** *** Messages that stay *)
Definition UpdateStickyMessage (user : User) : M unit := OrgRepo.UpdateStickyMessage user.
Definition AddStickyMessageForEmail (user : option User) (err : string) : M unit :=
  match user with
  | Some u => if u_StickyMessage u == "" then UpdateStickyMessage (set_u_StickyMessage ("email-error: " +:+ err) u) else ret tt
  | None => ret tt
  end.
Definition ClearStickyMessageForEmail (user : option User) : M unit :=
  match user with
  | Some u => if Contains (u_StickyMessage u) "email-error" then UpdateStickyMessage (set_u_StickyMessage "" u) else ret tt
  | None => ret tt
  end.
Definition AddStickyMessageForSlack (user : option User) (err : string) : M unit :=
  match user with
  | Some u =>
      if u_StickyMessage u == ""
      then UpdateStickyMessage (set_u_StickyMessage ("slack-error: Slack messages could not be sent due to '" +:+ err +:+ "'") u)
      else ret tt
  | None => ret tt
  end.
Definition ClearStickyMessageForSlack (user : option User) : M unit :=
  match user with
  | Some u => if Contains (u_StickyMessage u) "slack-error" then UpdateStickyMessage (set_u_StickyMessage "" u) else ret tt
  | None => ret tt
  end.

(** *** Tokens *)
Definition CreateUserToken (user : User) (token : string) : M UserToken :=
  t <- now ;;
  match BuildToken t user with
  | None => throw (Refused "token")
  | Some (strTok, expiration) =>
      tok <- UserRepo.AddToken (set_t_ExpiresAt expiration (set_t_APIToken strTok (NewUserToken t user token))) ;;
      audit TokenRecord (t_ID tok) ;;;
      ret tok
  end.

(** *** Verified addresses *)
Definition CreateEmailVerification (c : Caller) (ev : EmailVerification) : M EmailVerification :=
  user <- GetUser c (v_UserID ev) ;;
  saved <- VerificationRepo.Create ev ;;
  r <- attempt (send (v_Email saved) (v_EmailCode saved)) ;;
  match r with
  | inr e => attempt (VerificationRepo.Delete (qc_of c) (v_ID saved)) ;;; throw e
  | inl _ => audit VerificationRecord (v_ID saved) ;;; ret saved
  end.
(** The record is returned even when the user cannot be updated; the error is
    that of the update. *)
Definition VerifyEmail (c : Caller) (userID code : string) : M EmailVerification :=
  user <- UserRepo.Get (qc_of c) userID ;;
  rec <- VerificationRepo.Verify (qc_of c) user code ;;
  audit VerificationRecord (v_ID rec) ;;;
  if negb (u_EmailVerified user) && (u_Email user == v_Email rec)
  then UserRepo.Update (qc_of c) (set_u_EmailVerified true user) ;;; ret rec
  else ret rec.
Definition GetVerifiedEmails (c : Caller) (user : User) : M (gset string) := VerificationRepo.GetVerifiedEmails (qc_of c) user.

(** *** Users *)
(** The user of a provider at a login: roles and permissions of the stored user of
    that name, if any, with the defaults that are missing. *)
Definition PrepareLoginUser (user : User) : M (User * option User) :=
  old <- maybe (UserRepo.GetByUsername (qc_of None) (u_Username user)) ;;
  let user := match old with Some o => CopyRolesPermissions user o | None => user end in
  ret (if u_SerializedPerms user == "" then set_u_SerializedPerms Perm.DefaultPermissionsString user else BackfillDefaultPermissions user, old).
Definition CreateUser (c : Caller) (user : User) : M User :=
  let user := if u_SerializedPerms user == "" then set_u_SerializedPerms Perm.DefaultPermissionsString user else user in
  saved <- UserRepo.Create user ;;
  audit UserRecord (u_ID saved) ;;;
  t <- now ;;
  code <- new_code ;;
  attempt (CreateEmailVerification c (NewEmailVerification t code (u_Email saved) saved)) ;;;
  sub <- SubscriptionRepo.Create (NewFreemiumSubscription t saved) ;;
  audit SubscriptionRecord (s_ID sub) ;;;
  ret saved.
Definition UpdateUser (c : Caller) (user : User) : M User :=
  saved <- UserRepo.Update (qc_of c) user ;;
  audit UserRecord (u_ID saved) ;;;
  ret saved.
Definition PostSignup (user : User) : M unit := audit UserRecord (u_ID user).

(** *** Organizations *)
Definition promoteToOrgAdmin (user : User) : User :=
  let roles := Roles.AddRole (Roles.NewRoles (u_SerializedRoles user)) Roles.OrgAdmin [] in
  set_u_SerializedPerms Perm.OrgAdminPermissionsString (set_u_SerializedRoles (Roles.MarshalRoles (map_to_list roles).*2) user).
Definition CreateOrg (org : Organization) : M Organization :=
  saved <- OrgRepo.Create org ;;
  audit OrgRecord (o_ID saved) ;;;
  ret saved.
Definition UpdateOrg (c : Caller) (org : Organization) : M Organization :=
  saved <- OrgRepo.Update (qc_of c) org ;;
  audit OrgRecord (o_ID saved) ;;;
  ret saved.
Definition CreatePersonalOrgForUser (user : User) : M (Organization * User) :=
  t <- now ;;
  id <- new_id ;;
  savedOrg <- OrgRepo.Create (NewPersonalOrg t id (u_ID user) (u_Username user)) ;;
  audit OrgRecord (o_ID savedOrg) ;;;
  let user := promoteToOrgAdmin (set_u_BundleID (o_BundleID savedOrg) (set_u_OrganizationID (o_ID savedOrg) user)) in
  r <- attempt (UserRepo.Update (qc_of adminQC) user) ;;
  match r with
  | inr e => attempt (OrgRepo.Delete (o_ID savedOrg)) ;;; throw e
  | inl _ => ret (savedOrg, user)
  end.

(** *** Invitations *)
Definition InviteUser (user : option User) (inv : UserInvitation) : M UserInvitation :=
  match user with
  | None => throw (Refused "failed to find user in session for invitation")
  | Some user =>
      match u_Organization user with
      | Some o =>
          if u_OrganizationID user == "" then throw (Refused "user does not belong to organization")
          else
            let inv := set_i_OrgUnit (o_OrgUnit o) (set_i_OrganizationID (u_OrganizationID user) (set_i_InvitedByUserID (u_ID user) inv)) in
            inv <- InvitationRepo.Create inv ;;
            r <- attempt (send (i_Email inv) (i_InvitationCode inv)) ;;
            match r with
            | inr e => attempt (InvitationRepo.Delete (i_ID inv)) ;;; throw e
            | inl _ => audit InviteRecord (i_ID inv) ;;; ret inv
            end
      | None => throw (Refused "user does not belong to organization")
      end
  end.
(** The organization of a user who signs up, and the user with it: that of the
    invitation, or a new one that is not stored yet. *)
Definition BuildOrgWithInvitation (user : User) : M (option Organization * User) :=
  if negb (HasOrganizationOrInvitationCode user) then ret (None, user)
  else if u_InvitationCode user != "" then
    r <- attempt (InvitationRepo.Accept (u_Email user) (u_InvitationCode user)) ;;
    match r with
    | inr _ => throw (Refused "invitation-code is not valid, please contact admin of your organization to re-invite you to the organization")
    | inl inv =>
        org <- OrgRepo.Get (i_OrganizationID inv) ;;
        ret (Some org, promoteToOrgAdmin (set_u_OrgUnit (o_OrgUnit org) (set_u_BundleID (o_BundleID org) (set_u_OrganizationID (o_ID org) user))))
    end
  else
    org <- maybe (OrgRepo.GetByUnit (u_OrgUnit user)) ;;
    match org with
    | Some _ => throw (Refused "organization already exists, please contact admin of your organization to invite you to the organization")
    | None =>
        t <- now ;;
        id <- new_id ;;
        let user := if u_BundleID user == "" then set_u_BundleID (id +:+ ".formicary.io") user else user in
        ret (Some (NewOrganization t (u_ID user) (u_OrgUnit user) (u_BundleID user)), user)
    end.
(** The organization of a user who has created one: stored, and the user
    updated. *)
Definition attach_org (org : Organization) (saved : User) : M (Organization * User) :=
  r <- attempt (CreateOrg (set_o_OwnerUserID (u_ID saved) org)) ;;
  match r with
  | inr e => attempt (DeleteUser adminQC (u_ID saved)) ;;; throw e
  | inl org =>
      let saved := set_u_BundleID (o_BundleID org) (set_u_OrganizationID (o_ID org) saved) in
      UpdateUser adminQC saved ;;;
      ret (org, saved)
  end.
Definition attach_personal (saved : User) : M (Organization * User) :=
  r <- attempt (CreatePersonalOrgForUser saved) ;;
  match r with
  | inr e => attempt (DeleteUser adminQC (u_ID saved)) ;;; throw e
  | inl x => ret x
  end.
Definition SignupUser (c : Caller) (user : User) : M (User * option Organization) :=
  built <- BuildOrgWithInvitation user ;;
  let '(org, user) := built : option Organization * User in
  saved <- CreateUser c user ;;
  x <- (match org with
        | Some o => if o_ID o == "" then y <- attach_org o saved ;; ret (Some (fst y), snd y) else ret (Some o, saved)
        | None => ret (None, saved)
        end) ;;
  let '(org, saved) := x : option Organization * User in
  y <- (if u_OrganizationID saved == "" then z <- attach_personal saved ;; ret (Some (fst z), snd z) else ret (org, saved)) ;;
  let '(org, saved) := y : option Organization * User in
  let saved := set_u_Organization org saved in
  PostSignup saved ;;;
  ret (saved, org).

(** *** Configurations *)
Definition SlackToken : string := "SlackToken".
Definition GetSlackToken (c : Caller) (org : option Organization) : M string :=
  if negb (HasOrganization c) then ret ""
  else
    match org with
    | Some o => ret (GetConfigString SlackToken o)
    | None =>
        r <- ConfigRepo.Query (qc_of c) (GetSalt c) (fun x => Name (c_nv x) == SlackToken) None 0 1 ;;
        ret (match fst r with x :: _ => Value (c_nv x) | [] => "" end)
    end.
Definition GetOrgConfigs (orgID : string) : M (list Config) :=
  if orgID == "" then ret []
  else
    org <- maybe (OrgRepo.Get orgID) ;;
    t <- now ;;
    let c :=
      match org with
      | Some o => Some (set_u_Organization (Some o) (NewUser t (o_ID o) "" "" "" ""))
      | None => Some (NewUser t "" "" "" "" "Admin[]")
      end in
    r <- ConfigRepo.QueryOrgConfigs (qc_of c) (GetSalt c) orgID 0 200 ;;
    ret (fst r).
Definition GetUserConfigs (userID : string) : M (list Config) :=
  if userID == "" then ret []
  else
    t <- now ;;
    let c := Some (set_u_ID userID (NewUser t "" "" "" "" "")) in
    r <- ConfigRepo.QueryUserConfigs (qc_of c) (GetSalt c) userID 0 200 ;;
    ret (fst r).
Definition SaveConfig (c : Caller) (cfg : Config) : M Config := ConfigRepo.Save (GetSalt c) cfg.
Definition UpdateUserNotification (c : Caller) (id email slackChannel slackToken when : string) : M User :=
  user <- GetUser c id ;;
  let slackChannel := TrimSpace slackChannel in
  let email := TrimSpace email in
  let notifyWhen := TrimSpace when in
  if (email == "") && (slackChannel == "") then throw ValidationError
  else
    let user := set_u_Notify ∅ user in
    user <- found ValidationError (if email != "" then SetNotifyEmail email notifyWhen user else Some user) ;;
    user <- found ValidationError (if slackChannel != "" then SetNotifyChannel slackChannel notifyWhen user else Some user) ;;
    match Accounts.Validate user with
    | (_, Some _) => throw ValidationError
    | (user, None) =>
        saved <- UserRepo.Update (qc_of c) user ;;
        audit UserRecord (u_ID user) ;;;
        if (slackToken != "") && HasOrganization c then
          t <- now ;;
          cfg <- found ValidationError (NewOrgConfig t (GetOrganizationID (qc_of c)) SlackToken (VString slackToken) true) ;;
          cfg <- ConfigRepo.Save (GetSalt c) cfg ;;
          audit ConfigRecord (c_ID cfg) ;;;
          ret saved
        else ret saved
    end.
End Manager.
End UserManager.

(** ** The form with which a new user signs up *)
Module SignupForm.
Import UserManager.

(** The values that the browser sends; those it leaves out are empty. *)
Record Form := mkForm {
  f_name : string;
  f_email : string;
  f_agreeTerms : string;
  f_accountType : string;
  f_bundle : string;
  f_orgUnit : string;
  f_invitationCode : string
}.

(** The user of the session with the values of the form, and [AgreeTerms].  The
    organization is always cleared. *)
Definition initUserFromForm (f : Form) (user : User) : User * bool :=
  let user := set_u_OrganizationID "" (set_u_Email (f_email f) (set_u_Name (f_name f) user)) in
  let user :=
    if f_accountType f == "organization"
    then set_u_InvitationCode (f_invitationCode f) (set_u_OrgUnit (f_orgUnit f) (set_u_BundleID (f_bundle f) user))
    else set_u_InvitationCode "" (set_u_OrgUnit "" (set_u_BundleID "" user)) in
  (user, f_agreeTerms f == "agree").

Section Handler.
Context `{World} `{Notifications} `{Cipher}.

(** [dbUser] is the stored user of the session, [session] the one that the
    provider of the login vouches for. *)
Definition createUserFromForm (dbUser session : option User) (f : Form) : M User :=
  match dbUser, session with
  | Some u, _ => ret u
  | None, None => throw (Refused "failed to find user in session and form")
  | None, Some user =>
      let '(user, agreed) := initUserFromForm f user in
      match Accounts.Validate user with
      | (_, Some _) => throw ValidationError
      | (user, None) =>
          if negb agreed then throw (Refused "you must agree to the terms of service")
          else
            r <- SignupUser adminQC user ;;
            ret (fst r)
      end
  end.
End Handler.
End SignupForm.
