(* ===== verification/AccountSpec.v ===== *)
(** * AccountSpec: who becomes a member of what

    However its form is filled in, a new account joins an existing organization only by an invitation for its
    address, an invitation is accepted once, a profile update grants nothing, and
    a user has a bounded number of tokens. *)

From Stdlib Require Import Ascii.
From S2P Require Import Prelude Acl JobDefinition Approval JobRequest Resource Account AccountStore AccountManager.
Import Query Notify NameValue Mail Configs Subscriptions Orgs Accounts Access Bank UserManager.

Open Scope Z_scope.
Open Scope go_scope.
Open Scope bank_scope.

#[local] Arguments first : simpl never.
#[local] Arguments count : simpl never.
#[local] Arguments update : simpl never.
#[local] Arguments Orgs.AfterLoad : simpl never.
#[local] Arguments Invitation_ValidateBeforeSave : simpl never.
#[local] Arguments UserRepo.merge : simpl never.
#[local] Arguments UserRepo.stored : simpl never.
#[local] Arguments Accounts.AfterLoad : simpl never.

(** ** Rules for the methods

    [ensures n I m Q]: from a state with [n] identifiers used, the tables keep
    [I], and a result satisfies [Q]. *)
Definition ensures {A} (n : nat) (I : DB -> Prop) (m : M A) (Q : A -> Prop) : Prop :=
  forall s, (n <= made s)%nat -> I (db s) -> (n <= made (m s).2)%nat /\ I (db (m s).2) /\ forall a, (m s).1 = inl a -> Q a.

Section Rules.
Context `{World} (n : nat) (I : DB -> Prop).

Lemma ensures_ret {A} (a : A) (Q : A -> Prop) : Q a -> ensures n I (ret a) Q.
Proof. intros Ha s Hn Hs. split_and!; [done..|]. by intros ? [= <-]. Qed.
Lemma ensures_throw {A} e (Q : A -> Prop) : ensures n I (throw e) Q.
Proof. intros s Hn Hs. by split_and!. Qed.
Lemma ensures_bind {A B} (m : M A) (k : A -> M B) P Q :
  ensures n I m P -> (forall a, P a -> ensures n I (k a) Q) -> ensures n I (bind m k) Q.
Proof.
  intros Hm Hk s Hn Hs. destruct (Hm s Hn Hs) as (H0 & H1 & H2). unfold bind. destruct (m s) as [[a|e] s']; cbn in *; [|by split_and!].
  by apply Hk; [apply H2|..].
Qed.
Lemma ensures_weaken {A} (m : M A) (P Q : A -> Prop) : ensures n I m P -> (forall a, P a -> Q a) -> ensures n I m Q.
Proof. intros Hm HPQ s Hn Hs. destruct (Hm s Hn Hs) as (H0 & H1 & H2). split_and!; [done..|]. intros a Ha. by apply HPQ, H2. Qed.
Lemma ensures_any {A} (m : M A) Q : ensures n I m Q -> ensures n I m (fun _ => True).
Proof. intros Hm. by eapply ensures_weaken. Qed.
Lemma ensures_attempt {A} (m : M A) Q : ensures n I m Q -> ensures n I (attempt m) (fun r => forall a, r = inl a -> Q a).
Proof.
  intros Hm s Hn Hs. destruct (Hm s Hn Hs) as (H0 & H1 & H2). unfold attempt. destruct (m s) as [r s']. cbn in *. split_and!; [done..|].
  by intros ? [= <-].
Qed.
Lemma ensures_maybe {A} (m : M A) Q : ensures n I m Q -> ensures n I (maybe m) (fun r => forall a, r = Some a -> Q a).
Proof.
  intros Hm s Hn Hs. destruct (Hm s Hn Hs) as (H0 & H1 & H2). unfold maybe. destruct (m s) as [[a|e] s']; cbn in *; (split_and!; [done..|]);
    intros ? [= <-] b; [|done]. intros [= <-]. by apply H2.
Qed.
Lemma ensures_transaction {A} (m : M A) Q : ensures n I m Q -> ensures n I (transaction m) Q.
Proof.
  intros Hm s Hn Hs. destruct (Hm s Hn Hs) as (H0 & H1 & H2). unfold transaction. destruct (m s) as [[a|e] s']; cbn in *; [|done].
  destruct (fails (asked s')); cbn; [done|]. split_and!; [done..|]. intros ? [= <-]. by apply H2.
Qed.
Lemma ensures_exec {A} e (f : DB -> A * DB) (Q : A -> Prop) : (forall d, I d -> I (f d).2 /\ Q (f d).1) -> ensures n I (exec e f) Q.
Proof.
  intros Hf s Hn Hs. unfold exec. destruct (fails (asked s)); cbn; [done|]. destruct (Hf (db s) Hs) as [H1 H2].
  destruct (f (db s)) as [a d]. cbn in *. split_and!; [done..|]. by intros ? [= <-].
Qed.
Lemma ensures_query {A} e (f : DB -> A) (Q : A -> Prop) : (forall d, I d -> Q (f d)) -> ensures n I (query e f) Q.
Proof. intros Hf. apply ensures_exec. intros d Hd. split; [done|]. by apply Hf. Qed.
Lemma ensures_found {A} e (o : option A) (Q : A -> Prop) : (forall a, o = Some a -> Q a) -> ensures n I (found e o) Q.
Proof. intros Ho. destruct o as [a|]; [apply ensures_ret; auto|apply ensures_throw]. Qed.
Lemma ensures_quiet {A} (m : M A) : (forall s, db (m s).2 = db s /\ made (m s).2 = made s) -> ensures n I m (fun _ => True).
Proof. intros Hm s Hn Hs. destruct (Hm s) as [-> ->]. done. Qed.
Lemma ensures_expect k e : ensures n I (expect_one k e) (fun _ => k = 1).
Proof. unfold expect_one. destruct (Z.eqb_spec k 1); [by apply ensures_ret|apply ensures_throw]. Qed.
Lemma ensures_now : ensures n I now (fun _ => True).
Proof. by apply ensures_quiet. Qed.
Lemma ensures_audit k id : ensures n I (audit k id) (fun _ => True).
Proof. by apply ensures_quiet. Qed.
Lemma ensures_fire id b : ensures n I (fire id b) (fun _ => True).
Proof. by apply ensures_quiet. Qed.
Lemma ensures_send to text : ensures n I (send to text) (fun _ => True).
Proof. apply ensures_quiet. intros s. unfold send. by destruct (mailed (asked s)). Qed.
Lemma ensures_new_id : ensures n I new_id (fun x => exists k, (n <= k)%nat /\ x = ulid k).
Proof. intros s Hn Hs. split_and!; [cbn; lia|done|]. intros ? [= <-]. by exists (made s). Qed.
Lemma ensures_new_code : ensures n I new_code (fun _ => True).
Proof. intros s Hn Hs. split_and!; [cbn; lia|done|done]. Qed.
End Rules.

Create HintDb bank.
#[export] Hint Resolve ensures_now ensures_audit ensures_fire ensures_send ensures_new_id ensures_new_code ensures_expect ensures_throw : bank.
(** One step through a method: the next call of a sequence, with nothing
    known of its result unless a lemma of the database [bank] says so. *)
Ltac seq :=
  lazymatch goal with
  | |- ensures _ _ (bind _ _) _ => eapply ensures_bind; [first [solve [eauto with bank]|apply ensures_any|idtac]|cbn beta; intros ? ?]
  | |- ensures _ _ (throw _) _ => apply ensures_throw
  | |- ensures _ _ (transaction _) _ => apply ensures_transaction
  end.

(** ** Joining an organization *)
Section Membership.
Context `{World} `{Notifications} `{Cipher} (n : nat) (U : list User) (ok : string -> Prop) (ok_none : ok "") (ok_fresh : forall k, (n <= k)%nat -> ok (ulid k))
  (ids : forall k, ulid k ≠ "").

(** Every row is an old one or belongs to an acceptable organization. *)
Definition members (d : DB) : Prop := forall x, x ∈ users d -> x ∈ U \/ ok (u_OrganizationID x).
Abbreviation keeps := (ensures n members).

Lemma members_frame d d' : users d' = users d -> members d -> members d'.
Proof. intros E Hd x. rewrite E. apply Hd. Qed.
Lemma members_update d (p : User -> bool) (f : User -> User) :
  (forall x, ok (u_OrganizationID (f x))) -> members d -> members (set_users (update p f (users d)) d).
Proof.
  intros Hf Hd x. cbn. intros (y & -> & Hy)%list_elem_of_fmap. destruct (p y); [by right|by apply Hd].
Qed.
Lemma keeps_exec {A} e (f : DB -> A * DB) : (forall d, users (f d).2 = users d) -> keeps (exec e f) (fun _ => True).
Proof. intros Hf. apply ensures_exec. intros d Hd. split; [by apply (members_frame d); [apply Hf|]|done]. Qed.

Lemma keeps_insert_user u : ok (u_OrganizationID u) -> keeps (UserRepo.insert_user u) (fun _ => True).
Proof.
  intros Hu. unfold UserRepo.insert_user. eapply ensures_bind; [|intros [] _; [by apply ensures_ret|apply ensures_throw]].
  apply ensures_exec with (Q := fun _ => True). intros d Hd. split; [|done]. destruct (_ && _); [done|]. intros x [Hx| ->%list_elem_of_singleton]%elem_of_app; [by apply Hd|].
  by right.
Qed.
Lemma keeps_put_user u : ok (u_OrganizationID u) -> keeps (UserRepo.put_user u) (fun _ => True).
Proof.
  intros Hu. unfold UserRepo.put_user. eapply ensures_bind; [|intros [] _; [by apply ensures_ret|apply ensures_throw]].
  apply ensures_exec with (Q := fun _ => True). intros d Hd. split; [|done]. destruct (_ && _); [done|]. by apply members_update.
Qed.
Lemma ValidateBeforeSave_keeps u u' :
  Accounts.ValidateBeforeSave u = inl u' ->
  u_OrganizationID u' = u_OrganizationID u /\ u_Username u' = u_Username u /\ u_SerializedRoles u' = u_SerializedRoles u /\ u_SerializedPerms u' = u_SerializedPerms u.
Proof.
  assert (let v := (Accounts.Validate u).1 in u_OrganizationID v = u_OrganizationID u /\ u_Username v = u_Username u /\
    u_SerializedRoles v = u_SerializedRoles u /\ u_SerializedPerms v = u_SerializedPerms u) as Hv
    by (unfold Accounts.Validate; cbn; by destruct (u_MaxConcurrency u =? 0)).
  unfold Accounts.ValidateBeforeSave. destruct (Accounts.Validate u) as [v [e|]]; [done|]. cbn in Hv. intros [= <-].
  by destruct (0 <? size (u_Notify v))%nat.
Qed.
Lemma keeps_lookup username : keeps (UserRepo.lookupUsername username) (fun _ => True).
Proof.
  unfold UserRepo.lookupUsername. eapply ensures_bind; [by apply ensures_query with (Q := fun _ => True)|intros r _].
  eapply ensures_bind; [by apply ensures_found with (Q := fun _ => True)|intros u _]. by apply ensures_found.
Qed.
Lemma keeps_Create u : ok (u_OrganizationID u) -> keeps (UserRepo.Create u) (fun x => u_OrganizationID x = u_OrganizationID u).
Proof.
  intros Hu. unfold UserRepo.Create. destruct (Accounts.ValidateBeforeSave u) as [u'|] eqn:E; [|apply ensures_throw].
  apply ValidateBeforeSave_keeps in E as (E & _). eapply ensures_bind; [apply ensures_maybe, keeps_lookup|intros [old|] _]; [apply ensures_throw|].
  apply ensures_transaction. seq. seq. eapply ensures_bind; [apply keeps_insert_user; cbn; by rewrite E|intros _ _]. apply ensures_ret. by cbn.
Qed.
Lemma keeps_Update qc u : IsAdmin qc = true -> ok (u_OrganizationID u) -> u_OrganizationID u ≠ "" -> keeps (UserRepo.Update qc u) (fun _ => True).
Proof.
  intros Ha Hu Hne. unfold UserRepo.Update. destruct (Accounts.ValidateBeforeSave u) as [u'|] eqn:E; [|apply ensures_throw].
  apply ValidateBeforeSave_keeps in E as (E & _). eapply ensures_bind; [apply ensures_maybe, keeps_lookup|intros [old|] _]; [|apply ensures_throw].
  destruct (_ && _); [apply ensures_throw|]. apply ensures_transaction. seq. eapply ensures_bind; [apply keeps_put_user|intros _ _; by apply ensures_found].
  unfold UserRepo.merge. rewrite Ha. cbn. rewrite E. unfold nonempty_or. destruct (String.eqb_spec (u_OrganizationID u) ""); [done|].
  cbn. by destruct (_ && _).
Qed.
Lemma keeps_Delete qc id : keeps (UserRepo.Delete qc id) (fun _ => True).
Proof.
  unfold UserRepo.Delete. seq. eapply ensures_bind; [|intros m _; by eapply ensures_any, ensures_expect].
  apply ensures_exec with (Q := fun _ => True). intros d Hd. split; [|done]. by apply members_update.
Qed.

(** A statement that only reads, with its row. *)
Lemma keeps_find {A} e e' (f : DB -> option A) : keeps (r <- query e f ;; found e' r) (fun _ => True).
Proof. eapply ensures_bind; [by apply ensures_query with (Q := fun _ => True)|intros r _]. by apply ensures_found. Qed.
Lemma keeps_lookupOrg unit_ : keeps (OrgRepo.lookupOrg unit_) (fun _ => True).
Proof.
  unfold OrgRepo.lookupOrg. eapply ensures_bind; [by apply ensures_query with (Q := fun _ => True)|intros r _].
  eapply ensures_bind; [by apply ensures_found with (Q := fun _ => True)|intros u _]. by apply ensures_found.
Qed.
Lemma keeps_lookupBundle b u : keeps (OrgRepo.lookupBundle b u) (fun _ => True).
Proof.
  unfold OrgRepo.lookupBundle. eapply ensures_bind; [by apply ensures_maybe, ensures_query with (Q := fun _ => True)|intros r _]. by apply ensures_ret.
Qed.
Definition fresh_id (x : string) : Prop := exists k, (n <= k)%nat /\ x = ulid k.
Lemma keeps_OrgCreate o : keeps (OrgRepo.Create o) (fun x => fresh_id (o_ID x)).
Proof.
  unfold OrgRepo.Create. seq. seq. destruct (Orgs.ValidateBeforeSave _ _ o) as [o'|]; [|seq].
  eapply ensures_bind; [apply ensures_maybe, keeps_lookupOrg|intros [old|] _]; [seq|].
  eapply ensures_bind; [apply keeps_lookupBundle|intros k _]. destruct (0 <? k); [seq|]. seq. seq. seq.
  eapply ensures_bind with (P := fun _ => True); [|intros _ _; by apply ensures_ret].
  unfold OrgRepo.insert_org. eapply ensures_bind; [|intros [] _; [by apply ensures_ret|seq]]. apply keeps_exec. intros d. by destruct (_ && _).
Qed.
Lemma keeps_CreateOrg o : keeps (CreateOrg o) (fun x => fresh_id (o_ID x)).
Proof. unfold CreateOrg. eapply ensures_bind; [apply keeps_OrgCreate|intros x Hx]. seq. by apply ensures_ret. Qed.
Lemma keeps_DeleteOrg id : keeps (OrgRepo.Delete id) (fun _ => True).
Proof.
  unfold OrgRepo.Delete. eapply ensures_bind; [|intros _ _; eauto with bank]. seq. seq.
  eapply ensures_bind; [by apply keeps_exec|intros k _]. eapply ensures_bind; [eauto with bank|intros _ _].
  apply ensures_exec with (Q := fun _ => True). intros d Hd. split; [|done]. by apply members_update.
Qed.
Lemma keeps_Subscribe x : keeps (SubscriptionRepo.Create x) (fun _ => True).
Proof.
  unfold SubscriptionRepo.Create. destruct (Subscriptions.Validate x); [seq|]. seq.
  eapply ensures_bind with (P := fun _ => True); [|intros y _; seq; by apply ensures_ret]. seq. seq.
  eapply ensures_bind; [by apply ensures_attempt, keeps_exec|intros _ _]. eapply ensures_bind; [by apply keeps_exec|intros _ _]. by apply ensures_ret.
Qed.
Lemma keeps_Verification c ev : keeps (CreateEmailVerification c ev) (fun _ => True).
Proof.
  unfold CreateEmailVerification, GetUser, UserRepo.Get. eapply ensures_bind with (P := fun _ => True).
  { seq. eapply ensures_bind; [by apply ensures_query with (Q := fun _ => True)|intros r _].
    eapply ensures_bind; [by apply ensures_found with (Q := fun _ => True)|intros u _]. by apply ensures_found. }
  intros user _. eapply ensures_bind with (P := fun _ => True).
  { unfold VerificationRepo.Create. seq. seq. seq. destruct (Verification_ValidateBeforeSave _ _ _ ev) as [v|]; [|seq].
    eapply ensures_bind; [by apply ensures_query with (Q := fun _ => True)|intros k _]. destruct (10 <? k); [seq|].
    eapply ensures_bind with (P := fun _ => True); [|intros _ _; by apply ensures_ret].
    unfold VerificationRepo.insert_verification. eapply ensures_bind; [|intros [] _; [by apply ensures_ret|seq]].
    apply keeps_exec. intros d. by destruct (_ && _). }
  intros saved _. eapply ensures_bind; [apply ensures_attempt, ensures_send|intros [r|e] _].
  - seq. by apply ensures_ret.
  - eapply ensures_bind with (P := fun _ => True); [|intros _ _; seq]. eapply ensures_any, ensures_attempt with (Q := fun _ => True).
    unfold VerificationRepo.Delete. eapply ensures_bind; [by apply keeps_exec|intros k _]. by eapply ensures_any, ensures_expect.
Qed.
Lemma keeps_CreateUser c u : ok (u_OrganizationID u) -> keeps (CreateUser c u) (fun x => u_OrganizationID x = u_OrganizationID u).
Proof.
  intros Hu. unfold CreateUser. cbv zeta. match goal with |- context [UserRepo.Create ?w] => set (v := w) end. assert (u_OrganizationID v = u_OrganizationID u) as E by (subst v; by destruct (u_SerializedPerms u == "")).
  rewrite <- E in Hu |- *. clearbody v. eapply ensures_bind; [by apply keeps_Create|intros saved Hs]. cbn beta in Hs. seq. seq. seq.
  eapply ensures_bind; [apply ensures_attempt, keeps_Verification|intros _ _]. eapply ensures_bind; [apply keeps_Subscribe|intros y _].
  seq. by apply ensures_ret.
Qed.
Lemma fresh_ok x : fresh_id x -> ok x /\ x ≠ "".
Proof. intros (k & Hk & ->). split; [by apply ok_fresh|apply ids]. Qed.
Lemma keeps_attach_org o u : keeps (attach_org o u) (fun x => ok (u_OrganizationID x.2)).
Proof.
  unfold attach_org. eapply ensures_bind; [apply ensures_attempt, keeps_CreateOrg|intros [org|e] Hr].
  - destruct (fresh_ok (o_ID org)) as [Hok Hne]; [by apply Hr|]. eapply ensures_bind with (P := fun _ => True); [|intros _ _; by apply ensures_ret].
    unfold UpdateUser. eapply ensures_bind; [by apply keeps_Update|intros x _]. seq. by apply ensures_ret.
  - eapply ensures_bind; [apply ensures_attempt, keeps_Delete|intros _ _; seq].
Qed.
Lemma keeps_attach_personal u : keeps (attach_personal u) (fun _ => True).
Proof.
  unfold attach_personal. eapply ensures_bind with (P := fun _ => True); [|intros [x|e] _; [by apply ensures_ret|]].
  2: { eapply ensures_bind; [apply ensures_attempt, keeps_Delete|intros _ _; seq]. }
  eapply ensures_any, ensures_attempt with (Q := fun _ => True). unfold CreatePersonalOrgForUser. seq. seq.
  eapply ensures_bind; [apply keeps_OrgCreate|intros org Ho]. destruct (fresh_ok (o_ID org) Ho) as [Hok Hne]. seq.
  eapply ensures_bind; [apply ensures_attempt, keeps_Update; done|intros [x|e] _]; [by apply ensures_ret|].
  eapply ensures_bind; [apply ensures_attempt, keeps_DeleteOrg|intros _ _; seq].
Qed.
End Membership.

(** ** Invitations *)
Lemma NoDup_key {A} (f : A -> string) (l : list A) x y : NoDup (map f l) -> x ∈ l -> y ∈ l -> f x = f y -> x = y.
Proof.
  intros Hn (i & Hi)%list_elem_of_lookup (j & Hj)%list_elem_of_lookup E.
  assert (i = j) as ->; [|congruence]. eapply NoDup_lookup; [exact Hn|..]; change (map f l) with (f <$> l); rewrite list_lookup_fmap.
  - rewrite Hi. done.
  - rewrite Hj. cbn. by rewrite E.
Qed.
Lemma first_elem {A} (p : A -> bool) (l : list A) x : first p l = Some x -> x ∈ l /\ p x = true.
Proof. intros E. apply List.find_some in E as [H1 H2]. split; [by apply list_elem_of_In|done]. Qed.
Lemma count_one {A} (p : A -> bool) (l : list A) : count p l = 1 -> exists x, x ∈ l /\ p x = true.
Proof.
  unfold count. intros E. destruct (List.filter p l) as [|x r] eqn:F; [done|]. assert (In x (List.filter p l)) as Hx by (rewrite F; by left).
  apply List.filter_In in Hx as [H1 H2]. exists x. split; [by apply list_elem_of_In|done].
Qed.
Lemma elem_update {A} (p : A -> bool) (f : A -> A) (l : list A) x : x ∈ update p f l <-> exists y, y ∈ l /\ x = if p y then f y else y.
Proof. unfold update. rewrite list_elem_of_fmap. naive_solver. Qed.

Section Invitations.
Context `{World}.
Definition unique_codes (d : DB) : Prop := NoDup (map i_InvitationCode (invitations d)).

Lemma acceptable_spec t email code i :
  InvitationRepo.acceptable t email code i = true <-> i_Email i = email /\ i_InvitationCode i = code /\ t <= i_ExpiresAt i /\ i_AcceptedAt i = None.
Proof.
  unfold InvitationRepo.acceptable. rewrite !andb_true_iff, !String.eqb_eq, Z.leb_le. destruct (i_AcceptedAt i); naive_solver.
Qed.

(** The one invitation that an acceptance marks is the one it returns. *)
Lemma Accept_spec s email code i s' :
  unique_codes (db s) -> InvitationRepo.Accept email code s = (inl i, s') ->
  exists j, j ∈ invitations (db s) /\ InvitationRepo.acceptable (time s) email code j = true /\ i = set_i_AcceptedAt (Some (time s)) j.
Proof.
  intros Hu. unfold InvitationRepo.Accept, InvitationRepo.Find, expect_one, query, exec, bind, now. cbn.
  destruct (fails (asked s)); [done|]. cbn. destruct (Z.eqb_spec (count (InvitationRepo.acceptable (time s) email code) (invitations (db s))) 1) as [E|]; [|done].
  cbn. destruct (fails (S (asked s))); [done|]. cbn. destruct (first _ _) as [x|] eqn:Ef; [|done]. cbn. intros [= <- <-].
  apply first_elem in Ef as [Hx Hp]. apply elem_update in Hx as (y & Hy & ->). apply count_one in E as (z & Hz & Hacc).
  assert (y = z) as ->; [|exists z; by rewrite Hacc]. apply acceptable_spec in Hacc as (_ & Hc & _). apply (NoDup_key _ _ y z Hu Hy Hz). rewrite Hc.
  apply andb_true_iff in Hp as [_ Hp]. apply String.eqb_eq in Hp. by destruct (InvitationRepo.acceptable _ _ _ y).
Qed.
Lemma Accept_frame s email code : users (db (InvitationRepo.Accept email code s).2) = users (db s) /\ (made s <= made (InvitationRepo.Accept email code s).2)%nat.
Proof.
  unfold InvitationRepo.Accept, InvitationRepo.Find, expect_one, query, exec, bind, now, found, ret, throw. cbn.
  destruct (fails (asked s)); [done|]. cbn. destruct (_ =? 1); [|done]. cbn. destruct (fails (S (asked s))); [done|]. cbn. by destruct (first _ _).
Qed.
End Invitations.

(** ** Signing up *)
Section Signup.
Context `{World} `{Notifications} `{Cipher}.

(** An invitation of the store that the user may use. *)
Definition invited (s : St) (user : User) (org : string) : Prop :=
  exists i, i ∈ invitations (db s) /\ InvitationRepo.acceptable (time s) (u_Email user) (u_InvitationCode user) i = true /\ i_OrganizationID i = org.

Lemma load_id t p s o s' : OrgRepo.load t p s = (inl o, s') -> exists x, x ∈ orgs (db s) /\ p x = true /\ o_ID o = o_ID x /\ o_OrgUnit o = o_OrgUnit x.
Proof.
  unfold OrgRepo.load, query, exec, bind. destruct (fails (asked s)); [done|]. cbn. destruct (first p _) as [x|] eqn:Ef; [|done]. cbn.
  apply first_elem in Ef as [Hx Hp]. unfold Orgs.AfterLoad. destruct (mapM _ _) as [l|]; [|done]. cbn. intros [= <- _]. by exists x.
Qed.
Lemma load_users t p s : users (db (OrgRepo.load t p s).2) = users (db s) /\ made (OrgRepo.load t p s).2 = made s.
Proof.
  unfold OrgRepo.load, query, exec, bind, found, ret, throw. destruct (fails (asked s)); [done|]. cbn. destruct (first p _); [|done]. cbn.
  by destruct (Orgs.AfterLoad _ _).
Qed.

Lemma Build_spec s user :
  let '(r, s') := BuildOrgWithInvitation user s in
  users (db s') = users (db s) /\ (made s <= made s')%nat /\
  (unique_codes (db s) ->
   forall org u, r = inl (org, u) ->
     match org with
     | Some o => (o_ID o = "" /\ u_OrganizationID u = u_OrganizationID user) \/
                 (u_InvitationCode user ≠ "" /\ invited s user (u_OrganizationID u))
     | None => u = user
     end).
Proof.
  unfold BuildOrgWithInvitation. destruct (HasOrganizationOrInvitationCode user); cbn [negb]; [|split_and!; [done..|]; by intros _ ? ? [= <- <-]].
  destruct (u_InvitationCode user == "") eqn:Ec; cbn [negb].
  - unfold bind, maybe, OrgRepo.GetByUnit, now. cbn. destruct (load_users (time s) (fun o => (o_OrgUnit o == u_OrgUnit user) && o_Active o) s) as [HU HM].
    destruct (OrgRepo.load _ _ s) as [[o|e] s1]; cbn in *; rewrite HU, HM; (split; [done|]); (split; [lia|]); intros _ org u; [done|]. intros [= <- <-]. left.
    split; [done|]. by destruct (u_BundleID user == "").
  - unfold bind, attempt. destruct (Accept_frame s (u_Email user) (u_InvitationCode user)) as [HU HM].
    destruct (InvitationRepo.Accept _ _ s) as [[i|e] s1] eqn:EA; cbn in *; [|done].
    unfold OrgRepo.Get, now, bind. cbn. destruct (load_users (time s1) (fun o => (o_ID o == i_OrganizationID i) && o_Active o) s1) as [HU2 HM2].
    destruct (OrgRepo.load _ _ s1) as [[o|e] s2] eqn:EL; cbn in *; rewrite HU2, HM2; (split_and!; [done..|]); intros Huc org u; [|done]. intros [= <- <-].
    right. split; [by apply String.eqb_neq|]. destruct (Accept_spec s _ _ i s1 Huc EA) as (j & Hj & Hacc & ->). exists j. split_and!; [done..|].
    apply load_id in EL as (x & _ & Hp & E & _). cbn. rewrite E. apply andb_true_iff in Hp as [Hp _]. apply String.eqb_eq in Hp. by rewrite Hp.
Qed.

(** The organizations of the accounts that a sign-up may leave behind. *)
Lemma signup_organizations c user s r s' :
  SignupUser c user s = (r, s') -> u_OrganizationID user = "" -> unique_codes (db s) ->
  (forall k, ulid k ≠ "") -> (forall k o, (made s <= k)%nat -> o ∈ orgs (db s) -> o_ID o ≠ ulid k) ->
  forall x, x ∈ users (db s') ->
    x ∈ users (db s) \/ u_OrganizationID x = "" \/ (forall o, o ∈ orgs (db s) -> o_ID o ≠ u_OrganizationID x) \/
    (u_InvitationCode user ≠ "" /\ invited s user (u_OrganizationID x)).
Proof.
  intros Hrun Horg Hcodes Hids Hfresh. unfold SignupUser in Hrun. unfold bind at 1 in Hrun. pose proof (Build_spec s user) as HB.
  destruct (BuildOrgWithInvitation user s) as [[[org u]|e] s1]; destruct HB as (HU & HM & HB); cbn beta iota in Hrun.
  2: { injection Hrun as <- <-. intros x Hx. rewrite HU in Hx. by left. }
  set (ok := fun org => org = "" \/ (forall o, o ∈ orgs (db s) -> o_ID o ≠ org) \/ (u_InvitationCode user ≠ "" /\ invited s user org)).
  assert (ok (u_OrganizationID u)) as Hu.
  { specialize (HB Hcodes org u eq_refl). destruct org as [o|]; [|subst u; by left]. destruct HB as [[_ E]|Hi]; [left; congruence|by right; right]. }
  assert (forall k, (made s <= k)%nat -> ok (ulid k)) as Hok by (intros k Hk; right; left; intros o Hin; by apply Hfresh).
  match type of Hrun with ?m s1 = _ => assert (ensures (made s) (members (users (db s)) ok) m (fun _ => True)) as Hm end.
  { eapply ensures_bind; [by apply keeps_CreateUser|intros saved Hs]. cbn beta in Hs.
    eapply ensures_bind with (P := fun x => ok (u_OrganizationID x.2)).
    - destruct org as [o|]; [destruct (o_ID o == "")|]; [|apply ensures_ret; cbn; by rewrite Hs..].
      eapply ensures_bind; [by apply keeps_attach_org; [left|..]|intros y Hy]. by apply ensures_ret.
    - intros [org' saved'] Hx. eapply ensures_bind with (P := fun _ => True); [|intros [org2 saved2] _; seq; by apply ensures_ret].
      destruct (_ == ""); [|by apply ensures_ret].
      eapply ensures_bind; [by apply keeps_attach_personal; [left|..]|intros y _]. by apply ensures_ret. }
  destruct (Hm s1 HM) as (_ & Hmem & _); [intros x; rewrite HU; by left|]. rewrite Hrun in Hmem. exact Hmem.
Qed.

(** An invitation of the table that is for the address and the code, has not run
    out and was not accepted. *)
Definition open_invitation (s : St) (email code org : string) (i : UserInvitation) : Prop :=
  i ∈ invitations (db s) /\ i_Email i = email /\ i_InvitationCode i = code /\
  time s <= i_ExpiresAt i /\ i_AcceptedAt i = None /\ i_OrganizationID i = org.

Lemma initUserFromForm_spec f user :
  let u := (SignupForm.initUserFromForm f user).1 in
  u_OrganizationID u = "" /\ u_Email u = SignupForm.f_email f /\
  (u_InvitationCode u = "" \/
   (SignupForm.f_accountType f = "organization" /\ u_InvitationCode u = SignupForm.f_invitationCode f)).
Proof.
  unfold SignupForm.initUserFromForm. destruct (_ == "organization") eqn:E; cbn; [|by auto].
  apply String.eqb_eq in E. auto.
Qed.

Lemma Validate_form u : u_OrganizationID (Accounts.Validate u).1 = u_OrganizationID u /\
  u_Email (Accounts.Validate u).1 = u_Email u /\ u_InvitationCode (Accounts.Validate u).1 = u_InvitationCode u.
Proof. unfold Accounts.Validate. cbn. by destruct (_ =? 0). Qed.

(** C7: nobody joins an organization without an invitation.  Whatever the form
    says, whatever user the session holds, whatever the sign-up returns and
    whatever fails on the way, an account that it stores or changes belongs to no
    organization, to one that did not exist before, or to the one named in an
    invitation for the address and the code of the form, for which the form asks
    for the account of an organization, and which had not run out and was not
    accepted when the sign-up began.  Invitation codes are unique, as the index
    of their table demands, and identifiers that are made are new and not empty. *)
Theorem signup_needs_an_invitation dbUser session f s r s' :
  SignupForm.createUserFromForm dbUser session f s = (r, s') -> unique_codes (db s) ->
  (forall k, ulid k ≠ "") -> (forall k o, (made s <= k)%nat -> o ∈ orgs (db s) -> o_ID o ≠ ulid k) ->
  forall x, x ∈ users (db s') ->
    x ∈ users (db s) \/ u_OrganizationID x = "" \/ (forall o, o ∈ orgs (db s) -> o_ID o ≠ u_OrganizationID x) \/
    (SignupForm.f_accountType f = "organization" /\
     exists i, open_invitation s (SignupForm.f_email f) (SignupForm.f_invitationCode f) (u_OrganizationID x) i).
Proof.
  intros Hrun Hcodes Hids Hfresh x. unfold SignupForm.createUserFromForm in Hrun.
  destruct dbUser; [injection Hrun as _ <-; by left|]. destruct session as [user|]; [|injection Hrun as _ <-; by left].
  destruct (initUserFromForm_spec f user) as (Ho & He & Hc).
  destruct (SignupForm.initUserFromForm f user) as [u agreed]. cbn in Ho, He, Hc.
  destruct (Validate_form u) as (Ho' & He' & Hc'). destruct (Accounts.Validate u) as [u' [e|]]; cbn in *; [injection Hrun as _ <-; by left|].
  destruct agreed; cbn in Hrun; [|injection Hrun as _ <-; by left].
  unfold bind in Hrun. destruct (SignupUser UserManager.adminQC u' s) as [[r1|e] s1] eqn:ES; injection Hrun as _ <-; intros Hx;
    destruct (signup_organizations _ _ _ _ _ ES ltac:(congruence) Hcodes Hids Hfresh x Hx) as [?|[?|[?|(Hne & i & Hi & Ha & Horg)]]]; auto;
    right; right; right; destruct Hc as [?|[Ht Hcode]]; try congruence; (split; [done|]); exists i; apply acceptable_spec in Ha as (? & ? & ? & ?);
    (split_and!; congruence || done).
Qed.
End Signup.

(** ** Profiles *)
Section Profiles.
Context `{World} `{Notifications}.

(** What a profile update leaves alone. *)
Definition rights (u : User) := (u_ID u, u_Username u, u_SerializedRoles u, u_SerializedPerms u, u_Locked u, u_MaxConcurrency u, u_Salt u).

Lemma AfterLoad_rights u u' : Accounts.AfterLoad u = Some u' -> rights u' = rights u /\ u_OrganizationID u' = u_OrganizationID u.
Proof.
  unfold Accounts.AfterLoad. cbv zeta. destruct (u_NotifySerialized u == ""); cbn [negb].
  - destruct (JobNotifyConfigWithEmail _ _); cbn; intros [= <-]; by destruct (u_Organization u).
  - destruct (notify_of_json _); cbn; [|done]. intros [= <-]. by destruct (u_Organization u).
Qed.
Lemma merge_rights qc t user old : rights (UserRepo.stored (UserRepo.merge qc t user old)) = rights old.
Proof. unfold UserRepo.merge. destruct (IsAdmin qc), (_ && _); done. Qed.
Lemma merge_org qc t user old :
  IsAdmin qc = false -> u_OrganizationID (UserRepo.stored (UserRepo.merge qc t user old)) = GetOrganizationID qc.
Proof. intros E. unfold UserRepo.merge. rewrite E. by destruct (_ && _). Qed.

(** Every row is an old one or a good one. *)
Definition rows (U : list User) (good : User -> Prop) (d : DB) : Prop := forall x, x ∈ users d -> x ∈ U \/ good x.
Lemma put_user_rows U good u : good (UserRepo.stored u) -> ensures 0 (rows U good) (UserRepo.put_user u) (fun _ => True).
Proof.
  intros Hu. unfold UserRepo.put_user. eapply ensures_bind; [|intros [] _; [by apply ensures_ret|seq]].
  apply ensures_exec with (Q := fun _ => True). intros d Hd. split; [|done]. destruct (indexes && _); [done|].
  intros x (y & Hy & ->)%elem_update. destruct (u_ID y == u_ID u); [by right|by apply Hd].
Qed.

(** What a caller that is no administrator may change: a row of its organization,
    or its own row when it has none, which is then in the organization of the
    caller (or in none). *)
Definition own_row (qc : QueryContext) (x x' : User) : Prop :=
  exists c, User_ qc = Some c /\ u_OrganizationID x' = Users.OrganizationID c /\
    (Users.OrganizationID c ≠ "" /\ u_OrganizationID x = Users.OrganizationID c \/ Users.OrganizationID c = "" /\ u_ID x = Users.ID c).

Lemma Matches_own_row qc x x' :
  IsAdmin qc = false -> Matches qc (u_ID x) (u_OrganizationID x) false = true -> u_OrganizationID x' = GetOrganizationID qc ->
  own_row qc x x'.
Proof.
  unfold Matches, own_row, GetOrganizationID. intros HA. rewrite HA, andb_false_r. unfold IsAdmin in HA.
  destruct (User_ qc) as [c|]; [|done]. cbn. destruct (Users.OrganizationID c == "") eqn:E; cbn; intros HM HO; exists c; (split; [done|]); (split; [done|]).
  - right. by apply String.eqb_eq in E, HM.
  - left. apply String.eqb_neq in E. by apply String.eqb_eq in HM.
Qed.

(** C8: a profile update grants nothing.  Whatever the update says, whoever asks and
    whatever fails, a user it changes keeps its identifier, user name, roles,
    permissions, lock, limit of concurrent jobs and salt; and a caller who is no
    administrator changes only users of its own organization, or only itself when
    it has none, and leaves them with the caller's organization. *)
Theorem profile_update_grants_nothing qc user s r s' :
  UserRepo.Update qc user s = (r, s') ->
  forall x', x' ∈ users (db s') ->
    x' ∈ users (db s) \/
    exists x, x ∈ users (db s) /\ rights x' = rights x /\ (IsAdmin qc = false -> own_row qc x x').
Proof.
  unfold UserRepo.Update. destruct (Accounts.ValidateBeforeSave user) as [u|]; [|intros [= <- <-]; auto].
  unfold bind at 1, maybe. unfold UserRepo.lookupUsername, query, exec, bind at 1. destruct (fails (asked s)); [intros [= <- <-]; auto|]. cbn -[transaction].
  destruct (first _ _) as [row|] eqn:Ef; [|intros [= <- <-]; auto]. cbn -[transaction]. apply first_elem in Ef as [Hrow _].
  destruct (Accounts.AfterLoad row) as [old|] eqn:EL; [|intros [= <- <-]; auto]. cbn -[transaction]. apply AfterLoad_rights in EL as [ER EO].
  destruct (negb (IsAdmin qc) && negb _) eqn:EM; [intros [= <- <-]; auto|].
  set (good := fun x' => exists x, x ∈ users (db s) /\ rights x' = rights x /\ (IsAdmin qc = false -> own_row qc x x')).
  assert (forall t, good (UserRepo.stored (UserRepo.merge qc t u old))) as Hgood.
  { intros t. exists row. split; [done|]. split; [by rewrite merge_rights|]. intros HA. apply Matches_own_row; [done| |by apply merge_org].
    rewrite HA in EM. cbn in EM. rewrite negb_false_iff in EM. unfold rights in ER. injection ER as EID _ _ _ _ _ _. by rewrite <- EID, <- EO. }
  intros Hrun.
  match type of Hrun with ?m ?s2 = _ => assert (ensures 0 (rows (users (db s)) good) m (fun _ => True)) as Hm; [|destruct (Hm s2) as (_ & Hr & _)] end.
  - apply ensures_transaction. seq. eapply ensures_bind; [by apply put_user_rows|intros _ _]. by apply ensures_found.
  - lia.
  - intros x Hx. by left.
  - rewrite Hrun in Hr. intros x' Hx'. destruct (Hr x' Hx') as [Hx|Hx]; [by left|right; exact Hx].
Qed.
End Profiles.

(** ** Runs of invitations and tokens *)
Inductive account_op :=
  | OpInvite (inv : UserInvitation)
  | OpWithdraw (id : string)
  | OpAccept (email code : string)
  | OpToken (token : UserToken)
  | OpRevoke (qc : QueryContext) (userID id : string)
  | OpWait (d : nat).
Section Runs.
Context `{World}.
Definition wait (d : nat) (s : St) : St := mkSt (db s) (asked s) (made s) (time s + Z.of_nat d) (audits s) (fired s) (outbox s).
(** The state with the invitations that were accepted so far. *)
Definition do_op (o : account_op) (x : St * list string) : St * list string :=
  let '(s, log) := x in
  match o with
  | OpInvite inv => ((InvitationRepo.Create inv s).2, log)
  | OpWithdraw id => ((InvitationRepo.Delete id s).2, log)
  | OpAccept email code =>
      let '(r, s') := InvitationRepo.Accept email code s in (s', match r with inl i => i_ID i :: log | inr _ => log end)
  | OpToken token => ((UserRepo.AddToken token s).2, log)
  | OpRevoke qc userID id => ((UserRepo.RevokeToken qc userID id s).2, log)
  | OpWait d => (wait d s, log)
  end.
Definition do_ops (l : list account_op) (x : St * list string) : St * list string := foldl (fun x o => do_op o x) x l.

(** Identifiers and codes of the rows come from those handed out. *)
Record log_inv (x : St * list string) : Prop := {
  li_ids : NoDup (map i_ID (invitations (db x.1)));
  li_codes : unique_codes (db x.1);
  li_made : forall i, i ∈ invitations (db x.1) ->
    (exists k, (k < made x.1)%nat /\ i_ID i = ulid k) /\ (exists k, (k < made x.1)%nat /\ i_InvitationCode i = randomString k);
  li_log : forall id, id ∈ x.2 -> (exists k, (k < made x.1)%nat /\ id = ulid k) /\
    forall i, i ∈ invitations (db x.1) -> i_ID i = id -> i_AcceptedAt i ≠ None;
  li_once : NoDup x.2
}.

(** The tables after a method that inserts at most one invitation. *)
Definition inserts {A} (i : UserInvitation) (m : M A) : Prop :=
  forall s, made (m s).2 = made s /\ (invitations (db (m s).2) = invitations (db s) \/ invitations (db (m s).2) = invitations (db s) ++ [i]).
Definition silent {A} (m : M A) : Prop := forall s, made (m s).2 = made s /\ invitations (db (m s).2) = invitations (db s).
Lemma inserts_after {A B} i (m : M A) (k : A -> M B) : silent m -> (forall a, inserts i (k a)) -> inserts i (bind m k).
Proof.
  intros Hm Hk s. unfold bind. destruct (Hm s) as [H1 H2]. destruct (m s) as [[a|e] s']; cbn in *; [|by auto].
  destruct (Hk a s') as [H3 H4]. rewrite H3, H1, <- H2. auto.
Qed.
Lemma inserts_before {A B} i (m : M A) (k : A -> M B) : inserts i m -> (forall a, silent (k a)) -> inserts i (bind m k).
Proof.
  intros Hm Hk s. unfold bind. destruct (Hm s) as [H1 H2]. destruct (m s) as [[a|e] s']; cbn in *; [|by auto].
  destruct (Hk a s') as [H3 H4]. rewrite H3, H4. auto.
Qed.
Lemma silent_query {A} e (f : DB -> A) : silent (query e f).
Proof. intros s. unfold query, exec. by destruct (fails (asked s)). Qed.
Lemma silent_maybe {A} (m : M A) : silent m -> silent (maybe m).
Proof. intros Hm s. destruct (Hm s). unfold maybe. by destruct (m s) as [[a|e] s']. Qed.
Lemma inserts_silent {A} i (m : M A) : silent m -> inserts i m.
Proof. intros Hm s. destruct (Hm s). auto. Qed.
Lemma inserts_transaction {A} i (m : M A) : inserts i m -> inserts i (transaction m).
Proof.
  intros Hm s. destruct (Hm s) as [H1 H2]. unfold transaction. destruct (m s) as [[a|e] s']; cbn in *; [destruct (fails (asked s'))|]; cbn; auto.
Qed.
Lemma inserts_insert i : inserts i (InvitationRepo.insert_invitation i).
Proof.
  unfold InvitationRepo.insert_invitation. apply inserts_before; [|by intros []]. intros s. unfold exec. destruct (fails (asked s)); [by auto|]. cbn.
  destruct (indexes && _); cbn; auto.
Qed.

Definition create_tail (t : Z) (i : UserInvitation) : M UserInvitation :=
  same <- maybe (query DBError (fun d => count (InvitationRepo.has_code (i_InvitationCode i)) (invitations d))) ;;
  if 0 <? default 0 same then throw DuplicateError
  else
    total <- query DBError (fun d => count (InvitationRepo.pending t (i_OrganizationID i)) (invitations d)) ;;
    if 100 <? total then throw LimitError
    else transaction (InvitationRepo.insert_invitation i) ;;; ret i.
Lemma Create_unfold inv s :
  InvitationRepo.Create inv s =
  let s2 := mkSt (db s) (asked s) (S (S (made s))) (time s) (audits s) (fired s) (outbox s) in
  match Invitation_ValidateBeforeSave (time s) (ulid (made s)) (randomString (S (made s))) inv with
  | inr _ => (inr ValidationError, s2)
  | inl i => create_tail (time s) i s2
  end.
Proof. unfold InvitationRepo.Create, bind at 1, now. cbv beta iota zeta. unfold bind at 1, bind at 1, new_id, new_code, fresh. cbn [made db asked time audits fired outbox].
  by destruct (Invitation_ValidateBeforeSave _ _ _ inv).
Qed.
Lemma inserts_tail t i : inserts i (create_tail t i).
Proof.
  unfold create_tail. apply inserts_after; [apply silent_maybe, silent_query|intros same]. destruct (0 <? default 0 same); [by apply inserts_silent|].
  apply inserts_after; [apply silent_query|intros total]. destruct (100 <? total); [by apply inserts_silent|].
  apply inserts_before; [apply inserts_transaction, inserts_insert|done].
Qed.
Lemma Create_spec inv s :
  let s' := (InvitationRepo.Create inv s).2 in
  (made s <= made s')%nat /\
  (invitations (db s') = invitations (db s) \/
   exists i, invitations (db s') = invitations (db s) ++ [i] /\ i_ID i = ulid (made s) /\ i_InvitationCode i = randomString (S (made s)) /\
     i_AcceptedAt i = None /\ (S (made s) < made s')%nat).
Proof.
  cbv zeta. rewrite Create_unfold. cbv zeta.
  destruct (Invitation_ValidateBeforeSave _ _ _ inv) as [i|] eqn:Ev; [|cbn; split; [lia|by left]].
  assert (i_ID i = ulid (made s) /\ i_InvitationCode i = randomString (S (made s)) /\ i_AcceptedAt i = None) as (E1 & E2 & E3).
  { unfold Invitation_ValidateBeforeSave in Ev. destruct (Invitation_Validate _ inv) as [j [e|]]; [done|]. by injection Ev as <-. }
  match goal with |- context [create_tail ?t i ?s2] => destruct (inserts_tail t i s2) as [H1 H2] end.
  cbn [made db] in H1, H2. rewrite H1. split; [lia|]. destruct H2 as [->| ->]; [by left|]. right. exists i. split_and!; [done..|lia].
Qed.

(** The operations that leave the invitations alone. *)
Definition aside {A} (m : M A) : Prop := forall s, (made s <= made (m s).2)%nat /\ invitations (db (m s).2) = invitations (db s).
Lemma aside_ensures {A} (m : M A) : (forall n l, ensures n (fun d => invitations d = l) m (fun _ => True)) -> aside m.
Proof. intros Hm s. by destruct (Hm (made s) (invitations (db s)) s) as (H1 & H2 & _). Qed.
Lemma aside_AddToken token : aside (UserRepo.AddToken token).
Proof.
  apply aside_ensures. intros n l. unfold UserRepo.AddToken. seq. destruct (Token_Validate _ _ _) as [x|]; [|seq].
  eapply ensures_bind with (P := fun _ => True).
  { unfold UserRepo.countToken. seq. eapply ensures_bind; [by apply ensures_maybe, ensures_query with (Q := fun _ => True)|intros r _]. by apply ensures_ret. }
  intros total _. destruct (_ <=? _); [seq|]. seq. seq. eapply ensures_bind; [by apply ensures_exec with (Q := fun _ => True)|intros _ _]. by apply ensures_ret.
Qed.
Lemma aside_RevokeToken qc userID id : aside (UserRepo.RevokeToken qc userID id).
Proof.
  apply aside_ensures. intros n l. unfold UserRepo.RevokeToken. eapply ensures_bind; [by apply ensures_exec with (Q := fun _ => True)|intros k _].
  by eapply ensures_any, ensures_expect.
Qed.

Lemma Accept_table s email code :
  let s' := (InvitationRepo.Accept email code s).2 in
  made s' = made s /\
  (invitations (db s') = invitations (db s) \/
   invitations (db s') = update (InvitationRepo.acceptable (time s) email code) (set_i_AcceptedAt (Some (time s))) (invitations (db s))).
Proof.
  unfold InvitationRepo.Accept, InvitationRepo.Find, expect_one, query, exec, bind, now, found, ret, throw. cbn.
  destruct (fails (asked s)); [by auto|]. cbn. destruct (_ =? 1); [|by auto]. cbn. destruct (fails (S (asked s))); [by auto|]. cbn.
  destruct (first _ _); auto.
Qed.
Lemma Accept_marks s email code i s' :
  InvitationRepo.Accept email code s = (inl i, s') ->
  invitations (db s') = update (InvitationRepo.acceptable (time s) email code) (set_i_AcceptedAt (Some (time s))) (invitations (db s)).
Proof.
  unfold InvitationRepo.Accept, InvitationRepo.Find, expect_one, query, exec, bind, now, found, ret, throw. cbn.
  destruct (fails (asked s)); [done|]. cbn. destruct (_ =? 1); [|done]. cbn. destruct (fails (S (asked s))); [done|]. cbn.
  destruct (first _ _); [|done]. by intros [= <- <-].
Qed.
Lemma Delete_table s id :
  let s' := (InvitationRepo.Delete id s).2 in
  made s' = made s /\ sublist (invitations (db s')) (invitations (db s)).
Proof.
  unfold InvitationRepo.Delete, expect_one, exec, bind, ret, throw. cbn. destruct (fails (asked s)); [done|]. cbn.
  destruct (_ =? 1); cbn; (split; [done|]); apply filter_sublist.
Qed.

Context (ulid_inj : forall a b, ulid a = ulid b -> a = b) (code_inj : forall a b, randomString a = randomString b -> a = b).

(** The table changes by what [update] keeps of the keys. *)
Lemma update_keys {A B} (key : A -> B) (p : A -> bool) (f : A -> A) l : (forall x, key (f x) = key x) -> map key (update p f l) = map key l.
Proof. intros Hf. unfold update. rewrite map_map. apply map_ext. intros x. by destruct (p x). Qed.

Lemma log_inv_shrink s s' log :
  (made s <= made s')%nat -> sublist (invitations (db s')) (invitations (db s)) -> log_inv (s, log) -> log_inv (s', log).
Proof.
  intros Hm Hs [Hi Hc Hx Hl Ho]. cbn in *. split; cbn; [..|done].
  - eapply sublist_NoDup; [exact Hi|]. by apply (fmap_sublist i_ID).
  - unfold unique_codes in *. eapply sublist_NoDup; [exact Hc|]. by apply (fmap_sublist i_InvitationCode).
  - intros i Hin. destruct (Hx i) as [(k & Hk & E1) (k' & Hk' & E2)]; [by eapply elem_of_sublist|]. split; [exists k|exists k']; (split; [lia|done]).
  - intros id Hin. destruct (Hl id Hin) as [(k & Hk & E) Hacc]. split; [exists k; split; [lia|done]|]. intros i Hi'. apply Hacc. by eapply elem_of_sublist.
Qed.
Lemma log_inv_insert s s' log i k :
  invitations (db s') = invitations (db s) ++ [i] -> i_ID i = ulid (made s) -> i_InvitationCode i = randomString k ->
  (made s <= k)%nat -> (k < made s')%nat -> log_inv (s, log) -> log_inv (s', log).
Proof.
  intros Ht E1 E2 Hk Hk' [Hi Hc Hx Hl Ho]. cbn in *. split; cbn; [..|done]; unfold unique_codes in *; cbn in *; rewrite Ht, ?map_app; cbn.
  - apply NoDup_app. split_and!; [done| |apply NoDup_singleton]. intros id (j & -> & Hj)%list_elem_of_fmap E%list_elem_of_singleton.
    destruct (Hx j Hj) as [(a & Ha & E') _]. rewrite E1, E' in E. apply ulid_inj in E. lia.
  - apply NoDup_app. split_and!; [done| |apply NoDup_singleton]. intros c (j & -> & Hj)%list_elem_of_fmap E%list_elem_of_singleton.
    destruct (Hx j Hj) as [_ (a & Ha & E')]. rewrite E2, E' in E. apply code_inj in E. lia.
  - intros j [Hj| ->%list_elem_of_singleton]%elem_of_app.
    + destruct (Hx j Hj) as [(a & Ha & ?) (b & Hb & ?)]. split; [exists a|exists b]; (split; [lia|done]).
    + split; [exists (made s)|exists k]; (split; [lia|done]).
  - intros id Hin. destruct (Hl id Hin) as [(a & Ha & E) Hacc]. split; [exists a; split; [lia|done]|].
    intros j [Hj| ->%list_elem_of_singleton]%elem_of_app; [by apply Hacc|]. intros E'. rewrite E1, E in E'. apply ulid_inj in E'. lia.
Qed.
Lemma log_inv_mark s s' log p t :
  made s' = made s -> invitations (db s') = update p (set_i_AcceptedAt (Some t)) (invitations (db s)) -> log_inv (s, log) -> log_inv (s', log).
Proof.
  intros Hm Ht [Hi Hc Hx Hl Ho]. cbn in *. split; cbn; [..|done]; unfold unique_codes in *; cbn in *; rewrite Ht, ?Hm.
  - by rewrite update_keys.
  - by rewrite update_keys.
  - intros i (j & Hj & ->)%elem_update. destruct (Hx j Hj). by destruct (p j).
  - intros id Hin. destruct (Hl id Hin) as [He Hacc]. split; [done|]. intros i (j & Hj & ->)%elem_update. destruct (p j) eqn:Ep; [done|]. by apply Hacc.
Qed.
Lemma log_inv_accept s email code log :
  log_inv (s, log) -> log_inv (do_op (OpAccept email code) (s, log)).
Proof.
  intros Hinv. unfold do_op. pose proof (Accept_table s email code) as [Hm Ht]. destruct (InvitationRepo.Accept email code s) as [r s'] eqn:Ea. cbn in Hm, Ht.
  assert (log_inv (s', log)) as Hs'.
  { destruct Ht as [Ht|Ht]; [|by eapply log_inv_mark]. eapply log_inv_shrink; [|by rewrite Ht|exact Hinv]. by rewrite Hm. }
  destruct r as [i|e]; [|exact Hs']. pose proof (Accept_marks _ _ _ _ _ Ea) as Hup.
  apply Accept_spec in Ea as (j & Hj & Hacc & ->); [|apply (li_codes _ Hinv)]. destruct Hs' as [Hi Hc Hx Hl Ho].
  destruct Hinv as [Hi0 Hc0 Hx0 Hl0 Ho0]. cbn in *. split; cbn; [exact Hi|exact Hc|exact Hx| |].
  - intros id [->|Hin]%elem_of_cons; [|by apply Hl]. split; [destruct (Hx0 j Hj); by rewrite Hm|]. intros x Hin E. rewrite Hup in Hin.
    apply elem_update in Hin as (y & Hy & ->). destruct (InvitationRepo.acceptable _ _ _ y) eqn:Ey; [done|].
    rewrite (NoDup_key i_ID _ y j Hi0 Hy Hj E) in Ey. congruence.
  - constructor; [|done]. intros Hin. destruct (Hl0 _ Hin) as [_ Hn]. apply (Hn j Hj eq_refl). by apply acceptable_spec in Hacc as (_ & _ & _ & ?).
Qed.
Lemma do_op_inv o x : log_inv x -> log_inv (do_op o x).
Proof.
  destruct x as [s log]. intros Hinv. destruct o as [inv|id|email code|token|qc userID id|d]; [| |by apply log_inv_accept|..]; unfold do_op.
  - destruct (Create_spec inv s) as [Hm [Ht|(i & Ht & E1 & E2 & _ & Hk)]]; [apply (log_inv_shrink s); [exact Hm|by rewrite Ht|done]|].
    eapply log_inv_insert; [exact Ht|done|exact E2|lia|exact Hk|done].
  - destruct (Delete_table s id) as [Hm Hs]. apply (log_inv_shrink s); [by rewrite Hm|exact Hs|done].
  - destruct (aside_AddToken token s) as [Hm Hs]. apply (log_inv_shrink s); [exact Hm|by rewrite Hs|done].
  - destruct (aside_RevokeToken qc userID id s) as [Hm Hs]. apply (log_inv_shrink s); [exact Hm|by rewrite Hs|done].
  - by apply (log_inv_shrink s); [..|exact Hinv].
Qed.
Lemma do_ops_inv l x : log_inv x -> log_inv (do_ops l x).
Proof. unfold do_ops. revert x. induction l as [|o l IH]; intros x Hx; [done|]. cbn. apply IH. by apply do_op_inv. Qed.

(** An invitation is accepted once.  In any run of invitations, withdrawals,
    acceptances and token changes, with any statements failing and any time
    between, no invitation is returned by two acceptances. *)
Theorem invitation_is_accepted_once l :
  NoDup (do_ops l (initial, [])).2.
Proof.
  apply li_once, do_ops_inv. split; cbn; [constructor|apply NoDup_nil_2|..|constructor]; by intros ? ?%elem_of_nil.
Qed.
End Runs.

(** ** Tokens *)
Section Tokens.
Context `{World}.

(** No method waits. *)
Definition still {A} (m : M A) : Prop := forall s, time (m s).2 = time s.
Lemma still_bind {A B} (m : M A) (k : A -> M B) : still m -> (forall a, still (k a)) -> still (bind m k).
Proof. intros Hm Hk s. unfold bind. specialize (Hm s). destruct (m s) as [[a|e] s']; cbn in *; [|done]. by rewrite Hk. Qed.
Lemma still_exec {A} e (f : DB -> A * DB) : still (exec e f).
Proof. intros s. unfold exec. destruct (fails (asked s)); [done|]. by destruct (f (db s)). Qed.
Lemma still_maybe {A} (m : M A) : still m -> still (maybe m).
Proof. intros Hm s. unfold maybe. specialize (Hm s). by destruct (m s). Qed.
Lemma still_transaction {A} (m : M A) : still m -> still (transaction m).
Proof. intros Hm s. unfold transaction. specialize (Hm s). destruct (m s) as [[a|e] s']; [by destruct (fails (asked s'))|done]. Qed.
Lemma still_found {A} e (o : option A) : still (found e o).
Proof. by destruct o. Qed.
Lemma still_expect k e : still (expect_one k e).
Proof. unfold expect_one. by destruct (k =? 1). Qed.
Lemma still_fresh f : still (fresh f).
Proof. done. Qed.
Lemma still_now : still now.
Proof. done. Qed.
Lemma still_ret {A} (a : A) : still (ret a).
Proof. done. Qed.
Lemma still_throw {A} e : still (throw e : M A).
Proof. done. Qed.
End Tokens.
#[export] Hint Resolve still_exec still_found still_expect still_fresh still_now still_ret still_throw : bank.
Ltac still :=
  repeat first
    [ solve [eauto with bank]
    | apply still_bind; [|intros ?]
    | apply still_maybe
    | apply still_transaction
    | match goal with |- still (match ?x with _ => _ end) => destruct x end ].

Section TokenBound.
Context `{World} (sound : forall k, fails k = false).
Definition of_user (userID : string) (t : Z) (x : UserToken) : bool := (t_UserID x == userID) && UserRepo.live t x.
Definition bounded (s : St) : Prop := forall userID, count (of_user userID (time s)) (tokens (db s)) <= UserRepo.maxTokens.

Lemma count_le {A} (p q : A -> bool) l : (forall x, p x = true -> q x = true) -> count p l <= count q l.
Proof.
  intros Hpq. unfold count. induction l as [|x l IH]; [done|]. cbn [List.filter]. destruct (p x) eqn:E; [rewrite (Hpq x E); cbn [List.length]; lia|].
  destruct (q x); cbn [List.length]; lia.
Qed.
Lemma count_update {A} (p : A -> bool) (sel : A -> bool) f l : (forall x, p (f x) = true -> p x = true) -> count p (update sel f l) <= count p l.
Proof.
  intros Hf. unfold count, update. induction l as [|x l IH]; [done|]. cbn [map List.filter].
  destruct (sel x), (p (f x)) eqn:E, (p x) eqn:E'; cbn [List.length]; try lia; rewrite ?Hf in * by done; done.
Qed.
Lemma count_snoc {A} (p : A -> bool) l x : count p (l ++ [x]) = count p l + if p x then 1 else 0.
Proof. unfold count. rewrite List.filter_app, length_app. cbn [List.filter]. destruct (p x); cbn [List.length]; lia. Qed.

Lemma bounded_frame s s' : time s <= time s' -> tokens (db s') = tokens (db s) -> bounded s -> bounded s'.
Proof.
  intros Ht E Hb userID. rewrite E. etrans; [|apply (Hb userID)]. apply count_le. intros x [E1 E2]%andb_true_iff. unfold of_user. rewrite E1. cbn.
  unfold UserRepo.live in *. apply andb_true_iff in E2 as [E2 ->]. rewrite andb_true_r. lia.
Qed.
Lemma bounded_AddToken token s : bounded s -> bounded (UserRepo.AddToken token s).2.
Proof.
  intros Hb. unfold UserRepo.AddToken. unfold bind at 1, now at 1. cbv beta iota. destruct (Token_Validate SHA256 (time s) token) as [x|]; [|done].
  unfold UserRepo.countToken, query, exec, maybe, transaction, new_id, fresh, bind, now, ret, throw. cbn. rewrite !sound. cbn.
  fold (of_user (t_UserID x) (time s)). destruct (Z.leb_spec UserRepo.maxTokens (count (of_user (t_UserID x) (time s)) (tokens (db s)))) as [|Hlt]; [done|].
  cbn. rewrite !sound. cbn. intros userID. cbn. rewrite count_snoc. destruct (of_user userID (time s) _) eqn:E; [|rewrite Z.add_0_r; apply Hb].
  apply andb_true_iff in E as [E _]. apply String.eqb_eq in E. cbn in E. subst userID. lia.
Qed.
(** The methods of invitations leave the tokens alone. *)
Lemma bounded_aside {A} (m : M A) s : still m -> (forall l, ensures 0 (fun d => tokens d = l) m (fun _ => True)) -> bounded s -> bounded (m s).2.
Proof. intros Hst Hm Hb. destruct (Hm (tokens (db s)) s) as (_ & E & _); [lia|done|]. by apply (bounded_frame s); [rewrite Hst|..]. Qed.
Lemma bounded_Create inv s : bounded s -> bounded (InvitationRepo.Create inv s).2.
Proof.
  apply bounded_aside; [unfold InvitationRepo.Create, InvitationRepo.insert_invitation, new_id, new_code, query; still|]. intros l. unfold InvitationRepo.Create. seq. seq. seq.
  destruct (Invitation_ValidateBeforeSave _ _ _ inv) as [i|]; [|seq].
  eapply ensures_bind; [by apply ensures_maybe, ensures_query with (Q := fun _ => True)|intros r _]. destruct (0 <? _); [seq|].
  eapply ensures_bind; [by apply ensures_query with (Q := fun _ => True)|intros total _]. destruct (100 <? total); [seq|].
  eapply ensures_bind with (P := fun _ => True); [|intros _ _; by apply ensures_ret]. apply ensures_transaction.
  unfold InvitationRepo.insert_invitation. eapply ensures_bind; [|intros [] _; [by apply ensures_ret|seq]].
  apply ensures_exec with (Q := fun _ => True). intros d Hd. by destruct (indexes && _).
Qed.
Lemma bounded_Accept email code s : bounded s -> bounded (InvitationRepo.Accept email code s).2.
Proof.
  apply bounded_aside; [unfold InvitationRepo.Accept, InvitationRepo.Find, query; still|]. intros l. unfold InvitationRepo.Accept. seq.
  eapply ensures_bind; [by apply ensures_exec with (Q := fun _ => True)|intros k _]. seq. unfold InvitationRepo.Find.
  eapply ensures_bind; [by apply ensures_query with (Q := fun _ => True)|intros r _]. by apply ensures_found.
Qed.
Lemma bounded_Delete id s : bounded s -> bounded (InvitationRepo.Delete id s).2.
Proof.
  apply bounded_aside; [unfold InvitationRepo.Delete; still|]. intros l. unfold InvitationRepo.Delete.
  eapply ensures_bind; [by apply ensures_exec with (Q := fun _ => True)|intros k _]. by eapply ensures_any, ensures_expect.
Qed.
Lemma bounded_Revoke qc userID id s : bounded s -> bounded (UserRepo.RevokeToken qc userID id s).2.
Proof.
  intros Hb user. unfold UserRepo.RevokeToken, expect_one, exec, bind. cbn. rewrite sound. cbn.
  assert (forall x, of_user user (time s) (set_t_Active false x) = true -> of_user user (time s) x = true) as Hf.
  { intros x. unfold of_user, UserRepo.live. cbn. by rewrite !andb_false_r. }
  destruct (_ =? 1); cbn; (etrans; [by apply count_update|apply Hb]).
Qed.
Lemma do_op_bounded o x : bounded x.1 -> bounded (do_op o x).1.
Proof.
  destruct x as [s log]. destruct o as [inv|id|email code|token|qc userID id|d]; cbn [fst]; intros Hb; unfold do_op.
  - by apply bounded_Create.
  - by apply bounded_Delete.
  - pose proof (bounded_Accept email code s Hb) as Ha. by destruct (InvitationRepo.Accept email code s).
  - by apply bounded_AddToken.
  - by apply bounded_Revoke.
  - apply (bounded_frame s); [cbn; lia|done..].
Qed.

(** A user never has more than ten API tokens that are neither revoked nor
    expired, in any run of token and invitation changes in which no statement of
    the database fails. *)
Theorem live_tokens_are_bounded l userID :
  let s := (do_ops l (initial, [])).1 in count (of_user userID (time s)) (tokens (db s)) <= 10.
Proof.
  assert (forall x, bounded x.1 -> bounded (do_ops l x).1) as Hrun; [|by apply Hrun].
  unfold do_ops. induction l as [|o l IH]; intros x Hx; [done|]. cbn. apply IH. by apply do_op_bounded.
Qed.
End TokenBound.

(** ** Runs *)
Module AccountDemo.
#[local] Instance world : World := {|
  fails _ := false; ulid n := "id" +:+ itoa (Z.of_nat n); randomString n := "code" +:+ itoa (Z.of_nat n); mailed _ := true; indexes := true;
  SHA256 x := "sha" +:+ x; SHA256Key x := "key" +:+ x; BuildToken t _ := Some ("token", t + 1000); EncryptionKey := "secret";
  user_bars_org _ _ _ := false |}.
#[local] Instance notifications : Notifications := {| notify_json _ := ""; notify_of_json _ := Some ∅ |}.
#[local] Instance cipher : Cipher := {| seal _ v := Some v; unseal _ v := Some v |}.

Definition acme : Organization := set_o_ID "org" (NewOrganization 0 "boss" "acme" "io.acme").
Definition boss : User := set_u_ID "boss" (NewUser 5 "org" "boss" "The Boss" "boss@acme.io" "").
Definition invitation : UserInvitation := mkInvitation "inv" "ann@acme.io" "welcome" "org" "acme" "boss" None 1000 0.
Definition tables : DB := set_orgs [acme] (set_users [boss] (set_invitations [invitation] empty)).
Definition start : St := mkSt tables 0 0 5 [] [] [].
Definition person (username email roles code : string) (locked : bool) (org : string) : User :=
  mkAccount "" username username email "" "" org None "" "" 0 "" "" "" "" roles "" None false locked true 5 5 "" code ∅.
Definition ann : User := person "ann" "ann@acme.io" "" "welcome" false "".
Definition bob : User := person "bob" "ann@acme.io" "" "welcome" false "".
Definition upstart : User := person "boss" "boss@acme.io" "Admin[]" "" true "other".
Definition guest : User := NewUser 5 "" "guest" "Guest" "guest@web.io" "".
Definition crasher : User := set_u_OrgUnit "acme" guest.
Definition summary (s : St) := map (fun u => (u_Username u, u_OrganizationID u)) (users (db s)).

Lemma fresh_differs k : ulid k ≠ "" /\ ulid k ≠ "org".
Proof. cbn. split; intros E; [done|]. by injection E. Qed.
(** An invited user joins the organization, a second one with the same code is
    refused, and so is one who names the organization. *)
Lemma invited_user_joins : summary (SignupUser None ann start).2 = [("boss", "org"); ("ann", "org")].
Proof. by vm_compute. Qed.
Lemma code_is_used_up : (SignupUser None bob (SignupUser None ann start).2).1 = inr (Refused "invitation-code is not valid, please contact admin of your organization to re-invite you to the organization").
Proof. by vm_compute. Qed.
Lemma naming_is_not_joining : summary (SignupUser None crasher start).2 = [("boss", "org")].
Proof. by vm_compute. Qed.
Lemma stranger_gets_own : exists id, summary (SignupUser None guest start).2 = [("boss", "org"); ("guest", id)] /\ id ≠ "org" /\ id ≠ "".
Proof. eexists. vm_compute. by split. Qed.
(** The session of a user whose earlier sign-up failed names an organization; the
    form does not keep it, and the invitation decides. *)
Import SignupForm.
Definition ann_session : User := person "ann" "" "" "" false "other".
Definition ann_form : Form := mkForm "Ann" "ann@acme.io" "agree" "organization" "" "" "welcome".
Lemma form_joins_by_invitation :
  summary (createUserFromForm None (Some ann_session) ann_form start).2 = [("boss", "org"); ("ann", "org")].
Proof. by vm_compute. Qed.
Lemma signup_needs_an_invitation_witness :
  Forall (fun x => x ∈ users (db start) \/ u_OrganizationID x = "" \/ (forall o, o ∈ orgs (db start) -> o_ID o ≠ u_OrganizationID x) \/
            (f_accountType ann_form = "organization" /\ exists i, open_invitation start "ann@acme.io" "welcome" (u_OrganizationID x) i))
    (users (db (createUserFromForm None (Some ann_session) ann_form start).2)).
Proof.
  apply Forall_forall.
  apply (signup_needs_an_invitation None (Some ann_session) ann_form start (createUserFromForm None (Some ann_session) ann_form start).1); [by vm_compute| | |].
  - unfold unique_codes. vm_compute. apply NoDup_singleton.
  - intros k. apply fresh_differs.
  - intros k o _ ->%list_elem_of_singleton. apply not_eq_sym, fresh_differs.
Defined.
Lemma profile_update_grants_nothing_witness :
  Forall (fun x' => x' ∈ users (db start) \/
    exists x, x ∈ users (db start) /\ rights x' = rights x /\
      (IsAdmin (UserManager.qc_of (Some boss)) = false -> own_row (UserManager.qc_of (Some boss)) x x'))
    (users (db (UserRepo.Update (UserManager.qc_of (Some boss)) upstart start).2)).
Proof.
  apply Forall_forall.
  refine (profile_update_grants_nothing (UserManager.qc_of (Some boss)) upstart start
    (UserRepo.Update (UserManager.qc_of (Some boss)) upstart start).1 _ _).
  by destruct (UserRepo.Update _ _ start).
Defined.
Definition errands : list account_op :=
  [OpInvite invitation; OpAccept "ann@acme.io" "code1"; OpAccept "ann@acme.io" "code1"; OpWait 3; OpInvite invitation; OpAccept "ann@acme.io" "code3";
   OpToken (mkToken "" "ann" "org" "ci" "" true 100 0 "secret"); OpWithdraw "id0"; OpAccept "ann@acme.io" "code1"].
Lemma errands_log : (do_ops errands (initial, [])).2 = ["id2"; "id0"] /\ length (tokens (db (do_ops errands (initial, [])).1)) = 1%nat.
Proof. by vm_compute. Qed.
Lemma itoa_of_nat_inj a b : itoa (Z.of_nat a) = itoa (Z.of_nat b) -> a = b.
Proof. intros E%itoa_inj; lia. Qed.
Lemma invitation_is_accepted_once_witness : NoDup (do_ops errands (initial, [])).2.
Proof. apply invitation_is_accepted_once; intros a b E; apply itoa_of_nat_inj; by injection E. Defined.
Lemma live_tokens_are_bounded_witness :
  let s := (do_ops errands (initial, [])).1 in count (of_user "ann" (time s)) (tokens (db s)) <= 10.
Proof. by apply live_tokens_are_bounded. Defined.
(** The roles of a form are not taken over, nor its lock and organization. *)
Lemma upstart_gets_nothing :
  map (fun u => (u_Username u, u_SerializedRoles u, u_Locked u, u_OrganizationID u)) (users (db (UserRepo.Update (UserManager.qc_of (Some boss)) upstart start).2))
  = [("boss", "", false, "org")].
Proof. by vm_compute. Qed.
(** The owner of a personal organization is made its administrator in the answer
    and not in the table; an invited user is in both. *)
Lemma owner_roles_are_lost :
  (match (SignupUser None guest start).1 with inl (u, _) => u_SerializedRoles u | inr _ => "" end,
   map u_SerializedRoles (users (db (SignupUser None guest start).2)),
   map u_SerializedRoles (users (db (SignupUser None ann start).2))) = ("OrgAdmin[]", [""; ""], [""; "OrgAdmin[]"]).
Proof. by vm_compute. Qed.
(** A sign-up that fails after it was invited has used the invitation. *)
Lemma failed_signup_uses_the_invitation :
  let s := (SignupUser None (person "boss" "ann@acme.io" "" "welcome" false "") start).2 in
  summary s = [("boss", "org")] /\ (SignupUser None ann s).1 = inr (Refused "invitation-code is not valid, please contact admin of your organization to re-invite you to the organization").
Proof. by vm_compute. Qed.
End AccountDemo.
