(* ===== verification/Diagram.v ===== *)
(** * Diagram: graphs of jobs for display

    Models [src/queen/diagrams]: the tree of nodes that both generators build from
    the exit codes of a job, and the texts in DOT and Mermaid.

    Nodes are addresses of a heap, because the table of nodes by task type and the
    children of a node share them: a node of the table is changed after it was
    entered.  [addNodes] calls itself for every target of a task; a call that has
    no stack left ends the process, which [None] stands for.  The rendering of a
    task from the YAML text of its job is an argument. *)

From Stdlib Require Import Ascii.
From S2P Require Import Prelude RequestState JobDefinition Execution.
Import Task Job.

Open Scope Z_scope.
Open Scope go_scope.

(** ** The tree *)
Module Tree.
(** A task with the options for forked jobs, which [TaskDefinition] leaves out. *)
Record DrawnTask := mkDrawn { def : TaskDefinition; ForkJobType : string; AwaitForkedTasks : list string }.
Definition ForkedJob : TaskMethod := "ForkedJob".
Definition forked_task (jobType : string) : DrawnTask := mkDrawn (NewTaskDefinition jobType ForkedJob) "" [].

Record Node := mkNode {
  task : DrawnTask;
  state : RequestState;
  color : string;
  bold : bool;
  arrow : RequestState;
  arrowColor : string;
  boldArrow : bool;
  decision : bool;
  children : list nat
}.
Definition TaskType (n : Node) : string := Task.TaskType (def (task n)).
Definition new_node (t : DrawnTask) (arrow_ : RequestState) (arrowColor_ : string) : Node :=
  mkNode t "" "" false arrow_ arrowColor_ false false [].
Definition set_task (t : DrawnTask) (n : Node) : Node :=
  mkNode t (state n) (color n) (bold n) (arrow n) (arrowColor n) (boldArrow n) (decision n) (children n).
Definition set_state (x : RequestState * string * bool) (n : Node) : Node :=
  mkNode (task n) (fst (fst x)) (snd (fst x)) (snd x) (arrow n) (arrowColor n) (boldArrow n) (decision n) (children n).
Definition set_decision (color_ : string) (d : bool) (n : Node) : Node :=
  mkNode (task n) (state n) (color n) (bold n) (arrow n) color_ (boldArrow n) d (children n).
Definition set_boldArrow (b : bool) (n : Node) : Node :=
  mkNode (task n) (state n) (color n) (bold n) (arrow n) (arrowColor n) b (decision n) (children n).
Definition set_arrow (a : RequestState) (n : Node) : Node :=
  mkNode (task n) (state n) (color n) (bold n) a (arrowColor n) (boldArrow n) (decision n) (children n).
Definition add_child (c : nat) (n : Node) : Node :=
  mkNode (task n) (state n) (color n) (bold n) (arrow n) (arrowColor n) (boldArrow n) (decision n) (children n ++ [c]).

(** The nodes that were made, and the table of nodes by task type. *)
Record Nodes := mkNodes { heap : list Node; table : gmap string nat }.
Definition no_nodes : Nodes := mkNodes [] ∅.
Definition alloc (n : Node) (t : Nodes) : nat * Nodes := (List.length (heap t), mkNodes (heap t ++ [n]) (table t)).
Definition modify (p : nat) (f : Node -> Node) (t : Nodes) : Nodes := mkNodes (alter f p (heap t)) (table t).
Definition enter (taskType : string) (p : nat) (t : Nodes) : Nodes := mkNodes (heap t) (<[taskType := p]> (table t)).

Class Rendering := {
  (** The task of a type, rendered with the variables of the job and the contexts
      of its execution. *)
  GetDynamicTask : JobDefinition -> option JobExec.JobExecution -> string -> option DrawnTask;
  (** The options of a task for forked jobs. *)
  fork_options : TaskDefinition -> string * list string
}.

Section Building.
Context `{RangeOrder} `{Rendering} (jobDefinition : JobDefinition) (jobExecution : option JobExec.JobExecution).

Definition drawn (td : TaskDefinition) : DrawnTask := mkDrawn td (fst (fork_options td)) (snd (fork_options td)).
Definition exec_task (taskType : string) : option TaskExec.TaskExecution :=
  match jobExecution with
  | None => None
  | Some je => match JobExec.GetTask je "" taskType with Some (_, p) => JobExec.deref je p | None => None end
  end.
(** The colour of a node without execution is that of the Mermaid file. *)
Definition defaultColor : string := "default".
Definition getTaskStateStateColor (taskType : string) : RequestState * string * bool :=
  match exec_task taskType with
  | None => (State.UNKNOWN, defaultColor, false)
  | Some t => (TaskExec.TaskState t, State.DotColor (TaskExec.TaskState t), negb (State.Processing (TaskExec.TaskState t)))
  end.

(** The child of a task that forks, and those of a task that waits. *)
Definition terminal (e : option TaskExec.TaskExecution) : bool :=
  match e with Some t => State.IsTerminal (TaskExec.TaskState t) | None => false end.
Definition parent_state (p : nat) (t : Nodes) : RequestState := match heap t !! p with Some n => state n | None => "" end.
Definition add_forked (p : nat) (jobType : string) (f : Node -> Node) (arrow_ : RequestState) (t : Nodes) : Nodes :=
  let n := f (mkNode (forked_task jobType) "" "gray" false arrow_ (State.DotColor (parent_state p t)) false false []) in
  let '(c, t) := alloc n t in
  enter jobType c (modify p (add_child c) t).
Definition add_fork (p : nat) (jobType : string) (fromExec : option TaskExec.TaskExecution) (t : Nodes) : Nodes :=
  add_forked p jobType (set_boldArrow (terminal fromExec)) "fork" t.
Definition awaited_node (fromExec : option TaskExec.TaskExecution) (n : Node) : Node :=
  match fromExec with
  | None => n
  | Some e =>
      let s := TaskExec.TaskState e in
      set_boldArrow (State.IsTerminal s) (set_state (s, State.DotColor s, State.IsTerminal s) n)
  end.
Fixpoint add_awaited (p : nat) (l : list string) (fromExec : option TaskExec.TaskExecution) (t : Nodes) : Nodes :=
  match l with
  | [] => t
  | c :: l =>
      add_awaited p l fromExec
        (match table t !! c ≫= fun q => heap t !! q with
         | Some forked => add_forked p (ForkJobType (task forked)) (awaited_node fromExec) "await" t
         | None => t
         end)
  end.
Definition add_jobs (p : nat) (task_ : DrawnTask) (fromExec : option TaskExec.TaskExecution) (t : Nodes) : Nodes :=
  if Task.Method (def task_) == Method.ForkJob then add_fork p (ForkJobType task_) fromExec t
  else if Task.Method (def task_) == Method.AwaitForkedJob then add_awaited p (AwaitForkedTasks task_) fromExec t
  else t.

(** The node for a target, and what its execution tells of the parent. *)
Definition child_node (parent : TaskDefinition) (parentState : RequestState) (fromExec : option TaskExec.TaskExecution)
    (code : string) (child : TaskDefinition) : Node :=
  let n := new_node (drawn child) code (State.DotColor code) in
  match fromExec with
  | None => n
  | Some e =>
      match fst (GetNextTask jobDefinition parent (TaskExec.TaskState e) (TaskExec.ExitCode e)) with
      | Some next =>
          set_boldArrow ((TaskExec.TaskState e == parentState) && (Task.TaskType next == Task.TaskType child)) n
      | None =>
          if AlwaysRun child &&
             negb (existsb (fun x => match exec_task (snd x) with Some _ => true | None => false end) (range (OnExitCode child)))
          then set_arrow (if TaskExec.ExitCode e != "" then TaskExec.ExitCode e else TaskExec.TaskState e) (set_boldArrow true n)
          else n
      end
  end.
Definition mark_parent (parent : TaskDefinition) (fromExec : option TaskExec.TaskExecution) (n : Node) : Node :=
  match fromExec with
  | None => n
  | Some e =>
      set_decision (State.DotColor (TaskExec.TaskState e))
        (snd (GetNextTask jobDefinition parent (TaskExec.TaskState e) (TaskExec.ExitCode e))) n
  end.

(** What [addNodes] does before its loop: the node is entered and coloured, its
    task rendered and its forked jobs added; the rendered task is returned. *)
Definition prepare (p : nat) (n : Node) (t : Nodes) : DrawnTask * Nodes :=
  let ty := TaskType n in
  let t := modify p (set_state (getTaskStateStateColor ty)) (enter ty p t) in
  let '(task_, t) :=
    match GetDynamicTask jobDefinition jobExecution ty with
    | Some d => (d, modify p (set_task d) t)
    | None => (task n, t)
    end in
  (task_, add_jobs p task_ (exec_task ty) t).
(** The loop over the exit codes of a task, with the call for a child. *)
Fixpoint add_targets (call : nat -> Nodes -> option Nodes) (p : nat) (parent : TaskDefinition)
    (fromExec : option TaskExec.TaskExecution) (l : list (string * string)) (t : Nodes) : option Nodes :=
  match l with
  | [] => Some t
  | (code, target) :: l =>
      match GetTask jobDefinition target with
      | None => add_targets call p parent fromExec l t
      | Some child =>
          let n := child_node parent (parent_state p t) fromExec code child in
          let t := modify p (mark_parent parent fromExec) t in
          let '(c, t) := alloc n t in
          match call c t with
          | None => None
          | Some t => add_targets call p parent fromExec l (modify p (add_child c) t)
          end
      end
  end.
Fixpoint addNodes (stack : nat) (p : nat) (t : Nodes) : option Nodes :=
  match stack with
  | O => None
  | S stack =>
      match heap t !! p with
      | None => Some t
      | Some n =>
          let '(task_, t) := prepare p n t in
          add_targets (addNodes stack) p (def task_) (exec_task (TaskType n)) (range (OnExitCode (def task_))) t
      end
  end.

(** The node of the first task is the first one. *)
Definition root_node (first : TaskDefinition) : Node :=
  new_node (drawn first) "" (snd (fst (getTaskStateStateColor (Task.TaskType first)))).
Inductive drawing (A : Type) := Drawn (a : A) | Refused (e : job_error) | Overflow.
#[global] Arguments Drawn {A}.
#[global] Arguments Refused {A}.
#[global] Arguments Overflow {A}.
Definition buildTree (stack : nat) : drawing Nodes :=
  match GetFirstTask jobDefinition with
  | inl e => Refused e
  | inr first =>
      let '(p, t) := alloc (root_node first) no_nodes in
      match addNodes stack p t with Some t => Drawn t | None => Overflow end
  end.
End Building.

(** The lines between nodes: each pair of types once, and below a pair that was
    written before nothing more.  A pair is told by [from:to]. *)
Definition toKey (from to : string) : string := from +:+ ":" +:+ to.
Section Writing.
Context {B : Type} (line : Node -> Node -> B -> B).
Fixpoint write_children (call : nat -> gset string * B -> gset string * B) (h : list Node) (n : Node) (l : list nat)
    (w : gset string * B) : gset string * B :=
  match l with
  | [] => w
  | c :: l =>
      match h !! c with
      | None => write_children call h n l w
      | Some child =>
          let key := toKey (TaskType n) (TaskType child) in
          if bool_decide (key ∈ fst w) then write_children call h n l w
          else write_children call h n l (call c ({[key]} ∪ fst w, line n child (snd w)))
      end
  end.
(** The depth of a tree is at most the number of its nodes. *)
Fixpoint write_task (depth : nat) (h : list Node) (p : nat) (w : gset string * B) : gset string * B :=
  match depth with
  | O => w
  | S depth =>
      match h !! p with
      | None => w
      | Some n => write_children (write_task depth h) h n (children n) w
      end
  end.
Definition writeTask (h : list Node) (p : nat) (w : gset string * B) : gset string * B := write_task (S (List.length h)) h p w.
End Writing.
End Tree.
Import Tree.

(** A text with quotes: [%s] pieces between them. *)
Definition dq : string := String (ascii_of_nat 34) EmptyString.
Definition newline : string := String (ascii_of_nat 10) EmptyString.
Definition quoted (s : string) : string := dq +:+ s +:+ dq.

(** The last task that ran, or the last of the definition. *)
Definition last_type (jd : JobDefinition) (je : JobExec.JobExecution) : string :=
  match JobExec.GetLastExecutedTask je with
  | Some t => TaskExec.TaskType t
  | None => match GetLastTask jd with Some t => Task.TaskType t | None => "last" end
  end.
Definition is_terminal (je : option JobExec.JobExecution) : bool :=
  match je with Some je => State.IsTerminal (JobExec.JobState je) | None => false end.
Definition executionStatus (je : option JobExec.JobExecution) : RequestState :=
  match je with Some je => JobExec.JobState je | None => State.PENDING end.
Definition root_type (t : Nodes) : string := match heap t !! 0%nat with Some n => TaskType n | None => "" end.
Definition table_nodes `{RangeOrder} (t : Nodes) : list Node := omap (fun x => heap t !! snd x) (range (table t)).

(** ** DOT *)
Module Dot.
Definition endSuccessColor : string := "darkseagreen".
Definition endFailColor : string := "firebrick".
Definition blueColor : string := "dodgerblue3".
Definition overriddenShape (n : Node) (shape : string) : string :=
  let m := Task.Method (def (task n)) in
  if decision n then "diamond"
  else if AlwaysRun (def (task n)) then "trapezium"
  else if m == Method.ForkJob then "invhouse"
  else if m == Method.AwaitForkedJob then "house"
  else if m == Method.Manual then "circle"
  else if m == ForkedJob then "component"
  else shape.
Definition writeShape (executed : bool) (n : Node) : string :=
  "  " +:+ quoted (TaskType n) +:+ " [shape=" +:+
  (if executed
   then overriddenShape n "box" +:+ ",color=" +:+ color n +:+ ",style=rounded,penwidth=" +:+
        itoa (if State.Processing (state n) then 2 else 4) +:+ ",pad=0.1]" +:+ newline
   else overriddenShape n "ellipse" +:+ ",color=gray,style=rounded]" +:+ newline).
Definition writeTaskLine (from to : Node) : string :=
  (if (Task.Method (def (task from)) == Method.AwaitForkedJob) && (Task.Method (def (task to)) == ForkedJob)
   then "  " +:+ quoted (TaskType to) +:+ " -> " +:+ quoted (TaskType from) +:+ " "
   else "  " +:+ quoted (TaskType from) +:+ " -> " +:+ quoted (TaskType to) +:+ " ") +:+
  "[color=" +:+ (if boldArrow to then arrowColor from else "gray") +:+ "," +:+
  (if boldArrow to then "penwidth=5.0,style=solid" else "penwidth=1.0,style=dotted") +:+
  ",label=" +:+ quoted (ToLower (arrow to)) +:+ "];" +:+ newline.
Definition endColor (status : RequestState) : string :=
  if State.Completed status then endSuccessColor else if State.Failed status then endFailColor else blueColor.

Section Generator.
Context `{RangeOrder} `{Rendering} (cron_next : string -> option bool) (MatchEmail : string -> bool).
(** [NewDot]: the definition is validated, which completes it. *)
Definition NewDot (jd : JobDefinition) : outcome job_error JobDefinition := Job.Validate cron_next MatchEmail jd.
Definition start_shape : string :=
  "  " +:+ quoted "start" +:+ " [shape=Mdiamond,color=" +:+ blueColor +:+ ",penwidth=3.0,style=solid,label=" +:+ quoted "START" +:+ "]" +:+ newline.
Definition end_shape (color_ : string) : string :=
  "  " +:+ quoted "end" +:+ " [shape=Msquare,color=" +:+ color_ +:+ ",penwidth=3.0,style=solid,label=" +:+ quoted "END" +:+ "]" +:+ newline.
Definition start_line (first : string) : string :=
  "  " +:+ quoted "start" +:+ " -> " +:+ quoted first +:+ " [color=" +:+ blueColor +:+ ",penwidth=3.0,style=solid,label=" +:+ quoted "begin" +:+ "];" +:+ newline.
Definition end_line (last color_ : string) : string :=
  "  " +:+ quoted last +:+ " -> " +:+ quoted "end" +:+ " [color=" +:+ color_ +:+ "," +:+
  (if color_ == blueColor then "penwidth=1.0,style=dotted" else "penwidth=3.0,style=solid") +:+ ",label=" +:+ quoted "finish" +:+ "];" +:+ newline.
(** The pieces in the order they are written. *)
Definition task_lines (t : Nodes) : list string := snd (writeTask (fun a b buf => buf ++ [writeTaskLine a b]) (heap t) 0 (∅, [])).
Definition GenerateDot (stack : nat) (jd : JobDefinition) (je : option JobExec.JobExecution) : drawing (list string) :=
  match buildTree jd je stack with
  | Refused e => Refused e
  | Overflow => Overflow
  | Drawn t =>
      let color_ := endColor (executionStatus je) in
      let executed := match je with Some _ => true | None => false end in
      Drawn
        (["digraph {" +:+ newline] ++
         (if executed then start_shape :: (if is_terminal je then [end_shape color_] else []) else []) ++
         map (writeShape executed) (table_nodes t) ++
         (if executed then [start_line (root_type t)] else []) ++
         task_lines t ++
         (match je with Some x => if is_terminal je then [end_line (last_type jd x) color_] else [] | None => [] end) ++
         ["}" +:+ newline])
  end.
End Generator.
End Dot.

(** ** Mermaid

    The tree is built by a copy of the code; afterwards every task of the job that
    has no node gets one. *)
Module Mermaid.
Definition endSuccessColor : string := "success".
Definition endFailColor : string := "error".
Definition blueColor : string := "primary".
Definition processingColor : string := "warning".
Definition endColor (status : RequestState) : string :=
  if State.Completed status then endSuccessColor else if State.Failed status then endFailColor else blueColor.
Definition sanitizeNodeId (taskType : string) : string :=
  ReplaceAll (ReplaceAll (ReplaceAll taskType "-" "_") " " "_") "." "_".
Definition backslash : string := String (ascii_of_nat 92) EmptyString.
Definition getNodeShape (n : Node) : string :=
  let label := quoted (TaskType n) in
  let m := Task.Method (def (task n)) in
  if decision n then "{" +:+ label +:+ "}"
  else if AlwaysRun (def (task n)) then "[/" +:+ label +:+ backslash +:+ "]"
  else if m == Method.ForkJob then "[" +:+ backslash +:+ label +:+ "/]"
  else if m == Method.AwaitForkedJob then "[/" +:+ label +:+ backslash +:+ "]"
  else if m == ForkedJob then "((" +:+ label +:+ "))"
  else if m == Method.Manual then "[" +:+ quoted (TaskType n +:+ newline +:+ "🔒") +:+ "]"
  else "[" +:+ label +:+ "]".
Definition getNodeColor (executed : bool) (n : Node) : string :=
  if negb executed then defaultColor
  else if state n == State.COMPLETED then endSuccessColor
  else if state n == State.FAILED then endFailColor
  else if (state n == State.EXECUTING) || (state n == State.READY) then processingColor
  else if state n == State.MANUAL_APPROVAL_REQUIRED then "info"
  else if state n == State.PAUSED then "warning"
  else if state n == State.CANCELLED then "secondary"
  else defaultColor.
Definition addNodeStyle (nodeId color_ : string) (bold_ : bool) (styles : gmap string string) : gmap string string :=
  <[nodeId := "class_" +:+ color_ +:+ (if bold_ then "_bold" else "")]> styles.
Definition writeNode (executed : bool) (n : Node) (w : list string * gmap string string) : list string * gmap string string :=
  let nodeId := sanitizeNodeId (TaskType n) in
  (fst w ++ ["    " +:+ nodeId +:+ getNodeShape n +:+ newline], addNodeStyle nodeId (getNodeColor executed n) (bold n) (snd w)).
Definition writeTaskConnection (executed : bool) (from to : Node) : string :=
  let fromId := sanitizeNodeId (TaskType from) in
  let toId := sanitizeNodeId (TaskType to) in
  let connector := if boldArrow to then " ==> " else if negb executed then " --> " else " -.-> " in
  if (Task.Method (def (task from)) == Method.AwaitForkedJob) && (Task.Method (def (task to)) == ForkedJob)
  then "    " +:+ toId +:+ connector +:+ fromId +:+ newline
  else "    " +:+ fromId +:+ connector +:+ toId +:+ newline.
Definition classes : list (string * string) :=
  [("class_primary", "fill:#e1f5fe,stroke:#01579b,stroke-width:2px"); ("class_success", "fill:#e8f5e8,stroke:#2e7d32,stroke-width:2px");
   ("class_error", "fill:#ffebee,stroke:#c62828,stroke-width:2px"); ("class_warning", "fill:#fff3e0,stroke:#ef6c00,stroke-width:2px");
   ("class_info", "fill:#e3f2fd,stroke:#1565c0,stroke-width:2px"); ("class_secondary", "fill:#f5f5f5,stroke:#616161,stroke-width:2px");
   ("class_default", "fill:#fafafa,stroke:#9e9e9e,stroke-width:1px");
   ("class_primary_bold", "fill:#e1f5fe,stroke:#01579b,stroke-width:4px"); ("class_success_bold", "fill:#e8f5e8,stroke:#2e7d32,stroke-width:4px");
   ("class_error_bold", "fill:#ffebee,stroke:#c62828,stroke-width:4px"); ("class_warning_bold", "fill:#fff3e0,stroke:#ef6c00,stroke-width:4px");
   ("class_info_bold", "fill:#e3f2fd,stroke:#1565c0,stroke-width:4px"); ("class_secondary_bold", "fill:#f5f5f5,stroke:#616161,stroke-width:4px");
   ("class_default_bold", "fill:#fafafa,stroke:#9e9e9e,stroke-width:3px")].

Section Generator.
Context `{RangeOrder} `{Rendering} (cron_next : string -> option bool) (MatchEmail : string -> bool).
(** The copies of the code of the other generator. *)
Definition getTaskStateStateColor (je : option JobExec.JobExecution) (taskType : string) : RequestState * string * bool :=
  Tree.getTaskStateStateColor je taskType.
Definition addNodes (jd : JobDefinition) (je : option JobExec.JobExecution) (stack p : nat) (t : Nodes) : option Nodes :=
  Tree.addNodes jd je stack p t.
Definition writeTask (executed : bool) (t : Nodes) : gset string * list string :=
  Tree.writeTask (fun a b buf => buf ++ [writeTaskConnection executed a b]) (heap t) 0 (∅, []).
Definition NewMermaid (jd : JobDefinition) : outcome job_error JobDefinition := Job.Validate cron_next MatchEmail jd.
Definition writeStyles (styles : gmap string string) : list string :=
  [newline] ++
  map (fun x => "    classDef " +:+ fst x +:+ " " +:+ snd x +:+ newline) (range (list_to_map classes : gmap string string)) ++
  [newline] ++
  map (fun x => "    class " +:+ fst x +:+ " " +:+ snd x +:+ newline) (range styles).
(** The tasks of the definition that have no node yet. *)
Fixpoint add_missing (jd : JobDefinition) (je : option JobExec.JobExecution) (stack : nat) (l : list TaskDefinition) (t : Nodes) : option Nodes :=
  match l with
  | [] => Some t
  | td :: l =>
      match table t !! Task.TaskType td with
      | Some _ => add_missing jd je stack l t
      | None =>
          let '(p, t) := alloc (root_node je td) t in
          match addNodes jd je stack p t with Some t => add_missing jd je stack l t | None => None end
      end
  end.
Definition buildTree (jd : JobDefinition) (je : option JobExec.JobExecution) (stack : nat) : drawing Nodes :=
  match Tree.buildTree jd je stack with
  | Drawn t => match add_missing jd je stack (Job.Tasks jd) t with Some t => Drawn t | None => Overflow end
  | other => other
  end.
Definition GenerateMermaid (stack : nat) (jd : JobDefinition) (je : option JobExec.JobExecution) : drawing (list string) :=
  match buildTree jd je stack with
  | Refused e => Refused e
  | Overflow => Overflow
  | Drawn t =>
      let color_ := endColor (executionStatus je) in
      let executed := match je with Some _ => true | None => false end in
      let styles := if executed then addNodeStyle "START" blueColor true ∅ else ∅ in
      let styles := if is_terminal je then addNodeStyle "END" color_ true styles else styles in
      let '(nodes, styles) := foldl (fun w n => writeNode executed n w) ([], styles) (table_nodes t) in
      Drawn
        (["flowchart TD" +:+ newline] ++
         (if executed then ["    START{" +:+ quoted "START" +:+ "}" +:+ newline] else []) ++
         (if is_terminal je then ["    END[" +:+ quoted "END" +:+ "]" +:+ newline] else []) ++
         nodes ++
         (if executed then ["    START --> " +:+ sanitizeNodeId (root_type t) +:+ newline] else []) ++
         snd (writeTask executed t) ++
         (match je with
          | Some x => if is_terminal je
                      then ["    " +:+ sanitizeNodeId (last_type jd x) +:+ (if color_ == blueColor then " -.-> END" else " --> END") +:+ newline]
                      else []
          | None => []
          end) ++
         writeStyles styles)
  end.
End Generator.
End Mermaid.
