(* ===== verification/DiagramSpec.v ===== *)
(** * DiagramSpec: what a drawing shows, and when there is none

    The tree of a job whose tasks do not lead back to themselves is built with as
    much stack as the longest path, every step between tasks that the first one
    leads to is drawn once, and nothing else but forked jobs; a job in which some
    tasks lead to each other, which validation accepts, overflows any stack. *)

From Stdlib Require Import Ascii.
From S2P Require Import Prelude RequestState JobDefinition JobSpec Execution Diagram.
Import Task Job Tree.

Open Scope go_scope.

#[local] Arguments Job.GetTask : simpl never.

(** ** Nodes and addresses *)
Section Trees.
Context `{RangeOrder} `{Rendering} (jd : JobDefinition) (je : option JobExec.JobExecution).

(** The task as it is drawn, and the types it leads to. *)
Definition rendered (td : TaskDefinition) : DrawnTask :=
  match GetDynamicTask jd je (Task.TaskType td) with Some d => d | None => drawn td end.
Definition targets_of (l : list (string * string)) : list string :=
  omap (fun x => match GetTask jd (snd x) with Some _ => Some (snd x) | None => None end) l.
Definition targets (ty : string) : list string :=
  match GetTask jd ty with
  | Some td => targets_of (range (OnExitCode (def (rendered td))))
  | None => []
  end.

Context (keyed : forall k td, GetTask jd k = Some td -> Task.TaskType td = k).

Lemma elem_targets ty target :
  target ∈ targets ty <->
  exists td code, GetTask jd ty = Some td /\ OnExitCode (def (rendered td)) !! code = Some target /\ is_Some (GetTask jd target).
Proof.
  unfold targets, targets_of. destruct (GetTask jd ty) as [td|] eqn:E; [|split; [by intros ?%elem_of_nil|intros (? & ? & E' & _); congruence]].
  rewrite list_elem_of_omap. split.
  - intros ([code tg] & Hin & Ht). cbn [snd] in Ht. destruct (GetTask jd tg) eqn:Eg; [|done]. injection Ht as <-. apply elem_of_range in Hin. exists td, code. by rewrite Eg.
  - intros (td' & code & [= <-] & Hc & [x Hx]). exists (code, target). split; [by apply elem_of_range|]. cbn [snd]. by rewrite Hx.
Qed.

(** *** Termination *)

(** A path of exit codes always comes down. *)
Definition descends (rank : string -> nat) : Prop := forall ty target, target ∈ targets ty -> (rank target < rank ty)%nat.
Definition in_job (n : Node) : Prop := GetTask jd (TaskType n) = Some (def (task n)) /\ task n = drawn (def (task n)).

Lemma in_job_child parent s e code td : GetTask jd (Task.TaskType td) = Some td -> in_job (child_node jd je parent s e code td).
Proof.
  intros E. unfold child_node. destruct e as [e|]; [|done]. destruct (GetNextTask _ _ _ _) as [[next|] b]; [done|]. cbn. by destruct (_ && _).
Qed.
Lemma child_node_type parent s e code td : TaskType (child_node jd je parent s e code td) = Task.TaskType td /\ children (child_node jd je parent s e code td) = [].
Proof. unfold child_node. destruct e as [e|]; [|done]. destruct (GetNextTask _ _ _ _) as [[next|] b]; [done|]. cbn. by destruct (_ && _). Qed.
Lemma prepare_task p n t : in_job n -> fst (prepare jd je p n t) = rendered (def (task n)).
Proof. intros [E1 E2]. unfold prepare, rendered. change (TaskType n) with (Task.TaskType (def (task n))). destruct (GetDynamicTask _ _ _); [done|]. cbn. by rewrite <- E2. Qed.
Lemma alloc_last n t : heap (alloc n t).2 !! (alloc n t).1 = Some n.
Proof. cbn. by rewrite lookup_app_r, Nat.sub_diag. Qed.

Lemma addNodes_ends rank stack p t n :
  descends rank -> heap t !! p = Some n -> in_job n -> (rank (TaskType n) < stack)%nat -> is_Some (addNodes jd je stack p t).
Proof.
  intros Hrank. revert p t n. induction stack as [|stack IH]; intros p t n Hp Hn Hlt; [lia|]. cbn. rewrite Hp.
  pose proof (prepare_task p n t Hn) as Et. destruct (prepare jd je p n t) as [task_ t1]. cbn in Et. subst task_.
  assert (forall l, (forall x, x ∈ l -> x ∈ range (OnExitCode (def (rendered (def (task n)))))) -> forall t1,
    is_Some (add_targets jd je (addNodes jd je stack) p (def (rendered (def (task n)))) (exec_task je (TaskType n)) l t1)) as Hl; [|by apply Hl].
  clear t1. induction l as [|[code target] l IHl]; intros Hin t1; [done|]. cbn. destruct (GetTask jd target) as [child|] eqn:Ec; [|apply IHl; set_solver].
  match goal with |- context [addNodes jd je stack ?c ?t2] => destruct (IH c t2 (child_node jd je (def (rendered (def (task n)))) (parent_state p t1) (exec_task je (TaskType n)) code child)) as [t3 E3] end.
  - apply (alloc_last (child_node jd je _ _ _ _ _) (modify p _ t1)).
  - apply in_job_child. by rewrite (keyed _ _ Ec).
  - destruct (child_node_type (def (rendered (def (task n)))) (parent_state p t1) (exec_task je (TaskType n)) code child) as [-> _]. rewrite (keyed _ _ Ec).
    enough (rank target < rank (TaskType n))%nat by lia. apply Hrank, elem_targets. exists (def (task n)), code. split; [apply Hn|].
    split; [|by rewrite Ec]. apply elem_of_range. apply Hin. by left.
  - rewrite E3. apply IHl. set_solver.
Qed.
(** A set of tasks none of which ends the path. *)
Definition trap (P : string -> Prop) : Prop := forall ty, P ty -> exists target, target ∈ targets ty /\ P target.
Lemma addNodes_overflows P stack p t n :
  trap P -> heap t !! p = Some n -> in_job n -> P (TaskType n) -> addNodes jd je stack p t = None.
Proof.
  intros HP. revert p t n. induction stack as [|stack IH]; intros p t n Hp Hn Hty; [done|]. cbn. rewrite Hp.
  pose proof (prepare_task p n t Hn) as Et. destruct (prepare jd je p n t) as [task_ t1]. cbn in Et. subst task_.
  destruct (HP _ Hty) as (target & Hin & Ht). apply elem_targets in Hin as (td & code & Etd & Hc & [child Ec]). destruct Hn as [Ejd Ed]. rewrite Ejd in Etd.
  injection Etd as <-. apply elem_of_range in Hc. revert t1 Hc. generalize (range (OnExitCode (def (rendered (def (task n)))))) as l.
  induction l as [|[code' target'] l IHl]; intros t1 Hin; [by apply elem_of_nil in Hin|]. cbn [add_targets]. apply elem_of_cons in Hin as [[= <- <-]|Hin].
  - rewrite Ec. cbv zeta. unfold alloc at 1. match goal with |- context [addNodes jd je stack ?c ?t2] => enough (addNodes jd je stack c t2 = None) as -> by done end.
    eapply IH; [apply (alloc_last (child_node jd je _ _ _ _ _) (modify p _ t1))|apply in_job_child; by rewrite (keyed _ _ Ec)|].
    destruct (child_node_type (def (rendered (def (task n)))) (parent_state p t1) (exec_task je (TaskType n)) code child) as [-> _].
    by rewrite (keyed _ _ Ec).
  - destruct (GetTask jd target'); [|by apply IHl]. cbv zeta. unfold alloc at 1. destruct (addNodes _ _ _ _ _); [by apply IHl|done].
Qed.
End Trees.

(** ** The tree that is built *)
Section Expansion.
Context `{RangeOrder} `{Rendering} (jd : JobDefinition) (je : option JobExec.JobExecution).
(** Tasks are found under their types, rendering keeps the type, and no forked job
    has the name of a task. *)
Record regular : Prop := {
  rg_keyed : forall k td, GetTask jd k = Some td -> Task.TaskType td = k;
  rg_type : forall ty d, GetDynamicTask jd je ty = Some d -> Task.TaskType (def d) = ty;
  rg_unnamed : GetTask jd "" = None;
  rg_forks : forall td, GetTask jd (Task.TaskType td) = Some td -> GetTask jd (fst (fork_options td)) = None;
  rg_dynamic : forall ty d, GetDynamicTask jd je ty = Some d -> GetTask jd (ForkJobType d) = None
}.
Context (reg : regular).
Abbreviation targets := (targets jd je).
Abbreviation in_job := (in_job jd).

Definition leaf (h : list Node) (j : nat) : Prop :=
  exists m, h !! j = Some m /\ children m = [] /\ GetTask jd (TaskType m) = None /\ Task.Method (def (task m)) = ForkedJob.
(** The node with the whole tree below, which has [k] levels. *)
Fixpoint expanded (k : nat) (h : list Node) (p : nat) (ty : string) : Prop :=
  match k with
  | O => False
  | S k =>
      exists n jobs cs, h !! p = Some n /\ TaskType n = ty /\ children n = jobs ++ cs /\
        Forall (fun j => (p < j)%nat /\ leaf h j) jobs /\ Forall2 (fun c target => (p < c)%nat /\ expanded k h c target) cs (targets ty)
  end.
Lemma leaf_frame h h' j : h' !! j = h !! j -> leaf h j -> leaf h' j.
Proof. intros E (m & Hm & Hr). exists m. by rewrite E. Qed.
Lemma expanded_frame k h h' p ty :
  (forall q, (p <= q)%nat -> (q < List.length h)%nat -> h' !! q = h !! q) -> expanded k h p ty -> expanded k h' p ty.
Proof.
  revert p ty. induction k as [|k IH]; intros p ty Hq; [done|]. intros (n & jobs & cs & Hp & Hty & Hch & Hj & Hc). exists n, jobs, cs.
  split_and!; [|done..| |].
  - rewrite Hq; [done|lia|]. by eapply lookup_lt_Some.
  - eapply Forall_impl; [exact Hj|]. intros j [Hlt Hl]. split; [done|]. eapply leaf_frame; [|exact Hl]. destruct Hl as (m & Hm & _).
    apply Hq; [lia|]. by eapply lookup_lt_Some.
  - eapply Forall2_impl; [exact Hc|]. intros c tg [Hlt He]. split; [done|]. apply IH; [|done]. intros q Hle Hl. apply Hq; [lia|done].
Qed.

(** What holds of a node before the loop over its targets, and in it. *)
Record grown (p : nat) (ty : string) (old t : Nodes) (m : Node) : Prop := {
  gr_node : heap t !! p = Some m;
  gr_type : TaskType m = ty;
  gr_frame : forall q, (q < p)%nat -> heap t !! q = heap old !! q;
  gr_foreign : Forall (fun n => GetTask jd (ForkJobType (task n)) = None) (heap t)
}.
Lemma grown_modify p ty old t m f :
  TaskType (f m) = ty -> GetTask jd (ForkJobType (task (f m))) = None -> grown p ty old t m -> grown p ty old (modify p f t) (f m).
Proof.
  intros Hty Hf [Hn Ht Hq Ho]. split; cbn.
  - by rewrite list_lookup_alter_eq, Hn.
  - done.
  - intros q Hlt. rewrite list_lookup_alter_ne by lia. by apply Hq.
  - apply Forall_lookup. intros i x Hi. destruct (decide (i = p)) as [->|Hne].
    + rewrite list_lookup_alter_eq, Hn in Hi. by injection Hi as <-.
    + rewrite list_lookup_alter_ne in Hi by done. by eapply Forall_lookup in Ho.
Qed.
Lemma grown_enter p ty old t m k q : grown p ty old t m -> grown p ty old (enter k q t) m.
Proof. by intros [Hn Ht Hq Ho]. Qed.
Lemma grown_alloc p ty old t m n : GetTask jd (ForkJobType (task n)) = None -> grown p ty old t m -> grown p ty old (alloc n t).2 m.
Proof.
  intros Hf [Hn Ht Hq Ho]. pose proof (lookup_lt_Some _ _ _ Hn) as Hlt. split; cbn; [|done| |].
  - by rewrite lookup_app_l.
  - intros q Hqp. rewrite lookup_app_l by lia. by apply Hq.
  - apply Forall_app. split; [done|]. by constructor.
Qed.
Lemma grown_fork p ty old t m : grown p ty old t m -> GetTask jd (ForkJobType (task m)) = None.
Proof. intros [Hn _ _ Ho]. by eapply Forall_lookup in Ho. Qed.

(** A forked job is a leaf above the node. *)
Definition has_jobs (p : nat) (t : Nodes) (m : Node) : Prop := Forall (fun j => (p < j)%nat /\ leaf (heap t) j) (children m).
Lemma add_forked_grown p ty old t m jobType f a :
  (forall n, task (f n) = task n /\ children (f n) = children n) -> GetTask jd jobType = None ->
  grown p ty old t m -> has_jobs p t m ->
  exists m', grown p ty old (add_forked p jobType f a t) m' /\ has_jobs p (add_forked p jobType f a t) m' /\ task m' = task m.
Proof.
  intros Hf Hj Hg Hjobs. unfold add_forked. cbv zeta. match goal with |- context [f ?x] => set (n := f x) end. cbn [alloc].
  pose proof (lookup_lt_Some _ _ _ (gr_node _ _ _ _ _ Hg)) as Hlt. set (c := List.length (heap t)) in *.
  assert (grown p ty old (mkNodes (heap t ++ [n]) (table t)) m) as Hg1.
  { apply (grown_alloc p ty old t m n); [|done]. subst n. destruct (Hf (mkNode (forked_task jobType) "" "gray" false a (State.DotColor (parent_state p t)) false false [])) as [-> _]. apply (rg_unnamed reg). }
  exists (add_child c m). split_and!; [| |done].
  - apply grown_enter, grown_modify; [by destruct Hg|exact (grown_fork p ty old t m Hg)|done].
  - unfold has_jobs. cbn. apply Forall_app. split.
    + eapply Forall_impl; [exact Hjobs|]. intros j [Hpj Hl]. split; [done|]. eapply leaf_frame; [|exact Hl]. destruct Hl as (x & Hx & _).
      rewrite list_lookup_alter_ne by lia. apply lookup_app_l. by eapply lookup_lt_Some.
    + constructor; [|done]. split; [lia|]. exists n. rewrite list_lookup_alter_ne by lia. unfold c. rewrite lookup_app_r, Nat.sub_diag by lia. split; [done|].
      subst n. destruct (Hf (mkNode (forked_task jobType) "" "gray" false a (State.DotColor (parent_state p t)) false false [])) as [E1 E2].
      unfold TaskType. by rewrite E1, E2.
Qed.
Lemma add_awaited_grown p ty old l e t m :
  grown p ty old t m -> has_jobs p t m ->
  exists m', grown p ty old (add_awaited p l e t) m' /\ has_jobs p (add_awaited p l e t) m' /\ task m' = task m.
Proof.
  revert t m. induction l as [|c l IH]; intros t m Hg Hj; cbn [add_awaited]; [by exists m|].
  destruct (table t !! c ≫= _) as [forked|] eqn:Ef; [|by apply IH].
  destruct (add_forked_grown p ty old t m (ForkJobType (task forked)) (awaited_node e) "await") as (m1 & Hg1 & Hj1 & E1); [..|done|done|].
  - intros n. by destruct e.
  - apply bind_Some in Ef as (q & _ & Hq). pose proof (gr_foreign _ _ _ _ _ Hg) as Ho. by eapply Forall_lookup in Ho.
  - destruct (IH _ _ Hg1 Hj1) as (m2 & Hg2 & Hj2 & E2). exists m2. split_and!; [done..|]. congruence.
Qed.
Lemma add_jobs_grown p ty old task_ e t m :
  GetTask jd (ForkJobType task_) = None -> grown p ty old t m -> has_jobs p t m ->
  exists m', grown p ty old (add_jobs p task_ e t) m' /\ has_jobs p (add_jobs p task_ e t) m' /\ task m' = task m.
Proof.
  intros Hf Hg Hj. unfold add_jobs. destruct (_ == _); [by apply add_forked_grown|]. destruct (_ == _); [by apply add_awaited_grown|by exists m].
Qed.
Lemma prepare_grown p n t :
  heap t !! p = Some n -> in_job n -> children n = [] -> Forall (fun n => GetTask jd (ForkJobType (task n)) = None) (heap t) ->
  exists m, grown p (TaskType n) t (prepare jd je p n t).2 m /\ has_jobs p (prepare jd je p n t).2 m.
Proof.
  intros Hp [Hjob Hd] Hc Ho. unfold prepare. cbv zeta.
  assert (grown p (TaskType n) t (modify p (set_state (getTaskStateStateColor je (TaskType n))) (enter (TaskType n) p t))
    (set_state (getTaskStateStateColor je (TaskType n)) n)) as Hg.
  { apply grown_modify; [done|exact (Forall_lookup_1 _ _ _ _ Ho Hp)|]. apply grown_enter. by split. }
  destruct (GetDynamicTask jd je (TaskType n)) as [d|] eqn:Ed; cbn [snd].
  - destruct (add_jobs_grown p (TaskType n) t d (exec_task je (TaskType n))
      (modify p (set_task d) (modify p (set_state (getTaskStateStateColor je (TaskType n))) (enter (TaskType n) p t)))
      (set_task d (set_state (getTaskStateStateColor je (TaskType n)) n))) as (m & Hm & Hj & _); [by eapply rg_dynamic| | |by exists m].
    + apply grown_modify; [|by eapply rg_dynamic|done]. by eapply rg_type.
    + unfold has_jobs. cbn. by rewrite Hc.
  - destruct (add_jobs_grown p (TaskType n) t (task n) (exec_task je (TaskType n)) _ _ (Forall_lookup_1 _ _ _ _ Ho Hp) Hg) as (m & Hm & Hj & _); [|by exists m].
    unfold has_jobs. cbn. by rewrite Hc.
Qed.

(** The loop appends an expanded child for every target. *)
Definition grows (k : nat) (call : nat -> Nodes -> option Nodes) : Prop :=
  forall c t t' n, call c t = Some t' -> List.length (heap t) = S c -> heap t !! c = Some n -> in_job n -> children n = [] ->
    Forall (fun n => GetTask jd (ForkJobType (task n)) = None) (heap t) ->
    expanded k (heap t') c (TaskType n) /\ (List.length (heap t) <= List.length (heap t'))%nat /\
    (forall q, (q < c)%nat -> heap t' !! q = heap t !! q) /\ Forall (fun n => GetTask jd (ForkJobType (task n)) = None) (heap t').
Lemma mark_parent_keeps td e n : task (mark_parent jd td e n) = task n /\ children (mark_parent jd td e n) = children n.
Proof. by destruct e. Qed.
Lemma add_targets_grown k call p ty old td e l t t' m :
  grows k call -> add_targets jd je call p td e l t = Some t' -> grown p ty old t m ->
  exists m' cs, grown p ty old t' m' /\ children m' = children m ++ cs /\
    Forall2 (fun c target => (p < c)%nat /\ expanded k (heap t') c target) cs (targets_of jd l) /\
    (List.length (heap t) <= List.length (heap t'))%nat /\
    (forall q, (p < q)%nat -> (q < List.length (heap t))%nat -> heap t' !! q = heap t !! q).
Proof.
  intros Hcall. revert t m. induction l as [|[code target] l IH]; intros t m; cbn [add_targets].
  { intros [= <-] Hg. exists m, []. rewrite app_nil_r. by split_and!. }
  unfold targets_of. cbn [omap list_omap snd]. fold (targets_of jd l). destruct (GetTask jd target) as [child|] eqn:Ec; [|by apply IH].
  cbv zeta. unfold alloc at 1. match goal with |- context [call ?c ?t1] => set (t1' := t1); set (c' := c); destruct (call c' t1') as [t2|] eqn:E2; [|done] end.
  intros Hrest Hg. pose proof (lookup_lt_Some _ _ _ (gr_node _ _ _ _ _ Hg)) as Hlt. pose proof (rg_keyed reg _ _ Ec) as Ek.
  set (n := child_node jd je td (parent_state p t) e code child) in *. destruct (child_node_type jd je td (parent_state p t) e code child) as [Ety Ech]. fold n in Ety, Ech.
  assert (in_job n) as Hin by (apply in_job_child; by rewrite Ek).
  assert (c' = List.length (heap t)) as Ec' by (subst c'; cbn; by rewrite length_alter).
  destruct (mark_parent_keeps td e m) as [Em1 Em2].
  assert (grown p ty old t1' (mark_parent jd td e m)) as Hg1.
  { apply (grown_alloc p ty old (modify p (mark_parent jd td e) t)); [destruct Hin as [HG ->]; cbn; by apply (rg_forks reg)|].
    apply grown_modify; [unfold TaskType; rewrite Em1; apply Hg|rewrite Em1; by apply (grown_fork p ty old t)|done]. }
  destruct (Hcall c' t1' t2 n E2) as (Hx & Hlen & Hframe & Hfor); [by subst t1' c'; cbn; rewrite length_app, length_alter; cbn; lia|
    apply (alloc_last n (modify p (mark_parent jd td e) t))|done|done|apply Hg1|].
  assert (grown p ty old (modify p (add_child c') t2) (add_child c' (mark_parent jd td e m))) as Hg2.
  { apply grown_modify; [unfold TaskType; cbn; rewrite Em1; apply Hg|cbn; rewrite Em1; by apply (grown_fork p ty old t)|]. destruct Hg1 as [G1 G2 G3 G4]. split; [|done| |done].
    - rewrite Hframe by lia. done.
    - intros q Hq. rewrite Hframe by lia. by apply G3. }
  destruct (IH _ _ Hrest Hg2) as (m' & cs & Hg' & Hch & Hcs & Hlen' & Hold). exists m', (c' :: cs). cbn in Hch, Hlen', Hold. rewrite length_alter in Hlen', Hold.
  assert (List.length (heap t1') = S c') as Hl1 by (subst t1'; cbn; rewrite length_app, length_alter; cbn; lia).
  split_and!; [done| | | |].
  - rewrite Hch, Em2. by rewrite <- app_assoc.
  - constructor; [|done]. split; [lia|]. rewrite Ety, Ek in Hx. eapply expanded_frame; [|exact Hx]. intros q Hq Hq2. rewrite Hold by lia.
    by rewrite list_lookup_alter_ne by lia.
  - lia.
  - intros q Hq Hq2. rewrite Hold by lia. rewrite list_lookup_alter_ne by lia. rewrite Hframe by lia. subst t1'. cbn. rewrite lookup_app_l by (rewrite length_alter; lia).
    by rewrite list_lookup_alter_ne by lia.
Qed.
Lemma addNodes_grows stack : grows stack (addNodes jd je stack).
Proof.
  induction stack as [|stack IH]; intros p t t' n; [done|]. cbn [addNodes]. intros Hrun Hlen Hp Hin Hc Hfor. rewrite Hp in Hrun.
  pose proof (prepare_task jd je p n t Hin) as Et. destruct (prepare_grown p n t Hp Hin Hc Hfor) as (m & Hg & Hj).
  destruct (prepare jd je p n t) as [task_ t1]. cbn [fst snd] in *. subst task_.
  destruct (add_targets_grown stack _ p (TaskType n) t _ _ _ t1 t' m IH Hrun Hg) as (m' & cs & Hg' & Hch & Hcs & Hl & Hold).
  split_and!; [| |apply Hg'|apply Hg'].
  - exists m', (children m), cs. split_and!; [apply Hg'|apply Hg'|done| |].
    + eapply Forall_impl; [exact Hj|]. intros j [Hpj Hlf]. split; [done|]. eapply leaf_frame; [|exact Hlf]. destruct Hlf as (x & Hx & _). apply Hold; [done|].
      by eapply lookup_lt_Some.
    + unfold DiagramSpec.targets. destruct Hin as [-> _]. exact Hcs.
  - pose proof (lookup_lt_Some _ _ _ (gr_node _ _ _ _ _ Hg)). lia.
Qed.
End Expansion.

(** ** The lines that are written *)
Section Lines.
Context `{RangeOrder} `{Rendering} (jd : JobDefinition) (je : option JobExec.JobExecution) (reg : regular jd je).
Context (plain : forall ty td, GetTask jd ty = Some td -> string_mem ":"%char ty = false).
Abbreviation targets := (targets jd je).
Abbreviation leaf := (leaf jd).
Abbreviation expanded := (expanded jd je).

(** The pairs of nodes a text is made of. *)
Definition draw (a b : Node) (l : list (Node * Node)) : list (Node * Node) := l ++ [(a, b)].
Definition pair_of (e : Node * Node) : string * string := (TaskType (fst e), TaskType (snd e)).
Abbreviation W := (gset string * list (Node * Node))%type.
Definition pairs (w : W) : list (string * string) := map pair_of (snd w).
Definition leads (a b : string) : Prop := b ∈ targets a.

Lemma write_task_map {B} (f : Node -> Node -> B) depth h p d l :
  write_task (fun a b buf => buf ++ [f a b]) depth h p (d, map (fun e => f (fst e) (snd e)) l) =
  ((write_task draw depth h p (d, l)).1, map (fun e => f (fst e) (snd e)) (write_task draw depth h p (d, l)).2).
Proof.
  revert p d l. induction depth as [|depth IH]; intros p d l; [done|]. cbn. destruct (h !! p) as [n|]; [|done].
  revert d l. induction (children n) as [|c cs IHc]; intros d l; [done|]. cbn. destruct (h !! c) as [m|]; [|done].
  destruct (bool_decide _); [done|]. assert (map (fun e => f e.1 e.2) l ++ [f n m] = map (fun e => f e.1 e.2) (draw n m l)) as -> by (unfold draw; by rewrite map_app).
  rewrite IH. destruct (write_task draw depth h c _) as [d' l']. apply IHc.
Qed.

(** The keys that were written are those of the pairs. *)
Record coherent (w : W) : Prop := {
  co_keys : forall a b, string_mem ":"%char a = false -> (toKey a b ∈ fst w <-> (a, b) ∈ pairs w);
  co_plain : forall e, e ∈ snd w -> string_mem ":"%char (TaskType (fst e)) = false;
  co_once : NoDup (pairs w)
}.
Lemma coherent_draw n m w :
  string_mem ":"%char (TaskType n) = false -> toKey (TaskType n) (TaskType m) ∉ fst w -> coherent w ->
  coherent ({[toKey (TaskType n) (TaskType m)]} ∪ fst w, draw n m (snd w)).
Proof.
  intros Hp Hnew [Hk Hpl Ho]. unfold draw, pairs. split; cbn; rewrite ?map_app; cbn.
  - intros a b Ha. rewrite elem_of_union, elem_of_singleton, elem_of_app, (Hk a b Ha), list_elem_of_singleton. unfold toKey, pair_of, pairs. cbn.
    split; [intros [E|?]; [right|by left]|intros [?|[= -> ->]]; [by right|by left]].
    apply (string_split_inj ":"%char) in E as [-> ->]; done.
  - intros e [He| ->%list_elem_of_singleton]%elem_of_app; [by apply Hpl|done].
  - apply NoDup_app. split_and!; [done| |apply NoDup_singleton]. intros x Hx ->%list_elem_of_singleton. apply Hnew. by apply Hk.
Qed.

Context (rank : string -> nat) (fin : string -> Prop) (down : forall ty target, fin ty -> leads ty target -> fin target /\ (rank target < rank ty)%nat).

(** Below a pair of a smaller rank everything was written. *)
Definition closed (ty : string) (w : W) : Prop := forall a b, (a, b) ∈ pairs w -> (rank b < rank ty)%nat -> forall c, leads b c -> (b, c) ∈ pairs w.
(** What writing the tree of a task adds. *)
Record written (ty : string) (w w' : W) : Prop := {
  wr_coherent : coherent w';
  wr_more : forall e, e ∈ snd w -> e ∈ snd w';
  wr_closed : closed ty w';
  wr_new : forall e, e ∈ snd w' -> e ∈ snd w \/
    ((rank (TaskType (snd e)) < rank ty)%nat \/ targets (TaskType (snd e)) = []) /\ rtc leads ty (TaskType (fst e)) /\
    (leads (TaskType (fst e)) (TaskType (snd e)) \/ Task.Method (def (task (snd e))) = ForkedJob)
}.
Lemma pairs_more (w w' : W) x : (forall e, e ∈ snd w -> e ∈ snd w') -> x ∈ pairs w -> x ∈ pairs w'.
Proof. intros Hm (e & -> & He)%list_elem_of_fmap. apply list_elem_of_fmap. exists e. auto. Qed.
Lemma written_refl ty w : coherent w -> closed ty w -> written ty w w.
Proof. intros Hc Hcl. split; auto. Qed.
Lemma written_trans ty w w1 w2 : written ty w w1 -> written ty w1 w2 -> written ty w w2.
Proof.
  intros [A1 A2 A3 A4] [B1 B2 B3 B4]. split; [done|auto|done|]. intros e He. destruct (B4 e He) as [H1|H1]; [|by right]. by apply A4.
Qed.
Lemma leaf_writes {B} (line : Node -> Node -> B -> B) depth h j w : leaf h j -> write_task line depth h j w = w.
Proof. intros (m & Hm & Hc & _). destruct depth; [done|]. cbn. by rewrite Hm, Hc. Qed.
Lemma leaf_no_targets h j m : leaf h j -> h !! j = Some m -> targets (TaskType m) = [] /\ Task.Method (def (task m)) = ForkedJob.
Proof. intros (x & Hx & _ & Ht & Hm) E. rewrite E in Hx. injection Hx as <-. split; [|done]. unfold DiagramSpec.targets. by rewrite Ht. Qed.

(** One child: its line, then the tree below. *)
Lemma draw_leaf ty n m w :
  TaskType n = ty -> string_mem ":"%char ty = false -> targets (TaskType m) = [] -> Task.Method (def (task m)) = ForkedJob ->
  toKey (TaskType n) (TaskType m) ∉ fst w -> coherent w -> closed ty w -> written ty w ({[toKey (TaskType n) (TaskType m)]} ∪ fst w, draw n m (snd w)).
Proof.
  intros Hn Hp Ht Hm Hnew Hc Hcl. split.
  - apply coherent_draw; [by rewrite Hn|done..].
  - intros e He. cbn. apply elem_of_app. by left.
  - intros a b Hab Hlt c Hl. unfold pairs, draw in Hab |- *. cbn in *. rewrite map_app in *. apply elem_of_app in Hab as [Hab|[= -> ->]%list_elem_of_singleton].
    + apply elem_of_app. left. by apply (Hcl a b).
    + unfold leads in Hl. rewrite Ht in Hl. by apply elem_of_nil in Hl.
  - intros e [He| ->%list_elem_of_singleton]%elem_of_app; [by left|right]. cbn. split; [by right|]. rewrite Hn. split; [done|by right].
Qed.
Lemma draw_child ty n m w w2 :
  TaskType n = ty -> fin ty -> string_mem ":"%char ty = false -> leads ty (TaskType m) ->
  toKey (TaskType n) (TaskType m) ∉ fst w -> coherent w -> closed ty w ->
  (forall w1, coherent w1 -> closed (TaskType m) w1 -> written (TaskType m) w1 (w2 w1) /\ forall c, leads (TaskType m) c -> (TaskType m, c) ∈ pairs (w2 w1)) ->
  written ty w (w2 ({[toKey (TaskType n) (TaskType m)]} ∪ fst w, draw n m (snd w))).
Proof.
  intros Hn Hf Hp Hl Hnew Hc Hcl Hcall. destruct (down ty (TaskType m) Hf Hl) as [Hfm Hlt]. set (w1 := (_ ∪ fst w, draw n m (snd w))).
  assert (forall e, e ∈ snd w -> e ∈ snd w1) as Hm1 by (intros e He; cbn; apply elem_of_app; by left).
  assert (forall x, x ∈ pairs w1 -> x ∈ pairs w \/ x = (ty, TaskType m)) as Hp1.
  { intros x (e & -> & [He| ->%list_elem_of_singleton]%elem_of_app)%list_elem_of_fmap; [left; by apply list_elem_of_fmap_2|right]. cbn. by rewrite <- Hn. }
  destruct (Hcall w1) as [[C1 C2 C3 C4] Hedges].
  { apply coherent_draw; [by rewrite Hn|done..]. }
  { intros a b Hab Hr c Hbc. destruct (Hp1 _ Hab) as [Hab'|[= -> ->]]; [|lia]. apply (pairs_more w); [done|]. apply (Hcl a b); [done|lia|done]. }
  assert (forall e, e ∈ snd w -> e ∈ snd (w2 w1)) as Hmore by auto.
  split; [done|done| |].
  - intros a b (e & Ee & He)%list_elem_of_fmap Hr c Hbc. unfold pair_of in Ee. injection Ee as -> ->. destruct (C4 e He) as [He1|([Hs|Hs] & _)].
    + destruct (Hp1 (pair_of e)) as [Hin|[= E1 E2]]; [by apply list_elem_of_fmap_2| |].
      * apply (pairs_more w); [done|]. by apply (Hcl (TaskType (fst e)) (TaskType (snd e))).
      * rewrite E2 in *. by apply Hedges.
    + apply (C3 (TaskType (fst e)) (TaskType (snd e))); [by apply (list_elem_of_fmap_2 pair_of _ e)|done..].
    + unfold leads in Hbc. rewrite Hs in Hbc. by apply elem_of_nil in Hbc.
  - intros e He. destruct (C4 e He) as [He1|([Hs|Hs] & Hr & Hk)].
    + cbn in He1. apply elem_of_app in He1 as [He1| ->%list_elem_of_singleton]; [by left|right]. cbn. rewrite Hn. split_and!; [by left|done|by left].
    + right. split_and!; [left; lia|by eapply rtc_l|done].
    + right. split_and!; [by right|by eapply rtc_l|done].
Qed.

(** The children of a node. *)
Lemma write_children_spec depth h ty n l w :
  TaskType n = ty -> fin ty -> string_mem ":"%char ty = false -> coherent w -> closed ty w ->
  (forall c, c ∈ l -> leaf h c \/ exists m, h !! c = Some m /\ leads ty (TaskType m) /\
     forall w1, coherent w1 -> closed (TaskType m) w1 ->
       written (TaskType m) w1 (write_task draw depth h c w1) /\ forall x, leads (TaskType m) x -> (TaskType m, x) ∈ pairs (write_task draw depth h c w1)) ->
  let w' := write_children draw (write_task draw depth h) h n l w in
  written ty w w' /\ forall c m, c ∈ l -> h !! c = Some m -> (ty, TaskType m) ∈ pairs w'.
Proof.
  intros Hn Hf Hp. revert w. induction l as [|c l IH]; intros w Hc Hcl Hch; [split; [by apply written_refl|by intros ? ? ?%elem_of_nil]|].
  cbn [write_children]. assert (exists m, h !! c = Some m) as [m Em] by (destruct (Hch c) as [(m & ? & _)|(m & ? & _)]; [by left|by exists m..]). rewrite Em. cbv zeta.
  assert (forall w1, written ty w w1 -> (ty, TaskType m) ∈ pairs w1 -> let w' := write_children draw (write_task draw depth h) h n l w1 in
    written ty w w' /\ forall c0 m0, c0 ∈ c :: l -> h !! c0 = Some m0 -> (ty, TaskType m0) ∈ pairs w') as Hrest.
  { intros w1 Hw1 Hin. destruct (IH w1) as [Hw2 Hall]; [apply Hw1|apply Hw1|intros x Hx; apply Hch; by right|]. split; [by eapply written_trans|].
    intros c0 m0 [->|Hc0]%elem_of_cons E0; [|by apply (Hall c0)]. rewrite Em in E0. injection E0 as <-. apply (pairs_more w1); [apply Hw2|done]. }
  destruct (bool_decide_reflect (toKey (TaskType n) (TaskType m) ∈ fst w)) as [Hold|Hnew].
  { apply Hrest; [by apply written_refl|]. apply (co_keys w Hc); [done|]. by rewrite <- Hn. }
  assert (pair_of (n, m) ∈ pairs (fst w, draw n m (snd w))) as Hdrawn by (apply list_elem_of_fmap_2; cbn; apply elem_of_app; right; by apply list_elem_of_singleton).
  destruct (Hch c) as [Hlf|(m' & Em' & Hl & Hcall)]; [by left| |].
  - rewrite (leaf_writes _ _ _ _ _ Hlf). destruct (leaf_no_targets h c m Hlf Em) as [Ht Hm]. apply Hrest; [by apply draw_leaf|]. rewrite <- Hn. exact Hdrawn.
  - rewrite Em in Em'. injection Em' as <-. pose proof (draw_child ty n m w (write_task draw depth h c) Hn Hf Hp Hl Hnew Hc Hcl Hcall) as Hw. apply Hrest; [done|].
    destruct (down ty _ Hf Hl) as [_ Hlt]. destruct (Hcall ({[toKey (TaskType n) (TaskType m)]} ∪ fst w, draw n m (snd w))) as [Hw' _].
    { apply coherent_draw; [by rewrite Hn|done..]. }
    { intros a b (e & Ee & [He| ->%list_elem_of_singleton]%elem_of_app)%list_elem_of_fmap Hr x Hx; unfold pair_of in Ee; injection Ee as -> ->; [|cbn in Hr; lia].
      apply (pairs_more w); [intros ? ?; cbn; apply elem_of_app; by left|]. apply (Hcl (TaskType (fst e)) (TaskType (snd e))); [by apply (list_elem_of_fmap_2 pair_of _ e)|lia|done]. }
    eapply pairs_more; [apply Hw'|]. rewrite <- Hn. exact Hdrawn.
Qed.
Lemma write_task_spec k depth h p ty w :
  expanded k h p ty -> is_Some (GetTask jd ty) -> fin ty -> (List.length h - p < depth)%nat -> coherent w -> closed ty w ->
  written ty w (write_task draw depth h p w) /\ forall c, leads ty c -> (ty, c) ∈ pairs (write_task draw depth h p w).
Proof.
  revert depth p ty w. induction k as [|k IH]; intros depth p ty w; [done|]. intros (n & jobs & cs & Hp & Hty & Hch & Hj & Hcs) [td Htd] Hf Hd Hc Hcl.
  destruct depth as [|depth]; [lia|]. cbn [write_task]. rewrite Hp. pose proof (lookup_lt_Some _ _ _ Hp) as Hlt.
  assert (forall c target, (p < c)%nat /\ expanded k h c target -> exists m, h !! c = Some m /\ TaskType m = target) as Hnode.
  { intros c tg [_ He]. destruct k; [done|]. destruct He as (m & ? & ? & Hm & Em & _). by exists m. }
  destruct (write_children_spec depth h ty n (children n) w) as [Hw Hall]; [done|done|by eapply plain|done|done| |].
  - intros c Hin. rewrite Hch in Hin. apply elem_of_app in Hin as [Hin|Hin]; [left|right].
    + rewrite Forall_forall in Hj. apply Hj. done.
    + apply list_elem_of_lookup in Hin as [i Hi]. destruct (Forall2_lookup_l _ _ _ _ _ Hcs Hi) as (tg & Htg & Hpc & He).
      destruct (Hnode c tg) as (m & Em & <-); [done|]. assert (leads ty (TaskType m)) as Hl by (by eapply list_elem_of_lookup_2).
      exists m. split_and!; [done..|]. intros w1 Hc1 Hcl1. apply IH; [done| | | |done|done].
      * apply elem_targets in Hl as (? & ? & _ & _ & Hs). exact Hs.
      * by apply (down ty).
      * lia.
  - split; [done|]. intros x Hx. apply list_elem_of_lookup in Hx as [i Hi]. destruct (Forall2_lookup_r _ _ _ _ _ Hcs Hi) as (c & Hc' & Hpc & He).
    destruct (Hnode c x) as (m & Em & <-); [done|]. apply (Hall c); [|done]. rewrite Hch. apply elem_of_app. right. by eapply list_elem_of_lookup_2.
Qed.
End Lines.

(** ** Drawings of validated jobs *)
Section Height.
Context `{RangeOrder} `{Rendering} (jd : JobDefinition) (je : option JobExec.JobExecution).
Abbreviation leads := (leads jd je).
Fixpoint shallow (k : nat) (ty : string) : Prop := match k with O => False | S k => forall c, leads ty c -> shallow k c end.
Fixpoint height (k : nat) (ty : string) : nat := match k with O => O | S k => S (list_max (map (height k) (targets jd je ty))) end.
Lemma expanded_shallow k h p ty : expanded jd je k h p ty -> shallow k ty.
Proof.
  revert p ty. induction k as [|k IH]; intros p ty; [done|]. intros (n & jobs & cs & _ & _ & _ & _ & Hcs) c Hc.
  apply list_elem_of_lookup in Hc as [i Hi]. destruct (Forall2_lookup_r _ _ _ _ _ Hcs Hi) as (q & _ & _ & He). by eapply IH.
Qed.
Lemma shallow_more k k' ty : shallow k ty -> (k <= k')%nat -> shallow k' ty.
Proof.
  revert k' ty. induction k as [|k IH]; intros [|k'] ty; cbn; [done..|lia|]. intros Hs Hle c Hc. apply IH; [by apply Hs|lia].
Qed.
Lemma height_stable k k' ty : shallow k ty -> (k <= k')%nat -> height k' ty = height k ty.
Proof.
  revert k' ty. induction k as [|k IH]; intros [|k'] ty; cbn; [done..|lia|]. intros Hs Hle. do 2 f_equal. apply map_ext_in. intros c Hc.
  apply IH; [by apply Hs, list_elem_of_In|lia].
Qed.
Lemma height_down k ty target : shallow k ty -> leads ty target -> shallow k target /\ (height k target < height k ty)%nat.
Proof.
  destruct k as [|k]; [done|]. intros Hs Hl. pose proof (Hs target Hl) as Ht. split; [apply (shallow_more k); [done|lia]|]. rewrite (height_stable k (S k)) by (done || lia). cbn.
  apply Nat.lt_succ_r. pose proof (proj1 (list_max_le (map (height k) (targets jd je ty)) _) (le_n _)) as Hmax. rewrite List.Forall_forall in Hmax.
  apply Hmax, in_map. by apply list_elem_of_In.
Qed.
End Height.

Section Validated.
Context `{RangeOrder} `{Rendering} (cron : string -> option bool) (email : string -> bool) (je : option JobExec.JobExecution).
(** Rendering keeps the type of a task, and forked jobs have names of their own. *)
Record faithful_rendering (jd : JobDefinition) : Prop := {
  fr_type : forall ty d, GetDynamicTask jd je ty = Some d -> Task.TaskType (def d) = ty;
  fr_forks : forall td, td ∈ Job.Tasks jd -> GetTask jd (fst (fork_options td)) = None;
  fr_dynamic : forall ty d, GetDynamicTask jd je ty = Some d -> GetTask jd (ForkJobType d) = None
}.
Lemma validated_regular jd : validated jd -> faithful_rendering jd -> regular jd je.
Proof.
  intros Hv [F1 F2 F3]. split; [|done| | |done].
  - intros k td E. by apply (v_lookup jd Hv) in E as [_ E].
  - destruct (GetTask jd "") as [td|] eqn:E; [|done]. apply (v_lookup jd Hv) in E as [Hin E]. by destruct (v_named jd Hv td Hin).
  - intros td E. apply F2. by apply (v_lookup jd Hv) in E as [Hin _].
Qed.
Lemma first_in_job jd first : validated jd -> GetFirstTask jd = inr first -> GetTask jd (Task.TaskType first) = Some first.
Proof. intros Hv E. apply (v_lookup jd Hv). split; [|done]. apply (GetFirstTask_ok _ _ E (v_distinct jd Hv)). Qed.
Lemma root_in_job jd td : GetTask jd (Task.TaskType td) = Some td -> in_job jd (root_node je td).
Proof. done. Qed.
Lemma first_exists jd0 jd : Job.Validate cron email jd0 = Return jd -> exists first, GetFirstTask jd = inr first.
Proof. intros (? & first & _ & _ & E)%Validate_inv. by exists first. Qed.
Lemma buildTree_Drawn jd stack t :
  buildTree jd je stack = Drawn t -> exists first, GetFirstTask jd = inr first /\ addNodes jd je stack 0%nat (mkNodes [root_node je first] ∅) = Some t.
Proof.
  unfold buildTree. destruct (GetFirstTask jd) as [e|first]; [done|]. cbn [alloc no_nodes heap table List.length app].
  destruct (addNodes _ _ _ _ _) as [t'|] eqn:E; [|done]. intros [= ->]. by exists first.
Qed.

(** The text of a drawing: its nodes, the line from the start, the lines between
    tasks, the line to the end; start and end are drawn for an execution, the end
    only when it has ended. *)
Definition dot_text (jd : JobDefinition) (nodes : list Node) (first : string) (lines : list string) : list string :=
  let color_ := Dot.endColor (executionStatus je) in
  let executed := match je with Some _ => true | None => false end in
  ["digraph {" +:+ newline] ++
  (if executed then Dot.start_shape :: (if is_terminal je then [Dot.end_shape color_] else []) else []) ++
  map (Dot.writeShape executed) nodes ++
  (if executed then [Dot.start_line first] else []) ++
  lines ++
  (match je with Some x => if is_terminal je then [Dot.end_line (last_type jd x) color_] else [] | None => [] end) ++
  ["}" +:+ newline].

Lemma GenerateDot_pieces jd stack pieces :
  Dot.GenerateDot stack jd je = Drawn pieces ->
  exists t, buildTree jd je stack = Drawn t /\ pieces = dot_text jd (table_nodes t) (root_type t) (Dot.task_lines t).
Proof.
  unfold Dot.GenerateDot. destruct (buildTree jd je stack) as [t| |]; [|done..]. intros [= <-]. by exists t.
Qed.
Lemma expanded_root jd k t ty : expanded jd je k (heap t) 0 ty -> root_type t = ty.
Proof. destruct k as [|k]; [done|]. intros (m & ? & ? & Hm & Ht & _). unfold root_type. by rewrite Hm. Qed.

(** C26: a drawing shows the steps between tasks.  When the text of a validated job
    is made, it consists of shapes of nodes, for an execution the lines from the
    start and to the end, and lines between tasks: one for each pair of tasks of
    which the first can be reached from the first task of the job and leads to the
    second by an exit code, each once, and lines from a reachable task to a forked
    job; there are no other lines.  This is for jobs whose task types have no
    colons, where rendering a task keeps its type and where no job that is forked
    has the name of a task of the job ([faithful_rendering]). *)
Theorem graph_shows_the_reachable_steps jd0 jd stack pieces :
  Dot.NewDot cron email jd0 = Return jd -> faithful_rendering jd -> (forall td, td ∈ Job.Tasks jd -> string_mem ":"%char (Task.TaskType td) = false) ->
  Dot.GenerateDot stack jd je = Drawn pieces ->
  exists first nodes edges,
    GetFirstTask jd = inr first /\
    pieces = dot_text jd nodes (Task.TaskType first) (map (fun e => Dot.writeTaskLine (fst e) (snd e)) edges) /\
    NoDup (map pair_of edges) /\
    (forall a b, rtc (leads jd je) (Task.TaskType first) a -> leads jd je a b -> (a, b) ∈ map pair_of edges) /\
    (forall e, e ∈ edges -> rtc (leads jd je) (Task.TaskType first) (TaskType (fst e)) /\
       (leads jd je (TaskType (fst e)) (TaskType (snd e)) \/ Task.Method (def (task (snd e))) = ForkedJob)).
Proof.
  intros Hv%Validate_validated Hfr Hplain (t & Eb & ->)%GenerateDot_pieces.
  destruct (buildTree_Drawn jd stack t Eb) as (first & Ef & Ea). pose proof (validated_regular jd Hv Hfr) as reg. pose proof (first_in_job jd first Hv Ef) as Hin.
  destruct (addNodes_grows jd je reg stack 0%nat _ _ (root_node je first) Ea) as (Hx & _ & _ & _); [done..| |].
  { constructor; [|done]. cbn. by apply (rg_forks _ _ reg). }
  change (TaskType (root_node je first)) with (Task.TaskType first) in Hx.
  assert (forall ty td, GetTask jd ty = Some td -> string_mem ":"%char ty = false) as Hpl.
  { intros ty td E. apply (v_lookup jd Hv) in E as [Htd <-]. by apply Hplain. }
  destruct (write_task_spec jd je Hpl (height jd je stack) (shallow jd je stack) (height_down jd je stack) stack
    (S (List.length (heap t))) (heap t) 0%nat (Task.TaskType first) (∅, [])) as [[W1 W2 W3 W4] Hedges]; [done|by exists first|by eapply expanded_shallow|lia| | |].
  { split; [|by intros ? ?%elem_of_nil|constructor]. intros a b _. split; [by intros ?%elem_of_empty|by intros ?%elem_of_nil]. }
  { by intros a b ?%elem_of_nil. }
  set (w := write_task draw _ _ _ _) in *. exists first.
  exists (table_nodes t), (snd w). split_and!; [done| |apply W1| |].
  - rewrite (expanded_root _ _ _ _ Hx). f_equal. unfold Dot.task_lines, writeTask. by rewrite (write_task_map Dot.writeTaskLine _ _ _ ∅ []).
  - intros a b Hr Hab. destruct (decide (a = Task.TaskType first)) as [->|Hne]; [by apply Hedges|].
    assert (exists x, (x, a) ∈ pairs w /\ shallow jd je stack a /\ (height jd je stack a < height jd je stack (Task.TaskType first))%nat) as (x & Hxa & _ & Hlt).
    { clear Hab. revert a Hr Hne. refine (rtc_ind_r _ _ _ _); [done|]. intros a1 a2 H1 H2 IH _. destruct (decide (a1 = Task.TaskType first)) as [->|Hn1].
      - exists (Task.TaskType first). split; [by apply Hedges|]. apply height_down; [by eapply expanded_shallow|done].
      - destruct (IH Hn1) as (x & Hx1 & Hs & Hl). exists a1. split; [by apply (W3 x a1)|]. destruct (height_down jd je stack a1 a2 Hs H2) as [? ?]. split; [done|lia]. }
    by apply (W3 x a).
  - intros e He. destruct (W4 e He) as [?%elem_of_nil|(_ & Hr & Hk)]; done.
Qed.
Lemma add_missing_ends jd rank stack l t :
  validated jd -> descends jd je rank -> (forall td, td ∈ l -> td ∈ Job.Tasks jd /\ (rank (Task.TaskType td) < stack)%nat) ->
  is_Some (Mermaid.add_missing jd je stack l t).
Proof.
  intros Hv Hr. revert t. induction l as [|td l IH]; intros t Hl; [done|]. cbn [Mermaid.add_missing]. destruct (table t !! _); [apply IH; set_solver|].
  destruct (Hl td) as [Hin Hlt]; [by left|]. unfold alloc at 1, Mermaid.addNodes.
  destruct (addNodes_ends jd je (fun k x E => proj2 (proj1 (v_lookup jd Hv k x) E)) rank stack (List.length (heap t)) (mkNodes (heap t ++ [root_node je td]) (table t)) (root_node je td)) as [t' ->]; [done| | |done|].
  - apply (alloc_last (root_node je td) t).
  - apply root_in_job. by apply (v_lookup jd Hv).
  - apply IH. set_solver.
Qed.
(** A job whose tasks never lead back is drawn: when the exit codes come down
    in some ranking of the tasks, both texts of a validated job are made with as
    much stack as the highest rank. *)
Theorem acyclic_job_is_drawn jd0 jd rank stack :
  Dot.NewDot cron email jd0 = Return jd -> descends jd je rank -> (forall td, td ∈ Job.Tasks jd -> (rank (Task.TaskType td) < stack)%nat) ->
  (exists pieces, Dot.GenerateDot stack jd je = Drawn pieces) /\ exists pieces, Mermaid.GenerateMermaid stack jd je = Drawn pieces.
Proof.
  intros Hd Hr Hs. pose proof (Validate_validated _ _ _ _ Hd) as Hv. destruct (first_exists _ _ Hd) as [first Ef].
  assert (first ∈ Job.Tasks jd) as Hin by (apply (GetFirstTask_ok _ _ Ef (v_distinct jd Hv))).
  assert (exists t, buildTree jd je stack = Drawn t) as [t Et].
  { unfold buildTree. rewrite Ef. unfold alloc. destruct (addNodes_ends jd je (fun k x E => proj2 (proj1 (v_lookup jd Hv k x) E)) rank stack 0 (mkNodes [root_node je first] ∅) (root_node je first)) as [t E];
      [done..|apply root_in_job; by apply first_in_job|by apply Hs|]. exists t. cbn [no_nodes heap table app List.length]. by rewrite E. }
  split.
  - unfold Dot.GenerateDot. rewrite Et. eauto.
  - unfold Mermaid.GenerateMermaid, Mermaid.buildTree. rewrite Et. destruct (add_missing_ends jd rank stack (Job.Tasks jd) t) as [t' ->]; [done|done|auto|].
    cbv zeta. destruct (foldl _ _ _). eauto.
Qed.
(** Drawing a job with a cycle crashes.  When the first task of a validated job
    leads to tasks that lead to each other, neither text is made with any
    stack. *)
Theorem cyclic_job_overflows jd0 jd first c stack :
  Dot.NewDot cron email jd0 = Return jd -> GetFirstTask jd = inr first ->
  rtc (leads jd je) (Task.TaskType first) c -> tc (leads jd je) c c ->
  Dot.GenerateDot stack jd je = Overflow /\ Mermaid.GenerateMermaid stack jd je = Overflow.
Proof.
  intros Hv%Validate_validated Ef Hr Hc.
  assert (trap jd je (fun x => rtc (leads jd je) x c)) as Htrap.
  { intros x Hx. inversion Hx as [|? y ? Hs Hy]; subst; [|by exists y]. inversion Hc as [? ? Hs|? y ? Hs Hy]; subst; [by exists c|]. exists y. split; [done|]. by apply tc_rtc. }
  assert (buildTree jd je stack = Overflow) as E.
  { unfold buildTree. rewrite Ef. unfold alloc. cbn [no_nodes heap table app List.length].
    rewrite (addNodes_overflows jd je (fun k x E => proj2 (proj1 (v_lookup jd Hv k x) E)) _ stack 0 _ (root_node je first) Htrap); [done|done| |done].
    apply root_in_job. by apply first_in_job. }
  unfold Dot.GenerateDot, Mermaid.GenerateMermaid, Mermaid.buildTree. by rewrite E.
Qed.
End Validated.

(** ** Drawings *)
Module DiagramDemo.
Import JobDemo.
#[local] Instance sorted_range : RangeOrder := {| range _ m := map_to_list m; range_perm _ m := reflexivity _ |}.
#[local] Instance plain_rendering : Rendering := {| GetDynamicTask _ _ _ := None; fork_options _ := ("", []) |}.
Definition drawn_pipeline : JobDefinition := valid pipeline.
Definition pipeline_rank (ty : string) : nat := if ty == "build" then 2 else if ty == "test" then 1 else 0.
Lemma pipeline_descends : descends drawn_pipeline None pipeline_rank.
Proof.
  intros ty target (td & code & Hjob & Hc & _)%elem_targets. cbn in Hc. revert Hjob Hc.
  change (GetTask drawn_pipeline ty = Some td) with (lookupTasks drawn_pipeline !! ty = Some td).
  rewrite <- elem_of_map_to_list. intros Hin. assert (Forall (fun x => forall code target, OnExitCode (snd x) !! code = Some target ->
    (pipeline_rank target < pipeline_rank (fst x))%nat) (map_to_list (lookupTasks drawn_pipeline))) as Hall.
  - assert (Forall (fun x => Forall (fun y => (pipeline_rank (snd y) < pipeline_rank (fst x))%nat) (map_to_list (OnExitCode (snd x)))) (map_to_list (lookupTasks drawn_pipeline))) as Hall.
    + vm_compute. repeat constructor.
    + eapply Forall_impl; [exact Hall|]. intros x Hx c tg Htg%elem_of_map_to_list. rewrite Forall_forall in Hx. by apply (Hx (c, tg)).
  - rewrite Forall_forall in Hall. by apply (Hall (ty, td) Hin).
Qed.
Lemma acyclic_job_is_drawn_witness :
  (exists pieces, Dot.GenerateDot 3 drawn_pipeline None = Drawn pieces) /\ exists pieces, Mermaid.GenerateMermaid 3 drawn_pipeline None = Drawn pieces.
Proof.
  apply (acyclic_job_is_drawn cron email None pipeline drawn_pipeline pipeline_rank 3); [by vm_compute|apply pipeline_descends|].
  apply Forall_forall. vm_compute. repeat constructor.
Defined.
Lemma pipeline_faithful : faithful_rendering None drawn_pipeline.
Proof. split; [done| |done]. intros td _. by vm_compute. Qed.
Definition pipeline_pieces : list string := match Dot.GenerateDot 3 drawn_pipeline None with Drawn l => l | _ => [] end.
Lemma graph_shows_the_reachable_steps_witness :
  exists first nodes edges,
    GetFirstTask drawn_pipeline = inr first /\
    pipeline_pieces = dot_text None drawn_pipeline nodes (Task.TaskType first) (map (fun e => Dot.writeTaskLine (fst e) (snd e)) edges) /\
    NoDup (map pair_of edges) /\
    (forall a b, rtc (leads drawn_pipeline None) (Task.TaskType first) a -> leads drawn_pipeline None a b -> (a, b) ∈ map pair_of edges) /\
    (forall e, e ∈ edges -> rtc (leads drawn_pipeline None) (Task.TaskType first) (TaskType (fst e)) /\
       (leads drawn_pipeline None (TaskType (fst e)) (TaskType (snd e)) \/ Task.Method (def (Tree.task (snd e))) = ForkedJob)).
Proof.
  apply (graph_shows_the_reachable_steps cron email None pipeline drawn_pipeline 3 pipeline_pieces); [by vm_compute|apply pipeline_faithful| |by vm_compute].
  apply Forall_forall. vm_compute. repeat constructor.
Defined.

Definition first_of (jd : JobDefinition) : TaskDefinition := match GetFirstTask jd with inr t => t | inl _ => JobDemo.task "" "" "" end.
Lemma steps_of_cyclic : leads (valid cyclic) None "a" "b" /\ leads (valid cyclic) None "b" "c" /\ leads (valid cyclic) None "c" "b".
Proof.
  unfold leads. split_and!; apply elem_targets.
  - exists (default (JobDemo.task "" "" "") (GetTask (valid cyclic) "a")), State.COMPLETED. vm_compute. split_and!; [done..|by eexists].
  - exists b, State.COMPLETED. vm_compute. split_and!; [done..|by eexists].
  - exists c, State.COMPLETED. vm_compute. split_and!; [done..|by eexists].
Qed.
Lemma cyclic_job_overflows_witness :
  Dot.GenerateDot 1000 (valid cyclic) None = Overflow /\ Mermaid.GenerateMermaid 1000 (valid cyclic) None = Overflow.
Proof.
  destruct steps_of_cyclic as (H1 & H2 & H3).
  apply (cyclic_job_overflows cron email None cyclic (valid cyclic) (first_of (valid cyclic)) "b" 1000); [by vm_compute..| |].
  - change (Task.TaskType (first_of (valid cyclic))) with "a". exact (rtc_once _ _ H1).
  - exact (tc_l _ _ _ _ H2 (tc_once _ _ _ H3)).
Defined.

(** A task that forks a job with the name of its next task hides what follows. *)
Definition forking : Rendering :=
  {| GetDynamicTask _ _ ty := if ty == "build" then Some (mkDrawn (set_Method (default (JobDemo.task "" "" "") (GetTask drawn_pipeline "build")) Method.ForkJob) "test" []) else None;
     fork_options _ := ("", []) |}.
Definition drawn_pairs (R : Rendering) : list (string * string) :=
  match @buildTree _ R drawn_pipeline None 5 with Drawn t => map pair_of (snd (writeTask draw (heap t) 0 (∅, []))) | _ => [] end.
Lemma forked_name_hides_the_rest :
  ("test", "cleanup") ∈ drawn_pairs plain_rendering /\ ("test", "cleanup") ∉ drawn_pairs forking.
Proof. split; [apply (bool_decide_eq_true_1 (("test", "cleanup") ∈ drawn_pairs plain_rendering)) | apply (bool_decide_eq_false_1 (("test", "cleanup") ∈ drawn_pairs forking))]; by vm_compute. Qed.
(** Two types become one node. *)
Lemma types_share_a_node : Mermaid.sanitizeNodeId "load-data" = Mermaid.sanitizeNodeId "load.data".
Proof. by vm_compute. Qed.
End DiagramDemo.
