(* ===== verification/Variables.v ===== *)
(** * Variables: variables, scripts and configurations of definitions

    Models how [src/queen/types/task_definition.go] and [job_definition.go] keep
    what has no column of its own (scripts, headers, tags, dependencies, user
    variables) in rows of variables, with [job_definition_config.go],
    [job_definition_variable.go] and the forms of variables that
    [src/queen/utils/yaml_helper.go] reads: what [ValidateBeforeSave] stores, and
    what [AfterLoad] makes of the rows.

    A nil slice is [None].  JSON is an argument, with the texts of lists, maps and
    resources and their readers.  A failing type assertion is a panic. *)

From Stdlib Require Import Ascii.
From S2P Require Import Prelude RequestState JobDefinition JobRequest.
Import NameValue.

Open Scope Z_scope.
Open Scope go_scope.

(** ** Values *)
Module Settings.
(** [BasicResource]. *)
Record BasicResource := mkBasicResource {
  ResourceType : string;
  ResourceDescription : string;
  ResourcePlatform : string;
  Category : string;
  ResourceTags : list string;
  Amount : Z;
  ExtractProperties : list string;
  ContextPrefix : string
}.
Definition no_resource : BasicResource := mkBasicResource "" "" "" "" [] 0 [] "".

(** A Go value of a variable: as far as the assertions on it can tell. *)
Inductive gvalue :=
  | GPlain (v : value)
  | GStrings (l : list string)
  | GHeaders (m : gmap string string)
  | GResource (r : BasicResource).

Class Json := {
  marshal_strings : list string -> string;
  unmarshal_strings : string -> option (list string);
  marshal_headers : gmap string string -> string;
  unmarshal_headers : string -> option (gmap string string);
  marshal_resource : BasicResource -> string;
  unmarshal_resource : string -> option BasicResource;
  unmarshal_string : string -> option string;
  (** [fmt.Sprintf] with [%s] and [%v]. *)
  sprint : gvalue -> string
}.

Section Typed.
Context `{Json}.
Definition to_value (v : gvalue) : value :=
  match v with
  | GPlain v => v
  | GStrings l => VOther "[]string" (Some (marshal_strings l))
  | GHeaders m => VOther "map[string]string" (Some (marshal_headers m))
  | GResource r => VOther "types.BasicResource" (Some (marshal_resource r))
  end.
Definition typed (name : string) (v : gvalue) (secret : bool) : option NameTypeValue := NewNameTypeValue name (to_value v) secret.
End Typed.

(** The variables of a YAML text: a mapping with keys that are strings, or of any
    type ([None] is not a string), or a list of mappings with a name and a value
    each. *)
Record item := mkItem { interface_keys : bool; item_name : option string; item_value : gvalue }.
Inductive nv_input := NVNil | NVList (l : list item) | NVAny (entries : list (option string * gvalue)) | NVMap (m : gmap string gvalue) | NVOther.
Inductive verror := NilValue (name : string) | UnknownType | BadValue (name : string) | BadJson (name : string) | BadExitCodes
  | BadDefinition | ConfigInvalid | CipherFailed.
Fixpoint parse_items (l : list item) (m : gmap string gvalue) : outcome verror (gmap string gvalue) :=
  match l with
  | [] => Return m
  | x :: l =>
      match interface_keys x, item_name x with
      | true, Some k => parse_items l (<[k := item_value x]> m)
      | _, _ => Panic
      end
  end.
Fixpoint parse_entries (l : list (option string * gvalue)) (m : gmap string gvalue) : outcome verror (gmap string gvalue) :=
  match l with
  | [] => Return m
  | (Some k, v) :: l => parse_entries l (<[k := v]> m)
  | (None, _) :: _ => Panic
  end.
Definition ParseNameValueConfigs (input : nv_input) : outcome verror (gmap string gvalue) :=
  match input with
  | NVNil => Return ∅
  | NVList l => parse_items l ∅
  | NVAny l => parse_entries l ∅
  | NVMap m => Return m
  | NVOther => Error UnknownType
  end.

(** Rows of variables and configurations. *)
Record Variable_ := mkVariable { v_nv : NameTypeValue; v_ID : string; v_Owner : string }.
Definition named (name : string) (v : Variable_) : bool := Name (v_nv v) == name.
Definition set_nv (nv : NameTypeValue) (v : Variable_) : Variable_ := mkVariable nv (v_ID v) (v_Owner v).
Definition set_owner (o : string) (v : Variable_) : Variable_ := mkVariable (v_nv v) (v_ID v) o.
Definition new_variable `{Json} (name : string) (v : gvalue) (secret : bool) : option Variable_ :=
  (fun nv => mkVariable nv "" "") <$> typed name v secret.
Fixpoint remove_first (name : string) (l : list Variable_) : option (list Variable_) :=
  match l with
  | [] => None
  | x :: l => if named name x then Some l else (x ::.) <$> remove_first name l
  end.
End Settings.
Import Settings.

(** ** Tasks *)
Module TaskVars.
(** A task with its transient fields.  The tags and the condition [except] are
    those of the definition. *)
Record VTask := mkVTask {
  vt_ID : string;
  vt_def : Task.TaskDefinition;
  vt_HasTags : bool;
  Headers : gmap string string;
  BeforeScript : list string;
  AfterScript : list string;
  Script : list string;
  Resources : BasicResource;
  JobVersion : string;
  Dependencies : option (list string);
  ArtifactIDs : option (list string);
  URL : string;
  NameValueVariables : nv_input;
  Variables : list Variable_;
  lookupVariables : gmap string Variable_
}.
Definition tags (t : VTask) : option (list string) := if vt_HasTags t then Some (Task.Tags (vt_def t)) else None.
Definition except (t : VTask) : string := Task.Except (vt_def t).
Definition set_vt_def (x : Task.TaskDefinition) (t : VTask) : VTask :=
  mkVTask (vt_ID t) x (vt_HasTags t) (Headers t) (BeforeScript t) (AfterScript t) (Script t) (Resources t) (JobVersion t) (Dependencies t) (ArtifactIDs t) (URL t) (NameValueVariables t) (Variables t) (lookupVariables t).
Definition set_Headers (x : gmap string string) (t : VTask) : VTask :=
  mkVTask (vt_ID t) (vt_def t) (vt_HasTags t) x (BeforeScript t) (AfterScript t) (Script t) (Resources t) (JobVersion t) (Dependencies t) (ArtifactIDs t) (URL t) (NameValueVariables t) (Variables t) (lookupVariables t).
Definition set_BeforeScript (x : list string) (t : VTask) : VTask :=
  mkVTask (vt_ID t) (vt_def t) (vt_HasTags t) (Headers t) x (AfterScript t) (Script t) (Resources t) (JobVersion t) (Dependencies t) (ArtifactIDs t) (URL t) (NameValueVariables t) (Variables t) (lookupVariables t).
Definition set_AfterScript (x : list string) (t : VTask) : VTask :=
  mkVTask (vt_ID t) (vt_def t) (vt_HasTags t) (Headers t) (BeforeScript t) x (Script t) (Resources t) (JobVersion t) (Dependencies t) (ArtifactIDs t) (URL t) (NameValueVariables t) (Variables t) (lookupVariables t).
Definition set_Script (x : list string) (t : VTask) : VTask :=
  mkVTask (vt_ID t) (vt_def t) (vt_HasTags t) (Headers t) (BeforeScript t) (AfterScript t) x (Resources t) (JobVersion t) (Dependencies t) (ArtifactIDs t) (URL t) (NameValueVariables t) (Variables t) (lookupVariables t).
Definition set_Resources (x : BasicResource) (t : VTask) : VTask :=
  mkVTask (vt_ID t) (vt_def t) (vt_HasTags t) (Headers t) (BeforeScript t) (AfterScript t) (Script t) x (JobVersion t) (Dependencies t) (ArtifactIDs t) (URL t) (NameValueVariables t) (Variables t) (lookupVariables t).
Definition set_JobVersion (x : string) (t : VTask) : VTask :=
  mkVTask (vt_ID t) (vt_def t) (vt_HasTags t) (Headers t) (BeforeScript t) (AfterScript t) (Script t) (Resources t) x (Dependencies t) (ArtifactIDs t) (URL t) (NameValueVariables t) (Variables t) (lookupVariables t).
Definition set_Dependencies (x : option (list string)) (t : VTask) : VTask :=
  mkVTask (vt_ID t) (vt_def t) (vt_HasTags t) (Headers t) (BeforeScript t) (AfterScript t) (Script t) (Resources t) (JobVersion t) x (ArtifactIDs t) (URL t) (NameValueVariables t) (Variables t) (lookupVariables t).
Definition set_ArtifactIDs (x : option (list string)) (t : VTask) : VTask :=
  mkVTask (vt_ID t) (vt_def t) (vt_HasTags t) (Headers t) (BeforeScript t) (AfterScript t) (Script t) (Resources t) (JobVersion t) (Dependencies t) x (URL t) (NameValueVariables t) (Variables t) (lookupVariables t).
Definition set_NameValueVariables (x : nv_input) (t : VTask) : VTask :=
  mkVTask (vt_ID t) (vt_def t) (vt_HasTags t) (Headers t) (BeforeScript t) (AfterScript t) (Script t) (Resources t) (JobVersion t) (Dependencies t) (ArtifactIDs t) (URL t) x (Variables t) (lookupVariables t).
Definition set_Variables (x : list Variable_) (t : VTask) : VTask :=
  mkVTask (vt_ID t) (vt_def t) (vt_HasTags t) (Headers t) (BeforeScript t) (AfterScript t) (Script t) (Resources t) (JobVersion t) (Dependencies t) (ArtifactIDs t) (URL t) (NameValueVariables t) x (lookupVariables t).
Definition set_lookupVariables (x : gmap string Variable_) (t : VTask) : VTask :=
  mkVTask (vt_ID t) (vt_def t) (vt_HasTags t) (Headers t) (BeforeScript t) (AfterScript t) (Script t) (Resources t) (JobVersion t) (Dependencies t) (ArtifactIDs t) (URL t) (NameValueVariables t) (Variables t) x.
Definition set_tags (l : list string) (t : VTask) : VTask :=
  mkVTask (vt_ID t) (Task.set_Tags (vt_def t) l) true (Headers t) (BeforeScript t) (AfterScript t) (Script t) (Resources t) (JobVersion t) (Dependencies t) (ArtifactIDs t) (URL t) (NameValueVariables t) (Variables t) (lookupVariables t).
Definition set_except (x : string) (t : VTask) : VTask :=
  let td := vt_def t in
  set_vt_def
    (Task.mkTaskDefinition (Task.TaskType td) (Task.Method td) (Task.Description td) (Task.HostNetwork td) (Task.AllowFailure td)
       (Task.AllowStartIfCompleted td) (Task.AlwaysRun td) (Task.Timeout td) (Task.Retry td) (Task.DelayBetweenRetries td)
       (Task.RetryBackoffPolicy td) (Task.OnExitCodeSerialized td) (Task.OnExitCode td) (Task.OnCompleted td)
       (Task.OnFailed td) (Task.TaskOrder td) (Task.ReportStdout td) (Task.Tags td) x (Task.FanOut td)) t.

(** What the table and the rows of variables keep of a task: its transient fields
    are not columns. *)
Definition stored_definition (td : Task.TaskDefinition) : Task.TaskDefinition :=
  Task.mkTaskDefinition (Task.TaskType td) (Task.Method td) (Task.Description td) (Task.HostNetwork td) (Task.AllowFailure td)
    (Task.AllowStartIfCompleted td) (Task.AlwaysRun td) (Task.Timeout td) (Task.Retry td) (Task.DelayBetweenRetries td)
    None (Task.OnExitCodeSerialized td) ∅ (Task.OnCompleted td) (Task.OnFailed td) (Task.TaskOrder td) (Task.ReportStdout td) [] "" None.
Definition stored (t : VTask) : VTask :=
  mkVTask (vt_ID t) (stored_definition (vt_def t)) false ∅ [] [] [] no_resource "" None None "" NVNil (Variables t) ∅.

Definition keyHeaders : string := "headers".
Definition keyScript : string := "script".
Definition keyBeforeScript : string := "before_script".
Definition keyAfterScript : string := "after_script".
Definition keyResources : string := "resources".
Definition keyTags : string := "tags".
Definition keyExcept : string := "except".
Definition keyJobVersion : string := "job_version".
Definition keyDeps : string := "dependencies".
Definition keyArtifacts : string := "artifact_ids".

Section Vars.
Context `{RangeOrder} `{Json} `{Decoder}.

(** The field that a reserved name stands for; [None] is a failing assertion. *)
Definition assign (name : string) (v : gvalue) (t : VTask) : option VTask :=
  if name == keyHeaders then match v with GHeaders m => Some (set_Headers m t) | _ => None end
  else if name == keyBeforeScript then match v with GStrings l => Some (set_BeforeScript l t) | _ => None end
  else if name == keyAfterScript then match v with GStrings l => Some (set_AfterScript l t) | _ => None end
  else if name == keyScript then match v with GStrings l => Some (set_Script l t) | _ => None end
  else if name == keyResources then match v with GResource r => Some (set_Resources r t) | _ => None end
  else if name == keyTags then match v with GStrings l => Some (set_tags l t) | _ => None end
  else if name == keyExcept then Some (set_except (sprint v) t)
  else if name == keyJobVersion then Some (set_JobVersion (sprint v) t)
  else if name == keyDeps then match v with GStrings l => Some (set_Dependencies (Some l) t) | _ => None end
  else if name == keyArtifacts then
    Some (set_ArtifactIDs (Some (match v with GStrings l => l | _ => Split (sprint v) ","%char end)) t)
  else
    match NameValueVariables t with
    | NVMap m => Some (set_NameValueVariables (NVMap (<[name := v]> m)) t)
    | _ => None
    end.
Definition make_variables (t : VTask) : VTask := match NameValueVariables t with NVNil => set_NameValueVariables (NVMap ∅) t | _ => t end.
(** A row of a known name keeps its kind. *)
Definition AddVariable (name : string) (v : gvalue) (t : VTask) : outcome verror (Variable_ * VTask) :=
  match new_variable name v false with
  | None => Error (BadValue name)
  | Some x =>
      match assign name v (make_variables t) with
      | None => Panic
      | Some t =>
          let x := set_owner (vt_ID t) x in
          let rows :=
            match lookupVariables t !! name with
            | None => Variables t ++ [x]
            | Some _ => map (fun y => if named name y then set_nv (set_Value (Value (v_nv x)) (v_nv y)) y else y) (Variables t)
            end in
          Return (x, set_lookupVariables (<[name := x]> (lookupVariables t)) (set_Variables rows t))
      end
  end.
Definition GetVariable (name : string) (t : VTask) : option Variable_ := lookupVariables t !! name.
Fixpoint add_all (l : list (string * gvalue)) (t : VTask) : outcome verror VTask :=
  match l with
  | [] => Return t
  | (n, v) :: l => match AddVariable n v t with Return (_, t) => add_all l t | Error e => Error e | Panic => Panic end
  end.
Definition addVariablesFromNameValueVariables (t : VTask) : outcome verror VTask :=
  match ParseNameValueConfigs (NameValueVariables t) with
  | Return m => add_all (range m) (set_NameValueVariables (NVMap m) t)
  | Error e => Error e
  | Panic => Panic
  end.

(** The fields that are set, under their names.  An error for the headers is
    dropped. *)
Definition set_fields (t : VTask) : list (string * gvalue) :=
  (if (0 <? List.length (BeforeScript t))%nat then [(keyBeforeScript, GStrings (BeforeScript t))] else []) ++
  (if (0 <? List.length (AfterScript t))%nat then [(keyAfterScript, GStrings (AfterScript t))] else []) ++
  (if (0 <? List.length (Script t))%nat then [(keyScript, GStrings (Script t))] else []) ++
  (if ResourceType (Resources t) != "" then [(keyResources, GResource (Resources t))] else []) ++
  (match tags t with Some l => [(keyTags, GStrings l)] | None => [] end) ++
  (if except t != "" then [(keyExcept, GPlain (VString (except t)))] else []) ++
  (if JobVersion t != "" then [(keyJobVersion, GPlain (VString (JobVersion t)))] else []) ++
  (match Dependencies t with Some l => [(keyDeps, GStrings l)] | None => [] end) ++
  (match ArtifactIDs t with Some l => [(keyArtifacts, GStrings l)] | None => [] end).
Definition add_headers (t : VTask) : VTask :=
  if (0 <? size (Headers t))%nat then match AddVariable keyHeaders (GHeaders (Headers t)) t with Return (_, t) => t | _ => t end else t.
Definition ValidateBeforeSave (marshal : gmap string string -> string) (t : VTask) : outcome verror VTask :=
  match Task.Validate (vt_def t) with
  | inl _ => Error BadDefinition
  | inr d =>
      let t := add_headers (set_vt_def d t) in
      match add_all (set_fields t) t with
      | Return t =>
          match addVariablesFromNameValueVariables t with
          | Return t => Return (set_vt_def (Task.SaveOnExitCode marshal (vt_def t)) t)
          | other => other
          end
      | other => other
      end
  end.

(** A row read back: its field, or a user variable. *)
Definition load_field (name text : string) (t : VTask) : option (outcome verror VTask) :=
  let strings (f : list string -> VTask) := Some (match unmarshal_strings text with Some l => Return (f l) | None => Error (BadJson name) end) in
  if name == keyHeaders then Some (match unmarshal_headers text with Some m => Return (set_Headers m t) | None => Error (BadJson name) end)
  else if name == keyBeforeScript then strings (fun l => set_BeforeScript l t)
  else if name == keyAfterScript then strings (fun l => set_AfterScript l t)
  else if name == keyScript then strings (fun l => set_Script l t)
  else if name == keyResources then Some (match unmarshal_resource text with Some r => Return (set_Resources r t) | None => Error (BadJson name) end)
  else if name == keyTags then strings (fun l => set_tags l t)
  else if name == keyExcept then Some (match unmarshal_string text with Some s => Return (set_except s t) | None => Error (BadJson name) end)
  else if name == keyJobVersion then Some (match unmarshal_string text with Some s => Return (set_JobVersion s t) | None => Error (BadJson name) end)
  else if name == keyDeps then strings (fun l => set_Dependencies (Some l) t)
  else if name == keyArtifacts then strings (fun l => set_ArtifactIDs (Some l) t)
  else None.
Fixpoint load_rows (l : list Variable_) (m : gmap string gvalue) (t : VTask) : outcome verror VTask :=
  match l with
  | [] => Return (set_NameValueVariables (NVMap m) t)
  | c :: l =>
      let name := Name (v_nv c) in
      match GetParsedValue (v_nv c) with
      | None => Error (BadValue name)
      | Some v =>
          let t := set_lookupVariables (<[name := c]> (lookupVariables t)) t in
          match load_field name (Value (v_nv c)) t with
          | None => load_rows l (<[name := GPlain v]> m) t
          | Some (Return t) => load_rows l m t
          | Some other => other
          end
      end
  end.
Definition AfterLoad (json : string -> option (gmap string string)) (t : VTask) : outcome verror VTask :=
  match Task.LoadOnExitCode json (vt_def t) with
  | None => Error BadExitCodes
  | Some d =>
      match load_rows (Variables t) ∅ (set_lookupVariables ∅ (set_vt_def d t)) with
      | Return t => Return (if (List.length (Script t) =? 0)%nat && (URL t != "") then set_Script [URL t] t else t)
      | other => other
      end
  end.

(** The variables for templates, those that are not reserved and not secret. *)
Definition GetNameValueVariables (t : VTask) : gmap string (value * bool) :=
  foldl (fun m v => match GetParsedValue (v_nv v) with Some x => <[Name (v_nv v) := (x, Secret (v_nv v))]> m | None => m end) ∅ (Variables t).
Definition FilteredVariables (t : VTask) : list Variable_ := List.filter (fun v => negb (Task.isReservedConfigProperties (Name (v_nv v)))) (Variables t).
Definition MaskTaskVariables (t : VTask) : list Variable_ := List.filter (fun v => negb (Secret (v_nv v))) (Variables t).
Definition VariablesString (t : VTask) : string := String.concat "" (map (fun v => Name (v_nv v) +:+ "=" +:+ Value (v_nv v) +:+ " ") (Variables t)).
End Vars.
End TaskVars.
Import TaskVars.

(** ** Jobs *)
Module JobVars.
Record VJob := mkVJob {
  vj_def : Job.JobDefinition;
  vj_tasks : list VTask;
  JobResources : BasicResource;
  RequiredParams : option (list string);
  JobNameValueVariables : nv_input;
  JobVariables : list Variable_;
  Configs : list Variable_;
  NotifySerialized : string
}.
Definition set_vj_def (x : Job.JobDefinition) (j : VJob) : VJob :=
  mkVJob x (vj_tasks j) (JobResources j) (RequiredParams j) (JobNameValueVariables j) (JobVariables j) (Configs j) (NotifySerialized j).
Definition set_vj_tasks (x : list VTask) (j : VJob) : VJob :=
  mkVJob (vj_def j) x (JobResources j) (RequiredParams j) (JobNameValueVariables j) (JobVariables j) (Configs j) (NotifySerialized j).
Definition set_JobResources (x : BasicResource) (j : VJob) : VJob :=
  mkVJob (vj_def j) (vj_tasks j) x (RequiredParams j) (JobNameValueVariables j) (JobVariables j) (Configs j) (NotifySerialized j).
Definition set_RequiredParams (x : option (list string)) (j : VJob) : VJob :=
  mkVJob (vj_def j) (vj_tasks j) (JobResources j) x (JobNameValueVariables j) (JobVariables j) (Configs j) (NotifySerialized j).
Definition set_JobNameValueVariables (x : nv_input) (j : VJob) : VJob :=
  mkVJob (vj_def j) (vj_tasks j) (JobResources j) (RequiredParams j) x (JobVariables j) (Configs j) (NotifySerialized j).
Definition set_JobVariables (x : list Variable_) (j : VJob) : VJob :=
  mkVJob (vj_def j) (vj_tasks j) (JobResources j) (RequiredParams j) (JobNameValueVariables j) x (Configs j) (NotifySerialized j).
Definition set_Configs (x : list Variable_) (j : VJob) : VJob :=
  mkVJob (vj_def j) (vj_tasks j) (JobResources j) (RequiredParams j) (JobNameValueVariables j) (JobVariables j) x (NotifySerialized j).
Definition set_NotifySerialized (x : string) (j : VJob) : VJob :=
  mkVJob (vj_def j) (vj_tasks j) (JobResources j) (RequiredParams j) (JobNameValueVariables j) (JobVariables j) (Configs j) x.

Definition keyRequiredParams : string := "required_params".
Definition maxConfigValueLength : Z := 1000.

Section Vars.
Context `{RangeOrder} `{Json} `{Decoder} `{Cipher}.

(** The job's own names; [None] is a failing assertion. *)
Definition assign (name : string) (v : gvalue) (j : VJob) : option VJob :=
  if name == keyResources then match v with GResource r => Some (set_JobResources r j) | _ => None end
  else if name == keyRequiredParams then match v with GStrings l => Some (set_RequiredParams (Some l) j) | _ => None end
  else
    match JobNameValueVariables j with
    | NVMap m => Some (set_JobNameValueVariables (NVMap (<[name := v]> m)) j)
    | _ => None
    end.
(** Every row of the name takes over text and kind. *)
Definition AddVariable (name : string) (v : gvalue) (j : VJob) : outcome verror (Variable_ * VJob) :=
  match new_variable name v false with
  | None => Error (BadValue name)
  | Some x =>
      match assign name v j with
      | None => Panic
      | Some j =>
          let x := set_owner (Job.ID (vj_def j)) x in
          let rows :=
            if existsb (named name) (JobVariables j)
            then map (fun y => if named name y then set_nv (mkNameTypeValue (Name (v_nv y)) (Kind (v_nv x)) (Value (v_nv x)) (Secret (v_nv y))) y else y) (JobVariables j)
            else JobVariables j ++ [x] in
          Return (x, set_JobVariables rows j)
      end
  end.
Definition GetVariable (name : string) (j : VJob) : outcome verror (option gvalue) :=
  match JobNameValueVariables j with NVMap m => Return (m !! name) | _ => Panic end.
Definition RemoveVariable (name : string) (j : VJob) : outcome verror (bool * VJob) :=
  let cleared :=
    if name == keyResources then Some (set_JobResources no_resource j)
    else if name == keyRequiredParams then Some (set_RequiredParams (Some []) j)
    else match JobNameValueVariables j with NVMap m => Some (set_JobNameValueVariables (NVMap (delete name m)) j) | _ => None end in
  match cleared with
  | None => Panic
  | Some j => Return (match remove_first name (JobVariables j) with Some l => (true, set_JobVariables l j) | None => (false, j) end)
  end.

(** *** Configurations *)
Fixpoint set_config (name : string) (nv : NameTypeValue) (l : list Variable_) : option (Variable_ * list Variable_) :=
  match l with
  | [] => None
  | x :: l =>
      if named name x
      then let x := set_nv (mkNameTypeValue (Name (v_nv x)) (Kind nv) (Value nv) (Secret nv)) x in Some (x, x :: l)
      else (fun r => (fst r, x :: snd r)) <$> set_config name nv l
  end.
Definition AddConfig (name : string) (v : gvalue) (secret : bool) (j : VJob) : option (Variable_ * VJob) :=
  match new_variable name v secret with
  | None => None
  | Some c =>
      match set_config name (v_nv c) (Configs j) with
      | Some (c, l) => Some (c, set_Configs l j)
      | None => let c := set_owner (Job.ID (vj_def j)) c in Some (c, set_Configs (Configs j ++ [c]) j)
      end
  end.
Definition RemoveConfig (name : string) (j : VJob) : bool * VJob :=
  match remove_first name (Configs j) with Some l => (true, set_Configs l j) | None => (false, j) end.
Definition GetConfig (name : string) (j : VJob) : option Variable_ := List.find (named name) (Configs j).
Definition GetConfigString (name : string) (j : VJob) : string := match GetConfig name j with Some c => Value (v_nv c) | None => "" end.
Definition GetConfigByID (id : string) (j : VJob) : option Variable_ := List.find (fun c => v_ID c == id) (Configs j).
Definition ConfigValidate (c : Variable_) : bool :=
  negb ((v_ID c != "") && (v_Owner c == "")) && (Name (v_nv c) != "") && (Kind (v_nv c) != "") && (Value (v_nv c) != "") &&
  (Z.of_nat (String.length (Value (v_nv c))) <=? maxConfigValueLength).
Definition ConfigValidateBeforeSave (key : string) (c : Variable_) : verror + Variable_ :=
  if ConfigValidate c then match Encrypt key (v_nv c) with Some nv => inr (set_nv nv c) | None => inl CipherFailed end else inl ConfigInvalid.
Fixpoint encrypt_configs (key : string) (l : list Variable_) : verror + list Variable_ :=
  match l with
  | [] => inr []
  | c :: l =>
      match ConfigValidateBeforeSave key c with
      | inl e => inl e
      | inr c => match encrypt_configs key l with inr l => inr (c :: l) | inl e => inl e end
      end
  end.
Fixpoint decrypt_configs (key : string) (l : list Variable_) : option (list Variable_) :=
  match l with
  | [] => Some []
  | c :: l => match Decrypt key (v_nv c), decrypt_configs key l with Some nv, Some l => Some (set_nv nv c :: l) | _, _ => None end
  end.

(** *** Saving and loading *)
Fixpoint add_all (l : list (string * gvalue)) (j : VJob) : outcome verror VJob :=
  match l with
  | [] => Return j
  | (n, v) :: l => match AddVariable n v j with Return (_, j) => add_all l j | Error e => Error e | Panic => Panic end
  end.
Definition addVariablesFromNameValueVariables (j : VJob) : outcome verror VJob :=
  match ParseNameValueConfigs (JobNameValueVariables j) with
  | Return m => add_all (range m) (set_JobNameValueVariables (NVMap m) j)
  | Error e => Error e
  | Panic => Panic
  end.
Fixpoint each_task (f : VTask -> outcome verror VTask) (l : list VTask) : outcome verror (list VTask) :=
  match l with
  | [] => Return []
  | t :: l =>
      match f t with
      | Return t => match each_task f l with Return l => Return (t :: l) | other => other end
      | Error e => Error e
      | Panic => Panic
      end
  end.
(** Validation changes the definitions of the tasks in place. *)
Definition with_tasks (l : list VTask) (j : VJob) : VJob := set_vj_tasks l (set_vj_def (Job.set_Tasks (vj_def j) (map vt_def l)) j).
Definition with_definition (d : Job.JobDefinition) (j : VJob) : VJob :=
  set_vj_tasks (zip_with (fun td t => set_vt_def td t) (Job.Tasks d) (vj_tasks j)) (set_vj_def d j).
Definition set_fields (j : VJob) : list (string * gvalue) :=
  (if ResourceType (JobResources j) != "" then [(keyResources, GResource (JobResources j))] else []) ++
  (match RequiredParams j with Some l => [(keyRequiredParams, GStrings l)] | None => [] end).

Context (validate : Job.JobDefinition -> outcome Job.job_error Job.JobDefinition).
(** The texts of exit codes and notifications, and the triggers of a YAML text. *)
Context (marshal : gmap string string -> string) (json : string -> option (gmap string string))
  (notify_json : gmap string Notify.JobNotifyConfig -> string) (notify_of_json : string -> option (gmap string Notify.JobNotifyConfig))
  (set_Notify : gmap string Notify.JobNotifyConfig -> Job.JobDefinition -> Job.JobDefinition)
  (parseTriggerDefinitions : Job.JobDefinition -> Job.JobDefinition).

Definition ValidateBeforeSave (key : string) (j : VJob) : outcome verror VJob :=
  match validate (vj_def j) with
  | Panic => Panic
  | Error _ => Error BadDefinition
  | Return d =>
      let j := with_definition d j in
      match add_all (set_fields j) j with
      | Return j =>
          match addVariablesFromNameValueVariables j with
          | Return j =>
              match encrypt_configs key (Configs j) with
              | inl e => Error e
              | inr l =>
                  match each_task (TaskVars.ValidateBeforeSave marshal) (vj_tasks j) with
                  | Return ts =>
                      let j := with_tasks ts (set_Configs l j) in
                      Return (if (0 <? size (Job.Notify (vj_def j)))%nat then set_NotifySerialized (notify_json (Job.Notify (vj_def j))) j else j)
                  | Error e => Error e
                  | Panic => Panic
                  end
              end
          | other => other
          end
      | other => other
      end
  end.
Fixpoint load_rows (l : list Variable_) (m : gmap string gvalue) (j : VJob) : outcome verror VJob :=
  match l with
  | [] => Return (set_JobNameValueVariables (NVMap m) j)
  | c :: l =>
      let name := Name (v_nv c) in
      match GetParsedValue (v_nv c) with
      | None => Error (BadValue name)
      | Some v =>
          if name == keyResources then match unmarshal_resource (Value (v_nv c)) with Some r => load_rows l m (set_JobResources r j) | None => Error (BadJson name) end
          else if name == keyRequiredParams then
            match unmarshal_strings (Value (v_nv c)) with Some x => load_rows l m (set_RequiredParams (Some x) j) | None => Error (BadJson name) end
          else load_rows l (<[name := GPlain v]> m) j
      end
  end.
Definition task_less (a b : Task.TaskDefinition) : bool := Task.TaskOrder a <? Task.TaskOrder b.
Definition sort_tasks (j : VJob) : VJob :=
  let l := sort_slice (fun a b => task_less (vt_def a) (vt_def b)) (vj_tasks j) in
  set_vj_tasks l (set_vj_def (Job.set_Tasks (vj_def j) (sort_slice task_less (Job.Tasks (vj_def j)))) j).
Definition AfterLoad (key : string) (j : VJob) : outcome verror VJob :=
  let j := set_vj_def (Job.set_shouldSkip (Job.set_lookupTasks (vj_def j) ∅) "") j in
  match load_rows (JobVariables j) ∅ j with
  | Return j =>
      match each_task (TaskVars.AfterLoad json) (vj_tasks j) with
      | Return ts =>
          let j := with_tasks ts j in
          match decrypt_configs key (Configs j) with
          | None => Error CipherFailed
          | Some l =>
              let j := set_Configs l j in
              match (if NotifySerialized j != "" then (fun n => set_vj_def (set_Notify n (vj_def j)) j) <$> notify_of_json (NotifySerialized j) else Some j) with
              | None => Error (BadJson "notify")
              | Some j =>
                  let j := if Job.RawYaml (vj_def j) != "" then set_vj_def (parseTriggerDefinitions (vj_def j)) j else j in
                  match validate (vj_def j) with
                  | Return d => Return (sort_tasks (with_definition d j))
                  | Error _ => Error BadDefinition
                  | Panic => Panic
                  end
              end
          end
      | Error e => Error e
      | Panic => Panic
      end
  | other => other
  end.
End Vars.
End JobVars.
