(* ===== verification/VariablesSpec.v ===== *)
(** * VariablesSpec: what survives storing a task

    The scripts, tags, dependencies and variables of a task are the same after it
    was stored and loaded, and so are its headers unless they are too long and its
    resources if they have a type; but a task with a job version (or a condition)
    that is not a JSON text is stored and can never be loaded. *)

From Stdlib Require Import Ascii.
From S2P Require Import Prelude RequestState JobDefinition JobRequest JobRequestSpec Variables.
Import NameValue Settings TaskVars.

Open Scope go_scope.

(** What the code relies on of JSON and formatting: texts are read back as they
    were written, lists start with a bracket and objects with a brace, and a string
    is formatted as it is. *)
Class JsonLaws `{Json} `{Decoder} : Prop := {
  strings_roundtrip : forall l, unmarshal_strings (marshal_strings l) = Some l;
  headers_roundtrip : forall m, unmarshal_headers (marshal_headers m) = Some m;
  resource_roundtrip : forall r, unmarshal_resource (marshal_resource r) = Some r;
  strings_text : forall l, HasPrefix (marshal_strings l) "{" = false /\ HasPrefix (marshal_strings l) "[" = true /\ is_Some (decode_array (marshal_strings l));
  headers_text : forall m, HasPrefix (marshal_headers m) "{" = true /\ is_Some (decode_object (marshal_headers m));
  resource_text : forall r, HasPrefix (marshal_resource r) "{" = true /\ is_Some (decode_object (marshal_resource r));
  sprint_string : forall s, sprint (GPlain (VString s)) = s
}.

Section Storage.
Context `{RangeOrder} `{Json} `{Decoder} `{!JsonLaws}.

(** ** Saving *)
(** The fields of a task that rows do not change. *)
Definition fields (t : VTask) :=
  (vt_ID t, vt_def t, vt_HasTags t, Headers t, BeforeScript t, AfterScript t, Script t, Resources t, JobVersion t, Dependencies t, ArtifactIDs t, URL t).
(** The text of the headers is not too long for a variable. *)
Definition headers_fit (t : VTask) : bool := Z.of_nat (String.length (marshal_headers (Headers t))) <=? maxConfigValueLength.
Definition header_field (t : VTask) : list (string * gvalue) :=
  if (0 <? size (Headers t))%nat && headers_fit t then [(keyHeaders, GHeaders (Headers t))] else [].
Definition all_fields (t : VTask) : list (string * gvalue) := header_field t ++ set_fields t.
Definition reserved (n : string) : bool := Task.isReservedConfigProperties n.

Definition parsed (t : VTask) := ParseNameValueConfigs (NameValueVariables t).
Definition keys : list string :=
  [keyHeaders; keyBeforeScript; keyAfterScript; keyScript; keyResources; keyTags; keyExcept; keyJobVersion; keyDeps; keyArtifacts].

Lemma fields_entries t t' : fields t = fields t' -> all_fields t = all_fields t'.
Proof.
  destruct t, t'. unfold fields. cbn. intros E. injection E as -> -> -> -> -> -> -> -> -> -> -> ->. done.
Qed.
Lemma make_fields t : fields (make_variables t) = fields t /\ lookupVariables (make_variables t) = lookupVariables t /\
  Variables (make_variables t) = Variables t /\ parsed (make_variables t) = parsed t.
Proof. unfold make_variables, parsed. destruct (NameValueVariables t) eqn:E; rewrite ?E; done. Qed.
Lemma set_Tags_same td : Task.set_Tags td (Task.Tags td) = td.
Proof. by destruct td. Qed.
Lemma set_except_same t : fields (set_except (except t) t) = fields t.
Proof. unfold except. destruct t as [? td]. by destruct td. Qed.
Lemma entries_keys t : (all_fields t).*1 `sublist_of` keys.
Proof.
  unfold all_fields, header_field, set_fields. rewrite !fmap_app.
  change keys with ([keyHeaders] ++ [keyBeforeScript] ++ [keyAfterScript] ++ [keyScript] ++ [keyResources] ++ [keyTags] ++ [keyExcept] ++ [keyJobVersion] ++ [keyDeps] ++ [keyArtifacts]).
  repeat apply sublist_app; case_match; first [reflexivity|apply sublist_nil_l].
Qed.
Lemma entries_NoDup t : NoDup (all_fields t).*1.
Proof. eapply sublist_NoDup; [|apply entries_keys]. apply (bool_decide_unpack _). vm_compute. done. Qed.
Lemma entry_reserved t n : n ∈ (all_fields t).*1 -> reserved n = true.
Proof.
  intros Hn. assert (n ∈ keys) as Hk by (eapply elem_of_sublist; [exact Hn|apply entries_keys]).
  unfold keys in Hk. repeat (apply elem_of_cons in Hk as [->|Hk]; [reflexivity|]). by apply elem_of_nil in Hk.
Qed.

(** A field is assigned the value it has. *)
Lemma assign_field n v t : (n, v) ∈ all_fields t ->
  exists t1, assign n v t = Some t1 /\ fields t1 = fields t /\ lookupVariables t1 = lookupVariables t /\ Variables t1 = Variables t /\ NameValueVariables t1 = NameValueVariables t.
Proof.
  unfold all_fields, header_field, set_fields. rewrite !elem_of_app. intros Hin.
  repeat match type of Hin with
  | _ \/ _ => destruct Hin as [Hin|Hin]
  | _ ∈ (if ?b then _ else _) => destruct b
  | _ ∈ (match tags t with _ => _ end) => unfold tags in Hin; destruct (vt_HasTags t) eqn:Ht
  | _ ∈ (match ?o with Some _ => _ | None => _ end) => destruct o eqn:?
  | _ ∈ [] => by apply elem_of_nil in Hin
  | _ ∈ [_] => apply list_elem_of_singleton in Hin
  end; try (by apply elem_of_nil in Hin); injection Hin as -> ->; (eexists; split; [reflexivity|]);
  (split; [|done]); rewrite ?sprint_string; try apply set_except_same; unfold fields; cbn; rewrite ?set_Tags_same; congruence.
Qed.
Lemma assign_user n v t t1 : reserved n = false -> assign n v t = Some t1 -> fields t1 = fields t /\ lookupVariables t1 = lookupVariables t /\ Variables t1 = Variables t.
Proof.
  unfold reserved, Task.isReservedConfigProperties, Task.getReservedConfigProperties. cbn [existsb]. rewrite !orb_false_iff.
  intros (E1 & E2 & E3 & E4 & E5 & _ & _ & E6 & E7 & E8 & E9 & E10 & _). unfold assign.
  rewrite !(String.eqb_sym n _). unfold keyHeaders, keyAfterScript, keyBeforeScript, keyScript, keyResources, keyTags, keyExcept, keyJobVersion, keyDeps, keyArtifacts.
  rewrite E1, E2, E3, E4, E5, E6, E7, E8, E9, E10. destruct (NameValueVariables t); intros [= <-]; done.
Qed.

(** The row of an entry. *)
Definition written (id : string) (e : string * gvalue) (x : Variable_) : Prop :=
  exists nv, typed (fst e) (snd e) false = Some nv /\ x = mkVariable nv "" id.
Definition allowed (t : VTask) (e : string * gvalue) : Prop := e ∈ all_fields t \/ reserved (fst e) = false.

Lemma AddVariable_fresh n v t x t1 :
  allowed t (n, v) -> lookupVariables t !! n = None -> AddVariable n v t = Return (x, t1) ->
  written (vt_ID t) (n, v) x /\ fields t1 = fields t /\ Variables t1 = Variables t ++ [x] /\ lookupVariables t1 = <[n := x]> (lookupVariables t) /\
  ((n, v) ∈ all_fields t -> parsed t1 = parsed t).
Proof.
  intros Ha Hl. unfold AddVariable. destruct (new_variable n v false) as [y|] eqn:Ey; [|discriminate].
  destruct (make_fields t) as (Mf & Ml & Mv & Mp).
  destruct (assign n v (make_variables t)) as [t'|] eqn:Et; [|discriminate].
  assert (fields t' = fields t /\ lookupVariables t' = lookupVariables t /\ Variables t' = Variables t /\ ((n, v) ∈ all_fields t -> parsed t' = parsed t)) as (Ef & El & Ev & Ep).
  { assert ((n, v) ∈ all_fields t -> fields t' = fields t /\ lookupVariables t' = lookupVariables t /\ Variables t' = Variables t /\ parsed t' = parsed t) as Hf.
    { intros Hin. rewrite <- (fields_entries _ _ Mf) in Hin. destruct (assign_field n v _ Hin) as (t0 & E0 & F1 & F2 & F3 & F4).
      rewrite Et in E0. injection E0 as <-. split_and!; [congruence..|]. rewrite <- Mp. unfold parsed. by rewrite F4. }
    destruct Ha as [Ha|Ha]; [destruct (Hf Ha) as (? & ? & ? & ?); done|].
    destruct (assign_user _ _ _ _ Ha Et) as (F1 & F2 & F3). split_and!; [congruence..|]. intros Hin. by apply Hf. }
  rewrite El, Hl. intros E. injection E as <- <-. cbn. rewrite Ev.
  assert (vt_ID t' = vt_ID t) as -> by (unfold fields in Ef; congruence).
  unfold new_variable in Ey. destruct (typed n v false) as [nv|] eqn:En; [|discriminate]. injection Ey as <-.
  split_and!; [by exists nv|exact Ef|done|done|exact Ep].
Qed.
Lemma add_all_fresh l : forall t t1,
  NoDup l.*1 -> Forall (allowed t) l -> (forall n, n ∈ l.*1 -> lookupVariables t !! n = None) -> add_all l t = Return t1 ->
  exists xs, Forall2 (written (vt_ID t)) l xs /\ Variables t1 = Variables t ++ xs /\ fields t1 = fields t /\
    (forall n, n ∉ l.*1 -> lookupVariables t1 !! n = lookupVariables t !! n) /\ (Forall (.∈ all_fields t) l -> parsed t1 = parsed t).
Proof.
  induction l as [|[n v] l IH]; intros t t1 Hnd Hall Hnew; cbn [add_all].
  - intros [= <-]. exists []. rewrite app_nil_r. done.
  - destruct (AddVariable n v t) as [[x t']|e|] eqn:E; try discriminate. intros Hadd.
    apply NoDup_cons in Hnd as [Hn Hnd]. apply Forall_cons in Hall as [Ha Hall].
    destruct (AddVariable_fresh n v t x t' Ha (Hnew n (list_elem_of_here _ _)) E) as (Hw & Hf & Hv & Hlk & Hp).
    destruct (IH t' t1 Hnd) as (xs & Hxs & Hv1 & Hf1 & Hl1 & Hp1); [|  |exact Hadd|].
    + eapply Forall_impl; [exact Hall|]. intros e [He|He]; [left; by rewrite (fields_entries _ _ Hf)|by right].
    + intros k Hk. rewrite Hlk, lookup_insert_ne by (intros ->; done). apply Hnew. by right.
    + assert (vt_ID t' = vt_ID t) as Hid by (unfold fields in Hf; congruence).
      exists (x :: xs). rewrite Hid in Hxs. split_and!.
      * by constructor.
      * by rewrite Hv1, Hv, <- app_assoc.
      * congruence.
      * intros k Hk. rewrite Hl1 by (intros Hk'; apply Hk; by right). rewrite Hlk. apply lookup_insert_ne. intros ->. apply Hk. left.
      * intros Hall'. apply Forall_cons in Hall' as [Hin Hall']. rewrite Hp1; [by apply Hp|].
        by rewrite (fields_entries _ _ Hf).
Qed.
Lemma add_all_app a b t : add_all (a ++ b) t = match add_all a t with Return t => add_all b t | other => other end.
Proof. revert t. induction a as [|[n v] a IH]; intros t; cbn; [done|]. destruct (AddVariable n v t) as [[x t']| |]; [apply IH|done..]. Qed.
Lemma headers_typed t :
  typed keyHeaders (GHeaders (Headers t)) false =
  if headers_fit t then Some (mkNameTypeValue keyHeaders (kind_of (to_value (GHeaders (Headers t)))) (marshal_headers (Headers t)) false) else None.
Proof.
  unfold headers_fit, typed, NewNameTypeValue. cbn -[maxConfigValueLength]. rewrite Z.leb_antisym.
  by destruct (maxConfigValueLength <? _).
Qed.
Lemma add_headers_all t : add_all (header_field t) t = Return (add_headers t).
Proof.
  unfold header_field, add_headers. destruct (_ <? _)%nat; [|done]. cbn [andb].
  unfold AddVariable, new_variable. rewrite headers_typed. destruct (headers_fit t) eqn:Hf; [|done].
  cbn [add_all]. unfold AddVariable, new_variable. rewrite headers_typed, Hf. cbn -[make_variables]. done.
Qed.

Lemma add_headers_fields t : fields (add_headers t) = fields t.
Proof.
  unfold add_headers. destruct (_ <? _)%nat; [|done]. unfold AddVariable. destruct (new_variable _ _ _); [|done].
  unfold make_variables. by destruct (NameValueVariables t).
Qed.
Lemma set_fields_same t t' : fields t = fields t' -> set_fields t = set_fields t'.
Proof. destruct t, t'. unfold fields. cbn. intros E. injection E as -> -> -> -> -> -> -> -> -> -> -> ->. done. Qed.

(** The rows of a task that had none: one for each field that is set, then the
    user's variables. *)
Lemma range_keys {A} (m : gmap string A) : NoDup (range m).*1.
Proof. rewrite range_perm. apply NoDup_fst_map_to_list. Qed.
Lemma rows_of_task marshal t t1 d m :
  Variables t = [] -> lookupVariables t = ∅ -> Task.Validate (vt_def t) = inr d -> parsed t = Return m ->
  (forall n v, m !! n = Some v -> reserved n = false) -> ValidateBeforeSave marshal t = Return t1 ->
  vt_ID t1 = vt_ID t /\ vt_def t1 = Task.SaveOnExitCode marshal d /\
  Forall2 (written (vt_ID t)) (all_fields (set_vt_def d t) ++ range m) (Variables t1).
Proof.
  intros Hv Hl Hd Hm Hres. unfold ValidateBeforeSave. rewrite Hd. set (t0 := set_vt_def d t).
  rewrite (set_fields_same _ _ (add_headers_fields t0)).
  destruct (add_all (set_fields t0) (add_headers t0)) as [t2|e|] eqn:E2; try discriminate.
  assert (add_all (all_fields t0) t0 = Return t2) as Ea by (unfold all_fields; by rewrite add_all_app, (add_headers_all t0)).
  destruct (add_all_fresh _ t0 t2 (entries_NoDup t0)) as (xs & Hxs & Hv2 & Hf2 & Hl2 & Hp2); [|intros n _; change (lookupVariables t !! n = None); by rewrite Hl|exact Ea|].
  { apply Forall_forall. intros e He. by left. }
  unfold addVariablesFromNameValueVariables. fold (parsed t2). rewrite Hp2 by (by apply Forall_forall). change (parsed t0) with (parsed t). rewrite Hm.
  destruct (add_all (range m) _) as [t3|e|] eqn:E3; try discriminate.
  assert (forall n, n ∈ (range m).*1 -> reserved n = false) as Hr.
  { intros n (kv & -> & Hkv)%list_elem_of_fmap. destruct kv as [k v]. apply elem_of_range in Hkv. by eapply Hres. }
  destruct (add_all_fresh _ (set_NameValueVariables (NVMap m) t2) t3 (range_keys m)) as (ys & Hys & Hv3 & Hf3 & _ & _); [| |exact E3|].
  { apply Forall_forall. intros e He. right. apply Hr. by apply list_elem_of_fmap_2. }
  { intros n Hn. change (lookupVariables t2 !! n = None). rewrite Hl2; [change (lookupVariables t !! n = None); by rewrite Hl|].
    intros Hin%entry_reserved. by rewrite (Hr n Hn) in Hin. }
  intros E. injection E as <-. cbn. unfold fields in Hf2, Hf3. cbn in Hf2, Hf3. cbn in Hv3, Hys.
  assert (vt_ID t2 = vt_ID t) as Hid by congruence. rewrite Hid in Hys.
  split_and!; [congruence|f_equal; congruence|]. rewrite Hv3, Hv2. cbn. rewrite Hv. cbn. by apply Forall2_app.
Qed.

(** ** Loading *)
(** The fields kept in rows. *)
Record View := mkView {
  w_headers : gmap string string; w_before : list string; w_after : list string; w_script : list string; w_resources : BasicResource;
  w_tags : option (list string); w_except : string; w_version : string; w_deps : option (list string); w_artifacts : option (list string)
}.
Definition view (t : VTask) : View :=
  mkView (Headers t) (BeforeScript t) (AfterScript t) (Script t) (Resources t) (tags t) (except t) (JobVersion t) (Dependencies t) (ArtifactIDs t).
(** The effect of the row of an entry. *)
Definition overlay (n : string) (v : gvalue) (w : View) : option View :=
  let '(mkView h b a s r g x j d i) := w in
  match v with
  | GHeaders m => if n == keyHeaders then Some (mkView m b a s r g x j d i) else None
  | GResource m => if n == keyResources then Some (mkView h b a s m g x j d i) else None
  | GStrings l =>
      if n == keyBeforeScript then Some (mkView h l a s r g x j d i)
      else if n == keyAfterScript then Some (mkView h b l s r g x j d i)
      else if n == keyScript then Some (mkView h b a l r g x j d i)
      else if n == keyTags then Some (mkView h b a s r (Some l) x j d i)
      else if n == keyDeps then Some (mkView h b a s r g x j (Some l) i)
      else if n == keyArtifacts then Some (mkView h b a s r g x j d (Some l))
      else None
  | GPlain _ => None
  end.
Fixpoint overlays (l : list (string * gvalue)) (w : View) : option View :=
  match l with [] => Some w | (n, v) :: l => overlay n v w ≫= overlays l end.

Lemma typed_text n v nv : typed n v false = Some nv -> nv = mkNameTypeValue n (kind_of (to_value v)) (Value nv) false /\ text_of (to_value v) = Some (Value nv).
Proof.
  unfold typed, NewNameTypeValue. destruct (to_value v) as [|s|b|k z|k j]; [discriminate|..]; destruct (text_of _) as [y|] eqn:E; try discriminate;
    destruct (_ <? _)%Z; try discriminate; intros [= <-]; done.
Qed.
Lemma written_parsed id n v x w w' : written id (n, v) x -> overlay n v w = Some w' -> Name (v_nv x) = n /\ is_Some (GetParsedValue (v_nv x)).
Proof.
  intros (nv & Hnv & ->) Ho. cbn in Hnv. apply typed_text in Hnv as [E T]. cbn [v_nv]. rewrite E. split; [done|].
  destruct v as [p|l|m|r]; [by destruct w| | |]; cbn in T; injection T as <-; unfold GetParsedValue; cbn -[HasPrefix].
  - destruct (strings_text l) as (-> & -> & ?). done.
  - destruct (headers_text m) as (-> & ?). done.
  - destruct (resource_text r) as (-> & ?). done.
Qed.
Lemma load_overlay id n v x t w :
  written id (n, v) x -> overlay n v (view t) = Some w ->
  exists t', load_field n (Value (v_nv x)) t = Some (Return t') /\ view t' = w /\ URL t' = URL t.
Proof.
  intros (nv & Hnv & ->). cbn in Hnv. apply typed_text in Hnv as [E T]. cbn [v_nv].
  destruct v as [p|l|m|r]; unfold overlay, view; [done|..]; cbn in T; injection T as <-; intros Ho; cbv beta iota in Ho;
  repeat match type of Ho with
  | (if ?b then _ else _) = _ =>
      destruct b eqn:Hb;
        [apply String.eqb_eq in Hb as ->; injection Ho as <-; eexists; split; [cbn; rewrite ?strings_roundtrip, ?headers_roundtrip, ?resource_roundtrip; reflexivity|done]|clear Hb]
  end; done.
Qed.
Lemma load_fields id l xs : forall m t w, Forall2 (written id) l xs -> overlays l (view t) = Some w ->
  exists t', view t' = w /\ URL t' = URL t /\ forall ys, load_rows (xs ++ ys) m t = load_rows ys m t'.
Proof.
  intros m t w Hl. revert t. induction Hl as [|[n v] x l xs Hx Hl IH]; intros t; cbn [overlays].
  - intros [= <-]. by exists t.
  - destruct (overlay n v (view t)) as [w1|] eqn:E; [|discriminate]. cbn. intros Hw.
    destruct (written_parsed id n v x _ _ Hx E) as [Hn [p Hp]].
    destruct (load_overlay id n v x (set_lookupVariables (<[n := x]> (lookupVariables t)) t) w1 Hx E) as (t' & Hf & Hv & Hu).
    rewrite <- Hv in Hw. destruct (IH t' Hw) as (t2 & Hv2 & Hu2 & Hl2). exists t2. split_and!; [done|by rewrite Hu2|].
    intros ys. cbn [load_rows app]. rewrite Hn, Hp, Hf. apply Hl2.
Qed.

(** A user's variable is read as the value it was. *)
Definition read_value (v : gvalue) : gvalue := match v with GPlain x => GPlain (read_back x) | _ => v end.
Definition user_variable (e : string * gvalue) : Prop := reserved (fst e) = false /\ exists x, snd e = GPlain x /\ plain x = true.
Lemma load_field_user n text t : reserved n = false -> load_field n text t = None.
Proof.
  unfold reserved, Task.isReservedConfigProperties, Task.getReservedConfigProperties. cbn [existsb]. rewrite !orb_false_iff.
  intros (E1 & E2 & E3 & E4 & E5 & _ & _ & E6 & E7 & E8 & E9 & E10 & _). unfold load_field.
  rewrite !(String.eqb_sym n _). unfold keyHeaders, keyAfterScript, keyBeforeScript, keyScript, keyResources, keyTags, keyExcept, keyJobVersion, keyDeps, keyArtifacts.
  by rewrite E1, E2, E3, E4, E5, E6, E7, E8, E9, E10.
Qed.
Definition read_all (l : list (string * gvalue)) (m : gmap string gvalue) : gmap string gvalue := foldl (fun m e => <[fst e := read_value (snd e)]> m) m l.
Lemma load_user_rows id l xs : forall m t, Forall2 (written id) l xs -> Forall user_variable l ->
  exists t', view t' = view t /\ URL t' = URL t /\ load_rows xs m t = Return (set_NameValueVariables (NVMap (read_all l m)) t').
Proof.
  intros m t Hl. revert m t. induction Hl as [|[n v] x l xs (nv & Hnv & ->) Hl IH]; intros m t Hu; cbn [load_rows].
  - by exists t.
  - apply Forall_cons in Hu as [(Hr & y & Hy & Hp) Hu]. cbn in Hr, Hy. subst v. cbn in Hnv. cbn [v_nv].
    destruct (plain_value_read_back _ _ _ _ Hp Hnv) as (Hn & _ & Hv). rewrite Hn, Hv, (load_field_user n _ _ Hr).
    destruct (IH (<[n := GPlain (read_back y)]> m) (set_lookupVariables (<[n := mkVariable nv "" id]> (lookupVariables t)) t) Hu) as (t' & E1 & E2 & E3).
    exists t'. split_and!; [done|done|]. rewrite E3. done.
Qed.
Lemma read_all_other l : forall m k, k ∉ l.*1 -> read_all l m !! k = m !! k.
Proof.
  induction l as [|[n v] l IH]; intros m k; cbn; [done|]. rewrite not_elem_of_cons. intros [Hn Hl]. fold (read_all l (<[n := read_value v]> m)).
  rewrite (IH _ k Hl). by apply lookup_insert_ne.
Qed.
Lemma read_all_here l : forall m k v, NoDup l.*1 -> (k, v) ∈ l -> read_all l m !! k = Some (read_value v).
Proof.
  induction l as [|[n x] l IH]; intros m k v; cbn [fmap list_fmap fst]; [intros _ Hin; by apply elem_of_nil in Hin|].
  rewrite NoDup_cons. intros [Hn Hnd] [Heq|Hin]%elem_of_cons; cbn; fold (read_all l (<[n := read_value x]> m)); [|by apply IH].
  injection Heq as -> ->. rewrite (read_all_other l _ n Hn). by rewrite lookup_insert_eq.
Qed.
Lemma read_all_range m : read_all (range m) ∅ = read_value <$> m.
Proof.
  apply map_eq. intros k. rewrite lookup_fmap. destruct (m !! k) as [v|] eqn:E; cbn.
  - apply read_all_here; [apply range_keys|]. by apply elem_of_range.
  - rewrite read_all_other; [done|]. intros ([k' v] & -> & Hin)%list_elem_of_fmap. apply elem_of_range in Hin. cbn in E. congruence.
Qed.

(** The fields that are set come back over an empty task; headers that are too
    long and resources without a type do not. *)
Definition kept_headers (t : VTask) : gmap string string := if headers_fit t then Headers t else ∅.
Definition kept_resources (r : BasicResource) : BasicResource := if ResourceType r != "" then r else no_resource.
Lemma overlays_app a b w : overlays (a ++ b) w = overlays a w ≫= overlays b.
Proof. revert w. induction a as [|[n v] a IH]; intros w; cbn; [done|]. by destruct (overlay n v w); cbn; [apply IH|]. Qed.
Lemma overlays_all_fields t : except t = "" -> JobVersion t = "" ->
  overlays (all_fields t) (mkView ∅ [] [] [] no_resource None "" "" None None) =
  Some (mkView (kept_headers t) (BeforeScript t) (AfterScript t) (Script t) (kept_resources (Resources t)) (tags t) "" "" (Dependencies t) (ArtifactIDs t)).
Proof.
  intros Hx Hj. unfold all_fields, set_fields, header_field. rewrite Hx, Hj, !overlays_app.
  assert (forall b a s r g x j d i, overlays (if (0 <? size (Headers t))%nat && headers_fit t then [(keyHeaders, GHeaders (Headers t))] else []) (mkView ∅ b a s r g x j d i) = Some (mkView (kept_headers t) b a s r g x j d i)) as ->.
  { intros. unfold kept_headers. destruct (headers_fit t); [|by rewrite andb_false_r]. rewrite andb_true_r.
    destruct (0 <? size (Headers t))%nat eqn:E; [done|]. apply Nat.ltb_ge in E.
    assert (Headers t = ∅) as -> by (apply map_size_empty_inv; lia). done. }
  cbn [mbind option_bind]. destruct (BeforeScript t), (AfterScript t), (Script t); cbn [List.length Nat.ltb Nat.leb];
  cbn -[overlays]; unfold kept_resources; destruct (ResourceType (Resources t) == ""); cbn; destruct (tags t), (Dependencies t), (ArtifactIDs t); done.
Qed.
Lemma Validate_keeps td d : Task.Validate td = inr d -> Task.Except d = Task.Except td /\ Task.Tags d = map ToLower (Task.Tags td).
Proof.
  unfold Task.Validate. repeat (case_match; try discriminate); intros [= <-]; done.
Qed.
Lemma Validate_ran marshal t t1 : ValidateBeforeSave marshal t = Return t1 -> exists d, Task.Validate (vt_def t) = inr d.
Proof. unfold ValidateBeforeSave. destruct (Task.Validate (vt_def t)) as [e|d]; [discriminate|by exists d]. Qed.
Lemma stored_codes_load marshal json d : (forall c, json (marshal c) = Some c) ->
  exists d', Task.LoadOnExitCode json (stored_definition (Task.SaveOnExitCode marshal d)) = Some d' /\ Task.Tags d' = [] /\ Task.Except d' = "".
Proof.
  intros Hj. unfold Task.LoadOnExitCode.
  match goal with |- context [option_map _ ?loaded] => assert (exists c, loaded = Some c) as [c ->] end; [|cbn; by eexists].
  destruct (0 <? String.length _)%nat eqn:E; [|by eexists]. unfold Task.SaveOnExitCode in *. cbn [Task.OnExitCodeSerialized Task.set_OnExitCodeSerialized stored_definition] in *.
  destruct (0 <? size (Task.OnExitCode d))%nat; [rewrite Hj; by eexists|discriminate E].
Qed.

(** C27: a task that is stored and loaded again has the scripts, tags (in lower
    case), dependencies and artifacts it had and each of its user's variables with
    its value; its headers come back if their text is at most as long as a
    variable may be, and are lost otherwise; its resources come back if they have a
    type, and are lost otherwise.  This is for a new task (without rows) that is
    accepted, without condition and job version, whose variables are strings,
    booleans or integers under names that are not reserved, with a JSON library
    that reads back what it wrote, for every order of ranging over the variables. *)
Theorem task_survives_storage marshal json t t1 m
    (new : Variables t = [] /\ lookupVariables t = ∅)
    (unconditional : except t = "" /\ JobVersion t = "")
    (given : ParseNameValueConfigs (NameValueVariables t) = Return m)
    (own : map_Forall (fun n v => user_variable (n, v)) m)
    (codes : forall c, json (marshal c) = Some c)
    (saved : ValidateBeforeSave marshal t = Return t1) :
  exists t2, AfterLoad json (stored t1) = Return t2 /\
    Headers t2 = (if Z.of_nat (String.length (marshal_headers (Headers t))) <=? maxConfigValueLength then Headers t else ∅) /\
    BeforeScript t2 = BeforeScript t /\ Script t2 = Script t /\ AfterScript t2 = AfterScript t /\
    Resources t2 = (if ResourceType (Resources t) == "" then no_resource else Resources t) /\ tags t2 = map ToLower <$> tags t /\
    Dependencies t2 = Dependencies t /\ ArtifactIDs t2 = ArtifactIDs t /\ NameValueVariables t2 = NVMap (read_value <$> m).
Proof.
  destruct (Validate_ran _ _ _ saved) as [d Hd]. destruct new as [Hv Hl]. destruct unconditional as [Hx Hj].
  destruct (rows_of_task marshal t t1 d m Hv Hl Hd given (fun n v Hn => proj1 (own n v Hn)) saved) as (Hid & Hdef & Hrows).
  destruct (Validate_keeps _ _ Hd) as [HE HT]. apply Forall2_app_inv_l in Hrows as (xs & ys & Hxs & Hys & Hrows).
  unfold AfterLoad. cbn [stored vt_def]. rewrite Hdef. destruct (stored_codes_load marshal json d codes) as (d' & -> & Ht' & Hx').
  cbn [stored Variables]. rewrite Hrows.
  set (t0 := set_lookupVariables ∅ (set_vt_def d' (stored t1))).
  assert (view t0 = mkView ∅ [] [] [] no_resource None "" "" None None) as V0 by (unfold view, except; cbn; by rewrite Hx').
  pose proof (overlays_all_fields (set_vt_def d t) ltac:(unfold except; cbn; by rewrite HE) Hj) as Eo. rewrite <- V0 in Eo.
  destruct (load_fields (vt_ID t) _ xs ∅ t0 _ Hxs Eo) as (t3 & V3 & U3 & ->).
  destruct (load_user_rows (vt_ID t) _ ys ∅ t3 Hys) as (t4 & V4 & U4 & ->).
  { apply Forall_forall. intros [n v] Hin. apply elem_of_range in Hin. exact (own n v Hin). }
  rewrite read_all_range. change (URL (set_NameValueVariables _ t4)) with (URL t4). rewrite U4, U3. change (URL t0) with ""%string.
  rewrite andb_false_r. eexists. split; [done|]. rewrite V3 in V4. unfold view in V4.
  cbn [Headers BeforeScript AfterScript Script Resources Dependencies ArtifactIDs NameValueVariables set_NameValueVariables set_vt_def] in *.
  injection V4 as -> -> -> -> -> Hg _ _ -> ->. split_and!; try done; [unfold kept_resources; by destruct (_ == _)|].
  change (tags t4 = map ToLower <$> tags t). rewrite Hg. unfold tags. cbn. rewrite HT. by destruct (vt_HasTags t).
Qed.

(** A row that cannot be read stops the loading. *)
Lemma load_field_no_panic n text t : load_field n text t <> Some Panic.
Proof. unfold load_field. repeat case_match; congruence. Qed.
Lemma unread_row l x : forall m t, x ∈ l -> (Name (v_nv x) = keyExcept \/ Name (v_nv x) = keyJobVersion) -> unmarshal_string (Value (v_nv x)) = None ->
  exists e, load_rows l m t = Error e.
Proof.
  induction l as [|c l IH]; intros m t Hin Hn Hu; [by apply elem_of_nil in Hin|]. cbn [load_rows].
  destruct (GetParsedValue (v_nv c)) as [v|]; [|by eexists]. apply elem_of_cons in Hin as [<-|Hin].
  - destruct Hn as [-> | ->]; cbn; rewrite Hu; by eexists.
  - destruct (load_field _ _ _) as [[t'|e|]|] eqn:E; [by apply IH|by eexists|by apply load_field_no_panic in E|by apply IH].
Qed.

(** A new task with a condition, or with a job version, that is not itself a JSON
    text of a string (a version such as 1.0-dev) is accepted and stored, and from
    then on can never be loaded. *)
Theorem conditional_task_is_lost marshal json t t1 m
    (new : Variables t = [] /\ lookupVariables t = ∅)
    (given : ParseNameValueConfigs (NameValueVariables t) = Return m)
    (own : map_Forall (fun n _ => reserved n = false) m)
    (conditional : (except t <> "" /\ unmarshal_string (except t) = None) \/ (JobVersion t <> "" /\ unmarshal_string (JobVersion t) = None))
    (saved : ValidateBeforeSave marshal t = Return t1) :
  exists e, AfterLoad json (stored t1) = Error e.
Proof.
  destruct (Validate_ran _ _ _ saved) as [d Hd]. destruct new as [Hv Hl].
  destruct (rows_of_task marshal t t1 d m Hv Hl Hd given own saved) as (_ & _ & Hrows).
  destruct (Validate_keeps _ _ Hd) as [HE _]. unfold AfterLoad. destruct (Task.LoadOnExitCode _ _) as [d'|]; [|by eexists].
  assert (exists k s, (k = keyExcept \/ k = keyJobVersion) /\ unmarshal_string s = None /\ (k, GPlain (VString s)) ∈ all_fields (set_vt_def d t)) as (k & s & Hk & Hs & Hin).
  { unfold all_fields, set_fields, except. cbn [vt_def set_vt_def JobVersion]. rewrite HE. fold (except t).
    destruct conditional as [[Hne Hu]|[Hne Hu]]; apply String.eqb_neq in Hne; rewrite Hne; do 2 eexists; (split; [by (left + right)|]);
      (split; [exact Hu|]); cbn [negb]; rewrite !elem_of_app, !list_elem_of_singleton; tauto. }
  assert (exists x, x ∈ Variables t1 /\ written (vt_ID t) (k, GPlain (VString s)) x) as (x & Hx & nv & Hnv & ->).
  { assert ((k, GPlain (VString s)) ∈ all_fields (set_vt_def d t) ++ range m) as Hall by (apply elem_of_app; by left).
    apply list_elem_of_lookup in Hall as [i Hi]. destruct (Forall2_lookup_l _ _ _ _ _ Hrows Hi) as (x & Hx & Hw).
    exists x. split; [by eapply list_elem_of_lookup_2|done]. }
  apply typed_text in Hnv as [E T]. cbn in T. injection T as T. change (Variables (stored t1)) with (Variables t1).
  destruct (unread_row (Variables t1) _ ∅ (set_lookupVariables ∅ (set_vt_def d' (stored t1))) Hx) as [e ->]; cbn; [by rewrite E|by rewrite <- T|by eexists].
Qed.
End Storage.

(** ** A task that is stored and loaded *)
Module VariablesDemo.
(** Texts of ones and zeros, which stand for JSON here. *)
Fixpoint bits (p : positive) : string := match p with xH => "" | xO p => String "0" (bits p) | xI p => String "1" (bits p) end.
Fixpoint of_bits (s : string) : option positive :=
  match s with
  | EmptyString => Some xH
  | String c s => if (c =? "0")%char then xO <$> of_bits s else if (c =? "1")%char then xI <$> of_bits s else None
  end.
Lemma of_bits_bits p : of_bits (bits p) = Some p.
Proof. induction p as [p IH|p IH|]; cbn; [by rewrite IH..|done]. Qed.
#[local] Instance resource_eq_dec : EqDecision BasicResource.
Proof. solve_decision. Defined.
#[local] Instance resource_countable : Countable BasicResource.
Proof.
  refine (inj_countable' (fun r => (ResourceType r, ResourceDescription r, ResourcePlatform r, Category r, ResourceTags r, Amount r, ExtractProperties r, ContextPrefix r))
    (fun '(a, b, c, d, e, f, g, h) => mkBasicResource a b c d e f g h) _). by intros [].
Defined.
Definition text {A} `{Countable A} (open : ascii) (x : A) : string := String open (bits (encode x)).
Definition of_text {A} `{Countable A} (s : string) : option A := match s with String _ s => of_bits s ≫= decode | EmptyString => None end.
Lemma of_text_text {A} `{Countable A} c (x : A) : of_text (text c x) = Some x.
Proof. unfold of_text, text. rewrite of_bits_bits. cbn. apply decode_encode. Qed.
Lemma text_prefix {A} `{Countable A} c (x : A) : HasPrefix (text c x) (String c "") = true.
Proof. exact (HasPrefix_app (String c "") (bits (encode x))). Qed.
Definition quoted (s : string) : option string :=
  match s with String c r => if (c =? ascii_of_nat 34)%char then Some (String.substring 0 (String.length r - 1) r) else None | EmptyString => None end.
#[local] Instance demo_json : Json := {|
  marshal_strings := text "["; unmarshal_strings := of_text;
  marshal_headers := text "{"; unmarshal_headers := of_text;
  marshal_resource := text "{"; unmarshal_resource := of_text;
  unmarshal_string := quoted;
  sprint := fun v => match v with GPlain (VString s) => s | _ => "?" end |}.
#[local] Instance demo_decoder : Decoder := {|
  decode_float := fun _ => None; decode_complex := fun _ => None;
  decode_object := fun s => Some (VOther "map" (Some s)); decode_array := fun s => Some (VOther "slice" (Some s)) |}.
#[local] Instance demo_laws : JsonLaws.
Proof.
  split; intros; [by apply of_text_text..| | | |done].
  - split_and!; [|apply text_prefix|by eexists]. unfold marshal_strings, demo_json, text. by destruct (bits _).
  - split; [apply text_prefix|by eexists].
  - split; [apply text_prefix|by eexists].
Qed.

Definition demo_codes : gmap string string -> string := text "{".
Definition demo_task (version : string) : VTask :=
  mkVTask "t1" (Task.set_Tags (Task.NewTaskDefinition "build" "SHELL") ["Linux"]) true {["Accept" := "text"]} ["cd src"] [] ["make"; "make test"]
    (mkBasicResource "CPU" "" "" "" [] 2 [] "") version (Some ["compile"]) None "" (NVMap {["tries" := GPlain (VInt "int" 3)]}) [] ∅.
Definition demo_saved (version : string) : VTask :=
  match ValidateBeforeSave demo_codes (demo_task version) with Return t => t | _ => demo_task version end.
Definition demo_variables : gmap string gvalue := {["tries" := GPlain (VInt "int" 3)]}.

Lemma task_survives_storage_witness :
  ValidateBeforeSave demo_codes (demo_task "") = Return (demo_saved "") /\
  exists t2, AfterLoad of_text (stored (demo_saved "")) = Return t2 /\
    Headers t2 = {["Accept" := "text"]} /\ BeforeScript t2 = ["cd src"] /\ Script t2 = ["make"; "make test"] /\ AfterScript t2 = [] /\
    Resources t2 = mkBasicResource "CPU" "" "" "" [] 2 [] "" /\ tags t2 = Some ["linux"] /\
    Dependencies t2 = Some ["compile"] /\ ArtifactIDs t2 = None /\ NameValueVariables t2 = NVMap (read_value <$> demo_variables).
Proof.
  split; [by vm_compute|].
  refine (task_survives_storage demo_codes of_text (demo_task "") (demo_saved "") demo_variables _ _ _ _ _ _).
  - by split.
  - by split.
  - reflexivity.
  - apply map_Forall_singleton. split; [reflexivity|]. eexists. split; reflexivity.
  - intros c. apply of_text_text.
  - by vm_compute.
Defined.
Lemma conditional_task_is_lost_witness :
  ValidateBeforeSave demo_codes (demo_task "1.0-dev") = Return (demo_saved "1.0-dev") /\
  exists e, AfterLoad of_text (stored (demo_saved "1.0-dev")) = Error e.
Proof.
  split; [by vm_compute|].
  refine (conditional_task_is_lost demo_codes of_text (demo_task "1.0-dev") (demo_saved "1.0-dev") demo_variables _ _ _ _ _).
  - by split.
  - reflexivity.
  - apply map_Forall_singleton. reflexivity.
  - right. split; [done|reflexivity].
  - by vm_compute.
Defined.

(** A user's variable with a reserved name makes the server panic. *)
Example reserved_variable_panics :
  TaskVars.AddVariable "script" (GPlain (VString "make")) (demo_task "") = Panic.
Proof. reflexivity. Qed.
(** A variable that is set again to a value of another type keeps the kind of its
    first value, and cannot be read. *)
Example retyped_variable_is_unreadable :
  exists x t x' t' y, TaskVars.AddVariable "tries" (GPlain (VInt "int" 3)) (demo_task "") = Return (x, t) /\
    TaskVars.AddVariable "tries" (GPlain (VString "many")) t = Return (x', t') /\ Variables t' = [y] /\ GetParsedValue (v_nv y) = None.
Proof. do 5 eexists. split_and!; reflexivity. Qed.
End VariablesDemo.
