(* ===== verification/Artifacts.v ===== *)
(** * Artifacts: files of jobs and users

    Models [src/internal/types/artifact.go], the object store's adapter
    [src/internal/artifacts/service_s3.go], the table of artifacts
    [src/queen/repository/artifact_repository_impl.go], the expiry of log events in
    [log_event_repository_impl.go], the manager
    [src/queen/manager/artifact_manager.go] and the tasklet
    [src/queen/tasklet/artifact_expiration_tasklet.go].

    The table is a map from identifiers, its primary key; a query without an order
    visits it in any order.  The object store is a map from keys.  A statement and a
    call of the store may fail, and what fails is an argument.  The conditions that
    [addQuery] builds from the parameters of a search are a test on rows. *)

From Stdlib Require Import Ascii.
From S2P Require Import Prelude RequestState Acl Tags Approval JobRequest JobManager TaskMessage.
Import Query.

Open Scope Z_scope.
Open Scope go_scope.

(** ** Artifacts *)
Module Art.
Definition ArtifactKindLogs : string := "LOGS".
Definition ArtifactKindTask : string := "TASK_ARTIFACTS".
Definition ArtifactKindUser : string := "USER_UPLOADED".
Definition ArtifactKindCache : string := "CACHE".

Record Artifact := mkArtifact {
  a_ID : string;
  a_Bucket : string;
  a_Name : string;
  a_OrganizationID : string;
  a_UserID : string;
  ArtifactGroup : string;
  a_Kind : string;
  ETag : string;
  ArtifactOrder : Z;
  a_JobRequestID : string;
  a_JobExecutionID : string;
  a_TaskExecutionID : string;
  a_TaskType : string;
  a_SHA256 : string;
  ContentType : string;
  ContentLength : Z;
  Permissions : Z;
  MetadataSerialized : string;
  TagsSerialized : string;
  a_ExpiresAt : Z;
  a_CreatedAt : Z;
  a_UpdatedAt : Z;
  a_Active : bool;
  Metadata : gmap string string;
  a_Tags : gmap string string;
  URL : string
}.
Definition set_a_ID (x : string) (a : Artifact) : Artifact :=
  mkArtifact x (a_Bucket a) (a_Name a) (a_OrganizationID a) (a_UserID a) (ArtifactGroup a) (a_Kind a) (ETag a) (ArtifactOrder a) (a_JobRequestID a) (a_JobExecutionID a) (a_TaskExecutionID a) (a_TaskType a) (a_SHA256 a) (ContentType a) (ContentLength a) (Permissions a) (MetadataSerialized a) (TagsSerialized a) (a_ExpiresAt a) (a_CreatedAt a) (a_UpdatedAt a) (a_Active a) (Metadata a) (a_Tags a) (URL a).
Definition set_a_Bucket (x : string) (a : Artifact) : Artifact :=
  mkArtifact (a_ID a) x (a_Name a) (a_OrganizationID a) (a_UserID a) (ArtifactGroup a) (a_Kind a) (ETag a) (ArtifactOrder a) (a_JobRequestID a) (a_JobExecutionID a) (a_TaskExecutionID a) (a_TaskType a) (a_SHA256 a) (ContentType a) (ContentLength a) (Permissions a) (MetadataSerialized a) (TagsSerialized a) (a_ExpiresAt a) (a_CreatedAt a) (a_UpdatedAt a) (a_Active a) (Metadata a) (a_Tags a) (URL a).
Definition set_a_Name (x : string) (a : Artifact) : Artifact :=
  mkArtifact (a_ID a) (a_Bucket a) x (a_OrganizationID a) (a_UserID a) (ArtifactGroup a) (a_Kind a) (ETag a) (ArtifactOrder a) (a_JobRequestID a) (a_JobExecutionID a) (a_TaskExecutionID a) (a_TaskType a) (a_SHA256 a) (ContentType a) (ContentLength a) (Permissions a) (MetadataSerialized a) (TagsSerialized a) (a_ExpiresAt a) (a_CreatedAt a) (a_UpdatedAt a) (a_Active a) (Metadata a) (a_Tags a) (URL a).
Definition set_a_OrganizationID (x : string) (a : Artifact) : Artifact :=
  mkArtifact (a_ID a) (a_Bucket a) (a_Name a) x (a_UserID a) (ArtifactGroup a) (a_Kind a) (ETag a) (ArtifactOrder a) (a_JobRequestID a) (a_JobExecutionID a) (a_TaskExecutionID a) (a_TaskType a) (a_SHA256 a) (ContentType a) (ContentLength a) (Permissions a) (MetadataSerialized a) (TagsSerialized a) (a_ExpiresAt a) (a_CreatedAt a) (a_UpdatedAt a) (a_Active a) (Metadata a) (a_Tags a) (URL a).
Definition set_a_UserID (x : string) (a : Artifact) : Artifact :=
  mkArtifact (a_ID a) (a_Bucket a) (a_Name a) (a_OrganizationID a) x (ArtifactGroup a) (a_Kind a) (ETag a) (ArtifactOrder a) (a_JobRequestID a) (a_JobExecutionID a) (a_TaskExecutionID a) (a_TaskType a) (a_SHA256 a) (ContentType a) (ContentLength a) (Permissions a) (MetadataSerialized a) (TagsSerialized a) (a_ExpiresAt a) (a_CreatedAt a) (a_UpdatedAt a) (a_Active a) (Metadata a) (a_Tags a) (URL a).
Definition set_ArtifactGroup (x : string) (a : Artifact) : Artifact :=
  mkArtifact (a_ID a) (a_Bucket a) (a_Name a) (a_OrganizationID a) (a_UserID a) x (a_Kind a) (ETag a) (ArtifactOrder a) (a_JobRequestID a) (a_JobExecutionID a) (a_TaskExecutionID a) (a_TaskType a) (a_SHA256 a) (ContentType a) (ContentLength a) (Permissions a) (MetadataSerialized a) (TagsSerialized a) (a_ExpiresAt a) (a_CreatedAt a) (a_UpdatedAt a) (a_Active a) (Metadata a) (a_Tags a) (URL a).
Definition set_a_Kind (x : string) (a : Artifact) : Artifact :=
  mkArtifact (a_ID a) (a_Bucket a) (a_Name a) (a_OrganizationID a) (a_UserID a) (ArtifactGroup a) x (ETag a) (ArtifactOrder a) (a_JobRequestID a) (a_JobExecutionID a) (a_TaskExecutionID a) (a_TaskType a) (a_SHA256 a) (ContentType a) (ContentLength a) (Permissions a) (MetadataSerialized a) (TagsSerialized a) (a_ExpiresAt a) (a_CreatedAt a) (a_UpdatedAt a) (a_Active a) (Metadata a) (a_Tags a) (URL a).
Definition set_ETag (x : string) (a : Artifact) : Artifact :=
  mkArtifact (a_ID a) (a_Bucket a) (a_Name a) (a_OrganizationID a) (a_UserID a) (ArtifactGroup a) (a_Kind a) x (ArtifactOrder a) (a_JobRequestID a) (a_JobExecutionID a) (a_TaskExecutionID a) (a_TaskType a) (a_SHA256 a) (ContentType a) (ContentLength a) (Permissions a) (MetadataSerialized a) (TagsSerialized a) (a_ExpiresAt a) (a_CreatedAt a) (a_UpdatedAt a) (a_Active a) (Metadata a) (a_Tags a) (URL a).
Definition set_a_JobRequestID (x : string) (a : Artifact) : Artifact :=
  mkArtifact (a_ID a) (a_Bucket a) (a_Name a) (a_OrganizationID a) (a_UserID a) (ArtifactGroup a) (a_Kind a) (ETag a) (ArtifactOrder a) x (a_JobExecutionID a) (a_TaskExecutionID a) (a_TaskType a) (a_SHA256 a) (ContentType a) (ContentLength a) (Permissions a) (MetadataSerialized a) (TagsSerialized a) (a_ExpiresAt a) (a_CreatedAt a) (a_UpdatedAt a) (a_Active a) (Metadata a) (a_Tags a) (URL a).
Definition set_a_JobExecutionID (x : string) (a : Artifact) : Artifact :=
  mkArtifact (a_ID a) (a_Bucket a) (a_Name a) (a_OrganizationID a) (a_UserID a) (ArtifactGroup a) (a_Kind a) (ETag a) (ArtifactOrder a) (a_JobRequestID a) x (a_TaskExecutionID a) (a_TaskType a) (a_SHA256 a) (ContentType a) (ContentLength a) (Permissions a) (MetadataSerialized a) (TagsSerialized a) (a_ExpiresAt a) (a_CreatedAt a) (a_UpdatedAt a) (a_Active a) (Metadata a) (a_Tags a) (URL a).
Definition set_a_TaskExecutionID (x : string) (a : Artifact) : Artifact :=
  mkArtifact (a_ID a) (a_Bucket a) (a_Name a) (a_OrganizationID a) (a_UserID a) (ArtifactGroup a) (a_Kind a) (ETag a) (ArtifactOrder a) (a_JobRequestID a) (a_JobExecutionID a) x (a_TaskType a) (a_SHA256 a) (ContentType a) (ContentLength a) (Permissions a) (MetadataSerialized a) (TagsSerialized a) (a_ExpiresAt a) (a_CreatedAt a) (a_UpdatedAt a) (a_Active a) (Metadata a) (a_Tags a) (URL a).
Definition set_a_TaskType (x : string) (a : Artifact) : Artifact :=
  mkArtifact (a_ID a) (a_Bucket a) (a_Name a) (a_OrganizationID a) (a_UserID a) (ArtifactGroup a) (a_Kind a) (ETag a) (ArtifactOrder a) (a_JobRequestID a) (a_JobExecutionID a) (a_TaskExecutionID a) x (a_SHA256 a) (ContentType a) (ContentLength a) (Permissions a) (MetadataSerialized a) (TagsSerialized a) (a_ExpiresAt a) (a_CreatedAt a) (a_UpdatedAt a) (a_Active a) (Metadata a) (a_Tags a) (URL a).
Definition set_a_SHA256 (x : string) (a : Artifact) : Artifact :=
  mkArtifact (a_ID a) (a_Bucket a) (a_Name a) (a_OrganizationID a) (a_UserID a) (ArtifactGroup a) (a_Kind a) (ETag a) (ArtifactOrder a) (a_JobRequestID a) (a_JobExecutionID a) (a_TaskExecutionID a) (a_TaskType a) x (ContentType a) (ContentLength a) (Permissions a) (MetadataSerialized a) (TagsSerialized a) (a_ExpiresAt a) (a_CreatedAt a) (a_UpdatedAt a) (a_Active a) (Metadata a) (a_Tags a) (URL a).
Definition set_ContentType (x : string) (a : Artifact) : Artifact :=
  mkArtifact (a_ID a) (a_Bucket a) (a_Name a) (a_OrganizationID a) (a_UserID a) (ArtifactGroup a) (a_Kind a) (ETag a) (ArtifactOrder a) (a_JobRequestID a) (a_JobExecutionID a) (a_TaskExecutionID a) (a_TaskType a) (a_SHA256 a) x (ContentLength a) (Permissions a) (MetadataSerialized a) (TagsSerialized a) (a_ExpiresAt a) (a_CreatedAt a) (a_UpdatedAt a) (a_Active a) (Metadata a) (a_Tags a) (URL a).
Definition set_ContentLength (x : Z) (a : Artifact) : Artifact :=
  mkArtifact (a_ID a) (a_Bucket a) (a_Name a) (a_OrganizationID a) (a_UserID a) (ArtifactGroup a) (a_Kind a) (ETag a) (ArtifactOrder a) (a_JobRequestID a) (a_JobExecutionID a) (a_TaskExecutionID a) (a_TaskType a) (a_SHA256 a) (ContentType a) x (Permissions a) (MetadataSerialized a) (TagsSerialized a) (a_ExpiresAt a) (a_CreatedAt a) (a_UpdatedAt a) (a_Active a) (Metadata a) (a_Tags a) (URL a).
Definition set_MetadataSerialized (x : string) (a : Artifact) : Artifact :=
  mkArtifact (a_ID a) (a_Bucket a) (a_Name a) (a_OrganizationID a) (a_UserID a) (ArtifactGroup a) (a_Kind a) (ETag a) (ArtifactOrder a) (a_JobRequestID a) (a_JobExecutionID a) (a_TaskExecutionID a) (a_TaskType a) (a_SHA256 a) (ContentType a) (ContentLength a) (Permissions a) x (TagsSerialized a) (a_ExpiresAt a) (a_CreatedAt a) (a_UpdatedAt a) (a_Active a) (Metadata a) (a_Tags a) (URL a).
Definition set_TagsSerialized (x : string) (a : Artifact) : Artifact :=
  mkArtifact (a_ID a) (a_Bucket a) (a_Name a) (a_OrganizationID a) (a_UserID a) (ArtifactGroup a) (a_Kind a) (ETag a) (ArtifactOrder a) (a_JobRequestID a) (a_JobExecutionID a) (a_TaskExecutionID a) (a_TaskType a) (a_SHA256 a) (ContentType a) (ContentLength a) (Permissions a) (MetadataSerialized a) x (a_ExpiresAt a) (a_CreatedAt a) (a_UpdatedAt a) (a_Active a) (Metadata a) (a_Tags a) (URL a).
Definition set_a_CreatedAt (x : Z) (a : Artifact) : Artifact :=
  mkArtifact (a_ID a) (a_Bucket a) (a_Name a) (a_OrganizationID a) (a_UserID a) (ArtifactGroup a) (a_Kind a) (ETag a) (ArtifactOrder a) (a_JobRequestID a) (a_JobExecutionID a) (a_TaskExecutionID a) (a_TaskType a) (a_SHA256 a) (ContentType a) (ContentLength a) (Permissions a) (MetadataSerialized a) (TagsSerialized a) (a_ExpiresAt a) x (a_UpdatedAt a) (a_Active a) (Metadata a) (a_Tags a) (URL a).
Definition set_a_UpdatedAt (x : Z) (a : Artifact) : Artifact :=
  mkArtifact (a_ID a) (a_Bucket a) (a_Name a) (a_OrganizationID a) (a_UserID a) (ArtifactGroup a) (a_Kind a) (ETag a) (ArtifactOrder a) (a_JobRequestID a) (a_JobExecutionID a) (a_TaskExecutionID a) (a_TaskType a) (a_SHA256 a) (ContentType a) (ContentLength a) (Permissions a) (MetadataSerialized a) (TagsSerialized a) (a_ExpiresAt a) (a_CreatedAt a) x (a_Active a) (Metadata a) (a_Tags a) (URL a).
Definition set_a_Active (x : bool) (a : Artifact) : Artifact :=
  mkArtifact (a_ID a) (a_Bucket a) (a_Name a) (a_OrganizationID a) (a_UserID a) (ArtifactGroup a) (a_Kind a) (ETag a) (ArtifactOrder a) (a_JobRequestID a) (a_JobExecutionID a) (a_TaskExecutionID a) (a_TaskType a) (a_SHA256 a) (ContentType a) (ContentLength a) (Permissions a) (MetadataSerialized a) (TagsSerialized a) (a_ExpiresAt a) (a_CreatedAt a) (a_UpdatedAt a) x (Metadata a) (a_Tags a) (URL a).
Definition set_Metadata (x : gmap string string) (a : Artifact) : Artifact :=
  mkArtifact (a_ID a) (a_Bucket a) (a_Name a) (a_OrganizationID a) (a_UserID a) (ArtifactGroup a) (a_Kind a) (ETag a) (ArtifactOrder a) (a_JobRequestID a) (a_JobExecutionID a) (a_TaskExecutionID a) (a_TaskType a) (a_SHA256 a) (ContentType a) (ContentLength a) (Permissions a) (MetadataSerialized a) (TagsSerialized a) (a_ExpiresAt a) (a_CreatedAt a) (a_UpdatedAt a) (a_Active a) x (a_Tags a) (URL a).
Definition set_a_Tags (x : gmap string string) (a : Artifact) : Artifact :=
  mkArtifact (a_ID a) (a_Bucket a) (a_Name a) (a_OrganizationID a) (a_UserID a) (ArtifactGroup a) (a_Kind a) (ETag a) (ArtifactOrder a) (a_JobRequestID a) (a_JobExecutionID a) (a_TaskExecutionID a) (a_TaskType a) (a_SHA256 a) (ContentType a) (ContentLength a) (Permissions a) (MetadataSerialized a) (TagsSerialized a) (a_ExpiresAt a) (a_CreatedAt a) (a_UpdatedAt a) (a_Active a) (Metadata a) x (URL a).
Definition set_URL (x : string) (a : Artifact) : Artifact :=
  mkArtifact (a_ID a) (a_Bucket a) (a_Name a) (a_OrganizationID a) (a_UserID a) (ArtifactGroup a) (a_Kind a) (ETag a) (ArtifactOrder a) (a_JobRequestID a) (a_JobExecutionID a) (a_TaskExecutionID a) (a_TaskType a) (a_SHA256 a) (ContentType a) (ContentLength a) (Permissions a) (MetadataSerialized a) (TagsSerialized a) (a_ExpiresAt a) (a_CreatedAt a) (a_UpdatedAt a) (a_Active a) (Metadata a) (a_Tags a) x.

Definition no_artifact : Artifact := mkArtifact "" "" "" "" "" "" "" "" 0 "" "" "" "" "" "" 0 0 "" "" 0 0 0 false ∅ ∅ "".
Definition NewArtifact (now : Z) (bucket name group kind reqID sha256 : string) (length : Z) : Artifact :=
  mkArtifact "" bucket name "" "" group kind "" 0 reqID "" "" "" sha256 "" length 0 "" "" 0 now 0 false ∅ ∅ "".

(** Some names of metadata stand for a field. *)
Definition AddMetadata (name value : string) (a : Artifact) : Artifact :=
  let lowerName := ToLower name in
  if (ContentType a == "") && (String.length lowerName <=? 12)%nat && HasPrefix lowerName "content" && HasSuffix lowerName "type"
  then set_ContentType value a
  else if lowerName == "kind" then set_a_Kind value a
  else if lowerName == "name" then set_a_Name value a
  else if lowerName == "group" then set_ArtifactGroup value a
  else if lowerName == "user_id" then set_a_UserID value a
  else if (lowerName == "organization_id") || (lowerName == "org") || (lowerName == "org_id") then set_a_OrganizationID value a
  else set_Metadata (<[name := value]> (Metadata a)) a.
Definition AddTag (name value : string) (a : Artifact) : Artifact := set_a_Tags (<[name := value]> (a_Tags a)) a.
Definition ShortUserID (a : Artifact) : string :=
  if (8 <? String.length (a_UserID a))%nat then String.substring 0 8 (a_UserID a) +:+ "..." else a_UserID a.

Inductive artifact_error := NameMissing | BucketMissing | IDMissing | SHA256Missing | LengthMissing | ExpirationMissing | NotJson (text : string).
Definition Validate (a : Artifact) : option artifact_error :=
  if a_Name a == "" then Some NameMissing
  else if a_Bucket a == "" then Some BucketMissing
  else if a_ID a == "" then Some IDMissing
  else if a_SHA256 a == "" then Some SHA256Missing
  else if ContentLength a =? 0 then Some LengthMissing
  else None.

(** JSON of maps of strings. *)
Class MapJson := { marshal_map : gmap string string -> string; unmarshal_map : string -> option (gmap string string) }.
Section Json.
Context `{MapJson}.
Definition ValidateBeforeSave (a : Artifact) : artifact_error + Artifact :=
  match Validate a with
  | Some e => inl e
  | None =>
      if a_ExpiresAt a =? 0 then inl ExpirationMissing
      else
        let a := if (0 <? size (Metadata a))%nat then set_MetadataSerialized (marshal_map (Metadata a)) a else a in
        inr (if (0 <? size (a_Tags a))%nat then set_TagsSerialized (marshal_map (a_Tags a)) a else a)
  end.
Definition AfterLoad (a : Artifact) : artifact_error + Artifact :=
  match (if (0 <? String.length (MetadataSerialized a))%nat
         then match unmarshal_map (MetadataSerialized a) with Some m => inr (set_Metadata m a) | None => inl (NotJson (MetadataSerialized a)) end
         else inr a) with
  | inl e => inl e
  | inr a =>
      if (0 <? String.length (TagsSerialized a))%nat
      then match unmarshal_map (TagsSerialized a) with Some m => inr (set_a_Tags m a) | None => inl (NotJson (TagsSerialized a)) end
      else inr a
  end.
End Json.

Definition DashboardURL (a : Artifact) : string := ReplaceAll (URL a) "/api/v1/" "/dashboard/".
Definition DashboardRawURL (a : Artifact) : string := ReplaceAll (URL a) "/api/v1/" "/dashboard/" +:+ "/raw".
Definition LengthString (a : Artifact) : string :=
  if 1024 * 1024 <? ContentLength a then itoa (Z.quot (Z.quot (ContentLength a) 1024) 1024) +:+ " MiB"
  else if 1024 <? ContentLength a then itoa (Z.quot (ContentLength a) 1024) +:+ " KiB"
  else itoa (ContentLength a) +:+ " B".
End Art.
Import Art.

(** ** State and calls *)
Module World.
Record Object := mkObject { data : string; o_ContentType : string; o_Metadata : gmap string string; Tagging : option string }.
Record LogRow := mkLogRow { l_UserID : string; l_CreatedAt : Z }.
(** [asked] counts the calls outside, [made] the identifiers made, [created] are
    the buckets made with their locations. *)
Record St := mkSt {
  rows : gmap string Artifact;
  objects : gmap string Object;
  logs : list LogRow;
  verifiedBucket : bool;
  created : list (string * option string);
  asked : nat;
  made : nat;
  time : Z
}.
Definition empty (now : Z) : St := mkSt ∅ ∅ [] false [] 0 0 now.
Definition set_rows (x : gmap string Artifact) (s : St) : St := mkSt x (objects s) (logs s) (verifiedBucket s) (created s) (asked s) (made s) (time s).
Definition set_objects (x : gmap string Object) (s : St) : St := mkSt (rows s) x (logs s) (verifiedBucket s) (created s) (asked s) (made s) (time s).
Definition set_logs (x : list LogRow) (s : St) : St := mkSt (rows s) (objects s) x (verifiedBucket s) (created s) (asked s) (made s) (time s).
Definition set_verifiedBucket (s : St) : St := mkSt (rows s) (objects s) (logs s) true (created s) (asked s) (made s) (time s).
Definition add_created (x : string * option string) (s : St) : St := mkSt (rows s) (objects s) (logs s) (verifiedBucket s) (created s ++ [x]) (asked s) (made s) (time s).
Definition tick (s : St) : St := mkSt (rows s) (objects s) (logs s) (verifiedBucket s) (created s) (S (asked s)) (made s) (time s).
Definition count_made (s : St) : St := mkSt (rows s) (objects s) (logs s) (verifiedBucket s) (created s) (asked s) (S (made s)) (time s).

(** The answer of the store to whether the bucket exists. *)
Inductive head_answer := BucketThere | HeadFailed (notFound : bool) (status : option Z).
Record Url := mkUrl { Scheme : string; UrlHost : string; rest : string }.
(** The [n]-th call outside: whether it fails; the texts and hashes. *)
Class Outside := {
  db_fails : nat -> bool;
  s3_fails : nat -> bool;
  file_fails : nat -> bool;
  head_bucket : nat -> head_answer;
  ulid : nat -> string;
  sha256 : string -> string;
  etag : string -> option string;
  presign : string -> string -> string -> Z -> option string;
  url_parse : string -> option Url;
  url_string : Url -> string;
  query_escape : string -> string;
  list_page : nat
}.
Inductive error := ValidationError (e : artifact_error) | NotFoundError | PermissionError | DBError | StoreError | NoData | NoBody | FileError.
Definition M (A : Type) : Type := St -> (A + error) * St.
Definition ret {A} (a : A) : M A := fun s => (inl a, s).
Definition throw {A} (e : error) : M A := fun s => (inr e, s).
Definition bind {A B} (m : M A) (k : A -> M B) : M B := fun s => match m s with (inl a, s) => k a s | (inr e, s) => (inr e, s) end.
Definition attempt {A} (m : M A) : M (A + error) := fun s => let '(r, s) := m s in (inl r, s).
Declare Scope art_scope.
Notation "x <- m ;; k" := (bind m (fun x => k)) (at level 100, m at next level, right associativity) : art_scope.
Notation "m ;;; k" := (bind m (fun _ => k)) (at level 100, right associativity) : art_scope.
Open Scope art_scope.

Section Calls.
Context `{Outside}.
Definition now : M Z := fun s => (inl (time s), s).
Definition ulid_Make : M string := fun s => (inl (ulid (made s)), count_made s).
Definition call {A} (fails : nat -> bool) (e : error) (f : St -> (A + error) * St) : M A :=
  fun s => if fails (asked s) then (inr e, tick s) else f (tick s).
Definition query {A} (f : gmap string Artifact -> A) : M A := call db_fails DBError (fun s => (inl (f (rows s)), s)).
Definition exec {A} (f : gmap string Artifact -> A * gmap string Artifact) : M A :=
  call db_fails DBError (fun s => let '(a, r) := f (rows s) in (inl a, set_rows r s)).
Definition file : M unit := call file_fails FileError (fun s => (inl tt, s)).
Definition checked {A} (r : artifact_error + A) : M A := match r with inl e => throw (ValidationError e) | inr a => ret a end.
End Calls.
End World.
Import World.

(** ** The object store *)
Module S3.
Record S3Config := mkS3Config { Bucket : string; Prefix : string; PublicEndpoint : string; Region : string; local_ready : option bool }.
Definition quote : ascii := ascii_of_nat 34.
Fixpoint unquote (l : list ascii) : list ascii := match l with c :: l' => if (c =? quote)%char then unquote l' else l | [] => [] end.
Definition trim_quotes (s : string) : string :=
  String.string_of_list_ascii (rev (unquote (rev (unquote (String.list_ascii_of_string s))))).
Definition isBucketNotFound (notFound : bool) (status : option Z) : bool :=
  notFound || match status with Some c => c =? 404 | None => false end.

Section Adapter.
Context `{Outside} `{RangeOrder} (conf : S3Config).
Definition prefix : string := NormalizePrefix (Prefix conf).
Definition s3 {A} (f : St -> (A + error) * St) : M A := call s3_fails StoreError f.

Definition Get (id : string) : M string :=
  s3 (fun s => match objects s !! id with Some o => (inl (data o), s) | None => (inr StoreError, s) end).
Definition location : option string := if (Region conf != "") && (Region conf != "us-east-1") then Some (Region conf) else None.
Definition create_bucket : M unit := s3 (fun s => (inl tt, add_created (Bucket conf, location) s)).
(** A local store is waited for; its bucket is made when it is missing. *)
Definition checkBucket : M unit :=
  fun s =>
    if verifiedBucket s then (inl tt, s)
    else
      match local_ready conf with
      | Some false => (inr StoreError, s)
      | _ =>
          match head_bucket (asked s) with
          | BucketThere => (inl tt, set_verifiedBucket (tick s))
          | HeadFailed notFound status =>
              if isBucketNotFound notFound status
              then match create_bucket (tick s) with (inl _, s) => (inl tt, set_verifiedBucket s) | other => other end
              else (inr StoreError, tick s)
          end
      end.
Definition buildPutInput (a : Artifact) (body : string) : Object :=
  mkObject body (if ContentType a == "" then "application/octet-stream" else ContentType a)
    (<["SHA256" := a_SHA256 a]> (<["ID" := a_ID a]> (Metadata a)))
    (if (0 <? size (a_Tags a))%nat
     then Some (String.concat "&" (map (fun kv => query_escape (fst kv) +:+ "=" +:+ query_escape (snd kv)) (range (a_Tags a)))) else None).
Definition put (a : Artifact) (body : string) : M Artifact :=
  s3 (fun s => (inl (match etag body with Some e => set_ETag (trim_quotes e) a | None => a end),
                set_objects (<[a_ID a := buildPutInput a body]> (objects s)) s)).
(** The identifier of an artifact gets the prefix of the store. *)
Definition with_prefix (a : Artifact) : Artifact :=
  let p := NormalizePrefix prefix in
  if (p != "") && negb (HasPrefix (a_ID a) p) then set_a_ID (p +:+ a_ID a) a else a.
Definition check_valid (a : Artifact) : M unit := match Validate a with Some e => throw (ValidationError e) | None => ret tt end.

(** The contents of a file: reading it may fail. *)
Definition SaveFile (a : Artifact) (body : string) : M Artifact :=
  file ;;;
  if body == "" then throw NoData
  else
    file ;;;
    a <- (if a_ID a == "" then x <- ulid_Make ;; ret (set_a_ID (NormalizePrefix prefix +:+ x) a) else ret (with_prefix a)) ;;
    let a := set_ContentLength (Z.of_nat (String.length body)) (set_a_Bucket (Bucket conf) (set_a_SHA256 (sha256 body) a)) in
    check_valid a ;;;
    checkBucket ;;;
    put a body.
Definition SaveData (prefix_ : string) (a : Artifact) (body : string) : M Artifact :=
  let a := if a_ID a == "" then set_a_ID (NormalizePrefix prefix +:+ NormalizePrefix prefix_ +:+ a_SHA256 a) a else with_prefix a in
  check_valid a ;;;
  checkBucket ;;;
  put (set_a_Bucket (Bucket conf) a) body.
Definition SaveBytes (prefix_ name body : string) : M Artifact :=
  if body == "" then throw NoData
  else SaveData prefix_
         (set_ContentType "application/octet-stream" (set_ContentLength (Z.of_nat (String.length body))
           (set_a_SHA256 (sha256 body) (set_a_Bucket (Bucket conf) (set_a_Name name no_artifact))))) body.
Definition Delete (id : string) : M unit := s3 (fun s => (inl tt, set_objects (delete id (objects s)) s)).

(** A signed address, at the public host if there is one. *)
Definition publicURL (u : Url) : Url :=
  if PublicEndpoint conf == "" then u
  else
    let pub := PublicEndpoint conf in
    let pub := if negb (HasPrefix pub "http://") && negb (HasPrefix pub "https://") then "http://" +:+ pub else pub in
    match url_parse pub with Some p => mkUrl (Scheme p) (UrlHost p) (rest u) | None => u end.
Definition PresignedGetURL (id fileName : string) (expires : Z) : option Url :=
  match presign (Bucket conf) id fileName expires with
  | None => None
  | Some text => publicURL <$> url_parse text
  end.

(** The objects under a prefix, in the order of their keys, page by page. *)
Definition under (p : string) (s : St) : list (string * Object) :=
  sort_slice (fun a b => String.ltb (fst a) (fst b)) (List.filter (fun kv => HasPrefix (fst kv) p) (range (objects s))).
Definition listed (kv : string * Object) : Artifact :=
  let a := set_ContentLength (Z.of_nat (String.length (data (snd kv)))) (set_a_ID (fst kv) (set_a_Bucket (Bucket conf) no_artifact)) in
  match etag (data (snd kv)) with Some e => set_ETag (trim_quotes e) a | None => a end.
Fixpoint list_pages (fuel : nat) (l : list (string * Object)) (result : list Artifact) : M (list Artifact) :=
  match fuel with
  | O => ret result
  | S fuel =>
      page <- s3 (fun s => (inl (firstn list_page l), s)) ;;
      let result := result ++ map listed page in
      match skipn list_page l with [] => ret result | rest => list_pages fuel rest result end
  end.
Definition List_ (prefix_ : string) : M (list Artifact) :=
  fun s => let l := under (prefix +:+ prefix_) s in list_pages (S (List.length l)) l [] s.
End Adapter.
End S3.

(** ** The table of artifacts *)
Module ArtRepo.
Definition column (a : Artifact) (c : string) : string :=
  if c == "user_id" then a_UserID a else if c == "organization_id" then a_OrganizationID a else "".
Definition in_scope (qc : QueryContext) (readonly : bool) (a : Artifact) : bool := AddOrgElseUserWhere qc readonly (column a).
(** What a row keeps. *)
Definition row_of (a : Artifact) : Artifact := set_URL "" (set_a_Tags ∅ (set_Metadata ∅ a)).

Section Repo.
Context `{Outside} `{RangeOrder} `{MapJson}.
Definition transaction {A} (m : M A) : M A :=
  fun s =>
    match m s with
    | (inl a, s') => if db_fails (asked s') then (inr DBError, set_rows (rows s) (tick s')) else (inl a, tick s')
    | (inr e, s') => (inr e, set_rows (rows s) s')
    end.
Fixpoint load_all (l : list Artifact) : M (list Artifact) :=
  match l with
  | [] => ret []
  | a :: l => a <- checked (AfterLoad a) ;; l <- load_all l ;; ret (a :: l)
  end.
Definition matching (p : Artifact -> bool) (r : gmap string Artifact) : list Artifact := List.filter p (map snd (range r)).
(** [First] takes the row with the least key. *)
Definition first_row (p : Artifact -> bool) (r : gmap string Artifact) : option Artifact :=
  head (sort_slice (fun a b => String.ltb (a_ID a) (a_ID b)) (matching p r)).

Definition is_expired (qc : QueryContext) (before : Z) (a : Artifact) : bool :=
  in_scope qc true a && a_Active a && (a_ExpiresAt a <? before).
Definition ExpiredArtifacts (qc : QueryContext) (expiration : Z) (limit : nat) : M (list Artifact) :=
  t <- now ;;
  records <- query (fun r => firstn limit (matching (is_expired qc (t - expiration)) r)) ;;
  load_all records.
Definition Count (qc : QueryContext) (cond : Artifact -> bool) : M Z :=
  query (fun r => Z.of_nat (List.length (matching (fun a => in_scope qc true a && a_Active a && cond a) r))).
Definition newest_first (a b : Artifact) : bool := a_CreatedAt b <? a_CreatedAt a.
Definition Query (qc : QueryContext) (cond : Artifact -> bool) (page pageSize : nat) (order : option (Artifact -> Artifact -> bool))
    : M (list Artifact * Z) :=
  let less := match order with Some f => f | None => newest_first end in
  records <- query (fun r => firstn pageSize (skipn (page * pageSize)
                      (sort_slice less (matching (fun a => in_scope qc true a && a_Active a && cond a) r)))) ;;
  records <- load_all records ;;
  total <- attempt (Count qc cond) ;;
  ret (records, match total with inl n => n | inr _ => 0 end).
Definition first_loaded (p : Artifact -> bool) : M Artifact :=
  found <- attempt (query (first_row p)) ;;
  match found with
  | inl (Some a) => checked (AfterLoad a)
  | _ => throw NotFoundError
  end.
Definition GetBySHA256 (qc : QueryContext) (sha256 : string) : M Artifact :=
  first_loaded (fun a => in_scope qc true a && (a_SHA256 a == sha256) && a_Active a).
Definition Get (qc : QueryContext) (id : string) : M Artifact :=
  first_loaded (fun a => in_scope qc true a && (a_ID a == id) && a_Active a).
Definition Delete (qc : QueryContext) (id : string) : M unit :=
  t <- now ;;
  n <- exec (fun r =>
         match r !! id with
         | Some a => if a_Active a && in_scope qc false a then (1%nat, <[id := set_a_UpdatedAt t (set_a_Active false a)]> r) else (0%nat, r)
         | None => (0%nat, r)
         end) ;;
  if (n =? 1)%nat then ret tt else throw NotFoundError.
(** A second row with the same key is refused. *)
Definition create (a : Artifact) : M unit :=
  call db_fails DBError (fun s => match rows s !! a_ID a with Some _ => (inr DBError, s) | None => (inl tt, set_rows (<[a_ID a := row_of a]> (rows s)) s) end).
Definition Save (a : Artifact) : M Artifact :=
  a <- checked (ValidateBeforeSave a) ;;
  t <- now ;;
  let a := set_a_UpdatedAt t (set_a_CreatedAt t (set_a_Active true a)) in
  transaction (create a) ;;;
  ret a.
(** The fields that an update takes over into the row that is there. *)
Definition merge (a old : Artifact) : Artifact :=
  let old := foldl (fun old kv => AddMetadata (fst kv) (snd kv) old) old (range (Metadata a)) in
  set_ArtifactGroup (ArtifactGroup a) (set_a_TaskExecutionID (a_TaskExecutionID a) (set_a_JobExecutionID (a_JobExecutionID a)
    (set_a_JobRequestID (a_JobRequestID a) (set_a_OrganizationID (a_OrganizationID a) (set_a_TaskType (a_TaskType a) (set_a_UserID (a_UserID a) old)))))).
Definition Update (qc : QueryContext) (a : Artifact) : M Artifact :=
  a <- checked (ValidateBeforeSave a) ;;
  if negb (Matches qc (a_UserID a) (a_OrganizationID a) false) then throw PermissionError
  else
    old <- attempt (Get qc (a_ID a)) ;;
    let a := match old with inl old => merge a old | inr _ => a end in
    t <- now ;;
    let a := set_a_UpdatedAt t (set_a_Active true a) in
    transaction (exec (fun r => (tt, <[a_ID a := row_of a]> r))) ;;;
    ret a.

(** Log events of the user, not of the organization. *)
Definition ExpireLogEvents (qc : QueryContext) (expiration : Z) : M Z :=
  call db_fails DBError (fun s =>
    let old l := AddUserWhere qc false (fun c => if c == "user_id" then l_UserID l else "") && (l_CreatedAt l <? time s - expiration) in
    (inl (Z.of_nat (List.length (List.filter old (logs s)))), set_logs (List.filter (fun l => negb (old l)) (logs s)) s)).
End Repo.
End ArtRepo.

(** ** The manager *)
Module ArtManager.
Record Settings := mkSettings {
  s3_conf : S3.S3Config;
  ExternalBaseURL : string;
  URLPresignedExpirationMinutes : Z;
  DefaultArtifactExpiration : Z;
  DefaultArtifactLimit : Z
}.
Definition minute : Z := 60 * 1000000000.
Definition batch : Z := 10000.

Section Manager.
Context `{Outside} `{RangeOrder} `{MapJson} (cfg : Settings).
Definition UpdateURL (a : Artifact) : Artifact :=
  if ExternalBaseURL cfg == ""
  then match S3.PresignedGetURL (s3_conf cfg) (a_ID a) (a_Name a) (URLPresignedExpirationMinutes cfg * minute) with
       | Some u => set_URL (url_string u) a
       | None => a
       end
  else set_URL (ExternalBaseURL cfg +:+ "/api/v1/artifacts/" +:+ a_SHA256 a +:+ "/download") a.

(** Both are tried; the error of the object store comes first. *)
Definition DeleteArtifact (qc : QueryContext) (id : string) : M unit :=
  svcErr <- attempt (S3.Delete id) ;;
  dbErr <- attempt (ArtRepo.Delete qc id) ;;
  match svcErr, dbErr with
  | inr e, _ => throw e
  | inl _, inr e => throw e
  | inl _, inl _ => ret tt
  end.
Fixpoint delete_all (qc : QueryContext) (l : list Artifact) (size : Z) : M Z :=
  match l with
  | [] => ret size
  | a :: l => DeleteArtifact qc (a_ID a) ;;; delete_all qc l (wrap64 (size + ContentLength a))
  end.
Fixpoint expire_loop (fuel : nat) (qc : QueryContext) (expiration i limit : Z) (expired size : Z) : M (Z * Z) :=
  match fuel with
  | O => ret (expired, size)
  | S fuel =>
      if i <? limit then
        records <- ArtRepo.ExpiredArtifacts qc expiration (Z.to_nat batch) ;;
        size <- delete_all qc records size ;;
        expire_loop fuel qc expiration (i + batch) limit (expired + Z.of_nat (List.length records)) size
      else ret (expired, size)
  end.
(** A round is made for each batch below the limit.  The error of the log events
    stays in the named result. *)
Definition ExpireArtifacts (qc : QueryContext) (expiration limit : Z) : M ((Z * Z) * option error) :=
  logErr <- attempt (ArtRepo.ExpireLogEvents qc expiration) ;;
  r <- expire_loop (Z.to_nat (limit / batch + 1)) qc expiration 0 limit 0 0 ;;
  ret (r, match logErr with inl _ => None | inr e => Some e end).

Definition QueryArtifacts (qc : QueryContext) (cond : Artifact -> bool) (page pageSize : nat) (order : option (Artifact -> Artifact -> bool))
    : M (list Artifact * Z) :=
  r <- ArtRepo.Query qc cond page pageSize order ;;
  ret (map UpdateURL (fst r), snd r).
(** [None]: a request without a body. *)
Definition UploadArtifact (qc : QueryContext) (body : option string) (params : gmap string string) : M Artifact :=
  ulid_Make ;;;
  file ;;;
  match body with
  | None => throw NoBody
  | Some text =>
      file ;;;
      name <- ulid_Make ;;
      t <- now ;;
      let a := mkArtifact "" "" name (GetOrganizationID qc) (GetUserID qc) "" ArtifactKindUser "" 0 "" "" "" "" "" "" 0 0 "" ""
                 (t + DefaultArtifactExpiration cfg) 0 0 false params ∅ "" in
      a <- S3.SaveFile (s3_conf cfg) a text ;;
      ArtRepo.Save a
  end.
Definition DownloadArtifactBySHA256 (qc : QueryContext) (sha256 : string) : M (string * string * string) :=
  a <- ArtRepo.GetBySHA256 qc sha256 ;;
  body <- S3.Get (a_ID a) ;;
  ret (body, a_Name a, ContentType a).
Definition GetArtifact (qc : QueryContext) (id : string) : M Artifact := a <- ArtRepo.Get qc id ;; ret (UpdateURL a).
Definition UpdateArtifact (qc : QueryContext) (a : Artifact) : M Artifact := ArtRepo.Update qc (UpdateURL a).

(** The tasklet that expires artifacts: [admin] is the flag of the request. *)
Definition Execute (error_text duration_text : string) (id : string) (admin : bool) (req : Message.TaskRequest) : St -> Message.TaskResponse * St :=
  fun s =>
    let qc := if admin then Manager.WithAdmin (NewQueryContext None)
              else Manager.NewQueryContextFromIDs (Message.UserID req) (Message.OrganizationID req) in
    match ExpireArtifacts qc (DefaultArtifactExpiration cfg) (DefaultArtifactLimit cfg) s with
    | (inl ((expired, size), None), s) =>
        let r := Message.set_AntHost id "server" (Message.set_Status State.COMPLETED (Message.NewTaskResponse req)) in
        let r := Message.AddContext "DefaultArtifactExpiration" (NameValue.VString duration_text) r in
        let r := Message.AddContext "DefaultArtifactLimit" (NameValue.VInt "int" (DefaultArtifactLimit cfg)) r in
        let r := Message.AddJobContext "TotalExpired" (NameValue.VInt "int" expired) r in
        let r := Message.AddJobContext "TotalSize" (NameValue.VInt "int64" size) r in
        (Message.AddJobContext "Admin" (NameValue.VBool (IsAdmin qc)) r, s)
    | (_, s) => (Message.ErrorResponse error_text req, s)
    end.
End Manager.
End ArtManager.
