(* ===== verification/ArtifactsSpec.v ===== *)
(** * ArtifactsSpec: what is kept and what is removed of artifacts

    Every active artifact has its contents in the object store unless a deletion
    of it failed, other contents were stored under its identifier (as ants do with
    their caches) or it was reported without being stored; an upload is downloaded
    again; the expiry removes the artifacts
    that are out of time, all of them and no others; and the deletion of an
    artifact that belongs to another tenant is refused after its contents are
    gone. *)

From Stdlib Require Import Ascii.
From S2P Require Import Prelude RequestState Acl Tags Approval JobRequest JobManager TaskMessage Artifacts VariablesSpec.
Import Query Art World.

Open Scope Z_scope.
Open Scope go_scope.

Section Lemmas.
Context `{Outside} `{RangeOrder} `{MapJson}.

(** ** Steps of a call *)
Lemma bind_inv {A B} (m : M A) (k : A -> M B) s r s' :
  bind m k s = (r, s') -> (exists a s1, m s = (inl a, s1) /\ k a s1 = (r, s')) \/ (exists e, m s = (inr e, s') /\ r = inr e).
Proof. unfold bind. destruct (m s) as [[a|e] s1]; [left; eauto|right; exists e]. by split; congruence. Qed.
Lemma attempt_inv {A} (m : M A) s r s' : attempt m s = (r, s') -> exists x, m s = (x, s') /\ r = inl x.
Proof. unfold attempt. destruct (m s) as [x s1]. intros [= <- <-]. eauto. Qed.

(** Calls that change neither rows nor objects. *)
Definition hushed {A} (m : M A) : Prop := forall s r s', m s = (r, s') -> rows s' = rows s /\ objects s' = objects s /\ time s' = time s /\ (made s <= made s')%nat.

Lemma hushed_ret {A} (a : A) : hushed (ret a).
Proof. intros s r s' [= <- <-]. done. Qed.
Lemma hushed_throw {A} (e : error) : hushed (throw (A := A) e).
Proof. intros s r s' [= <- <-]. done. Qed.
Lemma hushed_now : hushed now.
Proof. intros s r s' [= <- <-]. done. Qed.
Lemma hushed_bind {A B} (m : M A) (k : A -> M B) : hushed m -> (forall a, hushed (k a)) -> hushed (bind m k).
Proof.
  intros Hm Hk s r s' [(a & s1 & E1 & E2)|(e & E & ->)]%bind_inv.
  - apply Hm in E1 as (? & ? & ? & ?). apply Hk in E2 as (? & ? & ? & ?). split_and!; try congruence. lia.
  - by eapply Hm.
Qed.
Lemma hushed_attempt {A} (m : M A) : hushed m -> hushed (attempt m).
Proof. intros Hm s r s' (x & E & ->)%attempt_inv. by eapply Hm. Qed.
Lemma hushed_call {A} f e (g : St -> (A + error) * St) :
  (forall s r s', g s = (r, s') -> s' = s) -> hushed (call f e g).
Proof. intros Hg s r s'. unfold call. destruct (f (asked s)); [by intros [= <- <-]|]. intros ->%Hg. done. Qed.
Lemma hushed_query {A} (f : gmap string Artifact -> A) : hushed (query f).
Proof. apply hushed_call. by intros s r s' [= <- <-]. Qed.
Lemma hushed_file : hushed file.
Proof. apply hushed_call. by intros s r s' [= <- <-]. Qed.
Lemma hushed_checked {A} (x : artifact_error + A) : hushed (checked x).
Proof. destruct x; [apply hushed_throw|apply hushed_ret]. Qed.
Lemma hushed_ulid : hushed ulid_Make.
Proof. intros s r s' [= <- <-]. cbn. split_and!; [done..|lia]. Qed.
Lemma hushed_get id : hushed (S3.Get id).
Proof. apply hushed_call. intros s r s'. by destruct (objects s !! id); intros [= <- <-]. Qed.
Create HintDb hushed.
#[local] Hint Resolve hushed_ret hushed_throw hushed_now hushed_bind hushed_attempt hushed_query hushed_file hushed_checked hushed_ulid hushed_get : hushed.
Ltac hushed := repeat first [progress eauto with hushed | apply hushed_bind; [|intros] | apply hushed_attempt | case_match].

Lemma hushed_load_all l : hushed (ArtRepo.load_all l).
Proof. induction l as [|a l IH]; cbn; hushed. Qed.
#[local] Hint Resolve hushed_load_all : hushed.
Lemma hushed_first_loaded p : hushed (ArtRepo.first_loaded p).
Proof. unfold ArtRepo.first_loaded. hushed. Qed.
#[local] Hint Resolve hushed_first_loaded : hushed.
Lemma hushed_ExpiredArtifacts qc e n : hushed (ArtRepo.ExpiredArtifacts qc e n).
Proof. unfold ArtRepo.ExpiredArtifacts. hushed. Qed.
Lemma hushed_Query qc c p n o : hushed (ArtRepo.Query qc c p n o).
Proof. unfold ArtRepo.Query, ArtRepo.Count. hushed. Qed.
Lemma hushed_Download qc x : hushed (ArtManager.DownloadArtifactBySHA256 qc x).
Proof. unfold ArtManager.DownloadArtifactBySHA256, ArtRepo.GetBySHA256. hushed. Qed.
Lemma hushed_checkBucket conf : hushed (S3.checkBucket conf).
Proof.
  intros s r s'. unfold S3.checkBucket, S3.create_bucket, S3.s3, call. destruct (verifiedBucket s); [by intros [= <- <-]|].
  repeat (case_match; simplify_eq; try (by intros [= <- <-])).
Qed.

(** ** Deletion *)
Definition gone (t : Z) (a : Artifact) : Artifact := set_a_UpdatedAt t (set_a_Active false a).
Definition marked (qc : QueryContext) (id : string) (s s' : St) : Prop :=
  exists a, rows s !! id = Some a /\ a_Active a = true /\ ArtRepo.in_scope qc false a = true /\ rows s' = <[id := gone (time s) a]> (rows s).

Lemma repo_Delete_effect qc id s r s' : ArtRepo.Delete qc id s = (r, s') ->
  objects s' = objects s /\ time s' = time s /\ made s' = made s /\
  match r with inl _ => marked qc id s s' | inr _ => rows s' = rows s end.
Proof.
  unfold ArtRepo.Delete, bind, now, exec, call, ret, throw. destruct (db_fails (asked s)); [by intros [= <- <-]|].
  change (rows (tick s)) with (rows s). destruct (rows s !! id) as [a|] eqn:E; [|by intros [= <- <-]].
  destruct (a_Active a && ArtRepo.in_scope qc false a) eqn:Ha; [|by intros [= <- <-]]. cbn. intros [= <- <-].
  apply andb_true_iff in Ha as [Ha Hs]. split_and!; [done..|]. by exists a.
Qed.
Lemma s3_Delete_effect id s r s' : S3.Delete id s = (r, s') ->
  rows s' = rows s /\ time s' = time s /\ made s' = made s /\
  match r with inl _ => objects s' = delete id (objects s) | inr _ => objects s' = objects s end.
Proof. unfold S3.Delete, S3.s3, call. destruct (s3_fails (asked s)); by intros [= <- <-]. Qed.
Lemma DeleteArtifact_effect qc id s r s' : ArtManager.DeleteArtifact qc id s = (r, s') ->
  time s' = time s /\ made s' = made s /\ (objects s' = objects s \/ objects s' = delete id (objects s)) /\
  (rows s' = rows s \/ marked qc id s s') /\ (r = inl tt -> objects s' = delete id (objects s) /\ marked qc id s s').
Proof.
  unfold ArtManager.DeleteArtifact.
  intros [(x1 & s1 & (r1 & E1 & [= ->])%attempt_inv & E)|(e & (? & _ & ?)%attempt_inv & _)]%bind_inv; [|done].
  apply bind_inv in E as [(x2 & s2 & (r2 & E2 & [= ->])%attempt_inv & E)|(e & (? & _ & ?)%attempt_inv & _)]; [|done].
  apply s3_Delete_effect in E1 as (R1 & T1 & M1 & O1). apply repo_Delete_effect in E2 as (O2 & T2 & M2 & R2).
  assert (s' = s2 /\ (r = inl tt -> exists u v, r1 = inl u /\ r2 = inl v)) as [-> Hr] by (destruct r1, r2; injection E as <- <-; naive_solver).
  assert (marked qc id s1 s2 -> marked qc id s s2) as Hm by (unfold marked; by rewrite R1, T1).
  assert (time s2 = time s) by congruence. assert (made s2 = made s) by congruence.
  split_and!; [done|done| | |]; [rewrite O2; destruct r1; auto|destruct r2; [by right; apply Hm|left; congruence]|].
  intros (u & v & -> & ->)%Hr. split; [by rewrite O2|by apply Hm].
Qed.

(** ** Expiry *)
(** An identifier whose artifact is out of time. *)
Definition out_of_time (qc : QueryContext) (before : Z) (s : St) (id : string) : Prop :=
  exists a, rows s !! id = Some a /\ ArtRepo.is_expired qc before a = true.
Definition keyed (s : St) : Prop := map_Forall (fun id a => a_ID a = id) (rows s).
(** What an expiry may have done since [s]: only to the given identifiers. *)
Record since (P : string -> Prop) (s s' : St) : Prop := {
  since_time : time s' = time s;
  since_made : (made s <= made s')%nat;
  since_others : forall id, ~ P id -> rows s' !! id = rows s !! id /\ objects s' !! id = objects s !! id;
  since_rows : forall id a', rows s' !! id = Some a' -> exists a, rows s !! id = Some a /\ (a' = a \/ a' = gone (time s) a);
  since_objects : forall id, objects s' !! id = objects s !! id \/ objects s' !! id = None
}.
Lemma since_refl (P : string -> Prop) s : since P s s.
Proof. split; eauto. Qed.
Lemma gone_gone t a : gone t (gone t a) = gone t a.
Proof. done. Qed.
Lemma since_trans P s s1 s2 : since P s s1 -> since P s1 s2 -> since P s s2.
Proof.
  intros [T1 M1 O1 R1 J1] [T2 M2 O2 R2 J2]. split; [congruence|lia| | |].
  - intros id Hid. destruct (O1 id Hid) as [-> ->] || idtac. destruct (O2 id Hid) as [-> ->]. by apply O1.
  - intros id a2 (a1 & (a & Ha & Ha1)%R1 & Ha2)%R2. exists a. split; [done|]. rewrite T1 in Ha2.
    destruct Ha2 as [->| ->]; [done|]. right. by destruct Ha1 as [->| ->].
  - intros id. destruct (J2 id) as [-> | ->]; [apply J1|by right].
Qed.
Lemma since_DeleteArtifact (P : string -> Prop) qc id s r s' : P id -> ArtManager.DeleteArtifact qc id s = (r, s') -> since P s s'.
Proof.
  intros HP (T & Mm & Ho & Hr & _)%DeleteArtifact_effect. split; [done|lia| | |].
  - intros k Hk. assert (k <> id) as Hne by (intros ->; done). split.
    + destruct Hr as [->|(a & _ & _ & _ & ->)]; [done|by rewrite lookup_insert_ne].
    + destruct Ho as [-> | ->]; [done|by rewrite lookup_delete_ne].
  - intros k a' Ha'. destruct Hr as [Hr|(a & Ha & _ & _ & Hr)]; rewrite Hr in Ha'; [by eauto|].
    destruct (decide (k = id)) as [->|Hne]; [|rewrite lookup_insert_ne in Ha' by done; eauto].
    rewrite lookup_insert_eq in Ha'. injection Ha' as <-. eauto.
  - intros k. destruct Ho as [-> | ->]; [by left|]. destruct (decide (k = id)) as [->|Hne]; [right; apply lookup_delete_eq|left; by apply lookup_delete_ne].
Qed.
Lemma since_delete_all (P : string -> Prop) qc l : forall size s r s', Forall (fun a => P (a_ID a)) l -> ArtManager.delete_all qc l size s = (r, s') -> since P s s'.
Proof.
  induction l as [|a l IH]; intros size s r s' HP; cbn [ArtManager.delete_all].
  - intros [= <- <-]. apply since_refl.
  - apply Forall_cons in HP as [Ha HP]. intros [(x & s1 & E1 & E2)|(e & E & ->)]%bind_inv.
    + eapply since_trans; [by eapply since_DeleteArtifact|by eapply IH].
    + by eapply since_DeleteArtifact.
Qed.

(** The artifacts found are rows that are out of time. *)
Lemma AfterLoad_ID a a' : AfterLoad a = inr a' -> a_ID a' = a_ID a /\ ContentLength a' = ContentLength a.
Proof. unfold AfterLoad. repeat case_match; intros; simplify_eq; done. Qed.
Lemma load_all_effect l : forall s l' s', ArtRepo.load_all l s = (inl l', s') -> s' = s /\ map a_ID l' = map a_ID l /\ map ContentLength l' = map ContentLength l.
Proof.
  induction l as [|a l IH]; intros s l' s'; cbn [ArtRepo.load_all].
  - by intros [= <- <-].
  - intros [(x & s1 & E1 & E2)|(e & _ & ?)]%bind_inv; [|done]. apply bind_inv in E2 as [(y & s2 & (-> & Hid & Hc)%IH & E3)|(e & _ & ?)]; [|done].
    injection E3 as <- <-. unfold checked in E1. destruct (AfterLoad a) as [e|a'] eqn:Ea; [done|]. injection E1 as <- <-.
    apply AfterLoad_ID in Ea as [Ei Ec]. cbn. split_and!; [done|congruence|congruence].
Qed.
Lemma ExpiredArtifacts_effect qc e n s l s' : ArtRepo.ExpiredArtifacts qc e n s = (inl l, s') ->
  map a_ID l = map a_ID (firstn n (ArtRepo.matching (ArtRepo.is_expired qc (time s - e)) (rows s))) /\
  map ContentLength l = map ContentLength (firstn n (ArtRepo.matching (ArtRepo.is_expired qc (time s - e)) (rows s))) /\ s' = tick s.
Proof.
  unfold ArtRepo.ExpiredArtifacts. intros [(t & s1 & [= <- <-] & E)|(e' & ? & ?)]%bind_inv; [|done].
  apply bind_inv in E as [(x & s2 & Eq & (-> & Hi & Hc)%load_all_effect)|(e' & _ & ?)]; [|done].
  unfold query, call in Eq. destruct (db_fails (asked s)); [done|]. injection Eq as <- <-. done.
Qed.
Lemma elem_of_matching p r a : a ∈ ArtRepo.matching p r <-> p a = true /\ exists id, r !! id = Some a.
Proof.
  unfold ArtRepo.matching. rewrite list_elem_of_In, filter_In, <- list_elem_of_In, list_elem_of_fmap. split.
  - intros [([k x] & -> & Hx%elem_of_range) Hp]. eauto.
  - intros [Hp [k Hk]]. split; [|done]. exists (k, a). split; [done|]. by apply elem_of_range.
Qed.
Lemma is_expired_gone qc b t a : ArtRepo.is_expired qc b (gone t a) = false.
Proof. unfold ArtRepo.is_expired. cbn. by rewrite andb_false_r. Qed.
Lemma keyed_since P s s' : keyed s -> since P s s' -> keyed s'.
Proof. intros Hk [_ _ _ R _] id a' (a & Ha & [-> | ->])%R; exact (Hk id a Ha). Qed.
(** What is out of time later was so before. *)
Lemma out_of_time_since qc b P s s' id : since P s s' -> out_of_time qc b s' id -> out_of_time qc b s id.
Proof.
  intros [_ _ _ R _] (a' & (a & Ha & [-> | ->])%R & He); [by exists a|]. by rewrite is_expired_gone in He.
Qed.
Lemma found_out_of_time qc b s n : keyed s -> Forall (fun a => out_of_time qc b s (a_ID a)) (firstn n (ArtRepo.matching (ArtRepo.is_expired qc b) (rows s))).
Proof.
  intros Hk. apply Forall_forall. intros a Ha. pose proof (elem_of_sublist _ _ a Ha (sublist_take _ _)) as Ha'.
  apply elem_of_matching in Ha' as [He [id Hid]]. rewrite (Hk id a Hid). by exists a.
Qed.
Lemma Forall_IDs (P : string -> Prop) l l' : map a_ID l = map a_ID l' -> Forall (fun a => P (a_ID a)) l' -> Forall (fun a => P (a_ID a)) l.
Proof.
  intros E HF. assert (Forall P (map a_ID l')) as HP by (apply Forall_fmap; exact HF). rewrite <- E in HP. exact (proj1 (Forall_fmap a_ID P l) HP).
Qed.
Lemma since_tick P s s1 : since P s s1 -> since P s (tick s1).
Proof. intros [? ? ? ? ?]. by split. Qed.
Lemma since_expire_loop qc e s0 fuel : keyed s0 -> forall i limit n size s r s',
  since (out_of_time qc (time s0 - e) s0) s0 s -> ArtManager.expire_loop fuel qc e i limit n size s = (r, s') ->
  since (out_of_time qc (time s0 - e) s0) s0 s'.
Proof.
  intros Hk. induction fuel as [|fuel IH]; intros i limit n size s r s' Hs; cbn [ArtManager.expire_loop]; [by intros [= <- <-]|].
  destruct (i <? limit); [|by intros [= <- <-]].
  intros [(l & s1 & (Hid & _ & ->)%ExpiredArtifacts_effect & E)|(x & E & ->)]%bind_inv.
  - assert (Forall (fun a => out_of_time qc (time s0 - e) s0 (a_ID a)) l) as Hl.
    { eapply (Forall_IDs _ _ _ Hid), Forall_impl; [apply found_out_of_time, (keyed_since _ _ _ Hk Hs)|].
      intros a Ha. rewrite (since_time _ _ _ Hs) in Ha. by eapply out_of_time_since. }
    apply since_tick in Hs. apply bind_inv in E as [(z & s2 & E2 & E3)|(x & E2 & ->)].
    + eapply IH; [|exact E3]. eapply since_trans; [exact Hs|by eapply since_delete_all].
    + eapply since_trans; [exact Hs|by eapply since_delete_all].
  - pose proof (hushed_ExpiredArtifacts qc e (Z.to_nat ArtManager.batch) s _ _ E) as (R & O & T & Hm).
    destruct Hs as [? ? HO HR HJ]. split; [congruence|lia|rewrite ?R, ?O; done..].
Qed.

Lemma since_ExpireArtifacts qc e limit s r s' : keyed s -> ArtManager.ExpireArtifacts qc e limit s = (r, s') -> since (out_of_time qc (time s - e) s) s s'.
Proof.
  intros Hk ran. unfold ArtManager.ExpireArtifacts in ran.
  apply bind_inv in ran as [(x & s1 & (y & E1 & _)%attempt_inv & E)|(z & (y & _ & ?)%attempt_inv & _)]; [|done].
  assert (since (out_of_time qc (time s - e) s) s s1) as H1'.
  { unfold ArtRepo.ExpireLogEvents, call in E1. destruct (db_fails (asked s)); injection E1 as <- <-; split; eauto. }
  apply bind_inv in E as [(z & s2 & E2 & E3)|(z & E2 & _)]; [injection E3 as <- <-|]; by eapply since_expire_loop.
Qed.

(** An expiry changes nothing but the artifacts that are active, visible to the
    caller and out of time by the given period: every other row and every other
    object stays as it was, whatever fails on the way and in whatever order the rows
    are visited, and of the others only the mark and the time of the update change. *)
Theorem expiry_touches_only_expired qc expiration limit s r s'
    (indexed : keyed s)
    (ran : ArtManager.ExpireArtifacts qc expiration limit s = (r, s')) :
  (forall id, ~ out_of_time qc (time s - expiration) s id -> rows s' !! id = rows s !! id /\ objects s' !! id = objects s !! id) /\
  (forall id a', rows s' !! id = Some a' -> exists a, rows s !! id = Some a /\ (a' = a \/ a' = gone (time s) a)) /\
  (forall id, objects s' !! id = objects s !! id \/ objects s' !! id = None).
Proof.
  by destruct (since_ExpireArtifacts _ _ _ _ _ _ indexed ran) as [_ _ HO HR HJ].
Qed.

(** *** Without failures *)
Lemma matching_insert p r id a : r !! id = None -> ArtRepo.matching p (<[id := a]> r) ≡ₚ (if p a then [a] else []) ++ ArtRepo.matching p r.
Proof.
  intros Hn. unfold ArtRepo.matching.
  rewrite (filter_perm p _ _ (Permutation_map snd (range_perm (<[id := a]> r)))), (filter_perm p _ _ (Permutation_map snd (range_perm r))).
  rewrite (filter_perm p _ _ (Permutation_map snd (map_to_list_insert r id a Hn))). cbn. by destruct (p a).
Qed.
Lemma matching_mark p r id a a' : r !! id = Some a -> p a = true -> p a' = false ->
  List.length (ArtRepo.matching p r) = S (List.length (ArtRepo.matching p (<[id := a']> r))).
Proof.
  intros Ha Hp Hp'. rewrite <- (insert_delete_id r id a Ha) at 1. rewrite <- (insert_delete_eq r id a').
  rewrite (Permutation_length (matching_insert p _ id a (lookup_delete_eq r id))), (Permutation_length (matching_insert p _ id a' (lookup_delete_eq r id))), Hp, Hp'. done.
Qed.
Definition works : Prop := forall n, db_fails n = false /\ s3_fails n = false.
Definition readable (text : string) : Prop := (0 <? String.length text)%nat = true -> is_Some (unmarshal_map text).
Lemma AfterLoad_readable a : (exists a', AfterLoad a = inr a') <-> readable (MetadataSerialized a) /\ readable (TagsSerialized a).
Proof.
  unfold AfterLoad, readable. destruct (0 <? String.length (MetadataSerialized a))%nat, (unmarshal_map (MetadataSerialized a)) as [m|]; cbn [TagsSerialized set_Metadata];
    destruct (0 <? String.length (TagsSerialized a))%nat, (unmarshal_map (TagsSerialized a)) as [m'|];
    (split; [intros [x E]; try discriminate E; split; intros; try discriminate; by eexists
            |intros [A B]; try (by destruct (A eq_refl)); try (by destruct (B eq_refl)); by eexists]).
Qed.
Definition loadable (s : St) : Prop := map_Forall (fun _ a => exists a', AfterLoad a = inr a') (rows s).
Definition expired_rows (qc : QueryContext) (b : Z) (s : St) : list Artifact := ArtRepo.matching (ArtRepo.is_expired qc b) (rows s).
(** Rows that were changed have lost their objects. *)
Definition emptied (s0 s : St) : Prop := forall id, rows s !! id = rows s0 !! id \/ objects s !! id = None.

Lemma DeleteArtifact_works qc id s a : works -> rows s !! id = Some a -> a_Active a = true -> ArtRepo.in_scope qc false a = true ->
  exists s', ArtManager.DeleteArtifact qc id s = (inl tt, s') /\ rows s' = <[id := gone (time s) a]> (rows s) /\ objects s' = delete id (objects s) /\ time s' = time s.
Proof.
  intros Hw Ha Hact Hsc. unfold ArtManager.DeleteArtifact, bind, attempt, S3.Delete, S3.s3, ArtRepo.Delete, bind, now, exec, call.
  rewrite !(proj2 (Hw _)). cbn. rewrite !(proj1 (Hw _)). cbn. rewrite Ha, Hact, Hsc. cbn. eexists. by split_and!.
Qed.
Lemma loadable_since P s s' : loadable s -> since P s s' -> loadable s'.
Proof.
  intros Hl [_ _ _ R _] id a' (a & Ha & [-> | ->])%R; [by eapply Hl|].
  apply AfterLoad_readable. apply (AfterLoad_readable a). by eapply Hl.
Qed.
Lemma delete_all_works qc b : works -> (forall a, ArtRepo.in_scope qc true a = true -> ArtRepo.in_scope qc false a = true) ->
  forall l size s, Forall (fun a => out_of_time qc b s (a_ID a)) l -> NoDup (map a_ID l) ->
  exists z s', ArtManager.delete_all qc l size s = (inl z, s') /\
    List.length (expired_rows qc b s) = (List.length l + List.length (expired_rows qc b s'))%nat /\ (forall s0, emptied s0 s -> emptied s0 s').
Proof.
  intros Hw Hsc. induction l as [|x l IH]; intros size s Hl Hnd; cbn [ArtManager.delete_all map] in *; [by exists size, s|].
  apply Forall_cons in Hl as [(a & Ha & He) Hl]. apply NoDup_cons in Hnd as [Hx Hnd].
  pose proof He as He'. unfold ArtRepo.is_expired in He'. apply andb_true_iff in He' as [[Hs Hact]%andb_true_iff _].
  destruct (DeleteArtifact_works qc (a_ID x) s a Hw Ha Hact (Hsc a Hs)) as (s1 & E1 & R1 & O1 & T1).
  destruct (IH (wrap64 (size + ContentLength x)) s1) as (z & s2 & E2 & L2 & D2); [|done|].
  { apply Forall_forall. intros y Hy. apply Forall_forall with (x := y) in Hl as (c & Hc & Hce); [|done]. exists c. split; [|done].
    rewrite R1, lookup_insert_ne; [done|]. intros Heq. apply Hx. rewrite Heq. apply list_elem_of_fmap. by exists y. }
  exists z, s2. unfold bind at 1. rewrite E1. split; [exact E2|]. split.
  - pose proof (matching_mark (ArtRepo.is_expired qc b) (rows s) (a_ID x) a (gone (time s) a) Ha He (is_expired_gone qc b _ a)) as Em.
    rewrite <- R1 in Em. unfold expired_rows in *. cbn [List.length]. lia.
  - intros s0 Hem. apply D2. intros id. rewrite R1, O1. destruct (decide (id = a_ID x)) as [->|Hne].
    + right. apply lookup_delete_eq.
    + rewrite lookup_insert_ne, lookup_delete_ne by done. apply Hem.
Qed.
Lemma matching_NoDup p s : keyed s -> NoDup (map a_ID (ArtRepo.matching p (rows s))).
Proof.
  intros Hk. unfold ArtRepo.matching.
  assert (map a_ID (map snd (range (rows s))) = (range (rows s)).*1) as E.
  { rewrite map_map. apply map_ext_in. intros [k a] Hin. apply list_elem_of_In, elem_of_range in Hin. exact (Hk k a Hin). }
  eapply sublist_NoDup; [|apply (fmap_sublist a_ID), filter_sublist].
  change (NoDup (map a_ID (map snd (range (rows s))))). rewrite E, range_perm. apply NoDup_fst_map_to_list.
Qed.
Lemma ExpiredArtifacts_works qc e n s : works -> loadable s -> exists l, ArtRepo.ExpiredArtifacts qc e n s = (inl l, tick s).
Proof.
  intros Hw Hl. unfold ArtRepo.ExpiredArtifacts, bind, now, query, call. rewrite (proj1 (Hw _)). cbn.
  assert (forall l, Forall (fun a => exists a', AfterLoad a = inr a') l -> exists l', ArtRepo.load_all l (tick s) = (inl l', tick s)) as Hall.
  { induction l as [|a l IH]; intros Hf; [by exists []|]. apply Forall_cons in Hf as [[a' Ha] Hf]. destruct (IH Hf) as [l' E].
    exists (a' :: l'). cbn [ArtRepo.load_all]. unfold bind, checked. rewrite Ha. cbn. by rewrite E. }
  apply Hall. apply Forall_forall. intros a Ha. pose proof (elem_of_sublist _ _ a Ha (sublist_take _ _)) as [_ [id Hid]]%elem_of_matching. exact (Hl id a Hid).
Qed.
Lemma expire_loop_works qc e s0 : works -> (forall a, ArtRepo.in_scope qc true a = true -> ArtRepo.in_scope qc false a = true) -> keyed s0 -> loadable s0 ->
  forall fuel i limit n size s, since (out_of_time qc (time s0 - e) s0) s0 s -> emptied s0 s ->
    let left := List.length (expired_rows qc (time s0 - e) s) in
    (left = 0%nat \/ Z.of_nat left <= limit - i) -> limit - i <= ArtManager.batch * Z.of_nat fuel ->
    exists z s', ArtManager.expire_loop fuel qc e i limit n size s = (inl (n + Z.of_nat left, z), s') /\
      expired_rows qc (time s0 - e) s' = [] /\ emptied s0 s'.
Proof.
  intros Hw Hsc Hk Hl. induction fuel as [|fuel IH]; intros i limit n size s Hs Hem left Hleft Hfuel; subst left; cbn [ArtManager.expire_loop].
  - exists size, s. destruct (expired_rows qc (time s0 - e) s) as [|a l]; [by rewrite Z.add_0_r|]. cbn [List.length] in Hleft. unfold ArtManager.batch in *. lia.
  - destruct (i <? limit) eqn:Ei.
    2:{ apply Z.ltb_ge in Ei. exists size, s. destruct (expired_rows qc (time s0 - e) s) as [|a l]; [by rewrite Z.add_0_r|]. cbn [List.length] in Hleft. lia. }
    destruct (ExpiredArtifacts_works qc e (Z.to_nat ArtManager.batch) s Hw (loadable_since _ _ _ Hl Hs)) as [l El].
    pose proof (ExpiredArtifacts_effect _ _ _ _ _ _ El) as (Hid & _ & _). rewrite (since_time _ _ _ Hs) in Hid.
    unfold bind at 1. rewrite El.
    destruct (delete_all_works qc (time s0 - e) Hw Hsc l size (tick s)) as (z & s2 & E2 & L2 & D2).
    { eapply (Forall_IDs _ _ _ Hid). apply (found_out_of_time qc (time s0 - e) (tick s)). exact (keyed_since _ _ _ Hk Hs). }
    { rewrite Hid. eapply sublist_NoDup; [exact (matching_NoDup (ArtRepo.is_expired qc (time s0 - e)) s (keyed_since _ _ _ Hk Hs))|apply (fmap_sublist a_ID), sublist_take]. }
    unfold bind. rewrite E2. assert (List.length l = Nat.min (Z.to_nat ArtManager.batch) (List.length (expired_rows qc (time s0 - e) s))) as Hlen.
    { rewrite <- (length_map a_ID l), Hid, length_map. apply length_firstn. }
    change (expired_rows qc (time s0 - e) (tick s)) with (expired_rows qc (time s0 - e) s) in L2.
    destruct (IH (i + ArtManager.batch) limit (n + Z.of_nat (List.length l)) z s2) as (z' & s' & E' & Hnone & Hem'); [|by apply D2| | |].
    + eapply since_trans; [apply since_tick, Hs|]. eapply since_delete_all; [|exact E2].
      eapply (Forall_IDs _ _ _ Hid), Forall_impl; [apply (found_out_of_time qc (time s0 - e) s), (keyed_since _ _ _ Hk Hs)|].
      intros a Ha. by eapply out_of_time_since.
    + unfold ArtManager.batch in *. lia.
    + unfold ArtManager.batch in *. lia.
    + exists z', s'. split; [|done]. rewrite E'. do 2 f_equal. f_equal. lia.
Qed.
Lemma no_rows_none qc b s : keyed s -> expired_rows qc b s = [] -> forall id, ~ out_of_time qc b s id.
Proof.
  intros Hk He id (a & Ha & Hx). assert (a ∈ expired_rows qc b s) as Hin by (apply elem_of_matching; eauto). rewrite He in Hin. by apply elem_of_nil in Hin.
Qed.
Lemma logs_since P qc e s : works -> exists n s1, ArtRepo.ExpireLogEvents qc e s = (inl n, s1) /\ since P s s1 /\ rows s1 = rows s /\ time s1 = time s.
Proof.
  intros Hw. unfold ArtRepo.ExpireLogEvents, call. rewrite (proj1 (Hw _)). do 2 eexists. split; [done|]. split; [|done]. split; eauto.
Qed.

(** When nothing fails and the caller may change what it sees, an expiry with a
    limit that is not below the number of artifacts out of time removes all of them
    in its batches: it reports their number, none is left, and each of them has lost
    its contents. *)
Theorem expiry_removes_all_expired qc expiration limit s
    (healthy : works)
    (may_write : forall a, ArtRepo.in_scope qc true a = true -> ArtRepo.in_scope qc false a = true)
    (indexed : keyed s) (texts : loadable s)
    (few : Z.of_nat (List.length (expired_rows qc (time s - expiration) s)) <= limit) :
  exists z s', ArtManager.ExpireArtifacts qc expiration limit s =
      (inl ((Z.of_nat (List.length (expired_rows qc (time s - expiration) s)), z), None), s') /\
    (forall id, ~ out_of_time qc (time s - expiration) s' id) /\
    (forall id, out_of_time qc (time s - expiration) s id -> objects s' !! id = None).
Proof.
  destruct (logs_since (out_of_time qc (time s - expiration) s) qc expiration s healthy) as (n & s1 & E1 & Hs1 & R1 & T1).
  unfold ArtManager.ExpireArtifacts, bind at 1, attempt. rewrite E1.
  destruct (expire_loop_works qc expiration s healthy may_write indexed texts (Z.to_nat (limit / ArtManager.batch + 1)) 0 limit 0 0 s1 Hs1) as (z & s' & E & Hnone & Hem).
  - intros id. left. by rewrite R1.
  - right. unfold expired_rows. rewrite R1. fold (expired_rows qc (time s - expiration) s). lia.
  - pose proof (Z.div_mod limit ArtManager.batch ltac:(done)). pose proof (Z.mod_pos_bound limit ArtManager.batch ltac:(done)).
    assert (0 <= limit / ArtManager.batch) by (apply Z.div_pos; [lia|done]). unfold ArtManager.batch in *. lia.
  - pose proof (since_expire_loop qc expiration s _ indexed _ _ _ _ _ _ _ Hs1 E) as Hs'.
    pose proof (no_rows_none qc (time s - expiration) s' (keyed_since _ _ _ indexed Hs') Hnone) as Hno.
    exists z, s'. unfold bind. rewrite E. unfold expired_rows. rewrite R1. split; [done|]. split; [exact Hno|].
    intros id (a & Ha & He). destruct (Hem id) as [Hsame|Hgone]; [|done]. exfalso. apply (Hno id). exists a. by rewrite Hsame.
Qed.

(** Who deletes an artifact of another tenant is told that there is none, and the
    row stays; its contents are gone all the same. *)
Theorem refused_deletion_destroys_contents qc id a s
    (healthy : works)
    (there : rows s !! id = Some a)
    (foreign : ArtRepo.in_scope qc false a = false) :
  exists s', ArtManager.DeleteArtifact qc id s = (inr NotFoundError, s') /\ rows s' = rows s /\ objects s' !! id = None.
Proof.
  unfold ArtManager.DeleteArtifact, bind, attempt, S3.Delete, S3.s3, ArtRepo.Delete, bind, now, exec, call.
  rewrite !(proj2 (healthy _)). cbn. rewrite !(proj1 (healthy _)). cbn. rewrite there, foreign, andb_false_r. cbn.
  eexists. split; [done|]. split; [done|]. apply lookup_delete_eq.
Qed.
End Lemmas.

(** ** Contents *)
(** JSON of maps is read back, and identifiers are made once. *)
Class ArtLaws `{Outside} `{MapJson} : Prop := {
  map_roundtrip : forall m, unmarshal_map (marshal_map m) = Some m;
  ulid_inj : forall m n, ulid m = ulid n -> m = n
}.

Section Contents.
Context `{Outside} `{RangeOrder} `{MapJson} `{!ArtLaws} (cfg : ArtManager.Settings).
Abbreviation conf := (ArtManager.s3_conf cfg).
Definition key (n : nat) : string := NormalizePrefix (S3.prefix conf) +:+ ulid n.
Lemma key_inj m n : key m = key n -> m = n.
Proof. unfold key. intros E. apply ulid_inj. by apply (inj (String.append (NormalizePrefix (S3.prefix conf)))). Qed.

(** *** Saving *)
Definition same_texts (a a' : Artifact) : Prop :=
  MetadataSerialized a' = MetadataSerialized a /\ TagsSerialized a' = TagsSerialized a /\ a_UserID a' = a_UserID a /\ a_OrganizationID a' = a_OrganizationID a.
Lemma put_effect a body s r s' : S3.put a body s = (r, s') ->
  rows s' = rows s /\ time s' = time s /\ made s' = made s /\
  match r with
  | inl a' => objects s' = <[a_ID a := S3.buildPutInput a body]> (objects s) /\ a_ID a' = a_ID a /\ a_SHA256 a' = a_SHA256 a /\ same_texts a a'
  | inr _ => objects s' = objects s
  end.
Proof.
  unfold S3.put, S3.s3, call. destruct (s3_fails (asked s)); intros [= <- <-]; [done|]. cbn. by destruct (etag body).
Qed.
Lemma SaveFile_effect a body s r s' : a_ID a = "" -> S3.SaveFile conf a body s = (r, s') ->
  rows s' = rows s /\ time s' = time s /\ (made s <= made s')%nat /\
  match r with
  | inl a' => exists n o, (made s <= n < made s')%nat /\ a_ID a' = key n /\ objects s' = <[key n := o]> (objects s) /\
      data o = body /\ a_SHA256 a' = sha256 body /\ same_texts a a'
  | inr _ => objects s' = objects s
  end.
Proof.
  intros Hid. unfold S3.SaveFile. intros [(u & s1 & E1 & E)|(e & E1 & ->)]%bind_inv; [|apply hushed_file in E1 as (? & ? & ? & ?); split_and!; done].
  apply hushed_file in E1 as (R1 & O1 & T1 & M1). destruct (body == ""); [injection E as <- <-; split_and!; done|].
  apply bind_inv in E as [(u2 & s2 & E2 & E)|(e & E2 & ->)]; [|apply hushed_file in E2 as (? & ? & ? & ?); split_and!; try congruence; lia].
  apply hushed_file in E2 as (R2 & O2 & T2 & M2). rewrite Hid in E. cbn [String.eqb] in E.
  apply bind_inv in E as [(a1 & s3' & E3 & E)|(e & E3 & ->)]; [|done]. cbn in E3. injection E3 as <- <-.
  set (a1 := set_ContentLength _ _) in E.
  apply bind_inv in E as [(u4 & s4 & E4 & E)|(e & E4 & ->)].
  2:{ unfold S3.check_valid in E4. destruct (Validate a1); [|done]. injection E4 as _ <-. cbn. split_and!; try congruence. lia. }
  unfold S3.check_valid in E4. destruct (Validate a1); [done|]. injection E4 as _ <-.
  apply bind_inv in E as [(u5 & s5 & E5 & E)|(e & E5 & ->)]; apply hushed_checkBucket in E5 as (R5 & O5 & T5 & M5); cbn in R5, O5, T5, M5.
  - apply put_effect in E as (R6 & T6 & M6 & E). split_and!; [congruence|congruence|lia|].
    destruct r as [a'|e]; [|congruence]. destruct E as (O6 & I6 & H6 & X6). rewrite I6, H6.
    exists (made s2), (S3.buildPutInput a1 body). split_and!; [lia|lia|done|rewrite O6, O5, O2, O1; done|done|done|exact X6].
  - split_and!; try congruence. lia.
Qed.

(** Storing under an identifier that is given, or made of the hash of the bytes,
    changes at most the object of that identifier. *)
Definition stored_id (a : Artifact) : string := a_ID (S3.with_prefix conf a).
Definition bytes_id (prefix_ body : string) : string :=
  NormalizePrefix (S3.prefix conf) +:+ NormalizePrefix prefix_ +:+ sha256 body.
Definition overwrites (id body : string) (s s' : St) : Prop :=
  rows s' = rows s /\ (made s <= made s')%nat /\
  (objects s' = objects s \/ exists o, objects s' = <[id := o]> (objects s) /\ data o = body).
Lemma overwrites_put id a body s s1 r s' :
  a_ID a = id -> overwrites id body s s1 -> objects s1 = objects s -> S3.put a body s1 = (r, s') -> overwrites id body s s'.
Proof.
  intros Hid (R & M & _) O E. apply put_effect in E as (R1 & _ & M1 & E). split_and!; [congruence|lia|].
  destruct r as [a'|e]; [|left; congruence]. destruct E as (O1 & _). right. exists (S3.buildPutInput a body). rewrite O1, O, Hid. done.
Qed.
Lemma overwrites_same id body s s' : rows s' = rows s -> objects s' = objects s -> (made s <= made s')%nat -> overwrites id body s s'.
Proof. intros R O M. split_and!; [done|done|by left]. Qed.
Lemma SaveFile_overwrites a body s r s' :
  a_ID a <> "" -> S3.SaveFile conf a body s = (r, s') -> overwrites (stored_id a) body s s'.
Proof.
  intros Hid. unfold S3.SaveFile. intros [(u & s1 & E1 & E)|(e & E1 & ->)]%bind_inv; apply hushed_file in E1 as (R1 & O1 & _ & M1); [|by apply overwrites_same].
  destruct (body == ""); [injection E as <- <-; by apply overwrites_same|].
  apply bind_inv in E as [(u2 & s2 & E2 & E)|(e & E2 & ->)]; apply hushed_file in E2 as (R2 & O2 & _ & M2); [|apply overwrites_same; congruence || lia].
  rewrite (proj2 (String.eqb_neq _ _) Hid) in E. apply bind_inv in E as [(a1 & s3' & [= <- <-] & E)|(e & ? & _)]; [|done].
  apply bind_inv in E as [(u4 & s4 & E4 & E)|(e & E4 & ->)]; unfold S3.check_valid in E4; destruct (Validate _) in E4; try discriminate E4;
    injection E4 as _ <-; [|apply overwrites_same; congruence || lia].
  apply bind_inv in E as [(u5 & s5 & E5 & E)|(e & E5 & ->)]; apply hushed_checkBucket in E5 as (R5 & O5 & _ & M5); [|apply overwrites_same; congruence || lia].
  eapply overwrites_put; [|apply (overwrites_same _ _ s s5)| |exact E]; congruence || lia || done.
Qed.
Lemma check_valid_same a s r s' : S3.check_valid a s = (r, s') -> s' = s.
Proof. unfold S3.check_valid. destruct (Validate a); by intros [= _ <-]. Qed.
Lemma SaveBytes_overwrites p name body s r s' :
  S3.SaveBytes conf p name body s = (r, s') -> overwrites (bytes_id p body) body s s'.
Proof.
  unfold S3.SaveBytes, S3.SaveData. destruct (body == ""); [intros [= <- <-]; by apply overwrites_same|].
  match goal with |- context [S3.check_valid ?x] => set (a := x) end.
  assert (a_ID a = bytes_id p body) as Ha by reflexivity. clearbody a.
  intros [(u4 & s4 & E4%check_valid_same & E)|(e & E4%check_valid_same & ->)]%bind_inv; subst; [|by apply overwrites_same].
  apply bind_inv in E as [(u5 & s5 & E5 & E)|(e & E5 & ->)]; apply hushed_checkBucket in E5 as (R5 & O5 & _ & M5); [|by apply overwrites_same].
  eapply (overwrites_put _ (set_a_Bucket (S3.Bucket conf) a)); [exact Ha|by apply overwrites_same|exact O5|exact E].
Qed.

(** What validation and loading leave as it is. *)
Definition same_core (a a' : Artifact) : Prop :=
  a_ID a' = a_ID a /\ a_SHA256 a' = a_SHA256 a /\ a_UserID a' = a_UserID a /\ a_OrganizationID a' = a_OrganizationID a.
Definition texts_ok (a : Artifact) : Prop := readable (MetadataSerialized a) /\ readable (TagsSerialized a).
Lemma marshal_readable m : readable (marshal_map m).
Proof. intros _. rewrite map_roundtrip. by eexists. Qed.
Lemma ValidateBeforeSave_core a a' : ValidateBeforeSave a = inr a' -> same_core a a' /\ (texts_ok a -> texts_ok a').
Proof.
  unfold ValidateBeforeSave, same_core, texts_ok. destruct (Validate a); [done|]. destruct (a_ExpiresAt a =? 0); [done|]. intros [= <-].
  pose proof marshal_readable. repeat case_match; cbn; naive_solver.
Qed.
Lemma transaction_effect {A} (m : M A) s r s' : (forall r1 s1, m s = (r1, s1) -> objects s1 = objects s /\ time s1 = time s /\ made s1 = made s) ->
  ArtRepo.transaction m s = (r, s') ->
  objects s' = objects s /\ time s' = time s /\ made s' = made s /\
  match r with inl a => exists s1, m s = (inl a, s1) /\ rows s' = rows s1 | inr _ => rows s' = rows s end.
Proof.
  unfold ArtRepo.transaction. destruct (m s) as [[a|e] s1]; intros Hm; destruct (Hm _ _ eq_refl) as (O1 & T1 & M1).
  - destruct (db_fails (asked s1)); intros [= <- <-]; split_and!; try done. by exists s1.
  - intros [= <- <-]. done.
Qed.
Lemma Save_effect a s r s' : ArtRepo.Save a s = (r, s') ->
  objects s' = objects s /\ time s' = time s /\ made s' = made s /\
  match r with
  | inl a' => rows s !! a_ID a = None /\ rows s' = <[a_ID a := ArtRepo.row_of a']> (rows s) /\ a_Active a' = true /\ same_core a a' /\ (texts_ok a -> texts_ok a')
  | inr _ => rows s' = rows s
  end.
Proof.
  unfold ArtRepo.Save. intros [(a1 & s1 & E1 & E)|(e & E1 & ->)]%bind_inv;
    unfold checked in E1; destruct (ValidateBeforeSave a) as [x|y] eqn:Ev; try discriminate E1; injection E1 as <- <-; [|done].
  apply ValidateBeforeSave_core in Ev as [Hc Ht]. apply bind_inv in E as [(t & s2 & [= <- <-] & E)|(e & ? & _)]; [|done].
  set (a2 := set_a_UpdatedAt _ _) in E.
  assert (forall r1 s1, ArtRepo.create a2 s = (r1, s1) -> objects s1 = objects s /\ time s1 = time s /\ made s1 = made s) as Hcr.
  { intros r1 s1. unfold ArtRepo.create, call. destruct (db_fails (asked s)); [by intros [= <- <-]|]. cbn. destruct (rows s !! _); by intros [= <- <-]. }
  apply bind_inv in E as [(u & s3 & (O & T & Mm & s4 & E4 & R4)%(transaction_effect _ _ _ _ Hcr) & E)|(e & (O & T & Mm & R)%(transaction_effect _ _ _ _ Hcr) & ->)]; [|done].
  injection E as <- <-. split; [done|]. split; [done|]. split; [done|]. revert E4. unfold ArtRepo.create, call. destruct (db_fails (asked s)); [done|].
  change (rows (tick s)) with (rows s). change (a_ID a2) with (a_ID y). rewrite (proj1 Hc). destruct (rows s !! a_ID a) eqn:El; [done|]. intros [= <- <-].
  split; [done|]. split; [rewrite R4; reflexivity|]. split; [done|]. by split.
Qed.
Lemma UploadArtifact_effect qc body params s r s' : ArtManager.UploadArtifact cfg qc body params s = (r, s') ->
  time s' = time s /\ (made s <= made s')%nat /\
  (objects s' = objects s \/ exists n o, (made s <= n < made s')%nat /\ objects s' = <[key n := o]> (objects s)) /\
  match r with
  | inl a' => exists text n o, body = Some text /\ (made s <= n < made s')%nat /\ objects s' = <[key n := o]> (objects s) /\ data o = text /\
      rows s !! key n = None /\ rows s' = <[key n := ArtRepo.row_of a']> (rows s) /\
      a_ID a' = key n /\ a_Active a' = true /\ a_SHA256 a' = sha256 text /\ texts_ok a' /\ a_UserID a' = GetUserID qc /\ a_OrganizationID a' = GetOrganizationID qc
  | inr _ => rows s' = rows s
  end.
Proof.
  unfold ArtManager.UploadArtifact. intros [(u & s1 & E1 & E)|(e & E1 & ->)]%bind_inv; [|done]. apply hushed_ulid in E1 as (R1 & O1 & T1 & M1).
  apply bind_inv in E as [(u2 & s2 & E2 & E)|(e & E2 & ->)]; apply hushed_file in E2 as (R2 & O2 & T2 & M2);
    [|split_and!; [congruence|lia|left; congruence|congruence]].
  destruct body as [text|]; [|injection E as <- <-; split_and!; [congruence|lia|left; congruence|congruence]].
  apply bind_inv in E as [(u3 & s3 & E3 & E)|(e & E3 & ->)]; apply hushed_file in E3 as (R3 & O3 & T3 & M3);
    [|split_and!; [congruence|lia|left; congruence|congruence]].
  apply bind_inv in E as [(name & s4 & E4 & E)|(e & E4 & ->)]; [|done]. apply hushed_ulid in E4 as (R4 & O4 & T4 & M4).
  apply bind_inv in E as [(t & s5 & [= <- <-] & E)|(e & ? & _)]; [|done].
  set (a0 := mkArtifact _ _ _ _ _ _ _ _ _ _ _ _ _ _ _ _ _ _ _ _ _ _ _ _ _ _) in E.
  apply bind_inv in E as [(a1 & s6 & (R6 & T6 & M6 & n & o & Hn & I6 & O6 & D6 & H6 & X6)%SaveFile_effect & E)|(e & (R6 & T6 & M6 & O6)%SaveFile_effect & ->)]; [|done| |done].
  2:{ split_and!; [congruence|lia|left; congruence|congruence]. }
  apply Save_effect in E as (O7 & T7 & M7 & E). rewrite O4, O3, O2, O1 in O6. rewrite R4, R3, R2, R1 in R6.
  split_and!; [congruence|lia|right; exists n, o; split; [lia|congruence]|].
  destruct r as [a'|e]; [|congruence]. destruct E as (Hnone & R7 & Hact & Hc & Ht). rewrite I6, R6 in Hnone, R7.
  destruct X6 as (X1 & X2 & X3 & X4). destruct Hc as (C1 & C2 & C3 & C4). cbn in X1, X2, X3, X4.
  exists text, n, o. split_and!; try done; try congruence; [lia|lia|]. apply Ht. unfold texts_ok. rewrite X1, X2. by split.
Qed.

(** *** Updates *)
Lemma AddMetadata_core k v a : a_ID (AddMetadata k v a) = a_ID a /\ a_SHA256 (AddMetadata k v a) = a_SHA256 a /\
  MetadataSerialized (AddMetadata k v a) = MetadataSerialized a /\ TagsSerialized (AddMetadata k v a) = TagsSerialized a.
Proof. unfold AddMetadata. by repeat case_match. Qed.
Lemma merge_core a old : a_ID (ArtRepo.merge a old) = a_ID old /\ a_SHA256 (ArtRepo.merge a old) = a_SHA256 old /\
  MetadataSerialized (ArtRepo.merge a old) = MetadataSerialized old /\ TagsSerialized (ArtRepo.merge a old) = TagsSerialized old.
Proof.
  unfold ArtRepo.merge. cbn. generalize (range (Metadata a)) as l. intros l. revert old.
  induction l as [|[k v] l IH]; intros old; cbn; [done|]. destruct (IH (AddMetadata k v old)) as (-> & -> & -> & ->). apply AddMetadata_core.
Qed.
#[local] Arguments ArtRepo.merge : simpl never.
Lemma first_loaded_effect p s a s' : ArtRepo.first_loaded p s = (inl a, s') ->
  exists x, AfterLoad x = inr a /\ x ∈ ArtRepo.matching p (rows s).
Proof.
  unfold ArtRepo.first_loaded. intros [(y & s1 & (z & E1 & [= ->])%attempt_inv & E)|(e & (y & _ & ?)%attempt_inv & _)]%bind_inv; [|done].
  destruct z as [[x|]|]; try discriminate E. unfold checked in E. destruct (AfterLoad x) as [e|x'] eqn:Ex; [done|]. injection E as <- <-.
  exists x. split; [done|]. unfold query, call in E1. destruct (db_fails (asked s)); [done|]. injection E1 as Hx _.
  unfold ArtRepo.first_row in Hx. cbn in Hx. rewrite <- (sort_slice_perm (fun a b => String.ltb (a_ID a) (a_ID b))). destruct (sort_slice _ _); [done|]. injection Hx as ->. left.
Qed.
Lemma AfterLoad_core a a' : AfterLoad a = inr a' -> same_core a a' /\ MetadataSerialized a' = MetadataSerialized a /\ TagsSerialized a' = TagsSerialized a.
Proof. unfold AfterLoad, same_core. repeat case_match; intros; simplify_eq; done. Qed.
Lemma Update_effect qc a s r s' : keyed s -> ArtRepo.Update qc a s = (r, s') ->
  objects s' = objects s /\ time s' = time s /\ (made s <= made s')%nat /\
  match r with
  | inl a' => rows s' = <[a_ID a := ArtRepo.row_of a']> (rows s) /\ a_ID a' = a_ID a /\
      ((exists old, rows s !! a_ID a = Some old /\ a_Active old = true /\ a_SHA256 a' = a_SHA256 old /\ (texts_ok old -> texts_ok a')) \/
       (a_SHA256 a' = a_SHA256 a /\ (texts_ok a -> texts_ok a')))
  | inr _ => rows s' = rows s
  end.
Proof.
  intros Hk. unfold ArtRepo.Update. intros [(a1 & s1 & E1 & E)|(e & E1 & ->)]%bind_inv;
    unfold checked in E1; destruct (ValidateBeforeSave a) as [x|y] eqn:Ev; try discriminate E1; injection E1 as <- <-; [|done].
  apply ValidateBeforeSave_core in Ev as [(C1 & C2 & C3 & C4) Ht].
  destruct (negb (Matches qc (a_UserID y) (a_OrganizationID y) false)); [by injection E as <- <-|].
  apply bind_inv in E as [(o & s2 & (old & E2 & [= ->])%attempt_inv & E)|(e & (? & _ & ?)%attempt_inv & _)]; [|done].
  pose proof (hushed_first_loaded _ _ _ _ E2) as (R2 & O2 & T2 & M2).
  assert (exists a1, (match old with inl old => ArtRepo.merge y old | inr _ => y end) = a1 /\ a_ID a1 = a_ID a /\
    ((exists x, rows s !! a_ID a = Some x /\ a_Active x = true /\ a_SHA256 a1 = a_SHA256 x /\ (texts_ok x -> texts_ok a1)) \/
     (a_SHA256 a1 = a_SHA256 a /\ (texts_ok a -> texts_ok a1)))) as (a1 & Ea1 & I1 & F1).
  { eexists. split; [reflexivity|]. destruct old as [old|e]; [|by split; [|right]].
    apply first_loaded_effect in E2 as (x & Hx & [Hp [id Hid]]%elem_of_matching). apply AfterLoad_core in Hx as ((X1 & X2 & _) & X5 & X6).
    apply andb_true_iff in Hp as [[_ Hp]%andb_true_iff Hact]. apply String.eqb_eq in Hp.
    destruct (merge_core y old) as (G1 & G2 & G3 & G4). unfold texts_ok. rewrite G1, G2, G3, G4, X1, X2, X5, X6, Hp, C1. split; [done|].
    left. exists x. rewrite <- C1, <- Hp, (Hk id x Hid). done. }
  rewrite Ea1 in E. clear Ea1 E2.
  apply bind_inv in E as [(t & s3 & [= <- <-] & E)|(e & ? & _)]; [|done].
  set (a2 := set_a_UpdatedAt _ _) in E.
  assert (forall r1 s1, exec (fun r => (tt, <[a_ID a2 := ArtRepo.row_of a2]> r)) s2 = (r1, s1) -> objects s1 = objects s2 /\ time s1 = time s2 /\ made s1 = made s2) as Hex.
  { intros r1 s1. unfold exec, call. destruct (db_fails (asked s2)); by intros [= <- <-]. }
  apply bind_inv in E as [(u & s3 & (O & T & Mm & s4 & E4 & R4)%(transaction_effect _ _ _ _ Hex) & E)|(e & (O & T & Mm & R)%(transaction_effect _ _ _ _ Hex) & ->)].
  2:{ split_and!; congruence || lia. }
  injection E as <- <-. split; [congruence|]. split; [congruence|]. split; [lia|].
  unfold exec, call in E4. destruct (db_fails (asked s2)); [done|]. injection E4 as _ <-.
  change (rows s3 = <[a_ID a1 := ArtRepo.row_of a2]> (rows s2)) in R4. rewrite R2, I1 in R4. split; [exact R4|]. by split.
Qed.

(** *** Histories *)
(** An ant reports an artifact that it has stored; the serialized texts are not part
    of its message. *)
Definition vouched (s : St) (a : Artifact) : Prop :=
  (exists o, objects s !! a_ID a = Some o /\ sha256 (data o) = a_SHA256 a) /\ MetadataSerialized a = "" /\ TagsSerialized a = "".
Definition expired_ids (qc : QueryContext) (b : Z) (s : St) : gset string := dom (filter (fun kv => ArtRepo.is_expired qc b (snd kv) = true) (rows s)).
Lemma elem_of_expired_ids qc b s id : id ∈ expired_ids qc b s <-> out_of_time qc b s id.
Proof. unfold expired_ids. rewrite elem_of_dom. unfold is_Some. setoid_rewrite map_lookup_filter_Some. done. Qed.
(** Identifiers that are given are not those that are still to be made. *)
Definition apart (s : St) (id : string) : Prop := forall n, id = key n -> (n < made s)%nat.
(** The identifier, if there was an object with other contents. *)
Definition replaced (s : St) (id body : string) : gset string :=
  match objects s !! id with
  | Some o => if sha256 (data o) == sha256 body then ∅ else {[id]}
  | None => ∅
  end.
(** Any sequence of calls, with the identifiers whose contents may be others than
    the table says: whose deletion has failed, under which other contents were
    stored, or which were reported by an ant that had not stored them. *)
Inductive reach : gset string -> St -> Prop :=
| r_start now : reach ∅ (empty now)
| r_wait L s t : reach L s -> reach L (mkSt (rows s) (objects s) (logs s) (verifiedBucket s) (created s) (asked s) (made s) t)
| r_upload L s qc body params r s' : reach L s -> ArtManager.UploadArtifact cfg qc body params s = (r, s') -> reach L s'
| r_stored L s a body r s' : reach L s -> a_ID a = "" -> S3.SaveFile conf a body s = (r, s') -> reach L s'
| r_kept L s a body r s' : reach L s -> a_ID a <> "" -> apart s (stored_id a) -> S3.SaveFile conf a body s = (r, s') ->
    reach (replaced s (stored_id a) body ∪ L) s'
| r_bytes L s p name body r s' : reach L s -> apart s (bytes_id p body) -> S3.SaveBytes conf p name body s = (r, s') ->
    reach (replaced s (bytes_id p body) body ∪ L) s'
| r_claimed L s qc a r s' : reach L s -> apart s (a_ID a) -> MetadataSerialized a = "" -> TagsSerialized a = "" ->
    ArtManager.UpdateArtifact cfg qc a s = (r, s') -> reach ({[a_ID a]} ∪ L) s'
| r_reported L s qc a r s' : reach L s -> vouched s a -> ArtManager.UpdateArtifact cfg qc a s = (r, s') -> reach L s'
| r_read L s qc sha r s' : reach L s -> ArtManager.DownloadArtifactBySHA256 qc sha s = (r, s') -> reach L s'
| r_queried L s qc cond page n order r s' : reach L s -> ArtRepo.Query qc cond page n order s = (r, s') -> reach L s'
| r_deleted L s qc id s' : reach L s -> ArtManager.DeleteArtifact qc id s = (inl tt, s') -> reach L s'
| r_not_deleted L s qc id e s' : reach L s -> ArtManager.DeleteArtifact qc id s = (inr e, s') -> reach ({[id]} ∪ L) s'
| r_expired L s qc e limit r s' : reach L s -> ArtManager.ExpireArtifacts qc e limit s = (inl r, s') -> reach L s'
| r_not_expired L s qc e limit x s' : reach L s -> ArtManager.ExpireArtifacts qc e limit s = (inr x, s') -> reach (expired_ids qc (time s - e) s ∪ L) s'.

(** Rows are under their keys and readable, identifiers are made once, and active
    rows have their contents. *)
Record sound (L : gset string) (s : St) : Prop := {
  sound_keyed : keyed s;
  sound_texts : map_Forall (fun _ a => texts_ok a) (rows s);
  sound_made : forall n, is_Some (rows s !! key n) \/ is_Some (objects s !! key n) -> (n < made s)%nat;
  sound_contents : forall id a, rows s !! id = Some a -> a_Active a = true -> id ∉ L -> exists o, objects s !! id = Some o /\ sha256 (data o) = a_SHA256 a
}.
Lemma sound_same L s s' : sound L s -> rows s' = rows s -> objects s' = objects s -> (made s <= made s')%nat -> sound L s'.
Proof.
  intros [K T F C] R O Mm. split; [unfold keyed; by rewrite R|by rewrite R| |by rewrite R, O]. intros n. rewrite R, O. intros Hn%F. lia.
Qed.
Lemma sound_fresh L s n : sound L s -> (made s <= n)%nat -> rows s !! key n = None /\ objects s !! key n = None.
Proof.
  intros [_ _ F _] Hn. split; apply eq_None_not_Some; intros Hx; assert (n < made s)%nat by (apply F; auto); lia.
Qed.
(** A new object. *)
Lemma sound_put L s s' n o : sound L s -> (made s <= n < made s')%nat -> rows s' = rows s -> objects s' = <[key n := o]> (objects s) -> sound L s'.
Proof.
  intros Hs Hn R O. destruct (sound_fresh L s n Hs (proj1 Hn)) as [Fr _]. destruct Hs as [K T F C]. split; [unfold keyed; by rewrite R|by rewrite R| |].
  - intros m. rewrite R, O. destruct (decide (m = n)) as [->|Hne]; [lia|]. rewrite lookup_insert_ne by (intros E%key_inj; done). intros Hm%F. lia.
  - intros id a. rewrite R, O. intros Ha Hact Hid. rewrite lookup_insert_ne by (intros <-; congruence). by apply C.
Qed.
(** An object that is stored again. *)
Lemma sound_overwrites L s s' id body : sound L s -> apart s id -> overwrites id body s s' -> sound (replaced s id body ∪ L) s'.
Proof.
  intros [K T F C] Ha (R & Mm & O). split; [unfold keyed; by rewrite R|by rewrite R| |].
  - intros n. rewrite R. intros Hn. assert (n < made s)%nat; [|lia]. destruct O as [O|(o & O & _)]; rewrite O in Hn; [by apply F|].
    destruct (decide (key n = id)) as [E|Hne]; [by apply Ha|]. rewrite lookup_insert_ne in Hn by done. by apply F.
  - intros k a. rewrite R. intros Hrow Hact Hk. destruct (C k a Hrow Hact ltac:(set_solver)) as (o & Ho & Hd).
    destruct O as [O|(o' & O & Hb)]; rewrite O; [by exists o|]. destruct (decide (k = id)) as [->|Hne]; [|rewrite lookup_insert_ne by done; by exists o].
    exists o'. rewrite lookup_insert_eq. split; [done|]. unfold replaced in Hk. rewrite Ho in Hk.
    destruct (sha256 (data o) == sha256 body) eqn:E; [|set_solver]. apply String.eqb_eq in E. congruence.
Qed.
(** A row that is written over an object with its contents. *)
Lemma sound_row L s s' id a : sound L s -> a_ID a = id -> texts_ok a -> rows s' = <[id := a]> (rows s) -> objects s' = objects s -> (made s <= made s')%nat ->
  apart s id -> (id ∉ L -> exists o, objects s !! id = Some o /\ sha256 (data o) = a_SHA256 a) -> sound L s'.
Proof.
  intros [K T F C] Hid Ht R O Mm Hx Hc. split.
  - unfold keyed. rewrite R. apply map_Forall_insert_2; [exact Hid|exact K].
  - rewrite R. by apply map_Forall_insert_2.
  - intros n. rewrite R, O. destruct (decide (key n = id)) as [E|Hne]; [|rewrite lookup_insert_ne by done; intros Hn%F; lia].
    intros _. symmetry in E. apply Hx in E. lia.
  - intros k x. rewrite R, O. destruct (decide (k = id)) as [->|Hne]; [|rewrite lookup_insert_ne by done; apply C].
    rewrite lookup_insert_eq. intros [= <-] _. exact Hc.
Qed.

Lemma texts_UpdateURL a : texts_ok a -> texts_ok (ArtManager.UpdateURL cfg a).
Proof. unfold ArtManager.UpdateURL. by repeat case_match. Qed.
Lemma UpdateURL_core a : same_core a (ArtManager.UpdateURL cfg a) /\ same_texts a (ArtManager.UpdateURL cfg a).
Proof. unfold ArtManager.UpdateURL, same_core, same_texts. by repeat case_match. Qed.
Lemma sound_since L s s' (P : string -> Prop) : sound L s -> since P s s' ->
  (forall id a, rows s' !! id = Some a -> a_Active a = true -> id ∉ L -> objects s' !! id = objects s !! id) -> sound L s'.
Proof.
  intros [K T F C] HS Hobj. pose proof (keyed_since _ _ _ K HS) as K'. destruct HS as [_ Mm _ R J]. split; [done| | |].
  - intros id a' (a & Ha & [-> | ->])%R; exact (T id a Ha).
  - intros n Hn. assert (n < made s)%nat; [|lia]. apply F. destruct Hn as [[a' (a & Ha & _)%R]|[o Ho]]; [left; by eexists|right].
    destruct (J (key n)) as [E|E]; rewrite E in Ho; [by eexists|done].
  - intros id a' Ha' Hact Hid. rewrite (Hobj id a' Ha' Hact Hid). destruct (R id a' Ha') as (a & Ha & [-> | ->]); [by apply C|done].
Qed.
Lemma sound_weaken L L' s : L ⊆ L' -> sound L s -> sound L' s.
Proof. intros HL [K T F C]. split; [done..|]. intros id a Ha Hact Hid. apply (C id a Ha Hact). set_solver. Qed.

(** A successful deletion or expiry marks the rows whose objects are gone, and marks
    stay. *)
Definition inactive (s : St) (id : string) : Prop := exists a, rows s !! id = Some a /\ a_Active a = false.
Definition tidy (s s' : St) : Prop := forall id, (objects s' !! id = objects s !! id \/ inactive s' id) /\ (inactive s id -> inactive s' id).
Lemma tidy_refl s : tidy s s.
Proof. intros id. split; [by left|done]. Qed.
Lemma tidy_trans s0 s1 s2 : tidy s0 s1 -> tidy s1 s2 -> tidy s0 s2.
Proof. intros H1' H2' id. destruct (H1' id) as [A B], (H2' id) as [C D]. split; [|auto]. destruct C as [->|C]; [|by right]. destruct A; [by left|right; auto]. Qed.
Lemma DeleteArtifact_tidy qc id s s' : ArtManager.DeleteArtifact qc id s = (inl tt, s') -> tidy s s'.
Proof.
  intros (_ & _ & _ & _ & Hok)%DeleteArtifact_effect. destruct (Hok eq_refl) as [O (a & Ha & Hact & _ & R)]. intros k. unfold inactive. rewrite R, O.
  destruct (decide (k = id)) as [->|Hne]; [|rewrite lookup_delete_ne, lookup_insert_ne by done; split; [by left|done]].
  rewrite lookup_insert_eq. split; [right|intros _]; by exists (gone (time s) a).
Qed.
Lemma delete_all_tidy qc l : forall size s z s', ArtManager.delete_all qc l size s = (inl z, s') -> tidy s s'.
Proof.
  induction l as [|a l IH]; intros size s z s'; cbn [ArtManager.delete_all]; [intros [= _ <-]; apply tidy_refl|].
  intros [([] & s1 & E1%DeleteArtifact_tidy & E2%IH)|(e & _ & ?)]%bind_inv; [|done]. by eapply tidy_trans.
Qed.
Lemma expire_loop_tidy qc e fuel : forall i limit n size s r s', ArtManager.expire_loop fuel qc e i limit n size s = (inl r, s') -> tidy s s'.
Proof.
  induction fuel as [|fuel IH]; intros i limit n size s r s'; cbn [ArtManager.expire_loop]; [intros [= _ <-]; apply tidy_refl|].
  destruct (i <? limit); [|intros [= _ <-]; apply tidy_refl].
  intros [(l & s1 & (_ & _ & ->)%ExpiredArtifacts_effect & E)|(x & _ & ?)]%bind_inv; [|done].
  apply bind_inv in E as [(z & s2 & E2%delete_all_tidy & E3%IH)|(x & _ & ?)]; [|done]. exact (tidy_trans _ _ _ E2 E3).
Qed.
Lemma ExpireArtifacts_tidy qc e limit s r s' : ArtManager.ExpireArtifacts qc e limit s = (inl r, s') -> tidy s s'.
Proof.
  unfold ArtManager.ExpireArtifacts. intros [(x & s1 & (y & E1 & _)%attempt_inv & E)|(z & _ & ?)]%bind_inv; [|done].
  apply bind_inv in E as [(z & s2 & E2%expire_loop_tidy & E3)|(z & _ & ?)]; [|done]. injection E3 as _ <-.
  unfold ArtRepo.ExpireLogEvents, call in E1. destruct (db_fails (asked s)); injection E1 as _ <-; exact E2.
Qed.
Lemma tidy_active s s' id a : tidy s s' -> rows s' !! id = Some a -> a_Active a = true -> objects s' !! id = objects s !! id.
Proof. intros HT Ha Hact. destruct (HT id) as [[E|(b & Hb & Hn)] _]; [done|congruence]. Qed.

Lemma sound_Upload L s qc body params r s' : sound L s -> ArtManager.UploadArtifact cfg qc body params s = (r, s') -> sound L s'.
Proof.
  intros Hs (_ & Hm & Ho & Hr)%UploadArtifact_effect. destruct r as [a'|e].
  - destruct Hr as (text & n & o & -> & Hn & O & Hd & Hnone & R & Hid & Hact & Hsha & Ht & _ & _).
    assert (sound L (set_rows (rows s) s')) as Hs1 by (by eapply sound_put).
    eapply (sound_row L _ s' (key n) (ArtRepo.row_of a') Hs1); [exact Hid|exact Ht|exact R|done|done|intros m ->%key_inj; apply Hn|].
    intros _. exists o. cbn. rewrite O, lookup_insert_eq. split; [done|]. change (sha256 (data o) = a_SHA256 a'). congruence.
  - destruct Ho as [O|(n & o & Hn & O)]; [by eapply sound_same|by eapply sound_put].
Qed.
Lemma sound_Report L s qc a r s' :
  sound L s -> apart s (a_ID a) -> MetadataSerialized a = "" -> TagsSerialized a = "" ->
  (a_ID a ∉ L -> exists o, objects s !! a_ID a = Some o /\ sha256 (data o) = a_SHA256 a) ->
  ArtManager.UpdateArtifact cfg qc a s = (r, s') -> sound L s'.
Proof.
  intros Hs Hap Hm Ht Ho. unfold ArtManager.UpdateArtifact.
  destruct (UpdateURL_core a) as [(C1 & C2 & _) (X1 & X2 & _)]. intros (O & _ & Mm & Hr)%(Update_effect _ _ _ _ _ (sound_keyed _ _ Hs)).
  destruct r as [a'|e]; [|by eapply sound_same]. destruct Hr as (R & Hid & Hr). rewrite C1 in R, Hid, Hr.
  eapply (sound_row L s s' (a_ID a) (ArtRepo.row_of a') Hs Hid); [|exact R|done|done|exact Hap|].
  - destruct Hr as [(old & Hold & _ & _ & Hx)|[_ Hx]]; [exact (Hx (sound_texts _ _ Hs _ _ Hold))|apply Hx].
    unfold texts_ok. rewrite X1, X2, Hm, Ht. by split.
  - change (a_SHA256 (ArtRepo.row_of a')) with (a_SHA256 a'). intros Hid'. destruct Hr as [(old & Hold & Hact & -> & _)|[-> _]].
    + by eapply (sound_contents _ _ Hs).
    + rewrite C2. by apply Ho.
Qed.
Lemma reach_sound L s : reach L s -> sound L s.
Proof.
  induction 1 as [now|L s t _ IH|L s qc body params r s' _ IH E|L s a body r s' _ IH Hid E|L s a body r s' _ IH Hid Hap E
                 |L s p name body r s' _ IH Hap E|L s qc a r s' _ IH Hap Hm Ht E|L s qc a r s' _ IH Hv E|L s qc sha r s' _ IH E
                 |L s qc cond page n order r s' _ IH E|L s qc id s' _ IH E|L s qc id e s' _ IH E|L s qc e limit r s' _ IH E|L s qc e limit x s' _ IH E].
  - split; [apply map_Forall_empty|apply map_Forall_empty| |by intros id a Ha]. intros n [[? Hn]|[? Hn]]; cbn in Hn; by rewrite lookup_empty in Hn.
  - by eapply sound_same.
  - by eapply sound_Upload.
  - apply SaveFile_effect in E as (R & _ & Mm & Hr); [|done]. destruct r as [a'|e]; [|by eapply sound_same].
    destruct Hr as (n & o & Hn & _ & O & _). by eapply sound_put.
  - apply sound_overwrites; [done|done|by eapply SaveFile_overwrites].
  - apply sound_overwrites; [done|done|by eapply SaveBytes_overwrites].
  - eapply (sound_Report _ s); [apply (sound_weaken L ({[a_ID a]} ∪ L) s ltac:(set_solver) IH)|exact Hap|exact Hm|exact Ht| |exact E]. set_solver.
  - destruct Hv as ((o & Ho & Hsha) & Hm & Ht). eapply (sound_Report _ s); [exact IH| |exact Hm|exact Ht| |exact E]; [|by eauto].
    intros n En. apply (sound_made _ _ IH). right. rewrite <- En. by eexists.
  - apply hushed_Download in E as (? & ? & _ & ?). by eapply sound_same.
  - apply hushed_Query in E as (? & ? & _ & ?). by eapply sound_same.
  - pose proof (since_DeleteArtifact (fun _ => True) qc id s _ s' I E) as HS. apply (sound_since L s s' _ IH HS).
    intros k a Ha Hact _. by eapply tidy_active; [eapply DeleteArtifact_tidy|..].
  - pose proof (since_DeleteArtifact (eq id) qc id s _ s' eq_refl E) as HS. apply (sound_since _ s s' _ (sound_weaken L ({[id]} ∪ L) s ltac:(set_solver) IH) HS).
    intros k a Ha Hact Hk. apply (since_others _ _ _ HS k). set_solver.
  - pose proof (since_ExpireArtifacts qc e limit s _ s' (sound_keyed _ _ IH) E) as HS. apply (sound_since L s s' _ IH HS).
    intros k a Ha Hact _. by eapply tidy_active; [eapply ExpireArtifacts_tidy|..].
  - pose proof (since_ExpireArtifacts qc e limit s _ s' (sound_keyed _ _ IH) E) as HS.
    apply (sound_since _ s s' _ (sound_weaken L (expired_ids qc (time s - e) s ∪ L) s ltac:(set_solver) IH) HS).
    intros k a Ha Hact Hk. apply (since_others _ _ _ HS k). rewrite <- elem_of_expired_ids. set_solver.
Qed.

(** C31: after any sequence of uploads, stores and reports of ants, reads, deletions
    and expiries, by any users, with any failures of the database and of the object
    store, every active artifact has its contents in the store, with the hash of
    its row, unless a deletion of it was refused or failed, an expiry failed while
    it was out of time, other contents were stored under its identifier (as for a
    cache that is refreshed), or it was reported by an ant when the store did not
    have the contents with the hash reported.  Identifiers are made once, those that
    ants choose are none that are made later, ants do not report serialized texts,
    and the JSON of a map is read back. *)
Theorem active_artifact_has_its_contents L s id a
    (history : reach L s)
    (there : rows s !! id = Some a) (live : a_Active a = true) (untouched : id ∉ L) :
  exists o, objects s !! id = Some o /\ sha256 (data o) = a_SHA256 a.
Proof. exact (sound_contents _ _ (reach_sound _ _ history) id a there live untouched). Qed.

Lemma first_row_some p r a : a ∈ ArtRepo.matching p r -> exists x, ArtRepo.first_row p r = Some x /\ x ∈ ArtRepo.matching p r.
Proof.
  intros Ha. unfold ArtRepo.first_row. set (less := fun a b : Artifact => String.ltb (a_ID a) (a_ID b)).
  rewrite <- (sort_slice_perm less) in Ha. destruct (sort_slice less _) as [|x l] eqn:E; [by apply elem_of_nil in Ha|].
  exists x. split; [done|]. rewrite <- (sort_slice_perm less), E. left.
Qed.

(** C39: what a user has uploaded is downloaded again by its hash, also by another
    member of the same organization: after any history, when the database and the
    store answer, the download succeeds and the bytes have the hash of the bytes
    that were uploaded, provided that no active artifact of the table with that
    hash is one of those whose contents may be others than the table says: those
    whose deletion or expiry failed, under whose identifier other contents were
    stored, or that were reported without being stored.  Identifiers are made
    once, those that ants choose are none that are made later, ants do not report
    serialized texts, and the JSON of a map is read back. *)
Theorem uploaded_artifact_is_downloaded L user reader text params s a s'
    (history : reach L s)
    (no_stale_row : forall id x, id ∈ L -> rows s !! id = Some x -> a_Active x = true -> a_SHA256 x <> sha256 text)
    (uploaded : ArtManager.UploadArtifact cfg (NewQueryContext user) (Some text) params s = (inl a, s'))
    (colleague : GetOrganizationID (NewQueryContext reader) = GetOrganizationID (NewQueryContext user) /\
                 (GetOrganizationID (NewQueryContext user) <> "" \/ GetUserID (NewQueryContext reader) = GetUserID (NewQueryContext user)))
    (healthy : forall n, (asked s' <= n)%nat -> db_fails n = false /\ s3_fails n = false) :
  exists body name kind s'', ArtManager.DownloadArtifactBySHA256 (NewQueryContext reader) (a_SHA256 a) s' = (inl (body, name, kind), s'') /\
    sha256 body = sha256 text.
Proof.
  pose proof (sound_Upload _ _ _ _ _ _ _ (reach_sound _ _ history) uploaded) as Hs.
  apply UploadArtifact_effect in uploaded as (_ & _ & _ & t & n & o & [= <-] & Hn & O & Hd & Hnone & R & Hid & Hact & Hsha & Ht & Hu & Ho).
  set (qc := NewQueryContext reader). set (p := fun x => ArtRepo.in_scope qc true x && (a_SHA256 x == a_SHA256 a) && a_Active x).
  assert (ArtRepo.row_of a ∈ ArtRepo.matching p (rows s')) as Hin.
  { apply elem_of_matching. split; [|exists (key n); by rewrite R, lookup_insert_eq]. unfold p. cbn. rewrite String.eqb_refl, Hact, !andb_true_r.
    unfold ArtRepo.in_scope, qc. rewrite scope_matches. unfold Matches, ArtRepo.column. cbn. rewrite Hu, Ho. destruct colleague as [C1 C2].
    destruct reader as [u|]; [|done]. cbn in C1, C2 |- *. rewrite <- C1 in *. destruct (_ || _); [done|].
    destruct (Users.OrganizationID u == "") eqn:E; cbn; [|apply String.eqb_refl]. apply String.eqb_eq in E.
    destruct C2 as [C2|C2]; [done|]. rewrite <- C2. apply String.eqb_refl. }
  destruct (first_row_some p (rows s') _ Hin) as (x & Hx & [Hp [id Hrow]]%elem_of_matching).
  unfold p in Hp. apply andb_true_iff in Hp as [[_ Hp]%andb_true_iff Hxa]. apply String.eqb_eq in Hp.
  destruct (proj2 (AfterLoad_readable x) (sound_texts _ _ Hs id x Hrow)) as [x' Hx']. pose proof (AfterLoad_core x x' Hx') as ((I1 & _) & _).
  assert (exists ox, objects s' !! id = Some ox /\ sha256 (data ox) = a_SHA256 x) as (ox & Hox & Hdx).
  { destruct (decide (id = key n)) as [->|Hne].
    - exists o. rewrite O, lookup_insert_eq. split; [done|]. congruence.
    - apply (sound_contents _ _ Hs id x Hrow Hxa). intros HL. rewrite R, lookup_insert_ne in Hrow by done.
      destruct (no_stale_row id x HL Hrow Hxa). congruence. }
  unfold ArtManager.DownloadArtifactBySHA256, ArtRepo.GetBySHA256, ArtRepo.first_loaded, bind, attempt, query, call.
  rewrite (proj1 (healthy (asked s') (le_n _))). change (rows (tick s')) with (rows s'). fold p. rewrite Hx. unfold checked. rewrite Hx'. cbn [ret].
  unfold S3.Get, S3.s3, call, ret. rewrite (proj2 (healthy (asked (tick s')) ltac:(cbn; lia))). cbn [objects tick]. rewrite I1, (sound_keyed _ _ Hs id x Hrow), Hox.
  do 4 eexists. split; [reflexivity|]. congruence.
Qed.
End Contents.

(** ** Two tenants *)
Module ArtifactsDemo.
Definition outside (fails : nat -> bool) : Outside := {|
  db_fails := fails; s3_fails := fun _ => false; file_fails := fun _ => false; head_bucket := fun _ => BucketThere;
  ulid := fun n => itoa (Z.of_nat n); sha256 := fun text => "sha:" +:+ text; etag := fun _ => None;
  presign := fun _ _ _ _ => None; url_parse := fun _ => None; url_string := UrlHost; query_escape := fun x => x; list_page := 1000 |}.
#[local] Instance calm : Outside := outside (fun _ => false).
#[local] Instance json : MapJson := {| marshal_map := VariablesDemo.text "{"; unmarshal_map := VariablesDemo.of_text |}.
#[local] Instance laws : ArtLaws.
Proof.
  split; [intros m; apply VariablesDemo.of_text_text|]. intros m n E. apply itoa_inj in E; lia.
Qed.
Definition cfg : ArtManager.Settings := ArtManager.mkSettings (S3.mkS3Config "files" "" "" "" None) "https://queen" 60 1000 20000.
Definition member (user org : string) : QueryContext := NewQueryContext (Some (Users.mkUser user org "" "" None None)).
Definition row (id org sha : string) (expires : Z) : Artifact :=
  mkArtifact id "files" id org "ann" "" ArtifactKindUser "" 0 "" "" "" "" sha "" 5 0 "" "" expires 0 0 true ∅ ∅ "".
Definition held (text : string) : Object := mkObject text "" ∅ None.
Definition shelf : St :=
  mkSt {["old" := row "old" "acme" "sha:a" 10; "new" := row "new" "acme" "sha:b" 5000; "other" := row "other" "umbra" "sha:c" 10]}
    {["old" := held "a"; "new" := held "b"; "other" := held "c"]} [] true [] 0 0 1000.
Lemma shelf_keyed : keyed shelf.
Proof. unfold keyed, shelf. cbn. repeat (apply map_Forall_insert_2; [done|]). apply map_Forall_empty. Qed.
Lemma shelf_loadable : loadable shelf.
Proof. unfold loadable, shelf. cbn. repeat (apply map_Forall_insert_2; [by eexists|]). apply map_Forall_empty. Qed.
Definition acme : QueryContext := member "ann" "acme".

Lemma expiry_touches_only_expired_witness :
  keyed shelf /\ rows (snd (ArtManager.ExpireArtifacts acme 100 20000 shelf)) !! "other" = Some (row "other" "umbra" "sha:c" 10) /\
  objects (snd (ArtManager.ExpireArtifacts acme 100 20000 shelf)) !! "new" = Some (held "b").
Proof.
  split; [exact shelf_keyed|].
  pose proof (expiry_touches_only_expired acme 100 20000 shelf _ _ shelf_keyed (surjective_pairing _)) as (Hsame & _ & _). split.
  - destruct (Hsame "other") as [E _]; [|exact E]. intros (a & Ha & He). vm_compute in Ha. injection Ha as <-. by vm_compute in He.
  - destruct (Hsame "new") as [_ E]; [|exact E]. intros (a & Ha & He). vm_compute in Ha. injection Ha as <-. by vm_compute in He.
Defined.
Lemma expiry_removes_all_expired_witness :
  exists z s', ArtManager.ExpireArtifacts acme 100 20000 shelf = (inl ((1, z), None), s') /\
    ~ out_of_time acme 900 s' "old" /\ objects s' !! "old" = None.
Proof.
  destruct (expiry_removes_all_expired acme 100 20000 shelf) as (z & s' & E & Hnone & Hgone).
  - intros n. by split.
  - intros a. unfold ArtRepo.in_scope, acme, member. by rewrite !scope_matches.
  - exact shelf_keyed.
  - exact shelf_loadable.
  - vm_compute. discriminate.
  - exists z, s'. split; [exact E|]. split; [apply Hnone|]. apply Hgone. exists (row "old" "acme" "sha:a" 10). split; vm_compute; reflexivity.
Defined.
Lemma refused_deletion_destroys_contents_witness :
  exists s', ArtManager.DeleteArtifact (member "eve" "umbra") "new" shelf = (inr NotFoundError, s') /\ rows s' = rows shelf /\ objects s' !! "new" = None.
Proof.
  apply (refused_deletion_destroys_contents (member "eve" "umbra") "new" (row "new" "acme" "sha:b" 5000) shelf).
  - intros n. by split.
  - vm_compute. reflexivity.
  - vm_compute. reflexivity.
Defined.
Definition uploaded : (Artifact + error) * St := ArtManager.UploadArtifact cfg acme (Some "hello") {["kind" := "report"]} (empty 1000).
Lemma uploaded_reach : reach cfg ∅ (snd uploaded).
Proof. exact (r_upload cfg ∅ (empty 1000) acme (Some "hello") {["kind" := "report"]} _ _ (r_start cfg 1000) (surjective_pairing _)). Qed.
Definition the_artifact : Artifact := match fst uploaded with inl a => a | inr _ => no_artifact end.
Lemma active_artifact_has_its_contents_witness :
  exists o, objects (snd uploaded) !! "2" = Some o /\ sha256 (data o) = "sha:hello".
Proof.
  refine (active_artifact_has_its_contents cfg ∅ (snd uploaded) "2" (ArtRepo.row_of the_artifact) uploaded_reach _ _ _).
  - vm_compute. reflexivity.
  - vm_compute. reflexivity.
  - apply not_elem_of_empty.
Defined.
Lemma uploaded_artifact_is_downloaded_witness :
  exists body name kind s'', ArtManager.DownloadArtifactBySHA256 (member "bob" "acme") (a_SHA256 the_artifact) (snd uploaded) = (inl (body, name, kind), s'') /\
    sha256 body = sha256 "hello".
Proof.
  refine (uploaded_artifact_is_downloaded cfg ∅ (Some (Users.mkUser "ann" "acme" "" "" None None)) (Some (Users.mkUser "bob" "acme" "" "" None None))
    "hello" {["kind" := "report"]} (empty 1000) the_artifact (snd uploaded) (r_start cfg 1000) _ _ _ _).
  - intros id x Hid. by apply not_elem_of_empty in Hid.
  - vm_compute. reflexivity.
  - split; [reflexivity|left; discriminate].
  - intros n _. by split.
Defined.

(** The period is counted twice: an artifact is kept for it, and removed when it has
    been out of date for it once more. *)
Example period_counts_twice :
  a_ExpiresAt the_artifact = 2000 /\ ArtRepo.is_expired acme (2500 - ArtManager.DefaultArtifactExpiration cfg) the_artifact = false /\
  ArtRepo.is_expired acme (3001 - ArtManager.DefaultArtifactExpiration cfg) the_artifact = true.
Proof. vm_compute. done. Qed.
(** When the log events cannot be expired the run fails after it has expired every
    artifact. *)
Example failed_logs_fail_the_run :
  fst (@ArtManager.ExpireArtifacts (outside (fun n => (n =? 0)%nat)) _ _ acme 100 20000 shelf) = inl ((1, 5), Some DBError).
Proof. vm_compute. reflexivity. Qed.
(** New metadata of a known artifact is not stored. *)
Example updated_metadata_is_lost :
  match ArtManager.UpdateArtifact cfg acme (set_Metadata {["status" := "COMPLETED"]} (row "new" "acme" "sha:b" 5000)) shelf with
  | (inl a, s) => Metadata a !! "status" = Some "COMPLETED" /\ match fst (ArtRepo.Get acme "new" s) with inl b => Metadata b !! "status" = None | inr _ => False end
  | _ => False
  end.
Proof. vm_compute. done. Qed.
(** An update with the identifier of another tenant's artifact takes the row over. *)
Example update_takes_over :
  match ArtManager.UpdateArtifact cfg (member "eve" "umbra") (set_a_Name "mine" (row "new" "umbra" "sha:x" 5000)) shelf with
  | (inl _, s) => (a_OrganizationID <$> rows s !! "new") = Some "umbra" /\ fst (ArtRepo.Get acme "new" s) = inr NotFoundError
  | _ => False
  end.
Proof. vm_compute. done. Qed.
(** A cache that is stored again under its identifier keeps the hash of its first
    contents in the table. *)
Example refreshed_cache_keeps_its_hash :
  match S3.SaveFile (ArtManager.s3_conf cfg) (row "new" "acme" "" 9000) "fresh" shelf with
  | (inl a, s) =>
      match ArtManager.UpdateArtifact cfg acme a s with
      | (inl _, s) => (data <$> objects s !! "new") = Some "fresh" /\ (a_SHA256 <$> rows s !! "new") = Some "sha:b" /\ (a_ExpiresAt <$> rows s !! "new") = Some 5000
      | _ => False
      end
  | _ => False
  end.
Proof. vm_compute. done. Qed.
End ArtifactsDemo.
