(* ===== verification/JobResources.v ===== *)
(** * JobResources: mutexes, semaphores and quotas of jobs

    Models [src/queen/types/job_resource.go], [job_resource_use.go] and the
    repository [src/queen/repository/job_resource_repository_impl.go].

    The tables are lists of rows in the order of their keys.  A statement may fail,
    and a transaction that fails leaves the tables as they were; transactions are
    atomic.  Saving a resource inserts its new configurations and leaves the rows
    that are there, as the mapping library does by default.  The unique indexes of
    the migrations are there or not ([indexes]), and whether a row matches an empty
    [NOT IN] list is up to the database. *)

From S2P Require Import Prelude Acl Tags Approval JobRequest Variables.
Import Query NameValue Settings.

Open Scope Z_scope.
Open Scope go_scope.

(** ** Resources and their uses *)
Module Res.
Record JobResourceUse := mkUse {
  u_ID : string;
  u_JobResourceID : string;
  u_JobRequestID : Z;
  u_TaskExecutionID : string;
  u_UserID : string;
  u_Value : Z;
  Aborted : bool;
  u_Active : bool;
  u_CreatedAt : Z;
  u_UpdatedAt : Z;
  u_ExpiresAt : Z;
  u_RemainingQuota : Z
}.
Definition NewJobResourceUse (now : Z) (resourceID : string) (requestID : Z) (taskID userID : string) (value expiration : Z) : JobResourceUse :=
  mkUse "" resourceID requestID taskID userID value false false now now expiration 0.
Definition set_u_Active (x : bool) (t : Z) (u : JobResourceUse) : JobResourceUse :=
  mkUse (u_ID u) (u_JobResourceID u) (u_JobRequestID u) (u_TaskExecutionID u) (u_UserID u) (u_Value u) (Aborted u) x (u_CreatedAt u) t (u_ExpiresAt u) (u_RemainingQuota u).
Definition set_u_RemainingQuota (x : Z) (u : JobResourceUse) : JobResourceUse :=
  mkUse (u_ID u) (u_JobResourceID u) (u_JobRequestID u) (u_TaskExecutionID u) (u_UserID u) (u_Value u) (Aborted u) (u_Active u) (u_CreatedAt u) (u_UpdatedAt u) (u_ExpiresAt u) x.
Inductive use_error := ValueMissing | ResourceMissing | RequestMissing | TaskMissing | ExpirationMissing.
Definition use_Validate (u : JobResourceUse) : option use_error :=
  if u_Value u =? 0 then Some ValueMissing
  else if u_JobResourceID u == "" then Some ResourceMissing
  else if u_JobRequestID u =? 0 then Some RequestMissing
  else if u_TaskExecutionID u == "" then Some TaskMissing
  else if u_ExpiresAt u =? 0 then Some ExpirationMissing
  else None.

(** Configurations are rows of [Variable_], with the resource as owner. *)
Record JobResource := mkResource {
  basic : BasicResource;
  TagsSerialized : string;
  r_ID : string;
  ExternalID : string;
  ValidStatus : bool;
  Quota : Z;
  LeaseTimeout : Z;
  Disabled : bool;
  Configs : list Variable_;
  Uses : list JobResourceUse;
  r_OrganizationID : string;
  r_UserID : string;
  r_CreatedAt : Z;
  r_UpdatedAt : Z;
  r_Active : bool;
  NameValueConfigs : gmap string gvalue
}.
Definition set_texts (b : BasicResource) (tags : string) (x : JobResource) : JobResource :=
  mkResource b tags (r_ID x) (ExternalID x) (ValidStatus x) (Quota x) (LeaseTimeout x) (Disabled x) (Configs x) (Uses x) (r_OrganizationID x) (r_UserID x) (r_CreatedAt x) (r_UpdatedAt x) (r_Active x) (NameValueConfigs x).
Definition set_identity (id ext : string) (x : JobResource) : JobResource :=
  mkResource (basic x) (TagsSerialized x) id ext (ValidStatus x) (Quota x) (LeaseTimeout x) (Disabled x) (Configs x) (Uses x) (r_OrganizationID x) (r_UserID x) (r_CreatedAt x) (r_UpdatedAt x) (r_Active x) (NameValueConfigs x).
Definition set_owner_of (org user : string) (x : JobResource) : JobResource :=
  mkResource (basic x) (TagsSerialized x) (r_ID x) (ExternalID x) (ValidStatus x) (Quota x) (LeaseTimeout x) (Disabled x) (Configs x) (Uses x) org user (r_CreatedAt x) (r_UpdatedAt x) (r_Active x) (NameValueConfigs x).
Definition set_times (created updated : Z) (x : JobResource) : JobResource :=
  mkResource (basic x) (TagsSerialized x) (r_ID x) (ExternalID x) (ValidStatus x) (Quota x) (LeaseTimeout x) (Disabled x) (Configs x) (Uses x) (r_OrganizationID x) (r_UserID x) created updated (r_Active x) (NameValueConfigs x).
Definition set_flags (active disabled : bool) (x : JobResource) : JobResource :=
  mkResource (basic x) (TagsSerialized x) (r_ID x) (ExternalID x) (ValidStatus x) (Quota x) (LeaseTimeout x) disabled (Configs x) (Uses x) (r_OrganizationID x) (r_UserID x) (r_CreatedAt x) (r_UpdatedAt x) active (NameValueConfigs x).
Definition set_Configs (l : list Variable_) (x : JobResource) : JobResource :=
  mkResource (basic x) (TagsSerialized x) (r_ID x) (ExternalID x) (ValidStatus x) (Quota x) (LeaseTimeout x) (Disabled x) l (Uses x) (r_OrganizationID x) (r_UserID x) (r_CreatedAt x) (r_UpdatedAt x) (r_Active x) (NameValueConfigs x).
Definition set_Uses (l : list JobResourceUse) (x : JobResource) : JobResource :=
  mkResource (basic x) (TagsSerialized x) (r_ID x) (ExternalID x) (ValidStatus x) (Quota x) (LeaseTimeout x) (Disabled x) (Configs x) l (r_OrganizationID x) (r_UserID x) (r_CreatedAt x) (r_UpdatedAt x) (r_Active x) (NameValueConfigs x).
Definition set_NameValueConfigs (m : gmap string gvalue) (x : JobResource) : JobResource :=
  mkResource (basic x) (TagsSerialized x) (r_ID x) (ExternalID x) (ValidStatus x) (Quota x) (LeaseTimeout x) (Disabled x) (Configs x) (Uses x) (r_OrganizationID x) (r_UserID x) (r_CreatedAt x) (r_UpdatedAt x) (r_Active x) m.
Definition set_Tags (l : list string) (b : BasicResource) : BasicResource :=
  mkBasicResource (ResourceType b) (ResourceDescription b) (ResourcePlatform b) (Category b) l (Amount b) (ExtractProperties b) (ContextPrefix b).

Definition NewJobResource (now : Z) (resourceType : string) (quota : Z) : JobResource :=
  mkResource (mkBasicResource resourceType "" "" "" [] 0 [] "") "" "" "" true quota (60 * 1000000000) false [] [] "" "" now now true ∅.
Definition Editable (userID organizationID : string) (x : JobResource) : bool :=
  if (r_OrganizationID x != "") || (organizationID != "") then r_OrganizationID x == organizationID else r_UserID x == userID.
Definition MatchTag (other : list string) (x : JobResource) : bool := match MatchTagsArray (ResourceTags (basic x)) other with None => true | Some _ => false end.
Definition Enabled (x : JobResource) : bool := negb (Disabled x).
Definition ShortID (x : JobResource) : string := if (8 <? String.length (r_ID x))%nat then String.substring 0 8 (r_ID x) +:+ "..." else r_ID x.
Definition used (l : list JobResourceUse) : Z := foldl (fun n u => n + u_Value u) 0 l.
Definition RemainingQuota (x : JobResource) : Z := Quota x - used (Uses x).
Definition ConfigString (x : JobResource) : string := String.concat "" (map (fun c => Name (v_nv c) +:+ "=" +:+ Value (v_nv c) +:+ ",") (Configs x)).
Definition GetConfig (name : string) (x : JobResource) : option Variable_ := List.find (named name) (Configs x).
Definition GetConfigByID (id : string) (x : JobResource) : option Variable_ := List.find (fun c => v_ID c == id) (Configs x).

(** Each missing field is an error, and the last one is returned. *)
Definition Validate (x : JobResource) : bool := (ResourceType (basic x) != "") && (0 <? Quota x) && negb (LeaseTimeout x =? 0).
Definition config_Validate (c : Variable_) : bool :=
  (v_Owner c != "") && (Name (v_nv c) != "") && (Kind (v_nv c) != "") && (Value (v_nv c) != "") &&
  (Z.of_nat (String.length (Value (v_nv c))) <=? JobVars.maxConfigValueLength).

Section Values.
Context `{RangeOrder} `{Json} `{Decoder}.
Definition AddConfig (name : string) (v : gvalue) (x : JobResource) : option (Variable_ * JobResource) :=
  match new_variable name v false with
  | None => None
  | Some c =>
      let '(c, l) := match JobVars.set_config name (v_nv c) (Configs x) with
                     | Some r => r
                     | None => let c := set_owner (r_ID x) c in (c, Configs x ++ [c])
                     end in
      Some (c, set_NameValueConfigs (<[name := v]> (NameValueConfigs x)) (set_Configs l x))
  end.
Definition DeleteConfig (name : string) (x : JobResource) : option Variable_ * JobResource :=
  let x := set_NameValueConfigs (delete name (NameValueConfigs x)) x in
  match remove_first name (Configs x) with Some l => (List.find (named name) (Configs x), set_Configs l x) | None => (None, x) end.
Fixpoint add_configs (l : list (string * gvalue)) (x : JobResource) : option JobResource :=
  match l with
  | [] => Some x
  | (n, v) :: l => match AddConfig n v x with Some (_, x) => add_configs l x | None => None end
  end.
Definition ValidateBeforeSave (x : JobResource) : option JobResource :=
  if Validate x then add_configs (range (NameValueConfigs x)) (set_texts (basic x) (Join (ResourceTags (basic x)) ",") x) else None.
Fixpoint read_configs (l : list Variable_) (m : gmap string gvalue) : option (gmap string gvalue) :=
  match l with
  | [] => Some m
  | c :: l => match GetParsedValue (v_nv c) with Some v => read_configs l (<[Name (v_nv c) := GPlain v]> m) | None => None end
  end.
Definition AfterLoad (x : JobResource) : option JobResource :=
  let x := set_texts (set_Tags (SplitTags (TagsSerialized x)) (basic x)) (TagsSerialized x) x in
  (fun m => set_NameValueConfigs m x) <$> read_configs (Configs x) ∅.
(** [None]: they are equal as far as it looks. *)
Inductive difference := Invalid | OtherType | OtherConfigs.
Definition Equals (x y : JobResource) : option difference :=
  match ValidateBeforeSave x, ValidateBeforeSave y with
  | Some x, Some y =>
      if ResourceType (basic x) != ResourceType (basic y) then Some OtherType
      else if negb (List.length (Configs x) =? List.length (Configs y))%nat then Some OtherConfigs
      else None
  | _, _ => Some Invalid
  end.
End Values.
End Res.
Import Res.

(** ** The repository *)
Module ResRepo.
Record St := mkSt {
  resources : list JobResource;
  configs : list Variable_;
  uses : list JobResourceUse;
  asked : nat;
  made : nat;
  time : Z
}.
Class World := {
  fails : nat -> bool;
  ulid : nat -> string;
  indexes : bool;
  not_in_empty : bool
}.
Inductive error := ValidationError | NotFoundError | PermissionError | DBError | QuotaExceeded (sum : Z).
Definition M (A : Type) : Type := St -> (A + error) * St.
Definition ret {A} (a : A) : M A := fun s => (inl a, s).
Definition throw {A} (e : error) : M A := fun s => (inr e, s).
Definition bind {A B} (m : M A) (k : A -> M B) : M B := fun s => match m s with (inl a, s) => k a s | (inr e, s) => (inr e, s) end.
Definition attempt {A} (m : M A) : M (A + error) := fun s => let '(r, s) := m s in (inl r, s).
Declare Scope res_scope.
Notation "x <- m ;; k" := (bind m (fun x => k)) (at level 100, m at next level, right associativity) : res_scope.
Notation "m ;;; k" := (bind m (fun _ => k)) (at level 100, right associativity) : res_scope.
Open Scope res_scope.

Definition set_tables (r : list JobResource) (c : list Variable_) (u : list JobResourceUse) (s : St) : St := mkSt r c u (asked s) (made s) (time s).
Definition tick (s : St) : St := mkSt (resources s) (configs s) (uses s) (S (asked s)) (made s) (time s).
Definition now : M Z := fun s => (inl (time s), s).
(** The row of a resource, without what the other tables hold. *)
Definition row_of (x : JobResource) : JobResource := set_texts (set_Tags [] (basic x)) (TagsSerialized x) (set_NameValueConfigs ∅ (set_Uses [] (set_Configs [] x))).
Definition column (x : JobResource) (c : string) : string :=
  if c == "user_id" then r_UserID x else if c == "organization_id" then r_OrganizationID x else "".
Definition in_scope (qc : QueryContext) (readonly : bool) (x : JobResource) : bool := AddOrgElseUserWhere qc readonly (column x).
Definition update {A} (p : A -> bool) (f : A -> A) (l : list A) : list A := map (fun x => if p x then f x else x) l.
Definition count {A} (p : A -> bool) (l : list A) : nat := List.length (List.filter p l).

Section Repo.
Context `{World} `{RangeOrder} `{Json} `{Decoder}.
Definition ulid_Make : M string := fun s => (inl (ulid (made s)), mkSt (resources s) (configs s) (uses s) (asked s) (S (made s)) (time s)).
Definition exec {A} (f : St -> (A + error) * St) : M A := fun s => if fails (asked s) then (inr DBError, tick s) else f (tick s).
Definition query {A} (f : St -> A) : M A := exec (fun s => (inl (f s), s)).
Definition transaction {A} (m : M A) : M A :=
  fun s =>
    match m s with
    | (inl a, s') => if fails (asked s') then (inr DBError, set_tables (resources s) (configs s) (uses s) (tick s')) else (inl a, tick s')
    | (inr e, s') => (inr e, set_tables (resources s) (configs s) (uses s) s')
    end.
Definition with_configs (s : St) (x : JobResource) : JobResource := set_Configs (List.filter (fun c => v_Owner c == r_ID x) (configs s)) x.
Definition with_uses (s : St) (x : JobResource) : JobResource := set_Uses (List.filter (fun u => (u_JobResourceID u == r_ID x) && u_Active u) (uses s)) x.
Definition loaded (x : JobResource) : M JobResource := match AfterLoad x with Some x => ret x | None => throw ValidationError end.

Definition Get (qc : QueryContext) (id : string) : M JobResource :=
  found <- attempt (query (fun s => with_configs s <$> List.find (fun x => in_scope qc true x && (r_ID x == id) && r_Active x) (resources s))) ;;
  match found with inl (Some x) => loaded x | _ => throw NotFoundError end.
(** An update of the rows of an identifier that the caller may write. *)
Definition mark (qc : QueryContext) (p : JobResource -> bool) (f : Z -> JobResource -> JobResource) : M unit :=
  t <- now ;;
  n <- attempt (exec (fun s => let q x := in_scope qc false x && p x in (inl (count q (resources s)), set_tables (update q (f t) (resources s)) (configs s) (uses s) s))) ;;
  match n with inl n => if (n =? 1)%nat then ret tt else throw NotFoundError | inr _ => throw NotFoundError end.
Definition SetDisabled (qc : QueryContext) (id : string) (disabled : bool) : M unit :=
  mark qc (fun x => r_ID x == id) (fun t x => set_flags (r_Active x) disabled (set_times (r_CreatedAt x) t x)).
Definition Delete (qc : QueryContext) (id : string) : M unit :=
  mark qc (fun x => (r_ID x == id) && r_Active x) (fun t x => set_flags false (Disabled x) (set_times (r_CreatedAt x) t x)).

(** [Find] leaves an empty record and no error when there is no row. *)
Definition no_row : JobResource := mkResource no_resource "" "" "" false 0 0 false [] [] "" "" 0 0 false ∅.
Definition getByExternalID (qc : QueryContext) (id : string) : M JobResource :=
  query (fun s => match List.find (fun x => in_scope qc true x && (ExternalID x == id)) (resources s) with Some x => x | None => no_row end).
Definition not_in (x : string) (l : list string) : bool := match l with [] => not_in_empty | _ => negb (existsb (String.eqb x) l) end.
(** The result of the deletion is not looked at. *)
Definition clearOrphanJobConfigs (x : JobResource) : M unit :=
  attempt (exec (fun s => (inl tt, set_tables (resources s)
             (List.filter (fun c => negb (not_in (v_ID c) (map v_ID (Configs x)) && (v_Owner c == r_ID x))) (configs s)) (uses s) s))) ;;;
  ret tt.
Fixpoint name_configs (id : string) (l : list Variable_) : M (list Variable_) :=
  match l with
  | [] => ret []
  | c :: l =>
      c <- (if v_ID c == "" then x <- ulid_Make ;; ret (mkVariable (v_nv c) x id) else ret (mkVariable (v_nv c) (v_ID c) id)) ;;
      l <- name_configs id l ;;
      ret (c :: l)
  end.
(** A row that is there only gets its owner. *)
Definition put_config (l : list Variable_) (c : Variable_) : list Variable_ :=
  if existsb (fun y => v_ID y == v_ID c) l then update (fun y => v_ID y == v_ID c) (set_owner (v_Owner c)) l else l ++ [c].
Definition taken (x : JobResource) (l : list JobResource) : bool :=
  existsb (fun y => (r_ID y == r_ID x) || (indexes && (ResourcePlatform (basic y) == ResourcePlatform (basic x)) && (ExternalID y == ExternalID x))) l.
Definition create (x : JobResource) : M unit :=
  exec (fun s => if taken x (resources s) then (inr DBError, s)
                 else (inl tt, set_tables (resources s ++ [row_of x]) (foldl put_config (configs s) (Configs x)) (uses s) s)).
Definition store (x : JobResource) : M unit :=
  exec (fun s => (inl tt, set_tables (update (fun y => r_ID y == r_ID x) (fun _ => row_of x) (resources s)) (foldl put_config (configs s) (Configs x)) (uses s) s)).
Definition Save (qc : QueryContext) (x : JobResource) : M JobResource :=
  match ValidateBeforeSave x with
  | None => throw ValidationError
  | Some x =>
      let x := set_owner_of (GetOrganizationID qc) (GetUserID qc) x in
      transaction (
        t <- now ;;
        old <- attempt (getByExternalID qc (ExternalID x)) ;;
        let x := match old with inl o => set_times (r_CreatedAt o) (r_UpdatedAt x) (set_identity (r_ID o) (ExternalID x) x) | inr _ => x end in
        ext <- (if ExternalID x == "" then ulid_Make else ret (ExternalID x)) ;;
        let x := set_identity (r_ID x) ext x in
        x_new <- (if r_ID x == "" then
                    id <- ulid_Make ;;
                    ret (set_times t t (set_identity id (ExternalID x) x), true)
                  else
                    o <- Get qc (r_ID x) ;;
                    if negb (Editable (GetUserID qc) (GetOrganizationID qc) o) then throw PermissionError
                    else
                      let x := set_times (r_CreatedAt x) t x in
                      clearOrphanJobConfigs x ;;;
                      ret (x, false)) ;;
        let '(x, newReq) := x_new in
        let x := set_flags true (Disabled x) x in
        l <- name_configs (r_ID x) (Configs x) ;;
        let x := set_Configs l x in
        (if (newReq : bool) then create x else store x) ;;;
        ret x)
  end.

(** A failing query is no error here: the named result is still empty. *)
Fixpoint match_all (tags : list string) (value : Z) (l : list JobResource) : option (list JobResource) :=
  match l with
  | [] => Some []
  | x :: l =>
      match AfterLoad x with
      | None => None
      | Some x => (fun rest => if (value <=? RemainingQuota x) && MatchTag tags x then x :: rest else rest) <$> match_all tags value l
      end
  end.
Definition MatchByTags (qc : QueryContext) (resourceType platform : string) (tags : list string) (value : Z) : M (list JobResource * Z) :=
  found <- attempt (query (fun s => map (fun x => with_uses s (with_configs s x)) (firstn 1000
             (List.filter (fun x => in_scope qc true x && r_Active x && negb (Disabled x) && (ResourcePlatform (basic x) == platform)
                                    && (ResourceType (basic x) == resourceType)) (resources s))))) ;;
  match found with
  | inr _ => ret ([], 0)
  | inl l => match match_all tags value l with Some matching => ret (matching, Z.of_nat (List.length l)) | None => throw ValidationError end
  end.

(** *** Allocation *)
Definition of_resource (id : string) (u : JobResourceUse) : bool := (u_JobResourceID u == id) && u_Active u.
Definition usedQuota (id : string) : M Z := query (fun s => used (List.filter (of_resource id) (uses s))).
Definition GetUsedQuota (id : string) : M Z := usedQuota id.
Definition same_task (a b : JobResourceUse) : bool :=
  (u_JobResourceID a == u_JobResourceID b) && (u_JobRequestID a =? u_JobRequestID b) && (u_TaskExecutionID a == u_TaskExecutionID b).
Definition create_use (u : JobResourceUse) : M unit :=
  exec (fun s => if existsb (fun v => (u_ID v == u_ID u) || (indexes && same_task v u)) (uses s) then (inr DBError, s)
                 else (inl tt, set_tables (resources s) (configs s) (uses s ++ [set_u_RemainingQuota 0 u]) s)).
Definition Allocate (x : JobResource) (u : JobResourceUse) : M JobResourceUse :=
  match use_Validate u with
  | Some _ => throw ValidationError
  | None =>
      transaction (
        t <- now ;;
        id <- ulid_Make ;;
        let u := mkUse id (r_ID x) (u_JobRequestID u) (u_TaskExecutionID u) (u_UserID u) (u_Value u) (Aborted u) true t t (u_ExpiresAt u) (u_RemainingQuota u) in
        create_use u ;;;
        sum <- usedQuota (r_ID x) ;;
        if Quota x <? sum then throw (QuotaExceeded sum) else ret (set_u_RemainingQuota sum u))
  end.
Definition Deallocate (u : JobResourceUse) : M unit :=
  t <- now ;;
  n <- attempt (exec (fun s => let q v := (u_ID v == u_ID u) && u_Active v in
                               (inl (count q (uses s)), set_tables (resources s) (configs s) (update q (set_u_Active false t) (uses s)) s))) ;;
  match n with inl n => if (n =? 1)%nat then ret tt else throw NotFoundError | inr _ => throw NotFoundError end.
(** The table of uses has no column for organizations. *)
Definition GetResourceUses (qc : QueryContext) (id : string) : M (list JobResourceUse) :=
  exec (fun s =>
    match User_ qc with
    | Some u =>
        if negb (IsAdmin qc || IsReadAdmin qc) && (Users.OrganizationID u != "") && (OrganizationIDColumn qc != "") then (inr DBError, s)
        else (inl (firstn 10000 (List.filter (fun v => AddUserWhere qc true (fun c => if c == "user_id" then u_UserID v else "") && of_resource id v) (uses s))), s)
    | None => (inl (firstn 10000 (List.filter (of_resource id) (uses s))), s)
    end).

(** *** Configurations and searches *)
Definition SaveConfig (qc : QueryContext) (resID name : string) (v : gvalue) : M Variable_ :=
  transaction (
    old <- attempt (Get qc resID) ;;
    match old with
    | inr _ => throw NotFoundError
    | inl old =>
        match AddConfig name v old with
        | None => throw ValidationError
        | Some (c, _) =>
            let c := set_owner (r_ID old) c in
            if negb (config_Validate c) then throw ValidationError
            else
              id <- (if v_ID c == "" then ulid_Make else ret (v_ID c)) ;;
              let c := mkVariable (v_nv c) id (v_Owner c) in
              exec (fun s => (inl tt, set_tables (resources s)
                (if existsb (fun y => v_ID y == id) (configs s) then update (fun y => v_ID y == id) (fun _ => c) (configs s) else configs s ++ [c]) (uses s) s)) ;;;
              ret c
        end
    end).
Definition DeleteConfigByID (qc : QueryContext) (resID configID : string) : M unit :=
  transaction (
    old <- attempt (Get qc resID) ;;
    match old with
    | inr _ => throw NotFoundError
    | inl old =>
        match GetConfigByID configID old with
        | None => throw NotFoundError
        | Some c => exec (fun s => (inl tt, set_tables (resources s) (List.filter (fun y => negb (v_ID y == v_ID c)) (configs s)) (uses s) s))
        end
    end).
Fixpoint load_all (l : list JobResource) : option (list JobResource) :=
  match l with [] => Some [] | x :: l => match AfterLoad x with Some x => (x ::.) <$> load_all l | None => None end end.
Definition visible (qc : QueryContext) (cond : JobResource -> bool) (x : JobResource) : bool := in_scope qc true x && r_Active x && cond x.
Definition Count (qc : QueryContext) (cond : JobResource -> bool) : M Z :=
  n <- attempt (query (fun s => Z.of_nat (count (visible qc cond) (resources s)))) ;;
  ret (match n with inl n => n | inr _ => 0 end).
(** A failing query gives no resources and no error. *)
Definition Query (qc : QueryContext) (cond : JobResource -> bool) (page pageSize : nat) (order : option (JobResource -> JobResource -> bool))
    : M (list JobResource * Z) :=
  let less := match order with Some f => f | None => fun a b => String.ltb (ResourceType (basic a)) (ResourceType (basic b)) end in
  found <- attempt (query (fun s => map (with_configs s) (firstn pageSize (skipn (page * pageSize) (sort_slice less (List.filter (visible qc cond) (resources s))))))) ;;
  match found with
  | inr _ => ret ([], 0)
  | inl l =>
      match load_all l with
      | None => throw ValidationError
      | Some l => n <- Count qc cond ;; ret (l, n)
      end
  end.
End Repo.
End ResRepo.
