(* ===== verification/JobResourcesSpec.v ===== *)
(** * JobResourcesSpec: what is allocated stays within the quota

    Whatever is allocated and released, and whatever fails, the active uses of a
    resource add up to its quota at most, as long as every use takes something.
    The inputs at the end show a negative use that breaks it, and updates that make
    another resource or can no longer be made. *)

From Stdlib Require Import Ascii.
From S2P Require Import Prelude Acl Tags Approval JobRequest Variables VariablesSpec JobResources.
Import Query NameValue Settings Res ResRepo.

Open Scope Z_scope.
Open Scope go_scope.

(** ** Sums *)
Lemma used_from n l : foldl (fun n u => n + u_Value u) n l = n + used l.
Proof.
  unfold used. revert n. induction l as [|u l IH]; intros n; cbn [foldl]; [lia|]. rewrite IH, (IH (0 + u_Value u)). lia.
Qed.
Lemma used_cons u l : used (u :: l) = u_Value u + used l.
Proof. unfold used at 1. cbn [foldl]. rewrite used_from. lia. Qed.
Lemma used_app a b : used (a ++ b) = used a + used b.
Proof. induction a as [|u a IH]; [done|]. cbn [app]. rewrite !used_cons, IH. lia. Qed.
Definition taken_of (id : string) (l : list JobResourceUse) : Z := used (List.filter (of_resource id) l).
Lemma taken_app id a b : taken_of id (a ++ b) = taken_of id a + taken_of id b.
Proof. unfold taken_of. by rewrite List.filter_app, used_app. Qed.
Definition positive (l : list JobResourceUse) : Prop := Forall (fun u => 0 < u_Value u) l.
(** Releasing uses that take something leaves less. *)
Lemma taken_release id q t l : positive l -> taken_of id (update q (set_u_Active false t) l) <= taken_of id l.
Proof.
  unfold taken_of, update. induction l as [|u l IH]; intros Hp; cbn [map List.filter]; [done|]. apply Forall_cons in Hp as [Hu Hp]. specialize (IH Hp).
  destruct (q u).
  - assert (of_resource id (set_u_Active false t u) = false) as -> by apply andb_false_r. destruct (of_resource id u); rewrite ?used_cons; lia.
  - destruct (of_resource id u); rewrite ?used_cons; lia.
Qed.
Lemma positive_release q t l : positive l -> positive (update q (set_u_Active false t) l).
Proof. intros Hp. apply Forall_fmap. eapply Forall_impl; [exact Hp|]. intros u Hu. cbn. by destruct (q u). Qed.

Section Quota.
Context `{World} `{RangeOrder} `{Json} `{Decoder}.

(** ** Operations that do not touch the uses *)
Lemma res_bind_inv {A B} (m : M A) (k : A -> M B) s r s' :
  bind m k s = (r, s') -> (exists a s1, m s = (inl a, s1) /\ k a s1 = (r, s')) \/ (exists e, m s = (inr e, s') /\ r = inr e).
Proof. unfold bind. destruct (m s) as [[a|e] s1]; [left; eauto|right; exists e]. by split; congruence. Qed.
Definition aside {A} (m : M A) : Prop := forall s r s', m s = (r, s') -> uses s' = uses s.
Lemma aside_ret {A} (a : A) : aside (ret a).
Proof. by intros s r s' [= _ <-]. Qed.
Lemma aside_throw {A} (e : error) : aside (throw (A := A) e).
Proof. by intros s r s' [= _ <-]. Qed.
Lemma aside_now : aside now.
Proof. by intros s r s' [= _ <-]. Qed.
Lemma aside_ulid : aside ulid_Make.
Proof. by intros s r s' [= _ <-]. Qed.
Lemma aside_bind {A B} (m : M A) (k : A -> M B) : aside m -> (forall a, aside (k a)) -> aside (bind m k).
Proof. intros Hm Hk s r s' [(a & s1 & E1%Hm & E2%Hk)|(e & E%Hm & _)]%res_bind_inv; congruence. Qed.
Lemma aside_attempt {A} (m : M A) : aside m -> aside (attempt m).
Proof. intros Hm s r s'. unfold attempt. destruct (m s) as [x s1] eqn:E. intros [= _ <-]. by eapply Hm. Qed.
Lemma aside_exec {A} (f : St -> (A + error) * St) : (forall s r s', f s = (r, s') -> uses s' = uses s) -> aside (exec f).
Proof. intros Hf s r s'. unfold exec. destruct (fails (asked s)); [by intros [= _ <-]|]. apply (Hf (tick s)). Qed.
Lemma aside_query {A} (f : St -> A) : aside (query f).
Proof. apply aside_exec. by intros s r s' [= _ <-]. Qed.
Lemma aside_transaction {A} (m : M A) : aside m -> aside (transaction m).
Proof.
  intros Hm s r s'. unfold transaction. destruct (m s) as [[a|e] s1] eqn:E; [|by intros [= _ <-]]. apply Hm in E.
  by destruct (fails (asked s1)); intros [= _ <-].
Qed.
Create HintDb aside.
#[local] Hint Resolve aside_ret aside_throw aside_now aside_ulid aside_query : aside.
Ltac aside :=
  repeat first
    [ progress eauto with aside
    | apply aside_bind; [|intros] | apply aside_attempt | apply aside_transaction
    | apply aside_exec; intros; by simplify_eq
    | apply aside_exec; intros; case_match; by simplify_eq
    | case_match ].
Lemma aside_Get qc id : aside (Get qc id).
Proof. unfold Get, loaded. aside. Qed.
Lemma aside_mark qc p f : aside (mark qc p f).
Proof. unfold mark. aside. Qed.
#[local] Hint Resolve aside_Get aside_mark : aside.
Lemma aside_name_configs id l : aside (name_configs id l).
Proof. induction l as [|c l IH]; cbn; aside. Qed.
#[local] Hint Resolve aside_name_configs : aside.
Lemma aside_Save qc x : aside (Save qc x).
Proof. unfold Save, getByExternalID, clearOrphanJobConfigs, create, store. aside. Qed.
Lemma aside_MatchByTags qc a b c v : aside (MatchByTags qc a b c v).
Proof. unfold MatchByTags. aside. Qed.
Lemma aside_SaveConfig qc a b c : aside (SaveConfig qc a b c).
Proof. unfold SaveConfig. aside. Qed.
Lemma aside_DeleteConfigByID qc a b : aside (DeleteConfigByID qc a b).
Proof. unfold DeleteConfigByID. aside. Qed.
Lemma aside_Query qc c p n o : aside (Query qc c p n o).
Proof. unfold Query, Count. aside. Qed.

(** ** Allocation *)
Definition new_use (x : JobResource) (u : JobResourceUse) (s : St) : JobResourceUse :=
  mkUse (ulid (made s)) (r_ID x) (u_JobRequestID u) (u_TaskExecutionID u) (u_UserID u) (u_Value u) (Aborted u) true (time s) (time s) (u_ExpiresAt u) 0.
Lemma Allocate_effect x u s r s' : Allocate x u s = (r, s') ->
  match r with
  | inl v => uses s' = uses s ++ [new_use x u s] /\ taken_of (r_ID x) (uses s') <= Quota x /\ u_RemainingQuota v = taken_of (r_ID x) (uses s')
  | inr _ => uses s' = uses s
  end.
Proof.
  unfold Allocate. destruct (use_Validate u); [by intros [= <- <-]|]. unfold transaction, bind, now, ulid_Make, create_use, usedQuota, query, exec.
  cbn. destruct (fails (asked s)); [by intros [= <- <-]|]. cbn. destruct (existsb _ (uses s)); [by intros [= <- <-]|]. cbn.
  destruct (fails _); [by intros [= <- <-]|]. cbn. destruct (Quota x <? _) eqn:E; [by intros [= <- <-]|]. apply Z.ltb_ge in E. cbn.
  destruct (fails _); [by intros [= <- <-]|]. intros [= <- <-]. cbn. done.
Qed.
Lemma Deallocate_effect u s r s' : Deallocate u s = (r, s') ->
  uses s' = uses s \/ exists t, uses s' = update (fun v => (u_ID v == u_ID u) && u_Active v) (set_u_Active false t) (uses s).
Proof.
  unfold Deallocate, bind, now, attempt, exec. cbn. destruct (fails (asked s)); [intros [= _ <-]; by left|]. cbn.
  destruct (_ =? 1)%nat; intros [= _ <-]; right; by eexists.
Qed.

(** Any operation of the repository; an allocation names the resource with at most
    the given quota and takes something. *)
Inductive step (quota : string -> Z) (s : St) : St -> Prop :=
| s_allocate x u r s' : Quota x <= quota (r_ID x) -> 0 < u_Value u -> Allocate x u s = (r, s') -> step quota s s'
| s_deallocate u r s' : Deallocate u s = (r, s') -> step quota s s'
| s_save qc x r s' : Save qc x s = (r, s') -> step quota s s'
| s_delete qc id r s' : Delete qc id s = (r, s') -> step quota s s'
| s_disable qc id b r s' : SetDisabled qc id b s = (r, s') -> step quota s s'
| s_match qc a b c v r s' : MatchByTags qc a b c v s = (r, s') -> step quota s s'
| s_save_config qc id n v r s' : SaveConfig qc id n v s = (r, s') -> step quota s s'
| s_delete_config qc id c r s' : DeleteConfigByID qc id c s = (r, s') -> step quota s s'
| s_query qc c p n o r s' : Query qc c p n o s = (r, s') -> step quota s s'.
Definition within (quota : string -> Z) (s : St) : Prop := positive (uses s) /\ forall id, taken_of id (uses s) <= quota id.
Lemma within_same quota s s' : within quota s -> uses s' = uses s -> within quota s'.
Proof. unfold within. by intros Hw ->. Qed.
Lemma step_within quota s s' : within quota s -> step quota s s' -> within quota s'.
Proof.
  intros Hw Hs. destruct Hs as [x u r s' Hq Hv E|u r s' E|qc x r s' E|qc id r s' E|qc id b r s' E|qc a b c v r s' E|qc id n v r s' E|qc id c r s' E|qc c p n o r s' E].
  - apply Allocate_effect in E. destruct r as [v|e]; [|by apply (within_same _ _ _ Hw)]. destruct E as (R & Hle & _), Hw as [Hp Hall]. split.
    + rewrite R. apply Forall_app. split; [done|]. by apply Forall_singleton.
    + intros id. destruct (decide (id = r_ID x)) as [->|Hne]; [lia|]. rewrite R, taken_app.
      assert (taken_of id [new_use x u s] = 0) as ->; [|specialize (Hall id); lia].
      unfold taken_of. cbn [List.filter]. assert (of_resource id (new_use x u s) = false) as ->; [|done].
      unfold of_resource. cbn. apply andb_false_iff. left. by apply String.eqb_neq.
  - apply Deallocate_effect in E as [E|[t E]]; [by apply (within_same _ _ _ Hw)|]. destruct Hw as [Hp Hall]. unfold within. rewrite E.
    split; [by apply positive_release|]. intros id. pose proof (taken_release id (fun v => (u_ID v == u_ID u) && u_Active v) t (uses s) Hp). specialize (Hall id). lia.
  - apply (within_same _ _ _ Hw). by eapply aside_Save.
  - apply (within_same _ _ _ Hw). by eapply aside_mark.
  - apply (within_same _ _ _ Hw). by eapply aside_mark.
  - apply (within_same _ _ _ Hw). by eapply aside_MatchByTags.
  - apply (within_same _ _ _ Hw). by eapply aside_SaveConfig.
  - apply (within_same _ _ _ Hw). by eapply aside_DeleteConfigByID.
  - apply (within_same _ _ _ Hw). by eapply aside_Query.
Qed.

(** C38: after any sequence of operations on resources, with any failures of the
    database, the active uses of every resource add up to its quota at most: when
    they did at the start, every use takes something, and the allocations name
    resources with at most that quota. *)
Theorem allocations_stay_within_quota quota s s'
    (start : within quota s)
    (run : rtc (step quota) s s') :
  forall id, taken_of id (uses s') <= quota id.
Proof.
  assert (within quota s') as [_ Hall]; [|exact Hall]. induction run as [s|s s1 s2 Hs _ IH]; [done|]. apply IH. by eapply step_within.
Qed.
End Quota.

(** ** A license for two *)
Module ResourcesDemo.
#[local] Instance calm : World := {| fails := fun _ => false; ulid := fun n => itoa (Z.of_nat n); indexes := true; not_in_empty := false |}.
Definition down : World := {| fails := fun _ => true; ulid := fun n => itoa (Z.of_nat n); indexes := true; not_in_empty := false |}.
#[local] Existing Instances VariablesDemo.demo_json VariablesDemo.demo_decoder.
Definition empty : St := mkSt [] [] [] 0 0 1000.
Definition license : JobResource := set_identity "r1" "lic" (NewJobResource 0 "license" 2).
Definition use (task : string) (value : Z) : JobResourceUse := NewJobResourceUse 0 "r1" 7 task "ann" value 99999.
Definition quota (id : string) : Z := if id == "r1" then 2 else 0.
Definition after {A} (m : M A) (s : St) : St := snd (m s).
Definition one : St := after (@Allocate calm license (use "a" 1)) empty.
Definition two : St := after (@Allocate calm license (use "b" 1)) one.
Definition three : St := after (@Allocate calm license (use "c" 1)) two.
Lemma allocations_stay_within_quota_witness :
  List.length (uses two) = 2%nat /\ uses three = uses two /\ taken_of "r1" (uses three) <= 2.
Proof.
  split; [vm_compute; reflexivity|]. split; [vm_compute; reflexivity|].
  refine (allocations_stay_within_quota quota empty three _ _ "r1").
  - split; [apply Forall_nil_2|]. intros id. unfold quota. vm_compute taken_of. destruct (id == "r1"); discriminate.
  - apply (rtc_l _ _ one); [|apply (rtc_l _ _ two); [|apply (rtc_l _ _ three); [|apply rtc_refl]]].
    + apply (s_allocate quota empty license (use "a" 1) _ one ltac:(vm_compute; discriminate) ltac:(reflexivity) (surjective_pairing _)).
    + apply (s_allocate quota one license (use "b" 1) _ two ltac:(vm_compute; discriminate) ltac:(reflexivity) (surjective_pairing _)).
    + apply (s_allocate quota two license (use "c" 1) _ three ltac:(vm_compute; discriminate) ltac:(reflexivity) (surjective_pairing _)).
Defined.
(** A negative use makes room that stays taken when it is released. *)
Example negative_use_breaks_the_quota :
  let s1 := after (@Allocate calm license (use "a" (-3))) empty in
  let s2 := after (@Allocate calm license (use "b" 5)) s1 in
  let s3 := match uses s1 with u :: _ => after (@Deallocate calm u) s2 | [] => s2 end in
  taken_of "r1" (uses s3) = 5.
Proof. vm_compute. reflexivity. Qed.
(** An allocation tells what is used as what remains. *)
Example remaining_is_used :
  match fst (@Allocate calm license (use "b" 1) one) with inl u => u_RemainingQuota u = 2 | inr _ => False end.
Proof. vm_compute. reflexivity. Qed.
(** A task that has released its use cannot take it again. *)
Example released_use_is_not_taken_again :
  let s1 := match uses one with u :: _ => after (@Deallocate calm u) one | [] => one end in
  fst (@Allocate calm license (use "a" 1) s1) = inr DBError.
Proof. vm_compute. reflexivity. Qed.

Definition ann : QueryContext := NewQueryContext (Some (Users.mkUser "ann" "acme" "" "" None None)).
Definition save (x : JobResource) (s : St) : (JobResource + error) * St :=
  @Save calm map_to_list_order VariablesDemo.demo_json VariablesDemo.demo_decoder ann x s.
Definition saved : St := snd (save (set_identity "" "lic" (NewJobResource 0 "license" 2)) empty).
(** A resource that is saved under its identifier with a new external identifier
    becomes a second resource. *)
Example update_makes_another :
  map r_ID (resources saved) = ["0"] /\ map r_ID (resources (snd (save (set_identity "0" "other" (NewJobResource 0 "license" 3)) saved))) = ["0"; "1"].
Proof. split; vm_compute; reflexivity. Qed.
(** The external identifier of a deleted resource cannot be used again. *)
Example deleted_identifier_is_lost :
  fst (save (set_identity "" "lic" (NewJobResource 0 "license" 2)) (after (@Delete calm ann "0") saved)) = inr NotFoundError.
Proof. vm_compute. reflexivity. Qed.
(** A search on a failing database finds nothing and reports no error. *)
Example failed_match_is_empty :
  fst (@MatchByTags down VariablesDemo.demo_decoder ann "license" "" [] 1 saved) = inl ([], 0).
Proof. vm_compute. reflexivity. Qed.
(** A member of an organization cannot see the uses of a resource. *)
Example organization_sees_no_uses : fst (@GetResourceUses calm ann "r1" one) = inr DBError.
Proof. vm_compute. reflexivity. Qed.
End ResourcesDemo.
